(* ===== verification/_CoqProject ===== *)
-Q . S2P
Prelude.v
Lists.v
Wire.v
Types.v
Example.v
Control.v
Peer.v
Reassembly.v
Pool.v
Grant.v
GrantLists.v
GrantPick.v
GrantOrder.v
GrantRecalc.v
GrantCheck.v
PoolWait.v
Outgoing.v
OutXmit.v
OutFill.v
OutResend.v
Sock.v
Handoff.v
Rpc.v
RpcInv.v
RpcFree.v
Copy.v
RpcServer.v
Incoming.v
Utils.v
Softirq.v
Syscall.v
Receiver.v
Timer.v
Skb.v
SkbInv.v
SkbAlloc.v
SkbData.v
SkbFree.v
Offload.v
OffloadGro.v
OffloadBatch.v
EndToEnd.v
OffloadTcp.v
Load.v
TimeTrace.v
TimeTraceRead.v
TimeTraceRing.v
UserTrace.v
Metrics.v
Prio.v
Dissector.v
CpConn.v
CpServer.v
CpHoma.v
CpClient.v
CpTcpClient.v
CpStats.v
Workloads.v
Dist.v
CpCmd.v
