(* ===== verification/Prelude.v ===== *)
(** * ConnectedHoma: a verification library

    ConnectedHoma is a Linux kernel module with the Homa transport protocol, a
    protocol for remote procedure calls over datagrams, extended with connected
    sockets ([connect]) and with sockets that are split off a listening socket
    for one remote host (peeloff).  This library models the module, its
    user-level library and the programs that go with it as functions of Rocq,
    and proves that they work.

    ** The program and its model

    A client's [sendmsg] creates an RPC, cuts the message into packets and
    sends as much as the receiver accepts unasked; the receiver grants the rest
    to the shortest messages first.  Arriving packets are collected by GRO,
    passed to a core, dispatched to their RPC and copied to buffers of the
    application; a complete message is handed to a thread in [recvmsg].
    Timers ask for missing packets and give up.  The benchmark program cp_node
    has clients, which keep requests of a workload under way and measure how
    long they take, and servers, which answer them, over Homa or over TCP; it
    is controlled by commands.

    The state of the module is the record [world] of Types.v: the tables of
    RPCs, sockets and peers (maps from pointers to records with the fields of
    the C structs), [homa] with the global variables, and the host (clock,
    packets sent, user memory).  C functions that change it are computations of
    a state and error monad, [M A = world -> result (A * world)]; a [Fault] is
    an access out of bounds, through a bad pointer, a division by zero, a
    failing [BUG_ON] or the exit of a user-level program, and theorems that
    give an [Ok] show that there is none.
    Linked lists are lists of pointers, machine integers are [Z] with the
    wrap-around of their width written out.  What the host decides (memory,
    clock, routes, copies that fail, the NIC) is an argument or a stream in the
    state.  Components with a state of their own have their own instance of the
    monad: packet buffers, GRO, module loading, time traces, metrics, and the
    connections, servers, clients and commands of the benchmark.

    - Prelude.v, Lists.v: integers, arrays, results, record update; kernel lists.
    - Wire.v: homa_wire.h, and the packet filter of [homa_softirq].
    - Types.v: the structs of homa_impl.h, homa_rpc.h, homa_sock.h, homa_peer.h
      and homa_pool.h, and the monad.  Example.v: a small concrete state.
    - Control.v, Outgoing.v, OutXmit.v, OutFill.v, OutResend.v: homa_outgoing.c.
    - Peer.v: homa_peer.c.
    - Reassembly.v, Copy.v, Incoming.v: homa_incoming.c; Handoff.v: its threads
      that wait for messages, and the lookup of RPCs in homa_rpc.c.
    - Pool.v, PoolWait.v: homa_pool.c.
    - Grant.v, GrantLists.v, GrantPick.v, GrantOrder.v, GrantRecalc.v,
      GrantCheck.v: homa_grant.c.
    - Sock.v: homa_sock.c.
    - Rpc.v, RpcInv.v, RpcFree.v, RpcServer.v: homa_rpc.c, and the shutdown of
      sockets.
    - Timer.v: homa_timer.c.  Utils.v: homa_utils.c.
    - Softirq.v, Syscall.v, Load.v: homa_plumbing.c, with the threads of the
      timer and the pacer.
    - Skb.v, SkbInv.v, SkbAlloc.v, SkbData.v, SkbFree.v: homa_skb.c.
    - Offload.v, OffloadGro.v, OffloadBatch.v, OffloadTcp.v: homa_offload.c.
    - EndToEnd.v: a message from its sender to its receiver, with the functions
      of homa_outgoing.c, homa_offload.c and homa_incoming.c on both sides.
    - TimeTrace.v, TimeTraceRead.v, TimeTraceRing.v: timetrace.c.
    - UserTrace.v: util/time_trace.cc.
    - Metrics.v: homa_metrics.c.
    - Receiver.v: homa_api.c and homa_receiver.cc, over the system calls.
    - Prio.v: util/homa_prio.cc.  Dissector.v: dissector/homa.c.
    - CpConn.v, CpServer.v, CpHoma.v, CpClient.v, CpTcpClient.v, CpStats.v,
      CpCmd.v: util/cp_node.cc, namely TCP connections, TCP servers, Homa
      servers, clients, TCP clients, statistics and commands.
    - Workloads.v, Dist.v: util/dist.cc.

    Definitions have the names of the C functions; loops are functions of their
    own, next to the function that they belong to.

    ** What the theorems show

    - Receiving: an incoming message is put together from its packets exactly,
      in any order and with duplicates (Reassembly); with the buffers that the
      pool assigned, the application's memory gets the bytes of the message and
      nothing else (Copy), and [copy_out] of the user-level library finds them
      there (Receiver).  Handlers keep the tables well formed (Incoming), and
      one RPC is created per request (RpcServer).
    - Buffers: the buffers of messages are disjoint, freed ones can be used
      again, and the search for free pages ends (Pool); waiting RPCs are served
      in order (PoolWait).
    - Grants: the invariant of the lists, ranks and counters, which all
      operations keep; the recalculation ends; what is granted is within the
      limits, and goes to the right RPCs (GrantPick, GrantRecalc, GrantCheck).
    - Sending: packets tile the message (OutFill), are sent in order within the
      grants (OutXmit) and retransmitted exactly as requested (OutResend); a
      request becomes one RPC to the right destination (Syscall).
    - The whole way: a message that is sent by filling, transmission and
      retransmission, segmented by the host and delivered in any order, with
      losses and duplicates, is in the receiver's buffers byte for byte when it
      is complete, and it completes if nothing is lost (EndToEnd).
    - Sockets: ports are unique, scans are complete, packets go to the socket
      that is connected to the sender (Sock); after a peeloff too, but other
      sockets of a bucket can get lost (Syscall).
    - RPCs: the tables are well formed, a freed RPC is not reachable (RpcInv,
      RpcFree); every ready RPC goes to one thread (Handoff); silent RPCs end
      (Timer).
    - Packets: encodings are inverse to each other (Wire); every packet is
      processed once and in order (OffloadBatch, Softirq); pages of packet
      buffers have the right reference counts and contents, and none is lost
      (SkbData, SkbFree).
    - The module: initialisation establishes the invariants (Utils), a failed
      load leaves nothing behind, up to two exceptions (Load).
    - Diagnosis: a time trace is read as it was recorded (TimeTraceRing,
      UserTrace); so are the metrics (Metrics), and the daemon that reads them
      computes legal cutoffs (Prio).
    - The benchmark: messages keep their boundaries on a TCP stream (CpConn);
      servers answer every request once and in order (CpServer) and with its
      own bytes (CpHoma); clients account every response to its request under
      any interleaving of their threads (CpClient) and send what they queue
      (CpTcpClient); statistics are those of the clients and servers (CpStats);
      the lengths of messages follow the workload (Dist); commands do what they
      say (CpCmd).

    Some theorems describe errors of the code: the loss of sockets by peeloff,
    bytes behind the destination of [copy_out], buffers that are not returned,
    overflows in the metrics and the daemon, messages without length that stop
    a TCP connection for ever, arrays of the benchmark that are overrun, and
    others.

    ** Loops and fuel

    Loops that are not over a list have a [nat] that bounds the iterations, and
    the theorems show that it is enough: recalculation of grants 2 * RPCs + 1;
    search for pages 2 * pages + 4; waiting RPCs their number + 2; cutting a
    message its length; transmission the number of packets; retransmission the
    number of bytes of a packet; the choice of a port 32768; scans the number
    of buckets; reaping the count that is asked for; walks over sockets their
    number; copying the length of a packet and the number of packets; batches
    of packets the number of packets; appending to packets the number of bytes;
    stashing the number of pages; the rotation over cores their number;
    skipping events the size of a buffer; reading a trace 2 * events + 3, since
    every round takes an event or copies bytes; printing the number of events;
    the metrics the number of bytes, since the capacity doubles; [copy_out] the
    number of bytes; printing a user-level trace the number of slots of all
    buffers.  In the benchmark: reading from a connection the results of [read]
    and the bytes in them; a response of a Homa server 17, one more than the
    buffers of a message; the search for a slot the number of slots and one;
    digits of a number 20, enough for 64 bits; words of a command its length.
    The waiting loop of [recvmsg] depends on other threads: its number of
    rounds is an argument.

    ** Not modelled

    - Locks and true concurrency: functions run atomically; where the code
      drops its locks or sleeps, the steps of other threads are an argument
      ([homa_wait_for_message], scans of the socket table).  Functions that
      only wait for a lock ([homa_*_lock_slow]) are left out.
    - Metrics counters, except the reading of their text; [tt_record] in the
      protocol code; logging ([homa_rpc_log], [homa_print_packet],
      [homa_log_throttled], [homa_freeze] and their like): no effect on the
      protocol.
    - The refresh of an outdated route during transmission, and overflow
      of the [int] counters of granted bytes, whose sums are exact here.
    - [homa_choose_fifo_grant], which is obsolete and never called.
    - homa_stub.h (replacements of kernel symbols), the unit tests, the test
      programs in util/ (homa_test.cc, server.cc, smi.cc and others) and
      Testing-APPs/, which make system calls and print the results, and the
      scripts in Python that analyse traces and draw diagrams.
    - In cp_node: the creation and the end of threads and sockets, log
      messages, the help text, [measure_rtt] and [measure_unloaded], which only
      take times.  Its threads run in any order, with the steps of CpClient.v as
      the atomic ones; handlers of TCP servers, which hold locks, run as a whole.
    - Floating point in util/homa_prio.cc and in the statistics of cp_node: the
      results are arguments or left out.  The doubles of util/dist.cc that
      choose the points of a distribution are modelled with their rounding;
      means and overheads, which are only printed, are left out.
    - What the host makes of packets that are longer than a frame: EndToEnd.v
      has a hypothesis that segmentation cuts them at the right places. *)
From Stdlib Require Export ZArith Lia.
From stdpp Require Export prelude gmap sorting.

#[global] Open Scope Z_scope.
#[global] Set Warnings "-clear-no-such-hyp".

(** ** Hint databases

    [homa] holds the resolution hints of the library (bounds and
    well-formedness facts), [homa_rw] its directed rewriting rules. *)
Create HintDb homa discriminated.
Create Rewrite HintDb homa_rw.

(** ** Machine integers

    C integers are [Z] with the wrap-around of their width written out.  The
    kernel is built with [-fno-strict-overflow], so signed arithmetic wraps
    in two's complement. *)
Definition u8 (z : Z) : Z := z mod 2 ^ 8.
Definition u16 (z : Z) : Z := z mod 2 ^ 16.
Definition u32 (z : Z) : Z := z mod 2 ^ 32.
Definition u64 (z : Z) : Z := z mod 2 ^ 64.
Definition s32 (z : Z) : Z := (z + 2 ^ 31) mod 2 ^ 32 - 2 ^ 31.

#[global] Arguments u16 : simpl never.
#[global] Arguments u32 : simpl never.
#[global] Arguments u64 : simpl never.
#[global] Arguments s32 : simpl never.
#[global] Arguments Z.pow : simpl never.
#[global] Arguments Z.mul : simpl never.

Definition INT_MAX : Z := 2 ^ 31 - 1.
Definition INT_MIN : Z := - 2 ^ 31.

Definition is_int (z : Z) : Prop := INT_MIN <= z <= INT_MAX.
Definition is_u32 (z : Z) : Prop := 0 <= z < 2 ^ 32.
Definition is_u64 (z : Z) : Prop := 0 <= z < 2 ^ 64.

Ltac unfold_int :=
  unfold is_int, is_u32, is_u64, INT_MAX, INT_MIN, s32, u16, u32, u64 in *.

Lemma s32_id (z : Z) : is_int z -> s32 z = z.
Proof. unfold_int. intros H. rewrite Z.mod_small; lia. Qed.

Lemma s32_is_int (z : Z) : is_int (s32 z).
Proof.
  unfold_int. pose proof (Z.mod_pos_bound (z + 2 ^ 31) (2 ^ 32)). lia.
Qed.

Lemma u32_id (z : Z) : is_u32 z -> u32 z = z.
Proof. unfold_int. intros H. apply Z.mod_small; lia. Qed.

Lemma u64_id (z : Z) : is_u64 z -> u64 z = z.
Proof. unfold_int. intros H. apply Z.mod_small; lia. Qed.

Lemma u32_is_u32 (z : Z) : is_u32 (u32 z).
Proof. unfold_int. apply Z.mod_pos_bound. lia. Qed.

Lemma u64_is_u64 (z : Z) : is_u64 (u64 z).
Proof. unfold_int. apply Z.mod_pos_bound. lia. Qed.

#[export] Hint Resolve s32_is_int u32_is_u32 u64_is_u64 : homa.

(** ** Errno values

    Functions that fail return the negated constant, as in the source. *)
Definition ENOMEM : Z := 12.
Definition EFAULT : Z := 14.
Definition EINVAL : Z := 22.
Definition EAGAIN : Z := 11.
Definition ENOBUFS : Z := 105.
Definition EISCONN : Z := 106.
Definition EADDRINUSE : Z := 98.
Definition EAFNOSUPPORT : Z := 97.
Definition ESHUTDOWN : Z := 108.
Definition ETIMEDOUT : Z := 110.
Definition EINTR : Z := 4.
Definition ENOTCONN : Z := 107.
Definition EHOSTUNREACH : Z := 113.
Definition EPROTONOSUPPORT : Z := 93.
Definition ENOPROTOOPT : Z := 92.
Definition ENOTSUPP : Z := 524.

(** ** Faults

    What the kernel may not do: index an array out of its bounds, dereference
    a pointer that is not live, hit a [BUG_ON], divide by zero.  [OutOfFuel] is the result of
    a loop that was not given enough iterations; the termination theorems show
    that it is never the result under the stated fuel.  [ProcessExit] is the
    end of a user program that gives up with [exit(1)]. *)
Inductive fault := ArrayBounds | BadPointer | BugOn | DivByZero | OutOfFuel | ProcessExit.

Inductive result (A : Type) :=
| Ok (a : A)
| Fault (f : fault).
Arguments Ok {A} a.
Arguments Fault {A} f.

#[export] Instance fault_eq_dec : EqDecision fault.
Proof. solve_decision. Defined.

Definition result_bind {A B} (m : result A) (k : A -> result B) : result B :=
  match m with Ok a => k a | Fault f => Fault f end.

Declare Scope homa_scope.
Delimit Scope homa_scope with homa.
#[global] Open Scope homa_scope.

Notation "'let!' x ':=' m 'in' k" := (result_bind m (fun x => k))
  (at level 10, x pattern, m at level 100, k at level 200) : homa_scope.

Definition get {A} (f : fault) (o : option A) : result A :=
  match o with Some a => Ok a | None => Fault f end.

(** [arr l i] is the read [l[i]] of a C array of [length l] elements. *)
Definition arr {A} (l : list A) (i : Z) : result A :=
  if i <? 0 then Fault ArrayBounds else get ArrayBounds (l !! Z.to_nat i).

(** [arr_set l i x] is the store [l[i] = x]. *)
Definition arr_set {A} (l : list A) (i : Z) (x : A) : result (list A) :=
  if (0 <=? i) && (i <? Z.of_nat (length l))
  then Ok (<[Z.to_nat i := x]> l) else Fault ArrayBounds.

Lemma result_bind_Ok {A B} (m : result A) (k : A -> result B) b :
  result_bind m k = Ok b -> exists a, m = Ok a /\ k a = Ok b.
Proof. destruct m; simpl; [eauto | discriminate]. Qed.

Lemma arr_Ok {A} (l : list A) i x :
  arr l i = Ok x <-> 0 <= i /\ l !! Z.to_nat i = Some x.
Proof.
  unfold arr, get. destruct (Z.ltb_spec i 0); [split; [done | lia] |].
  destruct (l !! Z.to_nat i) eqn:E; split.
  - by intros [= ->].
  - by intros [_ [= ->]].
  - done.
  - by intros [_ ?].
Qed.

Lemma arr_set_Ok {A} (l : list A) i x l' :
  arr_set l i x = Ok l' <->
  0 <= i < Z.of_nat (length l) /\ l' = <[Z.to_nat i := x]> l.
Proof.
  unfold arr_set.
  destruct (Z.leb_spec 0 i), (Z.ltb_spec i (Z.of_nat (length l))); simpl;
    split; intros H1; simplify_eq; try (destruct H1; lia);
    repeat split; try lia.
  destruct H1 as [_ ->]. done.
Qed.

(** ** Record update

    [r <| p := v |>] is the record [r] with the field [p] set to [v].  The
    setter of a field is found by unfolding the eta-expansion of the record
    ([Eta]), so that a projection of an updated record computes. *)
Class Eta (R : Type) := eta : R -> R.
Class Upd {R T : Type} (p : R -> T) := upd : (T -> T) -> R -> R.
Arguments upd {R T} p {_} f r /.

Ltac solve_upd :=
  lazymatch goal with
  | |- @Upd ?R ?T ?p =>
    let i := constr:(_ : Eta R) in
    let i := eval red in i in
    let f := fresh "f" in
    let r := fresh "r" in
    intros f r;
    let b := eval cbv beta in (i r) in
    lazymatch b with
    | context C [p r] => let b' := context C [f (p r)] in exact b'
    end
  end.
#[export] Hint Extern 1 (Upd _) => solve_upd : typeclass_instances.

Notation "r <| p := v |>" := (upd p (fun _ => v) r)
  (at level 1, left associativity) : homa_scope.
Notation "r <| p ::= f |>" := (upd p f r)
  (at level 1, left associativity) : homa_scope.

(** ** Tactics *)
Ltac inv_ok :=
  repeat match goal with
  | H : result_bind _ _ = Ok _ |- _ =>
      let E := fresh "E" in apply result_bind_Ok in H as (? & E & H)
  | H : Ok _ = Ok _ |- _ => injection H as H
  | H : Fault _ = Ok _ |- _ => discriminate H
  | H : arr _ _ = Ok _ |- _ => apply arr_Ok in H as [? H]
  | H : arr_set _ _ _ = Ok _ |- _ => apply arr_set_Ok in H as [? H]
  end.

(** Split the conjunctions of the goal without unfolding definitions. *)
Ltac split_ands := repeat match goal with |- _ /\ _ => split end.

(** Case analysis on the boolean integer tests of the code. *)
Ltac zb :=
  repeat match goal with
  | |- context [Z.leb ?a ?b] => destruct (Z.leb_spec a b)
  | |- context [Z.ltb ?a ?b] => destruct (Z.ltb_spec a b)
  | |- context [Z.eqb ?a ?b] => destruct (Z.eqb_spec a b)
  | |- context [Z.geb ?a ?b] => rewrite (Z.geb_leb a b)
  | |- context [Z.gtb ?a ?b] => rewrite (Z.gtb_ltb a b)
  | H : context [Z.leb ?a ?b] |- _ => destruct (Z.leb_spec a b)
  | H : context [Z.ltb ?a ?b] |- _ => destruct (Z.ltb_spec a b)
  | H : context [Z.eqb ?a ?b] |- _ => destruct (Z.eqb_spec a b)
  | H : context [Z.geb ?a ?b] |- _ => rewrite (Z.geb_leb a b) in H
  | H : context [Z.gtb ?a ?b] |- _ => rewrite (Z.gtb_ltb a b) in H
  end; simpl in *.

(** [simpl] unfolds the scrutinee of a test to see whether it reduces; the
    operations below never do on open terms, and their unfoldings are large. *)
#[global] Opaque arr arr_set Z.shiftl Z.shiftr.
