(* ===== verification/Lists.v ===== *)
(** * Kernel lists, counters and sums

    Intrusive [list_head] lists are modelled as lists of pointers; a link
    field is empty exactly when its owner is not a member.  This file has the
    traversals the source writes with [list_for_each_entry] and
    [list_add_tail] (insertion before the first element that satisfies a
    test), the adjacent swaps of [homa_grant.c], and integer sums and counts
    over lists. *)
From S2P Require Import Prelude.

Section Insertion.
Context {A : Type}.
Implicit Types (p : A -> bool) (x c : A) (l pre post : list A).

(** [list_for_each_entry(c, l) if (p c) { list_add_tail(x, c); return; }]
    followed by [list_add_tail(x, l)]. *)
Fixpoint insert_before p x l : list A :=
  match l with
  | [] => [x]
  | c :: l' => if p c then x :: c :: l' else c :: insert_before p x l'
  end.

Lemma insert_before_perm p x l : insert_before p x l ≡ₚ x :: l.
Proof.
  induction l as [|c l IH]; simpl; [done |].
  destruct (p c); [done |]. rewrite IH. apply Permutation_swap.
Qed.

Lemma elem_of_insert_before p x y l :
  y ∈ insert_before p x l <-> y = x \/ y ∈ l.
Proof. rewrite insert_before_perm. apply elem_of_cons. Qed.

Lemma insert_before_length p x l :
  length (insert_before p x l) = S (length l).
Proof. by rewrite insert_before_perm. Qed.

Lemma insert_before_NoDup p x l :
  x ∉ l -> NoDup l -> NoDup (insert_before p x l).
Proof. intros. rewrite insert_before_perm. by constructor. Qed.

Lemma insert_before_ext p p' x l :
  (forall c, c ∈ l -> p c = p' c) -> insert_before p x l = insert_before p' x l.
Proof.
  intros H. induction l as [|c l IH]; simpl; [done |].
  rewrite H, IH; [done | |]; intros; [apply H|]; set_solver.
Qed.

Lemma insert_before_sorted (R : relation A) `{!Transitive R} p x l :
  (forall c, c ∈ l -> p c = true -> R x c) ->
  (forall c, c ∈ l -> p c = false -> R c x) ->
  StronglySorted R l -> StronglySorted R (insert_before p x l).
Proof.
  intros Ht Hf Hs. induction Hs as [|c l Hs IH Hc]; simpl.
  - repeat constructor.
  - assert (c ∈ c :: l) as Hin by set_solver. destruct (p c) eqn:E.
    + repeat constructor; try done; [by apply Ht |].
      eapply Forall_impl; [exact Hc|]. intros y Hy.
      transitivity c; [by apply Ht | done].
    + constructor; [apply IH; intros; [apply Ht | apply Hf]; set_solver |].
      rewrite insert_before_perm. constructor; [by apply Hf | done].
Qed.

(** The swaps [while (x is not first) { c = prev(x); if (!p c) break;
    list_del(c); list_add(c, x); }], on the reversed prefix of [x]. *)
Fixpoint move_up p x (rpre : list A) post : list A :=
  match rpre with
  | [] => x :: post
  | c :: rpre' =>
      if p c then move_up p x rpre' (c :: post)
      else reverse rpre' ++ c :: x :: post
  end.

(** The swaps [while (x is not last) { c = next(x); if (!p c) break;
    list_del(x); list_add(x, c); }]. *)
Fixpoint move_down p x post : list A :=
  match post with
  | [] => [x]
  | c :: post' => if p c then c :: move_down p x post' else x :: c :: post'
  end.

Lemma move_up_perm p x rpre post :
  move_up p x rpre post ≡ₚ x :: rpre ++ post.
Proof.
  revert post. induction rpre as [|c rpre IH]; intros post; simpl; [done |].
  destruct (p c).
  - rewrite IH. simpl. by rewrite <- Permutation_middle.
  - rewrite reverse_Permutation. change (c :: x :: post) with ([c; x] ++ post).
    rewrite (app_assoc rpre), (Permutation_app_comm rpre [c; x]). simpl.
    apply Permutation_swap.
Qed.

Lemma move_down_perm p x post : move_down p x post ≡ₚ x :: post.
Proof.
  induction post as [|c post IH]; simpl; [done |].
  destruct (p c); [|done]. rewrite IH. apply Permutation_swap.
Qed.

(** Where the element stops: the elements it moved past all satisfy the
    test, and the one it stopped at does not. *)
Lemma move_up_split p x pre post :
  exists a b, pre = a ++ b /\ Forall (fun c => p c = true) b /\
    move_up p x (reverse pre) post = a ++ x :: b ++ post /\
    match last a with Some c => p c = false | None => True end.
Proof.
  revert post. induction pre as [|c pre IH] using rev_ind; intros post.
  - exists [], []. done.
  - rewrite reverse_snoc. simpl. destruct (p c) eqn:E.
    + destruct (IH (c :: post)) as (a & b & -> & Hb & -> & Hl).
      exists a, (b ++ [c]). rewrite <- !app_assoc. simpl.
      repeat split; try done. apply Forall_app. by repeat constructor.
    + exists (pre ++ [c]), []. rewrite app_nil_r, reverse_involutive.
      rewrite last_snoc, <- app_assoc. done.
Qed.

(** In a sorted list the swaps sort. *)
Lemma move_up_sorted (R : relation A) `{!Transitive R} p x pre post :
  (forall c, c ∈ pre -> p c = true -> R x c) ->
  (forall c, c ∈ pre -> p c = false -> R c x) ->
  StronglySorted R (pre ++ post) -> Forall (R x) post ->
  StronglySorted R (move_up p x (reverse pre) post).
Proof.
  intros Ht Hf Hs Hx.
  destruct (move_up_split p x pre post) as (a & b & -> & Hb & -> & Hl).
  rewrite <- app_assoc in Hs. apply StronglySorted_app in Hs as (Hab & Ha & Hbp).
  apply StronglySorted_app_2; [|done|constructor; [done|]].
  - intros y z Hy [->|Hz]%elem_of_cons; [|by apply Hab].
    destruct a as [|w a _] using rev_ind; [by apply elem_of_nil in Hy |].
    rewrite last_snoc in Hl. apply StronglySorted_app in Ha as (Haw & _ & _).
    assert (R w x) by (apply Hf; [set_solver | done]).
    apply elem_of_app in Hy as [Hy | ->%list_elem_of_singleton]; [|done].
    transitivity w; [|done]. apply Haw; [done | set_solver].
  - apply Forall_app. split; [|done]. rewrite Forall_forall in *.
    intros y Hy. apply Ht; [set_solver | auto].
Qed.
End Insertion.

(** ** Sums and counts *)
Section Sums.
Context {A : Type}.
Implicit Types (f : A -> Z) (p : A -> bool) (l : list A).

Fixpoint Zsum f l : Z :=
  match l with [] => 0 | x :: l' => f x + Zsum f l' end.

Definition countb p l : Z := Zsum (fun x => Z.b2z (p x)) l.

Lemma Zsum_app f l1 l2 : Zsum f (l1 ++ l2) = Zsum f l1 + Zsum f l2.
Proof. induction l1; simpl; lia. Qed.

Lemma Zsum_perm f l1 l2 : l1 ≡ₚ l2 -> Zsum f l1 = Zsum f l2.
Proof. induction 1; simpl; lia. Qed.

Lemma Zsum_ext f g l :
  (forall x, x ∈ l -> f x = g x) -> Zsum f l = Zsum g l.
Proof.
  induction l as [|x l IH]; simpl; intros H; [done |].
  rewrite H, IH; set_solver.
Qed.

Lemma Zsum_insert f l i x y :
  l !! i = Some x -> Zsum f (<[i := y]> l) = Zsum f l - f x + f y.
Proof.
  intros H. rewrite insert_take_drop by (by eapply lookup_lt_Some).
  rewrite <- (take_drop_middle l i x H) at 3.
  rewrite !Zsum_app. simpl. lia.
Qed.

Lemma Zsum_nonneg f l : (forall x, x ∈ l -> 0 <= f x) -> 0 <= Zsum f l.
Proof.
  induction l as [|x l IH]; simpl; intros H; [done |].
  assert (0 <= f x) by (apply H; set_solver).
  assert (0 <= Zsum f l) by (apply IH; set_solver). lia.
Qed.

Lemma Zsum_le f g l :
  (forall x, x ∈ l -> f x <= g x) -> Zsum f l <= Zsum g l.
Proof.
  induction l as [|x l IH]; simpl; intros H; [done |].
  assert (f x <= g x) by (apply H; set_solver).
  assert (Zsum f l <= Zsum g l) by (apply IH; set_solver). lia.
Qed.

Lemma Zsum_lt f g l x :
  (forall y, y ∈ l -> f y <= g y) -> x ∈ l -> f x + 1 <= g x ->
  Zsum f l + 1 <= Zsum g l.
Proof.
  intros H (l1 & l2 & ->)%list_elem_of_split Hx. rewrite !Zsum_app. simpl.
  assert (Zsum f l1 <= Zsum g l1) by (apply Zsum_le; intros; apply H; set_solver).
  assert (Zsum f l2 <= Zsum g l2) by (apply Zsum_le; intros; apply H; set_solver). lia.
Qed.

Lemma Zsum_elem_le f l x :
  (forall y, y ∈ l -> 0 <= f y) -> x ∈ l -> f x <= Zsum f l.
Proof.
  intros Hn (l1 & l2 & ->)%list_elem_of_split.
  rewrite Zsum_app. simpl.
  pose proof (Zsum_nonneg f l1). pose proof (Zsum_nonneg f l2).
  assert (0 <= Zsum f l1) by (apply Zsum_nonneg; set_solver).
  assert (0 <= Zsum f l2) by (apply Zsum_nonneg; set_solver). lia.
Qed.

Lemma countb_bounds p l : 0 <= countb p l <= Z.of_nat (length l).
Proof.
  unfold countb. induction l as [|x l IH]; simpl; [lia |].
  destruct (p x); simpl; lia.
Qed.

Lemma countb_app p l1 l2 : countb p (l1 ++ l2) = countb p l1 + countb p l2.
Proof. apply Zsum_app. Qed.

Lemma countb_cons p x l : countb p (x :: l) = Z.b2z (p x) + countb p l.
Proof. done. Qed.

Lemma countb_perm p l1 l2 : l1 ≡ₚ l2 -> countb p l1 = countb p l2.
Proof. apply Zsum_perm. Qed.

Lemma countb_insert p l i x y :
  l !! i = Some x ->
  countb p (<[i := y]> l) = countb p l - Z.b2z (p x) + Z.b2z (p y).
Proof. apply Zsum_insert. Qed.

Lemma countb_0 p l : countb p l = 0 <-> Forall (fun x => p x = false) l.
Proof.
  induction l as [|x l IH]; [done |].
  rewrite countb_cons, Forall_cons, <- IH.
  pose proof (countb_bounds p l). destruct (p x); simpl; [|naive_solver lia].
  split; [lia | by intros [? _]].
Qed.

Lemma countb_pos p l : 0 < countb p l <-> exists x, x ∈ l /\ p x = true.
Proof.
  split.
  - intros H. destruct (Exists_dec (fun x => p x = true) l) as [He | Hn].
    { by apply Exists_exists in He. }
    exfalso. apply not_Exists_Forall in Hn; [|intros ?; apply _].
    assert (countb p l = 0); [|lia]. apply countb_0.
    eapply Forall_impl; [exact Hn |]. simpl. intros x. by destruct (p x).
  - intros (x & (l1 & l2 & ->)%list_elem_of_split & Hp).
    rewrite countb_app, countb_cons, Hp.
    pose proof (countb_bounds p l1). pose proof (countb_bounds p l2).
    simpl. lia.
Qed.

(** A prefix that is longer than the number of elements outside [p] holds
    some elements of [p]. *)
Lemma countb_unique p l : forall i j x y,
  countb p l <= 1 -> l !! i = Some x -> l !! j = Some y -> p x = true -> p y = true -> i = j.
Proof.
  induction l as [|c l IH]; intros i j x y H Hi Hj Hx Hy; [done |]. rewrite countb_cons in H.
  pose proof (countb_bounds p l).
  assert (forall k z, l !! k = Some z -> p z = true -> 0 < countb p l) as Hpos.
  { intros k z Hk Hz. apply countb_pos. exists z. split; [by eapply list_elem_of_lookup_2 | done]. }
  destruct i as [|i], j as [|j]; simpl in Hi, Hj; simplify_eq; [done | | |].
  - pose proof (Hpos j y Hj Hy). rewrite Hx in H. simpl in H. lia.
  - pose proof (Hpos i x Hi Hx). rewrite Hy in H. simpl in H. lia.
  - f_equal. apply (IH i j x y); try done. destruct (p c); simpl in H; lia.
Qed.

Lemma countb_take p l n :
  (n <= length l)%nat ->
  countb p l - (Z.of_nat (length l) - Z.of_nat n) <= countb p (take n l).
Proof.
  intros Hn. rewrite <- (take_drop n l) at 1. rewrite countb_app.
  pose proof (countb_bounds p (drop n l)) as Hb.
  rewrite length_drop in Hb. lia.
Qed.

Lemma countb_replicate p n x :
  countb p (replicate n x) = if p x then Z.of_nat n else 0.
Proof.
  induction n as [|n IH]; [by destruct (p x) |].
  simpl replicate. rewrite countb_cons, IH. destruct (p x); simpl; lia.
Qed.
End Sums.

(** ** Slices *)

(** The elements [off, off + n) of [l]. *)
Definition slice {A} (l : list A) (off n : Z) : list A :=
  take (Z.to_nat n) (drop (Z.to_nat off) l).

Section Slice.
Context {A : Type}.
Implicit Type l k : list A.

Lemma slice_length l off n :
  0 <= off -> 0 <= n -> off + n <= Z.of_nat (length l) -> Z.of_nat (length (slice l off n)) = n.
Proof. intros. unfold slice. rewrite length_take, length_drop. lia. Qed.

Lemma slice_app_l l k off n :
  0 <= off -> 0 <= n -> off + n <= Z.of_nat (length l) -> slice (l ++ k) off n = slice l off n.
Proof.
  intros. unfold slice. rewrite drop_app_le by lia. apply take_app_le. rewrite length_drop. lia.
Qed.

Lemma slice_app_r l k off n :
  Z.of_nat (length l) <= off -> slice (l ++ k) off n = slice k (off - Z.of_nat (length l)) n.
Proof. intros. unfold slice. rewrite drop_app_ge by lia. do 2 f_equal. lia. Qed.

Lemma slice_slice l off n o m :
  0 <= off -> 0 <= o -> 0 <= m -> o + m <= n -> slice (slice l off n) o m = slice l (off + o) m.
Proof.
  intros. unfold slice.
  replace (Z.to_nat n) with (Z.to_nat o + Z.to_nat (n - o))%nat by lia.
  rewrite <- take_drop_commute, drop_drop, take_take. f_equal; [lia |]. f_equal. lia.
Qed.

Lemma slice_0 l n : slice l 0 n = take (Z.to_nat n) l.
Proof. done. Qed.

Lemma slice_full l : slice l 0 (Z.of_nat (length l)) = l.
Proof. unfold slice. rewrite Nat2Z.id. apply firstn_all. Qed.

Lemma slice_cat l off n m :
  0 <= off -> 0 <= n -> 0 <= m -> slice l off n ++ slice l (off + n) m = slice l off (n + m).
Proof.
  intros. unfold slice. replace (Z.to_nat (off + n)) with (Z.to_nat off + Z.to_nat n)%nat by lia.
  rewrite <- drop_drop. replace (Z.to_nat (n + m)) with (Z.to_nat n + Z.to_nat m)%nat by lia.
  apply take_take_drop.
Qed.

Lemma slice_lookup l o n i :
  0 <= o -> 0 <= i < n -> slice l o n !! Z.to_nat i = l !! Z.to_nat (o + i).
Proof.
  intros Ho Hi. unfold slice. rewrite lookup_take_lt by lia. rewrite lookup_drop. f_equal. lia.
Qed.
End Slice.

Lemma filter_all {A} (P : A -> Prop) `{!forall x, Decision (P x)} (l : list A) :
  (forall x, x ∈ l -> P x) -> filter P l = l.
Proof.
  induction l as [|x l IH]; intros Hp; [done |].
  rewrite filter_cons_True by (apply Hp; set_solver). f_equal. apply IH. set_solver.
Qed.

Lemma filter_none {A} (P : A -> Prop) `{!forall x, Decision (P x)} (l : list A) :
  (forall x, x ∈ l -> ~ P x) -> filter P l = [].
Proof.
  induction l as [|x l IH]; intros Hn; [done |]. rewrite filter_cons_False by (apply Hn; set_solver).
  apply IH. intros y Hy. apply Hn. set_solver.
Qed.

(** Replacing an element of a list that is mapped and concatenated. *)
Lemma bind_insert {A B} (f : A -> list B) (l : list A) i x :
  l !! i = Some x ->
  exists rest, l ≫= f ≡ₚ f x ++ rest /\ forall y, <[i := y]> l ≫= f ≡ₚ f y ++ rest.
Proof.
  intros H. set (rest := (take i l ≫= f) ++ (drop (S i) l ≫= f)). exists rest.
  assert (forall y, (take i l ++ y :: drop (S i) l) ≫= f ≡ₚ f y ++ rest) as E.
  { intros y. rewrite bind_app, bind_cons. unfold rest. by rewrite Permutation_app_swap_app. }
  split; [rewrite <- (E x); by rewrite take_drop_middle |].
  intros y. by rewrite insert_take_drop by (by eapply lookup_lt_Some).
Qed.
