(* ===== verification/Wire.v ===== *)
(** * Packet formats (homa_wire.h)

    The header structs of [homa_wire.h] with their packed big-endian layout,
    the size table [header_lengths] of [homa_plumbing.c], and the packet
    filter at the head of [homa_softirq].  Header fields are kept in host
    order; [enc_*] and [dec_*] give their bytes. *)
From S2P Require Import Prelude Lists.

(** ** Big-endian integers (htons, htonl, cpu_to_be64 and their inverses) *)
Fixpoint be_enc (n : nat) (z : Z) : list Z :=
  match n with
  | O => []
  | S n' => (z / 2 ^ (8 * Z.of_nat n')) mod 256 :: be_enc n' z
  end.

Fixpoint be_dec (bs : list Z) : Z :=
  match bs with
  | [] => 0
  | b :: bs' => b * 2 ^ (8 * Z.of_nat (length bs')) + be_dec bs'
  end.

Definition is_byte (b : Z) : Prop := 0 <= b < 256.

(** The read of an [n]-byte field at the front of a packed struct. *)
Definition take_be (n : nat) (bs : list Z) : option (Z * list Z) :=
  if (n <=? length bs)%nat then Some (be_dec (take n bs), drop n bs) else None.

(** A value that fits an [n]-byte unsigned field. *)
Definition fits (n : nat) (z : Z) : bool :=
  (0 <=? z) && (z <? 2 ^ (8 * Z.of_nat n)).

(** ** Packet types (enum homa_packet_type) *)
Definition DATA : Z := 16.
Definition GRANT : Z := 17.
Definition RESEND : Z := 18.
Definition UNKNOWN : Z := 19.
Definition BUSY : Z := 20.
Definition CUTOFFS : Z := 21.
Definition FREEZE : Z := 22.
Definition NEED_ACK : Z := 23.
Definition ACK : Z := 24.
Definition BOGUS : Z := 25.

Definition HOMA_MIN_PKT_LENGTH : Z := 26.
Definition HOMA_MAX_HEADER : Z := 90.
Definition HOMA_IPV4_HEADER_LENGTH : Z := 20.
Definition HOMA_IPV6_HEADER_LENGTH : Z := 40.
Definition HOMA_ETH_OVERHEAD : Z := 42.
Definition HOMA_TCP_FLAGS : Z := 6.
Definition HOMA_TCP_URGENT : Z := 47485.
Definition HOMA_MAX_PRIORITIES : Z := 8.
Definition HOMA_MAX_ACKS_PER_PKT : Z := 5.

(** ** struct homa_common_hdr *)
Record homa_common_hdr := {
  sport : Z; dport : Z; sequence : Z; ack1 : Z; ack2 : Z; type : Z;
  doff : Z; hflags : Z; window : Z; checksum : Z; urgent : Z; sender_id : Z
}.

Definition enc_common (h : homa_common_hdr) : list Z :=
  be_enc 2 (sport h) ++ be_enc 2 (dport h) ++ be_enc 4 (sequence h) ++
  be_enc 2 (ack1 h) ++ be_enc 1 (ack2 h) ++ be_enc 1 (type h) ++
  be_enc 1 (doff h) ++ be_enc 1 (hflags h) ++ be_enc 2 (window h) ++
  be_enc 2 (checksum h) ++ be_enc 2 (urgent h) ++ be_enc 8 (sender_id h).

Definition dec_common (bs : list Z) : option (homa_common_hdr * list Z) :=
  '(v1, bs) ← take_be 2 bs; '(v2, bs) ← take_be 2 bs;
  '(v3, bs) ← take_be 4 bs; '(v4, bs) ← take_be 2 bs;
  '(v5, bs) ← take_be 1 bs; '(v6, bs) ← take_be 1 bs;
  '(v7, bs) ← take_be 1 bs; '(v8, bs) ← take_be 1 bs;
  '(v9, bs) ← take_be 2 bs; '(v10, bs) ← take_be 2 bs;
  '(v11, bs) ← take_be 2 bs; '(v12, bs) ← take_be 8 bs;
  Some (Build_homa_common_hdr v1 v2 v3 v4 v5 v6 v7 v8 v9 v10 v11 v12, bs).

Definition common_fits (h : homa_common_hdr) : bool :=
  fits 2 (sport h) && fits 2 (dport h) && fits 4 (sequence h) &&
  fits 2 (ack1 h) && fits 1 (ack2 h) && fits 1 (type h) &&
  fits 1 (doff h) && fits 1 (hflags h) && fits 2 (window h) &&
  fits 2 (checksum h) && fits 2 (urgent h) && fits 8 (sender_id h).

(** ** struct homa_ack *)
Record homa_ack := { client_id : Z; server_port : Z }.

Definition enc_ack (a : homa_ack) : list Z :=
  be_enc 8 (client_id a) ++ be_enc 2 (server_port a).

Definition dec_ack (bs : list Z) : option (homa_ack * list Z) :=
  '(v1, bs) ← take_be 8 bs; '(v2, bs) ← take_be 2 bs;
  Some (Build_homa_ack v1 v2, bs).

Definition ack_fits (a : homa_ack) : bool :=
  fits 8 (client_id a) && fits 2 (server_port a).

(** ** struct homa_data_hdr (with its first homa_seg_hdr)

    [pad] is the three bytes of padding before [seg], [seg_offset] is
    [seg.offset]. *)
Record homa_data_hdr := {
  d_common : homa_common_hdr; message_length : Z; incoming : Z;
  ack : homa_ack; cutoff_version : Z; retransmit : Z; pad : Z;
  seg_offset : Z
}.

Definition enc_data (h : homa_data_hdr) : list Z :=
  enc_common (d_common h) ++ be_enc 4 (message_length h) ++
  be_enc 4 (incoming h) ++ enc_ack (ack h) ++ be_enc 2 (cutoff_version h) ++
  be_enc 1 (retransmit h) ++ be_enc 3 (pad h) ++ be_enc 4 (seg_offset h).

Definition dec_data (bs : list Z) : option (homa_data_hdr * list Z) :=
  '(c, bs) ← dec_common bs; '(v1, bs) ← take_be 4 bs;
  '(v2, bs) ← take_be 4 bs; '(a, bs) ← dec_ack bs;
  '(v3, bs) ← take_be 2 bs; '(v4, bs) ← take_be 1 bs;
  '(v5, bs) ← take_be 3 bs; '(v6, bs) ← take_be 4 bs;
  Some (Build_homa_data_hdr c v1 v2 a v3 v4 v5 v6, bs).

(** ** struct homa_grant_hdr *)
Record homa_grant_hdr := {
  g_common : homa_common_hdr; g_offset : Z; g_priority : Z; g_resend_all : Z
}.

Definition enc_grant (h : homa_grant_hdr) : list Z :=
  enc_common (g_common h) ++ be_enc 4 (g_offset h) ++
  be_enc 1 (g_priority h) ++ be_enc 1 (g_resend_all h).

Definition dec_grant (bs : list Z) : option (homa_grant_hdr * list Z) :=
  '(c, bs) ← dec_common bs; '(v1, bs) ← take_be 4 bs;
  '(v2, bs) ← take_be 1 bs; '(v3, bs) ← take_be 1 bs;
  Some (Build_homa_grant_hdr c v1 v2 v3, bs).

(** ** struct homa_resend_hdr *)
Record homa_resend_hdr := {
  r_common : homa_common_hdr; r_offset : Z; r_length : Z; r_priority : Z
}.

Definition enc_resend (h : homa_resend_hdr) : list Z :=
  enc_common (r_common h) ++ be_enc 4 (r_offset h) ++
  be_enc 4 (r_length h) ++ be_enc 1 (r_priority h).

Definition dec_resend (bs : list Z) : option (homa_resend_hdr * list Z) :=
  '(c, bs) ← dec_common bs; '(v1, bs) ← take_be 4 bs;
  '(v2, bs) ← take_be 4 bs; '(v3, bs) ← take_be 1 bs;
  Some (Build_homa_resend_hdr c v1 v2 v3, bs).

(** ** struct homa_cutoffs_hdr *)
Record homa_cutoffs_hdr := {
  c_common : homa_common_hdr; h_unsched_cutoffs : list Z;
  h_cutoff_version : Z
}.

(** An array field of [n] elements, each read by [rd]. *)
Fixpoint dec_array {A} (rd : list Z -> option (A * list Z)) (n : nat)
    (bs : list Z) : option (list A * list Z) :=
  match n with
  | O => Some ([], bs)
  | S n' => '(x, bs) ← rd bs; '(xs, bs) ← dec_array rd n' bs;
            Some (x :: xs, bs)
  end.

Definition enc_cutoffs (h : homa_cutoffs_hdr) : list Z :=
  enc_common (c_common h) ++ (h_unsched_cutoffs h ≫= be_enc 4) ++
  be_enc 2 (h_cutoff_version h).

Definition dec_cutoffs (bs : list Z) : option (homa_cutoffs_hdr * list Z) :=
  '(c, bs) ← dec_common bs;
  '(cs, bs) ← dec_array (take_be 4) (Z.to_nat HOMA_MAX_PRIORITIES) bs;
  '(v, bs) ← take_be 2 bs;
  Some (Build_homa_cutoffs_hdr c cs v, bs).

(** ** struct homa_ack_hdr *)
Record homa_ack_hdr := {
  a_common : homa_common_hdr; num_acks : Z; acks : list homa_ack
}.

Definition enc_ack_hdr (h : homa_ack_hdr) : list Z :=
  enc_common (a_common h) ++ be_enc 2 (num_acks h) ++ (acks h ≫= enc_ack).

Definition dec_ack_hdr (bs : list Z) : option (homa_ack_hdr * list Z) :=
  '(c, bs) ← dec_common bs; '(n, bs) ← take_be 2 bs;
  '(a, bs) ← dec_array dec_ack (Z.to_nat HOMA_MAX_ACKS_PER_PKT) bs;
  Some (Build_homa_ack_hdr c n a, bs).

(** ** Packets

    A received packet after its header: DATA packets carry message bytes;
    UNKNOWN, BUSY, FREEZE and NEED_ACK are a common header only
    ([homa_unknown_hdr], [homa_busy_hdr], [homa_freeze_hdr],
    [homa_need_ack_hdr]). *)
Inductive homa_packet :=
| PData (h : homa_data_hdr)
| PGrant (h : homa_grant_hdr)
| PResend (h : homa_resend_hdr)
| PUnknown (h : homa_common_hdr)
| PBusy (h : homa_common_hdr)
| PCutoffs (h : homa_cutoffs_hdr)
| PFreeze (h : homa_common_hdr)
| PNeedAck (h : homa_common_hdr)
| PAck (h : homa_ack_hdr).

Definition enc_packet (p : homa_packet) : list Z :=
  match p with
  | PData h => enc_data h
  | PGrant h => enc_grant h
  | PResend h => enc_resend h
  | PUnknown h | PBusy h | PFreeze h | PNeedAck h => enc_common h
  | PCutoffs h => enc_cutoffs h
  | PAck h => enc_ack_hdr h
  end.

Definition packet_common (p : homa_packet) : homa_common_hdr :=
  match p with
  | PData h => d_common h
  | PGrant h => g_common h
  | PResend h => r_common h
  | PUnknown h | PBusy h | PFreeze h | PNeedAck h => h
  | PCutoffs h => c_common h
  | PAck h => a_common h
  end.

(** The overlay of a header struct on the bytes of a packet, chosen by the
    type byte as the switch of [homa_dispatch_pkts] does. *)
Definition dec_packet (bs : list Z) : option (homa_packet * list Z) :=
  '(c, rest) ← dec_common bs;
  if type c =? DATA then '(h, r) ← dec_data bs; Some (PData h, r)
  else if type c =? GRANT then '(h, r) ← dec_grant bs; Some (PGrant h, r)
  else if type c =? RESEND then '(h, r) ← dec_resend bs; Some (PResend h, r)
  else if type c =? UNKNOWN then Some (PUnknown c, rest)
  else if type c =? BUSY then Some (PBusy c, rest)
  else if type c =? CUTOFFS then
    '(h, r) ← dec_cutoffs bs; Some (PCutoffs h, r)
  else if type c =? FREEZE then Some (PFreeze c, rest)
  else if type c =? NEED_ACK then Some (PNeedAck c, rest)
  else if type c =? ACK then '(h, r) ← dec_ack_hdr bs; Some (PAck h, r)
  else None.

(** ** Well-formed headers: every field fits its width *)
Definition data_fits (h : homa_data_hdr) : bool :=
  common_fits (d_common h) && fits 4 (message_length h) &&
  fits 4 (incoming h) && ack_fits (ack h) && fits 2 (cutoff_version h) &&
  fits 1 (retransmit h) && fits 3 (pad h) && fits 4 (seg_offset h).

Definition grant_fits (h : homa_grant_hdr) : bool :=
  common_fits (g_common h) && fits 4 (g_offset h) && fits 1 (g_priority h) &&
  fits 1 (g_resend_all h).

Definition resend_fits (h : homa_resend_hdr) : bool :=
  common_fits (r_common h) && fits 4 (r_offset h) && fits 4 (r_length h) &&
  fits 1 (r_priority h).

Definition cutoffs_fits (h : homa_cutoffs_hdr) : bool :=
  common_fits (c_common h) && forallb (fits 4) (h_unsched_cutoffs h) &&
  (length (h_unsched_cutoffs h) =? Z.to_nat HOMA_MAX_PRIORITIES)%nat &&
  fits 2 (h_cutoff_version h).

Definition ack_hdr_fits (h : homa_ack_hdr) : bool :=
  common_fits (a_common h) && fits 2 (num_acks h) &&
  forallb ack_fits (acks h) &&
  (length (acks h) =? Z.to_nat HOMA_MAX_ACKS_PER_PKT)%nat.

(** The packet's fields fit and its type byte names its kind. *)
Definition packet_fits (p : homa_packet) : bool :=
  match p with
  | PData h => data_fits h && (type (d_common h) =? DATA)
  | PGrant h => grant_fits h && (type (g_common h) =? GRANT)
  | PResend h => resend_fits h && (type (r_common h) =? RESEND)
  | PUnknown h => common_fits h && (type h =? UNKNOWN)
  | PBusy h => common_fits h && (type h =? BUSY)
  | PCutoffs h => cutoffs_fits h && (type (c_common h) =? CUTOFFS)
  | PFreeze h => common_fits h && (type h =? FREEZE)
  | PNeedAck h => common_fits h && (type h =? NEED_ACK)
  | PAck h => ack_hdr_fits h && (type (a_common h) =? ACK)
  end.

(** ** Sizes (sizeof and header_lengths) *)
Definition sizeof_common_hdr : Z := 28.

Definition header_lengths : list Z := [56; 34; 37; 28; 28; 62; 28; 28; 80].

(** [homa_data_len(skb)] for a packet of [len] bytes whose transport header
    starts at [transport_offset]. *)
Definition homa_data_len (len transport_offset : Z) : Z :=
  len - transport_offset - 56.

(** The check "Reject packets that are too short or have bogus types" of
    [homa_softirq]: [true] when the packet is dropped. *)
Definition softirq_rejects (bs : list Z) : bool :=
  let len := Z.of_nat (length bs) in
  if len <? sizeof_common_hdr then true
  else match bs !! 11%nat with
       | None => true
       | Some ty =>
           (ty <? DATA) || (ty >=? BOGUS) ||
           match header_lengths !! Z.to_nat (ty - DATA) with
           | Some n => len <? n
           | None => true
           end
       end.

(** [homa_local_id]: flip the client bit of an id from the wire. *)
Definition homa_local_id (sender_id : Z) : Z := Z.lxor sender_id 1.

(** [homa_is_client]: low-order bit 0 means we are the client. *)
Definition homa_is_client (id : Z) : bool := Z.land id 1 =? 0.

(** ** Lemmas *)
Lemma be_enc_length n z : length (be_enc n z) = n.
Proof. induction n; simpl; congruence. Qed.

Lemma be_dec_enc n z : be_dec (be_enc n z) = z mod 2 ^ (8 * Z.of_nat n).
Proof.
  induction n as [|n IH]; [by rewrite Z.mod_1_r |].
  simpl be_enc. simpl be_dec. rewrite IH, be_enc_length.
  replace (2 ^ (8 * Z.of_nat (S n))) with (2 ^ (8 * Z.of_nat n) * 256).
  - rewrite Z.rem_mul_r by lia. lia.
  - replace (8 * Z.of_nat (S n)) with (8 * Z.of_nat n + 8) by lia.
    by rewrite Z.pow_add_r by lia.
Qed.

Lemma take_be_enc n z bs :
  fits n z = true -> take_be n (be_enc n z ++ bs) = Some (z, bs).
Proof.
  unfold fits, take_be. intros H. rewrite length_app, be_enc_length.
  destruct (Nat.leb_spec n (n + length bs)); [|lia].
  rewrite take_app_length', drop_app_length' by (by rewrite be_enc_length).
  rewrite be_dec_enc, Z.mod_small; [done |]. zb; lia.
Qed.

Lemma be_dec_bound bs :
  Forall is_byte bs -> 0 <= be_dec bs < 2 ^ (8 * Z.of_nat (length bs)).
Proof.
  unfold is_byte. induction 1 as [|b bs Hb _ IH]; [done |]. simpl be_dec.
  replace (2 ^ (8 * Z.of_nat (length (b :: bs))))
    with (256 * 2 ^ (8 * Z.of_nat (length bs))); [nia |].
  simpl length. replace (8 * Z.of_nat (S (length bs)))
    with (8 + 8 * Z.of_nat (length bs)) by lia.
  by rewrite Z.pow_add_r by lia.
Qed.

Lemma be_enc_mod n z : be_enc n (z mod 2 ^ (8 * Z.of_nat n)) = be_enc n z.
Proof.
  assert (forall m, (m <= n)%nat ->
    be_enc m (z mod 2 ^ (8 * Z.of_nat n)) = be_enc m z); [|auto].
  induction m as [|m IH]; intros Hm; [done |]. simpl.
  rewrite IH by lia. f_equal.
  replace (2 ^ (8 * Z.of_nat n)) with
    (2 ^ (8 * Z.of_nat m) * (256 * 2 ^ (8 * Z.of_nat (n - S m)))).
  - rewrite Z.rem_mul_r by lia.
    rewrite (Z.mul_comm (2 ^ (8 * Z.of_nat m))), Z.div_add by lia.
    rewrite (Z.div_small (z mod _)) by (apply Z.mod_pos_bound; lia).
    rewrite Z.add_0_l, Z.rem_mul_r by lia.
    by rewrite (Z.mul_comm 256), Z.mod_add, Z.mod_mod by lia.
  - change 256 with (2 ^ 8). rewrite <- !Z.pow_add_r by lia. f_equal. lia.
Qed.

Lemma be_enc_dec bs : Forall is_byte bs -> be_enc (length bs) (be_dec bs) = bs.
Proof.
  induction 1 as [|b bs Hb Hbs IH]; [done |]. simpl.
  pose proof (be_dec_bound bs Hbs). unfold is_byte in Hb.
  f_equal.
  - rewrite Z.div_add_l, Z.div_small, Z.add_0_r by lia. by apply Z.mod_small.
  - rewrite <- be_enc_mod, <- IH at 1.
    rewrite Z.add_comm, Z.mod_add by lia. rewrite Z.mod_small by lia.
    by rewrite IH.
Qed.

Lemma take_be_inv n bs z bs' :
  Forall is_byte bs -> take_be n bs = Some (z, bs') ->
  bs = be_enc n z ++ bs' /\ fits n z = true /\ Forall is_byte bs'.
Proof.
  unfold take_be. intros Hb. destruct (Nat.leb_spec n (length bs)); [|done].
  intros [= <- <-].
  assert (Forall is_byte (take n bs)) as Ht by by apply Forall_take.
  assert (length (take n bs) = n) as Hl by (rewrite length_take; lia).
  split_and!.
  - rewrite <- Hl at 1. by rewrite be_enc_dec, take_drop.
  - unfold fits. pose proof (be_dec_bound _ Ht). rewrite Hl in *. zb; lia.
  - by apply Forall_drop.
Qed.

#[local] Opaque be_enc be_dec take_be fits.

(** A header codec: decoding what was encoded gives the header and leaves
    the bytes that follow, and a decoded header encodes to the bytes read. *)
Record codec {A} (e : A -> list Z) (d : list Z -> option (A * list Z))
    (ok : A -> bool) : Prop := {
  codec_enc a bs : ok a = true -> d (e a ++ bs) = Some (a, bs);
  codec_dec bs a bs' : Forall is_byte bs -> d bs = Some (a, bs') ->
    bs = e a ++ bs' /\ ok a = true /\ Forall is_byte bs'
}.

Lemma codec_be n : codec (be_enc n) (take_be n) (fits n).
Proof. split; [apply take_be_enc | apply take_be_inv]. Qed.

Lemma codec_array {A} (e : A -> list Z) d ok n :
  codec e d ok ->
  codec (fun l => l ≫= e) (dec_array d n)
    (fun l => forallb ok l && (length l =? n)%nat).
Proof.
  intros [He Hd]. split.
  - intros l bs. revert n. induction l as [|x l IH]; intros [|n]; simpl;
      rewrite ?andb_false_r; try done.
    rewrite <- andb_assoc. intros [Hx Hl]%andb_prop.
    rewrite <- app_assoc, He by done. simpl. by rewrite IH by done.
  - induction n as [|n IH]; simpl; intros bs l bs' Hb H; [by simplify_eq |].
    destruct (d bs) as [[x bs1]|] eqn:E1; simpl in H; [|done].
    destruct (dec_array d n bs1) as [[xs bs2]|] eqn:E2; simpl in H; [|done].
    simplify_eq. apply Hd in E1 as (-> & Hx & Hb1); [|done].
    apply IH in E2 as (-> & Hl & Hb2); [|done].
    simpl. rewrite <- app_assoc, Hx. done.
Qed.

(** Split the conjunctions of a [_fits] hypothesis. *)
Ltac split_fits :=
  repeat match goal with
  | H : (_ && _) = true |- _ => apply andb_prop in H as [? H]
  end.

#[export] Hint Resolve codec_be codec_array : homa.

(** Decode one field after the other. *)
Ltac step_dec :=
  match goal with
  | Hb : Forall is_byte ?bs, H : mbind _ (?d ?bs) = Some _ |- _ =>
      let E := fresh "E" in
      let C := fresh "C" in
      destruct (d bs) as [[? ?]|] eqn:E; simpl in H; [|done];
      eassert (codec _ d _) as C by eauto with homa;
      apply (codec_dec _ _ _ C) in E as (? & ? & ?); [|exact Hb];
      clear C; subst bs; try clear Hb
  end.

Ltac solve_codec_dec :=
  intros; repeat step_dec; simplify_eq; split_and!; simpl;
  [by rewrite <- ?app_assoc
  | cbv beta in *; rewrite ?andb_true_iff in *; tauto
  | done].

(** Encode-then-decode one field after the other. *)
Ltac step_enc :=
  match goal with
  | |- mbind _ (?d (?e ++ ?bs)) = Some _ =>
      let C := fresh "C" in
      let E := fresh "E" in
      eassert (codec _ d _) as C by eauto with homa;
      pose proof (codec_enc _ _ _ C) as E; cbv beta in E;
      rewrite E by (rewrite ?andb_true_iff; auto);
      clear C E; simpl
  end.

Ltac solve_codec_enc :=
  intros [] ?; simpl; intros ?; split_fits;
  rewrite <- ?app_assoc; repeat step_enc; done.

Lemma codec_common : codec enc_common dec_common common_fits.
Proof.
  split; unfold enc_common, dec_common, common_fits;
    [solve_codec_enc | solve_codec_dec].
Qed.

Lemma codec_ack : codec enc_ack dec_ack ack_fits.
Proof.
  split; unfold enc_ack, dec_ack, ack_fits;
    [solve_codec_enc | solve_codec_dec].
Qed.

#[export] Hint Resolve codec_common codec_ack : homa.
#[local] Opaque enc_common dec_common common_fits enc_ack dec_ack ack_fits
  dec_array Z.to_nat Nat.eqb.

Lemma codec_data : codec enc_data dec_data data_fits.
Proof.
  split; unfold enc_data, dec_data, data_fits;
    [solve_codec_enc | solve_codec_dec].
Qed.

Lemma codec_grant : codec enc_grant dec_grant grant_fits.
Proof.
  split; unfold enc_grant, dec_grant, grant_fits;
    [solve_codec_enc | solve_codec_dec].
Qed.

Lemma codec_resend : codec enc_resend dec_resend resend_fits.
Proof.
  split; unfold enc_resend, dec_resend, resend_fits;
    [solve_codec_enc | solve_codec_dec].
Qed.

Lemma codec_cutoffs : codec enc_cutoffs dec_cutoffs cutoffs_fits.
Proof.
  split; unfold enc_cutoffs, dec_cutoffs, cutoffs_fits;
    [solve_codec_enc | solve_codec_dec].
Qed.

Lemma codec_ack_hdr : codec enc_ack_hdr dec_ack_hdr ack_hdr_fits.
Proof.
  split; unfold enc_ack_hdr, dec_ack_hdr, ack_hdr_fits;
    [solve_codec_enc | solve_codec_dec].
Qed.

#[export] Hint Resolve codec_data codec_grant codec_resend codec_cutoffs
  codec_ack_hdr : homa.
#[local] Opaque enc_data dec_data enc_grant dec_grant enc_resend dec_resend
  enc_cutoffs dec_cutoffs enc_ack_hdr dec_ack_hdr.

(** Every packet starts with a [homa_common_hdr]. *)
Lemma enc_packet_common p :
  exists rest, enc_packet p = enc_common (packet_common p) ++ rest.
Proof.
  #[local] Transparent enc_data enc_grant enc_resend enc_cutoffs enc_ack_hdr.
  destruct p; eexists; try (symmetry; apply app_nil_r); reflexivity.
  #[local] Opaque enc_data enc_grant enc_resend enc_cutoffs enc_ack_hdr.
Qed.

Lemma packet_fits_common p :
  packet_fits p = true -> common_fits (packet_common p) = true.
Proof.
  destruct p; simpl;
    unfold data_fits, grant_fits, resend_fits, cutoffs_fits, ack_hdr_fits;
    rewrite ?andb_true_iff; tauto.
Qed.

Lemma dec_enc_packet p bs :
  packet_fits p = true -> dec_packet (enc_packet p ++ bs) = Some (p, bs).
Proof.
  intros Hp. unfold dec_packet.
  destruct (enc_packet_common p) as [rest Hr].
  assert (dec_common (enc_packet p ++ bs) = Some (packet_common p, rest ++ bs))
    as Hc.
  { rewrite Hr, <- app_assoc.
    apply (codec_enc _ _ _ codec_common), packet_fits_common, Hp. }
  rewrite Hc. simpl.
  destruct p; simpl in *; apply andb_prop in Hp as [Hf Ht%Z.eqb_eq];
    rewrite Ht; simpl;
    first
      [ by rewrite (codec_enc _ _ _ codec_data) by done
      | by rewrite (codec_enc _ _ _ codec_grant) by done
      | by rewrite (codec_enc _ _ _ codec_resend) by done
      | by rewrite (codec_enc _ _ _ codec_cutoffs) by done
      | by rewrite (codec_enc _ _ _ codec_ack_hdr) by done
      | rewrite (codec_enc _ _ _ codec_common) in Hc by done; congruence ].
Qed.

(** The common header decoded from the bytes of a packet is the packet's. *)
Lemma dec_common_packet p bs c rest :
  common_fits (packet_common p) = true ->
  dec_common (enc_packet p ++ bs) = Some (c, rest) -> c = packet_common p.
Proof.
  intros Hf. destruct (enc_packet_common p) as [r ->]. rewrite <- app_assoc.
  rewrite (codec_enc _ _ _ codec_common) by done. congruence.
Qed.

(** [mk h] overlays a header decoded by [d] on the bytes whose common header
    is [c]. *)
Lemma dec_overlay {A} (e : A -> list Z) d ok (mk : A -> homa_packet) bs c rest h r :
  codec e d ok ->
  (forall h, enc_packet (mk h) = e h) ->
  (forall h, ok h = true -> common_fits (packet_common (mk h)) = true) ->
  Forall is_byte bs -> dec_common bs = Some (c, rest) -> d bs = Some (h, r) ->
  bs = enc_packet (mk h) ++ r /\ ok h = true /\ packet_common (mk h) = c.
Proof.
  intros HC He Hok Hb Hc Hd.
  apply (codec_dec _ _ _ HC) in Hd as (Hbs & Hh & _); [|done].
  rewrite <- He in Hbs. split_and!; [done | done |].
  rewrite Hbs in Hc. symmetry. apply dec_common_packet in Hc; auto.
Qed.

Lemma data_fits_common h : data_fits h = true -> common_fits (d_common h) = true.
Proof. unfold data_fits. rewrite ?andb_true_iff. tauto. Qed.
Lemma grant_fits_common h : grant_fits h = true -> common_fits (g_common h) = true.
Proof. unfold grant_fits. rewrite ?andb_true_iff. tauto. Qed.
Lemma resend_fits_common h : resend_fits h = true -> common_fits (r_common h) = true.
Proof. unfold resend_fits. rewrite ?andb_true_iff. tauto. Qed.
Lemma cutoffs_fits_common h : cutoffs_fits h = true -> common_fits (c_common h) = true.
Proof. unfold cutoffs_fits. rewrite ?andb_true_iff. tauto. Qed.
Lemma ack_hdr_fits_common h : ack_hdr_fits h = true -> common_fits (a_common h) = true.
Proof. unfold ack_hdr_fits. rewrite ?andb_true_iff. tauto. Qed.

#[export] Hint Resolve data_fits_common grant_fits_common resend_fits_common
  cutoffs_fits_common ack_hdr_fits_common : homa.

Ltac solve_overlay HB HC H C mk :=
  match type of H with
  | mbind _ (?d ?bs) = Some _ =>
      let E := fresh "E" in
      destruct (d bs) as [[? ?]|] eqn:E; simpl in H; [|done];
      simplify_eq H; intros; subst;
      eapply (dec_overlay _ _ _ mk) in E as (? & ? & Hcm);
        [|exact C | done | simpl; auto with homa | exact HB | exact HC];
      split; [done | simpl in *; rewrite Hcm, andb_true_iff, Z.eqb_eq; done]
  end.

Lemma enc_dec_packet bs p bs' :
  Forall is_byte bs -> dec_packet bs = Some (p, bs') ->
  bs = enc_packet p ++ bs' /\ packet_fits p = true.
Proof.
  intros Hb. unfold dec_packet.
  destruct (dec_common bs) as [[c rest]|] eqn:Hc; simpl; [|done].
  pose proof Hc as Hc'. apply (codec_dec _ _ _ codec_common) in Hc'
    as (Hbs & Hf & _); [|done].
  repeat case_match; intros H';
    repeat match goal with Ht : (_ =? _) = true |- _ => apply Z.eqb_eq in Ht end;
    try (simplify_eq; simpl; rewrite Hf, andb_true_l, Z.eqb_eq; tauto);
    [ solve_overlay Hb Hc H' codec_data PData
    | solve_overlay Hb Hc H' codec_grant PGrant
    | solve_overlay Hb Hc H' codec_resend PResend
    | solve_overlay Hb Hc H' codec_cutoffs PCutoffs
    | solve_overlay Hb Hc H' codec_ack_hdr PAck ].
Qed.

(** A decoder that reads exactly [n] bytes. *)
Definition sized {A} (n : nat) (d : list Z -> option (A * list Z)) : Prop :=
  forall bs,
    if (n <=? length bs)%nat
    then exists a bs', d bs = Some (a, bs') /\ length bs = (n + length bs')%nat
    else d bs = None.

Lemma sized_be n : sized n (take_be n).
Proof.
  #[local] Transparent take_be.
  intros bs. unfold take_be. destruct (Nat.leb_spec n (length bs)); [|done].
  eexists _, _. split; [done |]. rewrite length_drop. lia.
  #[local] Opaque take_be.
Qed.

(** Sequencing two decoders adds their sizes. *)
Lemma sized_bind {A B} n m (d : list Z -> option (A * list Z))
    (k : A -> list Z -> option (B * list Z)) :
  sized n d -> (forall a, sized m (k a)) ->
  sized (n + m) (fun bs => '(a, bs) ← d bs; k a bs).
Proof.
  intros Hd Hk bs. specialize (Hd bs).
  destruct (Nat.leb_spec (n + m) (length bs)).
  - destruct (Nat.leb_spec n (length bs)); [|lia].
    destruct Hd as (a & bs' & -> & Hl). simpl. specialize (Hk a bs').
    destruct (Nat.leb_spec m (length bs')); [|lia].
    destruct Hk as (b & bs2 & -> & ?). eexists _, _. split; [done | lia].
  - destruct (Nat.leb_spec n (length bs)); [|by rewrite Hd].
    destruct Hd as (a & bs' & -> & Hl). simpl. specialize (Hk a bs').
    destruct (Nat.leb_spec m (length bs')); [lia | done].
Qed.

Lemma sized_ret {A} (a : A) : sized 0 (fun bs => Some (a, bs)).
Proof. intros bs. by eexists _, _. Qed.

Lemma sized_array {A} n m (d : list Z -> option (A * list Z)) :
  sized n d -> sized (m * n) (dec_array d m).
Proof.
  #[local] Transparent dec_array.
  intros Hd. induction m as [|m IH]; [apply sized_ret |].
  apply (sized_bind n (m * n)); [done |]. intros a.
  rewrite <- (Nat.add_0_r (m * n)).
  apply (sized_bind (m * n) 0); [done |]. intros l. apply sized_ret.
  #[local] Opaque dec_array.
Qed.

#[export] Hint Resolve sized_be sized_array sized_ret : homa.

Lemma sized_next {A B} N n (d : list Z -> option (A * list Z))
    (k : A -> list Z -> option (B * list Z)) :
  sized n d -> (n <= N)%nat -> (forall a, sized (N - n) (k a)) ->
  sized N (fun bs => '(a, bs) ← d bs; k a bs).
Proof.
  intros. replace N with (n + (N - n))%nat by lia. by apply sized_bind.
Qed.

(** Prove the size of a struct by subtracting the sizes of its fields. *)
Ltac solve_sized :=
  repeat (eapply sized_next; [by eauto with homa | cbn; lia | intros ?; cbn]);
  apply sized_ret.

#[local] Transparent dec_common dec_ack dec_data dec_grant dec_resend
  dec_cutoffs dec_ack_hdr Z.to_nat.

Lemma sized_common : sized 28 dec_common.
Proof. unfold dec_common. solve_sized. Qed.

Lemma sized_ack : sized 10 dec_ack.
Proof. unfold dec_ack. solve_sized. Qed.

#[export] Hint Resolve sized_common sized_ack : homa.
#[local] Opaque dec_common dec_ack.

Lemma sized_data : sized 56 dec_data.
Proof. unfold dec_data. solve_sized. Qed.

Lemma sized_grant : sized 34 dec_grant.
Proof. unfold dec_grant. solve_sized. Qed.

Lemma sized_resend : sized 37 dec_resend.
Proof. unfold dec_resend. solve_sized. Qed.

Lemma sized_cutoffs : sized 62 dec_cutoffs.
Proof.
  unfold dec_cutoffs. change (Z.to_nat HOMA_MAX_PRIORITIES) with 8%nat.
  solve_sized.
Qed.

Lemma sized_ack_hdr : sized 80 dec_ack_hdr.
Proof.
  unfold dec_ack_hdr. change (Z.to_nat HOMA_MAX_ACKS_PER_PKT) with 5%nat.
  solve_sized.
Qed.

#[local] Opaque dec_data dec_grant dec_resend dec_cutoffs dec_ack_hdr.

(** The type byte of a packet is its byte 11. *)
Lemma dec_common_type bs c rest :
  Forall is_byte bs -> dec_common bs = Some (c, rest) ->
  bs !! 11%nat = Some (type c).
Proof.
  #[local] Transparent enc_common be_enc fits common_fits.
  intros Hb Hc.
  apply (codec_dec _ _ _ codec_common) in Hc as (-> & Hf & _); [|done].
  unfold common_fits in Hf. do 6 (apply andb_true_iff in Hf as [Hf _]).
  apply andb_true_iff in Hf as [_ Ht]. unfold fits in Ht.
  change ((enc_common c ++ rest) !! 11%nat) with (Some ((type c / 1) mod 256)).
  f_equal. rewrite Z.div_1_r. apply Z.mod_small. zb; simpl in *; lia.
  #[local] Opaque enc_common be_enc fits common_fits.
Qed.

Lemma sized_Some {A} n (d : list Z -> option (A * list Z)) bs :
  sized n d -> (exists a bs', d bs = Some (a, bs')) <-> (n <= length bs)%nat.
Proof.
  intros Hd. specialize (Hd bs). destruct (Nat.leb_spec n (length bs)).
  - split; [done |]. destruct Hd as (a & bs' & ? & _). eauto.
  - rewrite Hd. split; [by intros (? & ? & ?) | lia].
Qed.

(** Wrapping the decoded header in a packet constructor. *)
Lemma sized_overlay {A} n (d : list Z -> option (A * list Z))
    (mk : A -> homa_packet) bs :
  sized n d ->
  (exists p r, ('(h, r) ← d bs; Some (mk h, r)) = Some (p, r)) <->
  (n <= length bs)%nat.
Proof.
  intros Hd. rewrite <- (sized_Some n d bs Hd). split.
  - intros (p & r & H). destruct (d bs) as [[a b]|]; [eauto | done].
  - intros (a & r & ->). simpl. eauto.
Qed.

(** What the type test and the length table of [homa_softirq] decide once the
    common header is known to be present. *)
Lemma softirq_type_check bs c rest :
  dec_common bs = Some (c, rest) ->
  (type c <? DATA) || (type c >=? BOGUS) ||
  match header_lengths !! Z.to_nat (type c - DATA) with
  | Some n => Z.of_nat (length bs) <? n
  | None => true
  end = false <->
  exists p rest, dec_packet bs = Some (p, rest).
Proof.
  intros E. assert (28 <= length bs)%nat as Hl
    by (apply (sized_Some _ _ bs sized_common); eauto).
  unfold dec_packet. rewrite E. simpl.
  destruct (Z.eqb_spec (type c) DATA) as [->|].
  { rewrite (sized_overlay 56) by apply sized_data. simpl. zb; lia. }
  destruct (Z.eqb_spec (type c) GRANT) as [->|].
  { rewrite (sized_overlay 34) by apply sized_grant. simpl. zb; lia. }
  destruct (Z.eqb_spec (type c) RESEND) as [->|].
  { rewrite (sized_overlay 37) by apply sized_resend. simpl. zb; lia. }
  destruct (Z.eqb_spec (type c) UNKNOWN) as [->|].
  { simpl. split; [eauto | intros _; zb; lia]. }
  destruct (Z.eqb_spec (type c) BUSY) as [->|].
  { simpl. split; [eauto | intros _; zb; lia]. }
  destruct (Z.eqb_spec (type c) CUTOFFS) as [->|].
  { rewrite (sized_overlay 62) by apply sized_cutoffs. simpl. zb; lia. }
  destruct (Z.eqb_spec (type c) FREEZE) as [->|].
  { simpl. split; [eauto | intros _; zb; lia]. }
  destruct (Z.eqb_spec (type c) NEED_ACK) as [->|].
  { simpl. split; [eauto | intros _; zb; lia]. }
  destruct (Z.eqb_spec (type c) ACK) as [->|].
  { rewrite (sized_overlay 80) by apply sized_ack_hdr. simpl. zb; lia. }
  split; [|by intros (? & ? & ?)]. unfold DATA, GRANT, RESEND, UNKNOWN, BUSY,
    CUTOFFS, FREEZE, NEED_ACK, ACK, BOGUS in *.
  destruct (Z.ltb_spec (type c) 16), (Z.geb_spec (type c) 25); simpl; lia.
Qed.

Lemma bind_length {A} (e : A -> list Z) n l :
  (forall a, length (e a) = n) -> length (l ≫= e) = (n * length l)%nat.
Proof.
  intros He. induction l as [|a l IH]; simpl; [lia |].
  rewrite length_app, He. unfold mbind in IH. rewrite IH. lia.
Qed.

Lemma enc_common_length h : length (enc_common h) = 28%nat.
Proof.
  #[local] Transparent enc_common. unfold enc_common. rewrite !length_app, !be_enc_length. done.
  #[local] Opaque enc_common.
Qed.

Lemma enc_ack_length a : length (enc_ack a) = 10%nat.
Proof.
  #[local] Transparent enc_ack. unfold enc_ack. rewrite !length_app, !be_enc_length. done.
  #[local] Opaque enc_ack.
Qed.

(** The bytes of each header struct. *)
Lemma enc_packet_length p :
  packet_fits p = true ->
  length (enc_packet p) =
    match p with
    | PData _ => 56 | PGrant _ => 34 | PResend _ => 37 | PCutoffs _ => 62
    | PAck _ => 80 | _ => 28
    end%nat.
Proof.
  #[local] Transparent enc_data enc_grant enc_resend enc_cutoffs enc_ack_hdr.
  destruct p; simpl; intros Hp;
    unfold enc_data, enc_grant, enc_resend, enc_cutoffs, enc_ack_hdr;
    rewrite ?length_app, ?be_enc_length, ?enc_common_length, ?enc_ack_length;
    try done; unfold cutoffs_fits, ack_hdr_fits in Hp;
    rewrite ?andb_true_iff, ?Nat.eqb_eq in Hp.
  - rewrite (bind_length _ 4) by (intros; apply be_enc_length).
    by destruct Hp as [[[_ ->] _] _].
  - rewrite (bind_length _ 10) by apply enc_ack_length.
    by destruct Hp as [[_ ->] _].
  #[local] Opaque enc_data enc_grant enc_resend enc_cutoffs enc_ack_hdr.
Qed.

(** ** Properties *)

(** The filter of [homa_softirq] accepts exactly the packets whose type
    byte is known and whose whole header lies inside the packet, so no header
    field read by the handlers is outside the received bytes. *)
Theorem softirq_accepts_iff bs :
  Forall is_byte bs ->
  softirq_rejects bs = false <-> exists p rest, dec_packet bs = Some (p, rest).
Proof.
  intros Hb. unfold softirq_rejects, sizeof_common_hdr.
  pose proof (sized_Some _ _ bs sized_common) as Hc.
  destruct (dec_common bs) as [[c rest]|] eqn:E.
  - assert (28 <= length bs)%nat by (apply Hc; eauto).
    rewrite (dec_common_type _ _ _ Hb E), <- (softirq_type_check _ _ _ E).
    by destruct (Z.ltb_spec (Z.of_nat (length bs)) 28); [lia |].
  - assert (~ (28 <= length bs)%nat) by (rewrite <- Hc; by intros (? & ? & ?)).
    destruct (Z.ltb_spec (Z.of_nat (length bs)) 28); [|lia].
    unfold dec_packet. rewrite E. simpl. split; [done | by intros (? & ? & ?)].
Qed.

Lemma softirq_accepts_iff_witness :
  softirq_rejects (replicate 11 0 ++ [20] ++ replicate 16 0) = false <->
  exists p rest, dec_packet (replicate 11 0 ++ [20] ++ replicate 16 0) = Some (p, rest).
Proof.
  apply (softirq_accepts_iff (replicate 11 0 ++ [20] ++ replicate 16 0)).
  repeat constructor; unfold is_byte; lia.
Defined.



(** The table [header_lengths] gives the size of the header struct of
    each packet type, and every header is long enough for the minimum packet
    length and small enough for the linear area pulled by [homa_softirq]. *)
Theorem header_lengths_correct p :
  packet_fits p = true ->
  header_lengths !! Z.to_nat (type (packet_common p) - DATA) =
    Some (Z.of_nat (length (enc_packet p))) /\
  HOMA_MIN_PKT_LENGTH <= Z.of_nat (length (enc_packet p)) <= HOMA_MAX_HEADER.
Proof.
  intros Hp. rewrite enc_packet_length by done.
  destruct p; simpl in *; apply andb_prop in Hp as [_ ->%Z.eqb_eq];
    (split; [reflexivity | vm_compute; split; congruence]).
Qed.

Lemma header_lengths_correct_witness :
  let c := Build_homa_common_hdr 1 2 0 0 0 BUSY 0 0 0 0 0 4 in
  HOMA_MIN_PKT_LENGTH <= Z.of_nat (length (enc_packet (PBusy c))) <= HOMA_MAX_HEADER.
Proof.
  intros c. apply (header_lengths_correct (PBusy c)). vm_compute. reflexivity.
Defined.

(** Translating the sender's RPC id to the local one flips the role bit:
    it is an involution on 64-bit ids that maps every client id to a server
    id and conversely. *)
Theorem homa_local_id_flips id :
  is_u64 id ->
  is_u64 (homa_local_id id) /\
  homa_local_id (homa_local_id id) = id /\
  homa_is_client (homa_local_id id) = negb (homa_is_client id).
Proof.
  unfold is_u64, homa_local_id, homa_is_client.
  intros H.
  split; [|split].
  - rewrite <- (Z.mod_small id (2 ^ 64)) by lia.
    rewrite <- Z.land_ones by lia.
    replace (Z.lxor (Z.land id (Z.ones 64)) 1)
      with (Z.land (Z.lxor id 1) (Z.ones 64)).
    + rewrite Z.land_ones by lia. apply Z.mod_pos_bound. lia.
    + change 1 with (Z.land 1 (Z.ones 64)) at 2.
      apply Z.bits_inj'. intros n Hn. rewrite !Z.land_spec, !Z.lxor_spec.
      rewrite !Z.land_spec.
      by destruct (Z.testbit id n), (Z.testbit 1 n), (Z.testbit (Z.ones 64) n).
  - by rewrite Z.lxor_assoc, Z.lxor_nilpotent, Z.lxor_0_r.
  - rewrite !(Z.land_ones _ 1) by lia. change (2 ^ 1) with 2.
    rewrite !Zmod_odd, <- !Z.bit0_odd, Z.lxor_spec.
    change (Z.testbit 1 0) with true. by destruct (Z.testbit id 0).
Qed.

Lemma homa_local_id_flips_witness :
  homa_is_client (homa_local_id 1000) = negb (homa_is_client 1000).
Proof.
  apply (homa_local_id_flips 1000). unfold is_u64. lia.
Defined.
