(* ===== verification/Types.v ===== *)
(** * Shared data structures

    The structs of [homa_rpc.h], [homa_peer.h], [homa_pool.h], [homa_sock.h]
    and [homa_impl.h] that more than one component reads or writes, and the
    [world] that holds them.

    A pointer to an object is a [positive] key of the map that stores objects
    of its type; [NULL] is [None].  A kernel list ([struct list_head]) is the
    list of the pointers of its members in order; a [links] field of an object
    is empty exactly when the object is not a member of the list it links, so
    [list_empty] of a links field is a membership test.  Locks, reference
    counts of the host kernel, metrics and time-trace records are not part of
    the state. *)
From S2P Require Import Prelude Lists Wire.

Definition ptr := positive.

(** ** homa.h *)
Definition HOMA_MAX_MESSAGE_LENGTH : Z := 1000000.
Definition HOMA_BPAGE_SHIFT : Z := 16.
Definition HOMA_BPAGE_SIZE : Z := Z.shiftl 1 HOMA_BPAGE_SHIFT.
#[global] Arguments HOMA_BPAGE_SIZE : simpl never.
Definition HOMA_MAX_BPAGES : Z :=
  Z.shiftr (HOMA_MAX_MESSAGE_LENGTH + HOMA_BPAGE_SIZE - 1) HOMA_BPAGE_SHIFT.
#[global] Arguments HOMA_MAX_BPAGES : simpl never.
Definition HOMA_MAX_GRANTS : Z := 10.

Lemma HOMA_BPAGE_SIZE_eq : HOMA_BPAGE_SIZE = 65536.
Proof. vm_compute. reflexivity. Qed.
Lemma HOMA_MAX_BPAGES_eq : HOMA_MAX_BPAGES = 16.
Proof. vm_compute. reflexivity. Qed.

(** ** Packets in memory *)

(** A received DATA packet: its header and the bytes after it. *)
Record skb_in := { skb_hdr : homa_data_hdr; skb_data : list Z }.

(** [homa_data_len(skb)] once the transport header is at [skb->data]. *)
Definition skb_data_len (skb : skb_in) : Z :=
  homa_data_len (56 + Z.of_nat (length (skb_data skb))) 0.

(** A packet queued for transmission: its [struct homa_skb_info], the header,
    the bytes after the header, and the GSO parameters of the skb. *)
Record skb_out := {
  info_wire_bytes : Z; info_data_bytes : Z; info_seg_length : Z;
  info_offset : Z; out_hdr : homa_data_hdr; out_body : list Z;
  out_gso_segs : Z; out_gso_size : Z
}.
#[export] Instance eta_skb_out : Eta skb_out := fun r =>
  Build_skb_out (info_wire_bytes r) (info_data_bytes r) (info_seg_length r)
    (info_offset r) (out_hdr r) (out_body r) (out_gso_segs r) (out_gso_size r).

(** ** struct homa_gap *)
Record homa_gap := { gap_start : Z; gap_end : Z; gap_time : Z }.
#[export] Instance eta_gap : Eta homa_gap := fun r =>
  Build_homa_gap (gap_start r) (gap_end r) (gap_time r).

(** ** struct homa_message_in *)
Record homa_message_in := {
  mi_length : Z;
  mi_packets : list skb_in;
  mi_recv_end : Z;
  mi_gaps : list homa_gap;
  mi_bytes_remaining : Z;
  mi_granted : Z;
  mi_rec_incoming : Z;
  mi_rank : Z;
  mi_priority : Z;
  mi_resend_all : Z;
  mi_birth : Z;
  mi_num_bpages : Z;
  mi_bpage_offsets : list Z
}.
#[export] Instance eta_message_in : Eta homa_message_in := fun r =>
  Build_homa_message_in (mi_length r) (mi_packets r) (mi_recv_end r)
    (mi_gaps r) (mi_bytes_remaining r) (mi_granted r) (mi_rec_incoming r)
    (mi_rank r) (mi_priority r) (mi_resend_all r) (mi_birth r)
    (mi_num_bpages r) (mi_bpage_offsets r).

(** ** struct homa_message_out

    [mo_next_xmit] is the index in [mo_packets] of the packet that
    [*next_xmit] refers to (the length of the list when it is NULL). *)
Record homa_message_out := {
  mo_length : Z;
  mo_num_skbs : Z;
  mo_copied_from_user : Z;
  mo_packets : list skb_out;
  mo_next_xmit : nat;
  mo_next_xmit_offset : Z;
  mo_active_xmits : Z;
  mo_unscheduled : Z;
  mo_granted : Z;
  mo_sched_priority : Z;
  mo_init_ns : Z
}.
#[export] Instance eta_message_out : Eta homa_message_out := fun r =>
  Build_homa_message_out (mo_length r) (mo_num_skbs r)
    (mo_copied_from_user r) (mo_packets r) (mo_next_xmit r)
    (mo_next_xmit_offset r) (mo_active_xmits r) (mo_unscheduled r)
    (mo_granted r) (mo_sched_priority r) (mo_init_ns r).

(** ** struct homa_rpc *)
Inductive rpc_state := RPC_OUTGOING | RPC_INCOMING | RPC_IN_SERVICE | RPC_DEAD.
#[export] Instance rpc_state_eq_dec : EqDecision rpc_state.
Proof. solve_decision. Defined.

Definition RPC_PKTS_READY : Z := 1.
Definition RPC_COPYING_FROM_USER : Z := 2.
Definition RPC_COPYING_TO_USER : Z := 4.
Definition RPC_HANDING_OFF : Z := 8.
Definition APP_NEEDS_LOCK : Z := 16.
Definition RPC_CANT_REAP : Z :=
  Z.lor (Z.lor RPC_COPYING_FROM_USER RPC_COPYING_TO_USER) RPC_HANDING_OFF.

Record homa_rpc := {
  rpc_hsk : ptr;
  rpc_state_ : rpc_state;
  rpc_flags : Z;
  rpc_grants_in_progress : Z;
  rpc_peer : ptr;
  rpc_dport : Z;
  rpc_id : Z;
  rpc_completion_cookie : Z;
  rpc_error : Z;
  rpc_msgin : homa_message_in;
  rpc_msgout : homa_message_out;
  rpc_interest : option ptr;
  rpc_silent_ticks : Z;
  rpc_resend_timer_ticks : Z;
  rpc_done_timer_ticks : Z;
  rpc_magic : Z;
  rpc_start_ns : Z
}.
#[export] Instance eta_rpc : Eta homa_rpc := fun r =>
  Build_homa_rpc (rpc_hsk r) (rpc_state_ r) (rpc_flags r)
    (rpc_grants_in_progress r) (rpc_peer r) (rpc_dport r) (rpc_id r)
    (rpc_completion_cookie r) (rpc_error r) (rpc_msgin r) (rpc_msgout r)
    (rpc_interest r) (rpc_silent_ticks r) (rpc_resend_timer_ticks r) (rpc_done_timer_ticks r)
    (rpc_magic r) (rpc_start_ns r).

(** ** struct homa_peer

    [peer_addr] packs the four 32-bit words [in6_u.u6_addr32] of the address,
    word [i] at bit [32 * i]; [peer_dst] identifies the route. *)
Record homa_peer := {
  peer_addr : Z;
  peer_dst : Z;
  peer_unsched_cutoffs : list Z;
  peer_cutoff_version : Z;
  peer_last_update_jiffies : Z;
  peer_grantable_rpcs : list ptr;
  peer_outstanding_resends : Z;
  peer_most_recent_resend : Z;
  peer_least_recent_rpc : option ptr;
  peer_least_recent_ticks : Z;
  peer_current_ticks : Z;
  peer_resend_rpc : option ptr;
  peer_num_acks : Z;
  peer_acks : list homa_ack
}.
#[export] Instance eta_peer : Eta homa_peer := fun r =>
  Build_homa_peer (peer_addr r) (peer_dst r) (peer_unsched_cutoffs r)
    (peer_cutoff_version r) (peer_last_update_jiffies r)
    (peer_grantable_rpcs r) (peer_outstanding_resends r)
    (peer_most_recent_resend r) (peer_least_recent_rpc r)
    (peer_least_recent_ticks r) (peer_current_ticks r) (peer_resend_rpc r)
    (peer_num_acks r) (peer_acks r).

(** ** struct homa_peertab

    [pt_alloc]: the array [buckets] is not NULL.  The buckets that are not in
    the map are empty; a dead route is kept with the time when it may be
    freed. *)
Record homa_peertab := {
  pt_alloc : bool;
  pt_buckets : gmap Z (list ptr);
  pt_dead_dsts : list (Z * Z)
}.
#[export] Instance eta_peertab : Eta homa_peertab := fun r =>
  Build_homa_peertab (pt_alloc r) (pt_buckets r) (pt_dead_dsts r).

(** ** struct homa_bpage, struct homa_pool_core, struct homa_pool

    [pool_region] is the address of the region (0 is NULL).  An array that
    was freed or never allocated is empty. *)
Record homa_bpage := { bp_refs : Z; bp_owner : Z; bp_expiration : Z }.
#[export] Instance eta_bpage : Eta homa_bpage := fun r =>
  Build_homa_bpage (bp_refs r) (bp_owner r) (bp_expiration r).

Record homa_pool_core := {
  page_hint : Z; allocated : Z; next_candidate : Z
}.
#[export] Instance eta_pool_core : Eta homa_pool_core := fun r =>
  Build_homa_pool_core (page_hint r) (allocated r) (next_candidate r).

Record homa_pool := {
  pool_region : Z;
  pool_num_bpages : Z;
  pool_descriptors : list homa_bpage;
  pool_free_bpages : Z;
  pool_bpages_needed : Z;
  pool_cores : list homa_pool_core;
  pool_num_cores : Z
}.
#[export] Instance eta_pool : Eta homa_pool := fun r =>
  Build_homa_pool (pool_region r) (pool_num_bpages r) (pool_descriptors r)
    (pool_free_bpages r) (pool_bpages_needed r) (pool_cores r)
    (pool_num_cores r).

(** ** struct homa_sock

    The hash buckets of RPCs are lists of pointers; [sk_remote_host] is the
    address and port of a connected socket; [sk_family] and [sk_tcp]
    ([sk_protocol] is [IPPROTO_TCP]) come from the generic socket;
    [sk_has_pool]: [buffer_pool] is not NULL. *)
Record homa_sock := {
  sk_family : Z;
  sk_tcp : bool;
  sk_protect_count : Z;
  sk_shutdown : bool;
  sk_port : Z;
  sk_ip_header_length : Z;
  sk_active_rpcs : list ptr;
  sk_dead_rpcs : list ptr;
  sk_dead_skbs : Z;
  sk_waiting_for_bufs : list ptr;
  sk_ready_requests : list ptr;
  sk_ready_responses : list ptr;
  sk_request_interests : list ptr;
  sk_response_interests : list ptr;
  sk_client_rpc_buckets : list (list ptr);
  sk_server_rpc_buckets : list (list ptr);
  sk_has_pool : bool;
  sk_buffer_pool : homa_pool;
  sk_remote_host : Z * Z;
  sk_connect : bool
}.
#[export] Instance eta_sock : Eta homa_sock := fun r =>
  Build_homa_sock (sk_family r) (sk_tcp r) (sk_protect_count r) (sk_shutdown r) (sk_port r)
    (sk_ip_header_length r) (sk_active_rpcs r) (sk_dead_rpcs r)
    (sk_dead_skbs r) (sk_waiting_for_bufs r) (sk_ready_requests r)
    (sk_ready_responses r) (sk_request_interests r) (sk_response_interests r) (sk_client_rpc_buckets r)
    (sk_server_rpc_buckets r) (sk_has_pool r) (sk_buffer_pool r) (sk_remote_host r)
    (sk_connect r).

(** ** struct homa

    The fields that the modelled code uses.  [h_active_rpcs] and
    [h_active_remaining] are arrays of [HOMA_MAX_GRANTS] entries. *)
Record homa := {
  h_next_outgoing_id : Z;
  h_link_idle_time : Z;
  h_grant_recalc_count : Z;
  h_grantable_peers : list ptr;
  h_num_grantable_rpcs : Z;
  h_last_grantable_change : Z;
  h_max_grantable_rpcs : Z;
  h_oldest_rpc : option ptr;
  h_grant_window : Z;
  h_num_active_rpcs : Z;
  h_active_rpcs : list (option ptr);
  h_active_remaining : list Z;
  h_pacer_fifo_fraction : Z;
  h_pacer_fifo_count : Z;
  h_throttled_rpcs : list ptr;
  h_throttle_add : Z;
  h_throttle_min_bytes : Z;
  h_total_incoming : Z;
  h_next_client_port : Z;
  h_unsched_bytes : Z;
  h_window_param : Z;
  h_link_mbps : Z;
  h_num_priorities : Z;
  h_priority_map : list Z;
  h_max_sched_prio : Z;
  h_unsched_cutoffs : list Z;
  h_cutoff_version : Z;
  h_fifo_grant_increment : Z;
  h_max_overcommit : Z;
  h_max_incoming : Z;
  h_max_rpcs_per_peer : Z;
  h_resend_ticks : Z;
  h_resend_interval : Z;
  h_timeout_ticks : Z;
  h_request_ack_ticks : Z;
  h_reap_limit : Z;
  h_dead_buffs_limit : Z;
  h_max_dead_buffs : Z;
  h_max_nic_queue_ns : Z;
  h_ns_per_mbyte : Z;
  h_max_gso_size : Z;
  h_timer_ticks : Z;
  h_bpage_lease_usecs : Z;
  h_next_id : Z;
  h_flags : Z;
  h_hijack_tcp : Z;
  h_grant_fifo_fraction : Z;
  h_grant_nonfifo : Z;
  h_busy_usecs : Z;
  h_busy_ns : Z;
  h_gro_busy_usecs : Z;
  h_gro_busy_ns : Z;
  h_poll_usecs : Z;
  h_max_gro_skbs : Z;
  h_gro_policy : Z;
  h_pacer_exit : bool;
  h_pacer_wake_time : Z
}.
#[export] Instance eta_homa : Eta homa := fun r =>
  Build_homa (h_next_outgoing_id r) (h_link_idle_time r)
    (h_grant_recalc_count r) (h_grantable_peers r) (h_num_grantable_rpcs r)
    (h_last_grantable_change r) (h_max_grantable_rpcs r) (h_oldest_rpc r)
    (h_grant_window r) (h_num_active_rpcs r) (h_active_rpcs r)
    (h_active_remaining r) (h_pacer_fifo_fraction r) (h_pacer_fifo_count r)
    (h_throttled_rpcs r) (h_throttle_add r) (h_throttle_min_bytes r)
    (h_total_incoming r) (h_next_client_port r) (h_unsched_bytes r)
    (h_window_param r) (h_link_mbps r) (h_num_priorities r)
    (h_priority_map r) (h_max_sched_prio r) (h_unsched_cutoffs r)
    (h_cutoff_version r) (h_fifo_grant_increment r) (h_max_overcommit r)
    (h_max_incoming r) (h_max_rpcs_per_peer r) (h_resend_ticks r)
    (h_resend_interval r) (h_timeout_ticks r) (h_request_ack_ticks r)
    (h_reap_limit r) (h_dead_buffs_limit r) (h_max_dead_buffs r)
    (h_max_nic_queue_ns r) (h_ns_per_mbyte r) (h_max_gso_size r)
    (h_timer_ticks r) (h_bpage_lease_usecs r) (h_next_id r)
    (h_flags r) (h_hijack_tcp r) (h_grant_fifo_fraction r) (h_grant_nonfifo r)
    (h_busy_usecs r) (h_busy_ns r) (h_gro_busy_usecs r) (h_gro_busy_ns r)
    (h_poll_usecs r) (h_max_gro_skbs r) (h_gro_policy r) (h_pacer_exit r) (h_pacer_wake_time r).

(** ** struct homa_interest

    A thread that waits for a message; the pointer of the interest also
    identifies the thread.  Its [request_links] and [response_links] are
    [LIST_POISON1] exactly when it is not in the list of its socket. *)
Record homa_interest := {
  int_locked : Z;
  int_core : Z;
  int_reg_rpc : option ptr;
  int_ready_rpc : option ptr
}.
#[export] Instance eta_interest : Eta homa_interest := fun r =>
  Build_homa_interest (int_locked r) (int_core r) (int_reg_rpc r) (int_ready_rpc r).

(** ** struct homa_socktab, struct homa_socktab_scan

    The buckets that are not in the map are empty; [st_active_scans] are the
    scans in progress, by pointer. *)
Record homa_socktab_scan := { scan_current_bucket : Z; scan_next : option ptr }.
#[export] Instance eta_scan : Eta homa_socktab_scan := fun r =>
  Build_homa_socktab_scan (scan_current_bucket r) (scan_next r).

Record homa_socktab := {
  st_buckets : gmap Z (list ptr);
  st_active_scans : gmap ptr homa_socktab_scan
}.
#[export] Instance eta_socktab : Eta homa_socktab := fun r =>
  Build_homa_socktab (st_buckets r) (st_active_scans r).

(** ** The host kernel

    [host_jiffies] is the current value of [jiffies]; [host_last_active] and
    [host_last_app_active] are fields of the per-core [struct
    homa_offload_core]; [host_woken] is the log of the threads passed to
    [wake_up_process], [host_notified] that of the sockets passed to
    [sk_data_ready], and [host_xmit] that of the data packets handed to IP,
    with the peer and the priority of each; [host_user] is the log of the copies
    to user memory (address and bytes), [host_icmp] that of the addresses to
    which a "port unreachable" message was sent. *)
Record host := {
  host_jiffies : Z;
  host_last_active : Z -> Z;
  host_last_app_active : Z -> Z;
  host_woken : list ptr;
  host_notified : list ptr;
  host_xmit : list (ptr * Z * skb_out);
  host_user : list (Z * list Z);
  host_icmp : list Z
}.
#[export] Instance eta_host : Eta host := fun r =>
  Build_host (host_jiffies r) (host_last_active r) (host_last_app_active r)
    (host_woken r) (host_notified r) (host_xmit r) (host_user r) (host_icmp r).

(** ** The state of the module

    [w_clock] gives the values that successive calls of [sched_clock] return,
    [w_tick] counts the calls so far.  [w_sent] is the log of the packets
    handed to the network with the peer each was sent to, [w_released] that of
    the routes passed to [dst_release].  [w_stack] is the
    content of uninitialised stack memory: control packets are built in local
    variables of which only some fields are assigned. *)
Record world := {
  w_homa : homa;
  w_rpcs : gmap ptr homa_rpc;
  w_peers : gmap ptr homa_peer;
  w_socks : gmap ptr homa_sock;
  w_peertab : homa_peertab;
  w_socktab : homa_socktab;
  w_interests : gmap ptr homa_interest;
  w_host : host;
  w_released : list Z;
  w_sent : list (ptr * homa_packet);
  w_clock : nat -> Z;
  w_tick : nat;
  w_stack : homa_common_hdr
}.
#[export] Instance eta_world : Eta world := fun r =>
  Build_world (w_homa r) (w_rpcs r) (w_peers r) (w_socks r) (w_peertab r)
    (w_socktab r) (w_interests r) (w_host r)
    (w_released r) (w_sent r)
    (w_clock r) (w_tick r) (w_stack r).

(** ** State and error monad

    [ST S] is the monad over states of type [S]; the protocol runs in [M], over
    [world]. *)
Definition ST (S A : Type) : Type := S -> result (A * S).
Definition M : Type -> Type := ST world.

Definition ret {S A} (a : A) : ST S A := fun w => Ok (a, w).
Definition bind {S A B} (m : ST S A) (k : A -> ST S B) : ST S B := fun w =>
  match m w with Ok (a, w') => k a w' | Fault f => Fault f end.
Definition raise {S A} (f : fault) : ST S A := fun _ => Fault f.
(** A computation that does not use the state. *)
Definition lift {S A} (r : result A) : ST S A := fun w =>
  match r with Ok a => Ok (a, w) | Fault f => Fault f end.

Notation "'let*' x ':=' m 'in' k" := (bind m (fun x => k))
  (at level 10, x pattern, m at level 100, k at level 200) : homa_scope.
Notation "m ;;; k" := (bind m (fun _ => k))
  (at level 100, right associativity) : homa_scope.

Definition get_homa : M homa := fun w => Ok (w_homa w, w).
Definition upd_homa (f : homa -> homa) : M unit := fun w =>
  Ok (tt, w <| w_homa ::= f |>).
Definition get_rpc (p : ptr) : M homa_rpc := fun w =>
  match w_rpcs w !! p with Some r => Ok (r, w) | None => Fault BadPointer end.
Definition upd_rpc (p : ptr) (f : homa_rpc -> homa_rpc) : M unit := fun w =>
  match w_rpcs w !! p with
  | Some r => Ok (tt, w <| w_rpcs ::= insert p (f r) |>)
  | None => Fault BadPointer
  end.
Definition get_peer (p : ptr) : M homa_peer := fun w =>
  match w_peers w !! p with Some r => Ok (r, w) | None => Fault BadPointer end.
Definition upd_peer (p : ptr) (f : homa_peer -> homa_peer) : M unit := fun w =>
  match w_peers w !! p with
  | Some r => Ok (tt, w <| w_peers ::= insert p (f r) |>)
  | None => Fault BadPointer
  end.
Definition get_sock (p : ptr) : M homa_sock := fun w =>
  match w_socks w !! p with Some r => Ok (r, w) | None => Fault BadPointer end.
Definition upd_sock (p : ptr) (f : homa_sock -> homa_sock) : M unit := fun w =>
  match w_socks w !! p with
  | Some r => Ok (tt, w <| w_socks ::= insert p (f r) |>)
  | None => Fault BadPointer
  end.
Definition sched_clock : M Z := fun w =>
  Ok (w_clock w (w_tick w), w <| w_tick ::= S |>).
Definition send (peer : ptr) (pkt : homa_packet) : M unit := fun w =>
  Ok (tt, w <| w_sent ::= fun l => l ++ [(peer, pkt)] |>).

(** Sequential iteration over a list. *)
Fixpoint mapM_ {S A} (f : A -> ST S unit) (l : list A) : ST S unit :=
  match l with [] => ret tt | x :: l' => (f x ;;; mapM_ f l') end.

(** The traversals of Lists.v when the test dereferences pointers. *)
Fixpoint insertM {A} (test : A -> M bool) (x : A) (l : list A) : M (list A) :=
  match l with
  | [] => ret [x]
  | c :: l' =>
      let* b := test c in
      if b then ret (x :: c :: l')
      else let* l'' := insertM test x l' in ret (c :: l'')
  end.

Fixpoint move_upM {A} (test : A -> M bool) (x : A) (rpre post : list A)
    : M (list A) :=
  match rpre with
  | [] => ret (x :: post)
  | c :: rpre' =>
      let* b := test c in
      if b then move_upM test x rpre' (c :: post)
      else ret (reverse rpre' ++ c :: x :: post)
  end.

Fixpoint move_downM {A} (test : A -> M bool) (x : A) (post : list A)
    : M (list A) :=
  match post with
  | [] => ret [x]
  | c :: post' =>
      let* b := test c in
      if b then let* l := move_downM test x post' in ret (c :: l)
      else ret (x :: c :: post')
  end.

(** The elements before and after a member of a list. *)
Fixpoint split_at (x : ptr) (l : list ptr) : list ptr * list ptr :=
  match l with
  | [] => ([], [])
  | c :: l' =>
      if bool_decide (c = x) then ([], l')
      else let '(pre, post) := split_at x l' in (c :: pre, post)
  end.

(** Removal of a member from a kernel list. *)
Definition unlink (p : ptr) (l : list ptr) : list ptr :=
  let '(pre, post) := split_at p l in pre ++ post.

(** [list_first_entry] *)
Definition first_entry {A} (l : list A) : M A :=
  match l with [] => raise BadPointer | x :: _ => ret x end.

(** ** Lemmas on the monad *)
Lemma bind_Ok {S A B} (m : ST S A) (k : A -> ST S B) w b w' :
  bind m k w = Ok (b, w') -> exists a w1, m w = Ok (a, w1) /\ k a w1 = Ok (b, w').
Proof. unfold bind. destruct (m w) as [[a w1]|]; [eauto | done]. Qed.

Lemma bind_eq {S A B} (m : ST S A) (k : A -> ST S B) w a w1 :
  m w = Ok (a, w1) -> bind m k w = k a w1.
Proof. unfold bind. by intros ->. Qed.

(** The monad laws, pointwise. *)
Lemma bind_bind {S A B C} (m : ST S A) (k : A -> ST S B) (k' : B -> ST S C) w :
  bind (bind m k) k' w = bind m (fun a => bind (k a) k') w.
Proof. unfold bind. by destruct (m w) as [[a w1]|]. Qed.
Lemma bind_ext {S A B} (m : ST S A) (k k' : A -> ST S B) w :
  (forall a w', k a w' = k' a w') -> bind m k w = bind m k' w.
Proof. intros H. unfold bind. destruct (m w) as [[a w1]|]; [apply H | done]. Qed.

Lemma mapM_app {S A} (f : A -> ST S unit) l1 : forall l2 w,
  mapM_ f (l1 ++ l2) w = (mapM_ f l1 ;;; mapM_ f l2) w.
Proof.
  induction l1 as [|x l1 IH]; intros l2 w; cbn [app mapM_]; [done |].
  rewrite bind_bind. apply bind_ext. intros _ w'. apply IH.
Qed.

(** A test that reads the state but does not change it. *)
Definition pure_test {A} (w : world) (test : A -> M bool) (p : A -> bool)
    (l : list A) : Prop := forall c, c ∈ l -> test c w = Ok (p c, w).

Lemma insertM_pure {A} w (test : A -> M bool) p x l :
  pure_test w test p l -> insertM test x l w = Ok (insert_before p x l, w).
Proof.
  intros Ht. induction l as [|c l IH]; simpl; [done |].
  rewrite (bind_eq _ _ _ (p c) w) by (apply Ht; set_solver).
  destruct (p c); [done |].
  rewrite (bind_eq _ _ _ (insert_before p x l) w); [done |].
  apply IH. intros d Hd. apply Ht. set_solver.
Qed.

Lemma move_upM_pure {A} w (test : A -> M bool) p x rpre post :
  pure_test w test p rpre -> move_upM test x rpre post w = Ok (move_up p x rpre post, w).
Proof.
  revert post. induction rpre as [|c rpre IH]; simpl; intros post Ht; [done |].
  rewrite (bind_eq _ _ _ (p c) w) by (apply Ht; set_solver).
  destruct (p c); [|done]. apply IH. intros d Hd. apply Ht. set_solver.
Qed.

Lemma move_downM_pure {A} w (test : A -> M bool) p x post :
  pure_test w test p post -> move_downM test x post w = Ok (move_down p x post, w).
Proof.
  intros Ht. induction post as [|c post IH]; simpl; [done |].
  rewrite (bind_eq _ _ _ (p c) w) by (apply Ht; set_solver).
  destruct (p c); [|done].
  rewrite (bind_eq _ _ _ (move_down p x post) w); [done |].
  apply IH. intros d Hd. apply Ht. set_solver.
Qed.

Lemma split_at_spec x l pre post :
  x ∈ l -> split_at x l = (pre, post) -> l = pre ++ x :: post /\ x ∉ pre.
Proof.
  revert pre post. induction l as [|c l IH]; simpl; intros pre post Hx H;
    [by apply elem_of_nil in Hx |].
  case_bool_decide as Hc; simplify_eq.
  - split; [done | apply not_elem_of_nil].
  - apply elem_of_cons in Hx as [-> | Hx]; [done |].
    destruct (split_at x l) as [pre' post']. simplify_eq.
    destruct (IH pre' post Hx eq_refl) as [-> Hn].
    split; [done |]. rewrite elem_of_cons. intros [-> | ?]; done.
Qed.

Lemma split_at_app x pre post : x ∉ pre -> split_at x (pre ++ x :: post) = (pre, post).
Proof.
  induction pre as [|c pre IH]; simpl; intros Hx.
  - by rewrite bool_decide_true.
  - apply not_elem_of_cons in Hx as [Hc Hx]. rewrite bool_decide_false by done. by rewrite IH.
Qed.

(** Members are unlinked once; the order of the others is kept. *)
Lemma unlink_notin x l : x ∉ l -> unlink x l = l.
Proof.
  unfold unlink. induction l as [|c l IH]; simpl; intros Hx; [done |].
  apply not_elem_of_cons in Hx as [Hc Hx]. rewrite bool_decide_false by done.
  destruct (split_at x l) as [pre post]. simpl. f_equal. by apply IH.
Qed.

Lemma unlink_filter x l : NoDup l -> unlink x l = filter (.≠ x) l.
Proof.
  intros Hnd. destruct (decide (x ∈ l)) as [Hx | Hx].
  - apply list_elem_of_split_l in Hx as (pre & post & -> & Hx). unfold unlink. rewrite split_at_app by done.
    apply NoDup_app in Hnd as (_ & _ & Hnd). apply NoDup_cons in Hnd as [Hp _].
    rewrite filter_app, filter_cons_False by tauto.
    rewrite !filter_all; [done | |]; intros y Hy ->; done.
  - rewrite unlink_notin by done. symmetry. apply filter_all. intros y Hy ->. done.
Qed.

(** ** Symbolic execution

    Each operation on live objects returns, and its final state is given
    explicitly. *)
Lemma get_rpc_eq p w rpc : w_rpcs w !! p = Some rpc -> get_rpc p w = Ok (rpc, w).
Proof. unfold get_rpc. by intros ->. Qed.
Lemma get_peer_eq p w pe : w_peers w !! p = Some pe -> get_peer p w = Ok (pe, w).
Proof. unfold get_peer. by intros ->. Qed.
Lemma get_sock_eq p w sk : w_socks w !! p = Some sk -> get_sock p w = Ok (sk, w).
Proof. unfold get_sock. by intros ->. Qed.
Lemma upd_rpc_eq p f w rpc :
  w_rpcs w !! p = Some rpc -> upd_rpc p f w = Ok (tt, w <| w_rpcs ::= insert p (f rpc) |>).
Proof. unfold upd_rpc. by intros ->. Qed.
Lemma upd_peer_eq p f w pe :
  w_peers w !! p = Some pe -> upd_peer p f w = Ok (tt, w <| w_peers ::= insert p (f pe) |>).
Proof. unfold upd_peer. by intros ->. Qed.
Lemma upd_sock_eq p f w sk :
  w_socks w !! p = Some sk -> upd_sock p f w = Ok (tt, w <| w_socks ::= insert p (f sk) |>).
Proof. unfold upd_sock. by intros ->. Qed.

(** Step through the next call of a sequence. *)
Ltac step :=
  first
    [ rewrite (bind_eq _ _ _ _ _ (get_rpc_eq _ _ _ ltac:(eassumption)))
    | rewrite (bind_eq _ _ _ _ _ (get_peer_eq _ _ _ ltac:(eassumption)))
    | rewrite (bind_eq _ _ _ _ _ (get_sock_eq _ _ _ ltac:(eassumption)))
    | rewrite (bind_eq _ _ _ _ _ (upd_rpc_eq _ _ _ _ ltac:(eassumption)))
    | rewrite (bind_eq _ _ _ _ _ (upd_peer_eq _ _ _ _ ltac:(eassumption)))
    | rewrite (bind_eq _ _ _ _ _ (upd_sock_eq _ _ _ _ ltac:(eassumption)))
    | rewrite (bind_eq get_homa _ _ _ _ eq_refl)
    | rewrite (bind_eq (upd_homa _) _ _ _ _ eq_refl)
    | rewrite (bind_eq sched_clock _ _ _ _ eq_refl)
    | rewrite (bind_eq (ret _) _ _ _ _ eq_refl) ].
