(* ===== verification/Example.v ===== *)
(** * A small concrete state

    A server with two client hosts (peers 1 and 2), one socket and three
    incoming requests: RPCs 11 and 12 from peer 1, RPC 13 from peer 2.  The
    parameters are the defaults of [homa_init] where the code uses them. *)
From S2P Require Import Prelude Lists Wire Types.

Definition ex_homa : homa := {|
  h_next_outgoing_id := 2; h_link_idle_time := 0; h_grant_recalc_count := 0;
  h_grantable_peers := [1%positive; 2%positive]; h_num_grantable_rpcs := 3;
  h_last_grantable_change := 0; h_max_grantable_rpcs := 3; h_oldest_rpc := None;
  h_grant_window := 10000; h_num_active_rpcs := 0;
  h_active_rpcs := replicate 10 None; h_active_remaining := replicate 10 0;
  h_pacer_fifo_fraction := 50; h_pacer_fifo_count := 1; h_throttled_rpcs := [];
  h_throttle_add := 0; h_throttle_min_bytes := 200; h_total_incoming := 0;
  h_next_client_port := 32768; h_unsched_bytes := 40000; h_window_param := 100000;
  h_link_mbps := 25000; h_num_priorities := 8;
  h_priority_map := [0; 1; 2; 3; 4; 5; 6; 7]; h_max_sched_prio := 5;
  h_unsched_cutoffs := [0; 0; 0; 0; 0; 1000000; 2000; 1000]; h_cutoff_version := 1;
  h_fifo_grant_increment := 10000; h_max_overcommit := 8; h_max_incoming := 400000;
  h_max_rpcs_per_peer := 1; h_resend_ticks := 5; h_resend_interval := 5;
  h_timeout_ticks := 100; h_request_ack_ticks := 2; h_reap_limit := 10;
  h_dead_buffs_limit := 5000; h_max_dead_buffs := 0; h_max_nic_queue_ns := 2000;
  h_ns_per_mbyte := 323200; h_max_gso_size := 10000; h_timer_ticks := 0;
  h_bpage_lease_usecs := 10000; h_next_id := 0; h_flags := 0; h_hijack_tcp := 0;
  h_grant_fifo_fraction := 50; h_grant_nonfifo := 190000; h_busy_usecs := 100;
  h_busy_ns := 100000; h_gro_busy_usecs := 5; h_gro_busy_ns := 5000; h_poll_usecs := 50;
  h_max_gro_skbs := 20; h_gro_policy := 114; h_pacer_exit := false; h_pacer_wake_time := 0 |}.

Definition ex_msgin (length_ remaining birth : Z) : homa_message_in := {|
  mi_length := length_; mi_packets := []; mi_recv_end := length_ - remaining;
  mi_gaps := []; mi_bytes_remaining := remaining; mi_granted := length_ - remaining;
  mi_rec_incoming := 0; mi_rank := -1; mi_priority := 0; mi_resend_all := 0;
  mi_birth := birth; mi_num_bpages := 1; mi_bpage_offsets := replicate 16 0 |}.

Definition ex_msgout : homa_message_out := {|
  mo_length := -1; mo_num_skbs := 0; mo_copied_from_user := 0; mo_packets := [];
  mo_next_xmit := 0; mo_next_xmit_offset := 0; mo_active_xmits := 0;
  mo_unscheduled := 0; mo_granted := 0; mo_sched_priority := 0; mo_init_ns := 0 |}.

Definition ex_rpc (peer : ptr) (id : Z) (mi : homa_message_in) : homa_rpc := {|
  rpc_hsk := 1%positive; rpc_state_ := RPC_INCOMING; rpc_flags := 0;
  rpc_grants_in_progress := 0; rpc_peer := peer; rpc_dport := 40000; rpc_id := id;
  rpc_completion_cookie := 0; rpc_error := 0; rpc_msgin := mi; rpc_msgout := ex_msgout; rpc_interest := None;
  rpc_silent_ticks := 0; rpc_resend_timer_ticks := 0; rpc_done_timer_ticks := 0;
  rpc_magic := 0; rpc_start_ns := 0 |}.

Definition ex_peer (addr : Z) (l : list ptr) : homa_peer := {|
  peer_addr := addr; peer_dst := addr; peer_unsched_cutoffs := replicate 8 0; peer_cutoff_version := 0;
  peer_last_update_jiffies := 0; peer_grantable_rpcs := l;
  peer_outstanding_resends := 0; peer_most_recent_resend := 0;
  peer_least_recent_rpc := None; peer_least_recent_ticks := 0;
  peer_current_ticks := 2 ^ 32 - 1; peer_resend_rpc := None; peer_num_acks := 0;
  peer_acks := replicate 5 (Build_homa_ack 0 0) |}.

Definition ex_sock : homa_sock := {|
  sk_family := 10; sk_tcp := false; sk_protect_count := 0; sk_shutdown := false; sk_port := 99; sk_ip_header_length := 40;
  sk_active_rpcs := [11%positive; 12%positive; 13%positive]; sk_dead_rpcs := [];
  sk_dead_skbs := 0; sk_waiting_for_bufs := []; sk_ready_requests := [];
  sk_ready_responses := []; sk_request_interests := []; sk_response_interests := []; sk_client_rpc_buckets := replicate 1024 [];
  sk_server_rpc_buckets := replicate 1024 [];
  sk_has_pool := true; sk_buffer_pool := Build_homa_pool 0 0 [] 0 0 [] 0; sk_remote_host := (0, 0);
  sk_connect := false |}.

(** [l1] and [l2] are the grantable RPCs of the peers. *)
Definition ex_world (h : homa) (l1 l2 : list ptr) : world := {|
  w_homa := h;
  w_rpcs := {[ 11%positive := ex_rpc 1%positive 3 (ex_msgin 100100 100 10);
               12%positive := ex_rpc 1%positive 5 (ex_msgin 100200 200 20);
               13%positive := ex_rpc 2%positive 7 (ex_msgin 900300 900000 30) ]};
  w_peers := {[ 1%positive := ex_peer 101 l1; 2%positive := ex_peer 102 l2 ]};
  w_socks := {[ 1%positive := ex_sock ]};
  w_peertab := Build_homa_peertab true
    {[ 101 := [1%positive]; 102 := [2%positive] ]} [];
  w_socktab := Build_homa_socktab {[ 99 := [1%positive] ]} ∅; w_interests := ∅;
  w_host := Build_host 50 (fun _ => 0) (fun _ => 0) [] [] [] [] [];
  w_released := []; w_sent := []; w_clock := fun n => 1000 + Z.of_nat n; w_tick := 0;
  w_stack := Build_homa_common_hdr 0 0 0 0 0 0 0 0 0 0 0 0 |}.

Definition ex : world := ex_world ex_homa [11%positive; 12%positive] [13%positive].
