(* ===== verification/Control.v ===== *)
(** * Control packets (homa_outgoing.c)

    Packets without message data: how they are filled in and sent. *)
From S2P Require Import Prelude Lists Wire Types.

(** [homa_xmit_control]: the header fields it sets, over the stack variable
    that holds the rest of the header; [mk] is the packet built on it.  The
    packet is handed to [__homa_xmit_control], which copies it and passes it
    to IP. *)
Definition control_hdr (type_ : Z) (s : homa_common_hdr) (sk : homa_sock) (rpc : homa_rpc)
    : homa_common_hdr :=
  Build_homa_common_hdr (sk_port sk) (rpc_dport rpc) (sequence s)
    (ack1 s) (ack2 s) type_ (doff s) HOMA_TCP_FLAGS (window s)
    (checksum s) HOMA_TCP_URGENT (rpc_id rpc).

Definition homa_xmit_control (type_ : Z) (mk : homa_common_hdr -> homa_packet)
    (p : ptr) : M unit :=
  let* rpc := get_rpc p in
  let* sk := get_sock (rpc_hsk rpc) in
  fun w => send (rpc_peer rpc) (mk (control_hdr type_ (w_stack w) sk rpc)) w.

Lemma xmit_control_exec type_ mk p w rpc sk :
  w_rpcs w !! p = Some rpc -> w_socks w !! rpc_hsk rpc = Some sk ->
  homa_xmit_control type_ mk p w = Ok (tt, w <| w_sent ::= fun l =>
    l ++ [(rpc_peer rpc, mk (control_hdr type_ (w_stack w) sk rpc))] |>).
Proof. intros Hr Hs. unfold homa_xmit_control. step. step. done. Qed.
