(* ===== verification/Peer.v ===== *)
(** * Peers (homa_peer.c)

    The table of the hosts that Homa has communicated with, their routes,
    priorities of unscheduled packets, and the acks to be sent to them. *)
From S2P Require Import Prelude Lists Wire Types Example Control.

Definition HOMA_PEERTAB_BUCKET_BITS : Z := 16.
Definition HOMA_PEERTAB_BUCKETS : Z := 65536.

(** ** Routes *)

(** [homa_peertab_gc_dsts]: the entries that remain, and those released. *)
Fixpoint gc_loop (now : Z) (dead : list (Z * Z)) : list (Z * Z) * list Z :=
  match dead with
  | [] => ([], [])
  | (dst, gc_time) :: rest =>
      if gc_time >? now then (dead, [])
      else let '(kept, freed) := gc_loop now rest in (kept, dst :: freed)
  end.

Definition upd_peertab (f : homa_peertab -> homa_peertab) : M unit := fun w =>
  Ok (tt, w <| w_peertab ::= f |>).
Definition get_peertab : M homa_peertab := fun w => Ok (w_peertab w, w).
Definition dst_release (dst : Z) : M unit := fun w =>
  Ok (tt, w <| w_released ::= fun l => l ++ [dst] |>).

Definition homa_peertab_gc_dsts (now : Z) : M unit :=
  let* pt := get_peertab in
  let '(kept, freed) := gc_loop now (pt_dead_dsts pt) in
  (mapM_ dst_release freed ;;;
   upd_peertab (fun pt => pt <| pt_dead_dsts := kept |>)).

(** [homa_dst_refresh]; [route] is the result of [homa_peer_get_dst] (the
    host's routing code), [mem] whether [kmalloc] finds memory. *)
Definition homa_dst_refresh (route : Z + Z) (mem : bool) (p : ptr) : M unit :=
  match route with
  | inl _ => ret tt
  | inr dst =>
      let* peer := get_peer p in
      ((if negb mem then dst_release (peer_dst peer)
        else
          let* now := sched_clock in
          (upd_peertab (fun pt => pt <| pt_dead_dsts ::= fun l =>
             l ++ [(peer_dst peer, u64 (now + 125000000))] |>) ;;;
           homa_peertab_gc_dsts now)) ;;;
       upd_peer p (fun peer => peer <| peer_dst := dst |>))
  end.

(** [homa_get_dst]; [obsolete] is whether the host has marked the route of the
    peer as obsolete. *)
Definition homa_get_dst (obsolete : bool) (route : Z + Z) (mem : bool) (p : ptr) : M Z :=
  (if obsolete then homa_dst_refresh route mem p else ret tt) ;;;
  let* peer := get_peer p in ret (peer_dst peer).

(** ** Acks *)
Definition homa_peer_add_ack (p : ptr) : M unit :=
  let* rpc := get_rpc p in
  let* peer := get_peer (rpc_peer rpc) in
  if peer_num_acks peer <? HOMA_MAX_ACKS_PER_PKT then
    let* acks := lift (arr_set (peer_acks peer) (peer_num_acks peer)
      (Build_homa_ack (rpc_id rpc) (rpc_dport rpc))) in
    upd_peer (rpc_peer rpc) (fun peer => peer <| peer_acks := acks |>
      <| peer_num_acks ::= fun n => n + 1 |>)
  else
    (upd_peer (rpc_peer rpc) (fun peer => peer <| peer_num_acks := 0 |>) ;;;
     homa_xmit_control ACK (fun c =>
       PAck (Build_homa_ack_hdr c (u16 (peer_num_acks peer)) (peer_acks peer))) p).

(** [homa_peer_get_acks]: the acks copied to [dst]. *)
Definition homa_peer_get_acks (pe : ptr) (count : Z) : M (list homa_ack) :=
  let* peer := get_peer pe in
  if peer_num_acks peer =? 0 then ret [] else
  let count := if count >? peer_num_acks peer then peer_num_acks peer else count in
  let start := peer_num_acks peer - count in
  if (start <? 0) || (count <? 0) ||
     (Z.of_nat (length (peer_acks peer)) <? peer_num_acks peer)
  then raise ArrayBounds
  else
    (upd_peer pe (fun peer => peer <| peer_num_acks ::= fun n => n - count |>) ;;;
     ret (take (Z.to_nat count) (drop (Z.to_nat start) (peer_acks peer)))).

(** ** Priorities of unscheduled packets *)

(** The loop of [homa_unsched_priority] over the cutoffs, from entry [i]
    down. *)
Fixpoint unsched_loop (cutoffs : list Z) (length_ : Z) (n : nat) : result Z :=
  match n with
  | O => Fault ArrayBounds
  | S i =>
      let! c := arr cutoffs (Z.of_nat i) in
      if c >=? length_ then Ok (Z.of_nat i) else unsched_loop cutoffs length_ i
  end.

Definition homa_unsched_priority (h : homa) (peer : homa_peer) (length_ : Z)
    : result Z :=
  unsched_loop (peer_unsched_cutoffs peer) length_ (Z.to_nat (h_num_priorities h)).

Definition homa_peer_set_cutoffs (c0 c1 c2 c3 c4 c5 c6 c7 : Z) (peer : homa_peer)
    : homa_peer :=
  peer <| peer_unsched_cutoffs := [c0; c1; c2; c3; c4; c5; c6; c7] |>.

(** ** The peer table

    [hash_32] is the kernel's hash function. *)
Section Table.
Variable hash_32 : Z -> Z -> Z.

Definition addr_word (addr : Z) (i : Z) : Z := Z.land (Z.shiftr addr (32 * i)) (2 ^ 32 - 1).

Definition peer_bucket (addr : Z) : Z :=
  Z.lxor (Z.lxor (Z.lxor (hash_32 (addr_word addr 0) HOMA_PEERTAB_BUCKET_BITS)
                         (hash_32 (addr_word addr 1) HOMA_PEERTAB_BUCKET_BITS))
                 (hash_32 (addr_word addr 2) HOMA_PEERTAB_BUCKET_BITS))
         (hash_32 (addr_word addr 3) HOMA_PEERTAB_BUCKET_BITS).

(** The chain of a bucket; the array has [HOMA_PEERTAB_BUCKETS] entries. *)
Definition get_bucket (b : Z) : M (list ptr) :=
  let* pt := get_peertab in
  if negb (pt_alloc pt) then raise BadPointer else
  if (0 <=? b) && (b <? HOMA_PEERTAB_BUCKETS) then ret (default [] (pt_buckets pt !! b))
  else raise ArrayBounds.

(** The search of a chain for an address. *)
Fixpoint find_addr (addr : Z) (chain : list ptr) : M (option ptr) :=
  match chain with
  | [] => ret None
  | p :: chain' =>
      let* peer := get_peer p in
      if peer_addr peer =? addr then ret (Some p) else find_addr addr chain'
  end.

(** The fields that [homa_peer_find] assigns in the memory [mem] of a new
    peer. *)
Definition peer_fields (addr dst : Z) (cutoffs : list Z) (mem : homa_peer) : homa_peer :=
  mem <| peer_addr := addr |> <| peer_dst := dst |> <| peer_unsched_cutoffs := cutoffs |>
      <| peer_cutoff_version := 0 |> <| peer_last_update_jiffies := 0 |>
      <| peer_grantable_rpcs := [] |> <| peer_outstanding_resends := 0 |>
      <| peer_most_recent_resend := 0 |> <| peer_least_recent_rpc := None |>
      <| peer_least_recent_ticks := 0 |> <| peer_current_ticks := 2 ^ 32 - 1 |>
      <| peer_resend_rpc := None |> <| peer_num_acks := 0 |>.

(** [homa_peer_find]: [new] is the memory that [kmalloc] returns, with its
    contents, [route] the result of [homa_peer_get_dst]; the result is the
    peer or an errno. *)
Definition homa_peer_find (new : option (ptr * homa_peer)) (route : Z + Z) (addr : Z)
    : M (Z + ptr) :=
  let bucket := peer_bucket addr in
  let* chain := get_bucket bucket in
  let* found := find_addr addr chain in
  match found with
  | Some p => ret (inr p)
  | None =>
      let* chain := get_bucket bucket in
      let* found := find_addr addr chain in
      match found with
      | Some p => ret (inr p)
      | None =>
          match new with
          | None => ret (inl (- ENOMEM))
          | Some (p, mem) =>
              match route with
              | inl err => ret (inl err)
              | inr dst =>
                  let* cutoffs := lift (arr_set (peer_unsched_cutoffs mem)
                    (HOMA_MAX_PRIORITIES - 1) 0) in
                  let* cutoffs := lift (arr_set cutoffs
                    (HOMA_MAX_PRIORITIES - 2) INT_MAX) in
                  (fun w => Ok (tt, w <| w_peers ::=
                     insert p (peer_fields addr dst cutoffs mem) |>)) ;;;
                  upd_peertab (fun pt => pt <| pt_buckets ::=
                    insert bucket (p :: chain) |>) ;;;
                  ret (inr p)
              end
          end
      end
  end.

(** [homa_peertab_init] and [homa_peertab_destroy]; [mem] is whether
    [vmalloc] finds memory. *)
Definition homa_peertab_init (mem : bool) : M Z :=
  upd_peertab (fun pt => pt <| pt_dead_dsts := [] |> <| pt_alloc := mem |>) ;;;
  if negb mem then ret (- ENOMEM) else
  upd_peertab (fun pt => pt <| pt_buckets := ∅ |>) ;;;
  ret 0.

(** The peers of all buckets, in order. *)
Definition all_chains (pt : homa_peertab) : list ptr :=
  seqZ 0 HOMA_PEERTAB_BUCKETS ≫= fun b => default [] (pt_buckets pt !! b).

(** [homa_peertab_get_peers]; [None] when there are no peers or no memory. *)
Definition homa_peertab_get_peers (mem : bool) : M (option (list ptr)) :=
  let* pt := get_peertab in
  if negb (pt_alloc pt) then ret None else
  let peers := all_chains pt in
  match peers with
  | [] => ret None
  | _ => ret (if mem then Some peers else None)
  end.

Definition free_peer (p : ptr) : M unit :=
  let* peer := get_peer p in
  (dst_release (peer_dst peer) ;;;
   fun w => Ok (tt, w <| w_peers ::= delete p |>)).

Definition homa_peertab_destroy : M unit :=
  let* pt := get_peertab in
  if negb (pt_alloc pt) then ret tt else
  (mapM_ free_peer (all_chains pt) ;;; homa_peertab_gc_dsts (2 ^ 64 - 1)).
End Table.

(** ** Routes are neither leaked nor released twice *)

(** All routes that Homa holds or has released. *)
Definition routes (w : world) : list Z :=
  (peer_dst <$> (map_to_list (w_peers w)).*2) ++ (pt_dead_dsts (w_peertab w)).*1 ++ w_released w.

Lemma gc_loop_split now dead kept freed :
  gc_loop now dead = (kept, freed) ->
  exists pre, dead = pre ++ kept /\ freed = pre.*1 /\ Forall (fun d => d.2 <= now) pre /\
    match kept with [] => True | d :: _ => now < d.2 end.
Proof.
  revert kept freed. induction dead as [|[dst gc] rest IH]; simpl; intros kept freed H; simplify_eq.
  { by exists []. }
  destruct (Z.gtb_spec gc now); simplify_eq.
  { exists []. split_ands; done. }
  destruct (gc_loop now rest) as [kept' freed']. simplify_eq.
  destruct (IH kept freed' eq_refl) as (pre & -> & -> & Hpre & Hk).
  exists ((dst, gc) :: pre). split_ands; [done | done | | done]. by constructor.
Qed.

Lemma release_all l w : mapM_ dst_release l w = Ok (tt, w <| w_released ::= fun r => r ++ l |>).
Proof.
  revert w. induction l as [|d l IH]; intros w; simpl.
  { unfold ret. destruct w. simpl. by rewrite app_nil_r. }
  rewrite (bind_eq _ _ _ _ _ eq_refl), IH. destruct w. simpl. by rewrite <- app_assoc.
Qed.

Lemma gc_exec now w :
  let '(kept, freed) := gc_loop now (pt_dead_dsts (w_peertab w)) in
  homa_peertab_gc_dsts now w =
    Ok (tt, w <| w_released ::= fun r => r ++ freed |>
              <| w_peertab ::= fun pt => pt <| pt_dead_dsts := kept |> |>).
Proof.
  destruct (gc_loop _ _) as [kept freed] eqn:E. unfold homa_peertab_gc_dsts.
  rewrite (bind_eq _ _ _ _ _ eq_refl), E, (bind_eq _ _ _ _ _ (release_all _ _)). done.
Qed.

Lemma gc_routes now w :
  exists w', homa_peertab_gc_dsts now w = Ok (tt, w') /\ routes w' ≡ₚ routes w /\
    w_peers w' = w_peers w /\ pt_buckets (w_peertab w') = pt_buckets (w_peertab w) /\
    (Forall (fun d => d.2 <= now) (pt_dead_dsts (w_peertab w)) ->
     pt_dead_dsts (w_peertab w') = []).
Proof.
  pose proof (gc_exec now w) as Hex.
  destruct (gc_loop _ _) as [kept freed] eqn:E. apply gc_loop_split in E as (pre & Hd & -> & Hpre & Hk).
  eexists. split; [exact Hex |]. split_ands; [|done | done |].
  - unfold routes. simpl. rewrite Hd, fmap_app. solve_Permutation.
  - simpl. rewrite Hd. intros [_ Hall]%Forall_app. destruct kept as [|d kept]; [done |].
    apply Forall_cons in Hall as [? _]. lia.
Qed.

Lemma routes_insert w w' p peer peer' :
  w_peers w !! p = Some peer -> w_peers w' = <[p := peer']> (w_peers w) ->
  pt_dead_dsts (w_peertab w') = pt_dead_dsts (w_peertab w) -> w_released w' = w_released w ->
  peer_dst peer :: routes w' ≡ₚ peer_dst peer' :: routes w.
Proof.
  intros Hp Hw Hd Hr. unfold routes. rewrite Hw, Hd, Hr.
  rewrite <- (insert_id _ _ _ Hp) at 1. rewrite insert_insert_eq, <- insert_delete_eq.
  rewrite <- (insert_delete_id (w_peers w) p peer Hp) at 2.
  rewrite !map_to_list_insert by apply lookup_delete_eq. csimpl. solve_Permutation.
Qed.

(** Retiring the current route of a peer. *)
Lemma retire_route mem dst w :
  exists w', (if negb mem then dst_release dst
    else let* now := sched_clock in
      (upd_peertab (fun pt => pt <| pt_dead_dsts ::= fun l =>
         l ++ [(dst, u64 (now + 125000000))] |>) ;;;
       homa_peertab_gc_dsts now)) w = Ok (tt, w') /\
    routes w' ≡ₚ dst :: routes w /\ w_peers w' = w_peers w /\
    pt_buckets (w_peertab w') = pt_buckets (w_peertab w).
Proof.
  destruct mem; cbn [negb].
  - step. rewrite (bind_eq _ _ _ _ _ eq_refl).
    match goal with |- exists w', homa_peertab_gc_dsts _ ?W = _ /\ _ => set (w1 := W) end.
    destruct (gc_routes (w_clock w (w_tick w)) w1) as (w' & Hex & Hr & Hp & Hb & _).
    exists w'. split_ands; [done | | by rewrite Hp | by rewrite Hb].
    rewrite Hr. unfold routes, w1. simpl. rewrite fmap_app. simpl. solve_Permutation.
  - eexists. split; [reflexivity |]. split_ands; try done. unfold routes. simpl. solve_Permutation.
Qed.

(** Replacing the route of a peer neither leaks nor double-frees a route:
    the old one is released, or kept on the dead list until its grace period
    is over; without a new route nothing changes. *)
Theorem dst_refresh_correct route mem p w peer :
  w_peers w !! p = Some peer ->
  exists w', homa_dst_refresh route mem p w = Ok (tt, w') /\
    match route with
    | inl _ => w' = w
    | inr dst => routes w' ≡ₚ dst :: routes w /\
        w_peers w' = <[p := peer <| peer_dst := dst |>]> (w_peers w)
    end.
Proof.
  intros Hp. unfold homa_dst_refresh. destruct route as [e | dst]; [by exists w |]. step.
  destruct (retire_route mem (peer_dst peer) w) as (w1 & Hex & Hr & Hpe & _).
  rewrite (bind_eq _ _ _ _ _ Hex).
  assert (w_peers w1 !! p = Some peer) as Hp1 by (by rewrite Hpe).
  eexists. split; [by apply upd_peer_eq |]. split; [|simpl; by rewrite Hpe].
  match goal with |- routes ?W ≡ₚ _ => set (w2 := W) end.
  apply (Permutation_cons_inv (a := peer_dst peer)).
  rewrite (routes_insert w1 w2 p peer (peer <| peer_dst := dst |>)), Hr by done. simpl. apply Permutation_swap.
Qed.

Lemma dst_refresh_correct_witness :
  exists w', homa_dst_refresh (inr 77) true 1%positive ex = Ok (tt, w') /\
    routes w' ≡ₚ 77 :: routes ex.
Proof.
  destruct (dst_refresh_correct (inr 77) true 1%positive ex (ex_peer 101 [11%positive; 12%positive]))
    as (w' & H & Hr & _).
  - reflexivity.
  - exists w'. split; assumption.
Defined.

(** ** Acks *)

(** The acks that wait to be sent, and those in ACK packets already sent. *)
Definition pending (peer : homa_peer) : list homa_ack :=
  take (Z.to_nat (peer_num_acks peer)) (peer_acks peer).

(** The acks that a packet carries: those in the list, and the RPC of the
    header of an ACK. *)
Definition packet_acks (pkt : homa_packet) : list homa_ack :=
  match pkt with
  | PAck h => Build_homa_ack (sender_id (a_common h)) (dport (a_common h)) ::
      take (Z.to_nat (num_acks h)) (acks h)
  | _ => []
  end.

Definition acks_ok (peer : homa_peer) : Prop :=
  0 <= peer_num_acks peer <= HOMA_MAX_ACKS_PER_PKT /\
  Z.of_nat (length (peer_acks peer)) = HOMA_MAX_ACKS_PER_PKT.

(** No ack is lost or duplicated: [homa_peer_add_ack] adds the ack of the
    RPC to the pending ones, and when they do not fit it sends all of them
    with the RPC's own in one ACK packet; the array is never overrun. *)
Theorem add_ack_correct p w rpc peer sk :
  w_rpcs w !! p = Some rpc -> w_peers w !! rpc_peer rpc = Some peer ->
  w_socks w !! rpc_hsk rpc = Some sk -> acks_ok peer ->
  exists w' peer' pkts, homa_peer_add_ack p w = Ok (tt, w') /\
    w_peers w' = <[rpc_peer rpc := peer']> (w_peers w) /\ acks_ok peer' /\
    w_sent w' = w_sent w ++ map (pair (rpc_peer rpc)) pkts /\
    pending peer' ++ (pkts ≫= packet_acks) ≡ₚ
      Build_homa_ack (rpc_id rpc) (rpc_dport rpc) :: pending peer.
Proof.
  intros Hr Hp Hs [Hn Hl]. unfold homa_peer_add_ack. step. step.
  unfold HOMA_MAX_ACKS_PER_PKT in *.
  destruct (Z.ltb_spec (peer_num_acks peer) 5) as [Hlt | Hge].
  - unfold lift. erewrite bind_eq by
      (rewrite (proj2 (arr_set_Ok (peer_acks peer) (peer_num_acks peer) _ _)) by
        (split; [lia | reflexivity]); reflexivity).
    eexists _, _, []. split; [by apply upd_peer_eq |]. simpl. rewrite app_nil_r.
    split_ands; [done | | done |].
    + split; unfold HOMA_MAX_ACKS_PER_PKT; simpl; [lia | by rewrite length_insert].
    + rewrite app_nil_r. unfold pending. simpl.
      assert (Z.to_nat (peer_num_acks peer + 1) = S (Z.to_nat (peer_num_acks peer))) as -> by lia.
      erewrite take_S_r by (apply list_lookup_insert_eq; lia).
      rewrite take_insert_ge by lia. symmetry. apply Permutation_cons_append.
  - assert (peer_num_acks peer = 5) as E by lia.
    erewrite bind_eq by (by apply upd_peer_eq).
    eexists _, _, [_]. split; [by apply (xmit_control_exec _ _ p _ rpc sk) |]. simpl. split_ands; [done | | done |].
    + split; unfold HOMA_MAX_ACKS_PER_PKT; simpl; [lia | done].
    + unfold pending. simpl. rewrite app_nil_r, E. done.
Qed.

Lemma add_ack_correct_witness :
  exists w' peer' pkts, homa_peer_add_ack 11%positive ex = Ok (tt, w') /\ acks_ok peer' /\
    pending peer' ++ (pkts ≫= packet_acks) ≡ₚ [Build_homa_ack 3 40000].
Proof.
  destruct (add_ack_correct 11%positive ex (ex_rpc 1%positive 3 (ex_msgin 100100 100 10))
    (ex_peer 101 [11%positive; 12%positive]) ex_sock) as (w' & peer' & pkts & H & _ & Ho & _ & Hp).
  - reflexivity.
  - reflexivity.
  - reflexivity.
  - vm_compute. split; [split; congruence | reflexivity].
  - exists w', peer', pkts. split_ands; assumption.
Defined.

Lemma world_peer_id w p peer : w_peers w !! p = Some peer -> w <| w_peers ::= insert p peer |> = w.
Proof. intros H. destruct w. simpl in *. by rewrite insert_id. Qed.

Lemma get_acks_exec pe count w peer :
  w_peers w !! pe = Some peer -> acks_ok peer -> 0 <= count ->
  let peer' := peer <| peer_num_acks ::= fun n => n - Z.min count n |> in
  exists dst, homa_peer_get_acks pe count w = Ok (dst, w <| w_peers ::= insert pe peer' |>) /\
    acks_ok peer' /\ pending peer' ++ dst = pending peer /\
    Z.of_nat (length dst) = Z.min count (peer_num_acks peer).
Proof.
  intros Hp [Hn Hl] Hc peer'. unfold homa_peer_get_acks. step. unfold HOMA_MAX_ACKS_PER_PKT in *.
  assert (acks_ok peer') as Hok by (split; unfold peer', HOMA_MAX_ACKS_PER_PKT; simpl; [lia | done]).
  destruct (Z.eqb_spec (peer_num_acks peer) 0) as [E | E].
  - assert (peer' = peer) as Ep by (unfold peer'; destruct peer; simpl in *; f_equal; lia).
    exists []. rewrite Ep, world_peer_id by done. split_ands; [done | by rewrite <- Ep .. | |].
    + by rewrite app_nil_r.
    + simpl. lia.
  - assert ((if count >? peer_num_acks peer then peer_num_acks peer else count) =
      Z.min count (peer_num_acks peer)) as -> by (zb; lia).
    set (n := Z.min count (peer_num_acks peer)) in *. assert (0 <= n <= peer_num_acks peer) by lia.
    destruct (Z.ltb_spec (peer_num_acks peer - n) 0); [lia |].
    destruct (Z.ltb_spec n 0); [lia |].
    destruct (Z.ltb_spec (Z.of_nat (length (peer_acks peer))) (peer_num_acks peer)); [lia |].
    cbn [orb]. erewrite bind_eq by (by apply upd_peer_eq).
    eexists. split; [reflexivity |]. split_ands; [apply Hok .. | |].
    + unfold pending. simpl. rewrite take_take_drop. f_equal. lia.
    + rewrite length_take, length_drop. lia.
Qed.

(** [homa_peer_get_acks] hands out at most [count] of the pending acks and
    keeps exactly the others. *)
Theorem get_acks_correct pe count w peer :
  w_peers w !! pe = Some peer -> acks_ok peer -> 0 <= count ->
  exists dst w' peer', homa_peer_get_acks pe count w = Ok (dst, w') /\
    w_peers w' = <[pe := peer']> (w_peers w) /\ acks_ok peer' /\
    pending peer' ++ dst = pending peer /\
    Z.of_nat (length dst) = Z.min count (peer_num_acks peer).
Proof.
  intros Hp Ha Hc. destruct (get_acks_exec pe count w peer Hp Ha Hc) as (dst & Hex & Hok & Hpe & Hl).
  eexists dst, _, _. split_ands; [exact Hex | reflexivity | done ..].
Qed.

Lemma get_acks_correct_witness :
  exists dst w', homa_peer_get_acks 1%positive 3 ex = Ok (dst, w') /\ Z.of_nat (length dst) = 0.
Proof.
  destruct (get_acks_correct 1%positive 3 ex (ex_peer 101 [11%positive; 12%positive]))
    as (dst & w' & _ & H & _ & _ & _ & Hl).
  - reflexivity.
  - vm_compute. split; [split; congruence | reflexivity].
  - lia.
  - exists dst, w'. split; assumption.
Defined.

(** ** Priorities *)
Lemma unsched_loop_spec cutoffs length_ n i c :
  (n <= length cutoffs)%nat -> (i < n)%nat -> cutoffs !! i = Some c -> length_ <= c ->
  exists j cj, unsched_loop cutoffs length_ n = Ok (Z.of_nat j) /\ (i <= j < n)%nat /\
    cutoffs !! j = Some cj /\ length_ <= cj /\
    forall k ck, (j < k < n)%nat -> cutoffs !! k = Some ck -> ck < length_.
Proof.
  intros Hn Hi Hc Hle. induction n as [|n IH]; [lia |]. cbn [unsched_loop].
  destruct (lookup_lt_is_Some_2 cutoffs n) as [x Hx]; [lia |].
  rewrite (proj2 (arr_Ok cutoffs (Z.of_nat n) x)) by (split; [lia | by rewrite Nat2Z.id]).
  cbn [result_bind]. destruct (Z.geb_spec x length_) as [Hge | Hlt].
  - exists n, x. split_ands; try done; lia.
  - assert (i <> n) by (intros ->; simplify_eq; lia).
    destruct (IH ltac:(lia) ltac:(lia)) as (j & cj & Hex & Hj & Hcj & Hle' & Hall).
    exists j, cj. split_ands; try done; try lia. intros k ck Hk Hck.
    destruct (decide (k = n)) as [-> |]; [simplify_eq; lia | eapply Hall; [|done]; lia].
Qed.

(** With cutoffs that admit the message at some priority level,
    [homa_unsched_priority] terminates inside the array and returns the
    highest level whose cutoff admits it. *)
Theorem unsched_priority_correct h peer length_ i c :
  0 < h_num_priorities h <= Z.of_nat (length (peer_unsched_cutoffs peer)) ->
  0 <= i < h_num_priorities h ->
  peer_unsched_cutoffs peer !! Z.to_nat i = Some c -> length_ <= c ->
  exists j cj, homa_unsched_priority h peer length_ = Ok j /\ i <= j < h_num_priorities h /\
    peer_unsched_cutoffs peer !! Z.to_nat j = Some cj /\ length_ <= cj /\
    forall k ck, j < k < h_num_priorities h ->
      peer_unsched_cutoffs peer !! Z.to_nat k = Some ck -> ck < length_.
Proof.
  intros Hn Hi Hc Hle. unfold homa_unsched_priority.
  destruct (unsched_loop_spec (peer_unsched_cutoffs peer) length_
    (Z.to_nat (h_num_priorities h)) (Z.to_nat i) c) as (j & cj & Hex & Hj & Hcj & Hle' & Hall);
    try done; try lia.
  exists (Z.of_nat j), cj. rewrite Nat2Z.id. split_ands; try done; try lia.
  intros k ck Hk. apply Hall. lia.
Qed.

Lemma unsched_priority_correct_witness :
  exists j, homa_unsched_priority ex_homa
    (homa_peer_set_cutoffs 0 0 0 0 0 1000000 2000 1000 (ex_peer 101 [])) 1500 = Ok j /\ 5 <= j < 8.
Proof.
  destruct (unsched_priority_correct ex_homa
    (homa_peer_set_cutoffs 0 0 0 0 0 1000000 2000 1000 (ex_peer 101 [])) 1500 5 1000000)
    as (j & cj & H & Hj & _).
  - vm_compute. split; congruence.
  - vm_compute. split; congruence.
  - reflexivity.
  - lia.
  - exists j. split; assumption.
Defined.

(** ** Lookup *)
Lemma lxor_bound n a b : 0 <= n -> 0 <= a < 2 ^ n -> 0 <= b < 2 ^ n -> 0 <= Z.lxor a b < 2 ^ n.
Proof.
  intros Hn Ha Hb. assert (0 <= Z.lxor a b) by (apply Z.lxor_nonneg; lia). split; [done |].
  destruct (Z.eq_dec (Z.lxor a b) 0) as [-> |]; [lia |].
  apply Z.log2_lt_pow2; [lia |].
  pose proof (Z.log2_lxor a b ltac:(lia) ltac:(lia)).
  assert (forall x, 0 <= x < 2 ^ n -> x <> 0 -> Z.log2 x < n) as Hlog
    by (intros x Hx ?; apply Z.log2_lt_pow2; lia).
  destruct (Z.eq_dec a 0) as [-> |]; [rewrite Z.lxor_0_l; apply Hlog; [lia |]; intros ->; done |].
  destruct (Z.eq_dec b 0) as [-> |]; [rewrite Z.lxor_0_r; by apply Hlog |].
  pose proof (Hlog a Ha ltac:(done)). pose proof (Hlog b Hb ltac:(done)). lia.
Qed.

Section Find.
Variable hash_32 : Z -> Z -> Z.
(** The kernel's [hash_32(val, bits)] yields a value of [bits] bits. *)
Hypothesis hash_32_range : forall v bits, 0 <= bits <= 32 -> 0 <= hash_32 v bits < 2 ^ bits.

Let bucket := peer_bucket hash_32.

Lemma peer_bucket_range addr : 0 <= bucket addr < HOMA_PEERTAB_BUCKETS.
Proof.
  unfold bucket, peer_bucket. change HOMA_PEERTAB_BUCKETS with (2 ^ HOMA_PEERTAB_BUCKET_BITS).
  assert (forall v, 0 <= hash_32 v HOMA_PEERTAB_BUCKET_BITS < 2 ^ HOMA_PEERTAB_BUCKET_BITS)
    by (intros; apply hash_32_range; vm_compute; split; congruence).
  repeat apply lxor_bound; auto; vm_compute; congruence.
Qed.

(** Every peer is in the chain of its address, once, and no two peers have
    the same address. *)
Record peertab_ok (w : world) : Prop := {
  po_alloc : pt_alloc (w_peertab w) = true;
  po_chains : forall b chain, pt_buckets (w_peertab w) !! b = Some chain ->
    0 <= b < HOMA_PEERTAB_BUCKETS /\ NoDup chain /\
    forall p, p ∈ chain -> exists peer, w_peers w !! p = Some peer /\ bucket (peer_addr peer) = b;
  po_peers : forall p peer, w_peers w !! p = Some peer ->
    p ∈ default [] (pt_buckets (w_peertab w) !! bucket (peer_addr peer));
  po_addr : forall p q x y, w_peers w !! p = Some x -> w_peers w !! q = Some y ->
    peer_addr x = peer_addr y -> p = q;
  po_dead : Forall (fun d => d.2 < 2 ^ 64) (pt_dead_dsts (w_peertab w))
}.

Lemma find_addr_spec addr w chain :
  (forall p, p ∈ chain -> is_Some (w_peers w !! p)) ->
  exists r, find_addr addr chain w = Ok (r, w) /\
    match r with
    | Some p => p ∈ chain /\ exists peer, w_peers w !! p = Some peer /\ peer_addr peer = addr
    | None => forall p peer, p ∈ chain -> w_peers w !! p = Some peer -> peer_addr peer <> addr
    end.
Proof.
  induction chain as [|p chain IH]; intros Hl; cbn [find_addr].
  { exists None. split; [done |]. by intros p peer ?%elem_of_nil. }
  destruct (Hl p ltac:(set_solver)) as [peer Hp]. step.
  destruct (Z.eqb_spec (peer_addr peer) addr) as [E | E].
  - exists (Some p). split; [done |]. split; [set_solver | eauto].
  - destruct IH as (r & Hex & Hr); [intros q Hq; apply Hl; set_solver |].
    exists r. split; [done |]. destruct r as [q|].
    + destruct Hr. split; [set_solver | done].
    + intros q x [-> | Hq]%elem_of_cons Hx; [by simplify_eq | by eapply Hr].
Qed.

(** The two searches of [homa_peer_find] find the peer with the address, if
    there is one. *)
Lemma search_spec addr w :
  peertab_ok w ->
  exists chain r, get_bucket (bucket addr) w = Ok (chain, w) /\ find_addr addr chain w = Ok (r, w) /\
    chain = default [] (pt_buckets (w_peertab w) !! bucket addr) /\
    match r with
    | Some p => exists peer, w_peers w !! p = Some peer /\ peer_addr peer = addr
    | None => forall p peer, w_peers w !! p = Some peer -> peer_addr peer <> addr
    end.
Proof.
  intros [Hal Hc Hp Ha _]. pose proof (peer_bucket_range addr) as Hb.
  set (chain := default [] (pt_buckets (w_peertab w) !! bucket addr)).
  destruct (find_addr_spec addr w chain) as (r & Hex & Hr).
  { intros p Hin. unfold chain in Hin.
    destruct (pt_buckets (w_peertab w) !! bucket addr) as [l|] eqn:E; [|by apply elem_of_nil in Hin].
    destruct (Hc _ _ E) as (_ & _ & H). destruct (H p Hin) as (x & ? & _). eauto. }
  exists chain, r. split_ands; try done.
  - unfold get_bucket. rewrite (bind_eq _ _ _ _ _ eq_refl), Hal. destruct (Z.leb_spec 0 (bucket addr)), (Z.ltb_spec (bucket addr) HOMA_PEERTAB_BUCKETS); done || lia.
  - destruct r as [p|]; [by destruct Hr |]. intros p peer Hpe E. apply (Hr p peer); try done.
    unfold chain. rewrite <- E. by apply Hp.
Qed.

Lemma peertab_ok_add w p peer :
  let addr := peer_addr peer in
  let chain := default [] (pt_buckets (w_peertab w) !! bucket addr) in
  peertab_ok w -> w_peers w !! p = None ->
  (forall q x, w_peers w !! q = Some x -> peer_addr x <> addr) ->
  peertab_ok (w <| w_peers ::= insert p peer |>
    <| w_peertab ::= fun pt => pt <| pt_buckets ::= insert (bucket addr) (p :: chain) |> |>).
Proof.
  intros addr chain [Hal Hc Hp Ha Hd] Hnew Hno.
  assert (NoDup chain /\ forall q, q ∈ chain -> exists x, w_peers w !! q = Some x /\
    bucket (peer_addr x) = bucket addr) as [Hnd Hin].
  { unfold chain. destruct (pt_buckets (w_peertab w) !! bucket addr) as [l|] eqn:E.
    - by destruct (Hc _ _ E) as (_ & ? & ?).
    - split; [constructor | by intros q ?%elem_of_nil]. }
  assert (p ∉ chain) as Hpc by (intros H; destruct (Hin p H) as (x & ? & _); congruence).
  constructor; simpl; [done | | | | done].
  - intros b l [[<- <-] | [Hne Hl]]%lookup_insert_Some.
    + split_ands; [apply peer_bucket_range .. | by constructor |].
      intros q [-> | Hq]%elem_of_cons; [exists peer; by rewrite lookup_insert_eq |].
      destruct (Hin q Hq) as (x & Hx & ?). exists x. rewrite lookup_insert_ne by (intros ->; done). done.
    + destruct (Hc b l Hl) as (? & ? & H). split_ands; [lia | lia | done |].
      intros q Hq. destruct (H q Hq) as (x & Hx & ?). exists x.
      rewrite lookup_insert_ne by congruence. done.
  - intros q x [[<- <-] | [Hne Hx]]%lookup_insert_Some; [rewrite lookup_insert_eq; simpl; set_solver |].
    specialize (Hp q x Hx). destruct (decide (bucket (peer_addr x) = bucket addr)) as [E | E].
    + rewrite E in *. rewrite lookup_insert_eq. simpl. set_solver.
    + by rewrite lookup_insert_ne by done.
  - intros q1 q2 x y Hx Hy E.
    apply lookup_insert_Some in Hx as [[<- <-] | [Hne1 Hx]];
      apply lookup_insert_Some in Hy as [[<- <-] | [Hne2 Hy]]; [done | | | eauto].
    + by destruct (Hno _ _ Hy).
    + by destruct (Hno _ _ Hx).
Qed.

(** Nothing but the peers and their table differs. *)
Definition peer_frame (w w' : world) : Prop :=
  w' = w <| w_peers := w_peers w' |> <| w_peertab := w_peertab w' |>.

Lemma peer_find_spec new route addr w :
  peertab_ok w ->
  (forall p mem, new = Some (p, mem) ->
     w_peers w !! p = None /\ Z.of_nat (length (peer_unsched_cutoffs mem)) = HOMA_MAX_PRIORITIES) ->
  exists r w', homa_peer_find hash_32 new route addr w = Ok (r, w') /\ peertab_ok w' /\ peer_frame w w' /\
    match r with
    | inr p =>
        (exists peer, w_peers w' !! p = Some peer /\ peer_addr peer = addr) /\
        (w' = w \/ (w_peers w !! p = None /\ delete p (w_peers w') = w_peers w /\
           exists dst, route = inr dst /\ routes w' ≡ₚ dst :: routes w))
    | inl e => w' = w /\ (new = None /\ e = - ENOMEM \/ route = inl e)
    end /\
    forall p peer, w_peers w !! p = Some peer -> peer_addr peer = addr -> r = inr p /\ w' = w.
Proof.
  intros Hok Hnew. destruct (search_spec addr w Hok) as (chain & r & Hb & Hf & Hch & Hr).
  unfold homa_peer_find. fold bucket. rewrite (bind_eq _ _ _ _ _ Hb), (bind_eq _ _ _ _ _ Hf).
  destruct r as [p|].
  { exists (inr p), w. destruct Hr as (peer & Hp & Hpa). split_ands; try done; [by destruct w | eauto | by left |].
    intros q x Hq Hx. split; [|done]. f_equal. eapply (po_addr _ Hok); eauto. congruence. }
  rewrite (bind_eq _ _ _ _ _ Hb), (bind_eq _ _ _ _ _ Hf).
  assert (forall p peer, w_peers w !! p = Some peer -> peer_addr peer = addr -> False) as Hno
    by (intros p peer Hp; exact (Hr p peer Hp)).
  destruct new as [[p mem]|].
  2:{ exists (inl (- ENOMEM)), w. split_ands; try done; [by destruct w | auto |]. intros ?? H1 H2. by destruct (Hno _ _ H1 H2). }
  destruct route as [e | dst].
  { exists (inl e), w. split_ands; try done; [by destruct w | auto |]. intros ?? H1 H2. by destruct (Hno _ _ H1 H2). }
  destruct (Hnew p mem eq_refl) as [Hfresh Hlen]. unfold HOMA_MAX_PRIORITIES in *.
  unfold lift. erewrite bind_eq by (rewrite (proj2 (arr_set_Ok _ (8 - 1) 0 _)) by
    (split; [lia | reflexivity]); reflexivity).
  erewrite bind_eq by (rewrite (proj2 (arr_set_Ok _ (8 - 2) INT_MAX _)) by
    (split; [rewrite length_insert; lia | reflexivity]); reflexivity).
  set (peer := peer_fields addr dst _ mem).
  rewrite (bind_eq _ _ _ _ _ eq_refl), (bind_eq _ _ _ _ _ eq_refl).
  eexists (inr p), _. split; [reflexivity |]. split_ands.
  - rewrite Hch. apply (peertab_ok_add w p peer Hok Hfresh). exact Hr.
  - by destruct w.
  - exists peer. simpl. by rewrite lookup_insert_eq.
  - right. split_ands; [done | simpl; by rewrite delete_insert_id |]. exists dst. split; [done |].
    unfold routes. simpl. by rewrite map_to_list_insert by done.
  - intros ?? H1 H2. by destruct (Hno _ _ H1 H2).
Qed.

(** C34: the peer table refines a map from addresses to peers:
    [homa_peer_find] returns the one peer with the address and changes
    nothing if there is one; otherwise it adds a peer with that address, or
    returns the error of the allocation or of the routing code without any
    effect.  No access is outside the table, routes are not leaked, and no
    peer is removed or changed. *)
Theorem peer_find_correct new route addr w :
  peertab_ok w ->
  (forall p mem, new = Some (p, mem) ->
     w_peers w !! p = None /\ Z.of_nat (length (peer_unsched_cutoffs mem)) = HOMA_MAX_PRIORITIES) ->
  exists r w', homa_peer_find hash_32 new route addr w = Ok (r, w') /\ peertab_ok w' /\
    match r with
    | inr p =>
        (exists peer, w_peers w' !! p = Some peer /\ peer_addr peer = addr) /\
        (w' = w \/ (w_peers w !! p = None /\ delete p (w_peers w') = w_peers w /\
           exists dst, route = inr dst /\ routes w' ≡ₚ dst :: routes w))
    | inl e => w' = w /\ (new = None /\ e = - ENOMEM \/ route = inl e)
    end /\
    forall p peer, w_peers w !! p = Some peer -> peer_addr peer = addr -> r = inr p /\ w' = w.
Proof.
  intros Hok Hnew. destruct (peer_find_spec new route addr w Hok Hnew) as (r & w' & Hex & Hok' & _ & H).
  by exists r, w'.
Qed.
End Find.

(** A concrete hash function and its table. *)
Definition ex_hash (v bits : Z) : Z := v mod 2 ^ bits.

Lemma ex_hash_range v bits : 0 <= bits <= 32 -> 0 <= ex_hash v bits < 2 ^ bits.
Proof. intros H. apply Z.mod_pos_bound. apply Z.pow_pos_nonneg; lia. Qed.

Lemma ex_peertab_ok : peertab_ok ex_hash ex.
Proof.
  assert (map_Forall (fun b chain => (0 <= b < HOMA_PEERTAB_BUCKETS) /\ NoDup chain /\
    Forall (fun p => (fun x => peer_bucket ex_hash (peer_addr x)) <$> w_peers ex !! p = Some b) chain)
    (pt_buckets (w_peertab ex))) as Hc by (apply (bool_decide_unpack _); vm_compute; exact I).
  assert (map_Forall (fun p x => p ∈ default [] (pt_buckets (w_peertab ex) !!
    peer_bucket ex_hash (peer_addr x)) /\
    map_Forall (fun q y => peer_addr x = peer_addr y -> p = q) (w_peers ex)) (w_peers ex)) as Hp
    by (apply (bool_decide_unpack _); vm_compute; exact I).
  constructor; [done | ..].
  - intros b chain Hb. destruct (Hc b chain Hb) as (? & ? & Hf). split_ands; [lia | lia | done |].
    rewrite Forall_forall in Hf. intros p Hin. specialize (Hf p Hin).
    apply fmap_Some in Hf as (x & ? & ?). eauto.
  - intros p x Hx. by apply (Hp p x Hx).
  - intros p q x y Hx Hy. by apply (Hp p x Hx).
  - constructor.
Qed.

Lemma peer_find_correct_witness :
  exists r w', homa_peer_find ex_hash (Some (3%positive, ex_peer 0 [])) (inr 9) 103 ex = Ok (r, w') /\
    r = inr 3%positive /\ peertab_ok ex_hash w'.
Proof.
  destruct (peer_find_correct ex_hash ex_hash_range (Some (3%positive, ex_peer 0 [])) (inr 9) 103 ex
    ex_peertab_ok) as (r & w' & H & Hok & _).
  - intros p mem E. injection E as <- <-. split; reflexivity.
  - exists r, w'. split; [exact H |]. split; [|exact Hok]. vm_compute in H. injection H as <- _. reflexivity.
Defined.

(** ** Destruction *)
Lemma free_peers l : forall w,
  NoDup l -> (forall p, p ∈ l -> is_Some (w_peers w !! p)) ->
  exists w', mapM_ free_peer l w = Ok (tt, w') /\ routes w' ≡ₚ routes w /\
    w_peertab w' = w_peertab w /\
    (forall p, w_peers w' !! p = if bool_decide (p ∈ l) then None else w_peers w !! p).
Proof.
  induction l as [|p l IH]; intros w Hnd Hl; cbn [mapM_].
  { exists w. split_ands; try done. }
  apply NoDup_cons in Hnd as [Hp Hnd]. destruct (Hl p ltac:(set_solver)) as [peer Hpe].
  rewrite (bind_eq _ _ _ tt (w <| w_released ::= fun r => r ++ [peer_dst peer] |>
    <| w_peers ::= delete p |>)) by (unfold free_peer; by step).
  match goal with |- exists w', mapM_ _ _ ?W = _ /\ _ => set (w1 := W) end.
  destruct (IH w1 Hnd) as (w' & Hex & Hr & Ht & Hd).
  { intros q Hq. simpl. rewrite lookup_delete_ne by (intros ->; done). apply Hl. set_solver. }
  exists w'. split_ands; try done.
  - rewrite Hr. unfold routes, w1. simpl.
    rewrite <- (insert_delete_id (w_peers w) p peer Hpe) at 2.
    rewrite map_to_list_insert by apply lookup_delete_eq. csimpl. solve_Permutation.
  - intros q. rewrite Hd. simpl. destruct (decide (q = p)) as [-> |].
    + rewrite lookup_delete_eq, (bool_decide_eq_true_2 (p ∈ p :: l)) by set_solver.
      by destruct (bool_decide _).
    + rewrite lookup_delete_ne by done. do 2 case_bool_decide; set_solver.
Qed.

(** [homa_peertab_destroy] frees every peer and releases every route
    exactly once. *)
Theorem peertab_destroy_correct hash w :
  (forall v bits, 0 <= bits <= 32 -> 0 <= hash v bits < 2 ^ bits) ->
  peertab_ok hash w ->
  exists w', homa_peertab_destroy w = Ok (tt, w') /\ w_peers w' = ∅ /\
    pt_dead_dsts (w_peertab w') = [] /\ w_released w' ≡ₚ routes w.
Proof.
  intros Hh Hok. pose proof Hok as [Hal Hc Hp Ha Hd]. unfold homa_peertab_destroy.
  rewrite (bind_eq _ _ _ _ _ eq_refl), Hal. cbn [negb]. set (l := all_chains (w_peertab w)).
  assert (forall p, p ∈ l <-> is_Some (w_peers w !! p)) as Hl.
  { intros p. unfold l, all_chains. rewrite list_elem_of_bind. split.
    - intros (b & Hin & _). destruct (pt_buckets (w_peertab w) !! b) as [c|] eqn:E;
        [|by apply elem_of_nil in Hin]. destruct (Hc b c E) as (_ & _ & H).
      destruct (H p Hin) as (x & ? & _). eauto.
    - intros [x Hx]. exists (peer_bucket hash (peer_addr x)). split; [by apply Hp |].
      apply elem_of_seqZ. pose proof (peer_bucket_range hash Hh (peer_addr x)). lia. }
  assert (NoDup l) as Hnd.
  { apply NoDup_bind.
    - intros b1 b2 p _ _ H1 H2.
      destruct (pt_buckets (w_peertab w) !! b1) as [c1|] eqn:E1; [|by apply elem_of_nil in H1].
      destruct (pt_buckets (w_peertab w) !! b2) as [c2|] eqn:E2; [|by apply elem_of_nil in H2].
      destruct (Hc b1 c1 E1) as (_ & _ & I1), (Hc b2 c2 E2) as (_ & _ & I2).
      destruct (I1 p H1) as (x & Hx & <-), (I2 p H2) as (y & Hy & <-). congruence.
    - intros b _. destruct (pt_buckets (w_peertab w) !! b) as [c|] eqn:E; [|constructor].
      by destruct (Hc b c E) as (_ & ? & _).
    - apply NoDup_seqZ. }
  destruct (free_peers l w Hnd) as (w1 & Hex & Hr & Ht & Hdel); [by intros p; apply Hl |].
  rewrite (bind_eq _ _ _ _ _ Hex).
  destruct (gc_routes (2 ^ 64 - 1) w1) as (w' & Hex' & Hr' & Hpe & _ & Hdead). exists w'.
  assert (w_peers w' = ∅) as Hemp.
  { rewrite Hpe. apply map_eq. intros p. rewrite Hdel, lookup_empty. case_bool_decide as Hin; [done |].
    apply eq_None_not_Some. by rewrite <- Hl. }
  assert (pt_dead_dsts (w_peertab w') = []) as Hnil.
  { apply Hdead. rewrite Ht. eapply Forall_impl; [exact Hd |]. intros d. simpl. lia. }
  split_ands; try done. rewrite <- Hr, <- Hr'. unfold routes.
  by rewrite Hemp, Hnil, map_to_list_empty.
Qed.

Lemma peertab_destroy_correct_witness :
  exists w', homa_peertab_destroy ex = Ok (tt, w') /\ w_peers w' = ∅ /\
    w_released w' ≡ₚ routes ex.
Proof.
  destruct (peertab_destroy_correct ex_hash ex ex_hash_range ex_peertab_ok)
    as (w' & H1 & H2 & _ & H3).
  exists w'. split_ands; assumption.
Defined.

(** The cutoffs of a peer that [homa_peer_find] just created in [mem]. *)
Definition new_cutoffs (mem : homa_peer) : list Z :=
  <[6%nat := INT_MAX]> (<[7%nat := 0]> (peer_unsched_cutoffs mem)).

(** A peer that has not sent its cutoffs yet gets priority level 6 for
    every message when 8 levels are in use; with fewer than 7 levels the
    entries of its table that are read were never assigned, and the search
    may run below the start of the table. *)
Theorem new_peer_priority :
  (forall h mem addr dst length_, h_num_priorities h = 8 ->
     length (peer_unsched_cutoffs mem) = 8%nat -> 0 < length_ <= INT_MAX ->
     homa_unsched_priority h (peer_fields addr dst (new_cutoffs mem) mem) length_ = Ok 6) /\
  (exists h mem addr dst, h_num_priorities h = 6 /\
     length (peer_unsched_cutoffs mem) = 8%nat /\
     homa_unsched_priority h (peer_fields addr dst (new_cutoffs mem) mem) 1000 = Fault ArrayBounds).
Proof.
  split.
  - intros h mem addr dst length_ Hh Hlen Hl. unfold homa_unsched_priority. rewrite Hh.
    simpl peer_unsched_cutoffs. change (Z.to_nat 8) with 8%nat. cbn [unsched_loop].
    rewrite (proj2 (arr_Ok (new_cutoffs mem) (Z.of_nat 7) 0)).
    2:{ split; [lia |]. unfold new_cutoffs. rewrite list_lookup_insert_ne by done.
        apply list_lookup_insert_eq. rewrite Hlen. lia. }
    cbn [result_bind]. destruct (Z.geb_spec 0 length_); [lia |].
    rewrite (proj2 (arr_Ok (new_cutoffs mem) (Z.of_nat 6) INT_MAX)).
    2:{ split; [lia |]. apply list_lookup_insert_eq. rewrite length_insert, Hlen. lia. }
    cbn [result_bind]. destruct (Z.geb_spec INT_MAX length_); [done | lia].
  - exists (ex_homa <| h_num_priorities := 6 |>), (ex_peer 0 []), 103, 9.
    split_ands; [reflexivity | reflexivity |]. vm_compute. reflexivity.
Qed.

Lemma new_peer_priority_witness :
  homa_unsched_priority ex_homa
    (peer_fields 103 9 (new_cutoffs (ex_peer 0 [])) (ex_peer 0 [])) 1000 = Ok 6.
Proof.
  destruct new_peer_priority as [H _]. apply H.
  - reflexivity.
  - reflexivity.
  - vm_compute. split; congruence.
Defined.
