(* ===== verification/Reassembly.v ===== *)
(** * Reassembly of incoming messages (homa_incoming.c)

    [homa_gap_new], [homa_add_packet], [homa_gap_retry] and the field
    initialisation of [homa_message_in_init], on the [homa_message_in] they
    update.  The theorems relate a [homa_message_in] to the set of message
    bytes received so far. *)
From S2P Require Import Prelude Lists Wire Types.

(** ** Operations *)

(** The assignments of [homa_message_in_init] before [homa_pool_allocate]. *)
Definition message_in_reset (mi : homa_message_in) (length unsched : Z)
    : homa_message_in :=
  mi <| mi_length := length |> <| mi_packets := [] |>
     <| mi_recv_end := 0 |> <| mi_gaps := [] |>
     <| mi_bytes_remaining := length |>
     <| mi_granted := if unsched >? length then length else unsched |>
     <| mi_rec_incoming := 0 |> <| mi_rank := -1 |> <| mi_priority := 0 |>
     <| mi_resend_all := 0 |> <| mi_num_bpages := 0 |>.

(** [homa_gap_new] when [kmalloc] succeeds ([mem]); the caller links the gap
    before the element it passes as [next]. *)
Definition homa_gap_new (mem : bool) (now start end_ : Z) : option homa_gap :=
  if mem then Some (Build_homa_gap start end_ now) else None.

(** The scan of the gap list in [homa_add_packet]: [None] is [goto discard]
    (or the end of the loop), [Some gaps'] is [goto keep]. *)
Fixpoint fill_gaps (mem : bool) (now start end_ : Z) (gaps : list homa_gap)
    : option (list homa_gap) :=
  match gaps with
  | [] => None
  | gap :: rest =>
      if start <=? gap_start gap then
        if end_ <=? gap_start gap then
          rest' ← fill_gaps mem now start end_ rest; Some (gap :: rest')
        else if start <? gap_start gap then None
        else if end_ >? gap_end gap then None
        else
          let gap' := gap <| gap_start := end_ |> in
          if gap_start gap' >=? gap_end gap' then Some rest
          else Some (gap' :: rest)
      else if end_ >=? gap_end gap then
        if start >=? gap_end gap then
          rest' ← fill_gaps mem now start end_ rest; Some (gap :: rest')
        else if end_ >? gap_end gap then None
        else Some (gap <| gap_end := start |> :: rest)
      else
        match homa_gap_new mem now (gap_start gap) start with
        | None => None
        | Some gap2 =>
            Some (gap2 <| gap_time := gap_time gap |> ::
                  gap <| gap_start := end_ |> :: rest)
        end
  end.

(** [int start = ntohl(h->seg.offset)] *)
Definition pkt_start (skb : skb_in) : Z := s32 (seg_offset (skb_hdr skb)).
Definition pkt_end (skb : skb_in) : Z := s32 (pkt_start skb + skb_data_len skb).

(** [homa_add_packet]; the boolean tells whether the packet was kept. *)
Definition homa_add_packet (mem : bool) (now : Z) (mi : homa_message_in)
    (skb : skb_in) : homa_message_in * bool :=
  let start := pkt_start skb in
  let length := skb_data_len skb in
  let end_ := s32 (start + length) in
  let keep (mi : homa_message_in) :=
    (mi <| mi_packets ::= fun q => q ++ [skb] |>
        <| mi_bytes_remaining ::= fun b => s32 (b - length) |>, true) in
  if s32 (start + length) >? mi_length mi then (mi, false)
  else if start =? mi_recv_end mi then
    keep (mi <| mi_recv_end ::= fun r => s32 (r + length) |>)
  else if start >? mi_recv_end mi then
    match homa_gap_new mem now (mi_recv_end mi) start with
    | None => (mi, false)
    | Some gap =>
        keep (mi <| mi_gaps ::= fun g => g ++ [gap] |>
                 <| mi_recv_end := end_ |>)
    end
  else
    match fill_gaps mem now start end_ (mi_gaps mi) with
    | None => (mi, false)
    | Some gaps' => keep (mi <| mi_gaps := gaps' |>)
    end.

(** The fields that [homa_gap_retry] and [homa_check_rpc] store in a RESEND. *)
Record resend_req := { rs_offset : Z; rs_length : Z; rs_priority : Z }.

(** [homa_gap_retry]: the RESENDs it transmits, in order. *)
Definition homa_gap_retry (num_priorities : Z) (mi : homa_message_in)
    : list resend_req :=
  map (fun gap => Build_resend_req (u32 (gap_start gap))
         (u32 (gap_end gap - gap_start gap)) (num_priorities - 1))
    (mi_gaps mi).

(** Packets added one after the other, each with its own allocation outcome
    and time. *)
Fixpoint add_packets (mi : homa_message_in) (l : list (bool * Z * skb_in))
    : homa_message_in :=
  match l with
  | [] => mi
  | (mem, now, skb) :: l' => add_packets (homa_add_packet mem now mi skb).1 l'
  end.

(** ** Specification: the set of received bytes *)
Definition in_gap (b : Z) (g : homa_gap) : bool :=
  (gap_start g <=? b) && (b <? gap_end g).
Definition in_gaps (b : Z) (gs : list homa_gap) : bool := existsb (in_gap b) gs.

Definition received (mi : homa_message_in) (b : Z) : bool :=
  (0 <=? b) && (b <? mi_recv_end mi) && negb (in_gaps b (mi_gaps mi)).

(** The message bytes that a packet carries. *)
Definition in_pkt (b : Z) (skb : skb_in) : bool :=
  (pkt_start skb <=? b) && (b <? pkt_start skb + skb_data_len skb).

(** Gaps are non-empty, in increasing order and disjoint, in [lo, hi). *)
Fixpoint gaps_ok (lo hi : Z) (gs : list homa_gap) : Prop :=
  match gs with
  | [] => lo <= hi
  | g :: gs' => lo <= gap_start g < gap_end g /\ gaps_ok (gap_end g) hi gs'
  end.

Definition gap_bytes (gs : list homa_gap) : Z :=
  Zsum (fun g => gap_end g - gap_start g) gs.

Definition msgin_inv (mi : homa_message_in) : Prop :=
  0 <= mi_length mi <= INT_MAX /\
  gaps_ok 0 (mi_recv_end mi) (mi_gaps mi) /\
  mi_recv_end mi <= mi_length mi /\
  mi_bytes_remaining mi =
    mi_length mi - mi_recv_end mi + gap_bytes (mi_gaps mi).

(** The packet's end does not overflow [int] (see [add_packet_overflow]). *)
Definition pkt_ok (skb : skb_in) : Prop :=
  pkt_start skb + skb_data_len skb <= INT_MAX.

(** The condition under which a packet fills (part of) gap [g]. *)
Definition fits_gap (mem : bool) (start end_ : Z) (g : homa_gap) : bool :=
  (gap_start g <=? start) && (end_ <=? gap_end g) &&
  (gap_start g <? end_) && (start <? gap_end g) &&
  (mem || (gap_start g =? start) || (end_ =? gap_end g)).

(** When [homa_add_packet] keeps a packet. *)
Definition accepts (mem : bool) (mi : homa_message_in) (skb : skb_in) : bool :=
  let start := pkt_start skb in
  let end_ := start + skb_data_len skb in
  (end_ <=? mi_length mi) &&
  ((start =? mi_recv_end mi) ||
   ((mi_recv_end mi <? start) && mem) ||
   ((start <? mi_recv_end mi) &&
    existsb (fits_gap mem start end_) (mi_gaps mi))).

(** ** Lemmas on gap lists *)
Lemma gaps_ok_le lo hi gs : gaps_ok lo hi gs -> lo <= hi.
Proof.
  revert lo. induction gs as [|g gs IH]; simpl; intros lo; [done |].
  intros [? H]. apply IH in H. lia.
Qed.

Lemma gaps_ok_weaken lo lo' hi hi' gs :
  gaps_ok lo hi gs -> lo' <= lo -> hi <= hi' -> gaps_ok lo' hi' gs.
Proof.
  revert lo lo'. induction gs as [|g gs IH]; simpl; intros lo lo' H ??; [lia |].
  destruct H as [? H]. split; [lia |]. eapply IH; [exact H | lia | lia].
Qed.

Lemma gaps_ok_snoc lo hi gs s e t :
  gaps_ok lo s gs -> s < e -> e <= hi ->
  gaps_ok lo hi (gs ++ [Build_homa_gap s e t]).
Proof.
  revert lo. induction gs as [|g gs IH]; simpl; intros lo H ??; [lia |].
  destruct H as [? H]. auto.
Qed.

Lemma gaps_ok_app lo mid hi gs gs' :
  gaps_ok lo mid gs -> gaps_ok mid hi gs' -> gaps_ok lo hi (gs ++ gs').
Proof.
  revert lo. induction gs as [|g gs IH]; simpl; intros lo H H'.
  - by eapply gaps_ok_weaken.
  - destruct H as [? H]. auto.
Qed.

Lemma in_gaps_bounds lo hi gs b :
  gaps_ok lo hi gs -> in_gaps b gs = true -> lo <= b < hi.
Proof.
  revert lo. induction gs as [|g gs IH]; simpl; intros lo H Hb; [done |].
  destruct H as [? H]. pose proof (gaps_ok_le _ _ _ H).
  apply orb_true_iff in Hb as [Hb | Hb].
  - unfold in_gap in Hb. zb; lia.
  - apply (IH _ H) in Hb. lia.
Qed.

Lemma in_gaps_app b gs gs' : in_gaps b (gs ++ gs') = in_gaps b gs || in_gaps b gs'.
Proof. apply existsb_app. Qed.

Lemma gap_bytes_nonneg lo hi gs : gaps_ok lo hi gs -> 0 <= gap_bytes gs <= hi - lo.
Proof.
  revert lo. unfold gap_bytes. induction gs as [|g gs IH]; simpl; intros lo H; [lia |].
  destruct H as [? H]. apply IH in H. lia.
Qed.

(** A packet that starts below every gap fills none. *)
Lemma fits_none_low mem s e lo hi gs :
  gaps_ok lo hi gs -> s < lo -> existsb (fits_gap mem s e) gs = false.
Proof.
  revert lo. induction gs as [|g gs IH]; simpl; intros lo H ?; [done |].
  destruct H as [? H]. rewrite (IH _ H) by lia.
  unfold fits_gap. destruct (Z.leb_spec (gap_start g) s); [lia | done].
Qed.

(** What the scan does to a well-formed gap list: it keeps the packet exactly
    when some gap can take it, and then removes the packet's bytes, all of
    which were missing, from the gaps. *)
Definition filled (s e : Z) (lo hi : Z) (gs gs' : list homa_gap) : Prop :=
  gaps_ok lo hi gs' /\
  gap_bytes gs' = gap_bytes gs - (e - s) /\
  (forall b, s <= b < e -> in_gaps b gs = true) /\
  (forall b, in_gaps b gs' = in_gaps b gs && negb ((s <=? b) && (b <? e))).

Lemma filled_cons s e lo hi g gs gs' :
  lo <= gap_start g < gap_end g ->
  e <= gap_start g \/ gap_end g <= s -> s <= e ->
  filled s e (gap_end g) hi gs gs' -> filled s e lo hi (g :: gs) (g :: gs').
Proof.
  intros Hg Hout Hse (H1 & H2 & H3 & H4). unfold filled, gap_bytes in *. simpl.
  split; [done | split; [lia | split]].
  - intros b Hb. rewrite H3 by done. apply orb_true_r.
  - intros b. rewrite H4. unfold in_gap.
    destruct (in_gaps b gs); zb; try done; lia.
Qed.

Lemma in_gaps_high lo hi gs b : gaps_ok lo hi gs -> b < lo -> in_gaps b gs = false.
Proof.
  intros H ?. destruct (in_gaps b gs) eqn:E; [|done].
  apply (in_gaps_bounds _ _ _ _ H) in E. lia.
Qed.

(** The packet takes bytes of the first gap [g], which becomes [mid]. *)
Lemma filled_head s e lo hi g gs mid :
  lo <= gap_start g < gap_end g -> gaps_ok (gap_end g) hi gs ->
  gap_start g <= s <= e -> e <= gap_end g ->
  gaps_ok lo (gap_end g) mid ->
  gap_bytes mid = gap_end g - gap_start g - (e - s) ->
  (forall b, in_gaps b mid = in_gap b g && negb ((s <=? b) && (b <? e))) ->
  filled s e lo hi (g :: gs) (mid ++ gs).
Proof.
  intros Hg Hgs ?? Hmid Hbytes Hin. unfold filled.
  split; [by eapply gaps_ok_app | split; [| split]].
  - unfold gap_bytes in *. rewrite Zsum_app. simpl. lia.
  - intros b Hb. simpl. apply orb_true_iff. left. unfold in_gap. zb; lia.
  - intros b. rewrite in_gaps_app, Hin. simpl.
    destruct (in_gaps b gs) eqn:E; [|by rewrite !orb_false_r].
    apply (in_gaps_bounds _ _ _ _ Hgs) in E. rewrite !orb_true_r.
    zb; try done; lia.
Qed.

Lemma fits_gap_true mem s e g :
  gap_start g <= s -> e <= gap_end g -> gap_start g < e -> s < gap_end g ->
  mem = true \/ gap_start g = s \/ e = gap_end g -> fits_gap mem s e g = true.
Proof.
  unfold fits_gap. intros ???? Hm. rewrite !andb_true_iff, !orb_true_iff, !Z.eqb_eq.
  repeat split; [zb; lia .. | tauto].
Qed.

Lemma fits_gap_false mem s e g :
  s < gap_start g \/ gap_end g < e \/ e <= gap_start g \/ gap_end g <= s \/
  (mem = false /\ gap_start g <> s /\ e <> gap_end g) ->
  fits_gap mem s e g = false.
Proof. unfold fits_gap. destruct mem; intros; zb; try done; intuition lia. Qed.

Ltac solve_filled :=
  simpl; unfold gap_bytes, in_gap; simpl; try lia;
  intros; rewrite ?orb_false_r; zb; try done; lia.

Lemma fill_gaps_spec mem now s e lo hi gs :
  gaps_ok lo hi gs -> s <= e ->
  match fill_gaps mem now s e gs with
  | Some gs' => filled s e lo hi gs gs' /\ existsb (fits_gap mem s e) gs = true
  | None => existsb (fits_gap mem s e) gs = false
  end.
Proof.
  intros H Hse. revert lo H. induction gs as [|g gs IH]; simpl; [done |].
  intros lo [Hg H]. specialize (IH _ H).
  pose proof (fits_none_low mem s e _ _ _ H) as Hlow.
  pose proof (fits_gap_false mem s e g) as Hno.
  pose proof (fits_gap_true mem s e g) as Hyes.
  unfold homa_gap_new.
  destruct (Z.leb_spec s (gap_start g)); [
    destruct (Z.leb_spec e (gap_start g)); [|
    destruct (Z.ltb_spec s (gap_start g)); [|
    rewrite Z.gtb_ltb; destruct (Z.ltb_spec (gap_end g) e); [|
    rewrite Z.geb_leb; destruct (Z.leb_spec (gap_end g) e)]]] |
    rewrite Z.geb_leb; destruct (Z.leb_spec (gap_end g) e); [
    rewrite Z.geb_leb; destruct (Z.leb_spec (gap_end g) s); [|
    rewrite Z.gtb_ltb; destruct (Z.ltb_spec (gap_end g) e)] |
    destruct mem]].
  1,6: (* continue *)
    destruct (fill_gaps mem now s e gs) as [gs'|]; simpl; rewrite Hno by lia;
    [split; [apply filled_cons; intuition lia | tauto] | tauto].
  1,2,5,8: rewrite Hno, Hlow by lia; done.
  all: split; [| by rewrite Hyes by lia].
  - apply (filled_head s e lo hi g gs []); solve_filled.
  - apply (filled_head s e lo hi g gs [_]); solve_filled.
  - apply (filled_head s e lo hi g gs [_]); solve_filled.
  - apply (filled_head s e lo hi g gs [_; _]); solve_filled.
Qed.

(** ** Adding a packet *)
Lemma skb_data_len_length skb :
  skb_data_len skb = Z.of_nat (length (skb_data skb)).
Proof. unfold skb_data_len, homa_data_len. lia. Qed.

Lemma pkt_end_no_overflow skb :
  pkt_ok skb -> s32 (pkt_start skb + skb_data_len skb) =
  pkt_start skb + skb_data_len skb.
Proof.
  unfold pkt_ok. intros H. apply s32_id. rewrite skb_data_len_length in *.
  pose proof (s32_is_int (seg_offset (skb_hdr skb))). unfold pkt_start in *.
  unfold is_int in *. lia.
Qed.

(** The effect of keeping a packet: its bytes, none of which had been
    received, become received. *)
Definition kept_effect (mi mi' : homa_message_in) (skb : skb_in) : Prop :=
  mi_length mi' = mi_length mi /\
  mi_packets mi' = mi_packets mi ++ [skb] /\
  mi_bytes_remaining mi' = mi_bytes_remaining mi - skb_data_len skb /\
  (forall b, in_pkt b skb = true -> received mi b = false) /\
  (forall b, received mi' b = received mi b || in_pkt b skb).

Lemma msgin_inv_bounds mi :
  msgin_inv mi ->
  0 <= mi_recv_end mi <= mi_length mi /\
  0 <= gap_bytes (mi_gaps mi) <= mi_recv_end mi /\
  0 <= mi_bytes_remaining mi <= mi_length mi.
Proof.
  intros (? & Hg & ? & ?). pose proof (gaps_ok_le _ _ _ Hg).
  pose proof (gap_bytes_nonneg _ _ _ Hg). lia.
Qed.

(** Keeping a packet that moves [recv_end] to [r'] and the gaps to [gs']. *)
Lemma keep_spec mi skb r' gs' :
  msgin_inv mi ->
  gaps_ok 0 r' gs' -> r' <= mi_length mi ->
  gap_bytes gs' - r' =
    gap_bytes (mi_gaps mi) - mi_recv_end mi - skb_data_len skb ->
  (forall b, in_pkt b skb = true -> received mi b = false) ->
  (forall b, (0 <=? b) && (b <? r') && negb (in_gaps b gs') =
     received mi b || in_pkt b skb) ->
  let mi' := mi <| mi_gaps := gs' |> <| mi_recv_end := r' |>
    <| mi_packets ::= fun q => q ++ [skb] |>
    <| mi_bytes_remaining ::= fun b => s32 (b - skb_data_len skb) |> in
  msgin_inv mi' /\ kept_effect mi mi' skb.
Proof.
  intros Hinv Hg Hr Hb Hnew Hrec. pose proof (msgin_inv_bounds _ Hinv) as Hbd.
  pose proof (gap_bytes_nonneg _ _ _ Hg).
  destruct Hinv as (Hlen & _ & _ & Hrem). unfold kept_effect, msgin_inv. simpl.
  rewrite (s32_id (_ - _)) by (unfold is_int, INT_MAX, INT_MIN in *; lia).
  repeat split; try done; lia.
Qed.

Lemma add_packet_spec mem now mi skb :
  msgin_inv mi -> pkt_ok skb ->
  let '(mi', kept) := homa_add_packet mem now mi skb in
  kept = accepts mem mi skb /\
  (if kept then msgin_inv mi' /\ kept_effect mi mi' skb else mi' = mi).
Proof.
  intros Hinv Hok. pose proof (msgin_inv_bounds _ Hinv) as (Hr & _ & _).
  pose proof (pkt_end_no_overflow _ Hok) as He. unfold pkt_ok in Hok.
  pose proof (skb_data_len_length skb) as Hl.
  pose proof Hinv as (Hlen & Hgaps & _ & _).
  pose proof (keep_spec mi skb) as Hkeep.
  unfold homa_add_packet, accepts, homa_gap_new. rewrite He, !Z.gtb_ltb.
  assert (forall b, in_gaps b (mi_gaps mi) = true -> 0 <= b < mi_recv_end mi)
    as Hin by (intros b; by apply in_gaps_bounds).
  unfold received, in_pkt in Hkeep.
  set (s := pkt_start skb) in *. set (n := skb_data_len skb) in *.
  destruct (Z.ltb_spec (mi_length mi) (s + n)), (Z.leb_spec (s + n) (mi_length mi));
    try lia; [done |].
  destruct (Z.eqb_spec s (mi_recv_end mi)) as [Hs|Hs]; [|
  destruct (Z.ltb_spec (mi_recv_end mi) s), (Z.ltb_spec s (mi_recv_end mi));
    try lia].
  - split; [done |]. simpl.
    rewrite (s32_id (_ + n)) by (rewrite <- Hs; unfold is_int, INT_MIN in *; lia).

    apply (Hkeep (mi_recv_end mi + n) (mi_gaps mi)); [done | | lia | lia | lia |].
    + eapply gaps_ok_weaken; [done | lia | lia].
    + intros b. specialize (Hin b).
      destruct (in_gaps b (mi_gaps mi)); zb; try done; lia.
  - destruct mem; [|done]. split; [done |]. simpl.
    apply (Hkeep (s + n) (mi_gaps mi ++ [_])); [done | | lia | | lia |].
    + apply gaps_ok_snoc; [done | lia | lia].
    + unfold gap_bytes. rewrite Zsum_app. simpl. lia.
    + intros b. specialize (Hin b). rewrite in_gaps_app. simpl.
      unfold in_gap. simpl. destruct (in_gaps b (mi_gaps mi)); zb; try done; lia.
  - pose proof (fill_gaps_spec mem now s (s + n) 0 _ _ Hgaps) as Hfill.
    specialize (Hfill ltac:(lia)). destruct (fill_gaps _ _ _ _ _) as [gs'|];
      [destruct Hfill as [(Hg' & Hb' & Hold & Hnew) ->] | by rewrite Hfill].
    split; [done |]. simpl.
    apply (Hkeep (mi_recv_end mi) gs'); [done | done | lia | lia | |].
    + intros b Hb. rewrite (Hold b) by lia. apply andb_false_r.
    + intros b. specialize (Hin b). specialize (Hold b). rewrite Hnew.
      destruct (in_gaps b (mi_gaps mi)); lia.
Qed.

(** ** Runs *)
Definition pkt_of (x : bool * Z * skb_in) : skb_in := x.2.

(** [packets] holds each received byte exactly once. *)
Definition exact (mi : homa_message_in) : Prop :=
  forall b, countb (in_pkt b) (mi_packets mi) = Z.b2z (received mi b).

Lemma message_in_reset_inv mi length unsched :
  0 <= length <= INT_MAX ->
  msgin_inv (message_in_reset mi length unsched) /\
  exact (message_in_reset mi length unsched).
Proof.
  unfold msgin_inv, exact, received, message_in_reset. simpl. intros H.
  split; [repeat split; try lia; unfold gap_bytes; simpl; lia |].
  intros b. zb; try done; lia.
Qed.

Lemma add_packet_inv mem now mi skb :
  msgin_inv mi -> exact mi -> pkt_ok skb ->
  let mi' := (homa_add_packet mem now mi skb).1 in
  msgin_inv mi' /\ exact mi' /\ mi_length mi' = mi_length mi.
Proof.
  intros Hi He Hok. pose proof (add_packet_spec mem now mi skb Hi Hok) as H.
  destruct (homa_add_packet mem now mi skb) as [mi' [|]]; simpl;
    destruct H as [_ H]; [|by subst].
  destruct H as [Hi' (Hl & Hp & _ & Hnew & Hrec)]. split_and!; try done.
  intros b. rewrite Hp, countb_app, He, Hrec, countb_cons. simpl.
  change (countb (in_pkt b) []) with 0. specialize (Hnew b).
  destruct (in_pkt b skb); [by rewrite Hnew |].
  rewrite orb_false_r. simpl. lia.
Qed.

Lemma add_packets_inv mi l :
  msgin_inv mi -> exact mi -> Forall (fun x => pkt_ok (pkt_of x)) l ->
  msgin_inv (add_packets mi l) /\ exact (add_packets mi l) /\
  mi_length (add_packets mi l) = mi_length mi.
Proof.
  intros Hi He Hl. revert mi Hi He.
  induction Hl as [|[[mem now] skb] l Hok _ IH]; simpl; [done |].
  intros mi Hi He.
  destruct (add_packet_inv mem now mi skb Hi He Hok) as (Hi' & He' & <-). auto.
Qed.

(** A message is complete exactly when nothing remains. *)
Lemma complete_iff mi :
  msgin_inv mi ->
  mi_bytes_remaining mi = 0 <->
  forall b, 0 <= b < mi_length mi -> received mi b = true.
Proof.
  intros Hi. pose proof (msgin_inv_bounds _ Hi) as (Hr & Hg & _).
  destruct Hi as (_ & Hgaps & _ & Hrem). split.
  - intros H0 b Hb. assert (mi_recv_end mi = mi_length mi) as Hre by lia.
    unfold received. destruct (mi_gaps mi) as [|g gs]; simpl; [lia |].
    destruct Hgaps as [? Hgs]. pose proof (gap_bytes_nonneg _ _ _ Hgs).
    unfold gap_bytes in *. simpl in *. lia.
  - intros Hall. unfold received in Hall.
    assert (mi_recv_end mi = mi_length mi) as Hre.
    { destruct (decide (mi_recv_end mi = mi_length mi)); [done |].
      specialize (Hall (mi_recv_end mi)). lia. }
    destruct (mi_gaps mi) as [|g gs]; [unfold gap_bytes in *; simpl in *; lia |].
    destruct Hgaps as [? Hgs]. pose proof (gaps_ok_le _ _ _ Hgs).
    specialize (Hall (gap_start g) ltac:(lia)). simpl in Hall.
    unfold in_gap in Hall. lia.
Qed.

(** ** Completion

    Every packet of a sender covers one segment of the message, and resent
    packets use the same segments.  [B] is the set of segment boundaries. *)
Section Aligned.
Context (B : Z -> Prop).

Definition aligned (mi : homa_message_in) : Prop :=
  B (mi_recv_end mi) /\
  Forall (fun g => B (gap_start g) /\ B (gap_end g)) (mi_gaps mi).

Definition segment (length : Z) (skb : skb_in) : Prop :=
  let s := pkt_start skb in
  let e := s + skb_data_len skb in
  0 <= s < e /\ e <= length /\ B s /\ B e /\
  (forall x, B x -> x <= s \/ e <= x).

Lemma fill_gaps_aligned mem now s e gs gs' :
  B s -> B e -> Forall (fun g => B (gap_start g) /\ B (gap_end g)) gs ->
  fill_gaps mem now s e gs = Some gs' ->
  Forall (fun g => B (gap_start g) /\ B (gap_end g)) gs'.
Proof.
  intros Hs He Hgs. revert gs'. induction Hgs as [|g gs [Hg1 Hg2] Hgs IH];
    simpl; intros gs'; [done |].
  unfold homa_gap_new.
  repeat case_match; intros; simplify_eq; try done;
    try (destruct (fill_gaps mem now s e gs); simpl in *; simplify_eq);
    repeat (constructor; simpl; auto).
Qed.

Lemma add_packet_aligned mem now mi skb :
  msgin_inv mi -> aligned mi -> segment (mi_length mi) skb ->
  aligned (homa_add_packet mem now mi skb).1.
Proof.
  intros Hi [Hr Hg] (? & ? & Hs & He & _).
  assert (pkt_ok skb) as Hok by (unfold pkt_ok; destruct Hi; lia).
  pose proof (pkt_end_no_overflow _ Hok) as Hend.
  unfold homa_add_packet, homa_gap_new. rewrite Hend.
  destruct (_ >? _) eqn:?; [done |].
  destruct (Z.eqb_spec (pkt_start skb) (mi_recv_end mi)) as [E|].
  { split; simpl; [rewrite <- E, Hend; done | done]. }
  destruct (pkt_start skb >? mi_recv_end mi).
  - destruct mem; [|done]. split; simpl; [done |].
    apply Forall_app. split; [done | by repeat constructor].
  - destruct (fill_gaps _ _ _ _ _) eqn:Ef; [|done]. split; simpl; [done |].
    eapply fill_gaps_aligned; [..| exact Ef]; done.
Qed.

(** An unreceived segment below [recv_end] lies in one gap. *)
Lemma segment_in_gap mi skb :
  msgin_inv mi -> aligned mi -> segment (mi_length mi) skb ->
  pkt_start skb < mi_recv_end mi -> received mi (pkt_start skb) = false ->
  existsb (fits_gap true (pkt_start skb) (pkt_start skb + skb_data_len skb))
    (mi_gaps mi) = true.
Proof.
  intros Hi [_ Hg] (? & ? & _ & _ & HB) Hlt Hrec.
  unfold received in Hrec.
  destruct (in_gaps (pkt_start skb) (mi_gaps mi)) eqn:E; [|lia].
  apply existsb_exists in E as (g & Hin & Hb).
  apply existsb_exists. exists g. split; [done |].
  rewrite Forall_forall in Hg. destruct (Hg g) as [H1 H2];
    [by apply list_elem_of_In |].
  apply HB in H2. unfold in_gap in Hb. apply fits_gap_true; lia || auto.
Qed.

(** A segment whose first byte was received was received as a whole. *)
Lemma received_uniform mi skb b :
  msgin_inv mi -> aligned mi -> segment (mi_length mi) skb ->
  received mi (pkt_start skb) = true -> in_pkt b skb = true ->
  received mi b = true.
Proof.
  intros Hi [Hr Hg] (? & ? & _ & _ & HB) Hs Hb.
  unfold received, in_pkt in *. apply HB in Hr.
  destruct (in_gaps b (mi_gaps mi)) eqn:E; [|lia].
  apply existsb_exists in E as (g & Hin & Hgb).
  rewrite Forall_forall in Hg.
  destruct (Hg g) as [H1 _]; [by apply list_elem_of_In |]. apply HB in H1.
  assert (in_gaps (pkt_start skb) (mi_gaps mi) = true) as Hc;
    [|rewrite Hc, andb_false_r in Hs; done].
  apply existsb_exists. exists g. split; [done |]. unfold in_gap in *. lia.
Qed.

Lemma add_packet_receives now mi skb :
  msgin_inv mi -> aligned mi -> segment (mi_length mi) skb ->
  let mi' := (homa_add_packet true now mi skb).1 in
  forall b, received mi b || in_pkt b skb = true -> received mi' b = true.
Proof.
  intros Hi Ha Hseg mi' b. subst mi'.
  pose proof Hseg as (Hs & He & _ & _ & HB).
  assert (pkt_ok skb) as Hok by (unfold pkt_ok; destruct Hi; lia).
  pose proof (add_packet_spec true now mi skb Hi Hok) as H.
  destruct (homa_add_packet true now mi skb) as [mi' kept]. simpl.
  destruct H as [Hk H]. destruct kept.
  { destruct H as (_ & _ & _ & _ & _ & ->). done. }
  subst mi'. intros [Hb | Hb]%orb_true_iff; [done |].
  destruct (received mi (pkt_start skb)) eqn:E.
  - by apply (received_uniform mi skb).
  - exfalso. unfold accepts in Hk.
    destruct (Z.ltb_spec (pkt_start skb) (mi_recv_end mi)); [|lia].
    rewrite (segment_in_gap mi skb) in Hk by done. lia.
Qed.

(** After any run every segment that arrived is received. *)
Lemma add_packets_receives mi l :
  msgin_inv mi -> exact mi -> aligned mi ->
  Forall (fun x => x.1.1 = true /\ segment (mi_length mi) (pkt_of x)) l ->
  forall b, received mi b || existsb (fun x => in_pkt b (pkt_of x)) l = true ->
  received (add_packets mi l) b = true.
Proof.
  intros Hi He Ha Hl. revert mi Hi He Ha Hl.
  induction l as [|[[mem now] skb] l IH]; simpl; intros mi Hi He Ha Hl b Hb.
  { by rewrite orb_false_r in Hb. }
  apply Forall_cons in Hl as [[Hm Hseg] Hl]. simpl in Hm, Hseg. subst mem.
  assert (pkt_ok skb) as Hok by (unfold pkt_ok; destruct Hi, Hseg as (?&?&_); lia).
  destruct (add_packet_inv true now mi skb Hi He Hok) as (Hi' & He' & Hlen).
  apply IH; [done | done | by apply add_packet_aligned | by rewrite Hlen |].
  rewrite orb_assoc in Hb. apply orb_true_iff in Hb as [Hb | ->];
    [|apply orb_true_r].
  by rewrite (add_packet_receives now mi skb Hi Ha Hseg b).
Qed.
End Aligned.

(** The boundaries of the packets of a run. *)
Definition boundary (l : list (bool * Z * skb_in)) (x : Z) : Prop :=
  x = 0 \/ exists p, p ∈ l /\
    (x = pkt_start (pkt_of p) \/
     x = pkt_start (pkt_of p) + skb_data_len (pkt_of p)).

(** Two packets carry the same segment or disjoint ones. *)
Definition same_or_disjoint (p q : skb_in) : Prop :=
  (pkt_start p = pkt_start q /\ skb_data_len p = skb_data_len q) \/
  pkt_start p + skb_data_len p <= pkt_start q \/
  pkt_start q + skb_data_len q <= pkt_start p.

Lemma segments_of_run length l :
  Forall (fun x => x.1.1 = true /\ 0 < skb_data_len (pkt_of x) /\
    0 <= pkt_start (pkt_of x) /\
    pkt_start (pkt_of x) + skb_data_len (pkt_of x) <= length) l ->
  (forall p q, p ∈ l -> q ∈ l -> same_or_disjoint (pkt_of p) (pkt_of q)) ->
  Forall (fun x => x.1.1 = true /\ segment (boundary l) length (pkt_of x)) l.
Proof.
  intros Hl Hd. rewrite Forall_forall in *. intros x Hx.
  destruct (Hl x Hx) as (Hm & ? & ? & ?). split; [done |].
  unfold segment, boundary. split_and!; try lia; try (right; exists x; auto).
  intros y [-> | (p & Hp & Hy)]; [lia |].
  destruct (Hl p Hp) as (_ & ? & _). specialize (Hd p x Hp Hx).
  unfold same_or_disjoint in Hd. lia.
Qed.

(** Packets of one segmentation that cover the message complete it. *)
Lemma completes_spec mi l :
  msgin_inv mi -> exact mi -> mi_recv_end mi = 0 -> mi_gaps mi = [] ->
  Forall (fun x => x.1.1 = true /\ 0 < skb_data_len (pkt_of x) /\
    0 <= pkt_start (pkt_of x) /\
    pkt_start (pkt_of x) + skb_data_len (pkt_of x) <= mi_length mi) l ->
  (forall p q, p ∈ l -> q ∈ l -> same_or_disjoint (pkt_of p) (pkt_of q)) ->
  (forall b, 0 <= b < mi_length mi -> existsb (fun x => in_pkt b (pkt_of x)) l = true) ->
  mi_bytes_remaining (add_packets mi l) = 0.
Proof.
  intros Hi He Hr Hg Hl Hd Hcov. pose proof (segments_of_run (mi_length mi) l Hl Hd) as Hseg.
  assert (Forall (fun x => pkt_ok (pkt_of x)) l) as Hok.
  { eapply Forall_impl; [exact Hl |]. destruct Hi as [? _]. unfold pkt_ok. simpl. lia. }
  destruct (add_packets_inv _ l Hi He Hok) as (Hi' & _ & Hl').
  apply (complete_iff _ Hi'). rewrite Hl'. simpl. intros b Hb.
  apply (add_packets_receives (boundary l)); [done | done | | done |].
  - split; [rewrite Hr; by left | by rewrite Hg].
  - rewrite Hcov by done. apply orb_true_r.
Qed.

(** The ranges of the RESENDs for a list of gaps are the gaps. *)
Lemma gap_requests lo hi prio gs b :
  0 <= lo -> hi <= INT_MAX -> gaps_ok lo hi gs ->
  existsb (fun r => (rs_offset r <=? b) && (b <? rs_offset r + rs_length r))
    (map (fun gap => Build_resend_req (u32 (gap_start gap))
       (u32 (gap_end gap - gap_start gap)) prio) gs) = in_gaps b gs.
Proof.
  intros Hlo Hhi. revert lo Hlo. unfold INT_MAX in Hhi.
  induction gs as [|g gs IH]; simpl; intros lo Hlo; [done |].
  intros [? Hg]. pose proof (gaps_ok_le _ _ _ Hg).
  rewrite !u32_id by (unfold is_u32; lia).
  rewrite (IH (gap_end g)) by (lia || done). f_equal. unfold in_gap. lia.
Qed.

Lemma gap_retry_spec num_priorities mi b :
  msgin_inv mi ->
  existsb (fun r => (rs_offset r <=? b) && (b <? rs_offset r + rs_length r))
    (homa_gap_retry num_priorities mi) =
  (0 <=? b) && (b <? mi_recv_end mi) && negb (received mi b).
Proof.
  intros Hi. pose proof (msgin_inv_bounds _ Hi) as (Hr & _).
  destruct Hi as (Hl & Hg & _). unfold received.
  transitivity (in_gaps b (mi_gaps mi)).
  - unfold homa_gap_retry, in_gaps. apply (gap_requests 0 (mi_recv_end mi)); lia || done.
  - destruct (in_gaps b (mi_gaps mi)) eqn:E; [|lia].
    apply (in_gaps_bounds _ _ _ _ Hg) in E. lia.
Qed.

(** ** Properties *)

(** C1: [homa_add_packet] implements its specification on the set of received
    bytes.  A packet is kept exactly when it lies within the message and is
    sequential, opens a new gap (and one can be allocated), or fits one
    existing gap (splitting it only when a gap can be allocated).  Keeping it
    preserves the invariant of the message, none of its bytes had been
    received, and exactly its bytes become received; a discarded packet
    changes nothing. *)
Theorem add_packet_refines mem now mi skb :
  msgin_inv mi -> pkt_ok skb ->
  let '(mi', kept) := homa_add_packet mem now mi skb in
  kept = accepts mem mi skb /\
  (if kept then
     msgin_inv mi' /\ mi_length mi' = mi_length mi /\
     mi_packets mi' = mi_packets mi ++ [skb] /\
     mi_bytes_remaining mi' = mi_bytes_remaining mi - skb_data_len skb /\
     (forall b, in_pkt b skb = true -> received mi b = false) /\
     (forall b, received mi' b = received mi b || in_pkt b skb)
   else mi' = mi).
Proof. apply add_packet_spec. Qed.

(** A message of 30 bytes, and a packet of it. *)
Definition example_msgin : homa_message_in :=
  message_in_reset
    (Build_homa_message_in (-1) [] 0 [] 0 0 0 0 0 0 0 0 (replicate 16 0)) 30 30.
Definition example_pkt (offset n : Z) : skb_in :=
  Build_skb_in
    (Build_homa_data_hdr (Build_homa_common_hdr 1 2 0 0 0 DATA 0 0 0 0 0 4)
       30 30 (Build_homa_ack 0 0) 0 0 0 offset) (replicate (Z.to_nat n) 7).

Lemma example_msgin_inv : msgin_inv example_msgin /\ exact example_msgin.
Proof. apply message_in_reset_inv. vm_compute. split; congruence. Qed.

Lemma add_packet_refines_witness :
  let '(mi', kept) := homa_add_packet true 5 example_msgin (example_pkt 10 5) in
  kept = accepts true example_msgin (example_pkt 10 5) /\ kept = true /\
  received mi' 12 = received example_msgin 12 || in_pkt 12 (example_pkt 10 5).
Proof.
  assert (pkt_ok (example_pkt 10 5)) as Hok by (vm_compute; congruence).
  pose proof (add_packet_refines true 5 example_msgin (example_pkt 10 5)
    (proj1 example_msgin_inv) Hok) as H.
  destruct (homa_add_packet true 5 example_msgin (example_pkt 10 5)) as [mi' kept].
  assert (accepts true example_msgin (example_pkt 10 5) = true) as Ha
    by (vm_compute; reflexivity).
  rewrite Ha in *. destruct H as [-> (_ & _ & _ & _ & _ & H)].
  split; [reflexivity |]. split; [reflexivity | exact (H 12)].
Defined.

(** Whatever packets arrive, in whatever order and with whatever
    duplicates and overlaps, the packets kept for the message hold every
    received byte exactly once, and [bytes_remaining] is zero exactly when
    every byte of the message has been received. *)
Theorem reassembly_exact mi0 length unsched l :
  0 <= length <= INT_MAX -> Forall (fun x => pkt_ok (pkt_of x)) l ->
  let mi := add_packets (message_in_reset mi0 length unsched) l in
  msgin_inv mi /\
  (forall b, countb (in_pkt b) (mi_packets mi) = Z.b2z (received mi b)) /\
  (mi_bytes_remaining mi = 0 <->
   forall b, 0 <= b < length -> countb (in_pkt b) (mi_packets mi) = 1).
Proof.
  intros Hlen Hl mi.
  destruct (message_in_reset_inv mi0 length unsched Hlen) as [Hi He].
  destruct (add_packets_inv _ l Hi He Hl) as (Hi' & He' & Hl').
  fold mi in Hi', He', Hl'. change (mi_length mi = length) in Hl'.
  split; [done |]. split; [done |]. rewrite (complete_iff _ Hi'), Hl'.
  split; intros H b Hb; specialize (H b Hb).
  - by rewrite (He' b), H.
  - rewrite (He' b) in H. by destruct (received mi b).
Qed.

Lemma reassembly_exact_witness :
  let l := [(true, 1, example_pkt 20 10); (true, 2, example_pkt 0 10);
            (true, 3, example_pkt 5 10); (true, 4, example_pkt 10 10)] in
  let mi := add_packets example_msgin l in
  mi_bytes_remaining mi = 0 /\ countb (in_pkt 7) (mi_packets mi) = 1.
Proof.
  intros l mi. destruct (reassembly_exact
    (Build_homa_message_in (-1) [] 0 [] 0 0 0 0 0 0 0 0 (replicate 16 0)) 30 30 l)
    as (_ & _ & H).
  - vm_compute. split; congruence.
  - repeat constructor; vm_compute; congruence.
  - split; [vm_compute; reflexivity |]. apply H; [vm_compute; reflexivity | lia].
Defined.

(** Reassembly completes.  If the packets of a message come from one
    segmentation (two of them carry the same segment or disjoint ones) and
    every byte of the message is in some packet that arrived, then after the
    last one, whatever the order of arrival and however often segments were
    repeated, nothing remains to be received. *)
Theorem reassembly_completes mi0 length unsched l :
  0 <= length <= INT_MAX ->
  Forall (fun x => x.1.1 = true /\ 0 < skb_data_len (pkt_of x) /\
    0 <= pkt_start (pkt_of x) /\
    pkt_start (pkt_of x) + skb_data_len (pkt_of x) <= length) l ->
  (forall p q, p ∈ l -> q ∈ l -> same_or_disjoint (pkt_of p) (pkt_of q)) ->
  (forall b, 0 <= b < length -> existsb (fun x => in_pkt b (pkt_of x)) l = true) ->
  mi_bytes_remaining (add_packets (message_in_reset mi0 length unsched) l) = 0.
Proof.
  intros Hlen. destruct (message_in_reset_inv mi0 length unsched Hlen) as [Hi He].
  by apply (completes_spec _ l Hi He).
Qed.

Lemma reassembly_completes_witness :
  let l := [(true, 1, example_pkt 20 10); (true, 2, example_pkt 20 10);
            (true, 3, example_pkt 0 20)] in
  mi_bytes_remaining (add_packets example_msgin l) = 0.
Proof.
  intros l. apply (reassembly_completes
    (Build_homa_message_in (-1) [] 0 [] 0 0 0 0 0 0 0 0 (replicate 16 0)) 30 30 l).
  - vm_compute. split; congruence.
  - repeat constructor; vm_compute; congruence.
  - intros p q Hp Hq. unfold l in Hp, Hq.
    repeat (apply elem_of_cons in Hp as [-> | Hp]); try (by apply elem_of_nil in Hp);
    repeat (apply elem_of_cons in Hq as [-> | Hq]); try (by apply elem_of_nil in Hq);
    vm_compute; intuition congruence.
  - intros b Hb. simpl. unfold in_pkt. simpl.
    change (pkt_start (example_pkt 20 10)) with 20.
    change (pkt_start (example_pkt 0 20)) with 0.
    change (skb_data_len (example_pkt 20 10)) with 10.
    change (skb_data_len (example_pkt 0 20)) with 20. lia.
Defined.

(** [homa_gap_retry] requests exactly the missing bytes below [recv_end]:
    a byte below [recv_end] lies in the range of one of its RESENDs exactly
    when it has not been received, and no RESEND asks for anything else. *)
Theorem gap_retry_requests_missing num_priorities mi b :
  msgin_inv mi ->
  existsb (fun r => (rs_offset r <=? b) && (b <? rs_offset r + rs_length r))
    (homa_gap_retry num_priorities mi) =
  (0 <=? b) && (b <? mi_recv_end mi) && negb (received mi b).
Proof. apply gap_retry_spec. Qed.

Lemma gap_retry_requests_missing_witness :
  let mi := (homa_add_packet true 5 example_msgin (example_pkt 10 5)).1 in
  existsb (fun r => (rs_offset r <=? 3) && (3 <? rs_offset r + rs_length r))
    (homa_gap_retry 8 mi) =
  (0 <=? 3) && (3 <? mi_recv_end mi) && negb (received mi 3).
Proof.
  intros mi. apply (gap_retry_requests_missing 8 mi 3).
  apply (add_packet_inv true 5 example_msgin (example_pkt 10 5));
    [apply example_msgin_inv .. | vm_compute; congruence].
Defined.

(** The range check of [homa_add_packet] is done in [int].  A packet
    whose end exceeds [INT_MAX] wraps to a negative end, passes the check
    although it lies outside the message, is kept, and leaves [recv_end]
    negative. *)
Theorem add_packet_overflow now mi skb :
  msgin_inv mi -> mi_length mi < pkt_start skb -> skb_data_len skb <= INT_MAX ->
  INT_MAX < pkt_start skb + skb_data_len skb ->
  let '(mi', kept) := homa_add_packet true now mi skb in
  kept = true /\ mi_recv_end mi' < 0.
Proof.
  intros Hi Hs Hn Ho. pose proof (msgin_inv_bounds _ Hi) as (Hr & _).
  pose proof (s32_is_int (seg_offset (skb_hdr skb))) as Hint.
  fold (pkt_start skb) in Hint. pose proof (skb_data_len_length skb).
  assert (s32 (pkt_start skb + skb_data_len skb) < 0) as Hneg.
  { unfold s32, is_int, INT_MAX, INT_MIN in *.
    rewrite <- (Z.mod_unique _ _ 1
      (pkt_start skb + skb_data_len skb + 2 ^ 31 - 2 ^ 32)); lia. }
  unfold homa_add_packet. rewrite !Z.gtb_ltb.
  destruct (Z.ltb_spec (mi_length mi) (s32 (pkt_start skb + skb_data_len skb))); [lia |].
  destruct (Z.eqb_spec (pkt_start skb) (mi_recv_end mi)); [lia |].
  destruct (Z.ltb_spec (mi_recv_end mi) (pkt_start skb)); [|lia].
  simpl. lia.
Qed.

Lemma add_packet_overflow_witness :
  let '(mi', kept) :=
    homa_add_packet true 5 example_msgin (example_pkt 2147483640 10) in
  kept = true /\ mi_recv_end mi' < 0.
Proof.
  apply (add_packet_overflow 5 example_msgin (example_pkt 2147483640 10));
    [apply example_msgin_inv | vm_compute; congruence ..].
Defined.
