(* ===== verification/Pool.v ===== *)
(** * Receive buffer pools (homa_pool.c)

    The allocator of user-space buffer space for incoming messages.  A pool
    is divided into bpages of [HOMA_BPAGE_SIZE] bytes; whole bpages are
    handed out by [homa_pool_get_pages], and the last part of a message comes
    from a bpage that the current core owns.  The functions on one pool are
    pure; [homa_pool_allocate] and [homa_pool_check_waiting] also maintain the
    socket's queue of RPCs waiting for space.

    The invariant [pool_inv pool live] relates the reference counts, the
    owners and [free_bpages] to the list [live] of the buffers in use. *)
From S2P Require Import Prelude Lists Wire Types.

Definition MIN_POOL_SIZE : Z := 2.
Definition MIN_EXTRA : Z := 4.
Definition PAGE_SIZE : Z := 4096.

(** ** Operations on one pool *)

(** [homa_pool_destroy] *)
Definition homa_pool_destroy (pool : homa_pool) : homa_pool :=
  if pool_region pool =? 0 then pool
  else pool <| pool_descriptors := [] |> <| pool_cores := [] |>
            <| pool_region := 0 |>.

(** [homa_pool_init]: [mem1] and [mem2] tell whether the two [kmalloc_array]
    calls succeed, [nr_cpu_ids] is the kernel's number of cores. *)
Definition homa_pool_init (mem1 mem2 : bool) (nr_cpu_ids : Z)
    (pool : homa_pool) (region region_size : Z) : homa_pool * Z :=
  let pool := homa_pool_destroy pool in
  if negb (Z.land region (PAGE_SIZE - 1) =? 0) then (pool, - EINVAL) else
  let pool := pool <| pool_region := region |>
    <| pool_num_bpages := s32 (Z.shiftr region_size HOMA_BPAGE_SHIFT) |>
    <| pool_descriptors := [] |> <| pool_cores := [] |> in
  let error (pool : homa_pool) result :=
    (pool <| pool_descriptors := [] |> <| pool_cores := [] |>
          <| pool_region := 0 |>, result) in
  if pool_num_bpages pool <? MIN_POOL_SIZE then error pool (- EINVAL)
  else if negb mem1 then error pool (- ENOMEM) else
  let pool := pool
    <| pool_descriptors :=
         replicate (Z.to_nat (pool_num_bpages pool)) (Build_homa_bpage 0 (-1) 0) |>
    <| pool_free_bpages := pool_num_bpages pool |>
    <| pool_bpages_needed := INT_MAX |> in
  if negb mem2 then error pool (- ENOMEM) else
  (pool <| pool_num_cores := nr_cpu_ids |>
        <| pool_cores :=
             replicate (Z.to_nat nr_cpu_ids) (Build_homa_pool_core 0 0 0) |>, 0).

(** [homa_pool_get_rcvbuf]: start and length of the region. *)
Definition homa_pool_get_rcvbuf (pool : homa_pool) : Z * Z :=
  (pool_region pool, s32 (Z.shiftl (pool_num_bpages pool) HOMA_BPAGE_SHIFT)).

(** The test "free or can be stolen" of [homa_pool_get_pages]. *)
Definition page_unavailable (now : Z) (bpage : homa_bpage) : bool :=
  (bp_refs bpage >=? 2) ||
  ((bp_refs bpage =? 1) &&
   ((bp_owner bpage <? 0) || (bp_expiration bpage >? now))).

(** The range of candidates considered by [homa_pool_get_pages]. *)
Definition pool_limit (pool : homa_pool) : Z :=
  let limit := pool_num_bpages pool - pool_free_bpages pool in
  let extra := Z.shiftr limit 2 in
  let limit := limit + (if extra <? MIN_EXTRA then MIN_EXTRA else extra) in
  if limit >? pool_num_bpages pool then pool_num_bpages pool else limit.

(** [now + 1000 * pool->hsk->homa->bpage_lease_usecs] *)
Definition lease_end (now lease_usecs : Z) : Z := u64 (now + s32 (1000 * lease_usecs)).

Definition claim_page (core_num now lease : Z) (set_owner : bool)
    (bpage : homa_bpage) : homa_bpage :=
  if set_owner then
    bpage <| bp_refs := 2 |> <| bp_owner := core_num |>
          <| bp_expiration := lease_end now lease |>
  else bpage <| bp_refs := 1 |> <| bp_owner := -1 |>.

(** The loop of [homa_pool_get_pages]; [pages] holds the pages allocated so
    far, in an array of [HOMA_MAX_BPAGES] entries. *)
Fixpoint get_pages_loop (fuel : nat) (core_num now lease num_pages : Z)
    (set_owner : bool) (pool : homa_pool) (limit : Z) (pages : list Z)
    : result (homa_pool * list Z) :=
  let alloced := Z.of_nat (length pages) in
  if alloced =? num_pages then Ok (pool, pages) else
  match fuel with
  | O => Fault OutOfFuel
  | S fuel =>
      let loop := get_pages_loop fuel core_num now lease num_pages set_owner in
      let limit := if limit =? 0 then pool_limit pool else limit in
      let! core := arr (pool_cores pool) core_num in
      let cur := next_candidate core in
      let! cores := arr_set (pool_cores pool) core_num
                      (core <| next_candidate := cur + 1 |>) in
      let pool := pool <| pool_cores := cores |> in
      if cur >=? limit then
        let! cores := arr_set (pool_cores pool) core_num
                        (core <| next_candidate := 0 |>) in
        loop (pool <| pool_cores := cores |>) 0 pages
      else
        let! bpage := arr (pool_descriptors pool) cur in
        if page_unavailable now bpage then loop pool limit pages
        else
          let pool :=
            if bp_owner bpage >=? 0
            then pool <| pool_free_bpages ::= fun f => f + 1 |> else pool in
          let! descriptors := arr_set (pool_descriptors pool) cur
                                (claim_page core_num now lease set_owner bpage) in
          let pool := pool <| pool_descriptors := descriptors |> in
          if alloced >=? HOMA_MAX_BPAGES then Fault ArrayBounds
          else loop pool limit (pages ++ [cur])
  end.

(** Iterations that always suffice (see [get_pages_total]). *)
Definition get_pages_fuel (pool : homa_pool) : nat :=
  Z.to_nat (2 * pool_num_bpages pool + 4).

(** [homa_pool_get_pages]: [None] is the return value -1. *)
Definition homa_pool_get_pages (core_num now lease : Z) (pool : homa_pool)
    (num_pages : Z) (set_owner : bool)
    : result (homa_pool * option (list Z)) :=
  let! _ := arr (pool_cores pool) core_num in
  if pool_free_bpages pool - num_pages <? 0 then Ok (pool, None)
  else
    let pool := pool <| pool_free_bpages ::= fun f => f - num_pages |> in
    let! (pool, pages) := get_pages_loop (get_pages_fuel pool) core_num now
                            lease num_pages set_owner pool 0 [] in
    Ok (pool, Some pages).

(** [homa_pool_release_buffers], buffer [i] and after. *)
Fixpoint release_loop (pool : homa_pool) (result_ : Z) (buffers : list Z)
    (i : Z) (n : nat) : result (homa_pool * Z) :=
  match n with
  | O => Ok (pool, result_)
  | S n =>
      let! buf := arr buffers i in
      let bpage_index := Z.shiftr buf HOMA_BPAGE_SHIFT in
      if bpage_index <? u32 (pool_num_bpages pool) then
        let! bpage := arr (pool_descriptors pool) bpage_index in
        let refs := bp_refs bpage - 1 in
        let! descriptors := arr_set (pool_descriptors pool) bpage_index
                              (bpage <| bp_refs := refs |>) in
        let pool := pool <| pool_descriptors := descriptors |> in
        let pool := if refs =? 0
                    then pool <| pool_free_bpages ::= fun f => f + 1 |>
                    else pool in
        release_loop pool result_ buffers (i + 1) n
      else release_loop pool (- EINVAL) buffers (i + 1) n
  end.

Definition homa_pool_release_buffers (pool : homa_pool) (num_buffers : Z)
    (buffers : list Z) : result (homa_pool * Z) :=
  if pool_region pool =? 0 then Ok (pool, 0)
  else release_loop pool 0 buffers 0 (Z.to_nat num_buffers).

(** The loop "[bpage_offsets[i] = pages[i] << HOMA_BPAGE_SHIFT]". *)
Fixpoint store_offsets (offsets : list Z) (i : Z) (pages : list Z)
    : result (list Z) :=
  match pages with
  | [] => Ok offsets
  | p :: pages =>
      let! offsets := arr_set offsets i (u32 (Z.shiftl p HOMA_BPAGE_SHIFT)) in
      store_offsets offsets (i + 1) pages
  end.

(** The label [allocate_partial] of [homa_pool_allocate]. *)
Definition allocate_partial (core_id partial : Z) (pool : homa_pool)
    (mi : homa_message_in) : result (homa_pool * homa_message_in) :=
  let! core := arr (pool_cores pool) core_id in
  let! offsets := arr_set (mi_bpage_offsets mi) (mi_num_bpages mi)
    (u32 (allocated core + Z.shiftl (page_hint core) HOMA_BPAGE_SHIFT)) in
  let! cores := arr_set (pool_cores pool) core_id
                  (core <| allocated ::= fun a => a + partial |>) in
  Ok (pool <| pool_cores := cores |>,
      mi <| mi_bpage_offsets := offsets |>
         <| mi_num_bpages ::= fun n => u32 (n + 1) |>).

(** The label [new_page] of [homa_pool_allocate]; [false] is
    [goto out_of_space]. *)
Definition new_page (core_id now lease partial : Z) (pool : homa_pool)
    (mi : homa_message_in) : result (homa_pool * homa_message_in * bool) :=
  let! (pool, r) := homa_pool_get_pages core_id now lease pool 1 true in
  match r with
  | None =>
      let! (pool, _) := homa_pool_release_buffers pool (mi_num_bpages mi)
                          (mi_bpage_offsets mi) in
      Ok (pool, mi <| mi_num_bpages := 0 |>, false)
  | Some pages =>
      let! p := arr pages 0 in
      let! core := arr (pool_cores pool) core_id in
      let! cores := arr_set (pool_cores pool) core_id
                      (core <| page_hint := p |> <| allocated := 0 |>) in
      let pool := pool <| pool_cores := cores |> in
      let! (pool, mi) := allocate_partial core_id partial pool mi in
      Ok (pool, mi, true)
  end.

(** The last chunk of a message, from the bpage the core owns. *)
Definition alloc_last (core_id now lease partial : Z) (pool : homa_pool)
    (mi : homa_message_in) : result (homa_pool * homa_message_in * bool) :=
  let! core := arr (pool_cores pool) core_id in
  let hint := page_hint core in
  let! bpage := arr (pool_descriptors pool) hint in
  (* Take one more reference on the page the core owns. *)
  let use_current (core : homa_pool_core) :=
    let! descriptors := arr_set (pool_descriptors pool) hint
      (bpage <| bp_expiration := lease_end now lease |>
             <| bp_refs ::= fun r => r + 1 |>) in
    let! cores := arr_set (pool_cores pool) core_id core in
    let! (pool, mi) := allocate_partial core_id partial
      (pool <| pool_descriptors := descriptors |> <| pool_cores := cores |>) mi in
    Ok (pool, mi, true) in
  if negb (bp_owner bpage =? core_id) then
    new_page core_id now lease partial pool mi
  else if allocated core + partial >? HOMA_BPAGE_SIZE then
    if bp_refs bpage =? 1 then use_current (core <| allocated := 0 |>)
    else
      let! descriptors := arr_set (pool_descriptors pool) hint
        (bpage <| bp_owner := -1 |> <| bp_refs ::= fun r => r - 1 |>) in
      new_page core_id now lease partial
        (pool <| pool_descriptors := descriptors |>) mi
  else use_current core.

(** [homa_pool_allocate] up to the label [success] ([true]) or
    [out_of_space] ([false]); [now1] and [now2] are the times read for the
    full bpages and for the last chunk. *)
Definition pool_reserve (core_id now1 now2 lease : Z) (pool : homa_pool)
    (mi : homa_message_in) : result (homa_pool * homa_message_in * bool) :=
  let full_pages := Z.shiftr (mi_length mi) HOMA_BPAGE_SHIFT in
  let rest (pool : homa_pool) (mi : homa_message_in) :=
    let mi := mi <| mi_num_bpages := u32 full_pages |> in
    let partial := Z.land (mi_length mi) (HOMA_BPAGE_SIZE - 1) in
    if partial =? 0 then Ok (pool, mi, true)
    else alloc_last core_id now2 lease partial pool mi in
  if negb (full_pages =? 0) then
    let! (pool, r) := homa_pool_get_pages core_id now1 lease pool full_pages false in
    match r with
    | None => Ok (pool, mi, false)
    | Some pages =>
        let! offsets := store_offsets (mi_bpage_offsets mi) 0 pages in
        rest pool (mi <| mi_bpage_offsets := offsets |>)
    end
  else rest pool mi.

(** [homa_pool_get_buffer]: the address for message offset [offset] and the
    number of bytes available there. *)
Definition homa_pool_get_buffer (region : Z) (mi : homa_message_in) (offset : Z)
    : result (Z * Z) :=
  let bpage_index := Z.shiftr offset HOMA_BPAGE_SHIFT in
  if u32 bpage_index >=? mi_num_bpages mi then Fault BugOn else
  let bpage_offset := Z.land offset (HOMA_BPAGE_SIZE - 1) in
  let available :=
    if u32 bpage_index <? u32 (mi_num_bpages mi - 1)
    then HOMA_BPAGE_SIZE - bpage_offset else mi_length mi - offset in
  let! o := arr (mi_bpage_offsets mi) bpage_index in
  Ok (region + o + bpage_offset, available).

(** ** Waiting for buffer space *)

(** [set_bpages_needed] *)
Definition set_bpages_needed (hsk : ptr) : M unit :=
  let* sk := get_sock hsk in
  match sk_waiting_for_bufs sk with
  | [] => raise BadPointer
  | p :: _ =>
      let* rpc := get_rpc p in
      upd_sock hsk (fun sk => sk <| sk_buffer_pool ::= fun pool =>
        pool <| pool_bpages_needed :=
          Z.shiftr (s32 (mi_length (rpc_msgin rpc) + HOMA_BPAGE_SIZE - 1))
            HOMA_BPAGE_SHIFT |> |>)
  end.

(** The scan of [waiting_for_bufs] at [out_of_space]: insert [rpc] before the
    first longer message. *)
Fixpoint queue_waiting (rpc : ptr) (length : Z) (waiting : list ptr)
    : M (list ptr) :=
  match waiting with
  | [] => ret [rpc]
  | other :: rest =>
      let* o := get_rpc other in
      if mi_length (rpc_msgin o) >? length then ret (rpc :: waiting)
      else let* l := queue_waiting rpc length rest in ret (other :: l)
  end.

(** [homa_pool_allocate]; [core_id] is the current core. *)
Definition homa_pool_allocate (core_id : Z) (p : ptr) : M Z :=
  let* rpc := get_rpc p in
  let hsk := rpc_hsk rpc in
  let* sk := get_sock hsk in
  let* h := get_homa in
  if pool_region (sk_buffer_pool sk) =? 0 then ret (- ENOMEM) else
  let* now1 := sched_clock in
  let* now2 := sched_clock in
  let* (pool, mi, ok) := lift (pool_reserve core_id now1 now2
    (h_bpage_lease_usecs h) (sk_buffer_pool sk) (rpc_msgin rpc)) in
  (upd_sock hsk (fun sk => sk <| sk_buffer_pool := pool |>) ;;;
   upd_rpc p (fun rpc => rpc <| rpc_msgin := mi |>) ;;;
   if ok then ret 0 else
   let* waiting := queue_waiting p (mi_length mi) (sk_waiting_for_bufs sk) in
   (upd_sock hsk (fun sk => sk <| sk_waiting_for_bufs := waiting |>) ;;;
    set_bpages_needed hsk ;;;
    ret 0)).

(** ** Lemmas on [homa_pool_get_pages] *)
Definition zero_pages (ds : list homa_bpage) : Z :=
  countb (fun b => bp_refs b =? 0) ds.

(** Reference counts are not negative, and an owner holds a reference. *)
Definition bpage_ok (b : homa_bpage) : Prop :=
  0 <= bp_refs b /\ (0 <= bp_owner b -> 1 <= bp_refs b).

(** What [homa_pool_get_pages] does to the descriptors [ds]: the pages are
    distinct, were available, and are claimed; no other page changes. *)
Definition claimed (core now lease : Z) (so : bool) (ds : list homa_bpage)
    (pages : list Z) (ds' : list homa_bpage) : Prop :=
  length ds' = length ds /\ NoDup pages /\
  (forall p, p ∈ pages -> 0 <= p /\ exists b, ds !! Z.to_nat p = Some b /\
     page_unavailable now b = false /\
     ds' !! Z.to_nat p = Some (claim_page core now lease so b)) /\
  (forall i, Z.of_nat i ∉ pages -> ds' !! i = ds !! i).

Lemma claim_page_unavailable core now lease so b :
  page_unavailable now (claim_page core now lease so b) = true.
Proof. unfold page_unavailable, claim_page. by destruct so. Qed.

Lemma claim_page_ok core now lease so b :
  0 <= core -> bpage_ok (claim_page core now lease so b).
Proof. unfold bpage_ok, claim_page. destruct so; simpl; lia. Qed.

Lemma page_available now b :
  bpage_ok b -> page_unavailable now b = false ->
  (bp_owner b < 0 /\ bp_refs b = 0) \/ (0 <= bp_owner b /\ bp_refs b = 1).
Proof. unfold bpage_ok, page_unavailable. intros. lia. Qed.

Lemma zero_available now b :
  bp_refs b = 0 -> page_unavailable now b = false.
Proof. unfold page_unavailable. intros. lia. Qed.

Lemma claimed_nil core now lease so ds : claimed core now lease so ds [] ds.
Proof.
  unfold claimed. split_and!; try done; [apply NoDup_nil_2 |].
  intros p Hp. by apply elem_of_nil in Hp.
Qed.

Lemma claimed_snoc core now lease so ds pages ds1 cur b :
  claimed core now lease so ds pages ds1 -> 0 <= cur ->
  ds1 !! Z.to_nat cur = Some b -> page_unavailable now b = false ->
  claimed core now lease so ds (pages ++ [cur])
    (<[Z.to_nat cur := claim_page core now lease so b]> ds1).
Proof.
  intros (Hl & Hnd & Hin & Hout) Hc Hb Ha.
  assert (cur ∉ pages) as Hn.
  { intros H. apply Hin in H as (_ & b' & _ & _ & Hb').
    rewrite Hb in Hb'. simplify_eq.
    by rewrite claim_page_unavailable in Ha. }
  assert (Z.to_nat cur < length ds1)%nat as Hlt by by apply lookup_lt_Some in Hb.
  unfold claimed. split_and!.
  - by rewrite length_insert.
  - apply NoDup_app. split_and!; [done | | apply NoDup_singleton].
    intros x Hx ->%list_elem_of_singleton. done.
  - intros p [Hp | ->%list_elem_of_singleton]%elem_of_app.
    + destruct (Hin p Hp) as (? & b' & ? & ? & ?). split; [done |].
      exists b'. split_and!; [done | done |].
      rewrite list_lookup_insert_ne; [done |]. intros Heq.
      assert (p = cur) by lia. by subst.
    + split; [done |]. exists b.
      rewrite <- Hout by (by rewrite Z2Nat.id). split_and!; [done | done |].
      by rewrite list_lookup_insert_eq.
  - intros i Hi. rewrite not_elem_of_app, list_elem_of_singleton in Hi.
    rewrite list_lookup_insert_ne by lia. apply Hout. tauto.
Qed.

Section GetPages.
Context (core now lease n : Z) (so : bool) (pool0 : homa_pool) (core0 : homa_pool_core).
Context (Hcore : 0 <= core) (Hcore0 : pool_cores pool0 !! Z.to_nat core = Some core0).
Context (Hnum : pool_num_bpages pool0 = Z.of_nat (length (pool_descriptors pool0))).
Context (Hok : Forall bpage_ok (pool_descriptors pool0)).
Context (Hn : n <= HOMA_MAX_BPAGES).

Abbreviation num := (pool_num_bpages pool0).
Abbreviation loop fuel := (get_pages_loop fuel core now lease n so).

(** The invariant of the loop: [c] is the core's next candidate. *)
Record loop_inv (pool : homa_pool) (pages : list Z) (c : Z) : Prop := {
  li_region : pool_region pool = pool_region pool0;
  li_num : pool_num_bpages pool = num;
  li_needed : pool_bpages_needed pool = pool_bpages_needed pool0;
  li_num_cores : pool_num_cores pool = pool_num_cores pool0;
  li_cores : pool_cores pool =
    <[Z.to_nat core := core0 <| next_candidate := c |>]> (pool_cores pool0);
  li_claimed : claimed core now lease so (pool_descriptors pool0) pages
    (pool_descriptors pool);
  li_free : pool_free_bpages pool + (n - Z.of_nat (length pages)) =
    zero_pages (pool_descriptors pool);
  li_nonneg : 0 <= pool_free_bpages pool;
  li_claim : pool_free_bpages pool0 - n <= pool_free_bpages pool;
  li_c : 0 <= c <= num;
  li_ok : Forall bpage_ok (pool_descriptors pool);
  li_pages : Z.of_nat (length pages) <= n
}.

Lemma loop_inv_core pool pages c :
  loop_inv pool pages c ->
  arr (pool_cores pool) core = Ok (core0 <| next_candidate := c |>).
Proof.
  intros [?????]. apply arr_Ok. split; [done |]. rewrite li_cores0.
  rewrite list_lookup_insert_eq; [done |]. by apply lookup_lt_Some in Hcore0.
Qed.

Lemma loop_inv_set_core pool pages c x :
  loop_inv pool pages c ->
  arr_set (pool_cores pool) core x =
  Ok (<[Z.to_nat core := x]> (pool_cores pool0)).
Proof.
  intros [?????]. apply arr_set_Ok. rewrite li_cores0, length_insert.
  apply lookup_lt_Some in Hcore0. split; [lia |].
  by rewrite list_insert_insert_eq.
Qed.

(** Moving the candidate only. *)
Lemma loop_inv_move pool pages c c' :
  loop_inv pool pages c -> 0 <= c' <= num ->
  loop_inv (pool <| pool_cores :=
    <[Z.to_nat core := core0 <| next_candidate := c' |>]> (pool_cores pool0) |>)
    pages c'.
Proof. intros [] ?. by constructor. Qed.

Lemma loop_done fuel pool pages c limit :
  loop_inv pool pages c -> Z.of_nat (length pages) = n ->
  loop fuel pool limit pages = Ok (pool, pages).
Proof. intros _ H. destruct fuel; simpl; by rewrite H, Z.eqb_refl. Qed.

(** End of a sweep: the candidate returns to 0 and the limit is recomputed. *)
Lemma loop_wrap fuel pool pages c limit :
  loop_inv pool pages c -> Z.of_nat (length pages) <> n ->
  limit <> 0 -> limit <= c ->
  exists pool', loop_inv pool' pages 0 /\
    pool_free_bpages pool' = pool_free_bpages pool /\
    loop (S fuel) pool limit pages = loop fuel pool' 0 pages.
Proof.
  intros Hi Hne Hl Hc. simpl.
  destruct (Z.eqb_spec (Z.of_nat (length pages)) n); [done |].
  destruct (Z.eqb_spec limit 0); [done |].
  rewrite (loop_inv_core _ _ _ Hi). simpl.
  rewrite (loop_inv_set_core _ _ _ _ Hi). simpl.
  destruct (Z.geb_spec c limit); [|lia].
  unfold arr_set at 1. rewrite length_insert.
  pose proof (lookup_lt_Some _ _ _ Hcore0).
  destruct (Z.leb_spec 0 core); [|lia].
  destruct (Z.ltb_spec core (Z.of_nat (length (pool_cores pool0)))); [|lia].
  simpl. rewrite list_insert_insert_eq. eexists. split; [|split; [|reflexivity]].
  - apply (loop_inv_move _ _ _ 0 Hi). destruct Hi. lia.
  - done.
Qed.

(** The page at the candidate is looked up in the descriptors. *)
Lemma loop_inv_page pool pages c :
  loop_inv pool pages c -> c < num ->
  exists b, pool_descriptors pool !! Z.to_nat c = Some b /\ bpage_ok b /\
    arr (pool_descriptors pool) c = Ok b.
Proof.
  intros [] Hc. destruct li_claimed0 as (Hl & _).
  destruct (lookup_lt_is_Some_2 (pool_descriptors pool) (Z.to_nat c)) as [b Hb];
    [lia |].
  exists b. rewrite Forall_lookup in li_ok0.
  split; [done | split; [by eapply li_ok0 | apply arr_Ok; split; [lia | done]]].
Qed.

(** An unavailable candidate is skipped. *)
Lemma loop_skip fuel pool pages c limit b :
  loop_inv pool pages c -> Z.of_nat (length pages) <> n ->
  limit <> 0 -> c < limit <= num ->
  pool_descriptors pool !! Z.to_nat c = Some b -> page_unavailable now b = true ->
  exists pool', loop_inv pool' pages (c + 1) /\
    pool_descriptors pool' = pool_descriptors pool /\
    loop (S fuel) pool limit pages = loop fuel pool' limit pages.
Proof.
  intros Hi Hne Hl Hc Hb Hu. simpl.
  destruct (Z.eqb_spec (Z.of_nat (length pages)) n); [done |].
  destruct (Z.eqb_spec limit 0); [done |].
  rewrite (loop_inv_core _ _ _ Hi). simpl.
  rewrite (loop_inv_set_core _ _ _ _ Hi). simpl.
  destruct (Z.geb_spec c limit); [lia |].
  assert (arr (pool_descriptors pool) c = Ok b) as ->
    by (apply arr_Ok; split; [destruct Hi; lia | done]).
  simpl. rewrite Hu. eexists. split; [|split; [|reflexivity]]; [|done].
  apply (loop_inv_move _ _ _ (c + 1) Hi). destruct Hi. lia.
Qed.

(** An available candidate is claimed. *)
Lemma loop_take fuel pool pages c limit b :
  loop_inv pool pages c -> Z.of_nat (length pages) <> n ->
  limit <> 0 -> c < limit <= num ->
  pool_descriptors pool !! Z.to_nat c = Some b -> page_unavailable now b = false ->
  exists pool', loop_inv pool' (pages ++ [c]) (c + 1) /\
    pool_descriptors pool' =
      <[Z.to_nat c := claim_page core now lease so b]> (pool_descriptors pool) /\
    loop (S fuel) pool limit pages = loop fuel pool' limit (pages ++ [c]).
Proof.
  intros Hi Hne Hl Hc Hb Hu. simpl.
  destruct (Z.eqb_spec (Z.of_nat (length pages)) n); [done |].
  destruct (Z.eqb_spec limit 0); [done |].
  rewrite (loop_inv_core _ _ _ Hi). simpl.
  rewrite (loop_inv_set_core _ _ _ _ Hi). simpl.
  destruct (Z.geb_spec c limit); [lia |].
  pose proof (li_c _ _ _ Hi). pose proof (li_pages _ _ _ Hi).
  assert (arr (pool_descriptors pool) c = Ok b) as ->
    by (apply arr_Ok; split; [lia | done]).
  simpl. rewrite Hu.
  assert (Z.to_nat c < length (pool_descriptors pool))%nat as Hlt
    by by apply lookup_lt_Some in Hb.
  pose proof (li_ok _ _ _ Hi) as Hoks. rewrite Forall_lookup in Hoks.
  pose proof (page_available now b (Hoks _ _ Hb) Hu) as Hcase.
  assert (zero_pages (<[Z.to_nat c := claim_page core now lease so b]>
    (pool_descriptors pool)) =
    zero_pages (pool_descriptors pool) - Z.b2z (bp_refs b =? 0)) as Hz.
  { unfold zero_pages. rewrite (countb_insert _ _ _ b) by done.
    unfold claim_page. destruct so; simpl; lia. }
  destruct (Z.geb_spec (bp_owner b) 0); simpl;
  (rewrite (proj2 (arr_set_Ok (pool_descriptors pool) c
    (claim_page core now lease so b) _)) by (split; [lia | reflexivity]));
  simpl; (destruct (Z.geb_spec (Z.of_nat (length pages)) HOMA_MAX_BPAGES); [lia |]);
  (eexists; split; [|split; [|reflexivity]]; [|done]);
  destruct Hi; constructor; simpl; try done; rewrite ?length_app; simpl; try lia;
    try (apply claimed_snoc; lia || done); try (rewrite Hz; destruct (Z.eqb_spec (bp_refs b) 0); simpl; lia);
    try (apply Forall_insert; [done | by apply claim_page_ok]).
Qed.

(** The free pages among the candidates [c .. limit - 1]. *)
Definition zero_between (c limit : Z) (ds : list homa_bpage) : Z :=
  zero_pages (take (Z.to_nat (limit - c)) (drop (Z.to_nat c) ds)).

Lemma zero_between_step c limit ds b :
  0 <= c < limit -> ds !! Z.to_nat c = Some b ->
  zero_between c limit ds =
  Z.b2z (bp_refs b =? 0) + zero_between (c + 1) limit ds.
Proof.
  intros Hc Hb. unfold zero_between. rewrite (drop_S _ _ _ Hb).
  replace (Z.to_nat (limit - c)) with (S (Z.to_nat (limit - (c + 1)))) by lia.
  replace (Z.to_nat (c + 1)) with (S (Z.to_nat c)) by lia.
  simpl. unfold zero_pages. by rewrite countb_cons.
Qed.

Lemma zero_between_insert c limit ds x :
  0 <= c -> zero_between (c + 1) limit (<[Z.to_nat c := x]> ds) =
  zero_between (c + 1) limit ds.
Proof.
  intros Hc. unfold zero_between. by rewrite drop_insert_lt by lia.
Qed.

(** A sweep with enough free pages ahead finds all the pages it needs. *)
Lemma loop_sweep limit fuel pool pages c :
  limit <> 0 -> limit <= num -> loop_inv pool pages c -> c <= limit ->
  n - Z.of_nat (length pages) <= zero_between c limit (pool_descriptors pool) ->
  (Z.to_nat (limit - c) < fuel)%nat ->
  exists pool' pages' c', loop fuel pool limit pages = Ok (pool', pages') /\
    loop_inv pool' pages' c' /\ Z.of_nat (length pages') = n.
Proof.
  intros Hl0 Hl. revert pool pages c.
  induction fuel as [|fuel IH]; intros pool pages c Hi Hc Hz Hf; [lia |].
  destruct (decide (Z.of_nat (length pages) = n)) as [He | Hne].
  { rewrite (loop_done _ _ _ _ _ Hi He). eauto 10. }
  pose proof (li_pages _ _ _ Hi). pose proof (li_c _ _ _ Hi).
  destruct (decide (c = limit)) as [-> |].
  { unfold zero_between in Hz. rewrite Z.sub_diag in Hz.
    unfold zero_pages, countb in Hz. simpl in Hz. lia. }
  destruct (loop_inv_page _ _ _ Hi) as (b & Hb & Hbok & _); [lia |].
  rewrite (zero_between_step _ _ _ b) in Hz by (lia || done).
  destruct (page_unavailable now b) eqn:Hu.
  - destruct (loop_skip fuel pool pages c limit b) as (pool' & Hi' & Hd & ->);
      try (done || lia).
    apply (IH pool' pages (c + 1)); [done | lia | | lia]. rewrite Hd.
    destruct (Z.eqb_spec (bp_refs b) 0) as [Hr|]; simpl in Hz; [|lia].
    by rewrite (zero_available now b Hr) in Hu.
  - destruct (loop_take fuel pool pages c limit b) as (pool' & Hi' & Hd & ->);
      try (done || lia).
    apply (IH pool' (pages ++ [c]) (c + 1)); [done | lia | | lia].
    rewrite Hd, zero_between_insert, length_app by lia. simpl.
    destruct (bp_refs b =? 0); simpl in Hz; lia.
Qed.

Context (Hmin : 1 <= num).

(** The limit leaves enough free pages below it. *)
Lemma limit_enough pool pages c :
  loop_inv pool pages c ->
  0 < pool_limit pool <= num /\
  n - Z.of_nat (length pages) <=
    zero_between 0 (pool_limit pool) (pool_descriptors pool).
Proof.
  intros []. destruct li_claimed0 as (Hl & _).
  assert (0 <= Z.shiftr (num - pool_free_bpages pool) 2 \/
    num - pool_free_bpages pool < 0) as Hs by (rewrite Z.shiftr_nonneg; lia).
  assert (zero_pages (pool_descriptors pool) <= num) as Hzn.
  { unfold zero_pages. pose proof (countb_bounds (fun b => bp_refs b =? 0)
      (pool_descriptors pool)). lia. }
  assert (pool_limit pool = num \/
    (num - pool_free_bpages pool + 4 <= pool_limit pool <= num /\
     0 < pool_limit pool)) as Hlim.
  { unfold pool_limit, MIN_EXTRA. rewrite li_num0, Z.gtb_ltb. zb; lia. }
  split; [lia |]. unfold zero_between. rewrite Z.sub_0_r. simpl. rewrite drop_0.
  pose proof (countb_take (fun b => bp_refs b =? 0) (pool_descriptors pool)
    (Z.to_nat (pool_limit pool))) as Ht.
  unfold zero_pages in *. lia.
Qed.

Lemma loop_limit fuel pool pages :
  pool_limit pool <> 0 ->
  loop fuel pool 0 pages = loop fuel pool (pool_limit pool) pages.
Proof.
  intros Hl. destruct fuel; simpl; [done |].
  by destruct (Z.eqb_spec (pool_limit pool) 0).
Qed.

(** The loop terminates with all the pages. *)
Lemma loop_total fuel limit pool pages c :
  limit <> 0 -> limit <= num -> loop_inv pool pages c ->
  (Z.to_nat (limit - c) + Z.to_nat num + 1 < fuel)%nat ->
  exists pool' pages' c', loop fuel pool limit pages = Ok (pool', pages') /\
    loop_inv pool' pages' c' /\ Z.of_nat (length pages') = n.
Proof.
  intros Hl0 Hl. revert pool pages c.
  induction fuel as [|fuel IH]; intros pool pages c Hi Hf; [lia |].
  destruct (decide (Z.of_nat (length pages) = n)) as [He | Hne].
  { rewrite (loop_done _ _ _ _ _ Hi He). eauto 10. }
  pose proof (li_c _ _ _ Hi).
  destruct (decide (limit <= c)).
  { destruct (loop_wrap fuel pool pages c limit) as (pool' & Hi' & _ & ->);
      try done.
    destruct (limit_enough _ _ _ Hi') as [? ?].
    rewrite loop_limit by lia.
    apply (loop_sweep _ _ _ _ 0); done || lia. }
  destruct (loop_inv_page _ _ _ Hi) as (b & Hb & _); [lia |].
  destruct (page_unavailable now b) eqn:Hu.
  - destruct (loop_skip fuel pool pages c limit b) as (pool' & Hi' & _ & ->);
      try (done || lia). apply (IH _ _ (c + 1)); done || lia.
  - destruct (loop_take fuel pool pages c limit b) as (pool' & Hi' & _ & ->);
      try (done || lia). apply (IH _ _ (c + 1)); done || lia.
Qed.
End GetPages.

Lemma arr_lt {A} (l : list A) i x :
  arr l i = Ok x -> 0 <= i < Z.of_nat (length l).
Proof. intros [? H]%arr_Ok. apply lookup_lt_Some in H. lia. Qed.

(** [homa_pool_get_pages] either finds the pages or, when fewer than
    [n] are free, changes nothing. *)
Lemma get_pages_spec core now lease n so pool core0 :
  arr (pool_cores pool) core = Ok core0 ->
  pool_num_bpages pool = Z.of_nat (length (pool_descriptors pool)) ->
  1 <= pool_num_bpages pool ->
  Forall bpage_ok (pool_descriptors pool) ->
  pool_free_bpages pool = zero_pages (pool_descriptors pool) ->
  0 <= next_candidate core0 <= pool_num_bpages pool ->
  0 <= n <= HOMA_MAX_BPAGES ->
  if pool_free_bpages pool <? n
  then homa_pool_get_pages core now lease pool n so = Ok (pool, None)
  else exists pool' pages c,
    homa_pool_get_pages core now lease pool n so = Ok (pool', Some pages) /\
    Z.of_nat (length pages) = n /\
    claimed core now lease so (pool_descriptors pool) pages (pool_descriptors pool') /\
    pool_free_bpages pool' = zero_pages (pool_descriptors pool') /\
    pool_free_bpages pool - n <= pool_free_bpages pool' /\
    0 <= c <= pool_num_bpages pool /\
    pool_cores pool' =
      <[Z.to_nat core := core0 <| next_candidate := c |>]> (pool_cores pool) /\
    Forall bpage_ok (pool_descriptors pool') /\
    pool_region pool' = pool_region pool /\
    pool_num_bpages pool' = pool_num_bpages pool /\
    pool_bpages_needed pool' = pool_bpages_needed pool /\
    pool_num_cores pool' = pool_num_cores pool.
Proof.
  intros Hcore Hnum Hmin Hok Hfree Hnext Hn.
  unfold homa_pool_get_pages. rewrite Hcore. cbn [result_bind].
  apply arr_Ok in Hcore as [Hc0 Hcore].
  destruct (Z.ltb_spec (pool_free_bpages pool) n) as [Hlt | Hge];
    destruct (Z.ltb_spec (pool_free_bpages pool - n) 0); try lia; [done |].
  set (pool1 := pool <| pool_free_bpages ::= fun f => f - n |>).
  assert (loop_inv core now lease n so pool core0 pool1 [] (next_candidate core0)) as Hi.
  { constructor; simpl; try done; try lia; [|apply claimed_nil].
    rewrite list_insert_id; [done |]. rewrite Hcore. by destruct core0. }
  destruct (limit_enough core now lease n so pool core0 Hnum Hmin _ _ _ Hi) as [Hlim _].
  rewrite loop_limit by lia.
  destruct (loop_total core now lease n so pool core0 Hc0 Hcore Hnum ltac:(lia) Hmin
    (get_pages_fuel pool1) (pool_limit pool1) pool1 [] (next_candidate core0))
    as (pool' & pages & c & -> & Hi' & Hlen); [lia | lia | done | |].
  { unfold get_pages_fuel. simpl. lia. }
  destruct Hi'. exists pool', pages, c. split_ands; done || lia.
Qed.

(** ** The invariant of a pool

    A buffer is an offset in the region and a number of bytes; [live] lists
    the buffers that messages hold. *)
Abbreviation buf := (Z * Z)%type.
Definition buf_page (b : buf) : Z := Z.shiftr b.1 HOMA_BPAGE_SHIFT.
Definition in_buf (x : Z) (b : buf) : bool := (b.1 <=? x) && (x <? b.1 + b.2).
(** The end of a buffer within its bpage. *)
Definition buf_end (b : buf) : Z := b.1 - HOMA_BPAGE_SIZE * buf_page b + b.2.
Definition users (live : list buf) (i : Z) : Z :=
  countb (fun b => buf_page b =? i) live.

(** A buffer is a non-empty part of one bpage of the pool. *)
Definition buf_ok (num : Z) (b : buf) : Prop :=
  0 <= b.1 /\ 0 < b.2 /\ buf_end b <= HOMA_BPAGE_SIZE /\ buf_page b < num.

Definition core_ok (num : Z) (c : homa_pool_core) : Prop :=
  0 <= page_hint c < num /\ 0 <= allocated c <= HOMA_BPAGE_SIZE /\
  0 <= next_candidate c <= num.

Record pool_inv (pool : homa_pool) (live : list buf) : Prop := {
  pi_region : pool_region pool <> 0;
  pi_num : pool_num_bpages pool = Z.of_nat (length (pool_descriptors pool));
  pi_range : MIN_POOL_SIZE <= pool_num_bpages pool <= 2 ^ 16;
  (* one reference for each buffer on the page and one for its owner *)
  pi_refs : forall i b, pool_descriptors pool !! i = Some b ->
    bp_refs b = users live (Z.of_nat i) + Z.b2z (0 <=? bp_owner b);
  (* an owned page is the current page of its owner, and its buffers lie in
     the part that the owner has allocated *)
  pi_owner : forall i b, pool_descriptors pool !! i = Some b ->
    0 <= bp_owner b -> exists c,
      pool_cores pool !! Z.to_nat (bp_owner b) = Some c /\
      page_hint c = Z.of_nat i /\
      Forall (fun x => buf_page x = Z.of_nat i -> buf_end x <= allocated c) live;
  pi_free : pool_free_bpages pool = zero_pages (pool_descriptors pool);
  pi_cores : Forall (core_ok (pool_num_bpages pool)) (pool_cores pool);
  pi_live : Forall (buf_ok (pool_num_bpages pool)) live;
  (* no byte of the region belongs to two buffers *)
  pi_disjoint : forall x, countb (in_buf x) live <= 1
}.

#[export] Instance pool_inv_proper :
  Proper ((=) ==> (≡ₚ) ==> iff) pool_inv.
Proof.
  assert (forall pool l l', l ≡ₚ l' -> pool_inv pool l -> pool_inv pool l') as H.
  { intros pool l l' Hp []. constructor; try done.
    - intros i b Hb. unfold users. rewrite <- (countb_perm _ _ _ Hp). by apply pi_refs0.
    - intros i b Hb Ho. destruct (pi_owner0 i b Hb Ho) as (c & ? & ? & ?).
      exists c. split_ands; try done. by rewrite <- Hp.
    - by rewrite <- Hp.
    - intros x. by rewrite <- (countb_perm _ _ _ Hp). }
  intros pool ? <- l l' Hp. split; by apply H.
Qed.

Lemma buf_page_spec b :
  HOMA_BPAGE_SIZE * buf_page b <= b.1 < HOMA_BPAGE_SIZE * (buf_page b + 1).
Proof.
  unfold buf_page, HOMA_BPAGE_SIZE, HOMA_BPAGE_SHIFT.
  rewrite Z.shiftr_div_pow2, Z.shiftl_mul_pow2 by lia.
  pose proof (Z.div_mod b.1 (2 ^ 16)). pose proof (Z.mod_pos_bound b.1 (2 ^ 16)).
  lia.
Qed.

Lemma buf_page_at p o l :
  0 <= o < HOMA_BPAGE_SIZE -> buf_page (o + HOMA_BPAGE_SIZE * p, l) = p.
Proof.
  intros Ho. pose proof (buf_page_spec (o + HOMA_BPAGE_SIZE * p, l)) as H.
  simpl in H. rewrite HOMA_BPAGE_SIZE_eq in *. lia.
Qed.

Lemma users_cons b live i : users (b :: live) i = Z.b2z (buf_page b =? i) + users live i.
Proof. unfold users. by rewrite countb_cons. Qed.

Lemma users_nonneg live i : 0 <= users live i.
Proof. unfold users. pose proof (countb_bounds (fun b => buf_page b =? i) live). lia. Qed.

Lemma users_0 live i : users live i = 0 <-> Forall (fun b => buf_page b <> i) live.
Proof.
  unfold users. rewrite countb_0. apply Forall_iff. intros b. lia.
Qed.

(** Adding a buffer that overlaps no buffer of its page. *)
Lemma disjoint_add num b live :
  buf_ok num b -> Forall (buf_ok num) live ->
  Forall (fun x => buf_page x = buf_page b ->
    x.1 + x.2 <= b.1 \/ b.1 + b.2 <= x.1) live ->
  (forall x, countb (in_buf x) live <= 1) ->
  forall x, countb (in_buf x) (b :: live) <= 1.
Proof.
  intros Hb Hl Hd H x. rewrite countb_cons.
  destruct (in_buf x b) eqn:Ex; simpl; [|specialize (H x); lia].
  assert (countb (in_buf x) live = 0); [|lia].
  apply countb_0. rewrite Forall_forall in *. intros y Hy.
  destruct (in_buf x y) eqn:Ey; [|done].
  specialize (Hd y Hy). specialize (Hl y Hy).
  pose proof (buf_page_spec y). pose proof (buf_page_spec b).
  unfold in_buf, buf_ok, buf_end in *. rewrite HOMA_BPAGE_SIZE_eq in *.
  lia.
Qed.

Lemma pool_inv_bpage_ok pool live :
  pool_inv pool live -> Forall bpage_ok (pool_descriptors pool).
Proof.
  intros []. rewrite Forall_lookup. intros i b Hb.
  pose proof (users_nonneg live (Z.of_nat i)). specialize (pi_refs0 i b Hb).
  unfold bpage_ok. destruct (Z.leb_spec 0 (bp_owner b)); simpl in *; lia.
Qed.

(** The page of a live buffer. *)
Lemma live_page pool b live :
  pool_inv pool (b :: live) ->
  0 <= buf_page b /\ exists bp, pool_descriptors pool !! Z.to_nat (buf_page b) = Some bp /\
    1 <= bp_refs bp.
Proof.
  intros []. apply Forall_cons in pi_live0 as [(Hb & _ & _ & Hlt) _].
  assert (0 <= buf_page b) as H0.
  { unfold buf_page. apply Z.shiftr_nonneg. done. }
  split; [done |].
  destruct (lookup_lt_is_Some_2 (pool_descriptors pool) (Z.to_nat (buf_page b)))
    as [bp Hbp]; [lia |].
  exists bp. split; [done |]. rewrite (pi_refs0 _ _ Hbp), users_cons.
  rewrite Z2Nat.id, Z.eqb_refl by done. pose proof (users_nonneg live (buf_page b)).
  destruct (0 <=? bp_owner bp); simpl; lia.
Qed.

(** The state after dropping the reference of a live buffer. *)
Definition drop_ref (p : Z) (bp : homa_bpage) (pool : homa_pool) : homa_pool :=
  pool <| pool_descriptors ::= insert (Z.to_nat p) (bp <| bp_refs ::= fun r => r - 1 |>) |>
       <| pool_free_bpages ::= fun f => if bp_refs bp - 1 =? 0 then f + 1 else f |>.

Lemma list_insert_cases {A} (l : list A) i j x y :
  <[i := x]> l !! j = Some y ->
  (i = j /\ y = x) \/ (i <> j /\ l !! j = Some y).
Proof. intros [[? [? _]] | ?]%list_lookup_insert_Some; [left | right]; done. Qed.

Lemma pool_inv_drop_ref pool b live bp :
  pool_inv pool (b :: live) ->
  pool_descriptors pool !! Z.to_nat (buf_page b) = Some bp ->
  pool_inv (drop_ref (buf_page b) bp pool) live.
Proof.
  intros Hi Hbp. destruct (live_page _ _ _ Hi) as (H0 & bp' & Hbp' & Href).
  assert (bp' = bp) as -> by congruence. clear Hbp'.
  destruct Hi. constructor; simpl; try done.
  - by rewrite length_insert.
  - intros i x [[<- ->] | [Hne Hx]]%list_insert_cases; simpl.
    + rewrite (pi_refs0 _ _ Hbp), users_cons, Z2Nat.id, Z.eqb_refl by done.
      simpl. lia.
    + rewrite (pi_refs0 _ _ Hx), users_cons.
      destruct (Z.eqb_spec (buf_page b) (Z.of_nat i)); [lia | done].
  - intros i x [[<- ->] | [Hne Hx]]%list_insert_cases; simpl; intros Ho.
    + destruct (pi_owner0 _ _ Hbp Ho) as (c & ? & ? & Hall%Forall_cons). exists c.
      split_ands; [done | done | apply Hall].
    + destruct (pi_owner0 _ _ Hx Ho) as (c & ? & ? & Hall%Forall_cons). exists c.
      split_ands; [done | done | apply Hall].
  - unfold zero_pages. rewrite (countb_insert _ _ _ bp) by done. simpl.
    rewrite pi_free0. unfold zero_pages.
    destruct (Z.eqb_spec (bp_refs bp) 0), (Z.eqb_spec (bp_refs bp - 1) 0); simpl; lia.
  - by apply Forall_cons in pi_live0 as [_ ?].
  - intros x. specialize (pi_disjoint0 x). rewrite countb_cons in pi_disjoint0.
    destruct (in_buf x b); simpl in *; lia.
Qed.

(** Releasing the buffers [bufs] of a message. *)
Lemma release_spec pool bufs offsets live i r :
  pool_inv pool (bufs ++ live) ->
  (forall k b, bufs !! k = Some b -> 0 <= i /\ arr offsets (i + Z.of_nat k) = Ok b.1) ->
  exists pool', release_loop pool r offsets i (length bufs) = Ok (pool', r) /\
    pool_inv pool' live /\ pool_cores pool' = pool_cores pool /\
    pool_num_cores pool' = pool_num_cores pool /\
    pool_free_bpages pool' <= pool_free_bpages pool + Z.of_nat (length bufs).
Proof.
  revert pool i. induction bufs as [|b bufs IH]; simpl; intros pool i Hi Ho.
  { exists pool. split_ands; try done. lia. }
  destruct (Ho O b eq_refl) as [Hi0 Hb]. rewrite Z.add_0_r in Hb. rewrite Hb.
  destruct (live_page _ _ _ Hi) as (H0 & bp & Hbp & Href).
  pose proof (pool_inv_drop_ref _ _ _ _ Hi Hbp) as Hi'.
  assert (buf_page b < u32 (pool_num_bpages pool)) as Hlt.
  { destruct Hi. rewrite u32_id by (unfold is_u32, MIN_POOL_SIZE in *; lia).
    by apply Forall_cons in pi_live0 as [(_ & _ & _ & ?) _]. }
  simpl. change (Z.shiftr b.1 HOMA_BPAGE_SHIFT) with (buf_page b).
  destruct (Z.ltb_spec (buf_page b) (u32 (pool_num_bpages pool))); [|lia].
  rewrite (proj2 (arr_Ok _ _ bp)) by done. simpl.
  rewrite (proj2 (arr_set_Ok (pool_descriptors pool) (buf_page b) _ _)) by
    (split; [apply lookup_lt_Some in Hbp; lia | reflexivity]). simpl.
  destruct (IH (drop_ref (buf_page b) bp pool) (i + 1)) as (pool' & Hr & Hi2 & Hc & Hn & Hf).
  { done. }
  { intros k x Hx. destruct (Ho (S k) x Hx) as [_ Hk]. split; [lia |].
    by replace (i + 1 + Z.of_nat k) with (i + Z.of_nat (S k)) by lia. }
  exists pool'. split_ands; try done.
  - rewrite <- Hr. unfold drop_ref. simpl. by destruct (bp_refs bp - 1 =? 0).
  - unfold drop_ref in Hf. destruct (bp_refs bp - 1 =? 0); simpl in Hf; lia.
Qed.

(** ** Claiming pages preserves the invariant *)

(** A whole bpage as a buffer. *)
Definition full_buf (p : Z) : buf := (HOMA_BPAGE_SIZE * p, HOMA_BPAGE_SIZE).

Lemma full_buf_page p : buf_page (full_buf p) = p.
Proof.
  unfold full_buf. rewrite <- (Z.add_0_l (HOMA_BPAGE_SIZE * p)).
  apply buf_page_at. done.
Qed.

Lemma full_bufs_ok num pages live :
  NoDup pages -> Forall (fun p => 0 <= p < num /\ users live p = 0) pages ->
  Forall (buf_ok num) live -> (forall x, countb (in_buf x) live <= 1) ->
  Forall (buf_ok num) (map full_buf pages ++ live) /\
  (forall x, countb (in_buf x) (map full_buf pages ++ live) <= 1).
Proof.
  intros Hnd Hp Hl Hd. induction Hnd as [|p pages Hn Hnd IH]; simpl; [done |].
  apply Forall_cons in Hp as [[Hp Hu] Hps]. destruct (IH Hps) as [IH1 IH2].
  assert (buf_ok num (full_buf p)) as Hok.
  { unfold buf_ok, buf_end. rewrite full_buf_page. simpl.
    rewrite HOMA_BPAGE_SIZE_eq. lia. }
  split; [by apply Forall_cons |].
  apply (disjoint_add num); try done. apply Forall_app. split.
  - apply Forall_map, Forall_forall. intros q Hq. simpl.
    rewrite !full_buf_page. intros ->. done.
  - apply users_0 in Hu. eapply Forall_impl; [exact Hu |]. intros y Hy.
    by rewrite full_buf_page.
Qed.

Lemma countb_eq_NoDup (pages : list Z) i :
  NoDup pages -> countb (fun p => p =? i) pages = Z.b2z (bool_decide (i ∈ pages)).
Proof.
  induction 1 as [|p pages Hn _ IH]; [done |]. rewrite countb_cons, IH.
  destruct (Z.eqb_spec p i) as [-> |].
  - rewrite (bool_decide_eq_false_2 (i ∈ pages)) by done.
    rewrite bool_decide_eq_true_2 by (apply elem_of_cons; auto). done.
  - rewrite Z.add_0_l. f_equal. apply bool_decide_ext. rewrite elem_of_cons.
    split; [auto | by intros [-> |]].
Qed.

Lemma users_full pages live i :
  NoDup pages ->
  users (map full_buf pages ++ live) i =
  Z.b2z (bool_decide (i ∈ pages)) + users live i.
Proof.
  intros Hnd. rewrite <- countb_eq_NoDup by done.
  unfold users. rewrite countb_app. f_equal. unfold countb.
  clear Hnd. induction pages as [|p pages IH]; simpl; [done |].
  by rewrite full_buf_page, IH.
Qed.

(** A claimed page had no live buffer. *)
Lemma claimed_unused core now lease so pool live pages ds' :
  pool_inv pool live ->
  claimed core now lease so (pool_descriptors pool) pages ds' ->
  Forall (fun p => 0 <= p < pool_num_bpages pool /\ users live p = 0) pages.
Proof.
  intros Hi (_ & _ & Hin & _). rewrite Forall_forall. intros p Hp.
  destruct (Hin p Hp) as (H0 & b & Hb & Hu & _).
  pose proof (pool_inv_bpage_ok _ _ Hi) as Hok. rewrite Forall_lookup in Hok.
  destruct Hi. pose proof (pi_refs0 _ _ Hb) as Hr. rewrite Z2Nat.id in Hr by done.
  pose proof (users_nonneg live p). apply lookup_lt_Some in Hb as Hlt.
  split; [lia |].
  destruct (page_available now b (Hok _ _ Hb) Hu) as [[? ?] | [? ?]];
    destruct (Z.leb_spec 0 (bp_owner b)); simpl in *; lia.
Qed.

Lemma get_pages_inv core now lease n so pool live :
  pool_inv pool live -> 0 <= core < Z.of_nat (length (pool_cores pool)) ->
  0 <= n <= HOMA_MAX_BPAGES ->
  exists core0, arr (pool_cores pool) core = Ok core0 /\
  if pool_free_bpages pool <? n
  then homa_pool_get_pages core now lease pool n so = Ok (pool, None)
  else exists pool' pages c,
    homa_pool_get_pages core now lease pool n so = Ok (pool', Some pages) /\
    Z.of_nat (length pages) = n /\
    claimed core now lease so (pool_descriptors pool) pages (pool_descriptors pool') /\
    pool_free_bpages pool' = zero_pages (pool_descriptors pool') /\
    pool_free_bpages pool - n <= pool_free_bpages pool' /\
    0 <= c <= pool_num_bpages pool /\
    pool_cores pool' =
      <[Z.to_nat core := core0 <| next_candidate := c |>]> (pool_cores pool) /\
    Forall bpage_ok (pool_descriptors pool') /\
    pool_region pool' = pool_region pool /\
    pool_num_bpages pool' = pool_num_bpages pool /\
    pool_bpages_needed pool' = pool_bpages_needed pool /\
    pool_num_cores pool' = pool_num_cores pool.
Proof.
  intros Hi Hc Hn.
  destruct (lookup_lt_is_Some_2 (pool_cores pool) (Z.to_nat core)) as [core0 H0]; [lia |].
  assert (arr (pool_cores pool) core = Ok core0) as Ha
    by (apply arr_Ok; split; [lia | done]).
  exists core0. split; [done |]. pose proof (pool_inv_bpage_ok _ _ Hi). destruct Hi.
  apply get_pages_spec; try done; unfold MIN_POOL_SIZE in *; [lia |].
  rewrite Forall_lookup in pi_cores0. apply (pi_cores0 _ _ H0).
Qed.

(** Changing [next_candidate] of a core keeps its current page. *)
Lemma cores_next_candidate (cores : list homa_pool_core) core core0 c k x :
  cores !! core = Some core0 -> cores !! k = Some x ->
  exists x', <[core := core0 <| next_candidate := c |>]> cores !! k = Some x' /\
    page_hint x' = page_hint x /\ allocated x' = allocated x.
Proof.
  intros H0 Hx. destruct (decide (core = k)) as [<- | Hne].
  - exists (core0 <| next_candidate := c |>).
    rewrite list_lookup_insert_eq by by apply lookup_lt_Some in H0.
    assert (x = core0) as -> by congruence. done.
  - exists x. by rewrite list_lookup_insert_ne.
Qed.

Lemma core_ok_next num core0 c :
  core_ok num core0 -> 0 <= c <= num -> core_ok num (core0 <| next_candidate := c |>).
Proof. unfold core_ok. simpl. lia. Qed.

Lemma claimed_lookup core now lease so ds pages ds' i b' :
  claimed core now lease so ds pages ds' -> ds' !! i = Some b' ->
  ((Z.of_nat i ∈ pages) /\ exists b, ds !! i = Some b /\
     page_unavailable now b = false /\ b' = claim_page core now lease so b) \/
  ((Z.of_nat i ∉ pages) /\ ds !! i = Some b').
Proof.
  intros (_ & _ & Hin & Hout) Hb. destruct (decide (Z.of_nat i ∈ pages)) as [Hi | Hi].
  - left. split; [done |]. destruct (Hin _ Hi) as (_ & b & Hb0 & Hu & Hb').
    rewrite Nat2Z.id in *. exists b. split_ands; try done. congruence.
  - right. split; [done |]. by rewrite <- Hout.
Qed.

(** Whole pages handed to a message. *)
Lemma pool_inv_claim_full core now lease n pool pool' live pages c core0 :
  pool_inv pool live ->
  0 <= core -> pool_cores pool !! Z.to_nat core = Some core0 ->
  Z.of_nat (length pages) = n ->
  claimed core now lease false (pool_descriptors pool) pages (pool_descriptors pool') ->
  pool_free_bpages pool' = zero_pages (pool_descriptors pool') ->
  0 <= c <= pool_num_bpages pool ->
  pool_cores pool' = <[Z.to_nat core := core0 <| next_candidate := c |>]> (pool_cores pool) ->
  pool_region pool' = pool_region pool ->
  pool_num_bpages pool' = pool_num_bpages pool ->
  pool_inv pool' (map full_buf pages ++ live).
Proof.
  intros Hi Hc0 Hcore Hn Hcl Hfree Hc Hcores Hreg Hnum.
  pose proof (claimed_unused _ _ _ _ _ _ _ _ Hi Hcl) as Hun.
  pose proof Hcl as (Hlen & Hnd & _).
  destruct Hi. destruct (full_bufs_ok _ _ _ Hnd Hun pi_live0 pi_disjoint0) as [Hok Hdis].
  constructor; rewrite ?Hreg, ?Hnum, ?Hlen; try done.
  - intros i b' Hb. rewrite users_full by done.
    destruct (claimed_lookup _ _ _ _ _ _ _ _ _ Hcl Hb) as [[Hp (b & Hb0 & _ & ->)] | [Hp Hb0]].
    + rewrite bool_decide_eq_true_2 by done. simpl.
      rewrite Forall_forall in Hun. destruct (Hun _ Hp) as [_ ->]. done.
    + rewrite bool_decide_eq_false_2 by done. simpl. by apply pi_refs0.
  - intros i b' Hb Ho.
    destruct (claimed_lookup _ _ _ _ _ _ _ _ _ Hcl Hb) as [[Hp (b & Hb0 & _ & ->)] | [Hp Hb0]].
    + simpl in Ho. lia.
    + destruct (pi_owner0 _ _ Hb0 Ho) as (x & Hx & Hh & Hall).
      destruct (cores_next_candidate _ _ core0 c _ _ Hcore Hx) as (x' & Hx' & Hh' & Ha').
      exists x'. rewrite Hcores. split_ands; [done | congruence |].
      apply Forall_app. split; [|by rewrite Ha'].
      apply Forall_map, Forall_forall. intros q Hq. simpl.
      rewrite full_buf_page. intros ->. done.
  - rewrite Hcores. apply Forall_insert; [done |].
    rewrite Forall_lookup in pi_cores0. apply core_ok_next; [by eapply pi_cores0 | done].
Qed.

(** The owner of a full page that still has users gives it up. *)
Lemma pool_inv_disown pool live i bp :
  pool_inv pool live -> pool_descriptors pool !! i = Some bp ->
  0 <= bp_owner bp -> bp_refs bp <> 1 ->
  pool_inv (pool <| pool_descriptors ::= insert i
    (bp <| bp_owner := -1 |> <| bp_refs ::= fun r => r - 1 |>) |>) live.
Proof.
  intros Hi Hbp Ho Hr. destruct Hi. constructor; simpl; try done.
  - by rewrite length_insert.
  - intros j x [[<- ->] | [Hne Hx]]%list_insert_cases; simpl; [|by apply pi_refs0].
    pose proof (pi_refs0 _ _ Hbp) as Hp.
    destruct (Z.leb_spec 0 (bp_owner bp)); simpl in *; lia.
  - intros j x [[<- ->] | [Hne Hx]]%list_insert_cases; simpl; [lia |].
    by apply pi_owner0.
  - rewrite pi_free0. unfold zero_pages. rewrite (countb_insert _ _ _ bp) by done.
    simpl. pose proof (pi_refs0 _ _ Hbp) as Hp. pose proof (users_nonneg live (Z.of_nat i)).
    destruct (Z.leb_spec 0 (bp_owner bp)); simpl in Hp; [|lia].
    destruct (Z.eqb_spec (bp_refs bp) 0), (Z.eqb_spec (bp_refs bp - 1) 0); simpl; lia.
Qed.

Lemma part_buf_ok num p a l :
  0 <= p < num -> 0 <= a -> 0 < l -> a + l <= HOMA_BPAGE_SIZE ->
  buf_ok num (a + HOMA_BPAGE_SIZE * p, l) /\
  buf_page (a + HOMA_BPAGE_SIZE * p, l) = p /\
  buf_end (a + HOMA_BPAGE_SIZE * p, l) = a + l.
Proof.
  intros. assert (buf_page (a + HOMA_BPAGE_SIZE * p, l) = p) as Hp
    by (apply buf_page_at; lia).
  unfold buf_ok, buf_end. rewrite Hp. simpl. rewrite HOMA_BPAGE_SIZE_eq in *.
  lia.
Qed.

(** The owner of page [p] allocates [l] bytes at [a] in it. *)
Lemma pool_inv_use pool live core core0 bp a l e :
  let p := page_hint core0 in
  pool_inv pool live ->
  pool_cores pool !! Z.to_nat core = Some core0 ->
  pool_descriptors pool !! Z.to_nat p = Some bp ->
  0 <= core -> bp_owner bp = core ->
  0 <= a -> 0 < l -> a + l <= HOMA_BPAGE_SIZE ->
  Forall (fun x => buf_page x = p -> buf_end x <= a) live ->
  pool_inv
    (pool <| pool_descriptors ::= insert (Z.to_nat p)
               (bp <| bp_expiration := e |> <| bp_refs ::= fun r => r + 1 |>) |>
          <| pool_cores ::= insert (Z.to_nat core) (core0 <| allocated := a + l |>) |>)
    ((a + HOMA_BPAGE_SIZE * p, l) :: live).
Proof.
  intros p Hi Hcore Hbp Hc0 Ho Ha Hl Hal Hbelow.
  destruct Hi. pose proof pi_cores0 as Hcs. rewrite Forall_lookup in Hcs.
  destruct (Hcs _ _ Hcore) as (Hp & Hall & Hnext). fold p in Hp.
  destruct (part_buf_ok _ p a l Hp Ha Hl Hal) as (Hbok & Hbpg & Hbend).
  assert (Z.to_nat core < length (pool_cores pool))%nat by by apply lookup_lt_Some in Hcore.
  constructor; simpl; try done.
  - by rewrite length_insert.
  - intros j x [[<- ->] | [Hne Hx]]%list_insert_cases; simpl; rewrite users_cons, Hbpg.
    + rewrite (pi_refs0 _ _ Hbp), Z2Nat.id, Z.eqb_refl by lia. simpl. lia.
    + rewrite (pi_refs0 _ _ Hx). destruct (Z.eqb_spec p (Z.of_nat j)); [lia | done].
  - intros j x [[<- ->] | [Hne Hx]]%list_insert_cases; simpl; intros Hox.
    + rewrite Ho. eexists. rewrite list_lookup_insert_eq by done.
      split; [reflexivity |]. simpl. rewrite Z2Nat.id by lia. split; [done |].
      apply Forall_cons. rewrite Hbend, Hbpg. split; [lia |].
      eapply Forall_impl; [exact Hbelow |]. simpl. intros y Hy ?. specialize (Hy H0). lia.
    + destruct (pi_owner0 _ _ Hx Hox) as (c & Hc & Hh & Hf).
      destruct (decide (bp_owner x = core)) as [Heq | Hneq].
      { rewrite Heq, Hcore in Hc. injection Hc as <-. fold p in Hh. lia. }
      exists c. rewrite list_lookup_insert_ne by lia. split_ands; try done.
      apply Forall_cons. split; [|done]. rewrite Hbpg. intros ->. lia.
  - rewrite pi_free0. unfold zero_pages. rewrite (countb_insert _ _ _ bp) by done.
    simpl. pose proof (pi_refs0 _ _ Hbp) as Hr.
    pose proof (users_nonneg live (Z.of_nat (Z.to_nat p))).
    destruct (Z.leb_spec 0 (bp_owner bp)); simpl in Hr; [|lia].
    destruct (Z.eqb_spec (bp_refs bp) 0), (Z.eqb_spec (bp_refs bp + 1) 0); simpl; lia.
  - apply Forall_insert; [done |]. unfold core_ok. simpl. split_ands; lia.
  - by apply Forall_cons.
  - apply (disjoint_add (pool_num_bpages pool)); try done.
    eapply Forall_impl; [exact Hbelow |]. simpl. rewrite Hbpg. intros y Hy Hpy.
    specialize (Hy Hpy). unfold buf_end in Hy. rewrite Hpy in Hy. lia.
Qed.

(** A page claimed by a core that owned none becomes its current page. *)
Lemma pool_inv_claim_owned core now lease pool pool' live p c core0 l :
  pool_inv pool live ->
  0 <= core -> pool_cores pool !! Z.to_nat core = Some core0 ->
  (forall i b, pool_descriptors pool !! i = Some b -> bp_owner b <> core) ->
  claimed core now lease true (pool_descriptors pool) [p] (pool_descriptors pool') ->
  pool_free_bpages pool' = zero_pages (pool_descriptors pool') ->
  0 <= c <= pool_num_bpages pool ->
  pool_cores pool' = <[Z.to_nat core := core0 <| next_candidate := c |>]> (pool_cores pool) ->
  pool_region pool' = pool_region pool ->
  pool_num_bpages pool' = pool_num_bpages pool ->
  0 < l <= HOMA_BPAGE_SIZE ->
  pool_inv
    (pool' <| pool_cores ::= insert (Z.to_nat core)
       (core0 <| next_candidate := c |> <| page_hint := p |> <| allocated := l |>) |>)
    ((HOMA_BPAGE_SIZE * p, l) :: live).
Proof.
  intros Hi Hc0 Hcore Hown Hcl Hfree Hc Hcores Hreg Hnum Hl.
  pose proof (claimed_unused _ _ _ _ _ _ _ _ Hi Hcl) as Hun.
  pose proof Hcl as (Hlen & Hnd & _).
  apply Forall_cons in Hun as [[Hp Hu] _].
  destruct Hi. pose proof pi_cores0 as Hcs. rewrite Forall_lookup in Hcs.
  destruct (Hcs _ _ Hcore) as (Hhint & Hall & Hnext).
  destruct (part_buf_ok _ p 0 l Hp) as (Hbok & Hbpg & Hbend); [lia .. |].
  rewrite Z.add_0_l in *.
  assert (Z.to_nat core < length (pool_cores pool))%nat by by apply lookup_lt_Some in Hcore.
  constructor; simpl; rewrite ?Hreg, ?Hnum, ?Hlen; try done.
  - intros i b' Hb. rewrite users_cons, Hbpg.
    destruct (claimed_lookup _ _ _ _ _ _ _ _ _ Hcl Hb)
      as [[Hip%list_elem_of_singleton (b & Hb0 & _ & ->)] | [Hip Hb0]].
    + rewrite Hip, Z.eqb_refl, Hu. simpl. destruct (Z.leb_spec 0 core); [done | lia].
    + rewrite list_elem_of_singleton in Hip. rewrite (pi_refs0 _ _ Hb0).
      destruct (Z.eqb_spec p (Z.of_nat i)); [congruence | done].
  - intros i b' Hb Ho. rewrite Hcores, list_insert_insert_eq.
    destruct (claimed_lookup _ _ _ _ _ _ _ _ _ Hcl Hb)
      as [[Hip%list_elem_of_singleton (b & Hb0 & _ & ->)] | [Hip Hb0]].
    + simpl. eexists. rewrite list_lookup_insert_eq by done.
      split; [reflexivity |]. simpl. rewrite Hip. split; [done |].
      apply Forall_cons. rewrite Hbend. split; [lia |].
      apply users_0 in Hu. eapply Forall_impl; [exact Hu |]. simpl. done.
    + destruct (pi_owner0 _ _ Hb0 Ho) as (x & Hx & Hh & Hf).
      exists x. rewrite list_lookup_insert_ne
        by (specialize (Hown _ _ Hb0); lia).
      split_ands; try done. apply Forall_cons. split; [|done].
      rewrite Hbpg. intros ->. by rewrite list_elem_of_singleton in Hip.
  - rewrite Hcores, list_insert_insert_eq. apply Forall_insert; [done |].
    unfold core_ok. simpl. split_ands; lia.
  - by apply Forall_cons.
  - apply (disjoint_add (pool_num_bpages pool)); try done. rewrite Hbpg.
    apply users_0 in Hu. eapply Forall_impl; [exact Hu |]. simpl. done.
Qed.

(** ** Allocation for a message *)

(** [mi] records the buffers [bufs]. *)
Definition holds (mi : homa_message_in) (bufs : list buf) : Prop :=
  mi_num_bpages mi = Z.of_nat (length bufs) /\
  Z.of_nat (length (mi_bpage_offsets mi)) = HOMA_MAX_BPAGES /\
  forall k b, bufs !! k = Some b -> mi_bpage_offsets mi !! k = Some b.1.

(** The fields that allocation changes. *)
Definition same_message (mi mi' : homa_message_in) : Prop :=
  mi' = mi <| mi_num_bpages := mi_num_bpages mi' |>
           <| mi_bpage_offsets := mi_bpage_offsets mi' |>.

Lemma page_address p a :
  0 <= p < 2 ^ 16 -> 0 <= a < HOMA_BPAGE_SIZE ->
  u32 (a + Z.shiftl p HOMA_BPAGE_SHIFT) = a + HOMA_BPAGE_SIZE * p.
Proof.
  intros Hp Ha. unfold HOMA_BPAGE_SHIFT. rewrite Z.shiftl_mul_pow2 by lia.
  rewrite HOMA_BPAGE_SIZE_eq in *. rewrite u32_id; unfold is_u32; lia.
Qed.

Lemma holds_snoc mi bufs o l offsets :
  holds mi bufs -> Z.of_nat (length bufs) < HOMA_MAX_BPAGES ->
  offsets = <[Z.to_nat (mi_num_bpages mi) := o]> (mi_bpage_offsets mi) ->
  holds (mi <| mi_bpage_offsets := offsets |> <| mi_num_bpages ::= fun n => u32 (n + 1) |>)
    (bufs ++ [(o, l)]).
Proof.
  intros (Hn & Hl & Hk) Hlt ->. unfold holds. simpl. rewrite length_app, length_insert.
  simpl. rewrite HOMA_MAX_BPAGES_eq in *. split_ands.
  - rewrite u32_id; unfold is_u32; lia.
  - done.
  - rewrite Hn, Nat2Z.id. intros k b [Hb | [Hge Hb]]%lookup_app_Some.
    + assert (k < length bufs)%nat by by apply lookup_lt_Some in Hb.
      rewrite list_lookup_insert_ne by lia. auto.
    + apply list_lookup_singleton_Some in Hb as [Heq <-].
      replace k with (length bufs) by lia.
      rewrite list_lookup_insert_eq by lia. done.
Qed.

Lemma holds_arr mi bufs :
  holds mi bufs -> forall k b, bufs !! k = Some b ->
  0 <= 0 /\ arr (mi_bpage_offsets mi) (0 + Z.of_nat k) = Ok b.1.
Proof.
  intros (_ & _ & H) k b Hb. split; [done |]. apply arr_Ok.
  rewrite Z.add_0_l, Nat2Z.id. auto with lia.
Qed.

(** The result of the last step of an allocation: either the message has one
    more buffer, of [l] bytes, or it has none and the pool is exhausted. *)
Definition alloc_result (pool : homa_pool) (live : list buf) (mi : homa_message_in)
    (bufs : list buf) (l : Z) (r : result (homa_pool * homa_message_in * bool)) : Prop :=
  exists pool' mi' ok, r = Ok (pool', mi', ok) /\ same_message mi mi' /\
    length (pool_cores pool') = length (pool_cores pool) /\
    if ok
    then exists o, holds mi' (bufs ++ [(o, l)]) /\
      pool_inv pool' ((o, l) :: bufs ++ live)
    else holds mi' [] /\ pool_inv pool' live /\ pool_free_bpages pool = 0 /\
      pool_free_bpages pool' <= Z.of_nat (length bufs).

Lemma allocate_partial_spec core l pool mi bufs c0 :
  0 <= core -> pool_cores pool !! Z.to_nat core = Some c0 ->
  holds mi bufs -> Z.of_nat (length bufs) < HOMA_MAX_BPAGES ->
  0 <= page_hint c0 < 2 ^ 16 -> 0 <= allocated c0 < HOMA_BPAGE_SIZE ->
  exists mi', allocate_partial core l pool mi =
      Ok (pool <| pool_cores ::= insert (Z.to_nat core)
            (c0 <| allocated ::= fun a => a + l |>) |>, mi') /\
    same_message mi mi' /\
    holds mi' (bufs ++ [(allocated c0 + HOMA_BPAGE_SIZE * page_hint c0, l)]).
Proof.
  intros Hc Hcore Hh Hlt Hp Ha. pose proof Hh as (Hn & Hlen & _).
  apply lookup_lt_Some in Hcore as Hcl. unfold allocate_partial.
  rewrite (proj2 (arr_Ok _ _ c0)) by done. cbn [result_bind].
  rewrite page_address by done.
  rewrite (proj2 (arr_set_Ok (mi_bpage_offsets mi) (mi_num_bpages mi) _ _))
    by (split; [lia | reflexivity]). cbn [result_bind].
  rewrite (proj2 (arr_set_Ok (pool_cores pool) core _ _))
    by (split; [lia | reflexivity]). cbn [result_bind].
  eexists. split; [reflexivity |]. split; [done |]. by apply holds_snoc.
Qed.

Lemma new_page_spec core now lease l pool live mi bufs :
  pool_inv pool (bufs ++ live) -> holds mi bufs ->
  Z.of_nat (length bufs) < HOMA_MAX_BPAGES ->
  0 <= core < Z.of_nat (length (pool_cores pool)) ->
  (forall i b, pool_descriptors pool !! i = Some b -> bp_owner b <> core) ->
  0 < l < HOMA_BPAGE_SIZE ->
  alloc_result pool live mi bufs l (new_page core now lease l pool mi).
Proof.
  intros Hi Hh Hlt Hc Hown Hl. pose proof Hh as (Hn & Hlen & _).
  destruct (get_pages_inv core now lease 1 true pool _ Hi Hc) as (core0 & Hcore & Hget);
    [rewrite HOMA_MAX_BPAGES_eq; lia |].
  pose proof (pi_free _ _ Hi) as Hfree.
  unfold new_page, alloc_result. destruct (Z.ltb_spec (pool_free_bpages pool) 1).
  - rewrite Hget. simpl.
    destruct (release_spec pool bufs (mi_bpage_offsets mi) live 0 0 Hi (holds_arr _ _ Hh))
      as (pool' & Hr & Hi' & Hcs & _ & Hf').
    unfold homa_pool_release_buffers.
    destruct (Z.eqb_spec (pool_region pool) 0); [by destruct (pi_region _ _ Hi) |].
    rewrite Hn, Nat2Z.id, Hr. simpl. eexists _, _, _. split; [reflexivity |].
    split; [done |]. split; [by rewrite Hcs |]. split; [by split_ands |]. split; [done |].
    pose proof (countb_bounds (fun b => bp_refs b =? 0) (pool_descriptors pool)) as Hz.
    fold (zero_pages (pool_descriptors pool)) in Hz. lia.
  - destruct Hget as (pool' & pages & c & -> & Hp1 & Hcl & Hf & _ & Hc' & Hcs & _ & Hreg & Hnum & _).
    destruct pages as [|p [|]]; simpl in Hp1; try lia.
    apply arr_Ok in Hcore as [_ Hcore].
    pose proof (claimed_unused _ _ _ _ _ _ _ _ Hi Hcl) as Hun.
    apply Forall_cons in Hun as [[Hp _] _]. pose proof (pi_range _ _ Hi).
    pose proof (pool_inv_claim_owned core now lease pool pool' _ p c core0 l Hi
      ltac:(lia) Hcore Hown Hcl Hf Hc' Hcs Hreg Hnum ltac:(lia)) as Hi'.
    assert (Z.to_nat core < length (pool_cores pool))%nat by lia.
    cbn [result_bind]. rewrite (proj2 (arr_Ok [p] 0 p)) by done. cbn [result_bind].
    rewrite (proj2 (arr_Ok (pool_cores pool') core (core0 <| next_candidate := c |>)))
      by (split; [lia |]; rewrite Hcs; by apply list_lookup_insert_eq).
    cbn [result_bind].
    rewrite (proj2 (arr_set_Ok (pool_cores pool') core _ _))
      by (split; [rewrite Hcs, length_insert; lia | reflexivity]).
    cbn [result_bind].
    destruct (allocate_partial_spec core l
      (pool' <| pool_cores := <[Z.to_nat core := core0 <| next_candidate := c |>
         <| page_hint := p |> <| allocated := 0 |>]> (pool_cores pool') |>) mi bufs
      (core0 <| next_candidate := c |> <| page_hint := p |> <| allocated := 0 |>))
      as (mi' & -> & Hsame & Hh'); simpl; try done; try lia.
    { apply list_lookup_insert_eq. rewrite Hcs, length_insert. lia. }
    eexists _, mi', true. split; [reflexivity |]. split; [done |].
    split; [simpl; by rewrite !length_insert, Hcs, length_insert |].
    exists (HOMA_BPAGE_SIZE * p). split; [done |].
    simpl. rewrite list_insert_insert_eq. exact Hi'.
Qed.

(** The owner's reference is the only one on a page without users. *)
Lemma owned_unused pool live i b :
  pool_inv pool live -> pool_descriptors pool !! i = Some b ->
  0 <= bp_owner b -> bp_refs b = 1 -> users live (Z.of_nat i) = 0.
Proof.
  intros Hi Hb Ho Hr. pose proof (pi_refs _ _ Hi _ _ Hb) as H.
  destruct (Z.leb_spec 0 (bp_owner b)); simpl in H; lia.
Qed.

(** A core owns at most its current page. *)
Lemma not_owner pool live core core0 :
  pool_inv pool live -> 0 <= core ->
  pool_cores pool !! Z.to_nat core = Some core0 ->
  (forall b, pool_descriptors pool !! Z.to_nat (page_hint core0) = Some b ->
     bp_owner b <> core) ->
  forall i b, pool_descriptors pool !! i = Some b -> bp_owner b <> core.
Proof.
  intros Hi Hc Hcore Hh i b Hb Ho.
  destruct (pi_owner _ _ Hi _ _ Hb ltac:(lia)) as (c & Hx & Hp & _).
  rewrite Ho, Hcore in Hx. injection Hx as <-.
  apply (Hh b); [|done]. by rewrite Hp, Nat2Z.id.
Qed.

(** Allocation from the page that the core owns, at offset [a] in it. *)
Lemma use_current_spec core now lease l pool live mi bufs core0 bp a :
  pool_inv pool (bufs ++ live) -> holds mi bufs ->
  Z.of_nat (length bufs) < HOMA_MAX_BPAGES ->
  0 <= core -> pool_cores pool !! Z.to_nat core = Some core0 ->
  pool_descriptors pool !! Z.to_nat (page_hint core0) = Some bp ->
  bp_owner bp = core -> 0 <= a -> 0 < l -> a + l <= HOMA_BPAGE_SIZE ->
  Forall (fun x => buf_page x = page_hint core0 -> buf_end x <= a) (bufs ++ live) ->
  alloc_result pool live mi bufs l
    (let! descriptors := arr_set (pool_descriptors pool) (page_hint core0)
       (bp <| bp_expiration := lease_end now lease |>
           <| bp_refs ::= fun r => r + 1 |>) in
     let! cores := arr_set (pool_cores pool) core (core0 <| allocated := a |>) in
     let! (pool, mi) := allocate_partial core l
       (pool <| pool_descriptors := descriptors |> <| pool_cores := cores |>) mi in
     Ok (pool, mi, true)).
Proof.
  intros Hi Hh Hlt Hc Hcore Hbp Ho Ha Hl Hal Hbelow.
  pose proof (pool_inv_use pool _ core core0 bp a l (lease_end now lease) Hi Hcore Hbp
    Hc Ho Ha Hl Hal Hbelow) as Hi'.
  pose proof (pi_cores _ _ Hi) as Hcs. rewrite Forall_lookup in Hcs.
  destruct (Hcs _ _ Hcore) as (Hp & _ & _). pose proof (pi_range _ _ Hi).
  apply lookup_lt_Some in Hbp as Hbl. apply lookup_lt_Some in Hcore as Hcl.
  rewrite (proj2 (arr_set_Ok (pool_descriptors pool) (page_hint core0) _ _))
    by (split; [lia | reflexivity]). cbn [result_bind].
  rewrite (proj2 (arr_set_Ok (pool_cores pool) core _ _))
    by (split; [lia | reflexivity]). cbn [result_bind].
  match goal with |- context [allocate_partial core l ?P mi] =>
    destruct (allocate_partial_spec core l P mi bufs (core0 <| allocated := a |>))
      as (mi' & -> & Hsame & Hh'); simpl; try done; try lia end.
  { by apply list_lookup_insert_eq. }
  eexists _, mi', true. split; [reflexivity |]. split; [done |].
  split; [simpl; by rewrite !length_insert |].
  exists (a + HOMA_BPAGE_SIZE * page_hint core0). split; [done |].
  simpl. rewrite list_insert_insert_eq. exact Hi'.
Qed.

Lemma alloc_last_spec core now lease l pool live mi bufs :
  pool_inv pool (bufs ++ live) -> holds mi bufs ->
  Z.of_nat (length bufs) < HOMA_MAX_BPAGES ->
  0 <= core < Z.of_nat (length (pool_cores pool)) ->
  0 < l < HOMA_BPAGE_SIZE ->
  alloc_result pool live mi bufs l (alloc_last core now lease l pool mi).
Proof.
  intros Hi Hh Hlt Hc Hl. unfold alloc_last.
  destruct (lookup_lt_is_Some_2 (pool_cores pool) (Z.to_nat core)) as [core0 Hcore]; [lia |].
  pose proof (pi_cores _ _ Hi) as Hcs. rewrite Forall_lookup in Hcs.
  destruct (Hcs _ _ Hcore) as (Hp & Ha & _). pose proof (pi_num _ _ Hi) as Hnum.
  destruct (lookup_lt_is_Some_2 (pool_descriptors pool) (Z.to_nat (page_hint core0)))
    as [bp Hbp]; [lia |].
  rewrite (proj2 (arr_Ok (pool_cores pool) core core0)) by (split; [lia | done]).
  cbn [result_bind].
  rewrite (proj2 (arr_Ok (pool_descriptors pool) (page_hint core0) bp))
    by (split; [lia | done]).
  cbn [result_bind].
  destruct (Z.eqb_spec (bp_owner bp) core) as [Ho | Ho]; cbn [negb].
  2: { apply new_page_spec; try done.
       eapply not_owner; [done | lia | done |]. intros b. congruence. }
  destruct (pi_owner _ _ Hi _ _ Hbp ltac:(lia)) as (c & Hx & _ & Hbelow).
  rewrite Ho, Hcore in Hx. injection Hx as <-. rewrite Z2Nat.id in Hbelow by lia.
  rewrite Z.gtb_ltb.
  destruct (Z.ltb_spec HOMA_BPAGE_SIZE (allocated core0 + l)).
  - destruct (Z.eqb_spec (bp_refs bp) 1) as [Hr | Hr].
    + pose proof (owned_unused _ _ _ _ Hi Hbp ltac:(lia) Hr) as Hu.
      apply users_0 in Hu. rewrite Z2Nat.id in Hu by lia.
      apply use_current_spec; try done; try lia.
      eapply Forall_impl; [exact Hu |]. simpl. done.
    + pose proof (pool_inv_disown _ _ _ _ Hi Hbp ltac:(lia) Hr) as Hi'.
      apply lookup_lt_Some in Hbp as Hbl.
      rewrite (proj2 (arr_set_Ok (pool_descriptors pool) (page_hint core0) _ _))
        by (split; [lia | reflexivity]). cbn [result_bind].
      refine (new_page_spec core now lease l _ live mi bufs Hi' Hh Hlt Hc _ Hl).
      apply (not_owner _ _ core core0 Hi'); [lia | done |]. simpl. intros b.
      rewrite list_lookup_insert_eq by done. intros [= <-]. simpl. lia.
  - pose proof (use_current_spec core now lease l pool live mi bufs core0 bp
      (allocated core0) Hi Hh Hlt ltac:(lia) Hcore Hbp Ho) as Huse.
    replace (core0 <| allocated := allocated core0 |>) with core0 in Huse
      by by destruct core0.
    apply Huse; lia || done.
Qed.

(** The buffers of a message of [length] bytes: all but the last are whole
    bpages. *)
Definition message_bufs (length_ : Z) (bufs : list buf) : Prop :=
  Z.of_nat (length bufs) =
    Z.shiftr (length_ + HOMA_BPAGE_SIZE - 1) HOMA_BPAGE_SHIFT /\
  forall k b, bufs !! k = Some b ->
    b.2 = Z.min HOMA_BPAGE_SIZE (length_ - HOMA_BPAGE_SIZE * Z.of_nat k).

Lemma length_split n :
  n = HOMA_BPAGE_SIZE * Z.shiftr n HOMA_BPAGE_SHIFT + Z.land n (HOMA_BPAGE_SIZE - 1) /\
  0 <= Z.land n (HOMA_BPAGE_SIZE - 1) < HOMA_BPAGE_SIZE.
Proof.
  change (HOMA_BPAGE_SIZE - 1) with (Z.ones 16). rewrite Z.land_ones by lia.
  unfold HOMA_BPAGE_SHIFT. rewrite Z.shiftr_div_pow2, HOMA_BPAGE_SIZE_eq by lia.
  pose proof (Z.div_mod n (2 ^ 16)). pose proof (Z.mod_pos_bound n (2 ^ 16)). lia.
Qed.

Lemma pages_for n :
  Z.shiftr (n + HOMA_BPAGE_SIZE - 1) HOMA_BPAGE_SHIFT =
  Z.shiftr n HOMA_BPAGE_SHIFT +
    (if Z.land n (HOMA_BPAGE_SIZE - 1) =? 0 then 0 else 1).
Proof.
  pose proof (length_split n) as [H1 H2].
  pose proof (length_split (n + HOMA_BPAGE_SIZE - 1)) as [H3 H4].
  rewrite HOMA_BPAGE_SIZE_eq in *.
  destruct (Z.eqb_spec (Z.land n (65536 - 1)) 0); lia.
Qed.


Lemma store_offsets_spec pages offsets i :
  0 <= i -> i + Z.of_nat (length pages) <= Z.of_nat (length offsets) ->
  exists offsets', store_offsets offsets i pages = Ok offsets' /\
    length offsets' = length offsets /\
    (forall j, (j < Z.to_nat i)%nat -> offsets' !! j = offsets !! j) /\
    (forall k p, pages !! k = Some p ->
       offsets' !! (Z.to_nat i + k)%nat = Some (u32 (Z.shiftl p HOMA_BPAGE_SHIFT))).
Proof.
  revert offsets i. induction pages as [|p pages IH]; simpl; intros offsets i Hi Hl.
  { eexists. split_ands; done. }
  rewrite (proj2 (arr_set_Ok offsets i _ _)) by (split; [lia | reflexivity]).
  cbn [result_bind].
  destruct (IH (<[Z.to_nat i := u32 (Z.shiftl p HOMA_BPAGE_SHIFT)]> offsets) (i + 1))
    as (o & -> & Hlen & Hlow & Hk); [lia | rewrite length_insert; lia |].
  exists o. split_ands; [done | by rewrite Hlen, length_insert | |].
  - intros j Hj. rewrite Hlow by lia. by rewrite list_lookup_insert_ne by lia.
  - intros [|k] q Hq; simpl in Hq.
    + simplify_eq. rewrite Nat.add_0_r, Hlow by lia.
      by rewrite list_lookup_insert_eq by lia.
    + rewrite <- (Hk k q Hq). f_equal. lia.
Qed.

Lemma store_full_holds pages mi :
  Z.of_nat (length pages) <= HOMA_MAX_BPAGES ->
  Z.of_nat (length (mi_bpage_offsets mi)) = HOMA_MAX_BPAGES ->
  Forall (fun p => 0 <= p < 2 ^ 16) pages ->
  exists offsets, store_offsets (mi_bpage_offsets mi) 0 pages = Ok offsets /\
    holds (mi <| mi_bpage_offsets := offsets |>
              <| mi_num_bpages := u32 (Z.of_nat (length pages)) |>)
      (map full_buf pages).
Proof.
  intros Hp Hl Hr.
  destruct (store_offsets_spec pages (mi_bpage_offsets mi) 0)
    as (o & -> & Hlen & _ & Hk); [lia .. |].
  exists o. split; [done |]. unfold holds. simpl. rewrite length_map.
  rewrite HOMA_MAX_BPAGES_eq in *. split_ands.
  - rewrite u32_id; unfold is_u32; lia.
  - by rewrite Hlen.
  - intros k b Hb. apply list_lookup_fmap_Some in Hb as (p & -> & Hpk).
    rewrite Forall_lookup in Hr. specialize (Hr _ _ Hpk).
    specialize (Hk k p Hpk). simpl in Hk. rewrite Hk. f_equal.
    rewrite <- (Z.add_0_l (Z.shiftl p HOMA_BPAGE_SHIFT)).
    rewrite page_address by (rewrite ?HOMA_BPAGE_SIZE_eq; lia). done.
Qed.

Lemma message_bufs_full n pages :
  0 <= n -> Z.land n (HOMA_BPAGE_SIZE - 1) = 0 ->
  Z.of_nat (length pages) = Z.shiftr n HOMA_BPAGE_SHIFT ->
  message_bufs n (map full_buf pages).
Proof.
  intros Hn Hz Hl. pose proof (length_split n) as [Hs _].
  unfold message_bufs. rewrite pages_for, Hz, length_map. split; [simpl; lia |].
  intros k b Hb. apply list_lookup_fmap_Some in Hb as (p & -> & Hpk).
  apply lookup_lt_Some in Hpk. simpl. rewrite HOMA_BPAGE_SIZE_eq in *. lia.
Qed.

Lemma message_bufs_partial n pages o :
  0 <= n -> Z.land n (HOMA_BPAGE_SIZE - 1) <> 0 ->
  Z.of_nat (length pages) = Z.shiftr n HOMA_BPAGE_SHIFT ->
  message_bufs n (map full_buf pages ++ [(o, Z.land n (HOMA_BPAGE_SIZE - 1))]).
Proof.
  intros Hn Hz Hl. pose proof (length_split n) as [Hs Hb].
  unfold message_bufs. rewrite pages_for, length_app, length_map.
  destruct (Z.eqb_spec (Z.land n (HOMA_BPAGE_SIZE - 1)) 0); [done |].
  split; [simpl; lia |]. intros k b [Hk | [Hge Hk]]%lookup_app_Some.
  - apply list_lookup_fmap_Some in Hk as (p & -> & Hpk).
    apply lookup_lt_Some in Hpk. simpl. rewrite HOMA_BPAGE_SIZE_eq in *. lia.
  - rewrite length_map in *. apply list_lookup_singleton_Some in Hk as [Heq <-].
    simpl. rewrite HOMA_BPAGE_SIZE_eq in *. lia.
Qed.

(** What an allocation for a message of [n] bytes achieves: on success the
    message holds buffers of the right sizes, which are added to the live
    buffers; otherwise the pool has fewer free pages than the message needs,
    and the live buffers are as before. *)
Definition reserve_result (pool : homa_pool) (live : list buf)
    (mi : homa_message_in) (r : result (homa_pool * homa_message_in * bool)) : Prop :=
  exists pool' mi' ok, r = Ok (pool', mi', ok) /\ same_message mi mi' /\
    length (pool_cores pool') = length (pool_cores pool) /\
    if ok
    then exists bufs, holds mi' bufs /\ message_bufs (mi_length mi) bufs /\
      pool_inv pool' (bufs ++ live)
    else holds mi' [] /\ pool_inv pool' live /\
      let needed := Z.shiftr (mi_length mi + HOMA_BPAGE_SIZE - 1) HOMA_BPAGE_SHIFT in
      pool_free_bpages pool < needed /\ pool_free_bpages pool' < needed.

(** The part of [pool_reserve] after the whole pages. *)
Lemma reserve_rest_spec core now lease pool0 pool live mi pages :
  let n := mi_length mi in
  0 < n <= HOMA_MAX_MESSAGE_LENGTH ->
  Z.of_nat (length pages) = Z.shiftr n HOMA_BPAGE_SHIFT ->
  pool_inv pool (map full_buf pages ++ live) -> holds mi (map full_buf pages) ->
  0 <= core < Z.of_nat (length (pool_cores pool)) ->
  length (pool_cores pool) = length (pool_cores pool0) ->
  pool_free_bpages pool0 - Z.of_nat (length pages) <= pool_free_bpages pool ->
  reserve_result pool0 live mi
    (if Z.land n (HOMA_BPAGE_SIZE - 1) =? 0 then Ok (pool, mi, true)
     else alloc_last core now lease (Z.land n (HOMA_BPAGE_SIZE - 1)) pool mi).
Proof.
  intros n Hn Hp Hi Hh Hc Hcs Hfree. unfold reserve_result. fold n.
  pose proof (length_split n) as [Hs Hb].
  destruct (Z.eqb_spec (Z.land n (HOMA_BPAGE_SIZE - 1)) 0) as [Hz | Hz].
  { exists pool, mi, true. split_ands; try done; [by destruct mi |].
    exists (map full_buf pages). split_ands; try done. by apply message_bufs_full; lia. }
  unfold HOMA_MAX_MESSAGE_LENGTH in *.
  destruct (alloc_last_spec core now lease (Z.land n (HOMA_BPAGE_SIZE - 1)) pool live
    mi (map full_buf pages)) as (pool' & mi' & ok & -> & Hsame & Hl & Hr); try done.
  { rewrite length_map, HOMA_MAX_BPAGES_eq. rewrite HOMA_BPAGE_SIZE_eq in *. lia. }
  { lia. }
  exists pool', mi', ok. split_ands; [done | done | congruence |]. destruct ok.
  - destruct Hr as (o & Hh' & Hi'). eexists. split_ands; [exact Hh' | |].
    + apply message_bufs_partial; lia.
    + rewrite <- app_assoc. simpl. by rewrite <- Permutation_middle.
  - destruct Hr as (Hz' & Hi' & H0 & Hf'). rewrite length_map in Hf'. cbv zeta.
    rewrite pages_for.
    destruct (Z.eqb_spec (Z.land n (HOMA_BPAGE_SIZE - 1)) 0); split_ands; done || lia.
Qed.

Lemma pool_reserve_spec core now1 now2 lease pool live mi :
  pool_inv pool live ->
  0 <= core < Z.of_nat (length (pool_cores pool)) ->
  0 < mi_length mi <= HOMA_MAX_MESSAGE_LENGTH -> holds mi [] ->
  reserve_result pool live mi (pool_reserve core now1 now2 lease pool mi).
Proof.
  intros Hi Hc Hn Hh. pose proof Hh as (H0 & Hlen & _).
  pose proof (length_split (mi_length mi)) as [Hs Hb].
  unfold pool_reserve, HOMA_MAX_MESSAGE_LENGTH in *.
  set (full := Z.shiftr (mi_length mi) HOMA_BPAGE_SHIFT) in *.
  assert (0 <= full <= 15) as Hfull by (rewrite HOMA_BPAGE_SIZE_eq in *; lia).
  destruct (Z.eqb_spec full 0) as [Hz | Hz]; cbn [negb].
  { assert (mi <| mi_num_bpages := u32 full |> = mi) as ->
      by (rewrite Hz; destruct mi; simpl in *; by rewrite H0).
    apply (reserve_rest_spec core now2 lease pool pool live mi []); try done; simpl; lia. }
  destruct (get_pages_inv core now1 lease full false pool live Hi Hc) as (core0 & Hcore & Hget);
    [rewrite HOMA_MAX_BPAGES_eq; lia |].
  destruct (Z.ltb_spec (pool_free_bpages pool) full).
  { rewrite Hget. simpl. exists pool, mi, false. rewrite pages_for. fold full.
    destruct (_ =? 0); split_ands; try done; try lia; by destruct mi. }
  destruct Hget as (pool' & pages & c & -> & Hp & Hcl & Hf & Hge & Hc' & Hcs & _ & Hreg & Hnum & _).
  apply arr_Ok in Hcore as [_ Hcore]. cbn [result_bind].
  pose proof (pool_inv_claim_full core now1 lease full pool pool' live pages c core0 Hi
    ltac:(lia) Hcore Hp Hcl Hf Hc' Hcs Hreg Hnum) as Hi'.
  destruct (store_full_holds pages mi) as (offsets & -> & Hh').
  { rewrite HOMA_MAX_BPAGES_eq. lia. }
  { done. }
  { pose proof (claimed_unused _ _ _ _ _ _ _ _ Hi Hcl) as Hun. pose proof (pi_range _ _ Hi).
    eapply Forall_impl; [exact Hun |]. simpl. lia. }
  cbn [result_bind].
  destruct (reserve_rest_spec core now2 lease pool pool' live
    (mi <| mi_bpage_offsets := offsets |>
        <| mi_num_bpages := u32 (Z.of_nat (length pages)) |>) pages)
    as (pool2 & mi2 & ok & Hr & Hsame & Hl & Hres); try done.
  { by rewrite Hcs, length_insert. }
  { by rewrite Hcs, length_insert. }
  { lia. }
  exists pool2, mi2, ok. rewrite <- Hp. split_ands; try done.
Qed.

(** ** Initialisation and lookup *)
Lemma pool_init_spec mem1 mem2 ncpus pool region size :
  region <> 0 -> Z.land region (PAGE_SIZE - 1) = 0 ->
  0 <= size <= 2 ^ 32 -> 0 <= ncpus ->
  let '(pool', r) := homa_pool_init mem1 mem2 ncpus pool region size in
  if mem1 && mem2 && (MIN_POOL_SIZE * HOMA_BPAGE_SIZE <=? size)
  then r = 0 /\ pool_inv pool' [] /\ Z.of_nat (length (pool_cores pool')) = ncpus /\
    pool_num_bpages pool' = Z.shiftr size HOMA_BPAGE_SHIFT /\
    pool_bpages_needed pool' = INT_MAX
  else r < 0 /\ pool_region pool' = 0.
Proof.
  intros Hr Hal Hs Hcp. pose proof (length_split size) as [H1 H2].
  unfold homa_pool_init. rewrite Hal. simpl. rewrite HOMA_BPAGE_SIZE_eq in *.
  set (n := Z.shiftr size HOMA_BPAGE_SHIFT) in *.
  rewrite s32_id by (unfold is_int, INT_MAX, INT_MIN; lia). unfold MIN_POOL_SIZE in *.
  destruct (Z.ltb_spec n 2), (Z.leb_spec (2 * 65536) size); try lia;
    rewrite ?andb_false_r, ?andb_true_r; [done |].
  destruct mem1, mem2; simpl; try done.
  split_ands; try done; [|rewrite length_replicate; lia].
  constructor; simpl; unfold MIN_POOL_SIZE; try done; try lia.
  - rewrite length_replicate. lia.
  - intros i b [-> _]%lookup_replicate. done.
  - intros i b [-> _]%lookup_replicate. done.
  - unfold zero_pages. rewrite countb_replicate. simpl. lia.
  - apply Forall_replicate. unfold core_ok. simpl. rewrite HOMA_BPAGE_SIZE_eq. lia.
Qed.

Lemma get_buffer_spec region mi bufs off :
  holds mi bufs -> message_bufs (mi_length mi) bufs ->
  0 <= off < mi_length mi -> mi_length mi <= HOMA_MAX_MESSAGE_LENGTH ->
  let k := Z.shiftr off HOMA_BPAGE_SHIFT in
  let o := Z.land off (HOMA_BPAGE_SIZE - 1) in
  exists b, bufs !! Z.to_nat k = Some b /\ 0 <= o < b.2 /\
    homa_pool_get_buffer region mi off = Ok (region + b.1 + o, b.2 - o).
Proof.
  intros (Hn & Hl & Hk) (Hm & Hsz) Hoff Hmax k o. unfold HOMA_MAX_MESSAGE_LENGTH in *.
  pose proof (length_split off) as [H1 H2]. fold k o in H1, H2.
  pose proof (length_split (mi_length mi)) as [H3 H4]. rewrite pages_for in Hm.
  assert (0 <= k < Z.of_nat (length bufs)) as Hkr.
  { rewrite HOMA_BPAGE_SIZE_eq in *.
    destruct (Z.eqb_spec (Z.land (mi_length mi) (65536 - 1)) 0); lia. }
  destruct (lookup_lt_is_Some_2 bufs (Z.to_nat k)) as [b Hb]; [lia |].
  exists b. pose proof (Hsz _ _ Hb) as Hbl. rewrite Z2Nat.id in Hbl by lia.
  split; [done |].
  assert (u32 k = k) as Hu by (apply u32_id; unfold is_u32; rewrite HOMA_BPAGE_SIZE_eq in *; lia).
  assert (Z.of_nat (length bufs) <= 16) by
    (rewrite HOMA_BPAGE_SIZE_eq in *;
     destruct (Z.eqb_spec (Z.land (mi_length mi) (65536 - 1)) 0); lia).
  assert (u32 (mi_num_bpages mi - 1) = mi_num_bpages mi - 1) as Hu1
    by (apply u32_id; unfold is_u32; lia).
  unfold homa_pool_get_buffer. fold k o. rewrite Hu, Hu1, Hn.
  destruct (Z.geb_spec k (Z.of_nat (length bufs))); [lia |].
  rewrite (proj2 (arr_Ok (mi_bpage_offsets mi) k b.1)) by (split; [lia | by apply Hk]).
  cbn [result_bind]. rewrite HOMA_BPAGE_SIZE_eq in *.
  destruct (Z.eqb_spec (Z.land (mi_length mi) (65536 - 1)) 0);
    (split; [lia |]; f_equal; f_equal;
     destruct (Z.ltb_spec k (Z.of_nat (length bufs) - 1)); lia).
Qed.

(** ** Properties *)

(** C5: allocation of buffer space for a message is correct and never faults.
    For a message of a legal length and a pool in a consistent state, either
    the message receives buffers of the sizes it needs (whole bpages and one
    last part), which are added to the live buffers so that the invariant
    still holds — no byte belongs to two buffers, every reference count is
    exact — or the pool has fewer free bpages than the message needs, the
    message holds nothing and the live buffers are unchanged. *)
Theorem pool_reserve_correct core now1 now2 lease pool live mi :
  pool_inv pool live ->
  0 <= core < Z.of_nat (length (pool_cores pool)) ->
  0 < mi_length mi <= HOMA_MAX_MESSAGE_LENGTH -> holds mi [] ->
  exists pool' mi' ok,
    pool_reserve core now1 now2 lease pool mi = Ok (pool', mi', ok) /\
    same_message mi mi' /\
    length (pool_cores pool') = length (pool_cores pool) /\
    if ok
    then exists bufs, holds mi' bufs /\ message_bufs (mi_length mi) bufs /\
      pool_inv pool' (bufs ++ live)
    else holds mi' [] /\ pool_inv pool' live /\
      let needed := Z.shiftr (mi_length mi + HOMA_BPAGE_SIZE - 1) HOMA_BPAGE_SHIFT in
      pool_free_bpages pool < needed /\ pool_free_bpages pool' < needed.
Proof. apply pool_reserve_spec. Qed.

(** A pool of ten bpages for two cores, and a message of 200000 bytes. *)
Definition example_pool : homa_pool :=
  (homa_pool_init true true 2 (Build_homa_pool 0 0 [] 0 0 [] 0) 4096 (10 * 65536)).1.
Definition example_mi (n : Z) : homa_message_in :=
  Build_homa_message_in n [] 0 [] n 0 0 0 0 0 0 0 (replicate 16 0).

Lemma example_pool_inv : pool_inv example_pool [].
Proof.
  pose proof (pool_init_spec true true 2 (Build_homa_pool 0 0 [] 0 0 [] 0) 4096
    (10 * 65536)) as H. apply H; vm_compute; intuition congruence.
Qed.

Lemma example_mi_holds n : holds (example_mi n) [].
Proof. unfold holds. split_ands; [done | vm_compute; reflexivity | done]. Qed.

Lemma pool_reserve_correct_witness :
  exists pool' mi' ok,
    pool_reserve 1 7 8 10000 example_pool (example_mi 200000) = Ok (pool', mi', ok) /\
    ok = true /\ exists bufs, holds mi' bufs /\ pool_inv pool' (bufs ++ []).
Proof.
  destruct (pool_reserve_correct 1 7 8 10000 example_pool [] (example_mi 200000)
    example_pool_inv) as (pool' & mi' & ok & H & _ & _ & Hr).
  - vm_compute. split; congruence.
  - vm_compute. split; congruence.
  - apply example_mi_holds.
  - exists pool', mi', ok. split; [exact H |].
    destruct ok; [|exfalso; destruct Hr as (_ & _ & Hr & _); vm_compute in Hr; congruence].
    split; [reflexivity |]. destruct Hr as (bufs & Hh & _ & Hi). exists bufs. split; assumption.
Defined.

(** [homa_pool_get_pages] terminates and keeps its promise.  With a
    consistent pool, if at least [n] bpages are free it returns [n] distinct
    pages that no message was using, marks exactly those as claimed, and
    [free_bpages] is again the number of pages without references; otherwise
    it reports failure without changing the pool. *)
Theorem get_pages_correct core now lease n so pool live :
  pool_inv pool live -> 0 <= core < Z.of_nat (length (pool_cores pool)) ->
  0 <= n <= HOMA_MAX_BPAGES ->
  if pool_free_bpages pool <? n
  then homa_pool_get_pages core now lease pool n so = Ok (pool, None)
  else exists pool' pages,
    homa_pool_get_pages core now lease pool n so = Ok (pool', Some pages) /\
    Z.of_nat (length pages) = n /\
    claimed core now lease so (pool_descriptors pool) pages (pool_descriptors pool') /\
    Forall (fun p => users live p = 0) pages /\
    pool_free_bpages pool' = zero_pages (pool_descriptors pool').
Proof.
  intros Hi Hc Hn.
  destruct (get_pages_inv core now lease n so pool live Hi Hc Hn) as (core0 & _ & H).
  destruct (pool_free_bpages pool <? n); [done |].
  destruct H as (pool' & pages & c & Hg & Hl & Hcl & Hf & _).
  exists pool', pages. split_ands; try done.
  eapply Forall_impl; [by eapply claimed_unused |]. simpl. tauto.
Qed.

Lemma get_pages_correct_witness :
  exists pool' pages,
    homa_pool_get_pages 1 7 10000 example_pool 3 false = Ok (pool', Some pages) /\
    Z.of_nat (length pages) = 3.
Proof.
  pose proof (get_pages_correct 1 7 10000 3 false example_pool [] example_pool_inv) as H.
  destruct H as (pool' & pages & H & Hl & _).
  - vm_compute. split; congruence.
  - vm_compute. split; congruence.
  - exists pool', pages. split; assumption.
Defined.

(** Releasing the buffers of a message undoes their allocation: the call
    succeeds, the buffers are no longer live and the invariant holds for the
    remaining ones. *)
Theorem release_buffers_correct pool live mi bufs :
  pool_inv pool (bufs ++ live) -> holds mi bufs ->
  exists pool',
    homa_pool_release_buffers pool (mi_num_bpages mi) (mi_bpage_offsets mi) =
      Ok (pool', 0) /\ pool_inv pool' live.
Proof.
  intros Hi Hh. unfold homa_pool_release_buffers.
  destruct (Z.eqb_spec (pool_region pool) 0); [by destruct (pi_region _ _ Hi) |].
  destruct (release_spec pool bufs (mi_bpage_offsets mi) live 0 0 Hi (holds_arr _ _ Hh))
    as (pool' & Hr & Hi' & _).
  exists pool'. destruct Hh as (-> & _). by rewrite Nat2Z.id.
Qed.

Lemma release_buffers_correct_witness :
  exists pool' mi' pool2,
    pool_reserve 1 7 8 10000 example_pool (example_mi 200000) = Ok (pool', mi', true) /\
    homa_pool_release_buffers pool' (mi_num_bpages mi') (mi_bpage_offsets mi') =
      Ok (pool2, 0) /\ pool_inv pool2 [].
Proof.
  destruct (pool_reserve_spec 1 7 8 10000 example_pool [] (example_mi 200000)
    example_pool_inv) as (pool' & mi' & ok & H & _ & _ & Hr);
    [vm_compute; split; congruence .. | apply example_mi_holds |].
  destruct ok; [|exfalso; destruct Hr as (_ & _ & Hr & _); vm_compute in Hr; congruence].
  destruct Hr as (bufs & Hh & _ & Hi).
  destruct (release_buffers_correct pool' [] mi' bufs Hi Hh) as (pool2 & Hr & Hi2).
  exists pool', mi', pool2. split_ands; assumption.
Defined.

(** [homa_pool_get_buffer] finds the place of every byte of a message
    that holds its buffers: byte [off] belongs at offset [off mod 64K] of the
    buffer number [off / 64K], and the number of bytes reported as available
    is what is left of that buffer. *)
Theorem get_buffer_correct region mi bufs off :
  holds mi bufs -> message_bufs (mi_length mi) bufs ->
  0 <= off < mi_length mi -> mi_length mi <= HOMA_MAX_MESSAGE_LENGTH ->
  let k := Z.shiftr off HOMA_BPAGE_SHIFT in
  let o := Z.land off (HOMA_BPAGE_SIZE - 1) in
  exists b, bufs !! Z.to_nat k = Some b /\ 0 <= o < b.2 /\
    homa_pool_get_buffer region mi off = Ok (region + b.1 + o, b.2 - o).
Proof. apply get_buffer_spec. Qed.

Lemma get_buffer_correct_witness :
  exists pool' mi' b,
    pool_reserve 1 7 8 10000 example_pool (example_mi 200000) = Ok (pool', mi', true) /\
    homa_pool_get_buffer 4096 mi' 70000 = Ok (4096 + b.1 + 4464, b.2 - 4464).
Proof.
  destruct (pool_reserve_spec 1 7 8 10000 example_pool [] (example_mi 200000)
    example_pool_inv) as (pool' & mi' & ok & H & Hs & _ & Hr);
    [vm_compute; split; congruence .. | apply example_mi_holds |].
  destruct ok; [|exfalso; destruct Hr as (_ & _ & Hr & _); vm_compute in Hr; congruence].
  destruct Hr as (bufs & Hh & Hm & _).
  assert (mi_length mi' = 200000) as Hlen by (rewrite Hs; reflexivity).
  destruct (get_buffer_correct 4096 mi' bufs 70000 Hh) as (b & _ & _ & Hb).
  - by rewrite Hlen.
  - rewrite Hlen. lia.
  - rewrite Hlen. vm_compute. congruence.
  - exists pool', mi', b. split; [exact H | exact Hb].
Defined.

(** [homa_pool_init] establishes the invariant with no live buffers when
    the region is page-aligned, holds at least two bpages and at most 4 GB and
    memory is available; in every other case it fails and leaves the pool
    marked as absent. *)
Theorem pool_init_correct mem1 mem2 ncpus pool region size :
  region <> 0 -> Z.land region (PAGE_SIZE - 1) = 0 ->
  0 <= size <= 2 ^ 32 -> 0 <= ncpus ->
  let '(pool', r) := homa_pool_init mem1 mem2 ncpus pool region size in
  if mem1 && mem2 && (MIN_POOL_SIZE * HOMA_BPAGE_SIZE <=? size)
  then r = 0 /\ pool_inv pool' [] /\ Z.of_nat (length (pool_cores pool')) = ncpus /\
    pool_num_bpages pool' = Z.shiftr size HOMA_BPAGE_SHIFT /\
    pool_bpages_needed pool' = INT_MAX
  else r < 0 /\ pool_region pool' = 0.
Proof. apply pool_init_spec. Qed.

Lemma pool_init_correct_witness :
  let '(pool', r) := homa_pool_init true true 4 example_pool 8192 (20 * 65536) in
  r = 0 /\ pool_inv pool' [].
Proof.
  pose proof (pool_init_correct true true 4 example_pool 8192 (20 * 65536)) as H.
  destruct (homa_pool_init true true 4 example_pool 8192 (20 * 65536)) as [pool' r].
  destruct H as (Hr & Hi & _).
  - congruence.
  - vm_compute. reflexivity.
  - vm_compute. split; congruence.
  - vm_compute. congruence.
  - split; assumption.
Defined.

(** Bpage offsets are 32 bits wide, but [homa_pool_init] accepts larger
    regions.  In a pool of 65537 bpages whose first page is in use, a message
    that receives page 65536 gets the offset of page 0: two messages share
    the same buffer space. *)
Theorem pool_offsets_wrap :
  (homa_pool_init true true 1 (Build_homa_pool 0 0 [] 0 0 [] 0) 4096
     (65537 * 65536)).2 = 0 /\
  let pool := Build_homa_pool 4096 65537
    (replicate (Z.to_nat 65536) (Build_homa_bpage 1 (-1) 0) ++ [Build_homa_bpage 0 (-1) 0])
    1 INT_MAX [Build_homa_pool_core 0 0 65536] 1 in
  match pool_reserve 0 7 8 10000 pool (example_mi 65536) with
  | Ok (pool', mi', ok) =>
      ok = true /\ mi_bpage_offsets mi' !! 0%nat = Some (full_buf 0).1 /\
      bp_refs <$> pool_descriptors pool' !! Z.to_nat 65536 = Some 1 /\
      bp_refs <$> pool_descriptors pool' !! 0%nat = Some 1
  | Fault _ => False
  end.
Proof. split; [vm_compute; reflexivity |]. vm_compute. split_ands; reflexivity. Qed.

(** Message lengths are taken from the network without a check against
    [HOMA_MAX_MESSAGE_LENGTH].  For a message of twenty bpages and a pool with
    enough free space [homa_pool_get_pages] writes past the end of the array
    of [HOMA_MAX_BPAGES] page numbers. *)
Theorem pool_reserve_overrun :
  let pool := (homa_pool_init true true 2 (Build_homa_pool 0 0 [] 0 0 [] 0) 4096
                 (32 * 65536)).1 in
  pool_reserve 0 7 8 10000 pool (example_mi (20 * 65536)) = Fault ArrayBounds.
Proof. vm_compute. reflexivity. Qed.
