(* ===== verification/Grant.v ===== *)
(** * Grants for incoming messages (homa_grant.c)

    Which messages receive grants, how much is granted, and the lists of
    grantable RPCs: [homa_grant_*].  The state is the [world]: each peer has
    the list of its RPCs that need grants, [homa] the list of the peers with
    such RPCs.  [homa_grantable_lock] always acquires the lock (there is no
    other thread in the model). *)
From S2P Require Import Prelude Lists Wire Types Control.

(** ** Operations *)
Definition homa_grant_outranks (rpc1 rpc2 : homa_rpc) : bool :=
  (mi_bytes_remaining (rpc_msgin rpc1) <? mi_bytes_remaining (rpc_msgin rpc2)) ||
  ((mi_bytes_remaining (rpc_msgin rpc1) =? mi_bytes_remaining (rpc_msgin rpc2)) &&
   (mi_birth (rpc_msgin rpc1) <? mi_birth (rpc_msgin rpc2))).

Definition upd_msgin (p : ptr) (f : homa_message_in -> homa_message_in) : M unit :=
  upd_rpc p (fun rpc => rpc <| rpc_msgin ::= f |>).

(** Bytes granted but not yet received. *)
Definition incoming_of (mi : homa_message_in) : Z :=
  mi_granted mi - (mi_length mi - mi_bytes_remaining mi).

Definition homa_grant_update_incoming (p : ptr) : M bool :=
  let* rpc := get_rpc p in
  let* h := get_homa in
  let mi := rpc_msgin rpc in
  let incoming := if incoming_of mi <? 0 then 0 else incoming_of mi in
  if negb (incoming =? mi_rec_incoming mi) then
    let delta := incoming - mi_rec_incoming mi in
    let old := h_total_incoming h in
    (upd_homa (fun h => h <| h_total_incoming := old + delta |>) ;;;
     upd_msgin p (fun mi => mi <| mi_rec_incoming := incoming |>) ;;;
     ret ((old >=? h_max_incoming h) && (old + delta <? h_max_incoming h)))
  else ret false.

(** [homa_grant_outranks(rpc, candidate)] for a linked candidate. *)
Definition outranks_rpc (rpc : homa_rpc) (candidate : ptr) : M bool :=
  let* c := get_rpc candidate in ret (homa_grant_outranks rpc c).

(** ... and for the first RPC of a linked peer. *)
Definition outranks_peer (rpc : homa_rpc) (peer : ptr) : M bool :=
  let* pe := get_peer peer in
  let* c := first_entry (peer_grantable_rpcs pe) in
  outranks_rpc rpc c.

(** The two halves of [homa_grant_add_rpc]: the RPC in its peer's list, ... *)
Definition position_rpc (p : ptr) : M unit :=
  let* rpc := get_rpc p in
  let* peer := get_peer (rpc_peer rpc) in
  if bool_decide (p ∉ peer_grantable_rpcs peer) then
    let* time := sched_clock in
    (upd_homa (fun h =>
       let n := h_num_grantable_rpcs h + 1 in
       h <| h_last_grantable_change := time |>
         <| h_num_grantable_rpcs := n |>
         <| h_max_grantable_rpcs ::= fun m => if n >? m then n else m |>) ;;;
     upd_msgin p (fun mi => mi <| mi_birth := time |>) ;;;
     let* rpc := get_rpc p in
     let* l := insertM (outranks_rpc rpc) p (peer_grantable_rpcs peer) in
     upd_peer (rpc_peer rpc) (fun pe => pe <| peer_grantable_rpcs := l |>))
  else
    let '(pre, post) := split_at p (peer_grantable_rpcs peer) in
    let* l := move_upM (outranks_rpc rpc) p (reverse pre) post in
    upd_peer (rpc_peer rpc) (fun pe => pe <| peer_grantable_rpcs := l |>).

(** ... and the peer in Homa's list. *)
Definition position_peer (p : ptr) : M unit :=
  let* rpc := get_rpc p in
  let* h := get_homa in
  if bool_decide (rpc_peer rpc ∉ h_grantable_peers h) then
    let* l := insertM (outranks_peer rpc) (rpc_peer rpc) (h_grantable_peers h) in
    upd_homa (fun h => h <| h_grantable_peers := l |>)
  else
    let '(pre, post) := split_at (rpc_peer rpc) (h_grantable_peers h) in
    let* l := move_upM (outranks_peer rpc) (rpc_peer rpc) (reverse pre) post in
    upd_homa (fun h => h <| h_grantable_peers := l |>).

Definition homa_grant_add_rpc (p : ptr) : M unit :=
  position_rpc p ;;; position_peer p.

Definition homa_grant_remove_rpc (p : ptr) : M unit :=
  let* rpc := get_rpc p in
  let* peer := get_peer (rpc_peer rpc) in
  let* time := sched_clock in
  let l := peer_grantable_rpcs peer in
  if bool_decide (p ∉ l) then ret tt else
  (upd_homa (fun h => h <| h_oldest_rpc ::= fun o =>
     if bool_decide (o = Some p) then None else o |>) ;;;
   let* head := first_entry l in
   let '(pre, post) := split_at p l in
   (upd_peer (rpc_peer rpc) (fun pe => pe <| peer_grantable_rpcs := pre ++ post |>) ;;;
    upd_homa (fun h => h <| h_last_grantable_change := time |>
                         <| h_num_grantable_rpcs ::= fun n => n - 1 |>) ;;;
    if bool_decide (p <> head) then ret tt else
    let* h := get_homa in
    let '(ppre, ppost) := split_at (rpc_peer rpc) (h_grantable_peers h) in
    match pre ++ post with
    | [] => upd_homa (fun h => h <| h_grantable_peers := ppre ++ ppost |>)
    | _ =>
        let* ppost' := move_downM (outranks_peer rpc) (rpc_peer rpc) ppost in
        upd_homa (fun h => h <| h_grantable_peers := ppre ++ ppost' |>)
    end)).

Definition homa_grant_send (p : ptr) : M bool :=
  let* rpc := get_rpc p in
  let* h := get_homa in
  let mi := rpc_msgin rpc in
  let received := mi_length mi - mi_bytes_remaining mi in
  let '(granted, incoming) :=
    if incoming_of mi <? 0 then (received, 0) else (mi_granted mi, incoming_of mi) in
  (upd_msgin p (fun mi => mi <| mi_granted := granted |>) ;;;
   let increment := h_grant_window h - incoming in
   let increment := if increment >? mi_length mi - granted
                    then mi_length mi - granted else increment in
   let available := h_max_incoming h - h_total_incoming h + mi_rec_incoming mi - incoming in
   let increment := if increment >? available then available else increment in
   if increment <=? 0 then ret false
   else if rpc_silent_ticks rpc >? 1 then ret false
   else
     (upd_msgin p (fun mi => mi <| mi_granted ::= fun g => g + increment |>
                                <| mi_resend_all := 0 |>) ;;;
      homa_xmit_control GRANT (fun c =>
        PGrant (Build_homa_grant_hdr c (u32 (granted + increment))
                  (mi_priority mi) (mi_resend_all mi))) p ;;;
      ret true)).

(** ** Choosing the RPCs to grant to *)

(** The index loop of [homa_grant_pick_rpcs] on the reversed array: the
    position where [rpc] belongs. *)
Fixpoint find_pos (rpc : homa_rpc) (rrpcs : list ptr) : M nat :=
  match rrpcs with
  | [] => ret O
  | c :: rrpcs' =>
      let* b := outranks_rpc rpc c in
      if b then find_pos rpc rrpcs' else ret (length rrpcs)
  end.

(** The inner loop: the RPCs of one peer.  [rpcs] holds the RPCs selected so
    far, [from_peer] counts those of this peer. *)
Fixpoint pick_from_peer (max_rpcs per_peer : Z) (l : list ptr)
    (rpcs : list ptr) (from_peer : Z) : M (list ptr * Z) :=
  match l with
  | [] => ret (rpcs, from_peer)
  | p :: l' =>
      let* rpc := get_rpc p in
      let* pos := find_pos rpc (reverse rpcs) in
      if Z.of_nat pos >=? max_rpcs then ret (rpcs, from_peer) else
      let rpcs' := take (Z.to_nat max_rpcs) (take pos rpcs ++ p :: drop pos rpcs) in
      if Z.of_nat (length rpcs') >? HOMA_MAX_GRANTS then raise ArrayBounds
      else if from_peer + 1 >=? per_peer then ret (rpcs', from_peer + 1)
      else pick_from_peer max_rpcs per_peer l' rpcs' (from_peer + 1)
  end.

Fixpoint pick_peers (max_rpcs per_peer : Z) (peers : list ptr) (rpcs : list ptr)
    : M (list ptr) :=
  match peers with
  | [] => ret rpcs
  | pe :: peers' =>
      let* peer := get_peer pe in
      let* (rpcs, from_peer) :=
        pick_from_peer max_rpcs per_peer (peer_grantable_rpcs peer) rpcs 0 in
      if from_peer =? 0 then ret rpcs else pick_peers max_rpcs per_peer peers' rpcs
  end.

Definition homa_grant_pick_rpcs (max_rpcs : Z) : M (list ptr) :=
  let* h := get_homa in
  pick_peers max_rpcs (h_max_rpcs_per_peer h) (h_grantable_peers h) [].

(** ** Recalculation *)

(** The entry [i] of an array of pointers that must not be NULL. *)
Definition ptr_at (l : list (option ptr)) (i : Z) : M ptr :=
  let* o := lift (arr l i) in
  match o with Some p => ret p | None => raise BadPointer end.

(** "Clear the existing grant calculation." *)
Fixpoint clear_ranks (i : Z) (n : nat) : M unit :=
  match n with
  | O => ret tt
  | S n =>
      let* h := get_homa in
      let* p := ptr_at (h_active_rpcs h) i in
      (upd_msgin p (fun mi => mi <| mi_rank := -1 |>) ;;; clear_ranks (i + 1) n)
  end.

(** The array that [homa_grant_pick_rpcs] filled. *)
Definition store_active (l : list ptr) (old : list (option ptr)) : list (option ptr) :=
  map Some l ++ drop (length l) old.

(** The priority of the RPC of rank [i] when [active] RPCs are granted to. *)
Definition grant_priority (max_sched_prio active i : Z) : Z :=
  let extra_levels := max_sched_prio + 1 - active in
  let prio := max_sched_prio - i in
  let prio := if extra_levels >=? 0 then prio - extra_levels else prio in
  if prio <? 0 then 0 else prio.

(** The loop that initialises the selected RPCs, from rank [i]. *)
Fixpoint set_ranks (active i : Z) (l : list ptr) : M unit :=
  match l with
  | [] => ret tt
  | p :: l' =>
      let* rpc := get_rpc p in
      let* h := get_homa in
      let* remaining := lift (arr_set (h_active_remaining h) i
        (mi_bytes_remaining (rpc_msgin rpc))) in
      (upd_rpc p (fun rpc => rpc <| rpc_grants_in_progress ::= fun g => g + 1 |>
         <| rpc_msgin ::= fun mi => mi <| mi_rank := i |>
              <| mi_priority := grant_priority (h_max_sched_prio h) active i |> |>) ;;;
       upd_homa (fun h => h <| h_active_remaining := remaining |>) ;;;
       set_ranks active (i + 1) l')
  end.

(** The body of the loop that sends grants to the selected RPCs; the result
    is what it adds to [try_again]. *)
Definition grant_one (p : ptr) : M Z :=
  homa_grant_send p ;;;
  let* again := homa_grant_update_incoming p in
  let* rpc := get_rpc p in
  let* removed :=
    if mi_granted (rpc_msgin rpc) >=? mi_length (rpc_msgin rpc)
    then (homa_grant_remove_rpc p ;;; ret 1) else ret 0 in
  (upd_rpc p (fun rpc => rpc <| rpc_grants_in_progress ::= fun g => g - 1 |>) ;;;
   ret (Z.b2z again + removed)).

Fixpoint send_grants (l : list ptr) : M Z :=
  match l with
  | [] => ret 0
  | p :: l' =>
      let* again := grant_one p in
      let* rest := send_grants l' in
      ret (again + rest)
  end.

(** The first half of an iteration of [homa_grant_recalc]: the old ranks are
    cleared and the array of active RPCs is filled. *)
Definition select_rpcs : M (list ptr) :=
  upd_homa (fun h => h <| h_grant_recalc_count ::= fun c => c + 1 |>) ;;;
  let* h := get_homa in
  (clear_ranks 0 (Z.to_nat (h_num_active_rpcs h)) ;;;
   let* l := homa_grant_pick_rpcs (h_max_overcommit h) in
   (upd_homa (fun h => h <| h_active_rpcs ::= store_active l |>
                         <| h_num_active_rpcs := Z.of_nat (length l) |>) ;;;
    ret l)).

(** The maximum window of an RPC. *)
Definition grant_window_of (h : homa) (active : Z) : Z :=
  if negb (h_window_param h =? 0) then h_window_param h
  else Z.quot (h_max_incoming h) (active + 1).

(** One iteration of the loop of [homa_grant_recalc]. *)
Definition recalc_round : M Z :=
  let* l := select_rpcs in
  let active := Z.of_nat (length l) in
  (set_ranks active 0 l ;;;
   upd_homa (fun h => h <| h_grant_window := grant_window_of h active |>) ;;;
   send_grants l).

Fixpoint recalc_loop (fuel : nat) : M unit :=
  match fuel with
  | O => raise OutOfFuel
  | S fuel =>
      let* try_again := recalc_round in
      if try_again =? 0 then ret tt else recalc_loop fuel
  end.

(** Rounds that always suffice (see [recalc_total]): each extra round removes
    an RPC from the grantable lists or corrects a stale [rec_incoming]. *)
Definition recalc_fuel (h : homa) : nat :=
  Z.to_nat (2 * h_num_grantable_rpcs h + 1).

Definition homa_grant_recalc : M unit :=
  let* h := get_homa in recalc_loop (recalc_fuel h).

(** The cases of [homa_grant_check_rpc]: a message that is not in the
    grantable lists yet, ... *)
Definition check_new (p : ptr) (mi : homa_message_in) : M unit :=
  homa_grant_update_incoming p ;;;
  homa_grant_add_rpc p ;;;
  let* h := get_homa in
  let* recalc :=
    if h_num_active_rpcs h <? h_max_overcommit h then ret true
    else let* r := lift (arr (h_active_remaining h) (h_max_overcommit h - 1)) in
         ret (mi_bytes_remaining mi <? r) in
  if recalc then homa_grant_recalc else ret tt.

(** ... one that is not active, ... *)
Definition check_inactive (p : ptr) (mi : homa_message_in) : M unit :=
  homa_grant_update_incoming p ;;;
  let* h := get_homa in
  let* r := lift (arr (h_active_remaining h) (h_max_overcommit h - 1)) in
  if mi_bytes_remaining mi <? r then homa_grant_recalc else ret tt.

(** ... and an active one. *)
Definition check_active (p : ptr) (mi : homa_message_in) : M unit :=
  let rank := mi_rank mi in
  let* h := get_homa in
  let* remaining := lift (arr_set (h_active_remaining h) rank (mi_bytes_remaining mi)) in
  (upd_homa (fun h => h <| h_active_remaining := remaining |>) ;;;
   let* bump :=
     if rank >? 0 then
       let* r := lift (arr remaining (rank - 1)) in
       ret (mi_bytes_remaining mi <? r)
     else ret false in
   if bump then (homa_grant_update_incoming p ;;; homa_grant_recalc)
   else
     (homa_grant_send p ;;;
      let* recalc := homa_grant_update_incoming p in
      let* rpc := get_rpc p in
      if mi_granted (rpc_msgin rpc) >=? mi_length (rpc_msgin rpc)
      then (homa_grant_remove_rpc p ;;; homa_grant_recalc)
      else if recalc then homa_grant_recalc else ret tt)).

Definition homa_grant_check_rpc (p : ptr) : M unit :=
  let* rpc := get_rpc p in
  let mi := rpc_msgin rpc in
  if (mi_length mi <? 0) || bool_decide (rpc_state_ rpc = RPC_DEAD) ||
     (mi_num_bpages mi <=? 0)
  then ret tt
  else if mi_granted mi >=? mi_length mi
  then (homa_grant_update_incoming p ;;; ret tt)
  else
  let* peer := get_peer (rpc_peer rpc) in
  if bool_decide (p ∉ peer_grantable_rpcs peer) then check_new p mi
  else if mi_rank mi <? 0 then check_inactive p mi
  else check_active p mi.

(** The scan of [homa_grant_find_oldest] over the RPCs of one peer. *)
Fixpoint oldest_of (max_incoming : Z) (l : list ptr) (acc : option ptr * Z)
    : M (option ptr * Z) :=
  match l with
  | [] => ret acc
  | p :: l' =>
      let* rpc := get_rpc p in
      let mi := rpc_msgin rpc in
      if mi_birth mi >=? acc.2 then oldest_of max_incoming l' acc
      else if incoming_of mi >=? max_incoming then oldest_of max_incoming l' acc
      else oldest_of max_incoming l' (Some p, mi_birth mi)
  end.

Fixpoint oldest_in_peers (max_incoming : Z) (peers : list ptr)
    (acc : option ptr * Z) : M (option ptr * Z) :=
  match peers with
  | [] => ret acc
  | pe :: peers' =>
      let* peer := get_peer pe in
      let* acc := oldest_of max_incoming (peer_grantable_rpcs peer) acc in
      oldest_in_peers max_incoming peers' acc
  end.

Definition homa_grant_find_oldest : M unit :=
  let* h := get_homa in
  let max_incoming := h_grant_window h + 2 * h_fifo_grant_increment h in
  let* acc := oldest_in_peers max_incoming (h_grantable_peers h) (None, 2 ^ 64 - 1) in
  upd_homa (fun h => h <| h_oldest_rpc := acc.1 |>).

(** [homa_grant_free_rpc]: the RPC leaves the grantable lists, ... *)
Definition free_unlink (p : ptr) : M unit :=
  let* rpc := get_rpc p in
  let* peer := get_peer (rpc_peer rpc) in
  if bool_decide (p ∈ peer_grantable_rpcs peer) then
    homa_grant_remove_rpc p ;;;
    if mi_rank (rpc_msgin rpc) >=? 0 then homa_grant_recalc else ret tt
  else ret tt.

(** ... and its bytes are no longer counted as incoming. *)
Definition homa_grant_free_rpc (p : ptr) : M unit :=
  free_unlink p ;;;
  let* rpc := get_rpc p in
  if negb (mi_rec_incoming (rpc_msgin rpc) =? 0) then
    upd_homa (fun h => h <| h_total_incoming ::= fun t =>
      t - mi_rec_incoming (rpc_msgin rpc) |>)
  else ret tt.

(** ** Symbolic execution *)
(** The message after [homa_grant_update_incoming]. *)
Definition recorded (mi : homa_message_in) : homa_message_in :=
  mi <| mi_rec_incoming := Z.max 0 (incoming_of mi) |>.

Definition set_msgin (mi : homa_message_in) (rpc : homa_rpc) : homa_rpc :=
  rpc <| rpc_msgin := mi |>.

Lemma update_incoming_exec p w rpc :
  w_rpcs w !! p = Some rpc ->
  let mi := rpc_msgin rpc in
  let total := h_total_incoming (w_homa w) in
  let total' := total + Z.max 0 (incoming_of mi) - mi_rec_incoming mi in
  let max := h_max_incoming (w_homa w) in
  homa_grant_update_incoming p w =
    Ok ((max <=? total) && (total' <? max),
        w <| w_homa ::= fun h => h <| h_total_incoming := total' |> |>
          <| w_rpcs ::= insert p (set_msgin (recorded mi) rpc) |>).
Proof.
  intros Hp mi total total' max. unfold homa_grant_update_incoming. do 2 step. fold mi.
  assert ((if incoming_of mi <? 0 then 0 else incoming_of mi) = Z.max 0 (incoming_of mi))
    as -> by (zb; lia).
  destruct (Z.eqb_spec (Z.max 0 (incoming_of mi)) (mi_rec_incoming mi)) as [He | He].
  - replace total' with total by lia. cbn [negb]. unfold ret. f_equal. f_equal; [lia |].
    unfold recorded. rewrite He. unfold total, mi, set_msgin.
    destruct w as [h rpcs peers socks pt rel sent clock tick stack]. simpl in *.
    f_equal; [by destruct h |]. rewrite insert_id; [done |].
    rewrite Hp. f_equal. by destruct rpc as [????????? []].
  - cbn [negb]. step. unfold upd_msgin. erewrite bind_eq by (apply upd_rpc_eq; exact Hp).
    unfold ret. rewrite Z.geb_leb. f_equal. f_equal; [f_equal; f_equal; lia |].
    unfold total', total, recorded, set_msgin. simpl.
    by rewrite Z.add_sub_assoc.
Qed.

(** Bytes of the message received, and the grant corrected for a sender that
    transmitted more than it was granted. *)
Definition received_bytes (mi : homa_message_in) : Z :=
  mi_length mi - mi_bytes_remaining mi.
Definition base_grant (mi : homa_message_in) : Z :=
  Z.max (mi_granted mi) (received_bytes mi).

(** How many bytes [homa_grant_send] grants (0: no grant is sent). *)
Definition grant_amount (h : homa) (rpc : homa_rpc) : Z :=
  let mi := rpc_msgin rpc in
  let incoming := Z.max 0 (incoming_of mi) in
  let increment := Z.min (Z.min (h_grant_window h - incoming) (mi_length mi - base_grant mi))
    (h_max_incoming h - h_total_incoming h + mi_rec_incoming mi - incoming) in
  if (increment <=? 0) || (rpc_silent_ticks rpc >? 1) then 0 else increment.

Lemma grant_amount_spec h rpc :
  let mi := rpc_msgin rpc in
  let inflight := Z.max 0 (incoming_of mi) in
  let amount := grant_amount h rpc in
  0 <= amount /\
  (amount <> 0 <-> inflight < h_grant_window h /\ base_grant mi < mi_length mi /\
     h_total_incoming h - mi_rec_incoming mi + inflight < h_max_incoming h /\
     rpc_silent_ticks rpc <= 1) /\
  (amount <> 0 -> amount <= h_grant_window h - inflight /\ amount <= mi_length mi - base_grant mi /\
     amount <= h_max_incoming h - h_total_incoming h + mi_rec_incoming mi - inflight).
Proof.
  cbv zeta. unfold grant_amount.
  destruct (Z.leb_spec (Z.min (Z.min (h_grant_window h - Z.max 0 (incoming_of (rpc_msgin rpc)))
    (mi_length (rpc_msgin rpc) - base_grant (rpc_msgin rpc)))
    (h_max_incoming h - h_total_incoming h + mi_rec_incoming (rpc_msgin rpc) -
     Z.max 0 (incoming_of (rpc_msgin rpc)))) 0),
    (Z.gtb_spec (rpc_silent_ticks rpc) 1); cbn [orb]; lia.
Qed.

(** The message after [homa_grant_send]. *)
Definition granted_msg (amount : Z) (mi : homa_message_in) : homa_message_in :=
  if amount =? 0 then mi <| mi_granted := base_grant mi |>
  else mi <| mi_granted := base_grant mi + amount |> <| mi_resend_all := 0 |>.

(** The GRANT packet it sends. *)
Definition grant_packet (w : world) (sk : homa_sock) (rpc : homa_rpc) (amount : Z)
    : homa_packet :=
  let s := w_stack w in
  let mi := rpc_msgin rpc in
  PGrant (Build_homa_grant_hdr
    (Build_homa_common_hdr (sk_port sk) (rpc_dport rpc) (sequence s)
       (ack1 s) (ack2 s) GRANT (doff s) HOMA_TCP_FLAGS (window s)
       (checksum s) HOMA_TCP_URGENT (rpc_id rpc))
    (u32 (base_grant mi + amount)) (mi_priority mi) (mi_resend_all mi)).

Lemma homa_grant_send_exec p w rpc sk :
  w_rpcs w !! p = Some rpc -> w_socks w !! rpc_hsk rpc = Some sk ->
  let amount := grant_amount (w_homa w) rpc in
  homa_grant_send p w =
    Ok (negb (amount =? 0),
        w <| w_rpcs ::= insert p (set_msgin (granted_msg amount (rpc_msgin rpc)) rpc) |>
          <| w_sent ::= fun l => if amount =? 0 then l
               else l ++ [(rpc_peer rpc, grant_packet w sk rpc amount)] |>).
Proof.
  intros Hp Hs amount. unfold homa_grant_send. do 2 step.
  set (mi := rpc_msgin rpc).
  assert ((if incoming_of mi <? 0 then (mi_length mi - mi_bytes_remaining mi, 0)
    else (mi_granted mi, incoming_of mi)) = (base_grant mi, Z.max 0 (incoming_of mi))) as ->.
  { unfold base_grant, received_bytes, incoming_of. zb; f_equal; lia. }
  unfold upd_msgin. step. cbv zeta.
  set (inc := Z.max 0 (incoming_of mi)).
  assert (forall a b, (if a >? b then b else a) = Z.min a b) as Hmin by (intros; zb; lia).
  rewrite !Hmin.
  unfold amount, grant_amount in *. fold mi inc.
  set (a := Z.min _ _).
  destruct (Z.leb_spec a 0) as [Ha | Ha]; cbn [orb].
  { done. }
  destruct (rpc_silent_ticks rpc >? 1).
  { done. }
  unfold granted_msg. destruct (Z.eqb_spec a 0); [lia |]. cbn [negb].
  erewrite bind_eq by (apply upd_rpc_eq; simpl; apply lookup_insert_eq).
  unfold homa_xmit_control, bind, get_rpc, get_sock. simpl.
  rewrite lookup_insert_eq. simpl. rewrite Hs. simpl. f_equal. f_equal.
  unfold grant_packet. fold mi. simpl. rewrite !insert_insert_eq. done.
Qed.
