(* ===== verification/GrantLists.v ===== *)
(** * The grantable lists (homa_grant.c)

    The structure of [homa->grantable_peers] and [peer->grantable_rpcs]: the
    invariant [lists_ok], its preservation by [homa_grant_add_rpc] and
    [homa_grant_remove_rpc], and the order of the lists. *)
From S2P Require Import Prelude Lists Wire Types Control Grant.

(** ** Invariant

    [gp] is [homa->grantable_peers]. *)
Record lists_ok (gp : list ptr) (peers : gmap ptr homa_peer)
    (rpcs : gmap ptr homa_rpc) : Prop := {
  lo_nodup : NoDup gp;
  (* a peer is linked exactly when it has grantable RPCs *)
  lo_linked : forall pe, pe ∈ gp <->
    exists peer, peers !! pe = Some peer /\ peer_grantable_rpcs peer <> [];
  (* a peer's list holds RPCs of that peer, each once *)
  lo_rpcs : forall pe peer, peers !! pe = Some peer ->
    NoDup (peer_grantable_rpcs peer) /\
    forall p, p ∈ peer_grantable_rpcs peer ->
      exists rpc, rpcs !! p = Some rpc /\ rpc_peer rpc = pe
}.

Definition rpcs_of (peers : gmap ptr homa_peer) (pe : ptr) : list ptr :=
  match peers !! pe with Some peer => peer_grantable_rpcs peer | None => [] end.

(** All the grantable RPCs. *)
Definition grantable (gp : list ptr) (peers : gmap ptr homa_peer) : list ptr :=
  gp ≫= rpcs_of peers.

Definition world_lists_ok (w : world) : Prop :=
  lists_ok (h_grantable_peers (w_homa w)) (w_peers w) (w_rpcs w) /\
  h_num_grantable_rpcs (w_homa w) =
    Z.of_nat (length (grantable (h_grantable_peers (w_homa w)) (w_peers w))).

(** The invariant only reads the peers of the RPCs. *)
Lemma lists_ok_rpcs gp peers rpcs rpcs' :
  lists_ok gp peers rpcs ->
  (forall p rpc, rpcs !! p = Some rpc ->
     exists rpc', rpcs' !! p = Some rpc' /\ rpc_peer rpc' = rpc_peer rpc) ->
  lists_ok gp peers rpcs'.
Proof.
  intros [] H. constructor; try done. intros pe peer Hpe.
  destruct (lo_rpcs0 pe peer Hpe) as [Hnd Hp]. split; [done |]. intros p Hin.
  destruct (Hp p Hin) as (rpc & Hr & Hpeer). destruct (H p rpc Hr) as (rpc' & ? & ?).
  exists rpc'. split; [done | congruence].
Qed.

Lemma lists_ok_insert_rpc gp peers rpcs p rpc rpc' :
  lists_ok gp peers rpcs -> rpcs !! p = Some rpc -> rpc_peer rpc' = rpc_peer rpc ->
  lists_ok gp peers (<[p := rpc']> rpcs).
Proof.
  intros Hok Hp Hpe. eapply lists_ok_rpcs; [done |]. intros q x Hx.
  destruct (decide (q = p)) as [-> |].
  - exists rpc'. rewrite lookup_insert_eq. split; [done | congruence].
  - exists x. by rewrite lookup_insert_ne.
Qed.

(** ** The tests used when lists are scanned *)
Definition rpc_test (w : world) (r : homa_rpc) (q : ptr) : bool :=
  match w_rpcs w !! q with Some c => homa_grant_outranks r c | None => false end.

Definition peer_test (w : world) (r : homa_rpc) (q : ptr) : bool :=
  match rpcs_of (w_peers w) q with [] => false | c :: _ => rpc_test w r c end.

Lemma rpc_test_pure w r l :
  (forall q, q ∈ l -> is_Some (w_rpcs w !! q)) ->
  pure_test w (outranks_rpc r) (rpc_test w r) l.
Proof.
  intros H q Hq. destruct (H q Hq) as [c Hc]. unfold outranks_rpc, rpc_test.
  rewrite Hc. by rewrite (bind_eq _ _ _ _ _ (get_rpc_eq _ _ _ Hc)).
Qed.

Lemma peer_test_pure w r l :
  (forall q, q ∈ l -> exists c cs, rpcs_of (w_peers w) q = c :: cs /\
     is_Some (w_rpcs w !! c)) ->
  pure_test w (outranks_peer r) (peer_test w r) l.
Proof.
  intros H q Hq. destruct (H q Hq) as (c & cs & Hc & Hl).
  unfold outranks_peer, peer_test. rewrite Hc. unfold rpcs_of in Hc.
  destruct (w_peers w !! q) as [pe|] eqn:Hpe; [|done].
  rewrite (bind_eq _ _ _ _ _ (get_peer_eq _ _ _ Hpe)), Hc.
  unfold first_entry. rewrite (bind_eq _ _ _ _ _ eq_refl).
  apply (rpc_test_pure w r [c]); [|set_solver].
  by intros ? ->%list_elem_of_singleton.
Qed.

(** The first RPC of a linked peer is live. *)
Lemma linked_head gp peers rpcs q :
  lists_ok gp peers rpcs -> q ∈ gp ->
  exists c cs, rpcs_of peers q = c :: cs /\ is_Some (rpcs !! c).
Proof.
  intros [_ Hl Hr] Hq. destruct (proj1 (Hl q) Hq) as (pe & Hpe & Hne).
  destruct (Hr q pe Hpe) as [_ Hp]. unfold rpcs_of. rewrite Hpe.
  destruct (peer_grantable_rpcs pe) as [|c cs]; [done |].
  exists c, cs. split; [done |]. destruct (Hp c) as (rpc & ? & _); [set_solver | eauto].
Qed.

(** The RPCs of a live peer's list are live. *)
Lemma lists_ok_live gp peers rpcs pe peer :
  lists_ok gp peers rpcs -> peers !! pe = Some peer ->
  forall q, q ∈ peer_grantable_rpcs peer -> is_Some (rpcs !! q).
Proof.
  intros [_ _ H] Hpe q Hq. destruct (H pe peer Hpe) as [_ Hp].
  destruct (Hp q Hq) as (rpc & ? & _). eauto.
Qed.

(** ** Permutations of the grantable RPCs *)
Lemma rpcs_of_insert peers pe peer q :
  rpcs_of (<[pe := peer]> peers) q =
  if bool_decide (q = pe) then peer_grantable_rpcs peer else rpcs_of peers q.
Proof.
  unfold rpcs_of. case_bool_decide as H; subst.
  - by rewrite lookup_insert_eq.
  - by rewrite lookup_insert_ne.
Qed.

Lemma grantable_insert_ne gp peers pe peer :
  pe ∉ gp -> grantable gp (<[pe := peer]> peers) = grantable gp peers.
Proof.
  intros H. unfold grantable. induction gp as [|q gp IH]; simpl; [done |].
  rewrite rpcs_of_insert, bool_decide_eq_false_2 by set_solver. f_equal.
  apply IH. set_solver.
Qed.

Lemma grantable_perm gp gp' peers :
  gp ≡ₚ gp' -> grantable gp peers ≡ₚ grantable gp' peers.
Proof. intros H. unfold grantable. by rewrite H. Qed.

Lemma grantable_cons q gp peers :
  grantable (q :: gp) peers = rpcs_of peers q ++ grantable gp peers.
Proof. done. Qed.

(** Changing the list of one linked peer. *)
Lemma grantable_update gp peers pe peer l :
  NoDup gp -> pe ∈ gp -> peers !! pe = Some peer ->
  exists rest,
    grantable gp peers ≡ₚ peer_grantable_rpcs peer ++ rest /\
    grantable gp (<[pe := peer <| peer_grantable_rpcs := l |>]> peers) ≡ₚ l ++ rest.
Proof.
  intros Hnd Hin Hpe. apply list_elem_of_split in Hin as (l1 & l2 & ->).
  exists (grantable (l1 ++ l2) peers).
  apply NoDup_app in Hnd as (_ & Hd & Hnd2). apply NoDup_cons in Hnd2 as [Hn2 _].
  assert (pe ∉ l1 ++ l2) as Hn.
  { rewrite not_elem_of_app. split; [|done]. intros H. apply (Hd _ H). set_solver. }
  split.
  - rewrite (grantable_perm _ (pe :: l1 ++ l2)) by (by rewrite Permutation_middle).
    rewrite grantable_cons. unfold rpcs_of. by rewrite Hpe.
  - rewrite (grantable_perm _ (pe :: l1 ++ l2)) by (by rewrite Permutation_middle).
    rewrite grantable_cons, rpcs_of_insert, bool_decide_eq_true_2 by done.
    by rewrite grantable_insert_ne.
Qed.

(** Replacing the list of one peer, and Homa's list accordingly. *)
Lemma lists_ok_set_list gp gp' peers rpcs pe peer l :
  lists_ok gp peers rpcs -> peers !! pe = Some peer -> NoDup l ->
  (forall p, p ∈ l -> exists rpc, rpcs !! p = Some rpc /\ rpc_peer rpc = pe) ->
  NoDup gp' ->
  (forall q, q ∈ gp' <-> (q = pe /\ l <> []) \/ (q <> pe /\ q ∈ gp)) ->
  lists_ok gp' (<[pe := peer <| peer_grantable_rpcs := l |>]> peers) rpcs.
Proof.
  intros [Hnd Hl Hr] Hpe Hl' Hp Hnd' Hgp. constructor; [done | |].
  - intros q. rewrite Hgp. destruct (decide (q = pe)) as [-> | Hne].
    + split.
      * intros [[_ H] | [H _]]; [|done]. eexists. rewrite lookup_insert_eq. by split.
      * intros (x & Hx & H). rewrite lookup_insert_eq in Hx. simplify_eq. by left.
    + rewrite lookup_insert_ne by done. rewrite <- Hl. naive_solver.
  - intros q x Hx. destruct (decide (q = pe)) as [-> | Hne].
    + rewrite lookup_insert_eq in Hx. simplify_eq. simpl. done.
    + rewrite lookup_insert_ne in Hx by done. by apply Hr.
Qed.

(** ** [homa_grant_remove_rpc] *)

(** The state after unlinking: [l] is the peer's list, [gp] Homa's. *)
Definition unlinked (p : ptr) (pe : ptr) (peer : homa_peer) (l gp : list ptr)
    (w : world) : world :=
  w <| w_tick ::= S |>
    <| w_homa ::= fun h => h
         <| h_oldest_rpc ::= fun o => if bool_decide (o = Some p) then None else o |>
         <| h_last_grantable_change := w_clock w (w_tick w) |>
         <| h_num_grantable_rpcs ::= fun n => n - 1 |>
         <| h_grantable_peers := gp |> |>
    <| w_peers ::= insert pe (peer <| peer_grantable_rpcs := l |>) |>.

Lemma remove_rpc_exec p w rpc peer pre post :
  let gp := h_grantable_peers (w_homa w) in
  lists_ok gp (w_peers w) (w_rpcs w) ->
  w_rpcs w !! p = Some rpc -> w_peers w !! rpc_peer rpc = Some peer ->
  p ∈ peer_grantable_rpcs peer ->
  split_at p (peer_grantable_rpcs peer) = (pre, post) ->
  exists gp',
    homa_grant_remove_rpc p w = Ok (tt, unlinked p (rpc_peer rpc) peer (pre ++ post) gp' w) /\
    (if bool_decide (pre ++ post = []) then rpc_peer rpc :: gp' ≡ₚ gp else gp' ≡ₚ gp).
Proof.
  intros gp Hok Hp Hpe Hin Hsp.
  destruct (split_at_spec _ _ _ _ Hin Hsp) as [Hl Hnpre].
  assert (rpc_peer rpc ∈ gp) as Hgp.
  { apply (lo_linked _ _ _ Hok). exists peer. split; [done |].
    intros H. rewrite H in Hin. by apply elem_of_nil in Hin. }
  unfold homa_grant_remove_rpc. do 3 step.
  rewrite bool_decide_eq_false_2 by (by intros []). step.
  destruct (peer_grantable_rpcs peer) as [|head rest] eqn:Hlist;
    [by apply elem_of_nil in Hin |].
  unfold first_entry. step. rewrite Hsp.
  erewrite bind_eq by (apply upd_peer_eq; exact Hpe). step.
  destruct (decide (p = head)) as [<- | Hne].
  2: { rewrite bool_decide_eq_true_2 by done. exists gp. split; [reflexivity |].
       rewrite bool_decide_eq_false_2; [done |].
       destruct pre; simplify_eq/=. done. }
  rewrite bool_decide_eq_false_2 by tauto. step. simpl.
  fold gp. destruct (split_at (rpc_peer rpc) gp) as [ppre ppost] eqn:Hsp2.
  destruct (split_at_spec _ _ _ _ Hgp Hsp2) as [Hgpe Hnppre].
  destruct pre as [|? ?]; [|simplify_eq/=; set_solver].
  injection Hl as Hl. subst rest.
  destruct post as [|c post].
  { exists (ppre ++ ppost). split; [reflexivity |].
    rewrite bool_decide_eq_true_2 by done. rewrite Hgpe. by rewrite Permutation_middle. }
  cbn [app].
  match goal with |- context [bind (move_downM _ _ _) _ ?W] => set (w1 := W) end.
  assert (lists_ok gp (w_peers w1) (w_rpcs w1)) as Hok1.
  { apply (lists_ok_set_list gp); try done; [| | apply Hok |].
    - destruct (lo_rpcs _ _ _ Hok _ _ Hpe) as [Hnd _]. rewrite Hlist in Hnd.
      by apply NoDup_cons in Hnd as [_ ?].
    - destruct (lo_rpcs _ _ _ Hok _ _ Hpe) as [_ Hrp]. rewrite Hlist in Hrp.
      intros q Hq. apply Hrp. set_solver.
    - intros q. destruct (decide (q = rpc_peer rpc)) as [-> |]; naive_solver. }
  erewrite bind_eq; [|apply (move_downM_pure w1); apply peer_test_pure;
    intros q Hq; apply (linked_head gp _ _ _ Hok1); rewrite Hgpe; set_solver].
  eexists. split; [reflexivity |]. rewrite bool_decide_eq_false_2 by done.
  rewrite move_down_perm, Hgpe. done.
Qed.

Lemma remove_rpc_spec p w rpc peer :
  world_lists_ok w ->
  w_rpcs w !! p = Some rpc -> w_peers w !! rpc_peer rpc = Some peer ->
  p ∈ peer_grantable_rpcs peer ->
  exists l gp,
    let w' := unlinked p (rpc_peer rpc) peer l gp w in
    homa_grant_remove_rpc p w = Ok (tt, w') /\ world_lists_ok w' /\
    p :: l ≡ₚ peer_grantable_rpcs peer /\
    p :: grantable (h_grantable_peers (w_homa w')) (w_peers w') ≡ₚ
      grantable (h_grantable_peers (w_homa w)) (w_peers w).
Proof.
  intros [Hok Hnum] Hp Hpe Hin.
  destruct (split_at p (peer_grantable_rpcs peer)) as [pre post] eqn:Hsp.
  destruct (split_at_spec _ _ _ _ Hin Hsp) as [Hl _].
  destruct (remove_rpc_exec p w rpc peer pre post Hok Hp Hpe Hin Hsp) as (gp & Hex & Hgp).
  exists (pre ++ post), gp. cbv zeta.
  set (gp0 := h_grantable_peers (w_homa w)) in *.
  destruct (lo_rpcs _ _ _ Hok _ _ Hpe) as [Hnd Hrp].
  assert (p :: pre ++ post ≡ₚ peer_grantable_rpcs peer) as Hpl
    by (rewrite Hl; by rewrite Permutation_middle).
  assert (rpc_peer rpc ∈ gp0) as Hpin.
  { apply (lo_linked _ _ _ Hok). exists peer. split; [done |]. rewrite Hl. by destruct pre. }
  destruct (grantable_update gp0 _ _ _ (pre ++ post) (lo_nodup _ _ _ Hok) Hpin Hpe)
    as (rest & Hg1 & Hg2).
  assert (p :: grantable gp (<[rpc_peer rpc := peer <| peer_grantable_rpcs := pre ++ post |>]>
    (w_peers w)) ≡ₚ grantable gp0 (w_peers w)) as Hg.
  { rewrite Hg1, <- Hpl. simpl. f_equiv. rewrite <- Hg2.
    case_bool_decide as He; [|by apply grantable_perm].
    rewrite <- (grantable_perm _ _ _ Hgp), grantable_cons, rpcs_of_insert.
    rewrite bool_decide_eq_true_2 by done. simpl. by rewrite He. }
  split_ands; try done. split; simpl.
  - rewrite <- Hpl in Hnd. apply NoDup_cons in Hnd as [Hnp Hnd].
    apply (lists_ok_set_list gp0); try done.
    + intros q Hq. apply Hrp. rewrite <- Hpl. set_solver.
    + pose proof (lo_nodup _ _ _ Hok) as Hn. case_bool_decide.
      * rewrite <- Hgp in Hn. by apply NoDup_cons in Hn as [_ ?].
      * by rewrite Hgp.
    + intros q. case_bool_decide as He.
      * pose proof (lo_nodup _ _ _ Hok) as Hn. rewrite <- Hgp in Hn |- *.
        apply NoDup_cons in Hn as [Hn _]. rewrite elem_of_cons. naive_solver.
      * rewrite Hgp. destruct (decide (q = rpc_peer rpc)) as [-> |]; naive_solver.
  - apply Permutation_length in Hg. simpl in Hg. fold gp0 in Hnum. lia.
Qed.

(** ** [homa_grant_add_rpc] *)

(** The RPC as it is linked: a newly linked one gets its birth time. *)
Definition born (time : Z) (rpc : homa_rpc) : homa_rpc :=
  rpc <| rpc_msgin ::= fun mi => mi <| mi_birth := time |> |>.

(** The state after an RPC was linked for the first time. *)
Definition linked (p : ptr) (rpc : homa_rpc) (peer : homa_peer) (l gp : list ptr)
    (w : world) : world :=
  let time := w_clock w (w_tick w) in
  w <| w_tick ::= S |>
    <| w_homa ::= fun h => h
         <| h_last_grantable_change := time |>
         <| h_num_grantable_rpcs ::= fun n => n + 1 |>
         <| h_max_grantable_rpcs ::= fun m =>
              if h_num_grantable_rpcs h + 1 >? m then h_num_grantable_rpcs h + 1 else m |>
         <| h_grantable_peers := gp |> |>
    <| w_rpcs ::= insert p (born time rpc) |>
    <| w_peers ::= insert (rpc_peer rpc) (peer <| peer_grantable_rpcs := l |>) |>.

(** Linking a new RPC into its peer's list. *)
Lemma position_rpc_new p w rpc peer :
  lists_ok (h_grantable_peers (w_homa w)) (w_peers w) (w_rpcs w) ->
  w_rpcs w !! p = Some rpc -> w_peers w !! rpc_peer rpc = Some peer ->
  p ∉ peer_grantable_rpcs peer ->
  let rpc' := born (w_clock w (w_tick w)) rpc in
  let l := insert_before (rpc_test w rpc') p (peer_grantable_rpcs peer) in
  position_rpc p w =
    Ok (tt, linked p rpc peer l (h_grantable_peers (w_homa w)) w).
Proof.
  intros Hok Hp Hpe Hn rpc' l.
  unfold position_rpc. do 2 step. rewrite bool_decide_eq_true_2 by done.
  step. step. unfold upd_msgin. erewrite bind_eq by (apply upd_rpc_eq; exact Hp).
  erewrite bind_eq by (apply get_rpc_eq; simpl; apply lookup_insert_eq).
  match goal with |- bind (insertM _ _ _) _ ?W = _ => set (w2 := W) end.
  erewrite bind_eq; [|apply (insertM_pure w2), rpc_test_pure; simpl].
  2: { intros q Hq. destruct (decide (q = p)) as [-> |]; [done |].
       rewrite lookup_insert_ne by done. by eapply lists_ok_live. }
  match goal with |- context [rpc_test w2 ?r] => change r with rpc' end.
  assert (insert_before (rpc_test w2 rpc') p (peer_grantable_rpcs peer) = l) as ->.
  { apply insert_before_ext. intros c Hc. unfold rpc_test. simpl.
    rewrite lookup_insert_ne; [done |]. intros ->. done. }
  by erewrite upd_peer_eq by exact Hpe.
Qed.

(** Homa's list after [position_peer]. *)
Definition positioned (w : world) (rpc : homa_rpc) (gp : list ptr) : list ptr :=
  if bool_decide (rpc_peer rpc ∉ gp)
  then insert_before (peer_test w rpc) (rpc_peer rpc) gp
  else let '(pre, post) := split_at (rpc_peer rpc) gp in
       move_up (peer_test w rpc) (rpc_peer rpc) (reverse pre) post.

Lemma positioned_perm w rpc gp :
  positioned w rpc gp ≡ₚ
  if bool_decide (rpc_peer rpc ∉ gp) then rpc_peer rpc :: gp else gp.
Proof.
  unfold positioned. case_bool_decide as Hin; [apply insert_before_perm |].
  destruct (split_at (rpc_peer rpc) gp) as [pre post] eqn:Hsp.
  destruct (split_at_spec _ _ _ _ Hin Hsp) as [-> _].
  rewrite move_up_perm, reverse_Permutation. by rewrite Permutation_middle.
Qed.

Lemma position_peer_exec p w rpc :
  let gp := h_grantable_peers (w_homa w) in
  w_rpcs w !! p = Some rpc ->
  (forall q, q ∈ gp -> q <> rpc_peer rpc ->
    exists c cs, rpcs_of (w_peers w) q = c :: cs /\ is_Some (w_rpcs w !! c)) ->
  position_peer p w =
    Ok (tt, w <| w_homa ::= fun h => h <| h_grantable_peers := positioned w rpc gp |> |>).
Proof.
  intros gp Hp Hpure. unfold position_peer. step. step. fold gp. unfold positioned.
  case_bool_decide as Hin.
  - assert (pure_test w (outranks_peer rpc) (peer_test w rpc) gp) as Ht.
    { apply peer_test_pure. intros q Hq. apply Hpure; [done |]. intros ->. done. }
    by rewrite (bind_eq _ _ _ _ _ (insertM_pure _ _ _ (rpc_peer rpc) _ Ht)).
  - destruct (split_at (rpc_peer rpc) gp) as [pre post] eqn:Hsp.
    destruct (split_at_spec _ _ _ _ Hin Hsp) as [Hgp Hnpre].
    assert (pure_test w (outranks_peer rpc) (peer_test w rpc) (reverse pre)) as Ht.
    { apply peer_test_pure. intros q Hq. rewrite elem_of_reverse in Hq.
      apply Hpure; [rewrite Hgp; set_solver |]. intros ->. done. }
    by rewrite (bind_eq _ _ _ _ _ (move_upM_pure _ _ _ (rpc_peer rpc) _ post Ht)).
Qed.

(** The lists stay well-formed. *)
Lemma linked_ok p w rpc peer l gp :
  world_lists_ok w ->
  w_rpcs w !! p = Some rpc -> w_peers w !! rpc_peer rpc = Some peer ->
  p ∉ peer_grantable_rpcs peer -> l ≡ₚ p :: peer_grantable_rpcs peer ->
  (gp ≡ₚ if bool_decide (rpc_peer rpc ∉ h_grantable_peers (w_homa w))
         then rpc_peer rpc :: h_grantable_peers (w_homa w)
         else h_grantable_peers (w_homa w)) ->
  let w' := linked p rpc peer l gp w in
  world_lists_ok w' /\
  grantable gp (w_peers w') ≡ₚ p :: grantable (h_grantable_peers (w_homa w)) (w_peers w).
Proof.
  intros [Hok Hnum] Hp Hpe Hn Hl Hgp w'. set (gp0 := h_grantable_peers (w_homa w)) in *.
  destruct (lo_rpcs _ _ _ Hok _ _ Hpe) as [Hnd Hrp].
  pose proof (lo_nodup _ _ _ Hok) as Hgn. pose proof (lo_linked _ _ _ Hok (rpc_peer rpc)) as Hlk.
  assert (grantable gp (w_peers w') ≡ₚ p :: grantable gp0 (w_peers w)) as Hg.
  { rewrite (grantable_perm _ _ _ Hgp). simpl. case_bool_decide as Hin.
    - rewrite grantable_cons, rpcs_of_insert, bool_decide_eq_true_2 by done. simpl.
      rewrite grantable_insert_ne by done. rewrite Hl.
      destruct (peer_grantable_rpcs peer) eqn:E; [done |].
      exfalso. apply Hin, Hlk. exists peer. rewrite E. done.
    - destruct (grantable_update gp0 _ _ _ l Hgn Hin Hpe) as (rest & Hg1 & Hg2).
      by rewrite Hg2, Hg1, Hl. }
  split; [|done]. split; simpl.
  - apply (lists_ok_insert_rpc _ _ _ _ rpc); [|done | done].
    apply (lists_ok_set_list gp0); try done.
    + rewrite Hl. by constructor.
    + intros q Hq. rewrite Hl in Hq. apply elem_of_cons in Hq as [-> | Hq]; [eauto | auto].
    + rewrite Hgp. case_bool_decide; [by constructor | done].
    + intros q. rewrite Hgp. assert (l <> []) as Hle.
      { intros ->. by apply Permutation_nil_cons in Hl. }
      case_bool_decide; destruct (decide (q = rpc_peer rpc)) as [-> |];
        rewrite ?elem_of_cons; naive_solver.
  - apply Permutation_length in Hg. simpl in Hg. lia.
Qed.

Lemma add_rpc_new p w rpc peer :
  world_lists_ok w ->
  w_rpcs w !! p = Some rpc -> w_peers w !! rpc_peer rpc = Some peer ->
  p ∉ peer_grantable_rpcs peer ->
  let rpc' := born (w_clock w (w_tick w)) rpc in
  let l := insert_before (rpc_test w rpc') p (peer_grantable_rpcs peer) in
  let gp0 := h_grantable_peers (w_homa w) in
  let gp := positioned (linked p rpc peer l gp0 w) rpc' gp0 in
  let w' := linked p rpc peer l gp w in
  homa_grant_add_rpc p w = Ok (tt, w') /\ world_lists_ok w' /\
  grantable gp (w_peers w') ≡ₚ p :: grantable gp0 (w_peers w).
Proof.
  intros Hok Hp Hpe Hn rpc' l gp0 gp w'. split.
  - unfold homa_grant_add_rpc.
    erewrite bind_eq by exact (position_rpc_new p w rpc peer (proj1 Hok) Hp Hpe Hn).
    fold rpc'. fold l.
    rewrite (position_peer_exec _ _ rpc') by
      (apply lookup_insert_eq ||
       (intros q Hq Hne; destruct (linked_head _ _ _ _ (proj1 Hok) Hq) as (c & cs & Hc & Hl);
        exists c, cs; simpl; rewrite rpcs_of_insert, bool_decide_eq_false_2 by done;
        split; [done |]; apply lookup_insert_is_Some'; auto)).
    done.
  - apply linked_ok; try done; [apply insert_before_perm | exact (positioned_perm _ rpc' gp0)].
Qed.

(** ** The grantable RPCs *)
Definition world_grantable (w : world) : list ptr :=
  grantable (h_grantable_peers (w_homa w)) (w_peers w).

Lemma elem_of_grantable gp peers p :
  p ∈ grantable gp peers <-> exists pe, pe ∈ gp /\ p ∈ rpcs_of peers pe.
Proof. unfold grantable. rewrite list_elem_of_bind. naive_solver. Qed.

(** A grantable RPC is linked in the list of its peer. *)
Lemma grantable_linked w p rpc :
  world_lists_ok w -> p ∈ world_grantable w -> w_rpcs w !! p = Some rpc ->
  exists peer, w_peers w !! rpc_peer rpc = Some peer /\ p ∈ peer_grantable_rpcs peer.
Proof.
  intros [Hok _] Hp Hr. apply elem_of_grantable in Hp as (pe & Hpe & Hin).
  unfold rpcs_of in Hin. destruct (w_peers w !! pe) as [peer|] eqn:E;
    [|by apply elem_of_nil in Hin].
  destruct (lo_rpcs _ _ _ Hok _ _ E) as [_ H].
  destruct (H p Hin) as (rpc' & Hr' & <-). rewrite Hr in Hr'. simplify_eq. eauto.
Qed.

Lemma grantable_live w p :
  world_lists_ok w -> p ∈ world_grantable w -> is_Some (w_rpcs w !! p).
Proof.
  intros [Hok _] Hp. apply elem_of_grantable in Hp as (pe & Hpe & Hin).
  unfold rpcs_of in Hin. destruct (w_peers w !! pe) as [peer|] eqn:E;
    [|by apply elem_of_nil in Hin]. by eapply lists_ok_live.
Qed.

(** ** Checking the invariant on a concrete state *)
Definition lists_check (gp : list ptr) (peers : gmap ptr homa_peer)
    (rpcs : gmap ptr homa_rpc) : Prop :=
  NoDup gp /\ Forall (fun pe => rpcs_of peers pe <> []) gp /\
  map_Forall (fun pe peer =>
    (peer_grantable_rpcs peer = [] \/ pe ∈ gp) /\ NoDup (peer_grantable_rpcs peer) /\
    Forall (fun p => rpc_peer <$> rpcs !! p = Some pe) (peer_grantable_rpcs peer)) peers.

#[export] Instance lists_check_dec gp peers rpcs : Decision (lists_check gp peers rpcs).
Proof. unfold lists_check. apply _. Defined.

Lemma lists_check_ok gp peers rpcs : lists_check gp peers rpcs -> lists_ok gp peers rpcs.
Proof.
  intros (Hnd & Hgp & Hp). rewrite Forall_forall in Hgp. constructor; [done | |].
  - intros pe. split.
    + intros Hin. specialize (Hgp pe Hin). unfold rpcs_of in Hgp.
      destruct (peers !! pe) as [peer|] eqn:E; [eauto | done].
    + intros (peer & Hpe & Hne). by destruct (Hp pe peer Hpe) as [[|] _].
  - intros pe peer Hpe. destruct (Hp pe peer Hpe) as (_ & Hn & Hf). split; [done |].
    rewrite Forall_forall in Hf. intros p Hin. specialize (Hf p Hin).
    apply fmap_Some in Hf as (rpc & ? & ?). eauto.
Qed.

#[export] Instance world_lists_dec w : Decision
  (lists_check (h_grantable_peers (w_homa w)) (w_peers w) (w_rpcs w) /\
   h_num_grantable_rpcs (w_homa w) =
     Z.of_nat (length (grantable (h_grantable_peers (w_homa w)) (w_peers w)))).
Proof. apply _. Defined.

Lemma world_lists_check w :
  bool_decide (lists_check (h_grantable_peers (w_homa w)) (w_peers w) (w_rpcs w) /\
   h_num_grantable_rpcs (w_homa w) =
     Z.of_nat (length (grantable (h_grantable_peers (w_homa w)) (w_peers w)))) = true ->
  world_lists_ok w.
Proof. intros [H1 H2]%bool_decide_eq_true. split; [by apply lists_check_ok | done]. Qed.
