(* ===== verification/GrantPick.v ===== *)
(** * Which RPCs are granted to (homa_grant.c)

    [homa_grant_pick_rpcs] as a pure function of the lists, and its meaning:
    on sorted lists it selects the highest-ranking RPCs. *)
From S2P Require Import Prelude Lists Wire Types Example Control Grant GrantLists.

(** ** Pure versions *)
Fixpoint pos_of (t : ptr -> bool) (rrpcs : list ptr) : nat :=
  match rrpcs with
  | [] => O
  | c :: rrpcs' => if t c then pos_of t rrpcs' else length rrpcs
  end.

Definition test_of (w : world) (p : ptr) : ptr -> bool :=
  match w_rpcs w !! p with Some r => rpc_test w r | None => fun _ => false end.

(** An RPC put in its place in the array. *)
Definition place (t : ptr -> bool) (p : ptr) (rpcs : list ptr) : list ptr :=
  let pos := pos_of t (reverse rpcs) in take pos rpcs ++ p :: drop pos rpcs.

Fixpoint pick_list (w : world) (max_rpcs per_peer : Z) (l rpcs : list ptr)
    (from_peer : Z) : list ptr * Z :=
  match l with
  | [] => (rpcs, from_peer)
  | p :: l' =>
      if Z.of_nat (pos_of (test_of w p) (reverse rpcs)) >=? max_rpcs
      then (rpcs, from_peer) else
      let rpcs' := take (Z.to_nat max_rpcs) (place (test_of w p) p rpcs) in
      if from_peer + 1 >=? per_peer then (rpcs', from_peer + 1)
      else pick_list w max_rpcs per_peer l' rpcs' (from_peer + 1)
  end.

Fixpoint pick_all (w : world) (max_rpcs per_peer : Z) (peers rpcs : list ptr)
    : list ptr :=
  match peers with
  | [] => rpcs
  | pe :: peers' =>
      let res := pick_list w max_rpcs per_peer (rpcs_of (w_peers w) pe) rpcs 0 in
      if res.2 =? 0 then res.1 else pick_all w max_rpcs per_peer peers' res.1
  end.

Lemma pos_of_le t l : (pos_of t l <= length l)%nat.
Proof. induction l as [|c l IH]; simpl; [done |]. destruct (t c); lia. Qed.

Lemma place_perm t p l : place t p l ≡ₚ p :: l.
Proof.
  unfold place. rewrite <- Permutation_middle. by rewrite take_drop.
Qed.

Lemma take_submseteq {A} n (l : list A) : take n l ⊆+ l.
Proof. apply sublist_submseteq, sublist_take. Qed.

Lemma submseteq_NoDup {A} (l k : list A) : l ⊆+ k -> NoDup k -> NoDup l.
Proof. intros [m ->]%submseteq_Permutation (H & _ & _)%NoDup_app. done. Qed.

(** What is selected comes from the lists, and fits the array. *)
Lemma pick_list_sub w k per l : forall rpcs n,
  (pick_list w k per l rpcs n).1 ⊆+ rpcs ++ l /\
  (Z.of_nat (length rpcs) <= k -> Z.of_nat (length (pick_list w k per l rpcs n).1) <= k).
Proof.
  induction l as [|p l IH]; intros rpcs n; simpl.
  { rewrite app_nil_r. done. }
  destruct (_ >=? k) eqn:Hpos; [split; [by apply submseteq_inserts_r | done] |].
  set (rpcs' := take _ _).
  assert (rpcs' ++ l ⊆+ rpcs ++ p :: l) as Hs.
  { rewrite <- Permutation_middle, app_comm_cons. apply submseteq_app; [|done].
    unfold rpcs'. by rewrite take_submseteq, place_perm. }
  assert (Z.of_nat (length rpcs') <= Z.max 0 k) as Hk
    by (unfold rpcs'; rewrite length_take; lia).
  destruct (_ >=? per); simpl.
  - split; [|lia]. transitivity (rpcs' ++ l); [by apply submseteq_inserts_r | done].
  - destruct (IH rpcs' (n + 1)) as [H1 H2]. split; [by rewrite H1 |]. lia.
Qed.

Lemma pick_all_sub w k per peers : forall rpcs,
  pick_all w k per peers rpcs ⊆+ rpcs ++ grantable peers (w_peers w) /\
  (Z.of_nat (length rpcs) <= k -> Z.of_nat (length (pick_all w k per peers rpcs)) <= k).
Proof.
  induction peers as [|pe peers IH]; intros rpcs; cbn [pick_all].
  { unfold grantable. simpl. by rewrite app_nil_r. }
  destruct (pick_list_sub w k per (rpcs_of (w_peers w) pe) rpcs 0) as [H1 H2].
  set (res := pick_list _ _ _ _ _ _) in *. rewrite grantable_cons, app_assoc.
  destruct (res.2 =? 0); [split; [by apply submseteq_inserts_r | done] |].
  destruct (IH res.1) as [H3 H4]. split; [|eauto].
  rewrite H3. by apply submseteq_app.
Qed.

(** ** Execution *)
Section Exec.
Context (w : world) (k per : Z).
Hypothesis Hk : 0 <= k <= HOMA_MAX_GRANTS.
Let live (l : list ptr) := forall q, q ∈ l -> is_Some (w_rpcs w !! q).

Lemma find_pos_exec p r l :
  w_rpcs w !! p = Some r -> live l -> find_pos r l w = Ok (pos_of (test_of w p) l, w).
Proof.
  intros Hp. induction l as [|c l IH]; intros Hl; simpl; [done |].
  assert (test_of w p c = rpc_test w r c) as -> by (unfold test_of; by rewrite Hp).
  rewrite (bind_eq _ _ _ _ _ (rpc_test_pure w r (c :: l) Hl c ltac:(set_solver))).
  destruct (rpc_test w r c); [|done]. apply IH. intros q Hq. apply Hl. set_solver.
Qed.

Lemma pick_from_peer_exec l : forall rpcs n,
  live l -> live rpcs ->
  pick_from_peer k per l rpcs n w = Ok (pick_list w k per l rpcs n, w).
Proof.
  induction l as [|p l IH]; intros rpcs n Hl Hr; simpl; [done |].
  destruct (Hl p ltac:(set_solver)) as [r Hp]. step.
  erewrite bind_eq by (apply (find_pos_exec p); [exact Hp |]; intros q Hq;
    apply Hr; by rewrite elem_of_reverse in Hq).
  destruct (_ >=? k); [done |]. unfold place. set (rpcs' := take (Z.to_nat k) _).
  assert (Z.of_nat (length rpcs') <= k) by (unfold rpcs'; rewrite length_take; lia).
  destruct (Z.gtb_spec (Z.of_nat (length rpcs')) HOMA_MAX_GRANTS); [lia |].
  destruct (_ >=? per); [done |]. apply IH.
  - intros q Hq. apply Hl. set_solver.
  - intros q Hq. assert (q ∈ p :: rpcs) as Hq'.
    { eapply elem_of_submseteq; [exact Hq |]. unfold rpcs'.
      rewrite take_submseteq. fold (place (test_of w p) p rpcs). by rewrite place_perm. }
    apply elem_of_cons in Hq' as [-> |]; [apply Hl; set_solver | by apply Hr].
Qed.

Lemma pick_peers_exec peers : forall rpcs,
  (forall pe, pe ∈ peers -> is_Some (w_peers w !! pe)) ->
  live (grantable peers (w_peers w)) -> live rpcs ->
  pick_peers k per peers rpcs w = Ok (pick_all w k per peers rpcs, w).
Proof.
  induction peers as [|pe peers IH]; intros rpcs Hp Hl Hr; simpl; [done |].
  destruct (Hp pe ltac:(set_solver)) as [peer Hpe]. step.
  assert (rpcs_of (w_peers w) pe = peer_grantable_rpcs peer) as Hof
    by (unfold rpcs_of; by rewrite Hpe).
  rewrite grantable_cons in Hl. rewrite Hof in *.
  erewrite bind_eq by (apply pick_from_peer_exec; [|exact Hr]; intros q Hq; apply Hl; set_solver).
  destruct (pick_list_sub w k per (peer_grantable_rpcs peer) rpcs 0) as [Hs _].
  destruct (pick_list _ _ _ _ _ _) as [rpcs' n]. simpl in *.
  destruct (n =? 0); [done |]. apply IH.
  - intros q Hq. apply Hp. set_solver.
  - intros q Hq. apply Hl. set_solver.
  - intros q Hq. apply (elem_of_submseteq _ _ _ Hq) in Hs.
    apply elem_of_app in Hs as [|]; [by apply Hr | apply Hl; set_solver].
Qed.
End Exec.

(** ** Ranking *)
Definition key_of (r : homa_rpc) : Z * Z :=
  (mi_bytes_remaining (rpc_msgin r), mi_birth (rpc_msgin r)).

Definition rank_key (w : world) (p : ptr) : Z * Z :=
  match w_rpcs w !! p with Some r => key_of r | None => (0, 0) end.

Definition key_le (k1 k2 : Z * Z) : Prop :=
  k1.1 < k2.1 \/ (k1.1 = k2.1 /\ k1.2 <= k2.2).

#[export] Instance key_le_preorder : PreOrder key_le.
Proof. unfold key_le. split; [intros k; lia | intros k1 k2 k3; lia]. Qed.

(** [p] ranks at least as high as [q]: fewer bytes remain, or as many and the
    message is not younger. *)
Definition rank_le (w : world) (p q : ptr) : Prop := key_le (rank_key w p) (rank_key w q).

#[export] Instance rank_le_preorder w : PreOrder (rank_le w).
Proof.
  unfold rank_le. split; [by intros p |]. intros p q r ??. by transitivity (rank_key w q).
Qed.

Lemma outranks_key r x :
  if homa_grant_outranks r x then key_le (key_of r) (key_of x) else key_le (key_of x) (key_of r).
Proof. unfold homa_grant_outranks, key_le, key_of. simpl. destruct (_ || _) eqn:E; lia. Qed.

Lemma test_of_rank w p c :
  is_Some (w_rpcs w !! p) -> is_Some (w_rpcs w !! c) ->
  if test_of w p c then rank_le w p c else rank_le w c p.
Proof.
  intros [r Hp] [x Hc]. unfold test_of, rpc_test, rank_le, rank_key. rewrite Hp, Hc.
  apply outranks_key.
Qed.

(** The choice depends only on the lists and on the rank of the RPCs. *)
Definition same_keys (w w' : world) : Prop :=
  forall q, key_of <$> w_rpcs w' !! q = key_of <$> w_rpcs w !! q.

Lemma test_of_ext w w' p c : same_keys w w' -> test_of w' p c = test_of w p c.
Proof.
  intros H. pose proof (H p) as Hp. pose proof (H c) as Hc.
  unfold test_of, rpc_test, homa_grant_outranks.
  destruct (w_rpcs w' !! p) as [r'|], (w_rpcs w !! p) as [r|]; try done.
  destruct (w_rpcs w' !! c) as [x'|], (w_rpcs w !! c) as [x|]; try done.
  unfold key_of in *. simpl in *. injection Hp as -> ->. by injection Hc as -> ->.
Qed.

Lemma pos_of_ext t t' l : (forall c, t' c = t c) -> pos_of t' l = pos_of t l.
Proof. intros H. induction l as [|c l IH]; simpl; [done |]. by rewrite H, IH. Qed.

Lemma pick_list_ext w w' k per l : same_keys w w' -> forall rpcs n,
  pick_list w' k per l rpcs n = pick_list w k per l rpcs n.
Proof.
  intros H. induction l as [|p l IH]; intros rpcs n; simpl; [done |].
  unfold place. by rewrite (pos_of_ext _ _ _ (fun c => test_of_ext w w' p c H)), IH.
Qed.

Lemma pick_all_ext w w' k per peers : same_keys w w' -> w_peers w' = w_peers w ->
  forall rpcs, pick_all w' k per peers rpcs = pick_all w k per peers rpcs.
Proof.
  intros H Hp. induction peers as [|pe peers IH]; intros rpcs; simpl; [done |].
  by rewrite Hp, (pick_list_ext w w' _ _ _ H), IH.
Qed.

(** [place] is the swap loop of the grantable lists. *)
Lemma place_move_up t p l : place t p l = move_up t p (reverse l) [].
Proof.
  unfold place. induction l as [|c l IH] using rev_ind; [done |].
  rewrite reverse_snoc. simpl. destruct (t c).
  - assert (forall q x post, move_up t p q (post ++ [x]) = move_up t p q post ++ [x]) as Hpost.
    { intros q x. induction q as [|d q IHq]; intros post; simpl; [done |].
      destruct (t d); [apply (IHq (d :: post)) | by rewrite <- app_assoc]. }
    pose proof (pos_of_le t (reverse l)) as Hle. rewrite length_reverse in Hle.
    rewrite (Hpost _ c []), <- IH, take_app_le, drop_app_le by lia.
    by rewrite <- app_assoc.
  - rewrite length_reverse, reverse_involutive.
    rewrite take_ge, drop_ge by (rewrite length_app; simpl; lia).
    by rewrite <- app_assoc.
Qed.

Lemma pos_of_full t l :
  pos_of t (reverse l) = length l -> match last l with Some c => t c = false | None => True end.
Proof.
  destruct l as [|c l _] using rev_ind; [done |]. rewrite last_snoc, reverse_snoc. simpl.
  destruct (t c) eqn:E; [|done]. pose proof (pos_of_le t (reverse l)) as Hle.
  rewrite length_reverse in Hle. rewrite length_app. simpl. lia.
Qed.

(** ** Selection

    [res] holds the [k] best elements of [cands], best first (all of them
    when there are fewer). *)
Record top_k (R : relation ptr) (k : nat) (cands res : list ptr) : Prop := {
  tk_sorted : StronglySorted R res;
  tk_length : (length res <= k)%nat;
  tk_best : exists rest, res ++ rest ≡ₚ cands /\
    (forall x y, x ∈ res -> y ∈ rest -> R x y) /\
    (rest <> [] -> length res = k)
}.

#[export] Instance top_k_proper R k : Proper ((≡ₚ) ==> (=) ==> iff) (top_k R k).
Proof.
  intros c1 c2 Hc r1 r2 <-. split; intros [Hs Hl (rest & Hp & ?)];
    (constructor; [done | done |]); exists rest; by rewrite Hp.
Qed.

(** Candidates that rank no higher than a full selection do not change it. *)
Lemma top_k_skip R k cands res more :
  top_k R k cands res -> length res = k ->
  (forall x y, x ∈ res -> y ∈ more -> R x y) -> top_k R k (cands ++ more) res.
Proof.
  intros [Hs Hl (rest & Hp & Hr & Hk)] Hlen Hm. constructor; [done | done |].
  exists (rest ++ more). rewrite app_assoc, Hp. split_ands; [done | | done].
  intros x y Hx [Hy | Hy]%elem_of_app; auto.
Qed.

Section Select.
Context (w : world) (k : nat).
Let live (l : list ptr) := forall q, q ∈ l -> is_Some (w_rpcs w !! q).

Lemma place_sorted p l :
  is_Some (w_rpcs w !! p) -> live l -> StronglySorted (rank_le w) l ->
  StronglySorted (rank_le w) (place (test_of w p) p l).
Proof.
  intros Hp Hl Hs. rewrite place_move_up. apply move_up_sorted; try done.
  - apply _.
  - intros c Hc E. pose proof (test_of_rank w p c Hp (Hl c Hc)) as H. by rewrite E in H.
  - intros c Hc E. pose proof (test_of_rank w p c Hp (Hl c Hc)) as H. by rewrite E in H.
  - by rewrite app_nil_r.
Qed.

Lemma place_dropped t p l :
  (pos_of t (reverse l) < k)%nat -> length l = k ->
  exists z, z ∈ l /\ drop k (place t p l) = [z].
Proof.
  intros Hpos Hlen. unfold place. set (pos := pos_of t (reverse l)) in *.
  rewrite drop_app_ge by (rewrite length_take; lia).
  rewrite length_take, Nat.min_l by lia.
  destruct (k - pos)%nat as [|n] eqn:E; [lia |]. simpl. rewrite drop_drop.
  destruct (drop (pos + n) l) as [|z [|]] eqn:Hd.
  - apply (f_equal length) in Hd. rewrite length_drop in Hd. simpl in Hd. lia.
  - exists z. split; [|done]. rewrite <- (take_drop (pos + n) l), Hd. set_solver.
  - apply (f_equal length) in Hd. rewrite length_drop in Hd. simpl in Hd. lia.
Qed.

Lemma top_k_place p cands res :
  is_Some (w_rpcs w !! p) -> live res -> top_k (rank_le w) k cands res ->
  (pos_of (test_of w p) (reverse res) < k)%nat ->
  top_k (rank_le w) k (cands ++ [p]) (take k (place (test_of w p) p res)).
Proof.
  intros Hp Hl [Hs Hlen (rest & Hperm & Hr & Hk)] Hpos.
  pose proof (place_sorted p res Hp Hl Hs) as Hs'.
  pose proof (place_perm (test_of w p) p res) as Hpp.
  set (pl := place _ _ _) in *. rewrite <- (take_drop k pl) in Hs'.
  apply StronglySorted_app in Hs' as (Hab & Ha & _).
  constructor; [done | rewrite length_take; lia |]. exists (drop k pl ++ rest). split_ands.
  - rewrite app_assoc, take_drop, Hpp, <- Hperm. simpl. by rewrite <- Permutation_cons_append.
  - intros x y Hx [Hy | Hy]%elem_of_app; [by apply Hab |].
    destruct (place_dropped (test_of w p) p res Hpos) as (z & Hz & Hd).
    { apply Hk. intros ->. by apply elem_of_nil in Hy. }
    transitivity z; [apply Hab; [done |]; fold pl in Hd; rewrite Hd; set_solver | by apply Hr].
  - intros Hne. rewrite length_take, Hpp. simpl.
    destruct (decide (length res < k)%nat) as [Hlt|]; [|lia].
    destruct rest as [|y rest]; [|rewrite Hk in Hlt by done; lia].
    rewrite app_nil_r, drop_ge in Hne by (rewrite Hpp; simpl; lia). done.
Qed.

(** The RPC that ends the scan, and all that rank no higher. *)
Lemma top_k_end p cands res :
  is_Some (w_rpcs w !! p) -> live res -> top_k (rank_le w) k cands res ->
  (k <= pos_of (test_of w p) (reverse res))%nat ->
  length res = k /\ forall x, x ∈ res -> rank_le w x p.
Proof.
  intros Hp Hl [Hs Hlen _] Hpos.
  pose proof (pos_of_le (test_of w p) (reverse res)) as Hle. rewrite length_reverse in Hle.
  split; [lia |]. pose proof (pos_of_full (test_of w p) res ltac:(lia)) as Hf.
  destruct res as [|z res _] using rev_ind; [by intros x ?%elem_of_nil |].
  rewrite last_snoc in Hf. pose proof (test_of_rank w p z Hp (Hl z ltac:(set_solver))) as Hz.
  rewrite Hf in Hz. apply StronglySorted_app in Hs as (Hab & _ & _).
  intros x [Hx | ->%list_elem_of_singleton]%elem_of_app; [|done].
  transitivity z; [|done]. apply Hab; [done | set_solver].
Qed.

Lemma pick_list_top per l : forall cands rpcs n,
  live l -> live rpcs -> StronglySorted (rank_le w) l -> 0 <= n < per ->
  top_k (rank_le w) k cands rpcs ->
  let res := pick_list w (Z.of_nat k) per l rpcs n in
  top_k (rank_le w) k (cands ++ take (Z.to_nat (per - n)) l) res.1 /\ n <= res.2 /\
  (res.2 = n -> res.1 = rpcs /\ (l = [] \/ length rpcs = k /\
     forall x y, x ∈ rpcs -> y ∈ l -> rank_le w x y)).
Proof.
  induction l as [|p l IH]; intros cands rpcs n Hl Hr Hs Hn Htop; cbn [pick_list].
  { simpl. rewrite take_nil, app_nil_r. split_ands; [done | lia |]. auto. }
  assert (is_Some (w_rpcs w !! p)) as Hp by (apply Hl; set_solver).
  assert (live l) as Hl' by (intros q Hq; apply Hl; set_solver).
  apply StronglySorted_inv in Hs as [Hs Hpl]. rewrite Forall_forall in Hpl.
  destruct (Z.geb_spec (Z.of_nat (pos_of (test_of w p) (reverse rpcs))) (Z.of_nat k)) as [Hpos | Hpos].
  - destruct (top_k_end p cands rpcs Hp Hr Htop ltac:(lia)) as [Hlen Hle].
    assert (forall x y, x ∈ rpcs -> y ∈ p :: l -> rank_le w x y) as Hall.
    { intros x y Hx [-> | Hy]%elem_of_cons; [by apply Hle |].
      transitivity p; [by apply Hle | by apply Hpl]. }
    simpl. split_ands; [|lia | auto]. apply top_k_skip; [done | done |].
    intros x y Hx Hy. apply Hall; [done |]. eapply elem_of_submseteq; [exact Hy |].
    apply take_submseteq.
  - pose proof (top_k_place p cands rpcs Hp Hr Htop ltac:(lia)) as Htop'.
    rewrite Nat2Z.id. set (rpcs' := take k _) in *.
    assert (live rpcs') as Hr'.
    { intros q Hq. assert (q ∈ p :: rpcs) as [-> |]%elem_of_cons; [|done | by apply Hr].
      eapply elem_of_submseteq; [exact Hq |]. unfold rpcs'.
      by rewrite take_submseteq, place_perm. }
    assert (Z.to_nat (per - n) = S (Z.to_nat (per - (n + 1)))) as -> by lia. simpl take.
    destruct (Z.geb_spec (n + 1) per) as [Hper | Hper].
    + simpl. assert (Z.to_nat (per - (n + 1)) = O) as -> by lia.
      split_ands; [by rewrite take_0 | lia | lia].
    + destruct (IH (cands ++ [p]) rpcs' (n + 1) Hl' Hr' Hs ltac:(lia) Htop') as (H1 & H2 & _).
      rewrite <- app_assoc in H1. split_ands; [done | lia | lia].
Qed.
End Select.

(** ** Sorted grantable lists *)
Definition peer_key (w : world) (a : ptr) : Z * Z :=
  match rpcs_of (w_peers w) a with c :: _ => rank_key w c | [] => (0, 0) end.

Definition peer_le (w : world) (a b : ptr) : Prop := key_le (peer_key w a) (peer_key w b).

#[export] Instance peer_le_preorder w : PreOrder (peer_le w).
Proof.
  unfold peer_le. split; [by intros p |]. intros p q r ??. by transitivity (peer_key w q).
Qed.

(** Peers ordered by their first RPC, RPCs within a peer by rank. *)
Definition lists_sorted (w : world) (gp : list ptr) : Prop :=
  StronglySorted (peer_le w) gp /\
  forall pe, pe ∈ gp -> StronglySorted (rank_le w) (rpcs_of (w_peers w) pe).

(** The RPCs that compete: at most [per] of each peer. *)
Definition candidates (w : world) (per : Z) (gp : list ptr) : list ptr :=
  gp ≫= fun pe => take (Z.to_nat per) (rpcs_of (w_peers w) pe).

Lemma candidates_sub w per gp : candidates w per gp ⊆+ grantable gp (w_peers w).
Proof.
  unfold candidates, grantable. induction gp as [|pe gp IH]; [done |].
  cbn [mbind list_bind]. apply submseteq_app; [apply take_submseteq | done].
Qed.

Lemma peer_le_all w pe gp c l x y :
  lists_sorted w (pe :: gp) -> rpcs_of (w_peers w) pe = c :: l ->
  (forall q, q ∈ gp -> rpcs_of (w_peers w) q <> []) ->
  rank_le w x c -> y ∈ grantable gp (w_peers w) -> rank_le w x y.
Proof.
  intros [[_ Hpe]%StronglySorted_inv Hs] Hc Hne Hx Hy. rewrite Forall_forall in Hpe.
  apply list_elem_of_bind in Hy as (q & Hy & Hq). specialize (Hpe q Hq).
  specialize (Hs q ltac:(set_solver)). specialize (Hne q Hq).
  unfold peer_le, peer_key in Hpe. rewrite Hc in Hpe.
  destruct (rpcs_of (w_peers w) q) as [|d m]; [done |].
  apply StronglySorted_inv in Hs as [_ Hm]. rewrite Forall_forall in Hm.
  transitivity c; [done |]. transitivity d; [done |].
  apply elem_of_cons in Hy as [-> | Hy]; [done | by apply Hm].
Qed.

Lemma pick_all_top w k per peers : 1 <= per -> forall cands rpcs,
  (forall q, q ∈ grantable peers (w_peers w) ++ rpcs -> is_Some (w_rpcs w !! q)) ->
  (forall pe, pe ∈ peers -> rpcs_of (w_peers w) pe <> []) ->
  lists_sorted w peers -> top_k (rank_le w) k cands rpcs ->
  top_k (rank_le w) k (cands ++ candidates w per peers)
    (pick_all w (Z.of_nat k) per peers rpcs).
Proof.
  intros Hper. induction peers as [|pe peers IH]; intros cands rpcs Hl Hne Hs Htop; cbn [pick_all].
  { unfold candidates. simpl. by rewrite app_nil_r. }
  rewrite grantable_cons in Hl.
  assert (StronglySorted (rank_le w) (rpcs_of (w_peers w) pe)) as Hspe by (apply Hs; set_solver).
  destruct (pick_list_top w k per (rpcs_of (w_peers w) pe) cands rpcs 0) as (H1 & H2 & H3);
    try done; try lia; try (intros q Hq; apply Hl; set_solver).
  destruct (pick_list_sub w (Z.of_nat k) per (rpcs_of (w_peers w) pe) rpcs 0) as [Hsub _].
  set (res := pick_list _ _ _ _ _ _) in *. unfold candidates. cbn [mbind list_bind].
  fold (candidates w per peers). rewrite app_assoc. rewrite Z.sub_0_r in H1.
  destruct (Z.eqb_spec res.2 0) as [E | E].
  - destruct (H3 E) as [Hres [Hnil | [Hlen Hle]]]; [by destruct (Hne pe ltac:(set_solver)) |].
    rewrite Hres in *. apply top_k_skip; [done | done |]. intros x y Hx Hy.
    destruct (rpcs_of (w_peers w) pe) as [|c l] eqn:Hc; [by destruct (Hne pe ltac:(set_solver)) |].
    eapply (peer_le_all w pe peers c l x y); try done.
    + intros q Hq. apply Hne. set_solver.
    + apply Hle; set_solver.
    + eapply elem_of_submseteq; [exact Hy | apply candidates_sub].
  - apply IH; try done.
    + intros q [Hq | Hq]%elem_of_app; [apply Hl; set_solver |].
      apply (elem_of_submseteq _ _ _ Hq) in Hsub. apply Hl. set_solver.
    + intros q Hq. apply Hne. set_solver.
    + destruct Hs as [[Hs _]%StronglySorted_inv Hall].
      split; [done |]. intros q Hq. apply Hall. set_solver.
Qed.

(** [homa_grant_pick_rpcs] runs to the end and leaves the state alone. *)
Lemma pick_rpcs_exec w k :
  world_lists_ok w -> 0 <= k <= HOMA_MAX_GRANTS ->
  let gp := h_grantable_peers (w_homa w) in
  homa_grant_pick_rpcs k w =
    Ok (pick_all w k (h_max_rpcs_per_peer (w_homa w)) gp [], w).
Proof.
  intros Hw Hk gp. pose proof Hw as [Hok _]. unfold homa_grant_pick_rpcs. step. apply pick_peers_exec; [done | | |].
  - intros pe Hpe. apply (lo_linked _ _ _ Hok) in Hpe as (peer & ? & _). eauto.
  - intros q Hq. by apply (grantable_live w).
  - by intros q ?%elem_of_nil.
Qed.

(** The example state is sorted. *)
Lemma ex_sorted : lists_sorted ex (h_grantable_peers (w_homa ex)).
Proof.
  split; [repeat constructor; vm_compute; lia |].
  intros pe [-> | [-> | []%elem_of_nil]%elem_of_cons]%elem_of_cons;
    repeat constructor; vm_compute; lia.
Qed.

(** C29: When the grantable lists are sorted, [homa_grant_pick_rpcs] returns
    the [k] highest-ranking RPCs (fewest bytes remaining, then oldest), best
    first, among the first [max_rpcs_per_peer] of each peer, although it stops
    scanning a peer, and the peers, as soon as one RPC is too low; it changes
    no state. *)
Theorem pick_rpcs_top_k w k :
  world_lists_ok w -> lists_sorted w (h_grantable_peers (w_homa w)) ->
  0 <= k <= HOMA_MAX_GRANTS -> 1 <= h_max_rpcs_per_peer (w_homa w) ->
  exists res, homa_grant_pick_rpcs k w = Ok (res, w) /\
    top_k (rank_le w) (Z.to_nat k)
      (candidates w (h_max_rpcs_per_peer (w_homa w)) (h_grantable_peers (w_homa w))) res.
Proof.
  intros Hok Hs Hk Hper. eexists. split; [by apply pick_rpcs_exec |].
  set (gp := h_grantable_peers (w_homa w)).
  rewrite <- (Z2Nat.id k) at 2 by lia.
  apply (pick_all_top w (Z.to_nat k) _ gp Hper [] []); [| |done|].
  - intros q. rewrite app_nil_r. by apply (grantable_live w).
  - intros pe Hpe. destruct (linked_head _ _ _ pe (proj1 Hok) Hpe) as (c & cs & -> & _). done.
  - constructor; [apply SSorted_nil | simpl; lia | exists []; split_ands; [done | by intros ?? ?%elem_of_nil | done]].
Qed.

Lemma pick_rpcs_top_k_witness :
  exists res, homa_grant_pick_rpcs 2 ex = Ok (res, ex) /\
    top_k (rank_le ex) 2 (candidates ex 1 [1%positive; 2%positive]) res.
Proof.
  apply (pick_rpcs_top_k ex 2).
  - apply world_lists_check. vm_compute. reflexivity.
  - apply ex_sorted.
  - vm_compute. split; congruence.
  - vm_compute. congruence.
Defined.
