(* ===== verification/GrantOrder.v ===== *)
(** * The order of the grantable lists (homa_grant.c)

    [homa_grant_add_rpc] keeps the lists sorted by rank;
    [homa_grant_remove_rpc] does not. *)
From S2P Require Import Prelude Lists Wire Types Example Control Grant GrantLists GrantPick.

Lemma StronglySorted_ext {A} (R R' : relation A) l :
  (forall x y, x ∈ l -> y ∈ l -> R x y -> R' x y) ->
  StronglySorted R l -> StronglySorted R' l.
Proof.
  intros H Hs. induction Hs as [|x l Hs IH Hx]; [apply SSorted_nil |].
  constructor; [apply IH; intros; apply H; set_solver |].
  rewrite Forall_forall in *. intros y Hy. apply H; set_solver.
Qed.

(** ** Linking a new RPC *)
Section Add.
Context (w : world) (p : ptr) (rpc : homa_rpc) (peer : homa_peer).
Hypothesis Hok : lists_ok (h_grantable_peers (w_homa w)) (w_peers w) (w_rpcs w).
Hypothesis Hp : w_rpcs w !! p = Some rpc.
Hypothesis Hpe : w_peers w !! rpc_peer rpc = Some peer.
Hypothesis Hn : p ∉ peer_grantable_rpcs peer.

Let rpc' := born (w_clock w (w_tick w)) rpc.
Let l := insert_before (rpc_test w rpc') p (peer_grantable_rpcs peer).
Let gp := h_grantable_peers (w_homa w).

(** Any state with these RPCs and lists. *)
Variable w' : world.
Hypothesis Hr' : w_rpcs w' = <[p := rpc']> (w_rpcs w).
Hypothesis Hp' : w_peers w' =
  <[rpc_peer rpc := peer <| peer_grantable_rpcs := l |>]> (w_peers w).

Lemma not_in_list pe c : c ∈ rpcs_of (w_peers w) pe -> c <> p /\ is_Some (w_rpcs w !! c).
Proof.
  unfold rpcs_of. destruct (w_peers w !! pe) as [x|] eqn:E; [|by intros ?%elem_of_nil].
  intros Hc. split; [|by eapply lists_ok_live]. intros ->.
  destruct (proj2 (lo_rpcs _ _ _ Hok _ _ E) p Hc) as (r & Hr & <-). rewrite Hp in Hr.
  injection Hr as <-. rewrite Hpe in E. injection E as <-. done.
Qed.

Lemma key_other c : c <> p -> rank_key w' c = rank_key w c.
Proof. intros H. unfold rank_key. by rewrite Hr', lookup_insert_ne. Qed.

Lemma key_self : rank_key w' p = key_of rpc'.
Proof. unfold rank_key. by rewrite Hr', lookup_insert_eq. Qed.

(** The test that positions the RPC, in terms of keys. *)
Lemma test_key v c :
  w_rpcs v !! c = w_rpcs w !! c -> c <> p -> is_Some (w_rpcs w !! c) ->
  if rpc_test v rpc' c then rank_le w' p c else rank_le w' c p.
Proof.
  intros Hv Hc [x Hx]. unfold rpc_test, rank_le. rewrite Hv, key_self, key_other by done.
  unfold rank_key. rewrite Hx. apply outranks_key.
Qed.

Lemma rpcs_of_other q : q <> rpc_peer rpc -> rpcs_of (w_peers w') q = rpcs_of (w_peers w) q.
Proof. intros H. rewrite Hp', rpcs_of_insert. by rewrite bool_decide_eq_false_2. Qed.

Lemma rpcs_of_self : rpcs_of (w_peers w') (rpc_peer rpc) = l.
Proof. rewrite Hp', rpcs_of_insert. by rewrite bool_decide_eq_true_2. Qed.

Lemma rpcs_of_old : rpcs_of (w_peers w) (rpc_peer rpc) = peer_grantable_rpcs peer.
Proof. unfold rpcs_of. by rewrite Hpe. Qed.

Lemma list_sorted_other q :
  StronglySorted (rank_le w) (rpcs_of (w_peers w) q) ->
  StronglySorted (rank_le w') (rpcs_of (w_peers w) q).
Proof.
  apply StronglySorted_ext. intros a b Ha Hb. unfold rank_le.
  rewrite !key_other; [done | by eapply not_in_list ..].
Qed.

Lemma list_sorted_self :
  StronglySorted (rank_le w) (peer_grantable_rpcs peer) -> StronglySorted (rank_le w') l.
Proof.
  intros Hs. rewrite <- rpcs_of_old in Hs. apply list_sorted_other in Hs. rewrite rpcs_of_old in Hs.
  assert (forall c, c ∈ peer_grantable_rpcs peer ->
    if rpc_test w rpc' c then rank_le w' p c else rank_le w' c p) as Ht.
  { intros c Hc. rewrite <- rpcs_of_old in Hc. apply not_in_list in Hc as [? ?]. by apply test_key. }
  apply insert_before_sorted; [apply _ | | | done]; intros c Hc E; specialize (Ht c Hc);
    by rewrite E in Ht.
Qed.

Lemma peer_key_other q : q <> rpc_peer rpc -> peer_key w' q = peer_key w q.
Proof.
  intros Hq. unfold peer_key. rewrite rpcs_of_other by done.
  destruct (rpcs_of (w_peers w) q) as [|c cs] eqn:E; [done |].
  apply key_other, (not_in_list q). rewrite E. set_solver.
Qed.

(** The first RPC of the peer after the insertion. *)
Lemma peer_key_self :
  (peer_key w' (rpc_peer rpc) = key_of rpc' /\
   (peer_grantable_rpcs peer <> [] -> key_le (key_of rpc') (peer_key w (rpc_peer rpc)))) \/
  (peer_key w' (rpc_peer rpc) = peer_key w (rpc_peer rpc) /\
   key_le (peer_key w (rpc_peer rpc)) (key_of rpc')).
Proof.
  unfold peer_key. rewrite rpcs_of_self, rpcs_of_old. unfold l.
  case_eq (peer_grantable_rpcs peer); [intros _ | intros c cs E]; simpl;
    [left; by rewrite key_self |].
  assert (c <> p /\ is_Some (w_rpcs w !! c)) as [Hc Hlive]
    by (apply (not_in_list (rpc_peer rpc)); rewrite rpcs_of_old, E; set_solver).
  pose proof (test_key w c eq_refl Hc Hlive) as Ht. unfold rank_le in Ht.
  rewrite key_self, key_other in Ht by done.
  destruct (rpc_test w rpc' c); [left; by rewrite key_self | right].
  by rewrite key_other.
Qed.

Lemma peer_test_key v q :
  w_rpcs v = w_rpcs w' -> w_peers v = w_peers w' -> q ∈ gp -> q <> rpc_peer rpc ->
  if peer_test v rpc' q then key_le (key_of rpc') (peer_key w' q)
  else key_le (peer_key w' q) (key_of rpc').
Proof.
  intros Hv1 Hv2 Hq Hne. destruct (linked_head _ _ _ q Hok Hq) as (c & cs & Hc & Hlive).
  unfold peer_test, peer_key. rewrite Hv2, !rpcs_of_other, !Hc by done.
  assert (c <> p) as Hcp by (apply (not_in_list q); rewrite Hc; set_solver).
  pose proof (test_key v c ltac:(by rewrite Hv1, Hr', lookup_insert_ne) Hcp Hlive) as Ht.
  unfold rank_le in Ht. by rewrite key_self in Ht.
Qed.

(** ** The list of the peers *)
Lemma others_sorted m :
  StronglySorted (peer_le w) m -> rpc_peer rpc ∉ m -> StronglySorted (peer_le w') m.
Proof.
  intros Hs Hm. eapply StronglySorted_ext; [|exact Hs]. intros a b Ha Hb. unfold peer_le.
  rewrite !peer_key_other; [done | by intros -> ..].
Qed.

Lemma moved_sorted v pre post :
  w_rpcs v = w_rpcs w' -> w_peers v = w_peers w' ->
  StronglySorted (peer_le w) gp -> gp = pre ++ rpc_peer rpc :: post ->
  StronglySorted (peer_le w') (move_up (peer_test v rpc') (rpc_peer rpc) (reverse pre) post).
Proof.
  intros Hv1 Hv2 Hs Hgp. pose proof (lo_nodup _ _ _ Hok) as Hnd. fold gp in Hnd.
  assert (rpc_peer rpc ∈ gp) as Hin by (rewrite Hgp; set_solver).
  assert (forall q, q ∈ pre -> q ∈ gp) as Hpre by (rewrite Hgp; set_solver).
  rewrite Hgp in Hnd, Hs. apply NoDup_app in Hnd as (_ & Hdis & [Hnpost _]%NoDup_cons).
  assert (rpc_peer rpc ∉ pre) as Hnpre by (intros H; apply (Hdis _ H); set_solver).
  apply StronglySorted_app in Hs as (Hab & Hspre & [Hspost Hpost]%StronglySorted_inv).
  assert (StronglySorted (peer_le w) (pre ++ post)) as Hs0
    by (apply StronglySorted_app_2; try done; intros; apply Hab; set_solver).
  assert (peer_grantable_rpcs peer <> []) as Hnil.
  { apply (lo_linked _ _ _ Hok) in Hin as (x & Hx & ?). rewrite Hpe in Hx. by injection Hx as <-. }
  assert (forall q, q ∈ pre -> if peer_test v rpc' q then key_le (key_of rpc') (peer_key w' q)
    else key_le (peer_key w' q) (key_of rpc')) as Ht
    by (intros q Hq; apply peer_test_key; [done | done | auto | by intros ->]).
  apply move_up_sorted; [apply _ | | | apply others_sorted; [done | set_solver] |].
  - intros q Hq Et. specialize (Ht q Hq). rewrite Et in Ht. unfold peer_le.
    transitivity (key_of rpc'); [|done]. by destruct peer_key_self as [[-> _] | [-> ?]].
  - intros q Hq Et. specialize (Ht q Hq). rewrite Et in Ht. unfold peer_le.
    destruct peer_key_self as [[-> _] | [-> _]]; [done |].
    rewrite peer_key_other by (by intros ->). apply (Hab q); set_solver.
  - rewrite Forall_forall in *. intros q Hq. unfold peer_le.
    rewrite (peer_key_other q) by (by intros ->).
    transitivity (peer_key w (rpc_peer rpc)); [|by apply Hpost].
    destruct peer_key_self as [[-> Hle] | [-> _]]; auto. done.
Qed.

Lemma positioned_sorted v :
  w_rpcs v = w_rpcs w' -> w_peers v = w_peers w' ->
  StronglySorted (peer_le w) gp -> StronglySorted (peer_le w') (positioned v rpc' gp).
Proof.
  intros Hv1 Hv2 Hs. unfold positioned. change (rpc_peer rpc') with (rpc_peer rpc).
  case_bool_decide as Hin.
  - assert (forall q, q ∈ gp -> q <> rpc_peer rpc) as Hne by (by intros q Hq ->).
    assert (peer_key w' (rpc_peer rpc) = key_of rpc') as Hk.
    { unfold peer_key. rewrite rpcs_of_self. unfold l.
      case_eq (peer_grantable_rpcs peer); [intros _ | intros c cs E]; simpl;
        [by rewrite key_self |].
      exfalso. apply Hin, (lo_linked _ _ _ Hok). exists peer. by rewrite E. }
    apply insert_before_sorted; [apply _ | | | by apply others_sorted];
      intros q Hq Et; pose proof (peer_test_key v q Hv1 Hv2 Hq (Hne q Hq)) as Ht;
      rewrite Et in Ht; unfold peer_le; by rewrite Hk.
  - destruct (split_at (rpc_peer rpc) gp) as [pre post] eqn:Hsp.
    destruct (split_at_spec _ _ _ _ Hin Hsp) as [Hgp _]. by apply moved_sorted.
Qed.
End Add.

(** Linking a new message keeps the grantable lists sorted: the RPCs of
    each peer by rank, the peers by their first RPC; the call does not fault
    and leaves the lists well-formed. *)
Theorem add_rpc_sorted w p rpc :
  world_lists_ok w -> lists_sorted w (h_grantable_peers (w_homa w)) ->
  w_rpcs w !! p = Some rpc -> is_Some (w_peers w !! rpc_peer rpc) ->
  p ∉ world_grantable w ->
  exists w', homa_grant_add_rpc p w = Ok (tt, w') /\ world_lists_ok w' /\
    world_grantable w' ≡ₚ p :: world_grantable w /\
    lists_sorted w' (h_grantable_peers (w_homa w')).
Proof.
  intros Hok [Hs Hl] Hp [peer Hpe] Hng.
  assert (p ∉ peer_grantable_rpcs peer) as Hn.
  { intros Hin. apply Hng, elem_of_grantable. exists (rpc_peer rpc). unfold rpcs_of. rewrite Hpe.
    split; [|done]. apply (lo_linked _ _ _ (proj1 Hok)). exists peer. split; [done |].
    by intros E; rewrite E, elem_of_nil in Hin. }
  destruct (add_rpc_new p w rpc peer Hok Hp Hpe Hn) as (Hex & Hok' & Hperm).
  eexists. split; [exact Hex |]. split; [done |]. split; [done |].
  set (w' := linked _ _ _ _ _ _) in *. split.
  - exact (positioned_sorted w p rpc peer (proj1 Hok) Hp Hpe Hn w' eq_refl eq_refl
      (linked p rpc peer _ _ w) eq_refl eq_refl Hs).
  - intros pe Hin. destruct (decide (pe = rpc_peer rpc)) as [-> | Hne].
    + rewrite (rpcs_of_self w p rpc peer w' eq_refl).
      apply (list_sorted_self w p rpc peer (proj1 Hok) Hp Hpe Hn w' eq_refl).
      destruct (decide (peer_grantable_rpcs peer = [])) as [-> |]; [apply SSorted_nil |].
      rewrite <- (rpcs_of_old w rpc peer Hpe). apply Hl, (lo_linked _ _ _ (proj1 Hok)). eauto.
    + rewrite (rpcs_of_other w p rpc peer w' eq_refl) by done.
      apply (list_sorted_other w p rpc peer (proj1 Hok) Hp Hpe Hn w' eq_refl). apply Hl.
      change (h_grantable_peers (w_homa w')) with
        (positioned (linked p rpc peer (insert_before (rpc_test w (born (w_clock w (w_tick w)) rpc)) p
          (peer_grantable_rpcs peer)) (h_grantable_peers (w_homa w)) w)
          (born (w_clock w (w_tick w)) rpc) (h_grantable_peers (w_homa w))) in Hin.
      rewrite positioned_perm in Hin. case_bool_decide; set_solver.
Qed.

(** The example state with RPC 12 not linked yet. *)
Definition ex_unlinked : world :=
  ex_world (ex_homa <| h_num_grantable_rpcs := 2 |>) [11%positive] [13%positive].

Lemma ex_unlinked_sorted : lists_sorted ex_unlinked (h_grantable_peers (w_homa ex_unlinked)).
Proof.
  split; [repeat constructor; vm_compute; lia |].
  intros pe [-> | [-> | []%elem_of_nil]%elem_of_cons]%elem_of_cons;
    repeat constructor; vm_compute; lia.
Qed.

Lemma add_rpc_sorted_witness :
  exists w', homa_grant_add_rpc 12%positive ex_unlinked = Ok (tt, w') /\
    lists_sorted w' (h_grantable_peers (w_homa w')).
Proof.
  destruct (add_rpc_sorted ex_unlinked 12%positive (ex_rpc 1%positive 5 (ex_msgin 100200 200 20)))
    as (w' & H & _ & _ & Hs).
  - apply world_lists_check. vm_compute. reflexivity.
  - apply ex_unlinked_sorted.
  - reflexivity.
  - eexists. reflexivity.
  - apply (bool_decide_unpack _). vm_compute. exact I.
  - exists w'. split; assumption.
Defined.

(** Removing the first RPC of a peer does not keep the list of peers
    sorted: the swap loop compares the removed RPC, not the peer's new first
    one, with the next peers, so the peer moves behind peers that it still
    outranks. *)
Theorem remove_rpc_unsorted :
  exists w p w', world_lists_ok w /\ lists_sorted w (h_grantable_peers (w_homa w)) /\
    homa_grant_remove_rpc p w = Ok (tt, w') /\
    ~ lists_sorted w' (h_grantable_peers (w_homa w')).
Proof.
  exists ex, 11%positive, (unlinked 11%positive 1%positive (ex_peer 101 [11%positive; 12%positive]) [12%positive]
    [2%positive; 1%positive] ex). split_ands.
  - apply world_lists_check. vm_compute. reflexivity.
  - apply ex_sorted.
  - vm_compute. reflexivity.
  - intros [[_ H]%StronglySorted_inv _]. rewrite Forall_forall in H.
    specialize (H 1%positive ltac:(set_solver)). vm_compute in H.
    destruct H as [H | [H _]]; discriminate H.
Qed.
