(* ===== verification/GrantRecalc.v ===== *)
(** * Recalculation of grants (homa_grant.c)

    The invariant of the grant state, its preservation by
    [homa_grant_recalc], and termination of the recalculation loop. *)
From S2P Require Import Prelude Lists Wire Types Control Grant GrantLists GrantPick.

(** ** Sums over the RPCs *)
Definition sum_rec (rpcs : gmap ptr homa_rpc) : Z :=
  Zsum (fun kv => mi_rec_incoming (rpc_msgin kv.2)) (map_to_list rpcs).

Lemma sum_rec_insert rpcs p r r' :
  rpcs !! p = Some r ->
  sum_rec (<[p := r']> rpcs) =
  sum_rec rpcs - mi_rec_incoming (rpc_msgin r) + mi_rec_incoming (rpc_msgin r').
Proof.
  intros Hp. unfold sum_rec.
  rewrite <- (insert_id _ _ _ Hp), insert_insert_eq at 1.
  rewrite <- (insert_delete_id rpcs p r Hp) at 2. rewrite <- insert_delete_eq.
  rewrite !(Zsum_perm _ _ _ (map_to_list_insert _ _ _ (lookup_delete_eq _ _))).
  simpl. lia.
Qed.

(** ** Invariant *)

(** The lists are well-formed, RPCs refer to live objects, and
    [total_incoming] is the sum of what the RPCs have recorded in it. *)
Record core_inv (w : world) : Prop := {
  ci_lists : world_lists_ok w;
  ci_objs : forall p rpc, w_rpcs w !! p = Some rpc ->
    is_Some (w_peers w !! rpc_peer rpc) /\ is_Some (w_socks w !! rpc_hsk rpc);
  ci_total : h_total_incoming (w_homa w) = sum_rec (w_rpcs w)
}.

(** The arrays of active RPCs: entry [i] is the RPC of rank [i]. *)
Record active_inv (w : world) : Prop := {
  ai_arrays : Z.of_nat (length (h_active_rpcs (w_homa w))) = HOMA_MAX_GRANTS /\
    Z.of_nat (length (h_active_remaining (w_homa w))) = HOMA_MAX_GRANTS;
  ai_num : 0 <= h_num_active_rpcs (w_homa w) <= HOMA_MAX_GRANTS;
  ai_active : forall i, 0 <= i < h_num_active_rpcs (w_homa w) ->
    exists p rpc, h_active_rpcs (w_homa w) !! Z.to_nat i = Some (Some p) /\
      w_rpcs w !! p = Some rpc /\ mi_rank (rpc_msgin rpc) = i;
  ai_rank : forall p rpc, w_rpcs w !! p = Some rpc ->
    mi_rank (rpc_msgin rpc) = -1 \/
    (0 <= mi_rank (rpc_msgin rpc) < h_num_active_rpcs (w_homa w) /\
     h_active_rpcs (w_homa w) !! Z.to_nat (mi_rank (rpc_msgin rpc)) = Some (Some p))
}.

(** The sysctl parameters are in range. *)
Definition params_ok (h : homa) : Prop :=
  1 <= h_max_overcommit h <= HOMA_MAX_GRANTS.

Definition grant_inv (w : world) : Prop :=
  core_inv w /\ active_inv w /\ params_ok (w_homa w).

(** Every active RPC is still grantable (when no recalculation is running). *)
Definition active_grantable (w : world) : Prop :=
  forall i p, 0 <= i < h_num_active_rpcs (w_homa w) ->
    h_active_rpcs (w_homa w) !! Z.to_nat i = Some (Some p) ->
    p ∈ world_grantable w.

(** ** Frames

    What grant processing leaves alone: each function below erases the fields
    that it may change. *)
Definition mi_rest (mi : homa_message_in) : homa_message_in :=
  mi <| mi_granted := 0 |> <| mi_rec_incoming := 0 |> <| mi_rank := 0 |>
     <| mi_priority := 0 |> <| mi_resend_all := 0 |> <| mi_birth := 0 |>.

Definition rpc_rest (r : homa_rpc) : homa_rpc :=
  r <| rpc_grants_in_progress := 0 |> <| rpc_msgin ::= mi_rest |>.

Definition peer_rest (pe : homa_peer) : homa_peer :=
  pe <| peer_grantable_rpcs := [] |>.

Definition homa_rest (h : homa) : homa :=
  h <| h_grant_recalc_count := 0 |> <| h_grantable_peers := [] |>
    <| h_num_grantable_rpcs := 0 |> <| h_last_grantable_change := 0 |>
    <| h_max_grantable_rpcs := 0 |> <| h_oldest_rpc := None |> <| h_grant_window := 0 |>
    <| h_num_active_rpcs := 0 |> <| h_active_rpcs := [] |> <| h_active_remaining := [] |>
    <| h_total_incoming := 0 |>.

(** [w'] is [w] after some grant processing. *)
Record grant_frame (w w' : world) : Prop := {
  gf_rpcs : rpc_rest <$> w_rpcs w' = rpc_rest <$> w_rpcs w;
  gf_peers : peer_rest <$> w_peers w' = peer_rest <$> w_peers w;
  gf_homa : homa_rest (w_homa w') = homa_rest (w_homa w);
  gf_socks : w_socks w' = w_socks w;
  gf_peertab : w_peertab w' = w_peertab w;
  gf_socktab : w_socktab w' = w_socktab w;
  gf_interests : w_interests w' = w_interests w;
  gf_host : w_host w' = w_host w;
  gf_released : w_released w' = w_released w;
  gf_clock : w_clock w' = w_clock w;
  gf_stack : w_stack w' = w_stack w
}.

#[export] Instance grant_frame_preorder : PreOrder grant_frame.
Proof.
  split; [done |]. intros a b c [] []. constructor; congruence.
Qed.

Lemma rest_lookup (m m' : gmap ptr homa_rpc) p r :
  rpc_rest <$> m' = rpc_rest <$> m -> m !! p = Some r ->
  exists r', m' !! p = Some r' /\ rpc_rest r' = rpc_rest r.
Proof.
  intros H Hp. assert ((rpc_rest <$> m') !! p = Some (rpc_rest r)) as Hr
    by (by rewrite H, lookup_fmap, Hp).
  rewrite lookup_fmap in Hr. by apply fmap_Some in Hr as (r' & ? & ->); eauto.
Qed.

Lemma rest_insert (m : gmap ptr homa_rpc) p r r' :
  m !! p = Some r -> rpc_rest r' = rpc_rest r ->
  rpc_rest <$> <[p := r']> m = rpc_rest <$> m.
Proof.
  intros Hp Hr. rewrite fmap_insert, Hr. apply insert_id. by rewrite lookup_fmap, Hp.
Qed.

Lemma peer_rest_insert (m : gmap ptr homa_peer) p r r' :
  m !! p = Some r -> peer_rest r' = peer_rest r ->
  peer_rest <$> <[p := r']> m = peer_rest <$> m.
Proof.
  intros Hp Hr. rewrite fmap_insert, Hr. apply insert_id. by rewrite lookup_fmap, Hp.
Qed.

(** The fields of an RPC that a frame preserves. *)
Lemma rpc_rest_fields r r' :
  rpc_rest r' = rpc_rest r ->
  rpc_peer r' = rpc_peer r /\ rpc_hsk r' = rpc_hsk r /\
  rpc_silent_ticks r' = rpc_silent_ticks r /\ rpc_state_ r' = rpc_state_ r /\
  mi_length (rpc_msgin r') = mi_length (rpc_msgin r) /\
  mi_bytes_remaining (rpc_msgin r') = mi_bytes_remaining (rpc_msgin r) /\
  mi_num_bpages (rpc_msgin r') = mi_num_bpages (rpc_msgin r) /\
  mi_bpage_offsets (rpc_msgin r') = mi_bpage_offsets (rpc_msgin r).
Proof.
  intros H. split_ands;
    [ exact (f_equal rpc_peer H) | exact (f_equal rpc_hsk H)
    | exact (f_equal rpc_silent_ticks H) | exact (f_equal rpc_state_ H)
    | exact (f_equal (fun r => mi_length (rpc_msgin r)) H)
    | exact (f_equal (fun r => mi_bytes_remaining (rpc_msgin r)) H)
    | exact (f_equal (fun r => mi_num_bpages (rpc_msgin r)) H)
    | exact (f_equal (fun r => mi_bpage_offsets (rpc_msgin r)) H) ].
Qed.

(** ** One RPC *)

(** An RPC whose recorded incoming bytes exceed the actual ones. *)
Definition stale (rpcs : gmap ptr homa_rpc) (q : ptr) : Z :=
  match rpcs !! q with
  | Some r => Z.b2z (Z.max 0 (incoming_of (rpc_msgin r)) <? mi_rec_incoming (rpc_msgin r))
  | None => 0
  end.

(** The measure that decreases in each round of the recalculation. *)
Definition weight (w : world) : Z :=
  Zsum (fun q => 1 + stale (w_rpcs w) q) (world_grantable w).

Lemma stale_bounds rpcs q : 0 <= stale rpcs q <= 1.
Proof.
  unfold stale. destruct (rpcs !! q) as [r|]; [|lia].
  destruct (_ <? _); simpl; lia.
Qed.

Lemma stale_insert_ne rpcs p r q : q <> p -> stale (<[p := r]> rpcs) q = stale rpcs q.
Proof. intros. unfold stale. by rewrite lookup_insert_ne. Qed.

(** A change of one RPC that respects the frame. *)
Lemma core_inv_insert w w' p r r' :
  core_inv w -> w_rpcs w !! p = Some r -> rpc_rest r' = rpc_rest r ->
  w_rpcs w' = <[p := r']> (w_rpcs w) -> w_peers w' = w_peers w ->
  w_socks w' = w_socks w ->
  h_grantable_peers (w_homa w') = h_grantable_peers (w_homa w) ->
  h_num_grantable_rpcs (w_homa w') = h_num_grantable_rpcs (w_homa w) ->
  h_total_incoming (w_homa w') = h_total_incoming (w_homa w) -
    mi_rec_incoming (rpc_msgin r) + mi_rec_incoming (rpc_msgin r') ->
  core_inv w' /\ world_grantable w' = world_grantable w.
Proof.
  intros [[Hl Hn] Ho Ht] Hp Hr Hrpcs Hpe Hs Hgp Hnum Htot.
  pose proof (rpc_rest_fields _ _ Hr) as (Hpeer & Hhsk & _).
  split; [|unfold world_grantable; by rewrite Hgp, Hpe].
  constructor.
  - split; rewrite ?Hgp, ?Hpe, ?Hnum, ?Hrpcs; [|done].
    by eapply lists_ok_insert_rpc.
  - rewrite Hrpcs, Hpe, Hs. intros q x [[<- <-] | [Hne Hx]]%lookup_insert_Some; [|eauto].
    rewrite Hpeer, Hhsk. eauto.
  - rewrite Hrpcs, (sum_rec_insert _ _ r), Htot, Ht by done. done.
Qed.

(** The place of an RPC among the active ones. *)
Definition slot_of (r : homa_rpc) : Z * Z :=
  (mi_rank (rpc_msgin r), mi_priority (rpc_msgin r)).

(** A granted RPC: nothing else but its grant and the log change. *)
Lemma send_update_spec p w rpc :
  core_inv w -> w_rpcs w !! p = Some rpc ->
  exists b w' rpc',
    (homa_grant_send p ;;; homa_grant_update_incoming p) w = Ok (b, w') /\
    core_inv w' /\ grant_frame w w' /\ world_grantable w' = world_grantable w /\
    w_rpcs w' = <[p := rpc']> (w_rpcs w) /\ rpc_rest rpc' = rpc_rest rpc /\
    slot_of rpc' = slot_of rpc /\ mi_birth (rpc_msgin rpc') = mi_birth (rpc_msgin rpc) /\
    mi_granted (rpc_msgin rpc) <= mi_granted (rpc_msgin rpc') /\
    w_peers w' = w_peers w /\
    w_homa w' = (w_homa w) <| h_total_incoming := h_total_incoming (w_homa w') |> /\
    stale (w_rpcs w') p = 0 /\ (b = true -> stale (w_rpcs w) p = 1).
Proof.
  intros Hi Hp. destruct (ci_objs _ Hi _ _ Hp) as [_ [sk Hsk]].
  erewrite bind_eq by (exact (homa_grant_send_exec p w rpc sk Hp Hsk)).
  set (amount := grant_amount (w_homa w) rpc).
  set (mi := granted_msg amount (rpc_msgin rpc)).
  match goal with |- context [homa_grant_update_incoming p ?W] => set (w1 := W) end.
  assert (w_rpcs w1 !! p = Some (set_msgin mi rpc)) as Hp1 by apply lookup_insert_eq.
  rewrite (update_incoming_exec p w1 _ Hp1).
  assert (mi_rest mi = mi_rest (rpc_msgin rpc) /\
    slot_of (set_msgin (recorded mi) rpc) = slot_of rpc /\
    mi_birth mi = mi_birth (rpc_msgin rpc) /\
    mi_rec_incoming mi = mi_rec_incoming (rpc_msgin rpc) /\
    mi_granted (rpc_msgin rpc) <= mi_granted mi /\
    Z.max 0 (incoming_of (rpc_msgin rpc)) <= Z.max 0 (incoming_of mi)) as (Hrest & Hrk & Hbi & Hrec & Hgr & Hinc).
  { unfold mi, granted_msg, incoming_of, base_grant.
    assert (0 <= amount) by (unfold amount, grant_amount; zb; lia).
    destruct (amount =? 0); simpl; split_ands; done || lia. }
  eexists _, _, (set_msgin (recorded mi) rpc). split; [reflexivity |].
  match goal with |- core_inv ?W /\ _ => set (w2 := W) end.
  assert (w_rpcs w2 = <[p := set_msgin (recorded mi) rpc]> (w_rpcs w)) as Hr2
    by (simpl; by rewrite insert_insert_eq).
  assert (rpc_rest (set_msgin (recorded mi) rpc) = rpc_rest rpc) as Hrr.
  { unfold rpc_rest, set_msgin. simpl. by rewrite <- Hrest. }
  destruct (core_inv_insert w w2 p rpc _ Hi Hp Hrr Hr2) as [Hi2 Hg2]; try done.
  { simpl. rewrite Hrec. lia. }
  split_ands; try done.
  - constructor; try done. rewrite Hr2. by eapply rest_insert.
  - unfold stale. rewrite Hr2, lookup_insert_eq. simpl. unfold incoming_of. simpl.
    fold (incoming_of mi). by rewrite Z.ltb_irrefl.
  - unfold stale. rewrite Hp. simpl. intros Hb. rewrite Hrec in Hb.
    destruct (Z.ltb_spec (Z.max 0 (incoming_of (rpc_msgin rpc)))
      (mi_rec_incoming (rpc_msgin rpc))); [done |]. lia.
Qed.

(** Unlinking an RPC. *)
Lemma core_inv_unlinked p w rpc peer l gp :
  core_inv w -> w_peers w !! rpc_peer rpc = Some peer ->
  world_lists_ok (unlinked p (rpc_peer rpc) peer l gp w) ->
  core_inv (unlinked p (rpc_peer rpc) peer l gp w) /\
  grant_frame w (unlinked p (rpc_peer rpc) peer l gp w).
Proof.
  intros [Hl Ho Ht] Hpe Hl'. split.
  - constructor; [done | | done]. simpl. intros q x Hx.
    destruct (Ho q x Hx) as [? ?]. split; [|done]. apply lookup_insert_is_Some'. auto.
  - constructor; try done. simpl. by eapply peer_rest_insert.
Qed.

Lemma remove_rpc_inv p w rpc :
  core_inv w -> w_rpcs w !! p = Some rpc -> p ∈ world_grantable w ->
  exists w', homa_grant_remove_rpc p w = Ok (tt, w') /\ core_inv w' /\
    grant_frame w w' /\ w_rpcs w' = w_rpcs w /\
    p :: world_grantable w' ≡ₚ world_grantable w /\
    h_active_rpcs (w_homa w') = h_active_rpcs (w_homa w) /\
    h_num_active_rpcs (w_homa w') = h_num_active_rpcs (w_homa w) /\
    h_active_remaining (w_homa w') = h_active_remaining (w_homa w).
Proof.
  intros Hi Hp Hg. destruct (grantable_linked w p rpc (ci_lists _ Hi) Hg Hp) as (peer & Hpe & Hin).
  destruct (remove_rpc_spec p w rpc peer (ci_lists _ Hi) Hp Hpe Hin)
    as (l & gp & Hex & Hl & _ & Hperm).
  destruct (core_inv_unlinked p w rpc peer l gp Hi Hpe Hl) as [Hi' Hf].
  eexists. split; [exact Hex |]. split_ands; done.
Qed.

(** Grants only grow, and an RPC leaves the lists only when its message is
    granted completely. *)
Definition progress (w w' : world) : Prop :=
  forall q r', w_rpcs w' !! q = Some r' -> exists r, w_rpcs w !! q = Some r /\
    mi_granted (rpc_msgin r) <= mi_granted (rpc_msgin r') /\
    mi_length (rpc_msgin r') = mi_length (rpc_msgin r) /\
    (q ∈ world_grantable w -> mi_granted (rpc_msgin r') < mi_length (rpc_msgin r') ->
     q ∈ world_grantable w').

#[export] Instance progress_preorder : PreOrder progress.
Proof.
  split.
  - intros w q r' Hr. exists r'. split_ands; done || lia.
  - intros a b c Hab Hbc q r'' Hc. destruct (Hbc q r'' Hc) as (r' & Hb & Hg' & Hl' & Hin').
    destruct (Hab q r' Hb) as (r & Ha & Hg & Hl & Hin). exists r.
    split_ands; [done | lia | lia |]. intros Hq Hlt. apply Hin'; [|done]. apply Hin; [done | lia].
Qed.

Lemma progress_insert w w' p r r' :
  w_rpcs w !! p = Some r -> rpc_rest r' = rpc_rest r ->
  mi_granted (rpc_msgin r) <= mi_granted (rpc_msgin r') ->
  w_rpcs w' = <[p := r']> (w_rpcs w) ->
  (forall q, q ∈ world_grantable w -> q ∈ world_grantable w') -> progress w w'.
Proof.
  intros Hp Hr Hg Hrpcs Hin. destruct (rpc_rest_fields _ _ Hr) as (_ & _ & _ & _ & Hl & _).
  intros q x. rewrite Hrpcs. intros [[<- <-] | [Hne Hx]]%lookup_insert_Some.
  - exists r. split_ands; done || auto.
  - exists x. split_ands; done || auto.
Qed.

(** What a step of the recalculation keeps. *)
Record step_ok (w w' : world) : Prop := {
  so_core : core_inv w';
  so_frame : grant_frame w w';
  so_ranks : forall q r', w_rpcs w' !! q = Some r' ->
    exists r, w_rpcs w !! q = Some r /\ slot_of r' = slot_of r;
  so_active : h_active_rpcs (w_homa w') = h_active_rpcs (w_homa w) /\
    h_num_active_rpcs (w_homa w') = h_num_active_rpcs (w_homa w) /\
    h_active_remaining (w_homa w') = h_active_remaining (w_homa w);
  so_grantable : world_grantable w' ⊆+ world_grantable w;
  so_keys : same_keys w w';
  so_progress : progress w w'
}.

#[export] Instance step_ok_trans : Transitive step_ok.
Proof.
  intros a b c [? ? Hab (? & ? & ?) ? Hk ?] [? ? Hbc (? & ? & ?) ? Hk' ?]. constructor; try done.
  - by etransitivity.
  - intros q r' Hr'. destruct (Hbc q r' Hr') as (r1 & Hr1 & ->). eauto.
  - split_ands; congruence.
  - by etransitivity.
  - intros q. by rewrite Hk', Hk.
  - by etransitivity.
Qed.

Lemma same_keys_insert w w' p r r' :
  w_rpcs w !! p = Some r -> rpc_rest r' = rpc_rest r ->
  mi_birth (rpc_msgin r') = mi_birth (rpc_msgin r) ->
  w_rpcs w' = <[p := r']> (w_rpcs w) -> same_keys w w'.
Proof.
  intros Hp Hrest Hb Hr q. rewrite Hr.
  destruct (rpc_rest_fields _ _ Hrest) as (_ & _ & _ & _ & _ & Hbr & _).
  destruct (decide (q = p)) as [-> |].
  - rewrite lookup_insert_eq, Hp. unfold key_of. simpl. by rewrite Hb, Hbr.
  - by rewrite lookup_insert_ne.
Qed.

(** Changing one RPC within the frame is a step. *)
Lemma step_ok_insert w w' p r r' :
  core_inv w -> w_rpcs w !! p = Some r -> rpc_rest r' = rpc_rest r ->
  slot_of r' = slot_of r -> mi_birth (rpc_msgin r') = mi_birth (rpc_msgin r) ->
  mi_granted (rpc_msgin r) <= mi_granted (rpc_msgin r') ->
  core_inv w' -> grant_frame w w' -> world_grantable w' = world_grantable w ->
  w_rpcs w' = <[p := r']> (w_rpcs w) ->
  h_active_rpcs (w_homa w') = h_active_rpcs (w_homa w) ->
  h_num_active_rpcs (w_homa w') = h_num_active_rpcs (w_homa w) ->
  h_active_remaining (w_homa w') = h_active_remaining (w_homa w) ->
  step_ok w w'.
Proof.
  intros Hi Hp Hr Hrk Hb Hgr Hi' Hf Hg Hrpcs ???. constructor; try done.
  - rewrite Hrpcs. intros q x [[<- <-] | [Hne Hx]]%lookup_insert_Some; eauto.
  - by rewrite Hg.
  - by eapply (same_keys_insert w w' p r r').
  - eapply (progress_insert w w' p r r'); try done. by rewrite Hg.
Qed.

(** [atomic_dec(&rpc->grants_in_progress)] *)
Lemma dec_grants_in_progress p w rpc :
  core_inv w -> w_rpcs w !! p = Some rpc ->
  let w' := w <| w_rpcs ::= insert p
    (rpc <| rpc_grants_in_progress ::= fun g => g - 1 |>) |> in
  step_ok w w' /\ weight w' = weight w /\ world_grantable w' = world_grantable w.
Proof.
  intros Hi Hp w'.
  destruct (core_inv_insert w w' p rpc (rpc <| rpc_grants_in_progress ::= fun g => g - 1 |>))
    as [Hi' Hg]; try done; [simpl; lia |].
  split_ands; [|unfold weight; rewrite Hg; apply Zsum_ext; intros q _ | done].
  - eapply (step_ok_insert w w' p rpc (rpc <| rpc_grants_in_progress ::= _ |>)); try done; try (simpl; lia).
    constructor; try done. simpl. by eapply rest_insert.
  - unfold stale. simpl. destruct (decide (q = p)) as [-> |].
    + by rewrite lookup_insert_eq, Hp.
    + by rewrite lookup_insert_ne.
Qed.

Lemma step_ok_refl w : core_inv w -> step_ok w w.
Proof. intros. constructor; try done. eauto. Qed.

(** Removing a fully granted RPC. *)
Lemma remove_step p w rpc :
  core_inv w -> w_rpcs w !! p = Some rpc -> p ∈ world_grantable w ->
  mi_length (rpc_msgin rpc) <= mi_granted (rpc_msgin rpc) ->
  exists w', homa_grant_remove_rpc p w = Ok (tt, w') /\ step_ok w w' /\
    w_rpcs w' = w_rpcs w /\ weight w' + 1 <= weight w /\
    p :: world_grantable w' ≡ₚ world_grantable w.
Proof.
  intros Hi Hp Hg Hfull.
  destruct (remove_rpc_inv p w rpc Hi Hp Hg) as (w' & Hex & Hi' & Hf & Hr & Hperm & Ha).
  exists w'. split_ands; try done.
  - constructor; try done.
    + rewrite Hr. eauto.
    + rewrite <- Hperm. by apply submseteq_cons.
    + intros q. by rewrite Hr.
    + intros q r' Hq. rewrite Hr in Hq. exists r'. split_ands; try done.
      intros Hin Hlt. rewrite <- Hperm in Hin.
      apply elem_of_cons in Hin as [-> |]; [|done]. simplify_eq. lia.
  - unfold weight. rewrite <- (Zsum_perm _ _ _ Hperm). simpl. rewrite Hr.
    pose proof (stale_bounds (w_rpcs w) p). lia.
Qed.

Definition same_lists (w w' : world) : Prop :=
  w_peers w' = w_peers w /\
  h_grantable_peers (w_homa w') = h_grantable_peers (w_homa w).

Lemma grant_one_spec p w :
  core_inv w -> p ∈ world_grantable w ->
  exists t w', grant_one p w = Ok (t, w') /\ 0 <= t /\ step_ok w w' /\
    weight w' + Z.min 1 t <= weight w /\
    (t = 0 -> same_lists w w') /\
    (forall q, q ∈ world_grantable w -> q <> p -> q ∈ world_grantable w').
Proof.
  intros Hi Hg. destruct (grantable_live w p (ci_lists _ Hi) Hg) as [rpc Hp].
  destruct (send_update_spec p w rpc Hi Hp) as (again & w1 & rpc1 & Hex & Hi1 & Hf1 & Hg1 &
    Hr1 & Hrest1 & Hrk1 & Hbi1 & Hgr1 & Hpe1 & Hh1 & Hst1 & Hst0).
  assert (w_rpcs w1 !! p = Some rpc1) as Hp1 by (rewrite Hr1; apply lookup_insert_eq).
  apply bind_Ok in Hex as (? & w0 & Hsend & Hupd).
  unfold grant_one. rewrite (bind_eq _ _ _ _ _ Hsend), (bind_eq _ _ _ _ _ Hupd). step.
  assert (step_ok w w1) as Hs1 by (eapply step_ok_insert; try done; by rewrite Hh1).
  assert (weight w1 + Z.b2z again <= weight w) as Hw1.
  { unfold weight. rewrite Hg1.
    assert (forall q, 1 + stale (w_rpcs w1) q <= 1 + stale (w_rpcs w) q) as Hle.
    { intros q. destruct (decide (q = p)) as [-> |];
        [rewrite Hst1; pose proof (stale_bounds (w_rpcs w) p); lia |].
      rewrite Hr1, stale_insert_ne by done. lia. }
    destruct again; simpl; [|rewrite Z.add_0_r; by apply Zsum_le].
    apply (Zsum_lt _ _ _ p); [done | done |]. rewrite Hst1, Hst0 by done. lia. }
  destruct (Z.geb_spec (mi_granted (rpc_msgin rpc1)) (mi_length (rpc_msgin rpc1))).
  - rewrite <- Hg1 in Hg.
    destruct (remove_step p w1 rpc1 Hi1 Hp1 Hg ltac:(lia)) as (w2 & Hex2 & Hs2 & Hr2 & Hw2 & Hp2).
    rewrite (bind_eq _ _ _ 1 w2) by (by rewrite (bind_eq _ _ _ _ _ Hex2)).
    rewrite <- Hr2 in Hp1. pose proof (so_core _ _ Hs2) as Hi2.
    destruct (dec_grants_in_progress p w2 rpc1 Hi2 Hp1) as (Hs3 & Hw3 & Hg3).
    erewrite bind_eq by (apply upd_rpc_eq; exact Hp1).
    eexists _, _. split; [reflexivity |]. split; [destruct again; simpl; lia |].
    split; [by etransitivity; [etransitivity |] |].
    split; [rewrite Hw3; destruct again; simpl in *; lia |].
    split; [destruct again; simpl; lia |]. rewrite Hg3, <- Hg1. intros q Hq Hne.
    rewrite <- Hp2 in Hq. by apply elem_of_cons in Hq as [-> | Hq].
  - step. destruct (dec_grants_in_progress p w1 rpc1 Hi1 Hp1) as (Hs3 & Hw3 & Hg3).
    erewrite bind_eq by (apply upd_rpc_eq; exact Hp1).
    eexists _, _. split; [reflexivity |]. split; [destruct again; simpl; lia |].
    split; [by etransitivity |].
    split; [rewrite Hw3; destruct again; simpl in *; lia |].
    rewrite Hg3, Hg1. split; [|done]. intros _. split; [done |]. simpl. by rewrite Hh1.
Qed.

Lemma send_grants_spec l : forall w,
  core_inv w -> NoDup l -> (forall p, p ∈ l -> p ∈ world_grantable w) ->
  exists t w', send_grants l w = Ok (t, w') /\ 0 <= t /\ step_ok w w' /\
    weight w' + Z.min 1 t <= weight w /\ (t = 0 -> same_lists w w').
Proof.
  induction l as [|p l IH]; intros w Hi Hnd Hl; simpl.
  { exists 0, w. split_ands; try done; try lia. by apply step_ok_refl. }
  apply NoDup_cons in Hnd as [Hp Hnd].
  destruct (grant_one_spec p w Hi (Hl p ltac:(set_solver)))
    as (t1 & w1 & Hex1 & Ht1 & Hs1 & Hw1 & Hz1 & Hg1).
  destruct (IH w1 (so_core _ _ Hs1) Hnd) as (t2 & w2 & Hex2 & Ht2 & Hs2 & Hw2 & Hz2).
  { intros q Hq. apply Hg1; [apply Hl; set_solver | by intros ->]. }
  rewrite (bind_eq _ _ _ _ _ Hex1), (bind_eq _ _ _ _ _ Hex2).
  exists (t1 + t2), w2. split_ands; try done; try lia.
  - by etransitivity.
  - intros Ht. destruct (Hz1 ltac:(lia)), (Hz2 ltac:(lia)). split; congruence.
Qed.

(** ** Ranks *)
Definition unranked (rpc : homa_rpc) : homa_rpc :=
  rpc <| rpc_msgin ::= fun mi => mi <| mi_rank := -1 |> |>.

(** What setting ranks and priorities changes. *)
Record rank_step (w w' : world) : Prop := {
  rs_core : core_inv w';
  rs_frame : grant_frame w w';
  rs_peers : w_peers w' = w_peers w;
  rs_gp : h_grantable_peers (w_homa w') = h_grantable_peers (w_homa w);
  rs_stale : forall q, stale (w_rpcs w') q = stale (w_rpcs w) q;
  rs_keys : same_keys w w';
  rs_progress : progress w w'
}.

#[export] Instance rank_step_trans : Transitive rank_step.
Proof.
  intros a b c [? ? ? ? Hs Hk ?] [? ? ? ? Hs' Hk' ?].
  constructor; [done | by etransitivity | congruence | congruence | | | by etransitivity];
    intros q; [by rewrite Hs', Hs | by rewrite Hk', Hk].
Qed.

Lemma rank_step_refl w : core_inv w -> rank_step w w.
Proof. by constructor; try done. Qed.

Lemma rank_step_grantable w w' :
  rank_step w w' -> world_grantable w' = world_grantable w /\ weight w' = weight w.
Proof.
  intros [_ _ Hp Hg Hs _ _].
  assert (world_grantable w' = world_grantable w) as H
    by (unfold world_grantable; by rewrite Hp, Hg).
  split; [done |]. unfold weight. rewrite H. apply Zsum_ext. intros. by rewrite Hs.
Qed.

Lemma rank_step_insert w w' p r r' :
  core_inv w -> w_rpcs w !! p = Some r -> rpc_rest r' = rpc_rest r ->
  mi_rec_incoming (rpc_msgin r') = mi_rec_incoming (rpc_msgin r) ->
  mi_granted (rpc_msgin r') = mi_granted (rpc_msgin r) ->
  mi_birth (rpc_msgin r') = mi_birth (rpc_msgin r) ->
  w_rpcs w' = <[p := r']> (w_rpcs w) -> w_peers w' = w_peers w ->
  w_socks w' = w_socks w -> w_peertab w' = w_peertab w -> w_socktab w' = w_socktab w ->
  w_interests w' = w_interests w -> w_host w' = w_host w -> w_released w' = w_released w ->
  w_clock w' = w_clock w -> w_stack w' = w_stack w ->
  homa_rest (w_homa w') = homa_rest (w_homa w) ->
  h_grantable_peers (w_homa w') = h_grantable_peers (w_homa w) ->
  h_num_grantable_rpcs (w_homa w') = h_num_grantable_rpcs (w_homa w) ->
  h_total_incoming (w_homa w') = h_total_incoming (w_homa w) ->
  rank_step w w'.
Proof.
  intros Hi Hp Hrest Hrec Hgr Hbi Hr Hpe Hs Hpt Hstb Hint Hho Hrl Hc Hst Hh Hgp Hn Ht.
  destruct (core_inv_insert w w' p r r') as [Hi' _]; try done; [lia |].
  destruct (rpc_rest_fields _ _ Hrest) as (_ & _ & _ & _ & Hl & Hb & _).
  constructor; try done.
  - constructor; try done; [|by rewrite Hpe]. rewrite Hr. by eapply rest_insert.
  - rewrite Hr. intros q. destruct (decide (q = p)) as [-> |]; [|by apply stale_insert_ne].
    unfold stale. rewrite lookup_insert_eq, Hp.
    unfold incoming_of. by rewrite Hrec, Hgr, Hl, Hb.
  - by eapply (same_keys_insert w w' p r r').
  - eapply (progress_insert w w' p r r'); try done; [lia |].
    unfold world_grantable. by rewrite Hgp, Hpe.
Qed.

Lemma clear_ranks_spec n : forall i w,
  core_inv w -> 0 <= i ->
  (forall j, i <= j < i + Z.of_nat n -> exists p,
     h_active_rpcs (w_homa w) !! Z.to_nat j = Some (Some p) /\ is_Some (w_rpcs w !! p)) ->
  exists w', clear_ranks i n w = Ok (tt, w') /\ rank_step w w' /\ w_homa w' = w_homa w /\
    forall q r', w_rpcs w' !! q = Some r' -> mi_rank (rpc_msgin r') = -1 \/
      (w_rpcs w !! q = Some r' /\ forall j, i <= j < i + Z.of_nat n ->
         h_active_rpcs (w_homa w) !! Z.to_nat j <> Some (Some q)).
Proof.
  induction n as [|n IH]; intros i w Hi Hi0 Ha; cbn [clear_ranks].
  { exists w. split_ands; try done.
    intros q r' Hq. right. split; [done |]. lia. }
  step. destruct (Ha i ltac:(lia)) as (p & Hp & [r Hr]).
  unfold ptr_at, lift. rewrite (bind_eq _ _ _ p w); [|].
  2:{ unfold bind. by rewrite (proj2 (arr_Ok _ _ _) (conj Hi0 Hp)). }
  unfold upd_msgin. erewrite bind_eq by (apply upd_rpc_eq; exact Hr).
  set (w1 := w <| w_rpcs ::= _ |>).
  assert (rank_step w w1) as Hs1 by (by apply (rank_step_insert w w1 p r (unranked r))).
  destruct (IH (i + 1) w1 (rs_core _ _ Hs1) ltac:(lia)) as (w' & Hex & Hs & Hh & Hrk).
  { intros j Hj. destruct (Ha j ltac:(lia)) as (q & ? & ?). exists q.
    split; [done |]. simpl. apply lookup_insert_is_Some'. auto. }
  exists w'. split_ands; try done; [by etransitivity |].
  intros q r' Hq. destruct (Hrk q r' Hq) as [| [Hq1 Hn]]; [by left |]. simpl in Hq1.
  apply lookup_insert_Some in Hq1 as [[<- <-] | [Hne Hq1]]; [by left |]. right.
  split; [done |]. intros j Hj. destruct (decide (j = i)) as [-> |]; [congruence |].
  apply Hn. lia.
Qed.

Definition ranked (h : homa) (active i : Z) (rpc : homa_rpc) : homa_rpc :=
  rpc <| rpc_grants_in_progress ::= fun g => g + 1 |>
      <| rpc_msgin ::= fun mi => mi <| mi_rank := i |>
           <| mi_priority := grant_priority (h_max_sched_prio h) active i |> |>.

(** The loop that initialises the selected RPCs. *)
Lemma set_ranks_spec active l : forall i w,
  core_inv w -> NoDup l -> (forall p, p ∈ l -> is_Some (w_rpcs w !! p)) -> 0 <= i ->
  i + Z.of_nat (length l) <= Z.of_nat (length (h_active_remaining (w_homa w))) ->
  exists w' rem, set_ranks active i l w = Ok (tt, w') /\ rank_step w w' /\
    w_homa w' = (w_homa w) <| h_active_remaining := rem |> /\
    length rem = length (h_active_remaining (w_homa w)) /\
    (forall q, q ∉ l -> w_rpcs w' !! q = w_rpcs w !! q) /\
    (forall k, (k < Z.to_nat i)%nat -> rem !! k = h_active_remaining (w_homa w) !! k) /\
    (forall j q, l !! j = Some q -> exists r, w_rpcs w !! q = Some r /\
      w_rpcs w' !! q = Some (ranked (w_homa w) active (i + Z.of_nat j) r) /\
      rem !! (Z.to_nat i + j)%nat = Some (mi_bytes_remaining (rpc_msgin r))).
Proof.
  induction l as [|p l IH]; intros i w Hi Hnd Hl Hi0 Hlen; cbn [set_ranks].
  { exists w, (h_active_remaining (w_homa w)). split_ands; try done. by destruct w as [[]]. }
  apply NoDup_cons in Hnd as [Hp Hnd]. destruct (Hl p ltac:(set_solver)) as [r Hr].
  step. step. cbn [length] in Hlen. unfold lift.
  rewrite (bind_eq _ _ _ (<[Z.to_nat i := mi_bytes_remaining (rpc_msgin r)]>
    (h_active_remaining (w_homa w))) w).
  2:{ rewrite (proj2 (arr_set_Ok _ i _ _)) by (split; [lia | reflexivity]). done. }
  set (rem1 := <[_ := _]> _).
  erewrite bind_eq by (apply upd_rpc_eq; exact Hr). step.
  set (w1 := _ <| w_homa ::= _ |>).
  assert (rank_step w w1) as Hs1
    by (by apply (rank_step_insert w w1 p r (ranked (w_homa w) active i r))).
  destruct (IH (i + 1) w1 (rs_core _ _ Hs1) Hnd) as (w' & rem & Hex & Hs & Hh & Hlen' & Hn & Hk & Hj).
  { intros q Hq. simpl. apply lookup_insert_is_Some'. right. apply Hl. set_solver. }
  { lia. }
  { simpl. unfold rem1. rewrite length_insert. lia. }
  exists w', rem. split_ands; try done.
  - by etransitivity.
  - simpl in Hlen'. unfold rem1 in Hlen'. by rewrite length_insert in Hlen'.
  - intros q [Hne Hq]%not_elem_of_cons. rewrite Hn by done. simpl. by rewrite lookup_insert_ne.
  - intros k Hki. rewrite Hk by lia. simpl. unfold rem1. by rewrite list_lookup_insert_ne by lia.
  - intros [|j] q Hq; simpl in Hq.
    + simplify_eq. exists r. split_ands; [done | |].
      * rewrite Hn by done. simpl. by rewrite lookup_insert_eq, Z.add_0_r.
      * rewrite Hk by lia. simpl. unfold rem1. rewrite Nat.add_0_r.
        apply list_lookup_insert_eq. lia.
    + destruct (Hj j q Hq) as (r1 & Hr1 & Hr' & Hrem). simpl in Hr1.
      rewrite lookup_insert_ne in Hr1 by (intros ->; apply Hp; by eapply list_elem_of_lookup_2).
      exists r1. split_ands; [done | |].
      * rewrite Hr'. by replace (i + 1 + Z.of_nat j) with (i + Z.of_nat (S j)) by lia.
      * rewrite <- Hrem. f_equal. lia.
Qed.

(** A change of Homa's fields that are not in the invariant of the lists. *)
Lemma rank_step_homa w h :
  core_inv w -> homa_rest h = homa_rest (w_homa w) ->
  h_grantable_peers h = h_grantable_peers (w_homa w) ->
  h_num_grantable_rpcs h = h_num_grantable_rpcs (w_homa w) ->
  h_total_incoming h = h_total_incoming (w_homa w) ->
  rank_step w (w <| w_homa := h |>).
Proof.
  intros [[Hl Hn] Ho Ht] Hr Hgp Hnum Htot. constructor; try done.
  - constructor; simpl; [split; simpl | done | congruence].
    + by rewrite Hgp.
    + by rewrite Hnum, Hgp.
  - intros q r' Hq. exists r'. split_ands; try done.
    unfold world_grantable. simpl. by rewrite Hgp.
Qed.

Lemma world_grantable_NoDup w : world_lists_ok w -> NoDup (world_grantable w).
Proof.
  intros [[Hnd Hl Hr] _]. unfold world_grantable, grantable. apply NoDup_bind; [| |done].
  - intros a b p _ _. unfold rpcs_of.
    destruct (w_peers w !! a) as [pa|] eqn:Ea; [|by intros ?%elem_of_nil].
    destruct (w_peers w !! b) as [pb|] eqn:Eb; [|by intros _ ?%elem_of_nil].
    intros Ha Hb. destruct (proj2 (Hr a pa Ea) p Ha) as (ra & Hra & <-).
    destruct (proj2 (Hr b pb Eb) p Hb) as (rb & Hrb & <-). congruence.
  - intros a _. unfold rpcs_of. destruct (w_peers w !! a) as [pa|] eqn:Ea; [|constructor].
    by apply (Hr a pa Ea).
Qed.

(** Steps that keep the ranks and the arrays keep the invariant on them. *)
Lemma active_inv_step w w' : active_inv w -> step_ok w w' -> active_inv w'.
Proof.
  intros [Harr Hnum Ha Hr] [_ [Hrp _ _ _ _ _ _ _] Hrk (E1 & E2 & E3) _ _ _].
  constructor; rewrite ?E1, ?E2, ?E3; [done | done | |].
  - intros i Hi. destruct (Ha i Hi) as (p & rpc & Hp & Hl & Hi').
    destruct (rest_lookup _ _ _ _ Hrp Hl) as (rpc' & Hl' & _).
    destruct (Hrk p rpc' Hl') as (x & Hx & [= Hxr _]). exists p, rpc'. split_ands; [done | done |].
    congruence.
  - intros p rpc Hp. destruct (Hrk p rpc Hp) as (r & Hr0 & [= -> _]). by apply Hr.
Qed.

Lemma params_ok_frame w w' :
  grant_frame w w' -> params_ok (w_homa w) -> params_ok (w_homa w').
Proof.
  intros [_ _ Hh _ _ _ _ _]. apply (f_equal h_max_overcommit) in Hh. simpl in Hh.
  unfold params_ok. by rewrite Hh.
Qed.

(** No RPC has a rank after the first loop of a round. *)
Lemma clear_ranks_all w :
  core_inv w -> active_inv w ->
  exists w', clear_ranks 0 (Z.to_nat (h_num_active_rpcs (w_homa w))) w = Ok (tt, w') /\
    rank_step w w' /\ w_homa w' = w_homa w /\
    forall q r', w_rpcs w' !! q = Some r' -> mi_rank (rpc_msgin r') = -1.
Proof.
  intros Hi [Harr Hnum Ha Hr].
  destruct (clear_ranks_spec (Z.to_nat (h_num_active_rpcs (w_homa w))) 0 w Hi)
    as (w' & Hex & Hs & Hh & Hrk); [lia | |].
  { intros j Hj. destruct (Ha j ltac:(lia)) as (p & rpc & ? & ? & _). eauto. }
  exists w'. split_ands; try done. intros q r' Hq.
  destruct (Hrk q r' Hq) as [| [Hq' Hno]]; [done |].
  destruct (Hr q r' Hq') as [| [Hb He]]; [done |]. exfalso.
  apply (Hno (mi_rank (rpc_msgin r'))); [lia | done].
Qed.

(** The round up to the loop that sends grants. *)
Record selected (w : world) (l : list ptr) (w' : world) : Prop := {
  se_step : rank_step w w';
  se_active : active_inv w';
  se_nodup : NoDup l;
  se_grantable : forall p, p ∈ l -> p ∈ world_grantable w';
  se_num : h_num_active_rpcs (w_homa w') = Z.of_nat (length l);
  se_rpcs : forall i p, l !! i = Some p -> h_active_rpcs (w_homa w') !! i = Some (Some p) /\
    exists r, w_rpcs w' !! p = Some r /\
      mi_rank (rpc_msgin r) = Z.of_nat i /\
      mi_priority (rpc_msgin r) =
        grant_priority (h_max_sched_prio (w_homa w)) (Z.of_nat (length l)) (Z.of_nat i) /\
      h_active_remaining (w_homa w') !! i = Some (mi_bytes_remaining (rpc_msgin r));
  se_window : h_grant_window (w_homa w') =
    grant_window_of (w_homa w) (Z.of_nat (length l));
  se_pick : l = pick_all w (h_max_overcommit (w_homa w)) (h_max_rpcs_per_peer (w_homa w))
      (h_grantable_peers (w_homa w)) []
}.

Lemma store_active_length l old :
  (length l <= length old)%nat -> length (store_active l old) = length old.
Proof.
  intros H. unfold store_active. rewrite length_app, length_map, length_drop. lia.
Qed.

Lemma store_active_lookup l old i p :
  l !! i = Some p -> store_active l old !! i = Some (Some p).
Proof.
  intros H. unfold store_active. rewrite lookup_app_l.
  - change (map Some l) with (Some <$> l). by rewrite list_lookup_fmap, H.
  - rewrite length_map. by eapply lookup_lt_Some.
Qed.

(** The arrays filled with the selected RPCs, the ranks set. *)
Lemma select_active_inv l old w w' :
  Z.of_nat (length old) = HOMA_MAX_GRANTS -> Z.of_nat (length l) <= HOMA_MAX_GRANTS ->
  (forall q r, w_rpcs w !! q = Some r -> mi_rank (rpc_msgin r) = -1) ->
  h_active_rpcs (w_homa w') = store_active l old ->
  h_num_active_rpcs (w_homa w') = Z.of_nat (length l) ->
  Z.of_nat (length (h_active_remaining (w_homa w'))) = HOMA_MAX_GRANTS ->
  (forall q, q ∉ l -> w_rpcs w' !! q = w_rpcs w !! q) ->
  (forall j q, l !! j = Some q -> exists r,
     w_rpcs w' !! q = Some r /\ mi_rank (rpc_msgin r) = Z.of_nat j) ->
  active_inv w'.
Proof.
  intros Hold Hlen Hrk Hact Hnum Hrem Hn Hj. constructor; rewrite ?Hact, ?Hnum.
  - rewrite store_active_length by lia. done.
  - lia.
  - intros i Hi. destruct (lookup_lt_is_Some_2 l (Z.to_nat i)) as [p Hp]; [lia |].
    destruct (Hj _ _ Hp) as (r & Hr & Hrank). exists p, r. split_ands; [|done | lia].
    by apply store_active_lookup.
  - intros p r Hp. destruct (decide (p ∈ l)) as [Hin | Hin].
    + right. apply list_elem_of_lookup in Hin as [j Hl]. destruct (Hj _ _ Hl) as (r0 & Hr0 & E).
      rewrite Hp in Hr0. simplify_eq. rewrite E, Nat2Z.id.
      apply lookup_lt_Some in Hl as ?. split; [lia | by apply store_active_lookup].
    + left. rewrite Hn in Hp by done. eauto.
Qed.

Lemma select_rpcs_spec w :
  grant_inv w ->
  let l := pick_all w (h_max_overcommit (w_homa w)) (h_max_rpcs_per_peer (w_homa w))
    (h_grantable_peers (w_homa w)) [] in
  exists w', select_rpcs w = Ok (l, w') /\ rank_step w w' /\
    w_homa w' = (w_homa w) <| h_grant_recalc_count ::= fun c => c + 1 |>
      <| h_active_rpcs ::= store_active l |> <| h_num_active_rpcs := Z.of_nat (length l) |> /\
    (forall q r', w_rpcs w' !! q = Some r' -> mi_rank (rpc_msgin r') = -1).
Proof.
  intros (Hi & Ha & Hpar). unfold select_rpcs. step. step.
  set (w0 := w <| w_homa ::= _ |>).
  assert (rank_step w w0) as Hs0 by (by apply rank_step_homa).
  assert (active_inv w0) as Ha0 by (destruct Ha; constructor; done).
  destruct (clear_ranks_all w0 (rs_core _ _ Hs0) Ha0) as (w1 & Hex1 & Hs1 & Hh1 & Hrk1).
  rewrite (bind_eq _ _ _ _ _ Hex1). pose proof (rs_core _ _ Hs1) as Hi1.
  assert (rank_step w w1) as Hs01 by (by etransitivity).
  set (k := h_max_overcommit (w_homa w0)).
  assert (0 <= k <= HOMA_MAX_GRANTS) as Hk
    by (change k with (h_max_overcommit (w_homa w)); destruct Hpar; lia).
  rewrite (bind_eq _ _ _ _ _ (pick_rpcs_exec w1 k (ci_lists _ Hi1) Hk)).
  rewrite Hh1, (pick_all_ext w w1 _ _ _ (rs_keys _ _ Hs01) (rs_peers _ _ Hs01)).
  step. eexists. split; [reflexivity |]. split_ands.
  - etransitivity; [exact Hs01 |]. by apply rank_step_homa.
  - simpl. by rewrite Hh1.
  - done.
Qed.

(** The selected RPCs: distinct, grantable, at most [max_overcommit]. *)
Lemma pick_all_grantable w :
  core_inv w -> 0 <= h_max_overcommit (w_homa w) ->
  let l := pick_all w (h_max_overcommit (w_homa w)) (h_max_rpcs_per_peer (w_homa w))
    (h_grantable_peers (w_homa w)) [] in
  NoDup l /\ (forall p, p ∈ l -> p ∈ world_grantable w) /\
  Z.of_nat (length l) <= h_max_overcommit (w_homa w).
Proof.
  intros Hi Hk l.
  destruct (pick_all_sub w (h_max_overcommit (w_homa w)) (h_max_rpcs_per_peer (w_homa w))
    (h_grantable_peers (w_homa w)) []) as [Hsub Hlen]. fold l in Hsub, Hlen. simpl in Hsub, Hlen.
  fold (world_grantable w) in Hsub. split_ands; [|intros p Hp | lia].
  - eapply submseteq_NoDup; [exact Hsub | apply world_grantable_NoDup, Hi].
  - by eapply elem_of_submseteq.
Qed.

Lemma recalc_select_spec w :
  grant_inv w -> exists l w', recalc_round w = send_grants l w' /\ selected w l w'.
Proof.
  intros Hinv. pose proof Hinv as (Hi & Ha & Hpar). unfold recalc_round.
  destruct (select_rpcs_spec w Hinv) as (w1 & Hex1 & Hs1 & Hh1 & Hrk1).
  destruct (pick_all_grantable w Hi ltac:(destruct Hpar; lia)) as (Hnd & Hin & Hlen).
  set (l := pick_all _ _ _ _ _) in *. rewrite (bind_eq _ _ _ _ _ Hex1).
  pose proof (rs_core _ _ Hs1) as Hi1. destruct Ha as [[Har1 Har2] _ _ _]. destruct Hpar as [_ Hpar].
  destruct (set_ranks_spec (Z.of_nat (length l)) l 0 w1 Hi1 Hnd)
    as (w3 & rem & Hex3 & Hs3 & Hh3 & Hlr & Hn3 & _ & Hj3).
  { intros p Hp. apply (grantable_live w1 p (ci_lists _ Hi1)).
    rewrite (proj1 (rank_step_grantable _ _ Hs1)). by apply Hin. }
  { lia. }
  { rewrite Hh1. simpl. lia. }
  rewrite (bind_eq _ _ _ _ _ Hex3). step. set (w4 := w3 <| w_homa ::= _ |>).
  assert (rank_step w w4) as Hs4.
  { etransitivity; [exact Hs1 |]. etransitivity; [exact Hs3 |].
    apply rank_step_homa; try done. apply Hs3. }
  assert (h_active_rpcs (w_homa w4) = store_active l (h_active_rpcs (w_homa w)) /\
    h_num_active_rpcs (w_homa w4) = Z.of_nat (length l) /\
    h_active_remaining (w_homa w4) = rem /\
    h_grant_window (w_homa w4) = grant_window_of (w_homa w) (Z.of_nat (length l)))
    as (Ea & En & Er & Ew) by (simpl; rewrite Hh3, Hh1; done).
  assert (length rem = length (h_active_remaining (w_homa w))) as Hlr'
    by (rewrite Hlr, Hh1; done).
  assert (forall j q, l !! j = Some q -> exists r, w_rpcs w4 !! q = Some r /\
    mi_rank (rpc_msgin r) = Z.of_nat j /\
    mi_priority (rpc_msgin r) =
      grant_priority (h_max_sched_prio (w_homa w)) (Z.of_nat (length l)) (Z.of_nat j) /\
    rem !! j = Some (mi_bytes_remaining (rpc_msgin r))) as Hj4.
  { intros j q Hq. destruct (Hj3 j q Hq) as (r & _ & Hr & Hrem). eexists. split; [exact Hr |].
    split_ands; [done | by rewrite Hh1 | done]. }
  exists l, w4. split; [done |]. constructor; try done.
  - apply (select_active_inv l (h_active_rpcs (w_homa w)) w1 w4); try done; try lia.
    + by rewrite Er, Hlr'.
    + intros j q Hq. destruct (Hj4 j q Hq) as (r & ? & ? & _). eauto.
  - intros p Hp. rewrite (proj1 (rank_step_grantable _ _ Hs4)). by apply Hin.
  - intros j p Hp. rewrite Ea, Er. split; [by apply store_active_lookup | by apply Hj4].
Qed.

(** ** One round *)

(** The active RPCs are those that [homa_grant_pick_rpcs] selects, with their
    ranks, priorities and remaining bytes. *)
Definition settled (w : world) : Prop :=
  let h := w_homa w in
  let l := pick_all w (h_max_overcommit h) (h_max_rpcs_per_peer h) (h_grantable_peers h) [] in
  h_num_active_rpcs h = Z.of_nat (length l) /\
  forall i p, l !! i = Some p -> h_active_rpcs h !! i = Some (Some p) /\
    exists r, w_rpcs w !! p = Some r /\
      slot_of r = (Z.of_nat i,
        grant_priority (h_max_sched_prio h) (Z.of_nat (length l)) (Z.of_nat i)) /\
      h_active_remaining h !! i = Some (mi_bytes_remaining (rpc_msgin r)).

Lemma settled_active_grantable w : grant_inv w -> settled w -> active_grantable w.
Proof.
  intros (Hi & _ & Hpar) [Hnum Hs] i p Hr Hp.
  destruct (pick_all_grantable w Hi ltac:(destruct Hpar; lia)) as (_ & Hin & _).
  set (l := pick_all _ _ _ _ _) in *. rewrite Hnum in Hr.
  destruct (lookup_lt_is_Some_2 l (Z.to_nat i)) as [q Hq]; [lia |].
  destruct (Hs _ _ Hq) as [Hq' _]. rewrite Hp in Hq'. injection Hq' as <-.
  apply Hin. by eapply list_elem_of_lookup_2.
Qed.

(** Sending grants that remove nothing leaves the selection in place. *)
Lemma selected_settled w l w1 w' :
  selected w l w1 -> step_ok w1 w' -> same_lists w1 w' -> settled w'.
Proof.
  intros [Hs1 _ _ _ Hnum Hrpcs _ Hpick] Hs [Hp Hg].
  assert (pick_all w' (h_max_overcommit (w_homa w')) (h_max_rpcs_per_peer (w_homa w'))
    (h_grantable_peers (w_homa w')) [] = l /\
    h_max_sched_prio (w_homa w') = h_max_sched_prio (w_homa w)) as [Hl Hprio].
  { assert (homa_rest (w_homa w') = homa_rest (w_homa w)) as Hh
      by (rewrite (gf_homa _ _ (so_frame _ _ Hs)); apply Hs1).
    pose proof (f_equal h_max_overcommit Hh) as E1. pose proof (f_equal h_max_rpcs_per_peer Hh) as E2.
    pose proof (f_equal h_max_sched_prio Hh) as E3. simpl in E1, E2, E3.
    split; [|done]. rewrite E1, E2, Hg, (rs_gp _ _ Hs1), Hpick. apply pick_all_ext.
    - intros q. by rewrite (so_keys _ _ Hs), (rs_keys _ _ Hs1).
    - by rewrite Hp, (rs_peers _ _ Hs1). }
  destruct (so_active _ _ Hs) as (Ea & En & Er).
  unfold settled. rewrite Hl, Hprio, Ea, En, Er. split; [done |]. intros i p Hi.
  destruct (Hrpcs i p Hi) as (Ha & r & Hr & Hrank & Hpri & Hrem). split; [done |].
  destruct (rest_lookup _ _ _ _ (gf_rpcs _ _ (so_frame _ _ Hs)) Hr) as (r' & Hr' & Hrest).
  destruct (so_ranks _ _ Hs p r' Hr') as (x & Hx & Hslot).
  rewrite Hr in Hx. injection Hx as <-. exists r'. split; [done |].
  destruct (rpc_rest_fields _ _ Hrest) as (_ & _ & _ & _ & _ & Hb & _).
  rewrite Hslot, Hb. split; [unfold slot_of; by rewrite Hrank, Hpri | done].
Qed.

Lemma recalc_round_spec w :
  grant_inv w ->
  exists t w', recalc_round w = Ok (t, w') /\ 0 <= t /\ grant_inv w' /\ grant_frame w w' /\
    weight w' + Z.min 1 t <= weight w /\ (t = 0 -> settled w') /\
    world_grantable w' ⊆+ world_grantable w /\ progress w w'.
Proof.
  intros Hinv. destruct (recalc_select_spec w Hinv) as (l & w1 & -> & Hsel).
  pose proof Hsel as [Hs1 Ha1 Hnd Hg _ _ _ _].
  destruct (send_grants_spec l w1 (rs_core _ _ Hs1) Hnd Hg) as (t & w' & Hex & Ht & Hs & Hw & Hz).
  destruct (rank_step_grantable _ _ Hs1) as [Hg1 Hw1].
  assert (grant_frame w w') as Hf by (etransitivity; [apply Hs1 | apply Hs]).
  exists t, w'. split_ands; try done.
  - unfold grant_inv. split_ands; [apply Hs | by eapply active_inv_step |].
    eapply params_ok_frame; [exact Hf | apply Hinv].
  - by rewrite <- Hw1.
  - intros Ht0. eapply selected_settled; eauto.
  - rewrite <- Hg1. apply Hs.
  - etransitivity; [apply Hs1 | apply Hs].
Qed.

(** ** The loop *)
Lemma weight_bounds w : 0 <= weight w <= 2 * Z.of_nat (length (world_grantable w)).
Proof.
  unfold weight. induction (world_grantable w) as [|q l IH]; simpl; [lia |].
  pose proof (stale_bounds (w_rpcs w) q). lia.
Qed.

(** What every operation on grants keeps. *)
Record grant_ok (w w' : world) : Prop := {
  go_inv : grant_inv w';
  go_frame : grant_frame w w';
  go_progress : progress w w';
  go_active : active_grantable w -> active_grantable w'
}.

#[export] Instance grant_ok_trans : Transitive grant_ok.
Proof. intros a b c [] []. constructor; [done | by etransitivity | by etransitivity | auto]. Qed.

Lemma grant_ok_refl w : grant_inv w -> grant_ok w w.
Proof. by constructor. Qed.

Lemma grant_inv_step w w' : grant_inv w -> step_ok w w' -> grant_inv w'.
Proof.
  intros (Hi & Ha & Hp) Hs. unfold grant_inv. split_ands; [apply Hs | by eapply active_inv_step |].
  eapply params_ok_frame; [apply Hs | done].
Qed.

Lemma grant_ok_step w w' :
  grant_inv w -> step_ok w w' -> world_grantable w' = world_grantable w -> grant_ok w w'.
Proof.
  intros Hi Hs Hg. constructor; [by eapply grant_inv_step | apply Hs | apply Hs |].
  intros Ha i p. destruct (so_active _ _ Hs) as (E1 & E2 & _). rewrite E1, E2, Hg. apply Ha.
Qed.

Lemma recalc_loop_spec fuel : forall w,
  grant_inv w -> weight w < Z.of_nat fuel ->
  exists w', recalc_loop fuel w = Ok (tt, w') /\ grant_ok w w' /\ settled w' /\
    world_grantable w' ⊆+ world_grantable w.
Proof.
  induction fuel as [|fuel IH]; intros w Hi Hf; [pose proof (weight_bounds w); lia |].
  cbn [recalc_loop].
  destruct (recalc_round_spec w Hi) as (t & w1 & Hex & Ht & Hi1 & Hf1 & Hw1 & Ha1 & Hsub1 & Hp1).
  rewrite (bind_eq _ _ _ _ _ Hex). destruct (Z.eqb_spec t 0) as [-> | Hne].
  - exists w1. split_ands; [done | | auto | done].
    constructor; try done. intros _. apply settled_active_grantable; auto.
  - destruct (IH w1 Hi1 ltac:(lia)) as (w' & Hex' & Hok & Ha & Hsub). exists w'.
    split_ands; try done; [|by etransitivity].
    destruct Hok. constructor; [done | by etransitivity | by etransitivity |].
    intros _. by apply settled_active_grantable.
Qed.

Lemma recalc_spec w :
  grant_inv w ->
  exists w', homa_grant_recalc w = Ok (tt, w') /\ grant_ok w w' /\ settled w' /\
    world_grantable w' ⊆+ world_grantable w.
Proof.
  intros Hi. unfold homa_grant_recalc. step. apply recalc_loop_spec; [done |].
  pose proof (weight_bounds w) as Hw. destruct Hi as ([[_ Hn] _ _] & _).
  unfold recalc_fuel, world_grantable in *. lia.
Qed.
