(* ===== verification/GrantCheck.v ===== *)
(** * Granting to one RPC, and freeing it (homa_grant.c)

    [homa_grant_check_rpc] and [homa_grant_free_rpc] preserve the invariant
    of the grant state. *)
From S2P Require Import Prelude Lists Wire Types Example Control Grant GrantLists GrantPick GrantRecalc.

(** ** The other steps of [homa_grant_check_rpc] *)
Lemma update_step p w rpc :
  core_inv w -> w_rpcs w !! p = Some rpc ->
  exists b w' rpc', homa_grant_update_incoming p w = Ok (b, w') /\ step_ok w w' /\
    world_grantable w' = world_grantable w /\ w_peers w' = w_peers w /\
    w_rpcs w' !! p = Some rpc' /\ mi_rec_incoming (rpc_msgin rpc') =
      Z.max 0 (incoming_of (rpc_msgin rpc)).
Proof.
  intros Hi Hp. rewrite (update_incoming_exec p w rpc Hp). cbv zeta.
  eexists _, _, _. split; [reflexivity |]. match goal with |- step_ok _ ?W /\ _ => set (w' := W) end.
  destruct (core_inv_insert w w' p rpc (set_msgin (recorded (rpc_msgin rpc)) rpc)) as [Hi' Hg];
    try done; [simpl; lia |].
  split_ands; try done; [|apply lookup_insert_eq | done].
  apply (step_ok_insert w w' p rpc (set_msgin (recorded (rpc_msgin rpc)) rpc)); try done.
  constructor; try done. simpl. by eapply rest_insert.
Qed.

Lemma send_update_step p w rpc :
  core_inv w -> w_rpcs w !! p = Some rpc ->
  exists b0 b w0 w' rpc', homa_grant_send p w = Ok (b0, w0) /\
    homa_grant_update_incoming p w0 = Ok (b, w') /\ step_ok w w' /\
    world_grantable w' = world_grantable w /\ w_peers w' = w_peers w /\
    w_rpcs w' !! p = Some rpc'.
Proof.
  intros Hi Hp. destruct (send_update_spec p w rpc Hi Hp) as (b & w' & rpc' & Hex & Hi1 & Hf1 &
    Hg1 & Hr1 & Hrest1 & Hrk1 & Hbi1 & Hgr1 & Hpe1 & Hh1 & _).
  apply bind_Ok in Hex as (b0 & w0 & H0 & H1). exists b0, b, w0, w', rpc'.
  split_ands; try done; [|by rewrite Hr1, lookup_insert_eq].
  eapply (step_ok_insert w w' p rpc rpc'); try done; by rewrite Hh1.
Qed.

Lemma add_step p w rpc peer :
  grant_inv w -> w_rpcs w !! p = Some rpc -> w_peers w !! rpc_peer rpc = Some peer ->
  p ∉ peer_grantable_rpcs peer ->
  exists w', homa_grant_add_rpc p w = Ok (tt, w') /\ grant_ok w w' /\ p ∈ world_grantable w'.
Proof.
  intros ([Hl Ho Ht] & Ha & Hpar) Hp Hpe Hn.
  destruct (add_rpc_new p w rpc peer Hl Hp Hpe Hn) as (Hex & Hl' & Hperm).
  set (w' := linked _ _ _ _ _ _) in *. change (grantable _ (w_peers w')) with (world_grantable w') in Hperm.
  fold (world_grantable w) in Hperm. set (rpc' := born (w_clock w (w_tick w)) rpc) in *.
  assert (w_rpcs w' = <[p := rpc']> (w_rpcs w)) as Hr' by done.
  assert (forall q, q ∈ world_grantable w -> q ∈ world_grantable w') as Hin
    by (intros q Hq; rewrite Hperm; set_solver).
  exists w'. split_ands; [done | | rewrite Hperm; set_solver]. constructor.
  - unfold grant_inv. split_ands; [constructor | |done]; try done.
    + rewrite Hr'. intros q x [[<- <-] | [Hne Hx]]%lookup_insert_Some; simpl.
      * destruct (Ho p rpc Hp) as [? ?]. split; [by apply lookup_insert_is_Some'; right | done].
      * destruct (Ho q x Hx) as [? ?]. split; [by apply lookup_insert_is_Some'; right | done].
    + rewrite Hr', (sum_rec_insert _ _ rpc) by done. simpl. rewrite <- Ht. lia.
    + destruct Ha as [Harr Hnum Hact Hrk]. constructor; try done; rewrite Hr'.
      * intros i Hi. destruct (Hact i Hi) as (q & r & Hq & Hr & E).
        destruct (decide (q = p)) as [-> |].
        -- exists p, rpc'. rewrite lookup_insert_eq. simplify_eq. done.
        -- exists q, r. by rewrite lookup_insert_ne.
      * intros q x [[<- <-] | [Hne Hx]]%lookup_insert_Some; [exact (Hrk _ _ Hp) | eauto].
  - constructor; try done; [rewrite Hr'; by eapply rest_insert | by eapply peer_rest_insert].
  - by eapply (progress_insert w w' p rpc rpc').
  - intros Hag i q Hi Hq. apply Hin. by eapply Hag.
Qed.

Lemma linked_grantable w p rpc peer :
  world_lists_ok w -> w_peers w !! rpc_peer rpc = Some peer ->
  p ∈ peer_grantable_rpcs peer -> p ∈ world_grantable w.
Proof.
  intros [Hok _] Hpe Hin. apply elem_of_grantable. exists (rpc_peer rpc). split.
  - apply (lo_linked _ _ _ Hok). exists peer. split; [done |]. by intros E; rewrite E, elem_of_nil in Hin.
  - unfold rpcs_of. by rewrite Hpe.
Qed.

(** Needing grants: a message that has buffers, is alive and is not granted
    completely. *)
Definition wants_grant (rpc : homa_rpc) : Prop :=
  0 <= mi_length (rpc_msgin rpc) /\ rpc_state_ rpc <> RPC_DEAD /\
  0 < mi_num_bpages (rpc_msgin rpc) /\
  mi_granted (rpc_msgin rpc) < mi_length (rpc_msgin rpc).

(** The postcondition of [homa_grant_check_rpc]. *)
Definition checked (p : ptr) (w w' : world) : Prop :=
  grant_ok w w' /\
  forall rpc', w_rpcs w' !! p = Some rpc' -> wants_grant rpc' -> p ∈ world_grantable w'.

Lemma checked_progress p w w1 w' :
  grant_ok w w1 -> p ∈ world_grantable w1 -> grant_ok w1 w' -> checked p w w'.
Proof.
  intros H1 Hg H2. split; [by etransitivity |]. intros rpc' Hr (_ & _ & _ & Hlt).
  destruct (go_progress _ _ H2 p rpc' Hr) as (_ & _ & _ & _ & H). auto.
Qed.

Lemma checked_recalc p w w1 :
  grant_ok w w1 -> p ∈ world_grantable w1 ->
  exists w', homa_grant_recalc w1 = Ok (tt, w') /\ checked p w w'.
Proof.
  intros H1 Hg. destruct (recalc_spec w1 (go_inv _ _ H1)) as (w' & Hex & H2 & _).
  exists w'. split; [done |]. by eapply checked_progress.
Qed.

Lemma arr_in_range {A} (l : list A) i :
  0 <= i < Z.of_nat (length l) -> exists x, arr l i = Ok x /\ l !! Z.to_nat i = Some x.
Proof.
  intros Hi. destruct (lookup_lt_is_Some_2 l (Z.to_nat i)) as [x Hx]; [lia |].
  exists x. split; [apply arr_Ok; split; [lia | done] | done].
Qed.

(** The last entry of [active_remaining]. *)
Lemma read_remaining w k :
  grant_inv w -> 0 <= k < HOMA_MAX_GRANTS ->
  exists r, lift (arr (h_active_remaining (w_homa w)) k) w = Ok (r, w).
Proof.
  intros (_ & [[_ Ha] _ _ _] & _) Hk.
  destruct (arr_in_range (h_active_remaining (w_homa w)) k) as (x & Hx & _); [lia |].
  exists x. unfold lift. by rewrite Hx.
Qed.

Lemma check_new_spec p w rpc peer :
  grant_inv w -> w_rpcs w !! p = Some rpc -> w_peers w !! rpc_peer rpc = Some peer ->
  p ∉ peer_grantable_rpcs peer ->
  exists w', check_new p (rpc_msgin rpc) w = Ok (tt, w') /\ checked p w w'.
Proof.
  intros Hi Hp Hpe Hn. unfold check_new.
  destruct (update_step p w rpc (proj1 Hi) Hp) as (b & w1 & rpc1 & Hex1 & Hs1 & Hg1 & Hpe1 & Hp1 & _).
  rewrite (bind_eq _ _ _ _ _ Hex1).
  pose proof (grant_ok_step w w1 Hi Hs1 Hg1) as Hok1.
  destruct (rest_lookup _ _ _ _ (gf_rpcs _ _ (so_frame _ _ Hs1)) Hp) as (x & Hx & Hrest).
  rewrite Hp1 in Hx. injection Hx as <-. destruct (rpc_rest_fields _ _ Hrest) as (Hpeer & _).
  destruct (add_step p w1 rpc1 peer (go_inv _ _ Hok1) Hp1) as (w2 & Hex2 & Hok2 & Hg2);
    [by rewrite Hpeer, Hpe1 | done |].
  rewrite (bind_eq _ _ _ _ _ Hex2). step.
  assert (grant_ok w w2) as Hok by (by etransitivity).
  assert (exists b, (if h_num_active_rpcs (w_homa w2) <? h_max_overcommit (w_homa w2) then ret true
    else let* r := lift (arr (h_active_remaining (w_homa w2)) (h_max_overcommit (w_homa w2) - 1)) in
         ret (mi_bytes_remaining (rpc_msgin rpc) <? r)) w2 = Ok (b, w2)) as [recalc Hrc].
  { destruct (_ <? h_max_overcommit _); [by exists true |].
    pose proof (go_inv _ _ Hok) as Hi2. destruct Hi2 as (? & ? & Hpar).
    destruct (read_remaining w2 (h_max_overcommit (w_homa w2) - 1) (go_inv _ _ Hok)) as [r Hr];
      [destruct Hpar; lia |]. rewrite (bind_eq _ _ _ _ _ Hr). eexists. reflexivity. }
  rewrite (bind_eq _ _ _ _ _ Hrc). destruct recalc.
  - by apply checked_recalc.
  - exists w2. split; [done |]. eapply checked_progress; [exact Hok | done |].
    apply grant_ok_refl, Hok.
Qed.

Lemma check_inactive_spec p w rpc :
  grant_inv w -> w_rpcs w !! p = Some rpc -> p ∈ world_grantable w ->
  exists w', check_inactive p (rpc_msgin rpc) w = Ok (tt, w') /\ checked p w w'.
Proof.
  intros Hi Hp Hg. unfold check_inactive.
  destruct (update_step p w rpc (proj1 Hi) Hp) as (b & w1 & rpc1 & Hex1 & Hs1 & Hg1 & Hpe1 & Hp1 & _).
  rewrite (bind_eq _ _ _ _ _ Hex1). step. rewrite <- Hg1 in Hg.
  pose proof (grant_ok_step w w1 Hi Hs1 Hg1) as Hok1.
  pose proof (go_inv _ _ Hok1) as Hi1. destruct Hi1 as (? & ? & Hpar).
  destruct (read_remaining w1 (h_max_overcommit (w_homa w1) - 1) (go_inv _ _ Hok1)) as [r Hr];
    [destruct Hpar; lia |]. rewrite (bind_eq _ _ _ _ _ Hr).
  destruct (_ <? r); [by apply checked_recalc |].
  exists w1. split; [done |]. eapply checked_progress; [exact Hok1 | done |].
  apply grant_ok_refl, Hok1.
Qed.

(** Storing the remaining bytes of an active RPC. *)
Lemma store_remaining w i x :
  grant_inv w -> 0 <= i < HOMA_MAX_GRANTS ->
  exists rem, lift (arr_set (h_active_remaining (w_homa w)) i x) w = Ok (rem, w) /\
    Z.of_nat (length rem) = HOMA_MAX_GRANTS /\
    let w' := w <| w_homa ::= fun h => h <| h_active_remaining := rem |> |> in
    grant_ok w w' /\ world_grantable w' = world_grantable w.
Proof.
  intros (Hi & [[Ha1 Ha2] Hnum Hact Hrk] & Hpar) Hk.
  exists (<[Z.to_nat i := x]> (h_active_remaining (w_homa w))).
  assert (Z.of_nat (length (<[Z.to_nat i := x]> (h_active_remaining (w_homa w)))) = HOMA_MAX_GRANTS)
    as Hlen by (by rewrite length_insert).
  cbv zeta. split_ands; [|done | | done].
  - unfold lift. rewrite (proj2 (arr_set_Ok _ i x _)) by (split; [lia | reflexivity]). done.
  - match goal with |- grant_ok _ ?W => set (w' := W) end.
    assert (rank_step w w') as Hs by (by apply rank_step_homa).
    constructor; [|apply Hs | apply Hs | done].
    split; [apply Hs |]. split; [|done]. constructor; done.
Qed.

(** The end of the normal case: a grant was sent to an active RPC. *)
Lemma check_granted_spec p w w1 rpc1 (recalc : bool) :
  grant_ok w w1 -> w_rpcs w1 !! p = Some rpc1 -> p ∈ world_grantable w1 ->
  exists w', (if mi_granted (rpc_msgin rpc1) >=? mi_length (rpc_msgin rpc1)
    then (homa_grant_remove_rpc p ;;; homa_grant_recalc)
    else if recalc then homa_grant_recalc else ret tt) w1 = Ok (tt, w') /\ checked p w w'.
Proof.
  intros Hok Hp Hg. pose proof (go_inv _ _ Hok) as Hi.
  destruct (Z.geb_spec (mi_granted (rpc_msgin rpc1)) (mi_length (rpc_msgin rpc1))) as [Hfull | Hlt].
  - destruct (remove_step p w1 rpc1 (proj1 Hi) Hp Hg ltac:(lia)) as (w2 & Hex2 & Hs2 & Hr2 & _).
    rewrite (bind_eq _ _ _ _ _ Hex2).
    destruct (recalc_spec w2 (grant_inv_step _ _ Hi Hs2)) as (w' & Hex & Hok' & Ha & _).
    apply settled_active_grantable in Ha; [|apply Hok']. exists w'. split; [done |].
    assert (progress w1 w') as Hpr by (etransitivity; [apply Hs2 | apply Hok']).
    split.
    + destruct Hok, Hok'. constructor; [done | | by etransitivity | done].
      etransitivity; [done |]. by etransitivity; [apply Hs2 |].
    + intros r' Hr' (_ & _ & _ & Hlt). destruct (Hpr p r' Hr') as (r & Hr & ? & ? & _).
      rewrite Hp in Hr. injection Hr as ->. lia.
  - destruct recalc; [by apply checked_recalc |].
    exists w1. split; [done |]. eapply checked_progress; [exact Hok | done |]. by apply grant_ok_refl.
Qed.

Lemma check_active_spec p w rpc :
  grant_inv w -> w_rpcs w !! p = Some rpc -> p ∈ world_grantable w ->
  0 <= mi_rank (rpc_msgin rpc) ->
  exists w', check_active p (rpc_msgin rpc) w = Ok (tt, w') /\ checked p w w'.
Proof.
  intros Hi Hp Hg Hrk. pose proof Hi as (_ & [_ Hnum _ Hr] & _).
  destruct (Hr p rpc Hp) as [| [Hrange _]]; [lia |].
  unfold check_active. step. set (mi := rpc_msgin rpc) in *.
  destruct (store_remaining w (mi_rank mi) (mi_bytes_remaining mi) Hi ltac:(lia))
    as (rem & Hex & Hlen & Hok1 & Hg1).
  rewrite (bind_eq _ _ _ _ _ Hex). step. set (w1 := w <| w_homa ::= _ |>) in *.
  rewrite <- Hg1 in Hg. change (w_rpcs w) with (w_rpcs w1) in Hp.
  pose proof (go_inv _ _ Hok1) as Hi1.
  assert (exists b, (if mi_rank mi >? 0 then let* r := lift (arr rem (mi_rank mi - 1)) in
    ret (mi_bytes_remaining mi <? r) else ret false) w1 = Ok (b, w1)) as [bump Hbump].
  { destruct (Z.gtb_spec (mi_rank mi) 0); [|by exists false].
    destruct (arr_in_range rem (mi_rank mi - 1)) as (x & Hx & _); [lia |].
    unfold lift. rewrite Hx. eexists. reflexivity. }
  rewrite (bind_eq _ _ _ _ _ Hbump). destruct bump.
  - destruct (update_step p w1 rpc (proj1 Hi1) Hp) as (b & w2 & rpc2 & Hex2 & Hs2 & Hg2 & _).
    rewrite (bind_eq _ _ _ _ _ Hex2). apply checked_recalc; [|by rewrite Hg2].
    etransitivity; [exact Hok1 | by apply grant_ok_step].
  - destruct (send_update_step p w1 rpc (proj1 Hi1) Hp)
      as (b0 & b & w0 & w2 & rpc2 & Hex0 & Hex2 & Hs2 & Hg2 & _ & Hp2).
    rewrite (bind_eq _ _ _ _ _ Hex0), (bind_eq _ _ _ _ _ Hex2). step.
    apply check_granted_spec; [|done | by rewrite Hg2].
    etransitivity; [exact Hok1 | by apply grant_ok_step].
Qed.

Lemma check_rpc_spec p w :
  grant_inv w -> is_Some (w_rpcs w !! p) ->
  exists w', homa_grant_check_rpc p w = Ok (tt, w') /\ checked p w w'.
Proof.
  intros Hi [rpc Hp]. unfold homa_grant_check_rpc. step.
  destruct (ci_objs _ (proj1 Hi) _ _ Hp) as [[peer Hpe] _].
  destruct (Z.ltb_spec (mi_length (rpc_msgin rpc)) 0) as [Hl | Hl]; cbn [orb].
  { exists w. split; [done |]. split; [by apply grant_ok_refl |].
    intros r Hr (? & _). rewrite Hp in Hr. injection Hr as <-. lia. }
  destruct (bool_decide_reflect (rpc_state_ rpc = RPC_DEAD)) as [Hd | Hd]; cbn [orb].
  { exists w. split; [done |]. split; [by apply grant_ok_refl |].
    intros r Hr (_ & ? & _). rewrite Hp in Hr. by injection Hr as <-. }
  destruct (Z.leb_spec (mi_num_bpages (rpc_msgin rpc)) 0) as [Hb | Hb].
  { exists w. split; [done |]. split; [by apply grant_ok_refl |].
    intros r Hr (_ & _ & ? & _). rewrite Hp in Hr. injection Hr as <-. lia. }
  destruct (Z.geb_spec (mi_granted (rpc_msgin rpc)) (mi_length (rpc_msgin rpc))) as [Hf | Hf].
  { destruct (update_step p w rpc (proj1 Hi) Hp) as (b & w1 & rpc1 & Hex1 & Hs1 & Hg1 & _).
    rewrite (bind_eq _ _ _ _ _ Hex1). exists w1. split; [done |].
    split; [by apply grant_ok_step |]. intros r Hr (_ & _ & _ & Hlt).
    destruct (so_progress _ _ Hs1 p r Hr) as (r0 & Hr0 & ? & ? & _).
    rewrite Hp in Hr0. injection Hr0 as <-. lia. }
  step. case_bool_decide as Hin; [by eapply check_new_spec |].
  pose proof (linked_grantable w p rpc peer (ci_lists _ (proj1 Hi)) Hpe Hin) as Hg.
  destruct (Z.ltb_spec (mi_rank (rpc_msgin rpc)) 0); [by apply check_inactive_spec |].
  by apply check_active_spec.
Qed.

(** ** Freeing an RPC *)
Lemma sum_rec_delete rpcs p r :
  rpcs !! p = Some r ->
  sum_rec (delete p rpcs) = sum_rec rpcs - mi_rec_incoming (rpc_msgin r).
Proof.
  intros Hp. unfold sum_rec. rewrite <- (Zsum_perm _ _ _ (map_to_list_delete rpcs p r Hp)).
  simpl. lia.
Qed.

(** The state when an RPC is gone: its bytes are no longer incoming. *)
Definition without (p : ptr) (r : homa_rpc) (w : world) : world :=
  w <| w_homa ::= fun h => h <| h_total_incoming ::= fun t =>
         t - mi_rec_incoming (rpc_msgin r) |> |>
    <| w_rpcs ::= delete p |>.

Definition not_active (p : ptr) (w : world) : Prop :=
  forall i, 0 <= i < h_num_active_rpcs (w_homa w) ->
    h_active_rpcs (w_homa w) !! Z.to_nat i <> Some (Some p).

Lemma grant_inv_without p r w :
  grant_inv w -> w_rpcs w !! p = Some r -> p ∉ world_grantable w -> not_active p w ->
  grant_inv (without p r w).
Proof.
  intros ([Hl Ho Ht] & [Harr Hnum Hact Hrk] & Hpar) Hp Hg Hna.
  assert (forall q x, w_rpcs (without p r w) !! q = Some x -> w_rpcs w !! q = Some x) as Hsub
    by (simpl; intros q x Hx; by apply lookup_delete_Some in Hx as [_ ?]).
  unfold grant_inv. split_ands; [constructor | constructor | done]; try done.
  - destruct Hl as [Hok Hn]. split; [|done]. destruct Hok as [Hnd Hli Hr]. constructor; try done.
    intros pe peer Hpe. destruct (Hr pe peer Hpe) as [Hnd' Hq]. split; [done |]. intros q Hin.
    destruct (Hq q Hin) as (x & Hx & Hxp). exists x. split; [|done]. apply lookup_delete_Some.
    split; [|done]. intros ->. apply Hg. subst pe.
    by eapply linked_grantable; [split; [constructor |]; done | ..].
  - intros q x Hx. by apply (Ho q), Hsub.
  - simpl. rewrite (sum_rec_delete _ _ r Hp). lia.
  - intros i Hi. destruct (Hact i Hi) as (q & x & Hq & Hx & E). exists q, x.
    split_ands; try done. apply lookup_delete_Some. split; [|done].
    intros ->. by apply (Hna i Hi).
  - intros q x Hx. by apply Hrk, Hsub.
Qed.

(** Unlinking keeps the whole invariant. *)
Lemma remove_rpc_grant_inv p w rpc :
  grant_inv w -> w_rpcs w !! p = Some rpc -> p ∈ world_grantable w ->
  exists w', homa_grant_remove_rpc p w = Ok (tt, w') /\ grant_inv w' /\ grant_frame w w' /\
    w_rpcs w' = w_rpcs w /\ (p ∉ world_grantable w') /\
    world_grantable w' ⊆+ world_grantable w /\
    h_active_rpcs (w_homa w') = h_active_rpcs (w_homa w) /\
    h_num_active_rpcs (w_homa w') = h_num_active_rpcs (w_homa w).
Proof.
  intros (Hi & Ha & Hpar) Hp Hg.
  destruct (remove_rpc_inv p w rpc Hi Hp Hg) as (w' & Hex & Hi' & Hf & Hr & Hperm & E1 & E2 & E3).
  exists w'. split_ands; try done.
  - unfold grant_inv. split_ands; [done | | by eapply params_ok_frame].
    destruct Ha. constructor; by rewrite ?E1, ?E2, ?E3, ?Hr.
  - assert (NoDup (p :: world_grantable w')) as [? _]%NoDup_cons; [|done].
    rewrite Hperm. apply world_grantable_NoDup, Hi.
  - rewrite <- Hperm. by apply submseteq_cons.
Qed.

Lemma unranked_not_active p w rpc :
  active_inv w -> w_rpcs w !! p = Some rpc -> mi_rank (rpc_msgin rpc) < 0 -> not_active p w.
Proof.
  intros [_ _ Ha _] Hp Hr i Hi Hc. destruct (Ha i Hi) as (q & x & Hq & Hx & E).
  rewrite Hc in Hq. injection Hq as <-. rewrite Hp in Hx. injection Hx as <-. lia.
Qed.

Lemma free_unlink_spec p w rpc :
  grant_inv w -> active_grantable w -> w_rpcs w !! p = Some rpc ->
  exists w', free_unlink p w = Ok (tt, w') /\ grant_inv w' /\ grant_frame w w' /\
    (p ∉ world_grantable w') /\ not_active p w'.
Proof.
  intros Hi Hag Hp. unfold free_unlink. step.
  pose proof (ci_lists _ (proj1 Hi)) as Hl.
  destruct (ci_objs _ (proj1 Hi) _ _ Hp) as [[peer Hpe] _]. step. case_bool_decide as Hin.
  - pose proof (linked_grantable w p rpc peer Hl Hpe Hin) as Hg.
    destruct (remove_rpc_grant_inv p w rpc Hi Hp Hg) as (w1 & Hex1 & Hi1 & Hf1 & Hr1 & Hg1 & _).
    rewrite (bind_eq _ _ _ _ _ Hex1).
    destruct (Z.geb_spec (mi_rank (rpc_msgin rpc)) 0) as [Hrk | Hrk].
    + destruct (recalc_spec w1 Hi1) as (w2 & Hex2 & Hok2 & Ha2 & Hsub2). exists w2.
      apply settled_active_grantable in Ha2; [|apply Hok2].
      assert (p ∉ world_grantable w2) as Hn by (intros H; eapply elem_of_submseteq in H; eauto).
      split_ands; try done; [apply Hok2 | etransitivity; [done | apply Hok2] |].
      intros i Hir Hc. apply Hn. by eapply Ha2.
    + exists w1. split_ands; try done. eapply unranked_not_active; [apply Hi1 | by rewrite Hr1 | done].
  - assert (p ∉ world_grantable w) as Hg.
    { intros H. destruct (grantable_linked w p rpc Hl H Hp) as (pe & Hpe' & ?).
      rewrite Hpe in Hpe'. by injection Hpe' as <-. }
    exists w. split_ands; try done. intros i Hir Hc. apply Hg. by eapply Hag.
Qed.

Lemma free_rpc_spec p w :
  grant_inv w -> active_grantable w -> is_Some (w_rpcs w !! p) ->
  exists w', homa_grant_free_rpc p w = Ok (tt, w') /\ grant_frame w w' /\
    (p ∉ world_grantable w') /\ not_active p w' /\
    grant_inv (w' <| w_rpcs ::= delete p |>).
Proof.
  intros Hi Hag [rpc Hp]. unfold homa_grant_free_rpc.
  destruct (free_unlink_spec p w rpc Hi Hag Hp) as (w1 & Hex & Hi1 & Hf1 & Hg1 & Hna1).
  rewrite (bind_eq _ _ _ _ _ Hex).
  destruct (rest_lookup _ _ _ _ (gf_rpcs _ _ Hf1) Hp) as (r & Hr & _). step.
  pose proof (grant_inv_without p r w1 Hi1 Hr Hg1 Hna1) as Hi2.
  destruct (Z.eqb_spec (mi_rec_incoming (rpc_msgin r)) 0) as [E | E]; cbn [negb];
    (eexists; split; [reflexivity |]); split_ands; try done.
  - assert (without p r w1 = w1 <| w_rpcs ::= delete p |>) as <-; [|done].
    unfold without. rewrite E. destruct w1 as [[]]. simpl. by rewrite Z.sub_0_r.
  - destruct Hf1 as [Hf1 ? ? ? ? ? ? ?]. constructor; done.
Qed.

(** ** Properties *)
(** A decidable condition for states without active RPCs. *)
Definition idle_check (w : world) : Prop :=
  map_Forall (fun _ r => mi_rank (rpc_msgin r) = -1 /\
    is_Some (w_peers w !! rpc_peer r) /\ is_Some (w_socks w !! rpc_hsk r)) (w_rpcs w) /\
  length (h_active_rpcs (w_homa w)) = Z.to_nat HOMA_MAX_GRANTS /\
  length (h_active_remaining (w_homa w)) = Z.to_nat HOMA_MAX_GRANTS /\
  h_num_active_rpcs (w_homa w) = 0 /\ h_total_incoming (w_homa w) = sum_rec (w_rpcs w) /\
  1 <= h_max_overcommit (w_homa w) <= HOMA_MAX_GRANTS.

#[export] Instance idle_check_dec w : Decision (idle_check w).
Proof. unfold idle_check. solve_decision. Defined.

Lemma idle_inv w : world_lists_ok w -> idle_check w -> grant_inv w /\ active_grantable w.
Proof.
  intros Hl (Hr & Ha & Hb & Hn & Ht & Hp). split; [|intros i p Hi; lia].
  split; [constructor | split; [constructor | done]]; try done.
  - intros p rpc H. by apply (Hr p rpc H).
  - by rewrite Ha, Hb.
  - by rewrite Hn.
  - lia.
  - intros p rpc H. left. by apply (Hr p rpc H).
Qed.

Lemma ex_idle : grant_inv ex /\ active_grantable ex.
Proof.
  apply idle_inv; [apply world_lists_check; vm_compute; reflexivity |].
  apply (bool_decide_unpack _). vm_compute. exact I.
Qed.

Lemma ex_inv : grant_inv ex.
Proof. apply ex_idle. Qed.

Lemma ex_active : active_grantable ex.
Proof. apply ex_idle. Qed.

(** C4: [homa_grant_recalc] terminates within the given number of rounds and
    does not fault; it keeps the invariant of the grant state (well-formed
    lists, [total_incoming] the sum of the recorded incoming bytes, ranks and
    the array of active RPCs consistent); the active RPCs are then exactly
    those that [homa_grant_pick_rpcs] selects, with rank, priority and
    remaining bytes recorded; grants never shrink, and an RPC leaves the lists
    only when it is granted completely. *)
Theorem recalc_correct w :
  grant_inv w ->
  exists w', homa_grant_recalc w = Ok (tt, w') /\ grant_inv w' /\ settled w' /\
    active_grantable w' /\ grant_frame w w' /\ progress w w'.
Proof.
  intros Hi. destruct (recalc_spec w Hi) as (w' & Hex & [] & Hs & _). exists w'.
  split_ands; try done. by apply settled_active_grantable.
Qed.

Lemma recalc_correct_witness :
  exists w', homa_grant_recalc ex = Ok (tt, w') /\ grant_inv w' /\ settled w'.
Proof.
  destruct (recalc_correct ex ex_inv) as (w' & H1 & H2 & H3 & _). exists w'. split_ands; assumption.
Defined.

(** C6: [homa_grant_check_rpc] on a live RPC does not fault, keeps the
    invariant of the grant state and changes nothing but grants; afterwards
    the RPC is in the grantable lists if its message has buffers and is still
    not granted completely; no other message loses grants. *)
Theorem check_rpc_correct p w :
  grant_inv w -> active_grantable w -> is_Some (w_rpcs w !! p) ->
  exists w', homa_grant_check_rpc p w = Ok (tt, w') /\ grant_inv w' /\
    active_grantable w' /\ grant_frame w w' /\ progress w w' /\
    forall rpc', w_rpcs w' !! p = Some rpc' -> wants_grant rpc' -> p ∈ world_grantable w'.
Proof.
  intros Hi Ha Hp. destruct (check_rpc_spec p w Hi Hp) as (w' & Hex & [] & Hg). exists w'.
  split_ands; try done. auto.
Qed.

Lemma check_rpc_correct_witness :
  exists w', homa_grant_check_rpc 13%positive ex = Ok (tt, w') /\ grant_inv w' /\
    active_grantable w'.
Proof.
  destruct (check_rpc_correct 13%positive ex ex_inv ex_active) as (w' & H1 & H2 & H3 & _).
  - eexists. reflexivity.
  - exists w'. split_ands; assumption.
Defined.

(** [homa_grant_free_rpc] leaves no trace of the RPC: it is in no
    grantable list and not active, its bytes are no longer counted in
    [total_incoming], and the state without it satisfies the invariant. *)
Theorem free_rpc_correct p w :
  grant_inv w -> active_grantable w -> is_Some (w_rpcs w !! p) ->
  exists w', homa_grant_free_rpc p w = Ok (tt, w') /\ grant_frame w w' /\
    (p ∉ world_grantable w') /\ not_active p w' /\
    grant_inv (w' <| w_rpcs ::= delete p |>).
Proof. apply free_rpc_spec. Qed.

Lemma free_rpc_correct_witness :
  exists w', homa_grant_free_rpc 11%positive ex = Ok (tt, w') /\
    grant_inv (w' <| w_rpcs ::= delete 11%positive |>).
Proof.
  destruct (free_rpc_correct 11%positive ex ex_inv ex_active) as (w' & H1 & _ & _ & _ & H2).
  - eexists. reflexivity.
  - exists w'. split; assumption.
Defined.


