(* ===== verification/PoolWait.v ===== *)
(** * RPCs waiting for buffer space (homa_pool.c)

    [homa_pool_check_waiting] gives buffers to the RPCs in [waiting_for_bufs]
    when enough bpages are free.  It calls into the grant code through the
    interface [GrantLaws] below, which GrantCheck.v discharges. *)
From S2P Require Import Prelude Lists Wire Types Example Control Pool Grant GrantLists GrantPick GrantRecalc GrantCheck.

(** ** Operations

    [homa_rpc_try_lock] always succeeds (there is no other thread in the
    model).  Each iteration takes one RPC out of the queue, and puts it back
    only when too few bpages are free, so the length of the queue bounds the
    number of iterations. *)
Section Operations.
Variable grant_check_rpc : ptr -> M unit.

Definition set_needed_max (hsk : ptr) : M unit :=
  upd_sock hsk (fun sk => sk <| sk_buffer_pool ::= fun pool =>
    pool <| pool_bpages_needed := INT_MAX |> |>).

(** "Allocation succeeded; wake up the RPC." *)
Definition wake_up (p : ptr) : M unit :=
  let* rpc := get_rpc p in
  if mi_num_bpages (rpc_msgin rpc) >? 0 then
    upd_msgin p (fun mi => mi <| mi_resend_all := 1 |>) ;;; grant_check_rpc p
  else ret tt.

Fixpoint check_waiting_loop (fuel : nat) (core : Z) (hsk : ptr) : M unit :=
  let* sk := get_sock hsk in
  let pool := sk_buffer_pool sk in
  if pool_free_bpages pool <? pool_bpages_needed pool then ret tt else
  match fuel with
  | O => raise OutOfFuel
  | S fuel =>
      match sk_waiting_for_bufs sk with
      | [] => set_needed_max hsk
      | p :: rest =>
          upd_sock hsk (fun sk => sk <| sk_waiting_for_bufs := rest |>) ;;;
          match rest with [] => set_needed_max hsk | _ => set_bpages_needed hsk end ;;;
          homa_pool_allocate core p ;;;
          wake_up p ;;;
          check_waiting_loop fuel core hsk
      end
  end.

Definition homa_pool_check_waiting (core : Z) (hsk : ptr) : M unit :=
  let* sk := get_sock hsk in
  if pool_region (sk_buffer_pool sk) =? 0 then ret tt else
  check_waiting_loop (length (sk_waiting_for_bufs sk) + 2) core hsk.
End Operations.

(** ** What the grant code promises *)

(** The state of an RPC that does not concern grants. *)
Definition grant_fields (r : homa_rpc) : ptr * ptr * Z * Z :=
  (rpc_peer r, rpc_hsk r, mi_rec_incoming (rpc_msgin r), mi_rank (rpc_msgin r)).

Class GrantLaws (check : ptr -> M unit) (ginv : world -> Prop) := {
  (* checking an RPC for grants keeps the invariant, the sockets, and the
     buffers of the RPCs *)
  gl_check : forall p w, ginv w -> is_Some (w_rpcs w !! p) ->
    exists w', check p w = Ok (tt, w') /\ ginv w' /\ w_socks w' = w_socks w /\
      forall q r, w_rpcs w !! q = Some r -> exists r', w_rpcs w' !! q = Some r' /\
        rpc_hsk r' = rpc_hsk r /\ mi_length (rpc_msgin r') = mi_length (rpc_msgin r) /\
        mi_num_bpages (rpc_msgin r') = mi_num_bpages (rpc_msgin r) /\
        mi_bpage_offsets (rpc_msgin r') = mi_bpage_offsets (rpc_msgin r);
  (* the invariant does not depend on sockets, buffers and the clock *)
  gl_rpc : forall w w' p r r', ginv w -> w_rpcs w !! p = Some r ->
    grant_fields r' = grant_fields r -> w_rpcs w' = <[p := r']> (w_rpcs w) ->
    w_homa w' = w_homa w -> w_peers w' = w_peers w -> w_socks w' = w_socks w -> ginv w';
  gl_sock : forall w w' hsk sk, ginv w ->
    w_homa w' = w_homa w -> w_peers w' = w_peers w -> w_rpcs w' = w_rpcs w ->
    (w_socks w' = w_socks w \/ w_socks w' = <[hsk := sk]> (w_socks w)) -> ginv w'
}.

(** ** The other fields of the pool *)
Definition same_conf (pool pool' : homa_pool) : Prop :=
  pool_bpages_needed pool' = pool_bpages_needed pool /\ pool_region pool' = pool_region pool.

Lemma get_pages_loop_conf fuel : forall core now lease n so pool limit pages pool' pages',
  get_pages_loop fuel core now lease n so pool limit pages = Ok (pool', pages') ->
  same_conf pool pool'.
Proof.
  induction fuel as [|fuel IH]; intros core now lease n so pool limit pages pool' pages' H;
    simpl in H; destruct (_ =? n) in H; inv_ok; simplify_eq; try done.
  destruct (_ >=? _) in H; inv_ok; simplify_eq; [by apply IH in H |].
  destruct (page_unavailable _ _) in H; [by apply IH in H |]. inv_ok. simplify_eq.
  destruct (_ >=? HOMA_MAX_BPAGES) in H; [done |]. apply IH in H.
  destruct (_ >=? 0) in H; exact H.
Qed.

Lemma get_pages_conf core now lease pool n so pool' r :
  homa_pool_get_pages core now lease pool n so = Ok (pool', r) -> same_conf pool pool'.
Proof.
  unfold homa_pool_get_pages. intros H. inv_ok. destruct (_ <? 0); inv_ok; simplify_eq; [done |].
  match goal with x : (homa_pool * list Z)%type |- _ => destruct x end.
  inv_ok. simplify_eq. by eapply get_pages_loop_conf in E0.
Qed.

Lemma release_loop_conf n : forall pool r bufs i pool' r',
  release_loop pool r bufs i n = Ok (pool', r') -> same_conf pool pool'.
Proof.
  induction n as [|n IH]; intros pool r bufs i pool' r' H; simpl in H; inv_ok; simplify_eq; [done |].
  destruct (_ <? _) in H; [|by apply IH in H]. inv_ok. simplify_eq. apply IH in H.
  destruct (_ =? 0) in H; exact H.
Qed.

Lemma release_conf pool n bufs pool' r :
  homa_pool_release_buffers pool n bufs = Ok (pool', r) -> same_conf pool pool'.
Proof.
  unfold homa_pool_release_buffers. destruct (_ =? 0); intros H; inv_ok; simplify_eq; [done |].
  by eapply release_loop_conf.
Qed.

Lemma allocate_partial_conf core l pool mi pool' mi' :
  allocate_partial core l pool mi = Ok (pool', mi') -> same_conf pool pool'.
Proof. unfold allocate_partial. intros H. by inv_ok; simplify_eq. Qed.

Lemma new_page_conf core now lease l pool mi pool' mi' ok :
  new_page core now lease l pool mi = Ok (pool', mi', ok) -> same_conf pool pool'.
Proof.
  unfold new_page. intros H. apply result_bind_Ok in H as ([pool1 r] & Hg & H).
  apply get_pages_conf in Hg as [E1 E2]. destruct r as [pages|].
  - inv_ok. simplify_eq. match goal with x : (homa_pool * homa_message_in)%type |- _ => destruct x end.
    inv_ok. simplify_eq. match goal with H : allocate_partial _ _ _ _ = _ |- _ =>
      apply allocate_partial_conf in H as [E3 E4] end.
    simpl in *. split; congruence.
  - apply result_bind_Ok in H as ([pool2 r2] & Hr & H). inv_ok. simplify_eq.
    apply release_conf in Hr as [E3 E4]. split; congruence.
Qed.

Lemma alloc_last_conf core now lease l pool mi pool' mi' ok :
  alloc_last core now lease l pool mi = Ok (pool', mi', ok) -> same_conf pool pool'.
Proof.
  unfold alloc_last. intros H. apply result_bind_Ok in H as (c & _ & H).
  apply result_bind_Ok in H as (bp & _ & H).
  assert (forall c', (let! ds := arr_set (pool_descriptors pool) (page_hint c)
      (bp <| bp_expiration := lease_end now lease |> <| bp_refs ::= fun r => r + 1 |>) in
    let! cores := arr_set (pool_cores pool) core c' in
    let! (pool, mi) := allocate_partial core l
      (pool <| pool_descriptors := ds |> <| pool_cores := cores |>) mi in
    Ok (pool, mi, true)) = Ok (pool', mi', ok) -> same_conf pool pool') as Huse.
  { intros c' Hc. apply result_bind_Ok in Hc as (ds & _ & Hc).
    apply result_bind_Ok in Hc as (cores & _ & Hc).
    apply result_bind_Ok in Hc as ([p1 m1] & Ha & Hc). inv_ok. simplify_eq.
    by apply allocate_partial_conf in Ha. }
  destruct (negb _); [by eapply new_page_conf |].
  destruct (_ >? _); [|by eapply Huse]. destruct (_ =? 1); [by eapply Huse |].
  apply result_bind_Ok in H as (ds & _ & H). by apply new_page_conf in H.
Qed.

Lemma pool_reserve_conf core now1 now2 lease pool mi pool' mi' ok :
  pool_reserve core now1 now2 lease pool mi = Ok (pool', mi', ok) -> same_conf pool pool'.
Proof.
  unfold pool_reserve. intros H. destruct (negb _).
  - apply result_bind_Ok in H as ([pool1 r] & Hg & H). apply get_pages_conf in Hg as [E1 E2].
    destruct r as [pages|]; [|inv_ok; by simplify_eq].
    apply result_bind_Ok in H as (offs & _ & H). destruct (_ =? 0) in H; [inv_ok; by simplify_eq |].
    apply alloc_last_conf in H as [E3 E4]. split; congruence.
  - destruct (_ =? 0) in H; [inv_ok; by simplify_eq |]. by apply alloc_last_conf in H.
Qed.

(** ** The queue *)
Definition wait_len (w : world) (p : ptr) : Z :=
  match w_rpcs w !! p with Some r => mi_length (rpc_msgin r) | None => 0 end.

(** Bpages that a message needs *)
Definition pages_needed (n : Z) : Z := Z.shiftr (n + HOMA_BPAGE_SIZE - 1) HOMA_BPAGE_SHIFT.

(** An RPC that waits: its message is of a legal length and has no buffers. *)
Definition waits (hsk : ptr) (w : world) (p : ptr) : Prop :=
  exists r, w_rpcs w !! p = Some r /\ rpc_hsk r = hsk /\
    0 < mi_length (rpc_msgin r) <= HOMA_MAX_MESSAGE_LENGTH /\ holds (rpc_msgin r) [].

Definition longer (w : world) (n : Z) (p : ptr) : bool := wait_len w p >? n.

Lemma queue_waiting_exec p n l w :
  (forall q, q ∈ l -> is_Some (w_rpcs w !! q)) ->
  queue_waiting p n l w = Ok (insert_before (longer w n) p l, w).
Proof.
  induction l as [|q l IH]; intros Hl; cbn [queue_waiting insert_before]; [done |].
  destruct (Hl q ltac:(set_solver)) as [r Hr]. step. unfold longer at 1, wait_len. rewrite Hr.
  destruct (_ >? n); [done |].
  rewrite (bind_eq _ _ _ _ _ (IH ltac:(intros x Hx; apply Hl; set_solver))). done.
Qed.

(** The queue of a socket and its pool, with the live buffers. *)
Record wait_ok (core : Z) (hsk : ptr) (w : world) (sk : homa_sock) (live : list buf) : Prop := {
  wo_sock : w_socks w !! hsk = Some sk;
  wo_pool : pool_inv (sk_buffer_pool sk) live;
  wo_core : 0 <= core < Z.of_nat (length (pool_cores (sk_buffer_pool sk)));
  wo_nodup : NoDup (sk_waiting_for_bufs sk);
  wo_waits : forall p, p ∈ sk_waiting_for_bufs sk -> waits hsk w p;
  wo_sorted : StronglySorted (fun p q => wait_len w p <= wait_len w q) (sk_waiting_for_bufs sk)
}.

(** [bpages_needed] is the need of the first RPC in the queue. *)
Definition needed_exact (w : world) (sk : homa_sock) : Prop :=
  match sk_waiting_for_bufs sk with
  | [] => True
  | p :: _ => pool_bpages_needed (sk_buffer_pool sk) = pages_needed (wait_len w p)
  end.

Lemma wait_len_range hsk w p :
  waits hsk w p -> 0 < wait_len w p <= HOMA_MAX_MESSAGE_LENGTH.
Proof. intros (r & Hr & _ & Hl & _). unfold wait_len. by rewrite Hr. Qed.

Lemma set_bpages_needed_exec hsk w sk p rest :
  w_socks w !! hsk = Some sk -> sk_waiting_for_bufs sk = p :: rest -> waits hsk w p ->
  set_bpages_needed hsk w = Ok (tt, w <| w_socks ::= insert hsk
    (sk <| sk_buffer_pool ::= fun pool =>
       pool <| pool_bpages_needed := pages_needed (wait_len w p) |> |>) |>).
Proof.
  intros Hs Hw Hp. pose proof (wait_len_range _ _ _ Hp) as Hl. destruct Hp as (r & Hr & _).
  unfold set_bpages_needed. step. rewrite Hw. step. rewrite (upd_sock_eq _ _ _ _ Hs).
  unfold wait_len, pages_needed in *. rewrite Hr in *. rewrite s32_id; [done |].
  unfold_int. unfold HOMA_MAX_MESSAGE_LENGTH in *. rewrite HOMA_BPAGE_SIZE_eq. lia.
Qed.

(** Changing one RPC keeps the others waiting. *)
Lemma waits_insert hsk w w' p r' q :
  w_rpcs w' = <[p := r']> (w_rpcs w) -> q <> p ->
  (waits hsk w' q <-> waits hsk w q) /\ wait_len w' q = wait_len w q.
Proof.
  intros Hw Hne. unfold waits, wait_len. by rewrite Hw, lookup_insert_ne by done.
Qed.

Lemma sorted_len_ext w w' (l : list ptr) :
  (forall q, q ∈ l -> wait_len w' q = wait_len w q) ->
  StronglySorted (fun p q => wait_len w p <= wait_len w q) l ->
  StronglySorted (fun p q => wait_len w' p <= wait_len w' q) l.
Proof.
  intros H. induction 1 as [|x l Hs IH Hx]; [apply SSorted_nil |].
  constructor; [apply IH; intros; apply H; set_solver |].
  rewrite Forall_forall in *. intros y Hy. rewrite !H by set_solver. by apply Hx.
Qed.

(** The state after an attempt to allocate buffers for [p]. *)
Record attempted (core : Z) (hsk p : ptr) (w w' : world) (sk sk' : homa_sock)
    (live live' : list buf) : Prop := {
  at_ok : wait_ok core hsk w' sk' live';
  at_socks : w_socks w' = <[hsk := sk']> (w_socks w);
  at_homa : w_homa w' = w_homa w;
  at_peers : w_peers w' = w_peers w;
  at_rest : w_interests w' = w_interests w /\ w_host w' = w_host w /\ w_sent w' = w_sent w /\
    w_socktab w' = w_socktab w /\ w_peertab w' = w_peertab w;
  at_same : exists r mi', w_rpcs w !! p = Some r /\ same_message (rpc_msgin r) mi' /\
    w_rpcs w' = <[p := r <| rpc_msgin := mi' |>]> (w_rpcs w);
  at_sock : sk' = sk <| sk_waiting_for_bufs := sk_waiting_for_bufs sk' |> <| sk_buffer_pool := sk_buffer_pool sk' |>;
  at_rpc : exists r r', w_rpcs w !! p = Some r /\ w_rpcs w' = <[p := r']> (w_rpcs w) /\
    grant_fields r' = grant_fields r /\ mi_length (rpc_msgin r') = mi_length (rpc_msgin r) /\
    rpc_hsk r' = rpc_hsk r /\
    ((exists bufs, holds (rpc_msgin r') bufs /\ message_bufs (mi_length (rpc_msgin r)) bufs /\
        live' = bufs ++ live /\ sk_waiting_for_bufs sk' = sk_waiting_for_bufs sk /\
        pool_bpages_needed (sk_buffer_pool sk') = pool_bpages_needed (sk_buffer_pool sk)) \/
     (mi_num_bpages (rpc_msgin r') = 0 /\ live' = live /\
        sk_waiting_for_bufs sk' =
          insert_before (longer w (mi_length (rpc_msgin r))) p (sk_waiting_for_bufs sk) /\
        needed_exact w' sk' /\
        pool_free_bpages (sk_buffer_pool sk') < pages_needed (mi_length (rpc_msgin r))))
}.

Lemma message_bufs_pos n bufs : 0 < n -> message_bufs n bufs -> 0 < Z.of_nat (length bufs).
Proof.
  intros Hn [-> _]. rewrite Z.shiftr_div_pow2 by (vm_compute; congruence).
  change (2 ^ HOMA_BPAGE_SHIFT) with 65536. rewrite HOMA_BPAGE_SIZE_eq.
  apply Z.div_str_pos. lia.
Qed.

(** The failed attempt: the RPC is put back in its place in the queue. *)
Lemma requeue_spec core hsk p w sk live r mi' :
  wait_ok core hsk w sk live -> w_rpcs w !! p = Some r -> rpc_hsk r = hsk ->
  p ∉ sk_waiting_for_bufs sk -> waits hsk w p -> mi' = rpc_msgin r ->
  exists sk', (let* waiting := queue_waiting p (mi_length mi') (sk_waiting_for_bufs sk) in
     (upd_sock hsk (fun sk => sk <| sk_waiting_for_bufs := waiting |>) ;;;
      set_bpages_needed hsk ;;; ret 0)) w =
    Ok (0, w <| w_socks ::= insert hsk sk' |>) /\
    wait_ok core hsk (w <| w_socks ::= insert hsk sk' |>) sk' live /\
    sk_waiting_for_bufs sk' =
      insert_before (longer w (mi_length mi')) p (sk_waiting_for_bufs sk) /\
    needed_exact w sk' /\
    pool_free_bpages (sk_buffer_pool sk') = pool_free_bpages (sk_buffer_pool sk) /\
    sk' = sk <| sk_waiting_for_bufs := sk_waiting_for_bufs sk' |> <| sk_buffer_pool := sk_buffer_pool sk' |>.
Proof.
  intros [Hs Hi Hc Hnd Hw Hsort] Hr Hhsk Hn Hp ->.
  rewrite (bind_eq _ _ _ _ _ (queue_waiting_exec p _ _ w ltac:(intros q Hq;
    destruct (Hw q Hq) as (x & ? & _); eauto))).
  set (l := insert_before _ p _).
  assert (forall q, q ∈ l -> waits hsk w q) as Hl
    by (intros q [-> | Hq]%elem_of_insert_before; auto).
  assert (StronglySorted (fun p q => wait_len w p <= wait_len w q) l) as Hsl.
  { assert (mi_length (rpc_msgin r) = wait_len w p) as E by (unfold wait_len; by rewrite Hr).
    apply insert_before_sorted; [intros a b c; lia | | |done];
      unfold longer; rewrite E; intros c _ Ht; lia. }
  step. set (sk1 := sk <| sk_waiting_for_bufs := l |>).
  destruct l as [|h t] eqn:El.
  { exfalso. assert (p ∈ l) by (unfold l; rewrite elem_of_insert_before; auto).
    rewrite El in *. set_solver. }
  erewrite bind_eq by (apply (set_bpages_needed_exec hsk _ sk1 h t);
    [apply lookup_insert_eq | done | apply Hl; set_solver]).
  eexists. split; [unfold ret; f_equal; f_equal; unfold upd; simpl; by rewrite insert_insert_eq |].
  split_ands; [constructor; simpl | done | done | done | by destruct sk]; try done.
  - apply lookup_insert_eq.
  - by destruct Hi; constructor.
  - rewrite <- El. by apply insert_before_NoDup.
Qed.

(** Storing the result of [pool_reserve]. *)
Lemma wait_ok_store core hsk w w' sk pool' live live' p r' :
  wait_ok core hsk w sk live -> pool_inv pool' live' -> p ∉ sk_waiting_for_bufs sk ->
  length (pool_cores pool') = length (pool_cores (sk_buffer_pool sk)) ->
  w_socks w' = <[hsk := sk <| sk_buffer_pool := pool' |>]> (w_socks w) ->
  w_rpcs w' = <[p := r']> (w_rpcs w) ->
  wait_ok core hsk w' (sk <| sk_buffer_pool := pool' |>) live'.
Proof.
  intros [Hs Hi Hc Hnd Hw Hsort] Hi' Hn Hcs Hsk Hr.
  assert (forall q, q ∈ sk_waiting_for_bufs sk -> q <> p) as Hne by (by intros q Hq ->).
  constructor; simpl; [rewrite Hsk; apply lookup_insert_eq | done | by rewrite Hcs | done | |].
  - intros q Hq. apply (waits_insert hsk w w' p r' q Hr (Hne q Hq)). by apply Hw.
  - eapply sorted_len_ext; [|exact Hsort]. intros q Hq.
    by apply (waits_insert hsk w w' p r' q Hr (Hne q Hq)).
Qed.

Lemma pool_allocate_spec core hsk p w sk live :
  wait_ok core hsk w sk live -> waits hsk w p -> p ∉ sk_waiting_for_bufs sk ->
  exists w' sk' live', homa_pool_allocate core p w = Ok (0, w') /\
    attempted core hsk p w w' sk sk' live live'.
Proof.
  intros Hok Hwp Hn. pose proof Hok as [Hs Hi Hc Hnd Hw Hsort]. pose proof Hwp as (r & Hr & Hhsk & Hlen & Hh).
  unfold homa_pool_allocate. step. rewrite Hhsk. step. step.
  destruct (Z.eqb_spec (pool_region (sk_buffer_pool sk)) 0) as [E | _]; [by destruct (pi_region _ _ Hi) |].
  step. step.
  destruct (pool_reserve_spec core (w_clock w (w_tick w)) (w_clock w (S (w_tick w)))
    (h_bpage_lease_usecs (w_homa w)) (sk_buffer_pool sk) live (rpc_msgin r) Hi Hc Hlen Hh)
    as (pool' & mi' & ok & Hres & Hsame & Hcs & Hrr).
  destruct (pool_reserve_conf _ _ _ _ _ _ _ _ _ Hres) as [Hneed Hreg].
  unfold lift at 1. simpl w_clock. simpl w_tick. rewrite Hres.
  rewrite (bind_eq _ _ _ (pool', mi', ok) _ eq_refl).
  erewrite bind_eq by (apply upd_sock_eq; exact Hs).
  erewrite bind_eq by (apply upd_rpc_eq; exact Hr).
  set (sk1 := sk <| sk_buffer_pool := pool' |>). set (r' := r <| rpc_msgin := mi' |>).
  match goal with |- exists w' sk' live', (if ok then _ else _) ?W = _ /\ _ => set (w1 := W) end.
  assert (mi_length mi' = mi_length (rpc_msgin r)) as Hl by (by rewrite Hsame).
  assert (grant_fields r' = grant_fields r) as Hgf by (unfold grant_fields, r'; simpl; by rewrite Hsame).
  destruct ok.
  - destruct Hrr as (bufs & Hhb & Hmb & Hi'). exists w1, sk1, (bufs ++ live). split; [done |].
    constructor; try done; [by apply (wait_ok_store core hsk w w1 sk pool' live _ p r') | by exists r, mi' |].
    exists r, r'. split_ands; try done. left. exists bufs. split_ands; done.
  - destruct Hrr as (Hh' & Hi' & Hf & Hf').
    assert (wait_ok core hsk w1 sk1 live) as Hok1
      by (by apply (wait_ok_store core hsk w w1 sk pool' live _ p r')).
    assert (w_rpcs w1 !! p = Some r') as Hr1 by apply lookup_insert_eq.
    destruct (requeue_spec core hsk p w1 sk1 live r' mi' Hok1 Hr1 Hhsk Hn) as (sk' & Hex & Hok' & Hq & He & Hfr & Hsk).
    { exists r'. simpl. rewrite Hl. done. }
    { done. }
    eexists _, sk', live. split; [exact Hex |]. constructor; try done.
    { simpl. by rewrite insert_insert_eq. }
    { by exists r, mi'. }
    exists r, r'. split_ands; try done. right. split_ands; try done.
    + apply Hh'.
    + rewrite Hq, Hl. apply insert_before_ext. intros c Hc'.
      unfold longer. f_equal. apply (waits_insert hsk w w1 p r' c eq_refl). by intros ->.
    + rewrite Hfr. done.
Qed.

(** ** One iteration *)
Lemma pool_inv_needed pool live n :
  pool_inv pool live -> pool_inv (pool <| pool_bpages_needed := n |>) live.
Proof. intros []. by constructor. Qed.

Lemma dequeue_spec core hsk p rest w sk live :
  wait_ok core hsk w sk live -> sk_waiting_for_bufs sk = p :: rest ->
  exists sk', (upd_sock hsk (fun sk => sk <| sk_waiting_for_bufs := rest |>) ;;;
      match rest with [] => set_needed_max hsk | _ => set_bpages_needed hsk end) w =
    Ok (tt, w <| w_socks ::= insert hsk sk' |>) /\
    wait_ok core hsk (w <| w_socks ::= insert hsk sk' |>) sk' live /\
    sk_waiting_for_bufs sk' = rest /\ needed_exact w sk' /\
    pool_free_bpages (sk_buffer_pool sk') = pool_free_bpages (sk_buffer_pool sk).
Proof.
  intros [Hs Hi Hc Hnd Hw Hsort] Hl. rewrite Hl in *.
  apply NoDup_cons in Hnd as [_ Hnd]. apply StronglySorted_inv in Hsort as [Hsort _].
  step. set (sk1 := sk <| sk_waiting_for_bufs := rest |>).
  set (w1 := w <| w_socks ::= insert hsk sk1 |>).
  assert (w_socks w1 !! hsk = Some sk1) as Hs1 by apply lookup_insert_eq.
  assert (forall q, q ∈ rest -> waits hsk w q) as Hw' by (intros; apply Hw; set_solver).
  destruct rest as [|q rest].
  - unfold set_needed_max. rewrite (upd_sock_eq _ _ _ _ Hs1). eexists.
    split; [unfold upd; simpl; by rewrite insert_insert_eq |].
    split_ands; try done. constructor; simpl; try done; [apply lookup_insert_eq | by apply pool_inv_needed].
  - rewrite (set_bpages_needed_exec hsk w1 sk1 q rest Hs1 eq_refl (Hw' q ltac:(set_solver))). eexists.
    split; [unfold upd; simpl; by rewrite insert_insert_eq |].
    split_ands; try done. constructor; simpl; try done; [apply lookup_insert_eq | by apply pool_inv_needed].
Qed.

(** The fields of an RPC that hold its buffers. *)
Definition same_bufs (r r' : homa_rpc) : Prop :=
  rpc_hsk r' = rpc_hsk r /\ mi_length (rpc_msgin r') = mi_length (rpc_msgin r) /\
  mi_num_bpages (rpc_msgin r') = mi_num_bpages (rpc_msgin r) /\
  mi_bpage_offsets (rpc_msgin r') = mi_bpage_offsets (rpc_msgin r).

Lemma holds_same r r' bufs : same_bufs r r' -> holds (rpc_msgin r) bufs -> holds (rpc_msgin r') bufs.
Proof. intros (_ & _ & H1 & H2). unfold holds. by rewrite H1, H2. Qed.

Definition bufs_kept (P : ptr -> Prop) (w w' : world) : Prop :=
  forall q r, P q -> w_rpcs w !! q = Some r -> exists r', w_rpcs w' !! q = Some r' /\ same_bufs r r'.

Lemma waits_kept hsk P w w' q :
  bufs_kept P w w' -> P q -> waits hsk w q -> waits hsk w' q /\ wait_len w' q = wait_len w q.
Proof.
  intros Hk HP (r & Hr & Hh & Hl & Ho). destruct (Hk q r HP Hr) as (r' & Hr' & Hs).
  pose proof (holds_same _ _ _ Hs Ho) as Ho'. destruct Hs as (E1 & E2 & _). split.
  - exists r'. rewrite E1, E2. done.
  - unfold wait_len. by rewrite Hr, Hr'.
Qed.

Lemma wait_ok_kept core hsk w w' sk live :
  wait_ok core hsk w sk live -> w_socks w' = w_socks w -> bufs_kept (fun _ => True) w w' ->
  wait_ok core hsk w' sk live.
Proof.
  intros [Hs Hi Hc Hnd Hw Hsort] Hsk Hk. constructor; try done; [by rewrite Hsk | |].
  - intros q Hq. eapply (waits_kept hsk _ w w' q Hk); auto.
  - eapply sorted_len_ext; [|exact Hsort]. intros q Hq. eapply (waits_kept hsk _ w w' q Hk); auto.
Qed.

Section Loop.
Context (check : ptr -> M unit) (ginv : world -> Prop) `{!GrantLaws check ginv}.

Lemma wake_up_spec p w r :
  ginv w -> w_rpcs w !! p = Some r ->
  exists w', wake_up check p w = Ok (tt, w') /\ ginv w' /\ w_socks w' = w_socks w /\
    bufs_kept (fun _ => True) w w'.
Proof.
  intros Hg Hr. unfold wake_up. step. destruct (_ >? 0).
  - unfold upd_msgin. erewrite bind_eq by (apply upd_rpc_eq; exact Hr).
    match goal with |- exists w', check p ?W = _ /\ _ => set (w1 := W) end.
    set (r1 := r <| rpc_msgin ::= fun mi => mi <| mi_resend_all := 1 |> |>).
    assert (ginv w1) as Hg1 by (by apply (gl_rpc w w1 p r r1)).
    destruct (gl_check p w1 Hg1) as (w' & Hex & Hg' & Hs & Hk).
    { exists r1. apply lookup_insert_eq. }
    exists w'. split_ands; try done. intros q x _ Hx.
    destruct (decide (q = p)) as [-> | Hne].
    + rewrite Hr in Hx. injection Hx as <-. destruct (Hk p r1) as (r' & Hr' & Hb); [apply lookup_insert_eq |].
      exists r'. split; [done |]. exact Hb.
    + destruct (Hk q x) as (r' & Hr' & Hb); [simpl; by rewrite lookup_insert_ne |]. by exists r'.
  - exists w. split_ands; try done. intros q x _ Hx. exists x. split; [done |]. by split_ands.
Qed.

(** What one iteration for the first RPC [p] does. *)
Record iterated (core : Z) (hsk p : ptr) (rest : list ptr) (w w' : world) (sk' : homa_sock)
    (live live' : list buf) : Prop := {
  it_ok : wait_ok core hsk w' sk' live';
  it_ginv : ginv w';
  it_socks : w_socks w' = <[hsk := sk']> (w_socks w);
  it_kept : bufs_kept (fun q => q <> p) w w';
  it_exact : needed_exact w' sk';
  it_result :
    (sk_waiting_for_bufs sk' = rest /\ exists r bufs, w_rpcs w' !! p = Some r /\
       holds (rpc_msgin r) bufs /\ message_bufs (mi_length (rpc_msgin r)) bufs /\
       live' = bufs ++ live) \/
    (sk_waiting_for_bufs sk' ≡ₚ p :: rest /\ live' = live /\
       pool_free_bpages (sk_buffer_pool sk') < pool_bpages_needed (sk_buffer_pool sk'))
}.

Lemma pages_needed_mono a b : a <= b -> pages_needed a <= pages_needed b.
Proof.
  intros H. unfold pages_needed. rewrite !Z.shiftr_div_pow2 by (vm_compute; congruence).
  apply Z.div_le_mono; [done | lia].
Qed.

Lemma needed_exact_kept w w' sk P :
  needed_exact w sk -> bufs_kept P w w' ->
  (forall q, q ∈ sk_waiting_for_bufs sk -> P q /\ is_Some (w_rpcs w !! q)) -> needed_exact w' sk.
Proof.
  unfold needed_exact. intros He Hk Hl. destruct (sk_waiting_for_bufs sk) as [|q l]; [done |].
  destruct (Hl q ltac:(set_solver)) as [HP [r Hr]]. destruct (Hk q r HP Hr) as (r' & Hr' & _ & E & _).
  rewrite He. unfold wait_len. by rewrite Hr, Hr', E.
Qed.

(** A requeued RPC: the first one in the queue needs at least as much. *)
Lemma requeued_stop w w' sk sk' p rest r :
  StronglySorted (fun p q => wait_len w p <= wait_len w q) (sk_waiting_for_bufs sk) ->
  sk_waiting_for_bufs sk = p :: rest -> w_rpcs w !! p = Some r ->
  sk_waiting_for_bufs sk' ≡ₚ p :: rest -> needed_exact w' sk' ->
  (forall q, q <> p -> wait_len w' q = wait_len w q) ->
  wait_len w' p = mi_length (rpc_msgin r) ->
  pool_free_bpages (sk_buffer_pool sk') < pages_needed (mi_length (rpc_msgin r)) ->
  pool_free_bpages (sk_buffer_pool sk') < pool_bpages_needed (sk_buffer_pool sk').
Proof.
  intros Hs Hl Hr Hperm He Hne Hp Hlt. unfold needed_exact in He.
  destruct (sk_waiting_for_bufs sk') as [|h t]; [by apply Permutation_nil_cons in Hperm |].
  rewrite He. eapply Z.lt_le_trans; [exact Hlt |]. apply pages_needed_mono.
  assert (h ∈ p :: rest) as Hh by (rewrite <- Hperm; set_solver).
  destruct (decide (h = p)) as [-> |]; [lia |]. rewrite Hne by done.
  rewrite Hl in Hs. apply StronglySorted_inv in Hs as [_ Hs]. rewrite Forall_forall in Hs.
  apply elem_of_cons in Hh as [-> | Hh]; [done |]. specialize (Hs h Hh).
  unfold wait_len at 1 in Hs. rewrite Hr in Hs. done.
Qed.

Lemma iteration_spec core hsk p rest w sk live :
  wait_ok core hsk w sk live -> ginv w -> sk_waiting_for_bufs sk = p :: rest ->
  exists w0 w1 w2 w' sk' live',
    upd_sock hsk (fun sk => sk <| sk_waiting_for_bufs := rest |>) w = Ok (tt, w0) /\
    match rest with [] => set_needed_max hsk | _ => set_bpages_needed hsk end w0 = Ok (tt, w1) /\
    homa_pool_allocate core p w1 = Ok (0, w2) /\ wake_up check p w2 = Ok (tt, w') /\
    iterated core hsk p rest w w' sk' live live'.
Proof.
  intros Hok Hg Hl. destruct (dequeue_spec core hsk p rest w sk live Hok Hl) as (sk1 & Hex1 & Hok1 & Hl1 & He1 & Hf1).
  apply bind_Ok in Hex1 as ([] & w0 & Hex0 & Hex1). set (w1 := w <| w_socks ::= insert hsk sk1 |>) in *.
  pose proof (wo_waits _ _ _ _ _ Hok p ltac:(rewrite Hl; set_solver)) as Hp.
  pose proof (wo_nodup _ _ _ _ _ Hok) as Hnd. rewrite Hl in Hnd. apply NoDup_cons in Hnd as [Hpr _].
  destruct (pool_allocate_spec core hsk p w1 sk1 live Hok1 Hp ltac:(by rewrite Hl1))
    as (w2 & sk2 & live2 & Hex2 & Hat). destruct Hat as [Hok2 Hs2 Hh2 Hp2 _ _ _ (r & r' & Hr & Hr2 & Hgf & Hlen & _ & Hcase)].
  assert (ginv w1) as Hg1 by (eapply (gl_sock w w1 hsk sk1); auto).
  assert (ginv w2) as Hg2.
  { apply (gl_rpc (w1 <| w_socks := w_socks w2 |>) w2 p r r'); try done.
    eapply (gl_sock w1 _ hsk sk2); auto. }
  destruct (wake_up_spec p w2 r' Hg2 ltac:(by rewrite Hr2, lookup_insert_eq)) as (w' & Hex3 & Hg3 & Hs3 & Hk3).
  assert (bufs_kept (fun q => q <> p) w w') as Hk.
  { intros q x Hne Hx. apply (Hk3 q x); [done |]. by rewrite Hr2, lookup_insert_ne. }
  exists w0, w1, w2, w', sk2, live2. split_ands; try done.
  assert (forall q, q ∈ sk_waiting_for_bufs sk2 -> is_Some (w_rpcs w2 !! q)) as Hlive2
    by (intros q Hq; destruct (wo_waits _ _ _ _ _ Hok2 q Hq) as (x & ? & _); eauto).
  assert (needed_exact w2 sk2 -> needed_exact w' sk2) as Hexact
    by (intros He2; eapply needed_exact_kept; [exact He2 | exact Hk3 | auto]).
  constructor; try done.
  - by eapply wait_ok_kept.
  - rewrite Hs3, Hs2. simpl. by rewrite insert_insert_eq.
  - apply Hexact. destruct Hcase as [(bufs & _ & _ & _ & Hq & Hn) | (_ & _ & _ & He2 & _)]; [|done].
    unfold needed_exact in *. rewrite Hq, Hn. rewrite Hl1 in *. destruct rest as [|q rest]; [done |].
    rewrite He1. unfold wait_len. rewrite Hr2, lookup_insert_ne; [done |]. intros ->. set_solver.
  - destruct Hcase as [(bufs & Hb & Hm & -> & Hq & _) | (_ & -> & Hq & He2 & Hlt)].
    + left. split; [by rewrite Hq |]. destruct (Hk3 p r') as (x & Hx & Hsb); [done | by rewrite Hr2, lookup_insert_eq |].
      exists x, bufs. pose proof (holds_same _ _ _ Hsb Hb) as Hbx. destruct Hsb as (_ & E & _).
      rewrite E, Hlen. split_ands; done.
    + right. split_ands; [by rewrite Hq, Hl1, insert_before_perm | done |].
      eapply (requeued_stop w w2 sk sk2 p rest r); try done; [apply Hok | | |].
      * by rewrite Hq, Hl1, insert_before_perm.
      * intros q Hne. by apply (waits_insert hsk w w2 p r' q).
      * unfold wait_len. by rewrite Hr2, lookup_insert_eq.
Qed.

(** What the whole loop does: the RPCs [served] received their buffers. *)
Record drained (core : Z) (hsk : ptr) (served : list ptr) (w w' : world) (sk sk' : homa_sock)
    (live live' : list buf) : Prop := {
  dr_ok : wait_ok core hsk w' sk' live';
  dr_ginv : ginv w';
  dr_socks : w_socks w' = <[hsk := sk']> (w_socks w);
  dr_queue : sk_waiting_for_bufs sk ≡ₚ served ++ sk_waiting_for_bufs sk';
  dr_served : forall p, p ∈ served -> exists r bufs, w_rpcs w' !! p = Some r /\
    holds (rpc_msgin r) bufs /\ message_bufs (mi_length (rpc_msgin r)) bufs /\ bufs ⊆+ live';
  dr_live : live ⊆+ live';
  dr_kept : bufs_kept (fun q => q ∉ sk_waiting_for_bufs sk) w w';
  dr_exact : needed_exact w sk -> needed_exact w' sk';
  dr_end : sk_waiting_for_bufs sk' = [] \/
    pool_free_bpages (sk_buffer_pool sk') < pool_bpages_needed (sk_buffer_pool sk')
}.

Lemma drained_nil core hsk w sk live :
  wait_ok core hsk w sk live -> ginv w ->
  sk_waiting_for_bufs sk = [] \/
    pool_free_bpages (sk_buffer_pool sk) < pool_bpages_needed (sk_buffer_pool sk) ->
  drained core hsk [] w w sk sk live live.
Proof.
  intros Hok Hg He. constructor; try done.
  - rewrite insert_id; [done | apply Hok].
  - by intros p ?%elem_of_nil.
  - intros q r _ Hr. exists r. split; [done |]. by split_ands.
Qed.

(** An iteration that serves [p], then the rest of the loop. *)
Lemma drained_cons core hsk p rest served w w1 w' sk sk1 sk' live live1 live' :
  sk_waiting_for_bufs sk = p :: rest -> p ∉ rest ->
  iterated core hsk p rest w w1 sk1 live live1 -> sk_waiting_for_bufs sk1 = rest ->
  (exists r bufs, w_rpcs w1 !! p = Some r /\ holds (rpc_msgin r) bufs /\
     message_bufs (mi_length (rpc_msgin r)) bufs /\ live1 = bufs ++ live) ->
  drained core hsk served w1 w' sk1 sk' live1 live' ->
  drained core hsk (p :: served) w w' sk sk' live live'.
Proof.
  intros Hl Hp [Hok1 Hg1 Hs1 Hk1 He1 _] Hl1 (r & bufs & Hr & Hb & Hm & ->) [Hok Hg Hs Hq Hsv Hlv Hk He Hend].
  rewrite Hl1 in *. constructor; try done.
  - by rewrite Hs, Hs1, insert_insert_eq.
  - rewrite Hl, Hq. done.
  - intros q [-> | Hin]%elem_of_cons; [|by apply Hsv].
    destruct (Hk p r Hp Hr) as (r' & Hr' & Hsb). exists r', bufs.
    pose proof (holds_same _ _ _ Hsb Hb). destruct Hsb as (_ & E & _). rewrite E.
    split_ands; try done. rewrite <- Hlv. by apply submseteq_inserts_r.
  - rewrite <- Hlv. by apply submseteq_inserts_l.
  - intros q x Hq' Hx. rewrite Hl in Hq'. apply not_elem_of_cons in Hq' as [Hne Hnr].
    destruct (Hk1 q x Hne Hx) as (x1 & Hx1 & E1 & E2 & E3 & E4).
    destruct (Hk q x1 Hnr Hx1) as (x2 & Hx2 & F1 & F2 & F3 & F4).
    exists x2. split; [done |]. unfold same_bufs. split_ands; congruence.
  - auto.
Qed.

Lemma check_waiting_loop_spec core hsk fuel : forall w sk live,
  wait_ok core hsk w sk live -> ginv w -> (length (sk_waiting_for_bufs sk) < fuel)%nat ->
  exists w' sk' live' served, check_waiting_loop check fuel core hsk w = Ok (tt, w') /\
    drained core hsk served w w' sk sk' live live'.
Proof.
  induction fuel as [|fuel IH]; intros w sk live Hok Hg Hf; [lia |].
  pose proof (wo_sock _ _ _ _ _ Hok) as Hs. cbn [check_waiting_loop]. step.
  destruct (Z.ltb_spec (pool_free_bpages (sk_buffer_pool sk)) (pool_bpages_needed (sk_buffer_pool sk))) as [Hlt | Hge].
  { exists w, sk, live, []. split; [done |]. apply drained_nil; auto. }
  destruct (sk_waiting_for_bufs sk) as [|p rest] eqn:Hl.
  { unfold set_needed_max. rewrite (upd_sock_eq _ _ _ _ Hs).
    set (sk' := sk <| sk_buffer_pool ::= _ |>). set (w' := w <| w_socks ::= _ |>).
    exists w', sk', live, []. split; [done |].
    constructor; try done; [| | by intros p ?%elem_of_nil | | | by left].
    - destruct Hok. constructor; simpl; try done; [apply lookup_insert_eq | by apply pool_inv_needed].
    - eapply (gl_sock w w' hsk sk'); auto.
    - intros q r _ Hr. exists r. split; [done |]. by unfold same_bufs; split_ands.
    - intros _. unfold needed_exact. simpl. by rewrite Hl. }
  destruct (iteration_spec core hsk p rest w sk live Hok Hg Hl)
    as (w0 & w1 & w2 & w3 & sk3 & live3 & E0 & E1 & E2 & E3 & Hit).
  rewrite (bind_eq _ _ _ _ _ E0), (bind_eq _ _ _ _ _ E1), (bind_eq _ _ _ _ _ E2), (bind_eq _ _ _ _ _ E3).
  pose proof (it_result _ _ _ _ _ _ _ _ _ Hit) as [[Hl3 Hserved] | (Hq3 & -> & Hlt)].
  - pose proof (wo_nodup _ _ _ _ _ Hok) as Hnd. rewrite Hl in Hnd. apply NoDup_cons in Hnd as [Hp _].
    destruct (IH w3 sk3 live3 (it_ok _ _ _ _ _ _ _ _ _ Hit) (it_ginv _ _ _ _ _ _ _ _ _ Hit))
      as (w' & sk' & live' & served & Hex & Hd); [rewrite Hl3; simpl in Hf; lia |].
    exists w', sk', live', (p :: served). split; [done |]. by eapply drained_cons.
  - destruct Hit as [Hok3 Hg3 Hs3 Hk3 He3 _]. exists w3, sk3, live, []. split.
    + destruct fuel; cbn [check_waiting_loop];
        rewrite (bind_eq _ _ _ _ _ (get_sock_eq _ _ _ (wo_sock _ _ _ _ _ Hok3)));
        (destruct (Z.ltb_spec (pool_free_bpages (sk_buffer_pool sk3))
          (pool_bpages_needed (sk_buffer_pool sk3))); [done | lia]).
    + constructor; try done; [by rewrite Hl, Hq3 | by intros q ?%elem_of_nil | | by right].
      intros q r Hq Hr. rewrite Hl in Hq. apply not_elem_of_cons in Hq as [Hne _]. by apply Hk3.
Qed.
End Loop.

(** ** The grant code keeps its promise *)
Definition grant_state (w : world) : Prop := grant_inv w /\ active_grantable w.

Lemma grant_state_rpc w w' p r r' :
  grant_state w -> w_rpcs w !! p = Some r -> grant_fields r' = grant_fields r ->
  w_rpcs w' = <[p := r']> (w_rpcs w) -> w_homa w' = w_homa w -> w_peers w' = w_peers w ->
  w_socks w' = w_socks w -> grant_state w'.
Proof.
  intros [([[Hl Hn] Ho Ht] & [Ha1 Ha2 Ha3 Ha4] & Hpar) Hg] Hp Hf Hr Hh Hpe Hs.
  injection Hf as Hf1 Hf2 Hf3 Hf4. split; [|unfold active_grantable, world_grantable; by rewrite Hh, Hpe].
  split; [constructor | split; [constructor | by rewrite Hh]].
  - split; rewrite Hh, ?Hpe, ?Hr; [by eapply lists_ok_insert_rpc | done].
  - rewrite Hr, Hpe, Hs. intros q x [[<- <-] | [_ Hx]]%lookup_insert_Some; [|eauto].
    rewrite Hf1, Hf2. eauto.
  - rewrite Hh, Hr, Ht, (sum_rec_insert _ _ r) by done. lia.
  - by rewrite Hh.
  - by rewrite Hh.
  - rewrite Hh, Hr. intros i Hi. destruct (Ha3 i Hi) as (q & x & Hq & Hx & Hrank).
    destruct (decide (q = p)) as [-> |]; [|exists q, x; by rewrite lookup_insert_ne].
    exists p, r'. rewrite lookup_insert_eq. split_ands; try done. congruence.
  - rewrite Hh, Hr. intros q x [[<- <-] | [_ Hx]]%lookup_insert_Some; [|eauto].
    rewrite Hf4. eauto.
Qed.

Lemma grant_state_sock w w' hsk sk :
  grant_state w -> w_homa w' = w_homa w -> w_peers w' = w_peers w -> w_rpcs w' = w_rpcs w ->
  w_socks w' = w_socks w \/ w_socks w' = <[hsk := sk]> (w_socks w) -> grant_state w'.
Proof.
  intros [([Hl Ho Ht] & [Ha1 Ha2 Ha3 Ha4] & Hpar) Hg] Hh Hpe Hr Hs.
  split; [|unfold active_grantable, world_grantable; by rewrite Hh, Hpe].
  split; [constructor | split; [constructor | by rewrite Hh]]; unfold world_lists_ok in *; rewrite ?Hh, ?Hr, ?Hpe; auto.
  intros p x Hx. destruct (Ho p x Hx) as [? ?]. split; [done |].
  destruct Hs as [-> | ->]; [done |]. apply lookup_insert_is_Some'. by right.
Qed.

#[export] Instance grant_laws : GrantLaws homa_grant_check_rpc grant_state.
Proof.
  split; [| exact grant_state_rpc | exact grant_state_sock].
  intros p w [Hi Ha] Hp. destruct (check_rpc_spec p w Hi Hp) as (w' & Hex & [Hi' Hf _ Ha'] & _).
  exists w'. split_ands; [done | by split; auto | apply Hf |]. intros q r Hr.
  destruct (rest_lookup _ _ q r (gf_rpcs _ _ Hf) Hr) as (r' & Hr' & E).
  exists r'. apply rpc_rest_fields in E as (? & ? & ? & ? & ? & ? & ? & ?). by split_ands.
Qed.

(** ** Properties *)


(** A message of 200000 bytes waits for four pages of the example pool. *)
Definition ex_wait_sock : homa_sock :=
  ex_sock <| sk_buffer_pool := example_pool <| pool_bpages_needed := 4 |> |>
          <| sk_waiting_for_bufs := [20%positive] |>.

Definition ex_wait : world :=
  ex <| w_rpcs ::= insert 20%positive (ex_rpc 2%positive 9 ((example_mi 200000) <| mi_rank := -1 |>)) |>
     <| w_socks := {[ 1%positive := ex_wait_sock ]} |>.

Lemma ex_wait_ok : wait_ok 1 1%positive ex_wait ex_wait_sock [].
Proof.
  constructor; try done.
  - apply pool_inv_needed, example_pool_inv.
  - apply NoDup_singleton.
  - intros p ->%list_elem_of_singleton. eexists. split; [reflexivity |]. split; [reflexivity |].
    split; [vm_compute; split; congruence |]. apply example_mi_holds.
  - repeat constructor.
Qed.

Lemma ex_wait_grant : grant_inv ex_wait /\ active_grantable ex_wait.
Proof.
  apply idle_inv; [apply world_lists_check; vm_compute; reflexivity |].
  apply (bool_decide_unpack _). vm_compute. exact I.
Qed.

