(* ===== verification/Outgoing.v ===== *)
(** * Outgoing messages (homa_outgoing.c)

    How a message is cut into GSO packets, transmitted under grants and the
    limit on the NIC queue, retransmitted, and paced. *)
From S2P Require Import Prelude Lists Wire Types Example Control Peer.

Definition sizeof_data_hdr : Z := 56.
Definition sizeof_seg_hdr : Z := 4.
Definition HOMA_FLAG_DONT_THROTTLE : Z := 2.

Definition upd_msgout (p : ptr) (f : homa_message_out -> homa_message_out) : M unit :=
  upd_rpc p (fun rpc => rpc <| rpc_msgout ::= f |>).
Definition upd_host (f : host -> host) : M unit := fun w => Ok (tt, w <| w_host ::= f |>).

(** [do_div(n, base)]: 64-bit dividend, 32-bit divisor. *)
Definition do_div (n base : Z) : result Z :=
  if u32 base =? 0 then Fault DivByZero else Ok (u64 n / u32 base).

Definition homa_message_out_init (p : ptr) (length_ : Z) : M unit :=
  let* h := get_homa in
  let* now := sched_clock in
  upd_msgout p (fun mo => mo <| mo_length := length_ |> <| mo_num_skbs := 0 |>
    <| mo_copied_from_user := 0 |> <| mo_packets := [] |> <| mo_next_xmit := O |>
    <| mo_next_xmit_offset := 0 |> <| mo_active_xmits := 0 |>
    <| mo_unscheduled := if h_unsched_bytes h >? length_ then length_ else h_unsched_bytes h |>
    <| mo_sched_priority := 0 |> <| mo_init_ns := now |>).

(** ** Building packets

    What the host provides for a packet or segment at a message offset:
    [tx_mem] the memory of a new skb (with the previous contents of its
    header), [tx_append] the errno of copying its data, [tx_frag] that of
    appending its segment header (0 is success). *)
Record tx_env := {
  tx_mem : Z -> option homa_data_hdr; tx_append : Z -> Z; tx_frag : Z -> Z
}.

(** [homa_skb_append_from_iter]: [iter] is the user data not yet copied,
    [body] the contents of the skb. *)
Definition homa_skb_append_from_iter (env : tx_env) (offset n : Z) (iter body : list Z)
    : Z + (list Z * list Z) :=
  if negb (tx_append env offset =? 0) then inl (tx_append env offset)
  else if Z.of_nat (length iter) <? n then inl (- EFAULT)
  else inr (drop (Z.to_nat n) iter, body ++ take (Z.to_nat n) iter).

Fixpoint fill_loop (env : tx_env) (fuel : nat) (seg_length bytes_left offset : Z)
    (iter body : list Z) : result (Z + (list Z * list Z)) :=
  match fuel with
  | O => Fault OutOfFuel
  | S fuel =>
      let seg_length := if bytes_left <? seg_length then bytes_left else seg_length in
      match homa_skb_append_from_iter env offset seg_length iter body with
      | inl err => Ok (inl err)
      | inr (iter, body) =>
          let bytes_left := bytes_left - seg_length in
          let offset := offset + seg_length in
          if bytes_left =? 0 then Ok (inr (iter, body))
          else if negb (tx_frag env offset =? 0) then Ok (inl (tx_frag env offset))
          else fill_loop env fuel seg_length bytes_left offset iter (body ++ be_enc 4 (u32 offset))
      end
  end.

(** [homa_fill_data_interleaved]: at most one iteration per byte. *)
Definition homa_fill_data_interleaved (env : tx_env) (seg_length data_bytes offset : Z)
    (iter : list Z) : result (Z + (list Z * list Z)) :=
  fill_loop env (Z.to_nat data_bytes + 1) seg_length data_bytes offset iter [].

Definition homa_set_doff (size : Z) : Z := Z.land (Z.shiftl size 2) 255.

(** The header that [homa_new_data_packet] fills in over [mem]. *)
Definition data_header (mem : homa_data_hdr) (sk : homa_sock) (peer : homa_peer) (rpc : homa_rpc)
    (acks : list homa_ack) (offset doff_ seg : Z) : homa_data_hdr :=
  let c := d_common mem in
  Build_homa_data_hdr
    (Build_homa_common_hdr (sk_port sk) (rpc_dport rpc) (u32 offset) (ack1 c) (ack2 c) DATA
       doff_ HOMA_TCP_FLAGS (window c) 0 HOMA_TCP_URGENT (rpc_id rpc))
    (u32 (mo_length (rpc_msgout rpc))) (u32 (mo_unscheduled (rpc_msgout rpc)))
    (match acks with
     | a :: _ => a
     | [] => Build_homa_ack 0 (server_port (ack mem))
     end)
    (peer_cutoff_version peer) 0 (pad mem) seg.

(** [homa_new_data_packet]: the packet and the remaining user data, or an
    errno. *)
Definition homa_new_data_packet (env : tx_env) (p : ptr) (iter : list Z)
    (offset length_ max_seg_data : Z) : M (Z + (skb_out * list Z)) :=
  let* segs := lift (do_div (length_ + max_seg_data - 1) max_seg_data) in
  match tx_mem env offset with
  | None => ret (inl (- ENOMEM))
  | Some mem =>
      let* rpc := get_rpc p in
      let* sk := get_sock (rpc_hsk rpc) in
      let* acks := homa_peer_get_acks (rpc_peer rpc) 1 in
      let* peer := get_peer (rpc_peer rpc) in
      let wire_bytes := s32 (length_ + segs * (sizeof_data_hdr + sk_ip_header_length sk
        + HOMA_ETH_OVERHEAD)) in
      let interleave := (segs >? 1) && negb (sk_tcp sk) in
      let hdr := if interleave
        then data_header mem sk peer rpc acks offset
               (homa_set_doff (sizeof_data_hdr - sizeof_seg_hdr)) (u32 offset)
        else data_header mem sk peer rpc acks offset (homa_set_doff sizeof_data_hdr) (u32 (-1)) in
      let* r := (if interleave
        then lift (homa_fill_data_interleaved env max_seg_data length_ offset iter)
        else ret (homa_skb_append_from_iter env offset length_ iter [])) in
      match r with
      | inl err => ret (inl err)
      | inr (iter, body) =>
          let gso_size := if interleave then max_seg_data + sizeof_seg_hdr else max_seg_data in
          ret (inr (Build_skb_out wire_bytes length_ max_seg_data offset hdr body
            (if segs >? 1 then segs else 0) (if segs >? 1 then gso_size else 0), iter))
      end
  end.

(** ** The NIC queue and the throttled list *)
Definition homa_outgoing_sysctl_changed : M unit :=
  let* h := get_homa in
  let* q := lift (do_div (8 * 1000 * 1000 * 1000 * 101 / 100) (h_link_mbps h)) in
  upd_homa (fun h => h <| h_ns_per_mbyte := u32 q |>).

(** [homa_check_nic_queue]; without other threads the compare-and-swap
    succeeds at once. *)
Definition homa_check_nic_queue (skb : skb_out) (force : bool) : M bool :=
  let* h := get_homa in
  let* ns_for_packet := lift (do_div (h_ns_per_mbyte h * info_wire_bytes skb) 1000000) in
  let* clock := sched_clock in
  let idle := h_link_idle_time h in
  if (u64 (clock + h_max_nic_queue_ns h) <? idle) && negb force &&
     (Z.land (h_flags h) HOMA_FLAG_DONT_THROTTLE =? 0)
  then ret false
  else
    (upd_homa (fun h => h <| h_link_idle_time :=
       u64 ((if idle <? clock then clock else idle) + ns_for_packet) |>) ;;;
     ret true).

Definition bytes_left (rpc : homa_rpc) : Z :=
  mo_length (rpc_msgout rpc) - mo_next_xmit_offset (rpc_msgout rpc).

(** [homa_add_to_throttled]; the pacer thread is also woken up. *)
Definition homa_add_to_throttled (p : ptr) : M unit :=
  let* h := get_homa in
  if bool_decide (p ∈ h_throttled_rpcs h) then ret tt else
  let* now := sched_clock in
  upd_homa (fun h => h <| h_throttle_add := now |>) ;;;
  let* rpc := get_rpc p in
  let* l := insertM (fun c => let* cand := get_rpc c in
    ret (bytes_left cand >? bytes_left rpc)) p (h_throttled_rpcs h) in
  upd_homa (fun h => h <| h_throttled_rpcs := l |>).

Definition homa_remove_from_throttled (p : ptr) : M unit :=
  upd_homa (fun h => h <| h_throttled_rpcs ::= unlink p |>).

(** ** Transmission *)

(** [__homa_xmit_data]: the packet as it is handed to IP, on the route that
    the peer holds. *)
Definition xmit_data_low (skb : skb_out) (p : ptr) (priority : Z) : M skb_out :=
  let* rpc := get_rpc p in
  let* peer := get_peer (rpc_peer rpc) in
  let skb := skb <| out_hdr ::= fun d => Build_homa_data_hdr (d_common d) (message_length d)
    (incoming d) (ack d) (peer_cutoff_version peer) (retransmit d) (pad d) (seg_offset d) |> in
  let* h := get_homa in
  let* _ := lift (arr (h_priority_map h) priority) in
  upd_host (fun ho => ho <| host_xmit ::= fun l => l ++ [(rpc_peer rpc, priority, skb)] |>) ;;;
  ret skb.

(** The priority of the packet at the current offset. *)
Definition xmit_priority (rpc : homa_rpc) : M Z :=
  let mo := rpc_msgout rpc in
  if mo_next_xmit_offset mo <? mo_unscheduled mo then
    let* h := get_homa in
    let* peer := get_peer (rpc_peer rpc) in
    lift (homa_unsched_priority h peer (mo_length mo))
  else ret (mo_sched_priority mo).

(** The loop of [homa_xmit_data]: each iteration sends one packet. *)
Fixpoint xmit_loop (fuel : nat) (p : ptr) (force : bool) : M unit :=
  let* rpc := get_rpc p in
  let mo := rpc_msgout rpc in
  match mo_packets mo !! mo_next_xmit mo with
  | None => ret tt
  | Some skb =>
      match fuel with
      | O => raise OutOfFuel
      | S fuel =>
          if mo_next_xmit_offset mo >=? mo_granted mo then ret tt else
          let* h := get_homa in
          let* ok := (if mo_length mo - mo_next_xmit_offset mo >=? h_throttle_min_bytes h
            then homa_check_nic_queue skb force else ret true) in
          if negb ok then homa_add_to_throttled p else
          let* priority := xmit_priority rpc in
          upd_msgout p (fun mo => mo <| mo_next_xmit ::= S |>
            <| mo_next_xmit_offset ::= fun o => o + info_data_bytes skb |>) ;;;
          let* skb := xmit_data_low skb p priority in
          upd_msgout p (fun m => m <| mo_packets ::= <[mo_next_xmit mo := skb]> |>) ;;;
          let* rpc := get_rpc p in
          if bool_decide (rpc_state_ rpc = RPC_DEAD) then ret tt else xmit_loop fuel p false
      end
  end.

Definition homa_xmit_data (p : ptr) (force : bool) : M unit :=
  upd_msgout p (fun mo => mo <| mo_active_xmits ::= fun n => n + 1 |>) ;;;
  let* rpc := get_rpc p in
  xmit_loop (length (mo_packets (rpc_msgout rpc))) p force ;;;
  upd_msgout p (fun mo => mo <| mo_active_xmits ::= fun n => n - 1 |>).

(** ** Retransmission *)
Definition homa_skb_append_from_skb (src : skb_out) (offset n : Z) : list Z :=
  slice (enc_data (out_hdr src) ++ out_body src) offset n.

(** The [incoming] field of a retransmitted segment that ends at [e]. *)
Definition resend_incoming (mo : homa_message_out) (e : Z) : Z :=
  if e <=? mo_granted mo then mo_granted mo
  else if e >? mo_length mo then mo_length mo else e.

Definition resend_header (d : homa_data_hdr) (offset inc : Z) : homa_data_hdr :=
  let c := d_common d in
  Build_homa_data_hdr
    (Build_homa_common_hdr (sport c) (dport c) (u32 offset) (ack1 c) (ack2 c) (type c) (doff c)
       (hflags c) (window c) (checksum c) (urgent c) (sender_id c))
    (message_length d) (u32 inc) (ack d) (cutoff_version d) 1 (pad d) (u32 offset).

(** Retransmission of one segment; the result is whether to stop. *)
Definition resend_seg (env : tx_env) (p : ptr) (skb : skb_out) (priority offset seg_off n : Z)
    : M bool :=
  match tx_mem env offset with
  | None => ret true
  | Some _ =>
      let* rpc := get_rpc p in
      let* sk := get_sock (rpc_hsk rpc) in
      if negb (tx_append env offset =? 0) then ret true else
      let new := Build_skb_out (sk_ip_header_length sk + sizeof_data_hdr + n + HOMA_ETH_OVERHEAD)
        n n offset (resend_header (out_hdr skb) offset (resend_incoming (rpc_msgout rpc) (offset + n)))
        (homa_skb_append_from_skb skb seg_off n) 0 0 in
      homa_check_nic_queue new true ;;; xmit_data_low new p priority ;;; ret false
  end.

Fixpoint resend_segs (env : tx_env) (fuel : nat) (p : ptr) (skb : skb_out)
    (start end_ priority offset seg_off seg_length data_left : Z) : M bool :=
  if data_left <=? 0 then ret false else
  match fuel with
  | O => raise OutOfFuel
  | S fuel =>
      let seg_length := if seg_length >? data_left then data_left else seg_length in
      if end_ <=? offset then ret true else
      let* stop := (if offset + seg_length <=? start then ret false
        else resend_seg env p skb priority offset seg_off seg_length) in
      if (stop : bool) then ret true else
      resend_segs env fuel p skb start end_ priority (offset + seg_length)
        (seg_off + out_gso_size skb) seg_length (data_left - seg_length)
  end.

Fixpoint resend_pkts (env : tx_env) (p : ptr) (start end_ priority : Z) (pkts : list skb_out)
    : M unit :=
  match pkts with
  | [] => ret tt
  | skb :: rest =>
      let offset := info_offset skb in
      if offset >=? end_ then ret tt
      else if start >=? offset + info_data_bytes skb then resend_pkts env p start end_ priority rest
      else
        let seg_length := if out_gso_segs skb <=? 1 then info_data_bytes skb
          else info_seg_length skb in
        let* stop := resend_segs env (Z.to_nat (info_data_bytes skb)) p skb start end_ priority
          offset sizeof_data_hdr seg_length (info_data_bytes skb) in
        if (stop : bool) then ret tt else resend_pkts env p start end_ priority rest
  end.

Definition homa_resend_data (env : tx_env) (p : ptr) (start end_ priority : Z) : M unit :=
  if end_ <=? start then ret tt else
  let* rpc := get_rpc p in
  resend_pkts env p start end_ priority (mo_packets (rpc_msgout rpc)).

(** ** Filling a message *)

(** The number of bytes in the packet at [offset]. *)
Definition skb_data_bytes (mo : homa_message_out) (max_gso_data offset left : Z) : Z :=
  let n := if (offset <? mo_unscheduled mo) && (offset + max_gso_data >? mo_unscheduled mo)
    then mo_unscheduled mo - offset else max_gso_data in
  if n >? left then left else n.

(** The loop of [homa_message_out_fill]: each iteration creates one packet.
    The errors of [homa_new_data_packet] are negative errnos in a pointer, and
    the test [!skb] does not recognise them, so the code goes on to dereference
    the pointer. *)
Fixpoint out_fill_loop (env : tx_env) (fuel : nat) (p : ptr) (max_seg_data max_gso_data : Z)
    (overlap_xmit xmit : bool) (left : Z) (iter : list Z) : M Z :=
  if left <=? 0 then ret 0 else
  match fuel with
  | O => raise OutOfFuel
  | S fuel =>
      let* rpc := get_rpc p in
      let mo := rpc_msgout rpc in
      let offset := mo_length mo - left in
      let n := skb_data_bytes mo max_gso_data offset left in
      let* r := homa_new_data_packet env p iter offset n max_seg_data in
      match r with
      | inl _ => raise BadPointer
      | inr (skb, iter) =>
          let left := left - n in
          let* rpc := get_rpc p in
          if bool_decide (rpc_state_ rpc = RPC_DEAD) then ret (- EINVAL) else
          upd_msgout p (fun mo => mo <| mo_packets ::= fun l => l ++ [skb] |>
            <| mo_num_skbs ::= fun k => k + 1 |>
            <| mo_copied_from_user := mo_length mo - left |>) ;;;
          let* h := get_homa in
          (if overlap_xmit && bool_decide (p ∉ h_throttled_rpcs h) && xmit &&
              (offset <? mo_granted mo)
           then homa_add_to_throttled p else ret tt) ;;;
          out_fill_loop env fuel p max_seg_data max_gso_data overlap_xmit xmit left iter
      end
  end.

(** The packet geometry: [mtu] and [gso_max] are those of the route. *)
Definition max_seg_data_of (sk : homa_sock) (mtu : Z) : Z :=
  s32 (mtu - sk_ip_header_length sk - sizeof_data_hdr).

Definition max_gso_data_of (h : homa) (sk : homa_sock) (mtu gso_max : Z) : result Z :=
  let max_seg_data := max_seg_data_of sk mtu in
  let gso_size := if gso_max >? h_max_gso_size h then h_max_gso_size h else gso_max in
  let! segs :=
    (if sk_tcp sk
     then do_div (gso_size - sk_ip_header_length sk - sizeof_data_hdr) max_seg_data
     else do_div (gso_size - sk_ip_header_length sk - sizeof_data_hdr + sizeof_seg_hdr)
            (max_seg_data + sizeof_seg_hdr)) in
  Ok (s32 ((if segs =? 0 then 1 else segs) * max_seg_data)).

Definition flags_or (bits : Z) (rpc : homa_rpc) : homa_rpc :=
  rpc <| rpc_flags ::= fun f => Z.lor f bits |>.
Definition flags_andnot (bits : Z) (rpc : homa_rpc) : homa_rpc :=
  rpc <| rpc_flags ::= fun f => Z.ldiff f bits |>.

Definition homa_message_out_fill (env : tx_env) (mtu gso_max : Z) (p : ptr) (iter : list Z)
    (xmit : bool) : M Z :=
  let count := Z.of_nat (length iter) in
  homa_message_out_init p (s32 count) ;;;
  let* rpc := get_rpc p in
  let len := mo_length (rpc_msgout rpc) in
  if (len >? HOMA_MAX_MESSAGE_LENGTH) || (len =? 0) then
    (upd_rpc p (flags_andnot RPC_COPYING_FROM_USER) ;;; ret (- EINVAL))
  else
  let* sk := get_sock (rpc_hsk rpc) in
  let* h := get_homa in
  let max_seg_data := max_seg_data_of sk mtu in
  let* max_gso_data := lift (max_gso_data_of h sk mtu gso_max) in
  let overlap_xmit := len >? 2 * max_gso_data in
  upd_msgout p (fun mo => mo <| mo_granted := mo_unscheduled mo |>) ;;;
  upd_rpc p (flags_or RPC_COPYING_FROM_USER) ;;;
  let* err := out_fill_loop env (Z.to_nat len) p max_seg_data max_gso_data overlap_xmit xmit len iter in
  upd_rpc p (flags_andnot RPC_COPYING_FROM_USER) ;;;
  if negb (err =? 0) then ret err else
  ((if negb overlap_xmit && xmit then homa_xmit_data p false else ret tt) ;;;
   ret 0).

(** ** The pacer *)

(** Waiting until the NIC queue is short enough; [false]: a packet has been
    sent already, return instead. *)
Fixpoint pacer_wait (fuel : nat) (first : bool) (now idle : Z) : M bool :=
  let* h := get_homa in
  if u64 (now + h_max_nic_queue_ns h) <? idle then
    if negb first then ret false else
    match fuel with
    | O => raise OutOfFuel
    | S fuel => let* now := sched_clock in pacer_wait fuel first now idle
    end
  else ret true.

Fixpoint oldest_throttled (l : list ptr) (best : option ptr) (oldest : Z) : M (option ptr) :=
  match l with
  | [] => ret best
  | c :: l' =>
      let* cur := get_rpc c in
      if mo_init_ns (rpc_msgout cur) <? oldest
      then oldest_throttled l' (Some c) (mo_init_ns (rpc_msgout cur))
      else oldest_throttled l' best oldest
  end.

(** The RPC to transmit from: the oldest one every now and then, otherwise
    the first one of the throttled list. *)
Definition pacer_pick : M (option ptr) :=
  upd_homa (fun h => h <| h_pacer_fifo_count ::= fun c => c - h_pacer_fifo_fraction h |>) ;;;
  let* h := get_homa in
  if h_pacer_fifo_count h <=? 0 then
    (upd_homa (fun h => h <| h_pacer_fifo_count ::= fun c => c + 1000 |>) ;;;
     oldest_throttled (h_throttled_rpcs h) None (2 ^ 64 - 1))
  else ret (head (h_throttled_rpcs h)).

(** Transmission from one RPC. *)
Definition pacer_send (p : ptr) : M unit :=
  homa_xmit_data p true ;;;
  let* rpc := get_rpc p in
  let mo := rpc_msgout rpc in
  match mo_packets mo !! mo_next_xmit mo with
  | None => homa_remove_from_throttled p
  | Some _ =>
      if mo_next_xmit_offset mo >=? mo_granted mo then homa_remove_from_throttled p else ret tt
  end.

Fixpoint pacer_loop (n : nat) (wait : nat) (first : bool) : M unit :=
  match n with
  | O => ret tt
  | S n =>
      let* now := sched_clock in
      let* h := get_homa in
      let* go := pacer_wait wait first now (h_link_idle_time h) in
      if negb go then ret tt else
      let* rpc := pacer_pick in
      match rpc with
      | None => ret tt
      | Some p => (pacer_send p ;;; pacer_loop n wait false)
      end
  end.

(** [homa_pacer_xmit]: at most 5 packets; [wait] bounds the number of times
    that the clock is read while the queue is too long. *)
Definition homa_pacer_xmit (wait : nat) : M unit := pacer_loop 5 wait true.
