(* ===== verification/OutXmit.v ===== *)
(** * Transmission of outgoing messages

    The contents of packets, and what [homa_xmit_data] sends: granted packets
    in order, until the NIC queue is full. *)
From S2P Require Import Prelude Lists Wire Types Example Control Peer Outgoing.

(** ** The contents of a packet *)

(** The host has the resources for every packet. *)
Definition tx_ok (env : tx_env) : Prop :=
  forall o, is_Some (tx_mem env o) /\ tx_append env o = 0 /\ tx_frag env o = 0.

(** Segment [k] of [n] bytes in segments of [seg]: its length. *)
Definition seg_len (n seg k : Z) : Z := Z.min seg (n - k * seg).

(** [body] holds the bytes [off, off + n) of the message [D] in segments of
    [seg] bytes, segment [k] at position [k * step]. *)
Definition holds_segs (D body : list Z) (off n seg step : Z) : Prop :=
  forall k, 0 <= k -> k * seg < n ->
    slice body (k * step) (seg_len n seg k) = slice D (off + k * seg) (seg_len n seg k).

(** Every segment but the first is preceded by its header. *)
Definition holds_hdrs (body : list Z) (off n seg : Z) : Prop :=
  forall k, 1 <= k -> k * seg < n ->
    slice body (k * (seg + sizeof_seg_hdr) - sizeof_seg_hdr) sizeof_seg_hdr =
      be_enc 4 (u32 (off + k * seg)).

Lemma append_ok env offset n D off body :
  tx_ok env -> 0 <= off -> 0 <= n -> off + n <= Z.of_nat (length D) ->
  homa_skb_append_from_iter env offset n (drop (Z.to_nat off) D) body =
    inr (drop (Z.to_nat (off + n)) D, body ++ slice D off n).
Proof.
  intros He Ho Hn Hl. unfold homa_skb_append_from_iter. destruct (He offset) as (_ & -> & _).
  simpl. rewrite length_drop.
  destruct (Z.ltb_spec (Z.of_nat (length D - Z.to_nat off)) n); [lia |].
  rewrite drop_drop. do 3 f_equal. lia.
Qed.

Lemma fill_loop_spec env D seg : tx_ok env -> 0 < seg -> forall fuel n off body,
  (Z.to_nat n < fuel)%nat -> 0 < n -> 0 <= off -> off + n <= Z.of_nat (length D) ->
  exists b, fill_loop env fuel seg n off (drop (Z.to_nat off) D) body =
      Ok (inr (drop (Z.to_nat (off + n)) D, body ++ b)) /\
    holds_segs D b off n seg (seg + sizeof_seg_hdr) /\ holds_hdrs b off n seg /\
    Z.of_nat (length b) = n + ((n + seg - 1) / seg - 1) * sizeof_seg_hdr.
Proof.
  intros He Hseg. unfold sizeof_seg_hdr.
  induction fuel as [|fuel IH]; intros n off body Hf Hn Ho Hl; [lia |]. cbn [fill_loop].
  set (l := if n <? seg then n else seg). assert (l = Z.min n seg) as Hlen by (unfold l; zb; lia).
  rewrite append_ok by (done || lia).
  destruct (Z.eqb_spec (n - l) 0) as [E | E].
  - exists (slice D off l). replace (off + l) with (off + n) by lia. split_ands; [done | | |].
    + intros k Hk0 Hk. assert (k = 0) as -> by nia. unfold seg_len.
      rewrite !Z.mul_0_l, slice_slice, !Z.add_0_r by lia. done.
    + intros k Hk0 Hk. nia.
    + rewrite slice_length by lia. assert ((n + seg - 1) / seg = 1) as -> by
        (symmetry; apply (Z.div_unique _ _ _ (n - 1)); lia). lia.
  - assert (l = seg) as El by lia. rewrite El in *. destruct (He (off + seg)) as (_ & _ & ->). cbn [negb Z.eqb].
    destruct (IH (n - seg) (off + seg) ((body ++ slice D off seg) ++ be_enc 4 (u32 (off + seg))))
      as (b & Hex & Hs & Hh & Hlb); [lia .. |].
    exists (slice D off seg ++ be_enc 4 (u32 (off + seg)) ++ b). rewrite Hex.
    assert (Z.of_nat (length (slice D off seg)) = seg) as Hsl by (apply slice_length; lia).
    assert (length (be_enc 4 (u32 (off + seg))) = 4%nat) as Hbl by apply be_enc_length.
    split_ands.
    + do 3 f_equal; [do 2 f_equal; lia | by rewrite <- !app_assoc].
    + intros k Hk0 Hk. destruct (decide (k = 0)) as [-> |].
      * unfold seg_len. rewrite !Z.mul_0_l, slice_app_l, slice_slice, !Z.add_0_r by lia. done.
      * assert (0 <= (k - 1) * (seg + 4)) by (apply Z.mul_nonneg_nonneg; lia).
        rewrite slice_app_r, Hsl by lia. rewrite slice_app_r, Hbl by lia. specialize (Hs (k - 1)).
        unfold seg_len in *.
        replace (k * (seg + 4) - seg - Z.of_nat 4) with ((k - 1) * (seg + 4)) by lia.
        replace (off + k * seg) with (off + seg + (k - 1) * seg) by lia.
        replace (n - k * seg) with (n - seg - (k - 1) * seg) by lia. apply Hs; lia.
    + intros k Hk0 Hk. assert (0 <= (k - 1) * (seg + 4)) by (apply Z.mul_nonneg_nonneg; lia).
      unfold holds_hdrs, sizeof_seg_hdr in *.
      rewrite slice_app_r, Hsl by lia. destruct (decide (k = 1)) as [-> |].
      * replace (1 * (seg + 4) - 4 - seg) with 0 by lia. rewrite slice_app_l, Z.mul_1_l by lia.
        rewrite <- (slice_full (be_enc 4 _)) at 2. by rewrite Hbl.
      * assert (0 <= (k - 2) * (seg + 4)) by (apply Z.mul_nonneg_nonneg; lia).
        rewrite slice_app_r, Hbl by lia. specialize (Hh (k - 1)).
        replace (k * (seg + 4) - 4 - seg - Z.of_nat 4) with ((k - 1) * (seg + 4) - 4) by lia.
        replace (off + k * seg) with (off + seg + (k - 1) * seg) by lia. apply Hh; lia.
    + rewrite !length_app, Hbl, !Nat2Z.inj_add, Hsl, Hlb.
      replace (n + seg - 1) with (n - seg + seg - 1 + 1 * seg) by lia. rewrite Z.div_add by lia. lia.
Qed.

(** The length of the segments that the packet is sent in. *)
Definition skb_seg (skb : skb_out) : Z :=
  if out_gso_segs skb <=? 1 then info_data_bytes skb else info_seg_length skb.

(** The segments of the packet are separated by segment headers. *)
Definition interleaved (skb : skb_out) : bool :=
  (1 <? out_gso_segs skb) && (out_gso_size skb =? info_seg_length skb + sizeof_seg_hdr).

(** The header tells the offset of the first byte: in [seg] if segment headers
    follow, and in [sequence] in any case. *)
Definition hdr_ok (skb : skb_out) : Prop :=
  type (d_common (out_hdr skb)) = DATA /\ sequence (d_common (out_hdr skb)) = u32 (info_offset skb) /\
  seg_offset (out_hdr skb) = (if interleaved skb then u32 (info_offset skb) else u32 (-1)).

(** [skb] is a packet of the message [D]. *)
Record skb_ok (D : list Z) (skb : skb_out) : Prop := {
  so_range : 0 <= info_offset skb /\ 0 < info_data_bytes skb /\
    info_offset skb + info_data_bytes skb <= Z.of_nat (length D);
  so_seg : 0 < skb_seg skb;
  so_gso : 0 <= out_gso_size skb;
  so_body : holds_segs D (out_body skb) (info_offset skb) (info_data_bytes skb) (skb_seg skb)
    (out_gso_size skb);
  so_hdrs : out_gso_size skb = info_seg_length skb + sizeof_seg_hdr ->
    holds_hdrs (out_body skb) (info_offset skb) (info_data_bytes skb) (info_seg_length skb);
  so_segs : let c := (info_data_bytes skb + info_seg_length skb - 1) / info_seg_length skb in
    out_gso_segs skb = (if c >? 1 then c else 0);
  so_layout : 1 < out_gso_segs skb -> out_gso_size skb = info_seg_length skb \/
    out_gso_size skb = info_seg_length skb + sizeof_seg_hdr;
  so_len : Z.of_nat (length (out_body skb)) = info_data_bytes skb +
    if interleaved skb then (out_gso_segs skb - 1) * sizeof_seg_hdr else 0;
  so_hdr : hdr_ok skb
}.

Lemma do_div_ok n base : 0 <= n < 2 ^ 64 -> 0 < base < 2 ^ 32 -> do_div n base = Ok (n / base).
Proof.
  intros Hn Hb. unfold do_div. rewrite (u32_id base), (u64_id n) by (unfold is_u32, is_u64; lia).
  destruct (Z.eqb_spec base 0); [lia | done].
Qed.

(** The number of segments, [DIV_ROUND_UP(n, seg)]. *)
Lemma segs_gt_1 n seg : 0 < n -> 0 < seg -> 1 < (n + seg - 1) / seg <-> seg < n.
Proof.
  intros Hn Hs. split; intros H.
  - destruct (Z.le_gt_cases n seg); [|lia]. exfalso.
    assert ((n + seg - 1) / seg < 2) by (apply Z.div_lt_upper_bound; lia). lia.
  - apply Z.lt_le_trans with 2; [lia |]. apply Z.div_le_lower_bound; lia.
Qed.

Lemma holds_whole D off n : 0 <= off -> 0 < n -> holds_segs D (slice D off n) off n n 0.
Proof.
  intros Ho Hn k Hk0 Hk. assert (k = 0) as -> by nia. unfold seg_len.
  rewrite !Z.mul_0_l, slice_slice by lia. done.
Qed.

Lemma holds_contiguous D off n seg :
  0 <= off -> 0 < seg -> holds_segs D (slice D off n) off n seg seg.
Proof. intros Ho Hs k Hk0 Hk. unfold seg_len. rewrite slice_slice by nia. done. Qed.

Lemma new_data_packet_spec env p D off n seg w rpc sk peer :
  tx_ok env -> w_rpcs w !! p = Some rpc -> w_socks w !! rpc_hsk rpc = Some sk ->
  w_peers w !! rpc_peer rpc = Some peer -> acks_ok peer ->
  0 <= off -> 0 < n -> off + n <= Z.of_nat (length D) -> n <= INT_MAX -> 0 < seg <= INT_MAX ->
  exists skb peer', homa_new_data_packet env p (drop (Z.to_nat off) D) off n seg w =
      Ok (inr (skb, drop (Z.to_nat (off + n)) D), w <| w_peers ::= insert (rpc_peer rpc) peer' |>) /\
    acks_ok peer' /\ peer_unsched_cutoffs peer' = peer_unsched_cutoffs peer /\
    skb_ok D skb /\ info_offset skb = off /\ info_data_bytes skb = n.
Proof.
  intros He Hr Hs Hp Ha Ho Hn Hl Hni Hseg. unfold INT_MAX in *. unfold homa_new_data_packet, lift.
  rewrite do_div_ok by lia. rewrite (bind_eq _ _ _ _ _ eq_refl).
  destruct (He off) as ([mem Hmem] & _ & _). rewrite Hmem. step. step.
  destruct (get_acks_exec (rpc_peer rpc) 1 w peer Hp Ha ltac:(lia)) as (dst & Hex & Ha' & _ & _).
  rewrite (bind_eq _ _ _ _ _ Hex). set (peer' := peer <| peer_num_acks ::= _ |>) in *.
  erewrite bind_eq by (apply get_peer_eq, lookup_insert_eq).
  set (segs := (n + seg - 1) / seg). pose proof (segs_gt_1 n seg Hn ltac:(lia)) as Hgt. fold segs in Hgt.
  destruct (Z.gtb_spec segs 1) as [Hm | Hm]; [destruct (sk_tcp sk)|]; cbn [andb negb].
  - erewrite bind_eq by (unfold ret; rewrite append_ok by (done || lia); reflexivity).
    eexists _, peer'. split; [reflexivity |]. split_ands; try done.
    constructor; unfold hdr_ok, interleaved, skb_seg, sizeof_seg_hdr; simpl; fold segs; zb; try lia; try done.
    + apply holds_contiguous; lia.
    + rewrite slice_length by lia. lia.
  - destruct (fill_loop_spec env D seg He ltac:(lia) (Z.to_nat n + 1) n off [])
      as (b & Hf & Hb & Hh & Hlb); [lia .. |].
    unfold homa_fill_data_interleaved. rewrite Hf. rewrite (bind_eq _ _ _ _ _ eq_refl).
    eexists _, peer'. split; [reflexivity |]. split_ands; try done.
    constructor; unfold hdr_ok, interleaved, skb_seg; simpl; fold segs; zb; try lia; try done.
    + unfold sizeof_seg_hdr. lia.
  - erewrite bind_eq by (unfold ret; rewrite append_ok by (done || lia); reflexivity).
    eexists _, peer'. split; [reflexivity |]. split_ands; try done.
    constructor; unfold hdr_ok, interleaved, skb_seg, sizeof_seg_hdr; simpl; fold segs; zb; try lia; try done.
    + apply holds_whole; lia.
    + rewrite slice_length by lia. lia.
Qed.

(** ** What transmission leaves alone *)
Definition homa_out_rest (h : homa) : homa :=
  h <| h_link_idle_time := 0 |> <| h_throttle_add := 0 |> <| h_throttled_rpcs := [] |>
    <| h_pacer_fifo_count := 0 |>.
Definition host_rest (ho : host) : host := ho <| host_xmit := [] |>.

(** [w'] is [w] after transmissions for the RPC [p]. *)
Record out_frame (p : ptr) (w w' : world) : Prop := {
  of_homa : homa_out_rest (w_homa w') = homa_out_rest (w_homa w);
  of_rpcs : delete p (w_rpcs w') = delete p (w_rpcs w);
  of_peers : w_peers w' = w_peers w;
  of_socks : w_socks w' = w_socks w;
  of_peertab : w_peertab w' = w_peertab w;
  of_socktab : w_socktab w' = w_socktab w;
  of_interests : w_interests w' = w_interests w;
  of_host : host_rest (w_host w') = host_rest (w_host w);
  of_released : w_released w' = w_released w;
  of_sent : w_sent w' = w_sent w;
  of_clock : w_clock w' = w_clock w;
  of_stack : w_stack w' = w_stack w
}.

#[export] Instance out_frame_preorder p : PreOrder (out_frame p).
Proof. split; [by constructor |]. intros a b c [] []. constructor; congruence. Qed.

Lemma homa_out_fields h h' : homa_out_rest h' = homa_out_rest h ->
  h_num_priorities h' = h_num_priorities h /\ h_priority_map h' = h_priority_map h.
Proof. intros H. split; [exact (f_equal h_num_priorities H) | exact (f_equal h_priority_map H)]. Qed.

Lemma nic_queue_exec skb force w :
  exists ok w', homa_check_nic_queue skb force w = Ok (ok, w') /\
    w' = w <| w_tick ::= S |> <| w_homa := w_homa w' |> /\
    h_throttled_rpcs (w_homa w') = h_throttled_rpcs (w_homa w) /\
    homa_out_rest (w_homa w') = homa_out_rest (w_homa w) /\ (force = true -> ok = true).
Proof.
  unfold homa_check_nic_queue. step. unfold lift, do_div. cbn [Z.eqb].
  replace (u32 1000000 =? 0) with false by reflexivity. rewrite (bind_eq _ _ _ _ _ eq_refl). step.
  destruct (_ && _) eqn:E.
  - exists false. eexists. split; [reflexivity |]. split_ands; try done.
    intros ->. rewrite andb_false_r in E. discriminate E.
  - exists true. step. eexists. split; [reflexivity |]. split_ands; try done.
Qed.

(** The order of the throttled list. *)
Definition thr_left (w : world) (q : ptr) : Z :=
  match w_rpcs w !! q with Some r => bytes_left r | None => 0 end.

Definition thr_insert (w : world) (p : ptr) (l : list ptr) : list ptr :=
  insert_before (fun c => thr_left w c >? thr_left w p) p l.

(** The RPCs in the throttled list exist. *)
Definition throttled_live (w : world) : Prop :=
  forall q, q ∈ h_throttled_rpcs (w_homa w) -> is_Some (w_rpcs w !! q).

Lemma add_to_throttled_exec p w :
  throttled_live w -> is_Some (w_rpcs w !! p) ->
  exists w', homa_add_to_throttled p w = Ok (tt, w') /\ out_frame p w w' /\
    w_rpcs w' = w_rpcs w /\ w_host w' = w_host w /\
    h_throttled_rpcs (w_homa w') =
      if bool_decide (p ∈ h_throttled_rpcs (w_homa w)) then h_throttled_rpcs (w_homa w)
      else thr_insert w p (h_throttled_rpcs (w_homa w)).
Proof.
  intros Hl [rpc Hp]. unfold homa_add_to_throttled. step.
  case_bool_decide as Hin; [by exists w |]. step. step.
  erewrite bind_eq by (apply get_rpc_eq; exact Hp).
  rewrite (bind_eq _ _ _ (thr_insert w p (h_throttled_rpcs (w_homa w))) (w <| w_tick ::= S |>
    <| w_homa ::= fun h => h <| h_throttle_add := w_clock w (w_tick w) |> |>)).
  - eexists. split; [reflexivity |]. by split_ands.
  - apply insertM_pure. intros c Hc. destruct (Hl c Hc) as [x Hx].
    erewrite bind_eq by (apply get_rpc_eq; exact Hx). unfold thr_left. by rewrite Hx, Hp.
Qed.

(** ** Priorities and transmission of one packet *)

(** The peer and the message determine priorities within the tables. *)
Record xmit_ready (h : homa) (peer : homa_peer) (mo : homa_message_out) : Prop := {
  xr_sched : 0 <= mo_sched_priority mo < Z.of_nat (length (h_priority_map h));
  xr_num : 0 < h_num_priorities h <= Z.of_nat (length (h_priority_map h)) /\
    h_num_priorities h <= Z.of_nat (length (peer_unsched_cutoffs peer));
  xr_unsched : exists i c, 0 <= i < h_num_priorities h /\
    peer_unsched_cutoffs peer !! Z.to_nat i = Some c /\ mo_length mo <= c
}.

Lemma unsched_priority_ok h peer mo :
  xmit_ready h peer mo -> exists j, homa_unsched_priority h peer (mo_length mo) = Ok j /\
    0 <= j < Z.of_nat (length (h_priority_map h)).
Proof.
  intros [_ [Hn1 Hn2] (i & c & Hi & Hc & Hle)]. unfold homa_unsched_priority.
  destruct (unsched_loop_spec (peer_unsched_cutoffs peer) (mo_length mo)
    (Z.to_nat (h_num_priorities h)) (Z.to_nat i) c) as (j & cj & Hex & Hj & _); try done; try lia.
  exists (Z.of_nat j). split; [done | lia].
Qed.

Lemma xmit_priority_ok w rpc peer :
  w_peers w !! rpc_peer rpc = Some peer -> xmit_ready (w_homa w) peer (rpc_msgout rpc) ->
  exists pr, xmit_priority rpc w = Ok (pr, w) /\
    0 <= pr < Z.of_nat (length (h_priority_map (w_homa w))).
Proof.
  intros Hp Hx. unfold xmit_priority. destruct (_ <? _).
  - step. step. destruct (unsched_priority_ok _ _ _ Hx) as (j & Hj & ?). unfold lift. rewrite Hj. eauto.
  - eexists. split; [reflexivity | apply Hx].
Qed.

(** What the network sees of a packet, apart from the version of the cutoffs
    in its header. *)
Definition geometry (skb : skb_out) : Z * Z * Z * Z * list Z * Z * Z * homa_data_hdr :=
  let d := out_hdr skb in
  (info_wire_bytes skb, info_offset skb, info_data_bytes skb, info_seg_length skb, out_body skb,
   out_gso_segs skb, out_gso_size skb,
   Build_homa_data_hdr (d_common d) (message_length d) (incoming d) (ack d) 0 (retransmit d) (pad d) (seg_offset d)).

Lemma skb_ok_geometry D s s' : geometry s' = geometry s -> skb_ok D s -> skb_ok D s'.
Proof.
  destruct s as [? ? ? ? [] ? ? ?], s' as [? ? ? ? [] ? ? ?]. unfold geometry. simpl.
  intros [= -> -> -> -> -> -> -> -> -> -> -> -> -> ->] []. by constructor.
Qed.

Lemma xmit_data_low_exec skb p pr w rpc peer :
  w_rpcs w !! p = Some rpc -> w_peers w !! rpc_peer rpc = Some peer ->
  0 <= pr < Z.of_nat (length (h_priority_map (w_homa w))) ->
  exists skb', xmit_data_low skb p pr w =
      Ok (skb', w <| w_host ::= fun ho => ho <| host_xmit ::= fun l => l ++ [(rpc_peer rpc, pr, skb')] |> |>) /\
    geometry skb' = geometry skb /\
    out_hdr skb' = Build_homa_data_hdr (d_common (out_hdr skb)) (message_length (out_hdr skb))
      (incoming (out_hdr skb)) (ack (out_hdr skb)) (peer_cutoff_version peer)
      (retransmit (out_hdr skb)) (pad (out_hdr skb)) (seg_offset (out_hdr skb)).
Proof.
  intros Hr Hp Hpr. unfold xmit_data_low. step. step. step. unfold lift.
  destruct (lookup_lt_is_Some_2 (h_priority_map (w_homa w)) (Z.to_nat pr)) as [v Hv]; [lia |].
  rewrite (proj2 (arr_Ok _ pr v)) by (split; [lia | done]).
  rewrite (bind_eq _ _ _ _ _ eq_refl). rewrite (bind_eq _ _ _ _ _ eq_refl).
  eexists. split; [reflexivity |]. done.
Qed.

(** ** Transmission of a message *)

(** The packets cover [off, e) without gaps or overlaps. *)
Fixpoint tiled (off : Z) (pkts : list skb_out) (e : Z) : Prop :=
  match pkts with
  | [] => off = e
  | s :: rest => info_offset s = off /\ tiled (off + info_data_bytes s) rest e
  end.

Lemma tiled_app l : forall off k e, tiled off (l ++ k) e <-> exists m, tiled off l m /\ tiled m k e.
Proof.
  induction l as [|s l IH]; intros off k e; simpl.
  - split; [by exists off | by intros (m & -> & H)].
  - rewrite IH. split; [intros (H & m & ? & ?); eauto | intros (m & (H & ?) & ?); eauto].
Qed.

Lemma tiled_geometry l : forall k off e,
  geometry <$> l = geometry <$> k -> tiled off k e -> tiled off l e.
Proof.
  induction l as [|s l IH]; intros [|t k] off e H; try done. csimpl in *.
  apply (inj2 cons) in H as [Hg H]. injection Hg as _ Ho Hd _ _ _ _ _. rewrite Ho, Hd.
  intros [Hoff Ht]. split; [done |]. by eapply IH.
Qed.

(** The message [D] is (partly) in packets, [next_xmit] is at [next_xmit_offset]. *)
Record out_ok (D : list Z) (mo : homa_message_out) : Prop := {
  oo_length : mo_length mo = Z.of_nat (length D);
  oo_tiled : tiled 0 (mo_packets mo) (mo_copied_from_user mo);
  oo_skbs : Forall (skb_ok D) (mo_packets mo);
  oo_next : (mo_next_xmit mo <= length (mo_packets mo))%nat;
  oo_offset : tiled 0 (take (mo_next_xmit mo) (mo_packets mo)) (mo_next_xmit_offset mo)
}.

(** The next packet starts at [next_xmit_offset]. *)
Lemma next_offset D mo skb :
  out_ok D mo -> mo_packets mo !! mo_next_xmit mo = Some skb ->
  info_offset skb = mo_next_xmit_offset mo /\
  tiled 0 (take (S (mo_next_xmit mo)) (mo_packets mo)) (mo_next_xmit_offset mo + info_data_bytes skb).
Proof.
  intros [_ Ht _ _ Ho] Hs. rewrite (take_S_r _ _ _ Hs), tiled_app.
  rewrite <- (take_drop_middle _ _ _ Hs), tiled_app in Ht. destruct Ht as (m & Hm & Hh & _).
  assert (forall l off a b, tiled off l a -> tiled off l b -> a = b) as Hdet.
  { induction l as [|s l IH]; intros off a b; simpl; [congruence |].
    intros [_ ?] [_ ?]. by eapply IH. }
  rewrite (Hdet _ _ _ _ Ho Hm). split; [done |]. exists m. by split.
Qed.

(** The changes of the RPC by transmissions. *)
Definition sent_out (mo : homa_message_out) (pk : list skb_out) (n : nat) (off : Z)
    : homa_message_out :=
  mo <| mo_packets := pk |> <| mo_next_xmit := (mo_next_xmit mo + n)%nat |>
     <| mo_next_xmit_offset := off |>.

Record xmitted (p : ptr) (w w' : world) (rpc rpc' : homa_rpc) (sent : list (Z * skb_out)) : Prop := {
  xm_rpc : w_rpcs w' !! p = Some rpc';
  xm_frame : out_frame p w w';
  xm_log : host_xmit (w_host w') =
    host_xmit (w_host w) ++ map (fun x => (rpc_peer rpc, x.1, x.2)) sent;
  xm_out : exists pk off, rpc' = rpc <| rpc_msgout ::= fun mo => sent_out mo pk (length sent) off |> /\
    geometry <$> pk = geometry <$> mo_packets (rpc_msgout rpc);
  xm_sent : geometry <$> sent.*2 = take (length sent)
    (drop (mo_next_xmit (rpc_msgout rpc)) (geometry <$> mo_packets (rpc_msgout rpc)));
  xm_throttled : h_throttled_rpcs (w_homa w') = h_throttled_rpcs (w_homa w) \/
    (p ∉ h_throttled_rpcs (w_homa w)) /\
    h_throttled_rpcs (w_homa w') = thr_insert w' p (h_throttled_rpcs (w_homa w))
}.

Lemma xmitted_nil p w w' rpc :
  w_rpcs w !! p = Some rpc -> out_frame p w w' -> w_rpcs w' = w_rpcs w ->
  host_xmit (w_host w') = host_xmit (w_host w) ->
  (h_throttled_rpcs (w_homa w') = h_throttled_rpcs (w_homa w) \/
    (p ∉ h_throttled_rpcs (w_homa w)) /\
    h_throttled_rpcs (w_homa w') = thr_insert w' p (h_throttled_rpcs (w_homa w))) ->
  xmitted p w w' rpc rpc [].
Proof.
  intros Hp Hf Hr Hh Ht. constructor; try done; [by rewrite Hr | by rewrite Hh, app_nil_r |].
  exists (mo_packets (rpc_msgout rpc)), (mo_next_xmit_offset (rpc_msgout rpc)). split; [|done].
  unfold sent_out. simpl. rewrite Nat.add_0_r. by destruct rpc as [? ? ? ? ? ? ? ? ? ? []].
Qed.

Lemma xmitted_trans p w w1 w' rpc rpc1 rpc' s1 s2 :
  xmitted p w w1 rpc rpc1 s1 -> h_throttled_rpcs (w_homa w1) = h_throttled_rpcs (w_homa w) ->
  xmitted p w1 w' rpc1 rpc' s2 -> xmitted p w w' rpc rpc' (s1 ++ s2).
Proof.
  intros [_ Hf1 Hl1 (pk1 & off1 & E1 & Hg1) Hs1 _] Ht1 [Hr Hf2 Hl2 (pk & off & E2 & Hg2) Hs2 Ht2].
  assert (rpc_peer rpc1 = rpc_peer rpc) as Hpe by (by rewrite E1).
  constructor; try done.
  - by etransitivity.
  - rewrite Hl2, Hl1, map_app, Hpe, <- app_assoc. done.
  - exists pk, off. rewrite E2, E1. split; [|by rewrite Hg2, E1].
    unfold sent_out. simpl. rewrite length_app, Nat.add_assoc. done.
  - rewrite fmap_app, fmap_app, Hs1, Hs2, E1. simpl. rewrite Hg1, length_app.
    rewrite <- drop_drop. apply take_take_drop.
  - by rewrite <- Ht1.
Qed.

(** The state of the RPC after one more packet. *)
Definition next_sent (rpc : homa_rpc) (skb skb' : skb_out) : homa_rpc :=
  rpc <| rpc_msgout ::= fun mo => mo
    <| mo_packets ::= <[mo_next_xmit mo := skb']> |> <| mo_next_xmit ::= S |>
    <| mo_next_xmit_offset ::= fun o => o + info_data_bytes skb |> |>.

Lemma next_sent_ok D rpc skb skb' :
  out_ok D (rpc_msgout rpc) ->
  mo_packets (rpc_msgout rpc) !! mo_next_xmit (rpc_msgout rpc) = Some skb ->
  geometry skb' = geometry skb -> out_ok D (rpc_msgout (next_sent rpc skb skb')).
Proof.
  intros Hok Hs Hg. destruct (next_offset _ _ _ Hok Hs) as [_ Hn]. destruct Hok as [Hl Ht Hf Hle Ho].
  set (i := mo_next_xmit (rpc_msgout rpc)) in *.
  assert (geometry <$> <[i := skb']> (mo_packets (rpc_msgout rpc)) =
    geometry <$> mo_packets (rpc_msgout rpc)) as Hgeo
    by (rewrite list_fmap_insert, Hg; apply list_insert_id; by rewrite list_lookup_fmap, Hs).
  constructor; simpl; try done.
  - by eapply tiled_geometry.
  - apply Forall_insert; [done |]. eapply skb_ok_geometry; [done |]. by eapply Forall_lookup_1.
  - rewrite length_insert. by apply lookup_lt_Some in Hs.
  - fold i. eapply tiled_geometry; [|exact Hn]. by rewrite !fmap_take, Hgeo.
Qed.

(** Sending the next packet. *)
Lemma xmit_one D p pr w rpc peer skb {A} (k : M A) :
  w_rpcs w !! p = Some rpc -> w_peers w !! rpc_peer rpc = Some peer ->
  out_ok D (rpc_msgout rpc) ->
  mo_packets (rpc_msgout rpc) !! mo_next_xmit (rpc_msgout rpc) = Some skb ->
  0 <= pr < Z.of_nat (length (h_priority_map (w_homa w))) ->
  exists w1 skb', (upd_msgout p (fun mo => mo <| mo_next_xmit ::= S |>
        <| mo_next_xmit_offset ::= fun o => o + info_data_bytes skb |>) ;;;
      let* s := xmit_data_low skb p pr in
      upd_msgout p (fun m => m <| mo_packets ::= <[mo_next_xmit (rpc_msgout rpc) := s]> |>) ;;; k) w
    = k w1 /\ geometry skb' = geometry skb /\
    xmitted p w w1 rpc (next_sent rpc skb skb') [(pr, skb')] /\ w_homa w1 = w_homa w.
Proof.
  intros Hr Hp Hok Hs Hpr. unfold upd_msgout at 1. erewrite bind_eq by (by apply upd_rpc_eq).
  set (w1 := w <| w_rpcs ::= _ |>). 
  set (rpc1 := rpc <| rpc_msgout ::= fun mo => mo <| mo_next_xmit ::= S |>
    <| mo_next_xmit_offset ::= fun o => o + info_data_bytes skb |> |>).
  destruct (xmit_data_low_exec skb p pr w1 rpc1 peer) as (skb' & Hex & Hg & _);
    [apply lookup_insert_eq | done | done |].
  rewrite (bind_eq _ _ _ _ _ Hex). unfold upd_msgout.
  erewrite bind_eq by (apply upd_rpc_eq, lookup_insert_eq).
  eexists _, skb'. split; [reflexivity |]. split; [done |]. split; [|done].
  constructor; simpl.
  - rewrite insert_insert_eq. apply lookup_insert_eq.
  - constructor; try done. simpl. by rewrite insert_insert_eq, delete_insert_eq.
  - done.
  - exists (<[mo_next_xmit (rpc_msgout rpc) := skb']> (mo_packets (rpc_msgout rpc))),
      (mo_next_xmit_offset (rpc_msgout rpc) + info_data_bytes skb).
    split; [unfold next_sent, sent_out; simpl; by rewrite Nat.add_1_r |].
    rewrite list_fmap_insert, Hg. apply list_insert_id. by rewrite list_lookup_fmap, Hs.
  - rewrite Hg. erewrite drop_S; [done |]. by rewrite list_lookup_fmap, Hs.
  - by left.
Qed.

Lemma nic_check_frame (c : bool) skb force p w :
  exists ok w0, (if c then homa_check_nic_queue skb force else ret true) w = Ok (ok, w0) /\
    out_frame p w w0 /\ w_rpcs w0 = w_rpcs w /\ w_host w0 = w_host w /\
    h_throttled_rpcs (w_homa w0) = h_throttled_rpcs (w_homa w) /\ (force = true -> ok = true).
Proof.
  destruct c; [|by exists true, w].
  destruct (nic_queue_exec skb force w) as (ok & w0 & Hex & Hw & Ht & Hh & Hok).
  exists ok, w0. split; [done |]. rewrite Hw. simpl. by split_ands.
Qed.

Lemma throttled_live_eq w w' :
  throttled_live w -> w_rpcs w' = w_rpcs w ->
  h_throttled_rpcs (w_homa w') = h_throttled_rpcs (w_homa w) -> throttled_live w'.
Proof. intros H Hr Ht q. rewrite Ht, Hr. apply H. Qed.

Lemma xmitted_live p w w' rpc rpc' sent :
  throttled_live w -> xmitted p w w' rpc rpc' sent -> throttled_live w'.
Proof.
  intros H [Hr Hf _ _ _ Ht] q Hq.
  assert (q = p \/ q ∈ h_throttled_rpcs (w_homa w)) as Hc.
  { destruct Ht as [E | [_ E]]; rewrite E in Hq; [by right |]. unfold thr_insert in Hq.
    rewrite insert_before_perm in Hq. by apply elem_of_cons in Hq. }
  destruct (decide (q = p)) as [-> | Hne]; [eauto |].
  destruct Hc as [? | Hc]; [done |].
  rewrite <- (lookup_delete_ne (w_rpcs w') p q), (of_rpcs _ _ _ Hf), lookup_delete_ne by done.
  by apply H.
Qed.

(** Why transmission stopped: everything is sent, the rest is not granted yet,
    or the RPC waits in the throttled list. *)
Definition xmit_stop (p : ptr) (w : world) (mo : homa_message_out) : Prop :=
  mo_next_xmit mo = length (mo_packets mo) \/ mo_granted mo <= mo_next_xmit_offset mo \/
  p ∈ h_throttled_rpcs (w_homa w).

Lemma xmit_ready_eq h h' peer mo mo' :
  xmit_ready h peer mo -> h_num_priorities h' = h_num_priorities h ->
  h_priority_map h' = h_priority_map h -> mo_length mo' = mo_length mo ->
  mo_sched_priority mo' = mo_sched_priority mo -> xmit_ready h' peer mo'.
Proof. intros [] E1 E2 E3 E4. constructor; rewrite ?E1, ?E2, ?E3, ?E4; done. Qed.

Lemma xmit_loop_spec D p peer fuel : forall force w rpc,
  w_rpcs w !! p = Some rpc -> w_peers w !! rpc_peer rpc = Some peer ->
  xmit_ready (w_homa w) peer (rpc_msgout rpc) -> throttled_live w -> rpc_state_ rpc <> RPC_DEAD ->
  out_ok D (rpc_msgout rpc) ->
  (length (mo_packets (rpc_msgout rpc)) <= mo_next_xmit (rpc_msgout rpc) + fuel)%nat ->
  exists w' rpc' sent, xmit_loop fuel p force w = Ok (tt, w') /\
    xmitted p w w' rpc rpc' sent /\ out_ok D (rpc_msgout rpc') /\
    Forall (fun x => info_offset x.2 < mo_granted (rpc_msgout rpc)) sent /\
    xmit_stop p w' (rpc_msgout rpc') /\
    (force = true -> (mo_next_xmit (rpc_msgout rpc) < length (mo_packets (rpc_msgout rpc)))%nat ->
     mo_next_xmit_offset (rpc_msgout rpc) < mo_granted (rpc_msgout rpc) -> sent <> []).
Proof.
  induction fuel as [|fuel IH]; intros force w rpc Hr Hp Hx Hl Hd Hok Hf; cbn [xmit_loop]; step;
    (destruct (mo_packets (rpc_msgout rpc) !! mo_next_xmit (rpc_msgout rpc)) as [skb|] eqn:Hs;
     [pose proof (lookup_lt_Some _ _ _ Hs) | apply lookup_ge_None in Hs; pose proof (oo_next _ _ Hok)]);
    try (exists w, rpc, []; split_ands; try done;
      [apply xmitted_nil; auto; done | left; lia | lia]); [lia |].
  destruct (Z.geb_spec (mo_next_xmit_offset (rpc_msgout rpc)) (mo_granted (rpc_msgout rpc))) as [Hg | Hg].
  { exists w, rpc, []. split_ands; try done; [apply xmitted_nil; auto; done | right; left; lia | lia]. }
  step. match goal with |- context [if ?c then homa_check_nic_queue _ _ else _] =>
    destruct (nic_check_frame c skb force p w) as (ok & w0 & Hex & Hfr & Hr0 & Hh0 & Ht0 & Hforce) end.
  rewrite (bind_eq _ _ _ _ _ Hex). clear Hex.
  assert (w_rpcs w0 !! p = Some rpc) as Hrp by (by rewrite Hr0).
  assert (throttled_live w0) as Hl0 by (by eapply throttled_live_eq).
  assert (w_peers w0 !! rpc_peer rpc = Some peer) as Hp0 by (by rewrite (of_peers _ _ _ Hfr)).
  destruct (homa_out_fields _ _ (of_homa _ _ _ Hfr)) as [Hnp Hpm].
  assert (xmit_ready (w_homa w0) peer (rpc_msgout rpc)) as Hx0 by (by eapply xmit_ready_eq).
  assert (xmitted p w w0 rpc rpc []) as Hn
    by (apply xmitted_nil; [done | done | done | by rewrite Hh0 | by left]).
  destruct ok; cbn [negb].
  - destruct (xmit_priority_ok w0 rpc peer Hp0 Hx0) as (pr & Hpr & Hrange).
    rewrite (bind_eq _ _ _ _ _ Hpr).
    destruct (xmit_one D p pr w0 rpc peer skb (let* rpc := get_rpc p in
      if bool_decide (rpc_state_ rpc = RPC_DEAD) then ret tt else xmit_loop fuel p false))
      as (w1 & skb' & -> & Hgeo & Hxm & Hh1); try done.
    set (rpc1 := next_sent rpc skb skb') in *.
    rewrite (bind_eq _ _ _ _ _ (get_rpc_eq _ _ _ (xm_rpc _ _ _ _ _ _ Hxm))).
    rewrite bool_decide_eq_false_2 by done.
    destruct (IH false w1 rpc1) as (w' & rpc' & sent & Hex & Hxm' & Hok' & Hall & Hst & _).
    + apply Hxm.
    + by rewrite (of_peers _ _ _ (xm_frame _ _ _ _ _ _ Hxm)).
    + rewrite Hh1. by eapply xmit_ready_eq.
    + by eapply xmitted_live.
    + done.
    + by eapply next_sent_ok.
    + simpl. rewrite length_insert. lia.
    + exists w', rpc', ((pr, skb') :: sent). split_ands; try done.
      * eapply (xmitted_trans p w w0 w' rpc rpc rpc' [] ((pr, skb') :: sent)); [done | done |].
        eapply (xmitted_trans p w0 w1 w' rpc rpc1 rpc' [_] sent); [done | by rewrite Hh1 | done].
      * constructor; [|done]. pose proof (f_equal (fun g => g.1.1.1.1.1.1.2) Hgeo) as Ho. simpl in Ho. simpl. rewrite Ho.
        by rewrite (proj1 (next_offset _ _ _ Hok Hs)).
  - destruct (add_to_throttled_exec p w0 Hl0 ltac:(eauto)) as (w' & Hex & Hfr' & Hr' & Hh' & Ht').
    exists w', rpc, []. split_ands; try done.
    + apply (xmitted_trans p w w0 w' rpc rpc rpc [] []); [done | done |].
      apply xmitted_nil; try done; [by rewrite Hh' |]. rewrite Ht'. unfold thr_insert, thr_left. rewrite Hr'.
      case_bool_decide; auto.
    + right; right. rewrite Ht'. case_bool_decide; [done |]. unfold thr_insert.
      rewrite insert_before_perm. set_solver.
    + intros Hft. by specialize (Hforce Hft).
Qed.

(** The count of active transmissions goes up and down again. *)
Definition xmits (f : Z -> Z) (rpc : homa_rpc) : homa_rpc :=
  rpc <| rpc_msgout ::= fun mo => mo <| mo_active_xmits ::= f |> |>.

Lemma xmit_data_spec D p force w rpc peer :
  w_rpcs w !! p = Some rpc -> w_peers w !! rpc_peer rpc = Some peer ->
  xmit_ready (w_homa w) peer (rpc_msgout rpc) -> throttled_live w -> rpc_state_ rpc <> RPC_DEAD ->
  out_ok D (rpc_msgout rpc) ->
  exists w' rpc' sent, homa_xmit_data p force w = Ok (tt, w') /\
    xmitted p w w' rpc rpc' sent /\ out_ok D (rpc_msgout rpc') /\
    Forall (fun x => info_offset x.2 < mo_granted (rpc_msgout rpc)) sent /\
    xmit_stop p w' (rpc_msgout rpc') /\
    (force = true -> (mo_next_xmit (rpc_msgout rpc) < length (mo_packets (rpc_msgout rpc)))%nat ->
     mo_next_xmit_offset (rpc_msgout rpc) < mo_granted (rpc_msgout rpc) -> sent <> []).
Proof.
  intros Hr Hp Hx Hl Hd Hok. unfold homa_xmit_data, upd_msgout. erewrite bind_eq by (by apply upd_rpc_eq).
  set (r1 := xmits (fun n => n + 1) rpc). set (w1 := w <| w_rpcs ::= insert p r1 |>).
  erewrite bind_eq by (apply get_rpc_eq, lookup_insert_eq).
  destruct (xmit_loop_spec D p peer (length (mo_packets (rpc_msgout r1))) force w1 r1)
    as (w2 & r2 & sent & Hex & Hxm & Hok2 & Hall & Hst & Hne); try done.
  { apply lookup_insert_eq. }
  { by eapply xmit_ready_eq. }
  { intros q Hq. simpl. apply lookup_insert_is_Some'. right. by apply Hl. }
  { destruct Hok. by constructor. }
  { lia. }
  rewrite (bind_eq _ _ _ _ _ Hex). destruct Hxm as [Hr2 Hf Hlog (pk & off & E & Hg) Hs Ht].
  eexists _, (xmits (fun n => n - 1) r2), sent. split; [by apply upd_rpc_eq |].
  split_ands; try done.
  - constructor; simpl; try done.
    + apply lookup_insert_eq.
    + destruct Hf. constructor; simpl in *; try done. rewrite delete_insert_eq.
      by rewrite of_rpcs0, delete_insert_eq.
    + exists pk, off. split; [|done]. rewrite E. unfold xmits, sent_out. simpl.
      by rewrite Z.add_simpl_r.
    + destruct Ht as [Ht | [Hni Ht]]; [by left | right]. split; [done |]. rewrite Ht. simpl.
      unfold thr_insert. apply insert_before_ext. intros c _. unfold thr_left. simpl.
      rewrite lookup_insert_eq, Hr2. destruct (decide (c = p)) as [-> |];
        [by rewrite lookup_insert_eq, Hr2 | by rewrite lookup_insert_ne].
  - destruct Hok2. by constructor.
Qed.

(** [homa_xmit_data] terminates without a fault.  It hands packets of the
    message to IP in order, starting with the first one not sent yet, each
    beginning below the granted offset; [next_xmit] and [next_xmit_offset]
    advance past exactly those; nothing else of the state changes except the
    estimate of the NIC queue and the throttled list.  It stops when the
    message is sent, when the rest is not granted, or with the RPC in the
    throttled list; if [force] is set at least one granted packet goes out. *)
Theorem xmit_data_correct D p force w rpc peer :
  w_rpcs w !! p = Some rpc -> w_peers w !! rpc_peer rpc = Some peer ->
  xmit_ready (w_homa w) peer (rpc_msgout rpc) -> throttled_live w -> rpc_state_ rpc <> RPC_DEAD ->
  out_ok D (rpc_msgout rpc) ->
  exists w' rpc' sent, homa_xmit_data p force w = Ok (tt, w') /\
    xmitted p w w' rpc rpc' sent /\ out_ok D (rpc_msgout rpc') /\
    Forall (fun x => info_offset x.2 < mo_granted (rpc_msgout rpc)) sent /\
    xmit_stop p w' (rpc_msgout rpc') /\
    (force = true -> (mo_next_xmit (rpc_msgout rpc) < length (mo_packets (rpc_msgout rpc)))%nat ->
     mo_next_xmit_offset (rpc_msgout rpc) < mo_granted (rpc_msgout rpc) -> sent <> []).
Proof. apply xmit_data_spec. Qed.

(** A message of five bytes in two packets. *)
Definition ex_data_hdr : homa_data_hdr :=
  Build_homa_data_hdr (Build_homa_common_hdr 0 0 0 0 0 0 0 0 0 0 0 0) 0 0 (Build_homa_ack 0 0) 0 0 0 0.
Definition ex_skb (off : Z) (data : list Z) : skb_out :=
  Build_skb_out 100 (Z.of_nat (length data)) (Z.of_nat (length data)) off
    (Build_homa_data_hdr (Build_homa_common_hdr 0 0 (u32 off) 0 0 DATA 0 0 0 0 0 0) 0 0 (Build_homa_ack 0 0) 0 0 0 (u32 (-1)))
    data 0 0.
Definition ex_out : homa_message_out :=
  Build_homa_message_out 5 2 5 [ex_skb 0 [1; 2; 3]; ex_skb 3 [4; 5]] 0 0 0 5 5 0 7.
Definition ex_out_rpc : homa_rpc :=
  (ex_rpc 1%positive 4 (ex_msgin 10 0 1)) <| rpc_msgout := ex_out |> <| rpc_state_ := RPC_OUTGOING |>.
Definition ex_out_peer : homa_peer :=
  homa_peer_set_cutoffs INT_MAX 0 0 0 0 1000000 2000 1000 (ex_peer 101 [11%positive; 12%positive]).
Definition ex_out_world : world :=
  ex <| w_rpcs ::= insert 21%positive ex_out_rpc |> <| w_peers ::= insert 1%positive ex_out_peer |>.

Lemma ex_skb_ok D off data :
  0 <= off -> data <> [] -> data = slice D off (Z.of_nat (length data)) ->
  off + Z.of_nat (length data) <= Z.of_nat (length D) -> skb_ok D (ex_skb off data).
Proof.
  intros Ho Hne E Hl. assert (length data <> 0%nat) by (by destruct data).
  pose proof (segs_gt_1 (Z.of_nat (length data)) (Z.of_nat (length data)) ltac:(lia) ltac:(lia)).
  constructor; unfold hdr_ok, interleaved, skb_seg, sizeof_seg_hdr; simpl; try (done || lia).
  - rewrite E at 1. apply holds_whole; lia.
  - zb; [lia | done].
Qed.

Lemma ex_out_ok : out_ok [1; 2; 3; 4; 5] ex_out.
Proof.
  constructor; [done | by vm_compute | | simpl; lia | done].
  constructor; [|constructor; [|constructor]]; by apply ex_skb_ok.
Qed.

Lemma ex_out_ready : xmit_ready (w_homa ex_out_world) ex_out_peer ex_out.
Proof.
  constructor; [vm_compute; split; congruence | vm_compute; intuition congruence |].
  exists 5, 1000000. vm_compute. intuition congruence.
Qed.

Lemma xmit_data_correct_witness :
  exists w' sent, homa_xmit_data 21%positive true ex_out_world = Ok (tt, w') /\
    host_xmit (w_host w') = map (fun x => (1%positive, x.1, x.2)) sent /\ sent <> [].
Proof.
  destruct (xmit_data_correct [1; 2; 3; 4; 5] 21%positive true ex_out_world ex_out_rpc ex_out_peer)
    as (w' & rpc' & sent & H & [_ _ Hlog _ _ _] & _ & _ & _ & Hne).
  - reflexivity.
  - reflexivity.
  - exact ex_out_ready.
  - intros q Hq. apply elem_of_nil in Hq. destruct Hq.
  - discriminate.
  - exact ex_out_ok.
  - exists w', sent. split; [exact H |]. split; [exact Hlog |].
    apply Hne; [reflexivity | vm_compute; lia | vm_compute; reflexivity].
Defined.
