(* ===== verification/OutFill.v ===== *)
(** * Filling outgoing messages

    [homa_message_out_fill] cuts a message into packets that cover it. *)
From S2P Require Import Prelude Lists Wire Types Example Control Peer Outgoing OutXmit.

(** ** Cutting a message into packets *)

(** What building the packets of [p] leaves alone; [pe] is its peer. *)
Record fill_frame (p pe : ptr) (w w' : world) : Prop := {
  ff_homa : homa_out_rest (w_homa w') = homa_out_rest (w_homa w);
  ff_rpcs : delete p (w_rpcs w') = delete p (w_rpcs w);
  ff_peers : delete pe (w_peers w') = delete pe (w_peers w);
  ff_socks : w_socks w' = w_socks w;
  ff_host : w_host w' = w_host w;
  ff_peer : forall peer, w_peers w !! pe = Some peer -> acks_ok peer ->
    exists peer', w_peers w' !! pe = Some peer' /\ acks_ok peer' /\
      peer_unsched_cutoffs peer' = peer_unsched_cutoffs peer
}.

#[export] Instance fill_frame_preorder p pe : PreOrder (fill_frame p pe).
Proof.
  split; [constructor; eauto |]. intros a b c [] []. constructor; try congruence.
  intros peer Hp Ha. destruct (ff_peer0 peer Hp Ha) as (p1 & H1 & Ha1 & E1).
  destruct (ff_peer1 p1 H1 Ha1) as (p2 & ? & ? & ?). exists p2. split_ands; [done .. | congruence].
Qed.

(** The size of a packet respects the limit and the boundary of the
    unscheduled bytes. *)
Definition pkt_size (mo : homa_message_out) (max_gso : Z) (s : skb_out) : Prop :=
  info_data_bytes s <= max_gso /\
  (info_offset s < mo_unscheduled mo -> info_offset s + info_data_bytes s <= mo_unscheduled mo).

Lemma skb_data_bytes_spec mo max_gso off left :
  0 < max_gso -> 0 < left -> 0 <= off -> let n := skb_data_bytes mo max_gso off left in
  0 < n <= left /\ n <= max_gso /\ (off < mo_unscheduled mo -> off + n <= mo_unscheduled mo).
Proof.
  intros Hg Hl Ho n. unfold n, skb_data_bytes.
  destruct (Z.ltb_spec off (mo_unscheduled mo)); simpl; [|zb; lia].
  destruct (Z.gtb_spec (off + max_gso) (mo_unscheduled mo)); zb; lia.
Qed.

(** The state of the message while it is filled: nothing has been sent. *)
Record filling (D : list Z) (max_gso : Z) (mo : homa_message_out) : Prop := {
  fi_ok : out_ok D mo;
  fi_num : mo_num_skbs mo = Z.of_nat (length (mo_packets mo));
  fi_size : Forall (pkt_size mo max_gso) (mo_packets mo);
  fi_copied : 0 <= mo_copied_from_user mo <= Z.of_nat (length D);
  fi_unsent : mo_next_xmit mo = O
}.

Lemma filling_add D max_gso mo skb left :
  filling D max_gso mo -> skb_ok D skb -> info_offset skb = mo_copied_from_user mo ->
  pkt_size mo max_gso skb ->
  left = Z.of_nat (length D) - mo_copied_from_user mo - info_data_bytes skb ->
  filling D max_gso (mo <| mo_packets ::= fun l => l ++ [skb] |> <| mo_num_skbs ::= fun k => k + 1 |>
    <| mo_copied_from_user := mo_length mo - left |>).
Proof.
  intros [[Hl Ht Hs Hn Ho] Hnum Hsz Hc Hu] Hsk Hoff Hp ->.
  destruct (so_range _ _ Hsk) as (H1 & H2 & H3).
  constructor; simpl; [constructor; simpl | | | lia | done]; try done.
  - rewrite tiled_app. exists (mo_copied_from_user mo). simpl. split_ands; [done .. | lia].
  - apply Forall_app. by split; [| constructor].
  - rewrite length_app. simpl. lia.
  - rewrite Hu in *. by simpl in *.
  - rewrite length_app. simpl. lia.
  - apply Forall_app. by split; [| constructor].
Qed.

(** The fields that filling changes. *)
Definition filled (mo : homa_message_out) (pk : list skb_out) (num copied : Z) : homa_message_out :=
  mo <| mo_packets := pk |> <| mo_num_skbs := num |> <| mo_copied_from_user := copied |>.

Section Fill.
Variables (env : tx_env) (D : list Z) (p : ptr) (sk : homa_sock) (max_seg max_gso : Z)
  (overlap xmit : bool).
Hypothesis Henv : tx_ok env.
Hypothesis Hseg : 0 < max_seg <= INT_MAX.
Hypothesis Hgso : 0 < max_gso.
Hypothesis HD : Z.of_nat (length D) <= INT_MAX.

(** Waking the pacer for a long message. *)
Lemma fill_throttle (c : bool) pe w :
  throttled_live w -> is_Some (w_rpcs w !! p) ->
  exists w', (if c then homa_add_to_throttled p else ret tt) w = Ok (tt, w') /\
    w_rpcs w' = w_rpcs w /\ w_peers w' = w_peers w /\ w_socks w' = w_socks w /\
    fill_frame p pe w w' /\ throttled_live w'.
Proof.
  intros Hl Hp. destruct c; [|by exists w].
  destruct (add_to_throttled_exec p w Hl Hp) as (w' & Hex & Hof & Hr & Hh & Ht).
  pose proof (of_peers _ _ _ Hof) as Hpe. exists w'. split_ands; try done; [apply Hof | |].
  - destruct Hof. constructor; try done; [by rewrite Hpe |]. rewrite Hpe. eauto.
  - intros q. rewrite Ht, Hr. case_bool_decide; [apply Hl |].
    unfold thr_insert. rewrite elem_of_insert_before. intros [-> |]; [done | by apply Hl].
Qed.

Lemma out_fill_loop_spec fuel : forall w rpc peer,
  let mo := rpc_msgout rpc in
  let left := Z.of_nat (length D) - mo_copied_from_user mo in
  w_rpcs w !! p = Some rpc -> w_socks w !! rpc_hsk rpc = Some sk ->
  w_peers w !! rpc_peer rpc = Some peer -> acks_ok peer -> throttled_live w ->
  rpc_state_ rpc <> RPC_DEAD -> filling D max_gso mo -> (Z.to_nat left <= fuel)%nat ->
  exists w' pk num, let mo' := filled mo pk num (Z.of_nat (length D)) in
    out_fill_loop env fuel p max_seg max_gso overlap xmit left
      (drop (Z.to_nat (mo_copied_from_user mo)) D) w = Ok (0, w') /\
    w_rpcs w' !! p = Some (rpc <| rpc_msgout := mo' |>) /\ filling D max_gso mo' /\
    fill_frame p (rpc_peer rpc) w w' /\ throttled_live w'.
Proof.
  induction fuel as [|fuel IH]; intros w rpc peer mo left Hr Hs Hp Ha Hl Hd Hfi Hf; cbn [out_fill_loop];
    destruct (Z.leb_spec left 0) as [H0 | H0]; try lia.
  1,2: exists w, (mo_packets mo), (mo_num_skbs mo); pose proof (fi_copied _ _ _ Hfi);
    (assert (filled mo (mo_packets mo) (mo_num_skbs mo) (Z.of_nat (length D)) = mo) as ->
      by (unfold filled; replace (Z.of_nat (length D)) with (mo_copied_from_user mo) by lia; by destruct mo));
    split_ands; try done; rewrite Hr; by destruct rpc.
  step. pose proof (fi_copied _ _ _ Hfi) as Hc. pose proof (oo_length _ _ (fi_ok _ _ _ Hfi)) as Hlen. fold mo.
  replace (mo_length mo - left) with (mo_copied_from_user mo) by lia.
  set (off := mo_copied_from_user mo) in *. set (n := skb_data_bytes mo max_gso off left).
  destruct (skb_data_bytes_spec mo max_gso off left Hgso H0 ltac:(lia)) as (Hn & Hng & Hnu). fold n in Hn, Hng, Hnu.
  destruct (new_data_packet_spec env p D off n max_seg w rpc sk peer) as (skb & peer' & Hex & Ha' & Hcut & Hsk & Ho & Hb);
    try done; try lia.
  rewrite (bind_eq _ _ _ _ _ Hex). set (w1 := w <| w_peers ::= _ |>). clear Hex.
  rewrite (bind_eq _ _ _ _ _ (get_rpc_eq p w1 rpc Hr)), bool_decide_eq_false_2 by done.
  unfold upd_msgout. erewrite bind_eq by (by apply upd_rpc_eq). cbv zeta.
  rewrite (bind_eq get_homa _ _ _ _ eq_refl).
  set (mo1 := mo <| mo_packets ::= fun l => l ++ [skb] |> <| mo_num_skbs ::= fun k => k + 1 |>
    <| mo_copied_from_user := mo_length mo - (left - n) |>).
  set (rpc1 := rpc <| rpc_msgout := mo1 |>). set (w2 := w1 <| w_rpcs ::= insert p rpc1 |>).
  assert (filling D max_gso mo1) as Hfi1.
  { apply filling_add; try done; [split; rewrite ?Ho, ?Hb; done | lia]. }
  assert (fill_frame p (rpc_peer rpc) w w2) as Hfr.
  { constructor; try done; simpl; [by rewrite delete_insert_eq | by rewrite delete_insert_eq |].
    intros x Hx _. rewrite Hp in Hx. injection Hx as <-. exists peer'. rewrite lookup_insert_eq.
    by split_ands. }
  assert (throttled_live w2) as Hl2
    by (intros q Hq; simpl; apply lookup_insert_is_Some'; right; by apply Hl).
  match goal with |- context [if ?c then homa_add_to_throttled p else _] =>
    destruct (fill_throttle c (rpc_peer rpc) w2 Hl2) as (w3 & Hex & Hr3 & Hp3 & Hs3 & Hfr3 & Hl3);
    [by eexists; apply lookup_insert_eq |] end.
  rewrite (bind_eq _ _ _ _ _ Hex).
  destruct (IH w3 rpc1 peer') as (w' & pk & num & Hex' & Hr' & Hfi' & Hfr' & Hl').
  - rewrite Hr3. apply lookup_insert_eq.
  - by rewrite Hs3.
  - rewrite Hp3. apply lookup_insert_eq.
  - done.
  - done.
  - done.
  - done.
  - simpl. lia.
  - exists w', pk, num. simpl in Hex'.
    replace (Z.of_nat (length D) - (mo_length mo - (left - n))) with (left - n) in Hex' by lia.
    replace (mo_length mo - (left - n)) with (off + n) in Hex' by lia.
    split_ands; try done. etransitivity; [exact Hfr |]. by etransitivity.
Qed.
End Fill.

(** The route allows at least one byte of data in a packet, and the limits on
    GSO packets leave room for the headers. *)
Record route_ok (h : homa) (sk : homa_sock) (mtu gso_max : Z) : Prop := {
  ro_header : 0 <= sk_ip_header_length sk <= 40;
  ro_mtu : sk_ip_header_length sk + sizeof_data_hdr < mtu <= 2 ^ 20;
  ro_gso : sk_ip_header_length sk + sizeof_data_hdr <= Z.min gso_max (h_max_gso_size h) <= 2 ^ 20
}.

Lemma max_gso_data_ok h sk mtu gso_max :
  route_ok h sk mtu gso_max ->
  let seg := mtu - sk_ip_header_length sk - sizeof_data_hdr in
  max_seg_data_of sk mtu = seg /\ 0 < seg <= INT_MAX /\
  exists segs, 0 < segs /\ max_gso_data_of h sk mtu gso_max = Ok (segs * seg).
Proof.
  intros [Hh Hm Hg] seg. unfold sizeof_data_hdr in *. unfold seg in *. clear seg.
  assert (max_seg_data_of sk mtu = mtu - sk_ip_header_length sk - 56) as Hs
    by (unfold max_seg_data_of, sizeof_data_hdr; apply s32_id; unfold is_int, INT_MIN, INT_MAX; lia).
  split; [done |]. split; [unfold INT_MAX; lia |]. unfold max_gso_data_of. rewrite Hs.
  unfold sizeof_data_hdr, sizeof_seg_hdr. set (seg := mtu - sk_ip_header_length sk - 56) in *.
  set (g := if gso_max >? h_max_gso_size h then h_max_gso_size h else gso_max).
  assert (g = Z.min gso_max (h_max_gso_size h)) as Hgs by (unfold g; zb; lia).
  assert (exists segs, (if sk_tcp sk then do_div (g - sk_ip_header_length sk - 56) seg
    else do_div (g - sk_ip_header_length sk - 56 + 4) (seg + 4)) = Ok segs /\ 0 <= segs /\
    segs * seg <= 2 ^ 20) as (segs & -> & Hpos & Hle).
  { destruct (sk_tcp sk); rewrite do_div_ok by lia; eexists; (split; [reflexivity |]);
      (split; [apply Z.div_pos; lia |]).
    - pose proof (Z.mul_div_le (g - sk_ip_header_length sk - 56) seg). lia.
    - pose proof (Z.mul_div_le (g - sk_ip_header_length sk - 56 + 4) (seg + 4)).
      pose proof (Z.div_pos (g - sk_ip_header_length sk - 56 + 4) (seg + 4)). nia. }
  cbn [result_bind]. exists (if segs =? 0 then 1 else segs).
  split; [destruct (Z.eqb_spec segs 0); lia |]. f_equal. apply s32_id.
  unfold is_int, INT_MIN, INT_MAX. destruct (Z.eqb_spec segs 0); nia.
Qed.

(** The message and its peer are such that priorities are in the tables. *)
Definition fill_ready (h : homa) (peer : homa_peer) (n : Z) : Prop :=
  forall mo, mo_length mo = n -> mo_sched_priority mo = 0 -> xmit_ready h peer mo.

(** The message when its packets start being built. *)
Definition unsched_of (h : homa) (n : Z) : Z :=
  if h_unsched_bytes h >? n then n else h_unsched_bytes h.

Definition out_start (h : homa) (now n granted : Z) : homa_message_out :=
  Build_homa_message_out n 0 0 [] O 0 0 (unsched_of h n) granted 0 now.

Lemma out_start_filling D max_gso h now granted :
  filling D max_gso (out_start h now (Z.of_nat (length D)) granted).
Proof. constructor; simpl; [constructor; simpl | | | lia |]; done. Qed.

Lemma message_out_init_exec p n w rpc :
  w_rpcs w !! p = Some rpc ->
  homa_message_out_init p n w = Ok (tt, w <| w_tick ::= S |> <| w_rpcs ::= insert p
    (rpc <| rpc_msgout := out_start (w_homa w) (w_clock w (w_tick w)) n (mo_granted (rpc_msgout rpc)) |>) |>).
Proof.
  intros Hr. unfold homa_message_out_init, upd_msgout. step. step.
  rewrite (upd_rpc_eq _ _ _ rpc) by done. reflexivity.
Qed.

(** The state when the packets of [p] start being built. *)
Definition fill_start (p : ptr) (n : Z) (rpc : homa_rpc) (w : world) : world :=
  w <| w_tick ::= S |> <| w_rpcs ::= insert p (flags_or RPC_COPYING_FROM_USER
    (rpc <| rpc_msgout := out_start (w_homa w) (w_clock w (w_tick w)) n (unsched_of (w_homa w) n) |>)) |>.

(** The beginning of [homa_message_out_fill], for a message of legal length. *)
Lemma fill_start_exec env mtu gso_max p D xmit w rpc sk max_gso :
  w_rpcs w !! p = Some rpc -> w_socks w !! rpc_hsk rpc = Some sk ->
  0 < Z.of_nat (length D) <= HOMA_MAX_MESSAGE_LENGTH ->
  max_gso_data_of (w_homa w) sk mtu gso_max = Ok max_gso ->
  let n := Z.of_nat (length D) in
  let overlap := n >? 2 * max_gso in
  homa_message_out_fill env mtu gso_max p D xmit w =
  (let* err := out_fill_loop env (Z.to_nat n) p (max_seg_data_of sk mtu) max_gso overlap xmit n D in
   upd_rpc p (flags_andnot RPC_COPYING_FROM_USER) ;;;
   if negb (err =? 0) then ret err else
   ((if negb overlap && xmit then homa_xmit_data p false else ret tt) ;;; ret 0))
  (fill_start p n rpc w).
Proof.
  intros Hr Hs Hn Hg n overlap. unfold HOMA_MAX_MESSAGE_LENGTH in *.
  match goal with |- _ = ?R => set (rhs := R) end. unfold homa_message_out_fill.
  rewrite (s32_id (Z.of_nat (length D))) by (unfold is_int, INT_MIN, INT_MAX; lia). fold n.
  rewrite (bind_eq _ _ _ _ _ (message_out_init_exec p n w rpc Hr)). unfold upd_msgout.
  erewrite bind_eq by (apply get_rpc_eq, lookup_insert_eq). cbv zeta.
  match goal with |- context [mo_length (rpc_msgout ?r)] => change (mo_length (rpc_msgout r)) with n end.
  destruct (Z.gtb_spec n HOMA_MAX_MESSAGE_LENGTH); [unfold HOMA_MAX_MESSAGE_LENGTH in *; lia |].
  destruct (Z.eqb_spec n 0); [lia |]. cbn [orb].
  erewrite bind_eq by (apply get_sock_eq; exact Hs). step. unfold lift.
  erewrite bind_eq by (simpl w_homa; rewrite Hg; reflexivity). fold overlap.
  erewrite bind_eq by (apply upd_rpc_eq, lookup_insert_eq).
  erewrite bind_eq by (apply upd_rpc_eq; simpl; rewrite insert_insert_eq; apply lookup_insert_eq).
  unfold rhs. f_equal. unfold fill_start. simpl. by rewrite !insert_insert_eq.
Qed.

Lemma fill_ready_eq h h' peer peer' n mo :
  fill_ready h peer n -> homa_out_rest h' = homa_out_rest h ->
  peer_unsched_cutoffs peer' = peer_unsched_cutoffs peer ->
  mo_length mo = n -> mo_sched_priority mo = 0 -> xmit_ready h' peer' mo.
Proof.
  intros Hx Hh Hc Hn Hs. destruct (Hx mo Hn Hs). destruct (homa_out_fields _ _ Hh) as [E1 E2].
  constructor; rewrite ?E1, ?E2, ?Hc; done.
Qed.

Lemma pkt_size_geometry mo mo' max_gso l : forall k,
  geometry <$> l = geometry <$> k -> Forall (pkt_size mo max_gso) k ->
  mo_unscheduled mo' = mo_unscheduled mo -> Forall (pkt_size mo' max_gso) l.
Proof.
  induction l as [|s l IH]; intros [|t k] H Hf Hu; try done. csimpl in *.
  apply (inj2 cons) in H as [Hg H]. injection Hg as _ Ho Hd _.
  apply Forall_cons in Hf as [Hf1 Hf2]. constructor; [|by eapply IH].
  unfold pkt_size in *. by rewrite Ho, Hd, Hu.
Qed.

(** What holds of the message once all of its packets exist. *)
Record fill_done (D : list Z) (max_gso granted : Z) (mo : homa_message_out) : Prop := {
  fd_ok : out_ok D mo;
  fd_tiled : tiled 0 (mo_packets mo) (Z.of_nat (length D));
  fd_size : Forall (pkt_size mo max_gso) (mo_packets mo);
  fd_num : mo_num_skbs mo = Z.of_nat (length (mo_packets mo));
  fd_granted : mo_granted mo = granted
}.

(** Filling changes the outgoing message and the flags of the RPC, and neither
    the sockets nor other RPCs. *)
Record filled_frame (p : ptr) (rpc rpc' : homa_rpc) (w w' : world) : Prop := {
  fl_rpc : rpc' = rpc <| rpc_msgout := rpc_msgout rpc' |> <| rpc_flags := rpc_flags rpc' |>;
  fl_others : delete p (w_rpcs w') = delete p (w_rpcs w);
  fl_socks : w_socks w' = w_socks w
}.

Lemma filled_frame_trans p r1 r2 r3 w1 w2 w3 :
  filled_frame p r1 r2 w1 w2 -> filled_frame p r2 r3 w2 w3 -> filled_frame p r1 r3 w1 w3.
Proof.
  intros [E1 F1 G1] [E2 F2 G2]. constructor; [|congruence ..]. rewrite E2, E1. by destruct r1.
Qed.

(** The RPC [p] is transmitting the message [D], all of which is in packets. *)
Record sending (D : list Z) (p : ptr) (peer : homa_peer) (w : world) (rpc : homa_rpc) : Prop := {
  sd_rpc : w_rpcs w !! p = Some rpc;
  sd_peer : w_peers w !! rpc_peer rpc = Some peer;
  sd_live : throttled_live w;
  sd_state : rpc_state_ rpc <> RPC_DEAD;
  sd_ready : xmit_ready (w_homa w) peer (rpc_msgout rpc);
  sd_ok : out_ok D (rpc_msgout rpc);
  sd_tiled : tiled 0 (mo_packets (rpc_msgout rpc)) (Z.of_nat (length D))
}.

(** The packets [sent] are packets of [pk]. *)
Definition sent_from (pk : list skb_out) (sent : list (ptr * Z * skb_out)) : Prop :=
  Forall (fun e => exists s, s ∈ pk /\ geometry e.2 = geometry s) sent.

(** What is logged when packets of the RPC are transmitted. *)
Definition logs (pk : list skb_out) (w w' : world) : Prop :=
  exists sent, host_xmit (w_host w') = host_xmit (w_host w) ++ sent /\ sent_from pk sent.

Lemma logs_nil pk w : logs pk w w.
Proof. exists []. split; [by rewrite app_nil_r | constructor]. Qed.

(** A transmission of the message leaves it as it is. *)
Lemma sending_xmit D p peer force w rpc :
  sending D p peer w rpc ->
  exists w' rpc' pk n off, homa_xmit_data p force w = Ok (tt, w') /\ sending D p peer w' rpc' /\
    rpc' = rpc <| rpc_msgout ::= fun mo => sent_out mo pk n off |> /\
    geometry <$> pk = geometry <$> mo_packets (rpc_msgout rpc) /\ out_frame p w w' /\
    logs (mo_packets (rpc_msgout rpc)) w w'.
Proof.
  intros [Hr Hp Hl Hd Hx Hok Ht].
  destruct (xmit_data_spec D p force w rpc peer) as (w' & rpc' & sent & Hex & Hxm & Hok' & _); try done.
  pose proof Hxm as [Hr' Hof Hlog (pk & off & E & Hgeo) Hsent _].
  destruct (homa_out_fields _ _ (of_homa _ _ _ Hof)) as [En Em].
  exists w', rpc', pk, (length sent), off. split_ands; try done.
  - constructor; try done.
    + rewrite E. simpl. by rewrite (of_peers _ _ _ Hof).
    + by eapply xmitted_live.
    + by rewrite E.
    + eapply xmit_ready_eq; [exact Hx | done | done | by rewrite E | by rewrite E].
    + rewrite E. simpl. by eapply tiled_geometry.
  - eexists. split; [exact Hlog |]. apply Forall_forall. intros e He.
    apply list_elem_of_In, in_map_iff in He as ([pr s] & <- & He). simpl.
    assert (geometry s ∈ geometry <$> sent.*2) as Hg
      by (apply list_elem_of_fmap_2, (list_elem_of_fmap_2 snd _ (pr, s)); by apply list_elem_of_In).
    rewrite Hsent in Hg. apply elem_of_take in Hg as (i & Hi & _). rewrite lookup_drop in Hi.
    apply list_elem_of_lookup_2, list_elem_of_fmap in Hi as (x & Hx' & Hin). by exists x.
Qed.

Lemma fill_xmit D p max_gso (c : bool) w rpc peer :
  let mo := rpc_msgout rpc in
  sending D p peer w rpc -> fill_done D max_gso (mo_granted mo) mo ->
  exists w' rpc', ((if c then homa_xmit_data p false else ret tt) ;;; ret 0) w = Ok (0, w') /\
    sending D p peer w' rpc' /\ fill_done D max_gso (mo_granted mo) (rpc_msgout rpc') /\
    filled_frame p rpc rpc' w w' /\ logs (mo_packets (rpc_msgout rpc')) w w' /\
    homa_out_rest (w_homa w') = homa_out_rest (w_homa w).
Proof.
  intros mo Hs Hfd. destruct c; [|exists w, rpc; pose proof (logs_nil (mo_packets mo) w); by destruct rpc].
  destruct Hfd as [Hok Ht Hsz Hnum _].
  destruct (sending_xmit D p peer false w rpc Hs) as (w' & rpc' & pk & n & off & Hex & Hs' & E & Hgeo & Hof & Hlog).
  rewrite (bind_eq _ _ _ _ _ Hex). exists w', rpc'. split; [done |]. split; [done |].
  assert (rpc_msgout rpc' = sent_out mo pk n off) as E' by (by rewrite E).
  split_ands.
  - pose proof (sd_ok _ _ _ _ _ Hs'). pose proof (sd_tiled _ _ _ _ _ Hs'). rewrite E' in *.
    constructor; try done; [by eapply pkt_size_geometry |].
    simpl. rewrite <- (length_fmap geometry pk), Hgeo, length_fmap. exact Hnum.
  - constructor; [by rewrite E; destruct rpc | apply Hof | apply Hof].
  - destruct Hlog as (sent & Hlog & Hall). exists sent. split; [done |]. rewrite E'. simpl.
    eapply Forall_impl; [exact Hall |]. intros e (s & Hin & Hg).
    apply (list_elem_of_fmap_2 geometry) in Hin. rewrite <- Hgeo in Hin.
    apply list_elem_of_fmap in Hin as (s' & E2 & Hin). exists s'. split; [done | congruence].
  - apply Hof.
Qed.

(** [homa_message_out_fill] on a message of legal length, with what it leaves
    alone and what it transmits. *)
Lemma message_out_fill_full env mtu gso_max p D xmit w rpc sk peer :
  tx_ok env -> w_rpcs w !! p = Some rpc -> w_socks w !! rpc_hsk rpc = Some sk ->
  w_peers w !! rpc_peer rpc = Some peer -> acks_ok peer -> throttled_live w ->
  rpc_state_ rpc <> RPC_DEAD -> 0 < Z.of_nat (length D) <= HOMA_MAX_MESSAGE_LENGTH ->
  route_ok (w_homa w) sk mtu gso_max -> fill_ready (w_homa w) peer (Z.of_nat (length D)) ->
  exists w' rpc' max_gso peer', homa_message_out_fill env mtu gso_max p D xmit w = Ok (0, w') /\
    max_gso_data_of (w_homa w) sk mtu gso_max = Ok max_gso /\
    sending D p peer' w' rpc' /\
    fill_done D max_gso (Z.min (h_unsched_bytes (w_homa w)) (Z.of_nat (length D))) (rpc_msgout rpc') /\
    filled_frame p rpc rpc' w w' /\ logs (mo_packets (rpc_msgout rpc')) w w' /\
    homa_out_rest (w_homa w') = homa_out_rest (w_homa w).
Proof.
  intros He Hr Hs Hp Ha Hl Hd Hn Hro Hx. set (n := Z.of_nat (length D)) in *.
  destruct (max_gso_data_ok _ _ _ _ Hro) as (Hseg & Hsr & segs & Hsg & Hgso).
  set (max_gso := segs * _) in Hgso. rewrite (fill_start_exec env mtu gso_max p D xmit w rpc sk max_gso) by done.
  fold n.
  assert (exists rpc1, w_rpcs (fill_start p n rpc w) !! p = Some rpc1 /\
    filled_frame p rpc rpc1 w (fill_start p n rpc w) /\ rpc_hsk rpc1 = rpc_hsk rpc /\
    rpc_peer rpc1 = rpc_peer rpc /\ rpc_state_ rpc1 = rpc_state_ rpc /\
    rpc_msgout rpc1 = out_start (w_homa w) (w_clock w (w_tick w)) n (unsched_of (w_homa w) n))
    as (rpc1 & Hr1 & Hff & Eh & Ep & Es & Em) 
    by (eexists; split; [apply lookup_insert_eq |]; split; [|done]; constructor; try done; apply delete_insert_eq).
  assert (throttled_live (fill_start p n rpc w)) as Hl1
    by (intros q Hq; apply lookup_insert_is_Some'; right; by apply Hl).
  assert (homa_out_rest (w_homa (fill_start p n rpc w)) = homa_out_rest (w_homa w)) as Hh1 by done.
  assert (w_host (fill_start p n rpc w) = w_host w) as Hho1 by done.
  assert (w_socks (fill_start p n rpc w) !! rpc_hsk rpc1 = Some sk) as Hs1 by (by rewrite Eh).
  assert (w_peers (fill_start p n rpc w) !! rpc_peer rpc1 = Some peer) as Hp1 by (by rewrite Ep).
  generalize dependent (fill_start p n rpc w). intros w1 Hr1 Hff Hl1 Hh1 Hho1 Hs1 Hp1.
  destruct (out_fill_loop_spec env D p sk (max_seg_data_of sk mtu) max_gso (n >? 2 * max_gso) xmit He
    ltac:(by rewrite Hseg) ltac:(unfold max_gso; lia) ltac:(unfold INT_MAX, HOMA_MAX_MESSAGE_LENGTH in *; lia)
    (Z.to_nat n) w1 rpc1 peer) as (w2 & pk & num & Hex & Hr2 & Hfi & Hfr & Hl2);
    rewrite ?Em; simpl; rewrite ?Es; try done; [apply out_start_filling | lia |].
  rewrite Em in Hex, Hfi, Hr2. simpl in Hex. rewrite Z.sub_0_r, drop_0 in Hex.
  rewrite (bind_eq _ _ _ _ _ Hex). cbn [Z.eqb negb]. clear Hex.
  erewrite bind_eq by (apply upd_rpc_eq; exact Hr2).
  set (mo2 := filled _ pk num _) in *. set (rpc2 := flags_andnot _ _).
  assert (mo_granted mo2 = Z.min (h_unsched_bytes (w_homa w)) n) as Hgr by (simpl; unfold unsched_of; zb; lia).
  assert (mo_length mo2 = n /\ mo_sched_priority mo2 = 0 /\ mo_copied_from_user mo2 = n) as (Hlen & Hsp & Hc) by done.
  assert (rpc_msgout rpc2 = mo2 /\ rpc_peer rpc2 = rpc_peer rpc1 /\ rpc_state_ rpc2 = rpc_state_ rpc1)
    as (Em2 & Ep2 & Es2) by done.
  assert (filled_frame p rpc1 rpc2 w1 (w2 <| w_rpcs ::= insert p rpc2 |>)) as Hff2.
  { destruct Hfr. constructor; [by destruct rpc1 | | done]. simpl. by rewrite delete_insert_eq. }
  clearbody mo2 rpc2. destruct (ff_peer _ _ _ _ Hfr peer Hp1 Ha) as (peer2 & Hp2 & _ & Hcut).
  destruct (fill_xmit D p max_gso (negb (n >? 2 * max_gso) && xmit) (w2 <| w_rpcs ::= insert p rpc2 |>) rpc2 peer2)
    as (w' & rpc' & Hex' & Hsd & Hfd & Hff3 & Hlog & Hh3).
  - destruct Hfi as [Hok _ _ _ _]. pose proof (oo_tiled _ _ Hok) as Ht. rewrite Hc in Ht. constructor; rewrite ?Em2; try done.
    + apply lookup_insert_eq.
    + by rewrite Ep2.
    + intros q Hq. simpl. apply lookup_insert_is_Some'. right. by apply Hl2.
    + by rewrite Es2, Es.
    + eapply fill_ready_eq; [exact Hx | | exact Hcut | done | done].
      rewrite <- Hh1. exact (ff_homa _ _ _ _ Hfr).
  - rewrite Em2. destruct Hfi as [Hok Hnum Hsz _ _]. constructor; try done.
    pose proof (oo_tiled _ _ Hok) as Ht. by rewrite Hc in Ht.
  - exists w', rpc', max_gso, peer2. rewrite Em2, Hgr in Hfd. split_ands; try done.
    + eapply filled_frame_trans; [exact Hff |]. by eapply filled_frame_trans.
    + destruct Hlog as (sent & Hlog & Hall). exists sent. split; [|done]. rewrite Hlog. f_equal. simpl.
      by rewrite (ff_host _ _ _ _ Hfr), Hho1.
    + rewrite Hh3, <- Hh1. exact (ff_homa _ _ _ _ Hfr).
Qed.

Lemma message_out_fill_spec env mtu gso_max p D xmit w rpc sk peer :
  tx_ok env -> w_rpcs w !! p = Some rpc -> w_socks w !! rpc_hsk rpc = Some sk ->
  w_peers w !! rpc_peer rpc = Some peer -> acks_ok peer -> throttled_live w ->
  rpc_state_ rpc <> RPC_DEAD -> 0 < Z.of_nat (length D) <= HOMA_MAX_MESSAGE_LENGTH ->
  route_ok (w_homa w) sk mtu gso_max -> fill_ready (w_homa w) peer (Z.of_nat (length D)) ->
  exists w' rpc' max_gso, homa_message_out_fill env mtu gso_max p D xmit w = Ok (0, w') /\
    max_gso_data_of (w_homa w) sk mtu gso_max = Ok max_gso /\
    w_rpcs w' !! p = Some rpc' /\
    fill_done D max_gso (Z.min (h_unsched_bytes (w_homa w)) (Z.of_nat (length D))) (rpc_msgout rpc') /\
    filled_frame p rpc rpc' w w'.
Proof.
  intros He Hr Hs Hp Ha Hl Hd Hn Hro Hx.
  destruct (message_out_fill_full env mtu gso_max p D xmit w rpc sk peer)
    as (w' & rpc' & g & peer' & Hex & Hg & Hsd & Hfd & Hff & _); try done.
  exists w', rpc', g. split_ands; try done. apply Hsd.
Qed.


(** An empty or too long message is refused. *)
Lemma message_out_fill_bad_length env mtu gso_max p D xmit w rpc :
  w_rpcs w !! p = Some rpc -> Z.of_nat (length D) <= INT_MAX ->
  Z.of_nat (length D) = 0 \/ HOMA_MAX_MESSAGE_LENGTH < Z.of_nat (length D) ->
  exists w', homa_message_out_fill env mtu gso_max p D xmit w = Ok (- EINVAL, w').
Proof.
  intros Hr Hi Hn. unfold homa_message_out_fill.
  rewrite (s32_id (Z.of_nat (length D))) by (unfold is_int, INT_MIN, INT_MAX in *; lia).
  rewrite (bind_eq _ _ _ _ _ (message_out_init_exec p _ w rpc Hr)).
  erewrite bind_eq by (apply get_rpc_eq, lookup_insert_eq). cbv zeta.
  match goal with |- context [mo_length (rpc_msgout ?r)] =>
    change (mo_length (rpc_msgout r)) with (Z.of_nat (length D)) end.
  destruct (Z.gtb_spec (Z.of_nat (length D)) HOMA_MAX_MESSAGE_LENGTH),
    (Z.eqb_spec (Z.of_nat (length D)) 0); cbn [orb]; try lia;
    (erewrite bind_eq by (apply upd_rpc_eq, lookup_insert_eq)); eexists; reflexivity.
Qed.

(** Memory is always available. *)
Definition ex_env : tx_env := Build_tx_env (fun _ => Some ex_data_hdr) (fun _ => 0) (fun _ => 0).

Lemma ex_env_ok : tx_ok ex_env.
Proof. intros o. split_ands; [eexists; reflexivity | reflexivity ..]. Qed.

Lemma ex_route_ok : route_ok (w_homa ex_out_world) ex_sock 1500 65536.
Proof. constructor; vm_compute; split; congruence. Qed.

Lemma ex_fill_ready n : n <= 1000000 -> fill_ready (w_homa ex_out_world) ex_out_peer n.
Proof.
  intros Hn mo E1 E2. constructor; rewrite ?E1, ?E2;
    [vm_compute; split; congruence | vm_compute; intuition congruence |].
  exists 5, 1000000. split_ands; try done.
Qed.


(** The errors of [homa_new_data_packet] are not handled: when there is no
    memory for the first packet, [homa_message_out_fill] dereferences the error
    code as a pointer. *)
Theorem message_out_fill_nomem env mtu gso_max p D xmit w rpc sk :
  tx_mem env 0 = None -> w_rpcs w !! p = Some rpc -> w_socks w !! rpc_hsk rpc = Some sk ->
  0 < Z.of_nat (length D) <= HOMA_MAX_MESSAGE_LENGTH -> route_ok (w_homa w) sk mtu gso_max ->
  homa_message_out_fill env mtu gso_max p D xmit w = Fault BadPointer.
Proof.
  intros He Hr Hs Hn Hro. destruct (max_gso_data_ok _ _ _ _ Hro) as (Hseg & Hsr & segs & Hsg & Hgso).
  rewrite (fill_start_exec env mtu gso_max p D xmit w rpc sk _ Hr Hs Hn Hgso). rewrite Hseg in *.
  set (seg := mtu - _ - _) in *.
  destruct (Z.to_nat (Z.of_nat (length D))) as [|f] eqn:Hf; [lia |].
  unfold bind at 1. cbn [out_fill_loop]. destruct (Z.leb_spec (Z.of_nat (length D)) 0); [lia |].
  erewrite bind_eq by (apply get_rpc_eq, lookup_insert_eq). cbv zeta.
  match goal with |- context [mo_length (rpc_msgout ?r)] =>
    change (mo_length (rpc_msgout r)) with (Z.of_nat (length D)) end.
  rewrite Z.sub_diag. unfold homa_new_data_packet at 1.
  match goal with |- context [skb_data_bytes ?m ?g 0 ?l] => set (k := skb_data_bytes m g 0 l);
    pose proof (skb_data_bytes_spec m g 0 l ltac:(nia) ltac:(lia) ltac:(lia)) as (Hk & _) end.
  fold k in Hk. unfold INT_MAX, HOMA_MAX_MESSAGE_LENGTH in *. unfold lift.
  rewrite do_div_ok by lia. unfold bind. by rewrite He.
Qed.

Lemma message_out_fill_nomem_witness :
  homa_message_out_fill (Build_tx_env (fun _ => None) (fun _ => 0) (fun _ => 0)) 1500 65536 21%positive
    (replicate 3000 7) true ex_out_world = Fault BadPointer.
Proof.
  apply (message_out_fill_nomem _ _ _ _ _ _ _ ex_out_rpc ex_sock).
  - reflexivity.
  - reflexivity.
  - reflexivity.
  - vm_compute. split; congruence.
  - exact ex_route_ok.
Defined.
