(* ===== verification/OutResend.v ===== *)
(** * Retransmission

    [homa_resend_data] sends exactly the segments that contain requested
    bytes, with the data of the message. *)
From S2P Require Import Prelude Lists Wire Types Example Control Peer Outgoing OutXmit OutFill.

(** The segments of a packet: offset and length of each, from number [k]. *)
Definition segments_from (skb : skb_out) (k : Z) : list (Z * Z) :=
  let n := info_data_bytes skb in
  let seg := skb_seg skb in
  (fun j => (info_offset skb + j * seg, seg_len n seg j)) <$>
    seqZ k ((n + seg - 1) / seg - k).

Definition segments (skb : skb_out) : list (Z * Z) := segments_from skb 0.

(** A segment with bytes in [start, end_). *)
Definition wanted (start end_ : Z) (s : Z * Z) : Prop := s.1 < end_ /\ start < s.1 + s.2.
#[export] Instance wanted_dec start end_ s : Decision (wanted start end_ s).
Proof. unfold wanted. apply _. Defined.

(** The packet [s] is a retransmission of the segment [x] of the message [D]. *)
Record resent (D : list Z) (mo : homa_message_out) (x : Z * Z) (s : skb_out) : Prop := {
  re_offset : info_offset s = x.1;
  re_length : info_data_bytes s = x.2;
  re_body : out_body s = slice D x.1 x.2;
  re_seg : seg_offset (out_hdr s) = u32 x.1;
  re_sequence : sequence (d_common (out_hdr s)) = u32 x.1;
  re_flag : retransmit (out_hdr s) = 1;
  re_incoming : incoming (out_hdr s) = u32 (resend_incoming mo (x.1 + x.2));
  re_type : type (d_common (out_hdr s)) = DATA;
  re_single : out_gso_segs s = 0
}.

Lemma enc_data_length d : length (enc_data d) = 56%nat.
Proof.
  unfold enc_data. rewrite !length_app, !be_enc_length, enc_common_length, enc_ack_length. done.
Qed.

(** Segment [k] exists exactly when it starts before the end. *)
Lemma seg_exists n seg k : 0 < seg -> k < (n + seg - 1) / seg <-> k * seg < n.
Proof.
  intros Hs. split; intros H.
  - destruct (Z.lt_ge_cases (k * seg) n) as [|Hge]; [done |]. exfalso.
    assert ((n + seg - 1) / seg < k + 1) by (apply Z.div_lt_upper_bound; nia). lia.
  - apply Z.lt_le_trans with (k + 1); [lia |]. apply Z.div_le_lower_bound; nia.
Qed.

Lemma segments_cons skb k :
  0 < skb_seg skb -> k * skb_seg skb < info_data_bytes skb ->
  segments_from skb k = (info_offset skb + k * skb_seg skb,
    seg_len (info_data_bytes skb) (skb_seg skb) k) :: segments_from skb (k + 1).
Proof.
  intros Hs Hk. apply seg_exists in Hk; [|done]. unfold segments_from.
  rewrite seqZ_cons by lia. csimpl. do 3 f_equal; lia.
Qed.

Lemma segments_end skb k :
  0 < skb_seg skb -> info_data_bytes skb <= k * skb_seg skb -> segments_from skb k = [].
Proof.
  intros Hs Hk. unfold segments_from.
  destruct (Z.lt_ge_cases k ((info_data_bytes skb + skb_seg skb - 1) / skb_seg skb)) as [Hlt | Hge].
  - apply seg_exists in Hlt; lia.
  - by rewrite seqZ_nil by lia.
Qed.

Lemma segments_above skb k start e :
  0 < skb_seg skb -> e <= info_offset skb + k * skb_seg skb ->
  filter (wanted start e) (segments_from skb k) = [].
Proof.
  intros Hs He. apply filter_none. intros s Hin [Hlt _]. unfold segments_from in Hin.
  apply list_elem_of_fmap in Hin as (j & -> & Hj). apply elem_of_seqZ in Hj. simpl in Hlt. nia.
Qed.

Section Resend.
Variables (env : tx_env) (D : list Z) (p : ptr) (start end_ pr : Z).
Hypothesis Henv : tx_ok env.

(** The packets [sent] are retransmissions of the segments [segs]. *)
Record resend_step (w w' : world) (rpc : homa_rpc) (segs : list (Z * Z)) : Prop := {
  rs_frame : out_frame p w w';
  rs_rpcs : w_rpcs w' = w_rpcs w;
  rs_throttled : h_throttled_rpcs (w_homa w') = h_throttled_rpcs (w_homa w);
  rs_sent : exists sent, host_xmit (w_host w') =
      host_xmit (w_host w) ++ map (fun s => (rpc_peer rpc, pr, s)) sent /\
    Forall2 (resent D (rpc_msgout rpc)) segs sent
}.

Lemma resend_step_nil w rpc : resend_step w w rpc [].
Proof. constructor; try done. exists []. by rewrite app_nil_r. Qed.

Lemma resend_step_app w w1 w' rpc a b :
  resend_step w w1 rpc a -> resend_step w1 w' rpc b -> resend_step w w' rpc (a ++ b).
Proof.
  intros [Hf1 Hr1 Ht1 (s1 & Hl1 & H1)] [Hf2 Hr2 Ht2 (s2 & Hl2 & H2)].
  constructor; [by etransitivity | congruence | congruence |]. exists (s1 ++ s2).
  rewrite Hl2, Hl1, map_app, app_assoc. split; [done |]. by apply Forall2_app.
Qed.

(** What the retransmissions rely on. *)
Record resend_pre (w : world) (rpc : homa_rpc) (sk : homa_sock) (peer : homa_peer) : Prop := {
  rp_rpc : w_rpcs w !! p = Some rpc;
  rp_sock : w_socks w !! rpc_hsk rpc = Some sk;
  rp_peer : w_peers w !! rpc_peer rpc = Some peer;
  rp_prio : 0 <= pr < Z.of_nat (length (h_priority_map (w_homa w)))
}.

Lemma resend_pre_step w w' rpc sk peer segs :
  resend_pre w rpc sk peer -> resend_step w w' rpc segs -> resend_pre w' rpc sk peer.
Proof.
  intros [] [Hf Hr _ _]. destruct (homa_out_fields _ _ (of_homa _ _ _ Hf)) as [_ Hm].
  constructor; rewrite ?Hr, ?(of_socks _ _ _ Hf), ?(of_peers _ _ _ Hf), ?Hm; done.
Qed.

Lemma resend_seg_spec w rpc sk peer skb k :
  resend_pre w rpc sk peer -> skb_ok D skb -> 0 <= k -> k * skb_seg skb < info_data_bytes skb ->
  let o := info_offset skb + k * skb_seg skb in
  let n := seg_len (info_data_bytes skb) (skb_seg skb) k in
  exists w', resend_seg env p skb pr o (sizeof_data_hdr + k * out_gso_size skb) n w = Ok (false, w') /\
    resend_step w w' rpc [(o, n)].
Proof.
  intros [Hr Hs Hp Hpr] Hok Hk0 Hk o n. unfold resend_seg.
  destruct (Henv o) as ([mem ->] & Ha & _). step. step. rewrite Ha. cbn [Z.eqb negb].
  match goal with |- context [homa_check_nic_queue ?s true] => set (new := s) end.
  destruct (nic_check_frame true new true p w) as (ok & w0 & Hex & Hf & Hr0 & Hh & Ht & _).
  rewrite (bind_eq _ _ _ _ _ Hex). destruct (homa_out_fields _ _ (of_homa _ _ _ Hf)) as [_ Hm].
  destruct (xmit_data_low_exec new p pr w0 rpc peer) as (s & Hex1 & Hg & Hd);
    [by rewrite Hr0 | by rewrite (of_peers _ _ _ Hf) | by rewrite Hm |].
  rewrite (bind_eq _ _ _ _ _ Hex1). eexists. split; [reflexivity |].
  injection Hg as _ Go Gb _ Gbody Gn _ _ _ _ _ _ _ _.
  constructor; [by destruct Hf; constructor | done | done |]. exists [s]. simpl. rewrite Hh. split; [done |].
  constructor; [|constructor]. constructor; simpl; rewrite ?Hd; try done; [|apply Hok]. rewrite Gbody. simpl.
  unfold homa_skb_append_from_skb. pose proof (enc_data_length (out_hdr skb)) as He.
  pose proof (so_gso _ _ Hok). assert (0 <= k * out_gso_size skb) by nia.
  rewrite slice_app_r, He by (unfold sizeof_data_hdr; lia).
  etransitivity; [|apply (so_body _ _ Hok k Hk0 Hk)]. f_equal. unfold sizeof_data_hdr. lia.
Qed.

Lemma resend_segs_spec rpc sk peer skb fuel : forall k w,
  let n := info_data_bytes skb in
  let seg := skb_seg skb in
  resend_pre w rpc sk peer -> skb_ok D skb -> 0 <= k -> k * seg < n -> (Z.to_nat (n - k * seg) <= fuel)%nat ->
  exists w' stop, resend_segs env fuel p skb start end_ pr (info_offset skb + k * seg)
      (sizeof_data_hdr + k * out_gso_size skb) seg (n - k * seg) w = Ok (stop, w') /\
    resend_step w w' rpc (filter (wanted start end_) (segments_from skb k)) /\
    (stop = true -> end_ <= info_offset skb + n).
Proof.
  induction fuel as [|fuel IH]; intros k w n seg Hpre Hok Hk0 Hk Hf; [lia |]. cbn [resend_segs].
  destruct (Z.leb_spec (n - k * seg) 0); [lia |].
  assert ((if seg >? n - k * seg then n - k * seg else seg) = seg_len n seg k) as ->
    by (unfold seg_len; zb; lia).
  set (o := info_offset skb + k * seg). set (l := seg_len n seg k).
  pose proof (so_seg _ _ Hok) as Hs. fold seg in Hs.
  rewrite segments_cons by done. fold seg n o l.
  destruct (Z.leb_spec end_ o) as [He | He].
  { exists w, true. rewrite filter_cons_False, segments_above by (done || (intros [? _]; simpl in *; lia) || nia).
    split_ands; [done | apply resend_step_nil | lia]. }
  assert (exists w1, (if o + l <=? start then ret false else
    resend_seg env p skb pr o (sizeof_data_hdr + k * out_gso_size skb) l) w = Ok (false, w1) /\
    resend_step w w1 rpc (filter (wanted start end_) [(o, l)])) as (w1 & Hex & Hst).
  { destruct (Z.leb_spec (o + l) start).
    - exists w. rewrite filter_cons_False by (unfold wanted; simpl; lia).
      split; [done | apply resend_step_nil].
    - rewrite filter_cons_True by (unfold wanted; simpl; lia).
      by apply (resend_seg_spec w rpc sk peer skb k). }
  rewrite (bind_eq _ _ _ _ _ Hex). change ((o, l) :: ?x) with ([(o, l)] ++ x). rewrite filter_app.
  destruct (Z.lt_ge_cases ((k + 1) * seg) n) as [Hlt | Hge].
  - assert (l = seg) as -> by (unfold l, seg_len; lia).
    destruct (IH (k + 1) w1) as (w' & stop & Hex' & Hst' & Hstop); try done; try lia;
      [by eapply resend_pre_step |].
    exists w', stop. fold n seg in Hex', Hstop. unfold o.
    replace (info_offset skb + k * seg + seg) with (info_offset skb + (k + 1) * seg) by lia.
    replace (sizeof_data_hdr + k * out_gso_size skb + out_gso_size skb)
      with (sizeof_data_hdr + (k + 1) * out_gso_size skb) by lia.
    replace (n - k * seg - seg) with (n - (k + 1) * seg) by lia.
    split_ands; [done | by eapply resend_step_app | done].
  - exists w1, false. rewrite segments_end by done. rewrite filter_nil, app_nil_r.
    replace (n - k * seg - l) with 0 by (unfold l, seg_len; lia).
    split_ands; [by destruct fuel | done | done].
Qed.

Lemma pkts_above pkts : forall b e,
  tiled b pkts e -> Forall (skb_ok D) pkts -> end_ <= b ->
  filter (wanted start end_) (pkts ≫= segments) = [].
Proof.
  induction pkts as [|s l IHl]; intros b e Ht Hf Hb; [done |]. csimpl.
  destruct Ht as [Hos Ht]. apply Forall_cons in Hf as [Hok Hf].
  destruct (so_range _ _ Hok) as (H1 & H2 & _). rewrite filter_app.
  rewrite (IHl _ _ Ht Hf) by lia.
  unfold segments. rewrite segments_above; [done | apply Hok | lia].
Qed.

Lemma resend_pkts_spec rpc sk peer pkts : forall w off e,
  resend_pre w rpc sk peer -> Forall (skb_ok D) pkts -> tiled off pkts e ->
  exists w', resend_pkts env p start end_ pr pkts w = Ok (tt, w') /\
    resend_step w w' rpc (filter (wanted start end_) (pkts ≫= segments)).
Proof.
  induction pkts as [|skb pkts IH]; intros w off e Hpre Hf Ht; cbn [resend_pkts].
  { exists w. split; [done | apply resend_step_nil]. }
  destruct Ht as [Ho Ht]. apply Forall_cons in Hf as [Hok Hf].
  destruct (so_range _ _ Hok) as (H1 & H2 & H3). pose proof (so_seg _ _ Hok) as Hs.
  csimpl. rewrite filter_app.
  destruct (Z.geb_spec (info_offset skb) end_) as [He | He].
  { exists w. unfold segments at 1. rewrite segments_above, (pkts_above pkts _ _ Ht Hf) by (done || lia).
    split; [done | apply resend_step_nil]. }
  destruct (Z.geb_spec start (info_offset skb + info_data_bytes skb)) as [Hst | Hst].
  { destruct (IH w _ _ Hpre Hf Ht) as (w' & Hex & Hr). exists w'. split; [done |].
    rewrite (filter_none _ (segments skb)); [done |]. intros s Hin [_ Hlt].
    apply list_elem_of_fmap in Hin as (j & -> & Hj). apply elem_of_seqZ in Hj. simpl in Hlt.
    unfold seg_len in Hlt. lia. }
  destruct (resend_segs_spec rpc sk peer skb (Z.to_nat (info_data_bytes skb)) 0 w)
    as (w1 & stop & Hex & Hst1 & Hstop); try done; try lia.
  rewrite !Z.mul_0_l, !Z.add_0_r, Z.sub_0_r in Hex. fold (skb_seg skb).
  rewrite (bind_eq _ _ _ _ _ Hex). destruct stop.
  - exists w1. specialize (Hstop eq_refl). rewrite (pkts_above pkts _ _ Ht Hf), app_nil_r by lia. by split.
  - destruct (IH w1 _ _ ltac:(by eapply resend_pre_step) Hf Ht) as (w' & Hex' & Hst').
    exists w'. split; [done |]. by eapply resend_step_app.
Qed.
End Resend.

(** Every byte of the packets is in a segment. *)
Lemma segments_cover D pkts : forall off e b,
  tiled off pkts e -> Forall (skb_ok D) pkts -> off <= b < e ->
  exists s, s ∈ pkts ≫= segments /\ s.1 <= b < s.1 + s.2.
Proof.
  induction pkts as [|skb pkts IH]; intros off e b Ht Hf Hb; simpl in Ht; [lia |].
  destruct Ht as [Ho Ht]. apply Forall_cons in Hf as [Hok Hf]. csimpl.
  destruct (Z.lt_ge_cases b (off + info_data_bytes skb)) as [Hlt | Hge].
  - pose proof (so_seg _ _ Hok) as Hs. set (k := (b - off) / skb_seg skb).
    pose proof (Z.mul_div_le (b - off) (skb_seg skb) Hs) as H1. fold k in H1.
    pose proof (Z.mul_succ_div_gt (b - off) (skb_seg skb) Hs) as H2. fold k in H2.
    assert (0 <= k) by (apply Z.div_pos; lia).
    eexists. split; [apply elem_of_app; left; apply list_elem_of_fmap; exists k; split; [done |] |].
    + apply elem_of_seqZ. pose proof (seg_exists (info_data_bytes skb) _ k Hs) as [_ Hse]. split; [lia |].
      apply Z.lt_le_trans with (Z.succ k); [lia |].
      assert (k < (info_data_bytes skb + skb_seg skb - 1) / skb_seg skb) by (apply Hse; nia). lia.
    + simpl. unfold seg_len. nia.
  - destruct (IH _ _ b Ht Hf ltac:(lia)) as (s & Hs & Hb'). exists s. split; [|done].
    apply elem_of_app. by right.
Qed.

Lemma segments_nonneg D mo x : out_ok D mo -> x ∈ mo_packets mo ≫= segments -> 0 <= x.1.
Proof.
  intros Hok Hx. apply list_elem_of_bind in Hx as (skb & Hx & Hskb). apply list_elem_of_fmap in Hx as (j & -> & Hj).
  apply elem_of_seqZ in Hj. pose proof (oo_skbs _ _ Hok) as Hall. rewrite Forall_forall in Hall.
  destruct (Hall _ Hskb) as [? ? _ _ _ _ _ _ _]. simpl. nia.
Qed.

Lemma resend_data_spec env D p start end_ pr w rpc sk peer :
  tx_ok env -> resend_pre p pr w rpc sk peer -> out_ok D (rpc_msgout rpc) -> start < end_ ->
  exists w' sent, homa_resend_data env p start end_ pr w = Ok (tt, w') /\
    out_frame p w w' /\ w_rpcs w' = w_rpcs w /\
    h_throttled_rpcs (w_homa w') = h_throttled_rpcs (w_homa w) /\
    host_xmit (w_host w') = host_xmit (w_host w) ++ map (fun s => (rpc_peer rpc, pr, s)) sent /\
    Forall2 (resent D (rpc_msgout rpc))
      (filter (wanted start end_) (mo_packets (rpc_msgout rpc) ≫= segments)) sent /\
    (forall b, start <= b < end_ -> 0 <= b < mo_copied_from_user (rpc_msgout rpc) ->
     exists s, s ∈ sent /\ info_offset s <= b < info_offset s + info_data_bytes s /\
       out_body s !! Z.to_nat (b - info_offset s) = D !! Z.to_nat b).
Proof.
  intros He Hpre Hok Hlt. unfold homa_resend_data. destruct (Z.leb_spec end_ start); [lia |].
  rewrite (bind_eq _ _ _ _ _ (get_rpc_eq _ _ _ (rp_rpc _ _ _ _ _ _ Hpre))).
  destruct (resend_pkts_spec env D p start end_ pr He rpc sk peer _ w _ _ Hpre (oo_skbs _ _ Hok)
    (oo_tiled _ _ Hok)) as (w' & Hex & [Hf Hr Ht (sent & Hl & H2)]).
  exists w', sent. split_ands; try done. intros b Hb1 Hb2.
  destruct (segments_cover D _ _ _ b (oo_tiled _ _ Hok) (oo_skbs _ _ Hok) Hb2) as (x & Hx & Hbx).
  assert (x ∈ filter (wanted start end_) (mo_packets (rpc_msgout rpc) ≫= segments)) as Hin
    by (apply list_elem_of_filter; split; [unfold wanted; lia | done]).
  apply list_elem_of_lookup in Hin as (i & Hi).
  destruct (Forall2_lookup_l _ _ _ _ _ H2 Hi) as (s & Hs & [Ho Hn Hbd _ _ _ _ _ _]).
  exists s. split; [by eapply list_elem_of_lookup_2 |]. rewrite Ho, Hn, Hbd. split; [done |].
  pose proof (segments_nonneg _ _ _ Hok Hx) as Hx0.
  rewrite slice_lookup by lia. do 2 f_equal. lia.
Qed.

(** C33: [homa_resend_data] terminates without a fault.  For the requested range
    it hands to IP, in order, one packet for each segment of the message that
    contains a requested byte and none for the others, marked as a
    retransmission and with the segment's data; in particular every requested
    byte that is in a packet is sent again.  The message, the other RPCs and
    the throttled list do not change. *)
Theorem resend_data_correct env D p start end_ pr w rpc sk peer :
  tx_ok env -> resend_pre p pr w rpc sk peer -> out_ok D (rpc_msgout rpc) -> start < end_ ->
  exists w' sent, homa_resend_data env p start end_ pr w = Ok (tt, w') /\
    out_frame p w w' /\ w_rpcs w' = w_rpcs w /\
    h_throttled_rpcs (w_homa w') = h_throttled_rpcs (w_homa w) /\
    host_xmit (w_host w') = host_xmit (w_host w) ++ map (fun s => (rpc_peer rpc, pr, s)) sent /\
    Forall2 (resent D (rpc_msgout rpc))
      (filter (wanted start end_) (mo_packets (rpc_msgout rpc) ≫= segments)) sent /\
    (forall b, start <= b < end_ -> 0 <= b < mo_copied_from_user (rpc_msgout rpc) ->
     exists s, s ∈ sent /\ info_offset s <= b < info_offset s + info_data_bytes s /\
       out_body s !! Z.to_nat (b - info_offset s) = D !! Z.to_nat b).
Proof. apply resend_data_spec. Qed.

Lemma resend_data_correct_witness :
  exists w' sent, homa_resend_data ex_env 21%positive 2 4 3 ex_out_world = Ok (tt, w') /\
    host_xmit (w_host w') = map (fun s => (1%positive, 3, s)) sent /\
    map (fun s => (info_offset s, info_data_bytes s)) sent = [(0, 3); (3, 2)].
Proof.
  destruct (resend_data_correct ex_env [1; 2; 3; 4; 5] 21%positive 2 4 3 ex_out_world ex_out_rpc ex_sock ex_out_peer)
    as (w' & sent & H & _ & _ & _ & Hl & H2 & _).
  - exact ex_env_ok.
  - constructor; vm_compute; try reflexivity. split; congruence.
  - exact ex_out_ok.
  - lia.
  - exists w', sent. split; [exact H |]. split; [exact Hl |].
    vm_compute in H2. inversion H2 as [|? ? ? ? [] H3]; subst. inversion H3 as [|? ? ? ? [] H4]; subst.
    inversion H4; subst. simpl in *. congruence.
Defined.
