(* ===== verification/Sock.v ===== *)
(** * The socket table (homa_sock.c)

    The hash table from ports to sockets, iteration over it, and the
    operations that enter, move, find and remove sockets.  Several sockets may
    share a port: a listening socket and those peeled off from it, which are
    connected to one remote host each. *)
From S2P Require Import Prelude Lists Wire Types Example Outgoing.

Definition HOMA_SOCKTAB_BUCKETS : Z := 1024.
Definition HOMA_CLIENT_RPC_BUCKETS : Z := 1024.
Definition HOMA_SERVER_RPC_BUCKETS : Z := 1024.
Definition HOMA_MIN_DEFAULT_PORT : Z := 32768.
Definition AF_INET : Z := 2.
Definition AF_INET6 : Z := 10.

(** ** Access to the table *)
Definition get_socktab : M homa_socktab := fun w => Ok (w_socktab w, w).
Definition upd_socktab (f : homa_socktab -> homa_socktab) : M unit := fun w =>
  Ok (tt, w <| w_socktab ::= f |>).

Definition homa_port_hash (port : Z) : Z := Z.land port (HOMA_SOCKTAB_BUCKETS - 1).

(** The chain of a bucket; buckets that are not in the map are empty. *)
Definition st_chain (st : homa_socktab) (b : Z) : list ptr := default [] (st_buckets st !! b).

Definition sock_bucket (b : Z) : M (list ptr) :=
  if (0 <=? b) && (b <? HOMA_SOCKTAB_BUCKETS)
  then (let* st := get_socktab in ret (st_chain st b)) else raise ArrayBounds.

Definition set_chain (b : Z) (l : list ptr) : M unit :=
  upd_socktab (fun st => st <| st_buckets ::= insert b l |>).

(** [hlist_next_rcu] of the links of a socket: a socket in the table is in
    the bucket of its port. *)
Definition hlist_next (p : ptr) : M (option ptr) :=
  let* sk := get_sock p in
  let* chain := sock_bucket (homa_port_hash (sk_port sk)) in
  if bool_decide (p ∈ chain) then ret (head (split_at p chain).2) else raise BadPointer.

Definition hlist_add_head (p : ptr) : M unit :=
  let* sk := get_sock p in
  let b := homa_port_hash (sk_port sk) in
  let* chain := sock_bucket b in set_chain b (p :: chain).

Definition hlist_del (p : ptr) : M unit :=
  let* sk := get_sock p in
  let b := homa_port_hash (sk_port sk) in
  let* chain := sock_bucket b in
  if bool_decide (p ∈ chain) then set_chain b (unlink p chain) else raise BadPointer.

Definition homa_socktab_init : M unit :=
  upd_socktab (fun _ => Build_homa_socktab ∅ ∅).

(** ** Iteration

    A scan is the local variable of the function that iterates; [s] is its
    address. *)
Definition get_scan (s : ptr) : M homa_socktab_scan := fun w =>
  match st_active_scans (w_socktab w) !! s with
  | Some sc => Ok (sc, w)
  | None => Fault BadPointer
  end.
Definition set_scan (s : ptr) (sc : homa_socktab_scan) : M unit :=
  upd_socktab (fun st => st <| st_active_scans ::= insert s sc |>).

(** The loop that looks for a bucket that is not empty. *)
Fixpoint next_bucket (fuel : nat) (sc : homa_socktab_scan) : M homa_socktab_scan :=
  match scan_next sc with
  | Some _ => ret sc
  | None =>
      match fuel with
      | O => raise OutOfFuel
      | S fuel =>
          let b := scan_current_bucket sc + 1 in
          if b >=? HOMA_SOCKTAB_BUCKETS then ret (Build_homa_socktab_scan b None)
          else let* chain := sock_bucket b in
               next_bucket fuel (Build_homa_socktab_scan b (head chain))
      end
  end.

Definition homa_socktab_next (s : ptr) : M (option ptr) :=
  let* sc := get_scan s in
  let* sc := next_bucket (S (Z.to_nat (HOMA_SOCKTAB_BUCKETS - scan_current_bucket sc))) sc in
  match scan_next sc with
  | None => set_scan s sc ;;; ret None
  | Some p =>
      let* n := hlist_next p in
      set_scan s (sc <| scan_next := n |>) ;;; ret (Some p)
  end.

Definition homa_socktab_start_scan (s : ptr) : M (option ptr) :=
  set_scan s (Build_homa_socktab_scan (-1) None) ;;; homa_socktab_next s.

Definition homa_socktab_end_scan (s : ptr) : M unit :=
  upd_socktab (fun st => st <| st_active_scans ::= delete s |>).

(** [homa_sock_unlink]: the scans that are at the socket advance. *)
Definition homa_sock_unlink (hsk : ptr) : M unit :=
  let* n := hlist_next hsk in
  upd_socktab (fun st => st <| st_active_scans ::= fmap (fun sc =>
    if bool_decide (scan_next sc = Some hsk) then sc <| scan_next := n |> else sc) |>) ;;;
  hlist_del hsk.

(** ** Search *)
Fixpoint find_port (port : Z) (chain : list ptr) : M (option ptr) :=
  match chain with
  | [] => ret None
  | p :: chain' =>
      let* sk := get_sock p in
      if sk_port sk =? port then ret (Some p) else find_port port chain'
  end.

Definition homa_sock_find (port : Z) : M (option ptr) :=
  let* chain := sock_bucket (homa_port_hash port) in find_port port chain.

(** The tests of [homa_sock_find_connected] on one socket: whether it is
    connected to [remote], and whether it may take packets from anyone. *)
Definition matches_remote (family : Z) (remote : Z * Z) (port : Z) (sk : homa_sock) : bool :=
  (sk_port sk =? port) && (sk_family sk =? family) &&
  ((sk_family sk =? AF_INET) || (sk_family sk =? AF_INET6)) &&
  ((sk_remote_host sk).2 =? remote.2) && ((sk_remote_host sk).1 =? remote.1).
Definition listens (port : Z) (sk : homa_sock) : bool :=
  (sk_port sk =? port) && negb (sk_connect sk).

Fixpoint find_connected (family : Z) (remote : Z * Z) (port : Z) (listen : option ptr)
    (chain : list ptr) : M (option ptr) :=
  match chain with
  | [] => ret listen
  | p :: chain' =>
      let* sk := get_sock p in
      if matches_remote family remote port sk then ret (Some p)
      else find_connected family remote port (if listens port sk then Some p else listen) chain'
  end.

Definition homa_sock_find_connected (family : Z) (remote : Z * Z) (port : Z) : M (option ptr) :=
  let* chain := sock_bucket (homa_port_hash port) in
  find_connected family remote port None chain.

(** ** Creation and binding *)

(** The loop that chooses the port of a new socket; [next_client_port] is a
    16-bit integer. *)
Fixpoint choose_port (fuel : nat) : M unit :=
  let* h := get_homa in
  (if h_next_client_port h <? HOMA_MIN_DEFAULT_PORT
   then upd_homa (fun h => h <| h_next_client_port := HOMA_MIN_DEFAULT_PORT |>) else ret tt) ;;;
  let* h := get_homa in
  let* owner := homa_sock_find (h_next_client_port h) in
  match owner with
  | None => ret tt
  | Some _ =>
      match fuel with
      | O => raise OutOfFuel
      | S fuel =>
          upd_homa (fun h => h <| h_next_client_port ::= fun p => u16 (p + 1) |>) ;;;
          choose_port fuel
      end
  end.

(** The socket structure after [homa_sock_init]; [mem] is the structure that
    the host has initialised, [pool] whether there is memory for the buffer
    pool. *)
Definition sock_fields (h : homa) (port : Z) (pool : bool) (mem : homa_sock) : homa_sock := {|
  sk_family := sk_family mem;
  sk_tcp := if h_hijack_tcp h =? 0 then sk_tcp mem else true;
  sk_protect_count := 0; sk_shutdown := false; sk_port := port;
  sk_ip_header_length := if sk_family mem =? AF_INET
    then HOMA_IPV4_HEADER_LENGTH else HOMA_IPV6_HEADER_LENGTH;
  sk_active_rpcs := []; sk_dead_rpcs := []; sk_dead_skbs := 0;
  sk_waiting_for_bufs := []; sk_ready_requests := []; sk_ready_responses := [];
  sk_request_interests := []; sk_response_interests := [];
  sk_client_rpc_buckets := replicate (Z.to_nat HOMA_CLIENT_RPC_BUCKETS) [];
  sk_server_rpc_buckets := replicate (Z.to_nat HOMA_SERVER_RPC_BUCKETS) [];
  sk_has_pool := pool; sk_buffer_pool := Build_homa_pool 0 0 [] 0 0 [] 0;
  sk_remote_host := (0, 0); sk_connect := false
|}.

Definition homa_sock_init (fuel : nat) (p : ptr) (pool : bool) : M Z :=
  choose_port fuel ;;;
  let* h := get_homa in
  upd_sock p (sock_fields h (h_next_client_port h) pool) ;;;
  upd_homa (fun h => h <| h_next_client_port ::= fun p => u16 (p + 1) |>) ;;;
  hlist_add_head p ;;;
  ret (if pool then 0 else - ENOMEM).

Definition homa_sock_bind (hsk : ptr) (port : Z) : M Z :=
  if port =? 0 then ret 0
  else if port >=? HOMA_MIN_DEFAULT_PORT then ret (- EINVAL)
  else
  let* sk := get_sock hsk in
  if sk_shutdown sk then ret (- ESHUTDOWN) else
  let* owner := homa_sock_find port in
  match owner with
  | Some o => ret (if bool_decide (o = hsk) then 0 else - EADDRINUSE)
  | None =>
      hlist_del hsk ;;;
      upd_sock hsk (fun sk => sk <| sk_port := port |>) ;;;
      hlist_add_head hsk ;;;
      ret 0
  end.

(** ** Invariant

    A socket in a chain is in the bucket of its port, once; a scan that is
    not between buckets is at a socket of its bucket. *)
Definition chain (w : world) (b : Z) : list ptr := st_chain (w_socktab w) b.
Definition in_table (w : world) (p : ptr) : Prop := exists b, p ∈ chain w b.

Record socktab_ok (w : world) : Prop := {
  sto_sock : forall b p, p ∈ chain w b ->
    exists sk, w_socks w !! p = Some sk /\ homa_port_hash (sk_port sk) = b;
  sto_nodup : forall b, NoDup (chain w b);
  sto_scan : forall s sc, st_active_scans (w_socktab w) !! s = Some sc ->
    -1 <= scan_current_bucket sc /\
    forall p, scan_next sc = Some p -> p ∈ chain w (scan_current_bucket sc)
}.

Lemma port_hash_range port : 0 <= homa_port_hash port < HOMA_SOCKTAB_BUCKETS.
Proof.
  unfold homa_port_hash, HOMA_SOCKTAB_BUCKETS.
  change (1024 - 1) with (Z.ones 10). rewrite Z.land_ones by lia. apply Z.mod_pos_bound. lia.
Qed.

Lemma sock_bucket_eq b w : 0 <= b < HOMA_SOCKTAB_BUCKETS -> sock_bucket b w = Ok (chain w b, w).
Proof. intros Hb. unfold sock_bucket. zb; simpl; try lia. done. Qed.

Lemma sto_bucket w b p : socktab_ok w -> p ∈ chain w b -> 0 <= b < HOMA_SOCKTAB_BUCKETS.
Proof. intros Hok Hp. destruct (sto_sock _ Hok _ _ Hp) as (sk & _ & <-). apply port_hash_range. Qed.

(** A socket is in one bucket only. *)
Lemma sto_unique w b b' p : socktab_ok w -> p ∈ chain w b -> p ∈ chain w b' -> b = b'.
Proof.
  intros Hok H H'. destruct (sto_sock _ Hok _ _ H) as (sk & Hs & <-).
  destruct (sto_sock _ Hok _ _ H') as (sk' & Hs' & <-). congruence.
Qed.

Lemma hlist_next_eq w b p :
  socktab_ok w -> p ∈ chain w b -> hlist_next p w = Ok (head (split_at p (chain w b)).2, w).
Proof.
  intros Hok Hp. destruct (sto_sock _ Hok _ _ Hp) as (sk & Hs & Hb). unfold hlist_next. step.
  rewrite (bind_eq _ _ _ _ _ (sock_bucket_eq _ _ (port_hash_range _))), Hb.
  by rewrite bool_decide_true.
Qed.

(** ** The sockets that a scan has yet to return *)
Definition rest_of (l : list ptr) (p : ptr) : list ptr := p :: (split_at p l).2.
Definition chains_from (w : world) (b : Z) : list ptr :=
  seqZ b (HOMA_SOCKTAB_BUCKETS - b) ≫= chain w.
Definition ahead (w : world) (sc : homa_socktab_scan) : list ptr :=
  match scan_next sc with
  | Some p => rest_of (chain w (scan_current_bucket sc)) p
  | None => []
  end ++ chains_from w (scan_current_bucket sc + 1).

Lemma rest_of_head p (l : list ptr) : head l = Some p -> rest_of l p = l.
Proof.
  destruct l as [|q l]; [done |]. intros [= ->]. unfold rest_of. simpl. by rewrite bool_decide_true.
Qed.

Lemma rest_of_split p pre post : p ∉ pre -> rest_of (pre ++ p :: post) p = p :: post.
Proof. intros Hp. unfold rest_of. by rewrite split_at_app. Qed.

Lemma chains_from_cons w b :
  b < HOMA_SOCKTAB_BUCKETS -> chains_from w b = chain w b ++ chains_from w (b + 1).
Proof.
  intros Hb. unfold chains_from. rewrite seqZ_cons by lia. csimpl. do 3 f_equal. lia.
Qed.

Lemma chains_from_nil w b : HOMA_SOCKTAB_BUCKETS <= b -> chains_from w b = [].
Proof. intros Hb. unfold chains_from. by rewrite seqZ_nil by lia. Qed.

Lemma elem_of_chains_from w b p :
  socktab_ok w -> p ∈ chains_from w b <-> exists c, b <= c /\ p ∈ chain w c.
Proof.
  intros Hok. unfold chains_from. rewrite list_elem_of_bind. split.
  - intros (c & Hp & Hc). apply elem_of_seqZ in Hc. exists c. split; [lia | done].
  - intros (c & Hc & Hp). exists c. split; [done |]. apply elem_of_seqZ.
    pose proof (sto_bucket _ _ _ Hok Hp). lia.
Qed.

Lemma next_bucket_spec w fuel : forall sc,
  socktab_ok w -> -1 <= scan_current_bucket sc ->
  (Z.to_nat (HOMA_SOCKTAB_BUCKETS - scan_current_bucket sc) < fuel)%nat ->
  exists sc', next_bucket fuel sc w = Ok (sc', w) /\ ahead w sc' = ahead w sc /\
    -1 <= scan_current_bucket sc' /\
    match scan_next sc' with
    | Some p => scan_next sc = Some p /\ sc' = sc \/ p ∈ chain w (scan_current_bucket sc')
    | None => ahead w sc = []
    end.
Proof.
  induction fuel as [|fuel IH]; intros sc Hok Hb Hf; [lia |]. cbn [next_bucket].
  destruct (scan_next sc) as [p|] eqn:Hn; [exists sc; rewrite Hn; split_ands; by auto |].
  destruct (Z.geb_spec (scan_current_bucket sc + 1) HOMA_SOCKTAB_BUCKETS) as [Hge | Hlt].
  { assert (forall x, HOMA_SOCKTAB_BUCKETS <= x + 1 -> chains_from w (x + 1) = []) as Hnil
      by (intros x Hx; apply chains_from_nil; lia).
    eexists. split; [reflexivity |]. unfold ahead. simpl. rewrite Hn, !Hnil by lia.
    split_ands; [done | lia | done]. }
  erewrite bind_eq by (apply sock_bucket_eq; lia).
  set (sc1 := Build_homa_socktab_scan _ _).
  assert (ahead w sc1 = ahead w sc) as Ha.
  { unfold ahead. rewrite Hn. simpl. rewrite (chains_from_cons w (scan_current_bucket sc + 1)) by lia.
    destruct (head (chain w _)) as [q|] eqn:Hh; [by rewrite rest_of_head |].
    by rewrite (proj1 (head_None _) Hh). }
  destruct (IH sc1) as (sc' & Hex & Ha' & Hb' & Hm); [done | simpl; lia | simpl; lia |].
  exists sc'. rewrite Ha' in *. split_ands; [done | done | done |].
  destruct (scan_next sc') as [q|] eqn:Hq; [|by rewrite <- Ha].
  right. destruct Hm as [[Hh ->] |]; [|done]. simpl in *. by apply head_Some_elem_of.
Qed.

Definition with_scan (s : ptr) (sc : homa_socktab_scan) (w : world) : world :=
  w <| w_socktab ::= fun st => st <| st_active_scans ::= insert s sc |> |>.

(** One step of a scan: it returns the first socket of those ahead. *)
Lemma socktab_next_spec s sc w :
  socktab_ok w -> st_active_scans (w_socktab w) !! s = Some sc ->
  exists sc', homa_socktab_next s w = Ok (head (ahead w sc), with_scan s sc' w) /\
    ahead w sc' = tail (ahead w sc) /\ socktab_ok (with_scan s sc' w).
Proof.
  intros Hok Hs. destruct (sto_scan _ Hok _ _ Hs) as [Hb Hn]. unfold homa_socktab_next.
  rewrite (bind_eq _ _ _ sc w) by (unfold get_scan; by rewrite Hs).
  destruct (next_bucket_spec w (S (Z.to_nat (HOMA_SOCKTAB_BUCKETS - scan_current_bucket sc))) sc)
    as (sc1 & Hex & Ha & Hb1 & Hm); [done | done | lia |].
  rewrite (bind_eq _ _ _ _ _ Hex). destruct (scan_next sc1) as [p|] eqn:Hp.
  - assert (p ∈ chain w (scan_current_bucket sc1)) as Hin
      by (destruct Hm as [[? ->] |]; [by apply Hn | done]).
    rewrite (bind_eq _ _ _ _ _ (hlist_next_eq _ _ _ Hok Hin)).
    apply list_elem_of_split_l in Hin as (pre & post & Hc & Hpre).
    exists (sc1 <| scan_next := head post |>). rewrite Hc, split_at_app by done. rewrite <- Ha.
    unfold ahead. rewrite Hp, Hc, rest_of_split by done. split; [done |]. simpl. rewrite Hc.
    pose proof (sto_nodup _ Hok (scan_current_bucket sc1)) as Hnd. rewrite Hc in Hnd.
    apply NoDup_app in Hnd as (_ & Hd & Hnd). split.
    + f_equal. destruct post as [|q post]; [done |]. simpl. rewrite (cons_middle p), app_assoc.
      apply rest_of_split. apply NoDup_cons in Hnd as [Hq _].
      intros [? | ->%list_elem_of_singleton]%elem_of_app; [|set_solver].
      eapply Hd; [done |]. set_solver.
    + destruct Hok as [H1 H2 H3]. constructor; [done | done |]. simpl. intros s' sc'.
      rewrite lookup_insert_Some. intros [[-> <-] | [_ ?]]; [|by eapply H3]. simpl.
      split; [done |]. intros q Hq. change (chain (with_scan _ _ _)) with (chain w). rewrite Hc.
      destruct post; set_solver.
  - exists sc1. rewrite Hm. split; [done |]. rewrite Ha, Hm. split; [done |].
    destruct Hok as [H1 H2 H3]. constructor; [done | done |]. simpl. intros s' sc'.
    rewrite lookup_insert_Some. intros [[-> <-] | [_ ?]]; [|by eapply H3]. by rewrite Hp.
Qed.

Lemma filter_bind {A B} (P : B -> Prop) `{!forall x, Decision (P x)} (f : A -> list B) (l : list A) :
  filter P (l ≫= f) = l ≫= (fun x => filter P (f x)).
Proof. induction l as [|x l IH]; csimpl; [done |]. by rewrite filter_app, IH. Qed.

(** The part of a chain from the successor of [p] on, after [p] is removed. *)
Lemma rest_of_removed p (l : list ptr) :
  NoDup l -> p ∈ l ->
  match head (split_at p l).2 with Some q => rest_of (filter (.≠ p) l) q | None => [] end =
  filter (.≠ p) (rest_of l p).
Proof.
  intros Hnd Hp. apply list_elem_of_split_l in Hp as (pre & post & -> & Hp).
  rewrite split_at_app, rest_of_split by done. simpl. apply NoDup_app in Hnd as (_ & Hd & Hnd).
  apply NoDup_cons in Hnd as [Hpost _].
  rewrite filter_app, !filter_cons_False by tauto.
  rewrite !filter_all by (intros y Hy ->; done).
  destruct post as [|q post]; [done |]. simpl. apply rest_of_split.
  intros Hq. eapply Hd; [done |]. set_solver.
Qed.

Lemma rest_of_filter p q (l : list ptr) :
  q ∈ l -> q ≠ p -> rest_of (filter (.≠ p) l) q = filter (.≠ p) (rest_of l q).
Proof.
  intros Hq Hne. apply list_elem_of_split_l in Hq as (pre & post & -> & Hq).
  rewrite rest_of_split, filter_app, !filter_cons_True by done. apply rest_of_split.
  rewrite list_elem_of_filter. tauto.
Qed.

(** The scan after [hsk] is removed from the table. *)
Lemma ahead_removed hsk b w w' sc :
  socktab_ok w -> hsk ∈ chain w b -> (forall c, chain w' c = filter (.≠ hsk) (chain w c)) ->
  (forall p, scan_next sc = Some p -> p ∈ chain w (scan_current_bucket sc)) ->
  let sc' := if bool_decide (scan_next sc = Some hsk)
    then sc <| scan_next := head (split_at hsk (chain w b)).2 |> else sc in
  ahead w' sc' = filter (.≠ hsk) (ahead w sc) /\
  scan_current_bucket sc' = scan_current_bucket sc /\
  forall q, scan_next sc' = Some q -> q ∈ chain w' (scan_current_bucket sc).
Proof.
  intros Hok Hb Hch Hn sc'. subst sc'. unfold ahead.
  rewrite filter_app. unfold chains_from at 2. rewrite filter_bind.
  case_bool_decide as E; simpl.
  - assert (scan_current_bucket sc = b) as Hcb by (eapply (sto_unique w); [done | by apply Hn | done]).
    rewrite Hcb, Hch, E, rest_of_removed by (done || apply Hok). split_ands; [|done|].
    + f_equal. apply list_bind_ext; [|done]. intros c. apply Hch.
    + intros q Hq. apply list_elem_of_filter.
      pose proof (sto_nodup _ Hok b) as Hnd.
      apply list_elem_of_split_l in Hb as (pre & post & Hl & Hp). rewrite Hl in *.
      rewrite split_at_app in Hq by done. destruct post as [|q' post]; [done |].
      injection Hq as ->. apply NoDup_app in Hnd as (_ & _ & Hnd).
      apply NoDup_cons in Hnd as [Hnd _]. split; [intros ->; apply Hnd |]; set_solver.
  - split_ands; [|done|].
    + f_equal; [|apply list_bind_ext; [intros c; apply Hch | done]].
      destruct (scan_next sc) as [q|] eqn:Eq; [|done]. rewrite Hch.
      apply rest_of_filter; [by apply Hn | congruence].
    + intros q Hq. rewrite Hch. apply list_elem_of_filter. split; [congruence | by apply Hn].
Qed.

(** Unlinking a socket takes it out of what every scan has ahead. *)
Lemma sock_unlink_spec hsk w :
  socktab_ok w -> in_table w hsk ->
  exists st, let w' := w <| w_socktab := st |> in
    homa_sock_unlink hsk w = Ok (tt, w') /\ socktab_ok w' /\
    (forall b, chain w' b = filter (.≠ hsk) (chain w b)) /\
    (forall s sc, st_active_scans (w_socktab w) !! s = Some sc -> exists sc',
       st_active_scans st !! s = Some sc' /\ ahead w' sc' = filter (.≠ hsk) (ahead w sc)).
Proof.
  intros Hok [b Hb]. unfold homa_sock_unlink.
  rewrite (bind_eq _ _ _ _ _ (hlist_next_eq _ _ _ Hok Hb)).
  erewrite bind_eq by reflexivity. set (w1 := w <| w_socktab ::= _ |>).
  destruct (sto_sock _ Hok _ _ Hb) as (sk & Hsk & Hbk). unfold hlist_del.
  assert (w_socks w1 !! hsk = Some sk) as Hs1 by done. step.
  rewrite (bind_eq _ _ _ _ _ (sock_bucket_eq _ _ (port_hash_range _))), Hbk.
  change (chain w1) with (chain w). rewrite bool_decide_true by done.
  rewrite unlink_filter by apply Hok. eexists. cbv zeta. split; [reflexivity |].
  match goal with |- socktab_ok ?W /\ _ => set (w' := W) end.
  assert (forall c, chain w' c = filter (.≠ hsk) (chain w c)) as Hch.
  { intros c. unfold chain, st_chain, w'. simpl. destruct (decide (c = b)) as [-> | Hc].
    - by rewrite lookup_insert_eq.
    - rewrite lookup_insert_ne by done. symmetry. apply filter_all. intros p Hp ->.
      apply Hc. by eapply (sto_unique w). }
  assert (forall s sc, st_active_scans (w_socktab w) !! s = Some sc -> exists sc',
    st_active_scans (w_socktab w') !! s = Some sc' /\ ahead w' sc' = filter (.≠ hsk) (ahead w sc) /\
    scan_current_bucket sc' = scan_current_bucket sc /\
    forall q, scan_next sc' = Some q -> q ∈ chain w' (scan_current_bucket sc)) as Hsc.
  { intros s sc Hs. unfold w' at 1. simpl. rewrite lookup_fmap, Hs. eexists. split; [reflexivity |].
    apply ahead_removed; [done | done | done | by apply (sto_scan _ Hok _ _ Hs)]. }
  split; [|split; [done |]].
  - constructor.
    + intros c p Hp. rewrite Hch in Hp. apply list_elem_of_filter in Hp as [_ Hp]. by apply (sto_sock w).
    + intros c. rewrite Hch. by apply NoDup_filter, Hok.
    + intros s sc' Hs'. assert (is_Some (st_active_scans (w_socktab w) !! s)) as [sc Hs].
      { unfold w' in Hs'. simpl in Hs'. rewrite lookup_fmap in Hs'. by destruct (_ !! s). }
      destruct (Hsc s sc Hs) as (sc2 & Hs2 & _ & Hcb & Hn). rewrite Hs' in Hs2. injection Hs2 as <-.
      rewrite Hcb. split; [by eapply Hok | done].
  - intros s sc Hs. destruct (Hsc s sc Hs) as (sc' & ? & ? & _). by exists sc'.
Qed.

(** ** Finding a socket by its port *)
Definition port_used (w : world) (port : Z) : Prop :=
  exists b p sk, p ∈ chain w b /\ w_socks w !! p = Some sk /\ sk_port sk = port.

Lemma find_port_spec w port (l : list ptr) :
  (forall p, p ∈ l -> is_Some (w_socks w !! p)) ->
  exists r, find_port port l w = Ok (r, w) /\
    match r with
    | Some p => p ∈ l /\ exists sk, w_socks w !! p = Some sk /\ sk_port sk = port
    | None => forall p sk, p ∈ l -> w_socks w !! p = Some sk -> sk_port sk <> port
    end.
Proof.
  induction l as [|p l IH]; intros Hl; cbn [find_port].
  - exists None. split; [done |]. set_solver.
  - destruct (Hl p ltac:(set_solver)) as [sk Hs]. step.
    destruct (Z.eqb_spec (sk_port sk) port) as [E | E].
    + exists (Some p). split; [done |]. split; [set_solver | by exists sk].
    + destruct IH as (r & Hex & Hr); [intros q Hq; apply Hl; set_solver |].
      exists r. split; [done |]. destruct r as [q|].
      * destruct Hr as [Hq Hr]. split; [set_solver | done].
      * intros q sq [-> | Hq]%elem_of_cons Hsq; [congruence | by eapply Hr].
Qed.

Lemma sock_find_spec w port :
  socktab_ok w -> exists r, homa_sock_find port w = Ok (r, w) /\
    match r with
    | Some p => p ∈ chain w (homa_port_hash port) /\
        exists sk, w_socks w !! p = Some sk /\ sk_port sk = port
    | None => ~ port_used w port
    end.
Proof.
  intros Hok. unfold homa_sock_find.
  rewrite (bind_eq _ _ _ _ _ (sock_bucket_eq _ _ (port_hash_range _))).
  destruct (find_port_spec w port (chain w (homa_port_hash port))) as (r & Hex & Hr).
  { intros p Hp. destruct (sto_sock _ Hok _ _ Hp) as (sk & ? & _). eauto. }
  exists r. split; [done |]. destruct r as [p|]; [done |].
  intros (b & p & sk & Hp & Hs & Hport). destruct (sto_sock _ Hok _ _ Hp) as (sk' & Hs' & Hb).
  rewrite Hs in Hs'. injection Hs' as <-. eapply Hr; [|done|done]. by rewrite <- Hport, Hb.
Qed.

(** ** The port of a new socket *)
Definition with_port (port : Z) (w : world) : world :=
  w <| w_homa ::= fun h => h <| h_next_client_port := port |> |>.

Lemma with_port_id w : with_port (h_next_client_port (w_homa w)) w = w.
Proof. destruct w as [[] ?]. reflexivity. Qed.

Lemma with_port_with_port a b w : with_port a (with_port b w) = with_port a w.
Proof. reflexivity. Qed.

Lemma with_port_ok port w : socktab_ok w -> socktab_ok (with_port port w).
Proof. intros []. by constructor. Qed.

(** The port that is tried next. *)
Definition norm_port (port : Z) : Z :=
  if port <? HOMA_MIN_DEFAULT_PORT then HOMA_MIN_DEFAULT_PORT else port.

Lemma choose_port_step fuel w :
  choose_port fuel w =
  (let* owner := homa_sock_find (norm_port (h_next_client_port (w_homa w))) in
   match owner with
   | None => ret tt
   | Some _ =>
       match fuel with
       | O => raise OutOfFuel
       | S fuel => (upd_homa (fun h => h <| h_next_client_port ::= fun p => u16 (p + 1) |>) ;;;
                    choose_port fuel)
       end
   end) (with_port (norm_port (h_next_client_port (w_homa w))) w).
Proof.
  destruct fuel; cbn [choose_port]; step; unfold norm_port;
    destruct (_ <? _) eqn:E; rewrite ?with_port_id; try step; step; by rewrite ?E.
Qed.

(** The number of ports tried before [q]. *)
Definition port_dist (w : world) (q : Z) : Z :=
  (q - norm_port (h_next_client_port (w_homa w))) mod 32768.

Lemma port_dist_step port q :
  32768 <= q < 65536 -> 32768 <= port < 65536 -> q <> port ->
  (q - norm_port (u16 (port + 1))) mod 32768 = (q - port) mod 32768 - 1.
Proof.
  intros Hq Hp Hne. unfold norm_port, u16, HOMA_MIN_DEFAULT_PORT. change (2 ^ 16) with 65536.
  destruct (decide (port = 65535)) as [-> |].
  - change ((65535 + 1) mod 65536) with 0. simpl. Z.div_mod_to_equations. lia.
  - rewrite (Z.mod_small (port + 1)) by lia. destruct (Z.ltb_spec (port + 1) 32768); [lia |].
    Z.div_mod_to_equations. lia.
Qed.

Lemma norm_port_range port :
  0 <= port < 65536 -> 32768 <= norm_port port < 65536.
Proof. unfold norm_port, HOMA_MIN_DEFAULT_PORT. zb; lia. Qed.

(** The search ends with a free port if there is one. *)
Lemma choose_port_spec q fuel : forall w,
  socktab_ok w -> 0 <= h_next_client_port (w_homa w) < 65536 ->
  32768 <= q < 65536 -> ~ port_used w q -> port_dist w q <= Z.of_nat fuel ->
  exists port, choose_port fuel w = Ok (tt, with_port port w) /\
    32768 <= port < 65536 /\ ~ port_used w port.
Proof.
  unfold port_dist. induction fuel as [|fuel IH]; intros w Hok Hn Hq Hu Hd;
    rewrite choose_port_step; pose proof (norm_port_range _ Hn) as Hr;
    set (port := norm_port _) in *;
    destruct (sock_find_spec (with_port port w) port (with_port_ok _ _ Hok)) as (r & Hex & Hm);
    rewrite (bind_eq _ _ _ _ _ Hex); (destruct r as [p|]; [|by exists port]);
    destruct Hm as [Hp (sk & Hs & Hport)];
    assert (q <> port) as Hne by (intros ->; apply Hu; by exists (homa_port_hash port), p, sk).
  - exfalso. apply Hne. Z.div_mod_to_equations. lia.
  - erewrite bind_eq by reflexivity. set (w1 := _ <| w_homa ::= _ |>).
    destruct (IH w1) as (port' & Hex' & Hr' & Hu'); try done.
    + destruct (with_port_ok port w Hok). by constructor.
    + simpl. unfold u16. apply Z.mod_pos_bound. lia.
    + simpl. rewrite port_dist_step by done. lia.
    + exists port'. by rewrite Hex'.
Qed.

(** When every default port is taken the search does not end. *)
Lemma choose_port_exhausted fuel : forall w,
  socktab_ok w -> 0 <= h_next_client_port (w_homa w) < 65536 ->
  (forall q, 32768 <= q < 65536 -> port_used w q) -> choose_port fuel w = Fault OutOfFuel.
Proof.
  induction fuel as [|fuel IH]; intros w Hok Hn Hall; rewrite choose_port_step;
    pose proof (norm_port_range _ Hn) as Hr; set (port := norm_port _) in *;
    destruct (sock_find_spec (with_port port w) port (with_port_ok _ _ Hok)) as (r & Hex & Hm);
    rewrite (bind_eq _ _ _ _ _ Hex); (destruct r as [p|]; [|by destruct Hm; apply Hall]); [done |].
  erewrite bind_eq by reflexivity. apply IH; [|simpl; unfold u16; apply Z.mod_pos_bound; lia | done].
  destruct (with_port_ok port w Hok). by constructor.
Qed.

(** ** Entering a socket *)
Definition entered (p : ptr) (b : Z) (w w' : world) : Prop :=
  forall c, chain w' c = (if bool_decide (c = b) then [p] else []) ++ chain w c.

Lemma ahead_entered p b w w' sc :
  entered p b w w' -> p ∉ chain w (scan_current_bucket sc) ->
  (forall q, scan_next sc = Some q -> q ∈ chain w (scan_current_bucket sc)) ->
  ahead w' sc = ahead w sc \/ ahead w' sc ≡ₚ p :: ahead w sc.
Proof.
  intros He Hp Hn. unfold ahead.
  assert (match scan_next sc with Some q => rest_of (chain w' (scan_current_bucket sc)) q | None => [] end =
    match scan_next sc with Some q => rest_of (chain w (scan_current_bucket sc)) q | None => [] end) as ->.
  { destruct (scan_next sc) as [q|] eqn:Hq; [|done]. specialize (Hn q eq_refl). rewrite He.
    case_bool_decide; [|done]. simpl. unfold rest_of. simpl.
    rewrite bool_decide_false by (intros ->; done). by destruct (split_at q _). }
  generalize (match scan_next sc with Some q => rest_of (chain w (scan_current_bucket sc)) q | None => [] end).
  intros l. unfold chains_from. set (r := seqZ _ _).
  assert (NoDup r) as Hnd by apply NoDup_seqZ. clearbody r.
  assert ((r ≫= chain w' = r ≫= chain w) \/ (r ≫= chain w' ≡ₚ p :: r ≫= chain w)) as [-> | Hr].
  - clear Hn Hp. induction r as [|c r IH]; [by left |]. apply NoDup_cons in Hnd as [Hc Hnd]. csimpl.
    rewrite (He c). case_bool_decide as E; simpl.
    + right. f_equiv. f_equiv. subst c. clear IH Hnd. induction r as [|d r IH]; [done |]. csimpl.
      rewrite (He d), bool_decide_false by (intros ->; apply Hc; set_solver). simpl.
      f_equiv. apply IH. set_solver.
    + destruct (IH Hnd) as [-> | Hr]; [by left | right]. rewrite Hr. by rewrite Permutation_middle.
  - by left.
  - right. rewrite Hr. by rewrite Permutation_middle.
Qed.

Lemma choose_port_Ok fuel : forall w w1,
  socktab_ok w -> choose_port fuel w = Ok (tt, w1) -> exists port, w1 = with_port port w /\ ~ port_used w port.
Proof.
  induction fuel as [|fuel IH]; intros w w1 Hok H; rewrite choose_port_step in H;
    set (port := norm_port _) in *;
    destruct (sock_find_spec (with_port port w) port (with_port_ok _ _ Hok)) as (r & Hex & Hm);
    rewrite (bind_eq _ _ _ _ _ Hex) in H;
    (destruct r as [p|]; [|injection H as <-; by exists port]); [done |].
  erewrite bind_eq in H by reflexivity. apply IH in H as (port' & -> & Hu).
  - by exists port'.
  - destruct (with_port_ok port w Hok). by constructor.
Qed.

(** The state after a socket has been entered in the table. *)
Definition with_sock (p : ptr) (pool : bool) (mem : homa_sock) (port : Z) (w : world) : world :=
  let h := w_homa w in
  let b := homa_port_hash port in
  w <| w_homa := h <| h_next_client_port := u16 (port + 1) |> |>
    <| w_socks := <[p := sock_fields h port pool mem]> (w_socks w) |>
    <| w_socktab ::= fun st => st <| st_buckets := <[b := p :: chain w b]> (st_buckets st) |> |>.

Lemma with_sock_entered p pool mem port w :
  entered p (homa_port_hash port) w (with_sock p pool mem port w).
Proof.
  intros c. unfold with_sock, chain, st_chain. simpl. case_bool_decide as E.
  - subst c. by rewrite lookup_insert_eq.
  - by rewrite lookup_insert_ne.
Qed.

Lemma with_sock_ok p pool mem port w :
  socktab_ok w -> ~ in_table w p -> socktab_ok (with_sock p pool mem port w).
Proof.
  intros Hok Hp. pose proof (with_sock_entered p pool mem port w) as He.
  destruct Hok as [H1 H2 H3]. constructor.
  - intros b q Hq. rewrite He in Hq. unfold with_sock. simpl.
    destruct (decide (q = p)) as [-> | Hne].
    + rewrite lookup_insert_eq. eexists. split; [done |]. simpl.
      case_bool_decide; [congruence |]. exfalso. apply Hp. by exists b.
    + rewrite lookup_insert_ne by done. apply H1. case_bool_decide; set_solver.
  - intros b. rewrite He. case_bool_decide; [|apply H2]. apply NoDup_cons. split; [|apply H2].
    intros ?. apply Hp. by exists b.
  - intros s sc Hs. destruct (H3 s sc Hs) as [Hb Hn]. split; [done |]. intros q Hq.
    rewrite He. apply elem_of_app. right. by apply Hn.
Qed.

Lemma sock_init_eq fuel p pool w mem port :
  choose_port fuel w = Ok (tt, with_port port w) -> w_socks w !! p = Some mem ->
  homa_sock_init fuel p pool w = Ok (if pool then 0 else - ENOMEM, with_sock p pool mem port w).
Proof.
  intros Hex Hs. unfold homa_sock_init. rewrite (bind_eq _ _ _ _ _ Hex). step.
  rewrite (bind_eq _ _ _ _ _ (upd_sock_eq _ _ _ _ (Hs : w_socks (with_port port w) !! p = Some mem))).
  step. unfold hlist_add_head.
  match goal with |- bind _ _ ?W = _ => assert (w_socks W !! p = Some (sock_fields (w_homa w) port pool mem))
    as Hs' by apply lookup_insert_eq end.
  erewrite bind_eq; [reflexivity |]. rewrite (bind_eq _ _ _ _ _ (get_sock_eq _ _ _ Hs')).
  erewrite bind_eq by (apply sock_bucket_eq, port_hash_range). reflexivity.
Qed.

(** A new socket gets a port that no socket of the table has, in the range
    of default ports, and is entered in the bucket of that port; the table
    stays well formed and no other socket changes.  At most 32768 ports are
    tried.  When all default ports are in use the search never ends. *)
Theorem sock_init_correct fuel p pool w mem q :
  socktab_ok w -> ~ in_table w p -> w_socks w !! p = Some mem ->
  0 <= h_next_client_port (w_homa w) < 65536 ->
  (HOMA_MIN_DEFAULT_PORT <= q < 65536 -> ~ port_used w q -> 32768 <= Z.of_nat fuel ->
   exists port w', homa_sock_init fuel p pool w = Ok (if pool then 0 else - ENOMEM, w') /\
     socktab_ok w' /\ HOMA_MIN_DEFAULT_PORT <= port < 65536 /\ ~ port_used w port /\
     w_socks w' = <[p := sock_fields (w_homa w) port pool mem]> (w_socks w) /\
     entered p (homa_port_hash port) w w') /\
  ((forall r, HOMA_MIN_DEFAULT_PORT <= r < 65536 -> port_used w r) ->
   homa_sock_init fuel p pool w = Fault OutOfFuel).
Proof.
  intros Hok Hp Hs Hn. split.
  - intros Hq Hu Hf. destruct (choose_port_spec q fuel w) as (port & Hex & Hr & Hu'); try done.
    { unfold port_dist. pose proof (Z.mod_pos_bound (q - norm_port (h_next_client_port (w_homa w))) 32768). lia. }
    exists port, (with_sock p pool mem port w). split_ands; try done; try apply Hr.
    + by apply sock_init_eq.
    + by apply with_sock_ok.
    + apply with_sock_entered.
  - intros Hall. unfold homa_sock_init, bind at 1. by rewrite choose_port_exhausted.
Qed.

(** The example socket in the table, and the memory of a second one. *)
Definition ex_socks : world := ex <| w_socks ::= insert 2%positive ex_sock |>.

Lemma ex_socks_chain b p : p ∈ chain ex_socks b -> p = 1%positive /\ b = 99.
Proof.
  unfold chain, st_chain. simpl. destruct (decide (b = 99)) as [-> |].
  - rewrite lookup_singleton_eq. set_solver.
  - rewrite lookup_singleton_ne by done. set_solver.
Qed.

Lemma ex_socks_ok : socktab_ok ex_socks.
Proof.
  constructor.
  - intros b p [-> ->]%ex_socks_chain. exists ex_sock. done.
  - intros b. unfold chain, st_chain. simpl. destruct (decide (b = 99)) as [-> |].
    + rewrite lookup_singleton_eq. apply NoDup_singleton.
    + rewrite lookup_singleton_ne by done. constructor.
  - intros s sc Hs. done.
Qed.

Lemma sock_init_correct_witness :
  exists port w', homa_sock_init (Z.to_nat 32768) 2%positive true ex_socks = Ok (0, w') /\
    socktab_ok w' /\ HOMA_MIN_DEFAULT_PORT <= port < 65536 /\ entered 2%positive (homa_port_hash port) ex_socks w'.
Proof.
  destruct (sock_init_correct (Z.to_nat 32768) 2%positive true ex_socks ex_sock 40000) as [H _].
  - exact ex_socks_ok.
  - intros [b Hb]. apply ex_socks_chain in Hb as [Hb _]. discriminate Hb.
  - reflexivity.
  - vm_compute. split; congruence.
  - destruct H as (port & w' & Hex & Hok & Hr & _ & _ & He).
    + vm_compute. split; congruence.
    + intros (b & p & sk & Hp & Hs & Hport). apply ex_socks_chain in Hp as [-> _].
      injection Hs as <-. discriminate Hport.
    + rewrite Z2Nat.id; lia.
    + exists port, w'. split; [exact Hex |]. split; [exact Hok |]. split; [exact Hr | exact He].
Defined.

(** ** Scans under concurrent changes of the table

    [scan_run s w new l w']: the scan [s] is started in [w]; until [w'] it has
    returned the sockets [l], while in between other threads unlinked sockets,
    created the sockets [new] and ran scans of their own. *)
Inductive scan_run (s : ptr) (w : world) : list ptr -> list ptr -> world -> Prop :=
| run_start o w' :
    homa_socktab_start_scan s w = Ok (o, w') -> scan_run s w [] (option_list o) w'
| run_next new l w1 p w' :
    scan_run s w new l w1 -> homa_socktab_next s w1 = Ok (Some p, w') ->
    scan_run s w new (l ++ [p]) w'
| run_unlink new l w1 p w' :
    scan_run s w new l w1 -> in_table w1 p -> homa_sock_unlink p w1 = Ok (tt, w') ->
    scan_run s w new l w'
| run_init new l w1 fuel p pool r w' :
    scan_run s w new l w1 -> homa_sock_init fuel p pool w1 = Ok (r, w') ->
    scan_run s w (p :: new) l w'
| run_other_start new l w1 s' o w' :
    scan_run s w new l w1 -> s' <> s -> homa_socktab_start_scan s' w1 = Ok (o, w') ->
    scan_run s w new l w'
| run_other_next new l w1 s' o w' :
    scan_run s w new l w1 -> s' <> s -> is_Some (st_active_scans (w_socktab w1) !! s') ->
    homa_socktab_next s' w1 = Ok (o, w') -> scan_run s w new l w'
| run_other_end new l w1 s' w' :
    scan_run s w new l w1 -> s' <> s -> homa_socktab_end_scan s' w1 = Ok (tt, w') ->
    scan_run s w new l w'.

(** What holds at every point of a run. *)
Record scanning (s : ptr) (w : world) (new l : list ptr) (w1 : world) : Prop := {
  sg_ok : socktab_ok w1;
  sg_scan : exists sc, st_active_scans (w_socktab w1) !! s = Some sc /\
    NoDup (l ++ ahead w1 sc) /\
    (forall p, p ∈ l ++ ahead w1 sc -> in_table w p \/ p ∈ new) /\
    forall p, in_table w p -> in_table w1 p -> p ∈ l ++ ahead w1 sc;
  sg_table : forall p, in_table w1 p -> in_table w p \/ p ∈ new
}.

Lemma in_table_chains w p : socktab_ok w -> in_table w p <-> p ∈ chains_from w 0.
Proof.
  intros Hok. rewrite elem_of_chains_from by done. split.
  - intros [b Hb]. exists b. split; [|done]. by apply (sto_bucket w b p Hok).
  - intros (b & _ & Hb). by exists b.
Qed.

Lemma chains_NoDup w l : socktab_ok w -> NoDup l -> NoDup (l ≫= chain w).
Proof.
  intros Hok Hl. induction l as [|b l IH]; [constructor |]. apply NoDup_cons in Hl as [Hb Hl]. csimpl.
  apply NoDup_app. split_ands; [apply Hok | | by apply IH].
  intros p Hp (c & Hp' & Hc)%list_elem_of_bind. apply Hb. by rewrite (sto_unique w b c p).
Qed.

(** Starting a scan puts the whole table ahead of it. *)
Lemma start_scan_spec s w :
  socktab_ok w -> exists sc, homa_socktab_start_scan s w = Ok (head (chains_from w 0), with_scan s sc w) /\
    ahead w sc = tail (chains_from w 0) /\ socktab_ok (with_scan s sc w).
Proof.
  intros Hok. unfold homa_socktab_start_scan. erewrite bind_eq by reflexivity.
  set (sc0 := Build_homa_socktab_scan (-1) None).
  assert (socktab_ok (with_scan s sc0 w)) as Hok0.
  { destruct Hok as [H1 H2 H3]. constructor; [done | done |]. simpl. intros s' sc'.
    rewrite lookup_insert_Some. intros [[-> <-] | [_ ?]]; [|by eapply H3]. split; [simpl; lia | done]. }
  destruct (socktab_next_spec s sc0 (with_scan s sc0 w) Hok0) as (sc & Hex & Ha & Hok1);
    [apply lookup_insert_eq |].
  assert (with_scan s sc (with_scan s sc0 w) = with_scan s sc w) as E
    by (unfold with_scan; simpl; by rewrite insert_insert_eq).
  rewrite E in *. by exists sc.
Qed.

(** A change of another scan does not concern [s]. *)
Lemma scanning_other s w new l w1 w' :
  scanning s w new l w1 -> socktab_ok w' -> (forall b, chain w' b = chain w1 b) ->
  st_active_scans (w_socktab w') !! s = st_active_scans (w_socktab w1) !! s ->
  scanning s w new l w'.
Proof.
  intros [Hok (sc & Hs & Hnd & Hin & Hall) Ht] Hok' Hch Hs'.
  assert (ahead w' sc = ahead w1 sc) as Ha.
  { unfold ahead, chains_from. rewrite Hch. f_equal. by apply list_bind_ext. }
  assert (forall p, in_table w' p <-> in_table w1 p) as Hit
    by (intros p; unfold in_table; by setoid_rewrite Hch).
  constructor; [done | |].
  - exists sc. rewrite Hs', Ha. split_ands; try done. intros p Hp Hp'. by apply Hall, Hit.
  - intros p Hp. by apply Ht, Hit.
Qed.

Lemma sock_init_Ok fuel p pool w r w' :
  socktab_ok w -> homa_sock_init fuel p pool w = Ok (r, w') ->
  exists mem port, w_socks w !! p = Some mem /\ ~ port_used w port /\ w' = with_sock p pool mem port w.
Proof.
  intros Hok H. destruct (choose_port fuel w) as [[[] w1]|] eqn:Hc.
  - destruct (choose_port_Ok _ _ _ Hok Hc) as (port & -> & Hu). destruct (w_socks w !! p) as [mem|] eqn:Hs.
    + rewrite (sock_init_eq _ _ _ _ _ _ Hc Hs) in H. injection H as _ <-. by exists mem, port.
    + exfalso. unfold homa_sock_init in H. rewrite (bind_eq _ _ _ _ _ Hc) in H. revert H. step.
      unfold bind at 1, upd_sock. change (w_socks (with_port port w)) with (w_socks w). by rewrite Hs.
  - exfalso. unfold homa_sock_init, bind at 1 in H. by rewrite Hc in H.
Qed.

Lemma scanning_next s w new l w1 p w' :
  scanning s w new l w1 -> homa_socktab_next s w1 = Ok (Some p, w') -> scanning s w new (l ++ [p]) w'.
Proof.
  intros [Hok (sc & Hs & Hnd & Hin & Hall) Ht] Hx.
  destruct (socktab_next_spec s sc w1 Hok Hs) as (sc' & Hex & Ha & Hok').
  rewrite Hx in Hex. injection Hex as Hh ->.
  destruct (ahead w1 sc) as [|q a] eqn:Hq; [done |]. simpl in *. injection Hh as <-.
  constructor; [done | | done]. exists sc'. split; [apply lookup_insert_eq |].
  change (ahead (with_scan s sc' w1) sc') with (ahead w1 sc'). by rewrite Ha, <- app_assoc.
Qed.

Lemma scanning_unlink s w new l w1 p w' :
  scanning s w new l w1 -> in_table w1 p -> homa_sock_unlink p w1 = Ok (tt, w') ->
  scanning s w new l w'.
Proof.
  intros [Hok (sc & Hs & Hnd & Hin & Hall) Ht] Hp Hx.
  destruct (sock_unlink_spec p w1 Hok Hp) as (st & Hex & Hok' & Hch & Hsc).
  cbv zeta in *. destruct (Hsc s sc Hs) as (sc' & Hs' & Ha).
  assert (w' = w1 <| w_socktab := st |>) as -> by congruence.
  set (w' := w1 <| w_socktab := st |>) in *.
  assert (forall q, in_table w' q -> q <> p /\ in_table w1 q) as Hit.
  { intros q [b Hb]. rewrite Hch in Hb. apply list_elem_of_filter in Hb as [? ?]. split; [done | by exists b]. }
  constructor; [done | | intros q Hq; by apply Ht, Hit].
  exists sc'. rewrite Ha. split_ands; [done | | |].
  - apply NoDup_app in Hnd as (H1 & H2 & H3). apply NoDup_app. split_ands; [done | | by apply NoDup_filter].
    intros q Hq [_ Hq']%list_elem_of_filter. by eapply H2.
  - intros q Hq. apply Hin. apply elem_of_app in Hq as [? | [_ ?]%list_elem_of_filter]; set_solver.
  - intros q Hq Hq'. destruct (Hit q Hq') as [Hne Hq1]. specialize (Hall q Hq Hq1).
    apply elem_of_app in Hall as [? | ?]; apply elem_of_app; [by left | right].
    by apply list_elem_of_filter.
Qed.

Lemma scanning_init s w new l w1 fuel p pool r w' :
  scanning s w new l w1 -> ~ in_table w p -> p ∉ new ->
  homa_sock_init fuel p pool w1 = Ok (r, w') -> scanning s w (p :: new) l w'.
Proof.
  intros [Hok (sc & Hs & Hnd & Hin & Hall) Ht] Hp Hnew Hx.
  destruct (sock_init_Ok _ _ _ _ _ _ Hok Hx) as (mem & port & _ & _ & ->).
  set (w' := with_sock p pool mem port w1).
  assert (~ in_table w1 p) as Hp1 by (intros H; by destruct (Ht p H)).
  pose proof (with_sock_entered p pool mem port w1 : entered p _ w1 w') as He.
  destruct (sto_scan _ Hok _ _ Hs) as [_ Hn].
  assert (forall q, in_table w' q -> q = p \/ in_table w1 q) as Hit.
  { intros q [b Hb]. rewrite He in Hb. apply elem_of_app in Hb as [Hb | Hb]; [|by right; exists b].
    left. case_bool_decide; set_solver. }
  constructor; [by apply with_sock_ok | | intros q Hq; destruct (Hit q Hq) as [-> | Hq1]; set_solver].
  exists sc. split; [done |].
  assert (p ∉ l ++ ahead w1 sc) as Hpl by (intros H; by destruct (Hin p H)).
  destruct (ahead_entered p (homa_port_hash port) w1 w' sc) as [-> | Ha]; try done.
  { intros H. apply Hp1. by exists (scan_current_bucket sc). }
  - split_ands; [done | |].
    + intros q Hq. destruct (Hin q Hq); set_solver.
    + intros q Hq Hq'. destruct (Hit q Hq') as [-> | ?]; [done | by apply Hall].
  - assert (l ++ ahead w' sc ≡ₚ p :: l ++ ahead w1 sc) as E by (rewrite Ha; by rewrite Permutation_middle).
    split_ands; [rewrite E; by apply NoDup_cons | |].
    + intros q Hq. rewrite E in Hq. apply elem_of_cons in Hq as [-> | Hq]; [set_solver |].
      destruct (Hin q Hq); set_solver.
    + intros q Hq Hq'. rewrite E. apply elem_of_cons.
      destruct (Hit q Hq') as [-> | ?]; [by left | right]. by apply Hall.
Qed.

Lemma scanning_run s w new l w1 :
  scan_run s w new l w1 -> socktab_ok w -> NoDup new -> (forall p, p ∈ new -> ~ in_table w p) ->
  scanning s w new l w1.
Proof.
  intros Hrun Hok Hnd Hnew. induction Hrun as
    [o w' Hx | new l w1 p w' _ IH Hx | new l w1 p w' _ IH Hp Hx | new l w1 fuel p pool r w' _ IH Hx |
     new l w1 s' o w' _ IH Hne Hx | new l w1 s' o w' _ IH Hne [sc' Hs'] Hx | new l w1 s' w' _ IH Hne Hx].
  - destruct (start_scan_spec s w Hok) as (sc & Hex & Ha & Hok').
    rewrite Hx in Hex. injection Hex as -> ->.
    assert (option_list (head (chains_from w 0)) ++ tail (chains_from w 0) = chains_from w 0) as E
      by by destruct (chains_from w 0).
    constructor; [done | | by left]. exists sc. split; [apply lookup_insert_eq |].
    change (ahead (with_scan s sc w) sc) with (ahead w sc). rewrite Ha, E. split_ands.
    + apply chains_NoDup; [done | apply NoDup_seqZ].
    + intros p Hp. left. by apply in_table_chains.
    + intros p Hp _. by apply in_table_chains.
  - eapply scanning_next; [by apply IH | done].
  - eapply scanning_unlink; [by apply IH | done | done].
  - apply NoDup_cons in Hnd as [Hp Hnd]. eapply scanning_init; [|apply Hnew; set_solver | done | done].
    apply IH; [done | set_solver].
  - destruct (IH Hnd Hnew) as [Hok1 _ _]. destruct (start_scan_spec s' w1 Hok1) as (sc & Hex & _ & Hok').
    rewrite Hx in Hex. injection Hex as _ ->. eapply scanning_other; [by apply IH | done | done |].
    simpl. by rewrite lookup_insert_ne.
  - destruct (IH Hnd Hnew) as [Hok1 _ _]. destruct (socktab_next_spec s' sc' w1 Hok1 Hs') as (sc & Hex & _ & Hok').
    rewrite Hx in Hex. injection Hex as _ ->. eapply scanning_other; [by apply IH | done | done |].
    simpl. by rewrite lookup_insert_ne.
  - injection Hx as <-. eapply scanning_other; [by apply IH | | done | simpl; by rewrite lookup_delete_ne].
    destruct (IH Hnd Hnew) as [[H1 H2 H3] _ _]. constructor; [done | done |]. simpl. intros t sc.
    rewrite lookup_delete_Some. intros [_ ?]. by eapply H3.
Qed.

(** C38: a scan of the socket table visits every socket.  While it runs, other
    threads may unlink sockets, create sockets and run scans: the scan never
    faults, returns no socket twice and only sockets that are or were in the
    table, and when it ends it has returned every socket that was in the table
    when it started and still is.  The number of sockets returned is bounded,
    so the scan ends. *)
Theorem scan_complete s w new l w1 :
  socktab_ok w -> scan_run s w new l w1 -> NoDup new -> (forall p, p ∈ new -> ~ in_table w p) ->
  exists o w2, homa_socktab_next s w1 = Ok (o, w2) /\ NoDup l /\
    (forall p, p ∈ l -> in_table w p \/ p ∈ new) /\
    (length l <= length (chains_from w 0) + length new)%nat /\
    (o = None -> forall p, in_table w p -> in_table w1 p -> p ∈ l).
Proof.
  intros Hok Hrun Hnd Hnew.
  destruct (scanning_run s w new l w1 Hrun Hok Hnd Hnew) as [Hok1 (sc & Hs & Hl & Hin & Hall) _].
  destruct (socktab_next_spec s sc w1 Hok1 Hs) as (sc' & Hex & _). eexists _, _. split; [exact Hex |].
  apply NoDup_app in Hl as (Hl & _ & _).
  assert (forall p, p ∈ l -> in_table w p \/ p ∈ new) as Hsub by (intros p Hp; apply Hin; set_solver).
  split_ands; [done | done | |].
  - rewrite <- length_app. apply submseteq_length, NoDup_submseteq; [done |].
    intros p Hp. apply elem_of_app. rewrite <- in_table_chains by done. by apply Hsub.
  - intros Ho p Hp Hp1. specialize (Hall p Hp Hp1). destruct (ahead w1 sc); [|done].
    by rewrite app_nil_r in Hall.
Qed.

Lemma scan_complete_witness :
  exists w1 o w2, scan_run 1%positive ex_socks [] [1%positive] w1 /\
    homa_socktab_next 1%positive w1 = Ok (o, w2) /\ (o = None -> forall p, in_table ex_socks p ->
      in_table w1 p -> p ∈ [1%positive]).
Proof.
  destruct (start_scan_spec 1%positive ex_socks ex_socks_ok) as (sc & Hex & _ & _).
  assert (scan_run 1%positive ex_socks [] [1%positive] (with_scan 1%positive sc ex_socks)) as Hrun.
  { apply (run_start _ _ (Some 1%positive)). rewrite Hex. f_equal. }
  destruct (scan_complete 1%positive ex_socks [] [1%positive] _ ex_socks_ok Hrun) as (o & w2 & H & _ & _ & _ & Hall).
  - apply NoDup_nil_2.
  - intros p Hp. apply elem_of_nil in Hp. destruct Hp.
  - exists (with_scan 1%positive sc ex_socks), o, w2. split; [exact Hrun |]. split; [exact H | exact Hall].
Defined.

(** ** Binding *)

(** Three sockets on ports of the same bucket. *)
Definition ex_three : world :=
  ex <| w_socks := {[ 1%positive := ex_sock <| sk_port := 5 |>;
                      2%positive := ex_sock <| sk_port := 1029 |>;
                      3%positive := ex_sock <| sk_port := 2053 |> ]} |>
     <| w_socktab := Build_homa_socktab {[ 5 := [3%positive; 1%positive; 2%positive] ]} ∅ |>.

(** [n] further steps of a scan: the sockets returned. *)
Fixpoint scan_steps (n : nat) (s : ptr) : M (list ptr) :=
  match n with
  | O => ret []
  | S n =>
      let* o := homa_socktab_next s in
      match o with
      | None => ret []
      | Some p => let* l := scan_steps n s in ret (p :: l)
      end
  end.

(** [homa_sock_bind] moves a socket to another bucket without adjusting the
    scans that are at it.  A scan in progress then goes on in the wrong bucket:
    in the example it returns the moved socket twice and never the socket that
    followed it, which is in the table all the time. *)
Theorem bind_breaks_scan :
  exists w w1 w2 w3, homa_socktab_start_scan 9%positive w = Ok (Some 3%positive, w1) /\
    homa_sock_bind 1%positive 900 w1 = Ok (0, w2) /\
    scan_steps 4 9%positive w2 = Ok ([1%positive; 1%positive], w3) /\
    2%positive ∈ chain w 5 /\ 2%positive ∈ chain w2 5 /\ 2%positive ∈ chain w3 5.
Proof.
  exists ex_three. do 3 eexists. split; [vm_compute; reflexivity |].
  split; [vm_compute; reflexivity |]. split; [vm_compute; reflexivity |].
  split_ands; apply (bool_decide_unpack _); vm_compute; exact I.
Qed.

(** ** Demultiplexing *)

(** Socket [p] of the table satisfies [P]. *)
Definition some_sock (w : world) (P : homa_sock -> bool) (p : ptr) : Prop :=
  in_table w p /\ exists sk, w_socks w !! p = Some sk /\ P sk = true.

Lemma find_connected_spec w family remote port (l : list ptr) : forall listen,
  (forall p, p ∈ l -> is_Some (w_socks w !! p)) ->
  exists r, find_connected family remote port listen l w = Ok (r, w) /\
    ((exists p sk, r = Some p /\ p ∈ l /\ w_socks w !! p = Some sk /\ matches_remote family remote port sk = true) \/
     ((forall p sk, p ∈ l -> w_socks w !! p = Some sk -> matches_remote family remote port sk = false) /\
      ((exists p sk, r = Some p /\ p ∈ l /\ w_socks w !! p = Some sk /\ listens port sk = true) \/
       (r = listen /\ forall p sk, p ∈ l -> w_socks w !! p = Some sk -> listens port sk = false)))).
Proof.
  induction l as [|p l IH]; intros listen Hl; cbn [find_connected].
  { exists listen. split; [done |]. right. split; [set_solver |]. right. split; [done | set_solver]. }
  destruct (Hl p ltac:(set_solver)) as [sk Hs]. step.
  destruct (matches_remote family remote port sk) eqn:Hm.
  { exists (Some p). split; [done |]. left. exists p, sk. split_ands; [done | set_solver | done | done]. }
  destruct (IH (if listens port sk then Some p else listen)) as (r & Hex & Hr);
    [intros q Hq; apply Hl; set_solver |].
  exists r. split; [done |]. destruct Hr as [(q & sq & -> & Hq & ? & ?) | [Hno Hr]].
  { left. exists q, sq. split_ands; [done | set_solver | done | done]. }
  right. split; [intros q sq [-> | Hq]%elem_of_cons Hsq; [congruence | by eapply Hno] |].
  destruct Hr as [(q & sq & -> & Hq & ? & ?) | [-> Hr]].
  { left. exists q, sq. split_ands; [done | set_solver | done | done]. }
  destruct (listens port sk) eqn:Hli.
  - left. exists p, sk. split_ands; [done | set_solver | done | done].
  - right. split; [done |]. intros q sq [-> | Hq]%elem_of_cons Hsq; [congruence | by eapply Hr].
Qed.

Lemma on_port_chain w port P p :
  socktab_ok w -> (forall sk, P sk = true -> sk_port sk = port) -> some_sock w P p ->
  p ∈ chain w (homa_port_hash port).
Proof.
  intros Hok HP [[b Hb] (sk & Hs & Hsk)]. destruct (sto_sock _ Hok _ _ Hb) as (sk' & Hs' & Hb').
  rewrite Hs in Hs'. injection Hs' as <-. by rewrite <- (HP sk Hsk), Hb'.
Qed.



(** The state after a socket has moved to another port. *)
Definition rebound (hsk : ptr) (sk : homa_sock) (port : Z) (w w' : world) : Prop :=
  w_socks w' = <[hsk := sk <| sk_port := port |>]> (w_socks w) /\
  (exists bs, w_socktab w' = (w_socktab w) <| st_buckets := bs |>) /\
  (forall b, chain w' b =
     (if bool_decide (b = homa_port_hash port) then [hsk] else []) ++ filter (.≠ hsk) (chain w b)).

Lemma rebound_ok hsk sk port w w' :
  socktab_ok w -> rebound hsk sk port w w' ->
  (forall s sc, st_active_scans (w_socktab w) !! s = Some sc -> scan_next sc <> Some hsk) ->
  socktab_ok w'.
Proof.
  intros [H1 H2 H3] (Hs & (bs & Hst) & Hch) Hsc. constructor.
  - intros b p Hp. rewrite Hch in Hp. rewrite Hs. destruct (decide (p = hsk)) as [-> | Hne].
    + rewrite lookup_insert_eq. eexists. split; [done |]. simpl.
      apply elem_of_app in Hp as [Hp | [? _]%list_elem_of_filter]; [|done].
      case_bool_decide; [done | set_solver].
    + rewrite lookup_insert_ne by done. apply H1.
      apply elem_of_app in Hp as [Hp | [_ ?]%list_elem_of_filter]; [|done]. case_bool_decide; set_solver.
  - intros b. rewrite Hch. case_bool_decide; [|by apply NoDup_filter]. apply NoDup_cons.
    split; [|by apply NoDup_filter]. intros [? _]%list_elem_of_filter. done.
  - intros s sc Hs'. rewrite Hst in Hs'. simpl in Hs'. destruct (H3 s sc Hs') as [Hb Hn]. split; [done |].
    intros p Hp. rewrite Hch. apply elem_of_app. right. apply list_elem_of_filter.
    split; [intros ->; by eapply Hsc | by apply Hn].
Qed.

(** Moving a socket in the table. *)
Lemma move_sock_exec hsk sk port w :
  socktab_ok w -> in_table w hsk -> w_socks w !! hsk = Some sk ->
  exists w', (hlist_del hsk ;;; (upd_sock hsk (fun sk => sk <| sk_port := port |>) ;;;
    hlist_add_head hsk ;;; ret 0)) w = Ok (0, w') /\ rebound hsk sk port w w'.
Proof.
  intros Hok [b0 Hb0] Hs. destruct (sto_sock _ Hok _ _ Hb0) as (sk' & Hs' & Hb).
  rewrite Hs in Hs'. injection Hs' as <-.
  erewrite bind_eq.
  2:{ unfold hlist_del. step. erewrite bind_eq by (apply sock_bucket_eq, port_hash_range).
      rewrite Hb, bool_decide_true by done. rewrite unlink_filter by apply Hok. reflexivity. }
  match goal with |- context [bind (upd_sock _ _) _ ?W] => set (w1 := W) end.
  assert (forall c, chain w1 c = filter (.≠ hsk) (chain w c)) as Hc1.
  { intros c. unfold chain, st_chain, w1. simpl. destruct (decide (c = b0)) as [-> | Hc].
    - by rewrite lookup_insert_eq.
    - rewrite lookup_insert_ne by done. symmetry. apply filter_all. intros p Hp ->.
      apply Hc. by eapply (sto_unique w). }
  rewrite (bind_eq _ _ _ _ _ (upd_sock_eq hsk _ w1 sk Hs)). set (w2 := w1 <| w_socks ::= _ |>).
  assert (w_socks w2 !! hsk = Some (sk <| sk_port := port |>)) as Hs2 by apply lookup_insert_eq.
  eexists. split.
  - erewrite bind_eq; [reflexivity |]. unfold hlist_add_head. step.
    erewrite bind_eq by (apply sock_bucket_eq, port_hash_range). reflexivity.
  - unfold rebound. split_ands; [done | by eexists |]. intros c. unfold chain at 1, st_chain. simpl.
    change (sk_port _) with port. case_bool_decide as E.
    + subst c. rewrite lookup_insert_eq. simpl. f_equal. apply Hc1.
    + rewrite lookup_insert_ne by done. simpl. apply Hc1.
Qed.

(** [homa_sock_bind] gives a socket the requested server port or fails
    without any effect.  It succeeds only for ports below the default range
    that no other socket has; the socket can then be found under that port,
    and the table stays well formed as long as no scan is at the socket. *)
Theorem sock_bind_correct hsk port w sk :
  socktab_ok w -> in_table w hsk -> w_socks w !! hsk = Some sk ->
  (forall s sc, st_active_scans (w_socktab w) !! s = Some sc -> scan_next sc <> Some hsk) ->
  0 <= port < 65536 ->
  exists r w', homa_sock_bind hsk port w = Ok (r, w') /\ socktab_ok w' /\
    ((w' = w /\ (r = 0 /\ (port = 0 \/ some_sock w (fun x => sk_port x =? port) hsk) \/
                 r = - EINVAL /\ HOMA_MIN_DEFAULT_PORT <= port \/
                 r = - ESHUTDOWN /\ sk_shutdown sk = true \/
                 r = - EADDRINUSE /\ exists p, p <> hsk /\ some_sock w (fun x => sk_port x =? port) p)) \/
     (r = 0 /\ 0 < port < HOMA_MIN_DEFAULT_PORT /\ sk_shutdown sk = false /\ ~ port_used w port /\
      rebound hsk sk port w w')).
Proof.
  intros Hok Hin Hs Hsc Hp. unfold homa_sock_bind.
  destruct (Z.eqb_spec port 0) as [-> | H0]; [exists 0, w; split_ands; [done | done | left; tauto] |].
  destruct (Z.geb_spec port HOMA_MIN_DEFAULT_PORT) as [Hge | Hlt].
  { exists (- EINVAL), w. split_ands; [done | done | left; tauto]. }
  step. destruct (sk_shutdown sk) eqn:Hsd.
  { exists (- ESHUTDOWN), w. split_ands; [done | done | left; tauto]. }
  destruct (sock_find_spec w port Hok) as (r & Hex & Hr). rewrite (bind_eq _ _ _ _ _ Hex).
  destruct r as [o|].
  - destruct Hr as [Ho (so & Hso & Hport)].
    assert (some_sock w (fun x => sk_port x =? port) o) as Hss.
    { split; [by exists (homa_port_hash port) |]. exists so. split; [done |]. by apply Z.eqb_eq. }
    eexists _, w. split; [reflexivity |]. split; [done |]. left. split; [done |].
    case_bool_decide as E; [left | right; right; right].
    + split; [done |]. right. by subst.
    + split; [done |]. by exists o.
  - destruct (move_sock_exec hsk sk port w Hok Hin Hs) as (w' & Hex' & Hre). exists 0, w'.
    split; [done |]. split; [by eapply rebound_ok |]. right. split_ands; try done; lia.
Qed.

Lemma sock_bind_correct_witness :
  exists r w', homa_sock_bind 1%positive 700 ex_socks = Ok (r, w') /\ socktab_ok w'.
Proof.
  destruct (sock_bind_correct 1%positive 700 ex_socks ex_sock) as (r & w' & H & Hok & _).
  - exact ex_socks_ok.
  - exists 99. apply list_elem_of_here.
  - reflexivity.
  - intros s sc Hs. discriminate Hs.
  - lia.
  - exists r, w'. split; [exact H | exact Hok].
Defined.
