(* ===== verification/Handoff.v ===== *)
(** * Looking up RPCs and handing them to threads (homa_rpc.c, homa_incoming.c)

    The hash tables of the RPCs of a socket, the threads that wait for
    messages (their interests), and how an RPC whose message needs attention
    is given to one of them or queued. *)
From S2P Require Import Prelude Lists Wire Types Example Outgoing Sock.

Definition HOMA_RECVMSG_REQUEST : Z := 1.
Definition HOMA_RECVMSG_RESPONSE : Z := 2.
Definition HOMA_RECVMSG_NONBLOCKING : Z := 4.

(** ** Hash tables of RPCs *)
Definition client_index (id : Z) : Z := Z.land (Z.shiftr id 1) (HOMA_CLIENT_RPC_BUCKETS - 1).
Definition server_index (id : Z) : Z := Z.land (Z.shiftr id 1) (HOMA_SERVER_RPC_BUCKETS - 1).

Definition homa_client_rpc_bucket (hsk : ptr) (id : Z) : M (list ptr) :=
  let* sk := get_sock hsk in lift (arr (sk_client_rpc_buckets sk) (client_index id)).
Definition homa_server_rpc_bucket (hsk : ptr) (id : Z) : M (list ptr) :=
  let* sk := get_sock hsk in lift (arr (sk_server_rpc_buckets sk) (server_index id)).

Fixpoint find_id (id : Z) (chain : list ptr) : M (option ptr) :=
  match chain with
  | [] => ret None
  | p :: chain' =>
      let* rpc := get_rpc p in
      if rpc_id rpc =? id then ret (Some p) else find_id id chain'
  end.

Definition homa_find_client_rpc (hsk : ptr) (id : Z) : M (option ptr) :=
  let* chain := homa_client_rpc_bucket hsk id in find_id id chain.

(** The address of the peer is read only if the id matches. *)
Definition from_addr (rpc : homa_rpc) (saddr : Z) : M bool :=
  let* peer := get_peer (rpc_peer rpc) in ret (peer_addr peer =? saddr).

Fixpoint find_id_addr (id saddr : Z) (chain : list ptr) : M (option ptr) :=
  match chain with
  | [] => ret None
  | p :: chain' =>
      let* rpc := get_rpc p in
      let* same := (if rpc_id rpc =? id then from_addr rpc saddr else ret false) in
      if (same : bool) then ret (Some p) else find_id_addr id saddr chain'
  end.

Definition homa_find_server_rpc (hsk : ptr) (saddr id : Z) : M (option ptr) :=
  let* chain := homa_server_rpc_bucket hsk id in find_id_addr id saddr chain.

(** ** Interests *)
Definition get_interest (i : ptr) : M homa_interest := fun w =>
  match w_interests w !! i with Some x => Ok (x, w) | None => Fault BadPointer end.
Definition upd_interest (i : ptr) (f : homa_interest -> homa_interest) : M unit := fun w =>
  match w_interests w !! i with
  | Some x => Ok (tt, w <| w_interests ::= insert i (f x) |>)
  | None => Fault BadPointer
  end.
Definition set_interest (i : ptr) (x : homa_interest) : M unit := fun w =>
  Ok (tt, w <| w_interests ::= insert i x |>).

Definition wake_up_process (i : ptr) : M unit :=
  upd_host (fun ho => ho <| host_woken ::= fun l => l ++ [i] |>).
Definition sk_data_ready (hsk : ptr) : M unit :=
  upd_host (fun ho => ho <| host_notified ::= fun l => l ++ [hsk] |>).

(** [homa_interest_init]; [core] is the core that the thread runs on. *)
Definition homa_interest_init (core : Z) : homa_interest := Build_homa_interest 0 core None None.

Fixpoint choose_loop (busy_time : Z) (backup : option ptr) (l : list ptr) : M (option ptr) :=
  match l with
  | [] => ret backup
  | i :: l' =>
      let* x := get_interest i in
      fun w =>
        if host_last_active (w_host w) (int_core x) <? busy_time then Ok (Some i, w)
        else choose_loop busy_time (match backup with None => Some i | Some _ => backup end) l' w
  end.

Definition homa_choose_interest (l : list ptr) : M (option ptr) :=
  let* now := sched_clock in
  let* h := get_homa in
  choose_loop (u64 (now - h_busy_ns h)) None l.

(** The label [thread_waiting] of [homa_rpc_handoff]. *)
Definition give_to (hsk p i : ptr) : M unit :=
  upd_rpc p (flags_or RPC_HANDING_OFF) ;;;
  upd_interest i (fun x => x <| int_locked := 0 |> <| int_ready_rpc := Some p |>) ;;;
  let* x := get_interest i in
  let* now := sched_clock in
  upd_host (fun ho => ho <| host_last_app_active ::= fun f c =>
    if c =? int_core x then now else f c |>) ;;;
  match int_reg_rpc x with
  | Some q => upd_rpc q (fun r => r <| rpc_interest := None |>) ;;;
              upd_interest i (fun x => x <| int_reg_rpc := None |>)
  | None => ret tt
  end ;;;
  upd_sock hsk (fun sk => sk <| sk_request_interests ::= unlink i |>
    <| sk_response_interests ::= unlink i |>) ;;;
  wake_up_process i.

(** [list_empty(&rpc->ready_links)] *)
Definition is_ready (p : ptr) (sk : homa_sock) : bool :=
  bool_decide (p ∈ sk_ready_requests sk) || bool_decide (p ∈ sk_ready_responses sk).

Definition homa_rpc_handoff (p : ptr) : M unit :=
  let* rpc := get_rpc p in
  let hsk := rpc_hsk rpc in
  let* sk := get_sock hsk in
  if negb (Z.land (rpc_flags rpc) RPC_HANDING_OFF =? 0) || is_ready p sk then ret tt else
  match rpc_interest rpc with
  | Some i => give_to hsk p i
  | None =>
      let client := homa_is_client (rpc_id rpc) in
      let* i := homa_choose_interest
        (if client then sk_response_interests sk else sk_request_interests sk) in
      match i with
      | Some i => give_to hsk p i
      | None =>
          upd_sock hsk (fun sk => if client
            then sk <| sk_ready_responses ::= fun l => l ++ [p] |>
            else sk <| sk_ready_requests ::= fun l => l ++ [p] |>) ;;;
          sk_data_ready hsk
      end
  end.

(** ** Waiting for messages *)

(** The label [claim_rpc] of [homa_register_interests]. *)
Definition claim_rpc (hsk p i : ptr) : M Z :=
  upd_sock hsk (fun sk => sk <| sk_ready_requests ::= unlink p |>
    <| sk_ready_responses ::= unlink p |>) ;;;
  let* sk := get_sock hsk in
  (if negb (bool_decide (sk_ready_requests sk = [])) || negb (bool_decide (sk_ready_responses sk = []))
   then sk_data_ready hsk else ret tt) ;;;
  upd_rpc p (flags_or RPC_HANDING_OFF) ;;;
  let* x := get_interest i in
  (if int_locked x =? 0 then
     upd_rpc p (flags_or APP_NEEDS_LOCK) ;;; upd_rpc p (flags_andnot APP_NEEDS_LOCK) ;;;
     upd_interest i (fun x => x <| int_locked := 1 |>)
   else ret tt) ;;;
  upd_rpc p (flags_andnot RPC_HANDING_OFF) ;;;
  upd_interest i (fun x => x <| int_ready_rpc := Some p |>) ;;;
  ret 0.

(** Registration in the lists of the socket, after the part for a specific
    RPC. *)
Definition register_lists (hsk i : ptr) (flags : Z) : M Z :=
  upd_interest i (fun x => x <| int_locked := 0 |>) ;;;
  let* sk := get_sock hsk in
  match (if negb (Z.land flags HOMA_RECVMSG_RESPONSE =? 0) then sk_ready_responses sk else []) with
  | p :: _ => claim_rpc hsk p i
  | [] =>
      (if negb (Z.land flags HOMA_RECVMSG_RESPONSE =? 0)
       then upd_sock hsk (fun sk => sk <| sk_response_interests ::= cons i |>) else ret tt) ;;;
      if Z.land flags HOMA_RECVMSG_REQUEST =? 0 then ret 0 else
      match sk_ready_requests sk with
      | p :: _ =>
          upd_sock hsk (fun sk => sk <| sk_response_interests ::= unlink i |>) ;;;
          claim_rpc hsk p i
      | [] => upd_sock hsk (fun sk => sk <| sk_request_interests ::= cons i |>) ;;; ret 0
      end
  end.

Definition homa_register_interests (core : Z) (hsk i : ptr) (flags id : Z) : M Z :=
  set_interest i ((homa_interest_init core) <| int_locked := 1 |>) ;;;
  if id =? 0 then
    let* sk := get_sock hsk in
    if sk_shutdown sk then ret (- ESHUTDOWN) else register_lists hsk i flags
  else if negb (homa_is_client id) then ret (- EINVAL) else
  let* r := homa_find_client_rpc hsk id in
  match r with
  | None => ret (- EINVAL)
  | Some p =>
      let* rpc := get_rpc p in
      if match rpc_interest rpc with Some j => negb (bool_decide (j = i)) | None => false end
      then ret (- EINVAL) else
      let* sk := get_sock hsk in
      if sk_shutdown sk then ret (- ESHUTDOWN)
      else if negb (Z.land (rpc_flags rpc) RPC_PKTS_READY =? 0) || negb (rpc_error rpc =? 0)
      then claim_rpc hsk p i
      else
        (upd_rpc p (fun r => r <| rpc_interest := Some i |>) ;;;
         upd_interest i (fun x => x <| int_reg_rpc := Some p |>) ;;;
         register_lists hsk i flags)
  end.

(** The clean-up at the label [found_rpc] of [homa_wait_for_message]. *)
Definition clear_interest (hsk i : ptr) : M unit :=
  let* x := get_interest i in
  match int_reg_rpc x with
  | Some p => upd_rpc p (fun r => r <| rpc_interest := None |>)
  | None => ret tt
  end ;;;
  upd_sock hsk (fun sk => sk <| sk_request_interests ::= unlink i |>
    <| sk_response_interests ::= unlink i |>).

(** ** Invariant of the interests

    A thread that can still be given an RPC has none yet; an RPC and the
    thread that waits for it refer to each other. *)
Definition waiting (sk : homa_sock) (i : ptr) : Prop :=
  i ∈ sk_request_interests sk \/ i ∈ sk_response_interests sk.

Record interests_ok (hsk : ptr) (w : world) : Prop := {
  io_sock : exists sk, w_socks w !! hsk = Some sk /\
    NoDup (sk_request_interests sk) /\ NoDup (sk_response_interests sk) /\
    forall i, waiting sk i -> exists x, w_interests w !! i = Some x /\ int_ready_rpc x = None;
  io_reg : forall i x q, w_interests w !! i = Some x -> int_reg_rpc x = Some q ->
    int_ready_rpc x = None /\ exists r, w_rpcs w !! q = Some r /\ rpc_interest r = Some i;
  io_rpc : forall q r i, w_rpcs w !! q = Some r -> rpc_interest r = Some i ->
    exists x, w_interests w !! i = Some x /\ int_reg_rpc x = Some q
}.

Lemma get_interest_eq i w x : w_interests w !! i = Some x -> get_interest i w = Ok (x, w).
Proof. unfold get_interest. by intros ->. Qed.
Lemma upd_interest_eq i f w x :
  w_interests w !! i = Some x -> upd_interest i f w = Ok (tt, w <| w_interests ::= insert i (f x) |>).
Proof. unfold upd_interest. by intros ->. Qed.

Definition flag_set (bit : Z) (rpc : homa_rpc) : bool := negb (Z.land (rpc_flags rpc) bit =? 0).

Lemma flags_or_set bit rpc : 0 < bit -> flag_set bit (flags_or bit rpc) = true.
Proof.
  intros Hb. unfold flag_set, flags_or. simpl. rewrite Z.land_lor_distr_l, Z.land_diag.
  destruct (Z.eqb_spec (Z.lor (Z.land (rpc_flags rpc) bit) bit) 0) as [E |]; [|done].
  apply Z.lor_eq_0_iff in E. lia.
Qed.

Lemma alter_Some {A} (f : A -> A) (k : ptr) (m : gmap ptr A) a :
  m !! k = Some a -> alter f k m = <[k := f a]> m.
Proof.
  intros Hk. apply map_eq. intros j. destruct (decide (j = k)) as [-> |].
  - by rewrite lookup_alter_eq, lookup_insert_eq, Hk.
  - by rewrite lookup_alter_ne, lookup_insert_ne.
Qed.

(** The state of the RPCs after [p] is given to a thread registered for
    [reg]. *)
Definition given_rpcs (p : ptr) (rpc : homa_rpc) (reg : option ptr) (m : gmap ptr homa_rpc)
    : gmap ptr homa_rpc :=
  let m := <[p := flags_or RPC_HANDING_OFF rpc]> m in
  match reg with
  | Some q => alter (fun r => r <| rpc_interest := None |>) q m
  | None => m
  end.

(** [w'] is [w] after the RPC [p] is given to the thread of interest [i]. *)
Record given (hsk p i : ptr) (rpc : homa_rpc) (x : homa_interest) (sk : homa_sock) (w w' : world) : Prop := {
  gv_rpcs : w_rpcs w' = given_rpcs p rpc (int_reg_rpc x) (w_rpcs w);
  gv_interests : w_interests w' =
    <[i := Build_homa_interest 0 (int_core x) None (Some p)]> (w_interests w);
  gv_socks : w_socks w' = <[hsk := sk <| sk_request_interests ::= unlink i |>
    <| sk_response_interests ::= unlink i |>]> (w_socks w);
  gv_woken : host_woken (w_host w') = host_woken (w_host w) ++ [i];
  gv_frame : w_homa w' = w_homa w /\ w_peers w' = w_peers w /\ w_sent w' = w_sent w /\
    w_socktab w' = w_socktab w /\ w_peertab w' = w_peertab w /\
    host_xmit (w_host w') = host_xmit (w_host w) /\
    host_jiffies (w_host w') = host_jiffies (w_host w) /\ w_stack w' = w_stack w
}.

Lemma give_to_exec hsk p i w rpc x sk :
  w_rpcs w !! p = Some rpc -> w_interests w !! i = Some x -> w_socks w !! hsk = Some sk ->
  (forall q, int_reg_rpc x = Some q -> is_Some (w_rpcs w !! q)) ->
  exists w', give_to hsk p i w = Ok (tt, w') /\ given hsk p i rpc x sk w w'.
Proof.
  intros Hp Hi Hs Hreg. unfold give_to. step.
  match goal with |- context [bind (upd_interest _ _) _ ?W] => set (w1 := W) end.
  rewrite (bind_eq _ _ _ _ _ (upd_interest_eq i _ w1 x Hi)). set (w2 := w1 <| w_interests ::= _ |>).
  set (x2 := Build_homa_interest 0 (int_core x) (int_reg_rpc x) (Some p)).
  assert (w_interests w2 !! i = Some x2) as Hi2 by apply lookup_insert_eq.
  rewrite (bind_eq _ _ _ _ _ (get_interest_eq i w2 x2 Hi2)). step.
  erewrite bind_eq by reflexivity. set (w3 := _ <| w_host ::= _ |>).
  change (int_reg_rpc x2) with (int_reg_rpc x). destruct (int_reg_rpc x) as [q|] eqn:Hq.
  - assert (is_Some (w_rpcs w3 !! q)) as [r Hr].
    { simpl. apply lookup_insert_is_Some'. right. by apply Hreg. }
    erewrite bind_eq.
    2:{ rewrite (bind_eq _ _ _ _ _ (upd_rpc_eq q _ w3 r Hr)). by apply upd_interest_eq. }
    erewrite bind_eq by (apply upd_sock_eq; exact Hs).
    eexists. split; [reflexivity |]. constructor; simpl; try done.
    + unfold given_rpcs. rewrite Hq. change (w_rpcs w3) with (<[p := flags_or RPC_HANDING_OFF rpc]> (w_rpcs w)) in Hr.
      by rewrite (alter_Some _ _ _ _ Hr).
    + rewrite !insert_insert_eq. done.
  - rewrite (bind_eq _ _ _ _ _ eq_refl). erewrite bind_eq by (apply upd_sock_eq; exact Hs).
    eexists. split; [reflexivity |]. constructor; simpl; try done.
    + unfold given_rpcs. by rewrite Hq.
    + by rewrite Hq.
Qed.

Lemma given_lookup p rpc reg m q :
  m !! p = Some rpc -> given_rpcs p rpc reg m !! q =
    (fun r => let r := if bool_decide (q = p) then flags_or RPC_HANDING_OFF r else r in
       if bool_decide (reg = Some q) then r <| rpc_interest := None |> else r) <$> m !! q.
Proof.
  intros Hp. unfold given_rpcs.
  assert (<[p := flags_or RPC_HANDING_OFF rpc]> m !! q =
    (fun r => if bool_decide (q = p) then flags_or RPC_HANDING_OFF r else r) <$> m !! q) as H.
  { case_bool_decide as E.
    - subst q. by rewrite lookup_insert_eq, Hp.
    - rewrite lookup_insert_ne by done. by destruct (m !! q). }
  destruct reg as [a|].
  - destruct (decide (a = q)) as [-> | Hne].
    + rewrite lookup_alter_eq, H. destruct (m !! q); simpl; [|done]. by rewrite (bool_decide_true (Some q = _)).
    + rewrite lookup_alter_ne, H by done. destruct (m !! q); simpl; [|done]. by rewrite (bool_decide_false (Some a = _)) by congruence.
  - rewrite H. by destruct (m !! q).
Qed.

Lemma given_ok hsk p i rpc x sk w w' :
  interests_ok hsk w -> w_rpcs w !! p = Some rpc -> w_interests w !! i = Some x ->
  w_socks w !! hsk = Some sk -> given hsk p i rpc x sk w w' -> interests_ok hsk w'.
Proof.
  intros [(sk0 & Hsk & Hn1 & Hn2 & Hw) Hreg Hrpc] Hp Hi Hs [Gr Gi Gs _ _].
  rewrite Hs in Hsk. injection Hsk as <-. constructor.
  - rewrite Gs, Gi. eexists. split; [apply lookup_insert_eq |]. simpl. rewrite !unlink_filter by done.
    split_ands; [by apply NoDup_filter | by apply NoDup_filter |].
    intros j [Hj | Hj]; simpl in Hj; apply list_elem_of_filter in Hj as [Hne Hj];
      rewrite lookup_insert_ne by done; apply Hw; [by left | by right].
  - intros j y q. rewrite Gi. rewrite lookup_insert_Some. intros [[<- <-] | [Hne Hj]] Hq; [done |].
    destruct (Hreg j y q Hj Hq) as [Hr0 (r & Hr & Hri)]. split; [done |].
    rewrite Gr, (given_lookup _ _ _ _ _ Hp), Hr. eexists. split; [reflexivity |]. cbv beta zeta.
    rewrite (bool_decide_false (int_reg_rpc x = Some q)).
    + by destruct (bool_decide (q = p)).
    + intros E. destruct (Hreg i x q Hi E) as [_ (r' & Hr' & Hri')]. congruence.
  - intros q r' j. rewrite Gr, (given_lookup _ _ _ _ _ Hp). intros (r & Hr & ->)%fmap_Some Hj. revert Hj. cbv beta zeta.
    case_bool_decide as E; [done |].
    assert (rpc_interest (if bool_decide (q = p) then flags_or RPC_HANDING_OFF r else r) = rpc_interest r) as ->
      by by destruct (bool_decide (q = p)).
    intros Hj. destruct (Hrpc q r j Hr Hj) as (y & Hy & Hyq). rewrite Gi.
    destruct (decide (i = j)) as [-> | Hne]; [congruence |]. rewrite lookup_insert_ne by done. by exists y.
Qed.

(** The thread chosen is one of those waiting; there is one unless none
    waits. *)
Lemma choose_loop_spec w busy l : forall backup,
  (forall i, i ∈ l -> is_Some (w_interests w !! i)) ->
  exists r, choose_loop busy backup l w = Ok (r, w) /\
    (forall i, r = Some i -> i ∈ l \/ backup = Some i) /\ (r = None -> l = [] /\ backup = None).
Proof.
  induction l as [|i l IH]; intros backup Hl; cbn [choose_loop].
  - exists backup. split_ands; [done | by right | done].
  - destruct (Hl i ltac:(set_solver)) as [x Hx].
    rewrite (bind_eq _ _ _ _ _ (get_interest_eq _ _ _ Hx)). cbv beta.
    destruct (_ <? _).
    { exists (Some i). split_ands; [done | intros ? [= <-]; left; set_solver | done]. }
    destruct (IH (match backup with None => Some i | Some _ => backup end)) as (r & Hex & Hin & Hno);
      [intros j Hj; apply Hl; set_solver |].
    exists r. split_ands; [done | |].
    + intros j Hj. destruct (Hin j Hj) as [? | Hb]; [left; set_solver |].
      destruct backup; [by right | injection Hb as ->; left; set_solver].
    + intros Hr. destruct (Hno Hr) as [_ Hb]. by destruct backup.
Qed.

(** The RPC [p] is appended to the queue of its kind. *)
Definition queued (hsk p : ptr) (client : bool) (sk : homa_sock) (w w' : world) : Prop :=
  w' = w <| w_tick ::= S |>
    <| w_socks ::= insert hsk (if client
         then sk <| sk_ready_responses ::= fun l => l ++ [p] |>
         else sk <| sk_ready_requests ::= fun l => l ++ [p] |>) |>
    <| w_host ::= fun ho => ho <| host_notified ::= fun l => l ++ [hsk] |> |>.

Lemma tick_ok hsk w : interests_ok hsk w -> interests_ok hsk (w <| w_tick ::= S |>).
Proof. intros []. by constructor. Qed.

Lemma queued_ok hsk p client sk w w' :
  interests_ok hsk w -> w_socks w !! hsk = Some sk -> queued hsk p client sk w w' -> interests_ok hsk w'.
Proof.
  intros [(sk0 & Hsk & Hn1 & Hn2 & Hw) Hreg Hrpc] Hs ->. rewrite Hs in Hsk. injection Hsk as <-.
  constructor; [|done|done]. simpl. eexists. split; [apply lookup_insert_eq |]. by destruct client.
Qed.

(** The threads that may take an RPC that nobody waits for specifically. *)
Definition candidates (rpc : homa_rpc) (sk : homa_sock) : list ptr :=
  if homa_is_client (rpc_id rpc) then sk_response_interests sk else sk_request_interests sk.

(** What [homa_rpc_handoff] does with an RPC. *)
Definition handed_off (p : ptr) (rpc : homa_rpc) (sk : homa_sock) (w w' : world) : Prop :=
  if flag_set RPC_HANDING_OFF rpc || is_ready p sk then w' = w else
  (exists i x w1, (w1 = w \/ w1 = w <| w_tick ::= S |>) /\ w_interests w !! i = Some x /\
     int_ready_rpc x = None /\ given (rpc_hsk rpc) p i rpc x sk w1 w' /\
     match rpc_interest rpc with Some j => j = i | None => i ∈ candidates rpc sk end) \/
  (rpc_interest rpc = None /\ candidates rpc sk = [] /\
   queued (rpc_hsk rpc) p (homa_is_client (rpc_id rpc)) sk w w').

Lemma handoff_spec p w rpc sk :
  w_rpcs w !! p = Some rpc -> w_socks w !! rpc_hsk rpc = Some sk -> interests_ok (rpc_hsk rpc) w ->
  exists w', homa_rpc_handoff p w = Ok (tt, w') /\ interests_ok (rpc_hsk rpc) w' /\
    handed_off p rpc sk w w'.
Proof.
  intros Hp Hs Hok. unfold homa_rpc_handoff, handed_off. step. step. unfold flag_set.
  destruct (negb _ || is_ready p sk); [by exists w |].
  pose proof Hok as [(sk0 & Hsk & Hn1 & Hn2 & Hw) Hreg Hrpc]. assert (sk0 = sk) as -> by congruence.
  assert (forall i x, w_interests w !! i = Some x -> forall q, int_reg_rpc x = Some q -> is_Some (w_rpcs w !! q)) as Hlive.
  { intros i x Hi q Hq. destruct (Hreg i x q Hi Hq) as [_ (r & ? & _)]. eauto. }
  destruct (rpc_interest rpc) as [i|] eqn:Hint.
  - destruct (Hrpc p rpc i Hp Hint) as (x & Hi & Hx). destruct (Hreg i x p Hi Hx) as [Hnone _].
    destruct (give_to_exec (rpc_hsk rpc) p i w rpc x sk Hp Hi Hs (Hlive i x Hi)) as (w' & Hex & Hg).
    exists w'. split_ands; [done | by eapply given_ok |]. left. exists i, x, w. auto.
  - fold (candidates rpc sk). unfold homa_choose_interest.
    assert (forall i, i ∈ candidates rpc sk -> waiting sk i) as Hcw.
    { intros i. unfold candidates, waiting. destruct (homa_is_client _); auto. }
    set (w1 := w <| w_tick ::= S |>).
    destruct (choose_loop_spec w1 (u64 (w_clock w (w_tick w) - h_busy_ns (w_homa w))) (candidates rpc sk) None)
      as (r & Hex & Hin & Hno).
    { intros i Hi. destruct (Hw i (Hcw i Hi)) as (x & ? & _). by exists x. }
    rewrite (bind_eq _ _ _ _ _ (Hex : (let* now := sched_clock in let* h := get_homa in
      choose_loop (u64 (now - h_busy_ns h)) None (candidates rpc sk)) w = Ok (r, w1))).
    destruct r as [i|].
    + destruct (Hin i eq_refl) as [Hi |]; [|done]. destruct (Hw i (Hcw i Hi)) as (x & Hx & Hnone).
      destruct (give_to_exec (rpc_hsk rpc) p i w1 rpc x sk Hp Hx Hs (Hlive i x Hx)) as (w' & Hex' & Hg).
      exists w'. split_ands; [done | eapply given_ok; [by apply tick_ok | done ..] |].
      left. exists i, x, w1. auto.
    + destruct (Hno eq_refl) as [Hnil _].
      rewrite (bind_eq _ _ _ _ _ (upd_sock_eq _ _ w1 sk Hs)). eexists. split; [reflexivity |].
      match goal with |- interests_ok _ ?W /\ _ => assert (queued (rpc_hsk rpc) p (homa_is_client (rpc_id rpc)) sk w W)
        as Hq by reflexivity end.
      split; [by eapply queued_ok | by right].
Qed.

(** C40: [homa_rpc_handoff] gives an RPC to exactly one thread, or queues it.  An
    RPC that is being handed off or is queued already is left alone.
    Otherwise the thread registered for the RPC gets it, or one of those that
    wait for any message of its kind; that thread had no RPC yet, is woken up
    and is withdrawn from all lists, so that it will not be given a second
    one.  Only if no such thread waits is the RPC queued, at the end, and the
    socket notified.  The invariant of the interests is kept. *)
Theorem handoff_correct p w rpc sk :
  w_rpcs w !! p = Some rpc -> w_socks w !! rpc_hsk rpc = Some sk -> interests_ok (rpc_hsk rpc) w ->
  exists w', homa_rpc_handoff p w = Ok (tt, w') /\ interests_ok (rpc_hsk rpc) w' /\
    handed_off p rpc sk w w'.
Proof. apply handoff_spec. Qed.

(** Two threads: 8 waits for requests, 9 for the RPC 14 and for requests. *)
Definition ex_client : homa_rpc :=
  (ex_rpc 1%positive 4 (ex_msgin 10 10 1)) <| rpc_interest := Some 9%positive |>.
Definition ex_interests : world :=
  ex <| w_rpcs ::= insert 14%positive ex_client |>
     <| w_interests := {[ 8%positive := Build_homa_interest 0 2 None None;
                          9%positive := Build_homa_interest 0 3 (Some 14%positive) None ]} |>
     <| w_socks := {[ 1%positive := ex_sock <| sk_request_interests := [9%positive; 8%positive] |> ]} |>.

Lemma ex_interests_ok : interests_ok 1%positive ex_interests.
Proof.
  constructor.
  - eexists. split; [reflexivity |]. simpl. split_ands.
    + apply (bool_decide_unpack _). vm_compute. exact I.
    + constructor.
    + intros i [Hi | Hi]; simpl in Hi; [|by apply elem_of_nil in Hi].
      apply elem_of_cons in Hi as [-> | ->%list_elem_of_singleton]; eexists; split; reflexivity.
  - intros i x q. simpl. rewrite lookup_insert_Some, lookup_singleton_Some.
    intros [[<- <-] | [_ [<- <-]]] Hq; [done |]. injection Hq as <-. split; [done |].
    eexists. split; [reflexivity | reflexivity].
  - intros q r i. simpl. rewrite lookup_insert_Some. intros [[<- <-] | [_ Hq]] Hi.
    + injection Hi as <-. eexists. split; [reflexivity | reflexivity].
    + exfalso. apply lookup_insert_Some in Hq as [[_ <-] | [_ Hq]]; [done |].
      apply lookup_insert_Some in Hq as [[_ <-] | [_ Hq]]; [done |].
      apply lookup_singleton_Some in Hq as [_ <-]. done.
Qed.

Lemma handoff_correct_witness :
  exists w', homa_rpc_handoff 14%positive ex_interests = Ok (tt, w') /\ interests_ok 1%positive w'.
Proof.
  destruct (handoff_correct 14%positive ex_interests ex_client
    (ex_sock <| sk_request_interests := [9%positive; 8%positive] |>)) as (w' & H & Hok & _).
  - reflexivity.
  - reflexivity.
  - exact ex_interests_ok.
  - exists w'. split; [exact H | exact Hok].
Defined.

(** A thread is about to wait for the response of RPC 14 (which has id 4) or
    for any request, and the request 11 is ready. *)
Definition ex_claim : world :=
  ex <| w_rpcs ::= insert 14%positive (ex_rpc 1%positive 4 (ex_msgin 10 10 1)) |>
     <| w_socks := {[ 1%positive := ex_sock <| sk_ready_requests := [11%positive] |>
          <| sk_client_rpc_buckets ::= <[2%nat := [14%positive]]> |> ]} |>.

Definition ready_rpc_of (w : world) (i : ptr) : option ptr :=
  match w_interests w !! i with Some x => int_ready_rpc x | None => None end.

(** An RPC can be lost: [homa_register_interests] registers a thread for a
    specific RPC, then finds another RPC ready and claims it, but leaves the
    registration in place.  When the specific RPC is handed off before the
    thread withdraws, it overwrites the claimed RPC, which is then in no queue
    and with no thread. *)
Theorem claimed_rpc_lost :
  exists w i p q w1 w2, interests_ok 1%positive w /\
    homa_register_interests 0 1%positive i HOMA_RECVMSG_REQUEST 4 w = Ok (0, w1) /\
    ready_rpc_of w1 i = Some q /\
    homa_rpc_handoff p w1 = Ok (tt, w2) /\ ready_rpc_of w2 i = Some p /\ p <> q /\
    map_Forall (fun _ x => int_ready_rpc x <> Some q) (w_interests w2) /\
    (forall sk, w_socks w2 !! 1%positive = Some sk -> is_ready q sk = false) /\
    (forall r, w_rpcs w2 !! q = Some r -> flag_set RPC_HANDING_OFF r = false).
Proof.
  exists ex_claim, 9%positive, 14%positive, 11%positive. do 2 eexists. split.
  { constructor.
    - eexists. split; [reflexivity |]. split_ands; [constructor | constructor |].
      intros i [Hi | Hi]; by apply elem_of_nil in Hi.
    - intros i x q Hi. done.
    - intros q r i. simpl. rewrite !lookup_insert_Some, lookup_singleton_Some. intros Hq Hi.
      repeat destruct Hq as [[_ <-] | [_ Hq]]; try done. destruct Hq as [_ <-]. done. }
  split; [vm_compute; reflexivity |]. split; [vm_compute; reflexivity |].
  split; [vm_compute; reflexivity |]. split; [vm_compute; reflexivity |]. split; [done |]. split_ands.
  - apply (bool_decide_unpack _). vm_compute. exact I.
  - intros sk Hsk. vm_compute in Hsk. injection Hsk as <-. vm_compute. reflexivity.
  - intros r Hr. vm_compute in Hr. injection Hr as <-. vm_compute. reflexivity.
Qed.
