(* ===== verification/Rpc.v ===== *)
(** * The life cycle of RPCs (homa_rpc.c, homa_incoming.c, homa_sock.c)

    Creation of client and server RPCs, their removal from all lists
    ([homa_rpc_free]), the release of their resources ([homa_rpc_reap]), acks,
    aborts and the shutdown of a socket. *)
From S2P Require Import Prelude Lists Wire Types Example Control Peer Reassembly Pool Grant GrantLists GrantPick GrantRecalc GrantCheck PoolWait Outgoing Sock Handoff.

Definition HOMA_RPC_MAGIC : Z := 3735928559.
Definition BATCH_MAX : Z := 20.
Definition HOMA_NUM_SMALL_COUNTS : Z := 64.
Definition HOMA_NUM_MEDIUM_COUNTS : Z := 128.

(** What the host provides when a peer is looked up: its hash function, the
    memory for a new peer, and the result of the routing code. *)
Record peer_env := {
  pe_hash : Z -> Z -> Z; pe_new : option (ptr * homa_peer); pe_route : Z + Z
}.
Definition peer_find (env : peer_env) (addr : Z) : M (Z + ptr) :=
  homa_peer_find (pe_hash env) (pe_new env) (pe_route env) addr.

(** [kmalloc] of an RPC at [p] and [kfree]. *)
Definition new_rpc (p : ptr) (rpc : homa_rpc) : M unit := fun w =>
  Ok (tt, w <| w_rpcs ::= insert p rpc |>).
Definition kfree_rpc (p : ptr) : M unit := fun w =>
  match w_rpcs w !! p with
  | Some _ => Ok (tt, w <| w_rpcs ::= delete p |>)
  | None => Fault BadPointer
  end.

(** ** Linking an RPC *)
Definition upd_bucket (id : Z) (f : list ptr -> list ptr) (sk : homa_sock) : homa_sock :=
  if homa_is_client id
  then sk <| sk_client_rpc_buckets ::= alter f (Z.to_nat (client_index id)) |>
  else sk <| sk_server_rpc_buckets ::= alter f (Z.to_nat (server_index id)) |>.

Definition link_rpc (hsk p : ptr) (id : Z) : M unit :=
  upd_sock hsk (fun sk => (upd_bucket id (cons p) sk) <| sk_active_rpcs ::= fun l => l ++ [p] |>).

(** The fields that both constructors assign in the memory [mem]. *)
Definition rpc_fields (mem : homa_rpc) (hsk peer : ptr) (st : rpc_state) (id dport_ ticks now : Z)
    : homa_rpc := {|
  rpc_hsk := hsk; rpc_state_ := st; rpc_flags := 0; rpc_grants_in_progress := 0;
  rpc_peer := peer; rpc_dport := dport_; rpc_id := id; rpc_completion_cookie := 0; rpc_error := 0;
  rpc_msgin := (rpc_msgin mem) <| mi_length := -1 |> <| mi_num_bpages := 0 |>;
  rpc_msgout := Build_homa_message_out (-1) 0 0 [] 0 0 0 0 0 0 0;
  rpc_interest := None; rpc_silent_ticks := 0; rpc_resend_timer_ticks := ticks;
  rpc_done_timer_ticks := 0; rpc_magic := HOMA_RPC_MAGIC; rpc_start_ns := now
|}.

(** [homa_rpc_new_client]; [mem] is the memory for the RPC. *)
Definition homa_rpc_new_client (env : peer_env) (mem : option (ptr * homa_rpc)) (hsk : ptr)
    (dest_addr dest_port : Z) : M (Z + ptr) :=
  match mem with
  | None => ret (inl (- ENOMEM))
  | Some (p, mem) =>
      let* h := get_homa in
      let id := h_next_outgoing_id h in
      upd_homa (fun h => h <| h_next_outgoing_id := u64 (id + 2) |>) ;;;
      let* r := peer_find env dest_addr in
      match r with
      | inl err => ret (inl err)
      | inr peer =>
          let* now := sched_clock in
          let* sk := get_sock hsk in
          if sk_shutdown sk then ret (inl (- ESHUTDOWN)) else
          (new_rpc p (rpc_fields mem hsk peer RPC_OUTGOING id dest_port (h_timer_ticks h) now) ;;;
           link_rpc hsk p id ;;;
           ret (inr p))
      end
  end.

(** ** Incoming messages *)

(** The entry of the metrics that counts a message of this length. *)
Definition length_metric (length_ : Z) : result unit :=
  let entry i n := if (0 <=? i) && (i <? n) then Ok tt else Fault ArrayBounds in
  if length_ <? HOMA_NUM_SMALL_COUNTS * 64
  then entry (Z.shiftr (length_ - 1) 6) HOMA_NUM_SMALL_COUNTS
  else if length_ <? HOMA_NUM_MEDIUM_COUNTS * 1024
  then entry (Z.shiftr (length_ - 1) 10) HOMA_NUM_MEDIUM_COUNTS
  else Ok tt.

(** [homa_message_in_init]; [core] is the current core. *)
Definition homa_message_in_init (core : Z) (p : ptr) (length_ unsched : Z) : M Z :=
  upd_msgin p (fun mi => message_in_reset mi length_ unsched) ;;;
  let* err := homa_pool_allocate core p in
  if negb (err =? 0) then ret err else
  let* rpc := get_rpc p in
  (if mi_num_bpages (rpc_msgin rpc) =? 0
   then upd_msgin p (fun mi => mi <| mi_granted := 0 |>) else ret tt) ;;;
  let* _ := lift (length_metric length_) in
  ret 0.

(** The search for an RPC that exists already. *)
Fixpoint find_existing (id sport_ source : Z) (chain : list ptr) : M (option ptr) :=
  match chain with
  | [] => ret None
  | p :: chain' =>
      let* rpc := get_rpc p in
      let* same := (if (rpc_id rpc =? id) && (rpc_dport rpc =? sport_)
        then from_addr rpc source else ret false) in
      if (same : bool) then ret (Some p) else find_existing id sport_ source chain'
  end.

(** [homa_rpc_new_server]: the RPC and whether it was created. *)
Definition homa_rpc_new_server (env : peer_env) (mem : option (ptr * homa_rpc)) (core : Z)
    (hsk : ptr) (source : Z) (h : homa_data_hdr) : M (Z + (ptr * bool)) :=
  let id := homa_local_id (sender_id (d_common h)) in
  let sport_ := sport (d_common h) in
  let* chain := homa_server_rpc_bucket hsk id in
  let* found := find_existing id sport_ source chain in
  match found with
  | Some p => ret (inr (p, false))
  | None =>
      match mem with
      | None => ret (inl (- ENOMEM))
      | Some (p, mem) =>
          let* r := peer_find env source in
          match r with
          | inl err => ret (inl err)
          | inr peer =>
              let* hm := get_homa in
              let* now := sched_clock in
              new_rpc p (rpc_fields mem hsk peer RPC_INCOMING id sport_ (h_timer_ticks hm) now) ;;;
              let* err := homa_message_in_init core p (s32 (message_length h)) (s32 (incoming h)) in
              if negb (err =? 0) then (kfree_rpc p ;;; ret (inl err)) else
              let* sk := get_sock hsk in
              if sk_shutdown sk then (kfree_rpc p ;;; ret (inl (- ESHUTDOWN))) else
              (link_rpc hsk p id ;;;
               let* rpc := get_rpc p in
               (if (seg_offset h =? 0) && (mi_num_bpages (rpc_msgin rpc) >? 0)
                then upd_rpc p (flags_or RPC_PKTS_READY) ;;; homa_rpc_handoff p else ret tt) ;;;
               ret (inr (p, true)))
          end
      end
  end.

(** ** Freeing *)
Definition homa_rpc_free (p : ptr) : M unit :=
  let* rpc := get_rpc p in
  if bool_decide (rpc_state_ rpc = RPC_DEAD) then ret tt else
  upd_rpc p (fun r => r <| rpc_state_ := RPC_DEAD |>) ;;;
  homa_grant_free_rpc p ;;;
  let hsk := rpc_hsk rpc in
  upd_sock hsk (fun sk => (upd_bucket (rpc_id rpc) (unlink p) sk)
    <| sk_active_rpcs ::= unlink p |> <| sk_dead_rpcs ::= fun l => l ++ [p] |>
    <| sk_ready_requests ::= unlink p |> <| sk_ready_responses ::= unlink p |>
    <| sk_waiting_for_bufs ::= unlink p |>) ;;;
  match rpc_interest rpc with
  | Some i => upd_interest i (fun x => x <| int_reg_rpc := None |>) ;;; wake_up_process i ;;;
              upd_rpc p (fun r => r <| rpc_interest := None |>)
  | None => ret tt
  end ;;;
  let* rpc := get_rpc p in
  let mi := rpc_msgin rpc in
  (if mi_length mi >=? 0 then
     upd_sock hsk (fun sk => sk <| sk_dead_skbs ::= fun n => n + Z.of_nat (length (mi_packets mi)) |>) ;;;
     upd_msgin p (fun mi => mi <| mi_gaps := [] |>)
   else ret tt) ;;;
  upd_sock hsk (fun sk => sk <| sk_dead_skbs ::= fun n => n + mo_num_skbs (rpc_msgout rpc) |>) ;;;
  let* sk := get_sock hsk in
  upd_homa (fun h => if sk_dead_skbs sk >? h_max_dead_buffs h
    then h <| h_max_dead_buffs := sk_dead_skbs sk |> else h) ;;;
  homa_remove_from_throttled p.

(** ** Reaping *)

(** What one pass over the dead RPCs has collected: the number of transmit
    buffers, the RPCs to be freed, and the number of received packets freed
    (over all passes). *)
Record batch := { b_skbs : Z; b_rpcs : list ptr; b_rx : Z }.

Definition cant_reap (rpc : homa_rpc) : bool :=
  negb (Z.land (rpc_flags rpc) RPC_CANT_REAP =? 0) ||
  negb (rpc_grants_in_progress rpc =? 0) || negb (mo_active_xmits (rpc_msgout rpc) =? 0).

(** The transmit buffers taken from an RPC, one by one until the batch is
    full ([true]) or none is left. *)
Definition take_skbs (size : Z) (p : ptr) (n : Z) : M (Z * bool) :=
  let* rpc := get_rpc p in
  let mo := rpc_msgout rpc in
  if mo_length mo <? 0 then ret (n, false) else
  let have := Z.of_nat (length (mo_packets mo)) in
  let k := Z.min have (size - n) in
  upd_msgout p (fun mo => mo <| mo_packets ::= drop (Z.to_nat k) |>
    <| mo_num_skbs ::= fun m => m - k |>) ;;;
  ret (n + k, (0 <? have) && (size <=? n + k)).

Fixpoint reap_collect (size : Z) (hsk : ptr) (l : list ptr) (b : batch) : M batch :=
  match l with
  | [] => ret b
  | p :: l' =>
      let* rpc := get_rpc p in
      if cant_reap rpc then reap_collect size hsk l' b else
      upd_rpc p (fun r => r <| rpc_magic := 0 |>) ;;;
      let* (n, full) := take_skbs size p (b_skbs b) in
      if full then ret (Build_batch n (b_rpcs b) (b_rx b)) else
      let rx := if mi_length (rpc_msgin rpc) >=? 0
        then Z.of_nat (length (mi_packets (rpc_msgin rpc))) else 0 in
      (if mi_length (rpc_msgin rpc) >=? 0
       then upd_msgin p (fun mi => mi <| mi_packets := [] |>) else ret tt) ;;;
      upd_sock hsk (fun sk => sk <| sk_dead_rpcs ::= unlink p |>) ;;;
      let b' := Build_batch n (b_rpcs b ++ [p]) (b_rx b + rx) in
      if Z.of_nat (length (b_rpcs b')) >=? size then ret b' else reap_collect size hsk l' b'
  end.

(** The release of one RPC. *)
Definition reap_rpc (p : ptr) : M unit :=
  let* rpc := get_rpc p in
  let mi := rpc_msgin rpc in
  let* sk := get_sock (rpc_hsk rpc) in
  (if negb (mi_num_bpages mi =? 0) then
     let* (pool, _) := lift (homa_pool_release_buffers (sk_buffer_pool sk) (mi_num_bpages mi)
       (mi_bpage_offsets mi)) in
     upd_sock (rpc_hsk rpc) (fun sk => sk <| sk_buffer_pool := pool |>)
   else ret tt) ;;;
  kfree_rpc p.

(** One iteration of the loop of [homa_rpc_reap]: [rx_frees] is never reset. *)
Definition reap_batch (size : Z) (hsk : ptr) (rx_frees : Z) : M (bool * Z) :=
  let* sk := get_sock hsk in
  let* b := reap_collect size hsk (sk_dead_rpcs sk) (Build_batch 0 [] rx_frees) in
  upd_sock hsk (fun sk => sk <| sk_dead_skbs ::= fun n => n - (b_skbs b + b_rx b) |>) ;;;
  let* sk := get_sock hsk in
  let more := negb (bool_decide (sk_dead_rpcs sk = [])) &&
    negb (b_skbs b + Z.of_nat (length (b_rpcs b)) =? 0) in
  mapM_ reap_rpc (b_rpcs b) ;;;
  ret (more, b_rx b).

(** The loop; [None] is the early return because the RPCs are protected, and
    [res] the variable [result], which is not initialised. *)
Fixpoint reap_loop (fuel : nat) (hsk : ptr) (count : Z) (rx_frees : Z) (res : Z) : M (option Z) :=
  if count <=? 0 then ret (Some res) else
  match fuel with
  | O => raise OutOfFuel
  | S fuel =>
      let size := if count >? BATCH_MAX then BATCH_MAX else count in
      let* sk := get_sock hsk in
      if negb (sk_protect_count sk =? 0) then ret None else
      let* (more, rx) := reap_batch size hsk rx_frees in
      if more : bool then reap_loop fuel hsk (count - size) rx 1 else ret (Some 0)
  end.

(** [homa_rpc_reap]; [junk] is the initial content of [result]. *)
Definition homa_rpc_reap (junk core : Z) (hsk : ptr) (count : Z) : M Z :=
  let* r := reap_loop (Z.to_nat count) hsk count 0 junk in
  match r with
  | None => ret 0
  | Some res => homa_pool_check_waiting homa_grant_check_rpc core hsk ;;; ret res
  end.

(** ** Acks *)

(** The sockets of a bucket with the port of the acked RPC; [last] is the
    socket that the variable [hsk2] refers to after the loop. *)
Fixpoint acked_loop (server_port_ saddr id : Z) (last : ptr) (chain : list ptr) : M (ptr + unit) :=
  match chain with
  | [] => ret (inl last)
  | hsk2 :: chain' =>
      let* sk := get_sock hsk2 in
      if sk_port sk =? server_port_ then
        let* r := homa_find_server_rpc hsk2 saddr id in
        match r with
        | Some p => homa_rpc_free p ;;; ret (inr tt)
        | None => acked_loop server_port_ saddr id hsk2 chain'
        end
      else acked_loop server_port_ saddr id hsk2 chain'
  end.

Definition homa_rpc_acked (hsk : ptr) (saddr : Z) (a : homa_ack) : M unit :=
  let id := homa_local_id (client_id a) in
  let* sk := get_sock hsk in
  let* r := (if sk_port sk =? server_port a then ret (inl hsk) else
    let* chain := sock_bucket (homa_port_hash (server_port a)) in
    acked_loop (server_port a) saddr id hsk chain) in
  match r with
  | inr _ => ret tt
  | inl hsk2 =>
      let* r := homa_find_server_rpc hsk2 saddr id in
      match r with Some p => homa_rpc_free p | None => ret tt end
  end.

(** ** Aborts and shutdown *)
Definition homa_rpc_abort (p : ptr) (error : Z) : M unit :=
  let* rpc := get_rpc p in
  if negb (homa_is_client (rpc_id rpc)) then homa_rpc_free p else
  upd_rpc p (fun r => r <| rpc_error := error |>) ;;;
  let* sk := get_sock (rpc_hsk rpc) in
  if sk_shutdown sk then ret tt else homa_rpc_handoff p.

Definition homa_protect_rpcs (hsk : ptr) : M bool :=
  let* sk := get_sock hsk in
  if sk_shutdown sk then ret false else
  upd_sock hsk (fun sk => sk <| sk_protect_count ::= fun n => n + 1 |>) ;;; ret true.
Definition homa_unprotect_rpcs (hsk : ptr) : M unit :=
  upd_sock hsk (fun sk => sk <| sk_protect_count ::= fun n => n - 1 |>).

(** [for (hsk = homa_socktab_start_scan(...); hsk; hsk = homa_socktab_next(...))]
    with the scan [s]; the number of sockets bounds the iterations. *)
Fixpoint sock_loop (fuel : nat) (s : ptr) (body : ptr -> M unit) (o : option ptr) : M unit :=
  match o with
  | None => ret tt
  | Some hsk =>
      match fuel with
      | O => raise OutOfFuel
      | S fuel => body hsk ;;; let* o := homa_socktab_next s in sock_loop fuel s body o
      end
  end.

Definition for_each_sock (s : ptr) (body : ptr -> M unit) : M unit :=
  let* n := (fun w => Ok (length (chains_from w 0), w)) in
  let* o := homa_socktab_start_scan s in
  sock_loop n s body o ;;;
  homa_socktab_end_scan s.

Definition abort_matching (addr port error : Z) (p : ptr) : M unit :=
  let* rpc := get_rpc p in
  let* peer := get_peer (rpc_peer rpc) in
  if negb (peer_addr peer =? addr) then ret tt
  else if negb (port =? 0) && negb (rpc_dport rpc =? port) then ret tt
  else homa_rpc_abort p error.

Definition homa_abort_rpcs (s : ptr) (addr port error : Z) : M unit :=
  for_each_sock s (fun hsk =>
    let* sk := get_sock hsk in
    if bool_decide (sk_active_rpcs sk = []) then ret tt else
    let* ok := homa_protect_rpcs hsk in
    if negb ok then ret tt else
    (mapM_ (abort_matching addr port error) (sk_active_rpcs sk) ;;;
     homa_unprotect_rpcs hsk)).

Definition abort_client (error : Z) (p : ptr) : M unit :=
  let* rpc := get_rpc p in
  if negb (homa_is_client (rpc_id rpc)) then ret tt
  else if bool_decide (rpc_state_ rpc = RPC_DEAD) then ret tt
  else if negb (error =? 0) then homa_rpc_abort p error else homa_rpc_free p.

Definition homa_abort_sock_rpcs (hsk : ptr) (error : Z) : M unit :=
  let* sk := get_sock hsk in
  if bool_decide (sk_active_rpcs sk = []) then ret tt else
  let* ok := homa_protect_rpcs hsk in
  if negb ok then ret tt else
  (mapM_ (abort_client error) (sk_active_rpcs sk) ;;; homa_unprotect_rpcs hsk).

(** The loop of [homa_sock_shutdown] that reaps until no dead RPC is left. *)
Fixpoint shutdown_reap (fuel : nat) (junk core : Z) (hsk : ptr) : M unit :=
  let* sk := get_sock hsk in
  if bool_decide (sk_dead_rpcs sk = []) then ret tt else
  match fuel with
  | O => raise OutOfFuel
  | S fuel => homa_rpc_reap junk core hsk 1000 ;;; shutdown_reap fuel junk core hsk
  end.

Definition homa_sock_shutdown (fuel : nat) (junk core : Z) (hsk : ptr) : M unit :=
  let* sk := get_sock hsk in
  if sk_shutdown sk then ret tt else
  (upd_sock hsk (fun sk => sk <| sk_shutdown := true |>) ;;;
   homa_sock_unlink hsk ;;;
   mapM_ homa_rpc_free (sk_active_rpcs sk) ;;;
   let* sk := get_sock hsk in
   mapM_ wake_up_process (sk_request_interests sk) ;;;
   mapM_ wake_up_process (sk_response_interests sk) ;;;
   shutdown_reap fuel junk core hsk ;;;
   upd_sock hsk (fun sk => if sk_has_pool sk
     then sk <| sk_buffer_pool ::= homa_pool_destroy |> <| sk_has_pool := false |> else sk)).

Definition homa_sock_destroy (fuel : nat) (junk core : Z) (hsk : ptr) : M unit :=
  homa_sock_shutdown fuel junk core hsk.

Definition homa_socktab_destroy (s : ptr) (fuel : nat) (junk core : Z) : M unit :=
  for_each_sock s (homa_sock_destroy fuel junk core).
