(* ===== verification/RpcInv.v ===== *)
(** * Well-formedness of the RPC tables of a socket

    The invariant of the hash tables and lists of RPCs of a socket, the
    correctness of the lookups, and its preservation by [homa_rpc_new_client]
    and [homa_rpc_free]. *)
From S2P Require Import Prelude Lists Wire Types Example Control Peer Reassembly Pool Grant GrantLists GrantPick GrantRecalc GrantCheck PoolWait Outgoing Sock Handoff Rpc.

(** ** Buckets *)

(** The bucket of the RPCs with id [id]. *)
Definition rpc_chain (sk : homa_sock) (id : Z) : list ptr :=
  default [] (if homa_is_client id
    then sk_client_rpc_buckets sk !! Z.to_nat (client_index id)
    else sk_server_rpc_buckets sk !! Z.to_nat (server_index id)).

Definition same_bucket (id id' : Z) : Prop :=
  homa_is_client id = homa_is_client id' /\ client_index id = client_index id'.
#[export] Instance same_bucket_dec id id' : Decision (same_bucket id id').
Proof. unfold same_bucket. apply _. Defined.

Definition tables_ok (sk : homa_sock) : Prop :=
  length (sk_client_rpc_buckets sk) = 1024%nat /\ length (sk_server_rpc_buckets sk) = 1024%nat.

Lemma index_range id : 0 <= client_index id < 1024.
Proof.
  unfold client_index, HOMA_CLIENT_RPC_BUCKETS.
  change (1024 - 1) with (Z.ones 10). rewrite Z.land_ones by lia. apply Z.mod_pos_bound. lia.
Qed.

Lemma rpc_chain_same sk id id' : same_bucket id id' -> rpc_chain sk id = rpc_chain sk id'.
Proof. intros [H1 H2]. unfold rpc_chain. change server_index with client_index. by rewrite H1, H2. Qed.

Lemma upd_bucket_tables id f sk : tables_ok sk -> tables_ok (upd_bucket id f sk).
Proof.
  unfold tables_ok, upd_bucket. destruct (homa_is_client id); simpl; by rewrite length_alter.
Qed.

Lemma upd_bucket_chain sk id f id' :
  tables_ok sk -> rpc_chain (upd_bucket id f sk) id' =
    if decide (same_bucket id id') then f (rpc_chain sk id') else rpc_chain sk id'.
Proof.
  intros [Hc Hs]. pose proof (index_range id) as Hr. unfold upd_bucket, rpc_chain.
  assert (forall (l : list (list ptr)), length l = 1024%nat ->
    default [] (alter f (Z.to_nat (client_index id)) l !! Z.to_nat (client_index id')) =
    if decide (client_index id = client_index id')
    then f (default [] (l !! Z.to_nat (client_index id')))
    else default [] (l !! Z.to_nat (client_index id'))) as H.
  { intros l Hl. pose proof (index_range id') as Hr'. destruct (decide _) as [-> | Hne].
    - rewrite list_lookup_alter_eq. destruct (lookup_lt_is_Some_2 l (Z.to_nat (client_index id'))) as [c ->]; [lia |]. done.
    - rewrite list_lookup_alter_ne; [done |]. intros E. apply Hne. lia. }
  change server_index with client_index.
  assert (homa_is_client id = homa_is_client id' -> client_index id = client_index id' -> same_bucket id id')
    as Hsb by (by split).
  destruct (decide (same_bucket id id')) as [[H1 H2] | Hn].
  - rewrite H1. destruct (homa_is_client id'); simpl; rewrite H by done; by rewrite decide_True.
  - destruct (homa_is_client id) eqn:E1, (homa_is_client id') eqn:E2; simpl; rewrite ?H by done;
      try done; rewrite decide_False by auto; done.
Qed.

(** ** The invariant *)
Record rpcs_ok (hsk : ptr) (sk : homa_sock) (w : world) : Prop := {
  ro_sock : w_socks w !! hsk = Some sk;
  ro_tables : tables_ok sk;
  ro_chain : forall id p, p ∈ rpc_chain sk id -> p ∈ sk_active_rpcs sk /\
    exists r, w_rpcs w !! p = Some r /\ same_bucket (rpc_id r) id;
  ro_active : forall p, p ∈ sk_active_rpcs sk -> exists r, w_rpcs w !! p = Some r /\
    rpc_hsk r = hsk /\ rpc_state_ r <> RPC_DEAD /\ p ∈ rpc_chain sk (rpc_id r) /\
    is_Some (w_peers w !! rpc_peer r);
  ro_dead : forall p, p ∈ sk_dead_rpcs sk -> exists r, w_rpcs w !! p = Some r /\
    rpc_hsk r = hsk /\ rpc_state_ r = RPC_DEAD;
  ro_lists : forall p, p ∈ sk_ready_requests sk \/ p ∈ sk_ready_responses sk \/
    p ∈ sk_waiting_for_bufs sk -> p ∈ sk_active_rpcs sk;
  ro_nodup : NoDup (sk_active_rpcs sk) /\ NoDup (sk_dead_rpcs sk) /\
    NoDup (sk_ready_requests sk) /\ NoDup (sk_ready_responses sk) /\
    NoDup (sk_waiting_for_bufs sk) /\ forall id, NoDup (rpc_chain sk id)
}.

(** Active RPCs are told apart by their ids, and server RPCs with the same id
    by the client's address and port. *)
Definition ids_unique (sk : homa_sock) (w : world) : Prop :=
  forall p q r s pe pe', p ∈ sk_active_rpcs sk -> q ∈ sk_active_rpcs sk ->
    w_rpcs w !! p = Some r -> w_rpcs w !! q = Some s -> rpc_id r = rpc_id s ->
    w_peers w !! rpc_peer r = Some pe -> w_peers w !! rpc_peer s = Some pe' ->
    (homa_is_client (rpc_id r) = false ->
     peer_addr pe = peer_addr pe' /\ rpc_dport r = rpc_dport s) -> p = q.

Lemma client_bucket_eq hsk sk w id :
  w_socks w !! hsk = Some sk -> tables_ok sk -> homa_is_client id = true ->
  homa_client_rpc_bucket hsk id w = Ok (rpc_chain sk id, w).
Proof.
  intros Hs [Hl _] Hid. unfold homa_client_rpc_bucket, rpc_chain. step. rewrite Hid.
  pose proof (index_range id) as Hr.
  destruct (lookup_lt_is_Some_2 (sk_client_rpc_buckets sk) (Z.to_nat (client_index id))) as [c Hc]; [lia |].
  unfold lift. rewrite Hc, (proj2 (arr_Ok _ _ c)); [done |]. split; [lia | done].
Qed.

Lemma server_bucket_eq hsk sk w id :
  w_socks w !! hsk = Some sk -> tables_ok sk -> homa_is_client id = false ->
  homa_server_rpc_bucket hsk id w = Ok (rpc_chain sk id, w).
Proof.
  intros Hs [_ Hl] Hid. unfold homa_server_rpc_bucket, rpc_chain. step. rewrite Hid.
  pose proof (index_range id) as Hr. change server_index with client_index.
  destruct (lookup_lt_is_Some_2 (sk_server_rpc_buckets sk) (Z.to_nat (client_index id))) as [c Hc]; [lia |].
  unfold lift. rewrite Hc, (proj2 (arr_Ok _ _ c)); [done |]. split; [lia | done].
Qed.

(** ** Lookups *)
Lemma find_id_spec w id (l : list ptr) :
  (forall p, p ∈ l -> is_Some (w_rpcs w !! p)) ->
  exists o, find_id id l w = Ok (o, w) /\
    match o with
    | Some p => p ∈ l /\ exists r, w_rpcs w !! p = Some r /\ rpc_id r = id
    | None => forall p r, p ∈ l -> w_rpcs w !! p = Some r -> rpc_id r <> id
    end.
Proof.
  induction l as [|p l IH]; intros Hl; cbn [find_id]; [exists None; split; [done | set_solver] |].
  destruct (Hl p ltac:(set_solver)) as [r Hr]. step. destruct (Z.eqb_spec (rpc_id r) id) as [E | E].
  - exists (Some p). split; [done |]. split; [set_solver | by exists r].
  - destruct IH as (o & Hex & Ho); [intros q Hq; apply Hl; set_solver |]. exists o. split; [done |].
    destruct o as [q|]; [destruct Ho; split; [set_solver | done] |].
    intros q s [-> | Hq]%elem_of_cons Hs; [congruence | by eapply Ho].
Qed.

(** The RPC [p] is the server's side of RPC [id] of the client at [addr]. *)
Definition serves (w : world) (id addr : Z) (r : homa_rpc) : Prop :=
  rpc_id r = id /\ exists pe, w_peers w !! rpc_peer r = Some pe /\ peer_addr pe = addr.

Lemma find_id_addr_spec w id addr (l : list ptr) :
  (forall p, p ∈ l -> exists r, w_rpcs w !! p = Some r /\ is_Some (w_peers w !! rpc_peer r)) ->
  exists o, find_id_addr id addr l w = Ok (o, w) /\
    match o with
    | Some p => p ∈ l /\ exists r, w_rpcs w !! p = Some r /\ serves w id addr r
    | None => forall p r, p ∈ l -> w_rpcs w !! p = Some r -> ~ serves w id addr r
    end.
Proof.
  induction l as [|p l IH]; intros Hl; cbn [find_id_addr]; [exists None; split; [done | set_solver] |].
  destruct (Hl p ltac:(set_solver)) as (r & Hr & pe & Hpe). step.
  assert ((if rpc_id r =? id then from_addr r addr else ret false) w =
    Ok ((rpc_id r =? id) && (peer_addr pe =? addr), w)) as Hs.
  { destruct (_ =? id); [|done]. unfold from_addr. step. done. }
  rewrite (bind_eq _ _ _ _ _ Hs).
  destruct ((rpc_id r =? id) && (peer_addr pe =? addr)) eqn:E.
  - apply andb_true_iff in E as [E1%Z.eqb_eq E2%Z.eqb_eq].
    exists (Some p). split; [done |]. split; [set_solver |]. exists r. split; [done |]. split; [done | by exists pe].
  - destruct IH as (o & Hex & Ho); [intros q Hq; apply Hl; set_solver |]. exists o. split; [done |].
    destruct o as [q|]; [destruct Ho; split; [set_solver | done] |].
    intros q s [-> | Hq]%elem_of_cons Hs'; [|by eapply Ho]. rewrite Hr in Hs'. injection Hs' as <-.
    intros [H1 (pe' & Hpe' & H2)]. rewrite Hpe in Hpe'. injection Hpe' as <-.
    apply andb_false_iff in E as [E%Z.eqb_neq | E%Z.eqb_neq]; done.
Qed.

Lemma chain_live hsk sk w id p :
  rpcs_ok hsk sk w -> p ∈ rpc_chain sk id ->
  exists r, w_rpcs w !! p = Some r /\ is_Some (w_peers w !! rpc_peer r).
Proof.
  intros Hok Hp. destruct (ro_chain _ _ _ Hok _ _ Hp) as [Ha _].
  destruct (ro_active _ _ _ Hok _ Ha) as (r & ? & _ & _ & _ & ?). by exists r.
Qed.

Lemma find_client_spec hsk sk w id :
  rpcs_ok hsk sk w -> homa_is_client id = true ->
  exists o, homa_find_client_rpc hsk id w = Ok (o, w) /\
    match o with
    | Some p => p ∈ sk_active_rpcs sk /\ exists r, w_rpcs w !! p = Some r /\ rpc_id r = id
    | None => forall p r, p ∈ sk_active_rpcs sk -> w_rpcs w !! p = Some r -> rpc_id r <> id
    end.
Proof.
  intros Hok Hid. unfold homa_find_client_rpc.
  rewrite (bind_eq _ _ _ _ _ (client_bucket_eq _ _ _ _ (ro_sock _ _ _ Hok) (ro_tables _ _ _ Hok) Hid)).
  destruct (find_id_spec w id (rpc_chain sk id)) as (o & Hex & Ho).
  { intros p Hp. destruct (chain_live _ _ _ _ _ Hok Hp) as (r & -> & _). eauto. }
  exists o. split; [done |]. destruct o as [p|].
  - destruct Ho as [Hp Hr]. split; [by apply (ro_chain _ _ _ Hok id) | done].
  - intros p r Hp Hr E. destruct (ro_active _ _ _ Hok p Hp) as (r' & Hr' & _ & _ & Hc & _).
    rewrite Hr in Hr'. injection Hr' as <-. rewrite E in Hc. by apply (Ho p r).
Qed.

Lemma find_server_spec hsk sk w addr id :
  rpcs_ok hsk sk w -> homa_is_client id = false ->
  exists o, homa_find_server_rpc hsk addr id w = Ok (o, w) /\
    match o with
    | Some p => p ∈ sk_active_rpcs sk /\ exists r, w_rpcs w !! p = Some r /\ serves w id addr r
    | None => forall p r, p ∈ sk_active_rpcs sk -> w_rpcs w !! p = Some r -> ~ serves w id addr r
    end.
Proof.
  intros Hok Hid. unfold homa_find_server_rpc.
  rewrite (bind_eq _ _ _ _ _ (server_bucket_eq _ _ _ _ (ro_sock _ _ _ Hok) (ro_tables _ _ _ Hok) Hid)).
  destruct (find_id_addr_spec w id addr (rpc_chain sk id)) as (o & Hex & Ho).
  { intros p Hp. by eapply chain_live. }
  exists o. split; [done |]. destruct o as [p|].
  - destruct Ho as [Hp Hr]. split; [by apply (ro_chain _ _ _ Hok id) | done].
  - intros p r Hp Hr E. destruct (ro_active _ _ _ Hok p Hp) as (r' & Hr' & _ & _ & Hc & _).
    rewrite Hr in Hr'. injection Hr' as <-. pose proof E as [Ei _]. rewrite Ei in Hc. by apply (Ho p r).
Qed.

(** The hash tables of a socket implement a map: looking up a client RPC
    by id, or a server RPC by id and client address, returns an active RPC of
    the socket with that key if there is one, and NULL otherwise; nothing is
    changed and no access is outside the tables. *)
Theorem rpc_lookup_correct hsk sk w id addr :
  rpcs_ok hsk sk w ->
  if homa_is_client id then
    exists o, homa_find_client_rpc hsk id w = Ok (o, w) /\
      match o with
      | Some p => p ∈ sk_active_rpcs sk /\ exists r, w_rpcs w !! p = Some r /\ rpc_id r = id
      | None => forall p r, p ∈ sk_active_rpcs sk -> w_rpcs w !! p = Some r -> rpc_id r <> id
      end
  else
    exists o, homa_find_server_rpc hsk addr id w = Ok (o, w) /\
      match o with
      | Some p => p ∈ sk_active_rpcs sk /\ exists r, w_rpcs w !! p = Some r /\ serves w id addr r
      | None => forall p r, p ∈ sk_active_rpcs sk -> w_rpcs w !! p = Some r -> ~ serves w id addr r
      end.
Proof.
  intros Hok. destruct (homa_is_client id) eqn:E; [by apply find_client_spec | by apply find_server_spec].
Qed.

(** ** A decision procedure for the invariant *)
Definition chain_check (w : world) (active : list ptr) (client : bool) (n : nat) (c : list ptr) : bool :=
  bool_decide (NoDup c) && forallb (fun p => bool_decide (p ∈ active) &&
    match w_rpcs w !! p with
    | Some r => Bool.eqb (homa_is_client (rpc_id r)) client && (client_index (rpc_id r) =? Z.of_nat n)
    | None => false
    end) c.

Fixpoint chains_check (w : world) (active : list ptr) (client : bool) (n : nat) (l : list (list ptr)) : bool :=
  match l with
  | [] => true
  | c :: l' => chain_check w active client n c && chains_check w active client (S n) l'
  end.

Definition active_check (hsk : ptr) (sk : homa_sock) (w : world) (p : ptr) : bool :=
  match w_rpcs w !! p with
  | Some r => bool_decide (rpc_hsk r = hsk) && negb (bool_decide (rpc_state_ r = RPC_DEAD)) &&
      bool_decide (p ∈ rpc_chain sk (rpc_id r)) && bool_decide (is_Some (w_peers w !! rpc_peer r))
  | None => false
  end.

Definition dead_check (hsk : ptr) (w : world) (p : ptr) : bool :=
  match w_rpcs w !! p with
  | Some r => bool_decide (rpc_hsk r = hsk) && bool_decide (rpc_state_ r = RPC_DEAD)
  | None => false
  end.

Definition rpcs_check (hsk : ptr) (sk : homa_sock) (w : world) : bool :=
  bool_decide (tables_ok sk) &&
  chains_check w (sk_active_rpcs sk) true 0 (sk_client_rpc_buckets sk) &&
  chains_check w (sk_active_rpcs sk) false 0 (sk_server_rpc_buckets sk) &&
  forallb (active_check hsk sk w) (sk_active_rpcs sk) && forallb (dead_check hsk w) (sk_dead_rpcs sk) &&
  forallb (fun p => bool_decide (p ∈ sk_active_rpcs sk))
    (sk_ready_requests sk ++ sk_ready_responses sk ++ sk_waiting_for_bufs sk) &&
  bool_decide (NoDup (sk_active_rpcs sk)) && bool_decide (NoDup (sk_dead_rpcs sk)) &&
  bool_decide (NoDup (sk_ready_requests sk)) && bool_decide (NoDup (sk_ready_responses sk)) &&
  bool_decide (NoDup (sk_waiting_for_bufs sk)).

Lemma chains_check_spec w active client l : forall n k c,
  chains_check w active client n l = true -> l !! k = Some c ->
  NoDup c /\ forall p, p ∈ c -> p ∈ active /\ exists r, w_rpcs w !! p = Some r /\
    homa_is_client (rpc_id r) = client /\ client_index (rpc_id r) = Z.of_nat (n + k).
Proof.
  induction l as [|d l IH]; intros n k c H Hc; [done |]. simpl in H. apply andb_true_iff in H as [Hd H].
  destruct k as [|k]; simpl in Hc.
  - injection Hc as ->. unfold chain_check in Hd. apply andb_true_iff in Hd as [Hn Hf].
    apply bool_decide_eq_true in Hn. split; [done |]. intros p Hp.
    rewrite forallb_forall in Hf. specialize (Hf p ltac:(by apply list_elem_of_In)).
    apply andb_true_iff in Hf as [Ha Hr]. apply bool_decide_eq_true in Ha. split; [done |].
    destruct (w_rpcs w !! p) as [r|]; [|done]. exists r. apply andb_true_iff in Hr as [H1 H2].
    apply eqb_prop in H1. apply Z.eqb_eq in H2. rewrite Nat.add_0_r. done.
  - replace (n + S k)%nat with (S n + k)%nat by lia. by apply IH.
Qed.

Lemma rpcs_check_ok hsk sk w :
  w_socks w !! hsk = Some sk -> rpcs_check hsk sk w = true -> rpcs_ok hsk sk w.
Proof.
  intros Hs H. unfold rpcs_check in H. rewrite !andb_true_iff, !bool_decide_eq_true in H.
  destruct H as [[[[[[[[[[Ht Hc] Hv] Ha] Hd] Hl] N1] N2] N3] N4] N5].
  rewrite !forallb_forall in *.
  assert (forall id, NoDup (rpc_chain sk id) /\ forall p, p ∈ rpc_chain sk id -> p ∈ sk_active_rpcs sk /\
    exists r, w_rpcs w !! p = Some r /\ same_bucket (rpc_id r) id) as Hch.
  { intros id. unfold rpc_chain, same_bucket. pose proof (index_range id).
    change server_index with client_index. destruct (homa_is_client id) eqn:Ei.
    - destruct (sk_client_rpc_buckets sk !! _) as [c|] eqn:E; simpl; [|split; [constructor | set_solver]].
      destruct (chains_check_spec _ _ _ _ _ _ _ Hc E) as [Hn Hp]. split; [done |].
      intros p Hpc. destruct (Hp p Hpc) as [? (r & ? & ? & ?)]. split; [done |]. exists r. split_ands; [done | done | lia].
    - destruct (sk_server_rpc_buckets sk !! _) as [c|] eqn:E; simpl; [|split; [constructor | set_solver]].
      destruct (chains_check_spec _ _ _ _ _ _ _ Hv E) as [Hn Hp]. split; [done |].
      intros p Hpc. destruct (Hp p Hpc) as [? (r & ? & ? & ?)]. split; [done |]. exists r. split_ands; [done | done | lia]. }
  constructor; try done.
  - intros id p Hp. by apply Hch.
  - intros p Hp. specialize (Ha p ltac:(by apply list_elem_of_In)). unfold active_check in Ha.
    destruct (w_rpcs w !! p) as [r|]; [|done]. rewrite !andb_true_iff, negb_true_iff, !bool_decide_eq_true, bool_decide_eq_false in Ha.
    exists r. tauto.
  - intros p Hp. specialize (Hd p ltac:(by apply list_elem_of_In)). unfold dead_check in Hd.
    destruct (w_rpcs w !! p) as [r|]; [|done]. rewrite !andb_true_iff, !bool_decide_eq_true in Hd.
    exists r. tauto.
  - intros p Hp. specialize (Hl p). rewrite bool_decide_eq_true in Hl. apply Hl.
    apply list_elem_of_In. rewrite !elem_of_app. tauto.
  - split_ands; try done. intros id. by apply Hch.
Qed.

(** The example with its RPCs in the hash tables. *)
Definition ex_rpc_sock : homa_sock :=
  ex_sock <| sk_server_rpc_buckets := <[1%nat := [11%positive]]> (<[2%nat := [12%positive]]>
    (<[3%nat := [13%positive]]> (replicate 1024 []))) |>.
Definition ex_rpcs : world := ex <| w_socks := {[ 1%positive := ex_rpc_sock ]} |>.

Lemma ex_rpcs_ok : rpcs_ok 1%positive ex_rpc_sock ex_rpcs.
Proof. apply rpcs_check_ok; [done |]. vm_compute. reflexivity. Qed.

Lemma rpc_lookup_correct_witness :
  exists o, homa_find_server_rpc 1%positive 101 5 ex_rpcs = Ok (o, ex_rpcs).
Proof.
  destruct (rpc_lookup_correct 1%positive ex_rpc_sock ex_rpcs 5 101 ex_rpcs_ok) as (o & H & _).
  exists o. exact H.
Defined.

(** ** Preservation *)

(** The invariant concerns the identity and the state of the RPCs only. *)
Definition rpc_core (r : homa_rpc) : ptr * rpc_state * Z * ptr := (rpc_hsk r, rpc_state_ r, rpc_id r, rpc_peer r).

Lemma rpcs_ok_frame hsk sk w w' :
  rpcs_ok hsk sk w -> w_socks w' !! hsk = Some sk ->
  (forall p r, w_rpcs w !! p = Some r -> exists r', w_rpcs w' !! p = Some r' /\ rpc_core r' = rpc_core r) ->
  (forall q, is_Some (w_peers w !! q) -> is_Some (w_peers w' !! q)) -> rpcs_ok hsk sk w'.
Proof.
  intros [H1 H2 H3 H4 H5 H6 H7] Hs Hr Hp. constructor; try done.
  - intros id p Hin. destruct (H3 id p Hin) as [? (r & Hpr & ?)]. split; [done |].
    destruct (Hr p r Hpr) as (r' & ? & [= E1 E2 E3 E4]). exists r'. by rewrite E3.
  - intros p Hin. destruct (H4 p Hin) as (r & Hpr & ? & ? & ? & ?).
    destruct (Hr p r Hpr) as (r' & ? & [= E1 E2 E3 E4]). exists r'. rewrite E1, E2, E3, E4. split_ands; auto.
  - intros p Hin. destruct (H5 p Hin) as (r & Hpr & ? & ?).
    destruct (Hr p r Hpr) as (r' & ? & [= E1 E2 E3 E4]). exists r'. by rewrite E1, E2.
Qed.

Definition linked (p : ptr) (id : Z) (sk : homa_sock) : homa_sock :=
  (upd_bucket id (cons p) sk) <| sk_active_rpcs ::= fun l => l ++ [p] |>.

Lemma linked_chain p id sk id' :
  tables_ok sk -> rpc_chain (linked p id sk) id' =
    if decide (same_bucket id id') then p :: rpc_chain sk id' else rpc_chain sk id'.
Proof.
  intros Ht. rewrite <- (upd_bucket_chain sk id (cons p) id' Ht). unfold linked, rpc_chain, upd_bucket.
  by destruct (homa_is_client id).
Qed.

Lemma linked_lists p id sk :
  sk_active_rpcs (linked p id sk) = sk_active_rpcs sk ++ [p] /\
  sk_dead_rpcs (linked p id sk) = sk_dead_rpcs sk /\
  sk_ready_requests (linked p id sk) = sk_ready_requests sk /\
  sk_ready_responses (linked p id sk) = sk_ready_responses sk /\
  sk_waiting_for_bufs (linked p id sk) = sk_waiting_for_bufs sk.
Proof. unfold linked, upd_bucket. by destruct (homa_is_client id). Qed.

(** A new RPC is entered. *)
Lemma rpcs_ok_link hsk sk w p r w' :
  rpcs_ok hsk sk w -> w_rpcs w !! p = None -> rpc_hsk r = hsk -> rpc_state_ r <> RPC_DEAD ->
  is_Some (w_peers w !! rpc_peer r) ->
  w_rpcs w' = <[p := r]> (w_rpcs w) -> w_peers w' = w_peers w ->
  w_socks w' !! hsk = Some (linked p (rpc_id r) sk) -> rpcs_ok hsk (linked p (rpc_id r) sk) w'.
Proof.
  intros Hok Hp Hh Hst Hpe Hr' Hpe' Hs'. pose proof Hok as [H1 H2 H3 H4 H5 H6 H7].
  pose proof (fun id => linked_chain p (rpc_id r) sk id H2) as Hc.
  destruct (linked_lists p (rpc_id r) sk) as (La & Ld & Lq & Ls & Lw).
  assert (p ∉ sk_active_rpcs sk) as Hpa by (intros H; destruct (H4 p H) as (? & ? & _); congruence).
  assert (forall q, q ∈ sk_active_rpcs sk \/ q ∈ sk_dead_rpcs sk -> w_rpcs w' !! q = w_rpcs w !! q) as Hq.
  { intros q Hq. rewrite Hr'. apply lookup_insert_ne. intros ->.
    destruct Hq as [Hq | Hq]; [done |]. destruct (H5 _ Hq) as (? & ? & _). congruence. }
  constructor; try done.
  - unfold linked. by apply (upd_bucket_tables (rpc_id r) (cons p)) in H2.
  - intros id q. rewrite Hc, La. destruct (decide _) as [Hsb | Hsb].
    + intros [-> | Hin]%elem_of_cons.
      * split; [set_solver |]. exists r. by rewrite Hr', lookup_insert_eq.
      * destruct (H3 id q Hin) as [? Hx]. rewrite Hq by auto. split; [set_solver | done].
    + intros Hin. destruct (H3 id q Hin) as [? Hx]. rewrite Hq by auto. split; [set_solver | done].
  - intros q. rewrite La, elem_of_app, list_elem_of_singleton, Hpe'. intros [Hin | ->].
    + destruct (H4 q Hin) as (x & ? & ? & ? & ? & ?). rewrite Hq by auto. exists x. rewrite Hc.
      split_ands; try done. destruct (decide _); set_solver.
    + exists r. rewrite Hr', lookup_insert_eq, Hc, decide_True by done. split_ands; try done. set_solver.
  - intros q. rewrite Ld. intros Hin. rewrite Hq by auto. by apply H5.
  - rewrite La, Lq, Ls, Lw. intros q Hin. apply elem_of_app. left. by apply H6.
  - rewrite La, Ld, Lq, Ls, Lw. destruct H7 as (? & ? & ? & ? & ? & Hn). split_ands; try done.
    + apply NoDup_app. split_ands; [done | set_solver | apply NoDup_singleton].
    + intros id. rewrite Hc. destruct (decide _); [|apply Hn]. apply NoDup_cons. split; [|apply Hn].
      intros Hin. by apply Hpa, (H3 id).
Qed.

(** ** New client RPCs *)
Definition env_ok (env : peer_env) (w : world) : Prop :=
  (forall v bits, 0 <= bits <= 32 -> 0 <= pe_hash env v bits < 2 ^ bits) /\
  peertab_ok (pe_hash env) w /\
  forall p mem, pe_new env = Some (p, mem) ->
    w_peers w !! p = None /\ Z.of_nat (length (peer_unsched_cutoffs mem)) = HOMA_MAX_PRIORITIES.

(** What looking up a peer does to the rest of the state. *)
Lemma peer_find_frame env addr w :
  env_ok env w -> exists r pm pt, let w' := w <| w_peers := pm |> <| w_peertab := pt |> in
    peer_find env addr w = Ok (r, w') /\
    (forall q, is_Some (w_peers w !! q) -> pm !! q = w_peers w !! q) /\
    match r with
    | inr q => exists pe, pm !! q = Some pe /\ peer_addr pe = addr
    | inl _ => w' = w
    end.
Proof.
  intros (Hh & Ht & Hn). unfold peer_find.
  destruct (peer_find_spec _ Hh (pe_new env) (pe_route env) addr w Ht Hn) as (r & w' & Hex & _ & Hf & Hr & _).
  exists r, (w_peers w'), (w_peertab w'). cbv zeta. unfold peer_frame in Hf. rewrite <- Hf.
  split; [done |]. destruct r as [e | q]; [destruct Hr as [-> _]; by split |].
  destruct Hr as [Hq [-> | (Hnone & Hd & _)]]; [by split |]. split; [|done].
  intros q' Hq'. rewrite <- Hd. symmetry. apply lookup_delete_ne. intros ->. rewrite Hnone in Hq'. by destruct Hq'.
Qed.

(** The ids of the client RPCs of a socket have all been handed out. *)
Definition ids_below (sk : homa_sock) (w : world) : Prop :=
  forall q r, q ∈ sk_active_rpcs sk -> w_rpcs w !! q = Some r ->
    homa_is_client (rpc_id r) = true -> rpc_id r < h_next_outgoing_id (w_homa w).

(** The RPC that [homa_rpc_new_client] builds. *)
Definition client_rpc (hsk : ptr) (id port : Z) (rpc : homa_rpc) : Prop :=
  rpc_hsk rpc = hsk /\ rpc_state_ rpc = RPC_OUTGOING /\ rpc_id rpc = id /\ rpc_dport rpc = port /\
  rpc_flags rpc = 0 /\ rpc_error rpc = 0 /\ rpc_interest rpc = None /\
  mi_length (rpc_msgin rpc) = -1 /\ mi_num_bpages (rpc_msgin rpc) = 0 /\ mo_length (rpc_msgout rpc) = -1.

Lemma new_client_exec env p mem hsk sk w addr port :
  w_socks w !! hsk = Some sk -> env_ok env w ->
  exists r pm pt, let id := h_next_outgoing_id (w_homa w) in
    let w1 := w <| w_homa ::= fun h => h <| h_next_outgoing_id := u64 (id + 2) |> |>
                <| w_peers := pm |> <| w_peertab := pt |> in
    (forall q, is_Some (w_peers w !! q) -> pm !! q = w_peers w !! q) /\
    ((exists e, r = inl e /\ exists t, homa_rpc_new_client env (Some (p, mem)) hsk addr port w = Ok (r, w1 <| w_tick := t |>)) \/
     (exists pe rpc, r = inr p /\ sk_shutdown sk = false /\ client_rpc hsk id port rpc /\
        pm !! rpc_peer rpc = Some pe /\ peer_addr pe = addr /\
        homa_rpc_new_client env (Some (p, mem)) hsk addr port w = Ok (r, w1 <| w_tick ::= S |>
          <| w_rpcs ::= insert p rpc |> <| w_socks ::= insert hsk (linked p id sk) |>))).
Proof.
  intros Hs (Hh & Ht & Hn). unfold homa_rpc_new_client. do 2 step.
  set (id := h_next_outgoing_id (w_homa w)).
  set (w0 := w <| w_homa ::= _ |>).
  destruct (peer_find_frame env addr w0) as (r & pm & pt & Hex & Hpm & Hr).
  { split; [done |]. split; [|done]. destruct Ht. by constructor. }
  cbv zeta in *. rewrite (bind_eq _ _ _ _ _ Hex). destruct r as [e | q].
  - exists (inl e), pm, pt. split; [done |]. left. exists e. split; [done |]. exists (w_tick w). done.
  - destruct Hr as (pe & Hq & Hpa). step. erewrite bind_eq by (apply get_sock_eq; exact Hs). destruct (sk_shutdown sk) eqn:Hsd.
    + exists (inl (- ESHUTDOWN)), pm, pt. split; [done |]. left. eexists. split; [done |]. by exists (S (w_tick w)).
    + exists (inr p), pm, pt. split; [done |]. right.
      eexists pe, _. split; [done |]. split; [done |]. split; [|split; [|split; [exact Hpa |]]].
      3:{ rewrite (bind_eq _ _ _ _ _ eq_refl). unfold link_rpc.
          erewrite bind_eq by (apply upd_sock_eq; exact Hs). reflexivity. }
      * unfold client_rpc. done.
      * exact Hq.
Qed.

(** C37: [homa_rpc_new_client] builds a client RPC with an id that no other RPC
    of the socket has, in its initial state, enters it in the table and the
    list of active RPCs, and it can then be found under its id; the invariant
    of the tables is kept.  When it fails (no peer, or the socket is shut
    down) no RPC is created and no socket changes. *)
Theorem new_client_correct env p mem hsk sk w addr port :
  rpcs_ok hsk sk w -> ids_below sk w -> env_ok env w -> w_rpcs w !! p = None ->
  let id := h_next_outgoing_id (w_homa w) in
  homa_is_client id = true -> 0 <= id -> id + 2 < 2 ^ 64 ->
  exists r w', homa_rpc_new_client env (Some (p, mem)) hsk addr port w = Ok (r, w') /\
    h_next_outgoing_id (w_homa w') = id + 2 /\
    match r with
    | inl _ => w_rpcs w' = w_rpcs w /\ w_socks w' = w_socks w /\ rpcs_ok hsk sk w'
    | inr q => q = p /\ sk_shutdown sk = false /\
        (exists rpc, w_rpcs w' = <[p := rpc]> (w_rpcs w) /\ client_rpc hsk id port rpc) /\
        (exists sk', w_socks w' = <[hsk := sk']> (w_socks w) /\ rpcs_ok hsk sk' w' /\ ids_below sk' w' /\
           sk_active_rpcs sk' = sk_active_rpcs sk ++ [p]) /\
        homa_find_client_rpc hsk id w' = Ok (Some p, w')
    end.
Proof.
  intros Hok Hb He Hp id Hid Hid0 Hid2.
  destruct (new_client_exec env p mem hsk sk w addr port (ro_sock _ _ _ Hok) He) as (r & pm & pt & Hpm & Hr).
  cbv zeta in Hr. fold id in Hr. rewrite (u64_id (id + 2)) in Hr by (unfold is_u64; lia).
  assert (forall q, is_Some (w_peers w !! q) -> is_Some (pm !! q)) as Hps by (intros q Hq; by rewrite Hpm).
  destruct Hr as [(e & -> & t & Hex) | (pe & rpc & -> & Hsd & Hc & Hpe & _ & Hex)].
  - eexists _, _. split; [exact Hex |]. split; [done |]. split_ands; try done.
    eapply rpcs_ok_frame; [exact Hok | apply Hok | | exact Hps]. intros q x Hq. by exists x.
  - eexists _, _. split; [exact Hex |]. split; [done |].
    match goal with |- context [ids_below _ ?W] => set (w' := W) in * end.
    destruct Hc as (H1 & H2 & H3 & Hc). destruct (linked_lists p id sk) as (La & _).
    assert (rpcs_ok hsk (linked p id sk) w') as Hok'.
    { rewrite <- H3.
      eapply (rpcs_ok_link hsk sk (w <| w_peers := pm |>) p rpc); simpl; try done; try congruence.
      - eapply rpcs_ok_frame; [exact Hok | apply Hok | | exact Hps]. intros q x Hq. by exists x.
      - rewrite H3. apply lookup_insert_eq. }
    assert (ids_below (linked p id sk) w') as Hb'.
    { intros q x. rewrite La. simpl. intros Hq. destruct (decide (q = p)) as [-> | Hne].
      - rewrite lookup_insert_eq. intros [= <-] _. lia.
      - rewrite lookup_insert_ne by done. intros Hx Hxc.
        assert (q ∈ sk_active_rpcs sk) as Hqa by set_solver. specialize (Hb q x Hqa Hx Hxc). fold id in Hb. lia. }
    split_ands; try done.
    + exists rpc. done.
    + exists (linked p id sk). done.
    + destruct (find_client_spec hsk (linked p id sk) w' id Hok' Hid) as (o & Hf & Ho). rewrite Hf.
      destruct o as [q|].
      * destruct Ho as [Hq (x & Hx & Hxid)]. do 3 f_equal. destruct (decide (q = p)) as [| Hne]; [done |].
        exfalso. unfold w' in Hx. simpl in Hx. rewrite lookup_insert_ne in Hx by done. rewrite La in Hq.
        assert (q ∈ sk_active_rpcs sk) as Hqa by set_solver.
        assert (homa_is_client (rpc_id x) = true) as Hxc by congruence.
        specialize (Hb q x Hqa Hx Hxc). fold id in Hb. lia.
      * exfalso. apply (Ho p rpc); [rewrite La; set_solver | apply lookup_insert_eq | done].
Qed.

Definition ex_peer_env : peer_env := Build_peer_env ex_hash None (inl (- 1)).

Lemma ex_env_ok_rpcs : env_ok ex_peer_env ex_rpcs.
Proof.
  split; [exact ex_hash_range |]. split; [|done]. destruct ex_peertab_ok. by constructor.
Qed.

Lemma ex_ids_below : ids_below ex_rpc_sock ex_rpcs.
Proof.
  intros q r Hq. simpl in Hq. rewrite !elem_of_cons, elem_of_nil in Hq.
  destruct Hq as [-> | [-> | [-> | []]]]; intros [= <-]; vm_compute; congruence.
Qed.

Lemma new_client_correct_witness :
  exists w', homa_rpc_new_client ex_peer_env (Some (20%positive, ex_rpc 1%positive 0 (ex_msgin 0 0 0)))
      1%positive 101 80 ex_rpcs = Ok (inr 20%positive, w') /\
    homa_find_client_rpc 1%positive 2 w' = Ok (Some 20%positive, w').
Proof.
  destruct (new_client_correct ex_peer_env 20%positive (ex_rpc 1%positive 0 (ex_msgin 0 0 0)) 1%positive
    ex_rpc_sock ex_rpcs 101 80) as (r & w' & H & _ & Hr).
  - exact ex_rpcs_ok.
  - exact ex_ids_below.
  - exact ex_env_ok_rpcs.
  - reflexivity.
  - reflexivity.
  - vm_compute. congruence.
  - vm_compute. reflexivity.
  - destruct r as [e | q].
    + exfalso. vm_compute in H. congruence.
    + destruct Hr as (-> & _ & _ & _ & Hf). exists w'. split; [exact H | exact Hf].
Defined.
