(* ===== verification/RpcFree.v ===== *)
(** * Freeing RPCs

    [homa_rpc_free] leaves no way to reach the RPC except through the list of
    dead RPCs. *)
From S2P Require Import Prelude Lists Wire Types Example Control Peer Reassembly Pool Grant GrantLists GrantPick GrantRecalc GrantCheck PoolWait Outgoing Sock Handoff Rpc RpcInv.

(** The socket after the RPC [p] with id [id] has been freed, with [n] more
    packets to be reaped. *)
Definition freed_sock (p : ptr) (id n : Z) (sk : homa_sock) : homa_sock :=
  (upd_bucket id (unlink p) sk) <| sk_active_rpcs ::= unlink p |>
    <| sk_dead_rpcs ::= fun l => l ++ [p] |> <| sk_ready_requests ::= unlink p |>
    <| sk_ready_responses ::= unlink p |> <| sk_waiting_for_bufs ::= unlink p |>
    <| sk_dead_skbs ::= fun m => m + n |>.

(** The packets of an RPC. *)
Definition dead_packets (rpc : homa_rpc) : Z :=
  (if mi_length (rpc_msgin rpc) >=? 0 then Z.of_nat (length (mi_packets (rpc_msgin rpc))) else 0) +
  mo_num_skbs (rpc_msgout rpc).

(** The interests after the one registered for the RPC is withdrawn. *)
Definition withdrawn (o : option ptr) (m : gmap ptr homa_interest) : gmap ptr homa_interest :=
  match o with Some i => alter (fun x => x <| int_reg_rpc := None |>) i m | None => m end.

(** What holds after the part of [homa_rpc_free] that follows
    [homa_grant_free_rpc]. *)
Record freed (p : ptr) (rpc : homa_rpc) (sk : homa_sock) (w w' : world) : Prop := {
  fd_rpc : exists r, w_rpcs w' = <[p := r]> (w_rpcs w) /\ rpc_core r = rpc_core rpc /\
    rpc_interest r = None /\ rpc_msgout r = rpc_msgout rpc /\
    mi_packets (rpc_msgin r) = mi_packets (rpc_msgin rpc) /\
    mi_num_bpages (rpc_msgin r) = mi_num_bpages (rpc_msgin rpc) /\
    mi_bpage_offsets (rpc_msgin r) = mi_bpage_offsets (rpc_msgin rpc);
  fd_sock : w_socks w' = <[rpc_hsk rpc := freed_sock p (rpc_id rpc) (dead_packets rpc) sk]> (w_socks w);
  fd_interests : w_interests w' = withdrawn (rpc_interest rpc) (w_interests w);
  fd_woken : host_woken (w_host w') = host_woken (w_host w) ++ option_list (rpc_interest rpc);
  fd_throttled : h_throttled_rpcs (w_homa w') = unlink p (h_throttled_rpcs (w_homa w));
  fd_homa : exists md, w_homa w' = (w_homa w) <| h_max_dead_buffs := md |>
    <| h_throttled_rpcs ::= unlink p |>;
  fd_peers : w_peers w' = w_peers w
}.

(** The second part of [homa_rpc_free]. *)
Definition free_tail (p : ptr) (rpc : homa_rpc) : M unit :=
  let hsk := rpc_hsk rpc in
  upd_sock hsk (fun sk => (upd_bucket (rpc_id rpc) (unlink p) sk)
    <| sk_active_rpcs ::= unlink p |> <| sk_dead_rpcs ::= fun l => l ++ [p] |>
    <| sk_ready_requests ::= unlink p |> <| sk_ready_responses ::= unlink p |>
    <| sk_waiting_for_bufs ::= unlink p |>) ;;;
  match rpc_interest rpc with
  | Some i => upd_interest i (fun x => x <| int_reg_rpc := None |>) ;;; wake_up_process i ;;;
              upd_rpc p (fun r => r <| rpc_interest := None |>)
  | None => ret tt
  end ;;;
  let* rpc := get_rpc p in
  let mi := rpc_msgin rpc in
  (if mi_length mi >=? 0 then
     upd_sock hsk (fun sk => sk <| sk_dead_skbs ::= fun n => n + Z.of_nat (length (mi_packets mi)) |>) ;;;
     upd_msgin p (fun mi => mi <| mi_gaps := [] |>)
   else ret tt) ;;;
  upd_sock hsk (fun sk => sk <| sk_dead_skbs ::= fun n => n + mo_num_skbs (rpc_msgout rpc) |>) ;;;
  let* sk := get_sock hsk in
  upd_homa (fun h => if sk_dead_skbs sk >? h_max_dead_buffs h
    then h <| h_max_dead_buffs := sk_dead_skbs sk |> else h) ;;;
  homa_remove_from_throttled p.

Lemma free_split p rpc w :
  w_rpcs w !! p = Some rpc -> rpc_state_ rpc <> RPC_DEAD ->
  homa_rpc_free p w =
  (homa_grant_free_rpc p ;;; free_tail p rpc) (w <| w_rpcs ::= insert p (rpc <| rpc_state_ := RPC_DEAD |>) |>).
Proof. intros Hp Hs. unfold homa_rpc_free. step. rewrite bool_decide_false by done. step. done. Qed.

(** The withdrawal of the interest. *)
Lemma free_interest_exec p rpc w r :
  w_rpcs w !! p = Some r -> rpc_interest r = rpc_interest rpc ->
  (forall i, rpc_interest rpc = Some i -> is_Some (w_interests w !! i)) ->
  exists r' w', (match rpc_interest rpc with
    | Some i => upd_interest i (fun x => x <| int_reg_rpc := None |>) ;;; wake_up_process i ;;;
                upd_rpc p (fun r => r <| rpc_interest := None |>)
    | None => ret tt
    end) w = Ok (tt, w') /\ w_rpcs w' = <[p := r']> (w_rpcs w) /\
    r' = r <| rpc_interest := None |> /\
    w_interests w' = withdrawn (rpc_interest rpc) (w_interests w) /\
    host_woken (w_host w') = host_woken (w_host w) ++ option_list (rpc_interest rpc) /\
    w_socks w' = w_socks w /\ w_homa w' = w_homa w /\ w_peers w' = w_peers w.
Proof.
  intros Hr Hi Hint. exists (r <| rpc_interest := None |>). destruct (rpc_interest rpc) as [i|].
  - destruct (Hint i eq_refl) as [x Hx]. erewrite bind_eq by (by apply upd_interest_eq).
    erewrite bind_eq by reflexivity. eexists. split; [by apply upd_rpc_eq |]. split_ands; try done.
    simpl. by rewrite (alter_Some _ _ _ _ Hx).
  - exists w. split; [done |]. split_ands; try done; [|by rewrite app_nil_r].
    rewrite insert_id; [done |]. rewrite Hr. f_equal. destruct r. simpl in *. by subst.
Qed.

Lemma free_tail_exec p rpc r sk w :
  w_rpcs w !! p = Some r -> w_socks w !! rpc_hsk r = Some sk ->
  rpc_hsk rpc = rpc_hsk r -> rpc_id rpc = rpc_id r -> rpc_interest rpc = rpc_interest r ->
  (forall i, rpc_interest r = Some i -> is_Some (w_interests w !! i)) ->
  exists w', free_tail p rpc w = Ok (tt, w') /\ freed p r sk w w'.
Proof.
  intros Hr Hs Eh Ei En Hint. unfold free_tail. rewrite Eh, Ei.
  erewrite bind_eq by (by apply upd_sock_eq). set (w1 := w <| w_socks ::= _ |>).
  destruct (free_interest_exec p rpc w1 r) as (r1 & w2 & Hex & Hr2 & Er1 & Hi2 & Hw2 & Hs2 & Hh2 & Hp2);
    [done | done | by rewrite En |].
  rewrite (bind_eq _ _ _ _ _ Hex). rewrite En in *.
  assert (w_rpcs w2 !! p = Some r1) as Hr2' by (rewrite Hr2; apply lookup_insert_eq).
  rewrite (bind_eq _ _ _ _ _ (get_rpc_eq _ _ _ Hr2')).
  assert (rpc_msgin r1 = rpc_msgin r /\ rpc_msgout r1 = rpc_msgout r) as [Emi Emo] by (by subst r1).
  rewrite Emi, Emo. set (mi := rpc_msgin r) in *.
  set (sk1 := freed_sock p (rpc_id r) 0 sk).
  assert (exists r3 sk3 w3, (if mi_length mi >=? 0 then
     upd_sock (rpc_hsk r) (fun sk => sk <| sk_dead_skbs ::= fun n => n + Z.of_nat (length (mi_packets mi)) |>) ;;;
     upd_msgin p (fun mi => mi <| mi_gaps := [] |>)
   else ret tt) w2 = Ok (tt, w3) /\ w_rpcs w3 = <[p := r3]> (w_rpcs w) /\
    rpc_core r3 = rpc_core r /\ rpc_interest r3 = None /\ rpc_msgout r3 = rpc_msgout r /\
    mi_packets (rpc_msgin r3) = mi_packets mi /\ mi_num_bpages (rpc_msgin r3) = mi_num_bpages mi /\
    mi_bpage_offsets (rpc_msgin r3) = mi_bpage_offsets mi /\
    w_socks w3 = <[rpc_hsk r := sk3]> (w_socks w) /\
    sk3 = freed_sock p (rpc_id r) (if mi_length mi >=? 0 then Z.of_nat (length (mi_packets mi)) else 0) sk /\
    w_interests w3 = w_interests w2 /\ w_host w3 = w_host w2 /\ w_homa w3 = w_homa w2 /\ w_peers w3 = w_peers w2)
    as (r3 & sk3 & w3 & Hex3 & Hr3 & R1 & R2 & R3 & R4 & R5 & R6 & Hs3 & Esk3 & Hi3 & Ho3 & Hh3 & Hp3).
  { assert (forall n, (upd_bucket (rpc_id r) (unlink p) sk) <| sk_active_rpcs ::= unlink p |>
      <| sk_dead_rpcs ::= fun l => l ++ [p] |> <| sk_ready_requests ::= unlink p |>
      <| sk_ready_responses ::= unlink p |> <| sk_waiting_for_bufs ::= unlink p |>
      <| sk_dead_skbs ::= fun m => m + n |> = freed_sock p (rpc_id r) n sk) as Hfs by done.
    destruct (mi_length mi >=? 0).
    - erewrite bind_eq by (apply upd_sock_eq; rewrite Hs2; apply lookup_insert_eq). unfold upd_msgin.
      eexists _, _, _. split; [apply upd_rpc_eq; exact Hr2' |]. simpl.
      rewrite Hr2, insert_insert_eq, Hs2. simpl. rewrite insert_insert_eq, Emi. subst r1. split_ands; done.
    - exists r1, (freed_sock p (rpc_id r) 0 sk), w2. rewrite Hr2, Hs2, Emi, Emo. subst r1.
      split_ands; try done. unfold w1. simpl. rewrite <- Hfs. f_equal. simpl.
      destruct (upd_bucket _ _ sk). simpl. by rewrite Z.add_0_r. }
  rewrite (bind_eq _ _ _ _ _ Hex3).
  assert (w_socks w3 !! rpc_hsk r = Some sk3) as Hsk3 by (rewrite Hs3; apply lookup_insert_eq).
  erewrite bind_eq by (by apply upd_sock_eq). erewrite bind_eq by (apply get_sock_eq, lookup_insert_eq).
  erewrite bind_eq by reflexivity. eexists. split; [reflexivity |]. constructor; simpl.
  - exists r3. split_ands; done.
  - rewrite Hs3, insert_insert_eq. f_equal. subst sk3. unfold freed_sock, dead_packets. fold mi. simpl.
    by rewrite Z.add_assoc.
  - by rewrite Hi3.
  - by rewrite Ho3.
  - rewrite Hh3, Hh2. by destruct (_ >? _).
  - rewrite Hh3, Hh2. change (w_homa w1) with (w_homa w). destruct (_ >? _); [by eexists |]. exists (h_max_dead_buffs (w_homa w)). by destruct (w_homa w).
  - by rewrite Hp3.
Qed.

Lemma freed_chain p id n sk id' :
  tables_ok sk -> rpc_chain (freed_sock p id n sk) id' =
    if decide (same_bucket id id') then unlink p (rpc_chain sk id') else rpc_chain sk id'.
Proof.
  intros Ht. rewrite <- (upd_bucket_chain sk id (unlink p) id' Ht).
  unfold freed_sock, rpc_chain, upd_bucket. by destruct (homa_is_client id).
Qed.

Lemma freed_lists p id n sk :
  sk_active_rpcs (freed_sock p id n sk) = unlink p (sk_active_rpcs sk) /\
  sk_dead_rpcs (freed_sock p id n sk) = sk_dead_rpcs sk ++ [p] /\
  sk_ready_requests (freed_sock p id n sk) = unlink p (sk_ready_requests sk) /\
  sk_ready_responses (freed_sock p id n sk) = unlink p (sk_ready_responses sk) /\
  sk_waiting_for_bufs (freed_sock p id n sk) = unlink p (sk_waiting_for_bufs sk) /\
  sk_request_interests (freed_sock p id n sk) = sk_request_interests sk /\
  sk_response_interests (freed_sock p id n sk) = sk_response_interests sk /\
  sk_dead_skbs (freed_sock p id n sk) = sk_dead_skbs sk + n.
Proof. unfold freed_sock, upd_bucket. by destruct (homa_is_client id). Qed.

(** No list or table of the socket leads to [p]. *)
Record unlisted (p : ptr) (sk : homa_sock) : Prop := {
  un_active : p ∉ sk_active_rpcs sk;
  un_chain : forall id, p ∉ rpc_chain sk id;
  un_requests : p ∉ sk_ready_requests sk;
  un_responses : p ∉ sk_ready_responses sk;
  un_waiting : p ∉ sk_waiting_for_bufs sk
}.

Lemma rpcs_ok_freed hsk sk w p rpc n w' r :
  rpcs_ok hsk sk w -> p ∈ sk_active_rpcs sk -> w_rpcs w !! p = Some rpc ->
  w_socks w' !! hsk = Some (freed_sock p (rpc_id rpc) n sk) ->
  w_rpcs w' !! p = Some r -> rpc_hsk r = hsk -> rpc_state_ r = RPC_DEAD ->
  (forall q x, q <> p -> w_rpcs w !! q = Some x ->
     exists x', w_rpcs w' !! q = Some x' /\ rpc_core x' = rpc_core x) ->
  (forall q, is_Some (w_peers w !! q) -> is_Some (w_peers w' !! q)) ->
  rpcs_ok hsk (freed_sock p (rpc_id rpc) n sk) w' /\ unlisted p (freed_sock p (rpc_id rpc) n sk).
Proof.
  intros [H1 H2 H3 H4 H5 H6 (N1 & N2 & N3 & N4 & N5 & N6)] Ha Hp Hs Hr Eh Est Hq Hpe.
  set (sk' := freed_sock p (rpc_id rpc) n sk) in *.
  destruct (freed_lists p (rpc_id rpc) n sk) as (La & Ld & Lq & Ls & Lw & _). fold sk' in La, Ld, Lq, Ls, Lw.
  rewrite unlink_filter in La, Lq, Ls, Lw by done.
  assert (forall id, rpc_chain sk' id = filter (.≠ p) (rpc_chain sk id)) as Hc.
  { intros id. unfold sk'. rewrite freed_chain by done. destruct (decide _) as [E | E]; [by apply unlink_filter |].
    symmetry. apply filter_all. intros q Hin ->. destruct (H3 id p Hin) as [_ (x & Hx & Hsb)].
    rewrite Hp in Hx. by injection Hx as <-. }
  assert (forall q, q ∈ sk_dead_rpcs sk -> q <> p) as Hdp.
  { intros q Hin ->. destruct (H5 p Hin) as (x & Hx & _ & Hd). destruct (H4 p Ha) as (y & Hy & _ & Hnd & _). congruence. }
  split.
  - constructor; try done.
    + exact (upd_bucket_tables (rpc_id rpc) (unlink p) sk H2).
    + intros id q. rewrite Hc, La. intros [Hne Hin]%list_elem_of_filter.
      destruct (H3 id q Hin) as [? (x & Hx & ?)]. destruct (Hq q x Hne Hx) as (x' & Hx' & [= E1 E2 E3 E4]).
      split; [by apply list_elem_of_filter |]. exists x'. by rewrite E3.
    + intros q. rewrite La. intros [Hne Hin]%list_elem_of_filter.
      destruct (H4 q Hin) as (x & Hx & ? & ? & ? & ?). destruct (Hq q x Hne Hx) as (x' & Hx' & [= E1 E2 E3 E4]).
      exists x'. rewrite E1, E2, E3, E4, Hc. split_ands; auto. by apply list_elem_of_filter.
    + intros q. rewrite Ld. intros [Hin | ->%list_elem_of_singleton]%elem_of_app; [|by exists r].
      destruct (H5 q Hin) as (x & Hx & ? & ?). destruct (Hq q x (Hdp q Hin) Hx) as (x' & Hx' & [= E1 E2 E3 E4]).
      exists x'. by rewrite E1, E2.
    + rewrite La, Lq, Ls, Lw. setoid_rewrite list_elem_of_filter. intros q Hin. split; [tauto |]. apply H6. tauto.
    + rewrite La, Ld, Lq, Ls, Lw. split_ands; try by apply NoDup_filter.
      * apply NoDup_app. split_ands; [done | | apply NoDup_singleton]. intros q Hin ->%list_elem_of_singleton. by apply (Hdp p).
      * intros id. rewrite Hc. by apply NoDup_filter.
  - constructor; [rewrite La | intros id; rewrite Hc | rewrite Lq | rewrite Ls | rewrite Lw];
      rewrite list_elem_of_filter; tauto.
Qed.

(** The interests after the withdrawal. *)
Lemma interests_ok_freed hsk sk w p rpc r n w' :
  interests_ok hsk w -> w_rpcs w !! p = Some rpc -> w_socks w !! hsk = Some sk ->
  w_socks w' !! hsk = Some (freed_sock p (rpc_id rpc) n sk) ->
  w_interests w' = withdrawn (rpc_interest rpc) (w_interests w) ->
  w_rpcs w' !! p = Some r -> rpc_interest r = None ->
  (forall q x, q <> p -> w_rpcs w !! q = Some x ->
     exists x', w_rpcs w' !! q = Some x' /\ rpc_interest x' = rpc_interest x) ->
  (forall q x', q <> p -> w_rpcs w' !! q = Some x' ->
     exists x, w_rpcs w !! q = Some x /\ rpc_interest x' = rpc_interest x) ->
  interests_ok hsk w' /\ map_Forall (fun _ x => int_reg_rpc x <> Some p) (w_interests w').
Proof.
  intros [(sk0 & Hsk & Hn1 & Hn2 & Hw) Hreg Hrpc] Hp Hs Hs' Hi' Hr Hrn Hq Hq'.
  rewrite Hs in Hsk. injection Hsk as <-.
  destruct (freed_lists p (rpc_id rpc) n sk) as (_ & _ & _ & _ & _ & L1 & L2 & _).
  assert (forall j, w_interests w' !! j = (fun x => if bool_decide (rpc_interest rpc = Some j)
    then x <| int_reg_rpc := None |> else x) <$> w_interests w !! j) as Hil.
  { intros j. rewrite Hi'. unfold withdrawn. destruct (rpc_interest rpc) as [i|].
    - destruct (decide (i = j)) as [-> | Hne].
      + rewrite lookup_alter_eq. destruct (w_interests w !! j); simpl; [|done]. by rewrite bool_decide_true.
      + rewrite lookup_alter_ne by done. destruct (w_interests w !! j); simpl; [|done].
        by rewrite bool_decide_false by congruence.
    - by destruct (w_interests w !! j). }
  assert (forall j x, w_interests w' !! j = Some x -> exists y, w_interests w !! j = Some y /\
    int_ready_rpc x = int_ready_rpc y /\
    (int_reg_rpc x = int_reg_rpc y /\ int_reg_rpc y <> Some p \/ int_reg_rpc x = None)) as Hback.
  { intros j x. rewrite Hil. intros (y & Hy & ->)%fmap_Some. exists y. split; [done |].
    case_bool_decide as E; [split; [done | by right] |]. split; [done |]. left. split; [done |].
    intros Ey. destruct (Hreg j y p Hy Ey) as [_ (x & Hx & Hxi)]. congruence. }
  split; [constructor |].
  - eexists. split; [exact Hs' |]. unfold waiting. rewrite L1, L2. split_ands; [done | done |].
    intros j Hj. destruct (Hw j Hj) as (x & Hx & Hnone). rewrite Hil, Hx. eexists. split; [reflexivity |].
    by case_bool_decide.
  - intros j x q Hx Hxq. destruct (Hback j x Hx) as (y & Hy & Er & [[Eg Hnp] | Eg]); [|congruence].
    rewrite Eg in Hxq. destruct (Hreg j y q Hy Hxq) as [? (z & Hz & Hzi)]. split; [congruence |].
    destruct (Hq q z ltac:(congruence) Hz) as (z' & ? & ?). exists z'. split; [done | congruence].
  - intros q x j Hx Hxj. destruct (decide (q = p)) as [-> | Hne]; [congruence |].
    destruct (Hq' q x Hne Hx) as (y & Hy & E). destruct (Hrpc q y j Hy ltac:(congruence)) as (z & Hz & Hzq).
    rewrite Hil, Hz. eexists. split; [reflexivity |]. case_bool_decide as Eb; [|done].
    destruct (Hrpc p rpc j Hp Eb) as (z' & Hz' & Hz'p). congruence.
  - intros j x Hx. destruct (Hback j x Hx) as (y & Hy & Er & [[Eg Hnp] | Eg]); congruence.
Qed.

(** The grant invariant only reads these fields. *)
Definition grant_homa (h : homa) : list ptr * Z * Z * list (option ptr) * list Z * Z * Z :=
  (h_grantable_peers h, h_num_grantable_rpcs h, h_total_incoming h, h_active_rpcs h,
   h_active_remaining h, h_num_active_rpcs h, h_max_overcommit h).

Lemma grant_inv_frame w w' :
  grant_inv w -> grant_homa (w_homa w') = grant_homa (w_homa w) -> w_peers w' = w_peers w ->
  w_rpcs w' = w_rpcs w -> (forall s, is_Some (w_socks w !! s) -> is_Some (w_socks w' !! s)) -> grant_inv w'.
Proof.
  intros ([[Hl Hn] Ho Ht] & [Ha1 Ha2 Ha3 Ha4] & Hpar) [= E1 E2 E3 E4 E5 E6 E7] Hpe Hr Hs.
  split; [constructor | split; [constructor |]]; unfold world_lists_ok, params_ok in *;
    rewrite ?E1, ?E2, ?E3, ?E4, ?E5, ?E6, ?E7, ?Hr, ?Hpe; auto.
  intros p x Hx. destruct (Ho p x Hx) as [? ?]. auto.
Qed.

(** Nothing of the protocol state leads to [p] any more. *)
Record unreachable (p : ptr) (sk : homa_sock) (w : world) : Prop := {
  ur_sock : unlisted p sk;
  ur_interest : map_Forall (fun _ x => int_reg_rpc x <> Some p) (w_interests w);
  ur_grantable : p ∉ world_grantable w;
  ur_active : not_active p w;
  ur_throttled : p ∉ h_throttled_rpcs (w_homa w)
}.

(** The RPCs other than [p] keep everything but the grant state. *)
Definition others_kept (p : ptr) (w w' : world) : Prop :=
  delete p (rpc_rest <$> w_rpcs w') = delete p (rpc_rest <$> w_rpcs w).

Lemma others_kept_lookup p w w' q x :
  others_kept p w w' -> q <> p -> w_rpcs w !! q = Some x ->
  exists x', w_rpcs w' !! q = Some x' /\ rpc_rest x' = rpc_rest x.
Proof.
  intros H Hne Hx. assert (delete p (rpc_rest <$> w_rpcs w') !! q = Some (rpc_rest x)) as Hq
    by (by rewrite H, lookup_delete_ne, lookup_fmap, Hx).
  rewrite lookup_delete_ne, lookup_fmap in Hq by done. apply fmap_Some in Hq as (x' & ? & ?). by exists x'.
Qed.

Lemma rest_core r r' : rpc_rest r' = rpc_rest r ->
  rpc_core r' = rpc_core r /\ rpc_interest r' = rpc_interest r /\ rpc_msgout r' = rpc_msgout r /\
  mi_packets (rpc_msgin r') = mi_packets (rpc_msgin r) /\ mi_length (rpc_msgin r') = mi_length (rpc_msgin r) /\
  mi_num_bpages (rpc_msgin r') = mi_num_bpages (rpc_msgin r) /\
  mi_bpage_offsets (rpc_msgin r') = mi_bpage_offsets (rpc_msgin r).
Proof.
  intros H. unfold rpc_core.
  pose proof (f_equal rpc_hsk H). pose proof (f_equal rpc_state_ H). pose proof (f_equal rpc_id H).
  pose proof (f_equal rpc_peer H). pose proof (f_equal rpc_interest H). pose proof (f_equal rpc_msgout H).
  pose proof (f_equal (fun r => mi_packets (rpc_msgin r)) H).
  pose proof (f_equal (fun r => mi_length (rpc_msgin r)) H).
  pose proof (f_equal (fun r => mi_num_bpages (rpc_msgin r)) H).
  pose proof (f_equal (fun r => mi_bpage_offsets (rpc_msgin r)) H).
  simpl in *. split_ands; congruence.
Qed.

Lemma fmap_dom {A B} (f : A -> B) (m m' : gmap ptr A) q :
  f <$> m' = f <$> m -> is_Some (m !! q) -> is_Some (m' !! q).
Proof. intros H Hq. by rewrite <- (fmap_is_Some f), <- lookup_fmap, H, lookup_fmap, fmap_is_Some. Qed.

(** [homa_rpc_free] is [homa_grant_free_rpc] on the RPC marked dead, then the
    unlinking. *)
Lemma rpc_free_exec p w rpc sk :
  grant_state w -> interests_ok (rpc_hsk rpc) w -> w_socks w !! rpc_hsk rpc = Some sk ->
  w_rpcs w !! p = Some rpc -> rpc_state_ rpc <> RPC_DEAD ->
  exists w2 r2 w', homa_rpc_free p w = Ok (tt, w') /\
    grant_frame (w <| w_rpcs ::= insert p (rpc <| rpc_state_ := RPC_DEAD |>) |>) w2 /\
    (p ∉ world_grantable w2) /\ not_active p w2 /\ grant_inv (w2 <| w_rpcs ::= delete p |>) /\
    rpc_rest r2 = rpc_rest (rpc <| rpc_state_ := RPC_DEAD |>) /\ freed p r2 sk w2 w'.
Proof.
  intros Hg Hio Hs Hp Hlive. rewrite (free_split p rpc w Hp Hlive). set (dead := rpc <| rpc_state_ := RPC_DEAD |>).
  set (w1 := w <| w_rpcs ::= insert p dead |>).
  assert (grant_state w1) as [Hg1 Hag1] by (by apply (grant_state_rpc w w1 p rpc dead)).
  destruct (free_rpc_spec p w1 Hg1 Hag1) as (w2 & Hex & Hf & Hng & Hna & Hg2).
  { exists dead. apply lookup_insert_eq. }
  rewrite (bind_eq _ _ _ _ _ Hex).
  destruct (rest_lookup _ _ p dead (gf_rpcs _ _ Hf)) as (r2 & Hr2 & E2); [apply lookup_insert_eq |].
  destruct (rest_core dead r2 E2) as ([= C1 C2 C3 C4] & C5 & _).
  change (rpc_interest dead) with (rpc_interest rpc) in C5.
  destruct (free_tail_exec p rpc r2 sk w2) as (w3 & Hex3 & F); try done; try congruence.
  { rewrite (gf_socks _ _ Hf), C1. done. }
  { intros i Hi. rewrite (gf_interests _ _ Hf). destruct (io_rpc _ _ Hio p rpc i Hp) as (x & Hx & _); [congruence |].
    exists x. exact Hx. }
  exists w2, r2, w3. split_ands; done.
Qed.

(** What freeing the RPC leaves behind. *)
Record rpc_freed (p : ptr) (rpc : homa_rpc) (sk : homa_sock) (w w' : world) : Prop := {
  rf_socks : w_socks w' = <[rpc_hsk rpc := freed_sock p (rpc_id rpc) (dead_packets rpc) sk]> (w_socks w);
  rf_others : others_kept p w w';
  rf_rpc : exists r, w_rpcs w' !! p = Some r /\ rpc_state_ r = RPC_DEAD /\ rpc_msgout r = rpc_msgout rpc /\
    mi_packets (rpc_msgin r) = mi_packets (rpc_msgin rpc) /\
    mi_num_bpages (rpc_msgin r) = mi_num_bpages (rpc_msgin rpc) /\
    mi_bpage_offsets (rpc_msgin r) = mi_bpage_offsets (rpc_msgin rpc);
  rf_woken : host_woken (w_host w') = host_woken (w_host w) ++ option_list (rpc_interest rpc);
  rf_grant : grant_inv (w' <| w_rpcs ::= delete p |>)
}.

Lemma rpc_free_spec p w rpc sk :
  grant_state w -> rpcs_ok (rpc_hsk rpc) sk w -> interests_ok (rpc_hsk rpc) w ->
  NoDup (h_throttled_rpcs (w_homa w)) -> w_rpcs w !! p = Some rpc -> p ∈ sk_active_rpcs sk ->
  let sk' := freed_sock p (rpc_id rpc) (dead_packets rpc) sk in
  exists w', homa_rpc_free p w = Ok (tt, w') /\ rpc_freed p rpc sk w w' /\
    rpcs_ok (rpc_hsk rpc) sk' w' /\ interests_ok (rpc_hsk rpc) w' /\ unreachable p sk' w'.
Proof.
  intros Hg Hok Hio Hthr Hp Ha sk'.
  destruct (ro_active _ _ _ Hok p Ha) as (rpc0 & Hp0 & _ & Hlive & _). rewrite Hp in Hp0. injection Hp0 as <-.
  destruct (rpc_free_exec p w rpc sk) as (w2 & r2 & w3 & Hex & Hf & Hng & Hna & Hg2 & E2 & F); try done; [apply Hok |].
  exists w3. split; [done |].
  destruct (rest_core _ _ E2) as ([= C1 C2 C3 C4] & C5 & C6 & C7 & C8 & C9 & C10).
  simpl in C5, C6, C7, C8, C9, C10.
  assert (dead_packets r2 = dead_packets rpc) as Edp by (unfold dead_packets; by rewrite C6, C7, C8).
  destruct F as [(r & Fr & [= F1 F2 F3 F4] & Fi & Fo & Fp & Fb & Ff) Fs Fint Fw Ft (md & Fh) Fpe].
  rewrite C1, C3, Edp, (gf_socks _ _ Hf) in Fs. simpl in Fs. fold sk' in Fs.
  rewrite (gf_interests _ _ Hf), C5 in Fint. simpl in Fint.
  assert (w_rpcs w3 !! p = Some r) as Hr3 by (rewrite Fr; apply lookup_insert_eq).
  assert (others_kept p w w3) as Hk.
  { unfold others_kept. rewrite Fr, fmap_insert, delete_insert_eq, (gf_rpcs _ _ Hf). simpl.
    by rewrite fmap_insert, delete_insert_eq. }
  assert (w_socks w3 !! rpc_hsk rpc = Some sk') as Hs3 by (rewrite Fs; apply lookup_insert_eq).
  destruct (rpcs_ok_freed (rpc_hsk rpc) sk w p rpc (dead_packets rpc) w3 r) as [Hok' Hun]; try done; try congruence.
  { intros q x Hne Hx. destruct (others_kept_lookup p w w3 q x Hk Hne Hx) as (x' & ? & E). exists x'. split; [done |]. apply (rest_core _ _ E). }
  { intros q. rewrite Fpe. apply (fmap_dom _ _ _ q (gf_peers _ _ Hf)). }
  destruct (interests_ok_freed (rpc_hsk rpc) sk w p rpc r (dead_packets rpc) w3) as [Hio' Hir]; try done; [apply Hok | | |].
  { intros q x Hne Hx. destruct (others_kept_lookup p w w3 q x Hk Hne Hx) as (x' & ? & E). exists x'. split; [done |]. apply (rest_core _ _ E). }
  { intros q x Hne Hx. destruct (others_kept_lookup p w3 w q x (eq_sym Hk) Hne Hx) as (x' & ? & E). exists x'. split; [done |]. symmetry. apply (rest_core _ _ E). }
  split_ands; try done.
  - constructor; try done.
    + exists r. split_ands; congruence.
    + by rewrite Fw, (gf_host _ _ Hf), C5.
    + apply (grant_inv_frame (w2 <| w_rpcs ::= delete p |>)); try done; simpl; [by rewrite Fh | by rewrite Fr, delete_insert_eq |].
      intros s. rewrite Fs, (gf_socks _ _ Hf). intros Hs. apply lookup_insert_is_Some'. by right.
  - constructor; try done.
    + unfold world_grantable, not_active in *. by rewrite Fpe, Fh.
    + unfold not_active in *. by rewrite Fh.
    + rewrite Ft. pose proof (f_equal h_throttled_rpcs (gf_homa _ _ Hf)) as Et. simpl in Et. rewrite Et.
      rewrite unlink_filter, list_elem_of_filter by done. tauto.
Qed.


Lemma ex_rpcs_grant : grant_state ex_rpcs.
Proof. apply (grant_state_sock ex _ 1%positive ex_rpc_sock ex_idle); try done. by right. Qed.

Lemma ex_rpcs_interests : interests_ok 1%positive ex_rpcs.
Proof.
  constructor.
  - eexists. split; [reflexivity |]. split_ands; [constructor | constructor |].
    intros i [H | H]; by apply elem_of_nil in H.
  - intros i x q H. done.
  - intros q r i Hq Hi. assert (map_Forall (fun _ r => rpc_interest r = None) (w_rpcs ex_rpcs)) as Hall.
    { apply (bool_decide_eq_true_1 _). vm_compute. reflexivity. }
    specialize (Hall q r Hq). simpl in Hall. congruence.
Qed.

