(* ===== verification/Copy.v ===== *)
(** * Copying messages to user space (homa_incoming.c)

    [homa_copy_to_user] moves the data of the packets of a message to the
    buffers that the pool assigned to the message.  The theorem combines it
    with reassembly and the buffer pool: user memory receives the bytes of the
    message. *)
From S2P Require Import Prelude Lists Wire Types Example Reassembly Pool Grant PoolWait Outgoing.

(** ** The code *)
Definition MAX_SKBS : Z := 20.

(** Outcomes of the host for a copy to an address: the errno of
    [import_ubuf], and that of [skb_copy_datagram_iter] (0 is success) with the
    number of bytes copied before the error. *)
Record copy_env := { cp_import : Z -> Z -> Z; cp_copy : Z -> Z -> Z; cp_part : Z -> Z -> nat }.

Definition user_write (dst : Z) (bytes : list Z) : M unit :=
  upd_host (fun ho => ho <| host_user ::= fun l => l ++ [(dst, bytes)] |>).

(** The loop over the user buffers of one packet. *)
Fixpoint copy_pkt (env : copy_env) (fuel : nat) (p : ptr) (skb : skb_in) (copied : Z) : M Z :=
  if copied >=? skb_data_len skb then ret 0 else
  match fuel with
  | O => raise OutOfFuel
  | S fuel =>
      let chunk_size := skb_data_len skb - copied in
      let* rpc := get_rpc p in
      let* sk := get_sock (rpc_hsk rpc) in
      let* (dst, buf_bytes) := lift (homa_pool_get_buffer (pool_region (sk_buffer_pool sk))
        (rpc_msgin rpc) (s32 (pkt_start skb + copied))) in
      if (buf_bytes <? chunk_size) && (buf_bytes =? 0) then ret 0 else
      let chunk_size := if buf_bytes <? chunk_size then buf_bytes else chunk_size in
      let bytes := slice (skb_data skb) copied chunk_size in
      if negb (cp_import env dst chunk_size =? 0) then ret (cp_import env dst chunk_size)
      else if negb (cp_copy env dst chunk_size =? 0)
      then (user_write dst (take (cp_part env dst chunk_size) bytes) ;;;
            ret (cp_copy env dst chunk_size))
      else (user_write dst bytes ;;; copy_pkt env fuel p skb (copied + chunk_size))
  end.

(** The packets of a batch; an error skips the rest. *)
Fixpoint copy_pkts (env : copy_env) (p : ptr) (l : list skb_in) : M Z :=
  match l with
  | [] => ret 0
  | skb :: l' =>
      let* error := copy_pkt env (Z.to_nat (skb_data_len skb)) p skb 0 in
      if negb (error =? 0) then ret error else copy_pkts env p l'
  end.

(** The outer loop: every iteration takes up to [MAX_SKBS] packets. *)
Fixpoint copy_loop (env : copy_env) (fuel : nat) (p : ptr) : M Z :=
  let* rpc := get_rpc p in
  if bool_decide (rpc_state_ rpc = RPC_DEAD) then ret (- EINVAL) else
  let skbs := take (Z.to_nat MAX_SKBS) (mi_packets (rpc_msgin rpc)) in
  if bool_decide (skbs = []) then ret 0 else
  match fuel with
  | O => raise OutOfFuel
  | S fuel =>
      upd_rpc p (fun r => flags_or RPC_COPYING_TO_USER
        (r <| rpc_msgin ::= fun mi => mi <| mi_packets ::= drop (Z.to_nat MAX_SKBS) |> |>)) ;;;
      let* error := copy_pkts env p skbs in
      upd_rpc p (flags_or APP_NEEDS_LOCK) ;;;
      upd_rpc p (flags_andnot (Z.lor APP_NEEDS_LOCK RPC_COPYING_TO_USER)) ;;;
      if negb (error =? 0) then ret error else copy_loop env fuel p
  end.

Definition homa_copy_to_user (env : copy_env) (p : ptr) : M Z :=
  let* rpc := get_rpc p in
  copy_loop env (length (mi_packets (rpc_msgin rpc))) p.

(** ** User memory

    The contents of user memory after a sequence of copies. *)
Definition store (m : Z -> Z) (wr : Z * list Z) : Z -> Z := fun a =>
  if wr.1 <=? a then default (m a) (wr.2 !! Z.to_nat (a - wr.1)) else m a.
Definition user_memory (m : Z -> Z) (log : list (Z * list Z)) : Z -> Z := foldl store m log.

(** The address of byte [off] of a message whose buffers are [bufs]. *)
Definition place (region : Z) (bufs : list buf) (off : Z) : Z :=
  region + (default (0, 0) (bufs !! Z.to_nat (Z.shiftr off HOMA_BPAGE_SHIFT))).1 +
  Z.land off (HOMA_BPAGE_SIZE - 1).

(** From [m] to [m'] exactly the bytes of [msg] in [S] were stored. *)
Definition wrote (at_ : Z -> Z) (msg : list Z) (S : Z -> bool) (m m' : Z -> Z) : Prop :=
  (forall b, S b = true -> msg !! Z.to_nat b = Some (m' (at_ b))) /\
  (forall a, (forall b, S b = true -> at_ b <> a) -> m' a = m a).

Lemma wrote_nothing at_ msg S m : (forall b, S b = false) -> wrote at_ msg S m m.
Proof. intros H. split; [|done]. intros b Hb. by rewrite H in Hb. Qed.

Lemma wrote_trans at_ msg S1 S2 S m m1 m2 :
  (forall x y, S x = true -> S y = true -> at_ x = at_ y -> x = y) ->
  (forall b, S b = S1 b || S2 b) ->
  wrote at_ msg S1 m m1 -> wrote at_ msg S2 m1 m2 -> wrote at_ msg S m m2.
Proof.
  intros Hinj HS [H1 H1'] [H2 H2']. split.
  - intros b Hb. destruct (S2 b) eqn:E2; [by apply H2 |].
    assert (S1 b = true) as E1 by (rewrite HS, E2, orb_false_r in Hb; done). rewrite H2'; [by apply H1 |].
    intros b' Hb' E. assert (b' = b) as ->; [|congruence]. apply Hinj; [by rewrite HS, Hb', orb_true_r | done | done].
  - intros a Ha. rewrite H2', H1'; [done | |]; intros b Hb; apply Ha; by rewrite HS, Hb, ?orb_true_r.
Qed.

Lemma user_memory_app m l1 l2 : user_memory m (l1 ++ l2) = user_memory (user_memory m l1) l2.
Proof. apply foldl_app. Qed.

(** One copy within a buffer. *)
Lemma store_chunk at_ msg off n m :
  0 <= off -> 0 <= n -> off + n <= Z.of_nat (length msg) ->
  (forall i, 0 <= i < n -> at_ (off + i) = at_ off + i) ->
  wrote at_ msg (fun b => (off <=? b) && (b <? off + n)) m (store m (at_ off, slice msg off n)).
Proof.
  intros Ho Hn Hl Hat. split.
  - intros b Hb. unfold store. simpl.
    assert (at_ b = at_ off + (b - off)) as E by (rewrite <- Hat by lia; f_equal; lia).
    destruct (Z.leb_spec (at_ off) (at_ b)); [|lia].
    replace (at_ b - at_ off) with (b - off) by lia. rewrite slice_lookup by lia.
    replace (off + (b - off)) with b by lia. destruct (lookup_lt_is_Some_2 msg (Z.to_nat b)) as [x ->]; [lia | done].
  - intros a Ha. unfold store. simpl. destruct (Z.leb_spec (at_ off) a); [|done].
    rewrite lookup_ge_None_2; [done |]. pose proof (slice_length msg off n Ho Hn Hl).
    destruct (Z.ltb_spec (a - at_ off) n); [|lia]. exfalso. apply (Ha (off + (a - at_ off))); [lia |].
    rewrite Hat by lia. lia.
Qed.

(** ** Addresses *)
Section Place.
Context (region : Z) (mi : homa_message_in) (bufs : list buf).
Hypothesis Hholds : holds mi bufs.
Hypothesis Hbufs : message_bufs (mi_length mi) bufs.
Hypothesis Hmax : mi_length mi <= HOMA_MAX_MESSAGE_LENGTH.

Lemma place_get off :
  0 <= off < mi_length mi ->
  exists n, 0 < n /\ homa_pool_get_buffer region mi off = Ok (place region bufs off, n) /\
    forall i, 0 <= i < n -> place region bufs (off + i) = place region bufs off + i.
Proof.
  intros Hoff. destruct (get_buffer_spec region mi bufs off Hholds Hbufs Hoff Hmax) as (b & Hb & Ho & E).
  exists (b.2 - Z.land off (HOMA_BPAGE_SIZE - 1)). split; [lia |]. split.
  { rewrite E. unfold place. by rewrite Hb. }
  intros i Hi. destruct Hbufs as [_ Hsz]. specialize (Hsz _ _ Hb).
  destruct (length_split off) as [H1 H2]. destruct (length_split (off + i)) as [H3 H4].
  assert (Z.shiftr (off + i) HOMA_BPAGE_SHIFT = Z.shiftr off HOMA_BPAGE_SHIFT) as Ek by nia.
  unfold place. rewrite Ek. rewrite Ek in H3. lia.
Qed.

Lemma place_inj pool live x y :
  pool_inv pool (bufs ++ live) -> 0 <= x < mi_length mi -> 0 <= y < mi_length mi ->
  place region bufs x = place region bufs y -> x = y.
Proof.
  intros Hp Hx Hy E. destruct (get_buffer_spec region mi bufs x Hholds Hbufs Hx Hmax) as (b & Hb & Ho & _).
  destruct (get_buffer_spec region mi bufs y Hholds Hbufs Hy Hmax) as (c & Hc & Ho' & _).
  unfold place in E. rewrite Hb, Hc in E. simpl in E.
  destruct (length_split x) as [H1 H2]. destruct (length_split y) as [H3 H4].
  set (a := b.1 + Z.land x (HOMA_BPAGE_SIZE - 1)) in *.
  assert (Z.to_nat (Z.shiftr x HOMA_BPAGE_SHIFT) = Z.to_nat (Z.shiftr y HOMA_BPAGE_SHIFT)) as Ek.
  { pose proof (pi_disjoint _ _ Hp a) as Hd.
    apply (countb_unique (in_buf a) (bufs ++ live) _ _ b c Hd); [by apply lookup_app_l_Some .. | |]; unfold in_buf; lia. }
  assert (b = c) as -> by congruence.
  assert (0 <= Z.shiftr x HOMA_BPAGE_SHIFT /\ 0 <= Z.shiftr y HOMA_BPAGE_SHIFT) by (split; apply Z.shiftr_nonneg; lia).
  assert (Z.shiftr x HOMA_BPAGE_SHIFT = Z.shiftr y HOMA_BPAGE_SHIFT) as Es by lia.
  rewrite Es in H1. lia.
Qed.
End Place.

(** ** Copying *)

(** [skb] holds a part of the message [msg]. *)
Definition carries (msg : list Z) (skb : skb_in) : Prop :=
  0 <= pkt_start skb /\ pkt_start skb + skb_data_len skb <= Z.of_nat (length msg) /\
  skb_data skb = slice msg (pkt_start skb) (skb_data_len skb).

Definition no_errors (env : copy_env) : Prop :=
  forall a n, cp_import env a n = 0 /\ cp_copy env a n = 0.

(** The state after more copies to user memory. *)
Definition copied_out (l : list (Z * list Z)) (w : world) : world :=
  w <| w_host ::= fun ho => ho <| host_user ::= fun k => k ++ l |> |>.

Lemma copied_out_nil w : copied_out [] w = w.
Proof. destruct w as [? ? ? ? ? ? ? []]. unfold copied_out. simpl. by rewrite app_nil_r. Qed.
Lemma copied_out_app l1 l2 w : copied_out l2 (copied_out l1 w) = copied_out (l1 ++ l2) w.
Proof. unfold copied_out. simpl. by rewrite <- app_assoc. Qed.

Section CopyOut.
Context (env : copy_env) (p : ptr) (sk : homa_sock) (bufs live : list buf) (msg : list Z).
Hypothesis Henv : no_errors env.
Hypothesis Hpool : pool_inv (sk_buffer_pool sk) (bufs ++ live).
Hypothesis Hmax : Z.of_nat (length msg) <= HOMA_MAX_MESSAGE_LENGTH.
Hypothesis Hbufs : message_bufs (Z.of_nat (length msg)) bufs.

(** The RPC at [p] receives [msg] into the buffers [bufs]. *)
Record receiving (w : world) (rpc : homa_rpc) : Prop := {
  rv_rpc : w_rpcs w !! p = Some rpc;
  rv_sock : w_socks w !! rpc_hsk rpc = Some sk;
  rv_length : mi_length (rpc_msgin rpc) = Z.of_nat (length msg);
  rv_holds : holds (rpc_msgin rpc) bufs
}.

Definition where_ : Z -> Z := place (pool_region (sk_buffer_pool sk)) bufs.

Lemma where_inj rpc w x y :
  receiving w rpc -> 0 <= x < Z.of_nat (length msg) -> 0 <= y < Z.of_nat (length msg) ->
  where_ x = where_ y -> x = y.
Proof.
  intros [] Hx Hy. apply (place_inj _ (rpc_msgin rpc)) with (pool := sk_buffer_pool sk) (live := live); try done; by rewrite rv_length0.
Qed.

Lemma copy_pkt_spec w rpc skb fuel : forall copied,
  receiving w rpc -> carries msg skb -> 0 <= copied <= skb_data_len skb ->
  skb_data_len skb - copied <= Z.of_nat fuel ->
  exists l, copy_pkt env fuel p skb copied w = Ok (0, copied_out l w) /\
    forall m, wrote where_ msg (fun b => (pkt_start skb + copied <=? b) &&
      (b <? pkt_start skb + skb_data_len skb)) m (user_memory m l).
Proof.
  revert w. induction fuel as [|fuel IH]; intros w copied Hr Hc Hcop Hfuel; destruct Hc as (Hc1 & Hc2 & Hc3).
  { exists []. cbn [copy_pkt]. destruct (Z.geb_spec copied (skb_data_len skb)); [|lia]. rewrite copied_out_nil.
    split; [done |]. intros m. apply wrote_nothing. intros b. lia. }
  cbn [copy_pkt]. destruct (Z.geb_spec copied (skb_data_len skb)) as [Hd | Hd].
  { exists []. rewrite copied_out_nil. split; [done |]. intros m. apply wrote_nothing. intros b. lia. }
  destruct Hr as [H1 H2 H3 H4]. rewrite (bind_eq _ _ _ _ _ (get_rpc_eq _ _ _ H1)), (bind_eq _ _ _ _ _ (get_sock_eq _ _ _ H2)).
  unfold HOMA_MAX_MESSAGE_LENGTH in *. rewrite s32_id by (unfold is_int, INT_MAX, INT_MIN; lia).
  set (off := pkt_start skb + copied).
  destruct (place_get (pool_region (sk_buffer_pool sk)) (rpc_msgin rpc) bufs H4) with (off := off) as (n & Hn & -> & Hpl);
    [by rewrite H3 | by rewrite H3 | unfold off; lia |].
  cbn [lift bind]. fold where_ in *. destruct (Z.eqb_spec n 0); [lia |]. rewrite andb_false_r.
  destruct (Henv (where_ off) (if n <? skb_data_len skb - copied then n else skb_data_len skb - copied)) as [-> ->].
  change (negb (0 =? 0)) with false. cbv iota.
  set (k := if n <? skb_data_len skb - copied then n else skb_data_len skb - copied).
  assert (0 < k <= n /\ copied + k <= skb_data_len skb) as Hk by (unfold k; destruct (Z.ltb_spec n (skb_data_len skb - copied)); lia).
  assert (slice (skb_data skb) copied k = slice msg off k) as -> by (rewrite Hc3; apply slice_slice; lia).
  rewrite (bind_eq _ _ _ tt (copied_out [(where_ off, slice msg off k)] w)) by done.
  destruct (IH (copied_out [(where_ off, slice msg off k)] w) (copied + k)) as (l & -> & Hl); [by constructor | done | lia | lia |].
  exists ((where_ off, slice msg off k) :: l). rewrite copied_out_app. split; [done |]. intros m.
  apply (wrote_trans _ _ (fun b => (off <=? b) && (b <? off + k)) (fun b => (pkt_start skb + (copied + k) <=? b) && (b <? pkt_start skb + skb_data_len skb))) with (m1 := store m (where_ off, slice msg off k)).
  - intros x y Hx Hy. apply (where_inj rpc w); [by constructor | |]; lia.
  - intros b. unfold off. lia.
  - apply store_chunk; [unfold off; lia .. |]. intros i Hi. apply Hpl. lia.
  - exact (Hl _).
Qed.

Definition in_pkts (l : list skb_in) (b : Z) : bool := existsb (in_pkt b) l.

Lemma in_pkts_range l b : Forall (carries msg) l -> in_pkts l b = true -> 0 <= b < Z.of_nat (length msg).
Proof.
  intros Hl Hb. apply existsb_exists in Hb as (skb & Hin & Hb). rewrite Forall_forall in Hl.
  destruct (Hl skb ltac:(by apply list_elem_of_In)) as (? & ? & _). unfold in_pkt in Hb. lia.
Qed.

Lemma copy_pkts_spec w rpc l :
  receiving w rpc -> Forall (carries msg) l ->
  exists log, copy_pkts env p l w = Ok (0, copied_out log w) /\
    forall m, wrote where_ msg (in_pkts l) m (user_memory m log).
Proof.
  revert w. induction l as [|skb l IH]; intros w Hr Hl.
  { exists []. rewrite copied_out_nil. split; [done |]. intros m. by apply wrote_nothing. }
  pose proof Hl as [Hc Hl']%Forall_cons. pose proof (skb_data_len_length skb).
  destruct (copy_pkt_spec w rpc skb (Z.to_nat (skb_data_len skb)) 0 Hr Hc) as (l1 & E1 & H1); [lia | lia |].
  cbn [copy_pkts]. rewrite (bind_eq _ _ _ _ _ E1). change (negb (0 =? 0)) with false. cbv iota.
  destruct (IH (copied_out l1 w)) as (l2 & -> & H2); [by destruct Hr | done |].
  exists (l1 ++ l2). rewrite copied_out_app. split; [done |]. intros m. rewrite user_memory_app.
  eapply wrote_trans; [| | apply H1 | apply H2].
  - intros x y Hx Hy. apply (where_inj rpc w _ _ Hr); (eapply in_pkts_range; [|eassumption]); done.
  - intros b. cbn [in_pkts existsb]. unfold in_pkt. by rewrite Z.add_0_r.
Qed.

(** The RPC after its packets were copied. *)
Definition emptied (rpc : homa_rpc) : homa_rpc :=
  let rpc' := rpc <| rpc_msgin ::= fun mi => mi <| mi_packets := [] |> |> in
  if bool_decide (mi_packets (rpc_msgin rpc) = []) then rpc
  else flags_andnot (Z.lor APP_NEEDS_LOCK RPC_COPYING_TO_USER) rpc'.

Lemma flags_cleared f : Z.ldiff (Z.lor (Z.lor f RPC_COPYING_TO_USER) APP_NEEDS_LOCK)
    (Z.lor APP_NEEDS_LOCK RPC_COPYING_TO_USER) = Z.ldiff f (Z.lor APP_NEEDS_LOCK RPC_COPYING_TO_USER).
Proof.
  apply Z.bits_inj'. intros n _. rewrite !Z.ldiff_spec, !Z.lor_spec.
  by destruct (Z.testbit f n), (Z.testbit RPC_COPYING_TO_USER n), (Z.testbit APP_NEEDS_LOCK n).
Qed.

Lemma ldiff_twice f c : Z.ldiff (Z.ldiff f c) c = Z.ldiff f c.
Proof. apply Z.bits_inj'. intros n _. rewrite !Z.ldiff_spec. by destruct (Z.testbit f n), (Z.testbit c n). Qed.

Lemma insert_rpc_id w rpc : w_rpcs w !! p = Some rpc -> w <| w_rpcs ::= insert p rpc |> = w.
Proof. intros H. destruct w. simpl in *. by rewrite insert_id. Qed.

(** One iteration takes [n] packets. *)
Definition taken (n : nat) (rpc : homa_rpc) : homa_rpc :=
  flags_andnot (Z.lor APP_NEEDS_LOCK RPC_COPYING_TO_USER)
    (rpc <| rpc_msgin ::= fun mi => mi <| mi_packets ::= drop n |> |>).

Lemma emptied_taken n rpc :
  mi_packets (rpc_msgin rpc) <> [] -> emptied (taken n rpc) = emptied rpc.
Proof.
  intros Hp. unfold emptied at 2. rewrite bool_decide_false by done. unfold emptied, taken, flags_andnot. simpl.
  case_bool_decide as E.
  - destruct rpc as [? ? ? ? ? ? ? ? ? []]. simpl in *. by rewrite E.
  - simpl. by rewrite ldiff_twice.
Qed.

Lemma copy_loop_spec fuel : forall w rpc,
  receiving w rpc -> rpc_state_ rpc <> RPC_DEAD -> Forall (carries msg) (mi_packets (rpc_msgin rpc)) ->
  (length (mi_packets (rpc_msgin rpc)) <= fuel)%nat ->
  exists log, copy_loop env fuel p w = Ok (0, copied_out log (w <| w_rpcs ::= insert p (emptied rpc) |>)) /\
    forall m, wrote where_ msg (in_pkts (mi_packets (rpc_msgin rpc))) m (user_memory m log).
Proof.
  induction fuel as [|fuel IH]; intros w rpc Hr Hd Hl Hf; cbn [copy_loop];
    rewrite (bind_eq _ _ _ _ _ (get_rpc_eq _ _ _ (rv_rpc _ _ Hr))), bool_decide_false by done;
    destruct (decide (mi_packets (rpc_msgin rpc) = [])) as [Ep | Ep].
  1, 3: rewrite Ep, bool_decide_true by done; exists []; rewrite copied_out_nil; split;
    [unfold emptied; rewrite bool_decide_true by done; by rewrite (insert_rpc_id w rpc (rv_rpc _ _ Hr))
    | intros m; by apply wrote_nothing].
  { destruct (mi_packets (rpc_msgin rpc)); simpl in Hf; [done | lia]. }
  set (n := Z.to_nat MAX_SKBS) in *. set (pk := mi_packets (rpc_msgin rpc)) in *.
  rewrite bool_decide_false by (destruct pk; done).
  erewrite bind_eq by (apply upd_rpc_eq, Hr). cbv beta.
  set (rpc1 := flags_or RPC_COPYING_TO_USER (rpc <| rpc_msgin ::= fun mi => mi <| mi_packets ::= drop n |> |>)).
  set (w1 := w <| w_rpcs ::= insert p rpc1 |>).
  assert (receiving w1 rpc1) as Hr1 by (destruct Hr; constructor; try done; apply lookup_insert_eq).
  pose proof Hl as Hl'. rewrite <- (take_drop n pk) in Hl. apply Forall_app in Hl as [Hl1 Hl2].
  destruct (copy_pkts_spec w1 rpc1 (take n pk) Hr1 Hl1) as (l1 & E1 & H1). rewrite (bind_eq _ _ _ _ _ E1).
  erewrite bind_eq by (apply upd_rpc_eq, lookup_insert_eq).
  erewrite bind_eq by (apply upd_rpc_eq, lookup_insert_eq).
  change (negb (0 =? 0)) with false. cbv iota.
  match goal with |- context [copy_loop _ _ _ ?w'] =>
    assert (w' = copied_out l1 (w <| w_rpcs ::= insert p (taken n rpc) |>)) as -> end.
  { unfold w1, copied_out, rpc1, taken, flags_or, flags_andnot. simpl. by rewrite !insert_insert_eq, flags_cleared. }
  destruct (IH (copied_out l1 (w <| w_rpcs ::= insert p (taken n rpc) |>)) (taken n rpc)) as (l2 & E2 & H2); try done.
  { destruct Hr; constructor; try done. apply lookup_insert_eq. }
  { change (length (drop n pk) <= fuel)%nat. rewrite length_drop. assert (n = 20%nat) by done.
    assert (0 < length pk)%nat by (destruct pk; simpl; [done | lia]). lia. }
  exists (l1 ++ l2). rewrite E2. split.
  - rewrite emptied_taken by done. rewrite <- copied_out_app. do 2 f_equal. unfold copied_out. simpl. by rewrite insert_insert_eq.
  - intros m. rewrite user_memory_app. eapply wrote_trans; [| | apply H1 | apply H2].
    + intros x y Hx Hy. apply (where_inj rpc w _ _ Hr); (eapply in_pkts_range; [|eassumption]); done.
    + intros b. simpl. fold pk. rewrite <- (take_drop n pk) at 1. unfold in_pkts. apply existsb_app.
Qed.
End CopyOut.

(** ** Delivery

    What happens to a message while it is received: packets arrive, and the
    packets that are there are copied out. *)
Inductive rx_event := RxPacket (mem : bool) (now : Z) (skb : skb_in) | RxCopy.

Definition rx_step (env : copy_env) (p : ptr) (e : rx_event) : M unit :=
  match e with
  | RxPacket mem now skb => upd_msgin p (fun mi => (homa_add_packet mem now mi skb).1)
  | RxCopy => homa_copy_to_user env p ;;; ret tt
  end.

Definition arrivals (l : list rx_event) : list (bool * Z * skb_in) :=
  omap (fun e => match e with RxPacket mem now skb => Some (mem, now, skb) | RxCopy => None end) l.

(** A message without its packets: [homa_add_packet] does not look at them. *)
Definition no_packets (mi : homa_message_in) : homa_message_in := mi <| mi_packets := [] |>.

Lemma add_packet_core mem now mi skb :
  no_packets (homa_add_packet mem now mi skb).1 =
  no_packets (homa_add_packet mem now (no_packets mi) skb).1.
Proof.
  unfold homa_add_packet, no_packets. cbn.
  destruct (_ >? mi_length mi); [done |]. destruct (_ =? mi_recv_end mi); [done |].
  destruct (_ >? mi_recv_end mi); [by destruct (homa_gap_new _ _ _ _) |]. by destruct (fill_gaps _ _ _ _ _).
Qed.

Lemma add_packet_frame mem now mi skb :
  let mi' := (homa_add_packet mem now mi skb).1 in
  mi_num_bpages mi' = mi_num_bpages mi /\ mi_bpage_offsets mi' = mi_bpage_offsets mi.
Proof.
  unfold homa_add_packet. cbn.
  destruct (_ >? mi_length mi); [done |]. destruct (_ =? mi_recv_end mi); [done |].
  destruct (_ >? mi_recv_end mi); [by destruct (homa_gap_new _ _ _ _) |]. by destruct (fill_gaps _ _ _ _ _).
Qed.

Lemma add_packets_core l : forall mi mi', no_packets mi = no_packets mi' ->
  no_packets (add_packets mi l) = no_packets (add_packets mi' l).
Proof.
  induction l as [|[[mem now] skb] l IH]; simpl; intros mi mi' E; [done |].
  apply IH. by rewrite (add_packet_core _ _ mi), (add_packet_core _ _ mi'), E.
Qed.

Lemma received_range mi b : msgin_inv mi -> received mi b = true -> 0 <= b < mi_length mi.
Proof. intros Hi Hb. pose proof (msgin_inv_bounds _ Hi). destruct Hi as (_ & _ & ? & _). unfold received in Hb. lia. Qed.

Lemma wrote_ext msg at_ S S' m m' : (forall b, S b = S' b) -> wrote at_ msg S m m' -> wrote at_ msg S' m m'.
Proof. intros E [H1 H2]. split; [intros b; rewrite <- E; apply H1 | intros a Ha; apply H2; intros b; rewrite E; apply Ha]. Qed.

Section Delivery.
Context (env : copy_env) (p : ptr) (sk : homa_sock) (bufs live : list buf) (msg : list Z).
Context (m0 : Z -> Z).
Hypothesis Henv : no_errors env.
Hypothesis Hpool : pool_inv (sk_buffer_pool sk) (bufs ++ live).
Hypothesis Hmax : Z.of_nat (length msg) <= HOMA_MAX_MESSAGE_LENGTH.
Hypothesis Hbufs : message_bufs (Z.of_nat (length msg)) bufs.

(** The bytes received and no longer in packets are in user memory. *)
Record delivering (w0 w : world) (rpc : homa_rpc) (log : list (Z * list Z)) : Prop := {
  dv_receiving : receiving p sk bufs msg w rpc;
  dv_live : rpc_state_ rpc <> RPC_DEAD;
  dv_inv : msgin_inv (rpc_msgin rpc);
  dv_carries : Forall (carries msg) (mi_packets (rpc_msgin rpc));
  dv_received : forall b, in_pkts (mi_packets (rpc_msgin rpc)) b = true ->
    received (rpc_msgin rpc) b = true;
  dv_log : host_user (w_host w) = host_user (w_host w0) ++ log;
  dv_wrote : wrote (where_ sk bufs) msg (fun b => received (rpc_msgin rpc) b &&
    negb (in_pkts (mi_packets (rpc_msgin rpc)) b)) m0 (user_memory m0 log)
}.

Lemma deliver_packet w0 w rpc log mem now skb :
  delivering w0 w rpc log -> carries msg skb ->
  exists w' rpc', rx_step env p (RxPacket mem now skb) w = Ok (tt, w') /\ delivering w0 w' rpc' log /\
    rpc_msgin rpc' = (homa_add_packet mem now (rpc_msgin rpc) skb).1.
Proof.
  intros [[R1 R2 R3 R4] Hd Hi Hc Hrec Hlog Hw] Hs. unfold rx_step, upd_msgin.
  eexists _, (rpc <| rpc_msgin ::= fun mi => (homa_add_packet mem now mi skb).1 |>).
  split; [by apply upd_rpc_eq |]. split; [|reflexivity].
  assert (pkt_ok skb) as Hok.
  { destruct Hs as (? & ? & _). unfold pkt_ok, HOMA_MAX_MESSAGE_LENGTH, INT_MAX in *. lia. }
  pose proof (add_packet_spec mem now (rpc_msgin rpc) skb Hi Hok) as H.
  pose proof (add_packet_frame mem now (rpc_msgin rpc) skb) as Hfr.
  change (rpc_msgin (rpc <| rpc_msgin ::= fun mi => (homa_add_packet mem now mi skb).1 |>)) with (homa_add_packet mem now (rpc_msgin rpc) skb).1.
  destruct (homa_add_packet mem now (rpc_msgin rpc) skb) as [mi' [|]] eqn:E; simpl in Hfr; destruct H as [_ H].
  - destruct H as (Hi' & Hl & Hp & _ & Hnew & Hr'). destruct Hfr as [Hb1 Hb2]. constructor; simpl; rewrite ?E; simpl; try done.
    + constructor; simpl; rewrite ?E; simpl; [apply lookup_insert_eq | done | congruence |]. unfold holds. rewrite Hb1, Hb2. exact R4.
    + rewrite Hp. apply Forall_app. by split; [|apply Forall_singleton].
    + intros b. rewrite Hp, Hr'. unfold in_pkts. rewrite existsb_app. simpl. rewrite orb_false_r.
      intros [Hb | Hb]%orb_true_iff; apply orb_true_iff; [left; by apply Hrec | by right].
    + eapply wrote_ext; [|exact Hw]. intros b. simpl. rewrite Hp, Hr'. unfold in_pkts. rewrite existsb_app. simpl.
      rewrite orb_false_r. specialize (Hnew b). destruct (in_pkt b skb); [rewrite Hnew by done; by destruct (existsb _ _) |].
      by rewrite !orb_false_r.
  - subst mi'. constructor; simpl; rewrite ?E; simpl; try done.
    constructor; simpl; rewrite ?E; simpl; try done. apply lookup_insert_eq.
Qed.

Lemma deliver_copy w0 w rpc log :
  delivering w0 w rpc log ->
  exists w' log', rx_step env p RxCopy w = Ok (tt, w') /\ delivering w0 w' (emptied rpc) log' /\
    no_packets (rpc_msgin (emptied rpc)) = no_packets (rpc_msgin rpc) /\ mi_packets (rpc_msgin (emptied rpc)) = [].
Proof.
  intros [Hr Hd Hi Hc Hrec Hlog Hw]. unfold rx_step, homa_copy_to_user.
  destruct (copy_loop_spec env p sk bufs live msg Henv Hpool Hmax Hbufs _ w rpc Hr Hd Hc (Nat.le_refl _)) as (l & Hl & Hwr).
  erewrite bind_eq; [|rewrite (bind_eq _ _ _ _ _ (get_rpc_eq _ _ _ (rv_rpc _ _ _ _ _ _ Hr))); exact Hl].
  exists (copied_out l (w <| w_rpcs ::= insert p (emptied rpc) |>)), (log ++ l).
  assert (mi_packets (rpc_msgin (emptied rpc)) = [] /\ no_packets (rpc_msgin (emptied rpc)) = no_packets (rpc_msgin rpc)
    /\ rpc_hsk (emptied rpc) = rpc_hsk rpc /\ rpc_state_ (emptied rpc) = rpc_state_ rpc) as (E1 & E2 & E3 & E4)
    by (unfold emptied; by case_bool_decide).
  split; [done |]. split; [|done]. pose proof (f_equal mi_length E2) as L. simpl in L.
  pose proof (f_equal mi_num_bpages E2) as B1. pose proof (f_equal mi_bpage_offsets E2) as B2. simpl in B1, B2.
  assert (forall b, received (rpc_msgin (emptied rpc)) b = received (rpc_msgin rpc) b) as Erec.
  { intros b. exact (f_equal (fun mi => received mi b) E2). }
  constructor; rewrite ?E1, ?E4; try done.
  - destruct Hr. constructor; simpl; [apply lookup_insert_eq | by rewrite E3 | by rewrite L |]. unfold holds. by rewrite B1, B2.
  - change (msgin_inv (no_packets (rpc_msgin (emptied rpc)))). rewrite E2. exact Hi.
  - simpl. by rewrite Hlog, app_assoc.
  - rewrite user_memory_app. eapply wrote_trans; [| | exact Hw | apply Hwr].
    + intros x y Hx Hy. apply (where_inj p sk bufs live msg Hpool Hmax Hbufs rpc w _ _ Hr); simpl in Hx, Hy; rewrite <- (rv_length _ _ _ _ _ _ Hr);
        apply (received_range _ _ Hi); rewrite Erec, andb_true_r in *; done.
    + intros b. simpl. rewrite Erec, andb_true_r. specialize (Hrec b).
      destruct (in_pkts _ b); [rewrite Hrec by done; done |]. by rewrite andb_true_r, orb_false_r.
Qed.

Lemma deliver_run w0 l : forall w rpc log,
  delivering w0 w rpc log -> Forall (fun x => carries msg (pkt_of x)) (arrivals l) ->
  exists w' rpc' log', mapM_ (rx_step env p) l w = Ok (tt, w') /\ delivering w0 w' rpc' log' /\
    no_packets (rpc_msgin rpc') = no_packets (add_packets (rpc_msgin rpc) (arrivals l)) /\
    (last l = Some RxCopy -> mi_packets (rpc_msgin rpc') = []).
Proof.
  induction l as [|e l IH]; intros w rpc log Hd Hl; [by exists w, rpc, log |].
  assert (exists w1 rpc1 log1, rx_step env p e w = Ok (tt, w1) /\ delivering w0 w1 rpc1 log1 /\
    no_packets (rpc_msgin rpc1) = no_packets (add_packets (rpc_msgin rpc) (arrivals [e])) /\
    (e = RxCopy -> mi_packets (rpc_msgin rpc1) = [])) as (w1 & rpc1 & log1 & E1 & H1 & Hc1 & Hp1).
  { destruct e as [mem now skb |]; simpl in Hl.
    - apply Forall_cons in Hl as [Hs _]. destruct (deliver_packet w0 w rpc log mem now skb Hd Hs) as (w1 & rpc1 & ? & ? & E).
      exists w1, rpc1, log. simpl. by rewrite E.
    - destruct (deliver_copy w0 w rpc log Hd) as (w1 & log1 & ? & ? & ? & ?). by exists w1, (emptied rpc), log1. }
  cbn [mapM_]. rewrite (bind_eq _ _ _ _ _ E1).
  destruct (IH w1 rpc1 log1 H1) as (w' & rpc' & log' & E' & H' & Hc' & Hp').
  { destruct e; simpl in Hl; [by apply Forall_cons in Hl as [_ ?] | done]. }
  exists w', rpc', log'. split_ands; try done.
  - rewrite Hc'. transitivity (no_packets (add_packets (add_packets (rpc_msgin rpc) (arrivals [e])) (arrivals l))).
    + by apply add_packets_core.
    + by destruct e.
  - destruct l as [|e' l]; [|exact Hp']. simpl. intros [= ->]. simpl in E'. injection E' as <-.
    destruct H' as [[R _ _ _] _ _ _ _ _ _]. destruct H1 as [[R1 _ _ _] _ _ _ _ _ _]. rewrite R in R1. injection R1 as ->. auto.
Qed.
End Delivery.

(** The packets of [l] come from one segmentation of a message of [length_]
    bytes and cover it, and there is memory for gaps. *)
Definition whole_message (length_ : Z) (l : list (bool * Z * skb_in)) : Prop :=
  Forall (fun x => x.1.1 = true /\ 0 < skb_data_len (pkt_of x)) l /\
  (forall p q, p ∈ l -> q ∈ l -> same_or_disjoint (pkt_of p) (pkt_of q)) /\
  (forall b, 0 <= b < length_ -> existsb (fun x => in_pkt b (pkt_of x)) l = true).

(** The message was initialised and nothing has arrived. *)
Definition fresh_message (mi : homa_message_in) : Prop :=
  mi_packets mi = [] /\ mi_recv_end mi = 0 /\ mi_gaps mi = [] /\ mi_bytes_remaining mi = mi_length mi.

Lemma fresh_inv p sk bufs msg w rpc :
  receiving p sk bufs msg w rpc -> fresh_message (rpc_msgin rpc) ->
  Z.of_nat (length msg) <= HOMA_MAX_MESSAGE_LENGTH -> msgin_inv (rpc_msgin rpc) /\ exact (rpc_msgin rpc).
Proof.
  intros [_ _ Hl _] (F1 & F2 & F3 & F4) Hmax. unfold HOMA_MAX_MESSAGE_LENGTH in Hmax. split.
  - unfold msgin_inv, INT_MAX, gap_bytes. rewrite F2, F3, F4, Hl. simpl. lia.
  - intros b. unfold received. rewrite F1, F2. change (countb (in_pkt b) []) with 0. zb; done || lia.
Qed.

Lemma message_delivered_spec env p w rpc sk bufs live msg l m0 :
  no_errors env -> pool_inv (sk_buffer_pool sk) (bufs ++ live) ->
  Z.of_nat (length msg) <= HOMA_MAX_MESSAGE_LENGTH -> message_bufs (Z.of_nat (length msg)) bufs ->
  receiving p sk bufs msg w rpc -> rpc_state_ rpc <> RPC_DEAD -> fresh_message (rpc_msgin rpc) ->
  Forall (fun x => carries msg (pkt_of x)) (arrivals l) ->
  exists w' mi' log, mapM_ (rx_step env p) l w = Ok (tt, w') /\
    rpc_msgin <$> w_rpcs w' !! p = Some mi' /\ host_user (w_host w') = host_user (w_host w) ++ log /\
    (mi_bytes_remaining mi' = 0 -> mi_packets mi' = [] -> forall b, 0 <= b < Z.of_nat (length msg) ->
       exists a n, homa_pool_get_buffer (pool_region (sk_buffer_pool sk)) mi' b = Ok (a, n) /\
         msg !! Z.to_nat b = Some (user_memory m0 log a)) /\
    (forall a, existsb (in_buf (a - pool_region (sk_buffer_pool sk))) bufs = false -> user_memory m0 log a = m0 a) /\
    (whole_message (Z.of_nat (length msg)) (arrivals l) -> last l = Some RxCopy ->
       mi_bytes_remaining mi' = 0 /\ mi_packets mi' = []).
Proof.
  intros Henv Hpool Hmax Hbufs Hr Hd Hfresh Hl. pose proof Hfresh as (F1 & F2 & F3 & F4).
  destruct (fresh_inv _ _ _ _ _ _ Hr Hfresh Hmax) as [Hi He].
  destruct (deliver_run env p sk bufs live msg m0 Henv Hpool Hmax Hbufs w l w rpc []) as (w' & rpc' & log & E & D & Hcore & Hlast); [|done |].
  { constructor; try done; rewrite ?F1; [constructor | done | by rewrite app_nil_r |].
    apply wrote_nothing. intros b. unfold received. rewrite F2. lia. }
  pose proof (dv_receiving _ _ _ _ _ _ _ _ _ D) as [R1 R2 R3 R4]. pose proof (dv_inv _ _ _ _ _ _ _ _ _ D) as Hi'.
  destruct (dv_wrote _ _ _ _ _ _ _ _ _ D) as [W1 W2].
  exists w', (rpc_msgin rpc'), log. split_ands; [done | by rewrite R1 | apply D | | |].
  - intros Hrem Hp b Hb. destruct (place_get (pool_region (sk_buffer_pool sk)) (rpc_msgin rpc') bufs R4) with (off := b)
      as (n & _ & G & _); rewrite ?R3; try done.
    eexists _, n. split; [exact G |]. apply W1. rewrite Hp, andb_true_r. apply (complete_iff _ Hi'); [done | by rewrite R3].
  - intros a Ha. apply W2. intros b Hb E'. apply andb_true_iff in Hb as [Hb _]. apply (received_range _ _ Hi') in Hb.
    destruct (get_buffer_spec (pool_region (sk_buffer_pool sk)) (rpc_msgin rpc') bufs b R4) as (c & Hc & Ho & _); rewrite ?R3 in *; try done.
    assert (existsb (in_buf (a - pool_region (sk_buffer_pool sk))) bufs = true); [|congruence].
    apply existsb_exists. exists c. split; [by apply list_elem_of_In; eapply list_elem_of_lookup_2 |].
    unfold where_, place in E'. rewrite Hc in E'. simpl in E'. unfold in_buf. lia.
  - intros (Hw1 & Hw2 & Hw3) Hlc. split; [|by apply Hlast].
    pose proof (f_equal mi_bytes_remaining Hcore) as Eb. simpl in Eb. rewrite Eb.
    rewrite <- (rv_length _ _ _ _ _ _ Hr) in *. apply completes_spec; try done.
    rewrite Forall_forall in *. intros x Hx. destruct (Hw1 x Hx), (Hl x Hx) as (? & ? & _).
    rewrite (rv_length _ _ _ _ _ _ Hr). by split_ands.
Qed.

(** C3: Delivery of a message.  The packets of a message arrive in any order,
    with any duplicates and overlaps, and in between the packets that are there
    are copied to user space.  No such sequence fails.  Whenever nothing remains
    to be received and no packet is left to be copied, which is when
    [homa_wait_for_message] returns the message, the buffers that the message
    holds contain the message: byte [b] is at the address that
    [homa_pool_get_buffer] gives for [b].  No memory outside these buffers has
    been touched.  And this state is reached after the last copy if the packets
    were cut from the message by one segmentation and cover it. *)
Theorem message_delivered env p w rpc sk bufs live msg l m0 :
  no_errors env -> pool_inv (sk_buffer_pool sk) (bufs ++ live) ->
  Z.of_nat (length msg) <= HOMA_MAX_MESSAGE_LENGTH -> message_bufs (Z.of_nat (length msg)) bufs ->
  receiving p sk bufs msg w rpc -> rpc_state_ rpc <> RPC_DEAD -> fresh_message (rpc_msgin rpc) ->
  Forall (fun x => carries msg (pkt_of x)) (arrivals l) ->
  exists w' mi' log, mapM_ (rx_step env p) l w = Ok (tt, w') /\
    rpc_msgin <$> w_rpcs w' !! p = Some mi' /\ host_user (w_host w') = host_user (w_host w) ++ log /\
    (mi_bytes_remaining mi' = 0 -> mi_packets mi' = [] -> forall b, 0 <= b < Z.of_nat (length msg) ->
       exists a n, homa_pool_get_buffer (pool_region (sk_buffer_pool sk)) mi' b = Ok (a, n) /\
         msg !! Z.to_nat b = Some (user_memory m0 log a)) /\
    (forall a, existsb (in_buf (a - pool_region (sk_buffer_pool sk))) bufs = false -> user_memory m0 log a = m0 a) /\
    (whole_message (Z.of_nat (length msg)) (arrivals l) -> last l = Some RxCopy ->
       mi_bytes_remaining mi' = 0 /\ mi_packets mi' = []).
Proof. apply message_delivered_spec. Qed.

(** A message of 30 bytes in three overlapping or repeated packets. *)
Definition ex_events : list rx_event :=
  [RxPacket true 1 (example_pkt 20 10); RxCopy; RxPacket true 2 (example_pkt 20 10);
   RxPacket true 3 (example_pkt 0 20); RxCopy].
Definition ex_copy_env : copy_env := Build_copy_env (fun _ _ => 0) (fun _ _ => 0) (fun _ _ => O).

Lemma message_delivered_witness :
  exists w w' mi' log, mapM_ (rx_step ex_copy_env 11%positive) ex_events w = Ok (tt, w') /\
    rpc_msgin <$> w_rpcs w' !! 11%positive = Some mi' /\
    host_user (w_host w') = host_user (w_host w) ++ log /\
    exists a n, homa_pool_get_buffer 4096 mi' 25 = Ok (a, n) /\ user_memory (fun _ => 0) log a = 7.
Proof.
  destruct (pool_reserve_spec 1 7 8 10000 example_pool [] (example_mi 30)
    example_pool_inv) as (pool' & mi' & ok & H & Hs & _ & Hr);
    [vm_compute; split; congruence .. | apply example_mi_holds |].
  destruct ok; [|exfalso; destruct Hr as (_ & _ & Hr & _); vm_compute in Hr; congruence].
  destruct Hr as (bufs & Hh & Hm & Hp).
  set (sk := ex_sock <| sk_buffer_pool := pool' |>). set (rpc := ex_rpc 1%positive 3 mi').
  set (w := ex <| w_rpcs := {[ 11%positive := rpc ]} |> <| w_socks := {[ 1%positive := sk ]} |>).
  assert (mi_packets mi' = [] /\ mi_recv_end mi' = 0 /\ mi_gaps mi' = [] /\ mi_bytes_remaining mi' = 30 /\
    mi_length mi' = 30) as (F1 & F2 & F3 & F4 & F5) by (rewrite Hs; split_ands; reflexivity).
  assert (pool_region pool' = 4096) as Hreg by (vm_compute in H; injection H as <- _; reflexivity).
  destruct (message_delivered ex_copy_env 11%positive w rpc sk bufs [] (replicate 30 7) ex_events (fun _ => 0))
    as (w' & mi2 & log & E & Hmi & Hlog & Hdel & _ & Hfin).
  - intros a n. split; reflexivity.
  - exact Hp.
  - vm_compute. congruence.
  - exact Hm.
  - constructor; [reflexivity | reflexivity | exact F5 | exact Hh].
  - discriminate.
  - unfold fresh_message. cbn [rpc rpc_msgin ex_rpc]. rewrite F5. split_ands; assumption.
  - repeat constructor; vm_compute; congruence.
  - exists w, w', mi2, log. split; [exact E |]. split; [exact Hmi |]. split; [exact Hlog |].
    destruct Hfin as [Hrem Hpk].
    + split; [repeat constructor |]. split.
      * assert (Forall (fun p => Forall (fun q => same_or_disjoint (pkt_of p) (pkt_of q)) (arrivals ex_events))
          (arrivals ex_events)) as Hall.
        { repeat (apply Forall_cons_2 || apply Forall_nil_2);
          vm_compute; solve [left; split; reflexivity | right; left; discriminate | right; right; discriminate]. }
        intros p q Hp' Hq. rewrite Forall_forall in Hall. specialize (Hall p Hp'). rewrite Forall_forall in Hall. exact (Hall q Hq).
      * intros b Hb. simpl in *. unfold in_pkt. simpl.
        change (pkt_start (example_pkt 20 10)) with 20. change (pkt_start (example_pkt 0 20)) with 0.
        change (skb_data_len (example_pkt 20 10)) with 10. change (skb_data_len (example_pkt 0 20)) with 20. lia.
    + reflexivity.
    + destruct (Hdel Hrem Hpk 25) as (a & n & G & Hb); [simpl; lia |]. exists a, n.
      change (pool_region (sk_buffer_pool sk)) with (pool_region pool') in G. rewrite Hreg in G. split; [exact G |].
      simpl in Hb. congruence.
Defined.
