(* ===== verification/RpcServer.v ===== *)
(** * New server RPCs

    [homa_message_in_init] and [homa_rpc_new_server]: initialisation of an
    incoming message with its buffers, and the creation of at most one RPC per
    request. *)
From S2P Require Import Prelude Lists Wire Types Example Control Peer Reassembly Pool Grant GrantLists GrantPick GrantRecalc GrantCheck PoolWait Outgoing Sock Handoff Rpc RpcInv RpcFree Copy.

(** ** Initialisation of an incoming message *)
Lemma length_metric_Ok n : 0 < n -> length_metric n = Ok tt.
Proof.
  intros Hn. unfold length_metric, HOMA_NUM_SMALL_COUNTS, HOMA_NUM_MEDIUM_COUNTS.
  rewrite !Z.shiftr_div_pow2 by lia. change (2 ^ 6) with 64. change (2 ^ 10) with 1024.
  pose proof (Z.div_pos (n - 1) 64 ltac:(lia) ltac:(lia)). pose proof (Z.div_pos (n - 1) 1024 ltac:(lia) ltac:(lia)).
  destruct (Z.ltb_spec n (64 * 64)).
  - pose proof (Z.div_lt_upper_bound (n - 1) 64 64 ltac:(lia) ltac:(lia)).
    destruct (Z.leb_spec 0 ((n - 1) / 64)), (Z.ltb_spec ((n - 1) / 64) 64); simpl; done || lia.
  - destruct (Z.ltb_spec n (128 * 1024)); [|done].
    pose proof (Z.div_lt_upper_bound (n - 1) 1024 128 ltac:(lia) ltac:(lia)).
    destruct (Z.leb_spec 0 ((n - 1) / 1024)), (Z.ltb_spec ((n - 1) / 1024) 128); simpl; done || lia.
Qed.

Lemma wait_ok_rpc core hsk w sk live p r' :
  wait_ok core hsk w sk live -> p ∉ sk_waiting_for_bufs sk ->
  wait_ok core hsk (w <| w_rpcs ::= insert p r' |>) sk live.
Proof.
  intros [Hs Hi Hc Hnd Hw Hsort] Hn.
  assert (forall q, q ∈ sk_waiting_for_bufs sk -> q <> p) as Hne by (by intros q Hq ->).
  set (w' := w <| w_rpcs ::= insert p r' |>). constructor; try done.
  - intros q Hq. apply (waits_insert hsk w w' p r' q eq_refl (Hne q Hq)). by apply Hw.
  - eapply sorted_len_ext; [|exact Hsort]. intros q Hq.
    by apply (waits_insert hsk w w' p r' q eq_refl (Hne q Hq)).
Qed.

(** The state after a message of [n] bytes, [unsched] of them unscheduled,
    was initialised for the RPC at [p]. *)
Record initialised (core : Z) (hsk p : ptr) (rpc : homa_rpc) (n unsched : Z) (sk sk' : homa_sock)
    (live live' : list buf) (mi : homa_message_in) (w w' : world) : Prop := {
  in_ok : wait_ok core hsk w' sk' live';
  in_rpcs : w_rpcs w' = <[p := rpc <| rpc_msgin := mi |>]> (w_rpcs w);
  in_socks : w_socks w' = <[hsk := sk']> (w_socks w);
  in_sock : sk' = sk <| sk_waiting_for_bufs := sk_waiting_for_bufs sk' |> <| sk_buffer_pool := sk_buffer_pool sk' |>;
  in_frame : w_homa w' = w_homa w /\ w_peers w' = w_peers w /\ w_interests w' = w_interests w /\
    w_host w' = w_host w /\ w_sent w' = w_sent w /\ w_socktab w' = w_socktab w /\ w_peertab w' = w_peertab w;
  in_fresh : fresh_message mi /\ mi_length mi = n /\ mi_rank mi = -1;
  in_bufs :
    (exists bufs, holds mi bufs /\ message_bufs n bufs /\ live' = bufs ++ live /\
       0 < mi_num_bpages mi /\ mi_granted mi = Z.min unsched n /\
       sk_waiting_for_bufs sk' = sk_waiting_for_bufs sk) \/
    (mi_num_bpages mi = 0 /\ mi_granted mi = 0 /\ live' = live /\
       sk_waiting_for_bufs sk' = insert_before (longer w n) p (sk_waiting_for_bufs sk) /\
       pool_free_bpages (sk_buffer_pool sk') < pages_needed n)
}.

Lemma message_in_init_spec core hsk p w sk live rpc n unsched :
  wait_ok core hsk w sk live -> w_rpcs w !! p = Some rpc -> rpc_hsk rpc = hsk ->
  p ∉ sk_waiting_for_bufs sk -> Z.of_nat (length (mi_bpage_offsets (rpc_msgin rpc))) = HOMA_MAX_BPAGES ->
  0 < n <= HOMA_MAX_MESSAGE_LENGTH ->
  exists w' sk' live' mi, homa_message_in_init core p n unsched w = Ok (0, w') /\
    initialised core hsk p rpc n unsched sk sk' live live' mi w w'.
Proof.
  intros Hok Hp Hh Hn Hl Hlen. unfold homa_message_in_init, upd_msgin.
  erewrite bind_eq by (by apply upd_rpc_eq). set (mi0 := message_in_reset (rpc_msgin rpc) n unsched).
  match goal with |- context [bind (homa_pool_allocate core p) _ ?W] => set (w0 := W) end.
  assert (w_rpcs w0 !! p = Some (rpc <| rpc_msgin := mi0 |>)) as Hp0 by (unfold w0; simpl; by rewrite lookup_insert_eq).
  assert (wait_ok core hsk w0 sk live) as Hok0 by (by apply wait_ok_rpc).
  assert (waits hsk w0 p) as Hw0.
  { exists (rpc <| rpc_msgin := mi0 |>). split; [exact Hp0 |]. split_ands; try done; simpl; lia. }
  destruct (pool_allocate_spec core hsk p w0 sk live Hok0 Hw0 Hn) as (w1 & sk' & live' & Hex & Hat).
  rewrite (bind_eq _ _ _ _ _ Hex). change (negb (0 =? 0)) with false. cbv iota.
  destruct Hat as [Hok1 Hs1 Hh1 Hp1 (Hi1 & Ho1 & Hse1 & Hst1 & Hpt1) (r & mi1 & Hr & Hsame & Hr1) Hsk
    (r2 & r3 & Hr2 & Hr3 & _ & _ & _ & Hcase)].
  assert (r = rpc <| rpc_msgin := mi0 |>) as -> by congruence. assert (r2 = rpc <| rpc_msgin := mi0 |>) as -> by congruence.
  assert (r3 = rpc <| rpc_msgin := mi1 |>) as ->.
  { assert (w_rpcs w1 !! p = Some r3) as E3 by (rewrite Hr3; apply lookup_insert_eq).
    rewrite Hr1, lookup_insert_eq in E3. injection E3 as <-. done. }
  assert (w_rpcs w1 = <[p := rpc <| rpc_msgin := mi1 |>]> (w_rpcs w)) as Hr1' by (rewrite Hr3; simpl; by rewrite insert_insert_eq).
  simpl rpc_msgin in Hcase. change (mi_length mi0) with n in Hcase.
  erewrite bind_eq by (apply get_rpc_eq; rewrite Hr1'; apply lookup_insert_eq). simpl rpc_msgin.
  assert (fresh_message mi1 /\ mi_length mi1 = n /\ mi_rank mi1 = -1 /\ mi_granted mi1 = Z.min unsched n) as (F1 & F2 & F3 & F4).
  { rewrite Hsame. unfold fresh_message, mi0. simpl. split_ands; try done. destruct (Z.gtb_spec unsched n); lia. }
  destruct Hcase as [(bufs & Hb1 & Hb2 & Hb3 & Hb4 & _) | (Hz & Hlv & Hq & Hne & Hf)].
  - pose proof (message_bufs_pos n bufs ltac:(lia) Hb2) as Hpos. pose proof Hb1 as (Hnum & _). simpl in Hnum.
    destruct (Z.eqb_spec (mi_num_bpages mi1) 0); [lia |].
    rewrite (bind_eq (ret tt) _ _ _ _ eq_refl). unfold lift. rewrite length_metric_Ok by lia.
    exists w1, sk', live', mi1. split; [done |]. constructor; try done. left. exists bufs. split_ands; try done. lia.
  - rewrite Hz. change (0 =? 0) with true. cbv iota. unfold upd_msgin.
    erewrite bind_eq by (apply upd_rpc_eq; rewrite Hr1'; apply lookup_insert_eq).
    unfold lift. rewrite length_metric_Ok by lia.
    eexists _, sk', live', (mi1 <| mi_granted := 0 |>). split; [reflexivity |]. constructor; simpl; try done.
    + eapply wait_ok_kept; [exact Hok1 | done |]. intros q x _ Hx. simpl. destruct (decide (q = p)) as [-> | Hne'].
      * rewrite lookup_insert_eq. eexists. split; [done |]. rewrite Hr1', lookup_insert_eq in Hx. injection Hx as <-. done.
      * rewrite lookup_insert_ne by done. by exists x.
    + by rewrite Hr1', insert_insert_eq.
    + right. split_ands; try done. rewrite Hq. apply insert_before_ext. intros c Hc. unfold longer. f_equal.
      apply (waits_insert hsk w w0 p _ c eq_refl). by intros ->.
Qed.

(** ** Searching for an existing RPC *)

(** The RPC that a request with this id, source port and address belongs to. *)
Definition same_request (w : world) (id sport_ addr : Z) (r : homa_rpc) : Prop :=
  serves w id addr r /\ rpc_dport r = sport_.

Lemma find_existing_spec w id sport_ addr (l : list ptr) :
  (forall p, p ∈ l -> exists r, w_rpcs w !! p = Some r /\ is_Some (w_peers w !! rpc_peer r)) ->
  exists o, find_existing id sport_ addr l w = Ok (o, w) /\
    match o with
    | Some p => p ∈ l /\ exists r, w_rpcs w !! p = Some r /\ same_request w id sport_ addr r
    | None => forall p r, p ∈ l -> w_rpcs w !! p = Some r -> ~ same_request w id sport_ addr r
    end.
Proof.
  induction l as [|p l IH]; intros Hl; cbn [find_existing]; [exists None; split; [done | set_solver] |].
  destruct (Hl p ltac:(set_solver)) as (r & Hr & pe & Hpe). step.
  assert ((if (rpc_id r =? id) && (rpc_dport r =? sport_) then from_addr r addr else ret false) w =
    Ok ((rpc_id r =? id) && (rpc_dport r =? sport_) && (peer_addr pe =? addr), w)) as Hs.
  { destruct (_ && _); [|done]. unfold from_addr. step. done. }
  rewrite (bind_eq _ _ _ _ _ Hs).
  destruct (_ && _ && (peer_addr pe =? addr)) eqn:E.
  - rewrite !andb_true_iff, !Z.eqb_eq in E. destruct E as [[E1 E2] E3].
    exists (Some p). split; [done |]. split; [set_solver |]. exists r. split; [done |]. split; [|done]. split; [done | by exists pe].
  - destruct IH as (o & Hex & Ho); [intros q Hq; apply Hl; set_solver |]. exists o. split; [done |].
    destruct o as [q|]; [destruct Ho; split; [set_solver | done] |].
    intros q s [-> | Hq]%elem_of_cons Hs'; [|by eapply Ho]. rewrite Hr in Hs'. injection Hs' as <-.
    intros [[H1 (pe' & Hpe' & H2)] H3]. rewrite Hpe in Hpe'. injection Hpe' as <-.
    rewrite H1, H2, H3, !Z.eqb_refl in E. done.
Qed.

(** ** Frames *)

(** Only the queue for buffers and the pool of the socket differ. *)
Lemma rpcs_ok_queue hsk sk w w' wl pool :
  rpcs_ok hsk sk w -> NoDup wl -> (forall q, q ∈ wl -> q ∈ sk_active_rpcs sk) ->
  w_socks w' !! hsk = Some (sk <| sk_waiting_for_bufs := wl |> <| sk_buffer_pool := pool |>) ->
  w_rpcs w' = w_rpcs w -> w_peers w' = w_peers w ->
  rpcs_ok hsk (sk <| sk_waiting_for_bufs := wl |> <| sk_buffer_pool := pool |>) w'.
Proof.
  intros [H1 H2 H3 H4 H5 H6 (N1 & N2 & N3 & N4 & N5 & N6)] Hnd Hwl Hs Hr Hp. constructor; rewrite ?Hr, ?Hp; try done.
  simpl. intros q [Hq | [Hq | Hq]]; auto.
Qed.

(** Identity of an RPC, with its port. *)
Definition same_identity (w w' : world) : Prop :=
  forall q r, w_rpcs w !! q = Some r -> exists r', w_rpcs w' !! q = Some r' /\
    rpc_core r' = rpc_core r /\ rpc_dport r' = rpc_dport r /\ rpc_msgin r' = rpc_msgin r.

Lemma given_identity hsk p i rpc x sk w w' :
  w_rpcs w !! p = Some rpc -> given hsk p i rpc x sk w w' -> same_identity w w'.
Proof.
  intros Hp Hg q r Hr. rewrite (gv_rpcs _ _ _ _ _ _ _ _ Hg), (given_lookup _ _ _ _ _ Hp), Hr.
  eexists. split; [reflexivity |]. cbv beta zeta. by destruct (bool_decide (q = p)), (bool_decide (_ = Some q)).
Qed.

(** What handing off an RPC does not change. *)
Definition handoff_frame (w w' : world) : Prop :=
  w_homa w' = w_homa w /\ w_peers w' = w_peers w /\ w_sent w' = w_sent w /\ w_stack w' = w_stack w /\
  host_jiffies (w_host w') = host_jiffies (w_host w).

(** Handing off an active RPC keeps the tables well formed. *)
Lemma handed_off_ok p rpc sk w w' :
  rpcs_ok (rpc_hsk rpc) sk w -> w_rpcs w !! p = Some rpc -> p ∈ sk_active_rpcs sk ->
  handed_off p rpc sk w w' ->
  exists sk', rpcs_ok (rpc_hsk rpc) sk' w' /\ same_identity w w' /\ handoff_frame w w' /\
    sk_active_rpcs sk' = sk_active_rpcs sk /\ sk_port sk' = sk_port sk /\
    sk_waiting_for_bufs sk' = sk_waiting_for_bufs sk /\ sk_buffer_pool sk' = sk_buffer_pool sk.
Proof.
  intros Hok Hp Ha Hh. pose proof Hok as [H1 H2 H3 H4 H5 H6 (N1 & N2 & N3 & N4 & N5 & N6)].
  unfold handed_off in Hh. destruct (flag_set RPC_HANDING_OFF rpc || is_ready p sk) eqn:Er.
  { subst w'. exists sk. split_ands; try done. intros q r Hq. by exists r. }
  apply orb_false_iff in Er as [_ Er]. unfold is_ready in Er. apply orb_false_iff in Er as [Er1 Er2].
  apply bool_decide_eq_false in Er1, Er2.
  destruct Hh as [(i & x & w1 & Hw1 & Hi & _ & Hg & _) | (_ & _ & ->)].
  - assert (w_rpcs w1 = w_rpcs w /\ w_peers w1 = w_peers w /\ w_socks w1 = w_socks w) as (E1 & E2 & E3)
      by (by destruct Hw1 as [-> | ->]).
    assert (same_identity w w') as Hid.
    { intros q r. rewrite <- E1. apply (given_identity (rpc_hsk rpc) p i rpc x sk w1 w'); [by rewrite E1 | done]. }
    destruct Hg as [_ _ Gs _ (Gh & Gp & Gse & _ & _ & _ & Gj & Gst)]. rewrite E2 in Gp. rewrite E3 in Gs.
    assert (handoff_frame w w') as Hfr.
    { unfold handoff_frame. rewrite Gh, Gse, Gj, Gst, Gp. by destruct Hw1 as [-> | ->]. }
    exists (sk <| sk_request_interests ::= unlink i |> <| sk_response_interests ::= unlink i |>).
    split; [|split; [exact Hid |]; split; [exact Hfr |]; split; [|split; [|split]]; reflexivity].
    assert (forall q r, w_rpcs w !! q = Some r -> exists r', w_rpcs w' !! q = Some r' /\ rpc_core r' = rpc_core r) as Hid'.
    { intros q r Hq. destruct (Hid q r Hq) as (r' & ? & ? & _). by exists r'. }
    assert (rpcs_ok (rpc_hsk rpc) sk (w' <| w_socks := w_socks w |>)) as [? ? ? ? ? ? ?].
    { eapply rpcs_ok_frame; [exact Hok | done | exact Hid' | simpl; by rewrite Gp]. }
    constructor; try done. rewrite Gs. apply lookup_insert_eq.
  - exists (if homa_is_client (rpc_id rpc) then sk <| sk_ready_responses ::= fun l => l ++ [p] |>
            else sk <| sk_ready_requests ::= fun l => l ++ [p] |>).
    split; [|split; [intros q r Hq; by exists r |]; split; [by repeat split |]].
    + assert (forall l : list ptr, NoDup l -> p ∉ l -> NoDup (l ++ [p])) as Hnd.
      { intros l Hl Hpl. apply NoDup_app. split_ands; [done | | apply NoDup_singleton]. set_solver. }
      destruct (homa_is_client (rpc_id rpc)); constructor; try (apply lookup_insert_eq); try done; simpl.
      1, 3: intros q; rewrite elem_of_app, list_elem_of_singleton; intros Hq; destruct (decide (q = p)) as [-> | ?]; [done | apply H6; tauto].
      all: split_ands; try done; by apply Hnd.
    + destruct (homa_is_client (rpc_id rpc)); split_ands; done.
Qed.

Lemma wait_ok_sock core hsk w w' sk sk' live :
  wait_ok core hsk w sk live -> w_socks w' !! hsk = Some sk' ->
  sk_buffer_pool sk' = sk_buffer_pool sk -> sk_waiting_for_bufs sk' = sk_waiting_for_bufs sk ->
  same_identity w w' -> wait_ok core hsk w' sk' live.
Proof.
  intros [H1 H2 H3 H4 H5 H6] Hs Hp Hw Hid. constructor; rewrite ?Hp, ?Hw; try done.
  - intros q Hq. destruct (H5 q Hq) as (r & Hr & Hh & Hl & Hb). destruct (Hid q r Hr) as (r' & Hr' & [= E _ _ _] & _ & Em).
    exists r'. rewrite E, Em. done.
  - eapply sorted_len_ext; [|exact H6]. intros q Hq. destruct (H5 q Hq) as (r & Hr & _).
    destruct (Hid q r Hr) as (r' & Hr' & _ & _ & Em). unfold wait_len. by rewrite Hr, Hr', Em.
Qed.

Lemma interests_ok_new hsk w w' sk sk' p r :
  interests_ok hsk w -> w_socks w !! hsk = Some sk -> w_socks w' !! hsk = Some sk' ->
  sk_request_interests sk' = sk_request_interests sk -> sk_response_interests sk' = sk_response_interests sk ->
  w_interests w' = w_interests w -> w_rpcs w !! p = None -> w_rpcs w' = <[p := r]> (w_rpcs w) ->
  rpc_interest r = None -> interests_ok hsk w'.
Proof.
  intros [(sk0 & Hsk0 & N1 & N2 & Hw) Hreg Hrpc] Hs Hs' E1 E2 Ei Hp Hr Hri.
  assert (sk0 = sk) as -> by congruence. constructor.
  - exists sk'. unfold waiting in *. rewrite E1, E2, Ei. done.
  - rewrite Ei, Hr. intros i x q Hi Hq. destruct (Hreg i x q Hi Hq) as [? (r' & ? & ?)]. split; [done |].
    exists r'. rewrite lookup_insert_ne by congruence. done.
  - rewrite Ei, Hr. intros q r' i Hq Hi. destruct (decide (q = p)) as [-> | Hne].
    + rewrite lookup_insert_eq in Hq. congruence.
    + rewrite lookup_insert_ne in Hq by done. eauto.
Qed.

(** A change of the flags of one RPC. *)
Lemma same_identity_flags w p r f :
  w_rpcs w !! p = Some r ->
  same_identity w (w <| w_rpcs ::= insert p (r <| rpc_flags := f |>) |>).
Proof.
  intros Hp q x Hq. simpl. destruct (decide (q = p)) as [-> | Hne].
  - rewrite lookup_insert_eq. eexists. split; [done |]. rewrite Hp in Hq. by injection Hq as <-.
  - rewrite lookup_insert_ne by done. by exists x.
Qed.

Lemma interests_ok_flags hsk w p r f :
  interests_ok hsk w -> w_rpcs w !! p = Some r ->
  interests_ok hsk (w <| w_rpcs ::= insert p (r <| rpc_flags := f |>) |>).
Proof.
  intros [Hs Hreg Hrpc] Hp. constructor; simpl; [done | |].
  - intros i x q Hi Hq. destruct (Hreg i x q Hi Hq) as [? (r' & Hr' & ?)]. split; [done |].
    destruct (decide (q = p)) as [-> | Hne]; [rewrite lookup_insert_eq | rewrite lookup_insert_ne by done; by exists r'].
    eexists. split; [done |]. rewrite Hp in Hr'. by injection Hr' as <-.
  - intros q r' i. destruct (decide (q = p)) as [-> | Hne]; [rewrite lookup_insert_eq | rewrite lookup_insert_ne by done; by eauto].
    intros [= <-]. simpl. eauto.
Qed.

(** ** A new server RPC *)

(** The buffers of the RPC at [p]: all those its message needs, or none and
    a place in the queue. *)
Definition buffered (p : ptr) (n unsched : Z) (sk' : homa_sock) (live live' : list buf) (mi : homa_message_in) : Prop :=
  (exists bufs, holds mi bufs /\ message_bufs n bufs /\ live' = bufs ++ live /\
     0 < mi_num_bpages mi /\ mi_granted mi = Z.min unsched n /\ p ∉ sk_waiting_for_bufs sk') \/
  (mi_num_bpages mi = 0 /\ mi_granted mi = 0 /\ live' = live /\ p ∈ sk_waiting_for_bufs sk').

(** The RPC at [p] serves request [id] of the client at [addr] and [port]. *)
Record created (core : Z) (hsk p : ptr) (id port addr n unsched : Z) (sk sk' : homa_sock)
    (live live' : list buf) (rpc : homa_rpc) (w w' : world) : Prop := {
  cr_tables : rpcs_ok hsk sk' w';
  cr_interests : interests_ok hsk w';
  cr_wait : wait_ok core hsk w' sk' live';
  cr_old : same_identity w w';
  cr_peers : forall q, is_Some (w_peers w !! q) -> w_peers w' !! q = w_peers w !! q;
  cr_active : sk_active_rpcs sk' = sk_active_rpcs sk ++ [p];
  cr_rpc : w_rpcs w' !! p = Some rpc /\ rpc_hsk rpc = hsk /\ rpc_state_ rpc = RPC_INCOMING /\
    same_request w' id port addr rpc;
  cr_msg : fresh_message (rpc_msgin rpc) /\ mi_length (rpc_msgin rpc) = n /\
    buffered p n unsched sk' live live' (rpc_msgin rpc)
}.

Lemma same_identity_trans w1 w2 w3 : same_identity w1 w2 -> same_identity w2 w3 -> same_identity w1 w3.
Proof.
  intros H1 H2 q r Hr. destruct (H1 q r Hr) as (r2 & Hr2 & E1 & E2 & E3). destruct (H2 q r2 Hr2) as (r3 & Hr3 & F1 & F2 & F3).
  exists r3. split; [done |]. split_ands; congruence.
Qed.

(** A step that keeps identities, peers, the chains and the queue for buffers
    keeps [created]. *)
Lemma created_keep core hsk p id port addr n unsched sk sk' sk2 live live' rpc w w' w2 :
  created core hsk p id port addr n unsched sk sk' live live' rpc w w' ->
  rpcs_ok hsk sk2 w2 -> interests_ok hsk w2 -> same_identity w' w2 -> w_peers w2 = w_peers w' ->
  sk_active_rpcs sk2 = sk_active_rpcs sk' -> sk_waiting_for_bufs sk2 = sk_waiting_for_bufs sk' ->
  sk_buffer_pool sk2 = sk_buffer_pool sk' ->
  exists rpc2, created core hsk p id port addr n unsched sk sk2 live live' rpc2 w w2.
Proof.
  intros [C1 C2 C3 C4 C5 C6 (Hr & Hh & Hst & (Hid & pe & Hpe & Ha) & Hdp) (M1 & M2 & M3)] Hok Hio Hid2 Hp E1 E2 E3.
  destruct (Hid2 p rpc Hr) as (r2 & Hr2 & [= F1 F2 F3 F4] & F5 & F6). exists r2. constructor; try done.
  - eapply wait_ok_sock; [exact C3 | apply Hok | done | done | done].
  - by eapply same_identity_trans.
  - intros q Hq. rewrite Hp. by apply C5.
  - by rewrite E1.
  - split_ands; try congruence. unfold same_request, serves. rewrite Hp, F3, F4, F5. eauto.
  - rewrite F6. split_ands; try done. unfold buffered in *. rewrite E2. done.
Qed.

(** The queue of threads and of ready RPCs after [p] was offered to the
    application. *)
Definition delivered (hsk p : ptr) (w : world) : Prop :=
  (exists sk, w_socks w !! hsk = Some sk /\ p ∈ sk_ready_requests sk) \/
  (exists i x, w_interests w !! i = Some x /\ int_ready_rpc x = Some p).

Lemma created_handoff core hsk p id port addr n unsched sk sk' live live' rpc w w' :
  created core hsk p id port addr n unsched sk sk' live live' rpc w w' ->
  homa_is_client id = false -> rpc_flags rpc = 0 -> p ∉ sk_ready_requests sk' -> p ∉ sk_ready_responses sk' ->
  exists w2 sk2 rpc2, (upd_rpc p (flags_or RPC_PKTS_READY) ;;; homa_rpc_handoff p) w' = Ok (tt, w2) /\
    created core hsk p id port addr n unsched sk sk2 live live' rpc2 w w2 /\ delivered hsk p w2.
Proof.
  intros C Hcl Hf Hn1 Hn2. pose proof (cr_rpc _ _ _ _ _ _ _ _ _ _ _ _ _ _ _ C) as (Hr & Hh & _ & (Hid & _) & _).
  pose proof (ro_sock _ _ _ (cr_tables _ _ _ _ _ _ _ _ _ _ _ _ _ _ _ C)) as Hs'.
  erewrite bind_eq by (by apply upd_rpc_eq).
  change (flags_or RPC_PKTS_READY rpc) with (rpc <| rpc_flags := Z.lor (rpc_flags rpc) RPC_PKTS_READY |>).
  set (rpc1 := rpc <| rpc_flags := _ |>).
  match goal with |- context [homa_rpc_handoff p ?W] => set (w1 := W) end.
  assert (w_rpcs w1 !! p = Some rpc1) as Hr1 by (unfold w1; simpl; by rewrite lookup_insert_eq).
  assert (interests_ok hsk w1) as Hio by (by apply interests_ok_flags; [apply C |]).
  assert (same_identity w' w1) as Hi1 by (by apply same_identity_flags).
  assert (rpcs_ok hsk sk' w1) as Hok.
  { eapply rpcs_ok_frame; [apply C | done | | done]. intros q r Hq. destruct (Hi1 q r Hq) as (r' & ? & ? & _). by exists r'. }
  change (rpc_hsk rpc) with (rpc_hsk rpc1) in Hh. rewrite <- Hh in Hio, Hok, Hs'.
  destruct (handoff_spec p w1 rpc1 sk' Hr1 Hs' Hio) as (w2 & Hex & Hio2 & Hho).
  assert (p ∈ sk_active_rpcs sk') as Hpa.
  { rewrite (cr_active _ _ _ _ _ _ _ _ _ _ _ _ _ _ _ C). set_solver. }
  destruct (handed_off_ok p rpc1 sk' w1 w2 Hok Hr1 Hpa Hho) as (sk2 & Hok2 & Hi2 & (_ & Hp2 & _) & Ea & _ & Ew & Ep).
  rewrite Hh in Hio2, Hok2.
  destruct (created_keep core hsk p id port addr n unsched sk sk' sk2 live live' rpc w w' w2) as [rpc2 C2]; try done.
  { by eapply same_identity_trans. }
  exists w2, sk2, rpc2. split; [done |]. split; [done |]. unfold handed_off in Hho.
  assert (flag_set RPC_HANDING_OFF rpc1 = false) as E1 by (unfold flag_set, rpc1; simpl; by rewrite Hf).
  assert (is_ready p sk' = false) as E2 by (unfold is_ready; by rewrite !bool_decide_false).
  rewrite E1, E2 in Hho. destruct Hho as [(i & x & w0 & _ & _ & _ & Hg & _) | (_ & _ & ->)].
  - right. eexists i, _. split; [rewrite (gv_interests _ _ _ _ _ _ _ _ Hg); apply lookup_insert_eq | done].
  - left. change (rpc_id rpc1) with (rpc_id rpc). rewrite Hid, Hcl, <- Hh. eexists. split; [apply lookup_insert_eq |].
    simpl. set_solver.
Qed.

Lemma linked_queue p id sk wl pool :
  linked p id (sk <| sk_waiting_for_bufs := wl |> <| sk_buffer_pool := pool |>) =
  (linked p id sk) <| sk_waiting_for_bufs := wl |> <| sk_buffer_pool := pool |>.
Proof. unfold linked, upd_bucket. by destruct (homa_is_client id). Qed.

(** Linking an RPC whose message was initialised. *)
Lemma created_link core hsk p id port addr n unsched peer pe sk sk2 live live2 mi R w w1 w2 :
  rpcs_ok hsk sk w -> interests_ok hsk w -> w_rpcs w !! p = None ->
  rpc_hsk R = hsk -> rpc_state_ R = RPC_INCOMING -> rpc_id R = id -> rpc_dport R = port -> rpc_peer R = peer ->
  rpc_interest R = None ->
  w_rpcs w1 = <[p := R]> (w_rpcs w) -> w_socks w1 = w_socks w -> w_interests w1 = w_interests w ->
  (forall q, is_Some (w_peers w !! q) -> w_peers w1 !! q = w_peers w !! q) ->
  w_peers w1 !! peer = Some pe -> peer_addr pe = addr ->
  initialised core hsk p R n unsched sk sk2 live live2 mi w1 w2 ->
  created core hsk p id port addr n unsched sk (linked p id sk2) live live2 (R <| rpc_msgin := mi |>) w
    (w2 <| w_socks ::= insert hsk (linked p id sk2) |>).
Proof.
  intros Hok Hio Hp Rh Rs Ri Rd Rp Rint E1 E2 E3 Hpm Hpe Hpa [I1 I2 I3 I4 (_ & I5 & I6 & _) (I7 & I8 & _) I9].
  set (w3 := w2 <| w_socks ::= insert hsk (linked p id sk2) |>). set (rpc := R <| rpc_msgin := mi |>).
  assert (w_rpcs w3 = <[p := rpc]> (w_rpcs w)) as Hr3 by (unfold w3; simpl; by rewrite I2, E1, insert_insert_eq).
  assert (w_rpcs w3 !! p = Some rpc) as Hp3 by (rewrite Hr3; apply lookup_insert_eq).
  assert (w_socks w3 !! hsk = Some (linked p id sk2)) as Hs3 by (unfold w3; simpl; apply lookup_insert_eq).
  assert (w_peers w3 = w_peers w1) as Hp31 by done.
  assert (linked p id sk2 = (linked p id sk) <| sk_waiting_for_bufs := sk_waiting_for_bufs sk2 |>
    <| sk_buffer_pool := sk_buffer_pool sk2 |>) as Hl by (etransitivity; [|apply linked_queue]; f_equal; exact I4).
  destruct (linked_lists p id sk) as (La & Ld & Lq & Ls & Lw). destruct (linked_lists p id sk2) as (La2 & _ & _ & _ & Lw2).
  assert (sk_active_rpcs sk2 = sk_active_rpcs sk) as Ha2 by (rewrite I4; done).
  assert (forall q, q ∈ sk_waiting_for_bufs sk2 -> q ∈ sk_active_rpcs sk ++ [p]) as Hwa.
  { intros q Hq. destruct I9 as [(b & _ & _ & _ & _ & _ & E) | (_ & _ & _ & E & _)]; rewrite E in Hq.
    - apply elem_of_app. left. apply (ro_lists _ _ _ Hok). auto.
    - apply elem_of_insert_before in Hq as [-> | Hq]; [set_solver |]. apply elem_of_app. left. apply (ro_lists _ _ _ Hok). auto. }
  assert (same_identity w w3) as Hid.
  { intros q r Hq. rewrite Hr3, lookup_insert_ne by congruence. by exists r. }
  constructor; try done.
  - rewrite Hl. set (w3' := w3 <| w_socks ::= insert hsk (linked p id sk) |>).
    apply (rpcs_ok_queue hsk (linked p id sk) w3' w3); try done.
    + rewrite <- Ri. eapply (rpcs_ok_link hsk sk (w <| w_peers := w_peers w1 |>) p rpc); try done.
      * eapply rpcs_ok_frame; [exact Hok | apply Hok | | intros q Hq; simpl; by rewrite Hpm]. intros q x Hq. by exists x.
      * unfold rpc. simpl. by rewrite Rs.
      * exists pe. unfold rpc. simpl. by rewrite Rp.
      * change (rpc_id rpc) with (rpc_id R). rewrite Ri. apply lookup_insert_eq.
    + apply I1.
    + by rewrite La.
    + by rewrite <- Hl.
  - eapply (interests_ok_new hsk w w3 sk (linked p id sk2) p rpc); try done; [apply Hok | | |].
    1, 2: rewrite Hl; unfold linked, upd_bucket; by destruct (homa_is_client id).
    by rewrite <- E3.
  - eapply wait_ok_sock; [exact I1 | done | | done |].
    + unfold linked, upd_bucket. by destruct (homa_is_client id).
    + intros q r Hq. by exists r.
  - intros q Hq. rewrite Hp31. by apply Hpm.
  - by rewrite La2, Ha2.
  - split_ands; try done. split; [|done]. split; [done |]. exists pe. rewrite Hp31. split; [|done]. unfold rpc. simpl. by rewrite Rp.
  - split; [done |]. split; [done |]. unfold buffered. rewrite Lw2.
    destruct I9 as [(b & B1 & B2 & B3 & B4 & B5 & B6) | (B1 & B2 & B3 & B4 & B5)]; [left; exists b | right].
    + split_ands; try done. rewrite B6. intros Hin. destruct (ro_active _ _ _ Hok p) as (? & ? & _); [apply Hok; auto | congruence].
    + split_ands; try done. rewrite B4. apply elem_of_insert_before. auto.
Qed.

(** What [homa_rpc_new_server] does before it creates an RPC. *)
Lemma new_server_search env mem core hsk sk w source h :
  rpcs_ok hsk sk w -> let id := homa_local_id (sender_id (d_common h)) in homa_is_client id = false ->
  (exists q r, homa_rpc_new_server env mem core hsk source h w = Ok (inr (q, false), w) /\
     q ∈ sk_active_rpcs sk /\ w_rpcs w !! q = Some r /\ same_request w id (sport (d_common h)) source r) \/
  (forall q r, q ∈ sk_active_rpcs sk -> w_rpcs w !! q = Some r -> ~ same_request w id (sport (d_common h)) source r) /\
  find_existing id (sport (d_common h)) source (rpc_chain sk id) w = Ok (None, w).
Proof.
  intros Hok id Hid. unfold homa_rpc_new_server. fold id.
  rewrite (bind_eq _ _ _ _ _ (server_bucket_eq _ _ _ _ (ro_sock _ _ _ Hok) (ro_tables _ _ _ Hok) Hid)).
  destruct (find_existing_spec w id (sport (d_common h)) source (rpc_chain sk id)) as (o & Hex & Ho).
  { intros q Hq. exact (chain_live _ _ _ _ _ Hok Hq). }
  rewrite (bind_eq _ _ _ _ _ Hex). destruct o as [q|].
  - left. destruct Ho as [Hq (r & Hr & Hs)]. exists q, r. split_ands; try done. by apply (ro_chain _ _ _ Hok id).
  - right. split; [|done]. intros q r Hq Hr Hs. destruct (ro_active _ _ _ Hok q Hq) as (r' & Hr' & _ & _ & Hc & _).
    rewrite Hr in Hr'. injection Hr' as <-. pose proof Hs as [[E _] _]. rewrite E in Hc. by apply (Ho q r).
Qed.

(** The new RPC is the one every further packet of the request finds. *)
Lemma created_found core hsk p id port addr n unsched sk sk' live live' rpc w w' env mem core' h :
  created core hsk p id port addr n unsched sk sk' live live' rpc w w' ->
  rpcs_ok hsk sk w -> homa_is_client id = false ->
  (forall q r, q ∈ sk_active_rpcs sk -> w_rpcs w !! q = Some r -> ~ same_request w id port addr r) ->
  homa_local_id (sender_id (d_common h)) = id -> sport (d_common h) = port ->
  homa_rpc_new_server env mem core' hsk addr h w' = Ok (inr (p, false), w').
Proof.
  intros C Hok Hcl Hno Hi Hs. pose proof (cr_rpc _ _ _ _ _ _ _ _ _ _ _ _ _ _ _ C) as (Hr & _ & _ & Hsame).
  pose proof (cr_active _ _ _ _ _ _ _ _ _ _ _ _ _ _ _ C) as Ha.
  destruct (new_server_search env mem core' hsk sk' w' addr h) as [(q & r & Hex & Hq & Hqr & Hqs) | [Hnone _]];
    [apply C | by rewrite Hi | |]; rewrite Hi, Hs in *.
  - rewrite Hex. do 4 f_equal. rewrite Ha, elem_of_app, list_elem_of_singleton in Hq. destruct Hq as [Hq | ->]; [|done].
    exfalso. destruct (ro_active _ _ _ Hok q Hq) as (r0 & Hr0 & _ & _ & _ & Hpe).
    destruct (cr_old _ _ _ _ _ _ _ _ _ _ _ _ _ _ _ C q r0 Hr0) as (r1 & Hr1 & [= _ _ E1 E2] & E3 & _).
    rewrite Hqr in Hr1. injection Hr1 as <-. apply (Hno q r0 Hq Hr0).
    destruct Hqs as [[F1 (pe & F2 & F3)] F4]. rewrite E2, (cr_peers _ _ _ _ _ _ _ _ _ _ _ _ _ _ _ C _ Hpe) in F2.
    split; [split; [congruence |]; by exists pe | congruence].
  - exfalso. apply (Hnone p rpc); [rewrite Ha; set_solver | done | done].
Qed.

(** The last steps: the RPC is offered to the application. *)
Lemma new_server_finish core hsk p id port addr n unsched sk sk' live live' rpc w w3 h :
  created core hsk p id port addr n unsched sk sk' live live' rpc w w3 ->
  rpcs_ok hsk sk w -> homa_is_client id = false ->
  (forall q r, q ∈ sk_active_rpcs sk -> w_rpcs w !! q = Some r -> ~ same_request w id port addr r) ->
  rpc_flags rpc = 0 -> p ∉ sk_ready_requests sk' -> p ∉ sk_ready_responses sk' ->
  exists w', (let* rpc := get_rpc p in
    (if (seg_offset h =? 0) && (mi_num_bpages (rpc_msgin rpc) >? 0)
     then upd_rpc p (flags_or RPC_PKTS_READY) ;;; homa_rpc_handoff p else ret tt) ;;;
    ret (@inr Z _ (p, true))) w3 = Ok (inr (p, true), w') /\
  exists sk' live' rpc, created core hsk p id port addr n unsched sk sk' live live' rpc w w' /\
    (seg_offset h = 0 -> 0 < mi_num_bpages (rpc_msgin rpc) -> delivered hsk p w') /\
    forall h' env' mem' core', homa_local_id (sender_id (d_common h')) = id -> sport (d_common h') = port ->
      homa_rpc_new_server env' mem' core' hsk addr h' w' = Ok (inr (p, false), w').
Proof.
  intros C Hok Hcl Hno Hf Hq1 Hq2. pose proof (cr_rpc _ _ _ _ _ _ _ _ _ _ _ _ _ _ _ C) as (Hr & _). step.
  destruct ((seg_offset h =? 0) && (mi_num_bpages (rpc_msgin rpc) >? 0)) eqn:E.
  - destruct (created_handoff _ _ _ _ _ _ _ _ _ _ _ _ _ _ _ C Hcl Hf Hq1 Hq2) as (w4 & sk4 & rpc4 & Hex & C4 & Hd).
    rewrite (bind_eq _ _ _ _ _ Hex). exists w4. split; [done |]. exists sk4, live', rpc4. split_ands; try done.
    intros h' env' mem' core'. by apply (created_found _ _ _ _ _ _ _ _ _ _ _ _ _ _ _ _ _ _ _ C4).
  - exists w3. split; [done |]. exists sk', live', rpc. split; [done |]. split.
    + intros E1 E2. rewrite E1 in E. simpl in E. rewrite Z.gtb_ltb in E. apply Z.ltb_ge in E. lia.
    + intros h' env' mem' core'. by apply (created_found _ _ _ _ _ _ _ _ _ _ _ _ _ _ _ _ _ _ _ C).
Qed.

(** C7: [homa_rpc_new_server] creates at most one RPC per request.  It returns
    the active RPC that has the id, the port and the address of the packet
    when there is one, and changes nothing.  Otherwise (unless no peer can be
    created) it enters a new RPC, with an empty message of the right length
    that has all the buffers it needs, or a place in the queue for buffers
    and no grant; it is offered to the application when the packet is the
    first one and there are buffers; and every further packet of the request
    finds this RPC, whatever the header carries besides its id and port. *)
Theorem new_server_correct env p mem core hsk sk live source h w :
  rpcs_ok hsk sk w -> interests_ok hsk w -> wait_ok core hsk w sk live -> env_ok env w ->
  w_rpcs w !! p = None -> Z.of_nat (length (mi_bpage_offsets (rpc_msgin mem))) = HOMA_MAX_BPAGES ->
  sk_shutdown sk = false -> 0 < s32 (message_length h) <= HOMA_MAX_MESSAGE_LENGTH ->
  let id := homa_local_id (sender_id (d_common h)) in
  let port := sport (d_common h) in
  homa_is_client id = false ->
  exists r w', homa_rpc_new_server env (Some (p, mem)) core hsk source h w = Ok (r, w') /\
    match r with
    | inl _ => w' = w
    | inr (q, false) => w' = w /\ q ∈ sk_active_rpcs sk /\
        exists rpc, w_rpcs w !! q = Some rpc /\ same_request w id port source rpc
    | inr (q, true) => q = p /\ exists sk' live' rpc,
        created core hsk p id port source (s32 (message_length h)) (s32 (incoming h)) sk sk' live live' rpc w w' /\
        (seg_offset h = 0 -> 0 < mi_num_bpages (rpc_msgin rpc) -> delivered hsk p w') /\
        forall h' env' mem' core', homa_local_id (sender_id (d_common h')) = id -> sport (d_common h') = port ->
          homa_rpc_new_server env' mem' core' hsk source h' w' = Ok (inr (p, false), w')
    end.
Proof.
  intros Hok Hio Hwo Henv Hp Hlen Hsd Hn id port Hid.
  destruct (new_server_search env (Some (p, mem)) core hsk sk w source h Hok Hid) as [(q & r & Hex & Hq) | [Hno Hfe]].
  { exists (inr (q, false)), w. split; [exact Hex |]. split; [done |]. split; [apply Hq | exists r; apply Hq]. }
  fold id port in Hno, Hfe. unfold homa_rpc_new_server. fold id port.
  rewrite (bind_eq _ _ _ _ _ (server_bucket_eq _ _ _ _ (ro_sock _ _ _ Hok) (ro_tables _ _ _ Hok) Hid)).
  rewrite (bind_eq _ _ _ _ _ Hfe).
  destruct (peer_find_frame env source w Henv) as (r & pm & pt & Hpf & Hpm & Hr). cbv zeta in *.
  rewrite (bind_eq _ _ _ _ _ Hpf). destruct r as [e | peer]; [exists (inl e), w; rewrite Hr; split; [reflexivity | reflexivity] |].
  destruct Hr as (pe & Hpe & Hpa). step. step. rewrite (bind_eq _ _ _ _ _ eq_refl).
  set (R := rpc_fields _ _ _ _ _ _ _ _). match goal with |- context [bind (homa_message_in_init _ _ _ _) _ ?W] => set (w1 := W) end.
  assert (p ∉ sk_waiting_for_bufs sk) as Hpw.
  { intros Hin. destruct (ro_active _ _ _ Hok p) as (? & ? & _); [apply Hok; auto | congruence]. }
  assert (wait_ok core hsk w1 sk live) as Hwo1.
  { eapply wait_ok_sock; [exact Hwo | apply Hok | done | done |]. intros q x Hx. unfold w1. simpl.
    rewrite lookup_insert_ne by congruence. by exists x. }
  destruct (message_in_init_spec core hsk p w1 sk live R (s32 (message_length h)) (s32 (incoming h)) Hwo1)
    as (w2 & sk2 & live2 & mi & Hex & Hin); try done.
  { unfold w1. simpl. apply lookup_insert_eq. }
  rewrite (bind_eq _ _ _ _ _ Hex). change (negb (0 =? 0)) with false. cbv iota.
  assert (w_socks w2 !! hsk = Some sk2) as Hs2 by (rewrite (in_socks _ _ _ _ _ _ _ _ _ _ _ _ _ Hin); apply lookup_insert_eq).
  erewrite bind_eq by (apply get_sock_eq; exact Hs2).
  assert (sk_shutdown sk2 = false) as -> by (rewrite (in_sock _ _ _ _ _ _ _ _ _ _ _ _ _ Hin); exact Hsd).
  unfold link_rpc. erewrite bind_eq by (apply upd_sock_eq; exact Hs2). fold (linked p id sk2).
  assert (created core hsk p id port source (s32 (message_length h)) (s32 (incoming h)) sk (linked p id sk2) live live2
    (R <| rpc_msgin := mi |>) w (w2 <| w_socks ::= insert hsk (linked p id sk2) |>)) as C
    by (eapply (created_link _ _ _ _ _ _ _ _ peer pe sk sk2 live live2 mi R w w1 w2); done).
  destruct (linked_lists p id sk2) as (_ & _ & Lq & Ls & _).
  assert ((p ∉ sk_ready_requests sk2) /\ (p ∉ sk_ready_responses sk2)) as [Hq1 Hq2].
  { rewrite (in_sock _ _ _ _ _ _ _ _ _ _ _ _ _ Hin). split; intros Hi; (destruct (ro_active _ _ _ Hok p) as (? & ? & _); [apply Hok; auto | congruence]). }
  destruct (new_server_finish _ _ _ _ _ _ _ _ _ _ _ _ _ _ _ h C Hok Hid Hno eq_refl) as (w' & Hw' & Hc);
    [by rewrite Lq | by rewrite Ls |].
  exists (inr (p, true)), w'. split; [exact Hw' | by split].
Qed.

(** The first packet of a request of 200000 bytes. *)
Definition ex_server_sock : homa_sock := ex_rpc_sock <| sk_buffer_pool := example_pool |>.
Definition ex_server : world := ex_rpcs <| w_socks := {[ 1%positive := ex_server_sock ]} |>.
Definition ex_request : homa_data_hdr :=
  Build_homa_data_hdr (Build_homa_common_hdr 700 80 0 0 0 DATA 0 0 0 0 0 40) 200000 10000 (Build_homa_ack 0 0) 0 0 0 0.

Lemma ex_server_wait : wait_ok 1 1%positive ex_server ex_server_sock [].
Proof.
  constructor; try done; [apply example_pool_inv | apply NoDup_nil_2 | | apply SSorted_nil].
  intros p H. by apply elem_of_nil in H.
Qed.

Lemma new_server_correct_witness :
  exists w', homa_rpc_new_server ex_peer_env (Some (20%positive, ex_rpc 1%positive 0 (example_mi 0))) 1
      1%positive 101 ex_request ex_server = Ok (inr (20%positive, true), w') /\
    homa_rpc_new_server ex_peer_env None 0 1%positive 101 ex_request w' = Ok (inr (20%positive, false), w').
Proof.
  destruct (new_server_correct ex_peer_env 20%positive (ex_rpc 1%positive 0 (example_mi 0)) 1 1%positive ex_server_sock []
    101 ex_request ex_server) as (r & w' & H & Hr).
  - apply rpcs_check_ok; [done |]. vm_compute. reflexivity.
  - destruct ex_rpcs_interests as [(sk & [= <-] & Hs) H1 H2]. constructor; [by exists ex_server_sock | exact H1 | exact H2].
  - exact ex_server_wait.
  - destruct ex_env_ok_rpcs as (H1 & [] & H3). split; [exact H1 |]. split; [by constructor | done].
  - reflexivity.
  - reflexivity.
  - reflexivity.
  - vm_compute. split; congruence.
  - reflexivity.
  - destruct r as [e | [q [|]]].
    + exfalso. vm_compute in H. congruence.
    + destruct Hr as (-> & sk' & live' & rpc & _ & _ & Hf). exists w'. split; [exact H | by apply Hf].
    + exfalso. vm_compute in H. congruence.
Defined.

Definition ex_empty_request : homa_data_hdr :=
  Build_homa_data_hdr (Build_homa_common_hdr 700 80 0 0 0 DATA 0 0 0 0 0 40) 0 0 (Build_homa_ack 0 0) 0 0 0 0.

(** A request whose header gives the length 0 makes
    [homa_message_in_init] index [small_msg_bytes] with -1. *)
Theorem new_server_empty_message :
  homa_rpc_new_server ex_peer_env (Some (20%positive, ex_rpc 1%positive 0 (example_mi 0))) 1
    1%positive 101 ex_empty_request ex_server = Fault ArrayBounds.
Proof. vm_compute. reflexivity. Qed.
