(* ===== verification/Incoming.v ===== *)
(** * Incoming packets (homa_incoming.c)

    The handlers of the packet types, [homa_dispatch_pkts], and
    [homa_wait_for_message].  A packet is the header that [homa_softirq]
    accepted, the bytes after the header, and the source address in the IP
    header. *)
From S2P Require Import Prelude Lists Wire Types Example Control Peer Reassembly Pool Grant PoolWait Outgoing OutXmit OutFill OutResend Sock Handoff Rpc RpcInv RpcFree Copy RpcServer.

Record rx_skb := { rx_v6 : bool; rx_saddr : Z; rx_pkt : homa_packet; rx_data : list Z }.

(** What the host provides while a packet is handled. *)
Record rx_env := {
  re_peer : peer_env; re_rpc : option (ptr * homa_rpc); re_gap : bool; re_tx : tx_env;
  re_core : Z; re_acks : list homa_ack
}.

(** ** Addresses (homa_impl.h) *)
Definition ipv4_to_ipv6 (ip4 : Z) : Z :=
  if ip4 =? 0 then 0 else Z.lor (Z.shiftl 4294901760 64) (Z.shiftl ip4 96).
Definition ipv6_to_ipv4 (ip6 : Z) : Z := addr_word ip6 3.
Definition is_mapped_ipv4 (x : Z) : bool :=
  (addr_word x 0 =? 0) && (addr_word x 1 =? 0) && (addr_word x 2 =? 4294901760).
Definition skb_canonical_ipv6_saddr (skb : rx_skb) : Z :=
  if rx_v6 skb then rx_saddr skb else ipv4_to_ipv6 (rx_saddr skb).

(** ** DATA *)

(** The part of [homa_data_pkt] that prepares the message for the first
    packet: [false] is [goto discard]. *)
Definition data_prepare (core : Z) (p : ptr) (h : homa_data_hdr) : M bool :=
  let* rpc := get_rpc p in
  if bool_decide (rpc_state_ rpc = RPC_INCOMING) then ret true
  else if homa_is_client (rpc_id rpc) then
    if negb (bool_decide (rpc_state_ rpc = RPC_OUTGOING)) then ret false else
    (upd_rpc p (fun r => r <| rpc_state_ := RPC_INCOMING |>) ;;;
     let* err := homa_message_in_init core p (s32 (message_length h)) (s32 (incoming h)) in
     ret (err =? 0))
  else ret (negb (mi_length (rpc_msgin rpc) >=? 0)).

(** The reply to a sender with stale cutoffs. *)
Definition send_cutoffs (p : ptr) (h : homa_data_hdr) : M unit :=
  let* hm := get_homa in
  if cutoff_version h =? h_cutoff_version hm then ret tt else
  let* rpc := get_rpc p in
  let* peer := get_peer (rpc_peer rpc) in
  let* jiffies := (fun w => Ok (host_jiffies (w_host w), w)) in
  if jiffies =? peer_last_update_jiffies peer then ret tt else
  (homa_xmit_control CUTOFFS (fun c => PCutoffs (Build_homa_cutoffs_hdr c
     (map u32 (h_unsched_cutoffs hm)) (u16 (h_cutoff_version hm)))) p ;;;
   upd_peer (rpc_peer rpc) (fun peer => peer <| peer_last_update_jiffies := jiffies |>)).

Definition homa_data_pkt (env : rx_env) (h : homa_data_hdr) (data : list Z) (p : ptr) : M unit :=
  let* ok := data_prepare (re_core env) p h in
  if negb ok then ret tt else
  let* rpc := get_rpc p in
  if mi_num_bpages (rpc_msgin rpc) =? 0 then ret tt else
  let* now := sched_clock in
  upd_msgin p (fun mi => (homa_add_packet (re_gap env) now mi (Build_skb_in h data)).1) ;;;
  let* rpc := get_rpc p in
  (if negb (bool_decide (mi_packets (rpc_msgin rpc) = [])) &&
      (Z.land (rpc_flags rpc) RPC_PKTS_READY =? 0)
   then upd_rpc p (flags_or RPC_PKTS_READY) ;;; homa_rpc_handoff p else ret tt) ;;;
  send_cutoffs p h.

(** ** GRANT, RESEND, UNKNOWN *)
Definition homa_grant_pkt (env : rx_env) (h : homa_grant_hdr) (p : ptr) : M unit :=
  let new_offset := s32 (g_offset h) in
  let* rpc := get_rpc p in
  if negb (bool_decide (rpc_state_ rpc = RPC_OUTGOING)) then ret tt else
  (if negb (g_resend_all h =? 0)
   then homa_resend_data (re_tx env) p 0 (mo_next_xmit_offset (rpc_msgout rpc)) (g_priority h)
   else ret tt) ;;;
  upd_msgout p (fun mo => (if new_offset >? mo_granted mo
     then mo <| mo_granted := if new_offset >? mo_length mo then mo_length mo else new_offset |>
     else mo) <| mo_sched_priority := g_priority h |>) ;;;
  homa_xmit_data p false.

(** [homa_xmit_unknown]; [h] is the header of the incoming packet. *)
Definition reply_hdr (type_ : Z) (s h : homa_common_hdr) : homa_common_hdr :=
  Build_homa_common_hdr (dport h) (sport h) (sequence s) (ack1 s) (ack2 s) type_ (doff s)
    HOMA_TCP_FLAGS (window s) (checksum s) HOMA_TCP_URGENT (homa_local_id (sender_id h)).

Definition homa_xmit_unknown (env : rx_env) (saddr : Z) (h : homa_common_hdr) : M unit :=
  let* r := peer_find (re_peer env) saddr in
  match r with
  | inl _ => ret tt
  | inr peer => fun w => send peer (PUnknown (reply_hdr UNKNOWN (w_stack w) h)) w
  end.

Definition send_busy (p : ptr) : M unit := homa_xmit_control BUSY PBusy p.

Definition homa_resend_pkt (env : rx_env) (saddr : Z) (h : homa_resend_hdr) (o : option ptr) : M unit :=
  match o with
  | None => homa_xmit_unknown env saddr (r_common h)
  | Some p =>
      let* rpc := get_rpc p in
      let mo := rpc_msgout rpc in
      if negb (homa_is_client (rpc_id rpc)) && negb (bool_decide (rpc_state_ rpc = RPC_OUTGOING))
      then send_busy p
      else if mo_next_xmit_offset mo <? mo_granted mo then send_busy p
      else
        ((if r_length h =? 0 then send_busy p else ret tt) ;;;
         homa_resend_data (re_tx env) p (s32 (r_offset h)) (s32 (r_offset h + r_length h)) (r_priority h))
  end.

Definition homa_unknown_pkt (env : rx_env) (p : ptr) : M unit :=
  let* rpc := get_rpc p in
  if homa_is_client (rpc_id rpc) then
    if bool_decide (rpc_state_ rpc = RPC_OUTGOING) then
      let* hm := get_homa in
      let* peer := get_peer (rpc_peer rpc) in
      let* priority := lift (homa_unsched_priority hm peer (mo_length (rpc_msgout rpc))) in
      homa_resend_data (re_tx env) p 0 (mo_next_xmit_offset (rpc_msgout rpc)) priority
    else ret tt
  else homa_rpc_free p.

(** ** CUTOFFS, NEED_ACK, ACK *)
Definition homa_cutoffs_pkt (env : rx_env) (saddr : Z) (h : homa_cutoffs_hdr) : M unit :=
  let* r := peer_find (re_peer env) saddr in
  match r with
  | inl _ => ret tt
  | inr peer =>
      upd_peer peer (fun pe => pe
        <| peer_unsched_cutoffs := INT_MAX :: map s32 (drop 1 (Wire.h_unsched_cutoffs h)) |>
        <| peer_cutoff_version := Wire.h_cutoff_version h |>)
  end.

Definition homa_need_ack_pkt (env : rx_env) (saddr : Z) (h : homa_common_hdr) (o : option ptr)
    : M unit :=
  let* wait := match o with
    | Some p =>
        let* rpc := get_rpc p in
        ret (negb (bool_decide (rpc_state_ rpc = RPC_INCOMING)) ||
             negb (mi_bytes_remaining (rpc_msgin rpc) =? 0))
    | None => ret false
    end in
  if (wait : bool) then ret tt else
  let* r := peer_find (re_peer env) saddr in
  match r with
  | inl _ => ret tt
  | inr peer =>
      let* l := homa_peer_get_acks peer HOMA_MAX_ACKS_PER_PKT in
      fun w => send peer (PAck (Build_homa_ack_hdr (reply_hdr ACK (w_stack w) h)
        (u16 (Z.of_nat (length l))) (l ++ drop (length l) (re_acks env)))) w
  end.

(** The loop over the acks of a packet: [n] more, from element [i]. *)
Fixpoint ack_loop (hsk : ptr) (saddr : Z) (l : list homa_ack) (i : Z) (n : nat) : M unit :=
  match n with
  | O => ret tt
  | S n =>
      let* a := lift (arr l i) in
      homa_rpc_acked hsk saddr a ;;; ack_loop hsk saddr l (i + 1) n
  end.

Definition homa_ack_pkt (hsk : ptr) (saddr : Z) (h : homa_ack_hdr) (o : option ptr) : M unit :=
  match o with Some p => homa_rpc_free p | None => ret tt end ;;;
  ack_loop hsk saddr (acks h) 0 (Z.to_nat (num_acks h)).

(** ** Dispatch *)
Definition MAX_ACKS : nat := 10.

(** The socket of the first packet of a batch. *)
Definition dispatch_sock (skb : rx_skb) : M (option ptr) :=
  homa_sock_find_connected (if rx_v6 skb then AF_INET6 else AF_INET)
    (rx_saddr skb, sport (packet_common (rx_pkt skb))) (dport (packet_common (rx_pkt skb))).

(** The RPC of a packet, unless it is known already; [inl] is
    [goto discard]. *)
Definition dispatch_find (env : rx_env) (hsk : ptr) (saddr id : Z) (pkt : homa_packet)
    : M (unit + option ptr) :=
  if homa_is_client id
  then let* o := homa_find_client_rpc hsk id in ret (inr o)
  else match pkt with
  | PData h =>
      let* r := homa_rpc_new_server (re_peer env) (re_rpc env) (re_core env) hsk saddr h in
      match r with inl _ => ret (inl tt) | inr (p, _) => ret (inr (Some p)) end
  | _ => let* o := homa_find_server_rpc hsk saddr id in ret (inr o)
  end.

(** Whether a packet is handled although its RPC is unknown, and whether it
    shows that the peer is alive. *)
Definition without_rpc (pkt : homa_packet) : bool :=
  match pkt with PCutoffs _ | PNeedAck _ | PAck _ | PResend _ => true | _ => false end.
Definition resets_silence (pkt : homa_packet) : bool :=
  match pkt with PData _ | PGrant _ | PBusy _ | PNeedAck _ => true | _ => false end.

(** The switch over the packet type; the result is the RPC that stays locked. *)
Definition dispatch_pkt (env : rx_env) (hsk : ptr) (skb : rx_skb) (o : option ptr) (last : bool)
    : M (option ptr) :=
  let saddr := skb_canonical_ipv6_saddr skb in
  match rx_pkt skb, o with
  | PData h, Some p => homa_data_pkt env h (rx_data skb) p ;;; ret o
  | PGrant h, Some p => homa_grant_pkt env h p ;;; ret o
  | PResend h, _ => homa_resend_pkt env saddr h o ;;; ret o
  | PUnknown _, Some p => homa_unknown_pkt env p ;;; ret o
  | PCutoffs h, _ => homa_cutoffs_pkt env saddr h ;;; ret o
  | PNeedAck h, _ => homa_need_ack_pkt env saddr h o ;;; ret o
  | PAck h, _ => homa_ack_pkt hsk saddr h o ;;; if last then ret None else raise BugOn
  | _, _ => ret o
  end.

(** The loop over the packets of a batch; [got] are the acks of DATA packets
    so far.  [saddr0] and [id] are those of the first packet. *)
Fixpoint dispatch_loop (hsk : ptr) (saddr0 id : Z) (l : list (rx_env * rx_skb)) (o : option ptr)
    (got : list homa_ack) : M (option ptr * list homa_ack) :=
  match l with
  | [] => ret (o, got)
  | (env, skb) :: l' =>
      let* o := match o with
        | Some p =>
            let* rpc := get_rpc p in
            ret (if negb (Z.land (rpc_flags rpc) APP_NEEDS_LOCK =? 0) then None else Some p)
        | None => ret None
        end in
      let* r := match o with
        | Some p => ret (inr (Some p))
        | None => dispatch_find env hsk saddr0 id (rx_pkt skb)
        end in
      match r with
      | inl _ => dispatch_loop hsk saddr0 id l' None got
      | inr None =>
          if negb (without_rpc (rx_pkt skb)) then dispatch_loop hsk saddr0 id l' None got else
          let* o := dispatch_pkt env hsk skb None (bool_decide (l' = [])) in
          dispatch_loop hsk saddr0 id l' o got
      | inr (Some p) =>
          (if resets_silence (rx_pkt skb) then upd_rpc p (fun r => r <| rpc_silent_ticks := 0 |>)
           else ret tt) ;;;
          let* rpc := get_rpc p in
          upd_peer (rpc_peer rpc) (fun pe => pe <| peer_outstanding_resends := 0 |>) ;;;
          let got := match rx_pkt skb with
            | PData h => if negb (client_id (ack h) =? 0) && (length got <? MAX_ACKS)%nat
                then got ++ [ack h] else got
            | _ => got
            end in
          let* o := dispatch_pkt env hsk skb (Some p) (bool_decide (l' = [])) in
          dispatch_loop hsk saddr0 id l' o got
      end
  end.

(** [homa_dispatch_pkts] for a batch whose first packet is [skb]; [junk] is
    the uninitialised [result] of [homa_rpc_reap]. *)
Definition homa_dispatch_pkts (junk core : Z) (env : rx_env) (skb : rx_skb)
    (rest : list (rx_env * rx_skb)) : M unit :=
  let saddr := skb_canonical_ipv6_saddr skb in
  let id := homa_local_id (sender_id (packet_common (rx_pkt skb))) in
  let* o := dispatch_sock skb in
  match o with
  | None => upd_host (fun ho => ho <| host_icmp ::= fun l => l ++ [rx_saddr skb] |>)
  | Some hsk =>
      let* (o, got) := dispatch_loop hsk saddr id ((env, skb) :: rest) None [] in
      match o with Some p => homa_grant_check_rpc p | None => ret tt end ;;;
      mapM_ (homa_rpc_acked hsk saddr) (reverse got) ;;;
      let* sk := get_sock hsk in
      let* h := get_homa in
      if sk_dead_skbs sk >=? 2 * h_dead_buffs_limit h
      then (homa_rpc_reap junk core hsk (h_reap_limit h) ;;; ret tt) else ret tt
  end.

(** ** Parameters *)
Definition homa_incoming_sysctl_changed : M unit :=
  let* h := get_homa in
  let fraction := if h_grant_fifo_fraction h >? 500 then 500 else h_grant_fifo_fraction h in
  let tmp := u64 fraction in
  let nonfifo := if tmp =? 0 then 0
    else u64 (u64 (s32 (1000 * h_fifo_grant_increment h)) / tmp - h_fifo_grant_increment h) in
  upd_homa (fun h => h <| h_grant_fifo_fraction := fraction |> <| h_grant_nonfifo := s32 nonfifo |>
    <| h_max_overcommit := if h_max_overcommit h >? HOMA_MAX_GRANTS then HOMA_MAX_GRANTS
                           else h_max_overcommit h |>
    <| h_busy_ns := s32 (h_busy_usecs h * 1000) |>
    <| h_gro_busy_ns := s32 (h_gro_busy_usecs h * 1000) |>).

(** ** Waiting for a message

    [others] is what the rest of the system does while the thread is not
    running, each time it calls [schedule]; [pending] is
    [signal_pending(current)]; [i] is the interest of the thread. *)
Section Wait.
Context (others : M unit) (pending : world -> bool) (env : copy_env) (junk core : Z) (hsk i : ptr).

Definition ready_rpc : M (option ptr) := let* x := get_interest i in ret (int_ready_rpc x).

(** The loop that reaps before going to sleep: whether an RPC was handed off
    meanwhile. *)
Fixpoint wait_reap (fuel : nat) : M bool :=
  let* o := ready_rpc in
  match o, fuel with
  | Some _, _ => ret true
  | None, O => raise OutOfFuel
  | None, S fuel =>
      let* h := get_homa in
      let* res := homa_rpc_reap junk core hsk (h_reap_limit h) in
      if res =? 0 then ret false else (others ;;; wait_reap fuel)
  end.

(** The busy-wait until [poll_end], with the time of its last iteration. *)
Fixpoint wait_poll (fuel : nat) (poll_end now : Z) : M (bool * Z) :=
  let* o := ready_rpc in
  match o, fuel with
  | Some _, _ => ret (true, now)
  | None, O => raise OutOfFuel
  | None, S fuel =>
      if now >=? poll_end then ret (false, now) else
      (sched_clock ;;; others ;;; let* now := sched_clock in wait_poll fuel poll_end now)
  end.

(** From the end of reaping to the label [found_rpc] in blocking mode. *)
Definition wait_sleep (fuel : nat) : M unit :=
  let* now := sched_clock in
  let* h := get_homa in
  let* (found, now) := wait_poll fuel (u64 (now + s32 (1000 * h_poll_usecs h))) now in
  if (found : bool) then ret tt else
  let* x := get_interest i in
  upd_host (fun ho => ho <| host_last_app_active ::=
    fun f c => if c =? int_core x then now else f c |>) ;;;
  let* o := ready_rpc in
  let* sk := get_sock hsk in
  if bool_decide (o = None) && negb (sk_shutdown sk) then (sched_clock ;;; others ;;; sched_clock ;;; ret tt)
  else ret tt.

(** One iteration up to [found_rpc]: the new value of [result] (0 is NULL). *)
Definition wait_register (fuel : nat) (flags id result_ : Z) : M Z :=
  let* error := homa_register_interests core hsk i flags id in
  let* o := ready_rpc in
  if negb (bool_decide (o = None)) then ret result_
  else if error <? 0 then ret error
  else
    let* found := wait_reap fuel in
    if (found : bool) then ret result_
    else if negb (Z.land flags HOMA_RECVMSG_NONBLOCKING =? 0) then ret (- EAGAIN)
    else (wait_sleep fuel ;;; ret result_).

(** What happens to the RPC that was handed off: [Some true] is [goto done],
    [None] is [continue]. *)
Definition wait_deliver (p : ptr) : M (option bool) :=
  let* x := get_interest i in
  (if int_locked x =? 0
   then upd_rpc p (flags_or APP_NEEDS_LOCK) ;;;
        upd_rpc p (flags_andnot (Z.lor APP_NEEDS_LOCK RPC_HANDING_OFF))
   else upd_rpc p (flags_andnot RPC_HANDING_OFF)) ;;;
  let* rpc := get_rpc p in
  (if rpc_error rpc =? 0
   then let* e := homa_copy_to_user env p in upd_rpc p (fun r => r <| rpc_error := e |>)
   else ret tt) ;;;
  let* rpc := get_rpc p in
  if bool_decide (rpc_state_ rpc = RPC_DEAD) then ret None
  else if negb (rpc_error rpc =? 0) then ret (Some true)
  else
    (upd_rpc p (flags_andnot RPC_PKTS_READY) ;;;
     let mi := rpc_msgin rpc in
     ret (Some ((mi_bytes_remaining mi =? 0) && bool_decide (mi_packets mi = [])))).

Fixpoint wait_loop (rounds fuel : nat) (flags id result_ : Z) : M (Z + ptr) :=
  match rounds with
  | O => raise OutOfFuel
  | S rounds =>
      let* result_ := wait_register fuel flags id result_ in
      clear_interest hsk i ;;;
      let* o := ready_rpc in
      let* d := match o with Some p => wait_deliver p | None => ret (Some false) end in
      match d, o with
      | Some true, Some p => ret (inr p)
      | None, _ => wait_loop rounds fuel flags id result_
      | _, _ =>
          if negb (result_ =? 0) then ret (inl result_) else
          let* sig := (fun w => Ok (pending w, w)) in
          if (sig : bool) then ret (inl (- EINTR)) else wait_loop rounds fuel flags id result_
      end
  end.

Definition homa_wait_for_message (rounds fuel : nat) (flags id : Z) : M (Z + ptr) :=
  wait_loop rounds fuel flags id 0.
End Wait.

(** ** GRANT packets *)

(** The message after a grant up to [new_offset]. *)
Definition grant_applied (h : homa_grant_hdr) (mo : homa_message_out) : homa_message_out :=
  mo <| mo_granted := Z.max (mo_granted mo) (Z.min (s32 (g_offset h)) (mo_length mo)) |>
     <| mo_sched_priority := g_priority h |>.

Lemma grant_applied_eq h mo :
  mo_granted mo <= mo_length mo ->
  (if s32 (g_offset h) >? mo_granted mo
   then mo <| mo_granted := if s32 (g_offset h) >? mo_length mo then mo_length mo else s32 (g_offset h) |>
   else mo) <| mo_sched_priority := g_priority h |> = grant_applied h mo.
Proof.
  intros Hle. unfold grant_applied. destruct mo as [? ? ? ? ? ? ? ? g ? ?]; simpl in *. unfold upd; simpl.
  destruct (Z.gtb_spec (s32 (g_offset h)) g), (Z.gtb_spec (s32 (g_offset h)) mo_length); simpl; f_equal; lia.
Qed.

(** What a RESEND request in a GRANT sends again: everything sent before. *)
Lemma grant_resend_exec env D h p w rpc sk peer :
  tx_ok env -> resend_pre p (g_priority h) w rpc sk peer -> out_ok D (rpc_msgout rpc) ->
  exists w1 again,
    (if negb (g_resend_all h =? 0)
     then homa_resend_data env p 0 (mo_next_xmit_offset (rpc_msgout rpc)) (g_priority h)
     else ret tt) w = Ok (tt, w1) /\
    out_frame p w w1 /\ w_rpcs w1 = w_rpcs w /\ h_throttled_rpcs (w_homa w1) = h_throttled_rpcs (w_homa w) /\
    host_xmit (w_host w1) = host_xmit (w_host w) ++ map (fun s => (rpc_peer rpc, g_priority h, s)) again /\
    Forall2 (resent D (rpc_msgout rpc))
      (if g_resend_all h =? 0 then [] else
       filter (wanted 0 (mo_next_xmit_offset (rpc_msgout rpc))) (mo_packets (rpc_msgout rpc) ≫= segments)) again.
Proof.
  intros He Hpre Hok. destruct (Z.eqb_spec (g_resend_all h) 0) as [_ | _]; cbn [negb].
  { exists w, []. simpl. by rewrite app_nil_r. }
  destruct (Z.lt_ge_cases 0 (mo_next_xmit_offset (rpc_msgout rpc))) as [Hlt | Hge].
  - destruct (resend_data_spec env D p 0 _ (g_priority h) w rpc sk peer He Hpre Hok Hlt) as (w1 & again & ? & ? & ? & ? & ? & ? & _).
    by exists w1, again.
  - exists w, []. unfold homa_resend_data. destruct (Z.leb_spec (mo_next_xmit_offset (rpc_msgout rpc)) 0); [|lia].
    simpl. rewrite app_nil_r. split_ands; try done.
    destruct (filter _ _) as [|x l] eqn:E; [constructor |]. exfalso.
    assert (x ∈ filter (wanted 0 (mo_next_xmit_offset (rpc_msgout rpc))) (mo_packets (rpc_msgout rpc) ≫= segments)) as Hx
      by (rewrite E; left).
    apply list_elem_of_filter in Hx as [[Hx _] Hin]. pose proof (segments_nonneg _ _ _ Hok Hin). lia.
Qed.

(** C8: [homa_grant_pkt] neither faults nor changes another RPC.  For an RPC
    that is not outgoing it does nothing.  Otherwise it first sends again all
    the segments sent before, if the packet asks for it; the limit becomes
    the maximum of the old limit and the granted offset, never more than the
    message; and packets are then sent in order, all of them below the new
    limit, until none is left, the limit is reached or the RPC is throttled. *)
Theorem grant_pkt_correct env D h p w rpc sk peer :
  tx_ok (re_tx env) -> resend_pre p (g_priority h) w rpc sk peer ->
  xmit_ready (w_homa w) peer (grant_applied h (rpc_msgout rpc)) -> throttled_live w ->
  out_ok D (rpc_msgout rpc) -> mo_granted (rpc_msgout rpc) <= mo_length (rpc_msgout rpc) ->
  if bool_decide (rpc_state_ rpc = RPC_OUTGOING) then
    exists w' rpc' again sent, homa_grant_pkt env h p w = Ok (tt, w') /\
      out_frame p w w' /\ w_rpcs w' !! p = Some rpc' /\ out_ok D (rpc_msgout rpc') /\
      mo_granted (rpc_msgout rpc') =
        Z.max (mo_granted (rpc_msgout rpc)) (Z.min (s32 (g_offset h)) (mo_length (rpc_msgout rpc))) /\
      host_xmit (w_host w') = host_xmit (w_host w) ++
        map (fun s => (rpc_peer rpc, g_priority h, s)) again ++ map (fun x => (rpc_peer rpc, x.1, x.2)) sent /\
      Forall2 (resent D (rpc_msgout rpc))
        (if g_resend_all h =? 0 then [] else
         filter (wanted 0 (mo_next_xmit_offset (rpc_msgout rpc))) (mo_packets (rpc_msgout rpc) ≫= segments)) again /\
      geometry <$> sent.*2 = take (length sent)
        (drop (mo_next_xmit (rpc_msgout rpc)) (geometry <$> mo_packets (rpc_msgout rpc))) /\
      Forall (fun x => info_offset x.2 < mo_granted (rpc_msgout rpc')) sent /\
      xmit_stop p w' (rpc_msgout rpc')
  else homa_grant_pkt env h p w = Ok (tt, w).
Proof.
  intros He Hpre Hx Hl Hok Hle. pose proof (rp_rpc _ _ _ _ _ _ Hpre) as Hr. unfold homa_grant_pkt.
  case_bool_decide as Hst; step; [rewrite bool_decide_true by done | by rewrite bool_decide_false]. cbn [negb]. cbv iota.
  destruct (grant_resend_exec (re_tx env) D h p w rpc sk peer He Hpre Hok) as (w1 & again & Hex & Hf1 & Hr1 & Ht1 & Hl1 & H2).
  rewrite (bind_eq _ _ _ _ _ Hex). rewrite <- Hr1 in Hr.
  set (r2 := rpc <| rpc_msgout := grant_applied h (rpc_msgout rpc) |>).
  erewrite bind_eq.
  2:{ unfold upd_msgout. rewrite (upd_rpc_eq _ _ _ _ Hr).
      instantiate (1 := w1 <| w_rpcs ::= insert p r2 |>). unfold r2. by rewrite <- (grant_applied_eq h (rpc_msgout rpc) Hle). }
  match goal with |- context [homa_xmit_data p false ?W] => set (w2 := W) end.
  assert (w_rpcs w2 !! p = Some r2) as Hr2 by (unfold w2; simpl; apply lookup_insert_eq).
  assert (out_frame p w1 w2) as Hf2 by (constructor; try done; unfold w2; simpl; by rewrite delete_insert_eq).
  destruct (homa_out_fields _ _ (of_homa _ _ _ Hf1)) as [Hn Hm].
  destruct (xmit_data_spec D p false w2 r2 peer) as (w' & rpc' & sent & Hex' & Hxm & Hok' & Hall & Hstop & _); try done.
  - change (w_peers w2) with (w_peers w1). rewrite (of_peers _ _ _ Hf1). exact (rp_peer _ _ _ _ _ _ Hpre).
  - by eapply xmit_ready_eq.
  - intros q. change (w_homa w2) with (w_homa w1). rewrite Ht1. intros Hq. unfold w2. simpl.
    apply lookup_insert_is_Some'. right. rewrite Hr1. by apply Hl.
  - simpl. by rewrite Hst.
  - destruct Hok. by constructor.
  - destruct Hxm as [X1 X2 X3 (pk & off & X4 & X5) X6 X7]. exists w', rpc', again, sent. split; [done |].
    assert (mo_granted (rpc_msgout rpc') = mo_granted (rpc_msgout r2)) as Eg by (rewrite X4; done).
    split_ands; try done.
    + by transitivity w1; [|transitivity w2].
    + rewrite X3. change (w_host w2) with (w_host w1). by rewrite Hl1, <- app_assoc.
    + by rewrite Eg.
Qed.

Definition ex_rx_env : rx_env :=
  Build_rx_env (Build_peer_env ex_hash None (inl (- 1))) None true ex_env 1 [].
Definition ex_grant : homa_grant_hdr :=
  Build_homa_grant_hdr (Build_homa_common_hdr 0 0 0 0 0 GRANT 0 0 0 0 0 4) 9 3 1.

Lemma grant_pkt_correct_witness :
  exists w' sent, homa_grant_pkt ex_rx_env ex_grant 21%positive ex_out_world = Ok (tt, w') /\
    host_xmit (w_host w') = map (fun x => (1%positive, x.1, x.2)) sent.
Proof.
  pose proof (grant_pkt_correct ex_rx_env [1; 2; 3; 4; 5] ex_grant 21%positive ex_out_world ex_out_rpc ex_sock ex_out_peer) as H.
  destruct H as (w' & rpc' & again & sent & H & _ & _ & _ & _ & Hl & Ha & _).
  - exact ex_env_ok.
  - constructor; vm_compute; try reflexivity. split; congruence.
  - destruct ex_out_ready as [_ H1 H2]. constructor; [vm_compute; split; congruence | exact H1 | exact H2].
  - intros q Hq. apply elem_of_nil in Hq. destruct Hq.
  - exact ex_out_ok.
  - vm_compute. congruence.
  - exists w', sent. split; [exact H |]. vm_compute in Ha. inversion Ha. subst again. exact Hl.
Defined.

(** ** Packets of unknown RPCs *)

(** No RPC of the socket belongs to a packet from [saddr] for RPC [id]. *)
Definition unknown_rpc (w : world) (sk : homa_sock) (id saddr : Z) : Prop :=
  forall q r, q ∈ sk_active_rpcs sk -> w_rpcs w !! q = Some r ->
    if homa_is_client id then rpc_id r <> id else ~ serves w id saddr r.

Lemma dispatch_find_unknown env hsk sk saddr id pkt w :
  rpcs_ok hsk sk w -> unknown_rpc w sk id saddr ->
  match pkt with PData _ => homa_is_client id = true | _ => True end ->
  dispatch_find env hsk saddr id pkt w = Ok (inr None, w).
Proof.
  intros Hok Hu Hd. unfold dispatch_find. destruct (homa_is_client id) eqn:Hc.
  - destruct (find_client_spec hsk sk w id Hok Hc) as (o & Hex & Ho). rewrite (bind_eq _ _ _ _ _ Hex).
    destruct o as [q|]; [|done]. destruct Ho as [Hq (r & Hr & E)]. specialize (Hu q r Hq Hr). by rewrite Hc in Hu.
  - destruct (find_server_spec hsk sk w saddr id Hok Hc) as (o & Hex & Ho).
    assert (o = None) as ->.
    { destruct o as [q|]; [|done]. destruct Ho as [Hq (r & Hr & E)]. specialize (Hu q r Hq Hr). by rewrite Hc in Hu. }
    destruct pkt; try done; by rewrite (bind_eq _ _ _ _ _ Hex).
Qed.

(** The batch of one packet when the packet's RPC is unknown. *)
Lemma dispatch_unknown junk core env skb hsk sk w w' :
  dispatch_sock skb w = Ok (Some hsk, w) -> rpcs_ok hsk sk w ->
  let id := homa_local_id (sender_id (packet_common (rx_pkt skb))) in
  unknown_rpc w sk id (skb_canonical_ipv6_saddr skb) ->
  match rx_pkt skb with PData _ => homa_is_client id = true | _ => True end ->
  (if without_rpc (rx_pkt skb) then dispatch_pkt env hsk skb None true else ret None) w = Ok (None, w') ->
  w_socks w' = w_socks w -> w_homa w' = w_homa w -> sk_dead_skbs sk < 2 * h_dead_buffs_limit (w_homa w) ->
  homa_dispatch_pkts junk core env skb [] w = Ok (tt, w').
Proof.
  intros Hsock Hok id Hu Hd Hp Hs Hh Hdead. unfold homa_dispatch_pkts. rewrite (bind_eq _ _ _ _ _ Hsock). fold id.
  cbn [dispatch_loop]. cbv zeta.
  assert (dispatch_loop hsk (skb_canonical_ipv6_saddr skb) id [(env, skb)] None [] w = Ok ((None, []), w')) as Hl.
  { cbn [dispatch_loop]. rewrite (bind_eq (ret None) _ _ _ _ eq_refl).
    rewrite (bind_eq _ _ _ _ _ (dispatch_find_unknown env hsk sk _ id _ w Hok Hu Hd)).
    destruct (without_rpc (rx_pkt skb)); cbn [negb]; cbv iota.
    - rewrite bool_decide_true by done. by rewrite (bind_eq _ _ _ _ _ Hp).
    - injection Hp as <-. done. }
  cbn [dispatch_loop] in Hl. rewrite (bind_eq _ _ _ _ _ Hl). cbv beta iota.
  rewrite (bind_eq (ret tt) _ _ _ _ eq_refl). cbn [reverse rev_append mapM_]. rewrite (bind_eq _ _ _ _ _ eq_refl).
  erewrite bind_eq by (apply get_sock_eq; rewrite Hs; apply Hok). step. rewrite Hh.
  destruct (Z.geb_spec (sk_dead_skbs sk) (2 * h_dead_buffs_limit (w_homa w))); [lia | done].
Qed.

(** A packet for an RPC that its socket does not know cannot disturb the
    receiver.  DATA of a response, GRANT, BUSY, UNKNOWN and FREEZE packets
    have no effect at all; a RESEND request changes no RPC and no socket and
    is answered with an UNKNOWN packet for the sender's RPC, with the ports
    exchanged, sent to the address it came from (unless no peer can be
    created). *)
Theorem stray_packet_correct junk core env skb hsk sk w :
  dispatch_sock skb w = Ok (Some hsk, w) -> rpcs_ok hsk sk w -> env_ok (re_peer env) w ->
  sk_dead_skbs sk < 2 * h_dead_buffs_limit (w_homa w) ->
  let saddr := skb_canonical_ipv6_saddr skb in
  let id := homa_local_id (sender_id (packet_common (rx_pkt skb))) in
  unknown_rpc w sk id saddr ->
  match rx_pkt skb with PData _ => homa_is_client id = true | _ => True end ->
  (without_rpc (rx_pkt skb) = false -> homa_dispatch_pkts junk core env skb [] w = Ok (tt, w)) /\
  (forall h, rx_pkt skb = PResend h -> exists w', homa_dispatch_pkts junk core env skb [] w = Ok (tt, w') /\
     w_rpcs w' = w_rpcs w /\ w_socks w' = w_socks w /\ w_homa w' = w_homa w /\ rpcs_ok hsk sk w' /\
     (w' = w \/ exists peer pe, w_peers w' !! peer = Some pe /\ peer_addr pe = saddr /\
        w_sent w' = w_sent w ++ [(peer, PUnknown (reply_hdr UNKNOWN (w_stack w) (r_common h)))])).
Proof.
  intros Hsock Hok Henv Hdead saddr id Hu Hd. split.
  - intros Hw. apply (dispatch_unknown junk core env skb hsk sk w w); try done. by rewrite Hw.
  - intros h Hh. destruct (peer_find_frame (re_peer env) saddr w Henv) as (r & pm & pt & Hex & Hpm & Hr). cbv zeta in *.
    assert (forall w', homa_xmit_unknown env saddr (r_common h) w = Ok (tt, w') -> w_socks w' = w_socks w ->
      w_homa w' = w_homa w -> homa_dispatch_pkts junk core env skb [] w = Ok (tt, w')) as Hrun.
    { intros w' Hx Hs Hm. apply (dispatch_unknown junk core env skb hsk sk w w'); try done. rewrite Hh. cbn [without_rpc].
      unfold dispatch_pkt. rewrite Hh. fold saddr. by rewrite (bind_eq _ _ _ _ _ Hx). }
    unfold homa_xmit_unknown in Hrun. rewrite (bind_eq _ _ _ _ _ Hex) in Hrun. destruct r as [e | peer].
    + exists w. split; [apply Hrun; try done; by rewrite Hr | split_ands; try done; by left].
    + eexists. split; [apply Hrun; reflexivity |]. simpl. split_ands; try done.
      * eapply rpcs_ok_frame; [exact Hok | apply Hok | | intros q Hq; simpl; by rewrite Hpm]. intros q x Hq. by exists x.
      * right. destruct Hr as (pe & ? & ?). exists peer, pe. done.
Qed.

Definition ex_stray : rx_skb :=
  Build_rx_skb true 101 (PResend (Build_homa_resend_hdr (Build_homa_common_hdr 700 99 0 0 0 RESEND 0 0 0 0 0 40) 0 0 0)) [].

Lemma stray_packet_correct_witness :
  exists w', homa_dispatch_pkts 0 1 ex_rx_env ex_stray [] ex_rpcs = Ok (tt, w') /\ w_rpcs w' = w_rpcs ex_rpcs /\
    rpcs_ok 1%positive ex_rpc_sock w'.
Proof.
  destruct (stray_packet_correct 0 1 ex_rx_env ex_stray 1%positive ex_rpc_sock ex_rpcs) as [_ H].
  - vm_compute. reflexivity.
  - exact ex_rpcs_ok.
  - exact ex_env_ok_rpcs.
  - vm_compute. reflexivity.
  - intros q r Hq. simpl in Hq. rewrite !elem_of_cons, elem_of_nil in Hq.
    destruct Hq as [-> | [-> | [-> | []]]]; intros [= <-] [E _]; vm_compute in E; discriminate E.
  - exact I.
  - destruct (H _ eq_refl) as (w' & H1 & H2 & _ & _ & H3 & _). exists w'. split; [exact H1 | split; [exact H2 | exact H3]].
Defined.

(** ** DATA packets *)

(** The RPC at [p] is queued for the application or a thread has it. *)
Definition offered (p : ptr) (w : world) : Prop :=
  exists r sk, w_rpcs w !! p = Some r /\ w_socks w !! rpc_hsk r = Some sk /\
    flag_set RPC_HANDING_OFF r || is_ready p sk = true.

Lemma handed_off_offered p rpc sk w w' :
  w_rpcs w !! p = Some rpc -> w_socks w !! rpc_hsk rpc = Some sk -> handed_off p rpc sk w w' -> offered p w'.
Proof.
  intros Hp Hs Hh. unfold handed_off in Hh. destruct (_ || _) eqn:E; [subst w'; by exists rpc, sk |].
  destruct Hh as [(i & x & w1 & Hw1 & _ & _ & Hg & _) | (_ & _ & ->)].
  - assert (w_rpcs w1 = w_rpcs w) as E1 by (by destruct Hw1 as [-> | ->]).
    pose proof (given_lookup p rpc (int_reg_rpc x) (w_rpcs w1) p ltac:(by rewrite E1)) as Hl.
    rewrite <- (gv_rpcs _ _ _ _ _ _ _ _ Hg), E1, Hp in Hl. simpl in Hl. rewrite (bool_decide_true (p = p)) in Hl by done.
    eexists _, _. split; [exact Hl |].
    assert (flag_set RPC_HANDING_OFF (flags_or RPC_HANDING_OFF rpc) = true) as Hf.
    { unfold flag_set, flags_or. simpl. rewrite Z.land_comm, Z.land_lor_distr_r, Z.land_diag.
      apply negb_true_iff, Z.eqb_neq. intros E0. apply Z.lor_eq_0_iff in E0 as [_ E0]. discriminate E0. }
    case_bool_decide; (split; [rewrite (gv_socks _ _ _ _ _ _ _ _ Hg); apply lookup_insert_eq | apply orb_true_iff; left; exact Hf]).
  - exists rpc, (if homa_is_client (rpc_id rpc) then sk <| sk_ready_responses ::= fun l => l ++ [p] |>
      else sk <| sk_ready_requests ::= fun l => l ++ [p] |>).
    split; [done |]. split; [apply lookup_insert_eq |]. apply orb_true_iff. right. unfold is_ready.
    destruct (homa_is_client (rpc_id rpc)); simpl; apply orb_true_iff; rewrite !bool_decide_eq_true; [right | left]; set_solver.
Qed.

(** A change of the message and the flags of one RPC keeps the tables and the
    interests. *)
Lemma incoming_step_ok hsk sk w p rpc rpc' :
  rpcs_ok hsk sk w -> interests_ok hsk w -> w_rpcs w !! p = Some rpc ->
  rpc_core rpc' = rpc_core rpc -> rpc_interest rpc' = rpc_interest rpc ->
  rpcs_ok hsk sk (w <| w_rpcs ::= insert p rpc' |>) /\ interests_ok hsk (w <| w_rpcs ::= insert p rpc' |>).
Proof.
  intros Hok [Hs Hreg Hrpc] Hp Hc Hi. split.
  - eapply rpcs_ok_frame; [exact Hok | apply Hok | | done]. intros q r Hq. simpl. destruct (decide (q = p)) as [-> | Hne].
    + rewrite lookup_insert_eq. exists rpc'. split; [done |]. congruence.
    + rewrite lookup_insert_ne by done. by exists r.
  - constructor; simpl; [done | |].
    + intros i x q Hx Hq. destruct (Hreg i x q Hx Hq) as [? (r & Hr & Hri)]. split; [done |].
      destruct (decide (q = p)) as [-> | Hne]; [rewrite lookup_insert_eq | rewrite lookup_insert_ne by done; by exists r].
      exists rpc'. split; [done |]. congruence.
    + intros q r i. destruct (decide (q = p)) as [-> | Hne]; [rewrite lookup_insert_eq | rewrite lookup_insert_ne by done; by eauto].
      intros [= <-] Hri. rewrite Hi in Hri. eauto.
Qed.

(** The CUTOFFS packet that answers a DATA packet with header [h]. *)
Definition cutoffs_reply (h : homa_data_hdr) (w : world) (sk : homa_sock) (rpc : homa_rpc) (peer : homa_peer)
    : list (ptr * homa_packet) :=
  if (cutoff_version h =? h_cutoff_version (w_homa w)) || (host_jiffies (w_host w) =? peer_last_update_jiffies peer)
  then [] else
  [(rpc_peer rpc, PCutoffs (Build_homa_cutoffs_hdr (control_hdr CUTOFFS (w_stack w) sk rpc)
     (map u32 (h_unsched_cutoffs (w_homa w))) (u16 (h_cutoff_version (w_homa w)))))].

Lemma send_cutoffs_exec p h w rpc sk peer :
  w_rpcs w !! p = Some rpc -> w_socks w !! rpc_hsk rpc = Some sk -> w_peers w !! rpc_peer rpc = Some peer ->
  exists pm, send_cutoffs p h w =
    Ok (tt, w <| w_sent ::= fun l => l ++ cutoffs_reply h w sk rpc peer |> <| w_peers := pm |>) /\
    forall q, is_Some (w_peers w !! q) -> is_Some (pm !! q).
Proof.
  intros Hr Hs Hp. unfold send_cutoffs, cutoffs_reply. step. destruct (cutoff_version h =? _); simpl.
  { exists (w_peers w). split; [|done]. destruct w; unfold upd; simpl. by rewrite app_nil_r. }
  step. step. rewrite (bind_eq _ _ _ _ _ eq_refl). destruct (host_jiffies (w_host w) =? _).
  { exists (w_peers w). split; [|done]. destruct w; unfold upd; simpl. by rewrite app_nil_r. }
  rewrite (bind_eq _ _ _ _ _ (xmit_control_exec _ _ _ _ _ _ Hr Hs)). rewrite (upd_peer_eq _ _ _ peer) by done.
  eexists. split; [reflexivity |]. intros q Hq. by apply lookup_insert_is_Some'; right.
Qed.

Lemma lor_flag f b : b <> 0 -> negb (Z.land (Z.lor f b) b =? 0) = true.
Proof.
  intros Hb. apply negb_true_iff, Z.eqb_neq. rewrite Z.land_comm, Z.land_lor_distr_r, Z.land_diag.
  intros E. by apply Z.lor_eq_0_iff in E as [_ E].
Qed.

(** Handing off clears no flag. *)
Lemma handed_off_flags p rpc sk w w' :
  w_rpcs w !! p = Some rpc -> handed_off p rpc sk w w' ->
  exists rpc', w_rpcs w' !! p = Some rpc' /\ forall b, flag_set b rpc = true -> flag_set b rpc' = true.
Proof.
  intros Hp Hh. unfold handed_off in Hh. destruct (_ || _); [subst w'; by exists rpc |].
  destruct Hh as [(i & x & w1 & Hw1 & _ & _ & Hg & _) | (_ & _ & ->)]; [|by exists rpc].
  assert (w_rpcs w1 = w_rpcs w) as E1 by (by destruct Hw1 as [-> | ->]).
  pose proof (given_lookup p rpc (int_reg_rpc x) (w_rpcs w1) p ltac:(by rewrite E1)) as Hl.
  rewrite <- (gv_rpcs _ _ _ _ _ _ _ _ Hg), E1, Hp in Hl. simpl in Hl. rewrite (bool_decide_true (p = p)) in Hl by done.
  eexists. split; [exact Hl |]. intros b Hb.
  assert (flag_set b (flags_or RPC_HANDING_OFF rpc) = true) as Hf.
  { unfold flag_set, flags_or in *. simpl. apply negb_true_iff, Z.eqb_neq. apply negb_true_iff, Z.eqb_neq in Hb.
    rewrite Z.land_comm, Z.land_lor_distr_r. intros E. apply Z.lor_eq_0_iff in E as [E _]. by rewrite Z.land_comm in E. }
  by case_bool_decide.
Qed.

(** The RPC is marked and handed off once it has packets. *)
Lemma mark_ready_spec p w rpc sk :
  rpcs_ok (rpc_hsk rpc) sk w -> interests_ok (rpc_hsk rpc) w -> w_rpcs w !! p = Some rpc -> p ∈ sk_active_rpcs sk ->
  exists w' sk' rpc', (if negb (bool_decide (mi_packets (rpc_msgin rpc) = [])) && (Z.land (rpc_flags rpc) RPC_PKTS_READY =? 0)
     then upd_rpc p (flags_or RPC_PKTS_READY) ;;; homa_rpc_handoff p else ret tt) w = Ok (tt, w') /\
    rpcs_ok (rpc_hsk rpc) sk' w' /\ interests_ok (rpc_hsk rpc) w' /\ same_identity w w' /\ handoff_frame w w' /\
    sk_port sk' = sk_port sk /\ w_rpcs w' !! p = Some rpc' /\
    (mi_packets (rpc_msgin rpc) <> [] -> flag_set RPC_PKTS_READY rpc' = true /\
       (flag_set RPC_PKTS_READY rpc = false -> offered p w')).
Proof.
  intros Hok Hio Hp Ha. assert (same_identity w w) as Hid by (intros q r Hq; by exists r).
  assert (handoff_frame w w) as Hfr0 by (by repeat split). destruct (decide (mi_packets (rpc_msgin rpc) = [])) as [E | E].
  { rewrite bool_decide_true by done. exists w, sk, rpc. by split_ands. }
  rewrite bool_decide_false by done. cbn [negb andb]. destruct (Z.eqb_spec (Z.land (rpc_flags rpc) RPC_PKTS_READY) 0) as [Hf | Hf].
  2:{ exists w, sk, rpc. split_ands; try done. intros _. unfold flag_set. apply Z.eqb_neq in Hf. by rewrite Hf. }
  erewrite bind_eq by (by apply upd_rpc_eq). set (r1 := flags_or RPC_PKTS_READY rpc).
  match goal with |- context [homa_rpc_handoff p ?W] => set (w1 := W) end.
  destruct (incoming_step_ok _ sk w p rpc r1 Hok Hio Hp eq_refl eq_refl) as [Hok1 Hio1]. fold w1 in Hok1, Hio1.
  assert (w_rpcs w1 !! p = Some r1) as Hp1 by (unfold w1; simpl; apply lookup_insert_eq).
  destruct (handoff_spec p w1 r1 sk Hp1 (ro_sock _ _ _ Hok1) Hio1) as (w2 & Hex & Hio2 & Hho).
  destruct (handed_off_ok p r1 sk w1 w2 Hok1 Hp1 Ha Hho) as (sk2 & Hok2 & Hi2 & Hfr & _ & Hport & _).
  destruct (handed_off_flags p r1 sk w1 w2 Hp1 Hho) as (r2 & Hr2 & Hfl).
  exists w2, sk2, r2. split_ands; try done.
  - eapply same_identity_trans; [|exact Hi2]. by apply (same_identity_flags w p rpc).
  - intros _. split; [|intros _; exact (handed_off_offered p r1 sk w1 w2 Hp1 (ro_sock _ _ _ Hok1) Hho)].
    apply Hfl. unfold flag_set, r1, flags_or. simpl. by apply lor_flag.
Qed.


(** The first packet of RPC 13. *)
Definition ex_data : homa_data_hdr :=
  Build_homa_data_hdr (Build_homa_common_hdr 700 99 0 0 0 DATA 0 0 0 0 0 6) 900300 10000 (Build_homa_ack 0 0) 5 0 0 0.
Definition ex_receiving : world :=
  ex_rpcs <| w_rpcs ::= insert 13%positive (ex_rpc 2%positive 7 ((example_mi 900300) <| mi_num_bpages := 14 |>)) |>.

