(* ===== verification/Utils.v ===== *)
(** * Initialisation and priorities (homa_utils.c)

    [homa_init] establishes the invariants that the other files preserve;
    [homa_prios_changed] keeps the priority levels consistent. *)
From S2P Require Import Prelude Lists Wire Types Example Control Peer Pool Grant GrantLists GrantRecalc GrantCheck PoolWait Outgoing OutXmit Sock Handoff Rpc RpcInv Incoming.

(** ** The code *)

(** What the host provides: memory for the two tables and the buckets, the
    result of [homa_skb_init], and that of [kthread_run]. *)
Record init_env := {
  ie_port_map : bool; ie_peers : bool; ie_buckets : bool; ie_skb : Z; ie_pacer : Z
}.

(** The assignments before the first allocation. *)
Definition init_state (idle change : Z) (h : homa) : homa :=
  h <| h_next_outgoing_id := 2 |> <| h_link_idle_time := idle |>
    <| h_grant_recalc_count := 0 |> <| h_grantable_peers := [] |>
    <| h_num_grantable_rpcs := 0 |> <| h_last_grantable_change := change |>
    <| h_max_grantable_rpcs := 0 |> <| h_oldest_rpc := None |> <| h_num_active_rpcs := 0 |>
    <| h_active_rpcs := replicate (Z.to_nat HOMA_MAX_GRANTS) None |>
    <| h_active_remaining := replicate (Z.to_nat HOMA_MAX_GRANTS) 0 |>
    <| h_grant_nonfifo := 0 |> <| h_pacer_fifo_fraction := 50 |> <| h_pacer_fifo_count := 1 |>
    <| h_pacer_wake_time := 0 |>
    <| h_throttled_rpcs := [] |> <| h_throttle_add := 0 |> <| h_throttle_min_bytes := 200 |>
    <| h_total_incoming := 0 |> <| h_next_client_port := HOMA_MIN_DEFAULT_PORT |>.

(** "Wild guesses to initialize configuration values", up to the creation of
    the pacer thread. *)
Definition init_config (h : homa) : homa :=
  h <| h_unsched_bytes := 40000 |> <| h_window_param := 100000 |> <| h_link_mbps := 25000 |>
    <| h_poll_usecs := 50 |> <| h_num_priorities := HOMA_MAX_PRIORITIES |>
    <| h_priority_map := seqZ 0 HOMA_MAX_PRIORITIES |> <| h_max_sched_prio := HOMA_MAX_PRIORITIES - 5 |>
    <| h_unsched_cutoffs ::= fun l => <[4%nat := HOMA_MAX_MESSAGE_LENGTH]> (<[5%nat := 15000]>
         (<[6%nat := 2800]> (<[7%nat := 200]> l))) |>
    <| h_cutoff_version := 1 |> <| h_fifo_grant_increment := 10000 |> <| h_grant_fifo_fraction := 50 |>
    <| h_max_overcommit := 8 |> <| h_max_incoming := 400000 |> <| h_max_rpcs_per_peer := 1 |>
    <| h_resend_ticks := 5 |> <| h_resend_interval := 5 |> <| h_timeout_ticks := 100 |>
    <| h_request_ack_ticks := 2 |> <| h_reap_limit := 10 |> <| h_dead_buffs_limit := 5000 |>
    <| h_max_dead_buffs := 0 |>.

(** The bits of [gro_policy]. *)
Definition HOMA_GRO_SAME_CORE : Z := 2.
Definition HOMA_GRO_IDLE : Z := 4.
Definition HOMA_GRO_NEXT : Z := 8.
Definition HOMA_GRO_GEN2 : Z := 16.
Definition HOMA_GRO_FAST_GRANTS : Z := 32.
Definition HOMA_GRO_SHORT_BYPASS : Z := 64.
Definition HOMA_GRO_GEN3 : Z := 128.
Definition HOMA_GRO_NORMAL : Z :=
  Z.lor (Z.lor HOMA_GRO_SAME_CORE HOMA_GRO_GEN2) (Z.lor HOMA_GRO_SHORT_BYPASS HOMA_GRO_FAST_GRANTS).

(** The values assigned after the pacer thread was started. *)
Definition init_late (h : homa) : homa :=
  h <| h_pacer_exit := false |> <| h_max_nic_queue_ns := 5000 |> <| h_ns_per_mbyte := 0 |> <| h_max_gso_size := 10000 |>
    <| h_hijack_tcp := 0 |> <| h_max_gro_skbs := 20 |> <| h_gro_policy := HOMA_GRO_NORMAL |> <| h_busy_usecs := 100 |> <| h_gro_busy_usecs := 5 |>
    <| h_timer_ticks := 0 |> <| h_flags := 0 |> <| h_bpage_lease_usecs := 10000 |> <| h_next_id := 0 |>.

Definition homa_init (env : init_env) : M Z :=
  let* idle := sched_clock in
  let* change := sched_clock in
  upd_homa (init_state idle change) ;;;
  if negb (ie_port_map env) then ret (- ENOMEM) else
  homa_socktab_init ;;;
  if negb (ie_peers env) then ret (- ENOMEM) else
  let* err := homa_peertab_init (ie_buckets env) in
  if negb (err =? 0) then ret err else
  if negb (ie_skb env =? 0) then ret (ie_skb env) else
  upd_homa init_config ;;;
  if negb (ie_pacer env =? 0) then ret (ie_pacer env) else
  upd_homa init_late ;;;
  homa_outgoing_sysctl_changed ;;;
  homa_incoming_sysctl_changed ;;;
  ret 0.

(** The loop of [homa_prios_changed] from level [i] down; below level 0 it
    accesses the array out of bounds. *)
Fixpoint prios_loop (i : nat) : M unit :=
  let* h := get_homa in
  if Z.of_nat i >=? h_num_priorities h then
    let* l := lift (arr_set (h_unsched_cutoffs h) (Z.of_nat i) 0) in
    upd_homa (fun h => h <| h_unsched_cutoffs := l |>) ;;;
    match i with O => raise ArrayBounds | S i => prios_loop i end
  else match i with
  | O =>
      let* l := lift (arr_set (h_unsched_cutoffs h) 0 INT_MAX) in
      upd_homa (fun h => h <| h_unsched_cutoffs := l |> <| h_max_sched_prio := 0 |>)
  | S i' =>
      let* c := lift (arr (h_unsched_cutoffs h) (Z.of_nat i)) in
      if c >=? HOMA_MAX_MESSAGE_LENGTH
      then upd_homa (fun h => h <| h_max_sched_prio := Z.of_nat i - 1 |>)
      else prios_loop i'
  end.

Definition homa_prios_changed : M unit :=
  let* h := get_homa in
  (if h_num_priorities h >? HOMA_MAX_PRIORITIES
   then upd_homa (fun h => h <| h_num_priorities := HOMA_MAX_PRIORITIES |>) else ret tt) ;;;
  let* h := get_homa in
  let* l := lift (arr_set (h_unsched_cutoffs h) 0 INT_MAX) in
  upd_homa (fun h => h <| h_unsched_cutoffs := l |>) ;;;
  prios_loop (Z.to_nat (HOMA_MAX_PRIORITIES - 1)) ;;;
  upd_homa (fun h => h <| h_cutoff_version ::= fun v => s32 (v + 1) |>).

(** [homa_destroy], without the pacer thread: [port_map] and [peers] are
    whether [homa_init] allocated them; [s] is the scan of the socket table. *)
Definition homa_destroy (port_map peers : bool) (s : ptr) (fuel : nat) (junk core : Z) : M unit :=
  (if port_map then homa_socktab_destroy s fuel junk core else ret tt) ;;;
  (if peers then homa_peertab_destroy else ret tt).

(** ** Initialisation *)

(** The state in which the module is loaded. *)
Record unloaded (w : world) : Prop := {
  un_rpcs : w_rpcs w = ∅; un_peers : w_peers w = ∅; un_socks : w_socks w = ∅;
  un_cutoffs : length (h_unsched_cutoffs (w_homa w)) = Z.to_nat HOMA_MAX_PRIORITIES
}.

(** The host provided everything. *)
Definition init_ok (env : init_env) : Prop :=
  ie_port_map env = true /\ ie_peers env = true /\ ie_buckets env = true /\ ie_skb env = 0 /\ ie_pacer env = 0.

(** The levels of scheduled packets are below those of unscheduled ones, and
    some level admits messages of every length. *)
Record prios_ok (h : homa) : Prop := {
  pk_num : 1 <= h_num_priorities h <= HOMA_MAX_PRIORITIES;
  pk_cutoffs : length (h_unsched_cutoffs h) = Z.to_nat HOMA_MAX_PRIORITIES;
  pk_sched : 0 <= h_max_sched_prio h < h_num_priorities h;
  pk_admits : exists i c, (i = 0 /\ h_max_sched_prio h = 0 \/ h_max_sched_prio h < i) /\ i < h_num_priorities h /\
    h_unsched_cutoffs h !! Z.to_nat i = Some c /\ HOMA_MAX_MESSAGE_LENGTH <= c
}.

(** An empty world with initialised tables satisfies all invariants. *)
Lemma empty_ok hash w :
  w_rpcs w = ∅ -> w_peers w = ∅ -> w_socks w = ∅ ->
  w_socktab w = Build_homa_socktab ∅ ∅ -> w_peertab w = Build_homa_peertab true ∅ [] ->
  h_grantable_peers (w_homa w) = [] -> h_num_grantable_rpcs (w_homa w) = 0 -> h_throttled_rpcs (w_homa w) = [] ->
  h_active_rpcs (w_homa w) = replicate (Z.to_nat HOMA_MAX_GRANTS) None ->
  h_active_remaining (w_homa w) = replicate (Z.to_nat HOMA_MAX_GRANTS) 0 ->
  h_num_active_rpcs (w_homa w) = 0 -> h_total_incoming (w_homa w) = 0 ->
  1 <= h_max_overcommit (w_homa w) <= HOMA_MAX_GRANTS ->
  grant_state w /\ socktab_ok w /\ peertab_ok hash w /\ throttled_live w.
Proof.
  intros Er Ep Es Et Eb Eg Egn Eth Ea Em En Ei Ho. split_ands.
  - apply idle_inv.
    + unfold world_lists_ok. rewrite Er, Ep, Eg. split; [|done]. apply Build_lists_ok; [apply NoDup_nil_2 | | done].
      intros pe. split; [intros H; by apply elem_of_nil in H | intros (x & Hx & _); done].
    + unfold idle_check. rewrite Er, Ea, Em, En, Ei. split_ands; try done; try lia; by rewrite length_replicate.
  - constructor; unfold chain; rewrite ?Et; simpl.
    + intros b p H. by apply elem_of_nil in H.
    + intros b. apply NoDup_nil_2.
    + intros s sc H. done.
  - constructor; rewrite ?Eb, ?Ep; simpl; done.
  - intros q. rewrite Eth. intros H. by apply elem_of_nil in H.
Qed.

Lemma outgoing_sysctl_exec w :
  h_link_mbps (w_homa w) = 25000 ->
  homa_outgoing_sysctl_changed w = Ok (tt, w <| w_homa ::= fun h => h <| h_ns_per_mbyte := 323200 |> |>).
Proof. intros E. unfold homa_outgoing_sysctl_changed. step. rewrite E. reflexivity. Qed.

Definition incoming_params (nonfifo : Z) (h : homa) : homa :=
  h <| h_grant_fifo_fraction := 50 |> <| h_grant_nonfifo := nonfifo |>
    <| h_max_overcommit := if h_max_overcommit h >? HOMA_MAX_GRANTS then HOMA_MAX_GRANTS else h_max_overcommit h |>
    <| h_busy_ns := s32 (h_busy_usecs h * 1000) |> <| h_gro_busy_ns := s32 (h_gro_busy_usecs h * 1000) |>.

Lemma incoming_sysctl_exec w :
  h_grant_fifo_fraction (w_homa w) = 50 -> h_fifo_grant_increment (w_homa w) = 10000 ->
  homa_incoming_sysctl_changed w = Ok (tt, w <| w_homa ::= incoming_params 190000 |>).
Proof.
  intros E1 E2. unfold homa_incoming_sysctl_changed. step. rewrite E1, E2. change (50 >? 500) with false. cbv zeta iota.
  match goal with |- context [s32 (if u64 50 =? 0 then 0 else ?x)] =>
    replace (s32 (if u64 50 =? 0 then 0 else x)) with 190000 by (vm_compute; reflexivity) end.
  reflexivity.
Qed.

(** The case of an error. *)
Ltac init_fails :=
  eexists _, _; split; [reflexivity |]; split_ands; try done; split; [done | intuition congruence].

Lemma homa_init_spec env hash w :
  unloaded w -> exists r w', homa_init env w = Ok (r, w') /\
    w_rpcs w' = ∅ /\ w_peers w' = ∅ /\ w_socks w' = ∅ /\ (r = 0 <-> init_ok env) /\
    (r = 0 -> grant_state w' /\ socktab_ok w' /\ peertab_ok hash w' /\ throttled_live w' /\ prios_ok (w_homa w') /\
       homa_is_client (h_next_outgoing_id (w_homa w')) = true /\
       0 < h_link_mbps (w_homa w') /\ 0 < h_resend_interval (w_homa w') /\
       h_ns_per_mbyte (w_homa w') = 323200 /\ h_grant_nonfifo (w_homa w') = 190000 /\
       w_socktab w' = Build_homa_socktab ∅ ∅ /\ w_peertab w' = Build_homa_peertab true ∅ []).
Proof.
  intros [Ur Up Us Uc]. unfold homa_init, init_ok. step. step. rewrite (bind_eq _ _ _ _ _ eq_refl).
  destruct (ie_port_map env); cbn [negb]; cbv iota; [|init_fails].
  rewrite (bind_eq _ _ _ _ _ eq_refl). destruct (ie_peers env); cbn [negb]; cbv iota; [|init_fails].
  destruct (ie_buckets env); [|rewrite (bind_eq _ _ _ _ _ eq_refl); init_fails].
  rewrite (bind_eq _ _ _ _ _ eq_refl). change (negb (0 =? 0)) with false. cbv iota.
  destruct (Z.eqb_spec (ie_skb env) 0) as [Es | Es]; cbn [negb]; cbv iota; [|init_fails].
  rewrite (bind_eq _ _ _ _ _ eq_refl).
  destruct (Z.eqb_spec (ie_pacer env) 0) as [Ep | Ep]; cbn [negb]; cbv iota; [|init_fails].
  rewrite (bind_eq _ _ _ _ _ eq_refl).
  match goal with |- context [bind homa_outgoing_sysctl_changed _ ?W] => set (w1 := W) end.
  rewrite (bind_eq _ _ _ _ _ (outgoing_sysctl_exec w1 eq_refl)). set (w2 := w1 <| w_homa ::= _ |>).
  rewrite (bind_eq _ _ _ _ _ (incoming_sysctl_exec w2 eq_refl eq_refl)). set (w3 := w2 <| w_homa ::= _ |>).
  exists 0, w3. split; [reflexivity |]. split_ands; try done. intros _.
  destruct (empty_ok hash w3) as (G1 & G2 & G3 & G4); try done.
  split_ands; try done. constructor; try done.
  - change (h_unsched_cutoffs (w_homa w3)) with (<[4%nat := HOMA_MAX_MESSAGE_LENGTH]> (<[5%nat := 15000]>
      (<[6%nat := 2800]> (<[7%nat := 200]> (h_unsched_cutoffs (w_homa w)))))). by rewrite !length_insert.
  - exists 4, HOMA_MAX_MESSAGE_LENGTH. split_ands; try done; [by right |].
    change (h_unsched_cutoffs (w_homa w3)) with (<[4%nat := HOMA_MAX_MESSAGE_LENGTH]> (<[5%nat := 15000]>
      (<[6%nat := 2800]> (<[7%nat := 200]> (h_unsched_cutoffs (w_homa w)))))).
    apply list_lookup_insert_eq. rewrite !length_insert, Uc. change (Z.to_nat HOMA_MAX_PRIORITIES) with 8%nat. lia.
Qed.

(** C17: [homa_init] either reports an error, and then leaves no socket, peer
    or RPC behind, or it succeeds and all the invariants of the other
    components hold: the grant state, the tables of sockets and peers, the
    throttled list, and the priority levels; ids of outgoing RPCs start with
    an id of a client, and no parameter that is used as a divisor is 0. *)
Theorem homa_init_correct env hash w :
  unloaded w -> exists r w', homa_init env w = Ok (r, w') /\
    w_rpcs w' = ∅ /\ w_peers w' = ∅ /\ w_socks w' = ∅ /\ (r = 0 <-> init_ok env) /\
    (r = 0 -> grant_state w' /\ socktab_ok w' /\ peertab_ok hash w' /\ throttled_live w' /\ prios_ok (w_homa w') /\
       homa_is_client (h_next_outgoing_id (w_homa w')) = true /\
       0 < h_link_mbps (w_homa w') /\ 0 < h_resend_interval (w_homa w') /\
       h_ns_per_mbyte (w_homa w') = 323200 /\ h_grant_nonfifo (w_homa w') = 190000).
Proof.
  intros Hu. destruct (homa_init_spec env hash w Hu) as (r & w' & Hex & H1 & H2 & H3 & H4 & H5).
  exists r, w'. split_ands; try done. intros Hr. destruct (H5 Hr) as (G1 & G2 & G3 & G4 & G5 & G6 & G7 & G8 & G9 & G10 & _).
  done.
Qed.

Definition ex_unloaded : world := ex <| w_rpcs := ∅ |> <| w_peers := ∅ |> <| w_socks := ∅ |>.

Lemma homa_init_correct_witness :
  exists w', homa_init (Build_init_env true true true 0 0) ex_unloaded = Ok (0, w') /\
    grant_state w' /\ prios_ok (w_homa w').
Proof.
  destruct (homa_init_correct (Build_init_env true true true 0 0) ex_hash ex_unloaded) as (r & w' & H & _ & _ & _ & Hr & Hok).
  - constructor; reflexivity.
  - assert (r = 0) as E by (apply Hr; repeat split; reflexivity). exists w'. split; [rewrite <- E at 3; exact H |].
    destruct (Hok E) as (H1 & _ & _ & _ & H2 & _). split; [exact H1 | exact H2].
Defined.

(** ** Priorities *)

(** All parameters but those of the priority levels. *)
Definition prio_rest (h : homa) : homa :=
  h <| h_unsched_cutoffs := [] |> <| h_max_sched_prio := 0 |> <| h_num_priorities := 0 |> <| h_cutoff_version := 0 |>.

(** The cutoffs after the loop started at level [n]. *)
Definition cleared (num : Z) (n : nat) (l l' : list Z) : Prop :=
  length l' = length l /\
  forall j c, l !! j = Some c -> l' !! j = Some (if decide (num <= Z.of_nat j /\ (j <= n)%nat) then 0 else c).

Lemma prios_loop_spec n : forall w l,
  1 <= h_num_priorities (w_homa w) -> h_unsched_cutoffs (w_homa w) = l -> (n < length l)%nat ->
  l !! 0%nat = Some INT_MAX ->
  exists h' m, prios_loop n w = Ok (tt, w <| w_homa := h' |>) /\
    prio_rest h' = prio_rest (w_homa w) /\ h_num_priorities h' = h_num_priorities (w_homa w) /\
    h_cutoff_version h' = h_cutoff_version (w_homa w) /\
    cleared (h_num_priorities (w_homa w)) n l (h_unsched_cutoffs h') /\
    h_max_sched_prio h' = m /\ 0 <= m < h_num_priorities (w_homa w) /\
    exists i c, (i = 0 /\ m = 0 \/ i = m + 1) /\ i < h_num_priorities (w_homa w) /\
      l !! Z.to_nat i = Some c /\ HOMA_MAX_MESSAGE_LENGTH <= c.
Proof.
  induction n as [|n IH]; intros w l Hnum Hl Hn H0; cbn [prios_loop]; step.
  - destruct (Z.geb_spec (Z.of_nat 0) (h_num_priorities (w_homa w))); [lia |]. unfold lift. rewrite Hl.
    assert (arr_set l 0 INT_MAX = Ok l) as Ha.
    { apply arr_set_Ok. split; [lia |]. symmetry. by apply list_insert_id. }
    rewrite Ha. eexists _, 0. split; [reflexivity |]. split_ands; try done; try lia.
    + split; [done |]. intros j c Hj. simpl. rewrite decide_False by lia. done.
    + exists 0, INT_MAX. split_ands; try done; lia.
  - destruct (Z.geb_spec (Z.of_nat (S n)) (h_num_priorities (w_homa w))).
    + assert (arr_set l (Z.of_nat (S n)) 0 = Ok (<[S n := 0]> l)) as Ha.
      { apply arr_set_Ok. split; [lia |]. by rewrite Nat2Z.id. }
      erewrite bind_eq by (unfold lift; rewrite Hl, Ha; reflexivity). rewrite (bind_eq _ _ _ _ _ eq_refl).
      match goal with |- context [prios_loop n ?W] => set (w1 := W) end.
      destruct (IH w1 (<[S n := 0]> l)) as (h' & m & Hex & H1 & H2 & H3 & [H4 H4'] & H5 & H6 & i & c & H7 & H8 & H9 & H10);
        [done | done | rewrite length_insert; lia | by rewrite list_lookup_insert_ne |].
      exists h', m. rewrite Hex. split; [done |]. split_ands; try done; try apply H6.
      * split; [by rewrite H4, length_insert |]. intros j x Hj. destruct (decide (j = S n)) as [-> | Hne].
        -- rewrite decide_True by lia. rewrite (H4' (S n) 0) by (apply list_lookup_insert_eq; lia).
           by destruct (decide _).
        -- rewrite (H4' j x) by (by rewrite list_lookup_insert_ne).
           change (h_num_priorities (w_homa w1)) with (h_num_priorities (w_homa w)). repeat destruct (decide _); done || lia.
      * exists i, c. split_ands; try done. rewrite list_lookup_insert_ne in H9; [done |].
        change (h_num_priorities (w_homa w1)) with (h_num_priorities (w_homa w)) in *. lia.
    + destruct (lookup_lt_is_Some_2 l (S n) Hn) as [c Hc].
      assert (arr l (Z.of_nat (S n)) = Ok c) as Ha by (apply arr_Ok; split; [lia | by rewrite Nat2Z.id]).
      erewrite bind_eq by (unfold lift; rewrite Hl, Ha; reflexivity).
      destruct (Z.geb_spec c HOMA_MAX_MESSAGE_LENGTH) as [Hge | Hlt].
      * eexists _, (Z.of_nat (S n) - 1). split; [reflexivity |]. split_ands; try done; try lia.
        -- split; simpl; rewrite Hl; [done |]. intros j x Hj. rewrite decide_False by lia. done.
        -- exists (Z.of_nat (S n)), c. rewrite Nat2Z.id. split_ands; try done; lia.
      * destruct (IH w l) as (h' & m & Hex & H1 & H2 & H3 & [H4 H4'] & H5); [done | done | lia | done |].
        exists h', m. rewrite Hex. split_ands; try done; try apply H5. split; [done |]. intros j x Hj. rewrite (H4' j x Hj).
        repeat destruct (decide _); done || lia.
Qed.

(** The level of unscheduled packets when the peer knows the cutoffs. *)
Lemma unsched_above_sched h peer n :
  prios_ok h -> peer_unsched_cutoffs peer = h_unsched_cutoffs h -> n <= HOMA_MAX_MESSAGE_LENGTH ->
  exists j, homa_unsched_priority h peer n = Ok j /\ j < h_num_priorities h /\
    (h_max_sched_prio h < j \/ j = 0 /\ h_max_sched_prio h = 0).
Proof.
  intros [Hn Hl Hs (i & c & Hi & Hin & Hc & Hle)] Hp Hlen. unfold homa_unsched_priority. rewrite Hp.
  destruct (unsched_loop_spec (h_unsched_cutoffs h) n (Z.to_nat (h_num_priorities h)) (Z.to_nat i) c)
    as (j & cj & Hex & Hj & _); [unfold HOMA_MAX_PRIORITIES in *; lia | lia | done | lia |].
  exists (Z.of_nat j). split; [done |]. split; lia.
Qed.

Lemma limit_priorities w :
  exists h1, (if h_num_priorities (w_homa w) >? HOMA_MAX_PRIORITIES
      then upd_homa (fun h => h <| h_num_priorities := HOMA_MAX_PRIORITIES |>) else ret tt) w = Ok (tt, w <| w_homa := h1 |>) /\
    prio_rest h1 = prio_rest (w_homa w) /\
    h_num_priorities h1 = Z.min (h_num_priorities (w_homa w)) HOMA_MAX_PRIORITIES /\
    h_unsched_cutoffs h1 = h_unsched_cutoffs (w_homa w) /\ h_cutoff_version h1 = h_cutoff_version (w_homa w).
Proof.
  destruct (Z.gtb_spec (h_num_priorities (w_homa w)) HOMA_MAX_PRIORITIES).
  - eexists. split; [reflexivity |]. split_ands; try done. simpl. lia.
  - exists (w_homa w). split; [by destruct w |]. split_ands; try done. lia.
Qed.

(** [homa_prios_changed] leaves the priority levels consistent, whatever
    the new number of levels (if it is positive) and the new cutoffs: there
    are at most [HOMA_MAX_PRIORITIES] levels, cutoffs of levels that do not
    exist are 0 and the others unchanged; and unscheduled packets of every
    legal message use a level above those of scheduled packets, unless level
    0 is used for both. *)
Theorem prios_changed_correct w :
  1 <= h_num_priorities (w_homa w) ->
  length (h_unsched_cutoffs (w_homa w)) = Z.to_nat HOMA_MAX_PRIORITIES ->
  exists h', homa_prios_changed w = Ok (tt, w <| w_homa := h' |>) /\ prios_ok h' /\
    prio_rest h' = prio_rest (w_homa w) /\
    h_num_priorities h' = Z.min (h_num_priorities (w_homa w)) HOMA_MAX_PRIORITIES /\
    h_cutoff_version h' = s32 (h_cutoff_version (w_homa w) + 1) /\
    (forall j c, (0 < j)%nat -> h_unsched_cutoffs (w_homa w) !! j = Some c ->
       h_unsched_cutoffs h' !! j = Some (if decide (h_num_priorities h' <= Z.of_nat j) then 0 else c)) /\
    forall peer n, peer_unsched_cutoffs peer = h_unsched_cutoffs h' -> n <= HOMA_MAX_MESSAGE_LENGTH ->
      exists j, homa_unsched_priority h' peer n = Ok j /\ j < h_num_priorities h' /\
        (h_max_sched_prio h' < j \/ j = 0 /\ h_max_sched_prio h' = 0).
Proof.
  intros Hnum Hlen. unfold homa_prios_changed. step. set (l := h_unsched_cutoffs (w_homa w)) in *.
  set (num := Z.min (h_num_priorities (w_homa w)) HOMA_MAX_PRIORITIES).
  destruct (limit_priorities w) as (h1 & Hex1 & R1 & N1 & L1 & V1). fold num in N1. fold l in L1.
  rewrite (bind_eq _ _ _ _ _ Hex1). step. simpl w_homa. rewrite L1.
  assert (arr_set l 0 INT_MAX = Ok (<[0%nat := INT_MAX]> l)) as Ha.
  { apply arr_set_Ok. split; [|done]. rewrite Hlen. change (Z.to_nat HOMA_MAX_PRIORITIES) with 8%nat. lia. }
  erewrite bind_eq by (unfold lift; rewrite Ha; reflexivity). rewrite (bind_eq _ _ _ _ _ eq_refl).
  match goal with |- context [bind (prios_loop _) _ ?W] => set (w2 := W) end.
  destruct (prios_loop_spec (Z.to_nat (HOMA_MAX_PRIORITIES - 1)) w2 (<[0%nat := INT_MAX]> l))
    as (h2 & m & Hex2 & R2 & N2 & V2 & [C2 C2'] & M2 & M2' & i & c & Hi & Hi' & Hc & Hc').
  - simpl. rewrite N1. unfold num, HOMA_MAX_PRIORITIES. lia.
  - done.
  - rewrite length_insert, Hlen. unfold HOMA_MAX_PRIORITIES. lia.
  - apply list_lookup_insert_eq. rewrite Hlen. unfold HOMA_MAX_PRIORITIES. lia.
  - rewrite (bind_eq _ _ _ _ _ Hex2).
    change (h_num_priorities (w_homa w2)) with (h_num_priorities h1) in *. rewrite N1 in *.
    change (h_cutoff_version (w_homa w2)) with (h_cutoff_version h1) in *. rewrite V1 in *.
    set (h3 := h2 <| h_cutoff_version ::= fun v => s32 (v + 1) |>). exists h3. split; [reflexivity |].
    assert (prios_ok h3) as Hp.
    { constructor; unfold h3; simpl; rewrite ?N2, ?M2; [unfold num, HOMA_MAX_PRIORITIES in *; lia | | done |].
      - by rewrite C2, length_insert.
      - exists i, c. split; [lia |]. split; [done |]. split; [|done]. rewrite (C2' _ _ Hc).
        rewrite decide_False by lia. done. }
    split_ands; try done.
    + unfold h3. transitivity (prio_rest h2); [done |]. by rewrite R2, <- R1.
    + unfold h3. simpl. by rewrite V2.
    + intros j x Hj Hx. unfold h3. simpl. rewrite N2. rewrite (C2' j x) by (rewrite list_lookup_insert_ne by lia; done).
      apply lookup_lt_Some in Hx. rewrite Hlen in Hx. unfold HOMA_MAX_PRIORITIES in *.
      repeat destruct (decide _); done || lia.
    + intros peer n. exact (unsched_above_sched h3 peer n Hp).
Qed.

Lemma prios_changed_correct_witness :
  exists h', homa_prios_changed (ex <| w_homa ::= fun h => h <| h_num_priorities := 12 |> |>) =
      Ok (tt, ex <| w_homa := h' |>) /\ prios_ok h' /\ h_num_priorities h' = 8.
Proof.
  destruct (prios_changed_correct (ex <| w_homa ::= fun h => h <| h_num_priorities := 12 |> |>)) as (h' & H & H1 & _ & H2 & _).
  - vm_compute. congruence.
  - reflexivity.
  - exists h'. split; [exact H |]. split; [exact H1 | exact H2].
Defined.

(** Without a level the loop leaves the array of cutoffs. *)
Lemma prios_changed_none w :
  h_num_priorities (w_homa w) <= 0 ->
  length (h_unsched_cutoffs (w_homa w)) = Z.to_nat HOMA_MAX_PRIORITIES ->
  homa_prios_changed w = Fault ArrayBounds.
Proof.
  intros Hn Hl.
  assert (forall n w, h_num_priorities (w_homa w) <= 0 -> (n < length (h_unsched_cutoffs (w_homa w)))%nat ->
    prios_loop n w = Fault ArrayBounds) as Hloop.
  { induction n as [|n IH]; intros w' Hn' Hl'; cbn [prios_loop]; step;
      (destruct (Z.geb_spec (Z.of_nat 0) (h_num_priorities (w_homa w'))); [|lia]).
    - erewrite bind_eq by (unfold lift; rewrite (proj2 (arr_set_Ok _ _ _ _)) by (split; [lia | reflexivity]); reflexivity).
      done.
    - destruct (Z.geb_spec (Z.of_nat (S n)) (h_num_priorities (w_homa w'))); [|lia].
      erewrite bind_eq by (unfold lift; rewrite (proj2 (arr_set_Ok _ _ _ _)) by (split; [lia | reflexivity]); reflexivity).
      rewrite (bind_eq _ _ _ _ _ eq_refl). apply IH; simpl; [done |]. rewrite length_insert. lia. }
  unfold homa_prios_changed. step. destruct (Z.gtb_spec (h_num_priorities (w_homa w)) HOMA_MAX_PRIORITIES).
  { unfold HOMA_MAX_PRIORITIES in *. lia. }
  rewrite (bind_eq (ret tt) _ _ _ _ eq_refl). step.
  erewrite bind_eq by (unfold lift; rewrite (proj2 (arr_set_Ok _ _ _ _)) by (split; [rewrite Hl; vm_compute; split; congruence | reflexivity]); reflexivity).
  rewrite (bind_eq _ _ _ _ _ eq_refl). unfold bind at 1. rewrite Hloop; [done | done |].
  simpl. rewrite length_insert, Hl. unfold HOMA_MAX_PRIORITIES. lia.
Qed.
