(* ===== verification/Softirq.v ===== *)
(** * The receive interrupt and ICMP errors (homa_plumbing.c)

    [homa_softirq] filters the packets that GRO collected and hands them to
    [homa_dispatch_pkts] in batches of one RPC each. *)
From S2P Require Import Prelude Lists Wire Types Example Control Peer Pool Grant PoolWait Outgoing Sock Handoff Rpc RpcInv Copy Incoming Utils.

(** ** The code *)

(** A packet as it arrives: the source address of the IP header, whether
    [pskb_may_pull] can make its header contiguous, and its bytes. *)
Record raw_skb := { raw_v6 : bool; raw_saddr : Z; raw_pull : bool; raw_bytes : list Z }.

(** The packet that the checks of the first loop accept, if any. *)
Definition softirq_accept (raw : raw_skb) : option rx_skb :=
  if negb (raw_pull raw) || softirq_rejects (raw_bytes raw) then None else
  match dec_packet (raw_bytes raw) with
  | None => None
  | Some (PFreeze _, _) => None
  | Some (pkt, data) => Some (Build_rx_skb (raw_v6 raw) (raw_saddr raw) pkt data)
  end.

(** Packets that the first loop dispatches at once. *)
Definition softirq_short (skb : rx_skb) : bool :=
  match rx_pkt skb with PData h => message_length h <? 1400 | _ => true end.

(** The first loop: the packets that it leaves in the list. *)
Fixpoint softirq_pass (junk core : Z) (l : list (rx_env * raw_skb)) : M (list (rx_env * rx_skb)) :=
  match l with
  | [] => ret []
  | (env, raw) :: l' =>
      match softirq_accept raw with
      | None => softirq_pass junk core l'
      | Some skb =>
          if softirq_short skb
          then (homa_dispatch_pkts junk core env skb [] ;;; softirq_pass junk core l')
          else (let* rest := softirq_pass junk core l' in ret ((env, skb) :: rest))
      end
  end.

(** Packets with the sender's id and address of the first one. *)
Definition same_rpc (skb skb2 : rx_skb) : bool :=
  (sender_id (packet_common (rx_pkt skb2)) =? sender_id (packet_common (rx_pkt skb))) &&
  (skb_canonical_ipv6_saddr skb =? skb_canonical_ipv6_saddr skb2).

Definition mine (skb : rx_skb) (l : list (rx_env * rx_skb)) : list (rx_env * rx_skb) :=
  filter (fun x => same_rpc skb x.2 = true) l.
Definition others (skb : rx_skb) (l : list (rx_env * rx_skb)) : list (rx_env * rx_skb) :=
  filter (fun x => same_rpc skb x.2 = false) l.

(** The second loop. *)
Fixpoint softirq_loop (fuel : nat) (junk core : Z) (l : list (rx_env * rx_skb)) : M unit :=
  match l, fuel with
  | [], _ => ret tt
  | _, O => raise OutOfFuel
  | (env, skb) :: l', S fuel =>
      homa_dispatch_pkts junk core env skb (mine skb l') ;;;
      softirq_loop fuel junk core (others skb l')
  end.

Definition homa_softirq (junk core : Z) (l : list (rx_env * raw_skb)) : M unit :=
  let* start := sched_clock in
  upd_host (fun ho => ho <| host_last_active ::= fun f c => if c =? core then start else f c |>) ;;;
  let* packets := softirq_pass junk core l in
  softirq_loop (length packets) junk core packets.

(** ** ICMP errors

    [daddr] is the destination in the IP header of the packet that caused the
    error and [dport_] the one in its Homa header; [s] is the scan of
    [homa_abort_rpcs]. *)
Definition ICMP_DEST_UNREACH : Z := 3.
Definition ICMP_PROT_UNREACH : Z := 2.
Definition ICMP_PORT_UNREACH : Z := 3.
Definition ICMPV6_DEST_UNREACH : Z := 1.
Definition ICMPV6_ADDR_UNREACH : Z := 3.
Definition ICMPV6_PORT_UNREACH : Z := 4.
Definition ICMPV6_PARAMPROB : Z := 4.
Definition ICMPV6_UNK_NEXTHDR : Z := 1.

Definition homa_err_handler_v4 (s : ptr) (type_ code daddr dport_ : Z) : M Z :=
  let '(port, error) :=
    if (type_ =? ICMP_DEST_UNREACH) && (code =? ICMP_PORT_UNREACH) then (dport_, - ENOTCONN)
    else if type_ =? ICMP_DEST_UNREACH
    then (0, if code =? ICMP_PROT_UNREACH then - EPROTONOSUPPORT else - EHOSTUNREACH)
    else (0, 0) in
  (if negb (error =? 0) then homa_abort_rpcs s (ipv4_to_ipv6 daddr) port error else ret tt) ;;;
  ret 0.

Definition homa_err_handler_v6 (s : ptr) (type_ code daddr dport_ : Z) : M Z :=
  let '(port, error) :=
    if (type_ =? ICMPV6_DEST_UNREACH) && (code =? ICMPV6_PORT_UNREACH) then (dport_, - ENOTCONN)
    else if (type_ =? ICMPV6_DEST_UNREACH) && (code =? ICMPV6_ADDR_UNREACH) then (0, - EHOSTUNREACH)
    else if (type_ =? ICMPV6_PARAMPROB) && (code =? ICMPV6_UNK_NEXTHDR) then (0, - EPROTONOSUPPORT)
    else (0, 0) in
  (if negb (error =? 0) then homa_abort_rpcs s daddr port error else ret tt) ;;;
  ret 0.

(** ** Parameters

    [homa_dointvec]: [proc] is what [proc_dointvec] does to the parameters,
    [result_] its result, and [prios] whether the parameter is
    [unsched_cutoffs] or [num_priorities]; the actions that only write logs are
    left out. *)
Definition homa_dointvec (proc : homa -> homa) (result_ : Z) (write prios : bool) : M Z :=
  upd_homa proc ;;;
  (if write then
     homa_incoming_sysctl_changed ;;;
     homa_outgoing_sysctl_changed ;;;
     (if prios then homa_prios_changed else ret tt) ;;;
     let* h := get_homa in
     if negb (h_next_id h =? 0)
     then upd_homa (fun h => h <| h_next_outgoing_id := h_next_id h |> <| h_next_id := 0 |>) else ret tt
   else ret tt) ;;;
  ret result_.

(** ** Batches *)
Definition accepted (l : list (rx_env * raw_skb)) : list (rx_env * rx_skb) :=
  omap (fun x => pair x.1 <$> softirq_accept x.2) l.

Fixpoint groups (fuel : nat) (l : list (rx_env * rx_skb)) : list (list (rx_env * rx_skb)) :=
  match l, fuel with
  | x :: l', S fuel => (x :: mine x.2 l') :: groups fuel (others x.2 l')
  | _, _ => []
  end.

Definition shorts (l : list (rx_env * rx_skb)) := filter (fun x => softirq_short x.2 = true) l.
Definition longs (l : list (rx_env * rx_skb)) := filter (fun x => softirq_short x.2 = false) l.

(** The calls of [homa_dispatch_pkts], in order. *)
Definition batches (l : list (rx_env * raw_skb)) : list (list (rx_env * rx_skb)) :=
  map (fun x => [x]) (shorts (accepted l)) ++ groups (length (longs (accepted l))) (longs (accepted l)).

Definition dispatch (junk core : Z) (b : list (rx_env * rx_skb)) : M unit :=
  match b with [] => ret tt | (env, skb) :: rest => homa_dispatch_pkts junk core env skb rest end.

Lemma pass_spec junk core l : forall w,
  softirq_pass junk core l w =
  (mapM_ (dispatch junk core) (map (fun x => [x]) (shorts (accepted l))) ;;; ret (longs (accepted l))) w.
Proof.
  induction l as [|[env raw] l IH]; intros w; cbn [softirq_pass]; [done |].
  change (accepted ((env, raw) :: l)) with
    (match pair env <$> softirq_accept raw with Some y => y :: accepted l | None => accepted l end).
  destruct (softirq_accept raw) as [skb|]; [|apply IH]. simpl fmap. unfold shorts, longs.
  destruct (softirq_short skb) eqn:E.
  - rewrite filter_cons_True by done. rewrite (filter_cons_False _ (env, skb)) by (simpl; congruence).
    cbn [map mapM_]. rewrite bind_bind. apply bind_ext. intros _ w'. apply IH.
  - rewrite filter_cons_False by (simpl; congruence). rewrite (filter_cons_True _ (env, skb)) by done.
    unfold bind at 1. rewrite IH. unfold bind, ret. by destruct (mapM_ _ _ w) as [[? ?]|].
Qed.

Lemma others_length skb l : (length (others skb l) <= length l)%nat.
Proof. apply length_filter. Qed.

Lemma loop_spec junk core fuel : forall l w, (length l <= fuel)%nat ->
  softirq_loop fuel junk core l w = mapM_ (dispatch junk core) (groups fuel l) w.
Proof.
  induction fuel as [|fuel IH]; intros [|[env skb] l] w Hl; cbn [softirq_loop groups]; try done; [simpl in Hl; lia |].
  cbn [mapM_]. apply bind_ext. intros _ w'. apply IH. pose proof (others_length skb l). simpl in *. lia.
Qed.

(** ** What a batch is *)

(** The key of a batch. *)
Definition rpc_key (skb : rx_skb) : Z * Z :=
  (sender_id (packet_common (rx_pkt skb)), skb_canonical_ipv6_saddr skb).

Lemma same_rpc_key skb skb2 : same_rpc skb skb2 = true <-> rpc_key skb2 = rpc_key skb.
Proof.
  unfold same_rpc, rpc_key. rewrite andb_true_iff, !Z.eqb_eq. split; [intros [-> ->]; done | by intros [= -> ->]].
Qed.

Lemma same_rpc_key_false skb skb2 : same_rpc skb skb2 = false <-> rpc_key skb2 <> rpc_key skb.
Proof. rewrite <- not_true_iff_false, same_rpc_key. done. Qed.

(** All packets of a batch belong to one RPC of one sender, in the order of
    their arrival; only DATA packets share a batch. *)
Record batch_ok (arrived b : list (rx_env * rx_skb)) : Prop := {
  bo_head : b <> [];
  bo_key : forall x y, x ∈ b -> y ∈ b -> rpc_key x.2 = rpc_key y.2;
  bo_order : b `sublist_of` arrived;
  bo_data : (1 < length b)%nat -> forall x, x ∈ b -> exists h, rx_pkt x.2 = PData h
}.

Lemma mine_others_perm skb l : l ≡ₚ mine skb l ++ others skb l.
Proof.
  unfold mine, others. induction l as [|x l IH]; [done |].
  destruct (same_rpc skb x.2) eqn:E.
  - rewrite filter_cons_True, (filter_cons_False _ x) by congruence. simpl. by rewrite <- IH.
  - rewrite filter_cons_False, (filter_cons_True _ x) by congruence. rewrite <- Permutation_middle. by rewrite <- IH.
Qed.

Lemma groups_perm fuel : forall l, (length l <= fuel)%nat -> concat (groups fuel l) ≡ₚ l.
Proof.
  induction fuel as [|fuel IH]; intros [|x l] Hl; simpl; try done; [simpl in Hl; lia |].
  rewrite IH by (pose proof (others_length x.2 l); simpl in *; lia). constructor. symmetry. apply mine_others_perm.
Qed.

Lemma groups_ok fuel : forall l b, (length l <= fuel)%nat ->
  (forall x, x ∈ l -> exists h, rx_pkt x.2 = PData h) -> b ∈ groups fuel l -> batch_ok l b.
Proof.
  induction fuel as [|fuel IH]; intros [|x l] b Hl Hd Hb; simpl in Hb; try by apply elem_of_nil in Hb.
  apply elem_of_cons in Hb as [-> | Hb].
  - constructor; [done | | |].
    + assert (forall y, y ∈ x :: mine x.2 l -> rpc_key y.2 = rpc_key x.2) as Hk.
      { intros y [-> | Hy]%elem_of_cons; [done |]. apply list_elem_of_filter in Hy as [Hy _]. by apply same_rpc_key. }
      intros y z Hy Hz. by rewrite (Hk y Hy), (Hk z Hz).
    + apply sublist_skip. apply sublist_filter.
    + intros _ y [-> | Hy]%elem_of_cons; apply Hd; [set_solver |]. apply list_elem_of_filter in Hy as [_ Hy]. set_solver.
  - destruct (IH (others x.2 l) b) as [B1 B2 B3 B4]; [pose proof (others_length x.2 l); simpl in *; lia | | done |].
    { intros y Hy. apply list_elem_of_filter in Hy as [_ Hy]. apply Hd. set_solver. }
    constructor; try done. transitivity (others x.2 l); [done |]. apply sublist_cons, sublist_filter.
Qed.

(** Different batches of long messages have different keys. *)
Lemma groups_keys fuel : forall l, (length l <= fuel)%nat ->
  NoDup (omap (fun b : list (rx_env * rx_skb) => (fun x => rpc_key x.2) <$> head b) (groups fuel l)) /\
  forall b x, b ∈ groups fuel l -> x ∈ b -> x ∈ l.
Proof.
  induction fuel as [|fuel IH]; intros [|x l] Hl; simpl; try (split; [constructor | intros b y Hb; by apply elem_of_nil in Hb]).
  destruct (IH (others x.2 l)) as [H1 H2]; [pose proof (others_length x.2 l); simpl in *; lia |]. split.
  - constructor; [|done]. rewrite list_elem_of_omap. intros (b & Hb & E). destruct b as [|y b]; [done |]. simpl in E.
    injection E as E1 E2. assert (y ∈ others x.2 l) as Hy by (apply (H2 (y :: b)); [done | left]).
    apply list_elem_of_filter in Hy as [Hy _]. apply same_rpc_key_false in Hy. apply Hy. unfold rpc_key. by rewrite E1, E2.
  - intros b y [-> | Hb]%elem_of_cons Hy.
    + apply elem_of_cons in Hy as [-> | Hy]; [left |]. apply list_elem_of_filter in Hy as [_ Hy]. by right.
    + specialize (H2 b y Hb Hy). apply list_elem_of_filter in H2 as [_ H2]. by right.
Qed.

Lemma sublist_singleton_elem {A} (x : A) l : x ∈ l -> [x] `sublist_of` l.
Proof.
  intros (l1 & l2 & ->)%list_elem_of_split. apply sublist_inserts_l. apply sublist_skip, sublist_nil_l.
Qed.

Lemma concat_singles {A} (l : list A) : concat (map (fun x => [x]) l) = l.
Proof. induction l as [|x l IH]; simpl; [done |]. by rewrite IH. Qed.

Lemma shorts_longs l : shorts l ++ longs l ≡ₚ l.
Proof.
  unfold shorts, longs. induction l as [|x l IH]; [done |]. destruct (softirq_short x.2) eqn:E.
  - rewrite filter_cons_True, (filter_cons_False _ x) by congruence. simpl. by rewrite IH.
  - rewrite filter_cons_False, (filter_cons_True _ x) by congruence. rewrite <- Permutation_middle. by rewrite IH.
Qed.

(** C14: [homa_softirq] hands every packet that passes its checks to
    [homa_dispatch_pkts] exactly once, and no other packet: first the control
    packets and the packets of short messages, one by one in the order of
    arrival, then one batch for each RPC with packets of long messages.  A
    batch holds packets of one RPC of one sender in the order of arrival, and
    only DATA packets share a batch (so nothing follows an ACK, which
    [homa_dispatch_pkts] relies on); batches of long messages belong to
    different RPCs. *)
Theorem softirq_correct junk core l w :
  homa_softirq junk core l w =
    mapM_ (dispatch junk core) (batches l) (w <| w_tick ::= S |> <| w_host ::= fun ho =>
      ho <| host_last_active ::= fun f c => if c =? core then w_clock w (w_tick w) else f c |> |>) /\
  concat (batches l) ≡ₚ accepted l /\ Forall (batch_ok (accepted l)) (batches l) /\
  exists singles, batches l = map (fun x => [x]) (shorts (accepted l)) ++ singles /\
    NoDup (omap (fun b : list (rx_env * rx_skb) => (fun x => rpc_key x.2) <$> head b) singles).
Proof.
  split_ands.
  - unfold homa_softirq, batches. step. rewrite (bind_eq _ _ _ _ _ eq_refl). rewrite mapM_app.
    match goal with |- _ ?W = _ => set (w1 := W) end. unfold bind at 1. rewrite pass_spec. unfold bind at 1 2.
    destruct (mapM_ _ (map _ (shorts (accepted l))) w1) as [[[] w2]|]; [|done]. by apply loop_spec.
  - unfold batches. rewrite concat_app, groups_perm by done. rewrite concat_singles. apply shorts_longs.
  - apply Forall_app. split.
    + apply Forall_forall. intros b Hb. apply list_elem_of_fmap in Hb as (x & -> & Hx).
      apply list_elem_of_filter in Hx as [_ Hx]. constructor; [done | set_solver | | simpl; lia].
      by apply sublist_singleton_elem.
    + apply Forall_forall. intros b Hb.
      destruct (groups_ok (length (longs (accepted l))) (longs (accepted l)) b) as [B1 B2 B3 B4]; [done | | done |].
      { intros x Hx. apply list_elem_of_filter in Hx as [Hx _]. unfold softirq_short in Hx.
        destruct (rx_pkt x.2); try discriminate. eauto. }
      constructor; try done. transitivity (longs (accepted l)); [done | apply sublist_filter].
  - eexists. split; [reflexivity |]. by apply groups_keys.
Qed.
