(* ===== verification/Syscall.v ===== *)
(** * System calls on Homa sockets (homa_plumbing.c)

    bind, connect, peeloff, sendmsg, recvmsg, abort and the socket options.
    A failing copy from or to user space is an argument, as are the outcomes
    of other host functions; [fuel], [junk] and [core] are those of the
    functions of the other files. *)
From S2P Require Import Prelude Lists Wire Types Example Control Peer Reassembly Pool Grant PoolWait Outgoing OutXmit OutFill Sock Handoff Rpc RpcInv RpcFree Copy Incoming.

(** ** Addresses *)

(** A [sockaddr_in_union]: an IPv4 address has 32 bits. *)
Record sockaddr := { sa_family : Z; sa_addr : Z; sa_port : Z }.
Definition sizeof_sockaddr_in : Z := 16.
Definition sizeof_sockaddr_in6 : Z := 28.

(** [addr_len < sizeof(..)]: the [int] is converted to [size_t]. *)
Definition too_short (addr_len size : Z) : bool := u64 addr_len <? size.

Definition canonical_ipv6_addr (addr : option sockaddr) : Z :=
  match addr with
  | Some a => if sa_family a =? AF_INET6 then sa_addr a else ipv4_to_ipv6 (sa_addr a)
  | None => 0
  end.

(** ** Creation, bind, connect, close *)
Definition homa_bind (hsk : ptr) (addr : sockaddr) (addr_len : Z) : M Z :=
  let* sk := get_sock hsk in
  if negb (sa_family addr =? sk_family sk) then ret (- EAFNOSUPPORT) else
  if sa_family addr =? AF_INET6 then
    if too_short addr_len sizeof_sockaddr_in6 then ret (- EINVAL) else homa_sock_bind hsk (sa_port addr)
  else if sa_family addr =? AF_INET then
    if too_short addr_len sizeof_sockaddr_in then ret (- EINVAL) else homa_sock_bind hsk (sa_port addr)
  else homa_sock_bind hsk 0.

Definition homa_connect (hsk : ptr) (addr : sockaddr) (addr_len : Z) : M Z :=
  let* sk := get_sock hsk in
  let connect := upd_sock hsk (fun sk =>
    sk <| sk_remote_host := (sa_addr addr, sa_port addr) |> <| sk_connect := true |>) in
  if sk_shutdown sk then ret (- ESHUTDOWN)
  else if sk_connect sk then ret (- EISCONN)
  else if sk_family sk =? AF_INET then
    if too_short addr_len sizeof_sockaddr_in then ret (- EINVAL) else (connect ;;; ret 0)
  else if sk_family sk =? AF_INET6 then
    if too_short addr_len sizeof_sockaddr_in6 then ret (- EINVAL) else (connect ;;; ret 0)
  else ret (- EAFNOSUPPORT).

Definition homa_close (fuel : nat) (junk core : Z) (hsk : ptr) : M unit :=
  homa_sock_destroy fuel junk core hsk.
Definition homa_shutdown (fuel : nat) (junk core : Z) (hsk : ptr) : M Z :=
  homa_sock_shutdown fuel junk core hsk ;;; ret 0.
Definition homa_disconnect : M Z := ret (- EINVAL).

Definition homa_socket (fuel : nat) (junk core : Z) (hsk : ptr) (pool : bool) : M Z :=
  let* result := homa_sock_init fuel hsk pool in
  (if negb (result =? 0) then homa_sock_destroy fuel junk core hsk else ret tt) ;;;
  ret result.

(** ** Peeloff *)

(** [sock_create]: the host allocates the structure at [hsk2] (or returns the
    error [err]), and calls [homa_socket]. *)
Definition sock_create (fuel : nat) (junk core : Z) (family : Z) (mem : Z + (ptr * homa_sock)) (pool : bool) : M Z :=
  match mem with
  | inl err => ret err
  | inr (hsk2, m) =>
      (fun w => Ok (tt, w <| w_socks ::= insert hsk2 (m <| sk_family := family |>) |>)) ;;;
      homa_socket fuel junk core hsk2 pool
  end.

(** [hlist_add_head_rcu] of a socket that is in the bucket [old] already: the
    node gets the links of its new place, so what followed it in [old] is
    replaced by the chain of the new bucket.  Within one bucket the chain
    becomes cyclic, and searching it does not end. *)
Definition hlist_add_head_again (p : ptr) (old : Z) : M unit :=
  let* sk := get_sock p in
  let b := homa_port_hash (sk_port sk) in
  let* chain := sock_bucket b in
  if b =? old then raise OutOfFuel else
  let* oldchain := sock_bucket old in
  set_chain old ((split_at p oldchain).1 ++ p :: chain) ;;;
  set_chain b (p :: chain).

(** The structure after [homa_do_peeloff]. *)
Definition peeloff_fields (h : homa) (port : Z) (remote : Z * Z) (pool : bool) (sk : homa_sock) : homa_sock :=
  (sock_fields h port pool sk) <| sk_connect := true |>
    <| sk_remote_host := if (sk_family sk =? AF_INET) || (sk_family sk =? AF_INET6) then remote else sk_remote_host sk |>.

(** [pool1] and [pool2]: there is memory for the buffer pool in [homa_socket]
    and in [homa_do_peeloff]; [same_ns]: the caller is in the socket's network
    name space. *)
Definition homa_do_peeloff (fuel : nat) (junk core : Z) (hsk : ptr) (addr : sockaddr) (addr_len : Z)
    (same_ns : bool) (mem : Z + (ptr * homa_sock)) (pool1 pool2 : bool) : M (Z + ptr) :=
  let* sk := get_sock hsk in
  if sk_shutdown sk then ret (inl (- ESHUTDOWN)) else
  if negb same_ns then ret (inl (- EINVAL)) else
  if (sk_family sk =? AF_INET) && (negb (sa_family addr =? AF_INET) || (too_short addr_len sizeof_sockaddr_in))
  then ret (inl (- EINVAL)) else
  if (sk_family sk =? AF_INET6) && (negb (sa_family addr =? AF_INET6) || (too_short addr_len sizeof_sockaddr_in6))
  then ret (inl (- EINVAL)) else
  let* err := sock_create fuel junk core (sk_family sk) mem pool1 in
  match mem with
  | inl _ => ret (inl err)
  | inr (hsk2, _) =>
      if err <? 0 then ret (inl err) else
      let* h := get_homa in
      let* sk2 := get_sock hsk2 in
      upd_sock hsk2 (peeloff_fields h (sk_port sk) (sa_addr addr, sa_port addr) pool2) ;;;
      hlist_add_head_again hsk2 (homa_port_hash (sk_port sk2)) ;;;
      if negb pool2 then (homa_close fuel junk core hsk2 ;;; ret (inl (- ENOMEM)))
      else ret (inr hsk2)
  end.

(** [homa_getsockopt_peeloff] with the function it calls to make a file:
    [args] are the address (of which only the first 16 bytes are copied from
    user space, the rest is what was on the stack) and its length, [fd] the result of
    [get_unused_fd_flags], [file] that of [sock_alloc_file] (0 or an error),
    and [back] whether the results can be copied back. *)
Definition homa_getsockopt_peeloff (fuel : nat) (junk core : Z) (hsk : ptr) (args : option (sockaddr * Z))
    (same_ns : bool) (mem : Z + (ptr * homa_sock)) (pool1 pool2 : bool) (fd file : Z) (back : bool) : M Z :=
  match args with
  | None => ret (- EFAULT)
  | Some (addr, addr_len) =>
      let* sk := get_sock hsk in
      let* o := homa_sock_find_connected (sa_family addr) (sa_addr addr, sa_port addr) (sk_port sk) in
      let* connected := match o with
        | Some p => let* s := get_sock p in ret (sk_connect s)
        | None => ret false
        end in
      if (connected : bool) then ret (- EISCONN) else
      let* r := homa_do_peeloff fuel junk core hsk addr (s32 addr_len) same_ns mem pool1 pool2 in
      match r with
      | inl err => ret err
      | inr hsk2 =>
          if fd <? 0 then (homa_close fuel junk core hsk2 ;;; ret fd)
          else if file <? 0 then (homa_close fuel junk core hsk2 ;;; ret file)
          else if negb back then (homa_close fuel junk core hsk2 ;;; ret (- EFAULT))
          else ret fd
      end
  end.

(** ** Abort and options *)
Record homa_abort_args := { ab_id : Z; ab_error : Z; ab_pad1 : Z; ab_pad2 : Z * Z }.

Definition homa_ioc_abort (hsk : ptr) (args : option homa_abort_args) : M Z :=
  match args with
  | None => ret (- EFAULT)
  | Some a =>
      if negb (ab_pad1 a =? 0) || negb ((ab_pad2 a).1 =? 0) || negb ((ab_pad2 a).2 =? 0)
      then ret (- EINVAL)
      else if ab_id a =? 0 then (homa_abort_sock_rpcs hsk (s32 (- ab_error a)) ;;; ret 0)
      else
      let* o := homa_find_client_rpc hsk (ab_id a) in
      match o with
      | None => ret (- EINVAL)
      | Some p =>
          (if ab_error a =? 0 then homa_rpc_free p else homa_rpc_abort p (s32 (- ab_error a))) ;;;
          ret 0
      end
  end.

Definition IPPROTO_HOMA : Z := 146.
Definition SO_HOMA_RCVBUF : Z := 10.
Definition SO_HOMA_PEELOFF : Z := 11.
Definition sizeof_rcvbuf_args : Z := 16.

(** [args]: the start and the length of the region; [writable]: its first
    page can be written. *)
Definition homa_setsockopt (hsk : ptr) (level optname optlen : Z) (args : option (Z * Z)) (writable : bool)
    (mem1 mem2 : bool) (nr_cpu_ids : Z) : M Z :=
  if negb (level =? IPPROTO_HOMA) || negb (optname =? SO_HOMA_RCVBUF) then ret (- ENOPROTOOPT) else
  if negb (optlen =? sizeof_rcvbuf_args) then ret (- EINVAL) else
  match args with
  | None => ret (- EFAULT)
  | Some (start, length_) =>
      if negb writable then ret (- EFAULT) else
      let* sk := get_sock hsk in
      if negb (sk_has_pool sk) then raise BadPointer else
      let r := homa_pool_init mem1 mem2 nr_cpu_ids (sk_buffer_pool sk) start length_ in
      upd_sock hsk (fun sk => sk <| sk_buffer_pool := r.1 |>) ;;;
      ret r.2
  end.

(** ** sendmsg *)
Record homa_sendmsg_args := { sm_id : Z; sm_cookie : Z }.

(** The message and what the host provides: [mg_args] is the control block,
    unless it cannot be read; [mg_back] whether it can be written. *)
Record send_msg := {
  mg_name : option sockaddr; mg_namelen : Z; mg_control_is_user : bool;
  mg_args : option homa_sendmsg_args; mg_data : list Z; mg_back : bool;
  mg_peer : peer_env; mg_rpc : option (ptr * homa_rpc); mg_tx : tx_env; mg_mtu : Z; mg_gso : Z
}.

(** [error:] with and without an RPC; the second result is the id that is
    stored in the control block. *)
Definition send_error (o : option ptr) (result_ : Z) : M (Z * option Z) :=
  (match o with Some p => homa_rpc_free p | None => ret tt end) ;;; ret (result_, None).

(** The part that both variants share: a request or response to [addr]. *)
Definition send_to (hsk : ptr) (msg : send_msg) (addr : sockaddr) (args : homa_sendmsg_args) : M (Z * option Z) :=
  let fill p := homa_message_out_fill (mg_tx msg) (mg_mtu msg) (mg_gso msg) p (mg_data msg) true in
  if sm_id args =? 0 then
    let* r := homa_rpc_new_client (mg_peer msg) (mg_rpc msg) hsk (canonical_ipv6_addr (Some addr)) (sa_port addr) in
    match r with
    | inl err => send_error None err
    | inr p =>
        upd_rpc p (fun r => r <| rpc_completion_cookie := sm_cookie args |>) ;;;
        let* result_ := fill p in
        if negb (result_ =? 0) then send_error (Some p) result_ else
        let* rpc := get_rpc p in
        if negb (mg_back msg) then
          let* o := homa_find_client_rpc hsk (rpc_id rpc) in send_error o (- EFAULT)
        else ret (0, Some (rpc_id rpc))
    end
  else if negb (sm_cookie args =? 0) then send_error None (- EINVAL)
  else
    let* o := homa_find_server_rpc hsk (canonical_ipv6_addr (Some addr)) (sm_id args) in
    match o with
    | None => ret (0, None)
    | Some p =>
        let* rpc := get_rpc p in
        if negb (rpc_error rpc =? 0) then send_error (Some p) (rpc_error rpc)
        else if negb (bool_decide (rpc_state_ rpc = RPC_IN_SERVICE)) then send_error None (- EINVAL)
        else
          (upd_rpc p (fun r => r <| rpc_state_ := RPC_OUTGOING |>) ;;;
           let* result_ := fill p in
           let* rpc := get_rpc p in
           if negb (result_ =? 0) && negb (bool_decide (rpc_state_ rpc = RPC_DEAD))
           then send_error (Some p) result_ else ret (0, None))
    end.

Definition app_active (core : Z) : M unit :=
  let* start := sched_clock in
  upd_host (fun ho => ho <| host_last_app_active ::= fun f c => if c =? core then start else f c |>).

Definition homa_sendmsg_original (core : Z) (hsk : ptr) (msg : send_msg) : M (Z * option Z) :=
  app_active core ;;;
  match mg_name msg with
  | None => send_error None (- EINVAL)
  | Some addr =>
      if negb (mg_control_is_user msg) then send_error None (- EINVAL) else
      match mg_args msg with
      | None => send_error None (- EFAULT)
      | Some args =>
          let* sk := get_sock hsk in
          if negb (sa_family addr =? sk_family sk) then send_error None (- EAFNOSUPPORT)
          else if too_short (mg_namelen msg) sizeof_sockaddr_in ||
                  (too_short (mg_namelen msg) sizeof_sockaddr_in6 && (sa_family addr =? AF_INET6))
          then send_error None (- EINVAL)
          else send_to hsk msg addr args
      end
  end.

Definition homa_sendmsg_connected (core : Z) (hsk : ptr) (msg : send_msg) : M (Z * option Z) :=
  let* sk := get_sock hsk in
  if negb (sk_connect sk) then send_error None (- ENOTSUPP) else
  app_active core ;;;
  if negb (sk_family sk =? AF_INET) && negb (sk_family sk =? AF_INET6) then ret (- EAFNOSUPPORT, None) else
  let addr := Build_sockaddr (sk_family sk) (sk_remote_host sk).1 (sk_remote_host sk).2 in
  if negb (mg_control_is_user msg) then send_error None (- EINVAL) else
  match mg_args msg with
  | None => send_error None (- EFAULT)
  | Some args => send_to hsk msg addr args
  end.

Definition homa_sendmsg (core : Z) (hsk : ptr) (msg : send_msg) : M (Z * option Z) :=
  let* sk := get_sock hsk in
  if sk_connect sk then homa_sendmsg_connected core hsk msg else homa_sendmsg_original core hsk msg.

(** ** recvmsg *)
Record homa_recvmsg_args := {
  rm_id : Z; rm_cookie : Z; rm_flags : Z; rm_num_bpages : Z; rm_offsets : list Z
}.
#[export] Instance eta_recvmsg_args : Eta homa_recvmsg_args := fun r =>
  Build_homa_recvmsg_args (rm_id r) (rm_cookie r) (rm_flags r) (rm_num_bpages r) (rm_offsets r).
Definition HOMA_RECVMSG_VALID_FLAGS : Z := 7.
Definition MSG_DONTWAIT : Z := 64.

(** The result, the control block and the address that are returned. *)
Definition recv_result : Type := Z * option homa_recvmsg_args * option sockaddr.

(** [done:]; [back] is whether the control block can be written. *)
Definition recv_done (back : bool) (result_ : Z) (c : homa_recvmsg_args) (from : option sockaddr) : recv_result :=
  if back then (result_, Some c, from) else (- EFAULT, None, from).

(** The release of the buffers that the application returns. *)
Definition recv_release (hsk : ptr) (c : homa_recvmsg_args) : M Z :=
  let* sk := get_sock hsk in
  if negb (sk_has_pool sk) then raise BadPointer else
  let* (pool, result_) := lift (homa_pool_release_buffers (sk_buffer_pool sk) (s32 (rm_num_bpages c)) (rm_offsets c)) in
  upd_sock hsk (fun sk => sk <| sk_buffer_pool := pool |>) ;;;
  ret result_.

(** What is reported of the RPC at [p], and its new state. *)
Definition recv_rpc (hsk p : ptr) (c : homa_recvmsg_args) : M (Z * homa_recvmsg_args * sockaddr) :=
  let* rpc := get_rpc p in
  let* sk := get_sock hsk in
  let* peer := get_peer (rpc_peer rpc) in
  let mi := rpc_msgin rpc in
  let result_ := if negb (rpc_error rpc =? 0) then rpc_error rpc else mi_length mi in
  let c := c <| rm_id := rpc_id rpc |> <| rm_cookie := rpc_completion_cookie rpc |> in
  let c := if mi_length mi >=? 0
    then c <| rm_num_bpages := mi_num_bpages mi |> <| rm_offsets := mi_bpage_offsets mi |> else c in
  let from := if sk_family sk =? AF_INET6 then Build_sockaddr AF_INET6 (peer_addr peer) (rpc_dport rpc)
    else Build_sockaddr AF_INET (ipv6_to_ipv4 (peer_addr peer)) (rpc_dport rpc) in
  upd_msgin p (fun mi => mi <| mi_num_bpages := 0 |>) ;;;
  (if homa_is_client (rpc_id rpc) then homa_peer_add_ack p ;;; homa_rpc_free p
   else if result_ <? 0 then homa_rpc_free p
   else upd_rpc p (fun r => r <| rpc_state_ := RPC_IN_SERVICE |>)) ;;;
  ret (result_, c, from).

Section Recv.
Context (others : M unit) (pending : world -> bool) (env : copy_env) (junk core : Z) (hsk i : ptr) (rounds fuel : nat).

Definition homa_recvmsg (args : option homa_recvmsg_args) (controllen_ok back : bool) (flags : Z) : M recv_result :=
  app_active core ;;;
  if negb controllen_ok then ret (- EINVAL, None, None) else
  match args with
  | None => ret (- EFAULT, None, None)
  | Some c =>
      let c := c <| rm_cookie := 0 |> in
      if (rm_num_bpages c >? HOMA_MAX_BPAGES) || negb (Z.ldiff (rm_flags c) HOMA_RECVMSG_VALID_FLAGS =? 0)
      then ret (recv_done back (- EINVAL) c None) else
      let* result_ := recv_release hsk c in
      let c := c <| rm_num_bpages := 0 |> in
      if negb (result_ =? 0) then ret (recv_done back result_ c None) else
      let* r := homa_wait_for_message others pending env junk core hsk i rounds fuel
        (if negb (Z.land flags MSG_DONTWAIT =? 0) then Z.lor (rm_flags c) HOMA_RECVMSG_NONBLOCKING else rm_flags c)
        (rm_id c) in
      match r with
      | inl err => ret (recv_done back err c None)
      | inr p =>
          let* (res, from) := recv_rpc hsk p c in
          ret (recv_done back res.1 res.2 (Some from))
      end
  end.
End Recv.

(** ** Other system calls *)

(** [optlen]: the length that the caller has stored, unless it cannot be read;
    [put_len] and [put_val]: the results can be stored.  The second result is
    what is stored. *)
Definition homa_getsockopt (fuel : nat) (junk core : Z) (hsk : ptr) (level optname : Z) (optlen : option Z)
    (put_len put_val : bool) (args : option (sockaddr * Z)) (same_ns : bool) (mem : Z + (ptr * homa_sock))
    (pool1 pool2 : bool) (fd file : Z) : M (Z * option (Z * Z)) :=
  if optname =? SO_HOMA_PEELOFF then
    if negb (level =? IPPROTO_HOMA) then ret (- ENOPROTOOPT, None) else
    let* r := homa_getsockopt_peeloff fuel junk core hsk args same_ns mem pool1 pool2 fd file (put_len && put_val) in
    ret (r, None)
  else
  match optlen with
  | None => ret (- EFAULT, None)
  | Some len =>
      if negb (level =? IPPROTO_HOMA) || negb (optname =? SO_HOMA_RCVBUF) then ret (- ENOPROTOOPT, None) else
      if u64 len <? sizeof_rcvbuf_args then ret (- EINVAL, None) else
      let* sk := get_sock hsk in
      if negb (sk_has_pool sk) then raise BadPointer else
      if negb put_len || negb put_val then ret (- EFAULT, None)
      else ret (0, Some (homa_pool_get_rcvbuf (sk_buffer_pool sk)))
  end.

(** [_IOWR(0x89, 0xe3, struct homa_abort_args)] and [_IO(0x89, 0xef)]. *)
Definition HOMAIOCABORT : Z := 0xc02089e3.
Definition HOMAIOCFREEZE : Z := 0x89ef.

Definition homa_ioctl (hsk : ptr) (cmd : Z) (karg : option homa_abort_args) : M Z :=
  let* _ := sched_clock in
  if u32 cmd =? HOMAIOCABORT then
    let* result := homa_ioc_abort hsk karg in
    let* _ := sched_clock in
    ret result
  else if u32 cmd =? HOMAIOCFREEZE then ret 0
  else ret (- EINVAL).

Definition POLLIN : Z := 1.
Definition POLLOUT : Z := 4.
Definition POLLRDNORM : Z := 64.
Definition POLLWRNORM : Z := 256.

Definition homa_poll (hsk : ptr) : M Z :=
  let* sk := get_sock hsk in
  let mask := Z.lor POLLOUT POLLWRNORM in
  let mask := if sk_shutdown sk then Z.lor mask POLLIN else mask in
  ret (if bool_decide (sk_ready_requests sk <> [] \/ sk_ready_responses sk <> [])
       then Z.lor mask (Z.lor POLLIN POLLRDNORM) else mask).


(** ** Peeloff: the table afterwards

    [port] is the default port of the new socket before it gets the port of
    [sk].  The chains of both ports now start with the new socket and go on
    with the sockets on the port of [sk]. *)
Definition peeled (sk : homa_sock) (remote : Z * Z) (hsk2 : ptr) (port : Z) (w w' : world) : Prop :=
  (exists sk2, w_socks w' = <[hsk2 := sk2]> (w_socks w) /\
     sk_family sk2 = sk_family sk /\ sk_port sk2 = sk_port sk /\ sk_connect sk2 = true /\
     sk_remote_host sk2 = remote /\ sk_shutdown sk2 = false /\ sk_has_pool sk2 = true) /\
  forall c, chain w' c =
    if bool_decide (c = homa_port_hash (sk_port sk) \/ c = homa_port_hash port)
    then hsk2 :: chain w (homa_port_hash (sk_port sk)) else chain w c.

(** What [homa_do_peeloff] requires of its arguments to succeed. *)
Record peel_args (w : world) (hsk : ptr) (sk : homa_sock) (addr : sockaddr) (addr_len : Z) (hsk2 : ptr) : Prop := {
  pa_table : socktab_ok w;
  pa_sock : w_socks w !! hsk = Some sk;
  pa_open : sk_shutdown sk = false;
  pa_family : sk_family sk = AF_INET \/ sk_family sk = AF_INET6;
  pa_addr : sa_family addr = sk_family sk;
  pa_len : too_short addr_len (if sk_family sk =? AF_INET then sizeof_sockaddr_in else sizeof_sockaddr_in6) = false;
  pa_new : w_socks w !! hsk2 = None;
  pa_next : 0 <= h_next_client_port (w_homa w) < 65536
}.

Lemma fresh_not_in_table w p : socktab_ok w -> w_socks w !! p = None -> ~ in_table w p.
Proof. intros Hok Hn [b Hb]. destruct (sto_sock _ Hok _ _ Hb) as (sk & Hs & _). congruence. Qed.

(** Memory for a socket does not affect the choice of a port. *)
Definition alloc (p : ptr) (m : homa_sock) (w : world) : world := w <| w_socks ::= insert p m |>.

Lemma find_port_frame port w w' (l : list ptr) : forall r,
  (forall p, p ∈ l -> w_socks w' !! p = w_socks w !! p) ->
  find_port port l w = Ok (r, w) -> find_port port l w' = Ok (r, w').
Proof.
  induction l as [|p l IH]; cbn [find_port]; intros r Hl H; [by injection H as -> |].
  destruct (w_socks w !! p) as [sk |] eqn:Hs; [|unfold bind, get_sock in H; by rewrite Hs in H].
  assert (w_socks w' !! p = Some sk) as Hs' by (rewrite Hl by set_solver; done).
  rewrite (bind_eq _ _ _ _ _ (get_sock_eq _ _ _ Hs)) in H. step.
  destruct (sk_port sk =? port); [by injection H as -> |].
  apply IH; [|done]. intros q Hq. apply Hl. set_solver.
Qed.

Lemma sock_find_alloc p m port r w :
  socktab_ok w -> w_socks w !! p = None -> homa_sock_find port w = Ok (r, w) ->
  homa_sock_find port (alloc p m w) = Ok (r, alloc p m w).
Proof.
  intros Hok Hn. unfold homa_sock_find. rewrite !(bind_eq _ _ _ _ _ (sock_bucket_eq _ _ (port_hash_range _))).
  apply find_port_frame. intros q Hq. apply lookup_insert_ne. intros <-.
  apply (fresh_not_in_table w p Hok Hn). by eexists.
Qed.

Lemma choose_port_alloc p m port fuel : forall w,
  socktab_ok w -> w_socks w !! p = None -> choose_port fuel w = Ok (tt, with_port port w) ->
  choose_port fuel (alloc p m w) = Ok (tt, with_port port (alloc p m w)).
Proof.
  induction fuel as [|fuel IH]; intros w Hok Hn; rewrite !choose_port_step;
    change (h_next_client_port (w_homa (alloc p m w))) with (h_next_client_port (w_homa w));
    set (n := norm_port _); change (with_port n (alloc p m w)) with (alloc p m (with_port n w));
    pose proof (with_port_ok n w Hok) as Hok1;
    destruct (sock_find_spec (with_port n w) n Hok1) as (r & Hex & _);
    rewrite (bind_eq _ _ _ _ _ Hex), (bind_eq _ _ _ _ _ (sock_find_alloc p m n r _ Hok1 Hn Hex));
    destruct r as [o|]; try done; intros H.
  - injection H as H. by rewrite <- H.
  - erewrite bind_eq in H by reflexivity. erewrite bind_eq by reflexivity. revert H.
    match goal with |- choose_port fuel ?W = _ -> _ => set (w1 := W) end.
    apply (IH w1); [by destruct Hok1; constructor | done].
  - injection H as H. by rewrite <- H.
Qed.

(** [sock_create] for a peeled off socket: a socket on an unused default port. *)
Lemma sock_create_eq fuel junk core family hsk2 m w port :
  socktab_ok w -> w_socks w !! hsk2 = None -> choose_port fuel w = Ok (tt, with_port port w) ->
  let mem := m <| sk_family := family |> in
  sock_create fuel junk core family (inr (hsk2, m)) true w = Ok (0, with_sock hsk2 true mem port (alloc hsk2 mem w)).
Proof.
  intros Hok Hn Hex mem. unfold sock_create. erewrite bind_eq by reflexivity. unfold homa_socket.
  erewrite bind_eq; [|eapply sock_init_eq; [by eapply choose_port_alloc | apply lookup_insert_eq]]. reflexivity.
Qed.

Lemma add_head_again_eq p sk old w :
  w_socks w !! p = Some sk -> 0 <= old < HOMA_SOCKTAB_BUCKETS -> homa_port_hash (sk_port sk) <> old ->
  let b := homa_port_hash (sk_port sk) in
  exists w', hlist_add_head_again p old w = Ok (tt, w') /\ w_socks w' = w_socks w /\
    forall c, chain w' c =
      if bool_decide (c = b) then p :: chain w b
      else if bool_decide (c = old) then (split_at p (chain w old)).1 ++ p :: chain w b
      else chain w c.
Proof.
  intros Hs Hold Hne b. unfold hlist_add_head_again. step.
  rewrite (bind_eq _ _ _ _ _ (sock_bucket_eq _ _ (port_hash_range _))).
  rewrite (proj2 (Z.eqb_neq _ _) Hne), (bind_eq _ _ _ _ _ (sock_bucket_eq _ _ Hold)).
  eexists. split; [reflexivity |]. split; [done |]. intros c. unfold chain, st_chain. simpl. fold b.
  case_bool_decide as Hc; [subst c; by rewrite lookup_insert_eq |]. rewrite lookup_insert_ne by congruence.
  case_bool_decide as Hd; [subst c; by rewrite lookup_insert_eq | by rewrite lookup_insert_ne by congruence].
Qed.

(** The guards of [homa_do_peeloff], which the arguments pass. *)
Lemma peel_guards w hsk sk addr addr_len hsk2 :
  peel_args w hsk sk addr addr_len hsk2 ->
  (sk_family sk =? AF_INET) && (negb (sa_family addr =? AF_INET) || too_short addr_len sizeof_sockaddr_in) = false /\
  (sk_family sk =? AF_INET6) && (negb (sa_family addr =? AF_INET6) || too_short addr_len sizeof_sockaddr_in6) = false /\
  (sk_family sk =? AF_INET) || (sk_family sk =? AF_INET6) = true.
Proof. intros [_ _ _ [Hf | Hf] -> Hlen _ _]; rewrite Hf in *; simpl in *; by rewrite Hlen. Qed.

(** The default port that a new socket gets. *)
Lemma default_port fuel w hsk sk addr addr_len hsk2 q :
  peel_args w hsk sk addr addr_len hsk2 ->
  HOMA_MIN_DEFAULT_PORT <= q < 65536 -> ~ port_used w q -> 32768 <= Z.of_nat fuel ->
  exists port, choose_port fuel w = Ok (tt, with_port port w).
Proof.
  intros [Hok _ _ _ _ _ _ Hnext] Hq Hu Hf. destruct (choose_port_spec q fuel w) as (port & Hex & _); try done.
  - unfold port_dist. pose proof (Z.mod_pos_bound (q - norm_port (h_next_client_port (w_homa w))) 32768). lia.
  - by exists port.
Qed.

Lemma peeloff_exec fuel junk core hsk sk addr addr_len hsk2 m w port :
  peel_args w hsk sk addr addr_len hsk2 -> choose_port fuel w = Ok (tt, with_port port w) ->
  homa_port_hash port <> homa_port_hash (sk_port sk) ->
  exists w', homa_do_peeloff fuel junk core hsk addr addr_len true (inr (hsk2, m)) true true w = Ok (inr hsk2, w') /\
    peeled sk (sa_addr addr, sa_port addr) hsk2 port w w'.
Proof.
  intros Ha Hp Hne. destruct (peel_guards _ _ _ _ _ _ Ha) as (G1 & G2 & G3).
  destruct Ha as [Hok Hsk Hopen _ _ _ Hn Hnext].
  pose proof (sock_create_eq fuel junk core (sk_family sk) hsk2 m w port Hok Hn Hp) as Hex. cbn zeta in Hex.
  set (mem := m <| sk_family := sk_family sk |>) in *.
  unfold homa_do_peeloff. step. rewrite Hopen, G1, G2. cbn [negb]. rewrite (bind_eq _ _ _ _ _ Hex).
  set (w0 := alloc hsk2 mem w) in *. set (w1 := with_sock hsk2 true mem port w0) in *.
  assert (w_socks w1 !! hsk2 = Some (sock_fields (w_homa w0) port true mem)) as Hs2 by apply lookup_insert_eq.
  change (0 <? 0) with false. cbn iota. erewrite bind_eq by reflexivity. step.
  rewrite (bind_eq _ _ _ _ _ (upd_sock_eq _ _ _ _ Hs2)).
  match goal with |- context [peeloff_fields ?H ?P ?R ?B ?S] => set (sk2 := peeloff_fields H P R B S) end.
  match goal with |- context [bind _ _ ?W] => set (w2 := W) end.
  assert (w_socks w2 !! hsk2 = Some sk2) as Hs3 by apply lookup_insert_eq.
  destruct (add_head_again_eq hsk2 sk2 (homa_port_hash port) w2 Hs3 (port_hash_range _)) as (w' & Hadd & Hsocks & Hch).
  { intros E. by apply Hne. }
  exists w'. split; [by rewrite (bind_eq _ _ _ _ _ Hadd) |]. split.
  - exists sk2. split_ands; try done.
    + rewrite Hsocks. unfold w2, w1, with_sock, w0. simpl. by rewrite !insert_insert_eq.
    + unfold sk2, peeloff_fields. simpl. by rewrite G3.
  - intros c. rewrite Hch. change (sk_port sk2) with (sk_port sk).
    assert (forall d, chain w2 d = (if bool_decide (d = homa_port_hash port) then [hsk2] else []) ++ chain w d) as E
      by exact (with_sock_entered hsk2 true mem port w0).
    rewrite !E. rewrite (bool_decide_false (homa_port_hash (sk_port sk) = _)) by congruence.
    rewrite (bool_decide_true (homa_port_hash port = _)) by done. simpl. rewrite (bool_decide_true (hsk2 = _)) by done.
    repeat case_bool_decide; simplify_eq; try done; tauto.
Qed.

(** The search depends on the sockets of the chain only. *)
Lemma find_connected_frame family remote port w w' (l : list ptr) : forall listen r,
  (forall p, p ∈ l -> w_socks w' !! p = w_socks w !! p) ->
  find_connected family remote port listen l w = Ok (r, w) ->
  find_connected family remote port listen l w' = Ok (r, w').
Proof.
  induction l as [|p l IH]; cbn [find_connected]; intros listen r Hl H; [by injection H as -> |].
  destruct (w_socks w !! p) as [sk |] eqn:Hs; [|unfold bind, get_sock in H; by rewrite Hs in H].
  assert (w_socks w' !! p = Some sk) as Hs' by (rewrite Hl by set_solver; done).
  rewrite (bind_eq _ _ _ _ _ (get_sock_eq _ _ _ Hs)) in H. step.
  destruct (matches_remote family remote port sk); [by injection H as -> |].
  apply IH; [|done]. intros q Hq. apply Hl. set_solver.
Qed.


(** Creating the new socket enters it in the bucket of a default port, and
    [homa_do_peeloff] enters it in the bucket of the original socket without
    removing it from there.  So the sockets that were in the bucket of the
    default port are no longer in the table: packets for their ports are not
    delivered to them. *)
Theorem peeloff_loses_sockets fuel junk core hsk sk addr addr_len hsk2 m w q :
  peel_args w hsk sk addr addr_len hsk2 ->
  HOMA_MIN_DEFAULT_PORT <= q < 65536 -> ~ port_used w q -> 32768 <= Z.of_nat fuel ->
  exists port, choose_port fuel w = Ok (tt, with_port port w) /\
    (homa_port_hash port <> homa_port_hash (sk_port sk) ->
     exists w', homa_do_peeloff fuel junk core hsk addr addr_len true (inr (hsk2, m)) true true w = Ok (inr hsk2, w') /\
       ~ socktab_ok w' /\
       (forall p, in_table w' p <-> p = hsk2 \/ (in_table w p /\ p ∉ chain w (homa_port_hash port))) /\
       forall lost, homa_port_hash lost = homa_port_hash port -> homa_sock_find lost w' = Ok (None, w')).
Proof.
  intros Ha Hq Hu Hf.
  destruct (default_port fuel w hsk sk addr addr_len hsk2 q) as [port Hpo]; try done.
  exists port. split; [done |]. intros Hne.
  destruct (peeloff_exec fuel junk core _ _ _ _ _ m _ _ Ha Hpo Hne) as (w' & Hd & (sk2 & Hsocks & _ & Hport & _) & Hch).
  exists w'. split; [done |]. destruct Ha as [Hok _ _ _ _ _ Hn _].
  assert (forall b p, p ∈ chain w' b -> p = hsk2 \/ (p ∈ chain w (homa_port_hash (sk_port sk))) \/
    (b <> homa_port_hash port /\ p ∈ chain w b)) as Hin.
  { intros b p. rewrite Hch. case_bool_decide as E; [set_solver |]. intros Hp. right. right.
    split; [|done]. intros ->. apply E. by right. }
  split; [|split].
  - intros Hok'. apply Hne. eapply (sto_unique w' _ _ hsk2 Hok'); rewrite Hch, bool_decide_true by auto; set_solver.
  - intros p. split.
    + intros [b Hb]. destruct (Hin b p Hb) as [-> | [Hp | [Hb' Hp]]]; [by left | |];
        (right; split; [by eexists |]; intros Hp'; pose proof (sto_unique w _ _ p Hok Hp Hp'); congruence).
    + intros [-> | [[b Hb] Hp]].
      * exists (homa_port_hash port). rewrite Hch, bool_decide_true by auto. set_solver.
      * exists b. rewrite Hch. case_bool_decide as E; [|done]. destruct E as [-> | ->]; [set_solver | done].
  - intros lost Hl. unfold homa_sock_find. rewrite (bind_eq _ _ _ _ _ (sock_bucket_eq _ _ (port_hash_range _))), Hl.
    rewrite Hch, bool_decide_true by auto.
    assert (forall p, p ∈ hsk2 :: chain w (homa_port_hash (sk_port sk)) -> exists s,
      w_socks w' !! p = Some s /\ homa_port_hash (sk_port s) = homa_port_hash (sk_port sk)) as Hall.
    { intros p Hp. rewrite Hsocks. destruct (decide (p = hsk2)) as [-> | Hp2].
      - rewrite lookup_insert_eq. exists sk2. by rewrite Hport.
      - rewrite lookup_insert_ne by done. apply (sto_sock _ Hok). set_solver. }
    destruct (find_port_spec w' lost (hsk2 :: chain w (homa_port_hash (sk_port sk)))) as (r & Hfind & Hr').
    { intros p Hp. destruct (Hall p Hp) as (s & Hs & _). eauto. }
    rewrite Hfind. destruct r as [p |]; [|done]. destruct Hr' as [Hp (s & Hs & Hps)].
    destruct (Hall p Hp) as (s' & Hs' & Hh). congruence.
Qed.

(** The example socket, on port 99, and one on port 0, which is in the bucket
    of the default port 32768. *)
Definition ex_peel : world :=
  ex <| w_socks ::= insert 2%positive (ex_sock <| sk_port := 0 |>) |>
     <| w_homa ::= fun h => h <| h_next_client_port := 32768 |> |>
     <| w_socktab ::= fun st => st <| st_buckets := {[99 := [1%positive]; 0 := [2%positive]]} |> |>.

Lemma ex_peel_chain b p : p ∈ chain ex_peel b -> p = 1%positive /\ b = 99 \/ p = 2%positive /\ b = 0.
Proof.
  unfold chain, st_chain. simpl. intros H.
  destruct (decide (b = 99)) as [-> |]; [rewrite lookup_insert_eq in H; set_solver |].
  rewrite lookup_insert_ne in H by done.
  destruct (decide (b = 0)) as [-> |]; [rewrite lookup_singleton_eq in H; set_solver |].
  rewrite lookup_singleton_ne in H by done. set_solver.
Qed.

Lemma ex_peel_args :
  peel_args ex_peel 1%positive ex_sock (Build_sockaddr AF_INET6 101 4000) 28 3%positive.
Proof.
  constructor; try reflexivity; [|by right | vm_compute; split; congruence]. constructor; [| |done].
  - intros b p [[-> ->] | [-> ->]]%ex_peel_chain; eexists; (split; [reflexivity | vm_compute; reflexivity]).
  - intros b. unfold chain, st_chain. simpl.
    destruct (decide (b = 99)) as [-> |]; [rewrite lookup_insert_eq; apply NoDup_singleton |].
    rewrite lookup_insert_ne by done.
    destruct (decide (b = 0)) as [-> |]; [rewrite lookup_singleton_eq; apply NoDup_singleton |].
    rewrite lookup_singleton_ne by done. constructor.
Qed.

Lemma ex_peel_unused port : port <> 99 -> port <> 0 -> ~ port_used ex_peel port.
Proof.
  intros H1 H2 (b & p & sk & Hp & Hs & Hport).
  apply ex_peel_chain in Hp as [[-> _] | [-> _]]; vm_compute in Hs; injection Hs as <-; simpl in Hport; congruence.
Qed.

Lemma ex_peel_port fuel port :
  choose_port fuel ex_peel = Ok (tt, with_port port ex_peel) -> port = 32768.
Proof.
  rewrite choose_port_step. intros H. erewrite bind_eq in H by (vm_compute; reflexivity).
  injection H as H. exact (eq_sym H).
Qed.


Lemma peeloff_loses_sockets_witness : exists w',
  homa_do_peeloff (Z.to_nat 32768) 0 0 1%positive (Build_sockaddr AF_INET6 101 4000) 28 true
    (inr (3%positive, ex_sock)) true true ex_peel = Ok (inr 3%positive, w') /\
  in_table ex_peel 2%positive /\ ~ in_table w' 2%positive /\ homa_sock_find 0 w' = Ok (None, w').
Proof.
  destruct (peeloff_loses_sockets (Z.to_nat 32768) 0 0 1%positive ex_sock (Build_sockaddr AF_INET6 101 4000) 28
    3%positive ex_sock ex_peel 40000) as (port & Hport & H).
  - exact ex_peel_args.
  - vm_compute; split; congruence.
  - apply ex_peel_unused; lia.
  - rewrite Z2Nat.id; lia.
  - apply ex_peel_port in Hport as ->. destruct H as (w' & Hex & _ & Hin & Hf); [vm_compute; congruence |].
    assert (2%positive ∈ chain ex_peel 0) as Hc by (vm_compute; constructor).
    exists w'. split; [exact Hex |]. split; [exists 0; exact Hc |]. split.
    + intros [E | [_ E]]%Hin; [discriminate E | exact (E Hc)].
    + apply Hf. vm_compute. reflexivity.
Defined.

(** ** Sending a request *)

(** The destination of a message: that of a connected socket is fixed. *)
Definition destination (sk : homa_sock) (msg : send_msg) (addr : sockaddr) : Prop :=
  if sk_connect sk
  then (sk_family sk = AF_INET \/ sk_family sk = AF_INET6) /\
    addr = Build_sockaddr (sk_family sk) (sk_remote_host sk).1 (sk_remote_host sk).2
  else mg_name msg = Some addr /\ sa_family addr = sk_family sk /\
    too_short (mg_namelen msg) sizeof_sockaddr_in = false /\
    (sa_family addr = AF_INET6 -> too_short (mg_namelen msg) sizeof_sockaddr_in6 = false).

(** Both variants of [sendmsg] end in [send_to]. *)
Lemma sendmsg_send_to core hsk sk msg addr args w :
  w_socks w !! hsk = Some sk -> destination sk msg addr ->
  mg_control_is_user msg = true -> mg_args msg = Some args ->
  exists ho, app_active core w = Ok (tt, w <| w_tick ::= S |> <| w_host := ho |>) /\
    homa_sendmsg core hsk msg w = send_to hsk msg addr args (w <| w_tick ::= S |> <| w_host := ho |>).
Proof.
  intros Hs Hd Hu Ha. eexists. split; [reflexivity |].
  unfold homa_sendmsg. step. unfold destination in Hd. destruct (sk_connect sk) eqn:Hc.
  - unfold homa_sendmsg_connected. step. rewrite Hc. cbn [negb]. erewrite bind_eq by reflexivity.
    destruct Hd as [Hf ->]. rewrite Hu, Ha. destruct Hf as [-> | ->]; reflexivity.
  - unfold homa_sendmsg_original. erewrite bind_eq by reflexivity. destruct Hd as (-> & Hf & Hl & Hl6).
    rewrite Hu, Ha. cbn [negb]. erewrite bind_eq by (apply get_sock_eq; exact Hs).
    rewrite Hf, Z.eqb_refl, Hl. cbn [negb orb].
    destruct (Z.eqb_spec (sk_family sk) AF_INET6) as [E | E]; [rewrite Hl6 by congruence; reflexivity |].
    by rewrite andb_false_r.
Qed.

(** [homa_rpc_new_client] when the peer is known already. *)
Lemma new_client_known env p mem hsk sk w addr port q pe :
  w_socks w !! hsk = Some sk -> sk_shutdown sk = false -> env_ok env w ->
  w_peers w !! q = Some pe -> peer_addr pe = addr ->
  let id := h_next_outgoing_id (w_homa w) in
  exists rpc, client_rpc hsk id port rpc /\ rpc_peer rpc = q /\
    homa_rpc_new_client env (Some (p, mem)) hsk addr port w = Ok (inr p,
      w <| w_homa ::= fun h => h <| h_next_outgoing_id := u64 (id + 2) |> |> <| w_tick ::= S |>
        <| w_rpcs ::= insert p rpc |> <| w_socks ::= insert hsk (linked p id sk) |>).
Proof.
  intros Hs Hsd (Hh & Ht & Hn) Hq Hpa id. unfold homa_rpc_new_client. do 2 step. fold id.
  match goal with |- exists rpc, _ /\ _ /\ bind _ _ ?W = _ => set (w0 := W) end.
  destruct (peer_find_spec _ Hh (pe_new env) (pe_route env) addr w0) as (r & w' & Hex & _ & _ & _ & Hk).
  { destruct Ht. by constructor. }
  { done. }
  destruct (Hk q pe Hq Hpa) as [-> ->].
  eexists. split; [|split; [|unfold peer_find; rewrite (bind_eq _ _ _ _ _ Hex); step;
    erewrite bind_eq by (apply get_sock_eq; exact Hs); rewrite Hsd; rewrite (bind_eq _ _ _ _ _ eq_refl);
    unfold link_rpc; erewrite bind_eq by (apply upd_sock_eq; exact Hs); reflexivity]]; done.
Qed.

(** The state in which a request of [n] bytes can be sent to [addr]: [q] is its peer. *)
Record send_ready (hsk : ptr) (sk : homa_sock) (msg : send_msg) (addr : sockaddr) (q : ptr) (w : world) : Prop := {
  sr_sock : w_socks w !! hsk = Some sk;
  sr_open : sk_shutdown sk = false;
  sr_tx : tx_ok (mg_tx msg);
  sr_length : 0 < Z.of_nat (length (mg_data msg)) <= HOMA_MAX_MESSAGE_LENGTH;
  sr_route : route_ok (w_homa w) sk (mg_mtu msg) (mg_gso msg);
  sr_env : env_ok (mg_peer msg) w;
  sr_live : throttled_live w;
  sr_peer : exists pe, w_peers w !! q = Some pe /\ peer_addr pe = canonical_ipv6_addr (Some addr) /\
    acks_ok pe /\ fill_ready (w_homa w) pe (Z.of_nat (length (mg_data msg)))
}.

Lemma sendmsg_request_spec core hsk sk msg addr args p mem q w :
  destination sk msg addr -> send_ready hsk sk msg addr q w ->
  mg_control_is_user msg = true -> mg_args msg = Some args -> sm_id args = 0 ->
  mg_back msg = true -> mg_rpc msg = Some (p, mem) ->
  let id := h_next_outgoing_id (w_homa w) in
  exists w' rpc max_gso, homa_sendmsg core hsk msg w = Ok ((0, Some id), w') /\
    w_rpcs w' !! p = Some rpc /\ rpc_id rpc = id /\ rpc_hsk rpc = hsk /\ rpc_state_ rpc = RPC_OUTGOING /\
    rpc_peer rpc = q /\ rpc_dport rpc = sa_port addr /\ rpc_completion_cookie rpc = sm_cookie args /\
    rpc_error rpc = 0 /\
    fill_done (mg_data msg) max_gso (Z.min (h_unsched_bytes (w_homa w)) (Z.of_nat (length (mg_data msg)))) (rpc_msgout rpc) /\
    delete p (w_rpcs w') = delete p (w_rpcs w) /\ w_socks w' = <[hsk := linked p id sk]> (w_socks w).
Proof.
  intros Hd [Hs Ho Htx Hlen Hro He Hl (pe & Hq & Hpa & Hac & Hfr)] Hu Ha Hid0 Hb Hm id.
  destruct (sendmsg_send_to core hsk sk msg addr args w Hs Hd Hu Ha) as (ho & _ & ->).
  set (w0 := w <| w_tick ::= S |> <| w_host := ho |>).
  unfold send_to. rewrite Hid0, Hm. cbn [Z.eqb].
  destruct (new_client_known (mg_peer msg) p mem hsk sk w0 (canonical_ipv6_addr (Some addr)) (sa_port addr) q pe)
    as (rpc & (H1 & H2 & H3 & H4 & H5 & H6 & _) & Hpq & Hex); try done.
  { destruct He as (? & Ht & ?). split_ands; try done. destruct Ht. by constructor. }
  rewrite (bind_eq _ _ _ _ _ Hex). clear Hex.
  match goal with |- context [bind _ _ ?W] => set (w1 := W) end. change (rpc_id rpc = id) in H3.
  assert (w_rpcs w1 !! p = Some rpc) as Hp1 by apply lookup_insert_eq.
  rewrite (bind_eq _ _ _ _ _ (upd_rpc_eq _ _ _ _ Hp1)). set (rpc1 := rpc <| rpc_completion_cookie := _ |>).
  set (w2 := w1 <| w_rpcs ::= _ |>).
  destruct (message_out_fill_spec (mg_tx msg) (mg_mtu msg) (mg_gso msg) p (mg_data msg) true w2 rpc1 (linked p id sk) pe)
    as (w' & rpc' & g & Hex & _ & Hr' & Hfd & [Erpc Hoth Hsocks]); try done.
  - apply lookup_insert_eq.
  - simpl. rewrite H1. apply lookup_insert_eq.
  - simpl. by rewrite Hpq.
  - intros r Hr. simpl. rewrite !lookup_insert_is_Some'. right. right. by apply Hl.
  - simpl. by rewrite H2.
  - destruct Hro. unfold linked, upd_bucket. destruct (homa_is_client id); by constructor.
  - intros mo E1 E2. destruct (Hfr mo E1 E2). by constructor.
  - rewrite (bind_eq _ _ _ _ _ Hex). cbn [Z.eqb negb]. rewrite (bind_eq _ _ _ _ _ (get_rpc_eq _ _ _ Hr')), Hb.
    cbn [negb]. exists w', rpc', g.
    assert (rpc_id rpc' = id) as Eid by (rewrite Erpc; exact H3). rewrite Eid.
    split_ands; try done; try (rewrite Erpc; done).
    rewrite Hoth. simpl. by rewrite !delete_insert_eq.
Qed.


(** The table of peers depends on their addresses only. *)
Lemma peertab_ok_update hash w p x y :
  peertab_ok hash w -> w_peers w !! p = Some x -> peer_addr y = peer_addr x ->
  peertab_ok hash (w <| w_peers ::= insert p y |>).
Proof.
  intros [Ha Hc Hp Hu Hd] Hx E.
  assert (forall q z, <[p := y]> (w_peers w) !! q = Some z ->
    exists z', w_peers w !! q = Some z' /\ peer_addr z' = peer_addr z) as Hold.
  { intros q z [[<- <-] | [_ Hz]]%lookup_insert_Some; eauto. }
  constructor; simpl; try done.
  - intros b l Hb. destruct (Hc b l Hb) as (? & ? & Hl). split_ands; try tauto.
    intros q Hq. destruct (Hl q Hq) as (z & Hz & Eb). destruct (decide (q = p)) as [-> | Hne].
    + exists y. rewrite lookup_insert_eq. split; [done |]. congruence.
    + exists z. by rewrite lookup_insert_ne.
  - intros q z (z' & Hz & <-)%Hold. by apply Hp.
  - intros q r a b (a' & Ha' & <-)%Hold (b' & Hb' & <-)%Hold. by apply Hu.
Qed.

(** A socket that is connected to port 80 of the first peer. *)
Definition ex_connected : homa_sock := ex_sock <| sk_connect := true |> <| sk_remote_host := (101, 80) |>.
Definition ex_send : world := ex_out_world <| w_socks := {[1%positive := ex_connected]} |>.
Definition ex_msg : send_msg :=
  Build_send_msg None 0 true (Some (Build_homa_sendmsg_args 0 77)) (replicate 3000 7) true
    ex_peer_env (Some (30%positive, ex_rpc 1%positive 0 (ex_msgin 0 0 0))) ex_env 1500 65536.

Lemma ex_send_ready : send_ready 1%positive ex_connected ex_msg (Build_sockaddr AF_INET6 101 80) 1%positive ex_send.
Proof.
  constructor; try reflexivity.
  - exact ex_env_ok.
  - vm_compute. split; congruence.
  - destruct ex_route_ok. by constructor.
  - split; [exact ex_hash_range |]. split; [|done].
    destruct (peertab_ok_update ex_hash ex 1%positive (ex_peer 101 [11%positive; 12%positive]) ex_out_peer
      ex_peertab_ok eq_refl eq_refl). by constructor.
  - intros r Hr. apply elem_of_nil in Hr. destruct Hr.
  - exists ex_out_peer. split_ands; try reflexivity.
    + vm_compute. split; [split; congruence | reflexivity].
    + apply ex_fill_ready. vm_compute. congruence.
Qed.


(** ** Readiness, and use after shutdown *)

(** A socket is reported as readable exactly if a message is ready or it is shut down. *)
Lemma poll_readable hsk sk w :
  w_socks w !! hsk = Some sk ->
  exists mask, homa_poll hsk w = Ok (mask, w) /\ Z.testbit mask 2 = true /\
    (Z.testbit mask 0 = true <->
     sk_shutdown sk = true \/ sk_ready_requests sk <> [] \/ sk_ready_responses sk <> []).
Proof.
  intros Hs. unfold homa_poll. step. eexists. split; [reflexivity |].
  case_bool_decide as E; destruct (sk_shutdown sk); simpl; split; try done; split; try done; tauto.
Qed.

(** Once a socket is shut down its buffer pool is gone: releasing buffers, as
    every [recvmsg] with a legal control block does, and the options that
    concern the pool dereference a null pointer. *)
Lemma recv_release_no_pool hsk sk w c :
  w_socks w !! hsk = Some sk -> sk_has_pool sk = false -> recv_release hsk c w = Fault BadPointer.
Proof. intros Hs Hp. unfold recv_release. step. by rewrite Hp. Qed.

Lemma recvmsg_after_shutdown others pending env junk core hsk i rounds fuel c flags back sk w :
  w_socks w !! hsk = Some sk -> sk_has_pool sk = false ->
  rm_num_bpages c <= HOMA_MAX_BPAGES -> Z.ldiff (rm_flags c) HOMA_RECVMSG_VALID_FLAGS = 0 ->
  homa_recvmsg others pending env junk core hsk i rounds fuel (Some c) true back flags w = Fault BadPointer.
Proof.
  intros Hs Hp Hb Hf. unfold homa_recvmsg. erewrite bind_eq by reflexivity. cbn [negb].
  destruct (Z.gtb_spec (rm_num_bpages (c <| rm_cookie := 0 |>)) HOMA_MAX_BPAGES) as [H | _]; [simpl in H; lia |].
  change (rm_flags (c <| rm_cookie := 0 |>)) with (rm_flags c). rewrite Hf. cbn [orb negb Z.eqb]. unfold bind at 1.
  match goal with |- context [recv_release hsk ?c ?w] => by rewrite (recv_release_no_pool hsk sk w c Hs Hp) end.
Qed.
