(* ===== verification/Receiver.v ===== *)
(** * The user-level library (homa_api.c, homa_receiver.cc, homa_receiver.h)

    The functions of the API are system calls with the right arguments; the
    class [receiver] returns the buffers of messages and finds the bytes of a
    message in them.  The theorem about [copy_out] continues the one about
    [homa_copy_to_user]: it starts from what the kernel has left in the buffers. *)
From S2P Require Import Prelude Lists Wire Types Example Control Peer Pool Grant PoolWait Outgoing Sock Handoff Rpc RpcFree Copy Incoming Syscall.

(** ** The API *)

(** The system call interface: a negative result becomes -1 and [errno]. *)
Definition libc (r : Z) : Z * Z := if r <? 0 then (-1, - r) else (r, 0).

(** What the host provides for a [sendmsg]. *)
Record send_host := { so_peer : peer_env; so_rpc : option (ptr * homa_rpc); so_tx : tx_env; so_mtu : Z; so_gso : Z }.

(** [sendmsg]: the control block is on the caller's stack, and the kernel can
    read and write it.  The result is that of [libc], with the control block
    after the call. *)
Definition sendmsg (core : Z) (sockfd : ptr) (host : send_host) (name : option sockaddr) (namelen : Z) (data : list Z)
    (args : homa_sendmsg_args) : M (Z * Z * homa_sendmsg_args) :=
  let* r := homa_sendmsg core sockfd (Build_send_msg name namelen true (Some args) data true
    (so_peer host) (so_rpc host) (so_tx host) (so_mtu host) (so_gso host)) in
  ret (libc r.1, match r.2 with Some id => Build_homa_sendmsg_args id (sm_cookie args) | None => args end).

Definition homa_reply (core : Z) (sockfd : ptr) (host : send_host) (message : list Z) (dest_addr : option sockaddr) (addrlen id : Z) : M (Z * Z) :=
  let* r := sendmsg core sockfd host dest_addr addrlen message (Build_homa_sendmsg_args id 0) in
  ret r.1.

(** The chunks [iov] are read one after the other. *)
Definition homa_replyv (core : Z) (sockfd : ptr) (host : send_host) (iov : list (list Z)) (dest_addr : option sockaddr) (addrlen id : Z) : M (Z * Z) :=
  let* r := sendmsg core sockfd host dest_addr addrlen (concat iov) (Build_homa_sendmsg_args id 0) in
  ret r.1.

(** [want_id]: the argument [id] is not null; the last result is what is stored
    there. *)
Definition homa_send (core : Z) (sockfd : ptr) (host : send_host) (message : list Z) (dest_addr : option sockaddr) (addrlen : Z)
    (want_id : bool) (completion_cookie : Z) : M (Z * Z * option Z) :=
  let* r := sendmsg core sockfd host dest_addr addrlen message (Build_homa_sendmsg_args 0 completion_cookie) in
  ret (r.1, if (r.1.1 >=? 0) && want_id then Some (sm_id r.2) else None).

Definition homa_sendv (core : Z) (sockfd : ptr) (host : send_host) (iov : list (list Z)) (dest_addr : option sockaddr) (addrlen : Z)
    (want_id : bool) (completion_cookie : Z) : M (Z * Z * option Z) :=
  let* r := sendmsg core sockfd host dest_addr addrlen (concat iov) (Build_homa_sendmsg_args 0 completion_cookie) in
  ret (r.1, if (r.1.1 >=? 0) && want_id then Some (sm_id r.2) else None).

Definition homa_abort (sockfd : ptr) (id error : Z) : M (Z * Z) :=
  let* r := homa_ioctl sockfd HOMAIOCABORT (Some (Build_homa_abort_args id error 0 (0, 0))) in
  ret (libc r).

Definition homa_reply_connected (core : Z) (sockfd : ptr) (host : send_host) (message : list Z) (id : Z) : M (Z * Z) :=
  let* r := sendmsg core sockfd host None 0 message (Build_homa_sendmsg_args id 0) in
  ret r.1.

Definition homa_send_connected (core : Z) (sockfd : ptr) (host : send_host) (message : list Z) : M (Z * Z) :=
  let* r := sendmsg core sockfd host None 0 message (Build_homa_sendmsg_args 0 0) in
  ret r.1.

(** [homa_peeloff]: the other arguments are those of [homa_getsockopt]. *)
Definition homa_peeloff (fuel : nat) (junk core : Z) (sockfd : ptr) (client_addr : sockaddr) (addrlen : Z) (same_ns : bool)
    (mem : Z + (ptr * homa_sock)) (pool1 pool2 : bool) (fd file : Z) : M (Z * Z) :=
  let* r := homa_getsockopt fuel junk core sockfd IPPROTO_HOMA SO_HOMA_PEELOFF (Some addrlen) true true
    (Some (client_addr, addrlen)) same_ns mem pool1 pool2 fd file in
  ret (libc r.1).

(** ** The class [receiver] *)
Definition sizeof_recvmsg_args : Z := 88.
Record receiver := {
  rc_fd : ptr; rc_controllen : Z; rc_control : homa_recvmsg_args; rc_source : option sockaddr;
  rc_msg_length : Z; rc_buf_region : Z
}.
#[export] Instance eta_receiver : Eta receiver := fun r =>
  Build_receiver (rc_fd r) (rc_controllen r) (rc_control r) (rc_source r) (rc_msg_length r) (rc_buf_region r).

Definition new_receiver (fd : ptr) (buf_region : Z) : receiver :=
  Build_receiver fd sizeof_recvmsg_args (Build_homa_recvmsg_args 0 0 0 0 (replicate (Z.to_nat HOMA_MAX_BPAGES) 0)) None (-1) buf_region.

(** A [size_t] as a [ssize_t]. *)
Definition s64 (n : Z) : Z := let m := u64 n in if m <? 2 ^ 63 then m else m - 2 ^ 64.

Definition contiguous (r : receiver) (offset : Z) : Z :=
  if s64 offset >=? rc_msg_length r then 0
  else if Z.shiftr offset HOMA_BPAGE_SHIFT =? u32 (rm_num_bpages (rc_control r) - 1) then u64 (rc_msg_length r - offset)
  else HOMA_BPAGE_SIZE - Z.land offset (HOMA_BPAGE_SIZE - 1).

(** [get] without storage: the address, or [None] for a null pointer. *)
Definition get_ptr (r : receiver) (offset size : Z) : result (option Z) :=
  let buf_num := s32 (Z.shiftr offset HOMA_BPAGE_SHIFT) in
  if s64 (offset + size) >? rc_msg_length r then Ok None
  else if contiguous r offset >=? size then
    let! o := arr (rm_offsets (rc_control r)) buf_num in
    Ok (Some (rc_buf_region r + o + Z.land offset (HOMA_BPAGE_SIZE - 1)))
  else Ok None.

Definition memcpy (mem : Z -> Z) (dest src n : Z) : Z -> Z :=
  fun a => if (dest <=? a) && (a <? dest + n) then mem (src + (a - dest)) else mem a.

Fixpoint copy_out_loop (fuel : nat) (r : receiver) (mem : Z -> Z) (cdest offset limit : Z) : result (Z -> Z) :=
  if s64 offset <? limit then
    match fuel with
    | O => Fault OutOfFuel
    | S fuel =>
        let chunk_size := contiguous r offset in
        let! src := get_ptr r offset 1 in
        let! src := get BadPointer src in
        copy_out_loop fuel r (memcpy mem cdest src chunk_size) (cdest + chunk_size) (u64 (offset + chunk_size)) limit
    end
  else Ok mem.

Definition copy_out (r : receiver) (mem : Z -> Z) (dest offset count : Z) : result (Z -> Z) :=
  let limit := s64 (offset + count) in
  let limit := if limit >? rc_msg_length r then rc_msg_length r else limit in
  copy_out_loop (Z.to_nat (limit - offset)) r mem dest offset limit.

(** [get] with storage at an address, or null. *)
Definition get_obj (r : receiver) (mem : Z -> Z) (offset size : Z) (storage : option Z) : result (option Z * (Z -> Z)) :=
  let! p := get_ptr r offset size in
  match p, storage with
  | None, Some a =>
      if s64 (offset + size) >? rc_msg_length r then Ok (None, mem) else
      let! mem := copy_out r mem a offset size in
      Ok (Some a, mem)
  | _, _ => Ok (p, mem)
  end.

Definition receiver_id (r : receiver) : Z := rm_id (rc_control r).
Definition is_request (r : receiver) : bool := negb (Z.land (rm_id (rc_control r)) 1 =? 0).
Definition receiver_length (r : receiver) : Z := rc_msg_length r.
Definition receiver_cookie (r : receiver) : Z := rm_cookie (rc_control r).
Definition src_addr (r : receiver) : option sockaddr := rc_source r.

Section calls.
Context (others : M unit) (pending : world -> bool) (env : copy_env) (junk core : Z) (i : ptr) (rounds fuel : nat).

(** [recvmsg] with the receiver's [hdr].  [after] is the [msg_controllen] that
    the host stores after a successful call. *)
Definition recvmsg (after : Z) (r : receiver) : M (Z * receiver) :=
  let* res := homa_recvmsg others pending env junk core (rc_fd r) i rounds fuel (Some (rc_control r))
    (rc_controllen r =? sizeof_recvmsg_args) true 0 in
  let '(result_, control, from) := res in
  let r := r <| rc_control := default (rc_control r) control |> <| rc_source := if from is Some _ then from else rc_source r |> in
  let r := if result_ <? 0 then r else r <| rc_controllen := after |> in
  ret ((libc result_).1, r).

Definition receive (after : Z) (r : receiver) (flags id : Z) : M (Z * receiver) :=
  let r := r <| rc_control ::= fun c => c <| rm_flags := u32 flags |> <| rm_id := id |> |> <| rc_controllen := sizeof_recvmsg_args |> in
  let* res := recvmsg after r in
  let r := res.2 <| rc_msg_length := res.1 |> in
  ret (res.1, if res.1 <? 0 then r <| rc_control ::= fun c => c <| rm_num_bpages := 0 |> |> else r).

Definition release (after : Z) (r : receiver) : M receiver :=
  if rm_num_bpages (rc_control r) =? 0 then ret r else
  let r := r <| rc_control ::= fun c => c <| rm_flags := HOMA_RECVMSG_NONBLOCKING |> <| rm_id := 0 |> |> in
  let* res := recvmsg after r in
  ret (res.2 <| rc_control ::= fun c => c <| rm_num_bpages := 0 |> |> <| rc_msg_length := -1 |>).

(** The destructor. *)
Definition delete_receiver (after : Z) (r : receiver) : M unit :=
  let* _ := release after r in
  ret tt.
End calls.

(** ** Finding the bytes of a message *)

(** The receiver has the message that the kernel describes by [mi]. *)
Definition current (r : receiver) (mi : homa_message_in) (bufs : list buf) : Prop :=
  rc_msg_length r = mi_length mi /\ rm_num_bpages (rc_control r) = mi_num_bpages mi /\
  rm_offsets (rc_control r) = mi_bpage_offsets mi /\ holds mi bufs /\ message_bufs (mi_length mi) bufs /\
  mi_length mi <= HOMA_MAX_MESSAGE_LENGTH.

Lemma s64_id n : 0 <= n < 2 ^ 63 -> s64 n = n.
Proof. intros H. unfold s64, u64. rewrite Z.mod_small by lia. destruct (Z.ltb_spec n (2 ^ 63)); lia. Qed.

(** The end of the buffer that has byte [off]. *)
Definition chunk_end (len off : Z) : Z := Z.min len (HOMA_BPAGE_SIZE * (Z.shiftr off HOMA_BPAGE_SHIFT + 1)).

(** [contiguous] and [get] agree with [homa_pool_get_buffer]. *)
Lemma get_ptr_spec r mi bufs off : current r mi bufs -> 0 <= off < mi_length mi ->
  exists a, homa_pool_get_buffer (rc_buf_region r) mi off = Ok (a, contiguous r off) /\ get_ptr r off 1 = Ok (Some a) /\
    a = place (rc_buf_region r) bufs off /\ contiguous r off = chunk_end (mi_length mi) off - off /\ off < chunk_end (mi_length mi) off.
Proof.
  intros (El & En & Eo & Hh & Hb & Hm) Hoff. unfold HOMA_MAX_MESSAGE_LENGTH in *.
  destruct (get_buffer_spec (rc_buf_region r) mi bufs off Hh Hb Hoff Hm) as (b & Hlk & Ho & E).
  pose proof (length_split off) as [H1 H2]. pose proof (length_split (mi_length mi)) as [H3 H4].
  destruct Hb as [Hn Hsz]. pose proof (Hsz _ _ Hlk) as Hb2. rewrite pages_for in Hn. destruct Hh as (Hnum & Hlen & Hoffs).
  set (k := Z.shiftr off HOMA_BPAGE_SHIFT) in *. assert (0 <= k < 16) as Hk by (rewrite HOMA_BPAGE_SIZE_eq in *; lia).
  pose proof (lookup_lt_Some _ _ _ Hlk) as Hlt. set (o := Z.land off (HOMA_BPAGE_SIZE - 1)) in *.
  assert (HOMA_BPAGE_SIZE * (Z.of_nat (length bufs) - 1) < mi_length mi <= HOMA_BPAGE_SIZE * Z.of_nat (length bufs)) as Hpages
    by (clear -Hn H3 H4 Hoff; destruct (Z.eqb_spec (Z.land (mi_length mi) (HOMA_BPAGE_SIZE - 1)) 0); rewrite HOMA_BPAGE_SIZE_eq in *; lia).
  assert (Z.of_nat (length bufs) <= 16) as H16 by (rewrite HOMA_BPAGE_SIZE_eq in Hpages; lia).
  assert (contiguous r off = b.2 - o) as Ec.
  { unfold contiguous. fold k o. rewrite s64_id, El, En, Hnum by lia. destruct (Z.geb_spec off (mi_length mi)); [lia |].
    assert (u32 (Z.of_nat (length bufs) - 1) = Z.of_nat (length bufs) - 1) as -> by (unfold u32; rewrite Z.mod_small; lia).
    rewrite Z2Nat.id in Hb2 by lia. destruct (Z.eqb_spec k (Z.of_nat (length bufs) - 1)).
    - unfold u64. rewrite Z.mod_small by lia. rewrite HOMA_BPAGE_SIZE_eq in *. lia.
    - rewrite HOMA_BPAGE_SIZE_eq in *. lia. }
  rewrite Z2Nat.id in Hb2 by lia. exists (rc_buf_region r + b.1 + o). rewrite Ec. split_ands.
  - exact E.
  - unfold get_ptr. fold k o. rewrite s64_id, El, Ec by lia. destruct (Z.gtb_spec (off + 1) (mi_length mi)); [lia |].
    destruct (Z.geb_spec (b.2 - o) 1); [|lia]. rewrite s32_id by (unfold is_int, INT_MIN, INT_MAX; lia). rewrite Eo.
    rewrite (proj2 (arr_Ok _ k b.1)); [done |]. split; [lia | by apply Hoffs].
  - unfold place. fold k. by rewrite Hlk.
  - unfold chunk_end. fold k. rewrite HOMA_BPAGE_SIZE_eq in *. lia.
  - unfold chunk_end. fold k. rewrite HOMA_BPAGE_SIZE_eq in *. lia.
Qed.

(** The memory has the message where [homa_pool_get_buffer] says. *)
Definition delivered (r : receiver) (mi : homa_message_in) (msg : list Z) (mem : Z -> Z) : Prop :=
  Z.of_nat (length msg) = mi_length mi /\
  forall b, 0 <= b < mi_length mi -> exists a n, homa_pool_get_buffer (rc_buf_region r) mi b = Ok (a, n) /\ msg !! Z.to_nat b = Some (mem a).

(** Where a copy of the bytes from [off] to [limit] really ends. *)
Definition copy_end (len off limit : Z) : Z := if limit <=? off then off else chunk_end len (limit - 1).

Lemma chunk_end_same len x y : 0 <= x <= y -> y < chunk_end len x -> chunk_end len y = chunk_end len x.
Proof.
  intros Hxy. unfold chunk_end. pose proof (length_split x) as [H1 H2]. pose proof (length_split y) as [H3 H4].
  set (k := Z.shiftr x HOMA_BPAGE_SHIFT) in *. set (k' := Z.shiftr y HOMA_BPAGE_SHIFT) in *. rewrite HOMA_BPAGE_SIZE_eq in *.
  intros Hlt. assert (k = k') as -> by lia. done.
Qed.

Lemma chunk_end_mono len x y : x <= y -> chunk_end len x <= chunk_end len y.
Proof.
  intros Hxy. unfold chunk_end. pose proof (length_split x) as [H1 H2]. pose proof (length_split y) as [H3 H4].
  set (k := Z.shiftr x HOMA_BPAGE_SHIFT) in *. set (k' := Z.shiftr y HOMA_BPAGE_SHIFT) in *. rewrite HOMA_BPAGE_SIZE_eq in *. lia.
Qed.

Lemma copy_end_step len off limit : 0 <= off < limit -> limit <= len -> off < chunk_end len off ->
  copy_end len (chunk_end len off) limit = copy_end len off limit /\ chunk_end len off <= copy_end len off limit.
Proof.
  intros Ho Hl Hc. unfold copy_end. destruct (Z.leb_spec limit off); [lia |].
  destruct (Z.leb_spec limit (chunk_end len off)).
  - rewrite (chunk_end_same len off (limit - 1)) by lia. lia.
  - split; [done |]. apply chunk_end_mono. lia.
Qed.

Lemma place_chunk r mi bufs off i : current r mi bufs -> 0 <= off < mi_length mi -> 0 <= i < contiguous r off ->
  place (rc_buf_region r) bufs (off + i) = place (rc_buf_region r) bufs off + i.
Proof.
  intros Hc Hoff Hi. destruct (get_ptr_spec r mi bufs off Hc Hoff) as (a & G & _). pose proof Hc as (_ & _ & _ & Hh & Hb & Hm).
  destruct (place_get (rc_buf_region r) mi bufs Hh Hb Hm off Hoff) as (n & _ & G' & Hp). rewrite G in G'. injection G' as _ En.
  apply Hp. lia.
Qed.

Lemma delivered_place r mi bufs msg mem b : current r mi bufs -> delivered r mi msg mem -> 0 <= b < mi_length mi ->
  msg !! Z.to_nat b = Some (mem (place (rc_buf_region r) bufs b)).
Proof.
  intros Hc [_ Hd] Hb. destruct (Hd b Hb) as (a & n & G & ->). destruct (get_ptr_spec r mi bufs b Hc Hb) as (a' & G' & _ & -> & _).
  rewrite G in G'. injection G' as -> _. done.
Qed.

(** No byte of the message is in the destination. *)
Definition apart (r : receiver) (mi : homa_message_in) (dest n : Z) : Prop :=
  forall b a k, 0 <= b < mi_length mi -> homa_pool_get_buffer (rc_buf_region r) mi b = Ok (a, k) -> ~ (dest <= a < dest + n).

Lemma copy_out_loop_spec r mi bufs msg limit : current r mi bufs -> limit <= mi_length mi -> forall fuel mem dest off,
  delivered r mi msg mem -> 0 <= off -> (Z.to_nat (limit - off) <= fuel)%nat ->
  apart r mi dest (copy_end (mi_length mi) off limit - off) -> off <= mi_length mi ->
  exists mem', copy_out_loop fuel r mem dest off limit = Ok mem' /\
    (forall i, 0 <= i < copy_end (mi_length mi) off limit - off -> msg !! Z.to_nat (off + i) = Some (mem' (dest + i))) /\
    (forall a, ~ (dest <= a < dest + (copy_end (mi_length mi) off limit - off)) -> mem' a = mem a).
Proof.
  intros Hc Hlim. pose proof Hc as (_ & _ & _ & _ & _ & Hmax). unfold HOMA_MAX_MESSAGE_LENGTH in Hmax.
  induction fuel as [|fuel IH]; intros mem dest off Hd Ho Hf Ha Hle; cbn [copy_out_loop]; rewrite s64_id by lia;
    destruct (Z.ltb_spec off limit) as [Hlt | Hge]; try lia;
    [exists mem; unfold copy_end; destruct (Z.leb_spec limit off); [|lia]; split_ands; try done; intros; lia | |
     exists mem; unfold copy_end; destruct (Z.leb_spec limit off); [|lia]; split_ands; try done; intros; lia].
  destruct (get_ptr_spec r mi bufs off Hc ltac:(lia)) as (a & G & -> & Ea & Ec & Hce). cbn [result_bind get].
  set (n := contiguous r off) in *. set (e := chunk_end (mi_length mi) off) in *.
  assert (e <= mi_length mi) as Hel by (unfold e, chunk_end; lia).
  destruct (copy_end_step (mi_length mi) off limit ltac:(lia) Hlim Hce) as [Es Hes]. fold e in Es, Hes.
  assert (forall b, 0 <= b < mi_length mi -> ~ (dest <= place (rc_buf_region r) bufs b < dest + (copy_end (mi_length mi) off limit - off))) as Hap.
  { intros b Hb. destruct (get_ptr_spec r mi bufs b Hc Hb) as (a' & G' & _ & -> & _). by apply (Ha b _ _ Hb G'). }
  assert (u64 (off + n) = e) as -> by (unfold u64; rewrite Z.mod_small by lia; lia).
  set (mem1 := memcpy mem dest a n).
  assert (forall b, 0 <= b < mi_length mi -> mem1 (place (rc_buf_region r) bufs b) = mem (place (rc_buf_region r) bufs b)) as Hsame.
  { intros b Hb. specialize (Hap b Hb). unfold mem1, memcpy. zb; done || lia. }
  destruct (IH mem1 (dest + n) e) as (mem' & E & Hin & Hout); try lia.
  { destruct Hd as [Hl Hd]. split; [done |]. intros b Hb. destruct (Hd b Hb) as (x & k & Gx & Hx). exists x, k. split; [done |].
    destruct (get_ptr_spec r mi bufs b Hc Hb) as (a' & G' & _ & -> & _). rewrite Gx in G'. injection G' as -> _. by rewrite Hsame. }
  { rewrite Es. intros b x k Hb Gx. specialize (Ha b x k Hb Gx). lia. }
  rewrite Es in Hin, Hout. exists mem'. split; [exact E |]. split.
  - intros i Hi. destruct (decide (i < n)) as [Hin1 | Hin1].
    + rewrite Hout by lia. unfold mem1, memcpy. destruct (Z.leb_spec dest (dest + i)); [|lia].
      destruct (Z.ltb_spec (dest + i) (dest + n)); [|lia]. cbn [andb]. replace (dest + i - dest) with i by lia.
      rewrite Ea, <- (place_chunk r mi bufs off i) by (try done; lia). apply (delivered_place r mi bufs); try done. lia.
    + replace (off + i) with (e + (i - n)) by lia. rewrite Hin by lia. do 2 f_equal. lia.
  - intros x Hx. rewrite Hout by lia. unfold mem1, memcpy. zb; done || lia.
Qed.


Definition ex_recv_mi : homa_message_in := (example_mi 30) <| mi_num_bpages := 1 |>.
Definition ex_receiver : receiver :=
  (new_receiver 1%positive 4096) <| rc_msg_length := 30 |>
    <| rc_control ::= fun c => c <| rm_num_bpages := 1 |> <| rm_offsets := mi_bpage_offsets ex_recv_mi |> |>.
Definition ex_user_mem : Z -> Z := fun a => if (4096 <=? a) && (a <? 4096 + 30) then a - 4096 + 100 else 0.

Lemma ex_current : current ex_receiver ex_recv_mi [(0, 30)].
Proof.
  unfold current, holds, message_bufs. split_ands; try reflexivity; [| |vm_compute; discriminate];
    (intros [|k] b Hb; [|discriminate Hb]; injection Hb as <-; reflexivity).
Qed.

Lemma ex_buffer b : 0 <= b < 30 -> exists n, homa_pool_get_buffer 4096 ex_recv_mi b = Ok (4096 + b, n).
Proof.
  intros Hb. destruct (get_ptr_spec ex_receiver ex_recv_mi [(0, 30)] b ex_current Hb) as (a & G & _ & -> & _).
  exists (contiguous ex_receiver b). change (rc_buf_region ex_receiver) with 4096 in G. rewrite G. do 2 f_equal.
  pose proof (length_split b) as [H1 H2]. unfold place. rewrite HOMA_BPAGE_SIZE_eq in *.
  assert (Z.shiftr b HOMA_BPAGE_SHIFT = 0) as E by lia. rewrite E in *. simpl. lia.
Qed.


(** ** Buffers that are not returned *)

(** An RPC that failed after its message had got buffers passes them to the
    application together with the error. *)
Lemma failed_rpc_pages hsk p c w rpc res c' from w' :
  w_rpcs w !! p = Some rpc -> rpc_error rpc < 0 -> 0 <= mi_length (rpc_msgin rpc) ->
  recv_rpc hsk p c w = Ok ((res, c', from), w') ->
  res = rpc_error rpc /\ rm_num_bpages c' = mi_num_bpages (rpc_msgin rpc) /\ rm_offsets c' = mi_bpage_offsets (rpc_msgin rpc).
Proof.
  intros Hp He Hl H. unfold recv_rpc in H. rewrite (bind_eq _ _ _ _ _ (get_rpc_eq _ _ _ Hp)) in H.
  apply bind_Ok in H as (sk & w1 & _ & H). apply bind_Ok in H as (pe & w2 & _ & H). apply bind_Ok in H as (u & w3 & _ & H).
  apply bind_Ok in H as (u' & w4 & _ & H). unfold ret in H. injection H as <- <- _ _.
  destruct (Z.eqb_spec (rpc_error rpc) 0); [lia |]. destruct (Z.geb_spec (mi_length (rpc_msgin rpc)) 0); [|lia]. done.
Qed.

(** [receive] forgets the buffers of the control block whenever it fails, also
    those of such an RPC: nothing returns them to the pool. *)
Lemma receive_forgets others pending env junk core i rounds fuel after r flags id w res r' w' :
  receive others pending env junk core i rounds fuel after r flags id w = Ok ((res, r'), w') ->
  res < 0 -> rm_num_bpages (rc_control r') = 0.
Proof.
  intros H Hr. unfold receive in H. apply bind_Ok in H as ([n r1] & w1 & _ & H). unfold ret in H. cbn [fst snd] in H.
  injection H as <- <- _. by rewrite (proj2 (Z.ltb_lt _ _) Hr).
Qed.

(** If the host has changed [msg_controllen], [release] fails and forgets the
    buffers that it should return. *)
Lemma release_fails others pending env junk core i rounds fuel after r w :
  rm_num_bpages (rc_control r) <> 0 -> rc_controllen r <> sizeof_recvmsg_args ->
  exists r' w', release others pending env junk core i rounds fuel after r w = Ok (r', w') /\
    rm_num_bpages (rc_control r') = 0 /\ w_socks w' = w_socks w.
Proof.
  intros Hn Hl. unfold release. destruct (Z.eqb_spec (rm_num_bpages (rc_control r)) 0); [done |].
  unfold recvmsg, homa_recvmsg. cbn [rc_controllen]. 
  match goal with |- context [rc_controllen ?x =? _] => change (rc_controllen x) with (rc_controllen r) end.
  destruct (Z.eqb_spec (rc_controllen r) sizeof_recvmsg_args); [done |]. cbn [negb].
  eexists _, _. split; [reflexivity |]. done.
Qed.

(** ** Sending *)

(** A request by [homa_send] becomes a new RPC, whose id is stored for the
    caller. *)
Lemma homa_send_spec core hsk sk host message dest addrlen addr cookie p mem q w :
  let msg := Build_send_msg dest addrlen true (Some (Build_homa_sendmsg_args 0 cookie)) message true
    (so_peer host) (so_rpc host) (so_tx host) (so_mtu host) (so_gso host) in
  destination sk msg addr -> send_ready hsk sk msg addr q w -> so_rpc host = Some (p, mem) ->
  let id := h_next_outgoing_id (w_homa w) in
  exists w' rpc, homa_send core hsk host message dest addrlen true cookie w = Ok ((0, 0, Some id), w') /\
    w_rpcs w' !! p = Some rpc /\ rpc_id rpc = id /\ rpc_completion_cookie rpc = cookie /\ rpc_dport rpc = sa_port addr.
Proof.
  intros msg Hd Hs Hm id.
  destruct (sendmsg_request_spec core hsk sk msg addr (Build_homa_sendmsg_args 0 cookie) p mem q w) as (w' & rpc & g & E & H1 & H2 & _ & _ & _ & H3 & H4 & _);
    try done.
  exists w', rpc. split_ands; try done. unfold homa_send, sendmsg. fold msg.
  rewrite (bind_eq _ _ _ _ _ (bind_eq _ _ _ _ _ E)). done.
Qed.
