(* ===== verification/Timer.v ===== *)
(** * Timers (homa_timer.c)

    Retransmission requests, requests for acks and timeouts. *)
From S2P Require Import Prelude Lists Wire Types Example Control Reassembly Pool Grant PoolWait Outgoing Sock Handoff Rpc.

(** ** The code *)
Definition send_resend (p : ptr) (r : resend_req) : M unit :=
  homa_xmit_control RESEND (fun c =>
    PResend (Build_homa_resend_hdr c (rs_offset r) (rs_length r) (u8 (rs_priority r)))) p.

(** The first part of [homa_check_rpc]: the request for an ack. *)
Definition check_ack (p : ptr) : M unit :=
  let* rpc := get_rpc p in
  let* h := get_homa in
  if negb (homa_is_client (rpc_id rpc)) && bool_decide (rpc_state_ rpc = RPC_OUTGOING) &&
     (mo_next_xmit_offset (rpc_msgout rpc) >=? mo_length (rpc_msgout rpc)) then
    if rpc_done_timer_ticks rpc =? 0
    then upd_rpc p (fun r => r <| rpc_done_timer_ticks := h_timer_ticks h |>)
    else if Z.testbit (u32 (rpc_done_timer_ticks rpc + h_request_ack_ticks h - 1 - h_timer_ticks h)) 31
    then homa_xmit_control NEED_ACK PNeedAck p
    else ret tt
  else ret tt.

(** Whether it is our turn to act, so that silence of the peer means nothing. *)
Definition not_waiting (rpc : homa_rpc) : bool :=
  let mi := rpc_msgin rpc in
  if bool_decide (rpc_state_ rpc = RPC_INCOMING)
  then (mi_length mi - mi_bytes_remaining mi >=? mi_granted mi) || (mi_num_bpages mi =? 0)
  else if negb (homa_is_client (rpc_id rpc)) then true
  else bool_decide (rpc_state_ rpc = RPC_OUTGOING) &&
       (mo_next_xmit_offset (rpc_msgout rpc) <? mo_granted (rpc_msgout rpc)).

(** The RESENDs for what is missing. *)
Definition resends (h : homa) (mi : homa_message_in) : list resend_req :=
  if mi_length mi <? 0 then [Build_resend_req 0 100 (h_num_priorities h - 1)]
  else homa_gap_retry (h_num_priorities h) mi ++
    (if u32 (mi_granted mi - mi_recv_end mi) =? 0 then []
     else [Build_resend_req (u32 (mi_recv_end mi)) (u32 (mi_granted mi - mi_recv_end mi))
             (h_num_priorities h - 1)]).

Definition homa_check_rpc (p : ptr) : M unit :=
  check_ack p ;;;
  let* rpc := get_rpc p in
  let* h := get_homa in
  if not_waiting rpc then upd_rpc p (fun r => r <| rpc_silent_ticks := 0 |>)
  else if rpc_silent_ticks rpc <? h_resend_ticks h then ret tt
  else if rpc_silent_ticks rpc >=? h_timeout_ticks h then homa_rpc_abort p (- ETIMEDOUT)
  else if h_resend_interval h =? 0 then raise DivByZero
  else if negb (Z.rem (rpc_silent_ticks rpc - h_resend_ticks h) (h_resend_interval h) =? 0) then ret tt
  else mapM_ (send_resend p) (resends h (rpc_msgin rpc)).

(** One RPC in a pass of the timer. *)
Definition timer_rpc (p : ptr) : M unit :=
  let* rpc := get_rpc p in
  if bool_decide (rpc_state_ rpc = RPC_IN_SERVICE)
  then upd_rpc p (fun r => r <| rpc_silent_ticks := 0 |>)
  else (upd_rpc p (fun r => r <| rpc_silent_ticks ::= fun n => s32 (n + 1) |>) ;;; homa_check_rpc p).

(** [while (hsk->dead_skbs >= homa->dead_buffs_limit) ...] *)
Fixpoint timer_reap (fuel : nat) (junk core : Z) (hsk : ptr) : M unit :=
  let* sk := get_sock hsk in
  let* h := get_homa in
  if negb (sk_dead_skbs sk >=? h_dead_buffs_limit h) then ret tt else
  match fuel with
  | O => raise OutOfFuel
  | S fuel =>
      let* res := homa_rpc_reap junk core hsk (h_reap_limit h) in
      if res =? 0 then ret tt else timer_reap fuel junk core hsk
  end.

Definition timer_sock (fuel : nat) (junk core : Z) (hsk : ptr) : M unit :=
  timer_reap fuel junk core hsk ;;;
  let* sk := get_sock hsk in
  if bool_decide (sk_active_rpcs sk = []) || sk_shutdown sk then ret tt else
  let* ok := homa_protect_rpcs hsk in
  if negb ok then ret tt else
  (mapM_ timer_rpc (sk_active_rpcs sk) ;;; homa_unprotect_rpcs hsk).

(** [homa_timer]; [s] is the scan. *)
Definition homa_timer (s : ptr) (fuel : nat) (junk core : Z) : M unit :=
  upd_homa (fun h => h <| h_timer_ticks ::= fun n => u32 (n + 1) |>) ;;;
  for_each_sock s (timer_sock fuel junk core).

(** ** Requests for missing data *)
Definition resend_packet (s : homa_common_hdr) (sk : homa_sock) (rpc : homa_rpc) (r : resend_req)
    : ptr * homa_packet :=
  (rpc_peer rpc, PResend (Build_homa_resend_hdr (control_hdr RESEND s sk rpc)
    (rs_offset r) (rs_length r) (u8 (rs_priority r)))).

Lemma send_resends_exec p rpc sk l : forall w,
  w_rpcs w !! p = Some rpc -> w_socks w !! rpc_hsk rpc = Some sk ->
  mapM_ (send_resend p) l w =
    Ok (tt, w <| w_sent ::= fun k => k ++ map (resend_packet (w_stack w) sk rpc) l |>).
Proof.
  induction l as [|r l IH]; intros w Hp Hs; simpl.
  - unfold ret. do 2 f_equal. destruct w. simpl. by rewrite app_nil_r.
  - erewrite bind_eq by (by eapply xmit_control_exec). rewrite IH by done. simpl. do 3 f_equal. by rewrite <- app_assoc.
Qed.

(** [b] is in the range of the request. *)
Definition requests (b : Z) (r : resend_req) : bool :=
  (rs_offset r <=? b) && (b <? rs_offset r + rs_length r).

Lemma resends_cover h mi b :
  msgin_inv mi -> mi_recv_end mi <= mi_granted mi <= INT_MAX ->
  existsb (requests b) (resends h mi) = (0 <=? b) && (b <? mi_granted mi) && negb (received mi b).
Proof.
  intros Hi Hg. pose proof (msgin_inv_bounds _ Hi) as (Hr & _). pose proof Hi as [Hl _]. unfold resends.
  destruct (Z.ltb_spec (mi_length mi) 0); [lia |]. rewrite existsb_app.
  pose proof (gap_retry_spec (h_num_priorities h) mi b Hi) as Hgap. unfold requests at 1. rewrite Hgap.
  unfold INT_MAX in *. rewrite u32_id by (unfold is_u32; lia).
  assert (received mi b = true -> b < mi_recv_end mi) as Hrec by (unfold received; lia).
  destruct (Z.eqb_spec (mi_granted mi - mi_recv_end mi) 0); simpl; [|unfold requests; simpl; rewrite u32_id by (unfold is_u32; lia)];
    destruct (received mi b); try specialize (Hrec eq_refl); lia.
Qed.

(** No ack is requested for an incoming message or for a client RPC. *)
Lemma check_ack_skip p w rpc :
  w_rpcs w !! p = Some rpc -> homa_is_client (rpc_id rpc) = true \/ rpc_state_ rpc <> RPC_OUTGOING ->
  check_ack p w = Ok (tt, w).
Proof.
  intros Hp Hc. unfold check_ack. step. step. destruct Hc as [-> | Hc]; [done |].
  rewrite (bool_decide_false _ Hc), andb_false_r. done.
Qed.

(** The timer asks for exactly what is missing.  When the time for a
    retry has come for an incoming message that has buffers and some granted
    byte of which has not arrived, [homa_check_rpc] sends RESENDs and changes
    nothing else.  A byte of the message lies in the range of one of them
    exactly when it has been granted and has not been received. *)
Theorem check_rpc_requests_missing p w rpc sk :
  w_rpcs w !! p = Some rpc -> w_socks w !! rpc_hsk rpc = Some sk ->
  rpc_state_ rpc = RPC_INCOMING -> msgin_inv (rpc_msgin rpc) ->
  mi_num_bpages (rpc_msgin rpc) <> 0 ->
  mi_recv_end (rpc_msgin rpc) <= mi_granted (rpc_msgin rpc) <= INT_MAX ->
  mi_length (rpc_msgin rpc) - mi_bytes_remaining (rpc_msgin rpc) < mi_granted (rpc_msgin rpc) ->
  h_resend_ticks (w_homa w) <= rpc_silent_ticks rpc < h_timeout_ticks (w_homa w) ->
  h_resend_interval (w_homa w) <> 0 ->
  Z.rem (rpc_silent_ticks rpc - h_resend_ticks (w_homa w)) (h_resend_interval (w_homa w)) = 0 ->
  exists l, homa_check_rpc p w = Ok (tt, w <| w_sent ::= fun k => k ++ map (resend_packet (w_stack w) sk rpc) l |>) /\
    forall b, existsb (requests b) l =
      (0 <=? b) && (b <? mi_granted (rpc_msgin rpc)) && negb (received (rpc_msgin rpc) b).
Proof.
  intros Hp Hs Hst Hi Hb Hg Hm Ht Hz Hr. exists (resends (w_homa w) (rpc_msgin rpc)). split.
  - unfold homa_check_rpc. erewrite bind_eq by (apply (check_ack_skip p w rpc Hp); right; by rewrite Hst).
    step. step. unfold not_waiting. rewrite bool_decide_true by done.
    destruct (Z.geb_spec (mi_length (rpc_msgin rpc) - mi_bytes_remaining (rpc_msgin rpc)) (mi_granted (rpc_msgin rpc))); [lia |].
    destruct (Z.eqb_spec (mi_num_bpages (rpc_msgin rpc)) 0); [done |]. simpl orb. cbv iota.
    destruct (Z.ltb_spec (rpc_silent_ticks rpc) (h_resend_ticks (w_homa w))); [lia |].
    destruct (Z.geb_spec (rpc_silent_ticks rpc) (h_timeout_ticks (w_homa w))); [lia |].
    destruct (Z.eqb_spec (h_resend_interval (w_homa w)) 0); [done |]. rewrite Hr. simpl negb. cbv iota.
    by apply send_resends_exec.
  - intros b. by apply resends_cover.
Qed.

(** Bytes 10 to 14 of a message of 30 bytes have arrived. *)
Definition ex_partial : homa_message_in :=
  (homa_add_packet true 5 example_msgin (example_pkt 10 5)).1 <| mi_num_bpages := 1 |>.
Definition ex_late : homa_rpc := (ex_rpc 1%positive 3 ex_partial) <| rpc_silent_ticks := 5 |>.

Lemma check_rpc_requests_missing_witness :
  exists l, homa_check_rpc 11%positive (ex <| w_rpcs ::= insert 11%positive ex_late |>) =
      Ok (tt, ex <| w_rpcs ::= insert 11%positive ex_late |>
        <| w_sent := map (resend_packet (w_stack ex) ex_sock ex_late) l |>) /\
    existsb (requests 12) l = false /\ existsb (requests 7) l = true /\ existsb (requests 29) l = true.
Proof.
  destruct (check_rpc_requests_missing 11%positive (ex <| w_rpcs ::= insert 11%positive ex_late |>) ex_late ex_sock)
    as (l & H & Hl).
  - reflexivity.
  - reflexivity.
  - reflexivity.
  - apply (add_packet_inv true 5 example_msgin (example_pkt 10 5));
      [apply example_msgin_inv .. | vm_compute; congruence].
  - discriminate.
  - vm_compute. split; congruence.
  - vm_compute. reflexivity.
  - vm_compute. split; congruence.
  - discriminate.
  - reflexivity.
  - exists l. split; [exact H |]. rewrite !Hl. vm_compute. split_ands; reflexivity.
Defined.

(** ** Timeouts *)

(** [n] passes of the timer over one RPC. *)
Definition passes (p : ptr) (n : nat) : M unit := mapM_ (fun _ : unit => timer_rpc p) (replicate n tt).

Lemma passes_S p n w w1 : passes p n w = Ok (tt, w1) -> passes p (S n) w = timer_rpc p w1.
Proof.
  intros H. unfold passes in *. replace (S n) with (n + 1)%nat by lia. rewrite replicate_add, mapM_app, (bind_eq _ _ _ _ _ H).
  simpl. unfold bind. by destruct (timer_rpc p w1) as [[[] ?]|].
Qed.

(** The number of retries after [n] ticks of silence. *)
Definition retries (h : homa) (n : Z) : Z :=
  if n <? h_resend_ticks h then 0 else (n - h_resend_ticks h) / h_resend_interval h + 1.

(** A client that has sent its request as far as it may and has received no
    part of the response. *)
Record awaits_response (p : ptr) (w : world) (rpc : homa_rpc) (sk : homa_sock) : Prop := {
  ar_rpc : w_rpcs w !! p = Some rpc;
  ar_sock : w_socks w !! rpc_hsk rpc = Some sk;
  ar_client : homa_is_client (rpc_id rpc) = true;
  ar_state : rpc_state_ rpc = RPC_OUTGOING;
  ar_sent : mo_granted (rpc_msgout rpc) <= mo_next_xmit_offset (rpc_msgout rpc);
  ar_silent : mi_length (rpc_msgin rpc) < 0
}.

(** The state after [n] ticks of silence. *)
Definition after_silence (p : ptr) (rpc : homa_rpc) (sk : homa_sock) (n : Z) (w : world) : world :=
  w <| w_rpcs ::= insert p (rpc <| rpc_silent_ticks := n |>) |>
    <| w_sent ::= fun l => l ++ replicate (Z.to_nat (retries (w_homa w) n))
         (resend_packet (w_stack w) sk rpc (Build_resend_req 0 100 (h_num_priorities (w_homa w) - 1))) |>.

Lemma retries_step h n :
  0 < h_resend_interval h -> 0 <= n -> 0 < h_resend_ticks h ->
  retries h (n + 1) = retries h n +
    Z.b2z ((h_resend_ticks h <=? n + 1) && (Z.rem (n + 1 - h_resend_ticks h) (h_resend_interval h) =? 0)).
Proof.
  intros Hi Hn Hr. unfold retries. set (k := h_resend_interval h) in *. set (r := h_resend_ticks h) in *.
  destruct (Z.ltb_spec (n + 1) r), (Z.ltb_spec n r), (Z.leb_spec r (n + 1)); try lia; simpl.
  - done.
  - replace (n + 1 - r) with 0 by lia. rewrite Z.rem_0_l, Z.div_0_l by lia. simpl. lia.
  - rewrite Z.rem_mod_nonneg by lia. pose proof (Z.div_mod (n - r) k ltac:(lia)). pose proof (Z.mod_pos_bound (n - r) k ltac:(lia)).
    pose proof (Z.div_mod (n + 1 - r) k ltac:(lia)). pose proof (Z.mod_pos_bound (n + 1 - r) k ltac:(lia)).
    destruct (Z.eqb_spec ((n + 1 - r) mod k) 0); simpl; nia.
Qed.

(** One more tick of silence. *)
Definition more_silent (p : ptr) (rpc : homa_rpc) (n : Z) (w : world) : world :=
  w <| w_rpcs ::= insert p (rpc <| rpc_silent_ticks := n |>) |>.

Lemma sent_nothing w : w <| w_sent ::= fun k => k ++ [] |> = w.
Proof. destruct w. simpl. by rewrite app_nil_r. Qed.

Lemma silent_tick p w rpc sk n :
  awaits_response p w rpc sk -> 0 <= n -> n + 1 <= h_timeout_ticks (w_homa w) <= INT_MAX ->
  0 < h_resend_ticks (w_homa w) <= h_timeout_ticks (w_homa w) -> 0 < h_resend_interval (w_homa w) ->
  timer_rpc p (after_silence p rpc sk n w) =
    if n + 1 <? h_timeout_ticks (w_homa w) then Ok (tt, after_silence p rpc sk (n + 1) w)
    else homa_rpc_abort p (- ETIMEDOUT) (more_silent p rpc (n + 1) (after_silence p rpc sk n w)).
Proof.
  intros [R1 R2 R3 R4 R5 R6] Hn Ht Hr Hi. unfold timer_rpc.
  erewrite bind_eq by (apply get_rpc_eq, lookup_insert_eq). rewrite bool_decide_false by (simpl; congruence).
  erewrite bind_eq by (apply upd_rpc_eq, lookup_insert_eq). cbv beta.
  match goal with |- homa_check_rpc p ?W = _ => assert (W = more_silent p rpc (n + 1) (after_silence p rpc sk n w)) as -> end.
  { unfold more_silent, after_silence. simpl. rewrite !insert_insert_eq, s32_id; [done |].
    unfold is_int, INT_MAX, INT_MIN in *. lia. }
  set (w1 := more_silent p rpc (n + 1) (after_silence p rpc sk n w)).
  assert (w_rpcs w1 !! p = Some (rpc <| rpc_silent_ticks := n + 1 |>)) as Hp by apply lookup_insert_eq.
  unfold homa_check_rpc. erewrite bind_eq by (apply (check_ack_skip p w1 _ Hp); by left). step. step.
  assert (not_waiting (rpc <| rpc_silent_ticks := n + 1 |>) = false) as ->.
  { unfold not_waiting. change (rpc_id (rpc <| rpc_silent_ticks := n + 1 |>)) with (rpc_id rpc).
    rewrite bool_decide_false by (simpl; congruence). rewrite R3. simpl.
    destruct (Z.ltb_spec (mo_next_xmit_offset (rpc_msgout rpc)) (mo_granted (rpc_msgout rpc))); [lia | apply andb_false_r]. }
  change (w_homa w1) with (w_homa w). change (rpc_silent_ticks (rpc <| rpc_silent_ticks := n + 1 |>)) with (n + 1).
  pose proof (retries_step (w_homa w) n Hi Hn ltac:(lia)) as Hre.
  assert (0 <= retries (w_homa w) n) as Hpos.
  { unfold retries. destruct (Z.ltb_spec n (h_resend_ticks (w_homa w))); [lia |].
    pose proof (Z.div_pos (n - h_resend_ticks (w_homa w)) (h_resend_interval (w_homa w)) ltac:(lia) ltac:(lia)). lia. }
  assert (w1 <| w_sent ::= fun k => k ++ replicate (Z.to_nat (retries (w_homa w) (n + 1) - retries (w_homa w) n))
    (resend_packet (w_stack w) sk rpc (Build_resend_req 0 100 (h_num_priorities (w_homa w) - 1))) |> =
    after_silence p rpc sk (n + 1) w) as Hw1.
  { unfold w1, more_silent, after_silence. simpl. rewrite insert_insert_eq, <- app_assoc, <- replicate_add.
    do 4 f_equal. destruct (_ && _); simpl in Hre; lia. }
  destruct (Z.ltb_spec (n + 1) (h_resend_ticks (w_homa w))).
  { destruct (Z.ltb_spec (n + 1) (h_timeout_ticks (w_homa w))); [|lia]. rewrite <- Hw1.
    destruct (Z.leb_spec (h_resend_ticks (w_homa w)) (n + 1)); [lia |]. simpl in Hre.
    replace (retries (w_homa w) (n + 1) - retries (w_homa w) n) with 0 by lia. cbn [Z.to_nat replicate].
    by rewrite sent_nothing. }
  destruct (Z.geb_spec (n + 1) (h_timeout_ticks (w_homa w))), (Z.ltb_spec (n + 1) (h_timeout_ticks (w_homa w))); try lia; [done |].
  destruct (Z.eqb_spec (h_resend_interval (w_homa w)) 0); [lia |]. rewrite <- Hw1.
  destruct (Z.leb_spec (h_resend_ticks (w_homa w)) (n + 1)); [|lia]. cbn [andb] in Hre.
  destruct (Z.rem _ _ =? 0); cbn [negb]; simpl in Hre.
  - unfold resends. simpl rpc_msgin. destruct (Z.ltb_spec (mi_length (rpc_msgin rpc)) 0); [|lia].
    erewrite send_resends_exec; [|exact Hp | exact R2]. replace (retries (w_homa w) (n + 1) - retries (w_homa w) n) with 1 by lia. done.
  - replace (retries (w_homa w) (n + 1) - retries (w_homa w) n) with 0 by lia. cbn [Z.to_nat replicate].
    by rewrite sent_nothing.
Qed.

Lemma after_silence_0 p w rpc sk :
  w_rpcs w !! p = Some rpc -> rpc_silent_ticks rpc = 0 -> 0 < h_resend_ticks (w_homa w) ->
  after_silence p rpc sk 0 w = w.
Proof.
  intros Hp Hs Hr. unfold after_silence, retries. destruct (Z.ltb_spec 0 (h_resend_ticks (w_homa w))); [|lia].
  assert (rpc <| rpc_silent_ticks := 0 |> = rpc) as -> by (destruct rpc; simpl in *; by rewrite Hs).
  destruct w. simpl in *. by rewrite insert_id, app_nil_r.
Qed.

(** The abort of a client RPC that nothing has happened to but silence. *)
Lemma abort_silent p w w1 rpc r sk error :
  interests_ok (rpc_hsk rpc) w -> w_rpcs w !! p = Some rpc -> w_rpcs w1 = <[p := r]> (w_rpcs w) ->
  w_socks w1 = w_socks w -> w_interests w1 = w_interests w -> w_socks w !! rpc_hsk rpc = Some sk ->
  rpc_hsk r = rpc_hsk rpc -> rpc_interest r = rpc_interest rpc -> homa_is_client (rpc_id r) = true ->
  exists w', homa_rpc_abort p error w1 = Ok (tt, w') /\ interests_ok (rpc_hsk rpc) w' /\
    let w2 := w1 <| w_rpcs ::= insert p (r <| rpc_error := error |>) |> in
    if sk_shutdown sk then w' = w2 else handed_off p (r <| rpc_error := error |>) sk w2 w'.
Proof.
  intros Hio Hp Hr Hs Hi Hsk E1 E2 Hc. unfold homa_rpc_abort.
  assert (w_rpcs w1 !! p = Some r) as Hp1 by (rewrite Hr; apply lookup_insert_eq). step. rewrite Hc. cbn [negb].
  erewrite bind_eq by (by apply upd_rpc_eq). rewrite E1.
  set (w2 := w1 <| w_rpcs ::= insert p (r <| rpc_error := error |>) |>).
  assert (w_socks w2 !! rpc_hsk rpc = Some sk) as Hsk2 by (simpl; by rewrite Hs).
  assert (interests_ok (rpc_hsk rpc) w2) as Hio2.
  { destruct Hio as [H1 H2 H3]. constructor; simpl; rewrite ?Hs, ?Hi, ?Hr, ?insert_insert_eq; [done | |].
    - intros i x q Hx Hq. destruct (H2 i x q Hx Hq) as [? (y & Hy & ?)]. split; [done |].
      destruct (decide (q = p)) as [-> | Hne]; [|exists y; by rewrite lookup_insert_ne].
      eexists. split; [apply lookup_insert_eq |]. simpl. congruence.
    - intros q y i. destruct (decide (q = p)) as [-> | Hne]; [|rewrite lookup_insert_ne by done; eauto].
      rewrite lookup_insert_eq. intros [= <-]. simpl. rewrite E2. eauto. }
  step. destruct (sk_shutdown sk); [by exists w2 |].
  destruct (handoff_spec p w2 (r <| rpc_error := error |>) sk) as (w' & Hex & Hok & Hh).
  - apply lookup_insert_eq.
  - simpl. by rewrite E1.
  - simpl. by rewrite E1.
  - exists w'. simpl in Hok. rewrite E1 in Hok. split_ands; done.
Qed.

(** C28: A client RPC whose server stays silent is aborted in time.  Before
    [timeout_ticks] passes of the timer without a sign of the server, the timer
    does nothing but count the ticks and send a RESEND for the beginning of the
    response at tick [resend_ticks] and every [resend_interval] ticks after
    it.  In pass number [timeout_ticks] the error of the RPC becomes
    [-ETIMEDOUT] and the RPC is handed to the application, unless the socket
    was shut down. *)
Theorem timeout_correct p w rpc sk :
  awaits_response p w rpc sk -> rpc_silent_ticks rpc = 0 -> interests_ok (rpc_hsk rpc) w ->
  0 < h_resend_ticks (w_homa w) <= h_timeout_ticks (w_homa w) -> h_timeout_ticks (w_homa w) <= INT_MAX ->
  0 < h_resend_interval (w_homa w) ->
  let timeout := h_timeout_ticks (w_homa w) in
  (forall n, 0 <= n < timeout -> passes p (Z.to_nat n) w = Ok (tt, after_silence p rpc sk n w)) /\
  exists w', passes p (Z.to_nat timeout) w = Ok (tt, w') /\ interests_ok (rpc_hsk rpc) w' /\
    let rpc' := rpc <| rpc_silent_ticks := timeout |> <| rpc_error := - ETIMEDOUT |> in
    let w1 := (after_silence p rpc sk (timeout - 1) w) <| w_rpcs ::= insert p rpc' |> in
    if sk_shutdown sk then w' = w1 else handed_off p rpc' sk w1 w'.
Proof.
  intros Hw Hs Hio Hr Hm Hi timeout.
  assert (forall n, Z.of_nat n < timeout -> passes p n w = Ok (tt, after_silence p rpc sk (Z.of_nat n) w)) as Hrun.
  { induction n as [|n IH]; intros Hn.
    - rewrite after_silence_0; [done | apply Hw | done | lia].
    - rewrite (passes_S _ _ _ _ (IH ltac:(lia))), silent_tick; try done; [|fold timeout; lia ..].
      fold timeout. destruct (Z.ltb_spec (Z.of_nat n + 1) timeout); [|lia]. do 3 f_equal. lia. }
  split; [intros n Hn; rewrite Hrun by lia; by rewrite Z2Nat.id by lia |].
  assert (exists k, Z.to_nat timeout = S k /\ Z.of_nat k = timeout - 1) as (k & -> & Hk).
  { exists (Z.to_nat (timeout - 1)). lia. }
  rewrite (passes_S _ _ _ _ (Hrun k ltac:(lia))), silent_tick; try done; [|fold timeout; lia ..].
  fold timeout. destruct (Z.ltb_spec (Z.of_nat k + 1) timeout); [lia |]. rewrite Hk. replace (timeout - 1 + 1) with timeout by lia.
  destruct (abort_silent p w (more_silent p rpc timeout (after_silence p rpc sk (timeout - 1) w)) rpc
    (rpc <| rpc_silent_ticks := timeout |>) sk (- ETIMEDOUT)) as (w' & Hex & Hok & Hh); try apply Hw; try done.
  { simpl. by rewrite insert_insert_eq. }
  exists w'. split_ands; [done | done |]. cbv zeta in Hh |- *.
  assert (forall W r', (more_silent p rpc timeout W) <| w_rpcs ::= insert p r' |> = W <| w_rpcs ::= insert p r' |>) as Ew
    by (intros W r'; unfold more_silent; simpl; by rewrite insert_insert_eq).
  rewrite Ew in Hh. exact Hh.
Qed.

Definition ex_awaiting : homa_rpc :=
  (ex_rpc 1%positive 4 ((ex_msgin 0 0 0) <| mi_length := -1 |>)) <| rpc_state_ := RPC_OUTGOING |>.
Definition ex_silent : world := ex <| w_rpcs := {[ 14%positive := ex_awaiting ]} |>.

Lemma ex_silent_interests : interests_ok 1%positive ex_silent.
Proof.
  constructor; [|done |].
  - eexists. split; [reflexivity |]. split_ands; [constructor | constructor |]. intros i [H | H]; by apply elem_of_nil in H.
  - intros q r i Hq Hi. change (({[ 14%positive := ex_awaiting ]} : gmap ptr homa_rpc) !! q = Some r) in Hq.
    apply lookup_singleton_Some in Hq as [_ <-]. done.
Qed.

Lemma timeout_correct_witness :
  (exists w, passes 14%positive 20 ex_silent = Ok (tt, w) /\ length (w_sent w) = 4%nat) /\
  exists w, passes 14%positive 100 ex_silent = Ok (tt, w) /\ interests_ok 1%positive w.
Proof.
  destruct (timeout_correct 14%positive ex_silent ex_awaiting ex_sock) as [Hrun (w' & Hex & Hok & _)].
  - constructor; [reflexivity | reflexivity | reflexivity | reflexivity | vm_compute; congruence | vm_compute; reflexivity].
  - reflexivity.
  - exact ex_silent_interests.
  - vm_compute. split; congruence.
  - vm_compute. congruence.
  - vm_compute. reflexivity.
  - split; [|exists w'; split; [exact Hex | exact Hok]].
    eexists. split; [apply (Hrun 20); vm_compute; split; congruence |]. vm_compute. reflexivity.
Defined.
