(* ===== verification/Skb.v ===== *)
(** * Packet buffers (homa_skb.c)

    The pages that hold the data of outgoing packets: each core takes space
    for the fragments of packets from its current page; pages that are no
    longer used are kept in pools, one for each NUMA node.  The state is of its
    own, since the rest of the code sees packets as sequences of bytes. *)
From S2P Require Import Prelude Lists Types.

(** ** Data *)
Definition PAGE_SIZE : Z := 4096.
Definition HOMA_SKB_PAGE_ORDER : Z := 4.
Definition HOMA_SKB_PAGE_SIZE : Z := 65536.
Definition HOMA_PAGE_POOL_SIZE : Z := 1000.
Definition HOMA_MAX_SKB_FRAGS : Z := 17.
Definition SMP_CACHE_BYTES : Z := 64.
Definition MAX_PAGES_AT_ONCE : Z := 50.

(** [HOMA_MAX_STASHED]: the division is one of [unsigned long], the result is
    an [int]. *)
Definition HOMA_MAX_STASHED (size : Z) : Z := s32 (u64 (u64 (size - 1) / HOMA_SKB_PAGE_SIZE + 1)).

(** A page of the host: reference count, order, NUMA node and contents. *)
Record page := { pg_refs : Z; pg_order : Z; pg_nid : Z; pg_bytes : list Z }.
#[export] Instance eta_page : Eta page := fun r =>
  Build_page (pg_refs r) (pg_order r) (pg_nid r) (pg_bytes r).

Record skb_frag := { fr_page : ptr; fr_offset : Z; fr_size : Z }.
#[export] Instance eta_frag : Eta skb_frag := fun r => Build_skb_frag (fr_page r) (fr_offset r) (fr_size r).

(** [sb_head]: the linear part, from the transport header on. *)
Record sk_buff := { sb_users : Z; sb_head : list Z; sb_frags : list skb_frag; sb_len : Z }.
#[export] Instance eta_skb : Eta sk_buff := fun r =>
  Build_sk_buff (sb_users r) (sb_head r) (sb_frags r) (sb_len r).

Record homa_page_pool := { pp_avail : Z; pp_low_mark : Z; pp_pages : list (option ptr) }.
#[export] Instance eta_page_pool : Eta homa_page_pool := fun r =>
  Build_homa_page_pool (pp_avail r) (pp_low_mark r) (pp_pages r).

(** [co_pool] is the index of the pool in [page_pools]. *)
Record homa_skb_core := {
  co_pool : option Z; co_page : option ptr; co_inuse : Z; co_size : Z;
  co_num_stashed : Z; co_stashed : list (option ptr)
}.
#[export] Instance eta_skb_core : Eta homa_skb_core := fun r =>
  Build_homa_skb_core (co_pool r) (co_page r) (co_inuse r) (co_size r) (co_num_stashed r) (co_stashed r).

(** The part of [struct homa] that concerns pages, the per-core data, and the
    host's pages and packet buffers. *)
Record skb_state := {
  ss_pages : gmap ptr page;
  ss_skbs : gmap ptr sk_buff;
  ss_cores : list homa_skb_core;
  ss_pools : list (option homa_page_pool);
  ss_max_numa : Z;
  ss_frees_per_sec : Z;
  ss_pages_to_free : option (list (option ptr));
  ss_slots : Z;
  ss_free_time : Z;
  ss_min_kb : Z
}.
#[export] Instance eta_skb_state : Eta skb_state := fun r =>
  Build_skb_state (ss_pages r) (ss_skbs r) (ss_cores r) (ss_pools r) (ss_max_numa r) (ss_frees_per_sec r)
    (ss_pages_to_free r) (ss_slots r) (ss_free_time r) (ss_min_kb r).

Definition SM : Type -> Type := ST skb_state.

(** ** Access to the state *)
Definition sget {A} (f : skb_state -> A) : SM A := fun s => Ok (f s, s).
Definition supd (f : skb_state -> skb_state) : SM unit := fun s => Ok (tt, f s).

Definition get_pg (p : ptr) : SM page := fun s =>
  match ss_pages s !! p with Some pg => Ok (pg, s) | None => Fault BadPointer end.
Definition set_pg (p : ptr) (pg : page) : SM unit := supd (fun s => s <| ss_pages ::= insert p pg |>).
Definition get_skb (p : ptr) : SM sk_buff := fun s =>
  match ss_skbs s !! p with Some sb => Ok (sb, s) | None => Fault BadPointer end.
Definition set_skb (p : ptr) (sb : sk_buff) : SM unit := supd (fun s => s <| ss_skbs ::= insert p sb |>).

(** [per_cpu(homa_skb_core, core)] *)
Definition get_core (core : Z) : SM homa_skb_core :=
  let* l := sget ss_cores in lift (arr l core).
Definition set_core (core : Z) (c : homa_skb_core) : SM unit :=
  let* l := sget ss_cores in
  let* l := lift (arr_set l core c) in
  supd (fun s => s <| ss_cores := l |>).

Definition get_pool (i : Z) : SM (option homa_page_pool) :=
  let* l := sget ss_pools in lift (arr l i).
Definition set_pool (i : Z) (pool : option homa_page_pool) : SM unit :=
  let* l := sget ss_pools in
  let* l := lift (arr_set l i pool) in
  supd (fun s => s <| ss_pools := l |>).

(** A null pointer that is dereferenced is a fault. *)
Definition deref {A} (o : option A) : SM A := lift (get BadPointer o).

(** ** The host's pages and packet buffers *)
Definition get_page (p : ptr) : SM unit :=
  let* pg := get_pg p in set_pg p (pg <| pg_refs ::= fun n => n + 1 |>).
(** [put_page]: the last reference frees the page. *)
Definition put_page (p : ptr) : SM unit :=
  let* pg := get_pg p in
  if pg_refs pg <=? 1 then supd (fun s => s <| ss_pages ::= delete p |>)
  else set_pg p (pg <| pg_refs ::= fun n => n - 1 |>).

(** [memcpy] into a page. *)
Definition write_page (p : ptr) (off : Z) (data : list Z) : SM unit :=
  let* pg := get_pg p in
  if (off <? 0) || (off + Z.of_nat (length data) >? Z.of_nat (length (pg_bytes pg))) then raise ArrayBounds
  else set_pg p (pg <| pg_bytes ::= fun b => list_inserts (Z.to_nat off) data b |>).

(** [kfree_skb]: the last user releases the fragments and the buffer. *)
Definition kfree_skb (p : ptr) : SM unit :=
  let* sb := get_skb p in
  if sb_users sb <=? 1 then
    (mapM_ (fun f => put_page (fr_page f)) (sb_frags sb) ;;;
     supd (fun s => s <| ss_skbs ::= delete p |>))
  else set_skb p (sb <| sb_users ::= fun n => n - 1 |>).

(** What the host's allocators return: pages of order 4 and 0, in dependence
    on the state; the new page comes with one reference. *)
Record page_env := {
  ae_big : skb_state -> option (ptr * page);
  ae_small : skb_state -> option (ptr * page)
}.
Definition alloc_page (f : skb_state -> option (ptr * page)) : SM (option ptr) := fun s =>
  match f s with
  | Some (p, pg) => Ok (Some p, s <| ss_pages ::= insert p pg |>)
  | None => Ok (None, s)
  end.

(** ** Initialisation and cleanup *)

(** [nodes]: [cpu_to_node] of the cores from [i] on; [mem]: there is memory for
    a pool. *)
Fixpoint skb_init_loop (mem : Z -> bool) (i : Z) (nodes : list Z) : SM Z :=
  match nodes with
  | [] => ret 0
  | numa :: nodes =>
      let* n := sget (fun s => Z.of_nat (length (ss_pools s))) in
      if numa >=? n then raise BugOn else
      supd (fun s => if numa >? ss_max_numa s then s <| ss_max_numa := numa |> else s) ;;;
      let* o := get_pool numa in
      let* ok := match o with
        | Some _ => ret true
        | None =>
            if mem i
            then (set_pool numa (Some (Build_homa_page_pool 0 0 (replicate (Z.to_nat HOMA_PAGE_POOL_SIZE) None))) ;;;
                  ret true)
            else ret false
        end in
      if negb ok then ret (- ENOMEM) else
      let* c := get_core i in
      set_core i (c <| co_pool := Some numa |>) ;;;
      skb_init_loop mem (i + 1) nodes
  end.

Definition homa_skb_init (mem : Z -> bool) (nodes : list Z) : SM Z :=
  supd (fun s => s <| ss_pools ::= fmap (fun _ => None) |> <| ss_frees_per_sec := 1000 |>
    <| ss_pages_to_free := None |> <| ss_slots := 0 |> <| ss_free_time := 0 |>
    <| ss_min_kb := 3 * HOMA_MAX_MESSAGE_LENGTH / 1000 |> <| ss_max_numa := -1 |>) ;;;
  skb_init_loop mem 0 nodes.

(** [put_page] of the entries of an array of pages. *)
Definition put_entries (l : list (option ptr)) : SM unit :=
  mapM_ (fun o => let* p := deref o in put_page p) l.

Definition cleanup_core (i : Z) : SM unit :=
  let* c := get_core i in
  let* c := match co_page c with
    | Some p => (put_page p ;;; ret (c <| co_page := None |> <| co_size := 0 |> <| co_inuse := 0 |>))
    | None => ret c
    end in
  put_entries (take (Z.to_nat (co_num_stashed c)) (co_stashed c)) ;;;
  set_core i (c <| co_pool := None |> <| co_num_stashed := 0 |>).

Definition cleanup_pool (i : Z) : SM unit :=
  let* o := get_pool i in
  match o with
  | None => ret tt
  | Some pool =>
      put_entries (reverse (take (Z.to_nat (pp_avail pool)) (pp_pages pool))) ;;;
      set_pool i None
  end.

Definition homa_skb_cleanup : SM unit :=
  let* s := sget id in
  mapM_ cleanup_core (seqZ 0 (Z.of_nat (length (ss_cores s)))) ;;;
  mapM_ cleanup_pool (seqZ 0 (Z.of_nat (length (ss_pools s)))) ;;;
  supd (fun s => match ss_pages_to_free s with
    | Some _ => s <| ss_pages_to_free := None |> <| ss_slots := 0 |>
    | None => s
    end).

(** ** Allocation *)

(** [homa_skb_new_tx]: [mem] is the memory for the buffer. *)
Definition homa_skb_new_tx (mem : option ptr) : SM (option ptr) :=
  match mem with
  | None => ret None
  | Some p => set_skb p (Build_sk_buff 1 [] [] 0) ;;; ret (Some p)
  end.

(** The last available page of a pool. *)
Definition pool_pop (i : Z) : SM ptr :=
  let* o := get_pool i in
  let* pool := deref o in
  let avail := pp_avail pool - 1 in
  let* o := lift (arr (pp_pages pool) avail) in
  let* p := deref o in
  set_pool i (Some (pool <| pp_avail := avail |>
    <| pp_low_mark := if avail <? pp_low_mark pool then avail else pp_low_mark pool |>)) ;;;
  ret p.

Fixpoint stash_loop (fuel : nat) (core i needed : Z) : SM unit :=
  let* o := get_pool i in
  let* pool := deref o in
  let* c := get_core core in
  if negb (pp_avail pool =? 0) && (co_num_stashed c <? needed) then
    match fuel with
    | O => raise OutOfFuel
    | S fuel =>
        let* p := pool_pop i in
        let* l := lift (arr_set (co_stashed c) (co_num_stashed c) (Some p)) in
        set_core core (c <| co_stashed := l |> <| co_num_stashed ::= fun n => n + 1 |>) ;;;
        stash_loop fuel core i needed
    end
  else ret tt.

Definition homa_skb_stash_pages (core length_ : Z) : SM unit :=
  let* c := get_core core in
  let needed := HOMA_MAX_STASHED length_ in
  if (needed <? 2) || (co_num_stashed c >=? needed) then ret tt else
  let* i := deref (co_pool c) in
  stash_loop (Z.to_nat needed) core i needed.

(** Steps 1 to 4 of [homa_skb_page_alloc]: a page for the core, whose data are
    [c] so far. *)
Definition fetch_page (env : page_env) (core : Z) (c : homa_skb_core) : SM bool :=
  let c := c <| co_size := HOMA_SKB_PAGE_SIZE |> <| co_inuse := 0 |> in
  if co_num_stashed c >? 0 then
    let n := co_num_stashed c - 1 in
    let* o := lift (arr (co_stashed c) n) in
    set_core core (c <| co_num_stashed := n |> <| co_page := o |>) ;;;
    ret true
  else
  let* i := deref (co_pool c) in
  let* o := get_pool i in
  let* pool := deref o in
  if negb (pp_avail pool =? 0) then
    let* p := pool_pop i in
    set_core core (c <| co_page := Some p |>) ;;;
    ret true
  else
  let* o := alloc_page (ae_big env) in
  match o with
  | Some p => set_core core (c <| co_page := Some p |>) ;;; ret true
  | None =>
      let* o := alloc_page (ae_small env) in
      match o with
      | Some p => set_core core (c <| co_page := Some p |> <| co_size := PAGE_SIZE |>) ;;; ret true
      | None => set_core core (c <| co_page := None |> <| co_size := 0 |>) ;;; ret false
      end
  end.

Definition homa_skb_page_alloc (env : page_env) (core : Z) : SM bool :=
  let* c := get_core core in
  match co_page c with
  | None => fetch_page env core c
  | Some p =>
      let* pg := get_pg p in
      if pg_refs pg =? 1 then (set_core core (c <| co_inuse := 0 |>) ;;; ret true)
      else (put_page p ;;; fetch_page env core c)
  end.

(** ** Adding data to a packet *)
Definition ALIGN (x a : Z) : Z := Z.ldiff (x + (a - 1)) (a - 1).

(** The end of the last fragment is where the free part of the current page
    starts. *)
Definition can_extend (c : homa_skb_core) (sb : sk_buff) : bool :=
  match last (sb_frags sb) with
  | None => false
  | Some f =>
      bool_decide (co_page c = Some (fr_page f)) && (co_inuse c <? co_size c) &&
      (fr_offset f + fr_size f =? co_inuse c)
  end.

(** The space that is left, at most [length_]. *)
Definition chunk_of (c : homa_skb_core) (length_ : Z) : Z :=
  if co_size c - co_inuse c <? length_ then co_size c - co_inuse c else length_.

Definition extend_last (n : Z) (l : list skb_frag) : list skb_frag :=
  alter (fun f => f <| fr_size ::= fun k => k + n |>) (length l - 1)%nat l.

(** The result is the place of the new space and its size. *)
Definition homa_skb_extend_frags (env : page_env) (core : Z) (skb : ptr) (length_ : Z)
    : SM (option (ptr * Z * Z)) :=
  let* sb := get_skb skb in
  let* c := get_core core in
  if can_extend c sb then
    let n := chunk_of c length_ in
    let* p := deref (co_page c) in
    set_skb skb (sb <| sb_frags ::= extend_last n |> <| sb_len ::= fun k => k + n |>) ;;;
    set_core core (c <| co_inuse ::= fun k => k + n |>) ;;;
    ret (Some (p, co_inuse c, n))
  else
    let c := c <| co_inuse ::= fun k => ALIGN k SMP_CACHE_BYTES |> in
    set_core core c ;;;
    let* ok := if co_inuse c >=? co_size c then homa_skb_page_alloc env core else ret true in
    if negb ok then ret None else
    let* c := get_core core in
    let n := chunk_of c length_ in
    if Z.of_nat (length (sb_frags sb)) >=? HOMA_MAX_SKB_FRAGS then raise ArrayBounds else
    let* p := deref (co_page c) in
    get_page p ;;;
    set_skb skb (sb <| sb_frags ::= fun l => l ++ [Build_skb_frag p (co_inuse c) n] |>
      <| sb_len ::= fun k => k + n |>) ;;;
    set_core core (c <| co_inuse ::= fun k => k + n |>) ;;;
    ret (Some (p, co_inuse c, n)).

(** [homa_skb_append_to_frag]; at least one byte is added in each iteration,
    so the number of bytes is enough [fuel]. *)
Fixpoint append_loop (env : page_env) (core : Z) (skb : ptr) (fuel : nat) (buf : list Z) : SM Z :=
  match buf with
  | [] => ret 0
  | _ =>
      let* o := homa_skb_extend_frags env core skb (Z.of_nat (length buf)) in
      match o with
      | None => ret (- ENOMEM)
      | Some (p, off, n) =>
          write_page p off (take (Z.to_nat n) buf) ;;;
          match fuel with
          | O => raise OutOfFuel
          | S fuel => append_loop env core skb fuel (drop (Z.to_nat n) buf)
          end
      end
  end.

Definition homa_skb_append_to_frag (env : page_env) (core : Z) (skb : ptr) (buf : list Z) : SM Z :=
  append_loop env core skb (length buf) buf.

(** [homa_skb_append_from_iter]: [iter] are the bytes that can be read from
    user space; the second result is what is left of them. *)
Fixpoint iter_loop (env : page_env) (core : Z) (skb : ptr) (fuel : nat) (iter : list Z) (length_ : Z)
    : SM (Z * list Z) :=
  if length_ <=? 0 then ret (0, iter) else
  let* o := homa_skb_extend_frags env core skb length_ in
  match o with
  | None => ret (- ENOMEM, iter)
  | Some (p, off, n) =>
      write_page p off (take (Z.to_nat n) iter) ;;;
      if Z.of_nat (length (take (Z.to_nat n) iter)) =? n then
        match fuel with
        | O => raise OutOfFuel
        | S fuel => iter_loop env core skb fuel (drop (Z.to_nat n) iter) (length_ - n)
        end
      else ret (- EFAULT, drop (Z.to_nat n) iter)
  end.

Definition homa_skb_append_from_iter (env : page_env) (core : Z) (skb : ptr) (iter : list Z) (length_ : Z)
    : SM (Z * list Z) :=
  iter_loop env core skb (Z.to_nat length_) iter length_.

(** The loop over the fragments of the source; [src_off] is the offset of the
    first of them in the packet.  Each part gets a fragment of the destination
    that refers to the same page. *)
Fixpoint virtual_loop (dst : ptr) (frags : list skb_frag) (src_off offset length_ : Z) : SM Z :=
  match frags with
  | [] => ret 0
  | f :: frags =>
      if length_ <=? 0 then ret 0 else
      if offset >=? src_off + fr_size f then virtual_loop dst frags (src_off + fr_size f) offset length_ else
      let chunk := fr_size f - (offset - src_off) in
      let chunk := if chunk >? length_ then length_ else chunk in
      let* sb := get_skb dst in
      if Z.of_nat (length (sb_frags sb)) =? HOMA_MAX_SKB_FRAGS then ret (- EINVAL) else
      get_page (fr_page f) ;;;
      set_skb dst (sb <| sb_frags ::= fun l => l ++ [Build_skb_frag (fr_page f) (fr_offset f + (offset - src_off)) chunk] |>
        <| sb_len ::= fun k => k + chunk |>) ;;;
      virtual_loop dst frags (src_off + fr_size f) (offset + chunk) (length_ - chunk)
  end.

Definition homa_skb_append_from_skb (env : page_env) (core : Z) (dst src : ptr) (offset length_ : Z) : SM Z :=
  let* sb := get_skb src in
  let head_len := Z.of_nat (length (sb_head sb)) in
  if offset <? head_len then
    let chunk := if length_ >? head_len - offset then head_len - offset else length_ in
    let* err := homa_skb_append_to_frag env core dst (slice (sb_head sb) offset chunk) in
    if negb (err =? 0) then ret err else
    virtual_loop dst (sb_frags sb) head_len (offset + chunk) (length_ - chunk)
  else virtual_loop dst (sb_frags sb) head_len offset length_.

(** [homa_skb_get]: the bytes that are copied. *)
Definition frag_read (f : skb_frag) (off n : Z) : SM (list Z) :=
  let* pg := get_pg (fr_page f) in
  let from := fr_offset f + off in
  if (from <? 0) || (from + n >? Z.of_nat (length (pg_bytes pg))) then raise ArrayBounds
  else ret (slice (pg_bytes pg) from n).

Fixpoint get_loop (frags : list skb_frag) (frag_off offset length_ : Z) : SM (list Z) :=
  match frags with
  | [] => ret []
  | f :: frags =>
      if length_ <=? 0 then ret [] else
      if offset >=? frag_off + fr_size f then get_loop frags (frag_off + fr_size f) offset length_ else
      let chunk := fr_size f - (offset - frag_off) in
      let chunk := if chunk >? length_ then length_ else chunk in
      let* b := frag_read f (offset - frag_off) chunk in
      let* rest := get_loop frags (frag_off + fr_size f) (offset + chunk) (length_ - chunk) in
      ret (b ++ rest)
  end.

Definition homa_skb_get (skb : ptr) (offset length_ : Z) : SM (list Z) :=
  let* sb := get_skb skb in
  let head_len := Z.of_nat (length (sb_head sb)) in
  if offset <? head_len then
    let chunk := if length_ >? head_len - offset then head_len - offset else length_ in
    let* rest := get_loop (sb_frags sb) head_len (offset + chunk) (length_ - chunk) in
    ret (slice (sb_head sb) offset chunk ++ rest)
  else get_loop (sb_frags sb) head_len offset length_.

(** ** Releasing packets and pages *)
Definition cache_page (p : ptr) : SM unit :=
  let* pg := get_pg p in
  let* o := get_pool (pg_nid pg) in
  let* pool := deref o in
  if pp_avail pool <? HOMA_PAGE_POOL_SIZE then
    let* l := lift (arr_set (pp_pages pool) (pp_avail pool) (Some p)) in
    set_pool (pg_nid pg) (Some (pool <| pp_pages := l |> <| pp_avail ::= fun n => n + 1 |>))
  else put_page p.

Definition homa_skb_cache_pages (pages : list ptr) : SM unit := mapM_ cache_page pages.

(** The loop over the fragments of a packet; the result are the pages to
    cache, of which there are at most [MAX_PAGES_AT_ONCE - 1]. *)
Fixpoint free_frags (frags : list skb_frag) (acc : list ptr) : SM (list ptr) :=
  match frags with
  | [] => ret acc
  | f :: frags =>
      let* pg := get_pg (fr_page f) in
      if (pg_order pg =? HOMA_SKB_PAGE_ORDER) && (pg_refs pg =? 1) then
        let acc := acc ++ [fr_page f] in
        if Z.of_nat (length acc) =? MAX_PAGES_AT_ONCE
        then (homa_skb_cache_pages acc ;;; free_frags frags [])
        else free_frags frags acc
      else (put_page (fr_page f) ;;; free_frags frags acc)
  end.

Fixpoint free_skbs (skbs : list ptr) (acc : list ptr) : SM (list ptr) :=
  match skbs with
  | [] => ret acc
  | p :: skbs =>
      let* sb := get_skb p in
      if negb (sb_users sb =? 1) then (kfree_skb p ;;; free_skbs skbs acc) else
      let* acc := free_frags (sb_frags sb) acc in
      set_skb p (sb <| sb_frags := [] |>) ;;;
      kfree_skb p ;;;
      free_skbs skbs acc
  end.

Definition homa_skb_free_many_tx (skbs : list ptr) : SM unit :=
  let* acc := free_skbs skbs [] in
  match acc with [] => ret tt | _ => homa_skb_cache_pages acc end.

Definition homa_skb_free_tx (skb : ptr) : SM unit := homa_skb_free_many_tx [skb].

(** The pool with the largest low-water mark among the nodes [i], [i + 1], ...
    of which there are [n]; [best] is the largest so far and its node.  All
    low-water marks are reset. *)
Fixpoint max_mark (n : nat) (i : Z) (best : Z * option Z) : SM (Z * option Z) :=
  match n with
  | O => ret best
  | S n =>
      let* o := get_pool i in
      match o with
      | None => max_mark n (i + 1) best
      | Some pool =>
          let best := if pp_low_mark pool >? best.1 then (pp_low_mark pool, Some i) else best in
          set_pool i (Some (pool <| pp_low_mark := pp_avail pool |>)) ;;;
          max_mark n (i + 1) best
      end
  end.

(** Pages of the pool [i] are moved to the array, from index [k] on. *)
Fixpoint collect (n : nat) (i k : Z) : SM unit :=
  match n with
  | O => ret tt
  | S n =>
      let* o := get_pool i in
      let* pool := deref o in
      let avail := pp_avail pool - 1 in
      let* o := lift (arr (pp_pages pool) avail) in
      let* a := sget ss_pages_to_free in
      let* l := deref a in
      let* l := lift (arr_set l k o) in
      supd (fun s => s <| ss_pages_to_free := Some l |>) ;;;
      set_pool i (Some (pool <| pp_avail := avail |>)) ;;;
      collect n i (k + 1)
  end.

(** [homa_skb_release_pages] at time [now]; [mem]: the array can be allocated.
    Without any pool the pointer to the best one is not initialised. *)
Definition homa_skb_release_pages (now : Z) (mem : bool) : SM unit :=
  let* s := sget id in
  if now <? ss_free_time s then ret tt else
  let release_max := Z.quot (ss_frees_per_sec s) 2 in
  supd (fun s => s <| ss_free_time := u64 (now + 500000000) |>) ;;;
  (if ss_slots s <? release_max
   then supd (fun s => s <| ss_slots := release_max |>
     <| ss_pages_to_free := if mem then Some (replicate (Z.to_nat release_max) None) else None |>)
   else ret tt) ;;;
  let* best := max_mark (Z.to_nat (ss_max_numa s + 1)) 0 (-1, None) in
  let min_pages := s32 (u64 (s32 (ss_min_kb s * 1000) + (HOMA_SKB_PAGE_SIZE - 1)) / HOMA_SKB_PAGE_SIZE) in
  let release := s32 (best.1 - min_pages) in
  let release := if release >? release_max then release_max else release in
  let* i := deref best.2 in
  collect (Z.to_nat release) i 0 ;;;
  let* o := get_pool i in
  let* pool := deref o in
  set_pool i (Some (pool <| pp_low_mark := pp_avail pool |>)) ;;;
  let* a := sget ss_pages_to_free in
  if release <=? 0 then ret tt else
  let* l := deref a in
  put_entries (take (Z.to_nat release) l).
