(* ===== verification/SkbInv.v ===== *)
(** * Packet buffers: reference counts and contents

    The invariant of the pages of packet buffers, that the operations of
    Skb.v keep it, and what they do to the contents of packets. *)
From S2P Require Import Prelude Lists Types Skb.

(** ** Occurrences in a list *)
Definition occ (p : ptr) (l : list ptr) : nat := length (filter (fun q => q = p) l).

Lemma occ_app p l k : occ p (l ++ k) = (occ p l + occ p k)%nat.
Proof. unfold occ. by rewrite filter_app, length_app. Qed.

Lemma occ_cons p q l : occ p (q :: l) = ((if decide (q = p) then 1 else 0) + occ p l)%nat.
Proof. unfold occ. rewrite filter_cons. by destruct (decide (q = p)). Qed.

Lemma occ_nil p : occ p [] = 0%nat.
Proof. done. Qed.

#[export] Instance occ_perm p : Proper ((≡ₚ) ==> eq) (occ p).
Proof. intros l k H. unfold occ. by rewrite H. Qed.

Lemma occ_elem p l : p ∈ l <-> (0 < occ p l)%nat.
Proof.
  induction l as [|q l IH]; [rewrite occ_nil; split; [by intros ?%elem_of_nil | lia] |].
  rewrite elem_of_cons, occ_cons, IH. destruct (decide (q = p)) as [-> | Hne]; split; intros H; try lia; auto.
Qed.

#[export] Hint Rewrite occ_app occ_cons occ_nil : homa_rw.

(** ** The invariant *)

(** The pages in the first [n] entries of an array. *)
Definition live (n : Z) (l : list (option ptr)) : list ptr := omap id (take (Z.to_nat n) l).
Definition entries_ok (n : Z) (l : list (option ptr)) : Prop :=
  0 <= n <= Z.of_nat (length l) /\ Forall is_Some (take (Z.to_nat n) l).

Definition current (c : homa_skb_core) : list ptr := option_list (co_page c).
Definition stash (c : homa_skb_core) : list ptr := live (co_num_stashed c) (co_stashed c).
Definition pool_pages (o : option homa_page_pool) : list ptr :=
  match o with Some pool => live (pp_avail pool) (pp_pages pool) | None => [] end.

Definition idle (cores : list homa_skb_core) (pools : list (option homa_page_pool)) : list ptr :=
  (cores ≫= stash) ++ (pools ≫= pool_pages).
Definition frag_pages (m : gmap ptr sk_buff) : list ptr :=
  map_to_list m ≫= fun x => fr_page <$> sb_frags x.2.

Definition refs (pages : gmap ptr page) (p : ptr) : Z :=
  match pages !! p with Some pg => pg_refs pg | None => 0 end.

Definition page_ok (pools : list (option homa_page_pool)) (pg : page) : Prop :=
  1 <= pg_refs pg /\
  (pg_order pg = HOMA_SKB_PAGE_ORDER /\ Z.of_nat (length (pg_bytes pg)) = HOMA_SKB_PAGE_SIZE /\
   (exists pool, 0 <= pg_nid pg /\ pools !! Z.to_nat (pg_nid pg) = Some (Some pool)) \/
   pg_order pg = 0 /\ Z.of_nat (length (pg_bytes pg)) = PAGE_SIZE).

Definition pool_ok (pool : homa_page_pool) : Prop :=
  0 <= pp_low_mark pool <= pp_avail pool /\ entries_ok (pp_avail pool) (pp_pages pool) /\
  Z.of_nat (length (pp_pages pool)) = HOMA_PAGE_POOL_SIZE.

Record core_ok (pages : gmap ptr page) (pools : list (option homa_page_pool)) (c : homa_skb_core) : Prop := {
  ck_stash : entries_ok (co_num_stashed c) (co_stashed c);
  ck_slots : Z.of_nat (length (co_stashed c)) = HOMA_MAX_STASHED HOMA_MAX_MESSAGE_LENGTH;
  ck_pool : exists i pool, co_pool c = Some i /\ 0 <= i /\ pools !! Z.to_nat i = Some (Some pool);
  ck_inuse : 0 <= co_inuse c <= co_size c;
  ck_page : match co_page c with
    | Some p => exists pg, pages !! p = Some pg /\ co_size c = Z.of_nat (length (pg_bytes pg))
    | None => co_size c = 0
    end
}.

Definition frag_ok (pages : gmap ptr page) (f : skb_frag) : Prop :=
  exists pg, pages !! fr_page f = Some pg /\ 0 <= fr_offset f /\ 0 < fr_size f /\
    fr_offset f + fr_size f <= Z.of_nat (length (pg_bytes pg)).

(** All references to pages; [held] are those of local variables. *)
Definition all_refs (cores : list homa_skb_core) (m : gmap ptr sk_buff) (pools : list (option homa_page_pool))
    (held : list ptr) : list ptr :=
  (cores ≫= current) ++ idle cores pools ++ frag_pages m ++ held.

Record pages_inv (cores : list homa_skb_core) (m : gmap ptr sk_buff) (held : list ptr)
    (pages : gmap ptr page) (pools : list (option homa_page_pool)) : Prop := {
  pi_count : forall p, refs pages p = Z.of_nat (occ p (all_refs cores m pools held));
  pi_pages : forall p pg, pages !! p = Some pg -> page_ok pools pg;
  pi_idle : forall p, p ∈ idle cores pools ->
    exists pg, pages !! p = Some pg /\ pg_refs pg = 1 /\ pg_order pg = HOMA_SKB_PAGE_ORDER;
  pi_current : NoDup (cores ≫= current);
  pi_cores : forall i c, cores !! i = Some c -> core_ok pages pools c;
  pi_pools : forall i pool, pools !! i = Some (Some pool) -> pool_ok pool;
  pi_frags : forall k sb f, m !! k = Some sb -> f ∈ sb_frags sb -> frag_ok pages f;
  pi_inuse : forall i c p k sb f, cores !! i = Some c -> co_page c = Some p ->
    m !! k = Some sb -> f ∈ sb_frags sb -> fr_page f = p -> fr_offset f + fr_size f <= co_inuse c
}.

Definition skb_ok (s : skb_state) : Prop :=
  pages_inv (ss_cores s) (ss_skbs s) [] (ss_pages s) (ss_pools s).

(** ** Contents *)
Definition frag_bytes (pages : gmap ptr page) (f : skb_frag) : list Z :=
  match pages !! fr_page f with
  | Some pg => slice (pg_bytes pg) (fr_offset f) (fr_size f)
  | None => []
  end.
Definition content (pages : gmap ptr page) (sb : sk_buff) : list Z :=
  sb_head sb ++ (sb_frags sb ≫= frag_bytes pages).

(** [pages'] has the same sizes, or the same contents, on the pages that are
    left. *)
Definition same_shape (pages pages' : gmap ptr page) : Prop :=
  forall p pg', pages' !! p = Some pg' -> exists pg, pages !! p = Some pg /\
    length (pg_bytes pg') = length (pg_bytes pg) /\ pg_order pg' = pg_order pg /\ pg_nid pg' = pg_nid pg.
Definition same_bytes (pages pages' : gmap ptr page) : Prop :=
  forall p pg', pages' !! p = Some pg' -> exists pg, pages !! p = Some pg /\
    pg_bytes pg' = pg_bytes pg /\ pg_order pg' = pg_order pg /\ pg_nid pg' = pg_nid pg.

Lemma same_bytes_shape pages pages' : same_bytes pages pages' -> same_shape pages pages'.
Proof. intros H p pg' Hp. destruct (H p pg' Hp) as (pg & ? & -> & ? & ?). eauto. Qed.
#[export] Hint Resolve same_bytes_shape : homa.

(** ** Arrays of pages *)
Lemma live_push n l p :
  entries_ok n l -> n < Z.of_nat (length l) ->
  live (n + 1) (<[Z.to_nat n := Some p]> l) = live n l ++ [p] /\ entries_ok (n + 1) (<[Z.to_nat n := Some p]> l).
Proof.
  intros [Hn Hf] Hl. assert (take (Z.to_nat (n + 1)) (<[Z.to_nat n := Some p]> l) = take (Z.to_nat n) l ++ [Some p]) as E.
  { replace (Z.to_nat (n + 1)) with (S (Z.to_nat n)) by lia.
    rewrite (take_S_r _ _ (Some p)) by (apply list_lookup_insert_eq; lia). f_equal. apply take_insert_ge. lia. }
  unfold live, entries_ok. rewrite E, omap_app, length_insert. split; [done |]. split; [lia |].
  apply Forall_app. split; [done |]. by repeat constructor.
Qed.

Lemma live_pop n l :
  entries_ok n l -> 0 < n ->
  exists p, arr l (n - 1) = Ok (Some p) /\ live n l = live (n - 1) l ++ [p] /\ entries_ok (n - 1) l.
Proof.
  intros [Hn Hf] Hp. destruct (lookup_lt_is_Some_2 l (Z.to_nat (n - 1))) as [o Ho]; [lia |].
  assert (take (Z.to_nat n) l = take (Z.to_nat (n - 1)) l ++ [o]) as E.
  { replace (Z.to_nat n) with (S (Z.to_nat (n - 1))) by lia. by apply take_S_r. }
  rewrite E, Forall_app in Hf. destruct Hf as [Hf Hlast]. apply Forall_singleton in Hlast as [p ->].
  exists p. split; [apply arr_Ok; split; [lia | done] |]. unfold live. rewrite E, omap_app. split; [done |].
  split; [lia | done].
Qed.

Lemma live_none n : live n [] = [].
Proof. unfold live. by rewrite take_nil. Qed.

(** ** Changing the reference counts *)
Section Inv.
Context (cores : list homa_skb_core) (m : gmap ptr sk_buff) (pools : list (option homa_page_pool)).

Lemma refs_in pages p : 0 < refs pages p -> exists pg, pages !! p = Some pg /\ refs pages p = pg_refs pg.
Proof. unfold refs. destruct (pages !! p); [eauto | lia]. Qed.

Lemma inv_recount held held' pages pages' :
  pages_inv cores m held pages pools -> same_shape pages pages' ->
  (forall p, refs pages' p = Z.of_nat (occ p (all_refs cores m pools held'))) ->
  (forall p pg', pages' !! p = Some pg' -> 1 <= pg_refs pg') ->
  (forall p, p ∈ idle cores pools -> refs pages' p = 1) ->
  pages_inv cores m held' pages' pools.
Proof.
  intros [Hc Hp Hi Hcu Hco Hpo Hf Hu] Hsb Hc' Hpos Hi'.
  assert (forall p pg, pages !! p = Some pg -> p ∈ all_refs cores m pools held' ->
    exists pg', pages' !! p = Some pg' /\ length (pg_bytes pg') = length (pg_bytes pg) /\ pg_order pg' = pg_order pg) as Hex.
  { intros p pg Hpg Hin%occ_elem. destruct (refs_in pages' p) as (pg' & Hpg' & _); [rewrite Hc'; lia |].
    destruct (Hsb _ _ Hpg') as (pg0 & H0 & Hb & Ho & _). rewrite Hpg in H0. injection H0 as <-. eauto. }
  constructor; try done.
  - intros p pg' Hpg'. destruct (Hsb _ _ Hpg') as (pg & Hpg & Hb & Ho & Hn). destruct (Hp _ _ Hpg) as [_ H].
    split; [by eapply Hpos |]. by rewrite Hb, Ho, Hn.
  - intros p Hin. destruct (Hi p Hin) as (pg & Hpg & _ & Ho).
    destruct (Hex p pg Hpg) as (pg' & Hpg' & _ & Ho'); [set_solver |]. exists pg'. split; [done |].
    specialize (Hi' p Hin). unfold refs in Hi'. rewrite Hpg' in Hi'. split; congruence.
  - intros i c Hic. destruct (Hco i c Hic) as [H1 H2 H3 H4 H5]. constructor; try done.
    destruct (co_page c) as [p|] eqn:Hcp; [|done]. destruct H5 as (pg & Hpg & Hsz).
    destruct (Hex p pg Hpg) as (pg' & Hpg' & Hb & _); [|exists pg'; by rewrite Hb].
    apply elem_of_app. left. apply list_elem_of_bind. exists c. split; [|by eapply list_elem_of_lookup_2].
    unfold current. rewrite Hcp. set_solver.
  - intros k sb f Hk Hin. destruct (Hf k sb f Hk Hin) as (pg & Hpg & H).
    destruct (Hex (fr_page f) pg Hpg) as (pg' & Hpg' & Hb & _); [|exists pg'; by rewrite Hb].
    apply elem_of_app. right. apply elem_of_app. right. apply elem_of_app. left.
    apply list_elem_of_bind. exists (k, sb). split; [|by apply elem_of_map_to_list].
    apply list_elem_of_fmap. eauto.
Qed.
Lemma idle_refs held pages p :
  pages_inv cores m held pages pools -> p ∈ idle cores pools -> refs pages p = 1.
Proof. intros Hi Hp. destruct (pi_idle _ _ _ _ _ Hi p Hp) as (pg & H & E & _). unfold refs. by rewrite H. Qed.

Lemma occ_idle p held : (occ p (all_refs cores m pools held) =
  occ p (cores ≫= current) + occ p (idle cores pools) + occ p (frag_pages m) + occ p held)%nat.
Proof. unfold all_refs. rewrite !occ_app. lia. Qed.

(** A reference that a local variable holds is dropped. *)
Lemma put_page_inv p held s :
  pages_inv cores m (p :: held) (ss_pages s) pools ->
  exists pm, put_page p s = Ok (tt, s <| ss_pages := pm |>) /\ pages_inv cores m held pm pools /\
    same_bytes (ss_pages s) pm /\ (forall q, refs pm q = refs (ss_pages s) q - (if decide (p = q) then 1 else 0)).
Proof.
  intros Hi. pose proof (pi_count _ _ _ _ _ Hi) as Hc.
  destruct (refs_in (ss_pages s) p) as (pg & Hp & _); [rewrite Hc, occ_idle, occ_cons, decide_True by done; lia |].
  set (pm := if pg_refs pg <=? 1 then delete p (ss_pages s) else <[p := pg <| pg_refs ::= fun n => n - 1 |>]> (ss_pages s)).
  assert (1 <= pg_refs pg) as Hpos by (apply (pi_pages _ _ _ _ _ Hi p pg Hp)).
  assert (forall q, refs pm q = refs (ss_pages s) q - (if decide (p = q) then 1 else 0)) as Hr.
  { intros q. unfold refs, pm. destruct (decide (p = q)) as [<- | Hne].
    - rewrite Hp. destruct (Z.leb_spec (pg_refs pg) 1); [rewrite lookup_delete_eq | rewrite lookup_insert_eq; simpl]; lia.
    - destruct (pg_refs pg <=? 1); [rewrite lookup_delete_ne | rewrite lookup_insert_ne]; by rewrite ?Z.sub_0_r. }
  assert (same_bytes (ss_pages s) pm) as Hsb.
  { intros q pg'. unfold pm. destruct (pg_refs pg <=? 1).
    - intros [_ H]%lookup_delete_Some. eauto.
    - intros [[<- <-] | [_ H]]%lookup_insert_Some; eauto. }
  exists pm. split; [|split; [|done]].
  - unfold put_page. erewrite bind_eq by (unfold get_pg; rewrite Hp; reflexivity).
    unfold pm, supd, set_pg. by destruct (pg_refs pg <=? 1).
  - eapply inv_recount; [exact Hi | auto with homa | | |].
    + intros q. rewrite Hr, Hc, !occ_idle, occ_cons. destruct (decide (p = q)); lia.
    + intros q pg'. unfold pm. destruct (Z.leb_spec (pg_refs pg) 1).
      * intros [_ H']%lookup_delete_Some. apply (pi_pages _ _ _ _ _ Hi q pg' H').
      * intros [[<- <-] | [_ H']]%lookup_insert_Some; [simpl; lia | apply (pi_pages _ _ _ _ _ Hi q pg' H')].
    + intros q Hq. pose proof (idle_refs _ _ _ Hi Hq) as H1. rewrite Hr. destruct (decide (p = q)) as [<- |]; [|lia].
      rewrite Hc, occ_idle, occ_cons, decide_True in H1 by done. apply occ_elem in Hq. lia.
Qed.

(** A reference is taken to a page that is in use. *)
Lemma get_page_inv p held s pg :
  pages_inv cores m held (ss_pages s) pools -> ss_pages s !! p = Some pg -> p ∉ idle cores pools ->
  exists pm, get_page p s = Ok (tt, s <| ss_pages := pm |>) /\ pages_inv cores m (p :: held) pm pools /\
    same_bytes (ss_pages s) pm /\ (forall q, refs pm q = refs (ss_pages s) q + (if decide (p = q) then 1 else 0)).
Proof.
  intros Hi Hp Hni. set (pm := <[p := pg <| pg_refs ::= fun n => n + 1 |>]> (ss_pages s)).
  assert (forall q, refs pm q = refs (ss_pages s) q + (if decide (p = q) then 1 else 0)) as Hr.
  { intros q. unfold refs, pm. destruct (decide (p = q)) as [<- | Hne];
      [by rewrite Hp, lookup_insert_eq | by rewrite lookup_insert_ne, Z.add_0_r]. }
  assert (same_bytes (ss_pages s) pm) as Hsb.
  { intros q pg' [[<- <-] | [_ H]]%lookup_insert_Some; eauto. }
  exists pm. split; [|split; [|done]].
  - unfold get_page. by erewrite bind_eq by (unfold get_pg; rewrite Hp; reflexivity).
  - eapply inv_recount; [exact Hi | auto with homa | | |].
    + intros q. rewrite Hr, (pi_count _ _ _ _ _ Hi), !occ_idle, occ_cons. destruct (decide (p = q)); lia.
    + intros q pg' [[<- <-] | [_ H']]%lookup_insert_Some; [|apply (pi_pages _ _ _ _ _ Hi q pg' H')].
      pose proof (pi_pages _ _ _ _ _ Hi p pg Hp) as [? _]. simpl. lia.
    + intros q Hq. rewrite Hr, (idle_refs _ _ _ Hi Hq). destruct (decide (p = q)) as [<- |]; [done | lia].
Qed.
(** A new page. *)
Lemma alloc_inv p pg held pages :
  pages_inv cores m held pages pools -> pages !! p = None -> pg_refs pg = 1 -> page_ok pools pg ->
  pages_inv cores m (p :: held) (<[p := pg]> pages) pools.
Proof.
  intros [Hc Hp Hi Hcu Hco Hpo Hf Hu] Hn H1 Hok.
  assert (forall q x, pages !! q = Some x -> <[p := pg]> pages !! q = Some x) as Hold
    by (intros q x Hq; rewrite lookup_insert_ne; [done | congruence]).
  constructor; try done.
  - intros q. rewrite occ_idle, occ_cons. specialize (Hc q). rewrite occ_idle in Hc. unfold refs in *.
    destruct (decide (p = q)) as [<- | Hne]; [rewrite lookup_insert_eq, H1; rewrite Hn in Hc; lia |].
    rewrite lookup_insert_ne by done. lia.
  - intros q x [[<- <-] | [_ H]]%lookup_insert_Some; [done | by eapply Hp].
  - intros q (x & Hx & ?)%Hi. exists x. split; [by apply Hold | done].
  - intros i c Hic. destruct (Hco i c Hic) as [A1 A2 A3 A4 A5]. constructor; try done.
    destruct (co_page c); [|done]. destruct A5 as (x & Hx & ?). exists x. split; [by apply Hold | done].
  - intros k sb f Hk Hin. destruct (Hf k sb f Hk Hin) as (x & Hx & ?). exists x. split; [by apply Hold | done].
Qed.
End Inv.

(** A page of which the only reference is the one considered is not used elsewhere. *)
Lemma sole_ref cores m pools held pages p :
  pages_inv cores m (p :: held) pages pools -> refs pages p = 1 ->
  (p ∉ (cores ≫= current)) /\ (p ∉ idle cores pools) /\ (p ∉ frag_pages m) /\ p ∉ held.
Proof.
  intros Hi H1. rewrite (pi_count _ _ _ _ _ Hi), occ_idle, occ_cons, decide_True in H1 by done.
  rewrite !occ_elem. lia.
Qed.

(** ** Changing the pools, a core, a packet *)
Definition is_idle_page (pages : gmap ptr page) (p : ptr) : Prop :=
  exists pg, pages !! p = Some pg /\ pg_refs pg = 1 /\ pg_order pg = HOMA_SKB_PAGE_ORDER.

Lemma inv_pools cores m held held' pages pools pools' :
  pages_inv cores m held pages pools ->
  (forall i pool, pools !! i = Some (Some pool) -> exists pool', pools' !! i = Some (Some pool')) ->
  (forall i pool, pools' !! i = Some (Some pool) -> pool_ok pool) ->
  (pools ≫= pool_pages) ++ held ≡ₚ (pools' ≫= pool_pages) ++ held' ->
  (forall p, p ∈ (pools' ≫= pool_pages) -> is_idle_page pages p) ->
  pages_inv cores m held' pages pools'.
Proof.
  intros [Hc Hp Hi Hcu Hco Hpo Hf Hu] Hsome Hpo' Hperm Hi'. constructor; try done.
  - intros p. rewrite Hc, !occ_idle. unfold idle. pose proof (occ_perm p _ _ Hperm) as E.
    rewrite !occ_app in *. lia.
  - intros p pg Hpg. destruct (Hp p pg Hpg) as [H1 H2]. split; [done |].
    destruct H2 as [(? & ? & pool & ? & (pool' & ?)%Hsome) | ?]; [|by right]. left. eauto 6.
  - intros p [Hin | Hin]%elem_of_app; [|by apply Hi']. apply Hi. unfold idle. set_solver.
  - intros i c Hic. destruct (Hco i c Hic) as [A1 A2 A3 A4 A5]. constructor; try done.
    destruct A3 as (j & pool & ? & ? & (pool' & ?)%Hsome). eauto 6.
Qed.

Lemma inv_skb cores m held held' pages pools k sb sb' :
  pages_inv cores m held pages pools -> m !! k = Some sb ->
  (fr_page <$> sb_frags sb) ++ held ≡ₚ (fr_page <$> sb_frags sb') ++ held' ->
  (forall f, f ∈ sb_frags sb' -> frag_ok pages f /\ forall i c, cores !! i = Some c ->
     co_page c = Some (fr_page f) -> fr_offset f + fr_size f <= co_inuse c) ->
  pages_inv cores (<[k := sb']> m) held' pages pools.
Proof.
  intros [Hc Hp Hi Hcu Hco Hpo Hf Hu] Hk Hperm Hnew.
  assert (frag_pages m ≡ₚ (fr_page <$> sb_frags sb) ++ frag_pages (delete k m)) as E1.
  { unfold frag_pages. rewrite <- (insert_delete_id m k sb Hk) at 1. by rewrite map_to_list_insert by apply lookup_delete_eq. }
  assert (frag_pages (<[k := sb']> m) ≡ₚ (fr_page <$> sb_frags sb') ++ frag_pages (delete k m)) as E2.
  { unfold frag_pages. rewrite <- insert_delete_eq. by rewrite map_to_list_insert by apply lookup_delete_eq. }
  constructor; try done.
  - intros p. rewrite Hc, !occ_idle, E1, E2. pose proof (occ_perm p _ _ Hperm) as E. rewrite !occ_app in *. lia.
  - intros j x f [[<- <-] | [_ Hj]]%lookup_insert_Some Hin; [by apply Hnew | by eapply Hf].
  - intros i c p j x f Hic Hcp [[<- <-] | [_ Hj]]%lookup_insert_Some Hin <-; [by eapply Hnew | by eapply Hu].
Qed.

Lemma inv_core cores m held held' pages pools i c c' :
  pages_inv cores m held pages pools -> cores !! i = Some c -> core_ok pages pools c' ->
  current c ++ stash c ++ held ≡ₚ current c' ++ stash c' ++ held' ->
  (forall p, p ∈ stash c' -> is_idle_page pages p) ->
  (forall p, co_page c' = Some p -> co_page c = Some p /\ co_inuse c <= co_inuse c' \/ refs pages p = 1) ->
  pages_inv (<[i := c']> cores) m held' pages pools.
Proof.
  intros [Hc Hp Hi Hcu Hco Hpo Hf Hu] Hic Hok Hperm Hst Hcur.
  destruct (bind_insert current cores i c Hic) as (r1 & E1 & E1').
  destruct (bind_insert stash cores i c Hic) as (r2 & E2 & E2').
  assert (forall p, Z.of_nat (occ p (all_refs (<[i := c']> cores) m pools held')) = refs pages p) as Hcount.
  { intros p. rewrite Hc, !occ_idle. unfold idle. rewrite !occ_app, E1, E1', E2, E2'.
    pose proof (occ_perm p _ _ Hperm) as E. rewrite !occ_app in *. lia. }
  assert (forall p, co_page c' = Some p -> refs pages p = 1 -> (p ∉ r1) /\ p ∉ frag_pages m) as Hsole.
  { intros p Hp' H1. rewrite <- Hcount, occ_idle, E1', occ_app in H1. unfold current in H1 at 1.
    rewrite Hp' in H1. simpl in H1. rewrite occ_cons, decide_True in H1 by done. rewrite !occ_elem. lia. }
  constructor; try done.
  - intros p [Hin | Hin]%elem_of_app.
    + rewrite E2' in Hin. apply elem_of_app in Hin as [Hin | Hin]; [by apply Hst |].
      apply Hi. unfold idle. rewrite E2. set_solver.
    + apply Hi. unfold idle. set_solver.
  - rewrite E1'. rewrite E1 in Hcu. apply NoDup_app in Hcu as (_ & Hd & Hr). apply NoDup_app.
    unfold current in *. destruct (co_page c') as [p|] eqn:Hp'; [|split_ands; [constructor | set_solver | done]].
    split_ands; [apply NoDup_singleton | | done]. intros q ->%list_elem_of_singleton.
    destruct (Hcur p eq_refl) as [[E _] | H1]; [apply Hd; rewrite E; set_solver | by apply (Hsole p eq_refl H1)].
  - intros j x [(<- & <- & _) | [_ Hj]]%list_lookup_insert_Some; [done | by eapply Hco].
  - intros j x p k sb f [(<- & <- & _) | [_ Hj]]%list_lookup_insert_Some Hx Hk Hin Hfp; [|by eapply Hu].
    destruct (Hcur p Hx) as [[E Hle] | H1]; [specialize (Hu i c p k sb f Hic E Hk Hin Hfp); lia |].
    destruct (Hsole p Hx H1) as [_ Hno]. exfalso. apply Hno. apply list_elem_of_bind. exists (k, sb).
    split; [|by apply elem_of_map_to_list]. apply list_elem_of_fmap. eauto.
Qed.

(** ** Frames *)

(** The same nodes have pools. *)
Definition pools_keep (pools pools' : list (option homa_page_pool)) : Prop :=
  forall i pool, pools !! i = Some (Some pool) -> exists pool', pools' !! i = Some (Some pool').

#[export] Instance pools_keep_preorder : PreOrder pools_keep.
Proof. split; [intros l i pool H; eauto |]. intros a b c H1 H2 i pool (p1 & H)%H1. by apply H2 in H. Qed.

Lemma pools_keep_insert pools i pool pool' :
  pools !! i = Some (Some pool) -> pools_keep pools (<[i := Some pool']> pools).
Proof.
  intros Hi j x Hj. destruct (decide (i = j)) as [<- | Hne].
  - exists pool'. apply list_lookup_insert_eq. by eapply lookup_lt_Some.
  - exists x. by rewrite list_lookup_insert_ne.
Qed.

(** The contents of the packets [m] are kept. *)
Definition frags_kept (m : gmap ptr sk_buff) (pages pages' : gmap ptr page) : Prop :=
  forall k sb f, m !! k = Some sb -> f ∈ sb_frags sb -> frag_bytes pages' f = frag_bytes pages f.

#[export] Instance frags_kept_preorder m : PreOrder (frags_kept m).
Proof. split; [done |]. intros a b c H1 H2 k sb f Hk Hf. by rewrite (H2 k sb f), (H1 k sb f). Qed.

Lemma frags_kept_same cores m held pages pages' pools :
  pages_inv cores m held pages' pools -> same_bytes pages pages' -> frags_kept m pages pages'.
Proof.
  intros Hi Hs k sb f Hk Hf. destruct (pi_frags _ _ _ _ _ Hi k sb f Hk Hf) as (pg' & Hp & _).
  destruct (Hs _ _ Hp) as (pg & Hpg & E & _). unfold frag_bytes. by rewrite Hp, Hpg, E.
Qed.

Lemma frags_kept_alloc cores m held pages pools p pg :
  pages_inv cores m held pages pools -> pages !! p = None -> frags_kept m pages (<[p := pg]> pages).
Proof.
  intros Hi Hn k sb f Hk Hf. destruct (pi_frags _ _ _ _ _ Hi k sb f Hk Hf) as (x & Hp & _).
  unfold frag_bytes. rewrite lookup_insert_ne; [done | congruence].
Qed.

Lemma content_kept m pages pages' k sb :
  frags_kept m pages pages' -> m !! k = Some sb -> content pages' sb = content pages sb.
Proof.
  intros H Hk. unfold content. f_equal. specialize (H k sb). revert H.
  generalize (sb_frags sb). intros l H. assert (forall f, f ∈ l -> frag_bytes pages' f = frag_bytes pages f) as Hl
    by (intros f; by apply H). clear H. induction l as [|f l IH]; [done |].
  rewrite !bind_cons, Hl by set_solver. f_equal. apply IH. set_solver.
Qed.

(** ** Taking a page *)
Lemma get_pool_lookup i s o :
  0 <= i -> ss_pools s !! Z.to_nat i = Some o -> get_pool i s = Ok (o, s).
Proof. intros Hi Hp. unfold get_pool. erewrite bind_eq by reflexivity. unfold lift. by rewrite (proj2 (arr_Ok _ _ _) (conj Hi Hp)). Qed.

Lemma get_pool_eq i s pool :
  0 <= i -> ss_pools s !! Z.to_nat i = Some (Some pool) -> get_pool i s = Ok (Some pool, s).
Proof. apply get_pool_lookup. Qed.

Lemma set_pool_eq i s o pool :
  0 <= i -> ss_pools s !! Z.to_nat i = Some o ->
  set_pool i pool s = Ok (tt, s <| ss_pools ::= insert (Z.to_nat i) pool |>).
Proof.
  intros Hi Hp%lookup_lt_Some. unfold set_pool. erewrite bind_eq by reflexivity. unfold lift.
  erewrite bind_eq; [reflexivity |]. cbv beta. by rewrite (proj2 (arr_set_Ok _ i pool _)) by (split; [lia | reflexivity]).
Qed.

Lemma get_core_eq i s c :
  0 <= i -> ss_cores s !! Z.to_nat i = Some c -> get_core i s = Ok (c, s).
Proof. intros Hi Hp. unfold get_core. erewrite bind_eq by reflexivity. unfold lift. by rewrite (proj2 (arr_Ok _ _ _) (conj Hi Hp)). Qed.

Lemma set_core_eq i s c c' :
  0 <= i -> ss_cores s !! Z.to_nat i = Some c ->
  set_core i c' s = Ok (tt, s <| ss_cores ::= insert (Z.to_nat i) c' |>).
Proof.
  intros Hi Hp%lookup_lt_Some. unfold set_core. erewrite bind_eq by reflexivity. unfold lift.
  erewrite bind_eq; [reflexivity |]. cbv beta. by rewrite (proj2 (arr_set_Ok _ i c' _)) by (split; [lia | reflexivity]).
Qed.

Lemma pool_pages_insert pools i pool pool' p :
  pools !! i = Some (Some pool) -> live (pp_avail pool) (pp_pages pool) ≡ₚ p :: live (pp_avail pool') (pp_pages pool') ->
  (pools ≫= pool_pages) ≡ₚ p :: (<[i := Some pool']> pools ≫= pool_pages).
Proof.
  intros Hi Hl. destruct (bind_insert pool_pages pools i _ Hi) as (r & E & E'). rewrite E, E'. simpl.
  by rewrite Hl.
Qed.

Lemma pool_pop_inv cores m held i pool s :
  pages_inv cores m held (ss_pages s) (ss_pools s) -> 0 <= i ->
  ss_pools s !! Z.to_nat i = Some (Some pool) -> pp_avail pool <> 0 ->
  exists p pools', pool_pop i s = Ok (p, s <| ss_pools := pools' |>) /\
    pages_inv cores m (p :: held) (ss_pages s) pools' /\ is_idle_page (ss_pages s) p /\
    pools_keep (ss_pools s) pools'.
Proof.
  intros Hi H0 Hp Ha. destruct (pi_pools _ _ _ _ _ Hi _ _ Hp) as (Hlow & Hent & Hlen).
  destruct (live_pop _ _ Hent) as (p & Harr & Hl & Hent'); [lia |].
  set (pool' := pool <| pp_avail := pp_avail pool - 1 |> <| pp_low_mark :=
    if pp_avail pool - 1 <? pp_low_mark pool then pp_avail pool - 1 else pp_low_mark pool |>).
  assert (ss_pools s ≫= pool_pages ≡ₚ p :: (<[Z.to_nat i := Some pool']> (ss_pools s) ≫= pool_pages)) as Hperm.
  { apply (pool_pages_insert _ _ pool); [done |]. rewrite Hl. simpl. by rewrite Permutation_app_comm. }
  assert (pools_keep (ss_pools s) (<[Z.to_nat i := Some pool']> (ss_pools s))) as Hk by (by eapply pools_keep_insert).
  exists p, (<[Z.to_nat i := Some pool']> (ss_pools s)). split_ands; try done.
  - unfold pool_pop. rewrite (bind_eq _ _ _ _ _ (get_pool_eq i s pool H0 Hp)). unfold deref, lift.
    erewrite bind_eq by reflexivity. cbn [get]. erewrite bind_eq by (rewrite Harr; reflexivity).
    erewrite bind_eq by reflexivity. by rewrite (bind_eq _ _ _ _ _ (set_pool_eq i s _ _ H0 Hp)).
  - eapply inv_pools; [exact Hi | done | | |].
    + intros j x [(<- & [= <-] & _) | [_ Hj]]%list_lookup_insert_Some; [|by eapply (pi_pools _ _ _ _ _ Hi)].
      unfold pool_ok, pool'. simpl. split_ands; try done; zb; try lia; apply Hent'.
    + rewrite Hperm. apply Permutation_middle.
    + intros q Hq. apply (pi_idle _ _ _ _ _ Hi). unfold idle. rewrite Hperm. set_solver.
  - apply (pi_idle _ _ _ _ _ Hi). unfold idle. rewrite Hperm. set_solver.
Qed.

(** The host returns new pages of the requested size; large pages are on
    nodes that have a pool. *)
Definition env_fits (env : page_env) : Prop :=
  forall s p pg,
    (ae_big env s = Some (p, pg) -> ss_pages s !! p = None /\ pg_refs pg = 1 /\ pg_order pg = HOMA_SKB_PAGE_ORDER /\
       page_ok (ss_pools s) pg) /\
    (ae_small env s = Some (p, pg) -> ss_pages s !! p = None /\ pg_refs pg = 1 /\ pg_order pg = 0 /\
       page_ok (ss_pools s) pg).

(** The core gives up its current page, whose reference is then [held]. *)
Definition detached (c : homa_skb_core) : homa_skb_core :=
  c <| co_page := None |> <| co_size := 0 |> <| co_inuse := 0 |>.

Lemma detach_inv cores m held pages pools i c :
  pages_inv cores m held pages pools -> cores !! i = Some c ->
  pages_inv (<[i := detached c]> cores) m (current c ++ held) pages pools.
Proof.
  intros Hi Hc. destruct (pi_cores _ _ _ _ _ Hi i c Hc) as [H1 H2 H3 H4 H5].
  eapply inv_core; [exact Hi | exact Hc | by constructor | | | done].
  - simpl. unfold stash. simpl. apply Permutation_app_swap_app.
  - intros p Hp. apply (pi_idle _ _ _ _ _ Hi). apply elem_of_app. left. apply list_elem_of_bind.
    exists c. split; [done | by eapply list_elem_of_lookup_2].
Qed.

Lemma attach_inv cores m held pages pools i c p pg :
  pages_inv cores m (p :: held) pages pools -> cores !! i = Some c -> co_page c = None ->
  pages !! p = Some pg -> pg_refs pg = 1 ->
  pages_inv (<[i := c <| co_page := Some p |> <| co_size := Z.of_nat (length (pg_bytes pg)) |> <| co_inuse := 0 |>]> cores)
    m held pages pools.
Proof.
  intros Hi Hc Hn Hp H1. destruct (pi_cores _ _ _ _ _ Hi i c Hc) as [A1 A2 A3 A4 A5].
  eapply inv_core; [exact Hi | exact Hc | | | |].
  - constructor; try done; simpl; [lia | eauto].
  - unfold current. rewrite Hn. simpl. unfold stash. simpl. by rewrite <- Permutation_middle.
  - intros q Hq. apply (pi_idle _ _ _ _ _ Hi). apply elem_of_app. left. apply list_elem_of_bind.
    exists c. split; [done | by eapply list_elem_of_lookup_2].
  - intros q [= <-]. right. unfold refs. by rewrite Hp.
Qed.

(** The last stashed page is taken. *)
Lemma unstash_inv cores m held pages pools i c :
  pages_inv cores m held pages pools -> cores !! i = Some c -> 0 < co_num_stashed c ->
  exists p, arr (co_stashed c) (co_num_stashed c - 1) = Ok (Some p) /\ is_idle_page pages p /\
    pages_inv (<[i := c <| co_num_stashed := co_num_stashed c - 1 |>]> cores) m (p :: held) pages pools.
Proof.
  intros Hi Hc Hn. destruct (pi_cores _ _ _ _ _ Hi i c Hc) as [A1 A2 A3 A4 A5].
  destruct (live_pop _ _ A1 Hn) as (p & Harr & Hl & Hent). exists p. split; [done |].
  assert (forall q, q ∈ stash c -> is_idle_page pages q) as Hst.
  { intros q Hq. apply (pi_idle _ _ _ _ _ Hi). apply elem_of_app. left. apply list_elem_of_bind.
    exists c. split; [done | by eapply list_elem_of_lookup_2]. }
  split; [apply Hst; unfold stash; rewrite Hl; set_solver |].
  eapply inv_core; [exact Hi | exact Hc | by constructor | | |].
  - unfold stash. rewrite Hl. simpl. rewrite <- app_assoc. done.
  - intros q Hq. apply Hst. unfold stash in *. rewrite Hl. simpl in Hq. set_solver.
  - intros q Hq. left. simpl. split; [done | lia].
Qed.
