(* ===== verification/SkbAlloc.v ===== *)
(** * Packet buffers: allocation and data

    The operations that take pages and add data to packets keep the
    invariant, append exactly the given bytes, and change no other packet. *)
From S2P Require Import Prelude Lists Types Skb SkbInv.

(** The outcome of taking a page: core [i] has the state [c'] and the rest of
    the state differs in pages and pools only. *)
Definition took_page (i : Z) (ok : bool) (c' : homa_skb_core) (pages' : gmap ptr page)
    (pools' : list (option homa_page_pool)) (s : skb_state) : skb_state :=
  s <| ss_pages := pages' |> <| ss_pools := pools' |> <| ss_cores := <[Z.to_nat i := c']> (ss_cores s) |>.

Definition fresh_core (ok : bool) (c' : homa_skb_core) : Prop :=
  if ok then is_Some (co_page c') /\ co_inuse c' = 0 /\ PAGE_SIZE <= co_size c' else co_page c' = None.

(** Dropping the current page of a core. *)
Lemma drop_current cores m held s i c :
  pages_inv cores m held (ss_pages s) (ss_pools s) -> cores !! i = Some c ->
  exists pm, match co_page c with Some p => put_page p s | None => Ok (tt, s) end = Ok (tt, s <| ss_pages := pm |>) /\
    pages_inv (<[i := detached c]> cores) m held pm (ss_pools s) /\ frags_kept m (ss_pages s) pm.
Proof.
  intros Hi Hc. pose proof (detach_inv _ _ _ _ _ _ _ Hi Hc) as Hd. unfold current in Hd.
  destruct (co_page c) as [p|]; simpl in Hd.
  - destruct (put_page_inv _ _ _ _ _ _ Hd) as (pm & Hex & Hi' & Hsb & _). exists pm. split; [done |].
    split; [done |]. by eapply frags_kept_same.
  - exists (ss_pages s). split; [by destruct s |]. done.
Qed.

Lemma big_page pools pg :
  page_ok pools pg -> pg_order pg = HOMA_SKB_PAGE_ORDER -> Z.of_nat (length (pg_bytes pg)) = HOMA_SKB_PAGE_SIZE.
Proof. intros [_ [(_ & H & _) | [H _]]] E; [done |]. unfold HOMA_SKB_PAGE_ORDER in E. lia. Qed.

Lemma small_page pools pg :
  page_ok pools pg -> pg_order pg = 0 -> Z.of_nat (length (pg_bytes pg)) = PAGE_SIZE.
Proof. intros [_ [(H & _) | [_ H]]] E; [|done]. unfold HOMA_SKB_PAGE_ORDER in H. lia. Qed.

(** The new page [p] becomes the current one. *)
Lemma took_inv cores m held i c c1 p pg size pages pools s :
  pages_inv (<[i := c1]> cores) m (p :: held) pages pools -> cores !! i = Some c -> co_page c1 = None ->
  pages !! p = Some pg -> pg_refs pg = 1 -> size = Z.of_nat (length (pg_bytes pg)) ->
  frags_kept m (ss_pages s) pages -> pools_keep (ss_pools s) pools -> PAGE_SIZE <= size ->
  let c' := c1 <| co_page := Some p |> <| co_size := size |> <| co_inuse := 0 |> in
  pages_inv (<[i := c']> cores) m held pages pools /\ pools_keep (ss_pools s) pools /\
    frags_kept m (ss_pages s) pages /\ fresh_core true c'.
Proof.
  intros Hi Hc Hn Hp H1 -> Hk Hpk Hsz c'. split_ands; try done.
  rewrite <- (list_insert_insert_eq cores i c' c1). eapply attach_inv; try done.
  apply list_lookup_insert_eq. by eapply lookup_lt_Some.
Qed.

Lemma fetch_page_inv env core m held cores s c :
  env_fits env -> 0 <= core -> ss_cores s = cores -> cores !! Z.to_nat core = Some c ->
  pages_inv (<[Z.to_nat core := detached c]> cores) m held (ss_pages s) (ss_pools s) ->
  exists ok c' pages' pools', fetch_page env core c s = Ok (ok, took_page core ok c' pages' pools' s) /\
    pages_inv (<[Z.to_nat core := c']> cores) m held pages' pools' /\ pools_keep (ss_pools s) pools' /\
    frags_kept m (ss_pages s) pages' /\ fresh_core ok c'.
Proof.
  intros He H0 Hcs Hc Hi. set (i := Z.to_nat core) in *.
  assert (<[i := detached c]> cores !! i = Some (detached c)) as Hci
    by (apply list_lookup_insert_eq; by eapply lookup_lt_Some).
  destruct (pi_cores _ _ _ _ _ Hi i _ Hci) as [_ _ (j & pool & Hj & Hj0 & Hpool) _ _]. simpl in Hj.
  assert (forall s' c', ss_cores s' = cores -> set_core core c' s' = Ok (tt, s' <| ss_cores := <[i := c']> cores |>)) as Hset.
  { intros s' c' E. rewrite (set_core_eq core s' c c' H0) by (by rewrite E). by rewrite <- E. }
  unfold fetch_page, took_page. rewrite Hcs. fold i. cbv zeta.
  change (co_num_stashed (c <| co_size := HOMA_SKB_PAGE_SIZE |> <| co_inuse := 0 |>)) with (co_num_stashed c).
  destruct (Z.gtb_spec (co_num_stashed c) 0) as [Hn | Hn].
  - destruct (unstash_inv _ _ _ _ _ _ _ Hi Hci Hn) as (p & Harr & (pg & Hpg & H1 & Ho) & Hi1).
    rewrite list_insert_insert_eq in Hi1. pose proof (big_page _ _ (pi_pages _ _ _ _ _ Hi p pg Hpg) Ho) as Hsz.
    unfold lift. erewrite bind_eq by (simpl co_stashed; simpl in Harr; rewrite Harr; reflexivity).
    destruct (took_inv cores m held i c _ p pg HOMA_SKB_PAGE_SIZE _ _ s Hi1 Hc) as (? & ? & ? & ?); try done.
    eexists true, _, _, _. split; [rewrite (bind_eq _ _ _ _ _ (Hset s _ Hcs)); reflexivity | done].
  - unfold deref. change (co_pool (c <| co_size := HOMA_SKB_PAGE_SIZE |> <| co_inuse := 0 |>)) with (co_pool c).
    rewrite Hj. unfold lift. erewrite bind_eq by reflexivity.
    rewrite (bind_eq _ _ _ _ _ (get_pool_eq j s pool Hj0 Hpool)). erewrite bind_eq by reflexivity.
    destruct (Z.eqb_spec (pp_avail pool) 0) as [Ha | Ha]; cbn [negb].
    + unfold alloc_page at 1. unfold bind at 1. destruct (ae_big env s) as [[p pg]|] eqn:Hbig.
      * destruct (proj1 (He s p pg) Hbig) as (Hn' & H1 & Ho & Hok). pose proof (big_page _ _ Hok Ho) as Hsz.
        pose proof (alloc_inv _ _ _ p pg held _ Hi Hn' H1 Hok) as Hi1.
        destruct (took_inv cores m held i c _ p pg HOMA_SKB_PAGE_SIZE _ _ s Hi1 Hc) as (? & ? & ? & ?); try done;
          [apply lookup_insert_eq | by eapply frags_kept_alloc |].
        eexists true, _, _, _. split; [|done]. erewrite bind_eq by (by apply Hset). reflexivity.
      * unfold alloc_page at 1. unfold bind at 1. destruct (ae_small env s) as [[p pg]|] eqn:Hsm.
        -- destruct (proj2 (He s p pg) Hsm) as (Hn' & H1 & Ho & Hok). pose proof (small_page _ _ Hok Ho) as Hsz.
           pose proof (alloc_inv _ _ _ p pg held _ Hi Hn' H1 Hok) as Hi1.
           destruct (took_inv cores m held i c _ p pg PAGE_SIZE _ _ s Hi1 Hc) as (? & ? & ? & ?); try done;
             [apply lookup_insert_eq | by eapply frags_kept_alloc |].
           eexists true, _, _, _. split; [|done]. erewrite bind_eq by (by apply Hset). reflexivity.
        -- exists false, (detached c), (ss_pages s), (ss_pools s).
           split; [|done]. erewrite bind_eq by (by apply Hset). by destruct s.
    + destruct (pool_pop_inv _ _ _ j pool s Hi Hj0 Hpool Ha) as (p & pools' & Hex & Hi1 & (pg & Hpg & H1 & Ho) & Hpk).
      rewrite (bind_eq _ _ _ _ _ Hex). pose proof (big_page _ _ (pi_pages _ _ _ _ _ Hi p pg Hpg) Ho) as Hsz.
      destruct (took_inv cores m held i c _ p pg HOMA_SKB_PAGE_SIZE _ _ s Hi1 Hc) as (? & ? & ? & ?); try done.
      eexists true, _, _, _. split; [|done]. erewrite bind_eq by (by apply Hset). reflexivity.
Qed.

Lemma page_alloc_inv env core m held s c :
  env_fits env -> 0 <= core -> ss_cores s !! Z.to_nat core = Some c ->
  pages_inv (ss_cores s) m held (ss_pages s) (ss_pools s) ->
  exists ok c' pages' pools', homa_skb_page_alloc env core s = Ok (ok, took_page core ok c' pages' pools' s) /\
    pages_inv (<[Z.to_nat core := c']> (ss_cores s)) m held pages' pools' /\ pools_keep (ss_pools s) pools' /\
    frags_kept m (ss_pages s) pages' /\ fresh_core ok c'.
Proof.
  intros He H0 Hc Hi. destruct (drop_current _ m held s _ c Hi Hc) as (pm & Hput & Hi1 & Hk).
  pose proof (pi_cores _ _ _ _ _ Hi _ _ Hc) as [A1 A2 A3 A4 A5].
  unfold homa_skb_page_alloc. rewrite (bind_eq _ _ _ _ _ (get_core_eq core s c H0 Hc)).
  destruct (co_page c) as [p|] eqn:Hcp.
  - destruct A5 as (pg & Hpg & Hsz). erewrite bind_eq by (unfold get_pg; rewrite Hpg; reflexivity).
    destruct (Z.eqb_spec (pg_refs pg) 1) as [H1 | H1].
    + exists true, (c <| co_inuse := 0 |>), (ss_pages s), (ss_pools s). split_ands; try done.
      * by rewrite (bind_eq _ _ _ _ _ (set_core_eq core s c _ H0 Hc)).
      * eapply inv_core; [exact Hi | exact Hc | | done | | ].
        -- constructor; try done; simpl; [lia | rewrite Hcp; eauto].
        -- intros q Hq. apply (pi_idle _ _ _ _ _ Hi). apply elem_of_app. left. apply list_elem_of_bind.
           exists c. split; [done | by eapply list_elem_of_lookup_2].
        -- intros q Hq. right. simpl in Hq. rewrite Hcp in Hq. injection Hq as <-. unfold refs. by rewrite Hpg.
      * simpl. rewrite Hcp, Hsz. split_ands; [eauto | done |].
        destruct (pi_pages _ _ _ _ _ Hi p pg Hpg) as [_ [(_ & -> & _) | [_ ->]]]; by vm_compute.
    + rewrite (bind_eq _ _ _ _ _ Hput).
      destruct (fetch_page_inv env core m held (ss_cores s) (s <| ss_pages := pm |>) c) as (ok & c' & pages' & pools' & Hex & ? & ? & ? & ?);
        try done. exists ok, c', pages', pools'. split_ands; try done. by etransitivity.
  - assert (pm = ss_pages s) as -> by (injection Hput as Hs; by rewrite Hs).
    destruct (fetch_page_inv env core m held (ss_cores s) s c) as (ok & c' & pages' & pools' & Hex & ? & ? & ? & ?); try done.
    by exists ok, c', pages', pools'.
Qed.

(** ** Space for data *)
Lemma ALIGN_range x size : 0 <= x <= size -> (64 | size) -> x <= ALIGN x SMP_CACHE_BYTES <= size.
Proof.
  intros Hx [k ->]. unfold ALIGN, SMP_CACHE_BYTES. change (64 - 1) with (Z.ones 6).
  rewrite Z.ldiff_ones_r, Z.shiftl_mul_pow2, Z.shiftr_div_pow2 by lia. change (Z.ones 6) with 63. change (2 ^ 6) with 64.
  Z.div_mod_to_equations. lia.
Qed.

Lemma core_size cores m held pages pools i c :
  pages_inv cores m held pages pools -> cores !! i = Some c ->
  (64 | co_size c) /\ (co_inuse c < co_size c -> is_Some (co_page c)).
Proof.
  intros Hi Hc. destruct (pi_cores _ _ _ _ _ Hi _ _ Hc) as [_ _ _ A4 A5].
  destruct (co_page c) as [p|]; [|rewrite A5 in *; split; [by exists 0 | lia]].
  destruct A5 as (pg & Hpg & ->). split; [|by eexists].
  destruct (pi_pages _ _ _ _ _ Hi p pg Hpg) as [_ [(_ & -> & _) | [_ ->]]]; [by exists 1024 | by exists 64].
Qed.

(** The core uses more of its current page. *)
Lemma use_inv cores m held pages pools i c n :
  pages_inv cores m held pages pools -> cores !! i = Some c -> co_inuse c <= n <= co_size c ->
  pages_inv (<[i := c <| co_inuse := n |>]> cores) m held pages pools.
Proof.
  intros Hi Hc Hn. destruct (pi_cores _ _ _ _ _ Hi _ _ Hc) as [A1 A2 A3 A4 A5].
  eapply inv_core; [exact Hi | exact Hc | constructor; try done; simpl; lia | done | |].
  - intros q Hq. apply (pi_idle _ _ _ _ _ Hi). apply elem_of_app. left. apply list_elem_of_bind.
    exists c. split; [done | by eapply list_elem_of_lookup_2].
  - intros q Hq. left. simpl. split; [done | lia].
Qed.

(** Another core does not have the same current page. *)
Lemma current_inj cores m held pages pools i j c d p :
  pages_inv cores m held pages pools -> cores !! i = Some c -> cores !! j = Some d ->
  co_page c = Some p -> co_page d = Some p -> i = j.
Proof.
  intros Hi Hc Hd Hcp Hdp. destruct (decide (i = j)) as [| Hne]; [done |]. exfalso.
  destruct (bind_insert current cores i c Hc) as (r & E & E').
  pose proof (pi_current _ _ _ _ _ Hi) as Hnd. rewrite E in Hnd. apply NoDup_app in Hnd as (_ & Hdis & _).
  apply (Hdis p); [unfold current; rewrite Hcp; set_solver |].
  assert (p ∈ (<[i := detached c]> cores ≫= current)) as Hin.
  { apply list_elem_of_bind. exists d. split; [unfold current; rewrite Hdp; set_solver |].
    eapply (list_elem_of_lookup_2 _ j). by rewrite list_lookup_insert_ne. }
  rewrite E' in Hin. by apply elem_of_app in Hin as [?%elem_of_nil | ?].
Qed.

(** Packet [k] grows from [sb] to [sb'], by [n] bytes at [off] in page [p]. *)
Definition grown (sb sb' : sk_buff) (p : ptr) (off n : Z) : Prop :=
  sb_head sb' = sb_head sb /\ sb_users sb' = sb_users sb /\ sb_len sb' = sb_len sb + n /\
  ((exists l f, sb_frags sb = l ++ [f] /\ fr_page f = p /\ fr_offset f + fr_size f = off /\
     sb_frags sb' = l ++ [f <| fr_size ::= fun k => k + n |>]) \/
   sb_frags sb' = sb_frags sb ++ [Build_skb_frag p off n]).

Lemma grow_inv cores m pages pools k sb sb' i c p off n held :
  pages_inv (<[i := c <| co_inuse := off + n |>]> cores) m held pages pools ->
  m !! k = Some sb -> (i < length cores)%nat -> co_page c = Some p -> 0 < n -> 0 <= off -> off + n <= co_size c ->
  grown sb sb' p off n ->
  held = (if bool_decide (length (sb_frags sb') = length (sb_frags sb)) then [] else [p]) ->
  pages_inv (<[i := c <| co_inuse := off + n |>]> cores) (<[k := sb']> m) [] pages pools.
Proof.
  intros Hi Hk Hlen Hcp Hn Hoff Hsz (_ & _ & _ & Hg) Hheld.
  assert (<[i := c <| co_inuse := off + n |>]> cores !! i = Some (c <| co_inuse := off + n |>)) as Hci
    by (by apply list_lookup_insert_eq).
  assert (forall f, f ∈ sb_frags sb -> frag_ok pages f /\ forall j d, <[i := c <| co_inuse := off + n |>]> cores !! j = Some d ->
     co_page d = Some (fr_page f) -> fr_offset f + fr_size f <= co_inuse d) as Hold.
  { intros f Hf. split; [by eapply (pi_frags _ _ _ _ _ Hi) | intros; by eapply (pi_inuse _ _ _ _ _ Hi)]. }
  destruct (pi_cores _ _ _ _ _ Hi _ _ Hci) as [_ _ _ _ A5]. simpl in A5. rewrite Hcp in A5.
  destruct A5 as (pg & Hpg & Hpsz).
  assert (forall f', fr_page f' = p -> fr_offset f' + fr_size f' = off + n -> 0 <= fr_offset f' -> 0 < fr_size f' ->
    frag_ok pages f' /\ forall j d, <[i := c <| co_inuse := off + n |>]> cores !! j = Some d ->
     co_page d = Some (fr_page f') -> fr_offset f' + fr_size f' <= co_inuse d) as Hnew.
  { intros f' <- E H0 H1. split; [exists pg; split_ands; try done; lia |]. intros j d Hd Hdp.
    assert (i = j) as <- by (eapply (current_inj _ _ _ _ _ _ _ _ _ _ Hi Hci Hd); done).
    rewrite Hci in Hd. injection Hd as <-. simpl. lia. }
  eapply inv_skb; [exact Hi | exact Hk | |].
  - rewrite Hheld. destruct Hg as [(l & f & -> & <- & _ & ->) | ->].
    + rewrite !length_app. simpl. rewrite bool_decide_true by lia. by rewrite !fmap_app.
    + rewrite length_app. simpl. rewrite bool_decide_false by lia. rewrite app_nil_r, fmap_app. done.
  - destruct Hg as [(l & f & Hl & Hfp & He & ->) | ->]; intros f' [Hf | ->%list_elem_of_singleton]%elem_of_app.
    + apply Hold. rewrite Hl. set_solver.
    + destruct (Hold f) as [(pg' & _ & ? & ? & _) _]; [rewrite Hl; set_solver |]. apply Hnew; simpl; try done; lia.
    + by apply Hold.
    + by apply Hnew.
Qed.

(** What [homa_skb_extend_frags] does when it succeeds. *)
Record extended (core : Z) (skb : ptr) (sb : sk_buff) (c : homa_skb_core) (len : Z)
    (p : ptr) (off n : Z) (s s' : skb_state) : Prop := {
  ex_ok : skb_ok s';
  ex_size : 0 < n <= len;
  ex_skbs : exists sb', ss_skbs s' = <[skb := sb']> (ss_skbs s) /\ grown sb sb' p off n;
  ex_kept : frags_kept (ss_skbs s) (ss_pages s) (ss_pages s');
  ex_page : exists pg, ss_pages s' !! p = Some pg /\ 0 <= off /\ off + n <= Z.of_nat (length (pg_bytes pg));
  ex_below : forall k x f, ss_skbs s !! k = Some x -> f ∈ sb_frags x -> fr_page f = p ->
    fr_offset f + fr_size f <= off;
  ex_core : exists c', ss_cores s' !! Z.to_nat core = Some c' /\
    (n < len -> co_inuse c' = co_size c') /\ (co_inuse c = co_size c -> n = len \/ PAGE_SIZE <= n);
  ex_cores : length (ss_cores s') = length (ss_cores s)
}.

Lemma extend_last_snoc n l f :
  extend_last n (l ++ [f]) = l ++ [f <| fr_size ::= fun k => k + n |>].
Proof.
  unfold extend_last. rewrite length_app. simpl. replace (length l + 1 - 1)%nat with (length l + 0)%nat by lia.
  by rewrite alter_app_r.
Qed.

Lemma chunk_of_spec c len : 0 < len -> co_inuse c < co_size c ->
  0 < chunk_of c len <= len /\ co_inuse c + chunk_of c len <= co_size c /\
  (chunk_of c len < len -> co_inuse c + chunk_of c len = co_size c).
Proof. intros. unfold chunk_of. destruct (Z.ltb_spec (co_size c - co_inuse c) len); lia. Qed.

(** The last fragment is extended. *)
Lemma extend_same_frag core skb sb c len s :
  skb_ok s -> 0 <= core -> ss_cores s !! Z.to_nat core = Some c -> ss_skbs s !! skb = Some sb -> 0 < len ->
  can_extend c sb = true ->
  exists p n s', (let* p := deref (co_page c) in
      set_skb skb (sb <| sb_frags ::= extend_last (chunk_of c len) |> <| sb_len ::= fun k => k + chunk_of c len |>) ;;;
      set_core core (c <| co_inuse ::= fun k => k + chunk_of c len |>) ;;;
      ret (Some (p, co_inuse c, chunk_of c len))) s = Ok (Some (p, co_inuse c, n), s') /\
    extended core skb sb c len p (co_inuse c) n s s'.
Proof.
  intros Hi H0 Hc Hk Hl Hext. unfold can_extend in Hext.
  destruct (last (sb_frags sb)) as [f|] eqn:Hlast; [|done]. apply last_Some in Hlast as [l Hfr].
  apply andb_true_iff in Hext as [[Hcp Hlt]%andb_true_iff Hend]. apply bool_decide_eq_true in Hcp.
  apply Z.ltb_lt in Hlt. apply Z.eqb_eq in Hend.
  destruct (chunk_of_spec c len Hl Hlt) as (Hn & Hsz & Hfull). set (n := chunk_of c len) in *.
  pose proof (pi_cores _ _ _ _ _ Hi _ _ Hc) as [_ _ _ A4 A5]. rewrite Hcp in A5. destruct A5 as (pg & Hpg & Epg).
  set (sb' := sb <| sb_frags ::= extend_last n |> <| sb_len ::= fun k => k + n |>).
  assert (grown sb sb' (fr_page f) (co_inuse c) n) as Hg.
  { unfold grown. split_ands; try done. left. exists l, f. split_ands; try done. simpl. by rewrite Hfr, extend_last_snoc. }
  pose proof (lookup_lt_Some _ _ _ Hc) as Hlen.
  exists (fr_page f), n, (s <| ss_skbs ::= insert skb sb' |>
    <| ss_cores ::= insert (Z.to_nat core) (c <| co_inuse ::= fun k => k + n |>) |>). split.
  - rewrite Hcp. unfold deref, lift. erewrite bind_eq by reflexivity. erewrite bind_eq by reflexivity.
    erewrite bind_eq by (by eapply (set_core_eq core _ c)). reflexivity.
  - constructor; try done.
    + unfold skb_ok. simpl. eapply (grow_inv _ _ _ _ _ sb sb' _ c (fr_page f) (co_inuse c) n []); try done; try lia.
      * eapply (use_inv _ _ _ _ _ _ c (co_inuse c + n)); [exact Hi | done | lia].
      * simpl. by rewrite Hfr, extend_last_snoc, !length_app, bool_decide_true.
    + by exists sb'.
    + exists pg. split_ands; [done | lia | lia].
    + intros k x g Hx Hin Hgp. by eapply (pi_inuse _ _ _ _ _ Hi).
    + eexists. split; [apply list_lookup_insert_eq; done |]. simpl. split; lia.
    + simpl. by rewrite length_insert.
Qed.

(** A fragment is added, on the current page of the core. *)
Lemma extend_new_frag core skb sb c len s p :
  skb_ok s -> 0 <= core -> ss_cores s !! Z.to_nat core = Some c -> ss_skbs s !! skb = Some sb -> 0 < len ->
  co_page c = Some p -> co_inuse c < co_size c ->
  exists n s', (get_page p ;;;
      set_skb skb (sb <| sb_frags ::= fun l => l ++ [Build_skb_frag p (co_inuse c) (chunk_of c len)] |>
        <| sb_len ::= fun k => k + chunk_of c len |>) ;;;
      set_core core (c <| co_inuse ::= fun k => k + chunk_of c len |>) ;;;
      ret (Some (p, co_inuse c, chunk_of c len))) s = Ok (Some (p, co_inuse c, n), s') /\
    n = chunk_of c len /\ extended core skb sb c len p (co_inuse c) n s s'.
Proof.
  intros Hi H0 Hc Hk Hl Hcp Hlt. destruct (chunk_of_spec c len Hl Hlt) as (Hn & Hsz & Hfull).
  set (n := chunk_of c len) in *.
  pose proof (pi_cores _ _ _ _ _ Hi _ _ Hc) as [_ _ _ A4 A5]. rewrite Hcp in A5. destruct A5 as (pg & Hpg & Epg).
  set (sb' := sb <| sb_frags ::= fun l => l ++ [Build_skb_frag p (co_inuse c) n] |> <| sb_len ::= fun k => k + n |>).
  assert (grown sb sb' p (co_inuse c) n) as Hg by (unfold grown; split_ands; try done; by right).
  pose proof (lookup_lt_Some _ _ _ Hc) as Hlen.
  assert (p ∈ ss_cores s ≫= current) as Hcur.
  { apply list_elem_of_bind. exists c. split; [unfold current; rewrite Hcp; set_solver | by eapply list_elem_of_lookup_2]. }
  destruct (get_page_inv _ _ _ p [] s pg Hi Hpg) as (pm & Hex & Hi1 & Hsb & _).
  { intros Hid. pose proof (idle_refs _ _ _ _ _ _ Hi Hid) as H1. rewrite (pi_count _ _ _ _ _ Hi), occ_idle in H1.
    apply occ_elem in Hid, Hcur. lia. }
  exists n, (s <| ss_pages := pm |> <| ss_skbs ::= insert skb sb' |>
    <| ss_cores ::= insert (Z.to_nat core) (c <| co_inuse ::= fun k => k + n |>) |>). split; [|split; [done |]].
  - rewrite (bind_eq _ _ _ _ _ Hex). erewrite bind_eq by reflexivity.
    erewrite bind_eq by (by eapply (set_core_eq core _ c)). reflexivity.
  - constructor; try done.
    + unfold skb_ok. simpl. eapply (grow_inv _ _ _ _ _ sb sb' _ c p (co_inuse c) n [p]); try done; try lia.
      * eapply (use_inv _ _ _ _ _ _ c (co_inuse c + n)); [exact Hi1 | done | lia].
      * simpl. rewrite length_app. simpl. rewrite bool_decide_false by lia. done.
    + by exists sb'.
    + by eapply frags_kept_same.
    + destruct (refs_in pm p) as (pg' & Hpg' & _).
      { rewrite (pi_count _ _ _ _ _ Hi1), occ_idle, occ_cons, decide_True by done. lia. }
      destruct (Hsb _ _ Hpg') as (pg0 & E0 & Eb & _). rewrite Hpg in E0. injection E0 as <-.
      exists pg'. split_ands; [done | lia | rewrite Eb; lia].
    + intros k x g Hx Hin Hgp. by eapply (pi_inuse _ _ _ _ _ Hi).
    + eexists. split; [apply list_lookup_insert_eq; done |]. simpl. split; lia.
    + simpl. by rewrite length_insert.
Qed.

Definition extend_result (core : Z) (skb : ptr) (sb : sk_buff) (c : homa_skb_core) (len : Z)
    (o : option (ptr * Z * Z)) (s s' : skb_state) : Prop :=
  match o with
  | None => skb_ok s' /\ ss_skbs s' = ss_skbs s /\ frags_kept (ss_skbs s) (ss_pages s) (ss_pages s') /\
      length (ss_cores s') = length (ss_cores s)
  | Some (p, off, n) => extended core skb sb c len p off n s s'
  end.

(** The current page of the core after the alignment and, if need be, the
    allocation of a page. *)
Lemma ready_page env core c s :
  env_fits env -> skb_ok s -> 0 <= core -> ss_cores s !! Z.to_nat core = Some c ->
  let c1 := c <| co_inuse ::= fun k => ALIGN k SMP_CACHE_BYTES |> in
  exists ok c' s', (set_core core c1 ;;;
      if co_inuse c1 >=? co_size c1 then homa_skb_page_alloc env core else ret true) s = Ok (ok, s') /\
    skb_ok s' /\ ss_skbs s' = ss_skbs s /\ frags_kept (ss_skbs s) (ss_pages s) (ss_pages s') /\
    length (ss_cores s') = length (ss_cores s) /\ ss_cores s' !! Z.to_nat core = Some c' /\
    (ok = true -> is_Some (co_page c') /\ co_inuse c' < co_size c' /\
       (co_inuse c = co_size c -> co_inuse c' = 0 /\ PAGE_SIZE <= co_size c')).
Proof.
  intros He Hi H0 Hc c1. destruct (core_size _ _ _ _ _ _ _ Hi Hc) as [Hdiv _].
  pose proof (pi_cores _ _ _ _ _ Hi _ _ Hc) as [_ _ _ A4 _].
  pose proof (ALIGN_range _ _ A4 Hdiv) as Hal. pose proof (lookup_lt_Some _ _ _ Hc) as Hlen.
  rewrite (bind_eq _ _ _ _ _ (set_core_eq core s c c1 H0 Hc)).
  set (s1 := s <| ss_cores ::= insert (Z.to_nat core) c1 |>).
  assert (ss_cores s1 !! Z.to_nat core = Some c1) as Hc1 by (by apply list_lookup_insert_eq).
  assert (skb_ok s1) as Hi1 by (by apply (use_inv _ _ _ _ _ _ c _ Hi Hc)).
  destruct (Z.geb_spec (co_inuse c1) (co_size c1)) as [Hge | Hlt].
  - destruct (page_alloc_inv env core (ss_skbs s) [] s1 c1) as (ok & c' & pages' & pools' & Hex & Hi2 & _ & Hk & Hf); try done.
    exists ok, c', (took_page core ok c' pages' pools' s1). split_ands; try done.
    + simpl. by rewrite !length_insert.
    + simpl. apply list_lookup_insert_eq. by rewrite length_insert.
    + intros ->. destruct Hf as (? & -> & ?). unfold PAGE_SIZE in *. split_ands; try done; lia.
  - exists true, c1, s1. split_ands; try done.
    + simpl. by rewrite length_insert.
    + intros _. destruct (core_size _ _ _ _ _ _ _ Hi1 Hc1) as [_ Hp]. split_ands; [by apply Hp | done |].
      intros E. simpl in Hlt. lia.
Qed.

(** [homa_skb_extend_frags] keeps the invariant, and the space that it returns
    is used by no packet but the one that is extended. *)
Lemma extend_spec env core skb sb c len s :
  env_fits env -> skb_ok s -> 0 <= core -> ss_cores s !! Z.to_nat core = Some c -> ss_skbs s !! skb = Some sb ->
  0 < len -> Z.of_nat (length (sb_frags sb)) < HOMA_MAX_SKB_FRAGS ->
  exists o s', homa_skb_extend_frags env core skb len s = Ok (o, s') /\ extend_result core skb sb c len o s s'.
Proof.
  intros He Hi H0 Hc Hk Hl Hfr. unfold homa_skb_extend_frags.
  erewrite bind_eq by (unfold get_skb; rewrite Hk; reflexivity).
  rewrite (bind_eq _ _ _ _ _ (get_core_eq core s c H0 Hc)). destruct (can_extend c sb) eqn:Hext.
  { destruct (extend_same_frag core skb sb c len s) as (p & n & s' & Hex & Hres); try done.
    exists (Some (p, co_inuse c, n)), s'. split; [exact Hex | exact Hres]. }
  cbv zeta. rewrite <- bind_bind.
  destruct (ready_page env core c s He Hi H0 Hc) as (ok & c' & s1 & Hex & Hi1 & Hskb & Hkept & Hlen & Hc' & Hok).
  rewrite (bind_eq _ _ _ _ _ Hex). destruct ok; cbn [negb]; [|by exists None, s1].
  destruct (Hok eq_refl) as ([p Hp] & Hlt & Hfull).
  rewrite (bind_eq _ _ _ _ _ (get_core_eq core s1 c' H0 Hc')), Hp.
  destruct (Z.geb_spec (Z.of_nat (length (sb_frags sb))) HOMA_MAX_SKB_FRAGS) as [? | _]; [lia |].
  unfold deref, lift. erewrite bind_eq by reflexivity.
  destruct (extend_new_frag core skb sb c' len s1 p) as (n & s' & Hex' & Hn & [E1 E2 E3 E4 E5 E6 E7 E8]);
    try done; [by rewrite Hskb |].
  exists (Some (p, co_inuse c', n)), s'. split; [exact Hex' |]. rewrite Hskb in *.
  constructor; try done; [by etransitivity | | congruence].
  destruct E7 as (c2 & Hc2 & Hf2 & _). exists c2. split_ands; try done. intros E. destruct (Hfull E) as [Ez Hsz].
  unfold chunk_of in Hn. rewrite Ez in Hn. destruct (Z.ltb_spec (co_size c' - 0) len); lia.
Qed.

(** ** Writing data *)
Lemma slice_inserts_below {A} (l data : list A) off a n :
  0 <= a -> 0 <= n -> a + n <= off -> slice (list_inserts (Z.to_nat off) data l) a n = slice l a n.
Proof.
  intros Ha Hn Hle. apply list_eq. intros j. unfold slice.
  destruct (decide (j < Z.to_nat n)%nat) as [Hj | Hj]; [|by rewrite !lookup_take_ge by lia].
  rewrite !lookup_take_lt, !lookup_drop by lia. apply list_lookup_inserts_lt. lia.
Qed.

Lemma slice_inserts_at {A} (l data : list A) off :
  0 <= off -> off + Z.of_nat (length data) <= Z.of_nat (length l) ->
  slice (list_inserts (Z.to_nat off) data l) off (Z.of_nat (length data)) = data.
Proof.
  intros H0 Hle. apply list_eq. intros j. unfold slice. rewrite Nat2Z.id.
  destruct (decide (j < length data)%nat) as [Hj | Hj].
  - rewrite lookup_take_lt, lookup_drop, list_lookup_inserts by lia. f_equal. lia.
  - rewrite lookup_take_ge by lia. symmetry. apply lookup_ge_None. lia.
Qed.

Lemma inserts_inv cores m held pages pools p pg off data :
  pages_inv cores m held pages pools -> pages !! p = Some pg ->
  pages_inv cores m held (<[p := pg <| pg_bytes ::= list_inserts off data |>]> pages) pools.
Proof.
  intros Hi Hp. assert (forall q, refs (<[p := pg <| pg_bytes ::= list_inserts off data |>]> pages) q = refs pages q) as Hr.
  { intros q. unfold refs. destruct (decide (p = q)) as [<- |]; [by rewrite lookup_insert_eq, Hp | by rewrite lookup_insert_ne]. }
  eapply inv_recount; [exact Hi | | | |].
  - intros q pg' [[<- <-] | [_ H]]%lookup_insert_Some; [|by eauto]. exists pg. split_ands; try done.
    simpl. apply length_inserts.
  - intros q. by rewrite Hr, (pi_count _ _ _ _ _ Hi).
  - intros q pg' [[<- <-] | [_ H]]%lookup_insert_Some; [apply (pi_pages _ _ _ _ _ Hi _ _ Hp) |
      apply (pi_pages _ _ _ _ _ Hi _ _ H)].
  - intros q Hq. rewrite Hr. by eapply idle_refs.
Qed.

(** Data are written to the space that a packet has got. *)
Lemma write_spec core skb sb c len p off n s s' data :
  extended core skb sb c len p off n s s' -> skb_ok s -> ss_skbs s !! skb = Some sb -> Z.of_nat (length data) <= n ->
  exists pm sb', write_page p off data s' = Ok (tt, s' <| ss_pages := pm |>) /\
    skb_ok (s' <| ss_pages := pm |>) /\ ss_skbs s' = <[skb := sb']> (ss_skbs s) /\ grown sb sb' p off n /\
    frags_kept (ss_skbs s) (ss_pages s) pm /\
    (Z.of_nat (length data) = n -> content pm sb' = content (ss_pages s) sb ++ data).
Proof.
  intros [Hok Hn (sb' & Hskb & Hg) Hkept (pg & Hpg & Hoff & Hend) Hbelow _ _] Hi Hk Hd.
  set (pm := <[p := pg <| pg_bytes ::= list_inserts (Z.to_nat off) data |>]> (ss_pages s')).
  assert (frags_kept (ss_skbs s) (ss_pages s) pm) as Hkept'.
  { intros k x f Hx Hf. rewrite <- (Hkept k x f Hx Hf). unfold frag_bytes, pm.
    destruct (decide (p = fr_page f)) as [E | Hne]; [|by rewrite lookup_insert_ne].
    rewrite E, lookup_insert_eq, <- E, Hpg. simpl. pose proof (Hbelow k x f Hx Hf (eq_sym E)).
    destruct (pi_frags _ _ _ _ _ Hi k x f Hx Hf) as (_ & _ & ? & ? & _). apply slice_inserts_below; lia. }
  exists pm, sb'. split_ands; try done.
  - unfold write_page. erewrite bind_eq by (unfold get_pg; rewrite Hpg; reflexivity).
    destruct (Z.ltb_spec off 0); [lia |].
    destruct (Z.gtb_spec (off + Z.of_nat (length data)) (Z.of_nat (length (pg_bytes pg)))); [lia |]. done.
  - by apply (inserts_inv _ _ _ _ _ p pg).
  - intros E. destruct Hg as (Hh & _ & _ & Hg). unfold content. rewrite Hh, <- app_assoc. f_equal.
    assert (forall l, (forall f, f ∈ l -> f ∈ sb_frags sb) -> l ≫= frag_bytes pm = l ≫= frag_bytes (ss_pages s)) as Hl.
    { induction l as [|f l IH]; intros Hin; [done |]. rewrite !bind_cons. f_equal; [|apply IH; set_solver].
      eapply Hkept'; [exact Hk |]. apply Hin. set_solver. }
    assert (slice (list_inserts (Z.to_nat off) data (pg_bytes pg)) off n = data) as Hdata
      by (rewrite <- E; apply slice_inserts_at; lia).
    destruct Hg as [(l & f & Hfr & Hfp & He & ->) | ->].
    + rewrite Hfr, !bind_app, Hl, <- app_assoc by (rewrite Hfr; set_solver). f_equal.
      rewrite !bind_cons. cbn [mbind list_bind]. rewrite !app_nil_r. rewrite <- (Hkept' skb sb f Hk) by (rewrite Hfr; set_solver).
      unfold frag_bytes, pm. simpl. rewrite Hfp, lookup_insert_eq. simpl. rewrite <- Hdata at 3.
      destruct (pi_frags _ _ _ _ _ Hi skb sb f Hk) as (_ & _ & ? & ? & _); [rewrite Hfr; set_solver |].
      rewrite <- He, slice_cat by lia. done.
    + rewrite bind_app, Hl by done. f_equal. rewrite bind_cons. cbn [mbind list_bind]. rewrite app_nil_r. unfold frag_bytes, pm. simpl.
      by rewrite lookup_insert_eq.
Qed.
