(* ===== verification/SkbData.v ===== *)
(** * Packet buffers: contents

    Appending data to packets, from memory and from other packets, and reading
    them back. *)
From S2P Require Import Prelude Lists Types Skb SkbInv SkbAlloc.

(** The fragments of the packets other than [skb] are kept. *)
Definition others_kept (skb : ptr) (m : gmap ptr sk_buff) (pages pages' : gmap ptr page) : Prop :=
  frags_kept (delete skb m) pages pages'.

Lemma others_kept_weaken skb m sb' pages pages' :
  frags_kept (<[skb := sb']> m) pages pages' -> others_kept skb m pages pages'.
Proof. intros H k x f [Hne Hk]%lookup_delete_Some. apply (H k). by rewrite lookup_insert_ne. Qed.

(** Room for the fragments of [len] more bytes: all but the first one are on a
    new page, which has at least [PAGE_SIZE] bytes. *)
Definition frags_fit (sb : sk_buff) (c : homa_skb_core) (len : Z) : Prop :=
  Z.of_nat (length (sb_frags sb)) + (if co_inuse c =? co_size c then 0 else 1) + (len + (PAGE_SIZE - 1)) / PAGE_SIZE
    <= HOMA_MAX_SKB_FRAGS.

(** The state after [data] was appended to [skb], with result [err]. *)
Record appended (core : Z) (skb : ptr) (sb : sk_buff) (data : list Z) (err : Z) (s s' : skb_state) : Prop := {
  ap_ok : skb_ok s';
  ap_skb : exists sb', ss_skbs s' = <[skb := sb']> (ss_skbs s) /\ sb_head sb' = sb_head sb /\
    sb_users sb' = sb_users sb /\
    (err = 0 -> content (ss_pages s') sb' = content (ss_pages s) sb ++ data /\
       sb_len sb' = sb_len sb + Z.of_nat (length data));
  ap_others : others_kept skb (ss_skbs s) (ss_pages s) (ss_pages s');
  ap_cores : length (ss_cores s') = length (ss_cores s);
  ap_err : err = 0 \/ err = - ENOMEM
}.

(** One more iteration: the packet grew and the data were written. *)
Lemma grown_fits sb sb' c c' p off n len :
  grown sb sb' p off n -> frags_fit sb c len -> 0 < n < len -> co_inuse c' = co_size c' ->
  (co_inuse c = co_size c -> n = len \/ PAGE_SIZE <= n) -> frags_fit sb' c' (len - n).
Proof.
  intros (_ & _ & _ & Hg) Hf Hn Hc' Hfull. unfold frags_fit, PAGE_SIZE, HOMA_MAX_SKB_FRAGS in *.
  rewrite Hc', Z.eqb_refl. assert (length (sb_frags sb') <= length (sb_frags sb) + 1)%nat as Hlen.
  { destruct Hg as [(l & f & -> & _ & _ & ->) | ->]; rewrite !length_app; simpl; lia. }
  destruct (Z.eqb_spec (co_inuse c) (co_size c)) as [E | E]; [destruct (Hfull E) as [| H4]; [lia |] |];
    Z.div_mod_to_equations; lia.
Qed.

Lemma frags_fit_lt sb c len : frags_fit sb c len -> 0 < len -> Z.of_nat (length (sb_frags sb)) < HOMA_MAX_SKB_FRAGS.
Proof. unfold frags_fit, PAGE_SIZE. intros H Hl. destruct (co_inuse c =? co_size c); Z.div_mod_to_equations; lia. Qed.

Lemma appended_nil core skb sb s :
  skb_ok s -> ss_skbs s !! skb = Some sb -> appended core skb sb [] 0 s s.
Proof.
  intros Hi Hk. constructor; try done; [|by left]. exists sb. rewrite insert_id by done.
  split_ands; try done. intros _. rewrite app_nil_r. split; [done | simpl; lia].
Qed.

Lemma append_loop_spec env core skb fuel : forall buf s sb c,
  (length buf <= fuel)%nat -> env_fits env -> skb_ok s -> 0 <= core ->
  ss_cores s !! Z.to_nat core = Some c -> ss_skbs s !! skb = Some sb ->
  (0 < Z.of_nat (length buf) -> frags_fit sb c (Z.of_nat (length buf))) ->
  exists err s', append_loop env core skb fuel buf s = Ok (err, s') /\ appended core skb sb buf err s s'.
Proof.
  induction fuel as [|fuel IH]; intros buf s sb c Hfu He Hi H0 Hc Hk Hfit;
    (destruct buf as [|b buf]; [exists 0, s; split; [done |]; by apply appended_nil |]); [simpl in Hfu; lia |].
  cbn [append_loop]. set (data := b :: buf) in *. assert (0 < Z.of_nat (length data)) as Hpos by (simpl; lia).
  specialize (Hfit Hpos). destruct (extend_spec env core skb sb c (Z.of_nat (length data)) s) as (o & s1 & Hex & Hres); try done;
    [by eapply frags_fit_lt |].
  rewrite (bind_eq _ _ _ _ _ Hex). destruct o as [[[p off] n]|]; cbn [extend_result] in Hres.
  2:{ destruct Hres as (Hi1 & Hskb & Hkept & Hlen). exists (- ENOMEM), s1. split; [done |].
      constructor; try done; [|by apply (others_kept_weaken _ _ sb); rewrite insert_id | by right].
      exists sb. rewrite insert_id by done. split_ands; done. }
  set (chunk := take (Z.to_nat n) data). destruct (ex_size _ _ _ _ _ _ _ _ _ _ Hres) as [Hn Hle].
  assert (Z.of_nat (length chunk) = n) as Hch by (unfold chunk; rewrite length_take; lia).
  destruct (write_spec core skb sb c (Z.of_nat (length data)) p off n s s1 chunk) as (pm & sb1 & Hw & Hi2 & Hskb & Hg & Hkept & Hcont);
    try done; [lia |]. specialize (Hcont Hch).
  rewrite (bind_eq _ _ _ _ _ Hw). set (s2 := s1 <| ss_pages := pm |>) in *.
  destruct (ex_core _ _ _ _ _ _ _ _ _ _ Hres) as (c' & Hc' & Hfull & Hpage).
  pose proof (ex_cores _ _ _ _ _ _ _ _ _ _ Hres) as Hlen.
  destruct (IH (drop (Z.to_nat n) data) s2 sb1 c') as (err & s' & Hex' & [G1 (sb' & G2 & G3 & G4 & G5) G6 G7 G8]); try done.
  - rewrite length_drop. lia.
  - simpl. rewrite Hskb. apply lookup_insert_eq.
  - rewrite length_drop. replace (Z.of_nat (length data - Z.to_nat n)) with (Z.of_nat (length data) - n) by lia.
    intros Hlt. eapply grown_fits; [exact Hg | exact Hfit | lia | apply Hfull; lia | done].
  - exists err, s'. split; [exact Hex' |]. destruct Hg as (Hh & Hu & Hsl & _).
    simpl in G2. rewrite Hskb, insert_insert_eq in G2. constructor; try done; [| |by rewrite G7].
    + exists sb'. split_ands; try done; try congruence. intros E. destruct (G5 E) as [Gc Gl]. split.
      * rewrite Gc. simpl. rewrite Hcont, <- app_assoc. f_equal. apply take_drop.
      * rewrite Gl, Hsl, length_drop. lia.
    + etransitivity; [intros k x f [_ Hx]%lookup_delete_Some; by eapply Hkept |].
      simpl in G6. unfold others_kept in *. by rewrite Hskb, delete_insert_eq in G6.
Qed.

(** ** Reading *)
Lemma slice_nonpos {A} (l : list A) o n : n <= 0 -> slice l o n = [].
Proof. intros H. unfold slice. replace (Z.to_nat n) with O by lia. apply take_0. Qed.

Lemma slice_app_split {A} (l k : list A) o n chunk :
  0 <= o <= Z.of_nat (length l) -> 0 <= n -> chunk = Z.min n (Z.of_nat (length l) - o) ->
  slice (l ++ k) o n = slice l o chunk ++ slice k 0 (n - chunk).
Proof.
  intros Ho Hn ->. set (c := Z.min n (Z.of_nat (length l) - o)).
  replace (slice (l ++ k) o n) with (slice (l ++ k) o (c + (n - c))) by (f_equal; lia). rewrite <- slice_cat by lia.
  rewrite slice_app_l by lia. f_equal.
  destruct (decide (n <= Z.of_nat (length l) - o)).
  - by rewrite !slice_nonpos by lia.
  - rewrite slice_app_r by lia. f_equal. lia.
Qed.

Lemma frag_bytes_length pages f : frag_ok pages f -> Z.of_nat (length (frag_bytes pages f)) = fr_size f.
Proof.
  intros (pg & Hp & H0 & H1 & H2). unfold frag_bytes. rewrite Hp. apply slice_length; lia.
Qed.

Lemma frag_read_eq f o n s :
  frag_ok (ss_pages s) f -> 0 <= o -> 0 <= n -> o + n <= fr_size f ->
  frag_read f o n s = Ok (slice (frag_bytes (ss_pages s) f) o n, s).
Proof.
  intros (pg & Hp & H0 & H1 & H2) Ho Hn Hle. unfold frag_read, frag_bytes.
  erewrite bind_eq by (unfold get_pg; rewrite Hp; reflexivity). rewrite Hp, slice_slice by lia.
  destruct (Z.ltb_spec (fr_offset f + o) 0); [lia |].
  destruct (Z.gtb_spec (fr_offset f + o + n) (Z.of_nat (length (pg_bytes pg)))); [lia |]. done.
Qed.

Lemma get_loop_spec s : forall frags frag_off offset len,
  (forall f, f ∈ frags -> frag_ok (ss_pages s) f) -> 0 <= len -> (len = 0 \/ frag_off <= offset) ->
  get_loop frags frag_off offset len s = Ok (slice (frags ≫= frag_bytes (ss_pages s)) (offset - frag_off) len, s).
Proof.
  induction frags as [|f frags IH]; intros frag_off offset len Hf Hl Ho; cbn [get_loop].
  { unfold slice. simpl. by rewrite drop_nil, take_nil. }
  destruct (Z.leb_spec len 0) as [Hz | Hz]; [by rewrite slice_nonpos |].
  assert (frag_ok (ss_pages s) f) as Hfok by (apply Hf; set_solver).
  pose proof (frag_bytes_length _ _ Hfok) as Hfl. rewrite bind_cons.
  assert (forall g, g ∈ frags -> frag_ok (ss_pages s) g) as Hf' by (intros g Hg; apply Hf; set_solver).
  destruct (Z.geb_spec offset (frag_off + fr_size f)) as [Hge | Hlt].
  - rewrite IH by (done || lia). rewrite slice_app_r by lia. do 3 f_equal. lia.
  - destruct Hfok as (pg & Hp & H0 & H1 & H2).
    assert (frag_ok (ss_pages s) f) as Hfok by (apply Hf; set_solver). cbv zeta.
    match goal with |- context [if ?a >? ?b then ?x else ?y] => set (chunk := if a >? b then x else y) end.
    assert (chunk = Z.min len (Z.of_nat (length (frag_bytes (ss_pages s) f)) - (offset - frag_off))) as Hch
      by (unfold chunk; rewrite Hfl; destruct (Z.gtb_spec (fr_size f - (offset - frag_off)) len); lia).
    erewrite bind_eq by (apply frag_read_eq; [done | lia ..]).
    erewrite bind_eq by (apply IH; [done | lia |]; destruct (decide (len - chunk = 0)); [by left | right; lia]).
    unfold ret. do 2 f_equal. rewrite (slice_app_split _ _ _ len chunk) by lia. f_equal.
    destruct (decide (len - chunk = 0)) as [-> |]; [by rewrite !slice_nonpos by lia |]. f_equal. lia.
Qed.

Lemma skb_get_spec skb sb s offset len :
  (forall f, f ∈ sb_frags sb -> frag_ok (ss_pages s) f) -> ss_skbs s !! skb = Some sb -> 0 <= offset -> 0 <= len ->
  homa_skb_get skb offset len s = Ok (slice (content (ss_pages s) sb) offset len, s).
Proof.
  intros Hf Hk Ho Hl. unfold homa_skb_get, content.
  erewrite bind_eq by (unfold get_skb; rewrite Hk; reflexivity). cbv zeta.
  set (h := Z.of_nat (length (sb_head sb))). destruct (Z.ltb_spec offset h) as [Hlt | Hge].
  - match goal with |- context [if ?a >? ?b then ?x else ?y] => set (chunk := if a >? b then x else y) end.
    assert (chunk = Z.min len (h - offset)) as Hch by (unfold chunk; destruct (Z.gtb_spec len (h - offset)); lia).
    erewrite bind_eq by (apply get_loop_spec; [done | lia |]; destruct (decide (len - chunk = 0)); [by left | right; lia]).
    unfold ret. do 2 f_equal. rewrite (slice_app_split _ _ _ len chunk) by (fold h; lia). f_equal.
    destruct (decide (len - chunk = 0)) as [-> |]; [by rewrite !slice_nonpos by lia |]. f_equal. lia.
  - rewrite get_loop_spec by (done || lia). by rewrite slice_app_r by (fold h; lia).
Qed.

(** ** Virtual copies *)
Lemma get_page_eq p s pg :
  ss_pages s !! p = Some pg ->
  get_page p s = Ok (tt, s <| ss_pages ::= insert p (pg <| pg_refs ::= fun n => n + 1 |>) |>).
Proof. intros Hp. unfold get_page. by erewrite bind_eq by (unfold get_pg; rewrite Hp; reflexivity). Qed.

Lemma frag_bytes_refs pages p pg n f :
  pages !! p = Some pg -> frag_bytes (<[p := pg <| pg_refs ::= n |>]> pages) f = frag_bytes pages f.
Proof.
  intros Hp. unfold frag_bytes. destruct (decide (p = fr_page f)) as [<- |].
  - by rewrite lookup_insert_eq, Hp.
  - by rewrite lookup_insert_ne.
Qed.

(** The page of a fragment is not idle. *)
Lemma frag_not_idle cores m held pages pools k sb f :
  pages_inv cores m held pages pools -> m !! k = Some sb -> f ∈ sb_frags sb -> fr_page f ∉ idle cores pools.
Proof.
  intros Hi Hk Hf Hid. pose proof (idle_refs _ _ _ _ _ _ Hi Hid) as H1. rewrite (pi_count _ _ _ _ _ Hi), occ_idle in H1.
  assert (fr_page f ∈ frag_pages m) as Hin.
  { apply list_elem_of_bind. exists (k, sb). split; [|by apply elem_of_map_to_list]. apply list_elem_of_fmap. eauto. }
  apply occ_elem in Hid, Hin. lia.
Qed.

(** A part of a fragment of [src] becomes a fragment of [dst]. *)
Lemma share_frag src dst ssb sb f o n s :
  skb_ok s -> ss_skbs s !! src = Some ssb -> ss_skbs s !! dst = Some sb -> f ∈ sb_frags ssb ->
  0 <= o -> 0 < n -> o + n <= fr_size f ->
  let sb' := sb <| sb_frags ::= fun l => l ++ [Build_skb_frag (fr_page f) (fr_offset f + o) n] |>
    <| sb_len ::= fun k => k + n |> in
  exists pm, (get_page (fr_page f) ;;; set_skb dst sb') s = Ok (tt, s <| ss_pages := pm |> <| ss_skbs ::= insert dst sb' |>) /\
    skb_ok (s <| ss_pages := pm |> <| ss_skbs ::= insert dst sb' |>) /\
    (forall g, frag_bytes pm g = frag_bytes (ss_pages s) g) /\
    content pm sb' = content (ss_pages s) sb ++ slice (frag_bytes (ss_pages s) f) o n.
Proof.
  intros Hi Hs Hd Hf Ho Hn Hle sb'.
  destruct (pi_frags _ _ _ _ _ Hi _ _ _ Hs Hf) as (pg & Hp & H0 & H1 & H2).
  destruct (get_page_inv _ _ _ (fr_page f) [] s pg Hi Hp) as (pm & Hex & Hi1 & Hsb & _); [exact (frag_not_idle _ _ _ _ _ _ _ _ Hi Hs Hf) |].
  rewrite (get_page_eq _ _ _ Hp) in Hex. injection Hex as <-.
  eexists. split; [rewrite (bind_eq _ _ _ _ _ (get_page_eq _ _ _ Hp)); reflexivity |].
  assert (forall g, frag_bytes (<[fr_page f := pg <| pg_refs ::= fun k => k + 1 |>]> (ss_pages s)) g = frag_bytes (ss_pages s) g)
    as Hb by (intros g; by apply frag_bytes_refs).
  split_ands; [|exact Hb |].
  - eapply (inv_skb _ _ _ _ _ _ _ _ sb' Hi1 Hd); simpl.
    + by rewrite fmap_app, app_nil_r.
    + intros g [Hg | ->%list_elem_of_singleton]%elem_of_app.
      * split; [by eapply (pi_frags _ _ _ _ _ Hi1) | intros; by eapply (pi_inuse _ _ _ _ _ Hi1)].
      * split.
        -- destruct (pi_frags _ _ _ _ _ Hi1 _ _ _ Hs Hf) as (pg' & Hp' & ? & ? & ?). exists pg'. simpl. split_ands; try done; lia.
        -- intros i c Hc Hcp. simpl in *. pose proof (pi_inuse _ _ _ _ _ Hi1 i c _ _ _ _ Hc Hcp Hs Hf eq_refl). lia.
  - unfold content, sb'. simpl. rewrite bind_app, app_assoc. f_equal.
    + f_equal. induction (sb_frags sb) as [|g l IH]; [done |]. by rewrite !bind_cons, Hb, IH.
    + rewrite bind_cons. cbn [mbind list_bind]. rewrite app_nil_r, Hb. unfold frag_bytes. simpl. rewrite Hp.
      by rewrite slice_slice by lia.
Qed.

(** The state after [data] became part of [dst], by copying or by reference. *)
Record shared (dst : ptr) (sb : sk_buff) (data : list Z) (err : Z) (s s' : skb_state) : Prop := {
  sh_ok : skb_ok s';
  sh_skb : exists sb', ss_skbs s' = <[dst := sb']> (ss_skbs s) /\ sb_head sb' = sb_head sb /\
    sb_users sb' = sb_users sb /\ (err = 0 -> content (ss_pages s') sb' = content (ss_pages s) sb ++ data);
  sh_others : others_kept dst (ss_skbs s) (ss_pages s) (ss_pages s');
  sh_err : err = 0 \/ err = - EINVAL
}.

Lemma virtual_loop_spec src dst ssb : forall frags src_off offset len s sb,
  skb_ok s -> src <> dst -> ss_skbs s !! src = Some ssb -> ss_skbs s !! dst = Some sb ->
  (forall f, f ∈ frags -> f ∈ sb_frags ssb) -> 0 <= len -> (len = 0 \/ src_off <= offset) ->
  exists err s', virtual_loop dst frags src_off offset len s = Ok (err, s') /\
    shared dst sb (slice (frags ≫= frag_bytes (ss_pages s)) (offset - src_off) len) err s s'.
Proof.
  assert (forall dst sb s, skb_ok s -> ss_skbs s !! dst = Some sb -> shared dst sb [] 0 s s) as Hnone.
  { intros d sb s Hi Hd. constructor; try done; [|by left]. exists sb. rewrite insert_id, app_nil_r by done. done. }
  induction frags as [|f frags IH]; intros src_off offset len s sb Hi Hne Hs Hd Hin Hl Ho; cbn [virtual_loop].
  { exists 0, s. split; [done |]. replace (slice _ _ len) with (@nil Z); [by apply Hnone |].
    unfold slice. simpl. by rewrite drop_nil, take_nil. }
  destruct (Z.leb_spec len 0) as [Hz | Hz]; [exists 0, s; split; [done |]; rewrite slice_nonpos by lia; by apply Hnone |].
  assert (f ∈ sb_frags ssb) as Hf by (apply Hin; set_solver).
  pose proof (pi_frags _ _ _ _ _ Hi _ _ _ Hs Hf) as Hfok. pose proof (frag_bytes_length _ _ Hfok) as Hfl.
  assert (forall g, g ∈ frags -> g ∈ sb_frags ssb) as Hin' by (intros g Hg; apply Hin; set_solver).
  rewrite bind_cons. destruct (Z.geb_spec offset (src_off + fr_size f)) as [Hge | Hlt].
  { destruct (IH (src_off + fr_size f) offset len s sb) as (err & s' & Hex & Hsh); try done; [by right |].
    exists err, s'. split; [done |]. rewrite slice_app_r by lia.
    by replace (offset - src_off - _) with (offset - (src_off + fr_size f)) by lia. }
  cbv zeta. match goal with |- context [if ?a >? ?b then ?x else ?y] => set (chunk := if a >? b then x else y) end.
  assert (chunk = Z.min len (Z.of_nat (length (frag_bytes (ss_pages s) f)) - (offset - src_off))) as Hch
    by (unfold chunk; rewrite Hfl; destruct (Z.gtb_spec (fr_size f - (offset - src_off)) len); lia).
  rewrite (slice_app_split _ _ _ len chunk) by lia.
  erewrite bind_eq by (unfold get_skb; rewrite Hd; reflexivity).
  destruct (Z.of_nat (length (sb_frags sb)) =? HOMA_MAX_SKB_FRAGS).
  { exists (- EINVAL), s. split; [done |]. constructor; try done; [|by right]. exists sb. by rewrite insert_id. }
  rewrite <- bind_bind. destruct Hfok as (pg & Hp & H0 & H1 & H2).
  destruct (share_frag src dst ssb sb f (offset - src_off) chunk s) as (pm & Hex & Hi1 & Hb & Hcont); try done; try lia.
  rewrite (bind_eq _ _ _ _ _ Hex). set (s1 := s <| ss_pages := pm |> <| ss_skbs ::= _ |>) in *.
  match type of Hcont with content pm ?x = _ => set (sb1 := x) in * end.
  destruct (IH (src_off + fr_size f) (offset + chunk) (len - chunk) s1 sb1)
    as (err & s' & Hex' & [G1 (sb' & G2 & G3 & G4 & G5) G6 G7]); try done; try lia.
  - simpl. by rewrite lookup_insert_ne.
  - apply lookup_insert_eq.
  - exists err, s'. split; [exact Hex' |]. simpl in G2. rewrite insert_insert_eq in G2. constructor; try done.
    + exists sb'. split_ands; try done. intros E. rewrite (G5 E). simpl ss_pages. rewrite Hcont, <- app_assoc. do 2 f_equal.
      assert (frags ≫= frag_bytes pm = frags ≫= frag_bytes (ss_pages s)) as ->
        by (clear -Hb; induction frags as [|g l IHl]; [done |]; by rewrite !bind_cons, Hb, IHl).
      destruct (decide (len - chunk = 0)) as [-> |]; [by rewrite !slice_nonpos by lia |]. f_equal. lia.
    + unfold others_kept in *. simpl in G6. rewrite delete_insert_eq in G6. etransitivity; [|exact G6].
      intros k x g _ _. apply Hb.
Qed.

(** ** Correctness *)

(** What can be read from the packets other than [skb] stays the same. *)
Definition others_read (skb : ptr) (s s' : skb_state) : Prop :=
  forall k o n, k <> skb -> is_Some (ss_skbs s !! k) -> 0 <= o -> 0 <= n ->
    exists b, homa_skb_get k o n s = Ok (b, s) /\ homa_skb_get k o n s' = Ok (b, s').

Lemma skb_frags_ok s k sb : skb_ok s -> ss_skbs s !! k = Some sb -> forall f, f ∈ sb_frags sb -> frag_ok (ss_pages s) f.
Proof. intros Hi Hk f Hf. by eapply (pi_frags _ _ _ _ _ Hi). Qed.

Lemma others_read_kept skb sb' s s' :
  skb_ok s -> skb_ok s' -> ss_skbs s' = <[skb := sb']> (ss_skbs s) ->
  others_kept skb (ss_skbs s) (ss_pages s) (ss_pages s') -> others_read skb s s'.
Proof.
  intros Hi Hi' Hm Hk k o n Hne [x Hx] Ho Hn.
  assert (ss_skbs s' !! k = Some x) as Hx' by (rewrite Hm; by rewrite lookup_insert_ne).
  exists (slice (content (ss_pages s) x) o n). split.
  - apply skb_get_spec; try done. by eapply skb_frags_ok.
  - rewrite <- (content_kept (delete skb (ss_skbs s)) (ss_pages s) (ss_pages s') k x Hk)
      by (by rewrite lookup_delete_ne). apply skb_get_spec; try done. by eapply skb_frags_ok.
Qed.

(** The length of a packet, from the transport header on. *)
Definition skb_length (s : skb_state) (sb : sk_buff) : Z := Z.of_nat (length (content (ss_pages s) sb)).

(** C12: data that are appended to a packet can be read back where the packet
    ended before; the reference counts and the bounds of all pages stay right,
    and what can be read from any other packet does not change, although
    packets share pages.  If there is no memory an error is returned. *)
Theorem append_to_frag_correct env core skb sb c buf s :
  env_fits env -> skb_ok s -> 0 <= core -> ss_cores s !! Z.to_nat core = Some c -> ss_skbs s !! skb = Some sb ->
  frags_fit sb c (Z.of_nat (length buf)) ->
  exists err s', homa_skb_append_to_frag env core skb buf s = Ok (err, s') /\ skb_ok s' /\ others_read skb s s' /\
    (err = - ENOMEM \/
     err = 0 /\ homa_skb_get skb (skb_length s sb) (Z.of_nat (length buf)) s' = Ok (buf, s') /\
       forall o n, 0 <= o -> 0 <= n -> o + n <= skb_length s sb ->
         exists b, homa_skb_get skb o n s = Ok (b, s) /\ homa_skb_get skb o n s' = Ok (b, s')).
Proof.
  intros He Hi H0 Hc Hk Hfit.
  destruct (append_loop_spec env core skb (length buf) buf s sb c) as (err & s' & Hex & [G1 (sb' & G2 & G3 & G4 & G5) G6 G7 G8]);
    try done.
  exists err, s'. split; [exact Hex |]. split; [done |]. split; [by eapply others_read_kept |].
  destruct G8 as [-> | ->]; [right | by left]. split; [done |]. destruct (G5 eq_refl) as [Hcont _].
  assert (ss_skbs s' !! skb = Some sb') as Hk' by (rewrite G2; apply lookup_insert_eq).
  assert (forall o n, 0 <= o -> 0 <= n -> homa_skb_get skb o n s' = Ok (slice (content (ss_pages s') sb') o n, s')) as Hget
    by (intros; apply skb_get_spec; try done; by eapply skb_frags_ok).
  unfold skb_length in *. split.
  - rewrite Hget, Hcont by lia. rewrite slice_app_r, Z.sub_diag, slice_full by lia. done.
  - intros o n Ho Hn Hle. exists (slice (content (ss_pages s) sb) o n). split.
    + apply skb_get_spec; try done. by eapply skb_frags_ok.
    + rewrite Hget, Hcont by lia. by rewrite slice_app_l by lia.
Qed.

Lemma frags_fit_le sb c len len' : frags_fit sb c len -> len' <= len -> frags_fit sb c len'.
Proof. unfold frags_fit, PAGE_SIZE. intros H Hl. destruct (co_inuse c =? co_size c); Z.div_mod_to_equations; lia. Qed.

Lemma frags_bind_kept (l : list skb_frag) pages pages' :
  (forall f, f ∈ l -> frag_bytes pages' f = frag_bytes pages f) -> l ≫= frag_bytes pages' = l ≫= frag_bytes pages.
Proof.
  induction l as [|f l IH]; intros H; [done |]. rewrite !bind_cons, H, IH; [done | set_solver | set_solver].
Qed.

(** The result of [homa_skb_append_from_skb], in terms of contents. *)
Lemma append_from_skb_spec env core dst src dsb ssb c offset len s :
  env_fits env -> skb_ok s -> 0 <= core -> ss_cores s !! Z.to_nat core = Some c -> src <> dst ->
  ss_skbs s !! src = Some ssb -> ss_skbs s !! dst = Some dsb -> 0 <= offset -> 0 <= len ->
  frags_fit dsb c (Z.of_nat (length (sb_head ssb))) ->
  exists err s' sb', homa_skb_append_from_skb env core dst src offset len s = Ok (err, s') /\ skb_ok s' /\
    ss_skbs s' = <[dst := sb']> (ss_skbs s) /\ others_kept dst (ss_skbs s) (ss_pages s) (ss_pages s') /\
    (err = - ENOMEM \/ err = - EINVAL \/
     err = 0 /\ content (ss_pages s') sb' = content (ss_pages s) dsb ++ slice (content (ss_pages s) ssb) offset len).
Proof.
  intros He Hi H0 Hc Hne Hs Hd Ho Hl Hfit. unfold homa_skb_append_from_skb, content at 3.
  erewrite bind_eq by (unfold get_skb; rewrite Hs; reflexivity). cbv zeta.
  set (h := Z.of_nat (length (sb_head ssb))) in *. destruct (Z.ltb_spec offset h) as [Hlt | Hge].
  2:{ destruct (virtual_loop_spec src dst ssb (sb_frags ssb) h offset len s dsb)
        as (err & s' & Hex & [G1 (sb' & G2 & _ & _ & G5) G6 G7]); try done; [by right |].
      exists err, s', sb'. split_ands; try done. destruct G7 as [-> | ->]; [|auto]. right. right.
      split; [done |]. rewrite slice_app_r by (fold h; lia). by apply G5. }
  match goal with |- context [if ?a >? ?b then ?x else ?y] => set (chunk := if a >? b then x else y) end.
  assert (chunk = Z.min len (h - offset)) as Hch by (unfold chunk; destruct (Z.gtb_spec len (h - offset)); lia).
  rewrite (slice_app_split _ _ _ len chunk) by (fold h; lia). set (data := slice (sb_head ssb) offset chunk).
  assert (Z.of_nat (length data) = chunk) as Hdl by (apply slice_length; fold h; lia).
  destruct (append_loop_spec env core dst (length data) data s dsb c)
    as (err & s1 & Hex & [G1 (sb1 & G2 & G3 & G4 & G5) G6 G7 G8]); try done.
  { intros _. eapply frags_fit_le; [exact Hfit | lia]. }
  unfold homa_skb_append_to_frag. rewrite (bind_eq _ _ _ _ _ Hex).
  destruct G8 as [-> | ->]; cbn [Z.eqb negb]; [|exists (- ENOMEM), s1, sb1; split_ands; try done; by left].
  destruct (G5 eq_refl) as [Hcont _].
  destruct (virtual_loop_spec src dst ssb (sb_frags ssb) h (offset + chunk) (len - chunk) s1 sb1)
    as (err & s' & Hex' & [K1 (sb' & K2 & _ & _ & K5) K6 K7]); try done; try lia.
  - rewrite G2. by rewrite lookup_insert_ne.
  - rewrite G2. apply lookup_insert_eq.
  - rewrite G2, insert_insert_eq in K2. exists err, s', sb'. split_ands; try done.
    + unfold others_kept in *. rewrite G2, delete_insert_eq in K6. by etransitivity.
    + destruct K7 as [-> | ->]; [|auto]. right. right. split; [done |].
      rewrite (K5 eq_refl), Hcont, <- app_assoc. do 2 f_equal.
      rewrite (frags_bind_kept _ (ss_pages s) (ss_pages s1))
        by (intros f Hf; eapply (G6 src ssb f); [by rewrite lookup_delete_ne | done]).
      destruct (decide (len - chunk = 0)) as [-> |]; [by rewrite !slice_nonpos by lia |]. f_equal. lia.
Qed.

(** Copying part of a packet to the end of another one, which shares the
    pages instead of copying the data, gives the same bytes as reading them
    from the source; the reference counts stay right, and neither the source
    nor any other packet changes.  Errors are that there is no memory, or too
    many fragments. *)
Theorem append_from_skb_correct env core dst src dsb ssb c offset len s :
  env_fits env -> skb_ok s -> 0 <= core -> ss_cores s !! Z.to_nat core = Some c -> src <> dst ->
  ss_skbs s !! src = Some ssb -> ss_skbs s !! dst = Some dsb -> 0 <= offset -> 0 <= len ->
  frags_fit dsb c (Z.of_nat (length (sb_head ssb))) ->
  exists err s', homa_skb_append_from_skb env core dst src offset len s = Ok (err, s') /\
    skb_ok s' /\ others_read dst s s' /\
    (err = - ENOMEM \/ err = - EINVAL \/
     err = 0 /\ exists b, homa_skb_get src offset len s = Ok (b, s) /\
       homa_skb_get dst (skb_length s dsb) len s' = Ok (b, s')).
Proof.
  intros He Hi H0 Hc Hne Hs Hd Ho Hl Hfit.
  destruct (append_from_skb_spec env core dst src dsb ssb c offset len s)
    as (err & s' & sb' & Hex & Hi' & Hm & Hkept & Hres); try done.
  exists err, s'. split; [done |]. split; [done |]. split; [by eapply others_read_kept |].
  destruct Hres as [? | [? | [-> Hcont]]]; [auto .. |]. right. right. split; [done |].
  exists (slice (content (ss_pages s) ssb) offset len). split; [apply skb_get_spec; try done; by eapply skb_frags_ok |].
  assert (ss_skbs s' !! dst = Some sb') as Hk' by (rewrite Hm; apply lookup_insert_eq).
  unfold skb_length. rewrite (skb_get_spec dst sb' s') by (done || lia || by eapply skb_frags_ok).
  rewrite Hcont, slice_app_r, Z.sub_diag by lia. by rewrite slice_slice, Z.add_0_r by lia.
Qed.

(** A core with a small current page, a packet with a linear part and a
    fragment on that page, and an empty packet. *)
Definition ex_page : page := Build_page 2 0 0 ([3; 4; 5] ++ replicate 4093 0).
Definition ex_core : homa_skb_core := Build_homa_skb_core (Some 0) (Some 1%positive) 3 4096 0 (replicate 16 None).
Definition ex_src : sk_buff := Build_sk_buff 1 [1; 2] [Build_skb_frag 1%positive 0 3] 5.
Definition ex_dst : sk_buff := Build_sk_buff 1 [] [] 0.
Definition ex_skbs : skb_state := {|
  ss_pages := {[1%positive := ex_page]}; ss_skbs := {[7%positive := ex_src; 8%positive := ex_dst]};
  ss_cores := [ex_core]; ss_pools := [Some (Build_homa_page_pool 0 0 (replicate 1000 None))];
  ss_max_numa := 0; ss_frees_per_sec := 1000; ss_pages_to_free := None; ss_slots := 0; ss_free_time := 0;
  ss_min_kb := 3000 |}.
(** A host without free memory. *)
Definition ex_page_env : page_env := Build_page_env (fun _ => None) (fun _ => None).

Lemma ex_page_env_fits : env_fits ex_page_env.
Proof. intros s p pg. done. Qed.

Lemma ex_skbs_frags k sb f : ss_skbs ex_skbs !! k = Some sb -> f ∈ sb_frags sb -> f = Build_skb_frag 1%positive 0 3.
Proof.
  simpl. intros [[<- <-] | [_ [<- <-]%lookup_singleton_Some]]%lookup_insert_Some; simpl; [|by intros ?%elem_of_nil].
  by intros ->%list_elem_of_singleton.
Qed.

Lemma ex_skbs_ok : skb_ok ex_skbs.
Proof.
  constructor.
  - intros p. assert (all_refs (ss_cores ex_skbs) (ss_skbs ex_skbs) (ss_pools ex_skbs) [] = [1%positive; 1%positive]) as ->
      by (vm_compute; reflexivity).
    rewrite !occ_cons, occ_nil. unfold refs. destruct (decide (1%positive = p)) as [<- | Hne]; [by vm_compute |].
    change (ss_pages ex_skbs) with ({[1%positive := ex_page]} : gmap ptr page). by rewrite lookup_singleton_ne, !decide_False.
  - intros p pg Hp. change (({[1%positive := ex_page]} : gmap ptr page) !! p = Some pg) in Hp. apply lookup_singleton_Some in Hp as [<- <-].
    split; [by vm_compute |]. right. by vm_compute.
  - intros p Hp. assert (idle (ss_cores ex_skbs) (ss_pools ex_skbs) = []) as E by (vm_compute; reflexivity).
    rewrite E in Hp. by apply elem_of_nil in Hp.
  - apply NoDup_singleton.
  - intros i c Hc. destruct i as [|i]; [|by apply lookup_nil in Hc || done]. injection Hc as <-. constructor.
    + by vm_compute.
    + by vm_compute.
    + by exists 0, (Build_homa_page_pool 0 0 (replicate 1000 None)).
    + by vm_compute.
    + exists ex_page. by vm_compute.
  - intros i pool Hp. destruct i as [|i]; [|done]. injection Hp as <-. by vm_compute.
  - intros k sb f Hk ->%(ex_skbs_frags k sb f Hk). exists ex_page. by vm_compute.
  - intros i c p k sb f Hc _ Hk ->%(ex_skbs_frags k sb f Hk) _. destruct i as [|i]; [|done].
    injection Hc as <-. by vm_compute.
Qed.

Lemma append_to_frag_correct_witness :
  exists s', homa_skb_append_to_frag ex_page_env 0 7%positive [6; 7] ex_skbs = Ok (0, s') /\
    homa_skb_get 7%positive 5 2 s' = Ok ([6; 7], s') /\ homa_skb_get 7%positive 1 2 s' = Ok ([2; 3], s').
Proof.
  destruct (append_to_frag_correct ex_page_env 0 7%positive ex_src ex_core [6; 7] ex_skbs) as (err & s' & H & _ & _ & Hr).
  - exact ex_page_env_fits.
  - exact ex_skbs_ok.
  - lia.
  - reflexivity.
  - reflexivity.
  - by vm_compute.
  - destruct Hr as [-> | (-> & Hget & Hold)]; [exfalso; vm_compute in H; discriminate H |].
    exists s'. split; [exact H |]. split; [exact Hget |].
    destruct (Hold 1 2) as (b & Hb & Hb'); [lia | lia | by vm_compute |].
    assert (b = [2; 3]) as -> by (vm_compute in Hb; congruence). exact Hb'.
Defined.

Lemma append_from_skb_correct_witness :
  exists s', homa_skb_append_from_skb ex_page_env 0 8%positive 7%positive 1 3 ex_skbs = Ok (0, s') /\
    homa_skb_get 8%positive 0 3 s' = Ok ([2; 3; 4], s').
Proof.
  destruct (append_from_skb_correct ex_page_env 0 8%positive 7%positive ex_dst ex_src ex_core 1 3 ex_skbs)
    as (err & s' & H & _ & _ & Hr).
  - exact ex_page_env_fits.
  - exact ex_skbs_ok.
  - lia.
  - reflexivity.
  - discriminate.
  - reflexivity.
  - reflexivity.
  - lia.
  - lia.
  - by vm_compute.
  - destruct Hr as [-> | [-> | (-> & b & Hb & Hb')]]; [exfalso; vm_compute in H; discriminate H .. |].
    exists s'. split; [exact H |]. assert (b = [2; 3; 4]) as -> by (vm_compute in Hb; congruence). exact Hb'.
Defined.
