(* ===== verification/SkbFree.v ===== *)
(** * Packet buffers: release

    Freeing packets, caching and releasing pages, initialisation and cleanup:
    no page is freed while it is in use, and none is lost. *)
From S2P Require Import Prelude Lists Types Skb SkbInv SkbAlloc SkbData.

(** The state differs in its pages and pools only. *)
Definition with_pages (pages : gmap ptr page) (pools : list (option homa_page_pool)) (s : skb_state) : skb_state :=
  s <| ss_pages := pages |> <| ss_pools := pools |>.

Lemma idle_page_keep pages pm q :
  is_idle_page pages q -> same_bytes pages pm -> refs pm q = refs pages q -> is_idle_page pm q.
Proof.
  intros (pg & Hp & H1 & Ho) Hs Hr. unfold refs in Hr at 2. rewrite Hp, H1 in Hr.
  destruct (refs_in pm q) as (pg' & Hp' & E); [lia |]. destruct (Hs _ _ Hp') as (pg0 & E0 & _ & Eo & _).
  exists pg'. split_ands; [done | lia | congruence].
Qed.

Lemma idle_page_refs pages q : is_idle_page pages q -> refs pages q = 1.
Proof. intros (pg & Hp & H1 & _). unfold refs. by rewrite Hp. Qed.

(** ** Caching pages *)
Lemma cache_page_inv cores m held p s :
  pages_inv cores m (p :: held) (ss_pages s) (ss_pools s) -> is_idle_page (ss_pages s) p ->
  exists pm pools', cache_page p s = Ok (tt, with_pages pm pools' s) /\
    pages_inv cores m held pm pools' /\ frags_kept m (ss_pages s) pm /\ pools_keep (ss_pools s) pools' /\
    (forall q, q <> p -> is_idle_page (ss_pages s) q -> is_idle_page pm q).
Proof.
  intros Hi (pg & Hp & H1 & Ho). unfold cache_page. erewrite bind_eq by (unfold get_pg; rewrite Hp; reflexivity).
  destruct (pi_pages _ _ _ _ _ Hi p pg Hp) as [_ [(_ & _ & pool & Hn & Hpool) | [E _]]];
    [|unfold HOMA_SKB_PAGE_ORDER in Ho; lia].
  rewrite (bind_eq _ _ _ _ _ (get_pool_eq _ s pool Hn Hpool)). unfold deref, lift. erewrite bind_eq by reflexivity.
  destruct (pi_pools _ _ _ _ _ Hi _ _ Hpool) as (Hlow & Hent & Hlen).
  destruct (Z.ltb_spec (pp_avail pool) HOMA_PAGE_POOL_SIZE) as [Hlt | Hge].
  - destruct (live_push (pp_avail pool) (pp_pages pool) p Hent) as [Hl Hent']; [lia |].
    set (l' := <[Z.to_nat (pp_avail pool) := Some p]> (pp_pages pool)) in *.
    set (pool' := pool <| pp_pages := l' |> <| pp_avail ::= fun n => n + 1 |>).
    exists (ss_pages s), (<[Z.to_nat (pg_nid pg) := Some pool']> (ss_pools s)). split_ands; try done.
    + destruct Hent as [Hav _].
      erewrite bind_eq by (rewrite (proj2 (arr_set_Ok _ (pp_avail pool) (Some p) _)) by (split; [lia | reflexivity]); reflexivity).
      by rewrite (set_pool_eq _ s _ _ Hn Hpool).
    + destruct (bind_insert pool_pages (ss_pools s) _ _ Hpool) as (r & E1 & E2).
      assert (<[Z.to_nat (pg_nid pg) := Some pool']> (ss_pools s) ≫= pool_pages ≡ₚ p :: (ss_pools s ≫= pool_pages)) as Hperm.
      { rewrite E1, (E2 (Some pool')). simpl. rewrite Hl, <- app_assoc. simpl. by rewrite <- Permutation_middle. }
      eapply inv_pools; [exact Hi | by eapply pools_keep_insert | | |].
      * intros j x [(<- & [= <-] & _) | [_ Hj]]%list_lookup_insert_Some; [|by eapply (pi_pools _ _ _ _ _ Hi)].
        unfold pool_ok, pool'. simpl. split_ands; try lia; [apply Hent' .. |]. unfold l'. by rewrite length_insert.
      * rewrite Hperm. simpl. by rewrite Permutation_middle.
      * intros q. rewrite Hperm. intros [-> | Hq]%elem_of_cons; [by exists pg |].
        apply (pi_idle _ _ _ _ _ Hi). unfold idle. set_solver.
    + by eapply pools_keep_insert.
  - destruct (put_page_inv _ _ _ _ _ _ Hi) as (pm & Hex & Hi' & Hsb & Hr).
    exists pm, (ss_pools s). split_ands; try done; [by eapply frags_kept_same |].
    intros q Hne Hq. eapply idle_page_keep; [exact Hq | done |]. rewrite Hr, decide_False by done. lia.
Qed.

Lemma cache_pages_inv cores m : forall acc held s,
  pages_inv cores m (acc ++ held) (ss_pages s) (ss_pools s) -> Forall (is_idle_page (ss_pages s)) acc ->
  exists pm pools', homa_skb_cache_pages acc s = Ok (tt, with_pages pm pools' s) /\
    pages_inv cores m held pm pools' /\ frags_kept m (ss_pages s) pm /\ pools_keep (ss_pools s) pools'.
Proof.
  induction acc as [|p acc IH]; intros held s Hi Hacc; unfold homa_skb_cache_pages; cbn [mapM_].
  { exists (ss_pages s), (ss_pools s). split_ands; try done. by destruct s. }
  apply Forall_cons in Hacc as [Hp Hacc].
  destruct (cache_page_inv cores m (acc ++ held) p s Hi Hp) as (pm & pools1 & Hex & Hi1 & Hk1 & Hpk1 & Hid).
  destruct (sole_ref _ _ _ _ _ _ Hi (idle_page_refs _ _ Hp)) as (_ & _ & _ & Hnot).
  rewrite (bind_eq _ _ _ _ _ Hex).
  destruct (IH held (with_pages pm pools1 s)) as (pm' & pools' & Hex' & Hi' & Hk' & Hpk'); [exact Hi1 | |].
  { simpl. rewrite Forall_forall in Hacc |- *. intros q Hq. apply Hid; [set_solver | by apply Hacc]. }
  exists pm', pools'. split_ands; [exact Hex' | done | by etransitivity | by etransitivity].
Qed.

(** ** Freeing packets *)
Lemma pages_inv_perm cores m held held' pages pools :
  pages_inv cores m held pages pools -> held ≡ₚ held' -> pages_inv cores m held' pages pools.
Proof.
  intros [Hc Hp Hi Hcu Hco Hpo Hf Hu] Hperm. constructor; try done.
  intros p. by rewrite Hc, !occ_idle, Hperm.
Qed.

Lemma free_frags_inv cores m : forall frags acc s,
  pages_inv cores m ((fr_page <$> frags) ++ acc) (ss_pages s) (ss_pools s) -> Forall (is_idle_page (ss_pages s)) acc ->
  exists acc' pm pools', free_frags frags acc s = Ok (acc', with_pages pm pools' s) /\
    pages_inv cores m acc' pm pools' /\ Forall (is_idle_page pm) acc' /\ frags_kept m (ss_pages s) pm /\
    pools_keep (ss_pools s) pools'.
Proof.
  induction frags as [|f frags IH]; intros acc s Hi Hacc; cbn [free_frags].
  { exists acc, (ss_pages s), (ss_pools s). split_ands; try done. by destruct s. }
  cbn [fmap list_fmap app] in Hi. set (p := fr_page f) in *.
  destruct (refs_in (ss_pages s) p) as (pg & Hp & _).
  { rewrite (pi_count _ _ _ _ _ Hi), occ_idle, occ_cons, decide_True by done. lia. }
  erewrite bind_eq by (unfold get_pg; rewrite Hp; reflexivity).
  destruct ((pg_order pg =? HOMA_SKB_PAGE_ORDER) && (pg_refs pg =? 1)) eqn:E.
  - apply andb_true_iff in E as [Ho%Z.eqb_eq H1%Z.eqb_eq].
    assert (Forall (is_idle_page (ss_pages s)) (acc ++ [p])) as Hacc'
      by (apply Forall_app; split; [done |]; apply Forall_singleton; by exists pg).
    assert (pages_inv cores m ((acc ++ [p]) ++ (fr_page <$> frags)) (ss_pages s) (ss_pools s)) as Hi1.
    { eapply pages_inv_perm; [exact Hi |]. rewrite <- app_assoc. simpl. rewrite <- Permutation_middle.
      f_equiv. apply Permutation_app_comm. }
    cbv zeta. destruct (Z.of_nat (length (acc ++ [p])) =? MAX_PAGES_AT_ONCE).
    + destruct (cache_pages_inv cores m (acc ++ [p]) _ s Hi1 Hacc') as (pm & pools1 & Hex & Hi2 & Hk & Hpk).
      rewrite (bind_eq _ _ _ _ _ Hex).
      destruct (IH [] (with_pages pm pools1 s)) as (acc' & pm' & pools' & Hex' & Hi' & Ha' & Hk' & Hpk');
        [by rewrite app_nil_r | constructor |].
      exists acc', pm', pools'. split_ands; [exact Hex' | done | done | by etransitivity | by etransitivity].
    + destruct (IH (acc ++ [p]) s) as (acc' & pm' & pools' & Hex' & Hi' & Ha' & Hk' & Hpk'); [|done |].
      { eapply pages_inv_perm; [exact Hi1 |]. apply Permutation_app_comm. }
      by exists acc', pm', pools'.
  - destruct (put_page_inv _ _ _ _ _ _ Hi) as (pm & Hex & Hi1 & Hsb & Hr). rewrite (bind_eq _ _ _ _ _ Hex).
    destruct (IH acc (with_pages pm (ss_pools s) s)) as (acc' & pm' & pools' & Hex' & Hi' & Ha' & Hk' & Hpk'); [exact Hi1 | |].
    + rewrite Forall_forall in Hacc |- *. intros q Hq. eapply idle_page_keep; [by apply Hacc | done |].
      rewrite Hr. destruct (decide (p = q)) as [<- |]; [exfalso | lia].
      pose proof (idle_page_refs _ _ (Hacc p Hq)) as H1.
      rewrite (pi_count _ _ _ _ _ Hi), occ_idle, occ_cons, decide_True, occ_app in H1 by done. apply occ_elem in Hq. lia.
    + exists acc', pm', pools'. split_ands; [exact Hex' | done | done | | done].
      etransitivity; [exact (frags_kept_same _ _ _ _ _ _ Hi1 Hsb) | exact Hk'].
Qed.

(** The fragments of a packet that is freed become local references. *)
Lemma inv_delete cores m held pages pools k sb :
  pages_inv cores m held pages pools -> m !! k = Some sb ->
  pages_inv cores (delete k m) ((fr_page <$> sb_frags sb) ++ held) pages pools.
Proof.
  intros [Hc Hp Hi Hcu Hco Hpo Hf Hu] Hk.
  assert (frag_pages m ≡ₚ (fr_page <$> sb_frags sb) ++ frag_pages (delete k m)) as E1.
  { unfold frag_pages. rewrite <- (insert_delete_id m k sb Hk) at 1. by rewrite map_to_list_insert by apply lookup_delete_eq. }
  constructor; try done.
  - intros p. rewrite Hc, !occ_idle, E1, !occ_app. lia.
  - intros j x f [_ Hj]%lookup_delete_Some. by eapply Hf.
  - intros i c p j x f Hic Hcp [_ Hj]%lookup_delete_Some. by eapply Hu.
Qed.

(** The packets after that in [p], or those in [skbs], have lost a user each. *)
Definition free_one (p : ptr) (m : gmap ptr sk_buff) : gmap ptr sk_buff :=
  match m !! p with
  | Some sb => if sb_users sb =? 1 then delete p m else <[p := sb <| sb_users ::= fun n => n - 1 |>]> m
  | None => m
  end.
Fixpoint freed_skbs (skbs : list ptr) (m : gmap ptr sk_buff) : gmap ptr sk_buff :=
  match skbs with [] => m | p :: skbs => freed_skbs skbs (free_one p m) end.

Definition live_skb (m : gmap ptr sk_buff) (p : ptr) : Prop := exists sb, m !! p = Some sb /\ 1 <= sb_users sb.

Lemma free_one_sub p m k sb :
  free_one p m !! k = Some sb -> exists sb0, m !! k = Some sb0 /\ sb_frags sb = sb_frags sb0 /\ sb_head sb = sb_head sb0.
Proof.
  unfold free_one. destruct (m !! p) as [x|] eqn:Hp; [|eauto]. destruct (sb_users x =? 1).
  - intros [_ H1]%lookup_delete_Some. eauto.
  - intros [[<- <-] | [_ H1]]%lookup_insert_Some; eauto.
Qed.

Lemma free_one_other p m k : k <> p -> free_one p m !! k = m !! k.
Proof.
  intros Hk. unfold free_one. destruct (m !! p); [|done].
  by destruct (_ =? 1); [rewrite lookup_delete_ne | rewrite lookup_insert_ne].
Qed.

Lemma freed_skbs_sub skbs : forall m k sb,
  freed_skbs skbs m !! k = Some sb -> exists sb0, m !! k = Some sb0 /\ sb_frags sb = sb_frags sb0 /\ sb_head sb = sb_head sb0.
Proof.
  induction skbs as [|p skbs IH]; intros m k sb; cbn [freed_skbs]; [eauto |].
  intros (sb1 & (sb0 & H0 & E3 & E4)%free_one_sub & E1 & E2)%IH. exists sb0. split_ands; congruence.
Qed.

Lemma freed_skbs_other skbs : forall m k, k ∉ skbs -> freed_skbs skbs m !! k = m !! k.
Proof.
  induction skbs as [|p skbs IH]; intros m k Hk; cbn [freed_skbs]; [done |]. rewrite IH by set_solver.
  apply free_one_other. set_solver.
Qed.

(** One packet loses a user. *)
Lemma free_skb_step cores p sb s acc :
  pages_inv cores (ss_skbs s) acc (ss_pages s) (ss_pools s) -> Forall (is_idle_page (ss_pages s)) acc ->
  ss_skbs s !! p = Some sb -> 1 <= sb_users sb ->
  exists acc' pm pools', let m' := free_one p (ss_skbs s) in
    (if negb (sb_users sb =? 1) then (kfree_skb p ;;; ret acc) else
     let* acc := free_frags (sb_frags sb) acc in set_skb p (sb <| sb_frags := [] |>) ;;; kfree_skb p ;;; ret acc) s =
      Ok (acc', with_pages pm pools' (s <| ss_skbs := m' |>)) /\
    pages_inv cores m' acc' pm pools' /\ Forall (is_idle_page pm) acc' /\ frags_kept m' (ss_pages s) pm /\
    pools_keep (ss_pools s) pools'.
Proof.
  intros Hi Hacc Hk Hu. unfold free_one, kfree_skb. rewrite Hk.
  destruct (Z.eqb_spec (sb_users sb) 1) as [H1 | H1]; cbn [negb].
  - pose proof (inv_delete _ _ _ _ _ _ _ Hi Hk) as Hd.
    destruct (free_frags_inv cores (delete p (ss_skbs s)) (sb_frags sb) acc s Hd Hacc)
      as (acc' & pm & pools' & Hex & Hi' & Ha' & Hkept & Hpk).
    exists acc', pm, pools'. split_ands; try done. rewrite (bind_eq _ _ _ _ _ Hex).
    rewrite (bind_eq _ _ _ _ _ eq_refl). rewrite bind_bind.
    erewrite bind_eq by (unfold get_skb; simpl; rewrite lookup_insert_eq; reflexivity).
    simpl. rewrite H1. cbn [Z.leb Z.compare Pos.compare Pos.compare_cont]. simpl mapM_. unfold with_pages, bind, ret, supd. simpl.
    by rewrite delete_insert_eq.
  - set (sb' := sb <| sb_users ::= fun n => n - 1 |>).
    exists acc, (ss_pages s), (ss_pools s). split_ands; try done.
    + rewrite bind_bind. erewrite bind_eq by (unfold get_skb; rewrite Hk; reflexivity).
      destruct (Z.leb_spec (sb_users sb) 1); [lia |]. by destruct s.
    + eapply (inv_skb _ _ _ _ _ _ _ sb sb' Hi Hk); [done |]. intros f Hf.
      split; [by eapply (pi_frags _ _ _ _ _ Hi) | intros; by eapply (pi_inuse _ _ _ _ _ Hi)].
Qed.

Lemma free_skbs_inv : forall skbs acc s,
  pages_inv (ss_cores s) (ss_skbs s) acc (ss_pages s) (ss_pools s) -> Forall (is_idle_page (ss_pages s)) acc ->
  NoDup skbs -> Forall (live_skb (ss_skbs s)) skbs ->
  exists acc' pm pools', let m' := freed_skbs skbs (ss_skbs s) in
    free_skbs skbs acc s = Ok (acc', with_pages pm pools' (s <| ss_skbs := m' |>)) /\
    pages_inv (ss_cores s) m' acc' pm pools' /\ Forall (is_idle_page pm) acc' /\ frags_kept m' (ss_pages s) pm.
Proof.
  induction skbs as [|p skbs IH]; intros acc s Hi Hacc Hnd Hlive; cbn [free_skbs].
  { exists acc, (ss_pages s), (ss_pools s). split_ands; try done. by destruct s. }
  apply NoDup_cons in Hnd as [Hp Hnd]. apply Forall_cons in Hlive as [(sb & Hk & Hu) Hlive].
  erewrite bind_eq by (unfold get_skb; rewrite Hk; reflexivity).
  destruct (free_skb_step (ss_cores s) p sb s acc Hi Hacc Hk Hu) as (acc1 & pm & pools1 & Hex & Hi1 & Ha1 & Hk1 & _).
  set (s1 := with_pages pm pools1 (s <| ss_skbs := free_one p (ss_skbs s) |>)) in *.
  destruct (IH acc1 s1) as (acc' & pm' & pools' & Hex' & Hi' & Ha' & Hk'); try done.
  { rewrite Forall_forall in Hlive |- *. intros q Hq. destruct (Hlive q Hq) as (x & Hx & ?). exists x.
    split; [|done]. simpl. rewrite free_one_other; [done |]. by intros ->. }
  exists acc', pm', pools'. split_ands; try done.
  - transitivity (free_skbs skbs acc1 s1); [|exact Hex'].
    revert Hex. destruct (negb (sb_users sb =? 1)); intros Hex; unfold bind in Hex |- *.
    + destruct (kfree_skb p s) as [[[] ?]|]; [|done]. by injection Hex as <- <-.
    + destruct (free_frags (sb_frags sb) acc s) as [[a w]|]; [|done].
      destruct (set_skb p (sb <| sb_frags := [] |>) w) as [[[] w']|]; [|done].
      destruct (kfree_skb p w') as [[[] ?]|]; [|done]. by injection Hex as <- <-.
  - intros k x f Hx Hf. destruct (freed_skbs_sub skbs (free_one p (ss_skbs s)) _ _ Hx) as (x0 & H0 & E & _).
    rewrite (Hk' k x f Hx Hf). apply (Hk1 k x0); [exact H0 | by rewrite <- E].
Qed.

(** C13: freeing packets takes one user from each of them; a packet without
    users is gone, and its pages are freed, or kept in the pools if nothing
    else refers to them.  Reference counts stay exact (no page is freed while
    it is in use, none is lost, none is in a pool twice), and what can be read
    from other packets does not change. *)
Theorem free_many_correct skbs s :
  skb_ok s -> NoDup skbs -> Forall (live_skb (ss_skbs s)) skbs ->
  exists s', homa_skb_free_many_tx skbs s = Ok (tt, s') /\ skb_ok s' /\
    ss_skbs s' = freed_skbs skbs (ss_skbs s) /\
    forall k o n, k ∉ skbs -> is_Some (ss_skbs s !! k) -> 0 <= o -> 0 <= n ->
      exists b, homa_skb_get k o n s = Ok (b, s) /\ homa_skb_get k o n s' = Ok (b, s').
Proof.
  intros Hi Hnd Hlive.
  destruct (free_skbs_inv skbs [] s Hi) as (acc & pm & pools & Hex & Hi1 & Hacc & Hk); try done.
  set (m' := freed_skbs skbs (ss_skbs s)) in *. set (s1 := with_pages pm pools (s <| ss_skbs := m' |>)) in *.
  assert (exists pm' pools', homa_skb_free_many_tx skbs s = Ok (tt, with_pages pm' pools' s1) /\
    pages_inv (ss_cores s) m' [] pm' pools' /\ frags_kept m' (ss_pages s) pm') as (pm' & pools' & Hex' & Hi' & Hk').
  { unfold homa_skb_free_many_tx. rewrite (bind_eq _ _ _ _ _ Hex). destruct acc as [|p acc].
    - exists pm, pools. split_ands; try done.
    - destruct (cache_pages_inv (ss_cores s) m' (p :: acc) [] s1) as (pm' & pools' & Hex' & Hi' & Hk' & _); try done.
      { by rewrite app_nil_r. }
      exists pm', pools'. split_ands; [exact Hex' | done | by etransitivity]. }
  exists (with_pages pm' pools' s1). split_ands; try done. intros k o n Hnk [x Hx] Ho Hn.
  assert (m' !! k = Some x) as Hx' by (unfold m'; by rewrite freed_skbs_other).
  exists (slice (content (ss_pages s) x) o n). split.
  - apply skb_get_spec; try done. by eapply skb_frags_ok.
  - rewrite <- (content_kept m' (ss_pages s) pm' k x Hk' Hx'). apply (skb_get_spec k x (with_pages pm' pools' s1)); try done.
    intros f Hf. by eapply (pi_frags _ _ _ _ _ Hi').
Qed.

Lemma free_many_correct_witness :
  exists s', homa_skb_free_many_tx [7%positive] ex_skbs = Ok (tt, s') /\ ss_skbs s' !! 7%positive = None.
Proof.
  destruct (free_many_correct [7%positive] ex_skbs) as (s' & H & _ & Hm & _).
  - exact ex_skbs_ok.
  - apply NoDup_singleton.
  - apply Forall_singleton. exists ex_src. split; [reflexivity | vm_compute; congruence].
  - exists s'. split; [exact H |]. rewrite Hm. vm_compute. reflexivity.
Defined.

(** ** Stashing pages *)
Lemma stash_loop_inv m held core i needed fuel : forall s c,
  pages_inv (ss_cores s) m held (ss_pages s) (ss_pools s) -> 0 <= core -> 0 <= i ->
  ss_cores s !! Z.to_nat core = Some c -> is_Some (ss_pools s !! Z.to_nat i ≫= id) ->
  needed <= HOMA_MAX_STASHED HOMA_MAX_MESSAGE_LENGTH -> needed - co_num_stashed c <= Z.of_nat fuel ->
  exists c' pools', stash_loop fuel core i needed s =
      Ok (tt, s <| ss_pools := pools' |> <| ss_cores := <[Z.to_nat core := c']> (ss_cores s) |>) /\
    pages_inv (<[Z.to_nat core := c']> (ss_cores s)) m held (ss_pages s) pools' /\
    co_num_stashed c <= co_num_stashed c'.
Proof.
  induction fuel as [|fuel IH]; intros s c Hi H0 Hi0 Hc [pool Hpool] Hn Hf; cbn [stash_loop];
    (destruct (ss_pools s !! Z.to_nat i) as [[?|]|] eqn:Hp; [|done ..]); injection Hpool as ->;
    rewrite (bind_eq _ _ _ _ _ (get_pool_eq i s pool Hi0 Hp)); unfold deref, lift; erewrite bind_eq by reflexivity;
    rewrite (bind_eq _ _ _ _ _ (get_core_eq core s c H0 Hc));
    (destruct (negb (pp_avail pool =? 0) && (co_num_stashed c <? needed)) eqn:E;
     [|exists c, (ss_pools s); rewrite list_insert_id by done; split_ands; [by destruct s | done | lia]]);
    apply andb_true_iff in E as [Ha Hlt%Z.ltb_lt]; [lia |].
  destruct (Z.eqb_spec (pp_avail pool) 0) as [| Ha']; [done |].
  destruct (pool_pop_inv _ _ _ i pool s Hi Hi0 Hp Ha') as (p & pools1 & Hex & Hi1 & Hid & Hpk).
  rewrite (bind_eq _ _ _ _ _ Hex). pose proof (pi_cores _ _ _ _ _ Hi1 _ _ Hc) as [A1 A2 A3 A4 A5].
  destruct (live_push _ _ p A1) as [Hl Hent]; [lia |].
  set (l' := <[Z.to_nat (co_num_stashed c) := Some p]> (co_stashed c)) in *.
  destruct A1 as [A1a A1b].
  erewrite bind_eq by (rewrite (proj2 (arr_set_Ok _ (co_num_stashed c) (Some p) _)) by (split; [lia | reflexivity]); reflexivity).
  set (c1 := c <| co_stashed := l' |> <| co_num_stashed ::= fun n => n + 1 |>).
  match goal with |- context [set_core core ?x] => change x with c1 end.
  erewrite bind_eq by (eapply set_core_eq; [exact H0 | exact Hc]).
  pose proof (lookup_lt_Some _ _ _ Hc) as Hlen.
  assert (pages_inv (<[Z.to_nat core := c1]> (ss_cores s)) m held (ss_pages s) pools1) as Hi2.
  { eapply inv_core; [exact Hi1 | exact Hc | | | |].
    - constructor; try done. simpl. unfold l'. by rewrite length_insert.
    - unfold stash, c1. simpl. rewrite Hl, <- app_assoc. done.
    - intros q. unfold stash, c1. simpl. rewrite Hl. intros [Hq | ->%list_elem_of_singleton]%elem_of_app; [|done].
      apply (pi_idle _ _ _ _ _ Hi1). apply elem_of_app. left. apply list_elem_of_bind.
      exists c. split; [done | by eapply list_elem_of_lookup_2].
    - intros q Hq. left. simpl. split; [done | lia]. }
  destruct (IH (s <| ss_pools := pools1 |> <| ss_cores := <[Z.to_nat core := c1]> (ss_cores s) |>) c1)
    as (c' & pools' & Hex' & Hi' & Hle); try done.
  - simpl. by apply list_lookup_insert_eq.
  - destruct (Hpk _ _ Hp) as [pool' Hp']. simpl. rewrite Hp'. by exists pool'.
  - simpl. lia.
  - simpl in Hex', Hi'. rewrite list_insert_insert_eq in Hi', Hex'. exists c', pools'. split_ands; [exact Hex' | done |].
    simpl in Hle. lia.
Qed.

Lemma max_stashed_eq len : 0 < len < 2 ^ 31 -> HOMA_MAX_STASHED len = (len - 1) / HOMA_SKB_PAGE_SIZE + 1.
Proof.
  intros Hl. unfold HOMA_MAX_STASHED, HOMA_SKB_PAGE_SIZE.
  rewrite (u64_id (len - 1)) by (unfold is_u64; lia).
  assert (0 <= (len - 1) / 65536 < 2 ^ 15) by (split; [apply Z.div_pos; lia | apply Z.div_lt_upper_bound; lia]).
  rewrite u64_id by (unfold is_u64; lia). apply s32_id. unfold is_int, INT_MIN, INT_MAX. lia.
Qed.

Lemma max_stashed_le len : 0 < len <= HOMA_MAX_MESSAGE_LENGTH ->
  HOMA_MAX_STASHED len <= HOMA_MAX_STASHED HOMA_MAX_MESSAGE_LENGTH.
Proof.
  intros Hl. unfold HOMA_MAX_MESSAGE_LENGTH in *. rewrite !max_stashed_eq by lia. unfold HOMA_SKB_PAGE_SIZE.
  assert ((len - 1) / 65536 <= (1000000 - 1) / 65536) by (apply Z.div_le_mono; lia). lia.
Qed.

(** [homa_skb_stash_pages] moves pages from the pool to the core and keeps the
    invariant. *)
Lemma stash_pages_inv core len s c :
  skb_ok s -> 0 <= core -> ss_cores s !! Z.to_nat core = Some c -> 0 < len <= HOMA_MAX_MESSAGE_LENGTH ->
  exists s', homa_skb_stash_pages core len s = Ok (tt, s') /\ skb_ok s' /\ ss_skbs s' = ss_skbs s /\
    ss_pages s' = ss_pages s.
Proof.
  intros Hi H0 Hc Hl. unfold homa_skb_stash_pages. rewrite (bind_eq _ _ _ _ _ (get_core_eq core s c H0 Hc)). cbv zeta.
  destruct ((HOMA_MAX_STASHED len <? 2) || (co_num_stashed c >=? HOMA_MAX_STASHED len)) eqn:E; [by exists s |].
  destruct (pi_cores _ _ _ _ _ Hi _ _ Hc) as [[A1 _] A2 (i & pool & Hi' & Hi0 & Hp) A4 A5].
  rewrite Hi'. unfold deref, lift. erewrite bind_eq by reflexivity.
  destruct (stash_loop_inv (ss_skbs s) [] core i (HOMA_MAX_STASHED len) (Z.to_nat (HOMA_MAX_STASHED len)) s c)
    as (c' & pools' & Hex & Hinv & _); try done.
  - rewrite Hp. by exists pool.
  - by apply max_stashed_le.
  - pose proof (max_stashed_eq len). lia.
  - eexists. split; [exact Hex |]. split_ands; done.
Qed.

(** ** Returning pages to the host *)

(** Pools that differ in their low-water marks only. *)
Definition same_pool (o o' : option homa_page_pool) : Prop :=
  match o, o' with
  | Some pool, Some pool' => pp_avail pool' = pp_avail pool /\ pp_pages pool' = pp_pages pool /\
      (pp_low_mark pool' = pp_low_mark pool \/ pp_low_mark pool' = pp_avail pool)
  | None, None => True
  | _, _ => False
  end.
Definition same_pools : list (option homa_page_pool) -> list (option homa_page_pool) -> Prop := Forall2 same_pool.

#[export] Instance same_pool_preorder : PreOrder same_pool.
Proof.
  split; [intros [x|]; simpl; auto |]. intros [a|] [b|] [c|]; simpl; try done.
  intros (E1 & E2 & E3) (E4 & E5 & E6). split_ands; try congruence. rewrite E1 in E6. destruct E3, E6; [left | right ..]; congruence.
Qed.

#[export] Instance same_pools_preorder : PreOrder same_pools.
Proof. unfold same_pools. apply _. Qed.

Lemma same_pools_lookup pools pools' i pool :
  same_pools pools pools' -> pools !! i = Some (Some pool) ->
  exists pool', pools' !! i = Some (Some pool') /\ same_pool (Some pool) (Some pool').
Proof.
  intros H Hi. destruct (Forall2_lookup_l _ _ _ _ _ H Hi) as ([pool'|] & Hi' & Hs); [eauto | done].
Qed.

Lemma same_pools_pages pools pools' : same_pools pools pools' -> pools' ≫= pool_pages = pools ≫= pool_pages.
Proof.
  induction 1 as [|o o' l l' Hs _ IH]; [done |]. rewrite !bind_cons, IH. f_equal.
  destruct o, o'; try done. destruct Hs as (E1 & E2 & _). simpl. by rewrite E1, E2.
Qed.

Lemma same_pools_inv cores m held pages pools pools' :
  pages_inv cores m held pages pools -> same_pools pools pools' -> pages_inv cores m held pages pools'.
Proof.
  intros Hi Hs. pose proof (same_pools_pages _ _ Hs) as E. eapply inv_pools; [exact Hi | | | by rewrite E |].
  - intros i pool Hp. destruct (same_pools_lookup _ _ _ _ Hs Hp) as (pool' & ? & _). eauto.
  - intros i pool' Hp'. destruct (Forall2_lookup_r _ _ _ _ _ Hs Hp') as ([pool|] & Hp & H); [|done].
    destruct (pi_pools _ _ _ _ _ Hi _ _ Hp) as (H1 & H2 & H3). destruct H as (E1 & E2 & E3).
    unfold pool_ok. rewrite E1, E2. split_ands; try done; lia.
  - intros p. rewrite E. intros Hp. apply (pi_idle _ _ _ _ _ Hi). unfold idle. set_solver.
Qed.

(** The best pool has at least as many pages as its mark says. *)
Definition best_ok (pools : list (option homa_page_pool)) (best : Z * option Z) : Prop :=
  match best.2 with
  | Some j => 0 <= j /\ exists pool, pools !! Z.to_nat j = Some (Some pool) /\ 0 <= best.1 <= pp_avail pool
  | None => best.1 = -1
  end.

Lemma best_ok_same pools pools' best : same_pools pools pools' -> best_ok pools best -> best_ok pools' best.
Proof.
  intros Hs. unfold best_ok. destruct best.2 as [j|]; [|done]. intros [H0 (pool & Hp & Hb)]. split; [done |].
  destruct (same_pools_lookup _ _ _ _ Hs Hp) as (pool' & Hp' & E & _). exists pool'. by rewrite E.
Qed.

Lemma max_mark_spec n : forall i best s,
  0 <= i -> (Z.to_nat i + n <= length (ss_pools s))%nat ->
  (forall j pool, ss_pools s !! j = Some (Some pool) -> 0 <= pp_low_mark pool <= pp_avail pool) -> best_ok (ss_pools s) best ->
  exists best' pools', max_mark n i best s = Ok (best', s <| ss_pools := pools' |>) /\
    same_pools (ss_pools s) pools' /\ best_ok pools' best' /\
    (is_Some best.2 \/ (exists j pool, (Z.to_nat i <= j < Z.to_nat i + n)%nat /\ ss_pools s !! j = Some (Some pool)) ->
     is_Some best'.2).
Proof.
  induction n as [|n IH]; intros i best s H0 Hlen Hlow Hb; cbn [max_mark].
  { exists best, (ss_pools s). split_ands; try done; [by destruct s |].
    intros [? | (j & pool & Hj & _)]; [done | lia]. }
  destruct (lookup_lt_is_Some_2 (ss_pools s) (Z.to_nat i)) as [o Ho]; [lia |].
  rewrite (bind_eq _ _ _ _ _ (get_pool_lookup i s o H0 Ho)). destruct o as [pool|].
  2:{ destruct (IH (i + 1) best s) as (best' & pools' & Hex & A1 & A2 & A3); try done; try lia.
      exists best', pools'. split_ands; try done. intros [? | (j & pool & Hj & Hp)]; [by apply A3; left |].
      apply A3. right. exists j, pool. destruct (decide (j = Z.to_nat i)) as [-> |]; [congruence |]. split; [lia | done]. }
  cbv zeta. set (pool1 := pool <| pp_low_mark := pp_avail pool |>).
  set (best1 := if pp_low_mark pool >? best.1 then (pp_low_mark pool, Some i) else best).
  rewrite (bind_eq _ _ _ _ _ (set_pool_eq i s _ (Some pool1) H0 Ho)).
  assert (same_pools (ss_pools s) (<[Z.to_nat i := Some pool1]> (ss_pools s))) as Hs1.
  { rewrite <- (list_insert_id (ss_pools s) (Z.to_nat i) (Some pool)) at 1 by done.
    apply Forall2_insert; [apply same_pools_preorder | simpl; auto]. }
  pose proof (Hlow _ _ Ho) as Hlo.
  assert (best_ok (<[Z.to_nat i := Some pool1]> (ss_pools s)) best1 /\ is_Some best1.2) as [Hb1 Hbs].
  { unfold best1. destruct (Z.gtb_spec (pp_low_mark pool) best.1) as [Hgt | Hle].
    - split; [|by eexists]. split; [done |]. exists pool1. simpl. split; [|lia]. apply list_lookup_insert_eq. lia.
    - split; [by eapply best_ok_same |]. unfold best_ok in Hb. destruct best.2; [by eexists | lia]. }
  destruct (IH (i + 1) best1 (s <| ss_pools ::= insert (Z.to_nat i) (Some pool1) |>)) as (best' & pools' & Hex & A1 & A2 & A3);
    try done; try lia.
  - simpl. rewrite length_insert. lia.
  - simpl. intros j x [(<- & [= <-] & _) | [_ Hj]]%list_lookup_insert_Some; [simpl; lia | by eapply Hlow].
  - exists best', pools'. split_ands; [exact Hex | | done | intros _; apply A3; by left].
    etransitivity; [exact Hs1 | exact A1].
Qed.

Lemma entries_live n l : entries_ok n l -> take (Z.to_nat n) l = Some <$> live n l.
Proof.
  intros [_ H]. unfold live. induction H as [|o k [p ->] _ IH]; [done |]. change (Some p :: k = Some p :: (Some <$> omap id k)). by rewrite <- IH.
Qed.

Lemma put_entries_inv cores m ps : forall held s,
  pages_inv cores m (ps ++ held) (ss_pages s) (ss_pools s) ->
  exists pm, put_entries (Some <$> ps) s = Ok (tt, s <| ss_pages := pm |>) /\
    pages_inv cores m held pm (ss_pools s) /\ frags_kept m (ss_pages s) pm.
Proof.
  induction ps as [|p ps IH]; intros held s Hi.
  { exists (ss_pages s). split_ands; try done. by destruct s. }
  unfold put_entries. cbn [fmap list_fmap mapM_ app] in *.
  destruct (put_page_inv _ _ _ _ _ s Hi) as (pm & Hex & Hi1 & Hs & _).
  erewrite bind_eq by (unfold deref, lift; erewrite bind_eq by reflexivity; exact Hex).
  destruct (IH held (s <| ss_pages := pm |>)) as (pm' & Hex' & Hi' & Hk); [exact Hi1 |]. exists pm'.
  split_ands; [exact Hex' | done |]. etransitivity; [|exact Hk]. by eapply frags_kept_same.
Qed.

Lemma collect_spec i n : forall k s pool l,
  0 <= i -> ss_pools s !! Z.to_nat i = Some (Some pool) -> entries_ok (pp_avail pool) (pp_pages pool) ->
  Z.of_nat n <= pp_avail pool -> ss_pages_to_free s = Some l -> entries_ok k l -> k + Z.of_nat n <= Z.of_nat (length l) ->
  exists l', collect n i k s = Ok (tt, s <| ss_pages_to_free := Some l' |>
      <| ss_pools := <[Z.to_nat i := Some (pool <| pp_avail := pp_avail pool - Z.of_nat n |>)]> (ss_pools s) |>) /\
    entries_ok (k + Z.of_nat n) l' /\ entries_ok (pp_avail pool - Z.of_nat n) (pp_pages pool) /\
    live k l ++ live (pp_avail pool) (pp_pages pool) ≡ₚ
    live (k + Z.of_nat n) l' ++ live (pp_avail pool - Z.of_nat n) (pp_pages pool).
Proof.
  induction n as [|n IH]; intros k s pool l H0 Hp Hent Hn Hl Hk Hlen; cbn [collect].
  { exists l. rewrite Z.sub_0_r, Z.add_0_r. split_ands; try done. rewrite list_insert_id by (rewrite Hp; by destruct pool).
    unfold ret. destruct s; simpl in *; by subst. }
  rewrite (bind_eq _ _ _ _ _ (get_pool_eq i s pool H0 Hp)). unfold deref, lift. erewrite bind_eq by reflexivity. cbv zeta.
  destruct (live_pop _ _ Hent) as (p & Harr & Hlv & Hent'); [lia |].
  destruct (live_push _ _ p Hk) as [Hlp Hk']; [lia |].
  erewrite bind_eq by (rewrite Harr; reflexivity). erewrite bind_eq by reflexivity.
  erewrite bind_eq by (rewrite Hl; reflexivity). destruct Hk as [Hk0 _].
  erewrite bind_eq by (rewrite (proj2 (arr_set_Ok l k (Some p) _)) by (split; [lia | reflexivity]); reflexivity).
  erewrite bind_eq by reflexivity. set (s1 := s <| ss_pages_to_free := Some (<[Z.to_nat k := Some p]> l) |>).
  erewrite bind_eq by (apply (set_pool_eq i s1 (Some pool)); done).
  set (pool1 := pool <| pp_avail := pp_avail pool - 1 |>).
  destruct (IH (k + 1) (s1 <| ss_pools ::= insert (Z.to_nat i) (Some pool1) |>) pool1 (<[Z.to_nat k := Some p]> l))
    as (l' & Hex & A1 & A2 & A3); try done.
  - simpl. apply list_lookup_insert_eq. by eapply lookup_lt_Some.
  - simpl. lia.
  - rewrite length_insert. lia.
  - exists l'. simpl in A2, A3. replace (pp_avail pool - 1 - Z.of_nat n) with (pp_avail pool - Z.of_nat (S n)) in * by lia.
    replace (k + 1 + Z.of_nat n) with (k + Z.of_nat (S n)) in * by lia. split_ands; try done.
    + rewrite Hex. simpl. rewrite list_insert_insert_eq. unfold pool1. simpl.
      by replace (pp_avail pool - 1 - Z.of_nat n) with (pp_avail pool - Z.of_nat (S n)) by lia.
    + rewrite <- A3, Hlp, Hlv, <- app_assoc. f_equiv. apply Permutation_app_comm.
Qed.

(** What the periodic release relies on: the array has the recorded number of
    slots, and some node has a pool. *)
Record release_ready (s : skb_state) : Prop := {
  rr_inv : skb_ok s;
  rr_nodes : 0 <= ss_max_numa s < Z.of_nat (length (ss_pools s));
  rr_pool : exists j pool, (j < Z.to_nat (ss_max_numa s + 1))%nat /\ ss_pools s !! j = Some (Some pool);
  rr_slots : match ss_pages_to_free s with Some l => Z.of_nat (length l) = ss_slots s | None => ss_slots s = 0 end;
  rr_rate : 0 <= ss_frees_per_sec s;
  rr_min : 0 <= ss_min_kb s * 1000 < 2 ^ 31
}.

Definition min_pages (s : skb_state) : Z := (ss_min_kb s * 1000 + (HOMA_SKB_PAGE_SIZE - 1)) / HOMA_SKB_PAGE_SIZE.

Lemma min_pages_eq s : 0 <= ss_min_kb s * 1000 < 2 ^ 31 ->
  s32 (u64 (s32 (ss_min_kb s * 1000) + (HOMA_SKB_PAGE_SIZE - 1)) / HOMA_SKB_PAGE_SIZE) = min_pages s /\
  0 <= min_pages s <= 32768.
Proof.
  intros H. unfold min_pages, HOMA_SKB_PAGE_SIZE. rewrite (s32_id (ss_min_kb s * 1000)) by (unfold_int; lia). rewrite u64_id by (unfold_int; lia).
  assert (0 <= (ss_min_kb s * 1000 + (65536 - 1)) / 65536 <= 32768) as Hb.
  { split; [apply Z.div_pos; lia |]. apply Z.lt_succ_r, Z.div_lt_upper_bound; lia. }
  split; [|done]. apply s32_id. unfold_int. lia.
Qed.

(** Setting the low-water mark of a pool from which pages were taken. *)
Lemma shrink_inv cores m pages pools i pool n ps :
  pages_inv cores m [] pages pools -> pools !! i = Some (Some pool) -> 0 <= n -> entries_ok (pp_avail pool - n) (pp_pages pool) ->
  live (pp_avail pool) (pp_pages pool) ≡ₚ ps ++ live (pp_avail pool - n) (pp_pages pool) ->
  pages_inv cores m ps pages
    (<[i := Some (pool <| pp_avail := pp_avail pool - n |> <| pp_low_mark := pp_avail pool - n |>)]> pools).
Proof.
  intros Hi Hp Hn He Hperm. destruct (pi_pools _ _ _ _ _ Hi _ _ Hp) as (_ & _ & Hlen).
  set (pool' := pool <| pp_avail := _ |> <| pp_low_mark := _ |>).
  destruct (bind_insert pool_pages pools i _ Hp) as (rest & E & E').
  eapply inv_pools; [exact Hi | by apply (pools_keep_insert _ _ pool) | | |].
  - intros j x [(<- & [= <-] & _) | [_ Hj]]%list_lookup_insert_Some; [|by eapply (pi_pools _ _ _ _ _ Hi)].
    unfold pool_ok, pool'. simpl. destruct He as [He1 He2]. split_ands; [lia | lia | done | done].
  - rewrite E, E', app_nil_r. unfold pool', pool_pages. simpl. rewrite Hperm, <- !app_assoc.
    rewrite Permutation_app_comm, <- app_assoc. done.
  - intros p. rewrite E'. intros Hin. apply (pi_idle _ _ _ _ _ Hi). unfold idle. rewrite E. cbn [pool_pages].
    rewrite Hperm. unfold pool' in Hin. simpl in Hin. set_solver.
Qed.

Lemma release_tail s i pool rel :
  skb_ok s -> 0 <= i -> ss_pools s !! Z.to_nat i = Some (Some pool) -> rel <= pp_avail pool ->
  (0 < rel -> exists l, ss_pages_to_free s = Some l /\ rel <= Z.of_nat (length l)) ->
  exists s', (collect (Z.to_nat rel) i 0 ;;;
      let* o := get_pool i in let* pool := deref o in
      set_pool i (Some (pool <| pp_low_mark := pp_avail pool |>)) ;;;
      let* a := sget ss_pages_to_free in
      if rel <=? 0 then ret tt else let* l := deref a in put_entries (take (Z.to_nat rel) l)) s = Ok (tt, s') /\
    skb_ok s' /\ ss_skbs s' = ss_skbs s /\ frags_kept (ss_skbs s) (ss_pages s) (ss_pages s') /\
    exists pool', ss_pools s' = <[Z.to_nat i := Some pool']> (ss_pools s) /\ pp_avail pool' = pp_avail pool - Z.max 0 rel.
Proof.
  intros Hi H0 Hp Hle Harr. destruct (pi_pools _ _ _ _ _ Hi _ _ Hp) as (Hm & He & Hlen).
  pose proof (lookup_lt_Some _ _ _ Hp) as Hlt.
  destruct (Z.leb_spec rel 0) as [Hneg | Hpos].
  - replace (Z.to_nat rel) with 0%nat by lia. cbn [collect]. erewrite bind_eq by reflexivity.
    rewrite (bind_eq _ _ _ _ _ (get_pool_eq i s pool H0 Hp)). unfold deref, lift. erewrite bind_eq by reflexivity.
    erewrite bind_eq by (eapply set_pool_eq; done). erewrite bind_eq by reflexivity. eexists. split; [reflexivity |].
    split_ands; [|done | done | eexists; split; [reflexivity | simpl; lia]].
    unfold skb_ok. simpl. eapply same_pools_inv; [exact Hi |].
    rewrite <- (list_insert_id (ss_pools s) (Z.to_nat i) (Some pool)) at 1 by done.
    apply Forall2_insert; [apply same_pools_preorder | simpl; auto].
  - destruct (Harr Hpos) as (l & Hl & Hll).
    destruct (collect_spec i (Z.to_nat rel) 0 s pool l) as (l' & Hex & A1 & A2 & A3); try done; try lia.
    { split; [lia | apply Forall_nil; done]. }
    rewrite (bind_eq _ _ _ _ _ Hex). rewrite Z.add_0_l, Z2Nat.id in * by lia.
    erewrite bind_eq by (eapply get_pool_eq; [done | simpl; by apply list_lookup_insert_eq]).
    unfold deref, lift. erewrite bind_eq by reflexivity.
    erewrite bind_eq by (eapply set_pool_eq; [done | simpl; by apply list_lookup_insert_eq]).
    erewrite bind_eq by reflexivity. erewrite bind_eq by reflexivity. rewrite entries_live by done.
    simpl in A3. pose proof (shrink_inv _ _ _ _ _ _ _ _ Hi Hp (Z.lt_le_incl _ _ Hpos) A2 A3) as Hi1.
    simpl. rewrite list_insert_insert_eq.
    match goal with |- context [put_entries _ ?x] => set (s1 := x) end.
    destruct (put_entries_inv (ss_cores s) (ss_skbs s) (live rel l') [] s1) as (pm & Hex' & Hi' & Hk);
      [rewrite app_nil_r; exact Hi1 |].
    exists (s1 <| ss_pages := pm |>). split_ands; [exact Hex' | exact Hi' | done | exact Hk |].
    eexists. split; [reflexivity | simpl; lia].
Qed.

(** The periodic release of unused pages ([homa_skb_release_pages]), when
    the array it uses can be allocated, returns: the reference counts of the
    pages stay right, no packet loses a byte, and no pool shrinks below the
    configured minimum. *)
Theorem release_pages_spec now s :
  release_ready s ->
  exists s', homa_skb_release_pages now true s = Ok (tt, s') /\ skb_ok s' /\ ss_skbs s' = ss_skbs s /\
    (forall k sb, ss_skbs s !! k = Some sb -> content (ss_pages s') sb = content (ss_pages s) sb) /\
    (forall i pool, ss_pools s !! i = Some (Some pool) -> exists pool', ss_pools s' !! i = Some (Some pool') /\
       Z.min (pp_avail pool) (min_pages s) <= pp_avail pool' <= pp_avail pool).
Proof.
  intros [Hi Hn Hpool Hsl Hrate Hmin]. unfold homa_skb_release_pages. erewrite bind_eq by reflexivity. unfold id.
  destruct (now <? ss_free_time s).
  { exists s. split_ands; try done. intros i pool Hp. exists pool. split; [done | lia]. }
  cbv zeta. erewrite bind_eq by reflexivity.
  assert (0 <= Z.quot (ss_frees_per_sec s) 2) as Hrm by (apply Z.quot_pos; lia).
  set (rmax := Z.quot _ 2) in *. set (s0 := s <| ss_free_time := _ |>).
  assert (exists a n, (if ss_slots s <? rmax then supd (fun s => s <| ss_slots := rmax |>
      <| ss_pages_to_free := Some (replicate (Z.to_nat rmax) None) |>) else ret tt) s0 =
    Ok (tt, s0 <| ss_slots := n |> <| ss_pages_to_free := a |>) /\
    (0 < rmax -> exists l, a = Some l /\ rmax <= Z.of_nat (length l))) as (a & n & Hex & Ha).
  { destruct (Z.ltb_spec (ss_slots s) rmax).
    - do 2 eexists. split; [reflexivity |]. intros _. eexists. split; [reflexivity |]. rewrite length_replicate. lia.
    - exists (ss_pages_to_free s), (ss_slots s). split; [done |]. destruct (ss_pages_to_free s); [|lia].
      eexists. split; [done | lia]. }
  rewrite (bind_eq _ _ _ _ _ Hex). set (s1 := s0 <| ss_slots := n |> <| ss_pages_to_free := a |>).
  destruct (max_mark_spec (Z.to_nat (ss_max_numa s + 1)) 0 (-1, None) s1) as (best & pools & Hex1 & Hsp & Hb & Hsome).
  { done. } { simpl. lia. }
  { intros j pool Hp. apply (pi_pools _ _ _ _ _ Hi _ _ Hp). } { done. }
  rewrite (bind_eq _ _ _ _ _ Hex1). destruct (min_pages_eq s Hmin) as [-> Hmp].
  destruct Hsome as [i Hbi]. { right. destruct Hpool as (j & pool & Hj & Hp). exists j, pool. split; [lia | done]. }
  unfold best_ok in Hb. rewrite Hbi in Hb |- *. destruct Hb as [H0 (pool & Hp & Hb)].
  assert (skb_ok (s1 <| ss_pools := pools |>)) as Hi1 by (by eapply same_pools_inv).
  destruct (pi_pools _ _ _ _ _ Hi1 _ _ Hp) as (_ & He & Hlen). destruct He as [He _]. unfold HOMA_PAGE_POOL_SIZE in Hlen.
  rewrite (s32_id (best.1 - min_pages s)) by (unfold_int; lia).
  unfold deref at 1, lift. erewrite bind_eq by reflexivity.
  set (rel := if _ >? rmax then _ else _).
  assert (rel <= rmax /\ rel <= best.1 - min_pages s) as [Hr1 Hr2] by (unfold rel; destruct (Z.gtb_spec (best.1 - min_pages s) rmax); lia).
  destruct (release_tail (s1 <| ss_pools := pools |>) i pool rel) as (s' & Hex' & Hi' & Hs' & Hk & pool' & Hps & Hav);
    try done; [lia | |].
  { intros ?. destruct Ha as (l & -> & Hl); [lia |]. exists l. split; [done | lia]. }
  exists s'. split_ands; [exact Hex' | exact Hi' | exact Hs' | |].
  - intros k sb Hsb. by apply (content_kept (ss_skbs s) _ _ k).
  - intros j q Hq. destruct (same_pools_lookup _ _ _ _ Hsp Hq) as (q' & Hq' & E & _). rewrite Hps.
    simpl. destruct (decide (j = Z.to_nat i)) as [-> | Hne].
    + rewrite list_lookup_insert_eq by (by eapply lookup_lt_Some). exists pool'. split; [done |].
      rewrite Hp in Hq'. injection Hq' as ->. lia.
    + rewrite list_lookup_insert_ne by done. exists q'. split; [done | lia].
Qed.

(** ** Unloading *)

(** The reference counts are those of the list [l]. *)
Definition counted (pages : gmap ptr page) (l : list ptr) : Prop :=
  (forall p, refs pages p = Z.of_nat (occ p l)) /\ (forall p pg, pages !! p = Some pg -> 1 <= pg_refs pg).

#[export] Instance counted_perm pages : Proper ((≡ₚ) ==> iff) (counted pages).
Proof. intros l k H. unfold counted. by setoid_rewrite H. Qed.

Lemma put_page_counted p l s :
  counted (ss_pages s) (p :: l) ->
  exists pm, put_page p s = Ok (tt, s <| ss_pages := pm |>) /\ counted pm l.
Proof.
  intros [Hc Hpos]. destruct (refs_in (ss_pages s) p) as (pg & Hp & Hr).
  { rewrite Hc, occ_cons, decide_True by done. lia. }
  pose proof (Hc p) as Hcp. unfold refs in Hcp. rewrite Hp, occ_cons, decide_True in Hcp by done.
  unfold put_page, get_pg. erewrite bind_eq by (rewrite Hp; reflexivity).
  destruct (Z.leb_spec (pg_refs pg) 1) as [Hle | Hgt]; (eexists; split; [reflexivity |]; split).
  - intros q. specialize (Hc q). rewrite occ_cons in Hc. unfold refs in *. destruct (decide (p = q)) as [<- | Hne].
    + rewrite lookup_delete_eq. lia.
    + rewrite lookup_delete_ne by done. rewrite Hc. lia.
  - intros q pg' [_ Hq]%lookup_delete_Some. by eapply Hpos.
  - intros q. specialize (Hc q). rewrite occ_cons in Hc. unfold refs in *. destruct (decide (p = q)) as [<- | Hne].
    + rewrite lookup_insert_eq. simpl. lia.
    + rewrite lookup_insert_ne by done. rewrite Hc. lia.
  - intros q pg' [[<- <-] | [_ Hq]]%lookup_insert_Some; [simpl; lia | by eapply Hpos].
Qed.

Lemma put_entries_counted ps : forall l s,
  counted (ss_pages s) (ps ++ l) ->
  exists pm, put_entries (Some <$> ps) s = Ok (tt, s <| ss_pages := pm |>) /\ counted pm l.
Proof.
  induction ps as [|p ps IH]; intros l s Hc; [by exists (ss_pages s); split; [destruct s |] |].
  unfold put_entries. cbn [fmap list_fmap mapM_ app] in *.
  destruct (put_page_counted _ _ _ Hc) as (pm & Hex & Hc1).
  erewrite bind_eq by (unfold deref, lift; erewrite bind_eq by reflexivity; exact Hex).
  destruct (IH l (s <| ss_pages := pm |>)) as (pm' & Hex' & Hc'); [exact Hc1 |]. by exists pm'.
Qed.

(** What a core holds. *)
Definition own (c : homa_skb_core) : list ptr := current c ++ stash c.

Lemma all_refs_own cores m pools held :
  all_refs cores m pools held ≡ₚ (cores ≫= own) ++ (pools ≫= pool_pages) ++ frag_pages m ++ held.
Proof.
  unfold all_refs, idle. rewrite <- app_assoc, app_assoc. f_equiv. induction cores as [|c cores IH]; [done |].
  rewrite !bind_cons, <- IH. unfold own. rewrite <- !app_assoc. f_equiv.
  rewrite !app_assoc. f_equiv. apply Permutation_app_comm.
Qed.

Lemma cleanup_core_spec i s c rest :
  0 <= i -> ss_cores s !! Z.to_nat i = Some c -> entries_ok (co_num_stashed c) (co_stashed c) ->
  counted (ss_pages s) ((ss_cores s ≫= own) ++ rest) ->
  exists pm c', cleanup_core i s = Ok (tt, s <| ss_pages := pm |> <| ss_cores := <[Z.to_nat i := c']> (ss_cores s) |>) /\
    own c' = [] /\ counted pm ((<[Z.to_nat i := c']> (ss_cores s) ≫= own) ++ rest).
Proof.
  intros H0 Hc He Hcnt. destruct (bind_insert own (ss_cores s) (Z.to_nat i) c Hc) as (r & E & E').
  rewrite E in Hcnt. unfold own at 1 in Hcnt. rewrite <- !app_assoc in Hcnt.
  unfold cleanup_core. rewrite (bind_eq _ _ _ _ _ (get_core_eq i s c H0 Hc)).
  set (c1 := if co_page c is Some _ then c <| co_page := None |> <| co_size := 0 |> <| co_inuse := 0 |> else c).
  assert (exists pm, (match co_page c with
      | Some p => (put_page p ;;; ret (c <| co_page := None |> <| co_size := 0 |> <| co_inuse := 0 |>))
      | None => ret c end) s = Ok (c1, s <| ss_pages := pm |>) /\ counted pm (stash c ++ r ++ rest)) as (pm & Hex & Hcnt1).
  { unfold c1, current in *. destruct (co_page c) as [p|]; cbn [option_list app] in Hcnt.
    - destruct (put_page_counted _ _ _ Hcnt) as (pm & Hex & Hc1). exists pm. split; [by rewrite (bind_eq _ _ _ _ _ Hex) | done].
    - exists (ss_pages s). split; [by destruct s | done]. }
  rewrite (bind_eq _ _ _ _ _ Hex).
  assert (co_num_stashed c1 = co_num_stashed c /\ co_stashed c1 = co_stashed c /\ co_page c1 = None) as (-> & -> & Hn)
    by (unfold c1; destruct (co_page c) eqn:?; done).
  rewrite entries_live by done.
  destruct (put_entries_counted (live (co_num_stashed c) (co_stashed c)) (r ++ rest) (s <| ss_pages := pm |>)) as (pm' & Hex' & Hcnt');
    [exact Hcnt1 |].
  rewrite (bind_eq _ _ _ _ _ Hex'). exists pm', (c1 <| co_pool := None |> <| co_num_stashed := 0 |>).
  split_ands; [by eapply set_core_eq | |].
  - unfold own, current, stash. simpl. by rewrite Hn.
  - rewrite E'. unfold own, current, stash. simpl. rewrite Hn. exact Hcnt'.
Qed.

Lemma cleanup_cores_spec rest n : forall k s,
  (k + n)%nat = length (ss_cores s) -> (forall i c, ss_cores s !! i = Some c -> (k <= i)%nat -> entries_ok (co_num_stashed c) (co_stashed c)) ->
  (forall i c, ss_cores s !! i = Some c -> (i < k)%nat -> own c = []) -> counted (ss_pages s) ((ss_cores s ≫= own) ++ rest) ->
  exists pm cores, mapM_ cleanup_core (seqZ (Z.of_nat k) (Z.of_nat n)) s = Ok (tt, s <| ss_pages := pm |> <| ss_cores := cores |>) /\
    counted pm rest /\ Forall (fun c => own c = []) cores.
Proof.
  induction n as [|n IH]; intros k s Hk He Hd Hc.
  { assert (Forall (fun c => own c = []) (ss_cores s)) as Hall.
    { apply Forall_lookup. intros i c Hi. apply (Hd i); [done | apply lookup_lt_Some in Hi; lia]. }
    exists (ss_pages s), (ss_cores s). split_ands; [by destruct s | | done].
    assert (ss_cores s ≫= own = []) as E; [|by rewrite E in Hc].
    clear -Hall. induction Hall as [|c l Hc' _ IH]; [done |]. by rewrite bind_cons, Hc', IH. }
  rewrite seqZ_cons by lia. replace (Z.pred (Z.of_nat (S n))) with (Z.of_nat n) by lia.
  replace (Z.succ (Z.of_nat k)) with (Z.of_nat (S k)) by lia. cbn [mapM_].
  destruct (lookup_lt_is_Some_2 (ss_cores s) k) as [c Hck]; [lia |].
  assert (ss_cores s !! Z.to_nat (Z.of_nat k) = Some c) as Hck' by (by rewrite Nat2Z.id).
  destruct (cleanup_core_spec (Z.of_nat k) s c rest) as (pm & c' & Hex & Ho & Hc1); [lia | done | by apply (He k) | done |].
  rewrite (bind_eq _ _ _ _ _ Hex). rewrite Nat2Z.id in *.
  destruct (IH (S k) (s <| ss_pages := pm |> <| ss_cores := <[k := c']> (ss_cores s) |>)) as (pm' & cores & Hex' & Hc' & Hall).
  - simpl. rewrite length_insert. lia.
  - simpl. intros i x [(<- & <- & _) | [_ Hi]]%list_lookup_insert_Some Hle; [lia | apply (He i); [done | lia]].
  - simpl. intros i x [(<- & <- & _) | [Hne Hi]]%list_lookup_insert_Some Hlt; [done |]. apply (Hd i); [done | lia].
  - exact Hc1.
  - by exists pm', cores.
Qed.

Lemma cleanup_pools_spec rest n : forall k s,
  (k + n)%nat = length (ss_pools s) -> (forall i pool, ss_pools s !! i = Some (Some pool) -> pool_ok pool) ->
  (forall i, (i < k)%nat -> ss_pools s !! i = Some None) -> counted (ss_pages s) ((ss_pools s ≫= pool_pages) ++ rest) ->
  exists pm, mapM_ cleanup_pool (seqZ (Z.of_nat k) (Z.of_nat n)) s =
      Ok (tt, s <| ss_pages := pm |> <| ss_pools := replicate (length (ss_pools s)) None |>) /\ counted pm rest.
Proof.
  induction n as [|n IH]; intros k s Hk He Hd Hc.
  { assert (ss_pools s = replicate (length (ss_pools s)) None) as E.
    { apply list_eq. intros i. destruct (decide (i < length (ss_pools s))%nat).
      - rewrite lookup_replicate_2, Hd by lia. done.
      - rewrite !lookup_ge_None_2; [done | rewrite length_replicate; lia | lia]. }
    exists (ss_pages s). split; [rewrite <- E; by destruct s |]. rewrite E in Hc.
    clear -Hc. induction (length (ss_pools s)) as [|j IH]; [done |]. apply IH, Hc. }
  rewrite seqZ_cons by lia. replace (Z.pred (Z.of_nat (S n))) with (Z.of_nat n) by lia.
  replace (Z.succ (Z.of_nat k)) with (Z.of_nat (S k)) by lia. cbn [mapM_].
  destruct (lookup_lt_is_Some_2 (ss_pools s) k) as [o Hok]; [lia |].
  assert (ss_pools s !! Z.to_nat (Z.of_nat k) = Some o) as Hok' by (by rewrite Nat2Z.id).
  assert (exists pm, cleanup_pool (Z.of_nat k) s =
      Ok (tt, s <| ss_pages := pm |> <| ss_pools := <[k := None]> (ss_pools s) |>) /\
    counted pm ((<[k := None]> (ss_pools s) ≫= pool_pages) ++ rest)) as (pm & Hex & Hc1).
  { destruct (bind_insert pool_pages (ss_pools s) k o Hok) as (r & E & E'). rewrite E, <- app_assoc in Hc.
    unfold cleanup_pool. rewrite (bind_eq _ _ _ _ _ (get_pool_lookup _ s o (Zle_0_nat k) Hok')). destruct o as [pool|].
    - destruct (He _ _ Hok) as (_ & Hent & _). rewrite entries_live, <- fmap_reverse by done. cbn [pool_pages] in Hc.
      destruct (put_entries_counted (reverse (live (pp_avail pool) (pp_pages pool))) (r ++ rest) s) as (pm & Hex & Hc');
        [by rewrite reverse_Permutation |].
      rewrite (bind_eq _ _ _ _ _ Hex). exists pm. split; [|by rewrite E'].
      rewrite (set_pool_eq (Z.of_nat k) _ (Some pool) None) by (lia || done). by rewrite Nat2Z.id.
    - exists (ss_pages s). split; [rewrite list_insert_id by done; by destruct s | by rewrite E', <- app_assoc]. }
  rewrite (bind_eq _ _ _ _ _ Hex).
  destruct (IH (S k) (s <| ss_pages := pm |> <| ss_pools := <[k := None]> (ss_pools s) |>)) as (pm' & Hex' & Hc').
  - simpl. rewrite length_insert. lia.
  - simpl. intros i x [(_ & [=] & _) | [_ Hi]]%list_lookup_insert_Some. by eapply He.
  - simpl. intros i Hlt. destruct (decide (i = k)) as [-> |]; [apply list_lookup_insert_eq; lia |].
    rewrite list_lookup_insert_ne by done. apply Hd. lia.
  - exact Hc1.
  - exists pm'. split; [|done]. simpl in Hex'. by rewrite length_insert in Hex'.
Qed.

(** Unloading ([homa_skb_cleanup]) returns all pages that the cores and the
    pools hold: afterwards a page has exactly the references that packets have
    to it, so that nothing is left when there are no packets. *)
Theorem cleanup_no_leak s :
  skb_ok s ->
  exists s', homa_skb_cleanup s = Ok (tt, s') /\ ss_skbs s' = ss_skbs s /\
    (forall p, refs (ss_pages s') p = Z.of_nat (occ p (frag_pages (ss_skbs s)))) /\
    Forall (fun c => own c = []) (ss_cores s') /\ Forall (eq None) (ss_pools s') /\
    (ss_skbs s = ∅ -> ss_pages s' = ∅).
Proof.
  intros Hi. unfold homa_skb_cleanup. erewrite bind_eq by reflexivity. unfold id.
  assert (counted (ss_pages s) ((ss_cores s ≫= own) ++ (ss_pools s ≫= pool_pages) ++ frag_pages (ss_skbs s))) as Hc.
  { split; [|intros p pg Hp; apply (pi_pages _ _ _ _ _ Hi p pg Hp)].
    intros p. rewrite (pi_count _ _ _ _ _ Hi), all_refs_own. by rewrite app_nil_r. }
  destruct (cleanup_cores_spec ((ss_pools s ≫= pool_pages) ++ frag_pages (ss_skbs s)) (length (ss_cores s)) 0 s)
    as (pm & cores & Hex & Hc1 & Hall); [done | | intros; lia | done |].
  { intros i c H _. apply (pi_cores _ _ _ _ _ Hi _ _ H). }
  rewrite (bind_eq _ _ _ _ _ Hex).
  destruct (cleanup_pools_spec (frag_pages (ss_skbs s)) (length (ss_pools s)) 0 (s <| ss_pages := pm |> <| ss_cores := cores |>))
    as (pm' & Hex' & Hc2 & Hpos); [done | apply (pi_pools _ _ _ _ _ Hi) | intros; lia | exact Hc1 |].
  rewrite (bind_eq _ _ _ _ _ Hex'). eexists. split; [reflexivity |].
  set (s2 := s <| ss_pages := pm |> <| ss_cores := cores |> <| ss_pages := pm' |> <| ss_pools := _ |>).
  assert (forall b, ss_pages b = pm' -> ss_cores b = cores -> ss_skbs b = ss_skbs s -> ss_pools b = ss_pools s2 ->
    ss_skbs b = ss_skbs s /\ (forall p, refs (ss_pages b) p = Z.of_nat (occ p (frag_pages (ss_skbs s)))) /\
    Forall (fun c => own c = []) (ss_cores b) /\ Forall (eq None) (ss_pools b) /\ (ss_skbs s = ∅ -> ss_pages b = ∅)) as H.
  { intros b -> -> -> ->. split_ands; try done; [by apply Forall_replicate |].
    intros E. apply map_eq. intros p. rewrite lookup_empty. specialize (Hc2 p). rewrite E in Hc2. unfold refs in Hc2.
    destruct (pm' !! p) as [pg|] eqn:Hp; [|done]. pose proof (Hpos _ _ Hp). 
    change (frag_pages ∅) with ([] : list ptr) in Hc2. rewrite occ_nil in Hc2. lia. }
  apply H; unfold s2; simpl; by destruct (ss_pages_to_free s).
Qed.

Lemma cleanup_no_leak_witness :
  exists s', homa_skb_cleanup ex_skbs = Ok (tt, s') /\ refs (ss_pages ex_skbs) 1%positive = 2 /\ refs (ss_pages s') 1%positive = 1.
Proof.
  destruct (cleanup_no_leak ex_skbs) as (s' & H & _ & Hr & _); [exact ex_skbs_ok |].
  exists s'. split; [exact H |]. split; [vm_compute; reflexivity |]. rewrite Hr. vm_compute. reflexivity.
Defined.

(** ** Loading *)
Definition fresh_pool : homa_page_pool := Build_homa_page_pool 0 0 (replicate (Z.to_nat HOMA_PAGE_POOL_SIZE) None).

(** The per-core data before initialisation: zeroes. *)
Definition zero_core (c : homa_skb_core) : Prop :=
  co_page c = None /\ co_size c = 0 /\ co_inuse c = 0 /\ co_num_stashed c = 0 /\
  Z.of_nat (length (co_stashed c)) = HOMA_MAX_STASHED HOMA_MAX_MESSAGE_LENGTH.

(** The first [i] cores have a pool. *)
Record init_at (i : nat) (s : skb_state) : Prop := {
  ia_cores : Forall zero_core (ss_cores s);
  ia_pools : Forall (fun o => o = None \/ o = Some fresh_pool) (ss_pools s);
  ia_done : forall j c, (j < i)%nat -> ss_cores s !! j = Some c -> exists n, co_pool c = Some n /\
    0 <= n <= ss_max_numa s /\ ss_pools s !! Z.to_nat n = Some (Some fresh_pool);
  ia_max : -1 <= ss_max_numa s < Z.of_nat (length (ss_pools s))
}.

Lemma init_at_step i s n c :
  init_at i s -> ss_cores s !! i = Some c -> 0 <= n < Z.of_nat (length (ss_pools s)) ->
  init_at (S i) (s <| ss_max_numa := Z.max n (ss_max_numa s) |>
    <| ss_pools := <[Z.to_nat n := Some fresh_pool]> (ss_pools s) |> <| ss_cores ::= insert i (c <| co_pool := Some n |>) |>).
Proof.
  intros [Hc Hp Hd Hm] Hi Hn. set (pools1 := <[_ := _]> (ss_pools s)).
  assert (pools1 !! Z.to_nat n = Some (Some fresh_pool)) as Hnew by (apply list_lookup_insert_eq; lia).
  constructor; simpl.
  - apply Forall_insert; [done | apply (proj1 (Forall_lookup _ _) Hc _ _ Hi)].
  - apply Forall_insert; auto.
  - intros j x Hj [(<- & <- & _) | [Hne Hx]]%list_lookup_insert_Some.
    + exists n. split_ands; [done | lia | lia | done].
    + destruct (Hd j x) as (k & E & Hk & Hp'); [lia | done |]. exists k. split_ands; [done | lia | lia |].
      unfold pools1. destruct (decide (Z.to_nat k = Z.to_nat n)) as [E' |]; [by rewrite E' |].
      by rewrite list_lookup_insert_ne.
  - unfold pools1. rewrite length_insert. lia.
Qed.

Lemma skb_init_loop_spec nodes : forall i s,
  init_at i s -> (i + length nodes)%nat = length (ss_cores s) ->
  Forall (fun n => 0 <= n < Z.of_nat (length (ss_pools s))) nodes ->
  exists cores pools mx, let s' := s <| ss_cores := cores |> <| ss_pools := pools |> <| ss_max_numa := mx |> in
    skb_init_loop (fun _ => true) (Z.of_nat i) nodes s = Ok (0, s') /\ init_at (i + length nodes) s' /\
    length cores = length (ss_cores s).
Proof.
  induction nodes as [|n nodes IH]; intros i s [Hc Hp Hd Hm] Hlen Hn; cbn [skb_init_loop].
  { exists (ss_cores s), (ss_pools s), (ss_max_numa s). cbv zeta. split_ands; [by destruct s | | done].
    rewrite Nat.add_0_r. by destruct s. }
  apply Forall_cons in Hn as [Hn0 Hn]. simpl in Hlen. erewrite bind_eq by reflexivity.
  destruct (Z.geb_spec n (Z.of_nat (length (ss_pools s)))); [lia |].
  erewrite bind_eq by reflexivity. set (s1 := if n >? ss_max_numa s then _ else _).
  set (mx1 := Z.max n (ss_max_numa s)).
  assert (s1 = s <| ss_max_numa := mx1 |>) as ->.
  { unfold s1, mx1. destruct (Z.gtb_spec n (ss_max_numa s)); [by rewrite Z.max_l by lia |].
    rewrite Z.max_r by lia. by destruct s. }
  destruct (lookup_lt_is_Some_2 (ss_pools s) (Z.to_nat n)) as [o Ho]; [lia |].
  set (s1 := s <| ss_max_numa := mx1 |>).
  erewrite bind_eq by (apply (get_pool_lookup n s1 o); [lia | exact Ho]).
  set (pools1 := <[Z.to_nat n := Some fresh_pool]> (ss_pools s)).
  assert (match o with Some _ => ret true | None => set_pool n (Some fresh_pool) ;;; ret true end s1 =
    Ok (true, s1 <| ss_pools := pools1 |>)) as Hset.
  { destruct o as [pool|].
    - pose proof (proj1 (Forall_lookup _ _) Hp _ _ Ho) as [[=] | [= ->]]. unfold pools1.
      rewrite list_insert_id by done. done.
    - erewrite bind_eq by (apply (set_pool_eq n s1 None); [lia | exact Ho]). done. }
  rewrite (bind_eq _ _ _ _ _ Hset). cbn [negb].
  destruct (lookup_lt_is_Some_2 (ss_cores s) i) as [c Hi]; [lia |].
  assert (ss_cores s !! Z.to_nat (Z.of_nat i) = Some c) as Hi' by (by rewrite Nat2Z.id).
  erewrite bind_eq by (apply (get_core_eq (Z.of_nat i) (s1 <| ss_pools := pools1 |>) c); [lia | exact Hi']).
  erewrite bind_eq by (apply (set_core_eq (Z.of_nat i) (s1 <| ss_pools := pools1 |>) c); [lia | exact Hi']).
  rewrite Nat2Z.id. replace (Z.of_nat i + 1) with (Z.of_nat (S i)) by lia.
  set (s2 := s1 <| ss_pools := pools1 |> <| ss_cores ::= insert i (c <| co_pool := Some n |>) |>).
  pose proof (init_at_step i s n c (Build_init_at _ _ Hc Hp Hd Hm) Hi Hn0) as Hia.
  destruct (IH (S i) s2 Hia) as (cores & pools & mx & Hex & Hia' & Hl); [simpl; rewrite length_insert; lia |
    simpl; unfold pools1; by rewrite length_insert |].
  exists cores, pools, mx. cbv zeta. split_ands; [exact Hex | | rewrite Hl; apply length_insert].
  simpl. rewrite Nat.add_succ_r. exact Hia'.
Qed.

(** Initialisation with enough memory, on a machine with at least one core,
    establishes the invariant and what the periodic release relies on. *)
Theorem skb_init_spec nodes s :
  nodes <> [] -> length nodes = length (ss_cores s) -> Forall zero_core (ss_cores s) -> ss_skbs s = ∅ -> ss_pages s = ∅ ->
  Forall (fun n => 0 <= n < Z.of_nat (length (ss_pools s))) nodes ->
  exists s', homa_skb_init (fun _ => true) nodes s = Ok (0, s') /\ release_ready s'.
Proof.
  intros Hne Hlen Hz Hsk Hpg Hn. unfold homa_skb_init. erewrite bind_eq by reflexivity.
  match goal with |- context [skb_init_loop _ _ _ ?x] => set (s0 := x) end.
  destruct (skb_init_loop_spec nodes 0 s0) as (cores & pools & mx & Hex & [Hc Hp Hd Hm] & Hl); [|done | by simpl; rewrite length_fmap |].
  { constructor; simpl; [done | | lia | lia]. apply Forall_fmap, Forall_forall. by left. }
  eexists. split; [exact Hex |]. simpl in Hc, Hp, Hd, Hm, Hl.
  assert (cores ≫= current = [] /\ cores ≫= stash = [] /\ pools ≫= pool_pages = []) as (E1 & E2 & E3).
  { split; [|split]; [clear -Hc; induction Hc as [|c l (H & _) _ IH]; [done |]
      |clear -Hc; induction Hc as [|c l (_ & _ & _ & H & _) _ IH]; [done |] |clear -Hp; induction Hp as [|o l H _ IH]; [done |]];
      rewrite bind_cons, IH, app_nil_r; [unfold current; by rewrite H | unfold stash, live; by rewrite H | by destruct H as [-> | ->]]. }
  assert (forall c, c ∈ cores -> exists n, co_pool c = Some n /\ 0 <= n <= mx /\ pools !! Z.to_nat n = Some (Some fresh_pool)) as Hpl.
  { intros c [j Hj]%list_elem_of_lookup. apply (Hd j); [|done]. rewrite Hlen, <- Hl. by eapply lookup_lt_Some. }
  assert (exists c, c ∈ cores) as [c0 Hc0].
  { destruct nodes as [|? ?]; [done |]. simpl in *. destruct cores as [|c ?]; [simpl in *; lia |]. exists c. set_solver. }
  destruct (Hpl _ Hc0) as (n0 & _ & Hn0 & Hp0).
  constructor; simpl; [constructor; simpl | lia | | done | done | done].
  - intros p. unfold all_refs, idle. rewrite E1, E2, E3, Hsk, Hpg. done.
  - rewrite Hpg. intros p pg H. by rewrite lookup_empty in H.
  - unfold idle. rewrite E2, E3. by intros p ?%elem_of_nil.
  - rewrite E1. constructor.
  - intros i c Hi. pose proof (proj1 (Forall_lookup _ _) Hc _ _ Hi) as (F1 & F2 & F3 & F4 & F5).
    destruct (Hpl c) as (n & G1 & G2 & G3); [by eapply list_elem_of_lookup_2 |]. constructor; rewrite ?F1, ?F2, ?F3, ?F4; try done.
    + split; [lia | apply Forall_nil; done].
    + exists n, fresh_pool. split_ands; [done | lia | done].
  - intros i pool Hi. pose proof (proj1 (Forall_lookup _ _) Hp _ _ Hi) as [[=] | [= ->]]. unfold pool_ok, entries_ok, fresh_pool. cbn [pp_low_mark pp_avail pp_pages].
    rewrite length_replicate. unfold HOMA_PAGE_POOL_SIZE. split_ands; try lia. done.
  - rewrite Hsk. intros k sb f H. by rewrite lookup_empty in H.
  - rewrite Hsk. intros i c p k sb f _ _ H. by rewrite lookup_empty in H.
  - exists (Z.to_nat n0), fresh_pool. split; [lia | done].
Qed.
