(* ===== verification/Offload.v ===== *)
(** * GRO, GSO and load balancing (homa_offload.c)

    The hooks into the host's receive offload: collecting packets, passing
    them to a core for SoftIRQ processing, and intercepting TCP packets.  The
    state is that of the module ([world]) together with the per-core data of
    this file, the lists of held packets of the current NAPI instance and the
    host's tables that the code changes. *)
From S2P Require Import Prelude Lists Wire Types Example Control Peer Pool Grant PoolWait Outgoing Sock Handoff Rpc RpcInv Copy Incoming Utils Softirq Syscall.

Definition CORES_TO_CHECK : nat := 4.
Definition NUM_GEN3_SOFTIRQ_CORES : nat := 3.
Definition GRO_HASH_BUCKETS : Z := 8.
Definition EINPROGRESS : Z := 115.

(** [struct homa_offload_core], without [last_active] and [last_app_active]:
    these are in [host]. *)
Record homa_offload_core := {
  oc_last_gro : Z; oc_softirq_backlog : Z; oc_softirq_offset : Z; oc_gen3_softirq_cores : list Z;
  oc_held_skb : option ptr; oc_held_bucket : Z
}.
#[export] Instance eta_offload_core : Eta homa_offload_core := fun r =>
  Build_homa_offload_core (oc_last_gro r) (oc_softirq_backlog r) (oc_softirq_offset r)
    (oc_gen3_softirq_cores r) (oc_held_skb r) (oc_held_bucket r).

(** A packet during GRO: the protocol and checksum of the IP header, its hash,
    what arrived, and the fields of [NAPI_GRO_CB]; [gk_frags] is the list of
    packets that start with [frag_list] and end with [last]. *)
Record gro_skb := {
  gk_protocol : Z; gk_check : Z; gk_hash : Z; gk_env : rx_env; gk_raw : raw_skb;
  gk_frags : list ptr; gk_count : Z; gk_same_flow : bool
}.
#[export] Instance eta_gro_skb : Eta gro_skb := fun r =>
  Build_gro_skb (gk_protocol r) (gk_check r) (gk_hash r) (gk_env r) (gk_raw r) (gk_frags r) (gk_count r) (gk_same_flow r).

(** A [struct net_offload] of TCP, by its handlers; pointers to such
    structures. *)
Inductive gro_fn := HomaTcpGro | HostFn (id : Z).
Record net_offload := { no_gso_segment : Z; no_gro_receive : gro_fn; no_gro_complete : Z }.
#[export] Instance eta_net_offload : Eta net_offload := fun r =>
  Build_net_offload (no_gso_segment r) (no_gro_receive r) (no_gro_complete r).
Inductive off_ref := OffHost (o : net_offload) | OffHook | OffHook6.

(** [gs_lists], [gs_counts] and [gs_bitmask] are the lists of the NAPI
    instance; [gs_up] are the batches passed to [netif_receive_skb], [gs_direct]
    the packets passed to [homa_softirq] at once; [gs_ipi_list] are the cores
    with pending interrupts and [gs_ipis] those that got one. *)
Record gro_state := {
  gs_w : world; gs_cores : list homa_offload_core; gs_skbs : gmap ptr gro_skb;
  gs_lists : list (list ptr); gs_counts : list Z; gs_bitmask : Z;
  gs_flow : option (list Z); gs_cpu_mask : Z;
  gs_up : list (list ptr); gs_direct : list ptr; gs_ipi_list : list Z; gs_ipis : list Z;
  gs_inet_off : bool; gs_inet6_off : bool;
  gs_inet_tcp : off_ref; gs_inet6_tcp : off_ref;
  gs_tcp_off : option off_ref; gs_tcp6_off : option off_ref;
  gs_hook : net_offload; gs_hook6 : net_offload
}.
#[export] Instance eta_gro_state : Eta gro_state := fun r =>
  Build_gro_state (gs_w r) (gs_cores r) (gs_skbs r) (gs_lists r) (gs_counts r) (gs_bitmask r)
    (gs_flow r) (gs_cpu_mask r) (gs_up r) (gs_direct r) (gs_ipi_list r) (gs_ipis r)
    (gs_inet_off r) (gs_inet6_off r) (gs_inet_tcp r) (gs_inet6_tcp r) (gs_tcp_off r) (gs_tcp6_off r)
    (gs_hook r) (gs_hook6 r).

Definition GM := ST gro_state.
Definition gget {A} (f : gro_state -> A) : GM A := fun s => Ok (f s, s).
Definition gupd (f : gro_state -> gro_state) : GM unit := fun s => Ok (tt, f s).
Definition inw {A} (m : M A) : GM A := fun s =>
  match m (gs_w s) with Ok (a, w) => Ok (a, s <| gs_w := w |>) | Fault f => Fault f end.
Definition get_off (core : Z) : GM homa_offload_core := let* l := gget gs_cores in lift (arr l core).
Definition set_off (core : Z) (oc : homa_offload_core) : GM unit :=
  let* l := gget gs_cores in
  let* l := lift (arr_set l core oc) in
  gupd (fun s => s <| gs_cores := l |>).
Definition upd_off (core : Z) (f : homa_offload_core -> homa_offload_core) : GM unit :=
  let* oc := get_off core in set_off core (f oc).
Definition get_gskb (p : ptr) : GM gro_skb := fun s => match gs_skbs s !! p with Some k => Ok (k, s) | None => Fault BadPointer end.
Definition upd_gskb (p : ptr) (f : gro_skb -> gro_skb) : GM unit :=
  let* k := get_gskb p in gupd (fun s => s <| gs_skbs ::= insert p (f k) |>).
Definition nr_cpu_ids : GM Z := gget (fun s => Z.of_nat (length (gs_cores s))).
Definition set_last_active (core t : Z) : GM unit :=
  let* oc := get_off core in
  inw (upd_host (fun ho => ho <| host_last_active ::= fun f c => if c =? core then t else f c |>)).

(** ** Choosing a core *)

(** [homa_set_softirq_cpu] *)
Definition homa_set_softirq_cpu (p : ptr) (cpu : Z) : GM unit :=
  let* table := gget gs_flow in
  match table with
  | None => ret tt
  | Some ents =>
      let* mask := gget gs_cpu_mask in
      let hash := s32 (cpu + mask + 1) in
      let* e := lift (arr ents hash) in
      (if negb (e =? hash)
       then (let* l := lift (arr_set ents hash hash) in gupd (fun s => s <| gs_flow := Some l |>))
       else ret tt) ;;;
      upd_gskb p (fun k => k <| gk_hash := u32 hash |>)
  end.

(** The core after [c], in circular order. *)
Definition next_core (nr c : Z) : Z := if c + 1 >=? nr then 0 else c + 1.

(** The first of the next [n] cores after [candidate] that is not busy. *)
Fixpoint gen2_scan (n : nat) (busy_ns now candidate : Z) : GM (option Z) :=
  match n with
  | O => ret None
  | S n =>
      let* nr := nr_cpu_ids in
      let candidate := next_core nr candidate in
      let* oc := get_off candidate in
      if oc_softirq_backlog oc >? 0 then gen2_scan n busy_ns now candidate
      else if u64 (oc_last_gro oc + busy_ns) >? now then gen2_scan n busy_ns now candidate
      else ret (Some candidate)
  end.

(** [while (candidate >= nr_cpu_ids) candidate -= nr_cpu_ids;] *)
Fixpoint wrap_core (fuel : nat) (nr c : Z) : result Z :=
  if c >=? nr then match fuel with O => Fault OutOfFuel | S fuel => wrap_core fuel nr (c - nr) end else Ok c.

(** All candidates are busy: rotate among them. *)
Definition gen2_rotate (this_core : Z) : GM Z :=
  let* oc := get_off this_core in
  let offset := oc_softirq_offset oc + 1 in
  let offset := if offset >? Z.of_nat CORES_TO_CHECK then 1 else offset in
  set_off this_core (oc <| oc_softirq_offset := offset |>) ;;;
  let* nr := nr_cpu_ids in
  lift (wrap_core (Z.to_nat (this_core + offset)) nr (this_core + offset)).

Definition homa_gro_gen2 (this_core : Z) (p : ptr) : GM unit :=
  let* now := inw sched_clock in
  let* h := inw get_homa in
  let* found := gen2_scan CORES_TO_CHECK (h_busy_ns h) now this_core in
  let* candidate := match found with Some c => ret c | None => gen2_rotate this_core end in
  upd_off candidate (fun oc => oc <| oc_softirq_backlog ::= fun b => s32 (b + 1) |>) ;;;
  homa_set_softirq_cpu p candidate.

(** The first candidate on which no application was active since [busy_time];
    [core] if there is none. *)
Fixpoint gen3_scan (busy_time : Z) (candidates : list Z) (core : Z) : GM Z :=
  match candidates with
  | [] => ret core
  | candidate :: l =>
      if candidate <? 0 then ret core else
      let* _ := get_off candidate in
      let* t := gget (fun s => host_last_app_active (w_host (gs_w s)) candidate) in
      if t <? busy_time then ret candidate else gen3_scan busy_time l core
  end.

Definition homa_gro_gen3 (this_core : Z) (p : ptr) : GM unit :=
  let* oc := get_off this_core in
  let candidates := oc_gen3_softirq_cores oc in
  let* now := inw sched_clock in
  let* h := inw get_homa in
  let busy_time := u64 (now - h_busy_ns h) in
  let* core := lift (arr candidates 0) in
  let* core := gen3_scan busy_time candidates core in
  homa_set_softirq_cpu p core ;;;
  set_last_active core now.

(** The least recently active of the next [n] cores. *)
Fixpoint idle_scan (n : nat) (core best best_time : Z) : GM Z :=
  match n with
  | O => ret best
  | S n =>
      let* nr := nr_cpu_ids in
      let core := next_core nr core in
      let* _ := get_off core in
      let* last_active := gget (fun s => host_last_active (w_host (gs_w s)) core) in
      if last_active <? best_time then idle_scan n core core last_active
      else idle_scan n core best best_time
  end.

Definition policy (h : homa) (bit : Z) : bool := negb (Z.land (h_gro_policy h) bit =? 0).

(** [homa_gro_complete] on core [this_core]. *)
Definition homa_gro_complete (this_core : Z) (p : ptr) : GM Z :=
  upd_off this_core (fun oc => oc <| oc_held_skb := None |>) ;;;
  let* h := inw get_homa in
  (if policy h HOMA_GRO_GEN3 then homa_gro_gen3 this_core p
   else if policy h HOMA_GRO_GEN2 then homa_gro_gen2 this_core p
   else if policy h HOMA_GRO_IDLE then
     (let* best := idle_scan CORES_TO_CHECK this_core this_core (2 ^ 64 - 1) in
      homa_set_softirq_cpu p best)
   else if policy h HOMA_GRO_NEXT then
     (let* nr := nr_cpu_ids in homa_set_softirq_cpu p (next_core nr this_core))
   else ret tt) ;;;
  ret 0.

(** ** Receiving *)

(** [homa_send_ipis]: [online] is the host's [cpu_online]. *)
Definition homa_send_ipis (online : Z -> bool) : GM unit :=
  let* l := gget gs_ipi_list in
  gupd (fun s => s <| gs_ipi_list := [] |> <| gs_ipis ::= fun k => k ++ filter (fun c => online c = true) l |>).

(** [homa_check_pacer] (homa_impl.h); [wait]: see [homa_pacer_xmit]. *)
Definition homa_check_pacer (wait : nat) : M unit :=
  let* h := get_homa in
  match h_throttled_rpcs h with
  | [] => ret tt
  | _ =>
      let* now := sched_clock in
      if u64 (now + Z.shiftr (h_max_nic_queue_ns h) 1) <? h_link_idle_time h then ret tt
      else homa_pacer_xmit wait
  end.

(** Whether the packet of the current core is still in the list, and a packet
    of Homa. *)
Fixpoint find_held (held : ptr) (l : list ptr) : GM bool :=
  match l with
  | [] => ret false
  | q :: l =>
      if decide (q = held) then
        let* k := get_gskb q in
        if gk_protocol k =? IPPROTO_HOMA then ret true else find_held held l
      else find_held held l
  end.

(** Passing the batch of [held] up; [bucket] is its list. *)
Definition push_up (online : Z -> bool) (this_core bucket : Z) (held : ptr) : GM unit :=
  let* lists := gget gs_lists in
  let* l := lift (arr lists bucket) in
  let* lists := lift (arr_set lists bucket (filter (fun q => q <> held) l)) in
  gupd (fun s => s <| gs_lists := lists |>) ;;;
  homa_gro_complete this_core held ;;;
  let* k := get_gskb held in
  gupd (fun s => s <| gs_up ::= fun u => u ++ [held :: gk_frags k] |>) ;;;
  homa_send_ipis online ;;;
  let* counts := gget gs_counts in
  let* c := lift (arr counts bucket) in
  let* counts := lift (arr_set counts bucket (c - 1)) in
  gupd (fun s => s <| gs_counts := counts |>) ;;;
  if c - 1 =? 0 then gupd (fun s => s <| gs_bitmask ::= fun b => Z.clearbit b bucket |>) else ret tt.

(** Adding a packet to the batch of [held]. *)
Definition aggregate (online : Z -> bool) (this_core bucket : Z) (held p : ptr) : GM (option Z) :=
  upd_gskb held (fun k => k <| gk_frags ::= fun l => l ++ [p] |>) ;;;
  upd_gskb p (fun k => k <| gk_same_flow := true |>) ;;;
  upd_gskb held (fun k => k <| gk_count ::= fun c => u16 (c + 1) |>) ;;;
  let* k := get_gskb held in
  let* h := inw get_homa in
  if gk_count k >=? h_max_gro_skbs h
  then (push_up online this_core bucket held ;;; ret (Some (- EINPROGRESS)))
  else ret None.

(** The call of [homa_softirq] on this core for one packet, with its last
    statement, which counts the batch as processed. *)
Definition softirq_now (junk this_core : Z) (p : ptr) : GM unit :=
  let* k := get_gskb p in
  inw (homa_softirq junk this_core [(gk_env k, gk_raw k)]) ;;;
  gupd (fun s => s <| gs_direct ::= fun l => l ++ [p] |>) ;;;
  upd_off this_core (fun oc => oc <| oc_softirq_backlog ::= fun b => s32 (b - 1) |>).

(** Whether the packet bypasses the SoftIRQ mechanism; an offset of -1 is
    replaced with the sequence number of TCP. *)
Definition gro_bypass (busy : bool) (p : ptr) : GM bool :=
  let* k := get_gskb p in
  let* h := inw get_homa in
  match dec_packet (raw_bytes (gk_raw k)) with
  | Some (PData d, data) =>
      (if seg_offset d =? 2 ^ 32 - 1 then
         let d' := Build_homa_data_hdr (d_common d) (message_length d) (incoming d) (ack d) (cutoff_version d)
           (retransmit d) (pad d) (sequence (d_common d)) in
         upd_gskb p (fun k => k <| gk_raw := Build_raw_skb (raw_v6 (gk_raw k)) (raw_saddr (gk_raw k))
           (raw_pull (gk_raw k)) (enc_packet (PData d') ++ data) |>)
       else ret tt) ;;;
      ret ((Z.of_nat (length data) =? message_length d) && policy h HOMA_GRO_SHORT_BYPASS && negb busy)
  | Some (PGrant _, _) => ret (policy h HOMA_GRO_FAST_GRANTS && negb busy)
  | _ => ret false
  end.

(** [homa_gro_receive] on core [this_core]: [None] is NULL and [Some e] is
    [ERR_PTR(e)].  The packet has its whole header in its linear part. *)
Definition homa_gro_receive (junk : Z) (wait : nat) (online : Z -> bool) (this_core : Z) (p : ptr) : GM (option Z) :=
  let* now := inw sched_clock in
  let* oc := get_off this_core in
  let* h := inw get_homa in
  let busy := u64 (now - oc_last_gro oc) <? u64 (h_gro_busy_ns h) in
  set_last_active this_core now ;;;
  let* bypass := gro_bypass busy p in
  if bypass then
    (softirq_now junk this_core p ;;;
     let* t := inw sched_clock in
     upd_off this_core (fun oc => oc <| oc_last_gro := t |>) ;;;
     ret (Some (- EINPROGRESS)))
  else
    let* k := get_gskb p in
    let hash := Z.land (gk_hash k) (GRO_HASH_BUCKETS - 1) in
    let* found := match oc_held_skb oc with
      | None => ret None
      | Some held =>
          let* lists := gget gs_lists in
          let* l := lift (arr lists (oc_held_bucket oc)) in
          let* b := find_held held l in
          ret (if b then Some held else None)
      end in
    let* result := match found with
      | Some held => aggregate online this_core (oc_held_bucket oc) held p
      | None =>
          upd_off this_core (fun oc => oc <| oc_held_skb := Some p |> <| oc_held_bucket := hash |>) ;;;
          (if policy h HOMA_GRO_SAME_CORE then homa_set_softirq_cpu p this_core else ret tt) ;;;
          ret None
      end in
    inw (homa_check_pacer wait) ;;;
    let* t := inw sched_clock in
    upd_off this_core (fun oc => oc <| oc_last_gro := t |>) ;;;
    ret result.

(** ** TCP packets *)

(** The structure that an [off_ref] points to. *)
Definition deref_off (r : off_ref) : GM net_offload :=
  match r with
  | OffHost o => ret o
  | OffHook => gget gs_hook
  | OffHook6 => gget gs_hook6
  end.

Definition homa_gro_hook_tcp : GM unit :=
  let* t := gget gs_tcp_off in
  match t with
  | Some _ => ret tt
  | None =>
      let* r := gget gs_inet_tcp in
      let* o := deref_off r in
      gupd (fun s => s <| gs_tcp_off := Some r |> <| gs_hook := o <| no_gro_receive := HomaTcpGro |> |>
        <| gs_inet_tcp := OffHook |>) ;;;
      let* r := gget gs_inet6_tcp in
      let* o := deref_off r in
      gupd (fun s => s <| gs_tcp6_off := Some r |> <| gs_hook6 := o <| no_gro_receive := HomaTcpGro |> |>
        <| gs_inet6_tcp := OffHook6 |>)
  end.

(** [inet6_offloads[IPPROTO_TCP]] becomes [tcp6_net_offload], which is not NULL
    when [tcp_net_offload] is not. *)
Definition homa_gro_unhook_tcp : GM unit :=
  let* t := gget gs_tcp_off in
  match t with
  | None => ret tt
  | Some r =>
      gupd (fun s => s <| gs_inet_tcp := r |> <| gs_tcp_off := None |>) ;;;
      let* t := gget gs_tcp6_off in
      match t with
      | None => raise BadPointer
      | Some r => gupd (fun s => s <| gs_inet6_tcp := r |> <| gs_tcp6_off := None |>)
      end
  end.

(** [htons] on a little-endian machine, and [~] of a 16-bit value. *)
Definition htons (x : Z) : Z := Z.lor (Z.shiftl (Z.land x 255) 8) (Z.shiftr x 8).
Definition not16 (x : Z) : Z := 65535 - x.

Section tcp.

(** [csum16_add] and [csum16_sub] of the host, and its handlers of TCP
    packets, by their number. *)
Variables csum16_add csum16_sub : Z -> Z -> Z.
Variable host_gro : Z -> ptr -> GM (option Z).

(** The change of the checksum of an IPv4 header when the protocol changes. *)
Definition new_check (check protocol : Z) : Z :=
  not16 (csum16_add (csum16_sub (not16 check) (htons protocol)) (htons IPPROTO_HOMA)).

(** [homa_tcp_gro_receive]; a packet too short for a header is one of TCP. *)
Definition homa_tcp_gro_receive (junk : Z) (wait : nat) (online : Z -> bool) (this_core : Z) (p : ptr) : GM (option Z) :=
  let* k := get_gskb p in
  let h := dec_common (raw_bytes (gk_raw k)) in
  if match h with Some (h, _) => negb (hflags h =? HOMA_TCP_FLAGS) || negb (urgent h =? HOMA_TCP_URGENT) | None => true end then
    let* t := gget gs_tcp_off in
    match t with
    | None => raise BadPointer
    | Some r =>
        let* o := deref_off r in
        match no_gro_receive o with
        | HostFn id => host_gro id p
        | HomaTcpGro => raise OutOfFuel
        end
    end
  else
    (if raw_v6 (gk_raw k) then upd_gskb p (fun k => k <| gk_protocol := IPPROTO_HOMA |>)
     else upd_gskb p (fun k => k <| gk_check := new_check (gk_check k) (gk_protocol k) |>
       <| gk_protocol := IPPROTO_HOMA |>)) ;;;
    homa_gro_receive junk wait online this_core p.

End tcp.

(** ** Segmentation

    [homa_gso_segment]: [segs] is the result of the host's [skb_segment] for
    the packet without its common header: whether each segment is IPv4, and
    the id of its IP header; [None] is an error pointer. *)
Fixpoint number_segs (i : Z) (segs : list (bool * Z)) : list (bool * Z) :=
  match segs with [] => [] | (v4, _) :: l => (v4, htons (u16 i)) :: number_segs (i + 1) l end.

Definition homa_gso_segment (segs : option (list (bool * Z))) : result (list (bool * Z)) :=
  match segs with
  | None | Some [] => Fault BadPointer
  | Some ((v4, id_) :: l) => Ok (if v4 then number_segs 0 ((v4, id_) :: l) else (v4, id_) :: l)
  end.

(** ** Initialisation *)
Definition init_core (i : Z) : homa_offload_core :=
  Build_homa_offload_core 0 0 0 (Z.lxor i 1 :: replicate (NUM_GEN3_SOFTIRQ_CORES - 1) (-1)) None 0.

(** [homa_offload_init]: [res1] and [res2] are what [inet_add_offload] and
    [inet6_add_offload] return. *)
Definition homa_offload_init (res1 res2 : Z) : GM Z :=
  let* nr := nr_cpu_ids in
  gupd (fun s => s <| gs_cores := init_core <$> seqZ 0 nr |>) ;;;
  inw (upd_host (fun ho => ho <| host_last_active ::= fun f c => if (0 <=? c) && (c <? nr) then 0 else f c |>
    <| host_last_app_active ::= fun f c => if (0 <=? c) && (c <? nr) then 0 else f c |>)) ;;;
  (if res1 =? 0 then gupd (fun s => s <| gs_inet_off := true |>) else ret tt) ;;;
  (if res2 =? 0 then gupd (fun s => s <| gs_inet6_off := true |>) else ret tt) ;;;
  ret (if negb (res1 =? 0) then res1 else res2).

(** [homa_offload_end]: [res1] and [res2] are what [inet_del_offload] and
    [inet6_del_offload] return. *)
Definition homa_offload_end (res1 res2 : Z) : GM Z :=
  (if res2 =? 0 then gupd (fun s => s <| gs_inet6_off := false |>) else ret tt) ;;;
  (if res1 =? 0 then gupd (fun s => s <| gs_inet_off := false |>) else ret tt) ;;;
  ret (if negb (res1 =? 0) then res1 else res2).

(** ** The parameter gen3_softirq_cores (homa_plumbing.c)

    [proc table maxlen] is [proc_dointvec] on the [maxlen] bytes of [table]: its
    result and the new table.  [mem]: the table can be allocated. *)
Section softirq_cores.
Variable proc : list Z -> Z -> Z * list Z.

Fixpoint store_cores (fuel : nat) (i : Z) (values : list Z) : GM unit :=
  match fuel with
  | O => ret tt
  | S fuel =>
      let* v := lift (arr values i) in
      if v <? 0 then ret tt else
      let* a := lift (arr values (i + 1)) in
      let* b := lift (arr values (i + 2)) in
      let* c := lift (arr values (i + 3)) in
      upd_off v (fun oc => oc <| oc_gen3_softirq_cores := [a; b; c] |>) ;;;
      store_cores fuel (i + 4) values
  end.

Definition core_values (s : gro_state) : list Z :=
  concat (imap (fun i oc => Z.of_nat i :: oc_gen3_softirq_cores oc) (gs_cores s)).

Definition homa_sysctl_softirq_cores (mem write : bool) : GM Z :=
  let* nr := nr_cpu_ids in
  let max_values := (Z.of_nat NUM_GEN3_SOFTIRQ_CORES + 1) * nr in
  if negb mem then ret (- ENOMEM) else
  if write then
    let '(result_, values) := proc (replicate (Z.to_nat max_values) (-1)) max_values in
    if negb (result_ =? 0) then ret result_ else
    (store_cores (Z.to_nat nr) 0 values ;;; ret result_)
  else
    let* values := gget core_values in
    ret (proc values (4 * Z.of_nat (length values))).1.

End softirq_cores.
