(* ===== verification/OffloadGro.v ===== *)
(** * GRO: packets are collected in order and none is lost

    The choice of cores, and the lists of held packets. *)
From S2P Require Import Prelude Lists Wire Types Utils Incoming Softirq Syscall Offload.

(** ** Access *)
Lemma get_off_eq core s oc :
  0 <= core -> gs_cores s !! Z.to_nat core = Some oc -> get_off core s = Ok (oc, s).
Proof. intros H0 H. unfold get_off. erewrite bind_eq by reflexivity. unfold lift. by rewrite (proj2 (arr_Ok _ _ _) (conj H0 H)). Qed.

Lemma set_off_eq core s oc oc' :
  0 <= core -> gs_cores s !! Z.to_nat core = Some oc ->
  set_off core oc' s = Ok (tt, s <| gs_cores ::= insert (Z.to_nat core) oc' |>).
Proof.
  intros H0 H%lookup_lt_Some. unfold set_off. erewrite bind_eq by reflexivity. unfold lift.
  erewrite bind_eq; [reflexivity |]. cbv beta. by rewrite (proj2 (arr_set_Ok _ core oc' _)) by (split; [lia | reflexivity]).
Qed.

Lemma upd_off_eq core s oc f :
  0 <= core -> gs_cores s !! Z.to_nat core = Some oc ->
  upd_off core f s = Ok (tt, s <| gs_cores ::= insert (Z.to_nat core) (f oc) |>).
Proof.
  intros H0 H. unfold upd_off. rewrite (bind_eq _ _ _ _ _ (get_off_eq core s oc H0 H)). by eapply set_off_eq.
Qed.

Lemma get_gskb_eq p s k : gs_skbs s !! p = Some k -> get_gskb p s = Ok (k, s).
Proof. intros H. unfold get_gskb. by rewrite H. Qed.

Lemma upd_gskb_eq p s k f :
  gs_skbs s !! p = Some k -> upd_gskb p f s = Ok (tt, s <| gs_skbs ::= insert p (f k) |>).
Proof. intros H. unfold upd_gskb. by rewrite (bind_eq _ _ _ _ _ (get_gskb_eq p s k H)). Qed.

Lemma inw_eq {A} (m : M A) s a w : m (gs_w s) = Ok (a, w) -> inw m s = Ok (a, s <| gs_w := w |>).
Proof. intros H. unfold inw. by rewrite H. Qed.

(** ** Choosing a core *)
Definition nr (s : gro_state) : Z := Z.of_nat (length (gs_cores s)).

(** The parameters of a core name cores that exist. *)
Record off_core_ok (n : Z) (oc : homa_offload_core) : Prop := {
  oco_gen3 : exists c l, oc_gen3_softirq_cores oc = c :: l /\ 0 <= c < n /\ Forall (fun c => c < n) l;
  oco_offset : 0 <= oc_softirq_offset oc <= Z.of_nat CORES_TO_CHECK;
  oco_bucket : 0 <= oc_held_bucket oc < GRO_HASH_BUCKETS
}.

(** The flow table has an entry for every core. *)
Definition flow_ok (n : Z) (s : gro_state) : Prop :=
  match gs_flow s with
  | Some ents => 0 <= gs_cpu_mask s /\ n + gs_cpu_mask s + 1 <= Z.of_nat (length ents) < 2 ^ 31
  | None => True
  end.

Definition cores_ok (s : gro_state) : Prop := Forall (off_core_ok (nr s)) (gs_cores s) /\ flow_ok (nr s) s.

(** What choosing a core for the packet [p] may change. *)
Definition same_homa (w w' : world) : Prop :=
  exists t f, w' = w <| w_tick := t |> <| w_host ::= fun ho => ho <| host_last_active := f |> |>.

#[export] Instance same_homa_preorder : PreOrder same_homa.
Proof.
  split.
  - intros w. exists (w_tick w), (host_last_active (w_host w)). destruct w as [? ? ? ? ? ? ? ho ? ? ? ? ?]. by destruct ho.
  - intros w w1 w2 (t & f & ->) (t' & f' & ->). exists t', f'. done.
Qed.

Definition held_of (oc : homa_offload_core) : option ptr * Z := (oc_held_skb oc, oc_held_bucket oc).

Record steered (p : ptr) (s s' : gro_state) : Prop := {
  st_w : same_homa (gs_w s) (gs_w s');
  st_held : held_of <$> gs_cores s' = held_of <$> gs_cores s;
  st_lists : gs_lists s' = gs_lists s; st_counts : gs_counts s' = gs_counts s; st_bits : gs_bitmask s' = gs_bitmask s;
  st_up : gs_up s' = gs_up s; st_direct : gs_direct s' = gs_direct s;
  st_skbs : exists k h, gs_skbs s !! p = Some k /\ gs_skbs s' = <[p := k <| gk_hash := h |>]> (gs_skbs s);
  st_cores : cores_ok s'
}.

(** The host will process [p] on core [cpu]: with a flow table, its hash selects
    the entry of that core. *)
Definition routed (p : ptr) (cpu : Z) (s s' : gro_state) : Prop :=
  match gs_flow s with
  | Some _ => let hash := cpu + gs_cpu_mask s + 1 in
      exists k ents, gs_skbs s' !! p = Some k /\ gk_hash k = hash /\ gs_flow s' = Some ents /\ ents !! Z.to_nat hash = Some hash
  | None => gs_skbs s' = gs_skbs s
  end.

Lemma gskb_hash_id k : k <| gk_hash := gk_hash k |> = k.
Proof. by destruct k. Qed.

Lemma set_cpu_spec p cpu s :
  cores_ok s -> 0 <= cpu < nr s -> is_Some (gs_skbs s !! p) ->
  exists s', homa_set_softirq_cpu p cpu s = Ok (tt, s') /\ steered p s s' /\ gs_cores s' = gs_cores s /\ gs_w s' = gs_w s /\
    routed p cpu s s'.
Proof.
  intros [Hc Hf] Hcpu [k Hk]. unfold homa_set_softirq_cpu. erewrite bind_eq by reflexivity. unfold flow_ok in Hf.
  destruct (gs_flow s) as [ents|] eqn:Ef.
  - destruct Hf as [Hm Hlen]. erewrite bind_eq by reflexivity. cbv zeta.
    rewrite s32_id by (unfold_int; unfold nr in *; lia). set (hash := cpu + gs_cpu_mask s + 1).
    destruct (lookup_lt_is_Some_2 ents (Z.to_nat hash)) as [e He]; [unfold hash; lia |].
    erewrite bind_eq by (unfold lift; rewrite (proj2 (arr_Ok ents hash e)) by (split; [unfold hash; lia | done]); reflexivity).
    set (s1 := s <| gs_flow := Some (<[Z.to_nat hash := hash]> ents) |>).
    assert ((if negb (e =? hash) then (let* l := lift (arr_set ents hash hash) in gupd (fun s => s <| gs_flow := Some l |>))
             else ret tt) s = Ok (tt, s1)) as Hex.
    { destruct (Z.eqb_spec e hash) as [-> | Hne]; simpl.
      - unfold ret, s1. rewrite list_insert_id by done. rewrite <- Ef. by destruct s.
      - unfold lift. rewrite (proj2 (arr_set_Ok ents hash hash _)) by (split; [unfold hash, nr in *; lia | reflexivity]). done. }
    rewrite (bind_eq _ _ _ _ _ Hex). rewrite (upd_gskb_eq p s1 k) by done. eexists. split; [reflexivity |].
    split_ands; [| done | done |].
    + constructor; try done; [exists k; eexists; split; [done | reflexivity] |].
      split; [exact Hc |]. unfold flow_ok, nr. simpl. rewrite length_insert. done.
    + unfold routed. rewrite Ef. simpl. do 2 eexists. rewrite lookup_insert_eq. split; [reflexivity |]. simpl.
      rewrite u32_id by (unfold_int; unfold hash, nr in *; lia). split_ands; try done.
      apply list_lookup_insert_eq. unfold hash. lia.
  - exists s. split_ands; try done; [|unfold routed; by rewrite Ef]. constructor; try done; [|split; [done | unfold flow_ok; by rewrite Ef]].
    exists k, (gk_hash k). rewrite gskb_hash_id, insert_id by done. done.
Qed.

(** The next [n] cores after [c], in circular order. *)
Fixpoint next_cores (n : nat) (nr_ c : Z) : list Z :=
  match n with O => [] | S n => next_core nr_ c :: next_cores n nr_ (next_core nr_ c) end.

Lemma next_core_range nr_ c : 0 <= c < nr_ -> 0 <= next_core nr_ c < nr_.
Proof. unfold next_core. destruct (Z.geb_spec (c + 1) nr_); lia. Qed.

Lemma next_cores_range n nr_ : forall c, 0 <= c < nr_ -> Forall (fun c => 0 <= c < nr_) (next_cores n nr_ c).
Proof.
  induction n as [|n IH]; intros c Hc; simpl; [constructor |].
  pose proof (next_core_range nr_ c Hc). constructor; [done |]. by apply IH.
Qed.

(** Neither SoftIRQ nor GRO keeps core [c] busy. *)
Definition core_idle (s : gro_state) (busy_ns now c : Z) : bool :=
  match gs_cores s !! Z.to_nat c with
  | Some oc => (oc_softirq_backlog oc <=? 0) && (u64 (oc_last_gro oc + busy_ns) <=? now)
  | None => false
  end.

Lemma gen2_scan_spec n busy_ns now s : forall c,
  0 <= c < nr s -> gen2_scan n busy_ns now c s = Ok (List.find (core_idle s busy_ns now) (next_cores n (nr s) c), s).
Proof.
  induction n as [|n IH]; intros c Hc; cbn [gen2_scan next_cores List.find]; [done |].
  erewrite bind_eq by reflexivity. cbv zeta. fold (nr s). pose proof (next_core_range _ _ Hc) as Hn.
  destruct (lookup_lt_is_Some_2 (gs_cores s) (Z.to_nat (next_core (nr s) c))) as [oc Hoc]; [unfold nr in *; lia |].
  rewrite (bind_eq _ _ _ _ _ (get_off_eq _ s oc (proj1 Hn) Hoc)). unfold core_idle at 1. rewrite Hoc.
  destruct (Z.gtb_spec (oc_softirq_backlog oc) 0); destruct (Z.leb_spec (oc_softirq_backlog oc) 0); try lia; [by apply IH |].
  destruct (Z.gtb_spec (u64 (oc_last_gro oc + busy_ns)) now);
    destruct (Z.leb_spec (u64 (oc_last_gro oc + busy_ns)) now); try lia; [by apply IH | done].
Qed.

Lemma wrap_core_spec nr_ fuel : forall c,
  0 < nr_ -> 0 <= c <= Z.of_nat fuel -> wrap_core fuel nr_ c = Ok (c mod nr_).
Proof.
  induction fuel as [|fuel IH]; intros c Hn Hc; cbn [wrap_core]; destruct (Z.geb_spec c nr_).
  - lia.
  - by rewrite Z.mod_small by lia.
  - rewrite IH by lia. f_equal. rewrite <- (Z_mod_plus_full (c - nr_) 1 nr_). f_equal. lia.
  - by rewrite Z.mod_small by lia.
Qed.

(** The core for a batch under the Gen2 policy: the first idle one of the next
    cores, and otherwise one of them in turn. *)
Definition gen2_choice (s : gro_state) (this : Z) (oc : homa_offload_core) : Z * homa_offload_core :=
  let w := gs_w s in
  let now := w_clock w (w_tick w) in
  match List.find (core_idle s (h_busy_ns (w_homa w)) now) (next_cores CORES_TO_CHECK (nr s) this) with
  | Some c => (c, oc)
  | None =>
      let offset := if oc_softirq_offset oc + 1 >? Z.of_nat CORES_TO_CHECK then 1 else oc_softirq_offset oc + 1 in
      ((this + offset) mod nr s, oc <| oc_softirq_offset := offset |>)
  end.

Lemma gen2_choice_ok s this oc :
  0 <= this < nr s -> off_core_ok (nr s) oc ->
  0 <= (gen2_choice s this oc).1 < nr s /\ off_core_ok (nr s) (gen2_choice s this oc).2 /\
  oc_held_skb (gen2_choice s this oc).2 = oc_held_skb oc.
Proof.
  intros Ht Hok. unfold gen2_choice. cbv zeta. destruct (List.find _ _) as [c|] eqn:Ef; simpl.
  - apply List.find_some in Ef as [Hin%list_elem_of_In _]. split; [|done].
    apply (proj1 (Forall_forall _ _) (next_cores_range CORES_TO_CHECK _ _ Ht) _ Hin).
  - destruct Hok as [A1 A2 A3]. split; [apply Z.mod_pos_bound; lia |]. split; [|done]. constructor; try done. simpl.
    unfold CORES_TO_CHECK in *. destruct (Z.gtb_spec (oc_softirq_offset oc + 1) (Z.of_nat 4)); lia.
Qed.

Lemma cores_ok_insert s i oc :
  cores_ok s -> off_core_ok (nr s) oc -> cores_ok (s <| gs_cores ::= insert i oc |>).
Proof.
  intros [Hc Hf] Hoc. unfold cores_ok, nr. simpl. rewrite length_insert. split; [by apply Forall_insert | exact Hf].
Qed.

(** Changing fields of a core other than the held packet. *)
Lemma steered_core p s i oc oc' :
  cores_ok s -> is_Some (gs_skbs s !! p) -> gs_cores s !! i = Some oc -> off_core_ok (nr s) oc' -> held_of oc' = held_of oc ->
  steered p s (s <| gs_cores ::= insert i oc' |>).
Proof.
  intros Hc [k Hk] Hi Hoc Hh. constructor; try done; [| |by apply cores_ok_insert].
  - simpl. rewrite list_fmap_insert, Hh, <- list_fmap_insert. by rewrite list_insert_id.
  - exists k, (gk_hash k). rewrite gskb_hash_id, insert_id by done. done.
Qed.

Lemma steered_world p s w' :
  cores_ok s -> is_Some (gs_skbs s !! p) -> same_homa (gs_w s) w' -> steered p s (s <| gs_w := w' |>).
Proof.
  intros Hc [k Hk] Hw. constructor; try done. exists k, (gk_hash k). by rewrite gskb_hash_id, insert_id.
Qed.

Lemma steered_trans p s s1 s2 : steered p s s1 -> steered p s1 s2 -> steered p s s2.
Proof.
  intros [A1 A2 A3 A4 A5 A6 A7 (k & h & A8 & A8') A9] [B1 B2 B3 B4 B5 B6 B7 (k' & h' & B8 & B8') B9].
  constructor; try congruence; [by etransitivity |].
  rewrite A8', lookup_insert_eq in B8. injection B8 as <-. exists k, h'. split; [done |].
  rewrite B8', A8', insert_insert_eq. done.
Qed.

Lemma steered_in p s s' : steered p s s' -> is_Some (gs_skbs s' !! p).
Proof. intros H. destruct (st_skbs _ _ _ H) as (k & h & _ & ->). by rewrite lookup_insert_eq. Qed.

Lemma steered_nr p s s' : steered p s s' -> nr s' = nr s.
Proof. intros H. unfold nr. rewrite <- (length_fmap held_of), (st_held _ _ _ H), length_fmap. done. Qed.

Lemma sched_clock_same w : same_homa w (w <| w_tick ::= S |>).
Proof. exists (S (w_tick w)), (host_last_active (w_host w)). destruct w as [? ? ? ? ? ? ? ho ? ? ? ? ?]. by destruct ho. Qed.

Lemma off_core_lookup s i : cores_ok s -> 0 <= i < nr s -> exists oc, gs_cores s !! Z.to_nat i = Some oc /\ off_core_ok (nr s) oc.
Proof.
  intros [Hc _] Hi. destruct (lookup_lt_is_Some_2 (gs_cores s) (Z.to_nat i)) as [oc Hoc]; [unfold nr in *; lia |].
  exists oc. split; [done |]. apply (proj1 (Forall_lookup _ _) Hc _ _ Hoc).
Qed.

Lemma gen2_rotate_spec this s oc :
  0 <= this < nr s -> gs_cores s !! Z.to_nat this = Some oc -> 0 <= oc_softirq_offset oc ->
  let offset := if oc_softirq_offset oc + 1 >? Z.of_nat CORES_TO_CHECK then 1 else oc_softirq_offset oc + 1 in
  gen2_rotate this s = Ok ((this + offset) mod nr s,
    s <| gs_cores ::= insert (Z.to_nat this) (oc <| oc_softirq_offset := offset |>) |>).
Proof.
  intros Ht Hoc H0 offset. unfold gen2_rotate. rewrite (bind_eq _ _ _ _ _ (get_off_eq _ s oc (proj1 Ht) Hoc)). cbv zeta.
  fold offset. erewrite bind_eq by (eapply set_off_eq; [lia | exact Hoc]). erewrite bind_eq by reflexivity. simpl.
  rewrite length_insert. unfold lift. fold (nr s). rewrite wrap_core_spec; [done | lia |].
  unfold offset. destruct (_ >? _); lia.
Qed.

Lemma gen2_spec this p s oc :
  cores_ok s -> 0 <= this < nr s -> is_Some (gs_skbs s !! p) -> gs_cores s !! Z.to_nat this = Some oc ->
  exists s', homa_gro_gen2 this p s = Ok (tt, s') /\ steered p s s' /\ routed p (gen2_choice s this oc).1 s s' /\
    gs_cores s' = alter (fun o => o <| oc_softirq_backlog ::= fun b => s32 (b + 1) |>) (Z.to_nat (gen2_choice s this oc).1)
      (<[Z.to_nat this := (gen2_choice s this oc).2]> (gs_cores s)).
Proof.
  intros Hc Ht Hp Hoc. unfold homa_gro_gen2. erewrite bind_eq by (apply inw_eq; reflexivity).
  erewrite bind_eq by (apply inw_eq; reflexivity). pose proof (proj1 (Forall_lookup _ _) (proj1 Hc) _ _ Hoc) as Hok.
  destruct (gen2_choice_ok s this oc Ht Hok) as (Hr & Hok' & Hh).
  set (s1 := s <| gs_w := _ |> <| gs_w := _ |>).
  pose proof (steered_world p s ((gs_w s) <| w_tick ::= S |>) Hc Hp (sched_clock_same _)) as St1. change (steered p s s1) in St1.
  rewrite (bind_eq _ _ _ _ _ (gen2_scan_spec _ _ _ s1 this Ht)).
  set (s2 := s1 <| gs_cores ::= insert (Z.to_nat this) (gen2_choice s this oc).2 |>).
  assert (held_of (gen2_choice s this oc).2 = held_of oc) as Hh'.
  { unfold gen2_choice. cbv zeta. by destruct (List.find _ _). }
  assert (match List.find (core_idle s1 (h_busy_ns (w_homa (gs_w s))) (w_clock (gs_w s) (w_tick (gs_w s))))
      (next_cores CORES_TO_CHECK (nr s1) this) with Some c => ret c | None => gen2_rotate this end s1 =
    Ok ((gen2_choice s this oc).1, s2)) as Hex.
  { unfold s2, gen2_choice. cbv zeta. change (core_idle s1) with (core_idle s). change (nr s1) with (nr s).
    destruct (List.find _ _) as [c|]; simpl; [|apply (gen2_rotate_spec this s1 oc Ht Hoc); apply Hok].
    unfold ret, s1. simpl. rewrite list_insert_id by done. done. }
  rewrite (bind_eq _ _ _ _ _ Hex).
  assert (steered p s1 s2) as St2 by (apply (steered_core p s1 _ oc); [apply St1 | done ..]).
  assert (nr s2 = nr s) as En by (rewrite (steered_nr _ _ _ St2); by apply (steered_nr _ _ _ St1)).
  set (c := (gen2_choice s this oc).1) in *. destruct (off_core_lookup s2 c) as (oc2 & Hoc2 & Hok2); [apply St2 | lia |].
  rewrite (bind_eq _ _ _ _ _ (upd_off_eq _ s2 oc2 _ (proj1 Hr) Hoc2)).
  set (oc3 := oc2 <| oc_softirq_backlog ::= _ |>). set (s3 := s2 <| gs_cores ::= _ |>).
  assert (steered p s2 s3) as St3.
  { apply (steered_core p s2 (Z.to_nat c) oc2 oc3); [apply St2 | by apply (steered_in _ _ _ St2) | exact Hoc2 | | reflexivity].
    by destruct Hok2; constructor. }
  destruct (set_cpu_spec p c s3) as (s' & Hex' & St4 & Ec & _ & Hrt);
    [apply St3 | rewrite (steered_nr _ _ _ St3); lia | by apply (steered_in _ _ _ St3) |].
  exists s'. split_ands; [exact Hex' | exact (steered_trans _ _ _ _ St1 (steered_trans _ _ _ _ St2 (steered_trans _ _ _ _ St3 St4))) | exact Hrt |].
  rewrite Ec. unfold s3. simpl. rewrite list_insert_alter. apply list_alter_ext; [|done]. intros x Hx.
  change (gs_cores s2 !! Z.to_nat c = Some x) in Hx. rewrite Hoc2 in Hx. injection Hx as <-. done.
Qed.

(** The candidates up to the first negative one. *)
Fixpoint valid_cores (l : list Z) : list Z :=
  match l with [] => [] | c :: l => if c <? 0 then [] else c :: valid_cores l end.

Definition app_active (s : gro_state) (c : Z) : Z := host_last_app_active (w_host (gs_w s)) c.
Definition active (s : gro_state) (c : Z) : Z := host_last_active (w_host (gs_w s)) c.

Lemma gen3_scan_spec busy_time core s : forall l,
  Forall (fun c => c < nr s) l ->
  gen3_scan busy_time l core s =
  Ok (default core (List.find (fun c => app_active s c <? busy_time) (valid_cores l)), s).
Proof.
  induction 1 as [|c l Hc _ IH]; cbn [gen3_scan valid_cores List.find]; [done |].
  destruct (Z.ltb_spec c 0) as [| H0]; [done |].
  destruct (lookup_lt_is_Some_2 (gs_cores s) (Z.to_nat c)) as [oc Hoc]; [unfold nr in *; lia |].
  rewrite (bind_eq _ _ _ _ _ (get_off_eq _ s oc H0 Hoc)). erewrite bind_eq by reflexivity. cbn [List.find]. fold (app_active s c).
  by destruct (app_active s c <? busy_time).
Qed.

Lemma valid_cores_range n l : Forall (fun c => c < n) l -> Forall (fun c => 0 <= c < n) (valid_cores l).
Proof.
  induction 1 as [|c l Hc _ IH]; simpl; [constructor |]. destruct (Z.ltb_spec c 0); [constructor |]. constructor; [lia | done].
Qed.

(** The core for a batch under the Gen3 policy. *)
Definition gen3_choice (s : gro_state) (oc : homa_offload_core) : Z :=
  let w := gs_w s in
  let busy_time := u64 (w_clock w (w_tick w) - h_busy_ns (w_homa w)) in
  default (List.hd 0 (oc_gen3_softirq_cores oc))
    (List.find (fun c => app_active s c <? busy_time) (valid_cores (oc_gen3_softirq_cores oc))).

Lemma gen3_choice_range s oc : off_core_ok (nr s) oc -> 0 <= gen3_choice s oc < nr s.
Proof.
  intros [(c & l & E & Hc & Hl) _ _]. unfold gen3_choice. cbv zeta. rewrite E.
  destruct (List.find _ _) as [d|] eqn:Ef; [|done]. apply List.find_some in Ef as [Hin%list_elem_of_In _]. simpl.
  apply (proj1 (Forall_forall _ _) (valid_cores_range (nr s) (c :: l) (Forall_cons_2 (fun c => c < nr s) _ _ (proj2 Hc) Hl)) _ Hin).
Qed.

Lemma set_last_active_eq core t s :
  cores_ok s -> 0 <= core < nr s ->
  set_last_active core t s = Ok (tt, s <| gs_w ::= fun w => w <| w_host ::=
    fun ho => ho <| host_last_active ::= fun f c => if c =? core then t else f c |> |> |>).
Proof.
  intros Hc Hr. destruct (off_core_lookup s core Hc Hr) as (oc & Hoc & _). unfold set_last_active.
  rewrite (bind_eq _ _ _ _ _ (get_off_eq _ s oc (proj1 Hr) Hoc)). done.
Qed.

Lemma last_active_same w f : same_homa w (w <| w_host ::= fun ho => ho <| host_last_active ::= f |> |>).
Proof. exists (w_tick w), (f (host_last_active (w_host w))). by destruct w. Qed.

Lemma gen3_spec this p s oc :
  cores_ok s -> 0 <= this < nr s -> is_Some (gs_skbs s !! p) -> gs_cores s !! Z.to_nat this = Some oc ->
  exists s', homa_gro_gen3 this p s = Ok (tt, s') /\ steered p s s' /\
    active s' (gen3_choice s oc) = w_clock (gs_w s) (w_tick (gs_w s)).
Proof.
  intros Hc Ht Hp Hoc. pose proof (proj1 (Forall_lookup _ _) (proj1 Hc) _ _ Hoc) as Hok.
  pose proof (gen3_choice_range s oc Hok) as Hr.
  unfold homa_gro_gen3. rewrite (bind_eq _ _ _ _ _ (get_off_eq _ s oc (proj1 Ht) Hoc)). cbv zeta.
  erewrite bind_eq by (apply inw_eq; reflexivity). erewrite bind_eq by (apply inw_eq; reflexivity).
  set (s1 := s <| gs_w := _ |> <| gs_w := _ |>).
  pose proof (steered_world p s ((gs_w s) <| w_tick ::= S |>) Hc Hp (sched_clock_same _)) as St1. change (steered p s s1) in St1.
  destruct (oco_gen3 _ _ Hok) as (c & l & E & Hc' & Hl).
  erewrite bind_eq by (rewrite E; reflexivity).
  erewrite bind_eq by (apply gen3_scan_spec; rewrite E; constructor; [apply Hc' | exact Hl]).
  replace (default c _) with (gen3_choice s oc) by (unfold gen3_choice; by rewrite E).
  destruct (set_cpu_spec p (gen3_choice s oc) s1) as (s2 & Hex & St2 & Ec & Ew & _); [apply St1 | done | done |].
  rewrite (bind_eq _ _ _ _ _ Hex). rewrite set_last_active_eq; [|apply St2 | by rewrite (steered_nr _ _ _ St2)].
  eexists. split; [reflexivity |]. split.
  - refine (steered_trans _ _ _ _ St1 (steered_trans _ _ _ _ St2 _)).
    apply (steered_world p s2 _ (st_cores _ _ _ St2) (steered_in _ _ _ St2)). apply last_active_same.
  - unfold active. simpl. by rewrite Z.eqb_refl.
Qed.

Lemma idle_scan_spec n s : forall core best bt,
  0 <= core < nr s ->
  exists b, idle_scan n core best bt s = Ok (b, s) /\
    (b = best /\ Forall (fun c => bt <= active s c) (next_cores n (nr s) core) \/
     b ∈ next_cores n (nr s) core /\ active s b < bt /\ Forall (fun c => active s b <= active s c) (next_cores n (nr s) core)).
Proof.
  induction n as [|n IH]; intros core best bt Hc; cbn [idle_scan next_cores]; [by exists best; auto |].
  erewrite bind_eq by reflexivity. cbv zeta. fold (nr s). pose proof (next_core_range _ _ Hc) as Hn.
  destruct (lookup_lt_is_Some_2 (gs_cores s) (Z.to_nat (next_core (nr s) core))) as [oc Hoc]; [unfold nr in *; lia |].
  rewrite (bind_eq _ _ _ _ _ (get_off_eq _ s oc (proj1 Hn) Hoc)). erewrite bind_eq by reflexivity.
  set (c := next_core (nr s) core) in *. fold (active s c). destruct (Z.ltb_spec (active s c) bt) as [Hlt | Hge].
  - destruct (IH c c (active s c) Hn) as (b & Hex & [[-> Hall] | (Hb & Hlt' & Hall)]); eexists; (split; [exact Hex |]); right.
    + split_ands; [set_solver | done |]. by constructor.
    + split_ands; [set_solver | lia |]. constructor; [lia | done].
  - destruct (IH c best bt Hn) as (b & Hex & [[-> Hall] | (Hb & Hlt' & Hall)]); eexists; (split; [exact Hex |]).
    + left. split; [done |]. constructor; [lia | done].
    + right. split_ands; [set_solver | done |]. constructor; [lia | done].
Qed.

(** The state when [homa_gro_complete] has forgotten the held packet. *)
Definition forget (this : Z) (oc : homa_offload_core) (s : gro_state) : gro_state :=
  s <| gs_cores ::= insert (Z.to_nat this) (oc <| oc_held_skb := None |>) |>.

Lemma forget_ok this oc s : cores_ok s -> gs_cores s !! Z.to_nat this = Some oc -> cores_ok (forget this oc s).
Proof.
  intros Hc Hoc. apply cores_ok_insert; [done |]. by destruct (proj1 (Forall_lookup _ _) (proj1 Hc) _ _ Hoc); constructor.
Qed.

(** Whatever the policy, [homa_gro_complete] chooses a core that exists. *)
Lemma gro_complete_spec this p s oc :
  cores_ok s -> 0 <= this < nr s -> is_Some (gs_skbs s !! p) -> gs_cores s !! Z.to_nat this = Some oc ->
  exists s', homa_gro_complete this p s = Ok (0, s') /\ steered p (forget this oc s) s'.
Proof.
  intros Hc Ht Hp Hoc. unfold homa_gro_complete. rewrite (bind_eq _ _ _ _ _ (upd_off_eq this s oc _ (proj1 Ht) Hoc)).
  fold (forget this oc s). pose proof (forget_ok this oc s Hc Hoc) as Hc1. set (s1 := forget this oc s) in *.
  assert (nr s1 = nr s) as En by (unfold nr; simpl; by rewrite length_insert).
  erewrite bind_eq by (apply inw_eq; reflexivity).
  replace (s1 <| gs_w := gs_w s1 |>) with s1 by (by destruct s).
  assert (gs_cores s1 !! Z.to_nat this = Some (oc <| oc_held_skb := None |>)) as Hoc1
    by (apply list_lookup_insert_eq; by eapply lookup_lt_Some).
  set (h := w_homa (gs_w s1)).
  match goal with |- context [bind ?m _] => assert (exists s', m s1 = Ok (tt, s') /\ steered p s1 s') as (s' & Hex & St) end.
  { destruct (policy h HOMA_GRO_GEN3).
    { destruct (gen3_spec this p s1 (oc <| oc_held_skb := None |>)) as (s' & ? & ? & _); [done | lia | done | done | eauto]. }
    destruct (policy h HOMA_GRO_GEN2).
    { destruct (gen2_spec this p s1 (oc <| oc_held_skb := None |>)) as (s' & ? & ? & _); [done | lia | done | done | eauto]. }
    destruct (policy h HOMA_GRO_IDLE).
    { destruct (idle_scan_spec CORES_TO_CHECK s1 this this (2 ^ 64 - 1)) as (b & Hex & Hb); [lia |].
      rewrite (bind_eq _ _ _ _ _ Hex). destruct (set_cpu_spec p b s1) as (s' & ? & ? & _); [done | | done | eauto].
      destruct Hb as [[-> _] | (Hb & _)]; [lia |].
      apply (proj1 (Forall_forall _ _) (next_cores_range CORES_TO_CHECK (nr s1) this ltac:(lia)) _ Hb). }
    destruct (policy h HOMA_GRO_NEXT).
    { erewrite bind_eq by reflexivity. fold (nr s1).
      destruct (set_cpu_spec p (next_core (nr s1) this) s1) as (s' & ? & ? & _); [done | | done | eauto].
      apply next_core_range. lia. }
    exists s1. split; [done |]. destruct Hp as [k Hk]. constructor; try done. exists k, (gk_hash k).
    by rewrite gskb_hash_id, insert_id. }
  rewrite (bind_eq _ _ _ _ _ Hex). by exists s'.
Qed.
