(* ===== verification/OffloadBatch.v ===== *)
(** * GRO: batches of packets

    Every packet that arrives is processed at once, held in a list of the NAPI
    instance, or part of exactly one batch, in order of arrival. *)
From S2P Require Import Prelude Lists Wire Types Utils Outgoing Incoming Softirq Syscall Offload OffloadGro Example.

(** ** Held packets *)
Definition heads (s : gro_state) : list ptr := gs_lists s ≫= id.
Definition batch (m : gmap ptr gro_skb) (q : ptr) : list ptr :=
  q :: match m !! q with Some k => gk_frags k | None => [] end.
Definition held (s : gro_state) : list ptr := heads s ≫= batch (gs_skbs s).
(** All packets: passed up in batches, processed at once, held. *)
Definition packets (s : gro_state) : list ptr := concat (gs_up s) ++ gs_direct s ++ held s.

(** A packet that heads a batch. *)
Definition head_ok (max : Z) (k : gro_skb) : Prop :=
  gk_count k = 1 + Z.of_nat (length (gk_frags k)) /\ gk_count k <= Z.max 1 (max - 1).

Definition max_gro (s : gro_state) : Z := h_max_gro_skbs (w_homa (gs_w s)).

(** [mx] is the maximal size of a batch. *)
Record gro_ok (mx : Z) (s : gro_state) : Prop := {
  go_cores : cores_ok s;
  go_len : length (gs_lists s) = Z.to_nat GRO_HASH_BUCKETS;
  go_counts : gs_counts s = (fun l => Z.of_nat (length l)) <$> gs_lists s;
  go_bits : forall i l, gs_lists s !! i = Some l -> Z.testbit (gs_bitmask s) (Z.of_nat i) = bool_decide (l <> []);
  go_nodup : NoDup (held s);
  go_skbs : forall q, q ∈ heads s -> exists k, gs_skbs s !! q = Some k /\ head_ok mx k;
  go_max : mx <= 65535
}.

Lemma heads_held s q : q ∈ heads s -> q ∈ held s.
Proof. intros H. unfold held. apply list_elem_of_bind. exists q. split; [by left | done]. Qed.

Lemma bind_nodup_heads m (l : list ptr) : NoDup (l ≫= batch m) -> NoDup l.
Proof.
  induction l as [|q l IH]; [constructor |]. rewrite bind_cons. unfold batch at 1. cbn [app]. intros [Hq H]%NoDup_cons.
  apply NoDup_app in H as (_ & _ & H). constructor; [|by apply IH]. intros Hin. apply Hq, elem_of_app. right.
  apply list_elem_of_bind. exists q. split; [by left | done].
Qed.

(** The batch of [q] gets one more packet. *)
Lemma bind_grow {A B} (f f' : A -> list B) l q x :
  NoDup l -> q ∈ l -> f' q = f q ++ [x] -> (forall y, y ∈ l -> y <> q -> f' y = f y) -> l ≫= f' ≡ₚ x :: (l ≫= f).
Proof.
  intros Hnd Hq Eq Ef. destruct (list_elem_of_split _ _ Hq) as (l1 & l2 & ->).
  apply NoDup_app in Hnd as (_ & Hd & [Hd2 _]%NoDup_cons).
  assert (forall l, (forall y, y ∈ l -> f' y = f y) -> l ≫= f' = l ≫= f) as E.
  { clear. intros l H. induction l as [|y l IH]; [done |]. rewrite !bind_cons, H by set_solver. f_equal. apply IH. set_solver. }
  rewrite !bind_app, !bind_cons, Eq, (E l1), (E l2).
  - rewrite <- !app_assoc. simpl. rewrite (app_assoc (l1 ≫= f) (f q)), (app_assoc (l1 ≫= f) (f q)).
    by rewrite <- Permutation_middle.
  - intros y Hy. apply Ef; [set_solver |]. intros ->. done.
  - intros y Hy. apply Ef; [set_solver |]. intros ->. apply (Hd q Hy). set_solver.
Qed.

(** Taking [q] out of its list. *)
Lemma heads_remove (lists : list (list ptr)) b l q :
  NoDup (lists ≫= id) -> lists !! b = Some l -> q ∈ l ->
  lists ≫= id ≡ₚ q :: (<[b := filter (fun x => x <> q) l]> lists ≫= id) /\ l ≡ₚ q :: filter (fun x => x <> q) l.
Proof.
  intros Hnd Hb Hq. destruct (bind_insert id lists b l Hb) as (rest & E & E'). rewrite E in Hnd. unfold id at 1 in Hnd.
  apply NoDup_app in Hnd as (Hnd & _ & _).
  assert (l ≡ₚ q :: filter (fun x => x <> q) l) as El.
  { destruct (list_elem_of_split _ _ Hq) as (l1 & l2 & ->). apply NoDup_app in Hnd as (_ & Hd & [Hd2 _]%NoDup_cons).
    rewrite filter_app, filter_cons_False by auto. rewrite !filter_all.
    - by rewrite Permutation_middle.
    - intros x Hx ->. done.
    - intros x Hx ->. apply (Hd q Hx). set_solver. }
  split; [|done]. rewrite E, (E' _). change (l ++ rest ≡ₚ (q :: filter (fun x => x <> q) l) ++ rest). by rewrite <- El.
Qed.

Definition lengths (lists : list (list ptr)) : list Z := (fun l => Z.of_nat (length l)) <$> lists.
Definition bits_ok (lists : list (list ptr)) (bits : Z) : Prop :=
  forall i l, lists !! i = Some l -> Z.testbit bits (Z.of_nat i) = bool_decide (l <> []).

(** Removing one packet from a list updates the length and the bit. *)
Lemma lists_removed lists b l q bits :
  lists !! b = Some l -> l ≡ₚ q :: filter (fun x => x <> q) l -> bits_ok lists bits ->
  let l' := filter (fun x => x <> q) l in
  let n := Z.of_nat (length l) - 1 in
  <[b := n]> (lengths lists) = lengths (<[b := l']> lists) /\
  bits_ok (<[b := l']> lists) (if n =? 0 then Z.clearbit bits (Z.of_nat b) else bits).
Proof.
  intros Hb Hl Hbits l' n. pose proof (Permutation_length Hl) as Hlen. simpl in Hlen. fold l' in Hlen.
  assert (n = Z.of_nat (length l')) as En by (unfold n; lia). split.
  - unfold lengths. rewrite list_fmap_insert. f_equal. done.
  - intros i x [(<- & <- & _) | [Hne Hi]]%list_lookup_insert_Some.
    + destruct (Z.eqb_spec n 0) as [E | E].
      * rewrite Z.clearbit_eq. destruct l'; simpl in *; [done | lia].
      * rewrite (Hbits b l Hb). rewrite !bool_decide_eq_true_2; [done | |]; intros H; rewrite H in *; simpl in *; lia.
    + rewrite <- (Hbits i x Hi). destruct (n =? 0); [|done]. rewrite Z.clearbit_neq by lia. done.
Qed.

Lemma push_up_spec online this b q l k oc s :
  cores_ok s -> 0 <= this < nr s -> gs_cores s !! Z.to_nat this = Some oc -> 0 <= b -> gs_lists s !! Z.to_nat b = Some l ->
  l ≡ₚ q :: filter (fun x => x <> q) l -> gs_skbs s !! q = Some k ->
  gs_counts s = lengths (gs_lists s) -> bits_ok (gs_lists s) (gs_bitmask s) ->
  exists s' h, push_up online this b q s = Ok (tt, s') /\ cores_ok s' /\ same_homa (gs_w s) (gs_w s') /\
    length (gs_cores s') = length (gs_cores s) /\
    gs_lists s' = <[Z.to_nat b := filter (fun x => x <> q) l]> (gs_lists s) /\
    gs_counts s' = lengths (gs_lists s') /\ bits_ok (gs_lists s') (gs_bitmask s') /\
    gs_up s' = gs_up s ++ [q :: gk_frags k] /\ gs_direct s' = gs_direct s /\
    gs_skbs s' = <[q := k <| gk_hash := h |>]> (gs_skbs s).
Proof.
  intros Hc Ht Hoc Hb Hl Hperm Hk Hcnt Hbits. unfold push_up. erewrite bind_eq by reflexivity.
  erewrite bind_eq by (unfold lift; rewrite (proj2 (arr_Ok _ b l) (conj Hb Hl)); reflexivity).
  pose proof (lookup_lt_Some _ _ _ Hl) as Hlt.
  erewrite bind_eq by (unfold lift; rewrite (proj2 (arr_set_Ok _ b _ _)) by (split; [lia | reflexivity]); reflexivity).
  erewrite bind_eq by reflexivity. set (l' := filter _ l) in *. set (lists' := <[Z.to_nat b := l']> (gs_lists s)).
  destruct (gro_complete_spec this q (s <| gs_lists := lists' |>) oc) as (s2 & Hex & St); [done | done | by exists k | done |].
  destruct (st_skbs _ _ _ St) as (k0 & h & Hk0 & Esk). simpl in Hk0. rewrite Hk in Hk0. injection Hk0 as <-.
  rewrite (bind_eq _ _ _ _ _ Hex).
  erewrite bind_eq by (apply get_gskb_eq; rewrite Esk; apply lookup_insert_eq).
  erewrite bind_eq by reflexivity. erewrite bind_eq by reflexivity. erewrite bind_eq by reflexivity.
  destruct (lists_removed _ _ _ _ _ Hl Hperm Hbits) as [En Hbits']. fold l' in En, Hbits'. fold lists' in En, Hbits'.
  assert (gs_counts s2 = lengths (gs_lists s)) as Ec by (rewrite (st_counts _ _ _ St); exact Hcnt).
  assert (lengths (gs_lists s) !! Z.to_nat b = Some (Z.of_nat (length l))) as Elb.
  { unfold lengths. by rewrite list_lookup_fmap, Hl. }
  erewrite bind_eq by (unfold lift; simpl; rewrite Ec, (proj2 (arr_Ok _ b _) (conj Hb Elb)); reflexivity).
  erewrite bind_eq by (unfold lift; simpl; rewrite Ec, (proj2 (arr_set_Ok _ b _ _))
    by (split; [unfold lengths; rewrite length_fmap; lia | reflexivity]); reflexivity).
  rewrite En. erewrite bind_eq by reflexivity. rewrite Z2Nat.id in Hbits' by done.
  match goal with |- context [(if ?c then gupd ?f else ret tt) ?x] =>
    assert ((if c then gupd f else ret tt) x = Ok (tt, x <| gs_bitmask := if c then Z.clearbit (gs_bitmask s) b else gs_bitmask s |>)) as Hex2 end.
  { pose proof (st_bits _ _ _ St) as Eb. simpl in Eb. destruct (_ =? 0).
    - unfold gupd. f_equal. f_equal. simpl. by rewrite Eb.
    - unfold ret. rewrite <- Eb. by destruct s2. }
  eexists _, h. split; [exact Hex2 |]. split_ands; simpl.
  - apply St. 
  - apply St.
  - rewrite <- (length_fmap held_of), (st_held _ _ _ St), length_fmap. simpl. apply length_insert.
  - apply St.
  - rewrite (st_lists _ _ _ St). done.
  - rewrite (st_lists _ _ _ St). exact Hbits'.
  - rewrite (st_up _ _ _ St). done.
  - by rewrite (st_direct _ _ _ St).
  - rewrite Esk. done.
Qed.

(** A packet that has just arrived. *)
Definition arriving (s : gro_state) (p : ptr) (k : gro_skb) : Prop :=
  gs_skbs s !! p = Some k /\ (p ∉ held s) /\ gk_frags k = [] /\ gk_count k = 1 /\ gk_same_flow k = false.

(** What a packet may change without an effect on the batches. *)
Lemma batch_hash m q k h y : m !! q = Some k -> batch (<[q := k <| gk_hash := h |>]> m) y = batch m y.
Proof.
  intros Hq. unfold batch. f_equal. destruct (decide (q = y)) as [<- | Hne]; [by rewrite lookup_insert_eq, Hq | by rewrite lookup_insert_ne].
Qed.

(** The packets after the aggregation of [p] into the batch of [q]. *)
Definition joined (m : gmap ptr gro_skb) (q p : ptr) (kq kp : gro_skb) : gmap ptr gro_skb :=
  <[q := kq <| gk_frags ::= fun l => l ++ [p] |> <| gk_count ::= fun c => u16 (c + 1) |>]> (<[p := kp <| gk_same_flow := true |>]> m).

Lemma joined_batch m q p kq kp y :
  m !! q = Some kq -> q <> p -> y <> p ->
  batch (joined m q p kq kp) y = if decide (y = q) then batch m q ++ [p] else batch m y.
Proof.
  intros Hq Hne Hy. unfold batch, joined. destruct (decide (y = q)) as [-> | Hyq].
  - rewrite lookup_insert_eq, Hq. done.
  - rewrite !lookup_insert_ne by done. done.
Qed.

Lemma joined_held s q p kq kp :
  NoDup (held s) -> q ∈ heads s -> gs_skbs s !! q = Some kq -> p ∉ held s ->
  heads s ≫= batch (joined (gs_skbs s) q p kq kp) ≡ₚ p :: held s.
Proof.
  intros Hnd Hq Hk Hp. assert (forall y, y ∈ heads s -> y <> p) as Hy by (intros y Hy ->; by apply Hp, heads_held).
  apply (bind_grow _ _ _ q); [by eapply bind_nodup_heads | done | |].
  - rewrite joined_batch; [by rewrite decide_True | done | by apply Hy | by apply Hy].
  - intros y Hin Hne. rewrite joined_batch; [by rewrite decide_False | done | by apply Hy | by apply Hy].
Qed.

Lemma aggregate_joins online this b q p kq kp s :
  gs_skbs s !! q = Some kq -> gs_skbs s !! p = Some kp -> q <> p ->
  aggregate online this b q p s =
  (let* k := get_gskb q in let* h := inw get_homa in
   if gk_count k >=? h_max_gro_skbs h
   then (push_up online this b q ;;; ret (Some (- EINPROGRESS))) else ret None)
    (s <| gs_skbs := joined (gs_skbs s) q p kq kp |>).
Proof.
  intros Hq Hp Hne. unfold aggregate. rewrite (bind_eq _ _ _ _ _ (upd_gskb_eq q s kq _ Hq)).
  erewrite bind_eq by (apply upd_gskb_eq; simpl; by rewrite lookup_insert_ne).
  erewrite bind_eq by (apply upd_gskb_eq; simpl; rewrite lookup_insert_ne by done; by rewrite lookup_insert_eq).
  match goal with |- _ ?x = _ ?y => replace y with x; [reflexivity |] end.
  unfold joined. destruct s; simpl. f_equal. rewrite (insert_insert_ne _ p q) by done. by rewrite insert_insert_eq.
Qed.

(** What the arrival of [p] may do: [r] is the result, and [up] what is passed
    up. *)
Record arrival (mx : Z) (p : ptr) (s : gro_state) (r : option Z) (up : list (list ptr)) (s' : gro_state) : Prop := {
  ar_ok : gro_ok mx s';
  ar_up : gs_up s' = gs_up s ++ up;
  ar_packets : packets s' ≡ₚ p :: packets s
}.

Lemma joined_ok mx s q p kq kp :
  gro_ok mx s -> q ∈ heads s -> gs_skbs s !! q = Some kq -> head_ok mx kq -> arriving s p kp ->
  gk_count kq + 1 < mx ->
  gro_ok mx (s <| gs_skbs := joined (gs_skbs s) q p kq kp |>).
Proof.
  intros Hok Hq Hk [Hc1 Hc2] (Hp & Hnp & _) Hlt. destruct Hok as [A1 A2 A3 A4 A5 A6 A7].
  constructor; try done.
  - change (NoDup (heads s ≫= batch (joined (gs_skbs s) q p kq kp))). rewrite joined_held by done. by constructor.
  - simpl. intros y Hy. assert (y <> p) as Hyp by (intros ->; by apply Hnp, heads_held).
    unfold joined. destruct (decide (y = q)) as [-> | Hne].
    + rewrite lookup_insert_eq. eexists. split; [reflexivity |]. unfold head_ok. simpl. rewrite length_app. simpl.
      unfold u16. rewrite Z.mod_small by lia. lia.
    + rewrite !lookup_insert_ne by done. by apply A6.
Qed.

(** The state after the batch of [q] was passed up. *)
Lemma pushed_arrival mx q p kq kp l b k1 h s s' r :
  gro_ok mx s -> q ∈ heads s -> gs_skbs s !! q = Some kq -> arriving s p kp -> q <> p ->
  gs_lists s !! Z.to_nat b = Some l -> q ∈ l ->
  joined (gs_skbs s) q p kq kp !! q = Some k1 -> cores_ok s' ->
  gs_lists s' = <[Z.to_nat b := filter (fun x => x <> q) l]> (gs_lists s) ->
  gs_counts s' = lengths (gs_lists s') -> bits_ok (gs_lists s') (gs_bitmask s') ->
  gs_up s' = gs_up s ++ [batch (gs_skbs s) q ++ [p]] -> gs_direct s' = gs_direct s ->
  gs_skbs s' = <[q := k1 <| gk_hash := h |>]> (joined (gs_skbs s) q p kq kp) ->
  arrival mx p s r [batch (gs_skbs s) q ++ [p]] s'.
Proof.
  intros [A1 A2 A3 A4 A5 A6 A7] Hq Hk (Hp & Hnp & _) Hne Hl Hql Hk1 Hc El Ecnt Hbits Eup Edir Esk.
  destruct (heads_remove (gs_lists s) (Z.to_nat b) l q (bind_nodup_heads _ _ A5) Hl Hql) as [Erm _].
  rewrite <- El in Erm. change (heads s ≡ₚ q :: heads s') in Erm. set (m := joined (gs_skbs s) q p kq kp) in *.
  assert (batch m q = batch (gs_skbs s) q ++ [p]) as Ebq by (unfold m; rewrite joined_batch by done; by rewrite decide_True).
  assert (held s' = heads s' ≫= batch m) as Eh.
  { unfold held. rewrite Esk. clear Erm. induction (heads s') as [|y L IH]; [done |]. rewrite !bind_cons, IH, (batch_hash m q k1 h y Hk1). done. }
  assert ((batch (gs_skbs s) q ++ [p]) ++ held s' ≡ₚ p :: held s) as Eall.
  { rewrite <- (joined_held s q p kq kp A5 Hq Hk Hnp). fold m. rewrite Erm, bind_cons, Ebq, Eh. done. }
  constructor; [constructor | done |].
  - done.
  - by rewrite El, length_insert.
  - done.
  - done.
  - assert (NoDup (p :: held s)) as Hnd by (by constructor). rewrite <- Eall in Hnd. by apply NoDup_app in Hnd as (_ & _ & ?).
  - intros y Hy. assert (y ∈ heads s) as Hys by (rewrite Erm; by right).
    assert (NoDup (heads s)) as Hnd by (by eapply bind_nodup_heads). rewrite Erm in Hnd. apply NoDup_cons in Hnd as [Hnq _].
    assert (y <> q) by (intros ->; done). assert (y <> p) by (intros ->; by apply Hnp, heads_held).
    rewrite Esk, lookup_insert_ne by done. unfold m, joined. rewrite !lookup_insert_ne by done. by apply A6.
  - done.
  - unfold packets. rewrite Eup, Edir, concat_app. simpl concat. rewrite app_nil_r, <- app_assoc.
    rewrite (Permutation_app_comm (gs_direct s)), (app_assoc _ (held s')), Eall. simpl.
    rewrite <- Permutation_middle. f_equiv. f_equiv. apply Permutation_app_comm.
Qed.

Lemma aggregate_spec mx online this b q l p kp oc s :
  gro_ok mx s -> max_gro s = mx -> 0 <= this < nr s -> gs_cores s !! Z.to_nat this = Some oc -> 0 <= b -> gs_lists s !! Z.to_nat b = Some l ->
  q ∈ l -> arriving s p kp ->
  exists r up s', aggregate online this b q p s = Ok (r, s') /\ arrival mx p s r up s' /\ same_homa (gs_w s) (gs_w s') /\
    length (gs_cores s') = length (gs_cores s) /\ gs_direct s' = gs_direct s /\
    (exists k, gs_skbs s' !! p = Some k /\ gk_same_flow k = true) /\
    (r = None /\ up = [] \/
     r = Some (- EINPROGRESS) /\ up = [batch (gs_skbs s) q ++ [p]] /\ mx <= Z.of_nat (length (batch (gs_skbs s) q ++ [p]))).
Proof.
  intros Hok Hmx Ht Hoc Hb Hl Hql Harr. pose proof Harr as (Hp & Hnp & _). pose proof Hok as [A1 A2 A3 A4 A5 A6 A7].
  assert (q ∈ heads s) as Hq by (unfold heads; apply list_elem_of_bind; exists l; split; [done | by eapply list_elem_of_lookup_2]).
  destruct (A6 q Hq) as (kq & Hk & Hh). assert (q <> p) as Hne by (intros ->; by apply Hnp, heads_held).
  rewrite (aggregate_joins _ _ _ _ _ kq kp) by done. set (m := joined (gs_skbs s) q p kq kp). set (s1 := s <| gs_skbs := m |>).
  assert (gk_count kq <= 65534) as Hc65 by (destruct Hh; lia). destruct Hh as [Hc1 Hc2].
  set (k1 := kq <| gk_frags ::= fun l => l ++ [p] |> <| gk_count ::= fun c => u16 (c + 1) |>).
  assert (gs_skbs s1 !! q = Some k1) as Hk1 by apply lookup_insert_eq.
  assert (gk_count k1 = gk_count kq + 1) as Ecnt by (unfold k1, u16; simpl; rewrite Z.mod_small; lia).
  assert (gs_skbs s1 !! p = Some (kp <| gk_same_flow := true |>)) as Hp1
    by (simpl; unfold m, joined; rewrite lookup_insert_ne by done; apply lookup_insert_eq).
  rewrite (bind_eq _ _ _ _ _ (get_gskb_eq q s1 k1 Hk1)). erewrite bind_eq by (apply inw_eq; reflexivity).
  replace (s1 <| gs_w := gs_w s1 |>) with s1 by (by destruct s). change (h_max_gro_skbs (w_homa (gs_w s1))) with (max_gro s). rewrite Hmx.
  pose proof (joined_held s q p kq kp A5 Hq Hk Hnp) as Ehd.
  destruct (Z.geb_spec (gk_count k1) mx) as [Hge | Hlt].
  2:{ exists None, [], s1. split_ands; try done; [|by eexists | by left]. constructor.
      - by apply joined_ok; try done; lia.
      - by rewrite app_nil_r.
      - unfold packets, held. change (heads s1) with (heads s). simpl gs_skbs. unfold m. rewrite Ehd. simpl.
        rewrite !app_assoc. by rewrite <- Permutation_middle. }
  destruct (heads_remove (gs_lists s) (Z.to_nat b) l q (bind_nodup_heads _ _ A5) Hl Hql) as [Erm El].
  destruct (push_up_spec online this b q l k1 oc s1) as (s' & h & Hex & B1 & B2 & B3 & B4 & B5 & B6 & B7 & B8 & B9); try done.
  rewrite (bind_eq _ _ _ _ _ Hex). eexists _, [batch (gs_skbs s) q ++ [p]], s'. split; [reflexivity |].
  assert (gk_frags k1 = gk_frags kq ++ [p]) as Efr by done.
  assert (q :: gk_frags k1 = batch (gs_skbs s) q ++ [p]) as Ebt by (unfold batch; by rewrite Hk).
  split_ands; try done.
  - eapply (pushed_arrival mx q p kq kp l b k1 h); try done.
    + by rewrite <- Ebt.
  - rewrite B9, lookup_insert_ne by done. eexists. split; [exact Hp1 | done].
  - right. split_ands; try done. rewrite Efr in Ebt. rewrite <- Ebt. simpl. rewrite length_app. simpl. lia.
Qed.

(** ** Steps without an effect on the batches *)
Record quiet (p : ptr) (s s' : gro_state) : Prop := {
  qu_lists : gs_lists s' = gs_lists s; qu_counts : gs_counts s' = gs_counts s; qu_bits : gs_bitmask s' = gs_bitmask s;
  qu_up : gs_up s' = gs_up s; qu_direct : gs_direct s' = gs_direct s;
  qu_skbs : forall y, y <> p -> gs_skbs s' !! y = gs_skbs s !! y;
  qu_nr : length (gs_cores s') = length (gs_cores s);
  qu_cores : cores_ok s'
}.

Lemma quiet_trans p s s1 s2 : quiet p s s1 -> quiet p s1 s2 -> quiet p s s2.
Proof. intros [] []. constructor; try congruence. intros y Hy. rewrite qu_skbs1, qu_skbs0; done. Qed.

Lemma quiet_held p s s' : p ∉ held s -> quiet p s s' -> held s' = held s.
Proof.
  intros Hp Hq. unfold held, heads in *. rewrite (qu_lists _ _ _ Hq). revert Hp. generalize (gs_lists s ≫= id). intros L Hp.
  induction L as [|y L IH]; [done |]. rewrite bind_cons in Hp. rewrite !bind_cons. f_equal; [|apply IH; set_solver].
  unfold batch. rewrite (qu_skbs _ _ _ Hq); [done |]. intros ->. apply Hp. unfold batch. set_solver.
Qed.

Lemma quiet_ok mx p s s' : gro_ok mx s -> p ∉ held s -> quiet p s s' -> gro_ok mx s'.
Proof.
  intros [A1 A2 A3 A4 A5 A6 A7] Hp Hq. pose proof (quiet_held p s s' Hp Hq) as Eh. destruct Hq as [B1 B2 B3 B4 B5 B6 B7 B8].
  constructor; try congruence; try done.
  - rewrite B1, B3. exact A4.
  - unfold heads. rewrite B1. intros q Hin. rewrite B6; [by apply A6 |]. intros ->. by apply Hp, heads_held.
Qed.

Lemma quiet_packets p s s' : p ∉ held s -> quiet p s s' -> packets s' = packets s.
Proof. intros Hp Hq. unfold packets. by rewrite (quiet_held p s s' Hp Hq), (qu_up _ _ _ Hq), (qu_direct _ _ _ Hq). Qed.

Lemma steered_quiet p s s' : steered p s s' -> quiet p s s'.
Proof.
  intros [A1 A2 A3 A4 A5 A6 A7 (k & h & A8 & A8') A9]. constructor; try done.
  - intros y Hy. by rewrite A8', lookup_insert_ne.
  - by rewrite <- (length_fmap held_of), A2, length_fmap.
Qed.

Lemma quiet_world p s w : cores_ok s -> quiet p s (s <| gs_w := w |>).
Proof. intros H. by constructor. Qed.

Lemma quiet_core p s i oc : cores_ok s -> off_core_ok (nr s) oc -> quiet p s (s <| gs_cores ::= insert i oc |>).
Proof. intros H Hoc. constructor; try done; [simpl; apply length_insert | by apply cores_ok_insert]. Qed.

Lemma quiet_skb p s k : cores_ok s -> quiet p s (s <| gs_skbs ::= insert p k |>).
Proof. intros H. constructor; try done. intros y Hy. simpl. by rewrite lookup_insert_ne. Qed.

(** ** Arrival *)

(** The packet with an offset of -1 replaced, and whether it bypasses
    SoftIRQ. *)
Definition fixed (k : gro_skb) : gro_skb :=
  match dec_packet (raw_bytes (gk_raw k)) with
  | Some (PData d, data) =>
      if seg_offset d =? 2 ^ 32 - 1 then
        k <| gk_raw := Build_raw_skb (raw_v6 (gk_raw k)) (raw_saddr (gk_raw k)) (raw_pull (gk_raw k))
          (enc_packet (PData (Build_homa_data_hdr (d_common d) (message_length d) (incoming d) (ack d) (cutoff_version d)
            (retransmit d) (pad d) (sequence (d_common d)))) ++ data) |>
      else k
  | _ => k
  end.

Definition bypassed (h : homa) (busy : bool) (k : gro_skb) : bool :=
  match dec_packet (raw_bytes (gk_raw k)) with
  | Some (PData d, data) => (Z.of_nat (length data) =? message_length d) && policy h HOMA_GRO_SHORT_BYPASS && negb busy
  | Some (PGrant _, _) => policy h HOMA_GRO_FAST_GRANTS && negb busy
  | _ => false
  end.

Lemma gro_bypass_eq busy p k s :
  gs_skbs s !! p = Some k ->
  gro_bypass busy p s = Ok (bypassed (w_homa (gs_w s)) busy k, s <| gs_skbs ::= insert p (fixed k) |>).
Proof.
  intros Hk. unfold gro_bypass. rewrite (bind_eq _ _ _ _ _ (get_gskb_eq p s k Hk)). erewrite bind_eq by (apply inw_eq; reflexivity).
  replace (s <| gs_w := gs_w s |>) with s by (by destruct s).
  assert (s = s <| gs_skbs ::= insert p k |>) as Eid by (destruct s; simpl in *; by rewrite insert_id).
  unfold bypassed, fixed. destruct (dec_packet _) as [[[d|g|r|u|b|c|f|n|a] data]|]; try (rewrite <- Eid; done).
  destruct (seg_offset d =? 2 ^ 32 - 1).
  - by rewrite (bind_eq _ _ _ _ _ (upd_gskb_eq p s k _ Hk)).
  - rewrite <- Eid. done.
Qed.

Lemma find_held_spec q s : forall l, (forall y, y ∈ l -> is_Some (gs_skbs s !! y)) ->
  exists b, find_held q l s = Ok (b, s) /\ (b = true -> q ∈ l).
Proof.
  induction l as [|y l IH]; intros Hl; cbn [find_held]; [by exists false |].
  destruct IH as (b & Hex & Hb); [intros z Hz; apply Hl; set_solver |].
  destruct (decide (y = q)) as [-> | Hne]; [|exists b; split; [done | set_solver]].
  destruct (Hl q) as [k Hk]; [set_solver |]. rewrite (bind_eq _ _ _ _ _ (get_gskb_eq q s k Hk)).
  destruct (gk_protocol k =? IPPROTO_HOMA); [exists true | exists b]; (split; [done | set_solver]).
Qed.

(** What the host does after [homa_gro_receive]: a packet that was neither
    merged nor consumed is added to the list of its hash. *)
Definition host_hold (bucket : Z) (p : ptr) (r : option Z) : GM unit :=
  let* k := get_gskb p in
  match r with
  | None =>
      if gk_same_flow k then ret tt else
      let* lists := gget gs_lists in
      let* l := lift (arr lists bucket) in
      gupd (fun s => s <| gs_lists := <[Z.to_nat bucket := p :: l]> lists |>
        <| gs_counts ::= alter (fun c => c + 1) (Z.to_nat bucket) |> <| gs_bitmask ::= fun b => Z.setbit b bucket |>)
  | Some _ => ret tt
  end.

(** The arrival of a packet: [homa_gro_receive] and the host's part. *)
Definition gro_arrive (junk : Z) (wait : nat) (online : Z -> bool) (this : Z) (p : ptr) : GM (option Z) :=
  let* k := get_gskb p in
  let bucket := Z.land (gk_hash k) (GRO_HASH_BUCKETS - 1) in
  let* r := homa_gro_receive junk wait online this p in
  host_hold bucket p r ;;;
  ret r.

Lemma bucket_range z : 0 <= Z.land z (GRO_HASH_BUCKETS - 1) < GRO_HASH_BUCKETS.
Proof.
  change (GRO_HASH_BUCKETS - 1) with (Z.ones 3). rewrite Z.land_ones by lia. apply (Z.mod_pos_bound _ (2 ^ 3)). lia.
Qed.

Lemma lengths_alter lists b l p : lists !! b = Some l ->
  alter (fun c => c + 1) b (lengths lists) = lengths (<[b := p :: l]> lists).
Proof.
  intros Hl. unfold lengths. rewrite list_fmap_insert. apply list_eq. intros i. destruct (decide (i = b)) as [-> |].
  - rewrite list_lookup_alter_eq, list_lookup_insert_eq, list_lookup_fmap, Hl; [cbn [fmap option_fmap option_map]; f_equal; rewrite length_cons; lia |].
    rewrite length_fmap. by eapply lookup_lt_Some.
  - by rewrite list_lookup_alter_ne, list_lookup_insert_ne.
Qed.

Lemma host_hold_spec mx bucket p k s :
  gro_ok mx s -> arriving s p k -> 0 <= bucket < GRO_HASH_BUCKETS ->
  exists s', host_hold bucket p None s = Ok (tt, s') /\ arrival mx p s None [] s' /\ gs_direct s' = gs_direct s.
Proof.
  intros [A1 A2 A3 A4 A5 A6 A7] (Hk & Hp & Hf & Hc & Hs) Hb. unfold host_hold.
  rewrite (bind_eq _ _ _ _ _ (get_gskb_eq p s k Hk)), Hs. erewrite bind_eq by reflexivity.
  destruct (lookup_lt_is_Some_2 (gs_lists s) (Z.to_nat bucket)) as [l Hl]; [rewrite A2; unfold GRO_HASH_BUCKETS in *; lia |].
  erewrite bind_eq by (unfold lift; rewrite (proj2 (arr_Ok _ bucket l) (conj (proj1 Hb) Hl)); reflexivity).
  eexists. split; [reflexivity |]. set (s' := s <| gs_lists := _ |> <| gs_counts ::= _ |> <| gs_bitmask ::= _ |>).
  destruct (bind_insert id (gs_lists s) (Z.to_nat bucket) l Hl) as (rest & E & E').
  assert (heads s' ≡ₚ p :: heads s) as Eh by (unfold heads; rewrite E; apply E').
  assert (held s' ≡ₚ p :: held s) as Ehd.
  { unfold held. rewrite Eh, bind_cons. unfold batch at 1. simpl. by rewrite Hk, Hf. }
  split; [|done]. constructor; [constructor | simpl; by rewrite app_nil_r |].
  - exact A1.
  - simpl. by rewrite length_insert.
  - simpl. rewrite A3. by apply lengths_alter.
  - simpl. intros i x [(<- & <- & _) | [Hne Hi]]%list_lookup_insert_Some.
    + rewrite Z2Nat.id by lia. rewrite Z.setbit_eq by lia. done.
    + rewrite Z.setbit_neq by lia. by apply A4.
  - rewrite Ehd. by constructor.
  - intros y. rewrite Eh. intros [-> | Hy]%elem_of_cons; [|by apply A6].
    exists k. split; [done |]. unfold head_ok. rewrite Hf, Hc. simpl. lia.
  - done.
  - unfold packets. simpl gs_up. simpl gs_direct. rewrite Ehd. rewrite !app_assoc. by rewrite <- Permutation_middle.
Qed.

(** The end of [homa_gro_receive]. *)
Definition gro_tail (wait : nat) (this : Z) (r : option Z) : GM (option Z) :=
  inw (homa_check_pacer wait) ;;;
  let* t := inw sched_clock in
  upd_off this (fun oc => oc <| oc_last_gro := t |>) ;;;
  ret r.

(** Steps that change the world and the data of cores only. *)
Definition silent (s s' : gro_state) : Prop := (forall q, quiet q s s') /\ gs_skbs s' = gs_skbs s.

Lemma silent_arrival mx p s r up s1 s2 : arrival mx p s r up s1 -> silent s1 s2 -> arrival mx p s r up s2.
Proof.
  intros [A1 A2 A3] [Hq _]. pose proof (infinite_is_fresh (held s1)) as Hf. set (q := fresh (held s1)) in *.
  constructor; [by eapply quiet_ok | by rewrite (qu_up _ _ _ (Hq q)) | by rewrite (quiet_packets q s1 s2 Hf (Hq q))].
Qed.

Lemma gro_last this t s : cores_ok s -> 0 <= this < nr s ->
  exists s', upd_off this (fun oc => oc <| oc_last_gro := t |>) s = Ok (tt, s') /\ silent s s'.
Proof.
  intros Hc Ht. destruct (off_core_lookup s this Hc Ht) as (oc & Hoc & Hok).
  rewrite (upd_off_eq this s oc) by (lia || done). eexists. split; [reflexivity |]. split; [|done].
  intros q. apply quiet_core; [done |]. by destruct Hok; constructor.
Qed.

Lemma silent_trans s s1 s2 : silent s s1 -> silent s1 s2 -> silent s s2.
Proof. intros [A1 A2] [B1 B2]. split; [intros q; by eapply quiet_trans | congruence]. Qed.

Lemma silent_world s w : cores_ok s -> silent s (s <| gs_w := w |>).
Proof. intros H. split; [intros q; by apply quiet_world | done]. Qed.

Lemma gro_tail_spec wait this r s w :
  cores_ok s -> 0 <= this < nr s -> homa_check_pacer wait (gs_w s) = Ok (tt, w) ->
  exists s', gro_tail wait this r s = Ok (r, s') /\ silent s s'.
Proof.
  intros Hc Ht Hp. unfold gro_tail. erewrite bind_eq by (apply inw_eq; exact Hp). erewrite bind_eq by (apply inw_eq; reflexivity).
  match goal with |- context [bind (upd_off this ?f) _ ?x] => destruct (gro_last this (w_clock w (w_tick w)) x) as (s' & Hex & Hs) end;
    [done | done |].
  rewrite (bind_eq _ _ _ _ _ Hex). exists s'. split; [done |]. eapply silent_trans; [|exact Hs].
  eapply silent_trans; by apply silent_world.
Qed.

(** A packet that no batch takes becomes the held packet of the core. *)
Lemma gro_new_spec this p bucket same s k :
  cores_ok s -> 0 <= this < nr s -> gs_skbs s !! p = Some k -> 0 <= bucket < GRO_HASH_BUCKETS ->
  exists s' h, (upd_off this (fun oc => oc <| oc_held_skb := Some p |> <| oc_held_bucket := bucket |>) ;;;
      (if same : bool then homa_set_softirq_cpu p this else ret tt) ;;; ret (None : option Z)) s = Ok (None, s') /\
    quiet p s s' /\ gs_skbs s' !! p = Some (k <| gk_hash := h |>) /\ gs_w s' = gs_w s.
Proof.
  intros Hc Ht Hk Hb. destruct (off_core_lookup s this Hc Ht) as (oc & Hoc & Hok).
  rewrite (bind_eq _ _ _ _ _ (upd_off_eq this s oc _ (proj1 Ht) Hoc)).
  set (oc' := oc <| oc_held_skb := Some p |> <| oc_held_bucket := bucket |>).
  set (s1 := s <| gs_cores ::= insert (Z.to_nat this) oc' |>).
  assert (quiet p s s1) as Hq by (apply quiet_core; [done |]; by destruct Hok; constructor).
  destruct same.
  - destruct (set_cpu_spec p this s1) as (s' & Hex & St & _ & Ew & _); [apply Hq | unfold nr; rewrite (qu_nr _ _ _ Hq); done | by exists k |].
    rewrite (bind_eq _ _ _ _ _ Hex). destruct (st_skbs _ _ _ St) as (k0 & h & Hk0 & Esk). simpl in Hk0. rewrite Hk in Hk0.
    injection Hk0 as <-. exists s', h. split_ands; try done.
    + eapply quiet_trans; [exact Hq | by apply steered_quiet].
    + rewrite Esk. apply lookup_insert_eq.
  - exists s1, (gk_hash k). rewrite gskb_hash_id. done.
Qed.

Lemma fixed_same k : gk_frags (fixed k) = gk_frags k /\ gk_count (fixed k) = gk_count k /\
  gk_same_flow (fixed k) = gk_same_flow k /\ gk_hash (fixed k) = gk_hash k /\ gk_env (fixed k) = gk_env k.
Proof.
  unfold fixed. destruct (dec_packet _) as [[[d|g|r|u|b|c|f|n|a] data]|]; try done. by destruct (_ =? _).
Qed.

(** GRO keeps this core busy. *)
Definition gro_busy (s : gro_state) (oc : homa_offload_core) : bool :=
  u64 (w_clock (gs_w s) (w_tick (gs_w s)) - oc_last_gro oc) <? u64 (h_gro_busy_ns (w_homa (gs_w s))).

(** The state after the packet was looked at. *)
Definition looked (this : Z) (p : ptr) (k : gro_skb) (s : gro_state) : gro_state :=
  s <| gs_w ::= fun w => w <| w_tick ::= S |> <| w_host ::= fun ho => ho <| host_last_active ::=
    fun f c => if c =? this then w_clock (gs_w s) (w_tick (gs_w s)) else f c |> |> |>
    <| gs_skbs ::= insert p (fixed k) |>.

Lemma looked_quiet this p k s : cores_ok s -> quiet p s (looked this p k s).
Proof. intros H. constructor; try done. intros y Hy. simpl. by rewrite lookup_insert_ne. Qed.

Lemma looked_same this p k s : same_homa (gs_w s) (gs_w (looked this p k s)).
Proof. eexists _, _. destruct s as [w]. destruct w. reflexivity. Qed.

(** The part of [homa_gro_receive] for packets that do not bypass SoftIRQ. *)
Definition gro_collect (wait : nat) (online : Z -> bool) (this : Z) (p : ptr) (oc : homa_offload_core) (h : homa) : GM (option Z) :=
  let* k := get_gskb p in
  let hash := Z.land (gk_hash k) (GRO_HASH_BUCKETS - 1) in
  let* found := match oc_held_skb oc with
    | None => ret None
    | Some held =>
        let* lists := gget gs_lists in
        let* l := lift (arr lists (oc_held_bucket oc)) in
        let* b := find_held held l in
        ret (if b then Some held else None)
    end in
  let* result := match found with
    | Some held => aggregate online this (oc_held_bucket oc) held p
    | None =>
        upd_off this (fun oc => oc <| oc_held_skb := Some p |> <| oc_held_bucket := hash |>) ;;;
        (if policy h HOMA_GRO_SAME_CORE then homa_set_softirq_cpu p this else ret tt) ;;;
        ret None
    end in
  gro_tail wait this result.

Lemma gro_receive_split junk wait online this p k oc s :
  cores_ok s -> 0 <= this < nr s -> gs_cores s !! Z.to_nat this = Some oc -> gs_skbs s !! p = Some k ->
  homa_gro_receive junk wait online this p s =
  (if bypassed (w_homa (gs_w s)) (gro_busy s oc) k then
     (softirq_now junk this p ;;;
      let* t := inw sched_clock in
      upd_off this (fun oc => oc <| oc_last_gro := t |>) ;;;
      ret (Some (- EINPROGRESS)))
   else gro_collect wait online this p oc (w_homa (gs_w s))) (looked this p k s).
Proof.
  intros Hc Ht Hoc Hk. unfold homa_gro_receive. erewrite bind_eq by (apply inw_eq; reflexivity).
  erewrite bind_eq by (apply get_off_eq; [lia | exact Hoc]). erewrite bind_eq by (apply inw_eq; reflexivity). cbv zeta.
  erewrite bind_eq by (apply set_last_active_eq; done). erewrite bind_eq by (apply gro_bypass_eq; exact Hk). reflexivity.
Qed.

(** Looking for a batch that takes the packet. *)
Lemma gro_found_spec mx oc s n :
  gro_ok mx s -> off_core_ok n oc ->
  exists o, (match oc_held_skb oc with
    | None => ret None
    | Some held =>
        let* lists := gget gs_lists in
        let* l := lift (arr lists (oc_held_bucket oc)) in
        let* b := find_held held l in
        ret (if b then Some held else None)
    end) s = Ok (o, s) /\
    (forall q, o = Some q -> exists l, gs_lists s !! Z.to_nat (oc_held_bucket oc) = Some l /\ q ∈ l).
Proof.
  intros [A1 A2 A3 A4 A5 A6 A7] [_ _ Hb]. destruct (oc_held_skb oc) as [q|]; [|by exists None].
  erewrite bind_eq by reflexivity.
  destruct (lookup_lt_is_Some_2 (gs_lists s) (Z.to_nat (oc_held_bucket oc))) as [l Hl];
    [rewrite A2; unfold GRO_HASH_BUCKETS in *; lia |].
  erewrite bind_eq by (unfold lift; rewrite (proj2 (arr_Ok _ _ l) (conj (proj1 Hb) Hl)); reflexivity).
  destruct (find_held_spec q s l) as (b & Hex & Hin).
  { intros y Hy. destruct (A6 y) as (k & Hk & _); [|by exists k]. unfold heads. apply list_elem_of_bind. exists l.
    split; [done | by eapply list_elem_of_lookup_2]. }
  rewrite (bind_eq _ _ _ _ _ Hex). exists (if b then Some q else None). split; [done |].
  intros x. destruct b; [|done]. intros [= <-]. exists l. by auto.
Qed.

Section arrive.
Variables (mx junk : Z) (wait : nat) (online : Z -> bool) (this : Z) (p : ptr) (k : gro_skb) (oc : homa_offload_core)
  (s : gro_state).
Hypotheses (Hok : gro_ok mx s) (Hmx : max_gro s = mx) (Ht : 0 <= this < nr s)
  (Hoc : gs_cores s !! Z.to_nat this = Some oc) (Harr : arriving s p k).

Let bucket := Z.land (gk_hash k) (GRO_HASH_BUCKETS - 1).
Let s1 := looked this p k s.

Lemma looked_arriving : arriving s1 p (fixed k) /\ gro_ok mx s1 /\ nr s1 = nr s /\ packets s1 = packets s.
Proof.
  destruct Harr as (Hk & Hp & Hf & Hc & Hs). pose proof (looked_quiet this p k s (go_cores _ _ Hok)) as Hq.
  destruct (fixed_same k) as (E1 & E2 & E3 & _). split_ands.
  - repeat split; try congruence; [simpl; apply lookup_insert_eq |]. unfold s1. by rewrite (quiet_held p s).
  - by eapply quiet_ok.
  - done.
  - by apply (quiet_packets p).
Qed.

(** A packet that bypasses SoftIRQ. *)
Lemma arrive_bypass w :
  bypassed (w_homa (gs_w s)) (gro_busy s oc) k = true ->
  homa_softirq junk this [(gk_env k, gk_raw (fixed k))] (gs_w s1) = Ok (tt, w) ->
  exists s', gro_arrive junk wait online this p s = Ok (Some (- EINPROGRESS), s') /\
    arrival mx p s (Some (- EINPROGRESS)) [] s' /\ gs_direct s' = gs_direct s ++ [p].
Proof.
  intros Hby Hsoft. destruct looked_arriving as ((Hk1 & Hp1 & _) & Hok1 & En & Epk). pose proof (go_cores _ _ Hok1) as Hc1.
  cut (exists s4, homa_gro_receive junk wait online this p s = Ok (Some (- EINPROGRESS), s4) /\ gs_skbs s4 !! p = Some (fixed k) /\
    arrival mx p s (Some (- EINPROGRESS)) [] s4 /\ gs_direct s4 = gs_direct s ++ [p]).
  { intros (s4 & Hex & Hk4 & Ha & Hd). exists s4. split; [|done]. unfold gro_arrive.
    rewrite (bind_eq _ _ _ _ _ (get_gskb_eq p s k (proj1 Harr))). cbv zeta. rewrite (bind_eq _ _ _ _ _ Hex).
    erewrite bind_eq; [reflexivity |]. unfold host_hold. by rewrite (bind_eq _ _ _ _ _ (get_gskb_eq p s4 _ Hk4)). }
  rewrite (gro_receive_split _ _ _ _ _ k oc) by (apply Hok || apply Harr || done). rewrite Hby. fold s1.
  unfold softirq_now. destruct (fixed_same k) as (_ & _ & _ & _ & Ee).
  rewrite !bind_bind. rewrite (bind_eq _ _ _ _ _ (get_gskb_eq p s1 _ Hk1)). rewrite Ee, !bind_bind.
  erewrite bind_eq by (apply inw_eq; exact Hsoft). rewrite !bind_bind. erewrite bind_eq by reflexivity.
  set (s2 := s1 <| gs_w := w |> <| gs_direct ::= _ |>).
  destruct (off_core_lookup s1 this Hc1) as (oc1 & Hoc1 & Hok2); [lia |].
  erewrite bind_eq by (apply (upd_off_eq this s2 oc1); [lia | exact Hoc1]). erewrite bind_eq by (apply inw_eq; reflexivity).
  set (oc2 := oc1 <| oc_softirq_backlog ::= _ |>). match goal with |- context [bind _ _ ?x] => set (s3 := x) end.
  assert (cores_ok s3) as Hc3 by (apply (cores_ok_insert s2); [done | by destruct Hok2; constructor]).
  destruct (gro_last this (w_clock w (w_tick w)) s3) as (s4 & Hex & Hsil);
    [done | unfold nr; simpl; rewrite length_insert; fold (nr s); lia |].
  assert (gs_skbs s4 !! p = Some (fixed k)) as Hk4 by (rewrite (proj2 Hsil); exact Hk1).
  exists s4. split_ands; [by rewrite (bind_eq _ _ _ _ _ Hex) | done | |].
  - eapply (silent_arrival _ _ _ _ _ s3); [|exact Hsil]. destruct Hok1 as [A1 A2 A3 A4 A5 A6 A7]. constructor.
    + by constructor.
    + simpl. by rewrite app_nil_r.
    + unfold packets in *. change (held s3) with (held s1). simpl gs_direct. change (gs_up s3) with (gs_up s1).
      change (gs_direct s1) with (gs_direct s) in *. rewrite <- Epk, <- app_assoc. simpl.
      rewrite <- Permutation_middle. by rewrite <- Permutation_middle.
  - destruct Hsil as [Hsil _]. rewrite (qu_direct _ _ _ (Hsil p)). done.
Qed.

Lemma arrive_after r s2 s3 :
  homa_gro_receive junk wait online this p s = Ok (r, s2) -> host_hold bucket p r s2 = Ok (tt, s3) ->
  gro_arrive junk wait online this p s = Ok (r, s3).
Proof.
  intros H1 H2. unfold gro_arrive. rewrite (bind_eq _ _ _ _ _ (get_gskb_eq p s k (proj1 Harr))). cbv zeta.
  rewrite (bind_eq _ _ _ _ _ H1). by rewrite (bind_eq _ _ _ _ _ H2).
Qed.

Hypothesis Hpacer : forall w, same_homa (gs_w s) w -> exists w', homa_check_pacer wait w = Ok (tt, w').

(** The packet joins the batch of [q]. *)
Lemma arrive_join q l :
  gs_lists s !! Z.to_nat (oc_held_bucket oc) = Some l -> q ∈ l -> off_core_ok (nr s) oc ->
  exists r up s3, (let* r := aggregate online this (oc_held_bucket oc) q p in gro_tail wait this r) s1 = Ok (r, s3) /\
    host_hold bucket p r s3 = Ok (tt, s3) /\ arrival mx p s r up s3 /\ gs_direct s3 = gs_direct s /\
    (up = [] \/ up = [batch (gs_skbs s) q ++ [p]] /\ mx <= Z.of_nat (length (batch (gs_skbs s) q ++ [p]))).
Proof.
  intros Hl Hq Hoco. destruct looked_arriving as (Harr1 & Hok1 & En & Epk). pose proof Harr1 as (Hk1 & Hp1 & _).
  destruct (aggregate_spec mx online this (oc_held_bucket oc) q l p (fixed k) oc s1)
    as (r & up & s2 & Hex & Ha & Hw2 & Hn2 & Hd2 & (k2 & Hk2 & Hsf) & Hcase); try done; [apply Hoco |].
  rewrite (bind_eq _ _ _ _ _ Hex). destruct (Hpacer (gs_w s2)) as [w Hw]; [etransitivity; [apply looked_same | exact Hw2] |].
  destruct (gro_tail_spec wait this r s2 w) as (s3 & Hex3 & Hsil); [apply Ha | unfold nr; rewrite Hn2; fold (nr s1); lia | done |].
  exists r, up, s3. split_ands; [done | | | |].
  - unfold host_hold. rewrite (bind_eq _ _ _ _ _ (get_gskb_eq p s3 k2 ltac:(rewrite (proj2 Hsil); exact Hk2))), Hsf. by destruct r.
  - eapply silent_arrival; [|exact Hsil]. destruct Ha as [B1 B2 B3]. constructor; [done | done | by rewrite B3, Epk].
  - destruct Hsil as [Hsil _]. rewrite (qu_direct _ _ _ (Hsil p)). done.
  - assert (batch (gs_skbs s1) q = batch (gs_skbs s) q) as Eb.
    { unfold batch. simpl. rewrite lookup_insert_ne; [done |]. intros <-. apply Hp1. apply heads_held. unfold heads.
      apply list_elem_of_bind. exists l. split; [done | by eapply list_elem_of_lookup_2]. }
    rewrite Eb in Hcase. destruct Hcase as [[_ ->] | (_ & -> & Hle)]; auto.
Qed.

(** The packet becomes the held packet of the core. *)
Lemma arrive_new same :
  exists s3 s4, (let* r := (upd_off this (fun oc => oc <| oc_held_skb := Some p |> <| oc_held_bucket := bucket |>) ;;;
      (if same : bool then homa_set_softirq_cpu p this else ret tt) ;;; ret None) in gro_tail wait this r) s1 = Ok (None, s3) /\
    host_hold bucket p None s3 = Ok (tt, s4) /\ arrival mx p s None [] s4 /\ gs_direct s4 = gs_direct s.
Proof.
  destruct looked_arriving as (Harr1 & Hok1 & En & Epk). pose proof Harr1 as (Hk1 & Hp1 & Hf1 & Hc1 & Hs1).
  destruct (gro_new_spec this p bucket same s1 (fixed k)) as (s2 & h & Hex & Hq2 & Hk2 & Ew2);
    [apply Hok1 | lia | done | apply bucket_range |].
  rewrite (bind_eq _ _ _ _ _ Hex). destruct (Hpacer (gs_w s2)) as [w Hw]; [rewrite Ew2; apply looked_same |].
  destruct (gro_tail_spec wait this None s2 w) as (s3 & Hex3 & Hsil);
    [apply Hq2 | unfold nr; rewrite (qu_nr _ _ _ Hq2); fold (nr s1); lia | done |].
  pose proof (quiet_trans _ _ _ _ Hq2 (proj1 Hsil p)) as Hq3.
  destruct (host_hold_spec mx bucket p ((fixed k) <| gk_hash := h |>) s3) as (s4 & Hex4 & [B1 B2 B3] & Ed).
  { by eapply quiet_ok. }
  { split; [rewrite (proj2 Hsil); exact Hk2 |]. rewrite (quiet_held p s1 s3 Hp1 Hq3). done. }
  { apply bucket_range. }
  exists s3, s4. split_ands; [done | done | |].
  - constructor; [done | by rewrite B2, (qu_up _ _ _ Hq3) |]. rewrite B3. by rewrite (quiet_packets p s1 s3 Hp1 Hq3), Epk.
  - by rewrite Ed, (qu_direct _ _ _ Hq3).
Qed.

(** A packet that is collected: [up] is the batch that it completes. *)
Lemma arrive_collect :
  bypassed (w_homa (gs_w s)) (gro_busy s oc) k = false ->
  exists r up s', gro_arrive junk wait online this p s = Ok (r, s') /\ arrival mx p s r up s' /\ gs_direct s' = gs_direct s /\
    (up = [] \/ exists q, q ∈ heads s /\ up = [batch (gs_skbs s) q ++ [p]] /\
      mx <= Z.of_nat (length (batch (gs_skbs s) q ++ [p]))).
Proof.
  intros Hby. destruct looked_arriving as ((Hk1 & _) & Hok1 & _).
  assert (homa_gro_receive junk wait online this p s = gro_collect wait online this p oc (w_homa (gs_w s)) s1) as Erec.
  { rewrite (gro_receive_split _ _ _ _ _ k oc) by (apply Hok || apply Harr || done). by rewrite Hby. }
  unfold gro_collect in Erec. rewrite (bind_eq _ _ _ _ _ (get_gskb_eq p s1 _ Hk1)) in Erec. cbv zeta in Erec.
  destruct (fixed_same k) as (_ & _ & _ & Eh & _). rewrite Eh in Erec. fold bucket in Erec.
  assert (off_core_ok (nr s) oc) as Hoco by (apply (proj1 (Forall_lookup _ _) (proj1 (go_cores _ _ Hok)) _ _ Hoc)).
  destruct (gro_found_spec mx oc s1 (nr s) Hok1 Hoco) as (o & Hfound & Hin). rewrite (bind_eq _ _ _ _ _ Hfound) in Erec.
  destruct o as [q|].
  - destruct (Hin q eq_refl) as (l & Hl & Hq). destruct (arrive_join q l Hl Hq Hoco) as (r & up & s3 & Hex & Hh & Ha & Hd & Hcase).
    exists r, up, s3. split_ands; [by apply (arrive_after r s3 s3); [rewrite Erec |] | done | done |].
    destruct Hcase as [-> | [-> Hle]]; [by left | right; exists q; split; [|done]].
    unfold heads. apply list_elem_of_bind. exists l. split; [done | by eapply list_elem_of_lookup_2].
  - destruct (arrive_new (policy (w_homa (gs_w s)) HOMA_GRO_SAME_CORE)) as (s3 & s4 & Hex & Hh & Ha & Hd).
    exists None, [], s4. split_ands; [by apply (arrive_after None s3 s4); [rewrite Erec |] | done | done | by left].
Qed.
End arrive.


(** Two cores; packet 7 is held, and batches have two packets. *)
Definition ex_off_core (i : Z) : homa_offload_core := (init_core i) <| oc_held_skb := Some 7%positive |> <| oc_held_bucket := 3 |>.
Definition ex_gro_skb (hash : Z) : gro_skb :=
  Build_gro_skb IPPROTO_HOMA 0 hash ex_rx_env (Build_raw_skb true 5 false (enc_packet (PUnknown (w_stack ex)))) [] 1 false.
Definition ex_gro : gro_state := {|
  gs_w := ex <| w_homa ::= fun h => h <| h_max_gro_skbs := 2 |> |>; gs_cores := [ex_off_core 0; ex_off_core 1];
  gs_skbs := {[7%positive := ex_gro_skb 3; 8%positive := ex_gro_skb 12]};
  gs_lists := <[3%nat := [7%positive]]> (replicate 8 []); gs_counts := <[3%nat := 1]> (replicate 8 0); gs_bitmask := 8;
  gs_flow := None; gs_cpu_mask := 1; gs_up := []; gs_direct := []; gs_ipi_list := []; gs_ipis := [];
  gs_inet_off := true; gs_inet6_off := true; gs_inet_tcp := OffHook; gs_inet6_tcp := OffHook6;
  gs_tcp_off := Some (OffHost (Build_net_offload 1 (HostFn 2) 3)); gs_tcp6_off := Some (OffHost (Build_net_offload 1 (HostFn 4) 3));
  gs_hook := Build_net_offload 1 HomaTcpGro 3; gs_hook6 := Build_net_offload 1 HomaTcpGro 3 |}.

Lemma ex_gro_ok : gro_ok 2 ex_gro.
Proof.
  constructor.
  - split; [|done].
    assert (forall i, 0 <= i < 2 -> 0 <= Z.lxor i 1 < 2 -> off_core_ok 2 (ex_off_core i)) as H.
    { intros i Hi Hx. constructor; [|vm_compute; intuition congruence ..]. eexists _, _. split; [reflexivity |]. split; [done |].
      repeat constructor. }
    apply Forall_cons; split; [apply H; vm_compute; intuition congruence |].
    apply Forall_cons; split; [apply H; vm_compute; intuition congruence | constructor].
  - done.
  - done.
  - intros i l. do 8 (destruct i as [|i]; [intros [= <-]; reflexivity |]). done.
  - assert (held ex_gro = [7%positive]) as -> by (vm_compute; reflexivity). apply NoDup_singleton.
  - intros q. assert (heads ex_gro = [7%positive]) as -> by (vm_compute; reflexivity).
    intros ->%list_elem_of_singleton. exists (ex_gro_skb 3). split; [vm_compute; reflexivity |]. split; [reflexivity |]. simpl. lia.
  - lia.
Qed.

