(* ===== verification/EndToEnd.v ===== *)
(** * From one user's memory to the other's

    The composition of the sender and the receiver of a message.  The packets
    that [homa_message_out_fill] builds and that [homa_xmit_data] and
    [homa_resend_data] hand to IP are cut into segments by the host, cross the
    network, get their offset in [homa_gro_receive], and are put together by
    [homa_add_packet] and [homa_copy_to_user].  The segments of all these
    packets are segments of the message. *)
From S2P Require Import Prelude Lists Wire Types Example Control Peer Reassembly Pool Outgoing OutXmit OutFill OutResend Copy Softirq Offload OffloadBatch.

(** ** Packets as bytes *)

(** A header as the other side reads it: each field at its width. *)
Definition width (n : nat) (z : Z) : Z := z mod 2 ^ (8 * Z.of_nat n).

Definition wire_common (c : homa_common_hdr) : homa_common_hdr :=
  Build_homa_common_hdr (width 2 (sport c)) (width 2 (dport c)) (width 4 (sequence c)) (width 2 (ack1 c))
    (width 1 (ack2 c)) (width 1 (type c)) (width 1 (doff c)) (width 1 (hflags c)) (width 2 (window c))
    (width 2 (checksum c)) (width 2 (urgent c)) (width 8 (sender_id c)).

Definition wire_data (d : homa_data_hdr) : homa_data_hdr :=
  Build_homa_data_hdr (wire_common (d_common d)) (width 4 (message_length d)) (width 4 (incoming d))
    (Build_homa_ack (width 8 (client_id (ack d))) (width 2 (server_port (ack d)))) (width 2 (cutoff_version d))
    (width 1 (retransmit d)) (width 3 (pad d)) (width 4 (seg_offset d)).

Lemma width_fits n z : fits n (width n z) = true.
Proof.
  unfold fits, width. pose proof (Z.mod_pos_bound z (2 ^ (8 * Z.of_nat n)) ltac:(apply Z.pow_pos_nonneg; lia)). zb; lia.
Qed.

Lemma wire_data_fits d : data_fits (wire_data d) = true.
Proof. unfold data_fits, common_fits, ack_fits. cbn. by rewrite !width_fits. Qed.

Lemma enc_wire_data d : enc_data (wire_data d) = enc_data d.
Proof. unfold enc_data, enc_common, enc_ack, width. cbn -[be_enc Z.pow Z.mul]. unfold width. by rewrite !be_enc_mod. Qed.

Lemma dec_wire_data d bs : type (d_common d) = DATA ->
  dec_packet (enc_data d ++ bs) = Some (PData (wire_data d), bs).
Proof.
  intros Ht. rewrite <- enc_wire_data. apply (dec_enc_packet (PData (wire_data d))).
  cbn -[data_fits Z.eqb]. rewrite wire_data_fits. cbn. by rewrite Ht.
Qed.

(** What [homa_gro_receive] and then [homa_softirq] make of the bytes of a
    data packet: an offset of -1 is replaced with the sequence number. *)
Definition arrive (b : list Z) : option skb_in :=
  match dec_packet b with
  | Some (PData d, data) =>
      let off := if seg_offset d =? 2 ^ 32 - 1 then sequence (d_common d) else seg_offset d in
      Some (Build_skb_in (Build_homa_data_hdr (d_common d) (message_length d) (incoming d) (ack d) (cutoff_version d)
        (retransmit d) (pad d) off) data)
  | _ => None
  end.

(** This is what [homa_softirq] finds in the packet that [homa_gro_receive]
    has left. *)
Lemma arrive_gro k d bs :
  raw_bytes (gk_raw k) = enc_data d ++ bs -> type (d_common d) = DATA ->
  exists h, arrive (enc_data d ++ bs) = Some (Build_skb_in h bs) /\
    dec_packet (raw_bytes (gk_raw (fixed k))) = Some (PData h, bs) /\
    seg_offset h = (if width 4 (seg_offset d) =? 2 ^ 32 - 1 then width 4 (sequence (d_common d)) else width 4 (seg_offset d)).
Proof.
  intros Hk Ht. unfold arrive, fixed. rewrite Hk, dec_wire_data by done. eexists. split; [reflexivity |].
  cbn -[Z.eqb Z.pow width enc_packet dec_packet].
  destruct (Z.eqb_spec (width 4 (seg_offset d)) (2 ^ 32 - 1)) as [E | E].
  - cbn -[Z.eqb Z.pow width dec_packet enc_data]. split; [|done]. rewrite dec_wire_data by (cbn; by rewrite Ht).
    unfold wire_data, wire_common. cbn -[width]. unfold width. by rewrite !Z.mod_mod by done.
  - rewrite Hk. by rewrite dec_wire_data by done.
Qed.

(** ** Segments

    The host's segmentation (the [skb_segment] that [homa_gso_segment] calls,
    or the NIC): it replicates the first [hlen] bytes of a packet and cuts the
    rest into pieces of [size] bytes.  It may change the fields of the TCP
    header, except those that Homa uses for its own data, and if the headers
    are a complete TCP header it advances the sequence number. *)
Definition segmenter := homa_data_hdr -> Z -> list Z -> Z -> list (list Z).

Definition segmenter_ok (sg : segmenter) : Prop :=
  forall h hlen payload size, 0 < size ->
  (forall k, is_Some (sg h hlen payload size !! k) <-> Z.of_nat k * size < Z.of_nat (length payload)) /\
  (forall k b, sg h hlen payload size !! k = Some b ->
     exists c, type c = type (d_common h) /\
       (hlen = sizeof_data_hdr -> sequence c = u32 (sequence (d_common h) + Z.of_nat k * size)) /\
       b = take (Z.to_nat hlen) (enc_data (Build_homa_data_hdr c (message_length h) (incoming h) (ack h)
             (cutoff_version h) (retransmit h) (pad h) (seg_offset h))) ++ slice payload (Z.of_nat k * size) size).

(** The packets on the wire for one that is handed to IP. *)
Definition wire (sg : segmenter) (skb : skb_out) : list (list Z) :=
  if out_gso_segs skb <=? 1 then [enc_data (out_hdr skb) ++ out_body skb]
  else if interleaved skb
  then sg (out_hdr skb) (sizeof_data_hdr - sizeof_seg_hdr) (be_enc 4 (seg_offset (out_hdr skb)) ++ out_body skb)
         (out_gso_size skb)
  else sg (out_hdr skb) sizeof_data_hdr (out_body skb) (out_gso_size skb).

(** The bytes [x] of [D], as they arrive. *)
Definition arrives_as (D : list Z) (x : Z * Z) (s : skb_in) : Prop :=
  pkt_start s = x.1 /\ skb_data s = slice D x.1 x.2.

Lemma enc_data_split d : enc_data d = take 52 (enc_data d) ++ be_enc 4 (seg_offset d).
Proof.
  unfold enc_data. rewrite !app_assoc. rewrite take_app_length'; [done |].
  rewrite !length_app, !be_enc_length, enc_common_length, enc_ack_length. done.
Qed.

(** Another offset in the last field of the header. *)
Lemma enc_data_offset d o :
  take 52 (enc_data d) ++ be_enc 4 o =
  enc_data (Build_homa_data_hdr (d_common d) (message_length d) (incoming d) (ack d) (cutoff_version d)
    (retransmit d) (pad d) o).
Proof.
  rewrite (enc_data_split (Build_homa_data_hdr _ _ _ _ _ _ _ _)). cbn -[enc_data be_enc]. by f_equal.
Qed.

Lemma slice_clip {A} (l : list A) o n m :
  0 <= o -> 0 <= m -> m <= n -> Z.of_nat (length l) <= o + m -> slice l o n = slice l o m.
Proof.
  intros. unfold slice. rewrite !take_ge; rewrite ?length_drop; (done || lia).
Qed.

(** The packet with a header that tells [o] as its offset. *)
Lemma arrive_at d bs o :
  type (d_common d) = DATA -> 0 <= o < 2 ^ 31 ->
  seg_offset d = o \/ (seg_offset d = u32 (-1) /\ sequence (d_common d) = o) ->
  exists h, arrive (enc_data d ++ bs) = Some (Build_skb_in h bs) /\ s32 (seg_offset h) = o.
Proof.
  intros Ht Ho Hs. unfold arrive. rewrite dec_wire_data by done. eexists. split; [reflexivity |].
  cbn -[Z.eqb Z.pow width u32]. unfold width. change (8 * Z.of_nat 4) with 32.
  destruct Hs as [-> | [-> ->]].
  - rewrite (Z.mod_small o (2 ^ 32)) by lia. destruct (Z.eqb_spec o (2 ^ 32 - 1)); [lia |].
    apply s32_id. unfold is_int, INT_MIN, INT_MAX. lia.
  - change (u32 (-1) mod 2 ^ 32 =? 2 ^ 32 - 1) with true. cbv iota. rewrite (Z.mod_small o (2 ^ 32)) by lia.
    apply s32_id. unfold is_int, INT_MIN, INT_MAX. lia.
Qed.

Section Segments.
Variables (sg : segmenter) (D : list Z).
Hypothesis Hsg : segmenter_ok sg.
Hypothesis HD : Z.of_nat (length D) <= HOMA_MAX_MESSAGE_LENGTH.

(** Packet [k] on the wire is segment [k]. *)
Definition kth_segment (skb : skb_out) (k : nat) : Z * Z :=
  (info_offset skb + Z.of_nat k * skb_seg skb, seg_len (info_data_bytes skb) (skb_seg skb) (Z.of_nat k)).

Definition wire_ok (skb : skb_out) : Prop :=
  (forall k, is_Some (wire sg skb !! k) <-> Z.of_nat k * skb_seg skb < info_data_bytes skb) /\
  (forall k b, wire sg skb !! k = Some b ->
     exists s, arrive b = Some s /\ arrives_as D (kth_segment skb k) s).

(** The offset of a segment is not negative and fits an [int]. *)
Lemma segment_offset skb k : skb_ok D skb -> Z.of_nat k * skb_seg skb < info_data_bytes skb ->
  0 <= info_offset skb + Z.of_nat k * skb_seg skb < 2 ^ 31.
Proof.
  intros Hok Hk. destruct (so_range _ _ Hok) as (? & ? & ?). pose proof (so_seg _ _ Hok).
  unfold HOMA_MAX_MESSAGE_LENGTH in HD. nia.
Qed.

Lemma wire_single skb : skb_ok D skb -> out_gso_segs skb <= 1 -> wire_ok skb.
Proof.
  intros Hok Hs. destruct (so_range _ _ Hok) as (? & Hn & ?).
  assert (skb_seg skb = info_data_bytes skb) as Eseg by (unfold skb_seg; zb; lia).
  assert (interleaved skb = false) as Ei by (unfold interleaved; zb; lia || done).
  pose proof (so_len _ _ Hok) as Hlen. pose proof (so_body _ _ Hok) as Hb. destruct (so_hdr _ _ Hok) as (Ht & Hq & Ho).
  rewrite Ei, Eseg in *. unfold wire_ok, wire, kth_segment. destruct (Z.leb_spec (out_gso_segs skb) 1); [|lia].
  rewrite Eseg. split; [intros [|k]; simpl; [|rewrite lookup_nil; unfold is_Some; split; [by intros [] | lia]]; unfold is_Some; split; eauto; lia |].
  intros [|k] b Hk; [|done]. apply list_elem_of_lookup_2, list_elem_of_singleton in Hk as ->.
  destruct (arrive_at (out_hdr skb) (out_body skb) (info_offset skb)) as (h & Ha & Hp); try done.
  { pose proof (segment_offset skb 0 Hok). rewrite Eseg in *. lia. }
  { right. split; [done |]. rewrite Hq. apply u32_id. pose proof (segment_offset skb 0 Hok). rewrite Eseg in *. unfold is_u32. lia. }
  eexists. split; [exact Ha |]. unfold arrives_as, pkt_start. cbn -[Z.mul]. split; [rewrite Hp; lia |].
  specialize (Hb 0 ltac:(lia) ltac:(lia)). rewrite !Z.mul_0_l in Hb. change (Z.of_nat 0) with 0. rewrite Z.mul_0_l. rewrite <- Hb.
  unfold seg_len. rewrite <- (slice_full (out_body skb)) at 1. f_equal. lia.
Qed.

Lemma wire_contiguous skb :
  skb_ok D skb -> 1 < out_gso_segs skb -> interleaved skb = false -> wire_ok skb.
Proof.
  intros Hok Hs Hi. destruct (so_range _ _ Hok) as (? & Hn & ?).
  assert (skb_seg skb = info_seg_length skb) as Eseg by (unfold skb_seg; zb; lia).
  assert (out_gso_size skb = info_seg_length skb) as Esz.
  { destruct (so_layout _ _ Hok Hs) as [|E]; [done |]. unfold interleaved in Hi. rewrite E, Z.eqb_refl in Hi. zb; simpl in Hi; done || lia. }
  pose proof (so_len _ _ Hok) as Hlen. pose proof (so_body _ _ Hok) as Hb. destruct (so_hdr _ _ Hok) as (Ht & Hq & Ho).
  pose proof (so_seg _ _ Hok) as Hseg. rewrite Hi, Esz, Eseg in *.
  assert (wire sg skb = sg (out_hdr skb) sizeof_data_hdr (out_body skb) (info_seg_length skb)) as Ew.
  { unfold wire. rewrite Hi, Esz. destruct (Z.leb_spec (out_gso_segs skb) 1); [lia | done]. }
  destruct (Hsg (out_hdr skb) sizeof_data_hdr (out_body skb) (info_seg_length skb) Hseg) as [Hn1 Hn2].
  unfold wire_ok. rewrite Ew, Eseg. split; [intros k; rewrite Hn1, Hlen; lia |].
  intros k b Hk. assert (Z.of_nat k * info_seg_length skb < info_data_bytes skb) as Hkn
    by (assert (is_Some (sg (out_hdr skb) sizeof_data_hdr (out_body skb) (info_seg_length skb) !! k)) as Hk' by eauto; apply Hn1 in Hk'; lia).
  pose proof (segment_offset skb k Hok ltac:(by rewrite Eseg)) as Hrange. rewrite Eseg in Hrange.
  apply Hn2 in Hk as (c & Hc & Hcq & ->). specialize (Hcq eq_refl).
  rewrite take_ge by (rewrite enc_data_length; unfold sizeof_data_hdr; lia).
  match goal with |- context [enc_data ?d ++ ?bs] =>
    destruct (arrive_at d bs (info_offset skb + Z.of_nat k * info_seg_length skb)) as (h & -> & Hp) end; cbn; try done; [by rewrite Hc | |].
  { right. split; [done |]. rewrite Hcq, Hq. unfold u32. rewrite Zplus_mod_idemp_l. apply Z.mod_small. lia. }
  eexists. split; [done |]. unfold arrives_as, pkt_start, kth_segment. rewrite Eseg. cbn. split; [done |].
  specialize (Hb (Z.of_nat k) ltac:(lia) Hkn). rewrite <- Hb. unfold seg_len.
  destruct (Z.min_spec (info_seg_length skb) (info_data_bytes skb - Z.of_nat k * info_seg_length skb)) as [[? ->] | [? ->]]; [done |].
  apply slice_clip; nia.
Qed.

(** The payload of segment [k]: its header and its data. *)
Lemma interleaved_piece skb (k : nat) :
  skb_ok D skb -> interleaved skb = true -> Z.of_nat k * skb_seg skb < info_data_bytes skb ->
  slice (be_enc 4 (u32 (info_offset skb)) ++ out_body skb) (Z.of_nat k * out_gso_size skb) (out_gso_size skb) =
  be_enc 4 (u32 (kth_segment skb k).1) ++ slice D (kth_segment skb k).1 (kth_segment skb k).2.
Proof.
  intros Hok Hi Hk. unfold kth_segment. cbn [fst snd].
  assert (1 < out_gso_segs skb /\ out_gso_size skb = info_seg_length skb + 4) as [Hs Esz]
    by (unfold interleaved, sizeof_seg_hdr in Hi; lia).
  assert (skb_seg skb = info_seg_length skb) as Eseg by (unfold skb_seg; zb; lia).
  pose proof (so_len _ _ Hok) as Hlen. pose proof (so_body _ _ Hok) as Hb. pose proof (so_hdrs _ _ Hok Esz) as Hh.
  pose proof (so_seg _ _ Hok) as Hseg. pose proof (so_segs _ _ Hok) as Hsegs. destruct (so_range _ _ Hok) as (? & Hn & ?).
  rewrite Hi, Esz, Eseg in *. unfold holds_hdrs, sizeof_seg_hdr in *. set (seg := info_seg_length skb) in *.
  set (n := info_data_bytes skb) in *. set (off := info_offset skb) in *. set (body := out_body skb) in *.
  set (j := Z.of_nat k) in *. assert (0 <= j) by (unfold j; lia).
  specialize (Hb j ltac:(lia) Hk). rewrite <- Hb. unfold seg_len.
  assert (length (be_enc 4 (u32 off)) = 4%nat) as Hl4 by apply be_enc_length.
  assert (out_gso_segs skb = (n + seg - 1) / seg) as Ec by (revert Hsegs; zb; lia).
  assert (j < out_gso_segs skb) as Hj by (rewrite Ec; by apply seg_exists).
  assert ((out_gso_segs skb - 1) * seg < n <= out_gso_segs skb * seg) as Hc.
  { rewrite Ec. split; [apply seg_exists; lia |]. destruct (Z.le_gt_cases n ((n + seg - 1) / seg * seg)) as [|Hgt]; [done |].
    apply seg_exists in Hgt; lia. }
  assert (slice body (j * (seg + 4)) seg = slice body (j * (seg + 4)) (Z.min seg (n - j * seg))) as E.
  { destruct (Z.min_spec seg (n - j * seg)) as [[? ->] | [? ->]]; [done |]. apply slice_clip; [nia | lia | lia |].
    rewrite Hlen. nia. }
  rewrite <- E. destruct (Z.eq_dec j 0) as [E0 | Hj0].
  - rewrite E0, !Z.mul_0_l, Z.add_0_r, (Z.add_comm seg 4), <- slice_cat, Z.add_0_l by lia.
    by rewrite slice_app_l, slice_app_r, Hl4 by lia.
  - rewrite slice_app_r, Hl4, (Z.add_comm seg 4), <- slice_cat by nia. rewrite (Z.add_comm 4 seg). change (Z.of_nat 4) with 4.
    rewrite (Hh j ltac:(lia) Hk). f_equal. f_equal. lia.
Qed.

Lemma wire_interleaved skb : skb_ok D skb -> interleaved skb = true -> wire_ok skb.
Proof.
  intros Hok Hi.
  assert (1 < out_gso_segs skb /\ out_gso_size skb = info_seg_length skb + 4) as [Hs Esz]
    by (unfold interleaved, sizeof_seg_hdr in Hi; lia).
  assert (skb_seg skb = info_seg_length skb) as Eseg by (unfold skb_seg; zb; lia).
  pose proof (so_len _ _ Hok) as Hlen. pose proof (so_seg _ _ Hok) as Hseg. pose proof (so_segs _ _ Hok) as Hsegs.
  destruct (so_hdr _ _ Hok) as (Ht & _ & Ho). destruct (so_range _ _ Hok) as (_ & Hn & _). rewrite Hi in *.
  set (pl := be_enc 4 (seg_offset (out_hdr skb)) ++ out_body skb).
  assert (wire sg skb = sg (out_hdr skb) 52 pl (out_gso_size skb)) as Ew.
  { unfold wire. rewrite Hi. destruct (Z.leb_spec (out_gso_segs skb) 1); [lia | done]. }
  destruct (Hsg (out_hdr skb) 52 pl (out_gso_size skb) ltac:(lia)) as [Hn1 Hn2].
  assert (forall k, is_Some (sg (out_hdr skb) 52 pl (out_gso_size skb) !! k) <-> Z.of_nat k * skb_seg skb < info_data_bytes skb) as Hiff.
  { intros k. rewrite Hn1, <- (seg_exists _ _ _ Hseg). unfold pl. rewrite length_app, be_enc_length, Nat2Z.inj_add, Hlen, Esz, Eseg in *.
    unfold sizeof_seg_hdr in *. set (c := (_ + _ - 1) / _) in *.
    assert (out_gso_segs skb = c) as Ec by (revert Hsegs; zb; lia). rewrite Ec.
    assert ((c - 1) * info_seg_length skb < info_data_bytes skb <= c * info_seg_length skb) as Hc.
    { split; [apply seg_exists; lia |]. destruct (Z.le_gt_cases (info_data_bytes skb) (c * info_seg_length skb)) as [|Hgt]; [done |].
      apply seg_exists in Hgt; lia. }
    split; intros; nia. }
  unfold wire_ok. rewrite Ew. split; [exact Hiff |]. intros k b Hk.
  assert (Z.of_nat k * skb_seg skb < info_data_bytes skb) as Hkn by (apply Hiff; eauto).
  pose proof (segment_offset skb k Hok Hkn) as Hr. apply Hn2 in Hk as (c & Hc & _ & ->).
  unfold pl. rewrite Ho, interleaved_piece, app_assoc by done. change (Z.to_nat 52) with 52%nat. rewrite enc_data_offset. rewrite (u32_id (kth_segment skb k).1) by (unfold is_u32, kth_segment; cbn [fst]; lia).
  match goal with |- context [enc_data ?d ++ ?bs] =>
    destruct (arrive_at d bs (info_offset skb + Z.of_nat k * skb_seg skb)) as (h & -> & Hp) end; cbn; try done; [by rewrite Hc | by left |].
  eexists. split; [done |]. by split.
Qed.

(** Every packet of the message arrives as its segments, in whatever way the
    packet is cut. *)
Lemma wire_spec skb : skb_ok D skb -> wire_ok skb.
Proof.
  intros Hok. destruct (Z.le_gt_cases (out_gso_segs skb) 1); [by apply wire_single |].
  destruct (interleaved skb) eqn:E; [by apply wire_interleaved | by apply wire_contiguous].
Qed.

(** *** The segments of a message *)

Lemma elem_of_segments skb x :
  skb_ok D skb -> x ∈ segments skb <->
  exists k, Z.of_nat k * skb_seg skb < info_data_bytes skb /\ x = kth_segment skb k.
Proof.
  intros Hok. pose proof (so_seg _ _ Hok) as Hseg. unfold segments, segments_from, kth_segment.
  rewrite list_elem_of_fmap. split.
  - intros (j & -> & Hj). apply elem_of_seqZ in Hj as [? Hj]. exists (Z.to_nat j). rewrite Z2Nat.id by done. split; [|done].
    apply seg_exists; [done | lia].
  - intros (k & Hk & ->). exists (Z.of_nat k). split; [done |]. apply elem_of_seqZ. apply seg_exists in Hk; lia.
Qed.

Lemma segment_range skb x : skb_ok D skb -> x ∈ segments skb ->
  info_offset skb <= x.1 /\ 0 < x.2 /\ x.1 + x.2 <= info_offset skb + info_data_bytes skb.
Proof.
  intros Hok Hx. apply elem_of_segments in Hx as (k & Hk & ->); [|done]. pose proof (so_seg _ _ Hok).
  unfold kth_segment, seg_len. cbn [fst snd]. lia.
Qed.

Definition apart (x y : Z * Z) : Prop := x = y \/ x.1 + x.2 <= y.1 \/ y.1 + y.2 <= x.1.

Lemma segments_apart skb x y : skb_ok D skb -> x ∈ segments skb -> y ∈ segments skb -> apart x y.
Proof.
  intros Hok Hx Hy. pose proof (so_seg _ _ Hok). apply elem_of_segments in Hx as (k & Hk & ->); [|done].
  apply elem_of_segments in Hy as (j & Hj & ->); [|done]. unfold apart, kth_segment, seg_len. cbn [fst snd].
  destruct (Z.lt_trichotomy (Z.of_nat k) (Z.of_nat j)) as [Hl | [-> | Hl]]; [right; left | by left | right; right]; nia.
Qed.

Lemma message_segments pk : forall off e, tiled off pk e -> Forall (skb_ok D) pk ->
  off <= e /\ Forall (fun x => off <= x.1 /\ 0 < x.2 /\ x.1 + x.2 <= e) (pk ≫= segments) /\
  (forall x y, x ∈ pk ≫= segments -> y ∈ pk ≫= segments -> apart x y).
Proof.
  induction pk as [|s pk IH]; intros off e; simpl; [intros -> _; split_ands; [done | constructor |]; intros x y Hx; by apply elem_of_nil in Hx |].
  intros [Ho Ht] Hf. apply Forall_cons in Hf as [Hok Hf]. destruct (IH _ _ Ht Hf) as (Hle & Hr & Ha).
  destruct (so_range _ _ Hok) as (_ & Hn & _). rewrite Forall_forall in Hr. split_ands; [lia | |].
  - apply Forall_app. split; apply Forall_forall; intros x Hx; [|specialize (Hr x Hx); lia].
    pose proof (segment_range s x Hok Hx). lia.
  - intros x y Hx Hy. apply elem_of_app in Hx as [Hx | Hx], Hy as [Hy | Hy].
    + by apply (segments_apart s).
    + pose proof (segment_range s x Hok Hx). specialize (Hr y Hy). right. lia.
    + pose proof (segment_range s y Hok Hy). specialize (Hr x Hx). right. lia.
    + by apply Ha.
Qed.

Lemma segments_geometry s s' : geometry s' = geometry s -> segments s' = segments s.
Proof.
  intros Hg. unfold segments, segments_from, skb_seg. by injection Hg as _ -> -> -> _ -> _ _ _ _ _ _ _ _.
Qed.

Lemma message_segments_geometry pk pk' :
  geometry <$> pk' = geometry <$> pk -> pk' ≫= segments = pk ≫= segments.
Proof.
  revert pk. induction pk' as [|s' pk' IH]; intros [|s pk] H; try done. csimpl in *.
  apply (inj2 cons) in H as [Hg H]. rewrite (segments_geometry _ _ Hg). f_equal. by apply IH.
Qed.

(** A segment of the message that arrives carries its bytes. *)
Lemma arrives_carries x s :
  0 <= x.1 -> 0 < x.2 -> x.1 + x.2 <= Z.of_nat (length D) -> arrives_as D x s ->
  carries D s /\ skb_data_len s = x.2.
Proof.
  intros H1 H2 H3 [Hs Hd].
  assert (skb_data_len s = x.2) as Hl by (unfold skb_data_len, homa_data_len; rewrite Hd, slice_length; lia).
  unfold carries. rewrite Hs, Hl, Hd. by split_ands.
Qed.

(** ** What the sender hands to IP *)

(** [s] is a packet of [pk] or a retransmission of one of their segments. *)
Inductive outbound (pk : list skb_out) (s : skb_out) : Prop :=
  | Original s0 : s0 ∈ pk -> geometry s = geometry s0 -> outbound pk s
  | Resent mo x : x ∈ pk ≫= segments -> resent D mo x s -> outbound pk s.

Lemma wire_resent mo x s : resent D mo x s -> 0 <= x.1 -> 0 < x.2 -> x.1 + x.2 <= Z.of_nat (length D) ->
  exists b k, wire sg s = [b] /\ arrive b = Some k /\ arrives_as D x k.
Proof.
  intros [Ho Hn Hb Hs _ _ _ Ht Hg] H1 H2 H3. unfold wire. rewrite Hg. cbn [Z.leb Z.compare].
  unfold HOMA_MAX_MESSAGE_LENGTH in HD.
  destruct (arrive_at (out_hdr s) (out_body s) x.1) as (h & Ha & Hp); [done | lia | |].
  { left. rewrite Hs. apply u32_id. unfold is_u32. lia. }
  eexists _, _. split_ands; [done | exact Ha |]. split; [exact Hp | exact Hb].
Qed.

Section Outbound.
Variable pk : list skb_out.
Hypothesis Hpk : Forall (skb_ok D) pk.
Hypothesis Htiled : tiled 0 pk (Z.of_nat (length D)).

Lemma outbound_arrives s b : outbound pk s -> b ∈ wire sg s ->
  exists x k, x ∈ pk ≫= segments /\ arrive b = Some k /\ arrives_as D x k.
Proof.
  destruct (message_segments pk _ _ Htiled Hpk) as (_ & Hr & _). rewrite Forall_forall in Hr.
  intros [s0 Hin Hg | mo x Hx Hre] Hb.
  - assert (skb_ok D s) as Hok by (eapply skb_ok_geometry; [exact Hg | exact (proj1 (Forall_forall _ _) Hpk _ Hin)]).
    destruct (wire_spec s Hok) as [Hw1 Hw2]. apply list_elem_of_lookup in Hb as (i & Hi).
    destruct (Hw2 i b Hi) as (k & Ha & Hk). exists (kth_segment s i), k. split_ands; try done.
    apply list_elem_of_bind. exists s0. split; [|done]. rewrite <- (segments_geometry _ _ Hg).
    apply elem_of_segments; [done |]. exists i. split; [|done]. apply Hw1. eauto.
  - destruct (Hr x Hx) as (? & ? & ?). destruct (wire_resent mo x s) as (b' & k & Hw & Ha & Hk); try done.
    rewrite Hw in Hb. apply list_elem_of_singleton in Hb as ->. by exists x, k.
Qed.

(** Every byte of a packet is in a packet on the wire. *)
Lemma outbound_covers s i : outbound pk s -> info_offset s <= i < info_offset s + info_data_bytes s ->
  exists b, b ∈ wire sg s /\ forall k, arrive b = Some k -> in_pkt i k = true.
Proof.
  destruct (message_segments pk _ _ Htiled Hpk) as (_ & Hr & _). rewrite Forall_forall in Hr. intros Ho Hi.
  assert (exists b x k, b ∈ wire sg s /\ arrive b = Some k /\ arrives_as D x k /\ x.1 <= i < x.1 + x.2 /\
    0 <= x.1 /\ 0 < x.2 /\ x.1 + x.2 <= Z.of_nat (length D)) as (b & x & k & Hb & Ha & Hk & Hx & H1 & H2 & H3).
  { destruct Ho as [s0 Hin Hg | mo x Hx Hre].
    - assert (skb_ok D s) as Hok by (eapply skb_ok_geometry; [exact Hg | exact (proj1 (Forall_forall _ _) Hpk _ Hin)]).
      destruct (wire_spec s Hok) as [Hw1 Hw2]. destruct (so_range _ _ Hok) as (? & ? & ?).
      destruct (segments_cover D [s] (info_offset s) (info_offset s + info_data_bytes s) i) as (x & Hx & Hxi); [done | by constructor | done |].
      cbn in Hx. rewrite app_nil_r in Hx. pose proof (segment_range s x Hok Hx). apply elem_of_segments in Hx as (j & Hj & ->); [|done].
      apply Hw1 in Hj as [b Hb]. destruct (Hw2 j b Hb) as (k & Ha & Hk). exists b, (kth_segment s j), k.
      split_ands; try done; try lia. by eapply list_elem_of_lookup_2.
    - destruct (Hr x Hx) as (? & ? & ?). destruct (wire_resent mo x s) as (b & k & Hw & Ha & Hk); try done.
      destruct Hre as [Ho Hn _ _ _ _ _ _ _]. exists b, x, k. rewrite Hw. split_ands; try done; try lia. apply list_elem_of_singleton. done. }
  exists b. split; [done |]. intros k' Hk'. assert (k' = k) as -> by congruence.
  destruct (arrives_carries x k H1 H2 H3 Hk) as [_ Hl]. destruct Hk as [Hs _]. unfold in_pkt. rewrite Hs, Hl. zb; lia || done.
Qed.
End Outbound.

(** Transmissions and retransmissions, in any order. *)
Inductive tx_event := TxXmit (force : bool) | TxResend (start end_ priority : Z).

Definition tx_step (env : tx_env) (p : ptr) (e : tx_event) : M unit :=
  match e with
  | TxXmit force => homa_xmit_data p force
  | TxResend start end_ priority => homa_resend_data env p start end_ priority
  end.

Definition event_ok (h : homa) (e : tx_event) : Prop :=
  match e with
  | TxXmit _ => True
  | TxResend _ _ priority => 0 <= priority < Z.of_nat (length (h_priority_map h))
  end.

Lemma tx_step_spec env p peer e w rpc sk :
  tx_ok env -> sending D p peer w rpc -> w_socks w !! rpc_hsk rpc = Some sk -> event_ok (w_homa w) e ->
  exists w' rpc' sent, tx_step env p e w = Ok (tt, w') /\ sending D p peer w' rpc' /\
    w_socks w' !! rpc_hsk rpc' = Some sk /\ h_priority_map (w_homa w') = h_priority_map (w_homa w) /\
    geometry <$> mo_packets (rpc_msgout rpc') = geometry <$> mo_packets (rpc_msgout rpc) /\
    host_xmit (w_host w') = host_xmit (w_host w) ++ sent /\
    Forall (fun x => outbound (mo_packets (rpc_msgout rpc)) x.2) sent.
Proof.
  intros Henv Hs Hsk He. destruct e as [force | start end_ pr]; cbn [tx_step].
  - destruct (sending_xmit D p peer force w rpc Hs) as (w' & rpc' & pk & n & off & Hex & Hs' & E & Hg & Hof & sent & Hl & Hall).
    exists w', rpc', sent. split_ands; try done.
    + rewrite (of_socks _ _ _ Hof), E. done.
    + apply (homa_out_fields _ _ (of_homa _ _ _ Hof)).
    + by rewrite E.
    + eapply Forall_impl; [exact Hall |]. intros x (s0 & Hin & Hg'). by eapply Original.
  - destruct (Z.le_gt_cases end_ start) as [Hle | Hlt].
    { exists w, rpc, []. unfold homa_resend_data. destruct (Z.leb_spec end_ start); [|lia]. rewrite app_nil_r. by split_ands. }
    pose proof Hs as [Hr Hp Hlive Hst Hrd Hok Ht].
    destruct (resend_data_spec env D p start end_ pr w rpc sk peer) as (w' & sent & Hex & Hof & Hrp & Hth & Hl & H2 & _); try done.
    destruct (homa_out_fields _ _ (of_homa _ _ _ Hof)) as [E1 E2].
    exists w', rpc, (map (fun s => (rpc_peer rpc, pr, s)) sent). split_ands; try done.
    + constructor; try done; [by rewrite Hrp | by rewrite (of_peers _ _ _ Hof) | | by eapply xmit_ready_eq].
      intros q Hq. rewrite Hrp. apply Hlive. by rewrite <- Hth.
    + by rewrite (of_socks _ _ _ Hof).
    + apply Forall_forall. intros x Hx. apply list_elem_of_In, in_map_iff in Hx as (s & <- & Hx). cbn [snd].
      apply list_elem_of_In, list_elem_of_lookup in Hx as (i & Hi).
      destruct (Forall2_lookup_r _ _ _ _ _ H2 Hi) as (y & Hy & Hre). apply list_elem_of_lookup_2, list_elem_of_filter in Hy as [_ Hy].
      by eapply Resent.
Qed.
End Segments.

Lemma outbound_geometry D pk pk' s :
  geometry <$> pk' = geometry <$> pk -> outbound D pk' s -> outbound D pk s.
Proof.
  intros Hg [s0 Hin Hs | mo x Hx Hre].
  - apply (list_elem_of_fmap_2 geometry) in Hin. rewrite Hg in Hin. apply list_elem_of_fmap in Hin as (s1 & E & Hin).
    eapply Original; [exact Hin | congruence].
  - eapply Resent; [|exact Hre]. by rewrite <- (message_segments_geometry _ _ Hg).
Qed.

Lemma tx_run_spec D env p peer sk l : tx_ok env -> forall w rpc,
  sending D p peer w rpc -> w_socks w !! rpc_hsk rpc = Some sk -> Forall (event_ok (w_homa w)) l ->
  exists w' sent, mapM_ (tx_step env p) l w = Ok (tt, w') /\ host_xmit (w_host w') = host_xmit (w_host w) ++ sent /\
    Forall (fun x => outbound D (mo_packets (rpc_msgout rpc)) x.2) sent.
Proof.
  intros Henv. induction l as [|e l IH]; intros w rpc Hs Hsk Hl; [exists w, []; by rewrite app_nil_r |].
  apply Forall_cons in Hl as [He Hl].
  destruct (tx_step_spec D env p peer e w rpc sk) as (w1 & rpc1 & s1 & Hex & Hs1 & Hsk1 & Hm & Hg & Hl1 & Ho1); try done.
  cbn [mapM_]. rewrite (bind_eq _ _ _ _ _ Hex). destruct (IH w1 rpc1 Hs1 Hsk1) as (w' & s2 & Hex2 & Hl2 & Ho2).
  { eapply Forall_impl; [exact Hl |]. intros []; [done |]. simpl. by rewrite Hm. }
  exists w', (s1 ++ s2). split_ands; [done | by rewrite Hl2, Hl1, app_assoc |]. apply Forall_app. split; [done |].
  eapply Forall_impl; [exact Ho2 |]. intros x. by apply outbound_geometry.
Qed.

(** ** From the sender to the receiver *)

(** Each packet that arrives is on the wire for a packet of [sent]. *)
Definition arrived_from (sg : segmenter) (sent : list (ptr * Z * skb_out)) (l : list (bool * Z * skb_in)) : Prop :=
  Forall (fun x => exists e b, e ∈ sent /\ b ∈ wire sg e.2 /\ arrive b = Some (pkt_of x)) l.

(** No packet is lost, and there is memory for gaps. *)
Definition all_arrived (sg : segmenter) (sent : list (ptr * Z * skb_out)) (l : list (bool * Z * skb_in)) : Prop :=
  Forall (fun x => x.1.1 = true) l /\
  forall e b, e ∈ sent -> b ∈ wire sg e.2 -> exists x, x ∈ l /\ arrive b = Some (pkt_of x).

(** Every byte of the message is in a packet of [sent]. *)
Definition all_sent (length_ : Z) (sent : list (ptr * Z * skb_out)) : Prop :=
  forall i, 0 <= i < length_ -> exists e, e ∈ sent /\ info_offset e.2 <= i < info_offset e.2 + info_data_bytes e.2.

Section Arrivals.
Variables (sg : segmenter) (D : list Z) (pk : list skb_out) (sent : list (ptr * Z * skb_out)) (l : list (bool * Z * skb_in)).
Hypothesis Hsg : segmenter_ok sg.
Hypothesis HD : Z.of_nat (length D) <= HOMA_MAX_MESSAGE_LENGTH.
Hypothesis Hpk : Forall (skb_ok D) pk.
Hypothesis Ht : tiled 0 pk (Z.of_nat (length D)).
Hypothesis Hsent : Forall (fun x => outbound D pk x.2) sent.
Hypothesis Hl : arrived_from sg sent l.

(** What arrives is a segment of the message. *)
Lemma arrived_segment y : y ∈ l -> exists x, x ∈ pk ≫= segments /\ arrives_as D x (pkt_of y) /\
  carries D (pkt_of y) /\ skb_data_len (pkt_of y) = x.2 /\ 0 < x.2.
Proof.
  intros Hy. destruct (proj1 (Forall_forall _ _) Hl y Hy) as (e & b & He & Hb & Ha).
  destruct (outbound_arrives sg D Hsg HD pk Hpk Ht e.2 b (proj1 (Forall_forall _ _) Hsent e He) Hb) as (x & k & Hx & Hk & Has).
  assert (k = pkt_of y) as -> by congruence.
  destruct (message_segments D pk _ _ Ht Hpk) as (_ & Hr & _). rewrite Forall_forall in Hr. destruct (Hr x Hx) as (? & ? & ?).
  exists x. destruct (arrives_carries D x (pkt_of y)) as [? ?]; try done.
Qed.

Lemma arrived_carries : Forall (fun x => carries D (pkt_of x)) l.
Proof. apply Forall_forall. intros y Hy. destruct (arrived_segment y Hy) as (x & _ & _ & ? & _). done. Qed.

Lemma arrived_whole : all_arrived sg sent l -> all_sent (Z.of_nat (length D)) sent -> whole_message (Z.of_nat (length D)) l.
Proof.
  intros [Hmem Hall] Has. split; [|split].
  - apply Forall_forall. intros y Hy. split; [exact (proj1 (Forall_forall _ _) Hmem y Hy) |].
    destruct (arrived_segment y Hy) as (x & _ & _ & _ & -> & ?). done.
  - intros y z Hy Hz. destruct (arrived_segment y Hy) as (x & Hx & [Hs _] & _ & Hlen & _).
    destruct (arrived_segment z Hz) as (x' & Hx' & [Hs' _] & _ & Hlen' & _).
    destruct (message_segments D pk _ _ Ht Hpk) as (_ & _ & Ha). unfold same_or_disjoint. rewrite Hs, Hs', Hlen, Hlen'.
    destruct (Ha x x' Hx Hx') as [-> | ?]; [by left | by right].
  - intros i Hi. destruct (Has i Hi) as (e & He & Hie).
    destruct (outbound_covers sg D Hsg HD pk Hpk Ht e.2 i (proj1 (Forall_forall _ _) Hsent e He) Hie) as (b & Hb & Hcov).
    destruct (Hall e b He Hb) as (y & Hy & Ha). apply existsb_exists. exists y. split; [by apply list_elem_of_In | by apply Hcov].
Qed.
End Arrivals.

(** C2: Transfer of a message from the memory of its sender to that of its
    receiver.  [homa_message_out_fill] and any sequence of transmissions and
    retransmissions of the message succeed.  Whatever the host's segmentation
    makes of the packets that were handed to IP, arriving in any order, with
    losses and duplicates, and copied to user space at any time, the receiver
    does not fail, and when nothing remains to be received or copied the
    buffers of the receiver hold the bytes of the sender's message and no other
    memory was changed.  If every byte of the message was sent and no packet
    was lost, the message is complete after the last copy. *)
Theorem transfer_correct sg env mtu gso_max p D xmit w rpc sk peer txs :
  segmenter_ok sg -> tx_ok env -> w_rpcs w !! p = Some rpc -> w_socks w !! rpc_hsk rpc = Some sk ->
  w_peers w !! rpc_peer rpc = Some peer -> acks_ok peer -> throttled_live w -> rpc_state_ rpc <> RPC_DEAD ->
  0 < Z.of_nat (length D) <= HOMA_MAX_MESSAGE_LENGTH -> route_ok (w_homa w) sk mtu gso_max ->
  fill_ready (w_homa w) peer (Z.of_nat (length D)) -> Forall (event_ok (w_homa w)) txs ->
  exists w1 w2 sent, homa_message_out_fill env mtu gso_max p D xmit w = Ok (0, w1) /\
    mapM_ (tx_step env p) txs w1 = Ok (tt, w2) /\ host_xmit (w_host w2) = host_xmit (w_host w) ++ sent /\
    forall cenv q v qrpc qsk bufs live l m0,
      no_errors cenv -> pool_inv (sk_buffer_pool qsk) (bufs ++ live) -> message_bufs (Z.of_nat (length D)) bufs ->
      receiving q qsk bufs D v qrpc -> rpc_state_ qrpc <> RPC_DEAD -> fresh_message (rpc_msgin qrpc) ->
      arrived_from sg sent (arrivals l) ->
      exists v' mi' log, mapM_ (rx_step cenv q) l v = Ok (tt, v') /\
        rpc_msgin <$> w_rpcs v' !! q = Some mi' /\ host_user (w_host v') = host_user (w_host v) ++ log /\
        (mi_bytes_remaining mi' = 0 -> mi_packets mi' = [] -> forall i, 0 <= i < Z.of_nat (length D) ->
           exists a n, homa_pool_get_buffer (pool_region (sk_buffer_pool qsk)) mi' i = Ok (a, n) /\
             D !! Z.to_nat i = Some (user_memory m0 log a)) /\
        (forall a, existsb (in_buf (a - pool_region (sk_buffer_pool qsk))) bufs = false -> user_memory m0 log a = m0 a) /\
        (all_arrived sg sent (arrivals l) -> all_sent (Z.of_nat (length D)) sent -> last l = Some RxCopy ->
           mi_bytes_remaining mi' = 0 /\ mi_packets mi' = []).
Proof.
  intros Hsg Henv Hr Hs Hp Ha Hl Hd Hn Hro Hf Hev.
  destruct (message_out_fill_full env mtu gso_max p D xmit w rpc sk peer)
    as (w1 & rpc1 & g & peer1 & Hex & _ & Hsd & _ & Hff & (sent1 & Hl1 & Hs1) & Hh); try done.
  destruct (homa_out_fields _ _ Hh) as [_ Hm].
  destruct (tx_run_spec D env p peer1 sk txs Henv w1 rpc1 Hsd) as (w2 & sent2 & Hex2 & Hl2 & Hs2).
  { rewrite (fl_socks _ _ _ _ _ Hff), (fl_rpc _ _ _ _ _ Hff). done. }
  { eapply Forall_impl; [exact Hev |]. intros []; [done |]. simpl. by rewrite Hm. }
  exists w1, w2, (sent1 ++ sent2). split_ands; [done | done | by rewrite Hl2, Hl1, app_assoc |].
  assert (Forall (fun x => outbound D (mo_packets (rpc_msgout rpc1)) x.2) (sent1 ++ sent2)) as Hout.
  { apply Forall_app. split; [|done]. eapply Forall_impl; [exact Hs1 |]. intros x (s & Hin & Hg). by eapply Original. }
  destruct Hsd as [_ _ _ _ _ [_ _ Hpk _ _] Ht].
  intros cenv q v qrpc qsk bufs live l m0 Hc Hpool Hb Hrecv Hqd Hfr Harr.
  destruct (message_delivered_spec cenv q v qrpc qsk bufs live D l m0) as (v' & mi' & log & E & Hmi & Hlog & Hdel & Hout' & Hfin); try done.
  { lia. }
  { eapply arrived_carries; try done. lia. }
  exists v', mi', log. split_ands; try done. intros Hall Hsnt Hlast. apply Hfin; [|done].
  eapply arrived_whole; try done. lia.
Qed.

(** A segmentation in software. *)
Definition ex_segmenter : segmenter := fun h hlen payload size =>
  (fun k => take (Z.to_nat hlen) (enc_data (Build_homa_data_hdr
      (Build_homa_common_hdr (sport (d_common h)) (dport (d_common h)) (u32 (sequence (d_common h) + k * size)) (ack1 (d_common h))
         (ack2 (d_common h)) (type (d_common h)) (doff (d_common h)) (hflags (d_common h)) (window (d_common h))
         (checksum (d_common h)) (urgent (d_common h)) (sender_id (d_common h)))
      (message_length h) (incoming h) (ack h) (cutoff_version h) (retransmit h) (pad h) (seg_offset h)))
    ++ slice payload (k * size) size) <$> seqZ 0 ((Z.of_nat (length payload) + size - 1) / size).

Lemma ex_segmenter_ok : segmenter_ok ex_segmenter.
Proof.
  intros h hlen payload size Hs. unfold ex_segmenter. split.
  - intros k. rewrite list_lookup_fmap, fmap_is_Some, <- (seg_exists _ _ _ Hs). split.
    + intros [j Hj]. by apply lookup_seqZ in Hj as [_ ?].
    + intros Hk. exists (0 + Z.of_nat k). by apply lookup_seqZ.
  - intros k b Hk. rewrite list_lookup_fmap in Hk. apply fmap_Some in Hk as (j & Hj & ->). apply lookup_seqZ in Hj as [-> _].
    rewrite Z.add_0_l. eexists. split_ands; [| |reflexivity]; done.
Qed.

(** The ranges of the packets, and whether all that is on the wire arrives. *)
Definition ex_summary (sent : list (ptr * Z * skb_out)) : list (Z * Z) * bool :=
  (map (fun e => (info_offset e.2, info_data_bytes e.2)) sent,
   forallb (fun b => match arrive b with Some _ => true | None => false end) (sent ≫= fun e => wire ex_segmenter e.2)).

(** Every packet on the wire arrives once, and then the message is copied. *)
Definition lossless (sent : list (ptr * Z * skb_out)) : list rx_event :=
  (RxPacket true 1 <$> omap arrive (sent ≫= fun e => wire ex_segmenter e.2)) ++ [RxCopy].

Lemma arrivals_lossless sent :
  arrivals (lossless sent) = (fun s => (true, 1, s)) <$> omap arrive (sent ≫= fun e => wire ex_segmenter e.2).
Proof.
  unfold lossless, arrivals. rewrite omap_app. cbn [omap list_omap]. rewrite app_nil_r.
  induction (omap arrive _) as [|s l IH]; [done |]. csimpl. by rewrite IH.
Qed.

Lemma transfer_correct_witness :
  exists w w1 w2 v v' mi' log,
    homa_message_out_fill ex_env 1500 65536 21%positive (replicate 30 7) true w = Ok (0, w1) /\
    mapM_ (tx_step ex_env 21%positive) [TxXmit true; TxResend 10 20 0] w1 = Ok (tt, w2) /\
    mapM_ (rx_step ex_copy_env 11%positive) (lossless (host_xmit (w_host w2))) v = Ok (tt, v') /\
    rpc_msgin <$> w_rpcs v' !! 11%positive = Some mi' /\ host_user (w_host v') = host_user (w_host v) ++ log /\
    exists a n, homa_pool_get_buffer 4096 mi' 25 = Ok (a, n) /\ user_memory (fun _ => 0) log a = 7.
Proof.
  destruct (pool_reserve_spec 1 7 8 10000 example_pool [] (example_mi 30)
    example_pool_inv) as (pool' & mi & ok & H & Hs & _ & Hr);
    [vm_compute; split; congruence .. | apply example_mi_holds |].
  destruct ok; [|exfalso; destruct Hr as (_ & _ & Hr & _); vm_compute in Hr; congruence].
  destruct Hr as (bufs & Hh & Hm & Hp).
  set (qsk := ex_sock <| sk_buffer_pool := pool' |>). set (qrpc := ex_rpc 1%positive 3 mi).
  set (v := ex <| w_rpcs := {[ 11%positive := qrpc ]} |> <| w_socks := {[ 1%positive := qsk ]} |>).
  assert (mi_packets mi = [] /\ mi_recv_end mi = 0 /\ mi_gaps mi = [] /\ mi_bytes_remaining mi = 30 /\
    mi_length mi = 30) as (F1 & F2 & F3 & F4 & F5) by (rewrite Hs; split_ands; reflexivity).
  assert (pool_region pool' = 4096) as Hreg by (vm_compute in H; injection H as <- _; reflexivity).
  destruct (transfer_correct ex_segmenter ex_env 1500 65536 21%positive (replicate 30 7) true ex_out_world
    ex_out_rpc ex_sock ex_out_peer [TxXmit true; TxResend 10 20 0]) as (w1 & w2 & sent & E1 & E2 & Hsent & Hrx).
  - exact ex_segmenter_ok.
  - exact ex_env_ok.
  - reflexivity.
  - reflexivity.
  - reflexivity.
  - vm_compute. split; [split; congruence | reflexivity].
  - intros q Hq. apply elem_of_nil in Hq. destruct Hq.
  - discriminate.
  - vm_compute. split; congruence.
  - exact ex_route_ok.
  - apply ex_fill_ready. vm_compute. congruence.
  - repeat constructor; vm_compute; congruence.
  - assert (ex_summary sent = ([(0, 30); (0, 30)], true)) as Hsum.
    { transitivity (match (homa_message_out_fill ex_env 1500 65536 21%positive (replicate 30 7) true ;;;
        mapM_ (tx_step ex_env 21%positive) [TxXmit true; TxResend 10 20 0]) ex_out_world with
        | Ok (_, w) => ex_summary (host_xmit (w_host w)) | _ => ([], false) end);
        [|vm_compute; reflexivity]. rewrite (bind_eq _ _ _ _ _ E1), E2, Hsent. reflexivity. }
    injection Hsum as Hbytes Harr. rewrite forallb_forall in Harr.
    change (host_xmit (w_host ex_out_world)) with (@nil (ptr * Z * skb_out)) in Hsent. simpl in Hsent.
    destruct (Hrx ex_copy_env 11%positive v qrpc qsk bufs [] (lossless sent) (fun _ => 0))
      as (v' & mi2 & log & E & Hmi & Hlog & Hdel & _ & Hfin).
    + intros a n. split; reflexivity.
    + exact Hp.
    + exact Hm.
    + constructor; [reflexivity | reflexivity | exact F5 | exact Hh].
    + discriminate.
    + unfold fresh_message. cbn [qrpc rpc_msgin ex_rpc]. rewrite F5. split_ands; assumption.
    + unfold arrived_from. rewrite arrivals_lossless. apply Forall_forall. intros x Hx.
      apply list_elem_of_fmap in Hx as (s & -> & Hx). apply list_elem_of_omap in Hx as (b & Hb & Ha).
      apply list_elem_of_bind in Hb as (e & Hb & He). exists e, b. split_ands; assumption.
    + exists ex_out_world, w1, w2, v, v', mi2, log. rewrite Hsent. repeat (split; [assumption |]).
      destruct Hfin as [Hrem Hpk].
      * split; rewrite arrivals_lossless; [apply Forall_forall; intros x Hx; apply list_elem_of_fmap in Hx as (s & -> & _); reflexivity |].
        intros e b He Hb. destruct (arrive b) as [s|] eqn:Ea.
        -- exists (true, 1, s). split; [|reflexivity]. apply (list_elem_of_fmap_2 (fun s => (true, 1, s))).
           apply list_elem_of_omap. exists b. split; [|exact Ea]. apply list_elem_of_bind. exists e. split; assumption.
        -- exfalso. assert (In b (sent ≫= fun e => wire ex_segmenter e.2)) as Hin
             by (apply list_elem_of_In, list_elem_of_bind; exists e; split; assumption).
           apply Harr in Hin. rewrite Ea in Hin. discriminate.
      * destruct sent as [|e sent']; [discriminate |]. injection Hbytes as Ho Hn _. intros i Hi. exists e.
        split; [apply list_elem_of_here |]. rewrite Ho, Hn. exact Hi.
      * unfold lossless. apply last_snoc.
      * destruct (Hdel Hrem Hpk 25) as (a & n & G & Hb); [simpl; lia |]. exists a, n.
        change (pool_region (sk_buffer_pool qsk)) with (pool_region pool') in G. rewrite Hreg in G. split; [exact G |].
        simpl in Hb. congruence.
Defined.
