(* ===== verification/OffloadTcp.v ===== *)
(** * TCP hijacking, load balancing parameters *)
From S2P Require Import Prelude Lists Wire Types Utils Softirq Syscall Offload OffloadGro.

(** ** Hooks *)

(** The host's entries for TCP are not the hooks, and no hook is recorded. *)
Definition unhooked (s : gro_state) : Prop :=
  gs_tcp_off s = None /\ gs_tcp6_off s = None /\
  (exists o, gs_inet_tcp s = OffHost o) /\ (exists o, gs_inet6_tcp s = OffHost o).

(** Hooking sends the TCP packets of both families through
    [homa_tcp_gro_receive]; hooking again has no effect, and unhooking restores
    the host's entries. *)
Lemma hook_unhook s :
  unhooked s ->
  exists s1 s2, homa_gro_hook_tcp s = Ok (tt, s1) /\ homa_gro_hook_tcp s1 = Ok (tt, s1) /\
    no_gro_receive (gs_hook s1) = HomaTcpGro /\ no_gro_receive (gs_hook6 s1) = HomaTcpGro /\
    gs_inet_tcp s1 = OffHook /\ gs_inet6_tcp s1 = OffHook6 /\
    homa_gro_unhook_tcp s1 = Ok (tt, s2) /\ gs_inet_tcp s2 = gs_inet_tcp s /\ gs_inet6_tcp s2 = gs_inet6_tcp s /\ unhooked s2.
Proof.
  intros (E1 & E2 & (o & E3) & (o6 & E4)). unfold homa_gro_hook_tcp. erewrite bind_eq by reflexivity. rewrite E1.
  erewrite bind_eq by reflexivity. rewrite E3. erewrite bind_eq by reflexivity. erewrite bind_eq by reflexivity.
  erewrite bind_eq by reflexivity. simpl. rewrite E4. erewrite bind_eq by reflexivity.
  eexists _, _. split; [reflexivity |]. split; [reflexivity |]. split_ands; simpl; try congruence; try done.
  unfold unhooked. simpl. repeat split; eauto.
Qed.

(** ** The checksum of the IPv4 header *)
Section checksum.
Variables csum16_add csum16_sub : Z -> Z -> Z.
(** The host's functions compute one's complement sums. *)
Hypothesis csum_add : forall a b, 0 <= a <= 65535 -> 0 <= b <= 65535 ->
  0 <= csum16_add a b <= 65535 /\ csum16_add a b mod 65535 = (a + b) mod 65535.
Hypothesis csum_sub : forall a b, 0 <= a <= 65535 -> 0 <= b <= 65535 ->
  0 <= csum16_sub a b <= 65535 /\ csum16_sub a b mod 65535 = (a - b) mod 65535.

Lemma htons_byte x : 0 <= x < 256 -> htons x = 256 * x.
Proof.
  intros Hx. unfold htons. change 255 with (Z.ones 8). rewrite Z.land_ones, Z.mod_small by lia.
  rewrite (Z.shiftr_div_pow2 x 8), (Z.div_small x) by lia. rewrite Z.lor_0_r, Z.shiftl_mul_pow2 by lia. lia.
Qed.

(** A header whose 16-bit words add up to 0 (mod 65535) still does when
    [homa_tcp_gro_receive] has changed its protocol: the word of the protocol
    is [ttl + 256 * protocol], and [rest] is the sum of the other words. *)
Lemma new_check_correct rest ttl protocol check :
  0 <= protocol < 256 -> 0 <= check <= 65535 ->
  (rest + (ttl + 256 * protocol) + check) mod 65535 = 0 ->
  0 <= new_check csum16_add csum16_sub check protocol <= 65535 /\
  (rest + (ttl + 256 * IPPROTO_HOMA) + new_check csum16_add csum16_sub check protocol) mod 65535 = 0.
Proof.
  intros Hp Hc Hsum. unfold new_check, not16. rewrite !htons_byte by (unfold IPPROTO_HOMA; lia).
  destruct (csum_sub (65535 - check) (256 * protocol)) as [H1 E1]; [lia | lia |].
  set (a := csum16_sub _ _) in *. destruct (csum_add a (256 * IPPROTO_HOMA)) as [H2 E2]; [lia | unfold IPPROTO_HOMA; lia |].
  set (b := csum16_add _ _) in *. split; [lia |].
  apply Z.mod_divide in Hsum as [x Hx]; [|lia].
  assert (exists y, a = 65535 - check - 256 * protocol + 65535 * y) as [y Hy].
  { exists (a / 65535 - (65535 - check - 256 * protocol) / 65535).
    rewrite (Z.div_mod a 65535), E1 at 1 by lia. pose proof (Z.div_mod (65535 - check - 256 * protocol) 65535 ltac:(lia)). lia. }
  assert (exists z, b = a + 256 * IPPROTO_HOMA + 65535 * z) as [z Hz].
  { exists (b / 65535 - (a + 256 * IPPROTO_HOMA) / 65535).
    rewrite (Z.div_mod b 65535), E2 at 1 by lia. pose proof (Z.div_mod (a + 256 * IPPROTO_HOMA) 65535 ltac:(lia)). lia. }
  apply Z.mod_divide; [lia |]. exists (x - y - z). unfold IPPROTO_HOMA in *. lia.
Qed.
End checksum.

(** ** Initialisation *)

(** With an even number of cores, [homa_offload_init] gives every core a partner
    that exists.  With an odd number the last core's partner does not exist, and
    the Gen3 policy accesses data of that core. *)
Lemma lxor1 i : 0 <= i -> Z.lxor i 1 = if Z.even i then i + 1 else i - 1.
Proof.
  intros Hi. apply Z.bits_inj'. intros n Hn. rewrite Z.lxor_spec.
  destruct (Z.even i) eqn:E.
  - apply Z.even_spec in E as [j ->]. destruct (Z.eq_dec n 0) as [-> | H].
    + rewrite Z.testbit_even_0, Z.testbit_odd_0. done.
    + replace n with (Z.succ (n - 1)) by lia. rewrite Z.testbit_even_succ, Z.testbit_odd_succ by lia.
      change 1 with (2 * 0 + 1) at 2. rewrite Z.testbit_odd_succ, Z.bits_0 by lia. by destruct (Z.testbit j _).
  - rewrite <- Z.negb_odd in E. apply negb_false_iff in E. apply Z.odd_spec in E as [j ->].
    replace (2 * j + 1 - 1) with (2 * j) by lia. destruct (Z.eq_dec n 0) as [-> | H].
    + rewrite Z.testbit_even_0, Z.testbit_odd_0. done.
    + replace n with (Z.succ (n - 1)) by lia. rewrite Z.testbit_even_succ, Z.testbit_odd_succ by lia.
      change 1 with (2 * 0 + 1) at 2. rewrite Z.testbit_odd_succ, Z.bits_0 by lia. by destruct (Z.testbit j _).
Qed.

Lemma init_core_ok n i : Z.even n = true -> 0 <= i < n -> off_core_ok n (init_core i).
Proof.
  intros Hn Hi. constructor; [|vm_compute; intuition congruence ..].
  eexists _, _. split; [reflexivity |]. split; [|repeat constructor; lia].
  rewrite lxor1 by lia. destruct (Z.even i) eqn:E; [|assert (i <> 0) by (intros ->; done); lia].
  assert (i <> n - 1) by (intros ->; rewrite Z.even_sub, Hn in E; done). lia.
Qed.

Lemma offload_init_spec res1 res2 s :
  Z.even (nr s) = true -> flow_ok (nr s) s ->
  exists s', homa_offload_init res1 res2 s = Ok (if negb (res1 =? 0) then res1 else res2, s') /\ cores_ok s'.
Proof.
  intros Hn Hf. unfold homa_offload_init. erewrite bind_eq by reflexivity. fold (nr s). erewrite bind_eq by reflexivity.
  erewrite bind_eq by (apply inw_eq; reflexivity). 
  assert (length (init_core <$> seqZ 0 (nr s)) = length (gs_cores s)) as El by (rewrite length_fmap, length_seqZ; unfold nr; lia).
  assert (Forall (off_core_ok (nr s)) (init_core <$> seqZ 0 (nr s))) as Hall.
  { apply Forall_fmap, Forall_forall. intros i Hi%elem_of_seqZ. simpl. apply init_core_ok; [done | lia]. }
  destruct (res1 =? 0), (res2 =? 0); erewrite bind_eq by reflexivity; erewrite bind_eq by reflexivity; (eexists; split; [reflexivity |]);
    unfold cores_ok, nr, flow_ok in *; simpl; rewrite El; done.
Qed.

Lemma gen3_missing_core s p oc :
  nr s = 1 -> gs_cores s = [oc] -> oc_gen3_softirq_cores oc = [1; -1; -1] -> homa_gro_gen3 0 p s = Fault ArrayBounds.
Proof.
  intros Hn Hc Hg. unfold homa_gro_gen3. rewrite (bind_eq _ _ _ _ _ (get_off_eq 0 s oc ltac:(lia) ltac:(by rewrite Hc))). cbv zeta.
  erewrite bind_eq by (apply inw_eq; reflexivity). erewrite bind_eq by (apply inw_eq; reflexivity). rewrite Hg.
  erewrite bind_eq by reflexivity. cbn [gen3_scan]. change (1 <? 0) with false. cbv iota.
  unfold bind at 1 2. unfold get_off. erewrite bind_eq by reflexivity. simpl. rewrite Hc. done.
Qed.

(** ** The parameter gen3_softirq_cores *)

(** [proc_dointvec] for the input [vals]: it stores the values for which the
    table has room, and ignores the others. *)
Definition proc_ints (vals table : list Z) (maxlen : Z) : Z * list Z :=
  let vals := take (Z.to_nat (maxlen / 4)) vals in (0, vals ++ drop (length vals) table).

(** The table has room for four numbers per core, but [maxlen], which is in
    bytes, is set to this number: of the values for two of four cores those of
    the second one are ignored, without an error. *)
Lemma softirq_cores_truncated s oc0 oc1 oc2 oc3 :
  gs_cores s = [oc0; oc1; oc2; oc3] ->
  homa_sysctl_softirq_cores (proc_ints [0; 1; 2; 3; 1; 0; 2; 3]) true true s =
  Ok (0, s <| gs_cores := [oc0 <| oc_gen3_softirq_cores := [1; 2; 3] |>; oc1; oc2; oc3] |>).
Proof.
  intros E. unfold homa_sysctl_softirq_cores. erewrite bind_eq by reflexivity. rewrite E.
  change (proc_ints _ _ _) with (0, [0; 1; 2; 3] ++ replicate 12 (-1)). cbn [negb Z.eqb].
  erewrite bind_eq; [reflexivity |]. change (Z.to_nat (Z.of_nat (length [oc0; oc1; oc2; oc3]))) with 4%nat. cbn [store_cores].
  erewrite bind_eq by reflexivity. change (0 <? 0) with false. cbv iota. do 3 (erewrite bind_eq by reflexivity).
  erewrite bind_eq by (eapply upd_off_eq; [lia | by rewrite E]). erewrite bind_eq by reflexivity.
  change (-1 <? 0) with true. cbv iota. unfold ret. destruct s; simpl in *. subst. reflexivity.
Qed.
