(* ===== verification/Load.v ===== *)
(** * Loading and unloading the module, and its threads (homa_plumbing.c)

    [homa_load] registers the protocol with the host step by step; when a step
    fails, the earlier ones are undone in reverse order. *)
From S2P Require Import Prelude Lists Types Example Peer Grant GrantLists PoolWait Outgoing OutXmit Sock Rpc RpcInv Utils Softirq Syscall Timer Offload OffloadGro OffloadTcp.

(** What is registered with the host; [Tables] is the memory that [homa_init]
    allocates, [TimerThread] the thread that runs [homa_timer_main]. *)
Inductive resource :=
  ProtoV4 | ProtoV6 | SwV4 | SwV6 | IpV4 | IpV6 | Tables | ProcMetrics | Sysctls | TimerThread.
#[export] Instance resource_eq_dec : EqDecision resource.
Proof. solve_decision. Defined.

Record load_state := { ls_gro : gro_state; ls_reg : resource -> bool; ls_exiting : bool }.
#[export] Instance eta_load_state : Eta load_state := fun r => Build_load_state (ls_gro r) (ls_reg r) (ls_exiting r).

Definition LM := ST load_state.
Definition ing {A} (m : GM A) : LM A := fun s =>
  match m (ls_gro s) with Ok (a, g) => Ok (a, s <| ls_gro := g |>) | Fault f => Fault f end.
Definition set_reg (r : resource) (b : bool) : LM unit := fun s =>
  Ok (tt, s <| ls_reg ::= fun f x => if decide (x = r) then b else f x |>).
Definition reg (r : resource) : LM unit := set_reg r true.
Definition unreg (r : resource) : LM unit := set_reg r false.

(** The answers of the host: the results of the registrations, in the order of
    the calls, and what [homa_destroy] needs. *)
Record load_env := {
  le_proto : Z; le_proto6 : Z; le_sw6 : Z; le_add : Z; le_add6 : Z; le_init : init_env;
  le_proc : bool; le_sysctl : bool; le_off : Z; le_off6 : Z; le_timer : Z;
  le_del : Z; le_del6 : Z; le_scan : ptr; le_fuel : nat; le_junk : Z; le_core : Z
}.

(** [homa_init] and [homa_destroy]. *)
Definition load_init (env : load_env) : LM Z :=
  set_reg Tables (ie_port_map (le_init env)) ;;;
  ing (inw (homa_init (le_init env))).
Definition load_destroy (env : load_env) : LM unit :=
  ing (inw (homa_destroy true true (le_scan env) (le_fuel env) (le_junk env) (le_core env))) ;;;
  unreg Tables.

(** The labels at the end of [homa_load], from the last to the first. *)
Definition proto_register_v6_err (status : Z) : LM Z := unreg ProtoV4 ;;; ret status.
Definition register_protosw_v6_err (status : Z) : LM Z := unreg SwV4 ;;; unreg ProtoV6 ;;; proto_register_v6_err status.
Definition add_protocol_err (status : Z) : LM Z := unreg SwV6 ;;; register_protosw_v6_err status.
Definition add_protocol_v6_err (status : Z) : LM Z := unreg IpV4 ;;; add_protocol_err status.
Definition homa_init_err (status : Z) : LM Z := unreg IpV6 ;;; add_protocol_v6_err status.
Definition metrics_err (env : load_env) (status : Z) : LM Z := load_destroy env ;;; homa_init_err status.
Definition sysctl_err (env : load_env) (status : Z) : LM Z := unreg ProcMetrics ;;; metrics_err env status.
Definition offload_err (env : load_env) (status : Z) : LM Z := unreg Sysctls ;;; sysctl_err env status.
Definition timer_err (env : load_env) (status : Z) : LM Z :=
  ing (homa_offload_end (le_del env) (le_del6 env)) ;;; offload_err env status.

Definition homa_load (env : load_env) : LM Z :=
  if negb (le_proto env =? 0) then ret (le_proto env) else
  reg ProtoV4 ;;;
  if negb (le_proto6 env =? 0) then proto_register_v6_err (le_proto6 env) else
  reg ProtoV6 ;;;
  reg SwV4 ;;;
  if negb (le_sw6 env =? 0) then register_protosw_v6_err (le_sw6 env) else
  reg SwV6 ;;;
  if negb (le_add env =? 0) then add_protocol_err (le_add env) else
  reg IpV4 ;;;
  if negb (le_add6 env =? 0) then add_protocol_v6_err (le_add6 env) else
  reg IpV6 ;;;
  let* status := load_init env in
  if negb (status =? 0) then homa_init_err status else
  if negb (le_proc env) then metrics_err env (- ENOMEM) else
  reg ProcMetrics ;;;
  if negb (le_sysctl env) then sysctl_err env (- ENOMEM) else
  reg Sysctls ;;;
  let* status := ing (homa_offload_init (le_off env) (le_off6 env)) in
  if negb (status =? 0) then offload_err env status else
  if negb (le_timer env =? 0) then timer_err env (le_timer env) else
  reg TimerThread ;;;
  ing homa_gro_hook_tcp ;;;
  ret 0.

Definition homa_unload (env : load_env) : LM unit :=
  (fun s => Ok (tt, s <| ls_exiting := true |>)) ;;;
  ing homa_gro_unhook_tcp ;;;
  ing (homa_offload_end (le_del env) (le_del6 env)) ;;;
  unreg TimerThread ;;;
  unreg Sysctls ;;;
  unreg ProcMetrics ;;;
  load_destroy env ;;;
  unreg IpV4 ;;; unreg SwV4 ;;; unreg IpV6 ;;; unreg SwV6 ;;; unreg ProtoV4 ;;; unreg ProtoV6.

(** ** Threads

    [homa_timer_main]: [wakes] says of each time that the thread is woken
    whether [exiting] is set then; [tick] is the call of [homa_timer]. *)
Fixpoint homa_timer_main (tick : M unit) (wakes : list bool) : M unit :=
  match wakes with
  | [] => ret tt
  | exiting :: wakes => if exiting then ret tt else (tick ;;; homa_timer_main tick wakes)
  end.

(** [homa_pacer_main]: an element of [l] is what bounds the waiting in
    [homa_pacer_xmit], and what other threads do while the pacer sleeps.  The
    result is whether the thread has ended. *)
Fixpoint pacer_rounds (l : list (nat * M unit)) : M bool :=
  let* h := get_homa in
  if h_pacer_exit h then (upd_homa (fun h => h <| h_pacer_wake_time := 0 |>) ;;; ret true) else
  match l with
  | [] => ret false
  | (wait, others) :: l =>
      homa_pacer_xmit wait ;;;
      let* _ := sched_clock in
      upd_homa (fun h => h <| h_pacer_wake_time := 0 |>) ;;;
      others ;;;
      let* t := sched_clock in
      upd_homa (fun h => h <| h_pacer_wake_time := t |>) ;;;
      pacer_rounds l
  end.

Definition homa_pacer_main (l : list (nat * M unit)) : M bool :=
  let* t := sched_clock in
  upd_homa (fun h => h <| h_pacer_wake_time := t |>) ;;;
  pacer_rounds l.

(** [homa_pacer_stop]; the host wakes the thread and waits for its end. *)
Definition homa_pacer_stop : M unit := upd_homa (fun h => h <| h_pacer_exit := true |>).

(** ** Loading and unloading *)

(** Nothing is registered. *)
Definition clean (s : load_state) : Prop :=
  (forall r, ls_reg s r = false) /\ gs_inet_off (ls_gro s) = false /\ gs_inet6_off (ls_gro s) = false /\ unhooked (ls_gro s).

Lemma ing_eq {A} (m : GM A) s a g : m (ls_gro s) = Ok (a, g) -> ing m s = Ok (a, s <| ls_gro := g |>).
Proof. intros H. unfold ing. by rewrite H. Qed.

(** The tables of a world without sockets and peers can be freed. *)
Lemma destroy_empty s fuel junk core w :
  w_socks w = ∅ -> w_socktab w = Build_homa_socktab ∅ ∅ -> w_peertab w = Build_homa_peertab true ∅ [] ->
  socktab_ok w -> exists w', homa_destroy true true s fuel junk core w = Ok (tt, w').
Proof.
  intros Hs Ht Hp Hok. unfold homa_destroy, homa_socktab_destroy, for_each_sock.
  assert (chains_from w 0 = []) as Ec.
  { unfold chains_from. generalize (seqZ 0 (HOMA_SOCKTAB_BUCKETS - 0)). intros l. induction l as [|b l IH]; [done |].
    rewrite bind_cons, IH. unfold chain. by rewrite Ht. }
  destruct (start_scan_spec s w Hok) as (sc & Hex & _ & _). rewrite Ec in Hex.
  erewrite bind_eq.
  2:{ erewrite bind_eq by reflexivity. rewrite (bind_eq _ _ _ _ _ Hex). rewrite Ec. simpl. erewrite bind_eq by reflexivity. reflexivity. }
  unfold homa_peertab_destroy. erewrite bind_eq by reflexivity. simpl. rewrite Hp. simpl.
  assert (all_chains (Build_homa_peertab true ∅ []) = []) as Ea.
  { unfold all_chains. generalize (seqZ 0 HOMA_PEERTAB_BUCKETS). intros l. induction l as [|b l IH]; [done |].
    rewrite bind_cons, IH. simpl. by rewrite lookup_empty. }
  rewrite Ea. erewrite bind_eq by reflexivity. unfold homa_peertab_gc_dsts. erewrite bind_eq by reflexivity. simpl.
  erewrite bind_eq by reflexivity. by eexists.
Qed.

(** Freeing the tables in the state of the module. *)
Definition tables_empty (w : world) : Prop :=
  w_socks w = ∅ /\ w_socktab w = Build_homa_socktab ∅ ∅ /\ w_peertab w = Build_homa_peertab true ∅ [] /\ socktab_ok w.

Lemma load_destroy_spec env s :
  tables_empty (gs_w (ls_gro s)) ->
  exists w', load_destroy env s = Ok (tt, s <| ls_gro ::= fun g => g <| gs_w := w' |> |>
    <| ls_reg ::= fun f x => if decide (x = Tables) then false else f x |>).
Proof.
  intros (H1 & H2 & H3 & H4).
  destruct (destroy_empty (le_scan env) (le_fuel env) (le_junk env) (le_core env) _ H1 H2 H3 H4) as [w' Hex].
  exists w'. unfold load_destroy. erewrite bind_eq by (apply ing_eq, inw_eq; exact Hex). done.
Qed.

(** The labels of [homa_load] undo the registrations that precede them. *)
Ltac lstep := erewrite bind_eq by reflexivity.

Definition early : list resource := [ProtoV4; ProtoV6; SwV4; SwV6; IpV4; IpV6].

Lemma homa_init_err_spec status s :
  exists s', homa_init_err status s = Ok (status, s') /\ ls_gro s' = ls_gro s /\
    forall r, ls_reg s' r = if decide (r ∈ early) then false else ls_reg s r.
Proof.
  unfold homa_init_err, add_protocol_v6_err, add_protocol_err, register_protosw_v6_err, proto_register_v6_err.
  do 6 lstep. eexists. split; [reflexivity |]. split; [done |]. by intros [].
Qed.

Lemma metrics_err_spec env status s :
  tables_empty (gs_w (ls_gro s)) ->
  exists w s', metrics_err env status s = Ok (status, s') /\ ls_gro s' = (ls_gro s) <| gs_w := w |> /\
    forall r, ls_reg s' r = if decide (r ∈ Tables :: early) then false else ls_reg s r.
Proof.
  intros Ht. unfold metrics_err. destruct (load_destroy_spec env s Ht) as [w Hex]. rewrite (bind_eq _ _ _ _ _ Hex).
  match goal with |- context [homa_init_err _ ?x] => destruct (homa_init_err_spec status x) as (s' & Hex' & Hg & Hr) end.
  exists w, s'. split_ands; [done | by rewrite Hg |]. intros r. rewrite Hr. simpl. by destruct r.
Qed.

Lemma offload_err_spec env status s :
  tables_empty (gs_w (ls_gro s)) ->
  exists w s', offload_err env status s = Ok (status, s') /\ ls_gro s' = (ls_gro s) <| gs_w := w |> /\
    forall r, ls_reg s' r = if decide (r = TimerThread) then ls_reg s r else false.
Proof.
  intros Ht. unfold offload_err, sysctl_err. do 2 lstep.
  match goal with |- context [metrics_err _ _ ?x] => destruct (metrics_err_spec env status x Ht) as (w & s' & Hex' & Hg & Hr) end.
  exists w, s'. split_ands; [done | by rewrite Hg |]. intros r. rewrite Hr. simpl. by destruct r.
Qed.

(** The state of GRO that registrations do not concern. *)
Lemma offload_init_regs res1 res2 g :
  exists g', homa_offload_init res1 res2 g = Ok (if negb (res1 =? 0) then res1 else res2, g') /\
    (exists f1 f2, gs_w g' = (gs_w g) <| w_host ::= fun ho => ho <| host_last_active := f1 |> <| host_last_app_active := f2 |> |>) /\
    gs_inet_off g' = (if res1 =? 0 then true else gs_inet_off g) /\ gs_inet6_off g' = (if res2 =? 0 then true else gs_inet6_off g) /\
    (unhooked g -> unhooked g').
Proof.
  unfold homa_offload_init. erewrite bind_eq by reflexivity. erewrite bind_eq by reflexivity.
  erewrite bind_eq by (apply inw_eq; reflexivity).
  destruct (res1 =? 0), (res2 =? 0); erewrite bind_eq by reflexivity; erewrite bind_eq by reflexivity; (eexists; split; [reflexivity |]);
    (split_ands; [eexists _, _; reflexivity | done | done | done]).
Qed.

Lemma offload_end_regs g :
  exists g', homa_offload_end 0 0 g = Ok (0, g') /\ gs_w g' = gs_w g /\ gs_inet_off g' = false /\ gs_inet6_off g' = false /\
    (unhooked g -> unhooked g') /\ gs_inet_tcp g' = gs_inet_tcp g /\ gs_inet6_tcp g' = gs_inet6_tcp g.
Proof. by eexists. Qed.

Lemma tables_empty_host w f1 f2 :
  tables_empty w -> tables_empty (w <| w_host ::= fun ho => ho <| host_last_active := f1 |> <| host_last_app_active := f2 |> |>).
Proof. intros (H1 & H2 & H3 & [A1 A2 A3]). by split_ands. Qed.

(** All steps succeed. *)
Definition loads (env : load_env) : Prop :=
  le_proto env = 0 /\ le_proto6 env = 0 /\ le_sw6 env = 0 /\ le_add env = 0 /\ le_add6 env = 0 /\ init_ok (le_init env) /\
  le_proc env = true /\ le_sysctl env = true /\ le_off env = 0 /\ le_off6 env = 0 /\ le_timer env = 0.

(** The failures after which nothing is left: [homa_init] succeeds or allocates
    nothing, and the two offloads of [homa_offload_init] succeed or fail
    together. *)
Definition fails_cleanly (env : load_env) : Prop :=
  (init_ok (le_init env) \/ ie_port_map (le_init env) = false) /\ (le_off env = 0 <-> le_off6 env = 0).

Definition loaded (s : load_state) : Prop :=
  (forall r, ls_reg s r = true) /\ gs_inet_off (ls_gro s) = true /\ gs_inet6_off (ls_gro s) = true /\
  gs_inet_tcp (ls_gro s) = OffHook /\ gs_inet6_tcp (ls_gro s) = OffHook6.

Lemma hook_regs g :
  unhooked g ->
  exists g1, homa_gro_hook_tcp g = Ok (tt, g1) /\ gs_w g1 = gs_w g /\ gs_inet_off g1 = gs_inet_off g /\
    gs_inet6_off g1 = gs_inet6_off g /\ gs_inet_tcp g1 = OffHook /\ gs_inet6_tcp g1 = OffHook6 /\
    exists o o6, gs_tcp_off g1 = Some (OffHost o) /\ gs_tcp6_off g1 = Some (OffHost o6).
Proof.
  intros (E1 & E2 & (o & E3) & (o6 & E4)). unfold homa_gro_hook_tcp. erewrite bind_eq by reflexivity. rewrite E1.
  erewrite bind_eq by reflexivity. rewrite E3. erewrite bind_eq by reflexivity. erewrite bind_eq by reflexivity.
  erewrite bind_eq by reflexivity. simpl. rewrite E4. erewrite bind_eq by reflexivity. eexists. split; [reflexivity |].
  simpl. eauto 10.
Qed.

(** The steps after the registration of the parameters, and after
    [homa_init]. *)
Definition load_offload (env : load_env) : LM Z :=
  let* status := ing (homa_offload_init (le_off env) (le_off6 env)) in
  if negb (status =? 0) then offload_err env status else
  if negb (le_timer env =? 0) then timer_err env (le_timer env) else
  reg TimerThread ;;;
  ing homa_gro_hook_tcp ;;;
  ret 0.

Definition load_rest (env : load_env) : LM Z :=
  if negb (le_proc env) then metrics_err env (- ENOMEM) else
  reg ProcMetrics ;;;
  if negb (le_sysctl env) then sysctl_err env (- ENOMEM) else
  reg Sysctls ;;;
  load_offload env.

(** What the steps that are left achieve: [ok] is when they succeed, and
    [whole] when they fail without leaving anything. *)
Definition completes (ok whole : Prop) (s : load_state) (status : Z) (s' : load_state) : Prop :=
  (status = 0 <-> ok) /\
  (status = 0 -> loaded s' /\ (exists f, gs_w (ls_gro s') = (gs_w (ls_gro s)) <| w_host ::= f |>) /\
     exists o o6, gs_tcp_off (ls_gro s') = Some (OffHost o) /\ gs_tcp6_off (ls_gro s') = Some (OffHost o6)) /\
  (status <> 0 -> whole -> clean s').

Lemma completes_error ok whole s status s' : status <> 0 -> ~ ok -> (whole -> clean s') -> completes ok whole s status s'.
Proof. intros H1 H2 H3. by split_ands. Qed.

Definition off (g : gro_state) : Prop := gs_inet_off g = false /\ gs_inet6_off g = false /\ unhooked g.

Section rest.
Variables (env : load_env) (s : load_state).
Hypotheses (Ht : tables_empty (gs_w (ls_gro s))) (Hoff : off (ls_gro s)) (Hd : le_del env = 0) (Hd6 : le_del6 env = 0).

Lemma load_offload_spec :
  (forall r, ls_reg s r = if decide (r = TimerThread) then false else true) ->
  exists status s', load_offload env s = Ok (status, s') /\
    completes (le_off env = 0 /\ le_off6 env = 0 /\ le_timer env = 0) (le_off env = 0 <-> le_off6 env = 0) s status s'.
Proof.
  intros Hr. destruct Hoff as (H4 & H6 & Hu). unfold load_offload.
  destruct (offload_init_regs (le_off env) (le_off6 env) (ls_gro s)) as (g & Hex & (f1 & f2 & Ew) & E4 & E6 & Hu').
  erewrite bind_eq by (apply ing_eq; exact Hex). set (s2 := s <| ls_gro := g |>).
  assert (tables_empty (gs_w g)) as Ht2 by (rewrite Ew; by apply tables_empty_host).
  set (status := if negb (le_off env =? 0) then le_off env else le_off6 env).
  destruct (Z.eqb_spec status 0) as [E | E]; cbn [negb]; cbv iota.
  2:{ destruct (offload_err_spec env status s2 Ht2) as (w & s' & Hex' & Hg & Hr').
      exists status, s'. split; [done |]. apply completes_error; [done | |].
      - intros (E1 & E2 & _). unfold status in E. rewrite E1, E2 in E. done.
      - intros Hiff. split; [intros r; rewrite Hr'; simpl; rewrite Hr; by destruct r |]. rewrite Hg. unfold status in E.
        destruct (Z.eqb_spec (le_off env) 0), (Z.eqb_spec (le_off6 env) 0); simpl in E; try (exfalso; lia).
        simpl. rewrite E4, E6. split_ands; try done; apply Hu', Hu. }
  assert (le_off env = 0 /\ le_off6 env = 0) as [E1 E2].
  { unfold status in E. destruct (Z.eqb_spec (le_off env) 0); simpl in E; done. }
  destruct (Z.eqb_spec (le_timer env) 0) as [E3 | E3]; cbn [negb]; cbv iota.
  2:{ unfold timer_err. rewrite Hd, Hd6. destruct (offload_end_regs g) as (g' & Hex' & Ew' & G4 & G6 & Gu & _).
      erewrite bind_eq by (apply ing_eq; exact Hex').
      match goal with |- context [offload_err _ _ ?x] => destruct (offload_err_spec env (le_timer env) x) as (w & s' & Hex2 & Hg & Hr');
        [simpl; by rewrite Ew' |] end.
      exists (le_timer env), s'. split; [done |]. apply completes_error; [done | intuition congruence |]. intros _.
      split; [intros r; rewrite Hr'; simpl; rewrite Hr; by destruct r |]. rewrite Hg. simpl. split_ands; try done; by apply Gu, Hu', Hu. }
  lstep. destruct (hook_regs g (Hu' Hu)) as (g1 & Hh & K1 & K2 & K3 & K4 & K5 & K6).
  erewrite bind_eq by (apply ing_eq; exact Hh). eexists 0, _. split; [reflexivity |]. split; [done |]. split; [|done]. simpl. intros _.
  rewrite K1. split_ands; [|eexists; exact Ew | done]. unfold loaded. simpl. rewrite K2, E4, E1, K3, E6, E2. split_ands; try done.
  intros r. rewrite Hr. by destruct r.
Qed.

End rest.

Lemma load_rest_spec env s :
  tables_empty (gs_w (ls_gro s)) -> off (ls_gro s) -> le_del env = 0 -> le_del6 env = 0 ->
  (forall r, ls_reg s r = if decide (r ∈ Tables :: early) then true else false) ->
  exists status s', load_rest env s = Ok (status, s') /\
    completes (le_proc env = true /\ le_sysctl env = true /\ le_off env = 0 /\ le_off6 env = 0 /\ le_timer env = 0)
      (le_off env = 0 <-> le_off6 env = 0) s status s'.
Proof.
  intros Ht Hoff Hd Hd6 Hr. unfold load_rest. destruct (le_proc env) eqn:Ep; cbn [negb]; cbv iota.
  2:{ destruct (metrics_err_spec env (- ENOMEM) s Ht) as (w & s' & Hex & Hg & Hr').
      exists (- ENOMEM), s'. split; [done |]. apply completes_error; [done | intuition congruence |]. intros _.
      split; [intros r; rewrite Hr', Hr; by destruct (decide _) |]. rewrite Hg. exact Hoff. }
  lstep. destruct (le_sysctl env) eqn:Es; cbn [negb]; cbv iota.
  2:{ unfold sysctl_err. lstep.
      match goal with |- context [metrics_err _ _ ?x] => destruct (metrics_err_spec env (- ENOMEM) x Ht) as (w & s' & Hex & Hg & Hr') end.
      exists (- ENOMEM), s'. split; [done |]. apply completes_error; [done | intuition congruence |]. intros _.
      split; [intros r; rewrite Hr'; simpl; rewrite Hr; by destruct r |]. rewrite Hg. exact Hoff. }
  lstep. match goal with |- context [load_offload _ ?x] => destruct (load_offload_spec env x Ht Hoff Hd Hd6) as (status & s' & Hex & Hc) end.
  { intros r. simpl. rewrite Hr. by destruct r. }
  exists status, s'. split; [exact Hex |]. destruct Hc as (C1 & C2 & C3). split; [rewrite C1; intuition |]. done.
Qed.

(** Unloading right after loading removes everything. *)
Lemma unload_spec env s o o6 :
  le_del env = 0 -> le_del6 env = 0 -> tables_empty (gs_w (ls_gro s)) ->
  gs_tcp_off (ls_gro s) = Some (OffHost o) -> gs_tcp6_off (ls_gro s) = Some (OffHost o6) ->
  exists s', homa_unload env s = Ok (tt, s') /\ clean s'.
Proof.
  intros Hd Hd6 Ht E1 E2. unfold homa_unload. lstep.
  assert (exists g, homa_gro_unhook_tcp (ls_gro s) = Ok (tt, g) /\ gs_w g = gs_w (ls_gro s) /\ unhooked g) as (g & Hex & Ew & Hu).
  { unfold homa_gro_unhook_tcp. erewrite bind_eq by reflexivity. rewrite E1. erewrite bind_eq by reflexivity.
    erewrite bind_eq by reflexivity. simpl. rewrite E2. eexists. split; [reflexivity |]. split; [done |]. unfold unhooked. simpl. eauto 10. }
  erewrite bind_eq by (apply ing_eq; exact Hex). rewrite Hd, Hd6.
  destruct (offload_end_regs g) as (g' & Hex' & Ew' & G4 & G6 & Gu & _).
  erewrite bind_eq by (apply ing_eq; exact Hex'). do 3 lstep.
  match goal with |- context [bind (load_destroy env) _ ?x] => destruct (load_destroy_spec env x) as [w Hexd]; [simpl; by rewrite Ew', Ew |] end.
  rewrite (bind_eq _ _ _ _ _ Hexd). do 5 lstep. eexists. split; [reflexivity |]. split; [by intros [] |]. simpl. auto.
Qed.

(** The invariants do not concern the host's data. *)
Lemma invariants_host hash f w :
  grant_state w -> socktab_ok w -> peertab_ok hash w -> tables_empty w ->
  let w' := w <| w_host ::= f |> in grant_state w' /\ socktab_ok w' /\ peertab_ok hash w' /\ tables_empty w'.
Proof.
  intros [([[Hl Hn] Ho Ht] & [Ha1 Ha2 Ha3 Ha4] & Hpar) Hg] [S1 S2 S3] [P1 P2 P3 P4 P5] (T1 & T2 & T3 & _) w'.
  by split_ands.
Qed.

Ltac load_fails :=
  eexists _, _; split; [reflexivity |]; split; [split; [done | intuition congruence] |]; split; [done |];
  intros _ _; split; [intros []; simpl; auto | done].


Definition ex_load : load_state := {|
  ls_gro := {| gs_w := ex_unloaded; gs_cores := [init_core 0; init_core 1]; gs_skbs := ∅; gs_lists := replicate 8 [];
    gs_counts := replicate 8 0; gs_bitmask := 0; gs_flow := None; gs_cpu_mask := 1; gs_up := []; gs_direct := [];
    gs_ipi_list := []; gs_ipis := []; gs_inet_off := false; gs_inet6_off := false;
    gs_inet_tcp := OffHost (Build_net_offload 1 (HostFn 2) 3); gs_inet6_tcp := OffHost (Build_net_offload 1 (HostFn 4) 3);
    gs_tcp_off := None; gs_tcp6_off := None; gs_hook := Build_net_offload 0 (HostFn 0) 0; gs_hook6 := Build_net_offload 0 (HostFn 0) 0 |};
  ls_reg := fun _ => false; ls_exiting := false |}.
(** The host lacks memory for the sysctl table. *)
Definition ex_load_env : load_env :=
  Build_load_env 0 0 0 0 0 (Build_init_env true true true 0 0) true false 0 0 0 0 0 1%positive 0 0 0.


(** When only one of the two offloads can be registered, [homa_load] fails and
    leaves the other one registered, although the module is then removed. *)
Lemma offload_leak env s :
  tables_empty (gs_w (ls_gro s)) -> le_off env = 0 -> le_off6 env <> 0 ->
  exists s', load_offload env s = Ok (le_off6 env, s') /\ gs_inet_off (ls_gro s') = true.
Proof.
  intros Ht E1 E2. unfold load_offload.
  destruct (offload_init_regs (le_off env) (le_off6 env) (ls_gro s)) as (g & Hex & (f1 & f2 & Ew) & E4 & _).
  erewrite bind_eq by (apply ing_eq; exact Hex). rewrite E1 in E4 |- *. change (negb (0 =? 0)) with false. cbv iota.
  destruct (Z.eqb_spec (le_off6 env) 0) as [|_]; [done |]. cbn [negb]. cbv iota.
  match goal with |- context [offload_err _ _ ?x] => destruct (offload_err_spec env (le_off6 env) x) as (w & s' & Hex' & Hg & _) end.
  { simpl. rewrite Ew. by apply tables_empty_host. }
  exists s'. split; [done |]. by rewrite Hg.
Qed.

(** ** Threads *)

(** After [homa_pacer_stop] the pacer thread does nothing more than end, and
    records that it is not running. *)
Lemma pacer_stops l w :
  exists w1 w2, homa_pacer_stop w = Ok (tt, w1) /\ pacer_rounds l w1 = Ok (true, w2) /\
    h_pacer_wake_time (w_homa w2) = 0 /\ w_rpcs w2 = w_rpcs w /\ w_host w2 = w_host w.
Proof. eexists _, _. split; [reflexivity |]. destruct l as [|[] l]; (split; [reflexivity |]; done). Qed.

(** The timer thread runs [homa_timer] once per wake-up until [exiting] is
    set. *)
Lemma timer_main_spec tick n rest : forall w,
  homa_timer_main tick (replicate n false ++ true :: rest) w = mapM_ (fun _ => tick) (replicate n tt) w.
Proof.
  induction n as [|n IH]; intros w; [done |]. cbn [replicate app homa_timer_main mapM_].
  apply bind_ext. intros _ w'. apply IH.
Qed.
