(* ===== verification/TimeTrace.v ===== *)
(** * Time traces (timetrace.c, timetrace.h)

    Circular buffers of events, one per core, and the file from which their
    merged contents are read. *)
From S2P Require Import Prelude Lists Types.

(** ** Data *)

(** [ev_format] is [None] for NULL; the format is a pointer to a string. *)
Record tt_event := { ev_timestamp : Z; ev_format : option Z; ev_args : list Z }.
#[export] Instance eta_tt_event : Eta tt_event := fun r => Build_tt_event (ev_timestamp r) (ev_format r) (ev_args r).
Record tt_buffer := { tb_next_index : Z; tb_events : list tt_event }.
#[export] Instance eta_tt_buffer : Eta tt_buffer := fun r => Build_tt_buffer (tb_next_index r) (tb_events r).

(** An open file: [pf_pending] are the [bytes_available] bytes at [next_byte],
    which is [pf_next] bytes after the start of [msg_storage]. *)
Record tt_proc_file := { pf_pos : list Z; pf_pending : list Z; pf_next : Z }.
#[export] Instance eta_tt_proc_file : Eta tt_proc_file := fun r => Build_tt_proc_file (pf_pos r) (pf_pending r) (pf_next r).

(** The variables of timetrace.c; [tt_dir_entry] is whether the file exists,
    [tt_files] are the [private_data] of open
    files, and [tt_log] is the output of [tt_printk] and [tt_print_file]. *)
Record tt_state := {
  tt_buffers : list (option tt_buffer); tt_freeze_count : Z; tt_frozen : bool; tt_init_ : bool;
  tt_dir_entry : bool; tt_buffer_size : Z; tt_pf_storage : Z; tt_files : gmap ptr tt_proc_file;
  tt_printk_active : bool; tt_print_file_active : bool; tt_log : list (list Z)
}.
#[export] Instance eta_tt_state : Eta tt_state := fun r =>
  Build_tt_state (tt_buffers r) (tt_freeze_count r) (tt_frozen r) (tt_init_ r) (tt_dir_entry r) (tt_buffer_size r)
    (tt_pf_storage r) (tt_files r) (tt_printk_active r) (tt_print_file_active r) (tt_log r).

Definition TM := ST tt_state.
Definition tget {A} (f : tt_state -> A) : TM A := fun s => Ok (f s, s).
Definition tupd (f : tt_state -> tt_state) : TM unit := fun s => Ok (tt, f s).
Definition get_buf (i : Z) : TM tt_buffer :=
  let* l := tget tt_buffers in
  let* o := lift (arr l i) in
  lift (get BadPointer o).
Definition set_buf (i : Z) (o : option tt_buffer) : TM unit :=
  let* l := tget tt_buffers in
  let* l := lift (arr_set l i o) in
  tupd (fun s => s <| tt_buffers := l |>).
Definition tt_nr_cpu_ids : TM Z := tget (fun s => Z.of_nat (length (tt_buffers s))).

(** ** Recording *)
Definition null_event : tt_event := Build_tt_event 0 None [0; 0; 0; 0].
Definition empty_buffer (size : Z) : tt_buffer := Build_tt_buffer 0 (replicate (Z.to_nat size) null_event).

(** The slot after [i]. *)
Definition next_slot (size i : Z) : Z := Z.land (i + 1) (size - 1).

Definition tt_record_buf (core : Z) (event : tt_event) : TM unit :=
  let* count := tget tt_freeze_count in
  if count >? 0 then ret tt else
  let* size := tget tt_buffer_size in
  let* buffer := get_buf core in
  let* l := lift (arr_set (tb_events buffer) (tb_next_index buffer) event) in
  set_buf core (Some (Build_tt_buffer (next_slot size (tb_next_index buffer)) l)).

(** [tt_init]: [mem] says which allocations succeed, [proc_file] whether a file
    is wanted, [created] whether the host creates it. *)
Fixpoint tt_alloc (mem : list bool) (i : Z) : TM bool :=
  match mem with
  | [] => ret true
  | false :: _ => ret false
  | true :: mem =>
      let* size := tget tt_buffer_size in
      set_buf i (Some (empty_buffer size)) ;;;
      tt_alloc mem (i + 1)
  end.

Definition tt_free_buffers : TM unit := tupd (fun s => s <| tt_buffers ::= fmap (fun _ => None) |>).

Definition tt_init (mem : list bool) (proc_file created : bool) : TM Z :=
  let* init := tget tt_init_ in
  if init : bool then ret 0 else
  let* ok := tt_alloc mem 0 in
  if negb ok || (proc_file && negb created) then (tt_free_buffers ;;; ret (-1)) else
  tupd (fun s => s <| tt_dir_entry := proc_file |> <| tt_freeze_count := 0 |> <| tt_frozen := false |> <| tt_init_ := true |>) ;;;
  ret 0.

Definition tt_destroy : TM unit :=
  tupd (fun s => if tt_init_ s then s <| tt_init_ := false |> <| tt_dir_entry := false |> else s) ;;;
  tt_free_buffers ;;;
  tupd (fun s => s <| tt_freeze_count := 1 |>).

(** [tt_freeze] on core [core]; [event] is "timetrace frozen". *)
Definition tt_freeze (core : Z) (event : tt_event) : TM unit :=
  let* frozen := tget tt_frozen in
  if frozen : bool then ret tt else
  tt_record_buf core event ;;;
  tupd (fun s => if tt_frozen s then s else s <| tt_frozen := true |> <| tt_freeze_count ::= fun n => n + 1 |>).

(** ** Finding the oldest events *)

(** The first loop: the positions in the buffers from [i] on, and the start
    time. *)
Fixpoint oldest_loop (n : nat) (i start_time : Z) : TM (list Z * Z) :=
  match n with
  | O => ret ([], start_time)
  | S n =>
      let* size := tget tt_buffer_size in
      let* buffer := get_buf i in
      let* last := lift (arr (tb_events buffer) (size - 1)) in
      let* r := match ev_format last with
        | None => ret (0, start_time)
        | Some _ =>
            let index := next_slot size (tb_next_index buffer) in
            let* event := lift (arr (tb_events buffer) index) in
            ret (index, if ev_timestamp event >? start_time then ev_timestamp event else start_time)
        end in
      let '(pos, start_time) := r in
      let* r := oldest_loop n (i + 1) start_time in
      ret (pos :: r.1, r.2)
  end.

(** Skipping the events of a buffer before [start_time]. *)
Fixpoint skip_loop (fuel : nat) (buffer : tt_buffer) (size start_time pos : Z) : result Z :=
  let! event := arr (tb_events buffer) pos in
  if (ev_timestamp event <? start_time) && negb (pos =? tb_next_index buffer) then
    match fuel with
    | O => Fault OutOfFuel
    | S fuel => skip_loop fuel buffer size start_time (next_slot size pos)
    end
  else Ok pos.

Fixpoint skip_all (i start_time : Z) (pos : list Z) : TM (list Z) :=
  match pos with
  | [] => ret []
  | p :: pos =>
      let* size := tget tt_buffer_size in
      let* buffer := get_buf i in
      let* p := lift (skip_loop (Z.to_nat size) buffer size start_time p) in
      let* pos := skip_all (i + 1) start_time pos in
      ret (p :: pos)
  end.

Definition tt_find_oldest : TM (list Z) :=
  let* n := tt_nr_cpu_ids in
  let* r := oldest_loop (Z.to_nat n) 0 0 in
  skip_all 0 r.2 r.1.

(** ** Reading *)

(** The core with the earliest event; [best] is the best core so far and
    [time] its time. *)
Fixpoint earliest (i : Z) (pos : list Z) (best : option Z) (time : Z) : TM (option Z) :=
  match pos with
  | [] => ret best
  | p :: pos =>
      let* buffer := get_buf i in
      let* event := lift (arr (tb_events buffer) p) in
      if negb (p =? tb_next_index buffer) && (ev_timestamp event <? time)
      then earliest (i + 1) pos (Some i) (ev_timestamp event)
      else earliest (i + 1) pos best time
  end.

(** The next event, and the positions after it. *)
Definition next_event (pos : list Z) : TM (option (Z * tt_event * list Z)) :=
  let* size := tget tt_buffer_size in
  let* core := earliest 0 pos None (2 ^ 64 - 1) in
  match core with
  | None => ret None
  | Some core =>
      let* p := lift (arr pos core) in
      let* buffer := get_buf core in
      let* event := lift (arr (tb_events buffer) p) in
      let* pos := lift (arr_set pos core (next_slot size p)) in
      ret (Some (core, event, pos))
  end.

Definition blen (l : list Z) : Z := Z.of_nat (length l).

Section text.
(** The texts that the host's [snprintf] makes: of the line with the clock
    rate, of the time and core of an event, and of its message. *)
Variables (header : list Z) (pre msg : Z -> tt_event -> list Z).

Definition newline : Z := 10.

Definition tt_proc_open (file : ptr) (mem : bool) : TM Z :=
  let* init := tget tt_init_ in
  if negb init then ret (- EINVAL) else
  if negb mem then ret (- ENOMEM) else
  tupd (fun s => s <| tt_freeze_count ::= fun n => n + 1 |>) ;;;
  let* pos := tt_find_oldest in
  tupd (fun s => s <| tt_files ::= insert file (Build_tt_proc_file pos header 0) |>) ;;;
  ret 0.

(** Formatting the next event into the storage of size [storage]; [None]: there
    is no event, or no room for it. *)
Definition format_event (storage : Z) (pf : tt_proc_file) (ev : option (Z * tt_event * list Z)) : option tt_proc_file :=
  match ev with
  | None => None
  | Some (core, event, pos) =>
      let available := storage - (pf_next pf + blen (pf_pending pf)) in
      if available =? 0 then None else
      let prefix := pre core event in
      let entry_length := if available >=? blen prefix then blen prefix + blen (msg core event) else blen prefix in
      if (entry_length >=? available) && negb (blen (pf_pending pf) =? 0) then None else
      let entry_length := if entry_length >=? available then available - 1 else entry_length in
      Some (Build_tt_proc_file pos
        (pf_pending pf ++ take (Z.to_nat entry_length) (prefix ++ msg core event) ++ [newline]) (pf_next pf))
  end.

(** The loop of [tt_proc_read]: [out] has been copied; [fail n] is what
    [copy_to_user] returns for [n] bytes. *)
Fixpoint read_loop (fuel : nat) (fail : Z -> Z) (length_ : Z) (pf : tt_proc_file) (out : list Z) : TM (Z * list Z * tt_proc_file) :=
  let* storage := tget tt_pf_storage in
  let* ev := next_event (pf_pos pf) in
  match fuel with
  | O => raise OutOfFuel
  | S fuel =>
      match format_event storage pf ev with
      | Some pf => read_loop fuel fail length_ pf out
      | None =>
          let chunk_size := if blen (pf_pending pf) >? length_ - blen out then length_ - blen out else blen (pf_pending pf) in
          if chunk_size =? 0 then ret (blen out, out, pf) else
          let failed_to_copy := fail chunk_size in
          let chunk_size := chunk_size - failed_to_copy in
          let out := out ++ take (Z.to_nat chunk_size) (pf_pending pf) in
          let pending := drop (Z.to_nat chunk_size) (pf_pending pf) in
          let pf := Build_tt_proc_file (pf_pos pf) pending (if blen pending =? 0 then 0 else pf_next pf + chunk_size) in
          if negb (failed_to_copy =? 0) then ret (if blen out =? 0 then - EFAULT else blen out, out, pf)
          else read_loop fuel fail length_ pf out
      end
  end.

Definition tt_proc_read (fail : Z -> Z) (file : ptr) (length_ : Z) : TM (Z * list Z) :=
  let* files := tget tt_files in
  match files !! file with
  | None => ret (- EINVAL, [])
  | Some pf =>
      let* init := tget tt_init_ in
      if negb init then ret (0, []) else
      let* nr := tt_nr_cpu_ids in
      let* size := tget tt_buffer_size in
      let* r := read_loop (Z.to_nat (2 * (nr * size) + 3)) fail length_ pf [] in
      let '(n, out, pf) := r in
      tupd (fun s => s <| tt_files ::= insert file pf |>) ;;;
      ret (n, out)
  end.

Definition tt_proc_lseek : TM Z := ret 0.

Fixpoint reset_buffers (n : nat) (i : Z) : TM unit :=
  match n with
  | O => ret tt
  | S n =>
      let* size := tget tt_buffer_size in
      let* buffer := get_buf i in
      let* last := lift (arr (tb_events buffer) (size - 1)) in
      let* l := lift (arr_set (tb_events buffer) (size - 1) (last <| ev_format := None |>)) in
      set_buf i (Some (Build_tt_buffer 0 l)) ;;;
      reset_buffers n (i + 1)
  end.

Definition tt_proc_release (file : ptr) : TM Z :=
  let* files := tget tt_files in
  match files !! file with
  | None => ret (- EINVAL)
  | Some _ =>
      tupd (fun s => s <| tt_files ::= delete file |>) ;;;
      let* init := tget tt_init_ in
      (if init : bool then
         tupd (fun s => if tt_frozen s && (tt_freeze_count s =? 2)
           then s <| tt_freeze_count ::= fun n => n - 1 |> <| tt_frozen := false |> else s) ;;;
         let* count := tget tt_freeze_count in
         let* nr := tt_nr_cpu_ids in
         (if count =? 1 then reset_buffers (Z.to_nat nr) 0 else ret tt) ;;;
         tupd (fun s => s <| tt_freeze_count ::= fun n => n - 1 |>)
       else ret tt) ;;;
      ret 0
  end.

(** ** Printing *)

(** The loop of [tt_printk]: one line per event. *)
Fixpoint printk_loop (fuel : nat) (pos : list Z) : TM unit :=
  let* ev := next_event pos in
  match ev, fuel with
  | None, _ => ret tt
  | Some _, O => raise OutOfFuel
  | Some (core, event, pos), S fuel =>
      tupd (fun s => s <| tt_log ::= fun l => l ++ [pre core event ++ take 199 (msg core event)] |>) ;;;
      printk_loop fuel pos
  end.

Definition tt_printk : TM unit :=
  let* active := tget tt_printk_active in
  tupd (fun s => s <| tt_printk_active := true |>) ;;;
  if active : bool then ret tt else
  let* init := tget tt_init_ in
  if negb init then ret tt else
  tupd (fun s => s <| tt_freeze_count ::= fun n => n + 1 |>) ;;;
  let* pos := tt_find_oldest in
  tupd (fun s => s <| tt_log ::= fun l => l ++ [header] |>) ;;;
  let* nr := tt_nr_cpu_ids in
  let* size := tget tt_buffer_size in
  printk_loop (Z.to_nat (nr * size)) pos ;;;
  tupd (fun s => s <| tt_freeze_count ::= fun n => n - 1 |> <| tt_printk_active := false |>).

(** [snprintf] at the end of a buffer of 10000 bytes, of which [buf] are used:
    a text that does not fit makes the number of bytes used larger than the
    buffer. *)
Definition FILE_BUF : Z := 10000.
Definition append_text (buf text : list Z) : result (list Z) :=
  let room := FILE_BUF - blen buf in
  if (blen text <? room) || (blen text =? 0) then Ok (buf ++ text)
  else if blen text =? room then Ok (buf ++ take (Z.to_nat (room - 1)) text ++ [0])
  else Fault ArrayBounds.

(** The loop of [tt_print_file]: [write n] is what [kernel_write] returns for
    [n] bytes.  The result is [false] after an error. *)
Fixpoint file_loop (fuel : nat) (write : Z -> Z) (buf : list Z) (pos : list Z) : TM (bool * list Z) :=
  let* ev := next_event pos in
  match ev, fuel with
  | None, _ => ret (true, buf)
  | Some _, O => raise OutOfFuel
  | Some (core, event, pos), S fuel =>
      let* buf := lift (append_text buf (pre core event)) in
      let* buf := lift (append_text buf (msg core event)) in
      let buf := if blen buf <? FILE_BUF then buf ++ [newline] else buf in
      if blen buf + 1000 >=? FILE_BUF then
        if write (blen buf) <? 0 then ret (false, buf)
        else (tupd (fun s => s <| tt_log ::= fun l => l ++ [buf] |>) ;;; file_loop fuel write [] pos)
      else file_loop fuel write buf pos
  end.

(** [tt_print_file]; [opened] is whether the file can be opened. *)
Definition tt_print_file (opened : bool) (write : Z -> Z) : TM unit :=
  let* active := tget tt_print_file_active in
  tupd (fun s => s <| tt_print_file_active := true |>) ;;;
  if active : bool then ret tt else
  let* init := tget tt_init_ in
  if negb init then ret tt else
  (if negb opened then ret tt else
   tupd (fun s => s <| tt_freeze_count ::= fun n => n + 1 |>) ;;;
   let* pos := tt_find_oldest in
   let* nr := tt_nr_cpu_ids in
   let* size := tget tt_buffer_size in
   let* r := file_loop (Z.to_nat (nr * size)) write header pos in
   if r.1 && (blen r.2 >? 0) && (write (blen r.2) >=? 0)
   then tupd (fun s => s <| tt_log ::= fun l => l ++ [r.2] |>) else ret tt) ;;;
  tupd (fun s => s <| tt_freeze_count ::= fun n => n - 1 |> <| tt_print_file_active := false |>).

(** The loop of [tt_get_messages]: [snprintf] into what is left of the
    [length_] bytes; the result is [false] if the text was cut. *)
Definition put_text (length_ : Z) (out text : list Z) : bool * list Z :=
  if blen text >=? length_ - blen out then (false, out ++ take (Z.to_nat (length_ - blen out - 1)) text) else (true, out ++ text).

Fixpoint messages_loop (fuel : nat) (length_ : Z) (pos : list Z) (printed : list Z) : TM (list Z) :=
  let* ev := next_event pos in
  match ev, fuel with
  | None, _ => ret printed
  | Some _, O => raise OutOfFuel
  | Some (core, event, pos), S fuel =>
      let '(ok, printed) := if blen printed >? 0 then put_text length_ printed [59; 32] else (true, printed) in
      if negb ok then ret printed else
      let '(ok, printed) := put_text length_ printed (msg core event) in
      if negb ok then ret printed else messages_loop fuel length_ pos printed
  end.

(** [tt_get_messages] returns the text it leaves in the buffer; [mem] is
    whether there is memory for the positions, which is not checked. *)
Definition tt_get_messages (mem : bool) (length_ : Z) : TM (list Z) :=
  let* init := tget tt_init_ in
  if negb init then ret [] else
  if negb mem then raise BadPointer else
  tupd (fun s => s <| tt_freeze_count ::= fun n => n + 1 |>) ;;;
  let* pos := tt_find_oldest in
  let* nr := tt_nr_cpu_ids in
  let* size := tget tt_buffer_size in
  let* out := messages_loop (Z.to_nat (nr * size)) length_ pos [] in
  tupd (fun s => s <| tt_freeze_count ::= fun n => n - 1 |>) ;;;
  ret out.

End text.

(** ** Counters of the kernel *)

(** The counters of [homa_metrics] that kernel code outside Homa increments. *)
Record kernel_metrics := { km_napi_ns : Z; km_linux_softirq_ns : Z; km_linux_pkt_alloc_bytes : Z }.
#[export] Instance eta_kernel_metrics : Eta kernel_metrics := fun r =>
  Build_kernel_metrics (km_napi_ns r) (km_linux_softirq_ns r) (km_linux_pkt_alloc_bytes r).

Definition tt_inc_metric (metric count : Z) (m : kernel_metrics) : result kernel_metrics :=
  if metric =? 0 then Ok (m <| km_napi_ns ::= fun n => u64 (n + count) |>)
  else if metric =? 1 then Ok (m <| km_linux_softirq_ns ::= fun n => u64 (n + count) |>)
  else if metric =? 2 then Ok (m <| km_linux_pkt_alloc_bytes ::= fun n => u64 (n + count) |>)
  else Fault ArrayBounds.
