(* ===== verification/TimeTraceRead.v ===== *)
(** * Time traces: what is recorded is what is read

    The buffers keep the latest events, reading merges them by time, and the
    bytes that successive reads return are the text of the merged trace. *)
From S2P Require Import Prelude Lists Types TimeTrace.

(** ** The events that are left in a buffer *)
Definition buf_ok (size : Z) (b : tt_buffer) : Prop :=
  Z.of_nat (length (tb_events b)) = size /\ 0 <= tb_next_index b < size.

Definition pow2 (size : Z) : Prop := exists k, 0 < k /\ size = 2 ^ k.

Lemma pow2_pos size : pow2 size -> 2 <= size.
Proof. intros (k & Hk & ->). change 2 with (2 ^ 1) at 1. apply Z.pow_le_mono_r; lia. Qed.

Lemma next_slot_mod size i : pow2 size -> next_slot size i = (i + 1) mod size.
Proof.
  intros (k & Hk & ->). unfold next_slot. rewrite <- (Z.land_ones (i + 1) k) by lia. f_equal. rewrite Z.ones_equiv. lia.
Qed.

Lemma next_slot_range size i : pow2 size -> 0 <= next_slot size i < size.
Proof. intros H. rewrite next_slot_mod by done. apply Z.mod_pos_bound. pose proof (pow2_pos _ H). lia. Qed.

(** [n] events from position [pos] on. *)
Fixpoint run (size : Z) (events : list tt_event) (pos : Z) (n : nat) : list tt_event :=
  match n with O => [] | S n => default null_event (events !! Z.to_nat pos) :: run size events (next_slot size pos) n end.

Definition remaining (size : Z) (b : tt_buffer) (pos : Z) : list tt_event :=
  run size (tb_events b) pos (Z.to_nat ((tb_next_index b - pos) mod size)).

Lemma remaining_nil size b : remaining size b (tb_next_index b) = [].
Proof. unfold remaining. by rewrite Z.sub_diag, Zmod_0_l. Qed.

Lemma remaining_cons size b pos e :
  pow2 size -> buf_ok size b -> 0 <= pos < size -> pos <> tb_next_index b -> tb_events b !! Z.to_nat pos = Some e ->
  remaining size b pos = e :: remaining size b (next_slot size pos).
Proof.
  intros Hs [_ Hn] Hp Hne He. pose proof (pow2_pos _ Hs). unfold remaining. rewrite next_slot_mod by done.
  set (d := (tb_next_index b - pos) mod size).
  assert (0 < d < size) as Hd.
  { pose proof (Z.mod_pos_bound (tb_next_index b - pos) size ltac:(lia)). enough (d <> 0) by (unfold d in *; lia).
    intros E. unfold d in E. apply Z.mod_divide in E as [x Hx]; [|lia]. assert (x = 0) by nia. lia. }
  assert ((tb_next_index b - (pos + 1) mod size) mod size = d - 1) as ->.
  { rewrite Zminus_mod_idemp_r. replace (tb_next_index b - (pos + 1)) with (tb_next_index b - pos - 1) by lia.
    rewrite <- Zminus_mod_idemp_l. fold d. apply Z.mod_small. lia. }
  replace (Z.to_nat d) with (S (Z.to_nat (d - 1))) by lia. cbn [run]. rewrite He. simpl. by rewrite next_slot_mod.
Qed.

(** ** Merging *)

(** The list with the earliest head, as [earliest] looks for it. *)
Fixpoint pick (i : Z) (ls : list (list tt_event)) (best : option Z) (time : Z) : option Z :=
  match ls with
  | [] => best
  | (e :: _) :: ls => if ev_timestamp e <? time then pick (i + 1) ls (Some i) (ev_timestamp e) else pick (i + 1) ls best time
  | [] :: ls => pick (i + 1) ls best time
  end.

Fixpoint merge (n : nat) (ls : list (list tt_event)) : list (Z * tt_event) :=
  match n with
  | O => []
  | S n =>
      match pick 0 ls None (2 ^ 64 - 1) with
      | None => []
      | Some c => match ls !! Z.to_nat c with
        | Some (e :: l) => (c, e) :: merge n (<[Z.to_nat c := l]> ls)
        | _ => []
        end
      end
  end.

Definition total (ls : list (list tt_event)) : nat := length (concat ls).
Definition merged (ls : list (list tt_event)) : list (Z * tt_event) := merge (total ls) ls.

Definition timely (ls : list (list tt_event)) : Prop := Forall (Forall (fun e => ev_timestamp e < 2 ^ 64 - 1)) ls.

(** The head of list [c] is the first one with the smallest time. *)
Lemma pick_spec ls : forall i best time,
  match pick i ls best time with
  | None => best = None /\ Forall (fun l => match l with e :: _ => time <= ev_timestamp e | [] => True end) ls
  | Some c =>
      best = Some c /\ Forall (fun l => match l with e :: _ => time <= ev_timestamp e | [] => True end) ls \/
      exists j e l, c = i + Z.of_nat j /\ ls !! j = Some (e :: l) /\ ev_timestamp e < time /\
        Forall (fun l => match l with x :: _ => ev_timestamp e <= ev_timestamp x | [] => True end) ls
  end.
Proof.
  induction ls as [|l ls IH]; intros i best time; cbn [pick]; [destruct best; auto |].
  assert (forall best time, match l with e :: _ => time <= ev_timestamp e | [] => True end ->
    match pick (i + 1) ls best time with
    | None => best = None /\ Forall (fun l => match l with e :: _ => time <= ev_timestamp e | [] => True end) (l :: ls)
    | Some c =>
      best = Some c /\ Forall (fun l => match l with e :: _ => time <= ev_timestamp e | [] => True end) (l :: ls) \/
      exists j e l', c = i + Z.of_nat j /\ (l :: ls) !! j = Some (e :: l') /\ ev_timestamp e < time /\
        Forall (fun l => match l with x :: _ => ev_timestamp e <= ev_timestamp x | [] => True end) (l :: ls)
    end) as Hrest.
  { intros b t Hl. specialize (IH (i + 1) b t). destruct (pick (i + 1) ls b t) as [c|].
    - destruct IH as [[-> H] | (j & e & l' & -> & Hj & Ht & H)]; [left; by auto |].
      right. exists (S j), e, l'. split_ands; [lia | done | done |]. constructor; [|done]. destruct l; [done | lia].
    - destruct IH as [-> H]. split; [done |]. by constructor. }
  destruct l as [|e l]; [by apply Hrest |]. destruct (Z.ltb_spec (ev_timestamp e) time) as [Hlt | Hge]; [|by apply Hrest].
  specialize (Hrest (Some i) (ev_timestamp e) ltac:(lia)). destruct (pick (i + 1) ls (Some i) (ev_timestamp e)) as [c|];
    [|by destruct Hrest]. right.
  destruct Hrest as [[[= <-] H] | (j & e' & l' & -> & Hj & Ht & H)].
  - exists 0%nat, e, l. split_ands; [lia | done | done | done].
  - exists j, e', l'. split_ands; [done | done | lia | done].
Qed.

Lemma pick_none ls : timely ls -> pick 0 ls None (2 ^ 64 - 1) = None -> concat ls = [].
Proof.
  intros Ht Hp. pose proof (pick_spec ls 0 None (2 ^ 64 - 1)) as H. rewrite Hp in H. destruct H as [_ H].
  clear Hp. induction H as [|l ls Hl _ IH]; [done |]. inversion_clear Ht as [|? ? Hl' Hls]. simpl. rewrite IH by done.
  destruct l as [|e l]; [done |]. inversion_clear Hl'. lia.
Qed.

Lemma pick_some ls c : pick 0 ls None (2 ^ 64 - 1) = Some c ->
  exists e l, 0 <= c /\ ls !! Z.to_nat c = Some (e :: l) /\
    Forall (fun l => match l with x :: _ => ev_timestamp e <= ev_timestamp x | [] => True end) ls.
Proof.
  intros Hp. pose proof (pick_spec ls 0 None (2 ^ 64 - 1)) as H. rewrite Hp in H.
  destruct H as [[[=] _] | (j & e & l & -> & Hj & _ & H)]. exists e, l. split_ands; [lia | by rewrite Z.add_0_l, Nat2Z.id | done].
Qed.

Lemma concat_insert (ls : list (list tt_event)) c e l :
  ls !! c = Some (e :: l) -> concat ls ≡ₚ e :: concat (<[c := l]> ls).
Proof.
  intros H. destruct (bind_insert id ls c _ H) as (rest & E & E').
  assert (forall k : list (list tt_event), concat k = k ≫= id) as Ec by (intros k; induction k as [|x k IH]; [done | simpl; by rewrite IH]).
  rewrite !Ec, E, E'. done.
Qed.

Lemma total_insert ls c e l : ls !! c = Some (e :: l) -> total ls = S (total (<[c := l]> ls)).
Proof. intros H. unfold total. by rewrite (concat_insert _ _ _ _ H). Qed.

Lemma timely_insert ls c e l : timely ls -> ls !! c = Some (e :: l) -> timely (<[c := l]> ls).
Proof.
  intros Ht H. apply Forall_insert; [done |]. pose proof (proj1 (Forall_lookup _ _) Ht _ _ H) as Hl. by inversion_clear Hl.
Qed.

(** The merged list has exactly the events of the lists. *)
Lemma merged_perm n : forall ls, timely ls -> n = total ls -> (merge n ls).*2 ≡ₚ concat ls.
Proof.
  induction n as [|n IH]; intros ls Ht Hn; cbn [merge].
  - symmetry in Hn. apply length_zero_iff_nil in Hn. by rewrite Hn.
  - destruct (pick 0 ls None (2 ^ 64 - 1)) as [c|] eqn:Ep.
    + destruct (pick_some ls c Ep) as (e & l & _ & Hl & _). rewrite Hl. rewrite (concat_insert _ _ _ _ Hl). cbn [fmap list_fmap].
      f_equiv. apply IH; [by eapply timely_insert |]. rewrite (total_insert _ _ _ _ Hl) in Hn. lia.
    + by rewrite (pick_none ls Ht Ep).
Qed.

Definition by_time (e x : tt_event) : Prop := ev_timestamp e <= ev_timestamp x.

Lemma sorted_heads ls e : Forall (Sorted by_time) ls ->
  Forall (fun l => match l with x :: _ => ev_timestamp e <= ev_timestamp x | [] => True end) ls ->
  Forall (by_time e) (concat ls).
Proof.
  intros Hs. induction Hs as [|l ls Hl _ IH]; intros H; [constructor |]. inversion_clear H as [|? ? H1 H2]. simpl.
  apply Forall_app. split; [|by apply IH]. destruct l as [|x l]; [constructor |].
  apply Sorted_StronglySorted in Hl; [|intros a b c; unfold by_time; lia]. inversion_clear Hl as [|? ? _ Hx].
  constructor; [done |]. eapply Forall_impl; [exact Hx |]. unfold by_time. intros y Hy. lia.
Qed.

(** The merged list is sorted when the lists are. *)
Lemma merged_sorted n : forall ls, timely ls -> n = total ls -> Forall (Sorted by_time) ls -> StronglySorted by_time (merge n ls).*2.
Proof.
  induction n as [|n IH]; intros ls Ht Hn Hs; cbn [merge]; [constructor |].
  destruct (pick 0 ls None (2 ^ 64 - 1)) as [c|] eqn:Ep; [|constructor].
  destruct (pick_some ls c Ep) as (e & l & _ & Hl & Hmin). rewrite Hl. cbn [fmap list_fmap].
  assert (n = total (<[Z.to_nat c := l]> ls)) as Hn' by (rewrite (total_insert _ _ _ _ Hl) in Hn; lia).
  pose proof (timely_insert _ _ _ _ Ht Hl) as Ht'.
  assert (Forall (Sorted by_time) (<[Z.to_nat c := l]> ls)) as Hs'.
  { apply Forall_insert; [done |]. pose proof (proj1 (Forall_lookup _ _) Hs _ _ Hl) as H. by inversion_clear H. }
  constructor; [by apply IH |]. simpl. rewrite (merged_perm n _ Ht' Hn').
  pose proof (sorted_heads ls e Hs Hmin) as Hall. rewrite (concat_insert _ _ _ _ Hl) in Hall. by inversion_clear Hall.
Qed.

(** ** The next event *)
Definition bufs_ok (s : tt_state) (bufs : list tt_buffer) : Prop :=
  pow2 (tt_buffer_size s) /\ tt_buffers s = Some <$> bufs /\ Forall (buf_ok (tt_buffer_size s)) bufs.
Definition pos_ok (s : tt_state) (bufs : list tt_buffer) (pos : list Z) : Prop :=
  length pos = length bufs /\ Forall (fun p => 0 <= p < tt_buffer_size s) pos.
(** The events that are left to read. *)
Definition left_ (s : tt_state) (bufs : list tt_buffer) (pos : list Z) : list (list tt_event) :=
  zip_with (remaining (tt_buffer_size s)) bufs pos.

Lemma get_buf_eq s bufs i b : tt_buffers s = Some <$> bufs -> 0 <= i -> bufs !! Z.to_nat i = Some b -> get_buf i s = Ok (b, s).
Proof.
  intros E Hi Hb. unfold get_buf. erewrite bind_eq by reflexivity. rewrite E.
  erewrite bind_eq by (unfold lift; rewrite (proj2 (arr_Ok _ i (Some b))) by (split; [done | by rewrite list_lookup_fmap, Hb]); reflexivity).
  done.
Qed.

Lemma drop_cons_inv {A} (l : list A) i b k : 0 <= i -> drop (Z.to_nat i) l = b :: k -> l !! Z.to_nat i = Some b /\ drop (Z.to_nat (i + 1)) l = k.
Proof.
  intros Hi Hd. split; [rewrite <- (Nat.add_0_r (Z.to_nat i)), <- lookup_drop, Hd; done |].
  replace (Z.to_nat (i + 1)) with (Z.to_nat i + 1)%nat by lia. rewrite <- drop_drop, Hd. done.
Qed.

Lemma earliest_pick s bufs : bufs_ok s bufs -> forall pos i bs best time,
  0 <= i -> drop (Z.to_nat i) bufs = bs -> length pos = length bs -> Forall (fun p => 0 <= p < tt_buffer_size s) pos ->
  earliest i pos best time s = Ok (pick i (zip_with (remaining (tt_buffer_size s)) bs pos) best time, s).
Proof.
  intros (Hp & Eb & Hok). induction pos as [|p pos IH]; intros i bs best time Hi Hd Hl Hr; cbn [earliest].
  { by destruct bs. }
  destruct bs as [|b bs]; [done |]. inversion_clear Hr as [|? ? Hp0 Hr'].
  destruct (drop_cons_inv bufs i b bs Hi Hd) as [Hb Hd'].
  pose proof (proj1 (Forall_lookup _ _) Hok _ _ Hb) as Hbo. pose proof Hbo as [Hlen Hn].
  rewrite (bind_eq _ _ _ _ _ (get_buf_eq s bufs i b Eb Hi Hb)).
  destruct (lookup_lt_is_Some_2 (tb_events b) (Z.to_nat p)) as [e He]; [lia |].
  erewrite bind_eq by (unfold lift; rewrite (proj2 (arr_Ok _ p e) (conj (proj1 Hp0) He)); reflexivity).
  cbn [zip_with pick]. destruct (Z.eqb_spec p (tb_next_index b)) as [-> | Hne]; cbn [negb andb].
  - rewrite remaining_nil. apply IH; try done; lia || (simpl in Hl; lia).
  - rewrite (remaining_cons _ _ _ e) by done. destruct (ev_timestamp e <? time); apply IH; try done; lia || (simpl in Hl; lia).
Qed.

Definition bufs_timely (bufs : list tt_buffer) : Prop :=
  Forall (fun b => Forall (fun e => ev_timestamp e < 2 ^ 64 - 1) (tb_events b)) bufs.

Lemma run_timely size events n : forall pos,
  Forall (fun e => ev_timestamp e < 2 ^ 64 - 1) events -> Forall (fun e => ev_timestamp e < 2 ^ 64 - 1) (run size events pos n).
Proof.
  induction n as [|n IH]; intros pos H; cbn [run]; constructor; [|by apply IH].
  destruct (events !! Z.to_nat pos) as [e|] eqn:E; [|done]. exact (proj1 (Forall_lookup _ _) H _ _ E).
Qed.

Lemma left_timely s bufs pos : bufs_timely bufs -> timely (left_ s bufs pos).
Proof.
  unfold left_. intros H. revert pos. induction H as [|b bufs Hb _ IH]; intros [|p pos]; cbn [zip_with]; constructor;
    [by apply run_timely | apply IH].
Qed.

Lemma left_lookup s bufs pos c x : left_ s bufs pos !! c = Some x ->
  exists b p, bufs !! c = Some b /\ pos !! c = Some p /\ x = remaining (tt_buffer_size s) b p.
Proof. unfold left_. intros H. apply lookup_zip_with_Some in H as (b & p & -> & Hb & Hp). eauto. Qed.

Lemma left_insert s bufs pos c b p :
  bufs !! c = Some b -> left_ s bufs (<[c := p]> pos) = <[c := remaining (tt_buffer_size s) b p]> (left_ s bufs pos).
Proof.
  unfold left_. revert bufs c. induction pos as [|q pos IH]; intros [|b' bufs] [|c] H; simplify_eq/=; try done.
  f_equal. by apply IH.
Qed.

(** What is left to read, in order. *)
Definition trace (s : tt_state) (bufs : list tt_buffer) (pos : list Z) : list (Z * tt_event) := merged (left_ s bufs pos).

Lemma next_event_spec s bufs pos :
  bufs_ok s bufs -> bufs_timely bufs -> pos_ok s bufs pos ->
  match trace s bufs pos with
  | [] => next_event pos s = Ok (None, s)
  | (c, e) :: rest => exists pos', next_event pos s = Ok (Some (c, e, pos'), s) /\ pos_ok s bufs pos' /\ trace s bufs pos' = rest
  end.
Proof.
  intros Hb Ht [Hl Hp]. pose proof (left_timely s bufs pos Ht) as Htl. pose proof Hb as (H2 & Eb & Hok).
  pose proof (earliest_pick s bufs Hb pos 0 bufs None (2 ^ 64 - 1) ltac:(lia) eq_refl Hl Hp) as He. fold (left_ s bufs pos) in He.
  unfold next_event. erewrite bind_eq by reflexivity. rewrite (bind_eq _ _ _ _ _ He).
  unfold trace at 1, merged. destruct (pick 0 (left_ s bufs pos) None (2 ^ 64 - 1)) as [c|] eqn:Ep.
  2: { unfold total. rewrite (pick_none _ Htl Ep). done. }
  destruct (pick_some _ c Ep) as (e & l & Hc & El & _). rewrite (total_insert _ _ _ _ El). cbn [merge]. rewrite Ep, El.
  destruct (left_lookup _ _ _ _ _ El) as (b & p & Hbc & Hpc & Er).
  pose proof (proj1 (Forall_lookup _ _) Hok _ _ Hbc) as Hbo. pose proof Hbo as [Hlen _].
  pose proof (proj1 (Forall_lookup _ _) Hp _ _ Hpc) as Hpr. simpl in Hpr.
  destruct (lookup_lt_is_Some_2 (tb_events b) (Z.to_nat p)) as [e' He']; [lia |].
  assert (p <> tb_next_index b) as Hne by (intros ->; by rewrite remaining_nil in Er).
  rewrite (remaining_cons _ _ _ e') in Er by done. injection Er as <- ->.
  exists (<[Z.to_nat c := next_slot (tt_buffer_size s) p]> pos). split_ands.
  - erewrite bind_eq by (unfold lift; rewrite (proj2 (arr_Ok _ c p) (conj Hc Hpc)); reflexivity).
    rewrite (bind_eq _ _ _ _ _ (get_buf_eq s bufs c b Eb Hc Hbc)).
    erewrite bind_eq by (unfold lift; rewrite (proj2 (arr_Ok _ p e) (conj (proj1 Hpr) He')); reflexivity).
    erewrite bind_eq by (unfold lift; rewrite (proj2 (arr_set_Ok pos c (next_slot (tt_buffer_size s) p) _)) by
      (split; [apply lookup_lt_Some in Hpc; lia | reflexivity]); reflexivity). done.
  - split; [by rewrite length_insert |]. apply Forall_insert; [done | by apply next_slot_range].
  - unfold trace. rewrite (left_insert _ _ _ _ b) by done. unfold merged. done.
Qed.

(** ** Reading *)
Section reading.
Variables (header : list Z) (pre msg : Z -> tt_event -> list Z).

(** The line of an event: a line that does not fit in the storage is cut. *)
Definition line (storage : Z) (x : Z * tt_event) : list Z :=
  take (Z.to_nat (storage - 1)) (pre x.1 x.2 ++ msg x.1 x.2) ++ [newline].
Definition text (s : tt_state) (l : list (Z * tt_event)) : list Z := l ≫= line (tt_pf_storage s).
Definition unread (s : tt_state) (bufs : list tt_buffer) (pf : tt_proc_file) : list Z :=
  pf_pending pf ++ text s (trace s bufs (pf_pos pf)).

Definition pf_ok (s : tt_state) (bufs : list tt_buffer) (pf : tt_proc_file) : Prop :=
  pos_ok s bufs (pf_pos pf) /\ 0 <= pf_next pf /\ pf_next pf + blen (pf_pending pf) <= tt_pf_storage s /\
  (pf_pending pf = [] -> pf_next pf = 0).

Lemma blen_app l k : blen (l ++ k) = blen l + blen k.
Proof. unfold blen. rewrite length_app. lia. Qed.
Lemma blen_nonneg l : 0 <= blen l.
Proof. unfold blen. lia. Qed.
Lemma blen_nil l : blen l = 0 -> l = [].
Proof. unfold blen. destruct l; [done | simpl; lia]. Qed.

(** An event is formatted, or there is none, or some bytes must be copied
    first. *)
Lemma format_event_spec s bufs pf : 0 < tt_pf_storage s -> pf_ok s bufs pf -> forall c e pos,
  format_event pre msg (tt_pf_storage s) pf (Some (c, e, pos)) =
    Some (Build_tt_proc_file pos (pf_pending pf ++ line (tt_pf_storage s) (c, e)) (pf_next pf)) /\
  pf_next pf + blen (pf_pending pf ++ line (tt_pf_storage s) (c, e)) <= tt_pf_storage s \/
  format_event pre msg (tt_pf_storage s) pf (Some (c, e, pos)) = None /\ pf_pending pf <> [].
Proof.
  intros Hs (_ & Hn & Hroom & Hnil) c e pos. unfold format_event, line. simpl.
  set (av := tt_pf_storage s - (pf_next pf + blen (pf_pending pf))).
  pose proof (blen_nonneg (pre c e)) as Hp. pose proof (blen_nonneg (msg c e)) as Hm. pose proof (blen_nonneg (pf_pending pf)) as Hpend.
  set (el := if av >=? blen (pre c e) then blen (pre c e) + blen (msg c e) else blen (pre c e)).
  assert (av <= el /\ av <= blen (pre c e ++ msg c e) \/ el < av /\ el = blen (pre c e ++ msg c e)) as Hel.
  { rewrite blen_app. unfold el. destruct (Z.geb_spec av (blen (pre c e))); lia. }
  destruct (Z.eqb_spec av 0) as [E0 | N0].
  { right. split; [done |]. intros E. specialize (Hnil E). unfold av in E0. rewrite E in E0. unfold blen in E0. simpl in E0. lia. }
  destruct (Z.geb_spec el av) as [Hge | Hlt]; cbn [andb].
  - destruct (Z.eqb_spec (blen (pf_pending pf)) 0) as [E | N]; cbn [negb];
      [|right; split; [done |]; intros E; rewrite E in N; done].
    apply blen_nil in E. specialize (Hnil E). left. assert (av = tt_pf_storage s) as -> by (unfold av; rewrite E, Hnil; unfold blen; simpl; lia).
    split; [done |]. rewrite !blen_app, E, Hnil. unfold blen. rewrite length_take. simpl. lia.
  - left. destruct Hel as [? | [_ Hel]]; [lia |]. unfold blen in Hel.
    rewrite !take_ge by (unfold av, blen in *; lia). split; [done |]. rewrite !blen_app. unfold av, blen in *.
    rewrite length_app in Hel. simpl. lia.
Qed.

Lemma format_next s bufs pf :
  bufs_ok s bufs -> bufs_timely bufs -> 0 < tt_pf_storage s -> pf_ok s bufs pf ->
  exists ev, next_event (pf_pos pf) s = Ok (ev, s) /\
    ((exists pf', format_event pre msg (tt_pf_storage s) pf ev = Some pf' /\ pf_ok s bufs pf' /\
        unread s bufs pf' = unread s bufs pf /\ length (trace s bufs (pf_pos pf)) = S (length (trace s bufs (pf_pos pf')))) \/
     format_event pre msg (tt_pf_storage s) pf ev = None /\ (pf_pending pf = [] -> trace s bufs (pf_pos pf) = [])).
Proof.
  intros Hb Ht Hs Hpf. pose proof Hpf as (Hpos & Hn & Hroom & Hnil).
  pose proof (next_event_spec s bufs (pf_pos pf) Hb Ht Hpos) as Hev. unfold unread.
  destruct (trace s bufs (pf_pos pf)) as [|[c e] rest]; [by exists None; auto |].
  destruct Hev as (pos' & Hev & Hpos' & Etr). exists (Some (c, e, pos')). split; [done |].
  destruct (format_event_spec s bufs pf Hs Hpf c e pos') as [[E Hr] | [E Hne]]; [|right; done].
  left. eexists. split; [exact E |]. cbn [pf_pos pf_pending]. rewrite Etr. split_ands; [| by rewrite <- app_assoc | done].
  unfold pf_ok. split_ands; [done | done | done |]. cbn [pf_pending]. intros E0. apply app_nil in E0 as [_ E0]. unfold line in E0.
  by apply app_nil in E0 as [_ E0].
Qed.

Lemma flush_ok s bufs pf out k : pf_ok s bufs pf -> 0 <= k <= blen (pf_pending pf) ->
  let pending := drop (Z.to_nat k) (pf_pending pf) in
  let pf' := Build_tt_proc_file (pf_pos pf) pending (if blen pending =? 0 then 0 else pf_next pf + k) in
  let out' := out ++ take (Z.to_nat k) (pf_pending pf) in
  pf_ok s bufs pf' /\ out' ++ unread s bufs pf' = out ++ unread s bufs pf /\ blen out' = blen out + k.
Proof.
  intros (Hpos & Hn & Hroom & Hnil) Hk pending pf' out'.
  assert (blen pending = blen (pf_pending pf) - k) as Hl by (unfold pending, blen in *; rewrite length_drop; lia).
  split_ands.
  - unfold pf_ok. cbn [pf' pf_pos pf_next pf_pending]. destruct (Z.eqb_spec (blen pending) 0) as [E | N]; split_ands; try done; try lia.
    intros E. rewrite E in N. done.
  - unfold out', unread. cbn [pf' pf_pos pf_pending]. unfold pending. rewrite <- app_assoc. f_equal. rewrite app_assoc. by rewrite take_drop.
  - unfold out'. rewrite blen_app. unfold blen in *. rewrite length_take. lia.
Qed.

Lemma gtb_if a b : (if a >? b then b else a) = Z.min a b.
Proof. destruct (Z.gtb_spec a b); lia. Qed.

Definition measure_ (s : tt_state) (bufs : list tt_buffer) (length_ : Z) (pf : tt_proc_file) (out : list Z) : nat :=
  2 * length (trace s bufs (pf_pos pf)) + (if decide (pf_pending pf = [] \/ length_ <= blen out) then 0 else 1).

(** Reading neither loses nor repeats a byte, also when a copy fails; without
    failures it stops only when it has all the bytes asked for, or nothing is
    left. *)
Lemma read_loop_spec s bufs fail length_ :
  bufs_ok s bufs -> bufs_timely bufs -> 0 < tt_pf_storage s -> (forall n, 0 <= fail n <= n \/ n <= 0) -> forall fuel pf out,
  pf_ok s bufs pf -> blen out <= length_ -> (measure_ s bufs length_ pf out < fuel)%nat ->
  exists r out' pf', read_loop pre msg fuel fail length_ pf out s = Ok ((r, out', pf'), s) /\ pf_ok s bufs pf' /\
    out' ++ unread s bufs pf' = out ++ unread s bufs pf /\ blen out' <= length_ /\
    (r = blen out' /\ (blen out' < length_ -> unread s bufs pf' = [] \/ exists n, fail n <> 0) \/
     r = - EFAULT /\ out' = [] /\ exists n, fail n <> 0).
Proof.
  intros Hb Ht Hs Hf. induction fuel as [|fuel IH]; intros pf out Hpf Ho Hm; [lia |]. cbn [read_loop].
  erewrite bind_eq by reflexivity. destruct (format_next s bufs pf Hb Ht Hs Hpf) as (ev & Hev & Hcase).
  rewrite (bind_eq _ _ _ _ _ Hev). destruct Hcase as [(pf' & E & Hpf' & Eu & El) | [E Hempty]]; rewrite E.
  { destruct (IH pf' out Hpf' Ho) as (r & out' & pf2 & H); [|exists r, out', pf2; by rewrite <- Eu].
    unfold measure_ in *. repeat case_decide; lia. }
  clear E. pose proof Hpf as (Hpos & Hn & Hroom & Hnil).
  rewrite (gtb_if (blen (pf_pending pf)) (length_ - blen out)). set (chunk := Z.min _ _).
  pose proof (blen_nonneg (pf_pending pf)) as Hnn.
  destruct (Z.eqb_spec chunk 0) as [E0 | N0].
  { exists (blen out), out, pf. split_ands; [done | done | done | done |]. left. split; [done |]. intros Hlt. left.
    assert (pf_pending pf = []) as Ep by (apply blen_nil; lia). unfold unread. by rewrite Ep, Hempty. }
  destruct (Hf chunk) as [Hfc | ?]; [|lia].
  set (k := chunk - fail chunk). set (pf1 := Build_tt_proc_file _ _ _). set (out1 := out ++ _).
  destruct (flush_ok s bufs pf out k Hpf ltac:(lia)) as (Hpf1 & Hu & Ho1). fold pf1 in Hpf1, Hu. fold out1 in Hu, Ho1.
  destruct (Z.eqb_spec (fail chunk) 0) as [Ef | Nf]; cbn [negb].
  - destruct (IH pf1 out1 Hpf1) as (r & out' & pf2 & H); [lia | | exists r, out', pf2; by rewrite <- Hu].
    unfold measure_ in *. cbn [pf1 pf_pos]. destruct (decide (pf_pending pf = [] \/ length_ <= blen out)) as [[Ep | ?] | _];
      [unfold chunk in N0; rewrite Ep in N0; change (blen []) with 0 in N0; lia | lia |].
    rewrite decide_True; [lia |]. destruct (decide (blen (pf_pending pf) <= length_ - blen out)); [left | right; lia].
    cbn [pf1 pf_pending]. apply drop_ge. unfold blen in *. lia.
  - exists (if blen out1 =? 0 then - EFAULT else blen out1), out1, pf1. split_ands; [done | done | done | lia |].
    destruct (Z.eqb_spec (blen out1) 0) as [E1 | N1]; [right; split_ands; [done | by apply blen_nil | eauto] | left; split; [done | eauto]].
Qed.

Lemma run_length size events n : forall pos, length (run size events pos n) = n.
Proof. induction n as [|n IH]; intros pos; simpl; [done |]. by rewrite IH. Qed.

Lemma trace_length s bufs pos : bufs_ok s bufs -> bufs_timely bufs ->
  Z.of_nat (length (trace s bufs pos)) <= Z.of_nat (length bufs) * tt_buffer_size s.
Proof.
  intros (H2 & _ & _) Ht. pose proof (pow2_pos _ H2) as Hs. unfold trace, merged.
  assert (length (merge (total (left_ s bufs pos)) (left_ s bufs pos)) = total (left_ s bufs pos)) as ->.
  { pose proof (Permutation_length (merged_perm _ _ (left_timely s bufs pos Ht) eq_refl)) as E. by rewrite length_fmap in E. }
  clear Ht. unfold total, left_. revert pos. induction bufs as [|b bufs IH]; intros [|p pos]; cbn [zip_with concat length]; try lia.
  rewrite length_app. unfold remaining at 1. rewrite run_length. specialize (IH pos).
  pose proof (Z.mod_pos_bound (tb_next_index b - p) (tt_buffer_size s) ltac:(lia)). lia.
Qed.

Lemma blen_take_drop (out rest u : list Z) n :
  0 <= n -> out ++ rest = u -> blen out <= n -> (blen out < n -> rest = []) -> out = take (Z.to_nat n) u /\ rest = drop (Z.to_nat n) u.
Proof.
  unfold blen. intros Hn <- Hle Hlt. destruct (decide (Z.of_nat (length out) = n)) as [E | Hne].
  - subst n. rewrite Nat2Z.id. by rewrite take_app_length, drop_app_length.
  - rewrite (Hlt ltac:(lia)), app_nil_r. rewrite take_ge, drop_ge by lia. done.
Qed.

Definition reader_ok (s : tt_state) (bufs : list tt_buffer) (file : ptr) (pf : tt_proc_file) : Prop :=
  bufs_ok s bufs /\ bufs_timely bufs /\ 0 < tt_pf_storage s /\ tt_init_ s = true /\ tt_files s !! file = Some pf /\ pf_ok s bufs pf.

(** A read returns the next bytes, as many as are asked for unless fewer are
    left. *)
Lemma proc_read_spec s bufs file pf n : reader_ok s bufs file pf -> 0 <= n ->
  let out := take (Z.to_nat n) (unread s bufs pf) in
  exists pf' s', tt_proc_read pre msg (fun _ => 0) file n s = Ok ((blen out, out), s') /\ reader_ok s' bufs file pf' /\
    tt_pf_storage s' = tt_pf_storage s /\ unread s' bufs pf' = drop (Z.to_nat n) (unread s bufs pf).
Proof.
  intros (Hb & Ht & Hs & Hi & Hfile & Hpf) Hn out. unfold tt_proc_read. erewrite bind_eq by reflexivity. rewrite Hfile.
  erewrite bind_eq by reflexivity. rewrite Hi. cbn [negb]. do 2 erewrite bind_eq by reflexivity.
  assert (forall A (l : list A), length (Some <$> l) = length l) as Hfl by (intros; apply length_fmap).
  pose proof Hb as (_ & Eb & _).
  destruct (read_loop_spec s bufs (fun _ => 0) n Hb Ht Hs ltac:(intros; lia) (Z.to_nat (2 * (Z.of_nat (length (tt_buffers s)) * tt_buffer_size s) + 3)) pf [] Hpf
    ltac:(unfold blen; simpl; lia)) as (r & out' & pf' & E & Hpf' & Eu & Hle & Hr).
  { pose proof (trace_length s bufs (pf_pos pf) Hb Ht). rewrite Eb, Hfl. unfold measure_. case_decide; lia. }
  rewrite (bind_eq _ _ _ _ _ E). erewrite bind_eq by reflexivity. simpl in Eu.
  destruct Hr as [[-> Hshort] | (_ & _ & [x []])]; [|done].
  destruct (blen_take_drop out' (unread s bufs pf') (unread s bufs pf) n Hn Eu Hle) as [-> Eu'].
  { intros Hlt. destruct (Hshort Hlt) as [? | [x []]]; done. }
  eexists pf', _. split; [reflexivity |]. split; [|split; [done | exact Eu']].
  unfold reader_ok. split_ands; try done. cbn. apply lookup_insert_eq.
Qed.

(** Successive reads, whose results are put together. *)
Fixpoint reads (file : ptr) (lens : list Z) : TM (list Z) :=
  match lens with
  | [] => ret []
  | n :: lens =>
      let* r := tt_proc_read pre msg (fun _ => 0) file n in
      let* l := reads file lens in
      ret (r.2 ++ l)
  end.

Lemma reads_spec bufs file lens : forall s pf, reader_ok s bufs file pf -> Forall (Z.le 0) lens ->
  exists s', reads file lens s = Ok (take (Z.to_nat (foldr Z.add 0 lens)) (unread s bufs pf), s').
Proof.
  induction lens as [|n lens IH]; intros s pf Hr Hl; cbn [reads foldr]; [by eexists |].
  inversion_clear Hl as [|? ? Hn Hl']. destruct (proc_read_spec s bufs file pf n Hr Hn) as (pf' & s' & E & Hr' & _ & Eu).
  rewrite (bind_eq _ _ _ _ _ E). destruct (IH s' pf' Hr' Hl') as (s'' & E'). rewrite (bind_eq _ _ _ _ _ E').
  exists s''. unfold ret. do 2 f_equal. simpl. rewrite Eu.
  assert (0 <= foldr Z.add 0 lens) as H0 by (clear -Hl'; induction Hl'; simpl; lia).
  rewrite Z2Nat.inj_add by done. apply take_take_drop.
Qed.
End reading.
