(* ===== verification/TimeTraceRing.v ===== *)
(** * Time traces: from recording to reading

    The buffers keep the latest events, and a reader of the file gets the text
    of the events of all the cores, merged by time, from the time on for which
    every core still has its events. *)
From S2P Require Import Prelude Lists Types TimeTrace TimeTraceRead.

(** ** The oldest events *)

(** The events from [time] on. *)
Fixpoint since (time : Z) (l : list tt_event) : list tt_event :=
  match l with
  | [] => []
  | e :: l => if ev_timestamp e <? time then since time l else e :: l
  end.

(** Where the oldest event of a buffer is, and its time if events have been
    overwritten. *)
Definition wrapped (size : Z) (b : tt_buffer) : bool :=
  match tb_events b !! Z.to_nat (size - 1) with Some e => if ev_format e is Some _ then true else false | None => false end.
Definition oldest_pos (size : Z) (b : tt_buffer) : Z := if wrapped size b then next_slot size (tb_next_index b) else 0.
Definition kept (size : Z) (b : tt_buffer) : list tt_event := remaining size b (oldest_pos size b).
Definition start_after (size : Z) (time : Z) (b : tt_buffer) : Z :=
  if wrapped size b then
    match tb_events b !! Z.to_nat (oldest_pos size b) with
    | Some e => Z.max (ev_timestamp e) time
    | None => time
    end
  else time.

Lemma oldest_pos_range size b : pow2 size -> 0 <= oldest_pos size b < size.
Proof. intros H. pose proof (pow2_pos _ H). unfold oldest_pos. destruct (wrapped size b); [by apply next_slot_range | lia]. Qed.

Lemma gtb_max a b : (if a >? b then a else b) = Z.max a b.
Proof. destruct (Z.gtb_spec a b); lia. Qed.

Lemma oldest_loop_spec s bufs : bufs_ok s bufs -> forall bs i time, 0 <= i -> drop (Z.to_nat i) bufs = bs ->
  oldest_loop (length bs) i time s = Ok ((oldest_pos (tt_buffer_size s) <$> bs, foldl (start_after (tt_buffer_size s)) time bs), s).
Proof.
  intros (H2 & Eb & Hok). pose proof (pow2_pos _ H2) as Hs. assert (0 <= tt_buffer_size s - 1) as Hs1 by lia. induction bs as [|b bs IH]; intros i time Hi Hd; cbn [length oldest_loop]; [done |].
  destruct (drop_cons_inv _ _ _ _ Hi Hd) as [Hb Hd']. pose proof (proj1 (Forall_lookup _ _) Hok _ _ Hb) as [Hlen Hn].
  erewrite bind_eq by reflexivity. rewrite (bind_eq _ _ _ _ _ (get_buf_eq s bufs i b Eb Hi Hb)).
  destruct (lookup_lt_is_Some_2 (tb_events b) (Z.to_nat (tt_buffer_size s - 1))) as [e He]; [lia |].
  erewrite bind_eq by (unfold lift; rewrite (proj2 (arr_Ok _ (tt_buffer_size s - 1) e) (conj Hs1 He)); reflexivity).
  cbn [fmap list_fmap foldl].
  destruct (ev_format e) as [f|] eqn:Ef.
  - pose proof (next_slot_range (tt_buffer_size s) (tb_next_index b) H2) as Hr.
    destruct (lookup_lt_is_Some_2 (tb_events b) (Z.to_nat (next_slot (tt_buffer_size s) (tb_next_index b)))) as [x Hx]; [lia |].
    assert (wrapped (tt_buffer_size s) b = true) as Ew by (unfold wrapped; by rewrite He, Ef).
    unfold start_after at 2. unfold oldest_pos at 1 3. rewrite Ew, Hx. erewrite bind_eq.
    2: { erewrite bind_eq; [reflexivity |]. unfold lift.
         by rewrite (proj2 (arr_Ok _ (next_slot (tt_buffer_size s) (tb_next_index b)) x) (conj (proj1 Hr) Hx)). }
    cbn beta iota. rewrite gtb_max. by rewrite (bind_eq _ _ _ _ _ (IH (i + 1) _ ltac:(lia) Hd')).
  - assert (wrapped (tt_buffer_size s) b = false) as Ew by (unfold wrapped; by rewrite He, Ef).
    unfold start_after at 2. unfold oldest_pos at 1. rewrite Ew. erewrite bind_eq by reflexivity. cbn beta iota. by rewrite (bind_eq _ _ _ _ _ (IH (i + 1) _ ltac:(lia) Hd')).
Qed.

Lemma skip_loop_spec size b time : pow2 size -> buf_ok size b -> forall fuel pos,
  0 <= pos < size -> (length (remaining size b pos) <= fuel)%nat ->
  exists pos', skip_loop fuel b size time pos = Ok pos' /\ 0 <= pos' < size /\ remaining size b pos' = since time (remaining size b pos).
Proof.
  intros H2 Hb. pose proof Hb as [Hlen Hn]. induction fuel as [|fuel IH]; intros pos Hp Hf; cbn [skip_loop];
    (destruct (lookup_lt_is_Some_2 (tb_events b) (Z.to_nat pos)) as [e He]; [lia |]); rewrite (proj2 (arr_Ok _ pos e) (conj (proj1 Hp) He)); cbn [result_bind];
    (destruct (Z.eqb_spec pos (tb_next_index b)) as [-> | Hne];
      [rewrite remaining_nil, andb_false_r; exists (tb_next_index b); rewrite remaining_nil; done |]);
    rewrite (remaining_cons _ _ _ e) in Hf |- * by done; cbn [length] in Hf; cbn [since negb]; rewrite andb_true_r; [lia |].
  destruct (ev_timestamp e <? time).
  - apply IH; [by apply next_slot_range | lia].
  - exists pos. split_ands; try done; try lia. by apply remaining_cons.
Qed.

Lemma remaining_length size b pos : 0 < size -> (length (remaining size b pos) <= Z.to_nat size)%nat.
Proof. intros H. unfold remaining. rewrite run_length. pose proof (Z.mod_pos_bound (tb_next_index b - pos) size H). lia. Qed.

Lemma skip_all_spec s bufs time : bufs_ok s bufs -> forall bs i pos, 0 <= i -> drop (Z.to_nat i) bufs = bs -> length pos = length bs ->
  Forall (fun p => 0 <= p < tt_buffer_size s) pos ->
  exists pos', skip_all i time pos s = Ok (pos', s) /\ length pos' = length bs /\ Forall (fun p => 0 <= p < tt_buffer_size s) pos' /\
    zip_with (remaining (tt_buffer_size s)) bs pos' = since time <$> zip_with (remaining (tt_buffer_size s)) bs pos.
Proof.
  intros (H2 & Eb & Hok). pose proof (pow2_pos _ H2) as Hs. assert (0 < tt_buffer_size s) as Hs1 by lia.
  induction bs as [|b bs IH]; intros i [|p pos] Hi Hd Hl Hp; try done; cbn [skip_all]; [by exists [] |].
  destruct (drop_cons_inv _ _ _ _ Hi Hd) as [Hb Hd']. pose proof (proj1 (Forall_lookup _ _) Hok _ _ Hb) as Hbo.
  inversion_clear Hp as [|? ? Hp0 Hps]. erewrite bind_eq by reflexivity. rewrite (bind_eq _ _ _ _ _ (get_buf_eq s bufs i b Eb Hi Hb)).
  destruct (skip_loop_spec _ b time H2 Hbo (Z.to_nat (tt_buffer_size s)) p Hp0 (remaining_length _ _ _ Hs1)) as (p' & E & Hp' & Er).
  erewrite bind_eq by (unfold lift; rewrite E; reflexivity).
  destruct (IH (i + 1) pos ltac:(lia) Hd' ltac:(simpl in Hl; lia) Hps) as (pos' & E' & Hl' & Hps' & Er').
  rewrite (bind_eq _ _ _ _ _ E'). exists (p' :: pos'). split_ands; [done | simpl; lia | by constructor |].
  cbn [zip_with fmap list_fmap]. by rewrite Er, Er'.
Qed.

(** Reading starts, on every core, with the first event at or after the latest
    of the oldest events of the buffers that have wrapped. *)
Definition start_time (size : Z) (bufs : list tt_buffer) : Z := foldl (start_after size) 0 bufs.

Lemma find_oldest_spec s bufs : bufs_ok s bufs ->
  exists pos, tt_find_oldest s = Ok (pos, s) /\ pos_ok s bufs pos /\
    left_ s bufs pos = (fun b => since (start_time (tt_buffer_size s) bufs) (kept (tt_buffer_size s) b)) <$> bufs.
Proof.
  intros Hb. pose proof Hb as (H2 & Eb & Hok). unfold tt_find_oldest. erewrite bind_eq by reflexivity. rewrite Eb, length_fmap, Nat2Z.id.
  rewrite (bind_eq _ _ _ _ _ (oldest_loop_spec s bufs Hb bufs 0 0 ltac:(lia) eq_refl)). cbn [fst snd].
  destruct (skip_all_spec s bufs (start_time (tt_buffer_size s) bufs) Hb bufs 0 (oldest_pos (tt_buffer_size s) <$> bufs))
    as (pos & E & Hl & Hp & Er); [lia | done | by rewrite length_fmap | |].
  { apply Forall_fmap, Forall_true. intros b. simpl. by apply oldest_pos_range. }
  exists pos. split_ands; [done | done |]. unfold left_. rewrite Er. rewrite zip_with_fmap_r, zip_with_diag, <- list_fmap_compose. done.
Qed.

(** ** What a buffer keeps *)

(** [b] is what recording [evs] makes of an empty buffer. *)
Record ring (size : Z) (b : tt_buffer) (evs : list tt_event) : Prop := {
  rg_length : Z.of_nat (length (tb_events b)) = size;
  rg_next : tb_next_index b = Z.of_nat (length evs) mod size;
  rg_events : forall k e, evs !! k = Some e -> Z.of_nat (length evs) - size <= Z.of_nat k ->
    tb_events b !! Z.to_nat (Z.of_nat k mod size) = Some e;
  rg_new : Z.of_nat (length evs) < size -> wrapped size b = false
}.

Lemma ring_buf_ok size b evs : pow2 size -> ring size b evs -> buf_ok size b.
Proof.
  intros H2 [Hl Hn _ _]. pose proof (pow2_pos _ H2). split; [done |]. rewrite Hn. apply Z.mod_pos_bound. lia.
Qed.

Lemma ring_empty size : pow2 size -> ring size (empty_buffer size) [].
Proof.
  intros H2. pose proof (pow2_pos _ H2). split; simpl; try done.
  - rewrite length_replicate. lia.
  - intros _. unfold wrapped, empty_buffer. simpl. rewrite lookup_replicate_2 by lia. done.
Qed.

Lemma ring_record size b evs e : pow2 size -> ring size b evs ->
  ring size (Build_tt_buffer (next_slot size (tb_next_index b)) (<[Z.to_nat (tb_next_index b) := e]> (tb_events b))) (evs ++ [e]).
Proof.
  intros H2 [Hl Hn He Hw]. pose proof (pow2_pos _ H2) as Hs. assert (size <> 0) as Hs0 by lia.
  split; simpl; rewrite ?length_insert, ?length_app; simpl.
  - done.
  - rewrite next_slot_mod, Hn by done. rewrite Zplus_mod_idemp_l. f_equal. lia.
  - intros k x Hk Hge. rewrite Hn. pose proof (Z.mod_pos_bound (Z.of_nat (length evs)) size ltac:(lia)).
    pose proof (Z.mod_pos_bound (Z.of_nat k) size ltac:(lia)). apply lookup_snoc_Some in Hk as [[Hk Hx] | [-> ->]].
    + rewrite list_lookup_insert_ne; [apply He; [done | lia] |]. intros E. apply Z2Nat.inj in E; [|lia..].
      pose proof (Z.div_mod (Z.of_nat (length evs)) size Hs0). pose proof (Z.div_mod (Z.of_nat k) size Hs0).
      assert (Z.of_nat (length evs) / size - Z.of_nat k / size = 1 \/ Z.of_nat (length evs) / size = Z.of_nat k / size \/
        Z.of_nat (length evs) / size - Z.of_nat k / size <= -1 \/ 2 <= Z.of_nat (length evs) / size - Z.of_nat k / size) by lia. nia.
    + apply list_lookup_insert_eq. lia.
  - intros Hlt. unfold wrapped in *. simpl. rewrite list_lookup_insert_ne; [apply Hw; lia |].
    rewrite Hn, Z.mod_small by lia. lia.
Qed.

Lemma ring_run size b evs : pow2 size -> ring size b evs -> forall n k, (k + n = length evs)%nat ->
  Z.of_nat (length evs) - size <= Z.of_nat k -> run size (tb_events b) (Z.of_nat k mod size) n = drop k evs.
Proof.
  intros H2 Hr. induction n as [|n IH]; intros k Hk Hge; cbn [run]; [by rewrite drop_ge by lia |].
  destruct (lookup_lt_is_Some_2 evs k) as [e He]; [lia |]. rewrite (rg_events _ _ _ Hr k e He Hge). rewrite (drop_S _ e k He). simpl. f_equal.
  rewrite next_slot_mod by done. rewrite Zplus_mod_idemp_l. replace (Z.of_nat k + 1) with (Z.of_nat (S k)) by lia. apply IH; lia.
Qed.

Lemma ring_remaining size b evs k : pow2 size -> ring size b evs -> (k <= length evs)%nat -> Z.of_nat (length evs) - size < Z.of_nat k ->
  remaining size b (Z.of_nat k mod size) = drop k evs.
Proof.
  intros H2 Hr Hk Hge. pose proof (pow2_pos _ H2). unfold remaining. rewrite (rg_next _ _ _ Hr).
  rewrite <- Zminus_mod. rewrite (Z.mod_small (Z.of_nat (length evs) - _)) by lia. apply ring_run; try done; lia.
Qed.

(** At most [size - 1] events are kept, the latest ones. *)
Definition latest (size : Z) (evs : list tt_event) : list tt_event := drop (length evs - Z.to_nat (size - 1)) evs.

Lemma ring_wrapped size b evs : pow2 size -> ring size b evs -> Forall (fun e => ev_format e <> None) evs ->
  wrapped size b = (size <=? Z.of_nat (length evs)).
Proof.
  intros H2 Hr Hf. pose proof (pow2_pos _ H2) as Hs. destruct (Z.leb_spec size (Z.of_nat (length evs))) as [Hge | Hlt];
    [|by apply (rg_new _ _ _ Hr)].
  set (len := Z.of_nat (length evs)) in *. pose proof (Z.div_mod len size ltac:(lia)) as Hd. pose proof (Z.mod_pos_bound len size ltac:(lia)) as Hm.
  assert (1 <= len / size) as Hq by nia. set (k := size * (len / size) - 1).
  assert (0 <= k < len /\ len - size <= k) as [Hk Hk'] by (unfold k; nia).
  destruct (lookup_lt_is_Some_2 evs (Z.to_nat k)) as [e He]; [lia |].
  pose proof (rg_events _ _ _ Hr _ _ He ltac:(lia)) as Hslot.
  assert (Z.of_nat (Z.to_nat k) mod size = size - 1) as E.
  { rewrite Z2Nat.id by lia. unfold k. replace (size * (len / size) - 1) with (size - 1 + (len / size - 1) * size) by lia.
    rewrite Z_mod_plus_full. apply Z.mod_small. lia. }
  rewrite E in Hslot. unfold wrapped. rewrite Hslot. pose proof (proj1 (Forall_lookup _ _) Hf _ _ He) as Hn. simpl in Hn. by destruct (ev_format e).
Qed.

Lemma ring_oldest size b evs : pow2 size -> ring size b evs -> Forall (fun e => ev_format e <> None) evs ->
  oldest_pos size b = Z.of_nat (length evs - Z.to_nat (size - 1)) mod size.
Proof.
  intros H2 Hr Hf. pose proof (pow2_pos _ H2). unfold oldest_pos. rewrite (ring_wrapped size b evs H2 Hr Hf).
  destruct (Z.leb_spec size (Z.of_nat (length evs))).
  - rewrite next_slot_mod, (rg_next _ _ _ Hr), Zplus_mod_idemp_l by done.
    replace (Z.of_nat (length evs) + 1) with (Z.of_nat (length evs - Z.to_nat (size - 1)) + 1 * size) by lia. apply Z_mod_plus_full.
  - replace (length evs - Z.to_nat (size - 1))%nat with 0%nat by lia. done.
Qed.

Lemma ring_kept size b evs : pow2 size -> ring size b evs -> Forall (fun e => ev_format e <> None) evs -> kept size b = latest size evs.
Proof.
  intros H2 Hr Hf. pose proof (pow2_pos _ H2). unfold kept. rewrite (ring_oldest size b evs H2 Hr Hf). apply ring_remaining; try done; lia.
Qed.

(** The time from which a core that recorded [evs] has all its events. *)
Definition complete_from (size : Z) (time : Z) (evs : list tt_event) : Z :=
  match latest size evs with
  | e :: _ => if size <=? Z.of_nat (length evs) then Z.max (ev_timestamp e) time else time
  | [] => time
  end.

Lemma ring_start size b evs time : pow2 size -> ring size b evs -> Forall (fun e => ev_format e <> None) evs ->
  start_after size time b = complete_from size time evs.
Proof.
  intros H2 Hr Hf. pose proof (pow2_pos _ H2) as Hs. unfold start_after, complete_from, latest. rewrite (ring_wrapped size b evs H2 Hr Hf).
  destruct (Z.leb_spec size (Z.of_nat (length evs))) as [Hge | Hlt]; [|by case_match].
  rewrite (ring_oldest size b evs H2 Hr Hf).
  destruct (lookup_lt_is_Some_2 evs (length evs - Z.to_nat (size - 1))) as [e He]; [lia |].
  rewrite (rg_events _ _ _ Hr _ _ He) by lia. by rewrite (drop_S _ _ _ He).
Qed.

(** ** Recording *)

(** The events that core [c] recorded. *)
Definition on_core (l : list (Z * tt_event)) (c : nat) : list tt_event := (filter (fun x => x.1 = Z.of_nat c) l).*2.
Definition on_cores (nr : nat) (l : list (Z * tt_event)) : list (list tt_event) := on_core l <$> seq 0 nr.

Lemma on_cores_snoc nr l c e : on_cores nr (l ++ [(Z.of_nat c, e)]) = alter (fun k => k ++ [e]) c (on_cores nr l).
Proof.
  apply list_eq. intros i. unfold on_cores. rewrite list_lookup_fmap. destruct (decide (c = i)) as [-> | Hne].
  - rewrite list_lookup_alter_eq, list_lookup_fmap. destruct (seq 0 nr !! i) as [x|] eqn:Ex; [|done]. simpl.
    apply lookup_seq in Ex as [-> _]. unfold on_core. rewrite filter_app, fmap_app. do 2 f_equal.
    rewrite filter_cons_True, filter_nil by done. done.
  - rewrite list_lookup_alter_ne, list_lookup_fmap by done. destruct (seq 0 nr !! i) as [x|] eqn:Ex; [|done]. simpl.
    apply lookup_seq in Ex as [-> _]. unfold on_core. rewrite filter_app, fmap_app.
    rewrite filter_cons_False, filter_nil by (simpl; lia). by rewrite app_nil_r.
Qed.

Fixpoint record_all (l : list (Z * tt_event)) : TM unit :=
  match l with
  | [] => ret tt
  | (core, event) :: l => tt_record_buf core event ;;; record_all l
  end.

Definition rings (s : tt_state) (evss : list (list tt_event)) : Prop :=
  exists bufs, tt_buffers s = Some <$> bufs /\ Forall2 (ring (tt_buffer_size s)) bufs evss /\ bufs_timely bufs.

Lemma record_spec s evss c e : pow2 (tt_buffer_size s) -> tt_freeze_count s <= 0 -> rings s evss -> (c < length evss)%nat ->
  ev_timestamp e < 2 ^ 64 - 1 ->
  exists l, tt_record_buf (Z.of_nat c) e s = Ok (tt, s <| tt_buffers := l |>) /\
    rings (s <| tt_buffers := l |>) (alter (fun k => k ++ [e]) c evss).
Proof.
  intros H2 Hfr (bufs & Eb & Hall & Ht) Hc He. pose proof (Forall2_length _ _ _ Hall) as Hlen.
  destruct (lookup_lt_is_Some_2 bufs c) as [b Hb]; [lia |]. destruct (Forall2_lookup_l _ _ _ _ _ Hall Hb) as (evs & Hevs & Hr).
  pose proof (ring_buf_ok _ _ _ H2 Hr) as [Hl Hn].
  exists (<[c := Some (Build_tt_buffer (next_slot (tt_buffer_size s) (tb_next_index b)) (<[Z.to_nat (tb_next_index b) := e]> (tb_events b)))]> (tt_buffers s)).
  split.
  - unfold tt_record_buf. erewrite bind_eq by reflexivity. destruct (Z.gtb_spec (tt_freeze_count s) 0); [lia |]. erewrite bind_eq by reflexivity.
    rewrite (bind_eq _ _ _ _ _ (get_buf_eq s bufs (Z.of_nat c) b Eb ltac:(lia) ltac:(by rewrite Nat2Z.id))).
    erewrite bind_eq by (unfold lift; rewrite (proj2 (arr_set_Ok (tb_events b) (tb_next_index b) e _)) by (split; [lia | reflexivity]); reflexivity).
    unfold set_buf. erewrite bind_eq by reflexivity.
    erewrite bind_eq by (unfold lift; rewrite (proj2 (arr_set_Ok (tt_buffers s) (Z.of_nat c) _ _)) by
      (split; [rewrite Eb, length_fmap; lia | rewrite Nat2Z.id; reflexivity]); reflexivity). done.
  - eexists. cbn. rewrite Eb, <- list_fmap_insert. split; [done |]. 
    assert (alter (fun k => k ++ [e]) c evss = <[c := evs ++ [e]]> evss) as ->
      by (rewrite list_insert_alter; apply list_alter_ext; [intros x Hx; by simplify_eq | done]).
    split; [apply Forall2_insert; [done |]; by apply ring_record |].
    apply Forall_insert; [done |]. apply Forall_insert; [|done]. exact (proj1 (Forall_lookup _ _) Ht _ _ Hb).
Qed.

Lemma record_all_spec nr l : forall done s, pow2 (tt_buffer_size s) -> tt_freeze_count s <= 0 -> rings s (on_cores nr done) ->
  Forall (fun x => 0 <= x.1 < Z.of_nat nr /\ ev_timestamp x.2 < 2 ^ 64 - 1) l ->
  exists b, record_all l s = Ok (tt, s <| tt_buffers := b |>) /\ rings (s <| tt_buffers := b |>) (on_cores nr (done ++ l)).
Proof.
  induction l as [|[c e] l IH]; intros done s H2 Hfr Hr Hl; cbn [record_all].
  { exists (tt_buffers s). rewrite app_nil_r. by destruct s. }
  inversion_clear Hl as [|? ? [Hc He] Hl']. simpl in Hc, He. rewrite <- (Z2Nat.id c) by lia.
  destruct (record_spec s (on_cores nr done) (Z.to_nat c) e H2 Hfr Hr) as (b & E & Hr1).
  { unfold on_cores. rewrite length_fmap, length_seq. lia. }
  { done. }
  rewrite (bind_eq _ _ _ _ _ E). rewrite <- on_cores_snoc in Hr1.
  set (s1 := s <| tt_buffers := b |>) in *. destruct (IH (done ++ [(Z.of_nat (Z.to_nat c), e)]) s1 H2 Hfr Hr1 Hl') as (b' & E' & Hr2).
  exists b'. rewrite <- app_assoc in Hr2. split; [exact E' | exact Hr2].
Qed.

Lemma alloc_spec n : forall i s, (i + n = length (tt_buffers s))%nat ->
  tt_alloc (replicate n true) (Z.of_nat i) s =
    Ok (true, s <| tt_buffers := take i (tt_buffers s) ++ replicate n (Some (empty_buffer (tt_buffer_size s))) |>).
Proof.
  induction n as [|n IH]; intros i s Hi; cbn [replicate tt_alloc].
  { rewrite app_nil_r, take_ge by lia. by destruct s. }
  erewrite bind_eq by reflexivity. erewrite bind_eq.
  2: { unfold set_buf. erewrite bind_eq by reflexivity.
       erewrite bind_eq by (unfold lift; rewrite (proj2 (arr_set_Ok (tt_buffers s) (Z.of_nat i) _ _)) by
         (split; [lia | rewrite Nat2Z.id; reflexivity]); reflexivity). reflexivity. }
  replace (Z.of_nat i + 1) with (Z.of_nat (S i)) by lia. rewrite IH by (cbn; rewrite length_insert; lia). cbn.
  do 3 f_equal. destruct (lookup_lt_is_Some_2 (tt_buffers s) i) as [o Ho]; [lia |].
  rewrite (take_S_r _ _ (Some (empty_buffer (tt_buffer_size s)))) by (apply list_lookup_insert_eq; lia).
  rewrite take_insert_ge by lia. by rewrite <- app_assoc.
Qed.

Lemma tt_init_spec s proc_file : tt_init_ s = false -> pow2 (tt_buffer_size s) -> exists s',
  tt_init (replicate (length (tt_buffers s)) true) proc_file true s = Ok (0, s') /\ tt_init_ s' = true /\ tt_freeze_count s' = 0 /\
  tt_buffer_size s' = tt_buffer_size s /\ tt_pf_storage s' = tt_pf_storage s /\ rings s' (on_cores (length (tt_buffers s)) []).
Proof.
  intros Hi H2. unfold tt_init. erewrite bind_eq by reflexivity. rewrite Hi.
  rewrite (bind_eq _ _ _ _ _ (alloc_spec (length (tt_buffers s)) 0 s eq_refl)). cbn [negb orb]. rewrite andb_false_r.
  erewrite bind_eq by reflexivity. eexists. split; [reflexivity |]. split_ands; try done.
  exists (replicate (length (tt_buffers s)) (empty_buffer (tt_buffer_size s))). cbn. rewrite fmap_replicate. split; [done |].
  split; [|apply Forall_replicate, Forall_replicate; done].
  unfold on_cores. assert (on_core [] <$> seq 0 (length (tt_buffers s)) = replicate (length (tt_buffers s)) []) as ->.
  { generalize 0%nat. induction (length (tt_buffers s)) as [|n IH]; intros a; [done |]. simpl. by rewrite IH. }
  apply Forall2_replicate. by apply ring_empty.
Qed.

Lemma rings_ok s evss : pow2 (tt_buffer_size s) -> rings s evss -> Forall (Forall (fun e => ev_format e <> None)) evss ->
  exists bufs, bufs_ok s bufs /\ bufs_timely bufs /\ kept (tt_buffer_size s) <$> bufs = latest (tt_buffer_size s) <$> evss /\
    start_time (tt_buffer_size s) bufs = foldl (complete_from (tt_buffer_size s)) 0 evss.
Proof.
  intros H2 (bufs & Eb & Hall & Ht) Hf. exists bufs. split_ands; [|done | |].
  - unfold bufs_ok. split_ands; [done | done |]. clear -H2 Hall. induction Hall; constructor; [by eapply ring_buf_ok | done].
  - clear Ht Eb. induction Hall as [|b evs bufs evss Hr _ IH]; [done |]. inversion_clear Hf. cbn [fmap list_fmap].
    rewrite IH by done. f_equal. by apply ring_kept.
  - clear Ht Eb. unfold start_time. generalize 0. induction Hall as [|b evs bufs evss Hr _ IH]; intros t; [done |]. inversion_clear Hf. cbn [foldl].
    rewrite IH by done. f_equal. by apply ring_start.
Qed.

(** The events of each core that a reader sees. *)
Definition visible (size : Z) (evss : list (list tt_event)) : list (list tt_event) :=
  (fun evs => since (foldl (complete_from size) 0 evss) (latest size evs)) <$> evss.

Lemma find_oldest_visible s evss : pow2 (tt_buffer_size s) -> rings s evss -> Forall (Forall (fun e => ev_format e <> None)) evss ->
  exists bufs pos, bufs_ok s bufs /\ bufs_timely bufs /\ tt_find_oldest s = Ok (pos, s) /\ pos_ok s bufs pos /\
    left_ s bufs pos = visible (tt_buffer_size s) evss.
Proof.
  intros H2 Hr Hf. destruct (rings_ok s evss H2 Hr Hf) as (bufs & Hb & Ht & Ek & Es).
  destruct (find_oldest_spec s bufs Hb) as (pos & E & Hpos & El). exists bufs, pos. split_ands; try done. rewrite El.
  unfold visible. rewrite <- Es. set (T := start_time (tt_buffer_size s) bufs).
  change ((since T ∘ kept (tt_buffer_size s)) <$> bufs = (since T ∘ latest (tt_buffer_size s)) <$> evss).
  by rewrite (list_fmap_compose (kept (tt_buffer_size s))), Ek, <- list_fmap_compose.
Qed.

(** ** A session *)
Section session.
Variables (header : list Z) (pre msg : Z -> tt_event -> list Z).

Lemma proc_open_spec s evss file : pow2 (tt_buffer_size s) -> tt_init_ s = true -> blen header <= tt_pf_storage s -> 0 < tt_pf_storage s ->
  rings s evss -> Forall (Forall (fun e => ev_format e <> None)) evss ->
  exists s' bufs pf, tt_proc_open header file true s = Ok (0, s') /\ tt_pf_storage s' = tt_pf_storage s /\ bufs_timely bufs /\ reader_ok s' bufs file pf /\
    left_ s' bufs (pf_pos pf) = visible (tt_buffer_size s) evss /\ pf_pending pf = header.
Proof.
  intros H2 Hi Hh Hst Hr Hf. set (s1 := s <| tt_freeze_count ::= fun n => n + 1 |>).
  destruct (find_oldest_visible s1 evss H2 Hr Hf) as (bufs & pos & Hb & Ht & E & Hpos & El).
  unfold tt_proc_open. erewrite bind_eq by reflexivity. rewrite Hi. cbn [negb]. erewrite bind_eq by reflexivity.
  fold s1. rewrite (bind_eq _ _ _ _ _ E). erewrite bind_eq by reflexivity. eexists _, bufs, (Build_tt_proc_file pos header 0).
  split; [reflexivity |]. split; [done |]. split; [done |]. split_ands; [| exact El | done].
  unfold reader_ok, pf_ok. cbn. split_ands; try done. apply lookup_insert_eq.
Qed.

(** Initialisation, then the events [l], then opening the file and reading it
    in pieces of the lengths [lens]. *)
Definition session (nr : nat) (l : list (Z * tt_event)) (file : ptr) (lens : list Z) : TM (Z * Z * list Z) :=
  let* r1 := tt_init (replicate nr true) true true in
  record_all l ;;;
  let* r2 := tt_proc_open header file true in
  let* out := reads pre msg file lens in
  ret (r1, r2, out).

Definition traceable (nr : nat) (x : Z * tt_event) : Prop :=
  0 <= x.1 < Z.of_nat nr /\ ev_timestamp x.2 < 2 ^ 64 - 1 /\ ev_format x.2 <> None.

Lemma on_cores_Forall nr l P : Forall (fun x => P x.2) l -> Forall (Forall P) (on_cores nr l).
Proof.
  intros H. apply Forall_fmap, Forall_true. intros c. simpl. unfold on_core. apply Forall_fmap.
  apply Forall_forall. intros x Hx. apply list_elem_of_filter in Hx as [_ Hx]. exact (proj1 (Forall_forall _ _) H x Hx).
Qed.

Lemma since_suffix time l : exists k, l = k ++ since time l.
Proof.
  induction l as [|e l [k IH]]; [by exists [] |]. simpl. destruct (ev_timestamp e <? time); [|by exists []].
  exists (e :: k). simpl. by f_equal.
Qed.

Lemma visible_suffix size evss : Forall2 (fun v evs => exists k, evs = k ++ v) (visible size evss) evss.
Proof.
  unfold visible. generalize (foldl (complete_from size) 0 evss). intros t. induction evss as [|evs evss IH]; constructor; [|done].
  destruct (since_suffix t (latest size evs)) as [k Hk]. unfold latest in *. exists (take (length evs - Z.to_nat (size - 1)) evs ++ k).
  rewrite <- app_assoc, <- Hk. by rewrite take_drop.
Qed.

Lemma visible_Forall (P : list tt_event -> Prop) size evss :
  (forall k v, P (k ++ v) -> P v) -> Forall P evss -> Forall P (visible size evss).
Proof.
  intros HP H. pose proof (visible_suffix size evss) as Hv. induction Hv as [|v evs vs evss' [k ->] _ IH]; [constructor |].
  inversion_clear H. constructor; [by eapply HP | by apply IH].
Qed.
End session.

Lemma Sorted_app_r {A} (R : A -> A -> Prop) k v : Sorted R (k ++ v) -> Sorted R v.
Proof. induction k as [|x k IH]; [done |]. intros H. inversion_clear H. by apply IH. Qed.

(** C26: initialising the time traces, recording events on any cores, opening
    the file and reading it in pieces returns, byte for byte, the header
    followed by the lines of the merged trace, as much as was asked for.  The
    trace has the latest [size - 1] events of each core, from the time on for
    which no core has lost events; they are those events and no others, and
    in the order of their times if each core recorded its own in that order. *)
Theorem timetrace_correct header pre msg s l file lens :
  let size := tt_buffer_size s in
  let nr := length (tt_buffers s) in
  let shown := merged (visible size (on_cores nr l)) in
  tt_init_ s = false -> pow2 size -> blen header <= tt_pf_storage s -> 0 < tt_pf_storage s ->
  Forall (traceable nr) l -> Forall (Z.le 0) lens ->
  (exists s', session header pre msg nr l file lens s =
    Ok ((0, 0, take (Z.to_nat (foldr Z.add 0 lens)) (header ++ (shown ≫= line pre msg (tt_pf_storage s)))), s')) /\
  shown.*2 ≡ₚ concat (visible size (on_cores nr l)) /\
  (Forall (Sorted by_time) (on_cores nr l) -> StronglySorted by_time shown.*2).
Proof.
  intros size nr shown Hi H2 Hh Hst Hl Hlens.
  assert (Forall (Forall (fun e => ev_timestamp e < 2 ^ 64 - 1)) (on_cores nr l)) as Ht
    by (apply on_cores_Forall; eapply Forall_impl; [exact Hl | by intros x (_ & H & _)]).
  assert (timely (visible size (on_cores nr l))) as Htv by (apply visible_Forall; [|done]; intros k v H; by apply Forall_app in H as [_ H]).
  split_ands.
  2: { by apply merged_perm. }
  2: { intros Hs. apply merged_sorted; [done | done |]. apply visible_Forall; [apply Sorted_app_r | done]. }
  destruct (tt_init_spec s true Hi H2) as (s1 & E1 & Hi1 & Hfr1 & Hsz1 & Hst1 & Hr1). fold nr in E1, Hr1.
  assert (pow2 (tt_buffer_size s1)) as H21 by (by rewrite Hsz1).
  destruct (record_all_spec nr l [] s1 H21 ltac:(lia) Hr1) as (b & E2 & Hr2);
    [eapply Forall_impl; [exact Hl | by intros x (H & H' & _)] |].
  set (s2 := s1 <| tt_buffers := b |>) in *.
  destruct (proc_open_spec header s2 (on_cores nr l) file H21) as (s3 & bufs & pf & E3 & Hst3 & _ & Hrd & El & Ep);
    [done | by change (tt_pf_storage s2) with (tt_pf_storage s1); rewrite Hst1 | by change (tt_pf_storage s2) with (tt_pf_storage s1); rewrite Hst1 | done | |].
  { apply on_cores_Forall. eapply Forall_impl; [exact Hl | by intros x (_ & _ & H)]. }
  destruct (reads_spec pre msg bufs file lens s3 pf Hrd Hlens) as (s4 & E4). exists s4.
  unfold session. rewrite (bind_eq _ _ _ _ _ E1), (bind_eq _ _ _ _ _ E2), (bind_eq _ _ _ _ _ E3), (bind_eq _ _ _ _ _ E4).
  unfold ret, unread, text, trace. rewrite El, Ep, Hst3. change (tt_pf_storage s2) with (tt_pf_storage s1).
  change (tt_buffer_size s2) with (tt_buffer_size s1). rewrite Hst1, Hsz1. done.
Qed.

(** Two cores with buffers of four events; the first records five events, so
    that two are lost. *)
Lemma timetrace_correct_witness :
  let s := Build_tt_state [None; None] 1 false false false 4 12 ∅ false false [] in
  let ev t := Build_tt_event t (Some 7) [0; 0; 0; 0] in
  let l := [(0, ev 1); (1, ev 2); (0, ev 3); (0, ev 4); (1, ev 5); (0, ev 6); (0, ev 8)] in
  exists s', session [72; 10] (fun c e => [ev_timestamp e; c]) (fun _ _ => [109]) 2 l 1%positive [5; 20] s =
    Ok ((0, 0, [72; 10; 4; 0; 109; 10; 5; 1; 109; 10; 6; 0; 109; 10; 8; 0; 109; 10]), s').
Proof.
  intros s ev l. destruct (timetrace_correct [72; 10] (fun c e => [ev_timestamp e; c]) (fun _ _ => [109]) s l 1%positive [5; 20]) as [[s' E] _].
  - reflexivity.
  - exists 2. split; [lia | reflexivity].
  - vm_compute. discriminate.
  - vm_compute. reflexivity.
  - repeat constructor; simpl; (lia || discriminate).
  - repeat constructor; lia.
  - exists s'. refine (eq_trans E _). vm_compute. reflexivity.
Defined.

(** ** Printing when there is nothing to print *)

Lemma printk_active header pre msg s : tt_printk_active s = true -> tt_printk header pre msg s = Ok (tt, s).
Proof.
  intros Ha. unfold tt_printk. erewrite bind_eq by reflexivity. rewrite Ha. erewrite bind_eq by reflexivity.
  destruct s. simpl in Ha. by subst.
Qed.

(** A call of [tt_printk] before the initialisation leaves it marked as active:
    no later call prints anything. *)
Lemma printk_stuck header pre msg s : tt_init_ s = false -> tt_printk_active s = false ->
  exists s', tt_printk header pre msg s = Ok (tt, s') /\
    forall t, tt_printk_active t = tt_printk_active s' -> tt_printk header pre msg t = Ok (tt, t).
Proof.
  intros Hi Ha. eexists. split.
  - unfold tt_printk. erewrite bind_eq by reflexivity. rewrite Ha. erewrite bind_eq by reflexivity.
    erewrite bind_eq by reflexivity. cbn. rewrite Hi. reflexivity.
  - cbn. intros t. apply printk_active.
Qed.

(** [tt_print_file] with a file that cannot be opened lowers the freeze count;
    freezing afterwards does not stop the recording. *)
Lemma print_file_thaws header pre msg write s : tt_init_ s = true -> tt_print_file_active s = false -> tt_freeze_count s = 0 ->
  exists s', tt_print_file header pre msg false write s = Ok (tt, s') /\ tt_freeze_count s' = -1.
Proof.
  intros Hi Ha Hc. unfold tt_print_file. erewrite bind_eq by reflexivity. rewrite Ha. erewrite bind_eq by reflexivity.
  erewrite bind_eq by reflexivity. cbn. rewrite Hi. eexists. split; [reflexivity |]. cbn. lia.
Qed.

(** ** Printing *)
Section printing.
Variables (header : list Z) (pre msg : Z -> tt_event -> list Z).

Definition log_line (x : Z * tt_event) : list Z := pre x.1 x.2 ++ take 199 (msg x.1 x.2).

Lemma printk_loop_spec bufs fuel : forall s pos,
  bufs_ok s bufs -> bufs_timely bufs -> pos_ok s bufs pos -> (length (trace s bufs pos) <= fuel)%nat ->
  printk_loop pre msg fuel pos s = Ok (tt, s <| tt_log ::= fun l => l ++ (log_line <$> trace s bufs pos) |>).
Proof.
  induction fuel as [|fuel IH]; intros s pos Hb Ht Hp Hf; cbn [printk_loop];
    pose proof (next_event_spec s bufs pos Hb Ht Hp) as H; destruct (trace s bufs pos) as [|[c e] rest] eqn:Etr; try (simpl in Hf; lia);
    [by rewrite (bind_eq _ _ _ _ _ H); cbn; rewrite app_nil_r; destruct s .. |].
  destruct H as (pos' & E & Hp' & Etr'). rewrite (bind_eq _ _ _ _ _ E). erewrite bind_eq by reflexivity.
  set (s1 := s <| tt_log ::= _ |>). assert (trace s1 bufs pos' = rest) as Etr1 by exact Etr'.
  rewrite (IH s1 pos' Hb Ht Hp') by (rewrite Etr1; simpl in Hf; lia). rewrite Etr1. cbn. by rewrite <- app_assoc.
Qed.

Lemma trace_fuel s bufs pos : bufs_ok s bufs -> bufs_timely bufs ->
  (length (trace s bufs pos) <= Z.to_nat (Z.of_nat (length (tt_buffers s)) * tt_buffer_size s))%nat.
Proof. intros Hb Ht. pose proof (trace_length s bufs pos Hb Ht). destruct Hb as (_ & -> & _). rewrite length_fmap. lia. Qed.

(** [tt_printk] logs the header and one line per event of the merged trace; a
    message has at most 199 bytes. *)
Lemma printk_spec s evss : pow2 (tt_buffer_size s) -> tt_init_ s = true -> tt_printk_active s = false -> rings s evss ->
  Forall (Forall (fun e => ev_format e <> None)) evss ->
  exists s', tt_printk header pre msg s = Ok (tt, s') /\ tt_freeze_count s' = tt_freeze_count s /\ tt_printk_active s' = false /\
    tt_log s' = tt_log s ++ header :: (log_line <$> merged (visible (tt_buffer_size s) evss)).
Proof.
  intros H2 Hi Ha Hr Hf. unfold tt_printk. erewrite bind_eq by reflexivity. rewrite Ha. do 2 erewrite bind_eq by reflexivity.
  match goal with |- context [tt_init_ ?t] => change (tt_init_ t) with (tt_init_ s) end. rewrite Hi. cbn [negb].
  erewrite bind_eq by reflexivity. match goal with |- context [ (let* _ := tt_find_oldest in _) ?t ] => set (s1 := t) end.
  destruct (find_oldest_visible s1 evss H2 Hr Hf) as (bufs & pos & Hb & Ht & E & Hpos & El).
  rewrite (bind_eq _ _ _ _ _ E). do 3 erewrite bind_eq by reflexivity.
  match goal with |- context [ (printk_loop _ _ _ _ ;;; _) ?t ] => set (s2 := t) end.
  rewrite (bind_eq _ _ _ _ _ (printk_loop_spec bufs _ s2 pos Hb Ht Hpos (trace_fuel s2 bufs pos Hb Ht))).
  eexists. split; [reflexivity |]. cbn. split_ands; [lia | done |]. rewrite <- app_assoc. do 2 f_equal. simpl. do 2 f_equal.
  unfold trace. f_equal. exact El.
Qed.

(** The messages, with separators. *)
Definition join (printed : list Z) (l : list (Z * tt_event)) : list Z :=
  foldl (fun printed x => (if blen printed >? 0 then printed ++ [59; 32] else printed) ++ msg x.1 x.2) printed l.

Lemma join_prefix l : forall printed, exists k, join printed l = printed ++ k.
Proof.
  induction l as [|x l IH]; intros printed; [exists []; by rewrite app_nil_r |]. unfold join. cbn [foldl].
  match goal with |- context [foldl _ ?p l] => destruct (IH p) as [k Hk]; unfold join in Hk; rewrite Hk end.
  destruct (blen printed >? 0); rewrite <- ?app_assoc; eauto.
Qed.

Lemma put_text_spec length_ out text : blen out < length_ ->
  match put_text length_ out text with
  | (true, out') => out' = out ++ text /\ blen out' < length_
  | (false, out') => forall k, out' = take (Z.to_nat (length_ - 1)) ((out ++ text) ++ k)
  end.
Proof.
  unfold put_text, blen. intros H. destruct (Z.geb_spec (Z.of_nat (length text)) (length_ - Z.of_nat (length out))).
  - intros k. rewrite <- app_assoc, take_app_ge by lia. f_equal. rewrite take_app_le by lia. f_equal. lia.
  - rewrite length_app. split; [done | lia].
Qed.

Lemma messages_loop_spec bufs s length_ : bufs_ok s bufs -> bufs_timely bufs -> forall fuel pos printed,
  pos_ok s bufs pos -> (length (trace s bufs pos) <= fuel)%nat -> blen printed < length_ ->
  messages_loop msg fuel length_ pos printed s = Ok (take (Z.to_nat (length_ - 1)) (join printed (trace s bufs pos)), s).
Proof.
  intros Hb Ht. induction fuel as [|fuel IH]; intros pos printed Hp Hf Hl; cbn [messages_loop];
    pose proof (next_event_spec s bufs pos Hb Ht Hp) as H; destruct (trace s bufs pos) as [|[c e] rest] eqn:Etr; try (simpl in Hf; lia);
    [rewrite (bind_eq _ _ _ _ _ H); cbn; rewrite take_ge by (unfold blen in Hl; lia); done .. |].
  destruct H as (pos' & E & Hp' & Etr'). rewrite (bind_eq _ _ _ _ _ E). unfold join. cbn [foldl fst snd].
  set (p1 := if blen printed >? 0 then printed ++ [59; 32] else printed).
  assert (match (if blen printed >? 0 then put_text length_ printed [59; 32] else (true, printed)) with
    | (true, out') => out' = p1 /\ blen out' < length_
    | (false, out') => forall k, out' = take (Z.to_nat (length_ - 1)) (p1 ++ k) end) as H1.
  { unfold p1. destruct (blen printed >? 0); [by apply put_text_spec | done]. }
  destruct (if blen printed >? 0 then put_text length_ printed [59; 32] else (true, printed)) as [[] out1]; cbn [negb].
  2: { destruct (join_prefix rest (p1 ++ msg c e)) as [k Hk]. unfold join in Hk. rewrite Hk, <- app_assoc. unfold ret. by rewrite <- H1. }
  destruct H1 as [-> H1]. pose proof (put_text_spec length_ p1 (msg c e) H1) as H3.
  destruct (put_text length_ p1 (msg c e)) as [[] out2]; cbn [negb].
  - destruct H3 as [-> H3]. rewrite (IH pos' _ Hp') by (try done; rewrite Etr'; simpl in Hf; lia). by rewrite Etr'.
  - destruct (join_prefix rest (p1 ++ msg c e)) as [k Hk]. unfold join in Hk. rewrite Hk. unfold ret. by rewrite <- H3.
Qed.

(** [tt_get_messages] leaves the messages of the merged trace in the buffer, cut
    to its length, and recording goes on. *)
Lemma get_messages_spec s evss length_ : pow2 (tt_buffer_size s) -> tt_init_ s = true -> rings s evss -> 0 < length_ ->
  Forall (Forall (fun e => ev_format e <> None)) evss ->
  exists s', tt_get_messages msg true length_ s =
      Ok (take (Z.to_nat (length_ - 1)) (join [] (merged (visible (tt_buffer_size s) evss))), s') /\
    tt_freeze_count s' = tt_freeze_count s.
Proof.
  intros H2 Hi Hr Hl Hf. unfold tt_get_messages. erewrite bind_eq by reflexivity. rewrite Hi. cbn [negb].
  erewrite bind_eq by reflexivity. match goal with |- context [ (let* _ := tt_find_oldest in _) ?t ] => set (s1 := t) end.
  destruct (find_oldest_visible s1 evss H2 Hr Hf) as (bufs & pos & Hb & Ht & E & Hpos & El).
  rewrite (bind_eq _ _ _ _ _ E). do 2 erewrite bind_eq by reflexivity.
  rewrite (bind_eq _ _ _ _ _ (messages_loop_spec bufs s1 length_ Hb Ht _ pos [] Hpos (trace_fuel s1 bufs pos Hb Ht) Hl)).
  unfold trace. rewrite El. eexists. split; [reflexivity |]. cbn. lia.
Qed.
End printing.
