(* ===== verification/UserTrace.v ===== *)
(** * Time traces of user-level programs (util/time_trace.cc, util/time_trace.h)

    Threads record events in buffers of their own, which outlive them; the
    trace is the events of all buffers, merged by time.  An abstract machine
    has the events that each thread recorded, and the program is shown to
    print what it prints. *)
From S2P Require Import Prelude Lists Types TimeTrace TimeTraceRead TimeTraceRing.

(** ** Data *)

(** [class buffer]: [ub_ring] has [next_index] and [events]. *)
Record ubuffer := { ub_name : list Z; ub_ref_count : Z; ub_ring : tt_buffer }.
#[export] Instance eta_ubuffer : Eta ubuffer := fun r => Build_ubuffer (ub_name r) (ub_ref_count r) (ub_ring r).

(** [ut_tb] has the thread-local variable [tb] of each thread, unless it is
    NULL; [ut_heap] the buffers that exist. *)
Record ut_state := { ut_frozen : bool; ut_thread_buffers : list ptr; ut_tb : gmap Z ptr; ut_heap : gmap ptr ubuffer }.
#[export] Instance eta_ut_state : Eta ut_state := fun r => Build_ut_state (ut_frozen r) (ut_thread_buffers r) (ut_tb r) (ut_heap r).

Definition UM : Type -> Type := ST ut_state.
Definition uget {A} (f : ut_state -> A) : UM A := fun s => Ok (f s, s).
Definition uupd (f : ut_state -> ut_state) : UM unit := fun s => Ok (tt, f s).
Definition get_ub (p : ptr) : UM ubuffer := let* h := uget ut_heap in lift (get BadPointer (h !! p)).
Definition set_ub (p : ptr) (b : ubuffer) : UM unit := uupd (fun s => s <| ut_heap ::= insert p b |>).

Definition BUFFER_SIZE_EXP : Z := 16.

(** The size of buffers is an argument: the program has [2 ^ BUFFER_SIZE_EXP].
    [alloc] is the address that [new] returns. *)
Section program.
Variables (size : Z) (alloc : gmap ptr ubuffer -> ptr).

(** ** Recording *)

(** [buffer::record]. *)
Definition ub_record (p : ptr) (event : tt_event) : UM unit :=
  let* b := get_ub p in
  let* frozen := uget ut_frozen in
  if (frozen : bool) then ret tt else
  let r := ub_ring b in
  let* l := lift (arr_set (tb_events r) (tb_next_index r) event) in
  set_ub p (b <| ub_ring := Build_tt_buffer (next_slot size (tb_next_index r)) l |>).

(** [record] in thread [t]. *)
Definition time_trace_record (t : Z) (event : tt_event) : UM unit :=
  let* tb := uget ut_tb in
  let* p := lift (get BadPointer (tb !! t)) in
  ub_record p event.

(** The constructor of [buffer]. *)
Definition new_buffer (name : list Z) : ubuffer := Build_ubuffer name 0 (empty_buffer size).

(** The constructor of [thread_buffer] in thread [t]; [created] is the event
    "Created new thread_buffer".  The result is the member [buffer]. *)
Definition thread_buffer_new (t : Z) (name : list Z) (created : tt_event) : UM ptr :=
  let* tb := uget ut_tb in
  (if tb !! t is Some _ then ret tt else
   let* h := uget ut_heap in
   let p := alloc h in
   set_ub p (new_buffer name) ;;;
   uupd (fun s => s <| ut_tb ::= insert t p |> <| ut_thread_buffers ::= fun l => l ++ [p] |>) ;;;
   time_trace_record t created) ;;;
  let* tb := uget ut_tb in
  let* p := lift (get BadPointer (tb !! t)) in
  let* b := get_ub p in
  set_ub p (b <| ub_ref_count ::= fun n => n + 1 |>) ;;;
  ret p.

(** The destructor of an object whose [buffer] is [p], in thread [t]. *)
Definition thread_buffer_delete (t : Z) (p : ptr) : UM unit :=
  let* b := get_ub p in
  let n := ub_ref_count b - 1 in
  set_ub p (b <| ub_ref_count := n |>) ;;;
  if n =? 0 then uupd (fun s => s <| ut_tb ::= delete t |>) else ret tt.

Definition time_trace_freeze : UM unit := uupd (fun s => s <| ut_frozen := true |>).

(** The loop of [cleanup], from the last buffer to the first. *)
Fixpoint cleanup_loop (i : nat) : UM unit :=
  match i with
  | O => ret tt
  | S i =>
      let* l := uget ut_thread_buffers in
      let* p := lift (arr l (Z.of_nat i)) in
      let* b := get_ub p in
      (if ub_ref_count b =? 0 then uupd (fun s => s <| ut_heap ::= delete p |> <| ut_thread_buffers ::= delete i |>) else ret tt) ;;;
      cleanup_loop i
  end.
Definition time_trace_cleanup : UM unit := let* l := uget ut_thread_buffers in cleanup_loop (length l).

(** ** Printing *)

(** The first loop of [print_internal], for one buffer. *)
Definition first_index (r : tt_buffer) : result Z :=
  let index := (tb_next_index r + 1) mod size in
  let! e := arr (tb_events r) index in
  Ok (if ev_format e is Some _ then index else 0).

Fixpoint first_indexes (rs : list tt_buffer) : result (list Z) :=
  match rs with
  | [] => Ok []
  | r :: rs => let! i := first_index r in let! l := first_indexes rs in Ok (i :: l)
  end.

(** The time of the first event. *)
Fixpoint start_loop (rs : list tt_buffer) (current : list Z) (start_time : Z) : result Z :=
  match rs, current with
  | r :: rs, c :: current =>
      let! e := arr (tb_events r) c in
      start_loop rs current (if ev_format e is Some _ then if ev_timestamp e >? start_time then ev_timestamp e else start_time else start_time)
  | _, _ => Ok start_time
  end.

(** Skipping events before the start. *)
Fixpoint skip_before (fuel : nat) (r : tt_buffer) (start_time c : Z) : result Z :=
  let! e := arr (tb_events r) c in
  if (if ev_format e is Some _ then true else false) && (ev_timestamp e <? start_time) && negb (c =? tb_next_index r) then
    match fuel with
    | O => Fault OutOfFuel
    | S fuel => skip_before fuel r start_time ((c + 1) mod size)
    end
  else Ok c.

Fixpoint skip_each (rs : list tt_buffer) (current : list Z) (start_time : Z) : result (list Z) :=
  match rs, current with
  | r :: rs, c :: current =>
      let! c := skip_before (Z.to_nat size) r start_time c in
      let! l := skip_each rs current start_time in
      Ok (c :: l)
  | _, _ => Ok []
  end.

(** The buffer with the earliest event. *)
Fixpoint find_earliest (i : Z) (rs : list tt_buffer) (current : list Z) (cur_buf : option Z) (earliest_time : Z) : result (option Z) :=
  match rs, current with
  | r :: rs, c :: current =>
      let! e := arr (tb_events r) c in
      if negb (c =? tb_next_index r) && (if ev_format e is Some _ then true else false) && (ev_timestamp e <? earliest_time)
      then find_earliest (i + 1) rs current (Some i) (ev_timestamp e)
      else find_earliest (i + 1) rs current cur_buf earliest_time
  | _, _ => Ok cur_buf
  end.

(** The events in the order in which they are printed, with their buffers. *)
Fixpoint print_loop (fuel : nat) (rs : list tt_buffer) (current : list Z) : result (list (Z * tt_event)) :=
  let! cur_buf := find_earliest 0 rs current None (2 ^ 64 - 1) in
  match cur_buf with
  | None => Ok []
  | Some i =>
      match fuel with
      | O => Fault OutOfFuel
      | S fuel =>
          let! r := arr rs i in
          let! c := arr current i in
          let! e := arr (tb_events r) c in
          let! current := arr_set current i ((c + 1) mod size) in
          let! l := print_loop fuel rs current in
          Ok ((i, e) :: l)
      end
  end.

(** [print_internal]: the time of the first event, and the events with the
    names of their buffers. *)
Definition print_internal : UM (Z * list (list Z * tt_event)) :=
  time_trace_freeze ;;;
  let* l := uget ut_thread_buffers in
  let* h := uget ut_heap in
  let* bs := lift (get BadPointer (mapM (fun p => h !! p) l)) in
  let rs := map ub_ring bs in
  let* current := lift (first_indexes rs) in
  let* start_time := lift (start_loop rs current 0) in
  let* current := lift (skip_each rs current start_time) in
  let* out := lift (print_loop (length rs * Z.to_nat size) rs current) in
  uupd (fun s => s <| ut_frozen := false |>) ;;;
  ret (start_time, map (fun x => (default [] (ub_name <$> bs !! Z.to_nat x.1), x.2)) out).
End program.

(** ** The text

    What [snprintf] makes of the first line, of the times and the name in front
    of an event, and of the event. *)
Section text.
Variables (size : Z) (header : Z -> list Z) (pre : Z -> Z -> list Z -> tt_event -> list Z) (msg : tt_event -> list Z).

(** [core_id], an array of 20 characters. *)
Definition core_id (name : list Z) : list Z := take 19 ([91] ++ name ++ [93]).

(** The lines; [prev] is the time of the previous event.  A string gets at most
    999 characters of each output of [snprintf]. *)
Fixpoint string_lines (start prev : Z) (l : list (list Z * tt_event)) : list Z :=
  match l with
  | [] => []
  | (name, e) :: l =>
      take 999 ([10] ++ pre start prev (core_id name) e) ++ take 999 (msg e) ++ string_lines start (ev_timestamp e) l
  end.
Fixpoint file_lines (start prev : Z) (l : list (list Z * tt_event)) : list Z :=
  match l with
  | [] => []
  | (name, e) :: l => pre start prev (core_id name) e ++ msg e ++ [10] ++ file_lines start (ev_timestamp e) l
  end.

Definition string_text (x : Z * list (list Z * tt_event)) : list Z := take 999 (header x.1) ++ string_lines x.1 x.1 x.2.
Definition file_text (x : Z * list (list Z * tt_event)) : list Z := header x.1 ++ [10] ++ file_lines x.1 x.1 x.2.

Definition get_trace : UM (list Z) := let* x := print_internal size in ret (string_text x).

(** The result is the contents of the file, or [None] if it could not be
    opened. *)
Definition print_to_file (opened : bool) : UM (option (list Z)) :=
  if negb opened then ret None else
  let* x := print_internal size in ret (Some (file_text x)).
End text.

(** ** Specification *)

(** A buffer of the abstract machine: the thread that uses it, the number of
    objects that refer to it, and the events that were recorded. *)
Record abuffer := { ab_name : list Z; ab_owner : option Z; ab_refs : nat; ab_events : list tt_event }.
#[export] Instance eta_abuffer : Eta abuffer := fun r => Build_abuffer (ab_name r) (ab_owner r) (ab_refs r) (ab_events r).
Record ut_abs := { ua_frozen : bool; ua_buffers : list abuffer }.
#[export] Instance eta_ut_abs : Eta ut_abs := fun r => Build_ut_abs (ua_frozen r) (ua_buffers r).

(** The time from which all threads that recorded anything have events, and the
    events from then on. *)
Definition later_head (size t : Z) (evs : list tt_event) : Z :=
  match latest size evs with e :: _ => Z.max (ev_timestamp e) t | [] => t end.
Definition common_start (size : Z) (evss : list (list tt_event)) : Z := foldl (later_head size) 0 evss.
Definition printed (size : Z) (evss : list (list tt_event)) : list (list tt_event) :=
  (fun evs => since (common_start size evss) (latest size evs)) <$> evss.

Definition owned (t : Z) (b : abuffer) : Prop := ab_owner b = Some t.
#[export] Instance owned_dec t b : Decision (owned t b) := decide (ab_owner b = Some t).

Definition log_event (a : ut_abs) (e : tt_event) (evs : list tt_event) : list tt_event := if ua_frozen a then evs else evs ++ [e].

Inductive ut_op := UNew (t : Z) (name : list Z) (created : tt_event) | UDelete (t : Z) | URecord (t : Z) (e : tt_event)
| UFreeze | UCleanup | UTrace | UFile (opened : bool).

(** What the machine does; [None] is an error of the program that uses it. *)
Section spec.
Variables (size : Z) (header : Z -> list Z) (pre : Z -> Z -> list Z -> tt_event -> list Z) (msg : tt_event -> list Z).

Definition abs_print (a : ut_abs) : Z * list (list Z * tt_event) :=
  let evss := ab_events <$> ua_buffers a in
  (common_start size evss, (fun x => (default [] (ab_name <$> ua_buffers a !! Z.to_nat x.1), x.2)) <$> merged (printed size evss)).

Definition abs_step (a : ut_abs) (op : ut_op) : option (list (list Z) * ut_abs) :=
  let find t := fst <$> list_find (owned t) (ua_buffers a) in
  match op with
  | UNew t name e =>
      match find t with
      | Some i => Some ([], a <| ua_buffers ::= alter (fun b => b <| ab_refs ::= S |>) i |>)
      | None => Some ([], a <| ua_buffers ::= fun l => l ++ [Build_abuffer name (Some t) 1 (log_event a e [])] |>)
      end
  | UDelete t =>
      i ← find t;
      Some ([], a <| ua_buffers ::= alter (fun b => b <| ab_refs ::= pred |> <| ab_owner := if decide (ab_refs b = 1%nat) then None else Some t |>) i |>)
  | URecord t e =>
      i ← find t;
      Some ([], a <| ua_buffers ::= alter (fun b => b <| ab_events ::= log_event a e |>) i |>)
  | UFreeze => Some ([], a <| ua_frozen := true |>)
  | UCleanup => Some ([], a <| ua_buffers ::= filter (fun b => ab_owner b <> None) |>)
  | UTrace => Some ([string_text header pre msg (abs_print a)], a <| ua_frozen := false |>)
  | UFile false => Some ([], a)
  | UFile true => Some ([file_text header pre msg (abs_print a)], a <| ua_frozen := false |>)
  end.

Fixpoint abs_run (ops : list ut_op) (a : ut_abs) : option (list (list Z) * ut_abs) :=
  match ops with
  | [] => Some ([], a)
  | op :: ops => x ← abs_step a op; y ← abs_run ops x.2; Some (x.1 ++ y.1, y.2)
  end.
End spec.

(** The program, with the [thread_buffer] objects that each thread has. *)
Section run.
Variables (size : Z) (alloc : gmap ptr ubuffer -> ptr).
Variables (header : Z -> list Z) (pre : Z -> Z -> list Z -> tt_event -> list Z) (msg : tt_event -> list Z).

Definition ut_step (op : ut_op) (x : ut_state * gmap Z (list ptr)) : result (list (list Z) * (ut_state * gmap Z (list ptr))) :=
  let '(s, objs) := x in
  let run (m : UM unit) := let! (_, s) := m s in Ok ([], (s, objs)) in
  match op with
  | UNew t name e => let! (p, s) := thread_buffer_new size alloc t name e s in Ok ([], (s, <[t := p :: default [] (objs !! t)]> objs))
  | UDelete t =>
      match default [] (objs !! t) with
      | [] => Fault BadPointer
      | p :: l => let! (_, s) := thread_buffer_delete t p s in Ok ([], (s, <[t := l]> objs))
      end
  | URecord t e => run (time_trace_record size t e)
  | UFreeze => run time_trace_freeze
  | UCleanup => run time_trace_cleanup
  | UTrace => let! (text, s) := get_trace size header pre msg s in Ok ([text], (s, objs))
  | UFile opened => let! (text, s) := print_to_file size header pre msg opened s in Ok (match text with Some t => [t] | None => [] end, (s, objs))
  end.

Fixpoint ut_run (ops : list ut_op) (x : ut_state * gmap Z (list ptr)) : result (list (list Z) * (ut_state * gmap Z (list ptr))) :=
  match ops with
  | [] => Ok ([], x)
  | op :: ops => let! (o, x) := ut_step op x in let! (o', x) := ut_run ops x in Ok (o ++ o', x)
  end.
End run.

(** ** What a buffer keeps *)
Definition valid (e : tt_event) : Prop := ev_format e <> None.

(** [r] is what recording [evs] makes of an empty buffer. *)
Record uring (size : Z) (r : tt_buffer) (evs : list tt_event) : Prop := {
  ur_ring : ring size r evs;
  ur_valid : Forall valid evs;
  ur_free : forall k, (length evs <= k < Z.to_nat size)%nat -> ev_format <$> tb_events r !! k = Some None
}.

Lemma uring_empty size : pow2 size -> uring size (empty_buffer size) [].
Proof.
  intros H2. split; [by apply ring_empty | done |]. intros k [_ Hk]. cbn. by rewrite lookup_replicate_2.
Qed.

Lemma uring_record size r evs e : pow2 size -> uring size r evs -> valid e ->
  uring size (Build_tt_buffer (next_slot size (tb_next_index r)) (<[Z.to_nat (tb_next_index r) := e]> (tb_events r))) (evs ++ [e]).
Proof.
  intros H2 [Hr Hv Hf] He. pose proof (pow2_pos _ H2). split; [by apply ring_record | by apply Forall_app_2; [|constructor] |].
  rewrite length_app. cbn [length]. intros k Hk. cbn [tb_events]. rewrite (rg_next _ _ _ Hr), Z.mod_small by lia.
  rewrite list_lookup_insert_ne by lia. apply Hf. lia.
Qed.

(** The slot of the oldest event. *)
Definition first_slot (size : Z) (evs : list tt_event) : Z := Z.of_nat (length evs - Z.to_nat (size - 1)) mod size.

Lemma first_slot_range size evs : pow2 size -> 0 <= first_slot size evs < size.
Proof. intros H2. pose proof (pow2_pos _ H2). apply Z.mod_pos_bound. lia. Qed.

Lemma uring_slot size r evs k : pow2 size -> uring size r evs -> 0 <= k < size ->
  exists e, tb_events r !! Z.to_nat k = Some e /\ (ev_format e = None <-> Z.of_nat (length evs) <= k).
Proof.
  intros H2 [Hr Hv Hf] Hk. pose proof (pow2_pos _ H2) as Hs. pose proof (rg_length _ _ _ Hr) as Hl.
  destruct (lookup_lt_is_Some_2 (tb_events r) (Z.to_nat k)) as [e He]; [lia |]. exists e. split; [done |].
  destruct (decide (Z.of_nat (length evs) <= k)) as [Hle | Hgt].
  { specialize (Hf (Z.to_nat k) ltac:(lia)). rewrite He in Hf. by simplify_eq/=. }
  split; [|lia]. intros Hn. exfalso. set (n := Z.of_nat (length evs)) in *.
  (* the latest event that was stored in slot k *)
  set (j := k + size * ((n - 1 - k) / size)). pose proof (Z.div_mod (n - 1 - k) size ltac:(lia)). pose proof (Z.mod_pos_bound (n - 1 - k) size ltac:(lia)).
  assert (0 <= (n - 1 - k) / size) by (apply Z.div_pos; lia).
  assert (0 <= j < n /\ n - size <= j) as [Hj Hj'] by (unfold j; nia).
  destruct (lookup_lt_is_Some_2 evs (Z.to_nat j)) as [x Hx]; [lia |].
  pose proof (rg_events _ _ _ Hr _ _ Hx ltac:(lia)) as Hslot. rewrite Z2Nat.id in Hslot by lia.
  replace (j mod size) with k in Hslot by (unfold j; rewrite Z.mul_comm, Z_mod_plus_full, Z.mod_small; lia).
  simplify_eq. exact (proj1 (Forall_lookup _ _) Hv _ _ Hx Hn).
Qed.

Lemma first_index_spec size r evs : pow2 size -> uring size r evs -> first_index size r = Ok (first_slot size evs).
Proof.
  intros H2 Hu. pose proof (pow2_pos _ H2) as Hs. pose proof (ur_ring _ _ _ Hu) as Hr. unfold first_index, first_slot.
  assert (0 < size) as Hs0 by lia. pose proof (Z.mod_pos_bound (tb_next_index r + 1) size Hs0) as Hi.
  destruct (uring_slot size r evs _ H2 Hu Hi) as (e & He & Hf).
  rewrite (proj2 (arr_Ok _ _ e) (conj (proj1 Hi) He)). cbn [result_bind].
  rewrite (rg_next _ _ _ Hr), Zplus_mod_idemp_l in Hf |- *. set (n := Z.of_nat (length evs)) in *.
  destruct (decide (n < size - 1)) as [Hlt | Hge].
  - rewrite (proj2 Hf) by (rewrite Z.mod_small by lia; lia). by replace (length evs - Z.to_nat (size - 1))%nat with 0%nat by lia.
  - assert ((n + 1) mod size = Z.of_nat (length evs - Z.to_nat (size - 1)) mod size) as E.
    { replace (n + 1) with (Z.of_nat (length evs - Z.to_nat (size - 1)) + 1 * size) by lia. apply Z_mod_plus_full. }
    destruct (ev_format e) as [f|]; [by rewrite E |]. exfalso. pose proof (proj1 Hf eq_refl) as Hle.
    pose proof (Z.mod_pos_bound (n + 1) size Hs0). rewrite E in Hle. destruct (decide (n < size)); [|lia].
    replace (length evs - Z.to_nat (size - 1))%nat with 0%nat in Hle by lia. rewrite Z.mod_0_l in Hle by lia. lia.
Qed.

Lemma first_remaining size r evs : pow2 size -> uring size r evs -> remaining size r (first_slot size evs) = latest size evs.
Proof. intros H2 Hu. pose proof (pow2_pos _ H2). apply ring_remaining; [done | by apply ur_ring | lia | lia]. Qed.

(** ** Printing *)
Section print.
Variable (size : Z).
Context (H2 : pow2 size).

Lemma first_indexes_spec rs evss : Forall2 (uring size) rs evss -> first_indexes size rs = Ok (first_slot size <$> evss).
Proof.
  induction 1 as [|r evs rs evss Hu _ IH]; cbn [first_indexes]; [done |]. rewrite (first_index_spec size r evs H2 Hu).
  cbn [result_bind]. by rewrite IH.
Qed.

Lemma start_loop_spec rs evss : Forall2 (uring size) rs evss -> forall t,
  start_loop rs (first_slot size <$> evss) t = Ok (foldl (later_head size) t evss).
Proof.
  induction 1 as [|r evs rs evss Hu _ IH]; intros t; cbn [start_loop fmap list_fmap foldl]; [done |].
  pose proof (pow2_pos _ H2) as Hs. pose proof (first_slot_range size evs H2) as Hi.
  destruct (uring_slot size r evs _ H2 Hu Hi) as (e & He & Hf).
  rewrite (proj2 (arr_Ok _ _ e) (conj (proj1 Hi) He)). cbn [result_bind]. rewrite IH. do 2 f_equal.
  unfold later_head, latest. set (k := (length evs - Z.to_nat (size - 1))%nat) in *. destruct (drop k evs) as [|x l] eqn:Ed.
  - assert (length (drop k evs) = 0%nat) as Hk by (by rewrite Ed). rewrite length_drop in Hk.
    rewrite (proj2 Hf); [done |]. unfold first_slot. fold k. replace k with 0%nat by lia. rewrite Z.mod_0_l by lia. lia.
  - assert (evs !! k = Some x) as Hx by (rewrite <- (Nat.add_0_r k), <- lookup_drop, Ed; done).
    pose proof (rg_events _ _ _ (ur_ring _ _ _ Hu) _ _ Hx ltac:(lia)) as Hy. unfold first_slot in He. fold k in He. simplify_eq.
    pose proof (proj1 (Forall_lookup _ _) (ur_valid _ _ _ Hu) _ _ Hx) as Hv. unfold valid in Hv. destruct (ev_format e); [|done]. apply gtb_max.
Qed.

(** The positions [current] are in their buffers, with valid events from there. *)
Definition readable (r : tt_buffer) (c : Z) : Prop := buf_ok size r /\ 0 <= c < size /\ Forall valid (remaining size r c).

Lemma readable_at r c : readable r c -> exists e, arr (tb_events r) c = Ok e /\
  (c = tb_next_index r /\ remaining size r c = [] \/
   c <> tb_next_index r /\ valid e /\ remaining size r c = e :: remaining size r ((c + 1) mod size) /\ readable r ((c + 1) mod size)).
Proof.
  intros (Hb & Hc & Hv). destruct (lookup_lt_is_Some_2 (tb_events r) (Z.to_nat c)) as [e He]; [destruct Hb; lia |].
  exists e. split; [apply arr_Ok; split; [lia | done] |]. destruct (decide (c = tb_next_index r)) as [-> | Hne]; [left; split; [done | apply remaining_nil] |].
  right. rewrite (remaining_cons _ _ _ e) in Hv |- * by done. rewrite next_slot_mod in * by done. apply Forall_cons in Hv as [He' Hv].
  split; [done |]. split; [done |]. split; [done |]. split; [done |]. split; [|done]. apply Z.mod_pos_bound. pose proof (pow2_pos _ H2). lia.
Qed.

Lemma skip_before_spec r t : forall fuel c, readable r c -> (length (remaining size r c) <= fuel)%nat ->
  exists c', skip_before size fuel r t c = Ok c' /\ readable r c' /\ remaining size r c' = since t (remaining size r c).
Proof.
  induction fuel as [|fuel IH]; intros c Hc Hf; cbn [skip_before]; destruct (readable_at r c Hc) as (e & -> & [[-> Hr] | (Hne & He & Hr & Hn)]);
    cbn [result_bind].
  - rewrite Z.eqb_refl, andb_false_r. exists (tb_next_index r). by rewrite Hr.
  - rewrite Hr in Hf. cbn in Hf. lia.
  - rewrite Z.eqb_refl, andb_false_r. exists (tb_next_index r). by rewrite Hr.
  - destruct (Z.eqb_spec c (tb_next_index r)); [done |]. rewrite andb_true_r. unfold valid in He. destruct (ev_format e) eqn:Ef; [|done]. cbn [andb].
    rewrite Hr in Hf |- *. cbn [since length] in *. destruct (ev_timestamp e <? t); [apply IH; [done | lia] |]. exists c. by rewrite Hr.
Qed.

Lemma skip_each_spec t rs current : Forall2 readable rs current ->
  exists current', skip_each size rs current t = Ok current' /\ Forall2 readable rs current' /\
    zip_with (remaining size) rs current' = since t <$> zip_with (remaining size) rs current.
Proof.
  induction 1 as [|r c rs current Hc _ (l & E & Hl & Er)]; cbn [skip_each]; [by exists [] |].
  destruct (skip_before_spec r t (Z.to_nat size) c Hc) as (c' & -> & Hc' & Er').
  { apply remaining_length. pose proof (pow2_pos _ H2). lia. }
  cbn [result_bind]. rewrite E. exists (c' :: l). cbn [zip_with fmap list_fmap]. rewrite Er, Er'. split_ands; [done | by constructor | done].
Qed.

Lemma find_earliest_spec rs current : Forall2 readable rs current -> forall i best time,
  find_earliest i rs current best time = Ok (pick i (zip_with (remaining size) rs current) best time).
Proof.
  induction 1 as [|r c rs current Hc _ IH]; intros i best time; cbn [find_earliest zip_with pick]; [done |].
  destruct (readable_at r c Hc) as (e & -> & [[-> ->] | (Hne & He & -> & Hn)]); cbn [result_bind].
  - rewrite Z.eqb_refl. apply IH.
  - destruct (Z.eqb_spec c (tb_next_index r)); [done |]. unfold valid in He. destruct (ev_format e) eqn:Ef; [|done]. cbn [negb andb].
    destruct (ev_timestamp e <? time); apply IH.
Qed.

Lemma zip_remaining_insert rs current i r c : rs !! i = Some r ->
  zip_with (remaining size) rs (<[i := c]> current) = <[i := remaining size r c]> (zip_with (remaining size) rs current).
Proof.
  revert rs i. induction current as [|d current IH]; intros [|r' rs] [|i] Hr; simplify_eq/=; try done. f_equal. by apply IH.
Qed.

Lemma print_loop_spec rs : forall fuel current, Forall2 readable rs current -> (total (zip_with (remaining size) rs current) <= fuel)%nat ->
  timely (zip_with (remaining size) rs current) ->
  print_loop size fuel rs current = Ok (merged (zip_with (remaining size) rs current)).
Proof.
  induction fuel as [|fuel IH]; intros current Hc Hf Ht; cbn [print_loop]; rewrite (find_earliest_spec rs current Hc); cbn [result_bind];
    set (ls := zip_with (remaining size) rs current) in *; unfold merged;
    (destruct (pick 0 ls None (2 ^ 64 - 1)) as [i|] eqn:Ep; [|by unfold total; rewrite (pick_none ls Ht Ep)]);
    destruct (pick_some ls i Ep) as (e & l & Hi & Hl & _); pose proof (total_insert ls _ e l Hl) as Etot; [lia |].
  rewrite Etot. cbn [merge]. rewrite Ep, Hl. cbn [fmap].
  unfold ls in Hl. apply lookup_zip_with_Some in Hl as (r & c & El & Hr & Hcc). pose proof (Forall2_lookup_lr _ _ _ _ _ _ Hc Hr Hcc) as Hrd.
  rewrite (proj2 (arr_Ok rs i r)), (proj2 (arr_Ok current i c)) by done. cbn [result_bind].
  destruct (readable_at r c Hrd) as (x & -> & [[_ Hx] | (_ & _ & Hx & Hn)]); [congruence |]. rewrite Hx in El. simplify_eq. cbn [result_bind].
  rewrite (proj2 (arr_set_Ok current i ((c + 1) mod size) _)) by (split; [apply lookup_lt_Some in Hcc; lia | reflexivity]). cbn [result_bind].
  pose proof (zip_remaining_insert rs current (Z.to_nat i) r ((c + 1) mod size) Hr) as Ez. fold ls in Ez. rewrite IH.
  - cbn [result_bind]. rewrite Ez. done.
  - rewrite <- (list_insert_id rs (Z.to_nat i) r Hr). by apply Forall2_insert.
  - rewrite Ez. lia.
  - rewrite Ez. apply (timely_insert ls _ x); [done |]. unfold ls. rewrite lookup_zip_with, Hr, Hcc. cbn. by rewrite Hx.
Qed.
End print.

(** ** Refinement *)
Section refinement.
Variables (size : Z) (alloc : gmap ptr ubuffer -> ptr).
Variables (header : Z -> list Z) (pre : Z -> Z -> list Z -> tt_event -> list Z) (msg : tt_event -> list Z).
Context (H2 : pow2 size) (Halloc : forall h, h !! alloc h = None).

Definition event_fits (e : tt_event) : Prop := valid e /\ ev_timestamp e < 2 ^ 64 - 1.

(** A buffer and its abstraction. *)
Record represents (b : ubuffer) (a : abuffer) : Prop := {
  rp_name : ub_name b = ab_name a;
  rp_refs : ub_ref_count b = Z.of_nat (ab_refs a);
  rp_ring : uring size (ub_ring b) (ab_events a);
  rp_timely : Forall (fun e => ev_timestamp e < 2 ^ 64 - 1) (ab_events a);
  rp_owner : ab_owner a = None <-> ab_refs a = 0%nat
}.
Definition held (h : gmap ptr ubuffer) (z : ptr * abuffer) : Prop := exists b, h !! z.1 = Some b /\ represents b z.2.

(** [zs] has the buffers with their addresses. *)
Record refines (zs : list (ptr * abuffer)) (a : ut_abs) (s : ut_state) (objs : gmap Z (list ptr)) : Prop := {
  rf_frozen : ut_frozen s = ua_frozen a;
  rf_ptrs : ut_thread_buffers s = zs.*1;
  rf_abs : ua_buffers a = zs.*2;
  rf_nodup : NoDup zs.*1;
  rf_held : Forall (held (ut_heap s)) zs;
  rf_tb : forall t p, ut_tb s !! t = Some p <-> exists b, (p, b) ∈ zs /\ ab_owner b = Some t;
  rf_objs : forall t p b, (p, b) ∈ zs -> ab_owner b = Some t -> default [] (objs !! t) = replicate (ab_refs b) p;
  rf_none : forall t, ut_tb s !! t = None -> default [] (objs !! t) = []
}.

(** The buffer that thread [t] uses. *)
Lemma find_owned zs a s objs t : refines zs a s objs ->
  match list_find (owned t) (ua_buffers a) with
  | Some (i, b) => exists p, zs !! i = Some (p, b) /\ ab_owner b = Some t /\ ut_tb s !! t = Some p
  | None => ut_tb s !! t = None
  end.
Proof.
  intros Hr. rewrite (rf_abs _ _ _ _ Hr). destruct (list_find (owned t) zs.*2) as [[i b]|] eqn:Ef.
  - apply list_find_Some in Ef as (Hi & Ho & _). apply list_lookup_fmap_Some in Hi as ([p b'] & Eb & Hz). simpl in Eb. subst b'.
    exists p. split_ands; [done | done |]. apply (rf_tb _ _ _ _ Hr). exists b. split; [by eapply list_elem_of_lookup_2 | done].
  - apply list_find_None in Ef. destruct (ut_tb s !! t) as [p|] eqn:Et; [|done]. apply (rf_tb _ _ _ _ Hr) in Et as (b & Hz & Ho).
    rewrite Forall_forall in Ef. destruct (Ef b); [|done]. apply list_elem_of_fmap. by exists (p, b).
Qed.

Lemma held_at zs a s objs i p b : refines zs a s objs -> zs !! i = Some (p, b) -> exists u, ut_heap s !! p = Some u /\ represents u b.
Proof. intros Hr Hz. exact (proj1 (Forall_lookup _ _) (rf_held _ _ _ _ Hr) _ _ Hz). Qed.

Lemma nodup_at zs i j (p : ptr) (b b' : abuffer) : NoDup zs.*1 -> zs !! i = Some (p, b) -> zs !! j = Some (p, b') -> i = j.
Proof.
  intros Hn Hi Hj. apply (NoDup_lookup _ i j p Hn); rewrite list_lookup_fmap; [by rewrite Hi | by rewrite Hj].
Qed.

(** Changing the buffer at position [i]. *)
Lemma held_alter h zs i p b b' u : NoDup zs.*1 -> Forall (held h) zs -> zs !! i = Some (p, b) -> represents u b' ->
  Forall (held (<[p := u]> h)) (<[i := (p, b')]> zs).
Proof.
  intros Hn Hh Hi Hu. apply Forall_lookup. intros j [q c] Hj. destruct (decide (i = j)) as [<- | Hne].
  - rewrite list_lookup_insert_eq in Hj by (by eapply lookup_lt_Some). simplify_eq. exists u. by rewrite lookup_insert_eq.
  - rewrite list_lookup_insert_ne in Hj by done. destruct (proj1 (Forall_lookup _ _) Hh _ _ Hj) as (v & Hv & Hrep). exists v. split; [|done].
    cbn [fst] in *. rewrite lookup_insert_ne; [done |]. intros ->. apply Hne. by eapply nodup_at.
Qed.

Lemma fst_insert zs i (p : ptr) (b b' : abuffer) : zs !! i = Some (p, b) -> (<[i := (p, b')]> zs).*1 = zs.*1.
Proof. intros Hi. rewrite list_fmap_insert. apply list_insert_id. by rewrite list_lookup_fmap, Hi. Qed.

Lemma snd_alter zs i (p : ptr) (b : abuffer) f : zs !! i = Some (p, b) -> (<[i := (p, f b)]> zs).*2 = alter f i zs.*2.
Proof.
  intros Hi. rewrite list_fmap_insert. symmetry. rewrite list_insert_alter. apply list_alter_ext; [|done].
  intros x Hx. rewrite list_lookup_fmap, Hi in Hx. by simplify_eq/=.
Qed.

Lemma elem_insert zs i (p : ptr) (b b' : abuffer) q c : zs !! i = Some (p, b) -> NoDup zs.*1 ->
  (q, c) ∈ <[i := (p, b')]> zs <-> (q = p /\ c = b' \/ q <> p /\ (q, c) ∈ zs).
Proof.
  intros Hi Hn. rewrite list_elem_of_lookup. split.
  - intros [j Hj]. destruct (decide (i = j)) as [<- | Hne].
    + rewrite list_lookup_insert_eq in Hj by (by eapply lookup_lt_Some). simplify_eq. by left.
    + rewrite list_lookup_insert_ne in Hj by done. right. split; [|by eapply list_elem_of_lookup_2]. intros ->. apply Hne. by eapply nodup_at.
  - intros [[-> ->] | [Hne Hz]].
    + exists i. apply list_lookup_insert_eq. by eapply lookup_lt_Some.
    + apply list_elem_of_lookup in Hz as [j Hj]. exists j. rewrite list_lookup_insert_ne; [done |]. intros ->. congruence.
Qed.

(** An operation of thread [t] on its buffer. *)
Lemma refines_at zs a s objs i p b b' t u tb' objs' :
  refines zs a s objs -> zs !! i = Some (p, b) -> ab_owner b = Some t -> represents u b' ->
  (ab_owner b' = Some t /\ tb' = ut_tb s \/ ab_owner b' = None /\ tb' = delete t (ut_tb s)) ->
  default [] (objs' !! t) = replicate (ab_refs b') p -> (forall t', t' <> t -> objs' !! t' = objs !! t') ->
  refines (<[i := (p, b')]> zs) (a <| ua_buffers := (<[i := (p, b')]> zs).*2 |>) (s <| ut_heap ::= insert p u |> <| ut_tb := tb' |>) objs'.
Proof.
  intros Hr Hi Ho Hu Htb Hot Hoo. pose proof (rf_nodup _ _ _ _ Hr) as Hn. pose proof (rf_tb _ _ _ _ Hr) as Ht.
  assert (forall c t', t' <> t -> (p, c) ∈ zs -> ab_owner c <> Some t') as Hown.
  { intros c t' Hne Hc Hc'. apply Hne. apply list_elem_of_lookup in Hc as [j Hj]. pose proof (nodup_at _ _ _ _ _ _ Hn Hi Hj) as <-. congruence. }
  assert (ut_tb s !! t = Some p) as Htp by (apply Ht; exists b; split; [by eapply list_elem_of_lookup_2 | done]).
  assert (forall q c, (q, c) ∈ zs -> ab_owner c = Some t -> q = p) as Hone.
  { intros q c Hc Hc'. assert (ut_tb s !! t = Some q) by (apply Ht; by exists c). congruence. }
  split; cbn.
  - exact (rf_frozen _ _ _ _ Hr).
  - rewrite (fst_insert _ _ _ _ _ Hi). exact (rf_ptrs _ _ _ _ Hr).
  - done.
  - by rewrite (fst_insert _ _ _ _ _ Hi).
  - eapply held_alter; [done | exact (rf_held _ _ _ _ Hr) | done | done].
  - intros t' q. assert ((exists c, (q, c) ∈ <[i:=(p, b')]> zs /\ ab_owner c = Some t') <->
      (t' = t /\ q = p /\ ab_owner b' = Some t \/ t' <> t /\ ut_tb s !! t' = Some q)) as ->.
    { setoid_rewrite (elem_insert _ _ _ _ b' _ _ Hi Hn). setoid_rewrite Ht. split.
      - intros (c & [[-> ->] | [Hq Hc]] & Hc').
        + left. destruct Htb as [[Hb _] | [Hb _]]; rewrite Hb in Hc'; [|done]. by simplify_eq.
        + right. split; [|by exists c]. intros ->. apply Hq. by eapply Hone.
      - intros [(-> & -> & Hb) | (Hne & c & Hc & Hc')]; [exists b'; split; [by left | done] |]. exists c. split; [|done]. right.
        split; [|done]. intros ->. by eapply (Hown c t'). }
    destruct Htb as [[Hb ->] | [Hb ->]].
    + destruct (decide (t' = t)) as [-> | Hne]; [rewrite Htp; naive_solver | naive_solver].
    + destruct (decide (t' = t)) as [-> | Hne]; [rewrite lookup_delete_eq | rewrite lookup_delete_ne by done]; naive_solver.
  - intros t' q c Hc Hc'. apply (elem_insert _ _ _ _ _ _ _ Hi Hn) in Hc as [[-> ->] | [Hq Hc]].
    + assert (t' = t) as -> by (destruct Htb as [[Hb _] | [Hb _]]; congruence). done.
    + rewrite Hoo; [by eapply (rf_objs _ _ _ _ Hr) |]. intros ->. apply Hq. by eapply Hone.
  - intros t' Hnone. destruct (decide (t' = t)) as [-> | Hne].
    + rewrite Hot. destruct Htb as [[Hb ->] | [Hb ->]]; [congruence |]. by rewrite (proj1 (rp_owner _ _ Hu) Hb).
    + rewrite Hoo by done. apply (rf_none _ _ _ _ Hr). destruct Htb as [[Hb ->] | [Hb ->]]; [done |]. by rewrite lookup_delete_ne in Hnone.
Qed.

Lemma find_some zs a s objs t i : refines zs a s objs -> fst <$> list_find (owned t) (ua_buffers a) = Some i ->
  exists p b u, zs !! i = Some (p, b) /\ ab_owner b = Some t /\ ut_tb s !! t = Some p /\ ut_heap s !! p = Some u /\ represents u b.
Proof.
  intros Hr Hf. pose proof (find_owned zs a s objs t Hr) as H. destruct (list_find (owned t) (ua_buffers a)) as [[j c]|]; [|done].
  cbn in Hf. simplify_eq. destruct H as (p & Hz & Ho & Ht). destruct (held_at _ _ _ _ _ _ _ Hr Hz) as (u & Hu & Hrep). by exists p, c, u.
Qed.

Lemma get_ub_eq s p u : ut_heap s !! p = Some u -> get_ub p s = Ok (u, s).
Proof. intros Hu. unfold get_ub. erewrite bind_eq by reflexivity. by rewrite Hu. Qed.

(** Recording in a buffer. *)
Lemma ub_record_spec a s p u evs e : ut_frozen s = ua_frozen a -> ut_heap s !! p = Some u -> uring size (ub_ring u) evs -> valid e ->
  exists r, ub_record size p e s = Ok (tt, s <| ut_heap ::= insert p (u <| ub_ring := r |>) |>) /\ uring size r (log_event a e evs).
Proof.
  intros Hfr Hu Hr He. unfold ub_record, log_event. rewrite (bind_eq _ _ _ _ _ (get_ub_eq s p u Hu)). erewrite bind_eq by reflexivity. rewrite Hfr.
  destruct (ua_frozen a).
  - exists (ub_ring u). split; [|done]. assert (u <| ub_ring := ub_ring u |> = u) as -> by (by destruct u).
    destruct s as [fr tbs tb h]. unfold ret. cbn -[insert] in *. by rewrite insert_id.
  - pose proof (ring_buf_ok _ _ _ H2 (ur_ring _ _ _ Hr)) as [Hl Hn]. eexists. split; [|by apply uring_record].
    erewrite bind_eq; [reflexivity |]. unfold lift.
    rewrite (proj2 (arr_set_Ok (tb_events (ub_ring u)) (tb_next_index (ub_ring u)) e _)) by (split; [lia | reflexivity]). reflexivity.
Qed.

Lemma log_fits a e evs : event_fits e -> Forall (fun e => ev_timestamp e < 2 ^ 64 - 1) evs ->
  Forall (fun e => ev_timestamp e < 2 ^ 64 - 1) (log_event a e evs).
Proof. intros [_ He] Hv. unfold log_event. destruct (ua_frozen a); [done |]. by apply Forall_app_2; [|constructor]. Qed.

Lemma record_refines zs a s objs t i e : refines zs a s objs -> fst <$> list_find (owned t) (ua_buffers a) = Some i -> event_fits e ->
  exists zs' s', time_trace_record size t e s = Ok (tt, s') /\
    refines zs' (a <| ua_buffers ::= alter (fun b => b <| ab_events ::= log_event a e |>) i |>) s' objs.
Proof.
  intros Hr Hf He. destruct (find_some _ _ _ _ _ _ Hr Hf) as (p & b & u & Hz & Ho & Ht & Hu & Hrep).
  destruct (ub_record_spec a s p u (ab_events b) e (rf_frozen _ _ _ _ Hr) Hu (rp_ring _ _ Hrep) (proj1 He)) as (r & E & Hring).
  eexists _, _. split.
  - unfold time_trace_record. erewrite bind_eq by reflexivity. rewrite Ht. erewrite bind_eq by reflexivity. exact E.
  - pose proof (refines_at zs a s objs i p b (b <| ab_events ::= log_event a e |>) t (u <| ub_ring := r |>) (ut_tb s) objs Hr Hz Ho) as H.
    rewrite (snd_alter zs i p b (fun b => b <| ab_events ::= log_event a e |>) Hz), <- (rf_abs _ _ _ _ Hr) in H.
    apply H; [|by left | | done].
    + destruct Hrep. split; cbn; try done. by apply log_fits.
    + exact (rf_objs _ _ _ _ Hr _ _ _ (list_elem_of_lookup_2 _ _ _ Hz) Ho).
Qed.

(** A new buffer. *)
Lemma refines_new zs a s objs t p name u evs : refines zs a s objs -> ut_tb s !! t = None -> ut_heap s !! p = None ->
  let b := Build_abuffer name (Some t) 1 evs in represents u b ->
  refines (zs ++ [(p, b)]) (a <| ua_buffers ::= fun l => l ++ [b] |>)
    (s <| ut_heap ::= insert p u |> <| ut_tb ::= insert t p |> <| ut_thread_buffers ::= fun l => l ++ [p] |>) (<[t := [p]]> objs).
Proof.
  intros Hr Ht Hp b Hu.
  assert (forall c, (p, c) ∉ zs) as Hnew.
  { intros c Hc. destruct (proj1 (Forall_forall _ _) (rf_held _ _ _ _ Hr) _ Hc) as (v & Hv & _). cbn in Hv. congruence. }
  assert (forall q c, (q, c) ∈ zs -> ab_owner c <> Some t) as Hown.
  { intros q c Hc Hc'. assert (ut_tb s !! t = Some q) by (apply (rf_tb _ _ _ _ Hr); by exists c). congruence. }
  split; cbn -[insert].
  - exact (rf_frozen _ _ _ _ Hr).
  - by rewrite (rf_ptrs _ _ _ _ Hr), fmap_app.
  - by rewrite (rf_abs _ _ _ _ Hr), fmap_app.
  - rewrite fmap_app. apply NoDup_app. split_ands; [exact (rf_nodup _ _ _ _ Hr) | | apply NoDup_singleton].
    intros q Hq Hq'. apply list_elem_of_singleton in Hq'. apply list_elem_of_fmap in Hq as ([q' c] & Eq & Hc). simplify_eq/=. by eapply Hnew.
  - apply Forall_app_2; [|constructor; [exists u; split; [apply lookup_insert_eq | done] | constructor]].
    eapply Forall_impl; [exact (rf_held _ _ _ _ Hr) |]. intros [q c] (v & Hv & Hrep). exists v. split; [|done]. cbn -[insert] in *.
    rewrite lookup_insert_ne; [done | congruence].
  - intros t' q. setoid_rewrite elem_of_app. setoid_rewrite list_elem_of_singleton. destruct (decide (t = t')) as [<- | Hne].
    + rewrite lookup_insert_eq. split; [intros ?; simplify_eq; exists b; split; [by right | done] |]. intros (c & [Hc | Hc] & Ho); [by eapply Hown in Ho | by injection Hc as -> ->].
    + rewrite lookup_insert_ne, (rf_tb _ _ _ _ Hr) by done. split; [intros (c & Hc & Ho); exists c; split; [by left | done] |].
      intros (c & [Hc | Hc] & Ho); [by exists c |]. injection Hc as -> ->. cbn in Ho. congruence.
  - intros t' q c Hc Ho. apply elem_of_app in Hc as [Hc | Hc].
    + rewrite lookup_insert_ne by (intros ->; by eapply Hown). by eapply (rf_objs _ _ _ _ Hr).
    + apply list_elem_of_singleton in Hc. injection Hc as -> ->. cbn in Ho. simplify_eq. by rewrite lookup_insert_eq.
  - intros t' Hn. destruct (decide (t = t')) as [<- | Hne]; [by rewrite lookup_insert_eq in Hn |].
    rewrite lookup_insert_ne in Hn by done. rewrite lookup_insert_ne by done. by apply (rf_none _ _ _ _ Hr).
Qed.

Lemma new_spec zs a s objs t name e : refines zs a s objs -> event_fits e ->
  exists x, abs_step size header pre msg a (UNew t name e) = Some ([], x) /\
    exists zs' s' objs', ut_step size alloc header pre msg (UNew t name e) (s, objs) = Ok ([], (s', objs')) /\ refines zs' x s' objs'.
Proof.
  intros Hr He. cbn [abs_step ut_step]. destruct (fst <$> list_find (owned t) (ua_buffers a)) as [i|] eqn:Hf.
  - destruct (find_some _ _ _ _ _ _ Hr Hf) as (p & b & u & Hz & Ho & Ht & Hu & Hrep). eexists. split; [reflexivity |]. eexists _, _, _. split.
    + unfold thread_buffer_new. erewrite bind_eq by reflexivity. rewrite Ht. erewrite bind_eq by reflexivity.
      erewrite bind_eq by reflexivity. rewrite Ht. erewrite bind_eq by reflexivity. rewrite (bind_eq _ _ _ _ _ (get_ub_eq s p u Hu)). reflexivity.
    + pose proof (refines_at zs a s objs i p b (b <| ab_refs ::= S |>) t (u <| ub_ref_count ::= fun n => n + 1 |>) (ut_tb s)
        (<[t := p :: default [] (objs !! t)]> objs) Hr Hz Ho) as H.
      rewrite (snd_alter zs i p b (fun b => b <| ab_refs ::= S |>) Hz), <- (rf_abs _ _ _ _ Hr) in H. apply H.
      * destruct Hrep. split; cbn; try done; [lia | by rewrite Ho].
      * by left.
      * rewrite lookup_insert_eq. cbn. f_equal. exact (rf_objs _ _ _ _ Hr _ _ _ (list_elem_of_lookup_2 _ _ _ Hz) Ho).
      * intros t' Hne. by rewrite lookup_insert_ne.
  - pose proof (find_owned zs a s objs t Hr) as Ht. destruct (list_find (owned t) (ua_buffers a)) as [|]; [done |].
    eexists. split; [reflexivity |]. set (p := alloc (ut_heap s)). pose proof (Halloc (ut_heap s)) as Hp. fold p in Hp.
    set (u0 := new_buffer size name).
    set (s1 := s <| ut_heap ::= insert p u0 |> <| ut_tb ::= insert t p |> <| ut_thread_buffers ::= fun l => l ++ [p] |>).
    destruct (ub_record_spec a s1 p u0 [] e (rf_frozen _ _ _ _ Hr) (lookup_insert_eq _ _ _) (uring_empty size H2) (proj1 He)) as (r & E & Hring).
    set (s2 := s1 <| ut_heap ::= insert p (u0 <| ub_ring := r |>) |>) in *.
    assert (ut_tb s1 !! t = Some p) as Ht1 by apply lookup_insert_eq.
    assert (ut_heap s2 !! p = Some (u0 <| ub_ring := r |>)) as Hu2 by apply lookup_insert_eq.
    eexists _, _, _. split.
    + unfold thread_buffer_new. erewrite bind_eq by reflexivity. rewrite Ht. rewrite (bind_eq _ _ _ tt s2).
      2: { erewrite bind_eq by reflexivity. erewrite bind_eq by reflexivity. erewrite bind_eq by reflexivity. unfold time_trace_record.
           erewrite bind_eq by reflexivity. change (ut_tb (upd ut_thread_buffers _ _)) with (ut_tb s1). rewrite Ht1. erewrite bind_eq by reflexivity. exact E. }
      erewrite bind_eq by reflexivity. change (ut_tb s2) with (ut_tb s1). rewrite Ht1. erewrite bind_eq by reflexivity.
      rewrite (bind_eq _ _ _ _ _ (get_ub_eq s2 p _ Hu2)). erewrite bind_eq by reflexivity. reflexivity.
    + rewrite (rf_none _ _ _ _ Hr t Ht).
      pose proof (refines_new zs a s objs t p name (u0 <| ub_ring := r |> <| ub_ref_count ::= fun n => n + 1 |>) (log_event a e []) Hr Ht Hp) as H.
      unfold s2, s1. cbn -[insert] in *. rewrite !insert_insert_eq. apply H. split; cbn; try done. by apply log_fits; [|constructor].
Qed.

Lemma delete_spec zs a s objs t i : refines zs a s objs -> fst <$> list_find (owned t) (ua_buffers a) = Some i ->
  exists zs' s' objs', ut_step size alloc header pre msg (UDelete t) (s, objs) = Ok ([], (s', objs')) /\
    refines zs' (a <| ua_buffers ::= alter (fun b => b <| ab_refs ::= pred |> <| ab_owner := if decide (ab_refs b = 1%nat) then None else Some t |>) i |>)
      s' objs'.
Proof.
  intros Hr Hf. destruct (find_some _ _ _ _ _ _ Hr Hf) as (p & b & u & Hz & Ho & Ht & Hu & Hrep).
  pose proof (rf_objs _ _ _ _ Hr _ _ _ (list_elem_of_lookup_2 _ _ _ Hz) Ho) as Hobj.
  destruct (ab_refs b) as [|n] eqn:En; [exfalso; apply (rp_owner _ _ Hrep) in En; congruence |]. cbn [replicate] in Hobj.
  set (f := fun b => b <| ab_refs ::= pred |> <| ab_owner := if decide (ab_refs b = 1%nat) then None else Some t |>).
  pose proof (refines_at zs a s objs i p b (f b) t (u <| ub_ref_count := Z.of_nat n |>)
    (if decide (n = 0%nat) then delete t (ut_tb s) else ut_tb s) (<[t := replicate n p]> objs) Hr Hz Ho) as H.
  rewrite (snd_alter zs i p b f Hz), <- (rf_abs _ _ _ _ Hr) in H.
  eexists _, _, _. split; [|apply H].
  - cbn [ut_step]. rewrite Hobj. unfold thread_buffer_delete. rewrite (bind_eq _ _ _ _ _ (get_ub_eq s p u Hu)). rewrite (rp_refs _ _ Hrep), En.
    replace (Z.of_nat (S n) - 1) with (Z.of_nat n) by lia. erewrite bind_eq by reflexivity.
    destruct (Z.eqb_spec (Z.of_nat n) 0), (decide (n = 0%nat)); try lia; reflexivity.
  - destruct Hrep as [Hname Hrefs Hring Htime Hown]. split; cbn; rewrite ?En; try done. destruct n; [by rewrite decide_True | by rewrite decide_False].
  - cbn. rewrite En. destruct (decide (n = 0%nat)) as [-> | Hne]; [right | left]; (split; [|done]); [by rewrite decide_True | rewrite decide_False by lia; done].
  - cbn. rewrite En. by rewrite lookup_insert_eq.
  - intros t' Hne. by rewrite lookup_insert_ne.
Qed.

(** Cleaning up. *)
Definition in_use (z : ptr * abuffer) : Prop := ab_owner z.2 <> None.
#[local] Instance in_use_dec z : Decision (in_use z) := decide (ab_owner z.2 <> None).

Lemma cleanup_loop_spec zs1 : forall zs2 s, ut_thread_buffers s = (zs1 ++ zs2).*1 -> NoDup (zs1 ++ zs2).*1 -> Forall (held (ut_heap s)) (zs1 ++ zs2) ->
  exists h, cleanup_loop (length zs1) s = Ok (tt, s <| ut_heap := h |> <| ut_thread_buffers := (filter in_use zs1 ++ zs2).*1 |>) /\
    Forall (held h) (filter in_use zs1 ++ zs2).
Proof.
  induction zs1 as [|[p b] zs1 IH] using rev_ind; intros zs2 s Hl Hn Hh.
  { exists (ut_heap s). split; [|done]. cbn in *. unfold ret. rewrite <- Hl. by destruct s. }
  rewrite length_app, Nat.add_comm. cbn [length Nat.add cleanup_loop]. rewrite <- app_assoc in Hl, Hn, Hh. cbn [app] in Hl, Hn, Hh.
  pose proof (proj1 (Forall_app _ _ _) Hh) as [_ Hh2].
  apply Forall_cons in Hh2 as [(u & Hu & Hrep) Hh2]. cbn [fst snd] in Hu, Hrep.
  assert ((zs1 ++ (p, b) :: zs2).*1 !! length zs1 = Some p) as Hp.
  { rewrite fmap_app, lookup_app_r; rewrite length_fmap; [|done]. by rewrite Nat.sub_diag. }
  erewrite bind_eq by reflexivity.
  erewrite bind_eq by (unfold lift; rewrite Hl, (proj2 (arr_Ok _ (Z.of_nat (length zs1)) p)) by (rewrite Nat2Z.id; split; [lia | done]); reflexivity).
  rewrite (bind_eq _ _ _ _ _ (get_ub_eq s p u Hu)), (rp_refs _ _ Hrep), filter_app.
  destruct (Z.eqb_spec (Z.of_nat (ab_refs b)) 0) as [E0 | E0].
  - erewrite bind_eq by reflexivity. assert (ab_owner b = None) as Ho by (apply (rp_owner _ _ Hrep); lia).
    rewrite filter_cons_False, filter_nil, app_nil_r by (intros []; done).
    assert ((p ∉ (zs1 ++ zs2).*1) /\ NoDup (zs1 ++ zs2).*1) as [Hp' Hn'].
    { rewrite fmap_app in Hn |- *. cbn in Hn. rewrite <- Permutation_middle in Hn. by apply NoDup_cons in Hn. }
    destruct (IH zs2 (s <| ut_heap ::= delete p |> <| ut_thread_buffers ::= delete (length zs1) |>)) as (h & E & Hf).
    + cbn. rewrite Hl, !fmap_app. cbn. by rewrite <- (length_fmap fst zs1), delete_middle.
    + done.
    + apply Forall_forall. intros [q c] Hq. assert (q <> p) as Hne by (intros ->; apply Hp', list_elem_of_fmap; by exists (p, c)).
      assert (held (ut_heap s) (q, c)) as (v & Hv & Hvr).
      { apply (proj1 (Forall_forall _ _) Hh). apply elem_of_app in Hq as [Hq | Hq]; apply elem_of_app; [by left | right; by apply list_elem_of_further]. }
      exists v. split; [|done]. cbn in *. by rewrite lookup_delete_ne.
    + exists h. by split.
  - erewrite bind_eq by reflexivity. rewrite filter_cons_True, filter_nil by (unfold in_use; cbn; rewrite (rp_owner _ _ Hrep); lia).
    destruct (IH ((p, b) :: zs2) s Hl Hn Hh) as (h & E & Hf). exists h. rewrite <- app_assoc. by split.
Qed.

Lemma filter_snd (zs : list (ptr * abuffer)) : filter (fun b => ab_owner b <> None) zs.*2 = (filter in_use zs).*2.
Proof.
  induction zs as [|[p b] zs IH]; [done |]. cbn [fmap list_fmap snd]. rewrite !filter_cons, IH. unfold in_use. cbn [snd].
  repeat case_decide; done.
Qed.

Lemma cleanup_spec zs a s objs : refines zs a s objs ->
  exists s', time_trace_cleanup s = Ok (tt, s') /\
    refines (filter in_use zs) (a <| ua_buffers ::= filter (fun b => ab_owner b <> None) |>) s' objs.
Proof.
  intros Hr. unfold time_trace_cleanup. erewrite bind_eq by reflexivity. rewrite (rf_ptrs _ _ _ _ Hr), length_fmap.
  destruct (cleanup_loop_spec zs [] s) as (h & E & Hh); rewrite ?app_nil_r in *;
    [exact (rf_ptrs _ _ _ _ Hr) | exact (rf_nodup _ _ _ _ Hr) | exact (rf_held _ _ _ _ Hr) |].
  eexists. split; [exact E |].
  assert (forall t p b, ab_owner b = Some t -> (p, b) ∈ filter in_use zs <-> (p, b) ∈ zs) as Hin.
  { intros t p b Ho. rewrite list_elem_of_filter. unfold in_use. cbn. rewrite Ho. naive_solver. }
  split; cbn.
  - exact (rf_frozen _ _ _ _ Hr).
  - done.
  - by rewrite (rf_abs _ _ _ _ Hr), filter_snd.
  - eapply sublist_NoDup; [exact (rf_nodup _ _ _ _ Hr) |]. apply fmap_sublist, sublist_filter.
  - done.
  - intros t p. rewrite (rf_tb _ _ _ _ Hr). split; intros (b & Hb & Ho); exists b; (split; [|done]); by apply (Hin t).
  - intros t p b Hb Ho. eapply (rf_objs _ _ _ _ Hr); [by apply (Hin t) | done].
  - exact (rf_none _ _ _ _ Hr).
Qed.

(** The buffers that [print_internal] finds. *)
Lemma buffers_found h zs : Forall (held h) zs -> exists bs, mapM (fun p => h !! p) zs.*1 = Some bs /\ Forall2 represents bs zs.*2.
Proof.
  induction 1 as [|[p b] zs (u & Hu & Hrep) _ (bs & E & Hbs)]; [by exists [] |]. exists (u :: bs). cbn in *. rewrite Hu. cbn. rewrite E.
  split; [done | by constructor].
Qed.

Lemma rings_printed bs xs : Forall2 represents bs xs ->
  let rs := map ub_ring bs in let evss := ab_events <$> xs in
  exists current, first_indexes size rs = Ok (first_slot size <$> evss) /\ start_loop rs (first_slot size <$> evss) 0 = Ok (common_start size evss) /\
    skip_each size rs (first_slot size <$> evss) (common_start size evss) = Ok current /\
    print_loop size (length rs * Z.to_nat size) rs current = Ok (merged (printed size evss)).
Proof.
  intros Hb rs evss. assert (Forall2 (uring size) rs evss) as Hu.
  { unfold rs, evss. clear rs evss. induction Hb as [|b x bs xs Hb _ IH]; constructor; [exact (rp_ring _ _ Hb) | done]. }
  assert (Forall2 (readable size) rs (first_slot size <$> evss) /\ zip_with (remaining size) rs (first_slot size <$> evss) = latest size <$> evss) as [Hrd Hz].
  { clear -Hu H2. induction Hu as [|r evs rs evss Hu _ [IH1 IH2]]; [by split |]. cbn [fmap list_fmap zip_with].
    pose proof (first_remaining size r evs H2 Hu) as E. split; [|by rewrite E, IH2]. constructor; [|done]. unfold readable.
    split; [by apply (ring_buf_ok _ _ evs), ur_ring |]. split; [by apply first_slot_range |]. rewrite E. apply Forall_drop. exact (ur_valid _ _ _ Hu). }
  destruct (skip_each_spec size H2 (common_start size evss) rs _ Hrd) as (current & E & Hc & Er). exists current.
  split_ands; [by apply first_indexes_spec | by apply start_loop_spec | exact E |].
  assert (zip_with (remaining size) rs current = printed size evss) as Ep by (by rewrite Er, Hz, <- list_fmap_compose).
  rewrite (print_loop_spec size H2) , Ep; [done | done | | ].
  - unfold total. clear -H2. revert current. induction rs as [|r rs IH]; intros [|c current]; cbn; try lia.
    rewrite length_app. specialize (IH current). pose proof (remaining_length size r c ltac:(pose proof (pow2_pos _ H2); lia)). lia.
  - rewrite Ep. unfold timely, printed. apply Forall_fmap, Forall_fmap. eapply Forall_impl with (P := fun x => Forall (fun e => ev_timestamp e < 2 ^ 64 - 1) (ab_events x)).
    + clear -Hb. induction Hb as [|b x bs xs Hb _ IH]; constructor; [exact (rp_timely _ _ Hb) | done].
    + intros x Hx. cbn. destruct (since_suffix (common_start size evss) (latest size (ab_events x))) as [k Ek].
      assert (Forall (fun e => ev_timestamp e < 2 ^ 64 - 1) (latest size (ab_events x))) as Hl by (by apply Forall_drop).
      rewrite Ek in Hl. by apply Forall_app in Hl as [_ Hl].
Qed.

Lemma print_spec zs a s objs : refines zs a s objs -> print_internal size s = Ok (abs_print size a, s <| ut_frozen := false |>).
Proof.
  intros Hr. destruct (buffers_found _ _ (rf_held _ _ _ _ Hr)) as (bs & Em & Hbs).
  destruct (rings_printed bs zs.*2 Hbs) as (current & E1 & E2 & E3 & E4).
  unfold print_internal. erewrite bind_eq by reflexivity. erewrite bind_eq by reflexivity. erewrite bind_eq by reflexivity.
  cbn [ut_thread_buffers ut_heap upd]. rewrite (rf_ptrs _ _ _ _ Hr), Em. erewrite bind_eq by reflexivity.
  erewrite bind_eq by (unfold lift; rewrite E1; reflexivity). erewrite bind_eq by (unfold lift; rewrite E2; reflexivity).
  erewrite bind_eq by (unfold lift; rewrite E3; reflexivity). erewrite bind_eq by (unfold lift; rewrite E4; reflexivity).
  erewrite bind_eq by reflexivity. unfold ret, abs_print. rewrite (rf_abs _ _ _ _ Hr). do 3 f_equal. apply list_fmap_ext. intros _ [i e] _. cbn. f_equal.
  f_equal. generalize (Z.to_nat i). clear -Hbs. intros k. revert k. induction Hbs as [|b x bs xs Hb _ IH]; intros [|k]; cbn; try done. by rewrite (rp_name _ _ Hb).
Qed.

Lemma refines_frozen zs a s objs v : refines zs a s objs -> refines zs (a <| ua_frozen := v |>) (s <| ut_frozen := v |>) objs.
Proof. by intros []. Qed.

Definition op_fits (op : ut_op) : Prop := match op with UNew _ _ e | URecord _ e => event_fits e | _ => True end.

Lemma step_refines zs a s objs op o a' : refines zs a s objs -> op_fits op -> abs_step size header pre msg a op = Some (o, a') ->
  exists zs' s' objs', ut_step size alloc header pre msg op (s, objs) = Ok (o, (s', objs')) /\ refines zs' a' s' objs'.
Proof.
  intros Hr Ho E. destruct op as [t name e|t|t e| | | |opened].
  - destruct (new_spec zs a s objs t name e Hr Ho) as (x & Ex & H). rewrite E in Ex. by injection Ex as -> ->.
  - cbn [abs_step] in E. apply bind_Some in E as (i & Hi & E). injection E as <- <-. by apply (delete_spec zs).
  - cbn [abs_step] in E. apply bind_Some in E as (i & Hi & E). injection E as <- <-.
    destruct (record_refines zs a s objs t i e Hr Hi Ho) as (zs' & s' & Es & Hr'). exists zs', s', objs. cbn [ut_step]. by rewrite Es.
  - injection E as <- <-. eexists zs, _, objs. split; [reflexivity |]. by apply refines_frozen.
  - injection E as <- <-. destruct (cleanup_spec zs a s objs Hr) as (s' & Es & Hr'). eexists _, s', objs. cbn [ut_step]. by rewrite Es.
  - injection E as <- <-. eexists zs, _, objs. split; [|by apply refines_frozen]. cbn [ut_step]. unfold get_trace.
    by rewrite (bind_eq _ _ _ _ _ (print_spec zs a s objs Hr)).
  - destruct opened; injection E as <- <-; [|by exists zs, s, objs]. eexists zs, _, objs. split; [|by apply refines_frozen].
    cbn [ut_step]. unfold print_to_file. cbn [negb]. by rewrite (bind_eq _ _ _ _ _ (print_spec zs a s objs Hr)).
Qed.

Lemma run_refines ops : forall zs a s objs outs a', refines zs a s objs -> Forall op_fits ops -> abs_run size header pre msg ops a = Some (outs, a') ->
  exists zs' s' objs', ut_run size alloc header pre msg ops (s, objs) = Ok (outs, (s', objs')) /\ refines zs' a' s' objs'.
Proof.
  induction ops as [|op ops IH]; intros zs a s objs outs a' Hr Ho E; cbn [abs_run ut_run] in *; [simplify_eq; by exists zs, s, objs |].
  inversion_clear Ho as [|? ? Hop Hops]. apply bind_Some in E as ([o a1] & E1 & E). apply bind_Some in E as ([o2 a2] & E2 & E). cbn in E2, E. injection E as <- <-.
  destruct (step_refines zs a s objs op o a1 Hr Hop E1) as (zs1 & s1 & objs1 & -> & Hr1). cbn [result_bind].
  destruct (IH zs1 a1 s1 objs1 o2 a2 Hr1 Hops E2) as (zs2 & s2 & objs2 & -> & Hr2). by exists zs2, s2, objs2.
Qed.

Lemma refines_timely zs a s objs : refines zs a s objs -> timely (ab_events <$> ua_buffers a).
Proof.
  intros Hr. rewrite (rf_abs _ _ _ _ Hr). apply Forall_fmap, Forall_fmap. eapply Forall_impl; [exact (rf_held _ _ _ _ Hr) |].
  intros [p b] (u & _ & Hrep). exact (rp_timely _ _ Hrep).
Qed.
End refinement.

Lemma printed_Forall (P : list tt_event -> Prop) size evss : (forall k v, P (k ++ v) -> P v) -> Forall P evss -> Forall P (printed size evss).
Proof.
  intros HP H. apply Forall_fmap. eapply Forall_impl; [exact H |]. intros evs He. cbn.
  destruct (since_suffix (common_start size evss) (latest size evs)) as [k Ek]. apply (HP (take (length evs - Z.to_nat (size - 1)) evs ++ k)).
  rewrite <- app_assoc, <- Ek. unfold latest. by rewrite take_drop.
Qed.

Definition fresh_trace : ut_state * gmap Z (list ptr) := (Build_ut_state false [] ∅ ∅, ∅).

(** C27: time traces of user-level programs.  Threads create and destroy
    [thread_buffer] objects, record, freeze, clean up and print the trace in
    any order: nothing that a thread still uses is freed, no buffer is
    accessed after it was freed, and every trace printed is the text of what
    the abstract machine prints.  That is, of every buffer, the latest
    [size - 1] events from the time on for which all buffers have events;
    they are all printed, once each, and in the order of their times if each
    thread recorded its own in that order. *)
Theorem user_trace_correct size alloc header pre msg ops outs a :
  pow2 size -> (forall h, h !! alloc h = None) -> Forall op_fits ops ->
  abs_run size header pre msg ops (Build_ut_abs false []) = Some (outs, a) ->
  (exists x, ut_run size alloc header pre msg ops fresh_trace = Ok (outs, x)) /\
  let evss := ab_events <$> ua_buffers a in
  (abs_print size a).2.*2 ≡ₚ concat (printed size evss) /\
  (Forall (Sorted by_time) evss -> StronglySorted by_time (abs_print size a).2.*2).
Proof.
  intros H2 Ha Hops E. destruct (run_refines size alloc header pre msg H2 Ha ops [] (Build_ut_abs false []) (Build_ut_state false [] ∅ ∅) ∅ outs a)
    as (zs & s & objs & Er & Hr); [|done | done |].
  { split; try done; [constructor | by intros t p; split; [|intros (b & Hb & _); apply not_elem_of_nil in Hb]
      | intros t p b Hb; by apply not_elem_of_nil in Hb]. }
  split; [by eexists |]. intros evss. pose proof (refines_timely _ _ _ _ _ Hr) as Ht. fold evss in Ht.
  assert (timely (printed size evss)) as Htp by (apply printed_Forall; [|done]; intros k v H; by apply Forall_app in H as [_ H]).
  assert ((abs_print size a).2.*2 = (merged (printed size evss)).*2) as ->
    by (unfold abs_print; cbn [snd]; rewrite <- list_fmap_compose; by apply list_fmap_ext).
  split; [by apply merged_perm |]. intros Hs. apply merged_sorted; [done | done |]. apply printed_Forall; [apply Sorted_app_r | done].
Qed.

(** An allocator for the example. *)
Definition ex_alloc (h : gmap ptr ubuffer) : ptr := Pos.succ (map_fold (fun p _ m => Pos.max p m) 1%positive h).

Lemma ex_alloc_new h : h !! ex_alloc h = None.
Proof.
  assert (forall p u, h !! p = Some u -> (p <= map_fold (fun p _ m => Pos.max p m) 1 h)%positive) as H.
  { apply (map_fold_weak_ind (fun m (h : gmap ptr ubuffer) => forall p u, h !! p = Some u -> (p <= m)%positive)).
    - intros p u Hp. by rewrite lookup_empty in Hp.
    - intros i x h' m _ IH p u Hp. destruct (decide (i = p)) as [<- | Hne]; [lia |]. rewrite lookup_insert_ne in Hp by done.
      specialize (IH p u Hp). lia. }
  destruct (h !! ex_alloc h) as [u|] eqn:E; [|done]. apply H in E. unfold ex_alloc in E. lia.
Qed.

(** Two threads with buffers of four events; the first loses two of its events,
    ends, and its buffer is printed once more before the cleanup. *)
Lemma user_trace_correct_witness :
  let ev t := Build_tt_event t (Some 7) [0; 0; 0; 0] in
  let ops := [UNew 1 [65] (ev 1); UNew 2 [66] (ev 2); URecord 1 (ev 3); URecord 1 (ev 4); URecord 2 (ev 5); URecord 1 (ev 6); URecord 1 (ev 8);
    UTrace; UFreeze; URecord 2 (ev 9); UDelete 1; UFile true; UCleanup; URecord 2 (ev 10); UTrace] in
  exists x, ut_run 4 ex_alloc (fun t => [72; t]) (fun t p n e => n ++ [ev_timestamp e - t; ev_timestamp e - p]) (fun _ => [109]) ops fresh_trace =
    Ok ([[72; 4; 10; 91; 65; 93; 0; 0; 109; 10; 91; 66; 93; 1; 1; 109; 10; 91; 65; 93; 2; 1; 109; 10; 91; 65; 93; 4; 2; 109];
         [72; 4; 10; 91; 65; 93; 0; 0; 109; 10; 91; 66; 93; 1; 1; 109; 10; 91; 65; 93; 2; 1; 109; 10; 91; 65; 93; 4; 2; 109; 10];
         [72; 2; 10; 91; 66; 93; 0; 0; 109; 10; 91; 66; 93; 3; 3; 109; 10; 91; 66; 93; 8; 5; 109]], x).
Proof.
  intros ev ops.
  refine (proj1 (user_trace_correct 4 ex_alloc (fun t => [72; t]) (fun t p n e => n ++ [ev_timestamp e - t; ev_timestamp e - p]) (fun _ => [109]) ops _
    (Build_ut_abs false [Build_abuffer [66] (Some 2) 1 [ev 2; ev 5; ev 10]]) _ ex_alloc_new _ _)).
  - by exists 2.
  - repeat constructor; discriminate.
  - vm_compute. reflexivity.
Defined.
