(* ===== verification/Metrics.v ===== *)
(** * Metrics (homa_metrics.c, homa_metrics.h)

    The text with the values of all counters, and the file from which it is
    read.  The text of a line is made by the host's [vsnprintf]. *)
From S2P Require Import Prelude Lists Types Rpc TimeTrace TimeTraceRead.

(** ** Collecting the text *)

(** [ms_text] are the [metrics_length] bytes in [metrics], for which
    [ms_buffer] bytes are allocated ([None]: null pointer). *)
Record metrics_state := { ms_buffer : option Z; ms_text : list Z; ms_capacity : Z; ms_active_opens : Z }.
#[export] Instance eta_metrics_state : Eta metrics_state := fun r =>
  Build_metrics_state (ms_buffer r) (ms_text r) (ms_capacity r) (ms_active_opens r).
Definition XM := ST metrics_state.
Definition xget {A} (f : metrics_state -> A) : XM A := fun s => Ok (f s, s).
Definition xupd (f : metrics_state -> metrics_state) : XM unit := fun s => Ok (tt, f s).

(** The loop of [homa_metric_append]; [mem n] is whether [n] bytes can be
    allocated. *)
Fixpoint metric_loop (fuel : nat) (mem : Z -> bool) (text : list Z) : XM unit :=
  let* buffer := xget ms_buffer in
  let* allocated := lift (get BadPointer buffer) in
  let* capacity := xget ms_capacity in
  let* used := xget (fun s => blen (ms_text s)) in
  if used + Z.min (blen text + 1) (capacity - used) >? allocated then raise ArrayBounds else
  if used + blen text <? capacity then xupd (fun s => s <| ms_text ::= fun l => l ++ text |>) else
  match fuel with
  | O => raise OutOfFuel
  | S fuel =>
      xupd (fun s => s <| ms_capacity := capacity * 2 |>) ;;;
      if negb (mem (capacity * 2)) then ret tt else
      xupd (fun s => s <| ms_buffer := Some (capacity * 2) |>) ;;;
      metric_loop fuel mem text
  end.

Definition homa_metric_append (mem : Z -> bool) (text : list Z) : XM unit :=
  let* buffer := xget ms_buffer in
  let* ok := match buffer with
    | Some _ => ret true
    | None =>
        xupd (fun s => s <| ms_capacity := 4096 |>) ;;;
        if negb (mem 4096) then ret false
        else (xupd (fun s => s <| ms_buffer := Some 4096 |> <| ms_text := [] |>) ;;; ret true)
    end in
  if negb ok then ret tt else
  let* used := xget (fun s => blen (ms_text s)) in
  metric_loop (Z.to_nat (used + blen text)) mem text.

(** The counters of incoming messages, by length. *)
Inductive counter := Small (i : Z) | Medium (i : Z) | Large.
Definition length_counter (length_ : Z) : counter :=
  if length_ <? HOMA_NUM_SMALL_COUNTS * 64 then Small (Z.shiftr (length_ - 1) 6)
  else if length_ <? HOMA_NUM_MEDIUM_COUNTS * 1024 then Medium (Z.shiftr (length_ - 1) 10)
  else Large.

(** A line: the range of lengths that the text of a counter names, or another
    line of the text, by its number. *)
Inductive metric_line :=
  | TimeLine | CoreLine (core : Z) | RangeLine (c : counter) (lower upper : Z) | LargeLine (lower : Z) | OtherLine (core n : Z).

(** A loop over the counters of messages: the lines, and [lower] after it. *)
Fixpoint range_lines (mk : Z -> counter) (unit_ : Z) (n : nat) (i lower : Z) : list metric_line * Z :=
  match n with
  | O => ([], lower)
  | S n =>
      let r := range_lines mk unit_ n (i + 1) ((i + 1) * unit_ + 1) in
      (RangeLine (mk i) lower ((i + 1) * unit_) :: r.1, r.2)
  end.

(** The lines of a core; [others] is the number of the lines that follow. *)
Definition core_lines (others core lower : Z) : list metric_line * Z :=
  let small := range_lines Small 64 (Z.to_nat HOMA_NUM_SMALL_COUNTS) 0 lower in
  let first := HOMA_NUM_SMALL_COUNTS * 64 / 1024 in
  let medium := range_lines Medium 1024 (Z.to_nat (HOMA_NUM_MEDIUM_COUNTS - first)) first small.2 in
  (CoreLine core :: small.1 ++ medium.1 ++ [LargeLine medium.2; LargeLine medium.2] ++ (OtherLine core <$> seqZ 0 others), medium.2).

Fixpoint all_lines (others : Z) (n : nat) (core lower : Z) : list metric_line :=
  match n with
  | O => []
  | S n => let r := core_lines others core lower in r.1 ++ all_lines others n (core + 1) r.2
  end.

Section print.
Variables (fmt : metric_line -> list Z) (others : Z) (nr_cpu_ids : nat) (mem : Z -> bool).

Fixpoint append_lines (l : list metric_line) : XM unit :=
  match l with
  | [] => ret tt
  | x :: l => homa_metric_append mem (fmt x) ;;; append_lines l
  end.

Definition homa_metrics_print : XM unit :=
  xupd (fun s => s <| ms_text := [] |>) ;;;
  append_lines (TimeLine :: all_lines others nr_cpu_ids 0 0).

(** ** The file *)
Definition homa_metrics_open : XM Z :=
  let* n := xget ms_active_opens in
  (if n =? 0 then homa_metrics_print else ret tt) ;;;
  xupd (fun s => s <| ms_active_opens ::= fun n => n + 1 |>) ;;;
  ret 0.

(** The result, the bytes that are copied, and the new offset; [fault] is
    whether the copy fails. *)
Definition homa_metrics_read (length_ offset : Z) (fault_ : bool) : XM (Z * list Z * Z) :=
  let* text := xget ms_text in
  if offset >=? blen text then ret (0, [], offset) else
  let copied := if blen text - offset >? length_ then length_ else blen text - offset in
  if fault_ then ret (- EFAULT, [], offset) else
  ret (copied, take (Z.to_nat copied) (drop (Z.to_nat offset) text), offset + copied).

Definition homa_metrics_lseek : XM Z := ret 0.

Definition homa_metrics_release : XM Z :=
  xupd (fun s => s <| ms_active_opens ::= fun n => n - 1 |>) ;;;
  ret 0.
End print.

(** ** The text is complete *)
Definition metrics_ok (s : metrics_state) : Prop :=
  match ms_buffer s with
  | Some n => n = ms_capacity s /\ blen (ms_text s) < n
  | None => ms_text s = []
  end.

Lemma metric_loop_spec mem text : (forall n, mem n = true) -> forall fuel s n,
  ms_buffer s = Some n -> n = ms_capacity s -> blen (ms_text s) < n -> blen (ms_text s) + blen text < n + Z.of_nat fuel ->
  exists s', metric_loop fuel mem text s = Ok (tt, s') /\ ms_text s' = ms_text s ++ text /\ metrics_ok s' /\ ms_active_opens s' = ms_active_opens s.
Proof.
  intros Hm. induction fuel as [|fuel IH]; intros s n Hb Hc Hu Hf; cbn [metric_loop]; erewrite bind_eq by reflexivity; rewrite Hb;
    do 3 (erewrite bind_eq by reflexivity); rewrite <- Hc; destruct (Z.gtb_spec (blen (ms_text s) + Z.min (blen text + 1) (n - blen (ms_text s))) n);
    try lia; destruct (Z.ltb_spec (blen (ms_text s) + blen text) n); try lia.
  - eexists. split; [reflexivity |]. unfold metrics_ok. cbn. rewrite Hb, blen_app. done.
  - eexists. split; [reflexivity |]. unfold metrics_ok. cbn. rewrite Hb, blen_app. done.
  - erewrite bind_eq by reflexivity. rewrite Hm. cbn [negb]. erewrite bind_eq by reflexivity.
    match goal with |- context [metric_loop _ _ _ ?t] => destruct (IH t (n * 2)) as (s' & E & H1 & H2 & H3) end; try done; cbn;
      pose proof (blen_nonneg (ms_text s)); lia || by exists s'.
Qed.

Lemma metric_append_spec mem text s : (forall n, mem n = true) -> metrics_ok s ->
  exists s', homa_metric_append mem text s = Ok (tt, s') /\ ms_text s' = ms_text s ++ text /\ metrics_ok s' /\ ms_active_opens s' = ms_active_opens s.
Proof.
  intros Hm Hs. unfold homa_metric_append. erewrite bind_eq by reflexivity. unfold metrics_ok in Hs.
  pose proof (blen_nonneg text) as Ht. pose proof (blen_nonneg (ms_text s)) as Ht'.
  destruct (ms_buffer s) as [n|] eqn:Eb.
  - destruct Hs as [Hn Hu]. erewrite bind_eq by reflexivity. cbn [negb]. erewrite bind_eq by reflexivity.
    apply (metric_loop_spec mem text Hm _ s n); try done. lia.
  - erewrite bind_eq by (rewrite Hm; reflexivity). cbn [negb]. erewrite bind_eq by reflexivity.
    match goal with |- context [metric_loop _ _ _ ?t] => destruct (metric_loop_spec mem text Hm (Z.to_nat (0 + blen text)) t 4096) as (s' & E & H1 & H2 & H3) end;
      try done; cbn; try (change (blen []) with 0; lia). rewrite Hs. by exists s'.
Qed.

Lemma append_lines_spec fmt mem l : (forall n, mem n = true) -> forall s, metrics_ok s ->
  exists s', append_lines fmt mem l s = Ok (tt, s') /\ ms_text s' = ms_text s ++ (l ≫= fmt) /\ metrics_ok s' /\ ms_active_opens s' = ms_active_opens s.
Proof.
  intros Hm. induction l as [|x l IH]; intros s Hs; cbn [append_lines]; [exists s; by rewrite app_nil_r |].
  destruct (metric_append_spec mem (fmt x) s Hm Hs) as (s1 & E & H1 & H2 & H3). rewrite (bind_eq _ _ _ _ _ E).
  destruct (IH s1 H2) as (s' & E' & H1' & H2' & H3'). exists s'. split_ands; [done | | done | congruence].
  rewrite H1', H1, <- app_assoc. done.
Qed.

(** The first of several simultaneous openings of the file collects the text;
    the others leave it alone, so that all the reads of it are consistent. *)
Lemma metrics_open_spec fmt others nr mem s : (forall n, mem n = true) -> metrics_ok s -> 0 <= ms_active_opens s ->
  exists s', homa_metrics_open fmt others nr mem s = Ok (0, s') /\ ms_active_opens s' = ms_active_opens s + 1 /\ metrics_ok s' /\
    ms_text s' = if decide (ms_active_opens s = 0) then (TimeLine :: all_lines others nr 0 0) ≫= fmt else ms_text s.
Proof.
  intros Hm Hs Hn. unfold homa_metrics_open. erewrite bind_eq by reflexivity.
  destruct (Z.eqb_spec (ms_active_opens s) 0) as [E0 | N0].
  - unfold homa_metrics_print. set (s0 := s <| ms_text := [] |>).
    destruct (append_lines_spec fmt mem (TimeLine :: all_lines others nr 0 0) Hm s0) as (s1 & E & H1 & H2 & H3).
    { unfold metrics_ok in *. cbn. destruct (ms_buffer s); [|done]. destruct Hs as [? Hs]. split; [done |].
      pose proof (blen_nonneg (ms_text s)). change (blen []) with 0. lia. }
    erewrite bind_eq by (erewrite bind_eq by reflexivity; exact E). erewrite bind_eq by reflexivity. eexists. split; [reflexivity |].
    rewrite decide_True by done. cbn. change (ms_active_opens s1 = ms_active_opens s) in H3. split_ands; [lia | exact H2 | exact H1].
  - erewrite bind_eq by reflexivity. erewrite bind_eq by reflexivity. eexists. split; [reflexivity |]. by rewrite decide_False.
Qed.

(** Successive reads from the offset that the last one left. *)
Fixpoint metrics_reads (lens : list Z) (offset : Z) : XM (list Z) :=
  match lens with
  | [] => ret []
  | n :: lens =>
      let* r := homa_metrics_read n offset false in
      let* l := metrics_reads lens r.2 in
      ret (r.1.2 ++ l)
  end.

Lemma metrics_read_spec s n offset : 0 <= n -> 0 <= offset ->
  let out := take (Z.to_nat n) (drop (Z.to_nat offset) (ms_text s)) in
  homa_metrics_read n offset false s = Ok ((blen out, out, offset + blen out), s) /\
  drop (Z.to_nat (offset + blen out)) (ms_text s) = drop (Z.to_nat n) (drop (Z.to_nat offset) (ms_text s)).
Proof.
  intros Hn Ho out.
  assert (blen out = Z.max 0 (Z.min n (blen (ms_text s) - offset))) as Hl by (unfold out, blen; rewrite length_take, length_drop; lia).
  split.
  - unfold homa_metrics_read. erewrite bind_eq by reflexivity. destruct (Z.geb_spec offset (blen (ms_text s))).
    + assert (out = []) as E by (apply blen_nil; lia). rewrite E. unfold ret. do 3 f_equal. change (blen []) with 0. lia.
    + rewrite gtb_if. assert (Z.min (blen (ms_text s) - offset) n = blen out) as -> by lia. unfold ret. do 3 f_equal. f_equal.
      unfold out, blen. rewrite Nat2Z.id, length_take. set (l := drop _ _).
      destruct (decide (Z.to_nat n <= length l)%nat); [by rewrite Nat.min_l by lia | rewrite Nat.min_r, !take_ge by lia; done].
  - rewrite drop_drop. destruct (decide (blen out = n)) as [-> | Hne]; [f_equal; lia |].
    unfold blen in *. rewrite !drop_ge by lia. done.
Qed.

Lemma metrics_reads_spec s lens : forall offset, 0 <= offset -> Forall (Z.le 0) lens ->
  metrics_reads lens offset s = Ok (take (Z.to_nat (foldr Z.add 0 lens)) (drop (Z.to_nat offset) (ms_text s)), s).
Proof.
  induction lens as [|n lens IH]; intros offset Ho Hl; cbn [metrics_reads foldr]; [done |]. inversion_clear Hl as [|? ? Hn Hl'].
  assert (0 <= foldr Z.add 0 lens) as H0 by (clear -Hl'; induction Hl'; simpl; lia).
  destruct (metrics_read_spec s n offset Hn Ho) as [E Ed]. rewrite (bind_eq _ _ _ _ _ E). cbn [fst snd].
  set (out := take (Z.to_nat n) (drop (Z.to_nat offset) (ms_text s))) in *. pose proof (blen_nonneg out).
  rewrite (bind_eq _ _ _ _ _ (IH (offset + blen out) ltac:(lia) Hl')). unfold ret. rewrite Ed. do 2 f_equal.
  rewrite Z2Nat.inj_add by done. apply take_take_drop.
Qed.

(** A failed allocation leaves the capacity doubled: the next line is written
    past the end of the buffer. *)
Lemma append_overflows mem text s n : ms_buffer s = Some n -> n = ms_capacity s -> 0 <= blen (ms_text s) < n ->
  mem (n * 2) = false -> n <= blen (ms_text s) + blen text < n * 2 ->
  exists s', homa_metric_append mem text s = Ok (tt, s') /\ homa_metric_append mem text s' = Fault ArrayBounds.
Proof.
  intros Hb Hc Hu Hm Ht. assert (exists k, Z.to_nat (blen (ms_text s) + blen text) = S k) as [k Hk] by (exists (Z.to_nat (blen (ms_text s) + blen text - 1)); lia).
  exists (s <| ms_capacity := n * 2 |>). unfold homa_metric_append. split.
  - erewrite bind_eq by reflexivity. rewrite Hb. erewrite bind_eq by reflexivity. cbn [negb]. erewrite bind_eq by reflexivity. rewrite Hk. cbn [metric_loop].
    erewrite bind_eq by reflexivity. rewrite Hb. do 3 (erewrite bind_eq by reflexivity). rewrite <- Hc.
    destruct (Z.gtb_spec (blen (ms_text s) + Z.min (blen text + 1) (n - blen (ms_text s))) n); [lia |].
    destruct (Z.ltb_spec (blen (ms_text s) + blen text) n); [lia |]. erewrite bind_eq by reflexivity. by rewrite Hm.
  - erewrite bind_eq by reflexivity. cbn [ms_buffer]. match goal with |- context [match ms_buffer ?t with _ => _ end] => change (ms_buffer t) with (ms_buffer s) end.
    rewrite Hb. erewrite bind_eq by reflexivity. cbn [negb]. erewrite bind_eq by reflexivity. cbn [ms_text].
    match goal with |- context [blen (ms_text ?t)] => change (ms_text t) with (ms_text s) end. rewrite Hk. cbn [metric_loop].
    erewrite bind_eq by reflexivity. match goal with |- context [get BadPointer (ms_buffer ?t)] => change (ms_buffer t) with (ms_buffer s) end. rewrite Hb.
    do 3 (erewrite bind_eq by reflexivity). cbn. destruct (Z.gtb_spec (blen (ms_text s) + Z.min (blen text + 1) (n * 2 - blen (ms_text s))) n); [done | lia].
Qed.

(** ** The ranges of lengths *)

Lemma range_lines_after mk u n : forall i lower, (range_lines mk u n i lower).2 = if decide (n = O) then lower else (i + Z.of_nat n) * u + 1.
Proof.
  induction n as [|n IH]; intros i lower; cbn [range_lines snd]; [done |]. rewrite IH. rewrite (decide_False (P := S n = O)) by done.
  case_decide; [subst; lia | f_equal; lia].
Qed.

Lemma range_lines_elem mk u n x : forall i lower, x ∈ (range_lines mk u n i lower).1 <->
  exists j, 0 <= j < Z.of_nat n /\ x = RangeLine (mk (i + j)) (if j =? 0 then lower else (i + j) * u + 1) ((i + j + 1) * u).
Proof.
  induction n as [|n IH]; intros i lower; cbn [range_lines fst].
  { split; [intros H; by apply elem_of_nil in H | intros (j & ? & _); lia]. }
  rewrite elem_of_cons, IH. split.
  - intros [-> | (j & Hj & ->)]; [exists 0; rewrite Z.add_0_r; split; [lia | done] |].
    exists (j + 1). split; [lia |]. destruct (Z.eqb_spec (j + 1) 0); [lia |]. destruct (Z.eqb_spec j 0); f_equal; f_equal; lia.
  - intros (j & Hj & ->). destruct (Z.eqb_spec j 0) as [Ej | Hne]; [left; by rewrite Ej, Z.add_0_r |]. right. exists (j - 1). split; [lia |].
    destruct (Z.eqb_spec (j - 1) 0); f_equal; f_equal; lia.
Qed.

(** The ranges that a core's lines name. *)
Lemma core_ranges others core lower c lo hi : RangeLine c lo hi ∈ (core_lines others core lower).1 <->
  exists j, (0 <= j < 64 /\ c = Small j /\ lo = (if j =? 0 then lower else j * 64 + 1) /\ hi = (j + 1) * 64) \/
    (4 <= j < 128 /\ c = Medium j /\ lo = j * 1024 + 1 /\ hi = (j + 1) * 1024).
Proof.
  unfold core_lines. cbn [fst]. rewrite elem_of_cons, !elem_of_app, !range_lines_elem, range_lines_after.
  change (Z.of_nat (Z.to_nat HOMA_NUM_SMALL_COUNTS)) with 64. change (HOMA_NUM_SMALL_COUNTS * 64 / 1024) with 4.
  change (Z.of_nat (Z.to_nat (HOMA_NUM_MEDIUM_COUNTS - 4))) with 124. rewrite decide_False by done. split.
  - intros [H | [(j & Hj & H) | [(j & Hj & H) | [H | H]]]]; try done.
    + injection H as -> -> ->. exists j. left. rewrite Z.add_0_l. done.
    + injection H as -> -> ->. exists (4 + j). right. split_ands; [lia | lia | done | | done].
      destruct (Z.eqb_spec j 0); lia.
    + rewrite !elem_of_cons, elem_of_nil in H. by destruct H as [H | [H | H]].
    + apply list_elem_of_fmap in H as (x & ? & _). done.
  - intros (j & [(Hj & -> & -> & ->) | (Hj & -> & -> & ->)]).
    + right. left. exists j. rewrite Z.add_0_l. done.
    + right. right. left. exists (j - 4). split; [lia |]. replace (4 + (j - 4)) with j by lia. f_equal.
      destruct (Z.eqb_spec (j - 4) 0) as [E |]; [|done]. assert (j = 4) as -> by lia. done.
Qed.

Lemma shiftr_range n k u : 0 <= k -> u = 2 ^ k -> 1 <= n -> Z.shiftr (n - 1) k * u + 1 <= n <= (Z.shiftr (n - 1) k + 1) * u /\ 0 <= Z.shiftr (n - 1) k.
Proof.
  intros Hk -> Hn. rewrite Z.shiftr_div_pow2 by done. assert (0 < 2 ^ k) as Hp by (apply Z.pow_pos_nonneg; lia).
  pose proof (Z.div_mod (n - 1) (2 ^ k)). pose proof (Z.mod_pos_bound (n - 1) (2 ^ k) Hp). pose proof (Z.div_pos (n - 1) (2 ^ k)). nia.
Qed.

(** The counter of a message, in the first core's lines: there is a line for
    it with a range that contains the length, except for the lengths 4096,
    whose counter has no line, and 131072, which is counted as large although
    the last range contains it. *)
Lemma ranges_correct others n : 1 <= n ->
  (n < 131072 /\ n <> 4096 <-> exists lo hi, RangeLine (length_counter n) lo hi ∈ (core_lines others 0 0).1) /\
  (forall lo hi, RangeLine (length_counter n) lo hi ∈ (core_lines others 0 0).1 -> lo <= n <= hi).
Proof.
  intros Hn. unfold length_counter, HOMA_NUM_SMALL_COUNTS, HOMA_NUM_MEDIUM_COUNTS.
  destruct (shiftr_range n 6 64 ltac:(lia) eq_refl Hn) as [H6 H6']. destruct (shiftr_range n 10 1024 ltac:(lia) eq_refl Hn) as [H10 H10'].
  set (a := Z.shiftr (n - 1) 6) in *. set (b := Z.shiftr (n - 1) 10) in *.
  setoid_rewrite core_ranges. destruct (Z.ltb_spec n (64 * 64)); [|destruct (Z.ltb_spec n (128 * 1024))]; split.
  - split; [intros _; eexists _, _, a; left; split_ands; [lia | lia | done | done | done] | lia].
  - intros lo hi (j & [(Hj & Ec & -> & ->) | (Hj & Ec & _)]); [injection Ec as <- | done]. destruct (Z.eqb_spec a 0); lia.
  - split; [intros [? ?]; eexists _, _, b; right; split_ands; [lia | lia | done | done | done] |].
    intros (lo & hi & j & [(Hj & Ec & _) | (Hj & Ec & _)]); [done | injection Ec as <-]. lia.
  - intros lo hi (j & [(Hj & Ec & _) | (Hj & Ec & -> & ->)]); [done | injection Ec as <-]. lia.
  - split; [lia |]. by intros (lo & hi & j & [(Hj & Ec & _) | (Hj & Ec & _)]).
  - by intros lo hi (j & [(Hj & Ec & _) | (Hj & Ec & _)]).
Qed.

(** [lower] is not reset: the lines of every other core begin with a range that
    is empty, and lengths up to 64 are in none of its ranges. *)
Lemma second_core_range others core n hi : 1 <= core -> 1 <= n <= 64 ->
  ~ (exists lo, RangeLine (length_counter n) lo hi ∈ (core_lines others core (core_lines others 0 0).2).1 /\ lo <= n <= hi).
Proof.
  intros Hc Hn (lo & H & Hlo). apply core_ranges in H as (j & H). revert H. unfold length_counter, HOMA_NUM_SMALL_COUNTS.
  destruct (shiftr_range n 6 64 ltac:(lia) eq_refl ltac:(lia)) as [H6 H6']. destruct (Z.ltb_spec n (64 * 64)); [|lia].
  intros [(Hj & Ec & -> & ->) | (Hj & Ec & _)]; [|done]. injection Ec as <-. destruct (Z.eqb_spec (Z.shiftr (n - 1) 6) 0) as [E |]; [|lia].
  assert ((core_lines others 0 0).2 = 131073) as E2 by (unfold core_lines; cbn [snd]; rewrite range_lines_after; reflexivity). lia.
Qed.
