(* ===== verification/Prio.v ===== *)
(** * The daemon that adjusts priorities (util/homa_prio.cc)

    It reads the metrics, estimates the unscheduled traffic of every range of
    message lengths, and divides the lengths among the priority levels.
    [int64_t] sums are exact; [cum_unsched_bytes] is an [int]. *)
From S2P Require Import Prelude Lists Types.

(** ** Data *)
Record interval := { iv_max_size : Z; iv_total_bytes : Z; iv_total_messages : Z; iv_unsched_bytes : Z }.
#[export] Instance eta_interval : Eta interval := fun r =>
  Build_interval (iv_max_size r) (iv_total_bytes r) (iv_total_messages r) (iv_unsched_bytes r).
Record reading := {
  rd_intervals : list interval; rd_large_msg_count : Z; rd_large_msg_bytes : Z; rd_total_bytes : Z; rd_total_messages : Z
}.
#[export] Instance eta_reading : Eta reading := fun r =>
  Build_reading (rd_intervals r) (rd_large_msg_count r) (rd_large_msg_bytes r) (rd_total_bytes r) (rd_total_messages r).

(** ** Reading the metrics *)

(** A line of the file that counts: its symbol and its value. *)
Inductive metrics_line := MsgBytes (size count : Z) | LargeMsgCount (count : Z) | LargeMsgBytes (count : Z).

(** The first interval that is not below [size], from index [i] on. *)
Fixpoint find_interval (size : Z) (l : list interval) (i : nat) : nat :=
  match l with
  | [] => i
  | x :: l => if size >? iv_max_size x then find_interval size l (S i) else i
  end.

Definition add_line (m : reading) (x : metrics_line) : result reading :=
  match x with
  | MsgBytes size count =>
      let i := find_interval size (rd_intervals m) 0 in
      let l := if decide (i < length (rd_intervals m))%nat
        then alter (fun v => v <| iv_total_bytes ::= fun n => n + count |>) i (rd_intervals m)
        else rd_intervals m ++ [Build_interval size count 0 0] in
      let prev_size := match i with O => 0 | S i => default 0 (iv_max_size <$> l !! i) end in
      if size + prev_size =? 0 then Fault DivByZero else
      let messages := s32 (u64 (2 * count) / u64 (s32 (size + prev_size))) in
      Ok (Build_reading (alter (fun v => v <| iv_total_messages ::= fun n => n + messages |>) i l)
        (rd_large_msg_count m) (rd_large_msg_bytes m) (rd_total_bytes m + count) (rd_total_messages m + messages))
  | LargeMsgCount count => Ok (m <| rd_total_messages ::= fun n => n + count |> <| rd_large_msg_count := count |>)
  | LargeMsgBytes count => Ok (m <| rd_large_msg_bytes ::= fun n => n + count |> <| rd_total_bytes ::= fun n => n + count |>)
  end.

Fixpoint add_lines (m : reading) (l : list metrics_line) : result reading :=
  match l with
  | [] => Ok m
  | x :: l => let! m := add_line m x in add_lines m l
  end.

(** [lines]: those of the file, or [None] if it cannot be opened. *)
Definition read_metrics (lines : option (list metrics_line)) : result reading :=
  let m := Build_reading [] 0 0 0 0 in
  match lines with None => Ok m | Some l => add_lines m l end.

Fixpoint diff_intervals (prev cur : list interval) : option (list interval) :=
  match prev, cur with
  | [], [] => Some []
  | p :: prev, c :: cur =>
      if negb (iv_max_size c =? iv_max_size p) then None else
      match diff_intervals prev cur with
      | Some l => Some (Build_interval (iv_max_size c) (iv_total_bytes c - iv_total_bytes p) (iv_total_messages c - iv_total_messages p) 0 :: l)
      | None => None
      end
  | _, _ => None
  end.

Definition diff_metrics (prev cur : reading) : option reading :=
  match diff_intervals (rd_intervals prev) (rd_intervals cur) with
  | Some l => Some (Build_reading l (rd_large_msg_count cur - rd_large_msg_count prev) (rd_large_msg_bytes cur - rd_large_msg_bytes prev)
      (rd_total_bytes cur - rd_total_bytes prev) (rd_total_messages cur - rd_total_messages prev))
  | None => None
  end.

(** ** Computing the cutoffs *)
Definition estimate (unsched_bytes : Z) (v : interval) : interval :=
  v <| iv_unsched_bytes := if iv_max_size v <=? unsched_bytes then iv_total_bytes v
    else Z.min (iv_total_messages v * unsched_bytes) (iv_total_bytes v) |>.

(** The loop over the intervals: the cutoffs, and [next_cutoff] after it. *)
Fixpoint cutoff_loop (l : list interval) (total_unsched_bytes bytes_per_prio next_cutoff_bytes cum_unsched_bytes next_cutoff : Z)
    (cutoffs : list Z) : result (list Z * Z) :=
  match l with
  | [] => Ok (cutoffs, next_cutoff)
  | v :: l =>
      let cum_unsched_bytes := s32 (cum_unsched_bytes + iv_unsched_bytes v) in
      if cum_unsched_bytes >=? total_unsched_bytes then Ok (cutoffs, next_cutoff)
      else if cum_unsched_bytes >=? next_cutoff_bytes then
        let! cutoffs := arr_set cutoffs next_cutoff (iv_max_size v) in
        let next_cutoff_bytes := cum_unsched_bytes + bytes_per_prio in
        if next_cutoff_bytes >=? total_unsched_bytes then Ok (cutoffs, next_cutoff - 1)
        else cutoff_loop l total_unsched_bytes bytes_per_prio next_cutoff_bytes cum_unsched_bytes (next_cutoff - 1) cutoffs
      else cutoff_loop l total_unsched_bytes bytes_per_prio next_cutoff_bytes cum_unsched_bytes next_cutoff cutoffs
  end.

(** The levels from [n - 1] down to 0. *)
Fixpoint fill_max (n : nat) (cutoffs : list Z) : result (list Z) :=
  match n with
  | O => Ok cutoffs
  | S n => let! cutoffs := arr_set cutoffs (Z.of_nat n) HOMA_MAX_MESSAGE_LENGTH in fill_max n cutoffs
  end.

Fixpoint clear_from (n : nat) (i : Z) (cutoffs : list Z) : result (list Z) :=
  match n with
  | O => Ok cutoffs
  | S n => let! cutoffs := arr_set cutoffs i 0 in clear_from n (i + 1) cutoffs
  end.

(** [unsched] is the command-line option, and [prios] the number of
    priorities that the floating-point formula gives. *)
Definition compute_cutoffs (unsched : Z) (prios : Z -> Z -> Z -> Z) (diff : reading) (cutoffs : list Z)
    (num_priorities unsched_bytes : Z) : result (list Z) :=
  let l := estimate unsched_bytes <$> rd_intervals diff in
  let total_bytes := foldr Z.add 0 (iv_total_bytes <$> l) + rd_large_msg_bytes diff in
  let total_unsched_bytes := foldr Z.add 0 (iv_unsched_bytes <$> l) + rd_large_msg_count diff * unsched_bytes in
  let unsched_prios := if unsched =? 0 then Z.max 1 (prios num_priorities total_unsched_bytes total_bytes) else unsched in
  let bytes_per_prio := if unsched_prios <? num_priorities then 1 + Z.quot total_unsched_bytes unsched_prios
    else 1 + Z.quot total_bytes num_priorities in
  let! r := cutoff_loop l total_unsched_bytes bytes_per_prio bytes_per_prio 0 (num_priorities - 1) cutoffs in
  let! c := fill_max (Z.to_nat (r.2 + 1)) r.1 in
  clear_from (Z.to_nat (8 - num_priorities)) num_priorities c.

(** ** Message distribution *)

(** The loop for one interval: the deciles and the next one's index and
    number of messages. *)
Fixpoint decile_loop (fuel : nat) (msgs_so_far msgs_per_decile next_decile max_size : Z) (deciles : list Z) : list Z * Z :=
  match fuel with
  | O => (deciles, next_decile)
  | S fuel =>
      if (msgs_so_far >=? next_decile) && bool_decide (length deciles < 9)%nat
      then decile_loop fuel msgs_so_far msgs_per_decile (next_decile + msgs_per_decile) max_size (deciles ++ [max_size])
      else (deciles, next_decile)
  end.

Fixpoint deciles_from (l : list interval) (msgs_so_far msgs_per_decile next_decile : Z) (deciles : list Z) : list Z :=
  match l with
  | [] => deciles
  | v :: l =>
      let msgs_so_far := msgs_so_far + iv_total_messages v in
      let r := if iv_total_messages v >? 0 then decile_loop 9 msgs_so_far msgs_per_decile next_decile (iv_max_size v) deciles
        else (deciles, next_decile) in
      if decide (9 <= length r.1)%nat then r.1 else deciles_from l msgs_so_far msgs_per_decile r.2 r.1
  end.

Definition get_deciles (m : reading) : list Z :=
  let msgs_per_decile := s32 (Z.quot (rd_total_messages m) 10) in
  let d := deciles_from (rd_intervals m) 0 msgs_per_decile msgs_per_decile [] in
  d ++ replicate (9 - length d) HOMA_MAX_MESSAGE_LENGTH.

(** ** The main loop *)
Record prio_state := {
  ps_prev : reading; ps_prev_deciles : list Z; ps_cutoffs : list Z; ps_prev_num : Z;
  ps_installed : list (list Z)
}.

Section round.
(** The options, the two floating-point computations, and what is read. *)
Variables (unsched min_messages : Z) (no_update : bool) (prios : Z -> Z -> Z -> Z) (small_drift : list Z -> list Z -> bool).

(** One iteration; [lines] is the metrics file, and the parameters are [None]
    if they cannot be read. *)
Definition prio_round (lines : option (list metrics_line)) (num_priorities unsched_bytes : option Z) (s : prio_state) : result prio_state :=
  let! cur := read_metrics lines in
  if bool_decide (rd_intervals (ps_prev s) = [])
  then Ok (Build_prio_state cur (ps_prev_deciles s) (ps_cutoffs s) (ps_prev_num s) (ps_installed s)) else
  if bool_decide (rd_intervals cur = []) then Ok s else
  match diff_metrics (ps_prev s) cur, num_priorities, unsched_bytes with
  | Some diff, Some num, Some unsched_bytes =>
      if (rd_total_messages diff <? min_messages) || (rd_total_bytes diff =? 0) then Ok s
      else if num =? 1 then Ok (Build_prio_state cur (ps_prev_deciles s) (ps_cutoffs s) num (ps_installed s)) else
      let deciles := get_deciles diff in
      if small_drift (ps_prev_deciles s) deciles && (num =? ps_prev_num s)
      then Ok (Build_prio_state cur (ps_prev_deciles s) (ps_cutoffs s) (ps_prev_num s) (ps_installed s)) else
      let! cutoffs := compute_cutoffs unsched prios diff (ps_cutoffs s) num unsched_bytes in
      Ok (Build_prio_state cur deciles cutoffs num (if no_update then ps_installed s else ps_installed s ++ [cutoffs]))
  | _, _, _ => Ok s
  end.
End round.

(** ** The cutoffs are well formed *)

(** What Homa expects of the cutoffs of [num] levels. *)
Record cutoffs_ok (num : Z) (c : list Z) : Prop := {
  ck_length : length c = 8%nat;
  ck_all : c !! 0%nat = Some HOMA_MAX_MESSAGE_LENGTH;
  ck_order : forall i j x y, (i <= j)%nat -> Z.of_nat j < num -> c !! i = Some x -> c !! j = Some y -> y <= x;
  ck_unused : forall j x, num <= Z.of_nat j -> c !! j = Some x -> x = 0
}.

Lemma fill_max_spec n : forall c, (n <= length c)%nat -> exists c', fill_max n c = Ok c' /\ length c' = length c /\
  (forall j, (j < n)%nat -> c' !! j = Some HOMA_MAX_MESSAGE_LENGTH) /\ (forall j, (n <= j)%nat -> c' !! j = c !! j).
Proof.
  induction n as [|n IH]; intros c Hn; cbn [fill_max]; [exists c; split_ands; try done; lia |].
  rewrite (proj2 (arr_set_Ok c (Z.of_nat n) HOMA_MAX_MESSAGE_LENGTH _)) by (split; [lia | reflexivity]). rewrite Nat2Z.id. cbn [result_bind].
  destruct (IH (<[n := HOMA_MAX_MESSAGE_LENGTH]> c)) as (c' & E & Hl & H1 & H2); [rewrite length_insert; lia |].
  exists c'. rewrite length_insert in Hl. split_ands; [done | done | |].
  - intros j Hj. destruct (decide (j = n)) as [-> |]; [|apply H1; lia]. rewrite H2 by lia. apply list_lookup_insert_eq. lia.
  - intros j Hj. rewrite H2 by lia. apply list_lookup_insert_ne. lia.
Qed.

Lemma clear_from_spec n : forall i c, 0 <= i -> i + Z.of_nat n <= Z.of_nat (length c) -> exists c', clear_from n i c = Ok c' /\ length c' = length c /\
  (forall j, i <= Z.of_nat j < i + Z.of_nat n -> c' !! j = Some 0) /\ (forall j, Z.of_nat j < i -> c' !! j = c !! j).
Proof.
  induction n as [|n IH]; intros i c Hi Hn; cbn [clear_from]; [exists c; split_ands; try done; intros; lia |].
  rewrite (proj2 (arr_set_Ok c i 0 _)) by (split; [lia | reflexivity]). cbn [result_bind].
  destruct (IH (i + 1) (<[Z.to_nat i := 0]> c)) as (c' & E & Hl & H1 & H2); [lia | rewrite length_insert; lia |].
  exists c'. rewrite length_insert in Hl. split_ands; [done | done | |].
  - intros j Hj. destruct (decide (Z.of_nat j = i)) as [<- |]; [|apply H1; lia]. rewrite H2, Nat2Z.id by lia. apply list_lookup_insert_eq. lia.
  - intros j Hj. rewrite H2 by lia. apply list_lookup_insert_ne. lia.
Qed.

(** What the loop has done when [k] is the next level: the levels above it have
    cutoffs, in order, that are at most [size]. *)
Definition cut_inv (num k size : Z) (c : list Z) : Prop :=
  length c = 8%nat /\
  (forall j x, k < Z.of_nat j < num -> c !! j = Some x -> x <= size) /\
  (forall i j x y, (i <= j)%nat -> k < Z.of_nat i -> Z.of_nat j < num -> c !! i = Some x -> c !! j = Some y -> y <= x).

Lemma cut_inv_size num k size size' c : size <= size' -> cut_inv num k size c -> cut_inv num k size' c.
Proof. intros Hs (H1 & H2 & H3). unfold cut_inv. split_ands; [done | | done]. intros j x Hj Hx. specialize (H2 j x Hj Hx). lia. Qed.

Lemma cut_inv_cut num k size size' c : 0 <= k < num -> num <= 8 -> size <= size' -> cut_inv num k size c ->
  cut_inv num (k - 1) size' (<[Z.to_nat k := size']> c).
Proof.
  intros Hk Hn Hs (H1 & H2 & H3). unfold cut_inv. split_ands; [by rewrite length_insert | |].
  - intros j x Hj. rewrite list_lookup_insert_Some. intros [(_ & <- & _) | [Hne Hx]]; [lia |].
    specialize (H2 j x ltac:(lia) Hx). lia.
  - intros i j x y Hij Hi Hj. rewrite !list_lookup_insert_Some.
    intros [(Ei & <- & _) | [Hni Hx]] [(Ej & <- & _) | [Hnj Hy]]; [lia | | lia |].
    + specialize (H2 j y ltac:(lia) Hy). lia.
    + apply (H3 i j x y); try done. lia.
Qed.

(** The invariant of the counts: [num - 1 - k] cutoffs have been set, each for
    at least [per] bytes. *)
Lemma cutoff_loop_spec num total per : num <= 8 -> 0 < per -> total < 2 ^ 31 -> forall l next cum k size c,
  (forall m, 0 <= m -> m * per < total -> m < num) ->
  Sorted (fun a b => iv_max_size a <= iv_max_size b) l -> Forall (fun v => 0 <= iv_unsched_bytes v /\ size <= iv_max_size v <= HOMA_MAX_MESSAGE_LENGTH) l ->
  cum + foldr Z.add 0 (iv_unsched_bytes <$> l) <= total -> 0 <= cum -> 0 <= k < num -> (num - k) * per <= next -> next <= cum + per ->
  size <= HOMA_MAX_MESSAGE_LENGTH -> cut_inv num k size c ->
  exists c' k', cutoff_loop l total per next cum k c = Ok (c', k') /\ 0 <= k' <= k /\ cut_inv num k' HOMA_MAX_MESSAGE_LENGTH c'.
Proof.
  intros Hnum Hper Ht. induction l as [|v l IH]; intros next cum k size c Hm Hsort Hl Hsum Hc Hk Hnext Hnc Hsz Hinv; cbn [cutoff_loop].
  { exists c, k. split_ands; [done | lia | lia |]. by apply (cut_inv_size num k size). }
  inversion_clear Hl as [|? ? [Hu Hv] Hl']. inversion_clear Hsort as [|? ? Hsort' Hhd]. cbn [fmap list_fmap foldr] in Hsum.
  assert (0 <= foldr Z.add 0 (iv_unsched_bytes <$> l)) as H0 by (clear -Hl'; induction Hl' as [|x l [? _] _ IH]; cbn [fmap list_fmap foldr]; lia).
  rewrite s32_id by (unfold is_int, INT_MIN, INT_MAX; lia). set (cum1 := cum + iv_unsched_bytes v) in *.
  assert (Forall (fun w => 0 <= iv_unsched_bytes w /\ iv_max_size v <= iv_max_size w <= HOMA_MAX_MESSAGE_LENGTH) l) as Hl2.
  { apply Sorted_StronglySorted in Hsort'; [|intros a b d Hab Hbd; simpl in *; lia]. clear -Hl' Hhd Hsort'. induction Hl' as [|x l [Hx1 Hx2] Hl' IH]; constructor.
    - inversion_clear Hhd. lia.
    - inversion_clear Hsort' as [|? ? Hs' Hall]. inversion_clear Hhd as [|? ? Hvx]. apply IH; [done |].
      destruct l as [|y l]; constructor. inversion_clear Hall. lia. }
  destruct (Z.geb_spec cum1 total) as [| Hlt]; [exists c, k; split_ands; [done | lia | lia | by apply (cut_inv_size num k size)] |].
  destruct (Z.geb_spec cum1 next) as [Hge | Hcl].
  - rewrite (proj2 (arr_set_Ok c k (iv_max_size v) _)) by (split; [destruct Hinv as [-> _]; lia | reflexivity]). cbn [result_bind].
    assert (cut_inv num (k - 1) (iv_max_size v) (<[Z.to_nat k := iv_max_size v]> c)) as Hinv1 by (apply (cut_inv_cut num k size); try done; lia).
    assert (1 <= k) as Hk1 by (pose proof (Hm (num - k) ltac:(lia) ltac:(lia)); lia).
    destruct (Z.geb_spec (cum1 + per) total); [exists (<[Z.to_nat k := iv_max_size v]> c), (k - 1); split_ands; [done | lia | lia | by apply (cut_inv_size num (k - 1) (iv_max_size v)); [lia |]] |].
    destruct (IH (cum1 + per) cum1 (k - 1) (iv_max_size v) (<[Z.to_nat k := iv_max_size v]> c)) as (c' & k' & E & Hk' & Hi); try done; try lia.
    exists c', k'. split_ands; [done | lia | lia | done].
  - destruct (IH next cum1 k (iv_max_size v) c) as (c' & k' & E & Hk' & Hi); try done; try lia; [|by exists c', k'].
    by apply (cut_inv_size num k size); [lia |].
Qed.

(** A difference of two readings with the intervals in order. *)
Record traffic_ok (diff : reading) (unsched_bytes : Z) : Prop := {
  tr_sorted : Sorted (fun a b => iv_max_size a <= iv_max_size b) (rd_intervals diff);
  tr_range : Forall (fun v => 0 <= iv_total_bytes v /\ 0 <= iv_total_messages v /\ 0 <= iv_max_size v <= HOMA_MAX_MESSAGE_LENGTH) (rd_intervals diff);
  tr_large : 0 <= rd_large_msg_count diff * unsched_bytes <= rd_large_msg_bytes diff;
  tr_unsched : 0 <= unsched_bytes;
  tr_no_overflow : foldr Z.add 0 (iv_unsched_bytes <$> (estimate unsched_bytes <$> rd_intervals diff)) +
    rd_large_msg_count diff * unsched_bytes < 2 ^ 31
}.

Lemma estimate_sorted u l : Sorted (fun a b => iv_max_size a <= iv_max_size b) l ->
  Sorted (fun a b => iv_max_size a <= iv_max_size b) (estimate u <$> l).
Proof.
  induction 1 as [|v l Hs IH Hh]; constructor; [done |]. inversion_clear Hh; constructor. done.
Qed.

Lemma estimate_range u l : 0 <= u ->
  Forall (fun v => 0 <= iv_total_bytes v /\ 0 <= iv_total_messages v /\ 0 <= iv_max_size v <= HOMA_MAX_MESSAGE_LENGTH) l ->
  Forall (fun v => 0 <= iv_unsched_bytes v /\ 0 <= iv_max_size v <= HOMA_MAX_MESSAGE_LENGTH) (estimate u <$> l) /\
  0 <= foldr Z.add 0 (iv_unsched_bytes <$> (estimate u <$> l)) <= foldr Z.add 0 (iv_total_bytes <$> (estimate u <$> l)).
Proof.
  intros Hu H. induction H as [|v l (H1 & H2 & H3) _ [IH1 IH2]]; [done |]. cbn [fmap list_fmap foldr].
  assert (0 <= iv_unsched_bytes (estimate u v) <= iv_total_bytes (estimate u v)) as He
    by (unfold estimate; cbn; destruct (Z.leb_spec (iv_max_size v) u); nia).
  split; [constructor; [|done] | unfold list_fmap, fmap in *; lia]. split; [lia | exact H3].
Qed.

(** [compute_cutoffs] writes only elements of the array, and the cutoffs are
    such that every message has a level: level 0 takes all lengths, higher
    levels do not take longer messages than lower ones, and the levels that
    do not exist have none. *)
Lemma compute_cutoffs_correct unsched prios diff c num unsched_bytes :
  1 <= num <= 8 -> 0 <= unsched -> length c = 8%nat -> traffic_ok diff unsched_bytes ->
  exists c', compute_cutoffs unsched prios diff c num unsched_bytes = Ok c' /\ cutoffs_ok num c'.
Proof.
  intros Hnum Hun Hlen [Hs Hr Hlarge Hu Hov]. destruct (estimate_range unsched_bytes _ Hu Hr) as [Hr' Hsum].
  pose proof (estimate_sorted unsched_bytes _ Hs) as Hs'. unfold compute_cutoffs.
  set (l := estimate unsched_bytes <$> rd_intervals diff) in *.
  set (tb := foldr Z.add 0 (iv_total_bytes <$> l) + rd_large_msg_bytes diff).
  set (tu := foldr Z.add 0 (iv_unsched_bytes <$> l) + rd_large_msg_count diff * unsched_bytes) in *.
  set (up := if unsched =? 0 then _ else _). assert (1 <= up) as Hup by (unfold up; destruct (Z.eqb_spec unsched 0); lia).
  set (per := if up <? num then _ else _). assert (0 <= tu <= tb) as Htu by (unfold tu, tb; lia).
  assert (0 < per /\ forall m, 0 <= m -> m * per < tu -> m < num) as [Hper Hm].
  { unfold per. destruct (Z.ltb_spec up num).
    - rewrite Z.quot_div_nonneg by lia. pose proof (Z.div_mod tu up ltac:(lia)). pose proof (Z.mod_pos_bound tu up ltac:(lia)).
      pose proof (Z.div_pos tu up). split; [lia |]. intros m Hm1 Hm2. assert (m < up) by nia. lia.
    - rewrite Z.quot_div_nonneg by lia. pose proof (Z.div_mod tb num ltac:(lia)). pose proof (Z.mod_pos_bound tb num ltac:(lia)).
      pose proof (Z.div_pos tb num). split; [lia |]. intros m Hm1 Hm2. nia. }
  destruct (cutoff_loop_spec num tu per ltac:(lia) Hper Hov l per 0 (num - 1) 0 c) as (c1 & k & E & Hk & (I1 & I2 & I3)); try done; try lia.
  { unfold cut_inv. split_ands; [done | |]; intros; lia. }
  rewrite E. cbn [result_bind fst snd].
  destruct (fill_max_spec (Z.to_nat (k + 1)) c1 ltac:(lia)) as (c2 & -> & Hl2 & F1 & F2). cbn [result_bind].
  destruct (clear_from_spec (Z.to_nat (8 - num)) num c2 ltac:(lia) ltac:(lia)) as (c3 & E3 & Hl3 & G1 & G2).
  exists c3. split; [exact E3 |]. constructor.
  - lia.
  - rewrite G2, F1 by lia. done.
  - intros i j x y Hij Hj. rewrite !G2 by lia. intros Hx Hy.
    destruct (decide (Z.of_nat j <= k)) as [Hjk | Hjk]; [rewrite F1 in Hx, Hy by lia; simplify_eq; lia |].
    rewrite F2 in Hy by lia. destruct (decide (Z.of_nat i <= k)) as [Hik | Hik].
    + rewrite F1 in Hx by lia. injection Hx as <-. apply (I2 j y); [lia | done].
    + rewrite F2 in Hx by lia. apply (I3 i j x y); try done; lia.
  - intros j x Hj Hx. pose proof (lookup_lt_Some _ _ _ Hx). rewrite G1 in Hx by lia. by injection Hx.
Qed.

(** Without that bound [cum_unsched_bytes] overflows: of three ranges with
    1.5 GB each only the first gets a level of its own. *)
Lemma cutoffs_overflow :
  let v n := Build_interval n 1500000000 1 0 in
  let diff := Build_reading [v 100; v 200; v 300] 0 0 4500000000 100000 in
  compute_cutoffs 6 (fun _ _ _ => 0) diff (replicate 8 0) 8 1000 =
    Ok [1000000; 1000000; 1000000; 1000000; 1000000; 1000000; 1000000; 100] /\
  compute_cutoffs 6 (fun _ _ _ => 0) (Build_reading [Build_interval 100 1500000 1 0; Build_interval 200 1500000 1 0; Build_interval 300 1500000 1 0] 0 0 4500000 100000)
    (replicate 8 0) 8 1000 = Ok [1000000; 1000000; 1000000; 1000000; 1000000; 1000000; 200; 100].
Proof. split; vm_compute; reflexivity. Qed.
