(* ===== verification/Dissector.v ===== *)
(** * The Wireshark plugin (dissector/homa.c)

    [dissect_homa] as the list of the fields that it shows, with their values;
    reading behind the end of the packet is a fault. *)
From S2P Require Import Prelude Lists Wire.

(** ** The code *)
Definition HOMA_HEADER_TYPE_OFFSET : Z := 13.
Definition COMMON_HEADER_LENGTH : Z := 28.
Definition HOMA_ACK_LENGTH : Z := 12.
Definition DATA_SEGMENT_LENGTH : Z := 8 + HOMA_ACK_LENGTH.
Definition DATA_HEADER_LENGTH : Z := 12 + DATA_SEGMENT_LENGTH.
Definition RESEND_HEADER_LENGTH : Z := 9.
Definition GRANT_HEADER_LENGTH : Z := 5.
Definition CUTOFFS_HEADER_LENGTH : Z := 34.
Definition ACK_HEADER_LENGTH : Z := 62.

Inductive field :=
  | hf_common_sport | hf_common_dport | hf_common_doff | hf_common_type | hf_common_sender_id
  | hf_data_message_length | hf_data_incoming | hf_data_cutoff_version | hf_data_retransmit | hf_data_offset
  | hf_data_segment_length | hf_ack_client_id | hf_ack_client_port | hf_ack_server_port
  | hf_resend_offset | hf_resend_length | hf_resend_priority | hf_grant_offset | hf_grant_priority
  | hf_ack_num_acks | hf_cutoff_unsched_cutoffs | hf_cutoff_version.

Inductive column := DataPacket | ResendPacket | GrantPacket | AckPacket | CutoffPacket | NeedAckPacket
  | FreezePacket | BusyPacket | UnknownPacket.

(** The bytes of an item, big-endian. *)
Definition item (bs : list Z) (f : field) (offset n : Z) : result (field * Z) :=
  match take_be (Z.to_nat n) (drop (Z.to_nat offset) bs) with
  | Some (v, _) => Ok (f, v)
  | None => Fault ArrayBounds
  end.

Fixpoint items (bs : list Z) (l : list (field * Z * Z)) : result (list (field * Z)) :=
  match l with
  | [] => Ok []
  | (f, offset, n) :: l =>
      let! x := item bs f offset n in
      let! xs := items bs l in
      Ok (x :: xs)
  end.

Definition header_length (homa_packet_type : Z) : Z :=
  if homa_packet_type =? DATA then COMMON_HEADER_LENGTH + DATA_HEADER_LENGTH
  else if homa_packet_type =? RESEND then COMMON_HEADER_LENGTH + RESEND_HEADER_LENGTH
  else if homa_packet_type =? GRANT then COMMON_HEADER_LENGTH + GRANT_HEADER_LENGTH
  else if homa_packet_type =? ACK then COMMON_HEADER_LENGTH + ACK_HEADER_LENGTH
  else if homa_packet_type =? CUTOFFS then COMMON_HEADER_LENGTH + CUTOFFS_HEADER_LENGTH
  else COMMON_HEADER_LENGTH.

Definition common_items : list (field * Z * Z) :=
  [(hf_common_sport, 0, 2); (hf_common_dport, 2, 2); (hf_common_doff, 12, 1);
   (hf_common_type, HOMA_HEADER_TYPE_OFFSET, 1); (hf_common_sender_id, 20, 8)].

(** The text of the column "Info" and the items of the type. *)
Definition type_items (homa_packet_type : Z) : column * list (field * Z * Z) :=
  let c := COMMON_HEADER_LENGTH in
  if homa_packet_type =? DATA then
    (DataPacket, [(hf_data_message_length, c, 4); (hf_data_incoming, c + 4, 4); (hf_data_cutoff_version, c + 8, 2);
      (hf_data_retransmit, c + 10, 1); (hf_data_offset, c + 12, 4); (hf_data_segment_length, c + 16, 4);
      (hf_ack_client_id, c + 20, 8); (hf_ack_client_port, c + 28, 2); (hf_ack_server_port, c + 30, 2)])
  else if homa_packet_type =? RESEND then
    (ResendPacket, [(hf_resend_offset, c, 4); (hf_resend_length, c + 4, 4); (hf_resend_priority, c + 8, 1)])
  else if homa_packet_type =? GRANT then (GrantPacket, [(hf_grant_offset, c, 4); (hf_grant_priority, c + 4, 1)])
  else if homa_packet_type =? ACK then (AckPacket, [(hf_ack_num_acks, c, 2)])
  else if homa_packet_type =? CUTOFFS then (CutoffPacket, [(hf_cutoff_unsched_cutoffs, c, 32); (hf_cutoff_version, c + 32, 2)])
  else if homa_packet_type =? NEED_ACK then (NeedAckPacket, [])
  else if homa_packet_type =? FREEZE then (FreezePacket, [])
  else if homa_packet_type =? BUSY then (BusyPacket, [])
  else (UnknownPacket, []).

Definition dissect_homa (bs : list Z) : result (column * list (field * Z) * Z) :=
  let! t := item bs hf_common_type HOMA_HEADER_TYPE_OFFSET 1 in
  let homa_packet_type := t.2 in
  let! l := items bs (common_items ++ (type_items homa_packet_type).2) in
  Ok ((type_items homa_packet_type).1, l, header_length homa_packet_type).

(** ** What it shows of a Homa packet *)

Lemma item_skip n z bs f offset k : Z.of_nat n <= offset -> item (be_enc n z ++ bs) f offset k = item bs f (offset - Z.of_nat n) k.
Proof.
  intros H. unfold item. rewrite drop_app_ge by (rewrite be_enc_length; lia). rewrite be_enc_length.
  replace (Z.to_nat offset - n)%nat with (Z.to_nat (offset - Z.of_nat n)) by lia. done.
Qed.

Lemma item_at n z bs f : fits n z = true -> item (be_enc n z ++ bs) f 0 (Z.of_nat n) = Ok (f, z).
Proof. intros H. unfold item. rewrite Nat2Z.id. change (drop (Z.to_nat 0) ?l) with l. by rewrite take_be_enc. Qed.

Ltac find_item := repeat (rewrite item_skip by lia); simpl Z.of_nat; simpl Z.sub; apply item_at; done.

(** The items of the common header.  What is called the type is the field
    [flags], in which Homa stores the constant [HOMA_TCP_FLAGS]. *)
Lemma common_items_spec h rest : common_fits h = true ->
  item (enc_common h ++ rest) hf_common_sport 0 2 = Ok (hf_common_sport, sport h) /\
  item (enc_common h ++ rest) hf_common_dport 2 2 = Ok (hf_common_dport, dport h) /\
  item (enc_common h ++ rest) hf_common_doff 12 1 = Ok (hf_common_doff, doff h) /\
  item (enc_common h ++ rest) hf_common_type HOMA_HEADER_TYPE_OFFSET 1 = Ok (hf_common_type, hflags h) /\
  item (enc_common h ++ rest) hf_common_sender_id 20 8 = Ok (hf_common_sender_id, sender_id h).
Proof.
  intros H. unfold common_fits in H. rewrite !andb_true_iff in H. destruct_and! H. unfold enc_common, HOMA_HEADER_TYPE_OFFSET. rewrite <- !app_assoc.
  split_ands; find_item.
Qed.

(** The plugin shows every packet that Homa sends as an unknown one: it takes
    the constant flags for the type. *)
Lemma dissect_unknown p rest : packet_fits p = true -> hflags (packet_common p) = HOMA_TCP_FLAGS ->
  let h := packet_common p in
  dissect_homa (enc_packet p ++ rest) =
    Ok (UnknownPacket, [(hf_common_sport, sport h); (hf_common_dport, dport h); (hf_common_doff, doff h);
      (hf_common_type, HOMA_TCP_FLAGS); (hf_common_sender_id, sender_id h)], COMMON_HEADER_LENGTH).
Proof.
  intros Hf Hfl h. destruct (enc_packet_common p) as [tail E]. rewrite E, <- app_assoc. fold h in Hfl |- *.
  destruct (common_items_spec h (tail ++ rest) (packet_fits_common p Hf)) as (H1 & H2 & H3 & H4 & H5).
  unfold dissect_homa. rewrite H4. cbn [result_bind snd]. rewrite Hfl. change (type_items HOMA_TCP_FLAGS) with (UnknownPacket, @nil (field * Z * Z)).
  cbn [fst snd]. rewrite app_nil_r. unfold common_items. cbn [items]. rewrite H1, H2, H3, H4, H5. cbn [result_bind]. rewrite Hfl. done.
Qed.
