(* ===== verification/CpConn.v ===== *)
(** * TCP connections of the benchmark node (util/cp_node.cc)

    [tcp_connection] carries messages over a TCP stream: each message starts
    with a [message_header] that tells its length, the rest of it is not
    looked at.  The kernel accepts any number of bytes per [send] and returns
    any number of bytes per [read]. *)
From S2P Require Import Prelude Lists Wire Types.

Definition EPIPE : Z := 32.
Definition ECONNRESET : Z := 104.

(** ** struct conn_id and struct message_header *)
Record conn_id := { client_port : Z; client : Z; conn_server_port : Z; server : Z }.

Record message_header := {
  mh_length : Z; mh_freeze : Z; mh_short_response : Z; mh_cid : conn_id; mh_msg_id : Z
}.
#[export] Instance eta_message_header : Eta message_header := fun r =>
  Build_message_header (mh_length r) (mh_freeze r) (mh_short_response r) (mh_cid r) (mh_msg_id r).

Definition sizeof_header : Z := 12.

(** Integers in the byte order of the machine. *)
Definition le_enc (n : nat) (z : Z) : list Z := rev (be_enc n z).
Definition le_dec (bs : list Z) : Z := be_dec (rev bs).

Definition enc_header (h : message_header) : list Z :=
  le_enc 4 (mh_length h mod 2 ^ 30 + 2 ^ 30 * mh_freeze h + 2 ^ 31 * mh_short_response h) ++
  [client_port (mh_cid h); client (mh_cid h); conn_server_port (mh_cid h); server (mh_cid h)] ++
  le_enc 4 (mh_msg_id h).

Definition byte_at (bs : list Z) (i : nat) : Z := default 0 (bs !! i).

Definition dec_header (bs : list Z) : message_header :=
  let w := le_dec (take 4 bs) in
  let l := w mod 2 ^ 30 in
  Build_message_header (if l >=? 2 ^ 29 then l - 2 ^ 30 else l) (w / 2 ^ 30 mod 2) (w / 2 ^ 31)
    (Build_conn_id (byte_at bs 4) (byte_at bs 5) (byte_at bs 6) (byte_at bs 7))
    (le_dec (take 4 (drop 8 bs))).

(** ** class tcp_connection

    The last fields are the kernel's side of the socket: what the next calls of
    [read] return, what the next calls of [send] return ([n >= 0] is that at
    most [n] bytes are accepted, otherwise a negative errno), and the bytes
    accepted so far.  The socket does not block. *)
Inductive rd_result := RdData (bs : list Z) | RdErr (errno : Z).
Inductive conn_error := ErrClosed | ErrRead (errno : Z) | ErrUnexpected | ErrLength (length_ : Z).

Record tcp_connection := {
  tc_fd : Z; tc_epoll_id : Z; tc_port : Z; tc_peer : Z;
  tc_bytes_received : Z; tc_header : list Z; tc_outgoing : list message_header; tc_bytes_sent : Z;
  tc_epoll_events : Z; tc_error_message : option conn_error;
  tc_in : list rd_result; tc_send : list Z; tc_wire : list Z
}.
#[export] Instance eta_tcp_connection : Eta tcp_connection := fun r =>
  Build_tcp_connection (tc_fd r) (tc_epoll_id r) (tc_port r) (tc_peer r) (tc_bytes_received r) (tc_header r)
    (tc_outgoing r) (tc_bytes_sent r) (tc_epoll_events r) (tc_error_message r) (tc_in r) (tc_send r) (tc_wire r).

Definition CM : Type -> Type := ST tcp_connection.
Definition get_conn : CM tcp_connection := fun t => Ok (t, t).
Definition upd_conn (f : tcp_connection -> tcp_connection) : CM unit := fun t => Ok (tt, f t).

(** The constructor, for a socket with the given behaviour. *)
Definition new_tcp_connection (fd epoll_id port peer : Z) (ins : list rd_result) (sends : list Z) : tcp_connection :=
  Build_tcp_connection fd epoll_id port peer 0 (replicate 12 0) [] 0 0 None ins sends [].

Definition pending (t : tcp_connection) : Z := Z.of_nat (length (tc_outgoing t)).

(** [set_epoll_events]: [ok] tells whether [epoll_ctl] succeeds. *)
Definition set_epoll_events (ok : bool) (events : Z) : CM unit :=
  let* t := get_conn in
  if events =? tc_epoll_events t then ret tt
  else if negb ok then raise ProcessExit
  else upd_conn (fun t => t <| tc_epoll_events := events |>).

(** *** Sending *)
Definition BUFFER_SIZE : Z := 100000.

(** The loop of [xmit]: [results] is what the calls of [send] return, [buffer]
    the contents of the local array. *)
Fixpoint tcp_xmit_loop (results : list Z) (buffer : list Z) : CM bool :=
  let* t := get_conn in
  match tc_outgoing t with
  | [] => ret true
  | header :: rest =>
      let first := tc_bytes_sent t <? sizeof_header in
      let buffer := if first then enc_header header ++ drop 12 buffer else buffer in
      let start := if first then tc_bytes_sent t else 0 in
      let send_length := mh_length header - tc_bytes_sent t in
      let send_length := if send_length >? BUFFER_SIZE - start then BUFFER_SIZE - start else send_length in
      match results with
      | [] => ret false
      | r :: results =>
          upd_conn (fun t => t <| tc_send := results |>) ;;;
          if r =? - EAGAIN then ret false else
          (if r >=? 0 then
             let n := Z.min r send_length in
             upd_conn (fun t => t <| tc_wire ::= fun w => w ++ slice buffer start n |>
               <| tc_bytes_sent ::= fun b => b + n |>)
           else if (r =? - EPIPE) || (r =? - ECONNRESET) then
             upd_conn (fun t => t <| tc_bytes_sent := mh_length header |>)
           else raise ProcessExit) ;;;
          let* t := get_conn in
          (if tc_bytes_sent t <? mh_length header then ret tt
           else upd_conn (fun t => t <| tc_bytes_sent := 0 |> <| tc_outgoing := rest |>)) ;;;
          tcp_xmit_loop results buffer
      end
  end.

(** [xmit]: [stack] is what the local array contains at first. *)
Definition xmit (stack : list Z) : CM bool :=
  let* t := get_conn in tcp_xmit_loop (tc_send t) stack.

Definition send_message (stack : list Z) (header : message_header) : CM bool :=
  let header := if mh_length header <? sizeof_header then header <| mh_length := sizeof_header |> else header in
  upd_conn (fun t => t <| tc_outgoing ::= fun l => l ++ [header] |>) ;;;
  let* t := get_conn in
  if pending t >? 1 then ret false else xmit stack.

(** *** Receiving

    [read] calls a function that may change more than the connection.  A
    [conn_lens] finds the connection in a larger state. *)
Record conn_lens (S : Type) := {
  conn_get : S -> option tcp_connection;
  conn_put : tcp_connection -> S -> S;
  conn_get_put s t t' : conn_get s = Some t' -> conn_get (conn_put t s) = Some t;
  conn_put_put s t t' : conn_put t (conn_put t' s) = conn_put t s;
  conn_put_get s t : conn_get s = Some t -> conn_put t s = s
}.
Arguments conn_get {S}.
Arguments conn_put {S}.

Definition on_conn {S A} (L : conn_lens S) (m : CM A) : ST S A := fun s =>
  match conn_get L s with
  | None => Fault BadPointer
  | Some t => match m t with Ok (a, t') => Ok (a, conn_put L t' s) | Fault f => Fault f end
  end.

(** Bytes [next, next + n) of the buffer. *)
Definition read_buffer (buffer : list Z) (next n : Z) : result (list Z) :=
  if (0 <=? next) && (next + n <=? Z.of_nat (length buffer)) then Ok (slice buffer next n) else Fault ArrayBounds.

(** [memcpy] into the header. *)
Definition fill_header (at_ : Z) (bs : list Z) (t : tcp_connection) : tcp_connection :=
  t <| tc_header ::= fun h => take (Z.to_nat at_) h ++ bs ++ drop (Z.to_nat at_ + length bs) h |> <| tc_bytes_received ::= fun b => b + Z.of_nat (length bs) |>.

Definition conn_fail (e : conn_error) : CM (option Z) :=
  upd_conn (fun t => t <| tc_error_message := Some e |>) ;;; ret (Some 1).

Section Read.
Context {S : Type} (L : conn_lens S) (func : message_header -> ST S unit).

(** The inner loop of [read]: [Some e] is [return e]. *)
Fixpoint process (fuel : nat) (buffer : list Z) (next count : Z) : ST S (option Z) :=
  if count <=? 0 then ret None else
  match fuel with
  | O => raise OutOfFuel
  | Datatypes.S fuel =>
      let* t := on_conn L get_conn in
      let header_bytes := sizeof_header - tc_bytes_received t in
      let header_bytes := if count <? header_bytes then count else header_bytes in
      let n := if header_bytes >? 0 then header_bytes else 0 in
      (if header_bytes >? 0 then
         let* bs := lift (read_buffer buffer next n) in
         on_conn L (upd_conn (fill_header (tc_bytes_received t) bs))
       else ret tt) ;;;
      let next := next + n in
      let count := count - n in
      let* t := on_conn L get_conn in
      if tc_bytes_received t <? sizeof_header then ret None else
      let header := dec_header (tc_header t) in
      if (mh_length header >? HOMA_MAX_MESSAGE_LENGTH) || (mh_length header <? 0)
      then on_conn L (conn_fail (ErrLength (mh_length header))) else
      let needed := mh_length header - tc_bytes_received t in
      if count <? needed then
        (on_conn L (upd_conn (fun t => t <| tc_bytes_received ::= fun b => b + count |>)) ;;; ret None)
      else
        (func header ;;;
         on_conn L (upd_conn (fun t => t <| tc_bytes_received := 0 |>)) ;;;
         process fuel buffer (next + needed) (count - needed))
  end.

(** The next result of [::read]; there is nothing to read after the last. *)
Definition sys_read : CM rd_result :=
  let* t := get_conn in
  match tc_in t with
  | [] => ret (RdErr EAGAIN)
  | r :: l => upd_conn (fun t => t <| tc_in := l |>) ;;; ret r
  end.

Definition is_http (bs : list Z) : bool := bool_decide (take 4 bs = [71; 69; 84; 32]).

Definition failed (e : conn_error) : ST S Z := on_conn L (conn_fail e) ;;; ret 1.

(** [tcp_connection::read]. *)
Fixpoint conn_read (fuel : nat) (loop : bool) : ST S Z :=
  match fuel with
  | O => raise OutOfFuel
  | Datatypes.S fuel =>
      let* r := on_conn L sys_read in
      match r with
      | RdErr e =>
          if e =? EAGAIN then ret 0
          else if e =? ECONNRESET then failed ErrClosed
          else if e =? EFAULT then conn_read fuel loop
          else failed (ErrRead e)
      | RdData [] => failed ErrClosed
      | RdData buffer =>
          if is_http buffer then failed ErrUnexpected else
          let* stop := process fuel buffer 0 (Z.of_nat (length buffer)) in
          match stop with
          | Some e => ret e
          | None => if loop then conn_read fuel loop else ret 0
          end
      end
  end.
End Read.

(** ** Lemmas *)

Record header_ok (h : message_header) : Prop := {
  ho_length : sizeof_header <= mh_length h <= HOMA_MAX_MESSAGE_LENGTH;
  ho_freeze : 0 <= mh_freeze h < 2;
  ho_short : 0 <= mh_short_response h < 2;
  ho_msg_id : 0 <= mh_msg_id h < 2 ^ 32
}.

Lemma le_enc_length n z : length (le_enc n z) = n.
Proof. unfold le_enc. by rewrite length_rev, be_enc_length. Qed.

Lemma le_dec_enc n z : le_dec (le_enc n z) = z mod 2 ^ (8 * Z.of_nat n).
Proof. unfold le_dec, le_enc. rewrite rev_involutive. apply be_dec_enc. Qed.

Lemma enc_header_length h : length (enc_header h) = 12%nat.
Proof. unfold enc_header. by rewrite !length_app, !le_enc_length. Qed.

Lemma byte_at_app l k i : (length l <= i)%nat -> byte_at (l ++ k) i = byte_at k (i - length l).
Proof. intros H. unfold byte_at. by rewrite lookup_app_r. Qed.

Lemma dec_enc_header h : header_ok h -> dec_header (enc_header h) = h.
Proof.
  intros [H1 H2 H3 H4]. unfold sizeof_header, HOMA_MAX_MESSAGE_LENGTH in H1. unfold dec_header, enc_header.
  set (w := mh_length h mod 2 ^ 30 + 2 ^ 30 * mh_freeze h + 2 ^ 31 * mh_short_response h).
  assert (mh_length h mod 2 ^ 30 = mh_length h) as El by (apply Z.mod_small; lia).
  rewrite take_app_length' by (by rewrite le_enc_length). rewrite !byte_at_app by (rewrite le_enc_length; lia). rewrite le_enc_length. cbn [Nat.sub].
  rewrite drop_app_ge, le_enc_length by (rewrite le_enc_length; lia). cbn [Nat.sub drop app].
  rewrite (take_ge (le_enc 4 (mh_msg_id h))) by (rewrite le_enc_length; lia). rewrite !le_dec_enc. change (8 * Z.of_nat 4) with 32.
  rewrite (Z.mod_small w) by (unfold w; lia). rewrite (Z.mod_small (mh_msg_id h)) by done.
  assert (w mod 2 ^ 30 = mh_length h) as -> by (unfold w; rewrite El; symmetry; apply (Z.mod_unique _ _ (mh_freeze h + 2 * mh_short_response h)); lia).
  assert (w / 2 ^ 30 = mh_freeze h + 2 * mh_short_response h) as -> by (unfold w; rewrite El; symmetry; apply (Z.div_unique _ _ _ (mh_length h)); lia).
  assert (w / 2 ^ 31 = mh_short_response h) as -> by (unfold w; rewrite El; symmetry; apply (Z.div_unique _ _ _ (mh_length h + 2 ^ 30 * mh_freeze h)); lia).
  rewrite (Z.mul_comm 2), Z.mod_add by lia. rewrite (Z.mod_small (mh_freeze h)) by lia.
  destruct (Z.geb_spec (mh_length h) (2 ^ 29)); [lia |]. destruct h as [? ? ? [] ?]. reflexivity.
Qed.

(** A message on the stream: its header, and bytes that nobody looks at. *)
Record frame_ok (h : message_header) (fr : list Z) : Prop := {
  fr_header : header_ok h;
  fr_length : Z.of_nat (length fr) = mh_length h;
  fr_start : take 12 fr = enc_header h
}.

(** *** Sending *)

(** [part] is the beginning of a message. *)
Definition part_of (h : message_header) (part : list Z) : Prop :=
  take 12 part = take (length part) (enc_header h).

Lemma part_frame h part : header_ok h -> part_of h part -> Z.of_nat (length part) = mh_length h -> frame_ok h part.
Proof.
  intros Hh Hp Hl. constructor; [done | done |]. rewrite Hp. apply take_ge. rewrite enc_header_length.
  destruct Hh as [? _ _ _]. unfold sizeof_header in *. lia.
Qed.

(** The bytes handed to TCP are the messages [done_] followed by the part of the
    next one that was sent. *)
Record xmit_inv (wire0 : list Z) (done_ : list (message_header * list Z)) (part : list Z) (t : tcp_connection) : Prop := {
  xi_done : Forall (fun f => frame_ok f.1 f.2) done_;
  xi_queue : Forall header_ok (tc_outgoing t);
  xi_wire : tc_wire t = wire0 ++ concat done_.*2 ++ part;
  xi_sent : tc_bytes_sent t = Z.of_nat (length part);
  xi_part : match tc_outgoing t with [] => part = [] | h :: _ => part_of h part /\ Z.of_nat (length part) < mh_length h end
}.

Lemma part_of_nil h : part_of h [].
Proof. done. Qed.

(** A [send] of [n] bytes appends to the part. *)
Lemma part_grow h part buffer n :
  header_ok h -> part_of h part -> 0 <= n -> Z.of_nat (length part) + n <= mh_length h ->
  let first := Z.of_nat (length part) <? sizeof_header in
  let start := if first then Z.of_nat (length part) else 0 in
  let data := slice (if first then enc_header h ++ drop 12 buffer else buffer) start n in
  part_of h (part ++ data).
Proof.
  intros Hh Hp Hn Hle first start data. unfold part_of in *. unfold data, start, first. clear data start first.
  destruct (Z.ltb_spec (Z.of_nat (length part)) sizeof_header) as [Hl | Hl]; unfold sizeof_header in Hl.
  - unfold slice. rewrite Nat2Z.id.
    assert (part = take (length part) (enc_header h)) as E by (rewrite <- Hp; symmetry; apply take_ge; lia).
    rewrite drop_app_le by (rewrite enc_header_length; lia).
    set (k := length part) in *. rewrite E at 1. 
    replace (take k (enc_header h) ++ take (Z.to_nat n) (drop k (enc_header h) ++ drop 12 buffer))
      with (take (k + Z.to_nat n) (enc_header h ++ drop 12 buffer)).
    2: { rewrite <- take_take_drop. f_equal; [by rewrite take_app_le by (rewrite enc_header_length; lia) |].
         by rewrite drop_app_le by (rewrite enc_header_length; lia). }
    rewrite take_take, length_app, length_take, length_app, length_drop, enc_header_length, length_drop.
    destruct (Nat.le_ge_cases 12 (k + Z.to_nat n)).
    + rewrite Nat.min_l by done. rewrite take_app_length' by (by rewrite enc_header_length).
      rewrite take_ge; [done |]. rewrite enc_header_length. unfold k in *. lia.
    + rewrite Nat.min_r by done. rewrite take_app_le by (rewrite enc_header_length; lia). f_equal. unfold k in *. lia.
  - rewrite take_app_le by lia. rewrite Hp. rewrite !take_ge; rewrite ?length_app, ?enc_header_length; done || lia.
Qed.

(** Sending changes only these fields. *)
Definition tx_part (t t' : tcp_connection) : Prop :=
  t' = t <| tc_outgoing := tc_outgoing t' |> <| tc_bytes_sent := tc_bytes_sent t' |> <| tc_send := tc_send t' |>
         <| tc_wire := tc_wire t' |>.

#[export] Instance tx_part_preorder : PreOrder tx_part.
Proof.
  split; [intros []; done |]. intros [] [] []. unfold tx_part. cbn. intros E1 E2. injection E1 as -> -> -> -> -> -> -> -> ->.
  injection E2 as -> -> -> -> -> -> -> -> ->. done.
Qed.

(** The kernel takes bytes or none; the connection does not break. *)
Definition send_ok (r : Z) : Prop := 0 <= r \/ r = - EAGAIN.

(** One call of [send] that takes up to [r] bytes. *)
Lemma xmit_sent wire0 done_ part t h rest buffer r results :
  xmit_inv wire0 done_ part t -> tc_outgoing t = h :: rest -> Z.of_nat (length buffer) = BUFFER_SIZE -> 0 <= r ->
  let first := tc_bytes_sent t <? sizeof_header in
  let start := if first then tc_bytes_sent t else 0 in
  let buf := if first then enc_header h ++ drop 12 buffer else buffer in
  let sl := mh_length h - tc_bytes_sent t in
  let n := Z.min r (if sl >? BUFFER_SIZE - start then BUFFER_SIZE - start else sl) in
  let t2 := t <| tc_send := results |> <| tc_wire ::= fun w => w ++ slice buf start n |> <| tc_bytes_sent ::= fun b => b + n |> in
  let t3 := if tc_bytes_sent t2 <? mh_length h then t2 else t2 <| tc_bytes_sent := 0 |> <| tc_outgoing := rest |> in
  Z.of_nat (length buf) = BUFFER_SIZE /\
  exists done' part', xmit_inv wire0 (done_ ++ done') part' t3 /\ done'.*1 ++ tc_outgoing t3 = tc_outgoing t /\ tx_part t t3.
Proof.
  intros [Hdone Hq Hw Hs Hp] E Hb Hr first start buf sl n t2 t3. rewrite E in *. destruct Hp as [Hp Hpl].
  apply Forall_cons in Hq as [Hh Hq]. pose proof (ho_length _ Hh) as Hlen. unfold sizeof_header in Hlen.
  assert (0 <= start < 12 /\ start <= Z.of_nat (length part)) as Hst
    by (unfold start, first, sizeof_header; destruct (Z.ltb_spec (tc_bytes_sent t) 12); lia).
  assert (Z.of_nat (length buf) = BUFFER_SIZE) as Hbl.
  { unfold buf, BUFFER_SIZE in *. destruct first; [|done]. rewrite length_app, enc_header_length, length_drop. lia. }
  split; [done |]. assert (0 <= n <= sl /\ n <= BUFFER_SIZE - start) as Hn by (unfold n, BUFFER_SIZE; zb; lia).
  assert (Z.of_nat (length (slice buf start n)) = n) as Hdl by (apply slice_length; unfold BUFFER_SIZE in *; lia).
  assert (part_of h (part ++ slice buf start n)) as Hp'
    by (unfold start, buf, first; rewrite Hs; apply (part_grow h part buffer n); done || lia).
  set (part2 := part ++ slice buf start n) in *.
  assert (Z.of_nat (length part2) = tc_bytes_sent t2) as Hl2 by (unfold part2; rewrite length_app; cbn; lia).
  assert (tc_wire t2 = wire0 ++ concat done_.*2 ++ part2) as Hw2 by (unfold t2; cbn; rewrite Hw; unfold part2; by rewrite !app_assoc).
  assert (tx_part t t2 /\ tx_part t t3) as [Ht2 Ht3] by (unfold t3, t2; destruct (_ <? mh_length h); by destruct t).
  unfold t3 in *. destruct (Z.ltb_spec (tc_bytes_sent t2) (mh_length h)) as [Hlt | Hge].
  - exists [], part2. rewrite app_nil_r. split_ands; [|cbn; by rewrite E | done].
    constructor; try done; [cbn; rewrite E; by constructor | cbn; rewrite E; split; [done | lia]].
  - exists [(h, part2)], []. split_ands; [|done | done].
    assert (tc_bytes_sent t2 = mh_length h) as Hfull by (cbn in *; lia).
    constructor; cbn -[t2]; try done.
    + apply Forall_app. split; [done |]. constructor; [|done]. apply part_frame; [done | done |]. cbn [fst snd]. by rewrite Hl2.
    + rewrite Hw2, fmap_app, concat_app. cbn [fmap list_fmap concat]. by rewrite !app_nil_r.
    + destruct rest as [|h2 rest]; [done |]. apply Forall_cons in Hq as [[? _ _ _] _]. split; [done |]. cbn. unfold sizeof_header in *. lia.
Qed.

Lemma tcp_xmit_loop_spec wire0 results : forall buffer done_ part t,
  Forall send_ok results -> Z.of_nat (length buffer) = BUFFER_SIZE -> xmit_inv wire0 done_ part t ->
  exists b t' done' part', tcp_xmit_loop results buffer t = Ok (b, t') /\ xmit_inv wire0 (done_ ++ done') part' t' /\
    done'.*1 ++ tc_outgoing t' = tc_outgoing t /\ tx_part t t' /\ (b = true <-> tc_outgoing t' = []).
Proof.
  induction results as [|r results IH]; intros buffer done_ part t Hr Hb Hi; cbn [tcp_xmit_loop];
    rewrite (bind_eq get_conn _ _ _ _ eq_refl).
  - assert (tx_part t t) by reflexivity.
    exists (match tc_outgoing t with [] => true | _ => false end), t, [], part. rewrite app_nil_r.
    destruct (tc_outgoing t) eqn:E; split_ands; done.
  - apply Forall_cons in Hr as [Hr Hrs]. destruct (tc_outgoing t) as [|h rest] eqn:E.
    { exists true, t, [], part. rewrite app_nil_r. split_ands; done. }
    rewrite (bind_eq (upd_conn _) _ _ _ _ eq_refl). destruct (Z.eqb_spec r (- EAGAIN)) as [-> | Hne].
    { exists false, (t <| tc_send := results |>), [], part. rewrite app_nil_r. split_ands; try done.
      - destruct Hi as [? ? ? ? ?]. by constructor.
      - cbn. by rewrite E. }
    assert (0 <= r) as Hr0 by (destruct Hr; [done | contradiction]). destruct (Z.geb_spec r 0); [|lia].
    rewrite (bind_eq (upd_conn _) _ _ _ _ eq_refl), (bind_eq get_conn _ _ _ _ eq_refl).
    destruct (xmit_sent wire0 done_ part t h rest buffer r results Hi E Hb Hr0) as (Hbl & d1 & p1 & Hi1 & Ho1 & Ht1).
    cbv zeta in Hbl, Hi1, Ho1, Ht1. set (buf := if _ <? sizeof_header then _ ++ _ else _) in *. set (t2 := (t <| tc_send := results |>) <| tc_wire ::= _ |> <| tc_bytes_sent ::= _ |>) in *.
    set (t3 := if tc_bytes_sent t2 <? mh_length h then t2 else _) in *.
    match goal with |- context [bind ?m _ t2] => assert (m t2 = Ok (tt, t3)) as Hm by (unfold t3; by destruct (_ <? mh_length h)) end.
    rewrite (bind_eq _ _ _ _ _ Hm).
    destruct (IH buf (done_ ++ d1) p1 t3 Hrs Hbl Hi1) as (b & t' & d' & p' & Hex & Hi' & Ho & Ht & Hbt).
    exists b, t', (d1 ++ d'), p'. rewrite app_assoc. split_ands; try done; [|by etransitivity].
    by rewrite fmap_app, <- app_assoc, Ho, Ho1, E.
Qed.

(** Lengths below the size of a header are rounded up. *)
Definition rounded (h : message_header) : message_header :=
  if mh_length h <? sizeof_header then h <| mh_length := sizeof_header |> else h.

Definition stack_ok (stack : list Z) : Prop := Z.of_nat (length stack) = BUFFER_SIZE.

Lemma xmit_spec wire0 done_ part stack t :
  stack_ok stack -> Forall send_ok (tc_send t) -> xmit_inv wire0 done_ part t ->
  exists b t' done' part', xmit stack t = Ok (b, t') /\ xmit_inv wire0 (done_ ++ done') part' t' /\
    done'.*1 ++ tc_outgoing t' = tc_outgoing t /\ tx_part t t' /\ (b = true <-> tc_outgoing t' = []).
Proof.
  intros Hst Hs Hi. unfold xmit. rewrite (bind_eq get_conn _ _ _ _ eq_refl). by apply (tcp_xmit_loop_spec _ _ _ _ part).
Qed.

Lemma send_message_spec wire0 done_ part stack h t :
  stack_ok stack -> Forall send_ok (tc_send t) -> header_ok (rounded h) -> xmit_inv wire0 done_ part t ->
  exists b t' done' part', send_message stack h t = Ok (b, t') /\ xmit_inv wire0 (done_ ++ done') part' t' /\
    done'.*1 ++ tc_outgoing t' = tc_outgoing t ++ [rounded h] /\ tx_part t t' /\ (b = true <-> tc_outgoing t' = []) /\
    (tc_outgoing t <> [] -> b = false).
Proof.
  intros Hst Hs Hh Hi. unfold send_message. fold (rounded h). rewrite (bind_eq (upd_conn _) _ _ _ _ eq_refl).
  set (t1 := t <| tc_outgoing ::= _ |>). rewrite (bind_eq get_conn _ _ _ _ eq_refl).
  assert (tc_outgoing t1 = tc_outgoing t ++ [rounded h] /\ tx_part t t1 /\ tc_send t1 = tc_send t) as (Eo & Ht1 & Es) by (by destruct t).
  assert (xmit_inv wire0 done_ part t1) as Hi1.
  { destruct Hi as [H1 H2 H3 H4 H5]. constructor; try done; rewrite Eo.
    - apply Forall_app. split; [done | by constructor].
    - destruct (tc_outgoing t); [|done]. rewrite H5. split; [done |]. destruct Hh as [? _ _ _]. unfold sizeof_header in *. cbn. lia. }
  unfold pending. destruct (Z.gtb_spec (Z.of_nat (length (tc_outgoing t1))) 1).
  - exists false, t1, [], part. rewrite app_nil_r. split_ands; try done. split; [done |]. intros E. by rewrite E in *.
  - destruct (xmit_spec wire0 done_ part stack t1) as (b & t' & d' & p' & Hex & Hi' & Ho & Ht & Hb); try done.
    exists b, t', d', p'. rewrite <- Eo. split_ands; try done; try (by etransitivity); try apply Hb. intros Hne. exfalso. rewrite Eo, length_app in *.
    destruct (tc_outgoing t); [done | cbn in *; lia].
Qed.

(** A program that uses a connection to send: it queues messages and calls
    [xmit] when the socket may be writable. *)
Inductive conn_op := OpSend (stack : list Z) (h : message_header) | OpXmit (stack : list Z).

Definition run_op (op : conn_op) : CM unit :=
  match op with OpSend stack h => send_message stack h ;;; ret tt | OpXmit stack => xmit stack ;;; ret tt end.
Definition op_ok (op : conn_op) : Prop :=
  match op with OpSend stack h => stack_ok stack /\ header_ok (rounded h) | OpXmit stack => stack_ok stack end.
Definition queued (ops : list conn_op) : list message_header :=
  omap (fun op => match op with OpSend _ h => Some (rounded h) | OpXmit _ => None end) ops.

Lemma xmit_sends stack t b t' : xmit stack t = Ok (b, t') -> Forall send_ok (tc_send t) -> Forall send_ok (tc_send t').
Proof.
  unfold xmit. rewrite (bind_eq get_conn _ _ _ _ eq_refl).
  assert (forall results buffer t, Forall send_ok results -> Forall send_ok (tc_send t) -> tcp_xmit_loop results buffer t = Ok (b, t') ->
    Forall send_ok (tc_send t')) as H; [|intros He Hs; by eapply H].
  induction results as [|r l IH]; intros buffer t0 Hr Ht; cbn [tcp_xmit_loop]; rewrite (bind_eq get_conn _ _ _ _ eq_refl).
  - destruct (tc_outgoing t0); by intros [= <- <-].
  - apply Forall_cons in Hr as [Hr Hl]. destruct (tc_outgoing t0); [by intros [= <- <-] |].
    rewrite (bind_eq (upd_conn _) _ _ _ _ eq_refl). destruct (Z.eqb_spec r (- EAGAIN)); [by intros [= <- <-] |].
    destruct (Z.geb_spec r 0); [|destruct Hr; [lia | done]].
    rewrite (bind_eq (upd_conn _) _ _ _ _ eq_refl), (bind_eq get_conn _ _ _ _ eq_refl).
    destruct (_ <? mh_length m); [rewrite (bind_eq (ret tt) _ _ _ _ eq_refl) | rewrite (bind_eq (upd_conn _) _ _ _ _ eq_refl)];
      (apply IH; [done | exact Hl]).
Qed.

Lemma run_ops_spec ops : forall done_ part t,
  Forall op_ok ops -> Forall send_ok (tc_send t) -> xmit_inv [] done_ part t ->
  exists t' done' part', mapM_ run_op ops t = Ok (tt, t') /\ xmit_inv [] (done_ ++ done') part' t' /\
    done'.*1 ++ tc_outgoing t' = tc_outgoing t ++ queued ops.
Proof.
  induction ops as [|op ops IH]; intros done_ part t Hops Hs Hi.
  - exists t, [], part. cbn. by rewrite !app_nil_r.
  - apply Forall_cons in Hops as [Hop Hops]. cbn [mapM_].
    assert (exists t1 d1 p1, run_op op t = Ok (tt, t1) /\ xmit_inv [] (done_ ++ d1) p1 t1 /\
      d1.*1 ++ tc_outgoing t1 = tc_outgoing t ++ queued [op] /\ Forall send_ok (tc_send t1)) as (t1 & d1 & p1 & Hex & Hi1 & Ho1 & Hs1).
    { destruct op as [stack h | stack]; cbn [run_op].
      - destruct Hop as [Hst Hh]. destruct (send_message_spec [] done_ part stack h t) as (b & t1 & d1 & p1 & Hex & Hi1 & Ho1 & _); try done.
        exists t1, d1, p1. rewrite (bind_eq _ _ _ _ _ Hex). split_ands; try done. unfold send_message in Hex.
        rewrite (bind_eq (upd_conn _) _ _ _ _ eq_refl), (bind_eq get_conn _ _ _ _ eq_refl) in Hex.
        destruct (_ >? 1); [by injection Hex as <- <- | by eapply xmit_sends].
      - destruct (xmit_spec [] done_ part stack t) as (b & t1 & d1 & p1 & Hex & Hi1 & Ho1 & _); try done.
        exists t1, d1, p1. rewrite (bind_eq _ _ _ _ _ Hex). cbn. rewrite app_nil_r. split_ands; try done. by eapply xmit_sends. }
    rewrite (bind_eq _ _ _ _ _ Hex). destruct (IH (done_ ++ d1) p1 t1 Hops Hs1 Hi1) as (t' & d' & p' & Hex' & Hi' & Ho').
    exists t', (d1 ++ d'), p'. rewrite app_assoc. split_ands; try done.
    rewrite fmap_app, <- app_assoc, Ho', app_assoc, Ho1, <- app_assoc. f_equal. by destruct op.
Qed.

(** *** Receiving *)

(** [k] bytes of the first message of [F] have been received. *)
Definition expects (F : list (message_header * list Z)) (k : Z) (t : tcp_connection) : Prop :=
  length (tc_header t) = 12%nat /\ tc_bytes_received t = k /\
  match F with
  | [] => k = 0
  | (h, fr) :: _ => 0 <= k < Z.of_nat (length fr) /\
      take (Z.to_nat (Z.min k 12)) (tc_header t) = take (Z.to_nat (Z.min k 12)) fr
  end.

(** Receiving changes only these fields. *)
Definition rx_part (t t' : tcp_connection) : Prop :=
  t' = t <| tc_bytes_received := tc_bytes_received t' |> <| tc_header := tc_header t' |> <| tc_in := tc_in t' |>
         <| tc_error_message := tc_error_message t' |>.

(** The next bytes of a stream whose first [k] bytes are gone. *)
Lemma stream_slice (buffer stream : list Z) next k n :
  drop (Z.to_nat next) buffer `prefix_of` drop (Z.to_nat k) stream ->
  0 <= next -> 0 <= k -> 0 <= n -> next + n <= Z.of_nat (length buffer) -> slice buffer next n = slice stream k n.
Proof.
  intros [rest E] H1 H2 H3 H4. unfold slice. rewrite E, take_app_le; [done |]. rewrite length_drop. lia.
Qed.

Lemma stream_skip (buffer stream : list Z) next k n :
  drop (Z.to_nat next) buffer `prefix_of` drop (Z.to_nat k) stream -> 0 <= next -> 0 <= k -> 0 <= n ->
  next + n <= Z.of_nat (length buffer) -> drop (Z.to_nat (next + n)) buffer `prefix_of` drop (Z.to_nat (k + n)) stream.
Proof.
  intros [rest E] H1 H2 H3 H4. exists rest. rewrite !Z2Nat.inj_add by done. rewrite <- !drop_drop, E, drop_app_le; [done |].
  rewrite length_drop. lia.
Qed.

(** More bytes of the header. *)
Lemma fill_header_ok h fr t k n :
  frame_ok h fr -> length (tc_header t) = 12%nat -> 0 <= k -> 0 <= n -> k + n <= 12 ->
  take (Z.to_nat k) (tc_header t) = take (Z.to_nat k) fr ->
  let t' := fill_header k (slice fr k n) t in
  length (tc_header t') = 12%nat /\ take (Z.to_nat (k + n)) (tc_header t') = take (Z.to_nat (k + n)) fr /\
  tc_bytes_received t' = tc_bytes_received t + n.
Proof.
  intros [[Hl _ _ _] Hlen _] H12 Hk Hn Hle Hp t'. unfold sizeof_header in Hl.
  assert (Z.of_nat (length (slice fr k n)) = n) as Hs by (apply slice_length; lia). unfold t'. cbn. split_ands.
  - rewrite !length_app, length_take, length_drop. lia.
  - rewrite app_assoc, take_app_le by (rewrite length_app, length_take; lia).
    rewrite take_ge by (rewrite length_app, length_take; lia). rewrite Hp. unfold slice. rewrite Z2Nat.inj_add by lia. by rewrite take_take_drop.
  - lia.
Qed.

Section ReadSpec.
Context {S : Type} (L : conn_lens S) (func : message_header -> ST S unit).
Variable P : list message_header -> S -> Prop.
(** [P hs] tells what the function has done for the messages [hs]. *)
Hypothesis Pstable : forall hs s t t', P hs s -> conn_get L s = Some t -> rx_part t t' -> P hs (conn_put L t' s).
(** [Q] tells which messages come. *)
Variable Q : message_header -> Prop.
Hypothesis Pfunc : forall hs s t h, P hs s -> conn_get L s = Some t -> header_ok h -> Q h ->
  exists s' t', func h s = Ok (tt, s') /\ P (hs ++ [h]) s' /\ conn_get L s' = Some t' /\
    tc_bytes_received t' = tc_bytes_received t /\ length (tc_header t') = length (tc_header t) /\ tc_in t' = tc_in t.

Lemma on_conn_eq {A} (m : CM A) s t a t' :
  conn_get L s = Some t -> m t = Ok (a, t') -> on_conn L m s = Ok (a, conn_put L t' s).
Proof. intros Hs Hm. unfold on_conn. by rewrite Hs, Hm. Qed.

(** The state [s] of the program that handled [hs] and expects [F]. *)
Record in_reading (hs : list message_header) (F : list (message_header * list Z)) (k : Z) (ins : list rd_result) (s : S) : Prop := {
  rd_conn : exists t, conn_get L s = Some t /\ expects F k t /\ tc_in t = ins;
  rd_P : P hs s
}.

Lemma reading_put hs F k ins s t t' F' k' :
  in_reading hs F k ins s -> conn_get L s = Some t -> rx_part t t' -> expects F' k' t' ->
  in_reading hs F' k' (tc_in t') (conn_put L t' s).
Proof.
  intros [_ HP] Hs Hrx He. constructor; [|by eapply Pstable].
  exists t'. split_ands; [by eapply conn_get_put | done | done].
Qed.

Lemma get_conn_eq s t : conn_get L s = Some t -> on_conn L get_conn s = Ok (t, s).
Proof. intros Hs. rewrite (on_conn_eq _ _ _ t t Hs eq_refl). by rewrite (conn_put_get _ L _ _ Hs). Qed.

Lemma upd_conn_eq s t f : conn_get L s = Some t -> on_conn L (upd_conn f) s = Ok (tt, conn_put L (f t) s).
Proof. intros Hs. by apply (on_conn_eq _ _ t). Qed.

(** The first part of an iteration: the header is completed as far as the
    buffer goes. *)
Lemma header_step h fr F k hs ins s buffer next count :
  frame_ok h fr -> in_reading hs ((h, fr) :: F) k ins s ->
  drop (Z.to_nat next) buffer `prefix_of` drop (Z.to_nat k) (fr ++ concat F.*2) ->
  0 <= next -> count = Z.of_nat (length buffer) - next -> 0 < count ->
  let hb := sizeof_header - k in
  let hb := if count <? hb then count else hb in
  let n := if hb >? 0 then hb else 0 in
  exists s' t', (if hb >? 0 then
      let* bs := lift (read_buffer buffer next n) in on_conn L (upd_conn (fill_header k bs)) else ret tt) s = Ok (tt, s') /\
    conn_get L s' = Some t' /\ 0 <= n <= count /\ tc_bytes_received t' = k + n /\ length (tc_header t') = 12%nat /\
    tc_in t' = ins /\ P hs s' /\ k + n <= Z.max k 12 /\ (k + n < 12 -> n = count) /\
    take (Z.to_nat (Z.min (k + n) 12)) (tc_header t') = take (Z.to_nat (Z.min (k + n) 12)) fr.
Proof.
  intros Hfr [(t & Hs & (H12 & Hb & Hk & Hp) & Hin) HP] Hpre Hnext -> Hc hb0 hb n.
  assert (0 <= n <= Z.of_nat (length buffer) - next /\ (k < 12 -> n = Z.min (Z.of_nat (length buffer) - next) (12 - k)) /\
    (12 <= k -> n = 0) /\ (hb >? 0) = (k <? 12)) as (Hn0 & Hn1 & Hn2 & Hgt)
    by (unfold n, hb, hb0, sizeof_header; zb; lia || (split_ands; lia)).
  rewrite Hgt. destruct (Z.ltb_spec k 12) as [Hlt | Hge].
  - pose proof (fr_length _ _ Hfr) as Hfl. destruct (fr_header _ _ Hfr) as [Hml _ _ _]. unfold sizeof_header in Hml.
    assert (slice buffer next n = slice fr k n) as Es.
    { rewrite (stream_slice buffer (fr ++ concat F.*2) next k n) by (done || lia). apply slice_app_l; lia. }
    unfold read_buffer. destruct (Z.leb_spec 0 next); [|lia]. destruct (Z.leb_spec (next + n) (Z.of_nat (length buffer))); [|lia].
    cbn [andb]. unfold lift. rewrite (bind_eq _ _ _ _ _ eq_refl), (upd_conn_eq _ t) by done. rewrite Es. rewrite (Z.min_l k 12) in Hp by lia.
    destruct (fill_header_ok h fr t k n) as (Ha & Hb' & Hc'); try done; try lia.
    eexists _, _. split; [reflexivity |]. split; [by eapply conn_get_put |]. split_ands; try done; try lia.
    + eapply Pstable; [done | done |]. by destruct t.
    + rewrite Z.min_l by lia. exact Hb'.
  - exists s, t. rewrite Hn2, Z.add_0_r by lia. split_ands; try done; lia.
Qed.

(** What is left of the stream after [n] more bytes of it. *)
Definition stream_after (F : list (message_header * list Z)) (k n : Z) (F' : list (message_header * list Z)) (k' : Z) : Prop :=
  drop (Z.to_nat k') (concat F'.*2) = drop (Z.to_nat n) (drop (Z.to_nat k) (concat F.*2)).

Lemma stream_after_0 F k n : n <= 0 -> stream_after F k n F k.
Proof. intros Hn. unfold stream_after. replace (Z.to_nat n) with O by lia. done. Qed.

Lemma stream_after_part F k n : 0 <= k -> 0 <= n -> stream_after F k n F (k + n).
Proof. intros Hk Hn. unfold stream_after. rewrite drop_drop. f_equal. lia. Qed.

Lemma stream_after_next h fr F k n F' k' :
  0 <= k <= Z.of_nat (length fr) -> Z.of_nat (length fr) - k <= n ->
  stream_after F 0 (n - (Z.of_nat (length fr) - k)) F' k' -> stream_after ((h, fr) :: F) k n F' k'.
Proof.
  unfold stream_after. intros Hk Hn ->. cbn [fmap list_fmap concat snd]. rewrite !drop_drop. cbn [Z.to_nat].
  replace (Z.to_nat k + Z.to_nat n)%nat with (length fr + Z.to_nat (n - (Z.of_nat (length fr) - k)))%nat by lia.
  symmetry. by rewrite <- drop_drop, drop_app_length.
Qed.

(** The state after part of a message. *)
Lemma reading_part h fr F k hs s t : conn_get L s = Some t -> P hs s -> length (tc_header t) = 12%nat ->
  tc_bytes_received t = k -> 0 <= k < Z.of_nat (length fr) ->
  take (Z.to_nat (Z.min k 12)) (tc_header t) = take (Z.to_nat (Z.min k 12)) fr -> in_reading hs ((h, fr) :: F) k (tc_in t) s.
Proof. intros. constructor; [|done]. exists t. by split_ands. Qed.

(** The state after a whole message. *)
Lemma reading_next h F hs s t :
  Forall (fun f => frame_ok f.1 f.2) F -> header_ok h -> Q h -> conn_get L s = Some t -> P hs s -> length (tc_header t) = 12%nat ->
  exists s' t', func h s = Ok (tt, s') /\ conn_get L s' = Some t' /\
    in_reading (hs ++ [h]) F 0 (tc_in t) (conn_put L (t' <| tc_bytes_received := 0 |>) s').
Proof.
  intros HF Hh HQ Hs HP H12. destruct (Pfunc hs s t h HP Hs Hh HQ) as (s' & t' & Hex & HP' & Hs' & _ & Eh & Ei).
  exists s', t'. split_ands; try done. constructor; [|eapply Pstable; [done | done | by destruct t']].
  eexists. split; [by eapply conn_get_put |]. split; [|done]. unfold expects. cbn. split_ands; [congruence | done |].
  destruct F as [|[h2 fr2] F]; [done |]. apply Forall_cons in HF as [[Hh2 Hl2 _] _].
  destruct Hh2 as [? _ _ _]. unfold sizeof_header in *. cbn in *. split; [lia | done].
Qed.

Lemma process_spec fuel : forall hs F k ins s buffer next,
  Forall (fun f => frame_ok f.1 f.2) F -> Forall (fun f => Q f.1) F -> in_reading hs F k ins s -> 0 <= next <= Z.of_nat (length buffer) ->
  drop (Z.to_nat next) buffer `prefix_of` drop (Z.to_nat k) (concat F.*2) ->
  Z.of_nat (length buffer) - next <= Z.of_nat fuel ->
  exists s' F1 F2 k', process L func fuel buffer next (Z.of_nat (length buffer) - next) s = Ok (None, s') /\ F = F1 ++ F2 /\
    in_reading (hs ++ F1.*1) F2 k' ins s' /\ stream_after F k (Z.of_nat (length buffer) - next) F2 k'.
Proof.
  induction fuel as [|fuel IH]; intros hs F k ins s buffer next HF HQ Hrd Hnext Hpre Hfuel; cbn [process];
    set (count := Z.of_nat (length buffer) - next) in *; destruct (Z.leb_spec count 0) as [H0 | H0]; try lia.
  1,2: exists s, [], F, k; rewrite app_nil_r; split_ands; [done .. | by apply stream_after_0].
  pose proof (rd_conn _ _ _ _ _ Hrd) as (t & Hs & He & Hin). destruct F as [|[h fr] F].
  { exfalso. destruct He as (_ & _ & Hk0). cbn in Hpre. rewrite drop_nil in Hpre. apply prefix_nil_inv in Hpre.
    apply (f_equal length) in Hpre. rewrite length_drop in Hpre. cbn in Hpre. lia. }
  apply Forall_cons in HF as [Hfr HF]. apply Forall_cons in HQ as [HQh HQ]. cbn [fst snd] in Hfr, HQh. pose proof (fr_length _ _ Hfr) as Hfl.
  pose proof (fr_header _ _ Hfr) as Hh. pose proof (ho_length _ Hh) as Hml. unfold sizeof_header in Hml.
  destruct He as (_ & Hbr & Hk & _). cbn [fmap list_fmap concat] in Hpre.
  rewrite (bind_eq _ _ _ _ _ (get_conn_eq s t Hs)), Hbr.
  destruct (header_step h fr F k hs ins s buffer next count Hfr Hrd Hpre ltac:(lia) eq_refl H0)
    as (s1 & t1 & Hex & Hs1 & Hn & Hbr1 & H12 & Hin1 & HP1 & Hmax & Hshort & Hp1).
  cbv zeta in Hex. rewrite (bind_eq _ _ _ _ _ Hex). clear Hex. set (n := if _ >? 0 then _ else 0) in *.
  rewrite (bind_eq _ _ _ _ _ (get_conn_eq s1 t1 Hs1)), Hbr1. unfold sizeof_header. subst ins.
  destruct (Z.ltb_spec (k + n) 12) as [Hlt | Hge].
  { exists s1, [], ((h, fr) :: F), (k + count). rewrite app_nil_r, <- (Hshort Hlt). rewrite <- Hin1. split_ands; try done;
      [by apply (reading_part _ _ _ _ _ _ t1); try lia | apply stream_after_part; lia]. }
  rewrite Z.min_r in Hp1 by lia. change (Z.to_nat 12) with 12%nat in Hp1. rewrite (take_ge (tc_header t1)) in Hp1 by lia.
  rewrite Hp1, (fr_start _ _ Hfr), (dec_enc_header _ Hh). destruct (Z.gtb_spec (mh_length h) HOMA_MAX_MESSAGE_LENGTH); [lia |].
  destruct (Z.ltb_spec (mh_length h) 0); [lia |]. cbn [orb].
  destruct (Z.ltb_spec (count - n) (mh_length h - (k + n))) as [Hlt | Hfull].
  { rewrite (bind_eq _ _ _ _ _ (upd_conn_eq s1 t1 _ Hs1)). eexists _, [], ((h, fr) :: F), (k + count). rewrite app_nil_r.
    split_ands; [reflexivity | done | | apply stream_after_part; lia]. rewrite <- Hin1.
    set (t2 := t1 <| tc_bytes_received ::= fun b => b + (count - n) |>). change (tc_in t1) with (tc_in t2).
    eapply reading_part; [by eapply conn_get_put | | done | cbn; lia | lia |].
    - eapply Pstable; [done | done | by destruct t1].
    - rewrite Z.min_r by lia. change (Z.to_nat 12) with 12%nat. cbn. by rewrite take_ge by lia. }
  destruct (reading_next h F hs s1 t1 HF Hh HQh Hs1 HP1 H12) as (s2 & t2 & Hex & Hs2 & Hrd2).
  rewrite (bind_eq _ _ _ _ _ Hex), (bind_eq _ _ _ _ _ (upd_conn_eq s2 t2 _ Hs2)), Hin1 in *. clear Hex.
  set (next' := next + n + (mh_length h - (k + n))).
  replace (count - n - (mh_length h - (k + n))) with (Z.of_nat (length buffer) - next') by (unfold next', count; lia).
  destruct (IH (hs ++ [h]) F 0 _ _ buffer next' HF HQ Hrd2) as (s' & F1 & F2 & k' & Hex & EF & Hrd' & Haft); try lia.
  { apply (stream_skip _ _ _ _ (next' - next)) in Hpre; try lia. replace (next + (next' - next)) with next' in Hpre by lia.
    replace (k + (next' - next)) with (Z.of_nat (length fr)) in Hpre by (unfold next'; lia). by rewrite Nat2Z.id, drop_app_length in Hpre. }
  exists s', ((h, fr) :: F1), F2, k'. split_ands; [done | by rewrite EF | by rewrite <- app_assoc in Hrd' |].
  apply stream_after_next; [lia | lia |]. replace (count - _) with (Z.of_nat (length buffer) - next') by (unfold next', count; lia). done.
Qed.

(** What [::read] may return while the connection is up: some bytes, not those
    of an HTTP request, or EFAULT. *)
Definition rd_ok (r : rd_result) : Prop :=
  match r with RdData bs => bs <> [] /\ is_http bs = false | RdErr e => e = EFAULT end.

Definition rd_bytes (r : rd_result) : list Z := match r with RdData bs => bs | RdErr _ => [] end.
Definition stream_of (ins : list rd_result) : list Z := concat (rd_bytes <$> ins).

(** Iterations that are enough to read [ins]. *)
Definition read_fuel (ins : list rd_result) : nat := (length ins + length (stream_of ins) + 1)%nat.

Lemma stream_after_trans F k n F' k' m F'' k'' :
  0 <= n -> 0 <= m -> stream_after F k n F' k' -> stream_after F' k' m F'' k'' -> stream_after F k (n + m) F'' k''.
Proof. unfold stream_after. intros Hn Hm E1 ->. rewrite E1, !drop_drop. f_equal. lia. Qed.

Lemma reading_pop hs F k r ins s :
  in_reading hs F k (r :: ins) s -> exists t, on_conn L sys_read s = Ok (r, conn_put L (t <| tc_in := ins |>) s) /\
    conn_get L s = Some t /\ in_reading hs F k ins (conn_put L (t <| tc_in := ins |>) s).
Proof.
  intros [(t & Hs & He & Hin) HP]. exists t. split_ands; [|done |].
  - apply (on_conn_eq _ _ t); [done |]. unfold sys_read. rewrite (bind_eq get_conn _ _ _ _ eq_refl), Hin. done.
  - constructor; [|eapply Pstable; [done | done | by destruct t]]. eexists. split; [by eapply conn_get_put |]. done.
Qed.

Lemma conn_read_spec loop ins : forall fuel hs F k s,
  Forall (fun f => frame_ok f.1 f.2) F -> Forall (fun f => Q f.1) F -> Forall rd_ok ins -> in_reading hs F k ins s ->
  stream_of ins `prefix_of` drop (Z.to_nat k) (concat F.*2) -> (read_fuel ins <= fuel)%nat ->
  exists s' ins1 ins2 F1 F2 k', conn_read L func fuel loop s = Ok (0, s') /\ ins = ins1 ++ ins2 /\
    (loop = true -> ins2 = []) /\ F = F1 ++ F2 /\ in_reading (hs ++ F1.*1) F2 k' ins2 s' /\
    stream_after F k (Z.of_nat (length (stream_of ins1))) F2 k' /\ (stream_of ins <> [] -> stream_of ins1 <> []).
Proof.
  induction ins as [|r ins IH]; intros fuel hs F k s HF HQ Hins Hrd Hpre Hfuel; (destruct fuel as [|fuel]; [unfold read_fuel in Hfuel; lia |]);
    cbn [conn_read].
  - pose proof Hrd as [(t & Hs & He & Hin) HP].
    rewrite (bind_eq _ _ _ _ _ (on_conn_eq sys_read s t (RdErr EAGAIN) t Hs ltac:(unfold sys_read; rewrite (bind_eq get_conn _ _ _ _ eq_refl), Hin; done))).
    rewrite (conn_put_get _ L _ _ Hs). exists s, [], [], [], F, k. cbn [fmap list_fmap]. rewrite (app_nil_r hs). split_ands; done.
  - apply Forall_cons in Hins as [Hr Hins]. destruct (reading_pop _ _ _ _ _ _ Hrd) as (t & Hex & Hs & Hrd1).
    rewrite (bind_eq _ _ _ _ _ Hex). set (s1 := conn_put L _ s) in *. unfold read_fuel, stream_of in *. cbn [fmap list_fmap concat length] in *.
    rewrite length_app in Hfuel. destruct r as [bs | e]; cbn [rd_ok rd_bytes] in *.
    + destruct Hr as [Hne Hhttp]. destruct bs as [|b bs']; [done |]. set (bs := b :: bs') in *. rewrite Hhttp.
      assert (Z.of_nat (length bs) - 0 = Z.of_nat (length bs)) as E0 by lia.
      destruct (process_spec fuel hs F k ins s1 bs 0 HF HQ Hrd1) as (s2 & F1 & F2 & k1 & Hp & EF & Hrd2 & Haft); rewrite ?drop_0, ?E0 in *; try lia.
      { etransitivity; [|exact Hpre]. by apply prefix_app_r. }
      rewrite (bind_eq _ _ _ _ _ Hp). destruct loop.
      * subst F. apply Forall_app in HF as [_ HF2]. apply Forall_app in HQ as [_ HQ2].
        destruct (IH fuel (hs ++ F1.*1) F2 k1 s2 HF2 HQ2 Hins Hrd2) as (s' & i1 & i2 & F3 & F4 & k2 & Hex2 & Ei & Hl & EF & Hrd3 & Haft3 & _); try lia.
        { unfold stream_after in Haft. rewrite Haft, Nat2Z.id. destruct Hpre as [rest E]. rewrite E. exists rest.
          by rewrite <- app_assoc, drop_app_length. }
        exists s', (RdData bs :: i1), i2, (F1 ++ F3), F4, k2. split_ands; [done | by rewrite Ei | done | by rewrite EF, app_assoc | by rewrite fmap_app, app_assoc | | done].
        cbn [fmap list_fmap concat rd_bytes]. rewrite length_app, Nat2Z.inj_add. eapply stream_after_trans; [lia | lia | exact Haft | exact Haft3].
      * exists s2, [RdData bs], ins, F1, F2, k1. cbn [fmap list_fmap concat rd_bytes]. rewrite app_nil_r. split_ands; done.
    + subst e. change (EFAULT =? EAGAIN) with false. change (EFAULT =? ECONNRESET) with false. change (EFAULT =? EFAULT) with true. cbv iota.
      destruct (IH fuel hs F k s1 HF HQ Hins Hrd1 Hpre) as (s' & i1 & i2 & F3 & F4 & k2 & Hex2 & Ei & Hl & EF & Hrd3 & Haft3 & Hn); [lia |].
      exists s', (RdErr EFAULT :: i1), i2, F3, F4, k2. split_ands; try done. by rewrite Ei.
Qed.
End ReadSpec.

(** ** Both ends of a connection *)

(** A reader that collects the headers of the messages. *)
Definition log_get (s : tcp_connection * list message_header) : option tcp_connection := Some s.1.
Definition log_put (t : tcp_connection) (s : tcp_connection * list message_header) := (t, s.2).
Definition log_lens : conn_lens (tcp_connection * list message_header).
Proof. by refine {| conn_get := log_get; conn_put := log_put |}; intros [] ?; [ | | intros [= ->]]. Defined.
Definition collect_reads (h : message_header) : ST (tcp_connection * list message_header) unit := fun s => Ok (tt, (s.1, s.2 ++ [h])).

(** The rest of a message of which [part] was sent. *)
Definition completed (h : message_header) (part : list Z) : list Z :=
  part ++ drop (length part) (enc_header h ++ replicate (Z.to_nat (mh_length h - 12)) 0).

Lemma completed_ok h part : header_ok h -> part_of h part -> Z.of_nat (length part) < mh_length h -> frame_ok h (completed h part).
Proof.
  intros Hh Hp Hl. pose proof (ho_length _ Hh) as Hm. unfold sizeof_header in Hm. unfold completed.
  assert (length (enc_header h) = 12%nat) as H12 by apply enc_header_length. constructor; [done | |].
  - rewrite length_app, length_drop, length_app, length_replicate. lia.
  - destruct (Nat.le_ge_cases 12 (length part)) as [Hge | Hlt].
    + rewrite take_app_le by lia. rewrite Hp. apply take_ge. lia.
    + assert (part = take (length part) (enc_header h)) as E by (rewrite <- Hp; symmetry; apply take_ge; lia).
      rewrite E at 1. rewrite drop_app_le, app_assoc, take_drop by lia. by apply take_app_length'.
Qed.

(** The stream that a sender has written so far is the beginning of a sequence
    of messages, those it queued. *)
Lemma xmit_stream done_ part t :
  xmit_inv [] done_ part t -> exists F, Forall (fun f => frame_ok f.1 f.2) F /\ tc_wire t `prefix_of` concat F.*2 /\
    F.*1 `prefix_of` done_.*1 ++ tc_outgoing t /\ (tc_outgoing t = [] -> F = done_ /\ tc_wire t = concat F.*2).
Proof.
  intros [Hd Hq Hw _ Hp]. cbn in Hw. destruct (tc_outgoing t) as [|h rest].
  - subst part. rewrite app_nil_r in Hw. exists done_. rewrite app_nil_r. split_ands; try done. by rewrite Hw.
  - destruct Hp as [Hp Hl]. apply Forall_cons in Hq as [Hh _]. exists (done_ ++ [(h, completed h part)]). split_ands.
    + apply Forall_app. split; [done |]. constructor; [by apply completed_ok | done].
    + rewrite Hw, fmap_app, concat_app. cbn. rewrite app_nil_r. apply prefix_app. by apply prefix_app_r.
    + rewrite fmap_app. apply prefix_app. cbn. by exists rest.
    + done.
Qed.

Lemma expects_empty F k t : expects F k t -> drop (Z.to_nat k) (concat F.*2) = [] -> F = [].
Proof.
  intros (_ & _ & Hk) E. destruct F as [|[h fr] F]; [done |]. exfalso. destruct Hk as [Hk _].
  apply (f_equal length) in E. rewrite length_drop in E. cbn in E. rewrite length_app in E. lia.
Qed.

Definition fresh_conn (ins : list rd_result) (sends : list Z) : tcp_connection := new_tcp_connection 0 0 0 0 ins sends.

(** C19: Messages over a TCP connection.  A program queues messages with
    [send_message] and calls [xmit] at any time, and the kernel accepts any
    number of bytes each time: all calls succeed.  However the bytes sent so far
    are cut by the calls of [::read] on the other side, [read] terminates and
    calls its function for messages that were queued, in their order, each once
    and with the header that was queued; and for all of them if everything was
    sent and received. *)
Theorem tcp_framing_correct ops sends :
  Forall op_ok ops -> Forall send_ok sends ->
  exists t, mapM_ run_op ops (fresh_conn [] sends) = Ok (tt, t) /\
    forall ins fuel, Forall rd_ok ins -> stream_of ins `prefix_of` tc_wire t -> (read_fuel ins <= fuel)%nat ->
      exists t' hs, conn_read log_lens collect_reads fuel true (fresh_conn ins [], []) = Ok (0, (t', hs)) /\
        hs `prefix_of` queued ops /\ (tc_outgoing t = [] -> stream_of ins = tc_wire t -> hs = queued ops).
Proof.
  intros Hops Hs. destruct (run_ops_spec ops [] [] (fresh_conn [] sends) Hops Hs) as (t & d & p & Hex & Hi & Ho); [by constructor |].
  exists t. split; [done |]. intros ins fuel Hins Hpre Hfuel. cbn in Hi, Ho.
  destruct (xmit_stream d p t Hi) as (F & HF & Hw & HF1 & Hall). rewrite Ho in HF1.
  destruct (conn_read_spec log_lens collect_reads (fun hs s => s.2 = hs)) with (Q := fun _ : message_header => True) (loop := true) (ins := ins) (fuel := fuel) (hs := @nil message_header)
    (F := F) (k := 0) (s := (fresh_conn ins [], @nil message_header)) as ([t' hs] & i1 & i2 & F1 & F2 & k' & Hr & Ei & Hl & EF & Hrd & Haft & _); try done.
  - intros hs [t1 l] t2 h HP [= ->] Hh _. exists (t2, l ++ [h]), t2. cbn in *. subst l. by split_ands.
  - by apply Forall_true.
  - constructor; [|done]. exists (fresh_conn ins []). split_ands; try done. unfold expects. cbn. destruct F as [|[h fr] F]; [done |].
    apply Forall_cons in HF as [[[? _ _ _] Hl _] _]. unfold sizeof_header in *. cbn in *. split_ands; done || lia.
  - etransitivity; [exact Hpre | exact Hw].
  - pose proof (rd_P _ _ _ _ _ _ _ Hrd) as E. cbn in E. exists t', hs. split_ands; [done | |].
    + rewrite E. etransitivity; [|exact HF1]. rewrite EF, fmap_app. by exists (F2.*1).
    + intros Hnone Hwhole. destruct (Hall Hnone) as [-> Hwd]. rewrite (Hl eq_refl), app_nil_r in Ei. subst i1. rewrite Hnone, app_nil_r in Ho.
      destruct (rd_conn _ _ _ _ _ _ _ Hrd) as (t1 & _ & He & _).
      assert (F2 = []) as ->; [|by rewrite E, <- Ho, EF, app_nil_r]. eapply expects_empty; [exact He |]. unfold stream_after in Haft.
      rewrite Haft, Nat2Z.id, Hwhole, Hwd. apply drop_all.
Qed.

Definition ex_header (l id : Z) : message_header := Build_message_header l 0 0 (Build_conn_id 1 2 3 4) id.
Definition ex_stack : list Z := replicate (Z.to_nat BUFFER_SIZE) 0.
Definition ex_ops : list conn_op :=
  [OpSend ex_stack (ex_header 30 7); OpSend ex_stack (ex_header 5 8); OpXmit ex_stack; OpXmit ex_stack].
Definition ex_sends : list Z := [5; - EAGAIN; 3; 100; 10; 100].
Definition ex_wire : list Z := enc_header (ex_header 30 7) ++ replicate 18 0 ++ enc_header (ex_header 12 8).
Definition ex_ins : list rd_result := [RdData (take 7 ex_wire); RdErr EFAULT; RdData (drop 7 ex_wire)].

Lemma ex_stack_ok : stack_ok ex_stack.
Proof. unfold stack_ok, ex_stack. rewrite length_replicate. unfold BUFFER_SIZE. lia. Qed.

Lemma tcp_framing_correct_witness :
  exists t t' hs, mapM_ run_op ex_ops (fresh_conn [] ex_sends) = Ok (tt, t) /\
    conn_read log_lens collect_reads (read_fuel ex_ins) true (fresh_conn ex_ins [], []) = Ok (0, (t', hs)) /\
    hs = [ex_header 30 7; ex_header 12 8].
Proof.
  destruct (tcp_framing_correct ex_ops ex_sends) as (t & Hex & Hread).
  - repeat constructor; try exact ex_stack_ok; vm_compute; congruence.
  - unfold ex_sends. repeat (apply Forall_cons_2 || apply Forall_nil_2); unfold send_ok, EAGAIN; lia.
  - assert ((tc_wire t, tc_outgoing t) = (ex_wire, [])) as Hw.
    { transitivity (match mapM_ run_op ex_ops (fresh_conn [] ex_sends) with
        | Ok (_, t) => (tc_wire t, tc_outgoing t) | Fault _ => ([], []) end); [by rewrite Hex | vm_compute; reflexivity]. }
    injection Hw as Hw Ho. assert (stream_of ex_ins = ex_wire) as Es by (vm_compute; reflexivity).
    destruct (Hread ex_ins (read_fuel ex_ins)) as (t' & hs & Hr & _ & Hall).
    + repeat constructor; vm_compute; congruence.
    + rewrite Es, Hw. reflexivity.
    + reflexivity.
    + exists t, t', hs. split; [exact Hex |]. split; [exact Hr |]. rewrite (Hall Ho) by (rewrite Es, Hw; reflexivity).
      vm_compute. reflexivity.
Defined.

(** A header whose length is zero makes [read] step back to the start of the
    header, which it then handles again, for ever. *)
Theorem read_zero_length_hangs fuel loop rest :
  conn_read log_lens collect_reads fuel loop (fresh_conn [RdData (enc_header (ex_header 0 7) ++ rest)] [], []) = Fault OutOfFuel.
Proof.
  destruct fuel as [|fuel]; [done |]. cbn [conn_read].
  set (bs := enc_header (ex_header 0 7) ++ rest).
  assert (forall f t l, length (tc_header t) = 12%nat -> tc_bytes_received t = 0 ->
    process log_lens collect_reads f bs 0 (Z.of_nat (length bs)) (t, l) = Fault OutOfFuel) as H.
  { assert (12 <= Z.of_nat (length bs)) as Hlen by (unfold bs; rewrite length_app, enc_header_length; lia).
    induction f as [|f IH]; intros t l Ht Hb; cbn [process]; destruct (Z.leb_spec (Z.of_nat (length bs)) 0); try lia; [done |].
    rewrite (bind_eq _ _ _ _ _ (get_conn_eq log_lens (t, l) t eq_refl)), Hb. unfold sizeof_header. change (12 - 0) with 12.
    destruct (Z.ltb_spec (Z.of_nat (length bs)) 12); [lia |]. change (12 >? 0) with true. cbv iota. unfold read_buffer.
    destruct (Z.leb_spec 0 0); [|lia]. rewrite Z.add_0_l. destruct (Z.leb_spec 12 (Z.of_nat (length bs))); [|lia]. cbn [andb]. unfold lift.
    assert (slice bs 0 12 = enc_header (ex_header 0 7)) as -> by (vm_compute; reflexivity).
    erewrite bind_eq by (rewrite (bind_eq _ _ _ _ _ eq_refl); by apply (upd_conn_eq log_lens _ t)).
    set (t1 := fill_header 0 (enc_header (ex_header 0 7)) t).
    assert (tc_header t1 = enc_header (ex_header 0 7)) as Eh.
    { unfold t1, fill_header. cbn -[enc_header drop take]. rewrite drop_ge by (rewrite Ht; vm_compute; lia). by rewrite app_nil_r. }
    assert (tc_bytes_received t1 = 12) as Eb by (unfold t1; cbn -[enc_header]; rewrite Hb; reflexivity). clearbody t1.
    rewrite (bind_eq _ _ _ _ _ (get_conn_eq log_lens (t1, l) t1 eq_refl)), Eb, Eh. cbn -[process enc_header ex_header dec_header collect_reads].
    change (mh_length (dec_header (enc_header (ex_header 0 7)))) with 0. cbn [Z.gtb Z.ltb Z.compare orb HOMA_MAX_MESSAGE_LENGTH].
    destruct (Z.ltb_spec (Z.of_nat (length bs) - 12) (0 - 12)); [lia |]. rewrite (bind_eq _ _ _ _ _ eq_refl).
    erewrite bind_eq by reflexivity.
    replace (Z.of_nat (length bs) - 12 - (0 - 12)) with (Z.of_nat (length bs)) by lia. apply IH; [|done]. cbn. rewrite Eh. reflexivity. }
  assert (on_conn log_lens sys_read (fresh_conn [RdData bs] [], []) = Ok (RdData bs, (fresh_conn [] [], []))) as Hr by done.
  rewrite (bind_eq _ _ _ _ _ Hr). destruct bs as [|b bs'] eqn:E; [done |]. rewrite <- E in *.
  assert (is_http bs = false) as Hh by (unfold bs; reflexivity). rewrite Hh. unfold bind. by rewrite H.
Qed.
