(* ===== verification/CpServer.v ===== *)
(** * The servers of the benchmark node (util/cp_node.cc)

    [tcp_server] answers each request that arrives on one of its connections
    with a response of the same length (or 100 bytes); [homa_server] does this
    for a Homa socket, with the buffers of the request as the response. *)
From S2P Require Import Prelude Lists Wire Types CpConn.

Definition EPOLLIN : Z := 1.
Definition EPOLLOUT : Z := 4.
Definition EPOLLET : Z := 2 ^ 31.
Definition MAX_FDS : Z := 10000.

Record server_metrics := { sm_requests : Z; sm_bytes_in : Z; sm_bytes_out : Z }.
#[export] Instance eta_server_metrics : Eta server_metrics := fun r =>
  Build_server_metrics (sm_requests r) (sm_bytes_in r) (sm_bytes_out r).
Definition new_server_metrics : server_metrics := Build_server_metrics 0 0 0.

(** ** Freezing of time traces: [time_trace::frozen], [kfreeze_count], and the
    number of times that the kernel's trace was frozen. *)
Record freezer := { fz_frozen : bool; fz_kfreeze_count : Z; fz_kernel : Z }.
#[export] Instance eta_freezer : Eta freezer := fun r => Build_freezer (fz_frozen r) (fz_kfreeze_count r) (fz_kernel r).

(** [kfreeze]: [ok] tells whether the socket can be opened and the [ioctl]
    succeeds. *)
Definition kfreeze (ok : bool) (f : freezer) : freezer :=
  let f := f <| fz_kfreeze_count ::= fun c => s32 (c + 1) |> in
  if fz_kfreeze_count f >? 1 then f else if ok then f <| fz_kernel ::= fun k => k + 1 |> else f.

(** The reaction to a request with the [freeze] flag. *)
Definition freeze_if (ok : bool) (h : message_header) (f : freezer) : freezer :=
  if negb (mh_freeze h =? 0) && negb (fz_frozen f) then kfreeze ok (f <| fz_frozen := true |>) else f.

(** The header of the response. *)
Definition response (h : message_header) : message_header :=
  if negb (mh_short_response h =? 0) && (mh_length h >? 100) then h <| mh_length := 100 |> else h.

(** ** class tcp_server

    [ts_conns] is the array [connections], by file descriptor. *)
Record tcp_server := {
  ts_port : Z; ts_listen_fd : Z; ts_epollet : Z; ts_conns : gmap Z tcp_connection; ts_metrics : server_metrics;
  ts_freezer : freezer; ts_closed : list Z
}.
#[export] Instance eta_tcp_server : Eta tcp_server := fun r =>
  Build_tcp_server (ts_port r) (ts_listen_fd r) (ts_epollet r) (ts_conns r) (ts_metrics r) (ts_freezer r) (ts_closed r).

Definition TSM : Type -> Type := ST tcp_server.
Definition get_srv : TSM tcp_server := fun s => Ok (s, s).
Definition upd_srv (f : tcp_server -> tcp_server) : TSM unit := fun s => Ok (tt, f s).

(** The constructor, once the system calls have succeeded. *)
Definition new_tcp_server (port num_threads listen_fd : Z) (f : freezer) : tcp_server :=
  Build_tcp_server port listen_fd (if num_threads >? 0 then EPOLLET else 0) ∅ new_server_metrics
    (f <| fz_kfreeze_count := 0 |>) [].

(** What the host provides: the contents of the stack when the [n]th response
    is sent, and whether [epoll_ctl] and [ioctl] succeed. *)
Record srv_env := { se_stack : Z -> list Z; se_epoll : bool; se_ioctl : bool }.

Definition fd_lens (fd : Z) : conn_lens tcp_server.
Proof.
  refine {| conn_get := fun s => ts_conns s !! fd; conn_put := fun t s => s <| ts_conns ::= insert fd t |> |}.
  - intros s t t' _. apply lookup_insert_eq.
  - intros s t t'. cbn. by rewrite insert_insert_eq.
  - intros s t H. cbn. rewrite insert_id by done. by destruct s.
Defined.

Section Server.
Variable env : srv_env.

(** The function that [tcp_server::read] passes to [tcp_connection::read]. *)
Definition serve (fd : Z) (header : message_header) : TSM unit :=
  upd_srv (fun s => s <| ts_metrics ::= fun m => m <| sm_requests ::= fun n => u64 (n + 1) |>
    <| sm_bytes_in ::= fun n => u64 (n + mh_length header) |> |>) ;;;
  upd_srv (fun s => s <| ts_freezer ::= freeze_if (se_ioctl env) header |>) ;;;
  let header := response header in
  upd_srv (fun s => s <| ts_metrics ::= fun m => m <| sm_bytes_out ::= fun n => u64 (n + mh_length header) |> |>) ;;;
  let* s := get_srv in
  let* sent := on_conn (fd_lens fd) (send_message (se_stack env (sm_requests (ts_metrics s))) header) in
  if (sent : bool) then ret tt
  else on_conn (fd_lens fd) (set_epoll_events (se_epoll env) (Z.lor (Z.lor EPOLLIN EPOLLOUT) (ts_epollet s))).

(** [tcp_server::read]. *)
Definition tcp_server_read (fuel : nat) (fd : Z) : TSM unit :=
  let* s := get_srv in
  let* error := conn_read (fd_lens fd) (serve fd) fuel (negb (ts_epollet s =? 0)) in
  if negb (error =? 0) then
    upd_srv (fun s => s <| ts_closed ::= fun l => l ++ [fd] |> <| ts_conns ::= delete fd |>)
  else ret tt.

(** The result of [accept4]: a negative errno, or a socket and its address: the
    bytes of an IPv4 address, or [None] for another family. *)
Inductive accepted := AccErr (errno : Z) | AccSock (fd : Z) (addr : option (Z * Z * Z * Z)) (ins : list rd_result) (sends : list Z).

(** An IPv4 address that is not private. *)
Definition is_internet (addr : Z * Z * Z * Z) : bool :=
  let '(a, b, _, _) := addr in
  if a =? 10 then false
  else if (a =? 172) && ((b >=? 16) && (b <=? 31)) then false
  else if (a =? 192) && (b =? 168) then false
  else true.

Definition tcp_server_accept (r : accepted) : TSM unit :=
  match r with
  | AccErr e => if e =? EAGAIN then ret tt else raise ProcessExit
  | AccSock fd addr ins sends =>
      if match addr with Some a => is_internet a | None => false end
      then upd_srv (fun s => s <| ts_closed ::= fun l => l ++ [fd] |>) else
      if fd >=? MAX_FDS then raise ProcessExit else
      let* s := get_srv in
      upd_srv (fun s => s <| ts_conns ::= insert fd (new_tcp_connection fd fd (ts_port s) 0 ins sends) |>) ;;;
      on_conn (fd_lens fd) (set_epoll_events (se_epoll env) (Z.lor EPOLLIN (ts_epollet s)))
  end.

(** An event of [epoll_wait]; [stack] is what [xmit] finds in its buffer, and
    [acc] what [accept4] returns. *)
Record srv_event := { ev_fd : Z; ev_in : bool; ev_out : bool; ev_stack : list Z; ev_acc : accepted }.

(** The body of the loop over the events in [tcp_server::server]. *)
Definition handle_event (fuel : nat) (e : srv_event) : TSM unit :=
  let* s := get_srv in
  if ev_fd e =? ts_listen_fd s then tcp_server_accept (ev_acc e) else
  if negb (ev_fd e <? MAX_FDS) then raise ArrayBounds else
  (if ev_in e && bool_decide (is_Some (ts_conns s !! ev_fd e)) then tcp_server_read fuel (ev_fd e) else ret tt) ;;;
  let* s := get_srv in
  if ev_out e && bool_decide (is_Some (ts_conns s !! ev_fd e)) then
    let* done_ := on_conn (fd_lens (ev_fd e)) (xmit (ev_stack e)) in
    if (done_ : bool) then on_conn (fd_lens (ev_fd e)) (set_epoll_events (se_epoll env) (Z.lor EPOLLIN (ts_epollet s))) else ret tt
  else ret tt.
End Server.

(** ** Lemmas *)

Lemma response_ok h : header_ok h -> header_ok (response h) /\ rounded (response h) = response h.
Proof.
  intros [H1 H2 H3 H4]. unfold sizeof_header, HOMA_MAX_MESSAGE_LENGTH in *. unfold response.
  destruct (negb (mh_short_response h =? 0) && (mh_length h >? 100)) eqn:E.
  - split; [constructor; cbn; unfold sizeof_header, HOMA_MAX_MESSAGE_LENGTH; lia || done |]. done.
  - split; [by constructor |]. unfold rounded, sizeof_header. destruct (Z.ltb_spec (mh_length h) 12); [lia | done].
Qed.

(** The metrics after a request. *)
Definition count_request (m : server_metrics) (h : message_header) : server_metrics :=
  m <| sm_requests ::= fun n => u64 (n + 1) |> <| sm_bytes_in ::= fun n => u64 (n + mh_length h) |>
    <| sm_bytes_out ::= fun n => u64 (n + mh_length (response h)) |>.

(** The connection [t] after it was given [hs] more messages to send. *)
Record answers (wire0 : list Z) (queue : list message_header) (t : tcp_connection) : Prop := {
  an_sends : Forall send_ok (tc_send t);
  an_xmit : exists d p, xmit_inv wire0 d p t /\ d.*1 ++ tc_outgoing t = queue
}.

Lemma xmit_inv_ext wire0 d p t t' :
  xmit_inv wire0 d p t -> tc_outgoing t' = tc_outgoing t -> tc_bytes_sent t' = tc_bytes_sent t -> tc_wire t' = tc_wire t ->
  xmit_inv wire0 d p t'.
Proof. intros [] E1 E2 E3. constructor; rewrite ?E1, ?E2, ?E3; done. Qed.

Lemma answers_ext wire0 q t t' :
  answers wire0 q t -> tc_outgoing t' = tc_outgoing t -> tc_bytes_sent t' = tc_bytes_sent t -> tc_wire t' = tc_wire t ->
  tc_send t' = tc_send t -> answers wire0 q t'.
Proof.
  intros [Hs (d & p & Hx & Hq)] E1 E2 E3 E4. constructor; [by rewrite E4 |]. exists d, p. rewrite E1. split; [|done]. by eapply xmit_inv_ext.
Qed.

Lemma answers_xmit wire0 q stack t : stack_ok stack -> answers wire0 q t ->
  exists b t', xmit stack t = Ok (b, t') /\ answers wire0 q t' /\ tx_part t t'.
Proof.
  intros Hst [Hs (d & p & Hx & Hq)]. destruct (xmit_spec wire0 d p stack t) as (b & t' & d' & p' & Hex & Hi & Ho & Ht & _); try done.
  exists b, t'. split_ands; try done. constructor; [by eapply xmit_sends |]. exists (d ++ d'), p'. split; [done |]. by rewrite fmap_app, <- app_assoc, Ho.
Qed.

Lemma answers_send wire0 q stack h t : stack_ok stack -> header_ok (rounded h) -> answers wire0 q t ->
  exists b t', send_message stack h t = Ok (b, t') /\ answers wire0 (q ++ [rounded h]) t' /\ tx_part t t'.
Proof.
  intros Hst Hh [Hs (d & p & Hx & Hq)].
  destruct (send_message_spec wire0 d p stack h t) as (b & t' & d' & p' & Hex & Hi & Ho & Ht & _); try done.
  exists b, t'. split_ands; try done. constructor; [|exists (d ++ d'), p'; split; [done |]; by rewrite fmap_app, <- app_assoc, Ho, app_assoc, Hq].
  unfold send_message in Hex. rewrite (bind_eq (upd_conn _) _ _ _ _ eq_refl), (bind_eq get_conn _ _ _ _ eq_refl) in Hex.
  destruct (_ >? 1); [by injection Hex as <- <- | by eapply xmit_sends].
Qed.

Lemma set_epoll_events_eq events t : exists t', set_epoll_events true events t = Ok (tt, t') /\ t' = t <| tc_epoll_events := events |>.
Proof.
  unfold set_epoll_events. rewrite (bind_eq get_conn _ _ _ _ eq_refl). destruct (Z.eqb_spec events (tc_epoll_events t)) as [-> |]; eexists; (split; [reflexivity |]); by destruct t.
Qed.

Record srv_ok (env : srv_env) : Prop := {
  sv_stack : forall n, stack_ok (se_stack env n);
  sv_epoll : se_epoll env = true
}.

Section Serve.
Variables (env : srv_env) (fd : Z) (s0 : tcp_server) (wire0 : list Z) (q0 : list message_header).
Hypothesis Henv : srv_ok env.

(** What the server has done for the requests [hs] of the connection. *)
Record served (hs : list message_header) (s : tcp_server) : Prop := {
  sd_metrics : ts_metrics s = foldl count_request (ts_metrics s0) hs;
  sd_freezer : ts_freezer s = foldl (fun f h => freeze_if (se_ioctl env) h f) (ts_freezer s0) hs;
  sd_others : delete fd (ts_conns s) = delete fd (ts_conns s0);
  sd_rest : ts_listen_fd s = ts_listen_fd s0 /\ ts_epollet s = ts_epollet s0 /\ ts_port s = ts_port s0 /\ ts_closed s = ts_closed s0;
  sd_answers : exists t, ts_conns s !! fd = Some t /\ answers wire0 (q0 ++ (response <$> hs)) t
}.

Lemma served_put hs s t t' :
  served hs s -> ts_conns s !! fd = Some t -> tc_outgoing t' = tc_outgoing t -> tc_bytes_sent t' = tc_bytes_sent t ->
  tc_wire t' = tc_wire t -> tc_send t' = tc_send t -> served hs (conn_put (fd_lens fd) t' s).
Proof.
  intros [H1 H2 H3 H4 (t1 & Ht1 & Ha)] Ht E1 E2 E3 E4. rewrite Ht1 in Ht. injection Ht as ->. constructor; cbn; try done.
  - by rewrite delete_insert_eq.
  - exists t'. rewrite lookup_insert_eq. split; [done |]. by eapply answers_ext.
Qed.

Lemma serve_spec hs s t h :
  served hs s -> ts_conns s !! fd = Some t -> header_ok h ->
  exists s' t', serve env fd h s = Ok (tt, s') /\ served (hs ++ [h]) s' /\ ts_conns s' !! fd = Some t' /\
    tc_bytes_received t' = tc_bytes_received t /\ length (tc_header t') = length (tc_header t) /\ tc_in t' = tc_in t.
Proof.
  intros [H1 H2 H3 (R1 & R2 & R3 & R4) (t1 & Ht1 & Ha)] Ht Hh. rewrite Ht1 in Ht. injection Ht as ->.
  destruct (response_ok h Hh) as [Hr Er]. unfold serve. rewrite !(bind_eq (upd_srv _) _ _ _ _ eq_refl).
  set (s1 := s <| ts_metrics ::= _ |> <| ts_freezer ::= _ |> <| ts_metrics ::= _ |>).
  rewrite (bind_eq get_srv _ _ _ _ eq_refl).
  destruct (answers_send wire0 (q0 ++ (response <$> hs)) (se_stack env (sm_requests (ts_metrics s1))) (response h) t)
    as (b & t2 & Hex & Ha2 & Htx); [apply Henv | by rewrite Er | done |]. rewrite Er in Ha2.
  assert (ts_conns s1 !! fd = Some t) as Hs1 by done.
  rewrite (bind_eq _ _ _ _ _ (on_conn_eq (fd_lens fd) _ s1 t b t2 Hs1 Hex)).
  set (s2 := conn_put (fd_lens fd) t2 s1).
  assert (served (hs ++ [h]) s2) as Hsv.
  { constructor; cbn.
    - rewrite foldl_app, <- H1. by destruct (ts_metrics s).
    - by rewrite foldl_app, <- H2.
    - by rewrite delete_insert_eq.
    - done.
    - exists t2. rewrite lookup_insert_eq. split; [done |]. by rewrite fmap_app, app_assoc. }
  assert (ts_conns s2 !! fd = Some t2) as Hs2 by apply lookup_insert_eq.
  assert (tc_bytes_received t2 = tc_bytes_received t /\ tc_header t2 = tc_header t /\ tc_in t2 = tc_in t) as (E1 & E2 & E3) by (by rewrite Htx).
  destruct b; [exists s2, t2; split_ands; try done; congruence |].
  destruct (set_epoll_events_eq (Z.lor (Z.lor EPOLLIN EPOLLOUT) (ts_epollet s1)) t2) as (t3 & Hep & Et3). rewrite <- (sv_epoll _ Henv) in Hep.
  rewrite (on_conn_eq (fd_lens fd) _ s2 t2 tt t3 Hs2 Hep). eexists _, t3. split; [reflexivity |]. subst t3.
  split; [by eapply served_put |]. cbn. rewrite lookup_insert_eq. split_ands; try done; congruence.
Qed.
End Serve.

(** ** The server and its clients *)

(** The client of a connection sends the messages [fr]; the server has received
    some of them, and has queued or sent their responses. *)
Record conn_inv (fuel : nat) (fr : list (message_header * list Z)) (t : tcp_connection) : Prop := {
  ci_frames : Forall (fun f => frame_ok f.1 f.2) fr;
  ci_reads : Forall rd_ok (tc_in t);
  ci_fuel : (read_fuel (tc_in t) <= fuel)%nat;
  ci_state : exists F1 F2 k, fr = F1 ++ F2 /\ expects F2 k t /\
    stream_of (tc_in t) `prefix_of` drop (Z.to_nat k) (concat F2.*2) /\ answers [] (response <$> F1.*1) t
}.

Record srv_inv (fuel : nat) (G : gmap Z (list (message_header * list Z))) (s : tcp_server) : Prop := {
  si_conns : forall fd t, ts_conns s !! fd = Some t -> exists fr, G !! fd = Some fr /\ conn_inv fuel fr t;
  si_fds : forall fd, is_Some (ts_conns s !! fd) -> fd < MAX_FDS /\ fd <> ts_listen_fd s
}.

Lemma stream_rest ins1 ins2 stream :
  stream_of (ins1 ++ ins2) `prefix_of` stream -> stream_of ins2 `prefix_of` drop (length (stream_of ins1)) stream.
Proof.
  intros [rest E]. exists rest. rewrite E. unfold stream_of. rewrite fmap_app, concat_app, <- !app_assoc. by rewrite drop_app_length.
Qed.

Lemma read_fuel_app ins1 ins2 : (read_fuel ins2 <= read_fuel (ins1 ++ ins2))%nat.
Proof. unfold read_fuel, stream_of. rewrite fmap_app, concat_app, !length_app. lia. Qed.

Lemma delete_eq_insert {A} (m m' : gmap Z A) i x : delete i m' = delete i m -> m' !! i = Some x -> m' = <[i := x]> m.
Proof.
  intros E Hx. apply map_eq. intros j. destruct (decide (j = i)) as [-> | Hne]; [by rewrite lookup_insert_eq |].
  rewrite lookup_insert_ne by done. by rewrite <- (lookup_delete_ne m' i j), E, lookup_delete_ne by done.
Qed.

Lemma server_read_spec env fuel fd s t fr :
  srv_ok env -> ts_conns s !! fd = Some t -> conn_inv fuel fr t ->
  exists s' t' hs, tcp_server_read env fuel fd s = Ok (tt, s') /\ ts_conns s' = <[fd := t']> (ts_conns s) /\ conn_inv fuel fr t' /\
    ts_metrics s' = foldl count_request (ts_metrics s) hs /\ ts_closed s' = ts_closed s /\ ts_listen_fd s' = ts_listen_fd s.
Proof.
  intros Henv Ht [HF Hrd Hfuel (F1 & F2 & k & E & He & Hpre & Ha)]. subst fr. apply Forall_app in HF as [HF1 HF2].
  set (P := served env fd s [] (response <$> F1.*1)).
  assert (P [] s) as HP0 by (constructor; try done; exists t; cbn; by rewrite app_nil_r).
  destruct (conn_read_spec (fd_lens fd) (serve env fd) P) with (Q := fun _ : message_header => True) (loop := negb (ts_epollet s =? 0)) (ins := tc_in t) (fuel := fuel)
    (hs := @nil message_header) (F := F2) (k := k) (s := s)
    as (s' & i1 & i2 & F3 & F4 & k' & Hex & Ei & _ & EF & [(t' & Ht' & He' & Hin') HP'] & Haft & _); try done.
  - intros hs s1 t1 t2 HP1 Hs1 Hrx. apply (served_put _ _ _ _ _ _ _ t1); try done; by rewrite Hrx.
  - intros hs s1 t1 h HP1 Hs1 Hh _. by apply serve_spec.
  - by apply Forall_true.
  - constructor; [|done]. by exists t.
  - unfold tcp_server_read. rewrite (bind_eq get_srv _ _ _ _ eq_refl), (bind_eq _ _ _ _ _ Hex).
    destruct HP' as [Hm _ Hdel (R1 & _ & _ & R4) (t2 & Ht2 & Ha')]. cbn in Ht'. rewrite Ht' in Ht2. injection Ht2 as <-.
    exists s', t', (F3.*1). split_ands; try done; [by apply delete_eq_insert |]. subst F2. apply Forall_app in HF2 as [HF3 HF4].
    rewrite Ei, <- Hin' in *. apply Forall_app in Hrd as [_ Hrd]. constructor.
    + rewrite app_assoc. by apply Forall_app; split; [apply Forall_app |].
    + done.
    + pose proof (read_fuel_app i1 (tc_in t')). lia.
    + exists (F1 ++ F3), F4, k'. split_ands; [by rewrite app_assoc | done | |].
      * unfold stream_after in Haft. rewrite Haft, Nat2Z.id. by apply stream_rest.
      * rewrite fmap_app, fmap_app. exact Ha'.
Qed.

Lemma server_xmit_spec env fuel fd s t fr stack :
  srv_ok env -> stack_ok stack -> ts_conns s !! fd = Some t -> conn_inv fuel fr t ->
  exists s' t', (let* done_ := on_conn (fd_lens fd) (xmit stack) in
    if (done_ : bool) then on_conn (fd_lens fd) (set_epoll_events (se_epoll env) (Z.lor EPOLLIN (ts_epollet s))) else ret tt) s = Ok (tt, s') /\
    ts_conns s' = <[fd := t']> (ts_conns s) /\ conn_inv fuel fr t' /\ ts_closed s' = ts_closed s /\ ts_listen_fd s' = ts_listen_fd s.
Proof.
  intros Henv Hst Ht [HF Hrd Hfuel (F1 & F2 & k & E & He & Hpre & Ha)].
  destruct (answers_xmit [] _ stack t Hst Ha) as (b & t1 & Hex & Ha1 & Htx).
  rewrite (bind_eq _ _ _ _ _ (on_conn_eq (fd_lens fd) _ s t b t1 Ht Hex)). set (s1 := conn_put (fd_lens fd) t1 s).
  assert (tc_bytes_received t1 = tc_bytes_received t /\ tc_header t1 = tc_header t /\ tc_in t1 = tc_in t) as (E1 & E2 & E3) by (by rewrite Htx).
  assert (conn_inv fuel fr t1) as Hc1.
  { constructor; rewrite ?E3; try done. exists F1, F2, k. split_ands; try done. unfold expects in *. by rewrite E1, E2. }
  destruct b; [|by exists s1, t1].
  destruct (set_epoll_events_eq (Z.lor EPOLLIN (ts_epollet s)) t1) as (t2 & Hep & Et2). rewrite <- (sv_epoll _ Henv) in Hep.
  rewrite (on_conn_eq (fd_lens fd) _ s1 t1 tt t2) by (apply lookup_insert_eq || done).
  eexists _, t2. split; [reflexivity |]. cbn. rewrite insert_insert_eq. split_ands; try done. subst t2.
  destruct Hc1 as [C1 C2 C3 (F3 & F4 & k2 & C4 & C5 & C6 & C7)]. constructor; try done. exists F3, F4, k2. split_ands; try done. by eapply answers_ext.
Qed.

(** The sockets that [accept4] returns for the events, by whether their address
    is that of a host in the Internet. *)
Definition arriving (listen : Z) (internet : bool) (events : list srv_event) : list Z :=
  omap (fun e => if ev_fd e =? listen then
      match ev_acc e with
      | AccSock fd addr _ _ => if Bool.eqb (match addr with Some a => is_internet a | None => false end) internet then Some fd else None
      | AccErr _ => None
      end
    else None) events.

Section Events.
Variables (env : srv_env) (fuel : nat) (listen : Z) (clients : Z -> list (message_header * list Z)).
Hypothesis Henv : srv_ok env.
Hypothesis Hclients : forall fd, Forall (fun f => frame_ok f.1 f.2) (clients fd).

(** What the host does: [accept4] returns new sockets, whose peers send what
    [clients] tells, or EAGAIN; other events are for sockets of the process. *)
Definition event_fits (e : srv_event) : Prop :=
  if ev_fd e =? listen then
    match ev_acc e with
    | AccErr errno => errno = EAGAIN
    | AccSock fd _ ins sends => fd < MAX_FDS /\ fd <> listen /\ Forall rd_ok ins /\ Forall send_ok sends /\ (read_fuel ins <= fuel)%nat /\
        stream_of ins `prefix_of` concat (clients fd).*2
    end
  else ev_fd e < MAX_FDS /\ stack_ok (ev_stack e).

(** Every connection is that of a client that was accepted. *)
Record serving (open_ closed : list Z) (s : tcp_server) : Prop := {
  sg_conns : forall fd, match ts_conns s !! fd with
    | Some t => fd ∈ open_ /\ conn_inv fuel (clients fd) t
    | None => fd ∉ open_
    end;
  sg_closed : ts_closed s = closed;
  sg_listen : ts_listen_fd s = listen
}.

Lemma serving_insert open_ closed s s' fd t :
  serving open_ closed s -> fd ∈ open_ -> ts_conns s' = <[fd := t]> (ts_conns s) -> conn_inv fuel (clients fd) t ->
  ts_closed s' = ts_closed s -> ts_listen_fd s' = ts_listen_fd s -> serving open_ closed s'.
Proof.
  intros [Hc Hcl Hl] Hin E Ht E1 E2. constructor; [|congruence ..]. intros q. rewrite E.
  destruct (decide (q = fd)) as [-> | Hne]; [by rewrite lookup_insert_eq | rewrite lookup_insert_ne by done; apply Hc].
Qed.

Lemma new_conn_inv fd port ins sends :
  Forall rd_ok ins -> Forall send_ok sends -> (read_fuel ins <= fuel)%nat -> stream_of ins `prefix_of` concat (clients fd).*2 ->
  conn_inv fuel (clients fd) (new_tcp_connection fd fd port 0 ins sends).
Proof.
  intros H1 H2 H3 H4. constructor; try done. exists [], (clients fd), 0. split_ands; try done.
  - unfold expects. split_ands; [done | done |]. pose proof (Hclients fd) as Hf. destruct (clients fd) as [|[h fr] F]; [done |].
    apply Forall_cons in Hf as [[[? _ _ _] Hl _] _]. unfold sizeof_header in *. cbn in *. split; [lia | done].
  - constructor; [done |]. exists [], []. split; [by constructor | done].
Qed.

Lemma accept_spec open_ closed s r :
  serving open_ closed s ->
  match r with
  | AccErr errno => errno = EAGAIN
  | AccSock fd _ ins sends => (fd ∉ open_) /\ fd < MAX_FDS /\ Forall rd_ok ins /\ Forall send_ok sends /\ (read_fuel ins <= fuel)%nat /\
      stream_of ins `prefix_of` concat (clients fd).*2
  end ->
  exists s', tcp_server_accept env r s = Ok (tt, s') /\
    let e := Build_srv_event listen true false [] r in
    serving (arriving listen false [e] ++ open_) (closed ++ arriving listen true [e]) s'.
Proof.
  intros Hs Hr. pose proof Hs as [Hc Hcl Hl]. unfold arriving. cbn [omap list_omap ev_fd ev_acc]. rewrite Z.eqb_refl.
  destruct r as [e | fd addr ins sends]; cbn [tcp_server_accept].
  { subst e. exists s. cbn. by rewrite app_nil_r. }
  destruct Hr as (Hin & Hfd & Hi & Hsd & Hf & Hp). destruct (match addr with Some a => is_internet a | None => false end); cbn [Bool.eqb app].
  - eexists. split; [reflexivity |]. constructor; cbn; try done. by rewrite Hcl.
  - destruct (Z.geb_spec fd MAX_FDS); [lia |]. rewrite (bind_eq get_srv _ _ _ _ eq_refl), (bind_eq (upd_srv _) _ _ _ _ eq_refl).
    set (t := new_tcp_connection fd fd (ts_port s) 0 ins sends). set (s1 := s <| ts_conns ::= _ |>).
    destruct (set_epoll_events_eq (Z.lor EPOLLIN (ts_epollet s)) t) as (t2 & Hep & Et2). rewrite <- (sv_epoll _ Henv) in Hep.
    rewrite (on_conn_eq (fd_lens fd) _ s1 t tt t2) by (apply lookup_insert_eq || done).
    eexists. split; [reflexivity |]. rewrite app_nil_r. constructor; cbn; try done. intros q. rewrite insert_insert_eq.
    destruct (decide (q = fd)) as [-> | Hne].
    + rewrite lookup_insert_eq. split; [set_solver |]. subst t2.
      destruct (new_conn_inv fd (ts_port s) ins sends Hi Hsd Hf Hp) as [C1 C2 C3 (F3 & F4 & k2 & C4 & C5 & C6 & C7)].
      constructor; try done. exists F3, F4, k2. split_ands; try done. by eapply answers_ext.
    + rewrite lookup_insert_ne by done. specialize (Hc q). destruct (ts_conns s !! q); [|set_solver]. split; [set_solver | apply Hc].
Qed.

Lemma handle_event_spec open_ closed s e :
  serving open_ closed s -> event_fits e -> (forall fd, fd ∈ arriving listen false [e] ++ arriving listen true [e] -> fd ∉ open_) ->
  exists s', handle_event env fuel e s = Ok (tt, s') /\
    serving (arriving listen false [e] ++ open_) (closed ++ arriving listen true [e]) s'.
Proof.
  intros Hs He Hnew. unfold handle_event. rewrite (bind_eq get_srv _ _ _ _ eq_refl), (sg_listen _ _ _ Hs). unfold event_fits in He.
  unfold arriving in *. cbn [omap list_omap] in *. destruct (Z.eqb_spec (ev_fd e) listen) as [E | E].
  - destruct (accept_spec open_ closed s (ev_acc e) Hs) as (s' & Hex & Hs'); [|exists s'; split; [exact Hex |]; unfold arriving in Hs'; cbn in Hs'; by rewrite Z.eqb_refl in Hs'].
    destruct (ev_acc e) as [|fd addr ins sends]; [done |]. destruct He as (? & ? & ? & ? & ? & ?). split_ands; try done.
    apply Hnew. destruct (match addr with Some a => is_internet a | None => false end); cbn; set_solver.
  - destruct He as [Hfd Hst]. cbn [app]. rewrite app_nil_r. destruct (Z.ltb_spec (ev_fd e) MAX_FDS); [|lia]. cbn [negb].
    assert (exists s1, (if ev_in e && bool_decide (is_Some (ts_conns s !! ev_fd e)) then tcp_server_read env fuel (ev_fd e) else ret tt) s = Ok (tt, s1) /\
      serving open_ closed s1) as (s1 & Hex & Hs1).
    { destruct (ev_in e); [|by exists s]. destruct (ts_conns s !! ev_fd e) as [t|] eqn:Et; [|by exists s].
      rewrite bool_decide_true by eauto. cbn [andb]. pose proof (sg_conns _ _ _ Hs (ev_fd e)) as Hc. rewrite Et in Hc. destruct Hc as [Hin Hci].
      destruct (server_read_spec env fuel (ev_fd e) s t (clients (ev_fd e)) Henv Et Hci) as (s1 & t1 & hs & Hex & Ec & Hci1 & _ & E1 & E2).
      exists s1. split; [done |]. by eapply serving_insert. }
    rewrite (bind_eq _ _ _ _ _ Hex), (bind_eq get_srv _ _ _ _ eq_refl). destruct (ev_out e); [|by exists s1].
    destruct (ts_conns s1 !! ev_fd e) as [t|] eqn:Et; [|by exists s1]. rewrite bool_decide_true by eauto. cbn [andb].
    pose proof (sg_conns _ _ _ Hs1 (ev_fd e)) as Hc. rewrite Et in Hc. destruct Hc as [Hin Hci].
    destruct (server_xmit_spec env fuel (ev_fd e) s1 t (clients (ev_fd e)) (ev_stack e) Henv Hst Et Hci) as (s2 & t2 & Hex2 & Ec & Hci2 & E1 & E2).
    exists s2. split; [done |]. by eapply serving_insert.
Qed.
End Events.

Lemma arriving_cons listen b e events : arriving listen b (e :: events) = arriving listen b [e] ++ arriving listen b events.
Proof. unfold arriving. cbn [omap list_omap]. repeat case_match; done. Qed.

Lemma serve_events_spec env fuel listen clients events :
  srv_ok env -> (forall fd, Forall (fun f => frame_ok f.1 f.2) (clients fd)) -> forall open_ closed s,
  serving fuel listen clients open_ closed s -> Forall (event_fits fuel listen clients) events ->
  NoDup (arriving listen false events ++ open_) ->
  (forall fd, fd ∈ arriving listen true events -> fd ∉ arriving listen false events ++ open_) ->
  exists s', mapM_ (handle_event env fuel) events s = Ok (tt, s') /\
    exists open', (forall fd, fd ∈ open' <-> fd ∈ arriving listen false events ++ open_) /\
      serving fuel listen clients open' (closed ++ arriving listen true events) s'.
Proof.
  intros Henv Hcl. induction events as [|e events IH]; intros open_ closed s Hs He Hnd Hdis.
  - exists s. split; [done |]. exists open_. cbn. by rewrite app_nil_r.
  - apply Forall_cons in He as [He Hes]. rewrite (arriving_cons _ _ e events) in Hnd, Hdis. rewrite (arriving_cons _ true e events) in *.
    destruct (handle_event_spec env fuel listen clients Henv Hcl open_ closed s e Hs He) as (s1 & Hex & Hs1).
    { intros fd Hfd Hin. apply elem_of_app in Hfd as [Hfd | Hfd].
      - rewrite <- app_assoc in Hnd. apply NoDup_app in Hnd as (_ & Hn & _). apply (Hn fd Hfd). apply elem_of_app. by right.
      - apply (Hdis fd); [apply elem_of_app; by left | apply elem_of_app; by right]. }
    cbn [mapM_]. rewrite (bind_eq _ _ _ _ _ Hex).
    destruct (IH (arriving listen false [e] ++ open_) (closed ++ arriving listen true [e]) s1 Hs1 Hes) as (s' & Hex' & open' & Ho & Hs').
    + rewrite app_assoc, (Permutation_app_comm (arriving listen false events)). done.
    + intros fd Hfd Hin. apply (Hdis fd); [apply elem_of_app; by right |]. set_solver.
    + exists s'. split; [done |]. exists open'. rewrite app_assoc. split; [|done]. intros fd. rewrite Ho, (arriving_cons _ false e events). set_solver.
Qed.


(** One client with two requests, the second in three pieces; a host in the
    Internet is refused. *)
Definition ex_srv_env : srv_env := Build_srv_env (fun _ => ex_stack) true true.
Definition ex_request (l short : Z) : message_header := Build_message_header l 0 short (Build_conn_id 0 1 0 2) 9.
Definition ex_frames : list (message_header * list Z) :=
  [(ex_request 20 0, enc_header (ex_request 20 0) ++ replicate 8 1); (ex_request 200 1, enc_header (ex_request 200 1) ++ replicate 188 2)].
Definition ex_clients (fd : Z) : list (message_header * list Z) := if fd =? 7 then ex_frames else [].
Definition ex_reads : list rd_result :=
  let b := concat ex_frames.*2 in [RdData (take 25 b); RdData (take 60 (drop 25 b)); RdErr EFAULT; RdData (drop 85 b)].
Definition ex_events : list srv_event :=
  [Build_srv_event 3 true false [] (AccSock 5 (Some (8, 8, 8, 8)) [] []); Build_srv_event 3 true false [] (AccSock 7 (Some (10, 0, 0, 1)) ex_reads [11; 50]);
   Build_srv_event 7 true false ex_stack (AccErr 0)].

