(* ===== verification/CpHoma.v ===== *)
(** * The Homa server of the benchmark node (util/cp_node.cc)

    [homa_server] answers a request with its own bytes: the response is made of
    the buffers that hold the request, up to the length that the header of the
    request tells. *)
From S2P Require Import Prelude Lists Wire Types Example Control Pool Outgoing Handoff Copy Incoming Syscall Receiver CpConn CpServer.

(** ** The response *)

Definition bytes_at (mem : Z -> Z) (a n : Z) : list Z := mem <$> seqZ a n.

(** The loop that fills [vecs]: [n] entries are in use.  The base of an entry
    may be null. *)
Fixpoint reply_vecs (fuel : nat) (r : receiver) (length_ offset n : Z) : result (list (option Z * Z)) :=
  if offset <? length_ then
    match fuel with
    | O => Fault OutOfFuel
    | S fuel =>
        let chunk_size := length_ - offset in
        let chunk_size := if chunk_size >? HOMA_BPAGE_SIZE then HOMA_BPAGE_SIZE else chunk_size in
        if n >=? HOMA_MAX_BPAGES then Fault ArrayBounds else
        let! base := get_ptr r offset 1 in
        let! rest := reply_vecs fuel r length_ (offset + chunk_size) (n + 1) in
        Ok ((base, chunk_size) :: rest)
    end
  else Ok [].

(** What [homa_server::server] does with a request that has arrived: the header
    of the request, the memory after its length may have been changed, and the
    chunks of the response. *)
Definition serve_request (r : receiver) (mem : Z -> Z) : result (message_header * (Z -> Z) * list (option Z * Z)) :=
  let! p := get_ptr r 0 sizeof_header in
  let! a := get BadPointer p in
  let header := dec_header (bytes_at mem a sizeof_header) in
  let mem := if negb (mh_short_response header =? 0) && (mh_length header >? 100)
    then store mem (a, take 4 (enc_header (header <| mh_length := 100 |>))) else mem in
  let! vecs := reply_vecs 17 r (mh_length (response header)) 0 0 in
  Ok (header, mem, vecs).

(** The bytes that the kernel finds in the chunks, if it can read all of them. *)
Fixpoint gather (mem : Z -> Z) (vecs : list (option Z * Z)) : option (list Z) :=
  match vecs with
  | [] => Some []
  | (None, _) :: _ => None
  | (Some a, n) :: l => rest ← gather mem l; Some (bytes_at mem a n ++ rest)
  end.

(** The change of the length in the header at [p], for the log of the user's
    memory. *)
Definition length_write (p : option Z) (header : message_header) : list (Z * list Z) :=
  match p with
  | Some a => if negb (mh_short_response header =? 0) && (mh_length header >? 100) then [(a, take 4 (enc_header (response header)))] else []
  | None => []
  end.

Section Server.
Context (others : M unit) (pending : world -> bool) (env : copy_env) (junk core : Z) (i : ptr) (rounds fuel : nat).

(** One iteration of [homa_server::server] on the socket [fd]; [m0] is the
    user's memory at the start.  [None] is the end of the thread; [closed] tells
    whether the errno of a failed receive says that the socket is gone.  A
    response that cannot be read or sent ends the program. *)
Definition homa_server_once (after : Z) (m0 : Z -> Z) (host : send_host) (addrlen : Z) (closed ioctl : bool) (r : receiver)
    (st : server_metrics * freezer) : M (option (receiver * (server_metrics * freezer))) :=
  let* res := receive others pending env junk core i rounds fuel after r HOMA_RECVMSG_REQUEST 0 in
  let '(len, r) := res in
  if len <? 0 then ret (if closed then None else Some (r, st)) else
  let* w := (fun w => Ok (w, w)) in
  let* x := lift (serve_request r (user_memory m0 (host_user (w_host w)))) in
  let '(header, mem, vecs) := x in
  let* p := lift (get_ptr r 0 sizeof_header) in
  upd_host (fun ho => ho <| host_user ::= fun l => l ++ length_write p header |>) ;;;
  match gather mem vecs with
  | None => raise ProcessExit
  | Some data =>
      let* res := homa_replyv core (rc_fd r) host [data] (src_addr r) addrlen (receiver_id r) in
      if res.1 <? 0 then raise ProcessExit else
      let '(m, f) := st in
      ret (Some (r, (m <| sm_requests ::= fun n => u64 (n + 1) |> <| sm_bytes_in ::= fun n => u64 (n + len) |>
        <| sm_bytes_out ::= fun n => u64 (n + mh_length (response header)) |>, freeze_if ioctl header f)))
  end.
End Server.

(** ** Lemmas *)

Lemma bytes_at_length mem a n : 0 <= n -> Z.of_nat (length (bytes_at mem a n)) = n.
Proof. intros Hn. unfold bytes_at. rewrite length_fmap, length_seqZ. lia. Qed.

Lemma bytes_at_lookup mem a n j : 0 <= j < n -> bytes_at mem a n !! Z.to_nat j = Some (mem (a + j)).
Proof.
  intros Hj. unfold bytes_at. rewrite list_lookup_fmap. assert (seqZ a n !! Z.to_nat j = Some (a + j)) as -> by (apply lookup_seqZ; lia). done.
Qed.

(** A chunk that lies in one buffer has bytes of the message. *)
Lemma bytes_at_message r mi bufs msg mem off n :
  current r mi bufs -> delivered r mi msg mem -> 0 <= off < mi_length mi -> 0 <= n <= contiguous r off ->
  bytes_at mem (place (rc_buf_region r) bufs off) n = slice msg off n.
Proof.
  intros Hc Hd Hoff Hn. destruct (get_ptr_spec r mi bufs off Hc Hoff) as (a & _ & _ & _ & Ec & _). pose proof Hd as [Hl _].
  assert (contiguous r off <= mi_length mi - off) as Hle by (rewrite Ec; unfold chunk_end; lia).
  apply list_eq. intros j. destruct (Z.lt_ge_cases (Z.of_nat j) n) as [Hj | Hj].
  - rewrite <- (Nat2Z.id j), bytes_at_lookup, slice_lookup by lia. symmetry.
    rewrite <- (place_chunk r mi bufs off (Z.of_nat j)) by (done || lia). apply (delivered_place r mi bufs); try done. lia.
  - rewrite !lookup_ge_None_2; [done | |]; [unfold slice; rewrite length_take | pose proof (bytes_at_length mem (place (rc_buf_region r) bufs off) n)]; lia.
Qed.

(** The page of an offset that is a multiple of the page size. *)
Lemma page_chunk r mi bufs off : current r mi bufs -> 0 <= off < mi_length mi -> off mod HOMA_BPAGE_SIZE = 0 ->
  contiguous r off = Z.min (mi_length mi - off) HOMA_BPAGE_SIZE.
Proof.
  intros Hc Hoff Hm. destruct (get_ptr_spec r mi bufs off Hc Hoff) as (a & _ & _ & _ & -> & _). unfold chunk_end.
  pose proof (length_split off) as [H1 H2]. assert (Z.shiftr off HOMA_BPAGE_SHIFT * HOMA_BPAGE_SIZE = off) as E.
  { apply Z.mod_divide in Hm as [q Hq]; [|rewrite HOMA_BPAGE_SIZE_eq; lia]. rewrite HOMA_BPAGE_SIZE_eq in *. lia. }
  rewrite HOMA_BPAGE_SIZE_eq in *. lia.
Qed.

Lemma reply_vecs_spec r mi bufs msg mem len : current r mi bufs -> delivered r mi msg mem -> len <= mi_length mi -> forall fuel k,
  0 <= k -> len - k * HOMA_BPAGE_SIZE <= Z.of_nat fuel * HOMA_BPAGE_SIZE ->
  exists vecs, reply_vecs fuel r len (k * HOMA_BPAGE_SIZE) k = Ok vecs /\
    gather mem vecs = Some (slice msg (k * HOMA_BPAGE_SIZE) (len - k * HOMA_BPAGE_SIZE)).
Proof.
  intros Hc Hd Hlen. pose proof Hc as (_ & _ & _ & _ & _ & Hmax). unfold HOMA_MAX_MESSAGE_LENGTH in Hmax.
  induction fuel as [|fuel IH]; intros k Hk Hf; cbn [reply_vecs];
    destruct (Z.ltb_spec (k * HOMA_BPAGE_SIZE) len) as [Hlt | Hge]; try (rewrite HOMA_BPAGE_SIZE_eq in *; lia).
  1,3: exists []; (split; [done |]); unfold slice; replace (Z.to_nat (len - k * HOMA_BPAGE_SIZE)) with O by lia; done.
  assert (0 <= k * HOMA_BPAGE_SIZE) as H0 by (rewrite HOMA_BPAGE_SIZE_eq; lia).
  destruct (get_ptr_spec r mi bufs (k * HOMA_BPAGE_SIZE) Hc ltac:(lia)) as (a & _ & -> & Ea & _).
  assert (HOMA_MAX_BPAGES = 16) as E16 by reflexivity.
  destruct (Z.geb_spec k HOMA_MAX_BPAGES); [rewrite HOMA_BPAGE_SIZE_eq in *; lia |]. cbn [result_bind].
  set (c := if _ >? HOMA_BPAGE_SIZE then _ else _).
  assert (c = Z.min (len - k * HOMA_BPAGE_SIZE) HOMA_BPAGE_SIZE) as Hcz by (unfold c; zb; lia).
  assert (contiguous r (k * HOMA_BPAGE_SIZE) = Z.min (mi_length mi - k * HOMA_BPAGE_SIZE) HOMA_BPAGE_SIZE) as Hpc
    by (apply (page_chunk r mi bufs); [done | lia | apply Z.mod_mul; rewrite HOMA_BPAGE_SIZE_eq; lia]).
  assert (bytes_at mem a c = slice msg (k * HOMA_BPAGE_SIZE) c) as Hb
    by (rewrite Ea; apply (bytes_at_message r mi bufs); try done; rewrite HOMA_BPAGE_SIZE_eq in *; lia).
  destruct (Z.le_gt_cases (len - k * HOMA_BPAGE_SIZE) HOMA_BPAGE_SIZE) as [Hl | Hl].
  - assert (reply_vecs fuel r len (k * HOMA_BPAGE_SIZE + c) (k + 1) = Ok []) as ->.
    { destruct fuel; cbn [reply_vecs]; destruct (Z.ltb_spec (k * HOMA_BPAGE_SIZE + c) len); done || lia. }
    eexists. split; [reflexivity |]. cbn. rewrite app_nil_r, Hb. do 2 f_equal. lia.
  - assert (c = HOMA_BPAGE_SIZE) as Ec by lia. rewrite Ec in *. replace (k * HOMA_BPAGE_SIZE + HOMA_BPAGE_SIZE) with ((k + 1) * HOMA_BPAGE_SIZE) by lia.
    destruct (IH (k + 1)) as (vecs & -> & Hg); [lia | lia |]. eexists. split; [reflexivity |]. cbn. rewrite Hg, Hb. cbn. f_equal.
    replace ((k + 1) * HOMA_BPAGE_SIZE) with (k * HOMA_BPAGE_SIZE + HOMA_BPAGE_SIZE) by lia. rewrite slice_cat by (rewrite HOMA_BPAGE_SIZE_eq in *; lia).
    f_equal. lia.
Qed.

(** The request with the length of the response in its header. *)
Definition reply_message (msg : list Z) : list Z :=
  let h := dec_header (take 12 msg) in
  if negb (mh_short_response h =? 0) && (mh_length h >? 100) then take 4 (enc_header (h <| mh_length := 100 |>)) ++ drop 4 msg else msg.

Lemma header_bits bs : Forall is_byte bs -> 0 <= mh_freeze (dec_header bs) < 2 /\ 0 <= mh_short_response (dec_header bs) < 2.
Proof.
  intros Hb. assert (0 <= le_dec (take 4 bs) < 2 ^ 32) as Hw.
  { unfold le_dec. pose proof (be_dec_bound (rev (take 4 bs))) as H. rewrite length_rev, length_take in H.
    destruct H as [H1 H2]; [by apply Forall_rev, Forall_take |]. split; [done |]. eapply Z.lt_le_trans; [exact H2 |]. apply Z.pow_le_mono_r; lia. }
  cbn. split; [apply Z.mod_pos_bound; lia |]. split; [apply Z.div_pos; lia |]. apply Z.div_lt_upper_bound; lia.
Qed.

(** The first word of a header, and the rest. *)
Lemma dec_header_word a b : take 4 a = take 4 b -> mh_length (dec_header a) = mh_length (dec_header b) /\
  mh_freeze (dec_header a) = mh_freeze (dec_header b) /\ mh_short_response (dec_header a) = mh_short_response (dec_header b).
Proof. intros E. unfold dec_header. by rewrite E. Qed.

Lemma dec_header_rest a b : drop 4 a = drop 4 b -> mh_cid (dec_header a) = mh_cid (dec_header b) /\
  mh_msg_id (dec_header a) = mh_msg_id (dec_header b).
Proof.
  intros E. assert (forall l i, byte_at l (4 + i) = byte_at (drop 4 l) i) as Hb by (intros l i; unfold byte_at; by rewrite lookup_drop).
  unfold dec_header. cbn [mh_cid mh_msg_id]. change 8%nat with (4 + 4)%nat. rewrite <- !drop_drop, E. split; [|done].
  pose proof (fun l => Hb l 0%nat) as H0. pose proof (fun l => Hb l 1%nat) as H1. pose proof (fun l => Hb l 2%nat) as H2.
  pose proof (fun l => Hb l 3%nat) as H3. cbn in H0, H1, H2, H3. by rewrite !H0, !H1, !H2, !H3, E.
Qed.

Lemma dec_reply msg : Forall is_byte msg -> 12 <= Z.of_nat (length msg) ->
  dec_header (take 12 (reply_message msg)) = response (dec_header (take 12 msg)).
Proof.
  intros Hb Hl. unfold reply_message, response. destruct (header_bits (take 12 msg)) as [Hf Hs]; [by apply Forall_take |].
  remember (dec_header (take 12 msg)) as h eqn:Eh. destruct (negb (mh_short_response h =? 0) && (mh_length h >? 100)); [|done].
  set (g := Build_message_header 100 (mh_freeze h) (mh_short_response h) (Build_conn_id 0 0 0 0) 0).
  assert (header_ok g) as Hg by (constructor; cbn; unfold sizeof_header, HOMA_MAX_MESSAGE_LENGTH; lia).
  assert (take 4 (enc_header (h <| mh_length := 100 |>)) = take 4 (enc_header g)) as ->
    by (unfold enc_header; by rewrite !take_app_length' by (by rewrite le_enc_length)).
  assert (length (take 4 (enc_header g)) = 4%nat) as H4 by (rewrite length_take, enc_header_length; done).
  set (m := take 12 (take 4 (enc_header g) ++ drop 4 msg)).
  assert (take 4 m = take 4 (enc_header g)) as Hm by (unfold m; rewrite take_take, Nat.min_l by lia; by apply take_app_length').
  assert (drop 4 m = drop 4 (take 12 msg)) as Hd by (unfold m; rewrite !skipn_firstn_comm; by rewrite drop_app_length').
  destruct (dec_header_word _ _ Hm) as (E1 & E2 & E3). destruct (dec_header_rest _ _ Hd) as [E4 E5].
  rewrite (dec_enc_header g Hg) in E1, E2, E3. rewrite <- Eh in E4, E5. destruct (dec_header m), h. cbn in *. subst. done.
Qed.

Lemma get_header r mi bufs msg mem : current r mi bufs -> delivered r mi msg mem -> sizeof_header <= mi_length mi ->
  let a := place (rc_buf_region r) bufs 0 in
  get_ptr r 0 sizeof_header = Ok (Some a) /\ bytes_at mem a sizeof_header = take 12 msg.
Proof.
  intros Hc Hd Hl a. unfold sizeof_header in *. destruct (get_ptr_spec r mi bufs 0 Hc ltac:(lia)) as (a' & _ & Hg & Ea & Ec & _). fold a in Ea. subst a'.
  assert (12 <= contiguous r 0) as Hcon by (rewrite (page_chunk r mi bufs 0) by (done || lia); rewrite HOMA_BPAGE_SIZE_eq; lia).
  split; [|unfold a; rewrite (bytes_at_message r mi bufs msg) by (done || lia); done].
  unfold get_ptr in *. pose proof Hc as (El & _). rewrite El in *. rewrite s64_id in * by lia. revert Hg.
  destruct (Z.gtb_spec (0 + 1) (mi_length mi)); [lia |]. destruct (Z.gtb_spec (0 + 12) (mi_length mi)); [lia |].
  destruct (Z.geb_spec (contiguous r 0) 1); [|lia]. destruct (Z.geb_spec (contiguous r 0) 12); [|lia]. done.
Qed.

(** The first bytes of the request after the length was changed. *)
Lemma short_reply r mi bufs msg mem n : current r mi bufs -> delivered r mi msg mem -> 4 <= n <= mi_length mi -> n <= HOMA_BPAGE_SIZE ->
  forall bs, length bs = 4%nat -> let a := place (rc_buf_region r) bufs 0 in
  bytes_at (store mem (a, bs)) a n = take (Z.to_nat n) (bs ++ drop 4 msg).
Proof.
  intros Hc Hd Hn Hp bs Hbs a. pose proof Hd as [Hlm _]. apply list_eq. intros j.
  destruct (Z.lt_ge_cases (Z.of_nat j) n) as [Hj | Hj].
  - rewrite lookup_take_lt by lia. rewrite <- (Nat2Z.id j) at 1. rewrite bytes_at_lookup by lia. unfold store. cbn [fst snd].
    destruct (Z.leb_spec a (a + Z.of_nat j)); [|lia]. replace (Z.to_nat (a + Z.of_nat j - a)) with j by lia.
    destruct (Nat.lt_ge_cases j 4) as [H4 | H4].
    + rewrite lookup_app_l by lia. destruct (lookup_lt_is_Some_2 bs j) as [x ->]; [lia | done].
    + rewrite (lookup_ge_None_2 bs) by lia. rewrite lookup_app_r, Hbs, lookup_drop by lia. cbn [default].
      replace (4 + (j - 4))%nat with j by lia. symmetry.
      replace (a + Z.of_nat j) with (place (rc_buf_region r) bufs (0 + Z.of_nat j)).
      * rewrite <- (Nat2Z.id j) at 1. rewrite Z.add_0_l. apply (delivered_place r mi bufs); try done. lia.
      * apply (place_chunk r mi bufs); [done | lia |]. rewrite (page_chunk r mi bufs) by (done || lia). rewrite HOMA_BPAGE_SIZE_eq in *. lia.
  - rewrite !lookup_ge_None_2; [done | |]; [rewrite length_take | pose proof (bytes_at_length (store mem (a, bs)) a n)]; lia.
Qed.

(** A response that fits one page needs one chunk. *)
Lemma reply_vecs_one r mi bufs len fuel : current r mi bufs -> 0 < len <= mi_length mi -> len <= HOMA_BPAGE_SIZE ->
  reply_vecs (S fuel) r len 0 0 = Ok [(Some (place (rc_buf_region r) bufs 0), len)].
Proof.
  intros Hc Hl Hp. cbn [reply_vecs]. destruct (Z.ltb_spec 0 len); [|lia]. destruct (get_ptr_spec r mi bufs 0 Hc ltac:(lia)) as (a & _ & -> & -> & _).
  rewrite Z.sub_0_r. destruct (Z.gtb_spec len HOMA_BPAGE_SIZE); [lia |]. change (0 >=? HOMA_MAX_BPAGES) with false. cbn [result_bind].
  rewrite Z.add_0_l. destruct fuel; cbn [reply_vecs]; (destruct (Z.ltb_spec len len); [lia | done]).
Qed.

Lemma response_length h : mh_length (response h) =
  if negb (mh_short_response h =? 0) && (mh_length h >? 100) then 100 else mh_length h.
Proof. unfold response. by destruct (negb (mh_short_response h =? 0) && (mh_length h >? 100)). Qed.

(** C22: The Homa server echoes requests.  The request is in the buffers of the
    receiver, as the kernel delivers it, and its header tells a length from 12
    to the length of the message.  Then [homa_server::server] finds the header,
    fills no more than [HOMA_MAX_BPAGES] chunks, each of them readable, and the
    response that they form is the request, or its first 100 bytes if a short
    response was asked for; its header is that of the request with the length of
    the response.  At most the length in the request's buffer is changed. *)
Theorem homa_server_correct r mi bufs msg mem :
  current r mi bufs -> delivered r mi msg mem -> Forall is_byte msg ->
  let h := dec_header (take 12 msg) in
  sizeof_header <= mh_length h <= mi_length mi ->
  exists mem' vecs data, serve_request r mem = Ok (h, mem', vecs) /\ gather mem' vecs = Some data /\
    data = take (Z.to_nat (mh_length (response h))) (reply_message msg) /\
    dec_header (take 12 data) = response h /\ Z.of_nat (length data) = mh_length (response h) /\
    (forall a, ~ (place (rc_buf_region r) bufs 0 <= a < place (rc_buf_region r) bufs 0 + 4) -> mem' a = mem a).
Proof.
  intros Hc Hd Hbytes h Hh. pose proof Hd as [Hlm _]. pose proof Hc as (_ & _ & _ & _ & _ & Hmax). unfold sizeof_header, HOMA_MAX_MESSAGE_LENGTH in *.
  destruct (get_header r mi bufs msg mem Hc Hd ltac:(unfold sizeof_header; lia)) as [Hg Hb]. unfold serve_request. rewrite Hg. cbn [result_bind get].
  rewrite Hb. fold h. set (a := place (rc_buf_region r) bufs 0) in *.
  assert (12 <= mh_length (response h) <= mi_length mi /\ mh_length (response h) <= mh_length h) as [Hrl Hrh]
    by (rewrite response_length; destruct (negb (mh_short_response h =? 0) && (mh_length h >? 100)) eqn:E; lia).
  destruct (reply_vecs_spec r mi bufs msg mem (mh_length (response h)) Hc Hd ltac:(lia) 17 0 ltac:(lia)) as (vecs & Hv & Hgat);
    [rewrite HOMA_BPAGE_SIZE_eq; lia |]. rewrite Z.mul_0_l, Z.sub_0_r in *.
  rewrite Hv. cbn [result_bind].
  assert (length (take (Z.to_nat (mh_length (response h))) (reply_message msg)) = Z.to_nat (mh_length (response h))) as Hlen.
  { rewrite length_take. unfold reply_message. fold h. destruct (negb (mh_short_response h =? 0) && (mh_length h >? 100));
      rewrite ?length_app, ?length_drop, ?length_take, ?enc_header_length; lia. }
  assert (dec_header (take 12 (take (Z.to_nat (mh_length (response h))) (reply_message msg))) = response h) as Hdec
    by (rewrite take_take, Nat.min_l by lia; apply dec_reply; [done | lia]).
  eexists _, vecs, _. split; [reflexivity |]. split_ands; [|reflexivity | exact Hdec | rewrite Hlen; lia |].
  - unfold reply_message. fold h. destruct (negb (mh_short_response h =? 0) && (mh_length h >? 100)) eqn:E; [|done].
    assert (mh_length (response h) = 100) as E100 by (by rewrite response_length, E). rewrite E100 in *.
    rewrite (reply_vecs_one r mi bufs 100 16 Hc) in Hv by (rewrite ?HOMA_BPAGE_SIZE_eq; lia). injection Hv as <-. cbn. rewrite app_nil_r. f_equal. change 100%nat with (Z.to_nat 100).
    by apply (short_reply r mi bufs msg mem 100).
  - intros x Hx. destruct (negb (mh_short_response h =? 0) && (mh_length h >? 100)); [|done]. unfold store. cbn [fst snd].
    destruct (Z.leb_spec a x); [|done]. rewrite lookup_ge_None_2; [done |]. rewrite length_take, enc_header_length. lia.
Qed.

(** A request of 30 bytes in one buffer. *)
Definition ex_homa_request : list Z := enc_header (ex_request 30 0) ++ replicate 18 5.
Definition ex_homa_mem : Z -> Z := store (fun _ => 0) (4096, ex_homa_request).

Lemma homa_server_correct_witness :
  exists h mem' vecs data, serve_request ex_receiver ex_homa_mem = Ok (h, mem', vecs) /\ gather mem' vecs = Some data /\ data = ex_homa_request.
Proof.
  destruct (homa_server_correct ex_receiver ex_recv_mi [(0, 30)] ex_homa_request ex_homa_mem) as (mem' & vecs & data & H1 & H2 & H3 & _).
  - exact ex_current.
  - split; [reflexivity |]. intros b Hb. destruct (ex_buffer b Hb) as [n Hn]. exists (4096 + b), n. split; [exact Hn |].
    unfold ex_homa_mem, store. cbn [fst snd]. destruct (Z.leb_spec 4096 (4096 + b)); [|lia]. replace (4096 + b - 4096) with b by lia.
    destruct (lookup_lt_is_Some_2 ex_homa_request (Z.to_nat b)) as [x Hx]; [change (length ex_homa_request) with 30%nat; change (mi_length ex_recv_mi) with 30 in Hb; lia |].
    rewrite Hx. reflexivity.
  - unfold ex_homa_request. apply Forall_forall. vm_compute. intros x Hx. repeat (apply elem_of_cons in Hx as [-> | Hx]; [intuition congruence |]).
    apply elem_of_nil in Hx. destruct Hx.
  - vm_compute. intuition congruence.
  - eexists _, mem', vecs, data. split; [exact H1 |]. split; [exact H2 |]. rewrite H3. vm_compute. reflexivity.
Defined.

(** The server does not check what it receives.  For a message that is shorter
    than a header it dereferences a null pointer; for a header that tells a
    length of more than 16 pages it writes beyond the end of [vecs]. *)
Theorem homa_server_short_message r mem :
  0 <= rc_msg_length r < sizeof_header -> serve_request r mem = Fault BadPointer.
Proof.
  intros Hl. unfold serve_request, get_ptr. unfold sizeof_header in *. rewrite s64_id by lia.
  destruct (Z.gtb_spec (0 + 12) (rc_msg_length r)); [done | lia].
Qed.

Theorem homa_server_long_length r mi bufs msg mem :
  current r mi bufs -> delivered r mi msg mem -> sizeof_header <= mi_length mi ->
  HOMA_MAX_BPAGES * HOMA_BPAGE_SIZE < mh_length (response (dec_header (take 12 msg))) ->
  serve_request r mem = Fault ArrayBounds.
Proof.
  intros Hc Hd Hm Hl. destruct (get_header r mi bufs msg mem Hc Hd Hm) as [Hg Hb]. unfold serve_request. rewrite Hg. cbn [result_bind get].
  rewrite Hb. set (len := mh_length _) in *. rewrite HOMA_BPAGE_SIZE_eq in Hl. change HOMA_MAX_BPAGES with 16 in Hl.
  pose proof Hc as (El & En & Eo & Hh & Hbf & Hmax). unfold HOMA_MAX_MESSAGE_LENGTH in Hmax.
  assert (forall off, 0 <= off -> off < 16 * 65536 -> exists o, get_ptr r off 1 = Ok o) as Hget.
  { intros off H0 H1. destruct (Z.lt_ge_cases off (mi_length mi)) as [Hlt | Hge].
    - destruct (get_ptr_spec r mi bufs off Hc ltac:(lia)) as (a & _ & -> & _). eauto.
    - unfold get_ptr. rewrite s64_id, El by lia. destruct (Z.gtb_spec (off + 1) (mi_length mi)); [eauto | lia]. }
  assert (forall fuel k, (17 <= fuel + k)%nat -> (k <= 16)%nat -> reply_vecs fuel r len (Z.of_nat k * 65536) (Z.of_nat k) = Fault ArrayBounds) as H.
  { induction fuel as [|fuel IH]; intros k Hk Hk2; [lia |]. cbn [reply_vecs]. rewrite HOMA_BPAGE_SIZE_eq. change HOMA_MAX_BPAGES with 16.
    destruct (Z.ltb_spec (Z.of_nat k * 65536) len); [|lia]. destruct (Z.geb_spec (Z.of_nat k) 16); [done |].
    destruct (Hget (Z.of_nat k * 65536)) as [o ->]; [lia | lia |]. cbn [result_bind].
    destruct (Z.gtb_spec (len - Z.of_nat k * 65536) 65536); [|lia]. specialize (IH (S k) ltac:(lia) ltac:(lia)).
    replace (Z.of_nat (S k) * 65536) with (Z.of_nat k * 65536 + 65536) in IH by lia. replace (Z.of_nat (S k)) with (Z.of_nat k + 1) in IH by lia.
    by rewrite IH. }
  specialize (H 17%nat 0%nat ltac:(lia) ltac:(lia)). change (Z.of_nat 0 * 65536) with 0 in H. change (Z.of_nat 0) with 0 in H. by rewrite H.
Qed.

Lemma homa_server_short_message_witness : serve_request (ex_receiver <| rc_msg_length := 5 |>) ex_homa_mem = Fault BadPointer.
Proof. apply homa_server_short_message. vm_compute. intuition congruence. Defined.
