(* ===== verification/CpClient.v ===== *)
(** * The clients of the benchmark node (util/cp_node.cc)

    A [client] sends requests to servers and measures when the responses come
    back.  A request carries the index of an [rinfo], which holds its start
    time until the response arrives; a sending thread and receiving threads use
    these slots at the same time. *)
From S2P Require Import Prelude Lists Wire Types CpConn CpServer.

(** ** class client *)
Record rinfo := { ri_start_time : Z; ri_request_length : Z; ri_active : bool }.
#[export] Instance eta_rinfo : Eta rinfo := fun r => Build_rinfo (ri_start_time r) (ri_request_length r) (ri_active r).
Definition new_rinfo : rinfo := Build_rinfo 0 0 false.

Definition NUM_CLIENT_STATS : Z := 500000.

(** [cl_actual] has the entries of [actual_lengths] and [actual_rtts] that are
    not zero; [cl_freezer] and [cl_debug] are the global variables that the threads
    of a client use, the latter the first two debug values. *)
Record client_state := {
  cl_id : Z; cl_rinfos : list rinfo; cl_last_rinfo : Z; cl_server_conns : list conn_id; cl_first_id : list Z; cl_freeze : list Z;
  cl_requests : list Z; cl_responses : list Z; cl_total_requests : Z; cl_total_responses : Z; cl_request_bytes : Z;
  cl_response_bytes : Z; cl_total_rtt : Z; cl_actual : gmap Z (Z * Z); cl_lag : Z; cl_freezer : freezer; cl_debug : Z * Z
}.
#[export] Instance eta_client_state : Eta client_state := fun r =>
  Build_client_state (cl_id r) (cl_rinfos r) (cl_last_rinfo r) (cl_server_conns r) (cl_first_id r) (cl_freeze r) (cl_requests r)
    (cl_responses r) (cl_total_requests r) (cl_total_responses r) (cl_request_bytes r) (cl_response_bytes r) (cl_total_rtt r)
    (cl_actual r) (cl_lag r) (cl_freezer r) (cl_debug r).

Definition KM : Type -> Type := ST client_state.
Definition get_cl : KM client_state := fun s => Ok (s, s).
Definition upd_cl (f : client_state -> client_state) : KM unit := fun s => Ok (tt, f s).

(** The parameters of the command line that clients use. *)
Record client_config := {
  cc_server_ids : list Z; cc_node_id : Z; cc_server_ports : Z; cc_port_max : Z; cc_one_way : bool
}.

(** The part of the constructor that visits one server node: [first_id],
    [freeze] and the connections so far. *)
Definition add_node (cfg : client_config) (node : Z) (st : list Z * list Z * list conn_id) : list Z * list Z * list conn_id :=
  let '(first_id, freeze, conns) := st in
  if node =? cc_node_id cfg then st else
  (first_id ++ replicate (Z.to_nat (node - Z.of_nat (length first_id))) (-1) ++ [Z.of_nat (length conns)],
   freeze ++ replicate (Z.to_nat (node + 1 - Z.of_nat (length freeze))) 0,
   conns ++ map (fun thread => Build_conn_id 0 (u8 (cc_node_id cfg)) (u8 thread) (u8 node)) (seqZ 0 (cc_server_ports cfg))).

Definition tables (cfg : client_config) : list Z * list Z * list conn_id :=
  foldl (fun st node => add_node cfg node st) ([], [], []) (cc_server_ids cfg).

(** The constructor; [resolves] tells for which nodes [getaddrinfo] finds an
    address. *)
Definition new_client (resolves : Z -> bool) (cfg : client_config) (id : Z) (f : freezer) (debug : Z * Z) : result client_state :=
  if negb (forallb (fun node => (node =? cc_node_id cfg) || resolves node) (cc_server_ids cfg)) then Fault ProcessExit else
  let '(first_id, freeze, conns) := tables cfg in
  Ok (Build_client_state id (replicate (Z.to_nat (u32 (2 * cc_port_max cfg + 5))) new_rinfo) 0 conns first_id freeze
    (replicate (length conns) 0) (replicate (length conns) 0) 0 0 0 0 0 ∅ 0 (f <| fz_kfreeze_count := 0 |>) debug).

(** [get_rinfo]. *)
Fixpoint get_rinfo_loop (fuel : nat) (next : Z) : KM Z :=
  match fuel with
  | O => raise OutOfFuel
  | S fuel =>
      let* s := get_cl in
      let next := next + 1 in
      let next := if next >=? Z.of_nat (length (cl_rinfos s)) then 0 else next in
      let* r := lift (arr (cl_rinfos s) next) in
      if negb (ri_active r) then
        (let* l := lift (arr_set (cl_rinfos s) next (r <| ri_active := true |>)) in
         upd_cl (fun s => s <| cl_rinfos := l |> <| cl_last_rinfo := next |>) ;;; ret next)
      else if next =? cl_last_rinfo s then raise ProcessExit
      else get_rinfo_loop fuel next
  end.

Definition get_rinfo : KM Z :=
  let* s := get_cl in get_rinfo_loop (length (cl_rinfos s) + 1) (cl_last_rinfo s).

(** [record], in the three parts between which other threads can see a
    difference.  First it counts the response. *)
Definition rec_count : KM Z :=
  let* s := get_cl in
  upd_cl (fun s => s <| cl_total_responses ::= fun n => u64 (n + 1) |>) ;;;
  ret (cl_total_responses s mod NUM_CLIENT_STATS).

(** Then it gives back the [rinfo]; the result is the round-trip time, or [None]
    when [record] returns. *)
Definition rec_claim (end_time : Z) (header : message_header) : KM (option Z) :=
  let* s := get_cl in
  if mh_msg_id header >=? Z.of_nat (length (cl_rinfos s)) then ret None else
  let* r := lift (arr (cl_rinfos s) (mh_msg_id header)) in
  if negb (ri_active r) then ret None else
  let rtt := u64 (end_time - ri_start_time r) in
  let* l := lift (arr_set (cl_rinfos s) (mh_msg_id header) (r <| ri_active := false |>)) in
  upd_cl (fun s => s <| cl_rinfos := l |>) ;;; ret (Some rtt).

(** A 64-bit value as a signed number. *)
Definition s64 (z : Z) : Z := if u64 z <? 2 ^ 63 then u64 z else u64 z - 2 ^ 64.

(** Freezing after a response that took unusually long; [ioctl] is for
    [kfreeze]. *)
Definition rec_freeze (ioctl : bool) (header : message_header) (rtt : Z) : KM unit :=
  let* s := get_cl in
  let kcycles := s32 (Z.shiftr (s64 rtt) 10) in
  if (kcycles >? (cl_debug s).1) && (kcycles <? (cl_debug s).2) && (mh_length header <? 1500) && negb (fz_frozen (cl_freezer s)) then
    let* fr := lift (arr_set (cl_freeze s) (server (mh_cid header)) 1) in
    upd_cl (fun s => s <| cl_freeze := fr |> <| cl_freezer ::= fun f => kfreeze ioctl (f <| fz_frozen := true |>) |>)
  else ret tt.

(** At last it updates the statistics.  The length of the request is read from
    the [rinfo], which may be in use again. *)
Definition rec_stats (ioctl : bool) (header : message_header) (slot rtt : Z) : KM unit :=
  rec_freeze ioctl header rtt ;;;
  let* s := get_cl in
  let* server_id := lift (arr (cl_first_id s) (server (mh_cid header))) in
  if server_id =? -1 then ret tt else
  let server_id := server_id + conn_server_port (mh_cid header) in
  let* n := lift (arr (cl_responses s) server_id) in
  let* rs := lift (arr_set (cl_responses s) server_id (u64 (n + 1))) in
  let* r := lift (arr (cl_rinfos s) (mh_msg_id header)) in
  upd_cl (fun s => s <| cl_responses := rs |> <| cl_request_bytes ::= fun n => u64 (n + ri_request_length r) |>
    <| cl_response_bytes ::= fun n => u64 (n + mh_length header) |> <| cl_total_rtt ::= fun n => u64 (n + rtt) |>
    <| cl_actual ::= insert slot (mh_length header, rtt) |>).

Definition record (ioctl : bool) (end_time : Z) (header : message_header) : KM unit :=
  let* slot := rec_count in
  let* rtt := rec_claim end_time header in
  match rtt with None => ret tt | Some rtt => rec_stats ioctl header slot rtt end.

(** The servers that [check_completion] complains about, with the numbers of
    missing responses, and the number in all. *)
Definition check_completion (s : client_state) : Z * list (nat * Z) :=
  (s32 (u64 (cl_total_requests s - cl_total_responses s)),
   filter (fun x => x.2 <> 0) (imap (fun i x => (i, s32 (u64 (x.1 - x.2)))) (zip (cl_requests s) (cl_responses s)))).

(** ** The sending thread of [homa_client]

    It takes a slot, waits until it may send, sends, and counts the request.
    The receiving threads may run between these steps. *)

(** The condition of the waiting loop on the number of outstanding requests. *)
Definition may_send (cfg : client_config) (s : client_state) : bool :=
  u64 (cl_total_requests s - cl_total_responses s) <? cc_port_max cfg.

(** An [int] stored in a signed bit field of 30 bits. *)
Definition bitfield30 (z : Z) : Z := let l := z mod 2 ^ 30 in if l >=? 2 ^ 29 then l - 2 ^ 30 else l.

(** The request on slot [slot] at time [now] to the server with index [srv];
    [len] is drawn from the distribution. *)
Definition make_request (cfg : client_config) (slot now srv len : Z) : KM message_header :=
  let* s := get_cl in
  let len := bitfield30 len in
  let len := if len >? HOMA_MAX_MESSAGE_LENGTH then HOMA_MAX_MESSAGE_LENGTH else len in
  let len := if len <? sizeof_header then sizeof_header else len in
  let* r := lift (arr (cl_rinfos s) slot) in
  let* l := lift (arr_set (cl_rinfos s) slot (r <| ri_start_time := now |> <| ri_request_length := len |>)) in
  upd_cl (fun s => s <| cl_rinfos := l |>) ;;;
  let* c := lift (arr (cl_server_conns s) srv) in
  let cid := Build_conn_id (u8 (cl_id s)) (client c) (conn_server_port c) (server c) in
  let* fr := lift (arr (cl_freeze s) (server cid)) in
  ret (Build_message_header len (fr mod 2) (Z.b2z (cc_one_way cfg)) cid (u32 slot)).

Definition count_sent (srv now next_start : Z) : KM unit :=
  let* s := get_cl in
  let* n := lift (arr (cl_requests s) srv) in
  let* l := lift (arr_set (cl_requests s) srv (u64 (n + 1))) in
  upd_cl (fun s => s <| cl_requests := l |> <| cl_total_requests ::= fun n => u64 (n + 1) |> <| cl_lag := u64 (now - next_start) |>).

(** The end of the sending thread. *)
Definition drop_slot (slot : Z) : KM unit :=
  let* s := get_cl in
  let* r := lift (arr (cl_rinfos s) slot) in
  let* l := lift (arr_set (cl_rinfos s) slot (r <| ri_active := false |>)) in
  upd_cl (fun s => s <| cl_rinfos := l |>).

(** ** A client with all its threads

    The sending thread is at one of these points. *)
Inductive sender_pc := SIdle | SWaiting (slot : Z) | SSent (srv now next_start : Z) | SExited.

(** A response on its way through [record], with the time its request was sent. *)
Record item := { it_start : Z; it_end : Z; it_hdr : message_header; it_slot : Z }.
Inductive receiver_pc := RIdle | RCounted (it : item) | RClaimed (it : item) (rtt : Z).

(** [y_net] has the requests that were sent and whose responses nobody received
    yet, with the times they were sent; [y_done] the responses recorded. *)
Record cl_sys := {
  y_cl : client_state; y_pc : sender_pc; y_net : list (Z * message_header); y_rcv : list receiver_pc; y_done : list item
}.
#[export] Instance eta_cl_sys : Eta cl_sys := fun r => Build_cl_sys (y_cl r) (y_pc r) (y_net r) (y_rcv r) (y_done r).

Inductive cl_event :=
| EvGet | EvExit
| EvSend (now next_start srv len : Z)
| EvCount
| EvRecv (i : nat) (k : nat) (end_time : Z)
| EvClaim (i : nat)
| EvStats (i : nat) (ioctl : bool).

(** One step; an event that is not possible changes nothing.  The server answers
    with [response]. *)
Definition cl_step (cfg : client_config) (ev : cl_event) (y : cl_sys) : result cl_sys :=
  match ev with
  | EvGet =>
      match y_pc y with
      | SIdle => let! (slot, c) := get_rinfo (y_cl y) in Ok (y <| y_cl := c |> <| y_pc := SWaiting slot |>)
      | _ => Ok y
      end
  | EvExit =>
      match y_pc y with
      | SWaiting slot => let! (_, c) := drop_slot slot (y_cl y) in Ok (y <| y_cl := c |> <| y_pc := SExited |>)
      | _ => Ok y
      end
  | EvSend now next_start srv len =>
      match y_pc y with
      | SWaiting slot =>
          if (next_start <=? now) && may_send cfg (y_cl y) then
            let! (h, c) := make_request cfg slot now srv len (y_cl y) in
            Ok (y <| y_cl := c |> <| y_pc := SSent srv now next_start |> <| y_net ::= fun l => l ++ [(now, response h)] |>)
          else Ok y
      | _ => Ok y
      end
  | EvCount =>
      match y_pc y with
      | SSent srv now next_start => let! (_, c) := count_sent srv now next_start (y_cl y) in Ok (y <| y_cl := c |> <| y_pc := SIdle |>)
      | _ => Ok y
      end
  | EvRecv i k end_time =>
      match y_rcv y !! i, y_net y !! k with
      | Some RIdle, Some (t, h) =>
          let! (slot, c) := rec_count (y_cl y) in
          Ok (y <| y_cl := c |> <| y_net ::= delete k |> <| y_rcv ::= <[i := RCounted (Build_item t end_time h slot)]> |>)
      | _, _ => Ok y
      end
  | EvClaim i =>
      match y_rcv y !! i with
      | Some (RCounted it) =>
          let! (rtt, c) := rec_claim (it_end it) (it_hdr it) (y_cl y) in
          Ok (y <| y_cl := c |> <| y_rcv ::= <[i := match rtt with Some rtt => RClaimed it rtt | None => RIdle end]> |>)
      | _ => Ok y
      end
  | EvStats i ioctl =>
      match y_rcv y !! i with
      | Some (RClaimed it rtt) =>
          let! (_, c) := rec_stats ioctl (it_hdr it) (it_slot it) rtt (y_cl y) in
          Ok (y <| y_cl := c |> <| y_rcv ::= <[i := RIdle]> |> <| y_done ::= cons it |>)
      | _ => Ok y
      end
  end.

Fixpoint cl_run (cfg : client_config) (evs : list cl_event) (y : cl_sys) : result cl_sys :=
  match evs with
  | [] => Ok y
  | ev :: evs => let! y := cl_step cfg ev y in cl_run cfg evs y
  end.

(** A client with [n] receiving threads. *)
Definition new_sys (n : nat) (c : client_state) : cl_sys := Build_cl_sys c SIdle [] (replicate n RIdle) [].

(** ** Lemmas *)

(** *** The tables of the constructor *)

(** Every connection is found at the index that [record] computes for it. *)
Definition table_ok (first_id freeze : list Z) (conns : list conn_id) : Prop :=
  forall i c, conns !! i = Some c ->
    exists f, arr first_id (server c) = Ok f /\ 0 <= f /\ 0 <= conn_server_port c /\ f + conn_server_port c = Z.of_nat i /\
      0 <= server c < Z.of_nat (length freeze).

Record config_ok (cfg : client_config) : Prop := {
  co_sorted : StronglySorted Z.lt (cc_server_ids cfg);
  co_ids : Forall (fun node => 0 <= node < 256) (cc_server_ids cfg);
  co_ports : 0 <= cc_server_ports cfg <= 256;
  co_max : 1 <= cc_port_max cfg < 2 ^ 30
}.

Lemma arr_app_l {A} (l k : list A) i x : arr l i = Ok x -> arr (l ++ k) i = Ok x.
Proof. rewrite !arr_Ok. intros [? H]. split; [done |]. by apply lookup_app_l_Some. Qed.

Lemma seqZ_0_lookup n i x : seqZ 0 n !! i = Some x -> x = Z.of_nat i /\ Z.of_nat i < n.
Proof. intros H. apply lookup_seqZ in H as [-> ?]. lia. Qed.

Lemma add_node_ok cfg node first_id freeze conns :
  config_ok cfg -> 0 <= node < 256 -> Z.of_nat (length first_id) <= node -> table_ok first_id freeze conns ->
  let '(fi, fr, cs) := add_node cfg node (first_id, freeze, conns) in table_ok fi fr cs /\ Z.of_nat (length fi) <= node + 1.
Proof.
  intros Hc Hn Hl Ht. unfold add_node. destruct (Z.eqb_spec node (cc_node_id cfg)) as [_ | _]; [split; [done | lia] |].
  pose proof (co_ports _ Hc) as Hp. split; [|rewrite !length_app, length_replicate; cbn; lia].
  intros i c Hi. apply lookup_app_Some in Hi as [Hi | [Hge Hi]].
  - destruct (Ht i c Hi) as (f & Hf & H0 & H1 & H2 & H3). exists f. split_ands; try done; [by apply arr_app_l | lia |].
    rewrite length_app. lia.
  - rewrite list_lookup_fmap in Hi. apply fmap_Some in Hi as (th & Hth & ->). apply seqZ_0_lookup in Hth as [-> Hlt]. cbn.
    unfold u8. rewrite !Z.mod_small by lia. exists (Z.of_nat (length conns)). split_ands; try lia.
    + apply arr_Ok. split; [lia |]. rewrite app_assoc. rewrite lookup_app_r by (rewrite length_app, length_replicate; lia).
      rewrite length_app, length_replicate. replace (_ - _)%nat with 0%nat by lia. done.
    + rewrite length_app, length_replicate. lia.
Qed.

Lemma add_nodes_ok cfg ids : config_ok cfg -> StronglySorted Z.lt ids -> Forall (fun node => 0 <= node < 256) ids ->
  forall fi fr cs, Forall (fun n => Z.of_nat (length fi) <= n) ids -> table_ok fi fr cs ->
  let '(fi, fr, cs) := foldl (fun st node => add_node cfg node st) (fi, fr, cs) ids in table_ok fi fr cs.
Proof.
  intros Hc. induction ids as [|node ids IH]; intros Hs Hi fi fr cs Hl Ht; [done |]. cbn [foldl].
  apply Forall_cons in Hl as [Hl Hls]. apply Forall_cons in Hi as [Hi His]. apply StronglySorted_inv in Hs as [Hs Hlt].
  pose proof (add_node_ok cfg node fi fr cs Hc Hi Hl Ht) as Ha. destruct (add_node cfg node (fi, fr, cs)) as [[fi' fr'] cs'].
  destruct Ha as [Ha Hal]. apply IH; try done. eapply Forall_impl; [apply Hlt | cbn; lia].
Qed.

Lemma client_tables_ok cfg : config_ok cfg -> let '(fi, fr, cs) := tables cfg in table_ok fi fr cs.
Proof.
  intros Hc. apply add_nodes_ok; [done | apply (co_sorted _ Hc) | apply (co_ids _ Hc) | |].
  - eapply Forall_impl; [apply (co_ids _ Hc) | cbn; lia].
  - intros i c H. done.
Qed.

(** *** Taking a slot *)
Definition inactive (s : client_state) (i : Z) : Prop :=
  exists r, arr (cl_rinfos s) i = Ok r /\ ri_active r = false.

Definition with_active (b : bool) (i : Z) (s : client_state) : client_state :=
  s <| cl_rinfos ::= alter (fun r => r <| ri_active := b |>) (Z.to_nat i) |>.

Lemma arr_some {A} (l : list A) i : 0 <= i < Z.of_nat (length l) -> exists x, arr l i = Ok x.
Proof.
  intros H. destruct (lookup_lt_is_Some_2 l (Z.to_nat i)) as [x Hx]; [lia |]. exists x. apply arr_Ok. split; [lia | done].
Qed.

Lemma arr_set_alter {A} (l : list A) i x (f : A -> A) : arr l i = Ok x -> arr_set l i (f x) = Ok (alter f (Z.to_nat i) l).
Proof.
  intros H. apply arr_Ok in H as [H0 H]. pose proof (lookup_lt_Some _ _ _ H). apply arr_set_Ok. split; [lia |].
  apply list_eq. intros j. destruct (decide (j = Z.to_nat i)) as [-> | Hne].
  - by rewrite list_lookup_alter_eq, list_lookup_insert_eq, H by lia.
  - by rewrite list_lookup_alter_ne, list_lookup_insert_ne by done.
Qed.

(** The slot after [next]. *)
Lemma next_rinfo n last j :
  0 <= last < n -> 0 <= j < n -> let next := (last + j) mod n + 1 in
  (if next >=? n then 0 else next) = (last + (j + 1)) mod n.
Proof.
  intros Hl Hj next. unfold next. destruct (Z.lt_ge_cases (last + j) n).
  - rewrite (Z.mod_small (last + j)) by lia. destruct (Z.geb_spec (last + j + 1) n).
    + replace (last + (j + 1)) with (0 + 1 * n) by lia. by rewrite Z.mod_add, Z.mod_0_l by lia.
    + rewrite Z.mod_small; lia.
  - assert ((last + j) mod n = last + j - n) as -> by (symmetry; apply (Z.mod_unique _ _ 1); lia).
    destruct (Z.geb_spec (last + j - n + 1) n); [lia |]. apply (Z.mod_unique _ _ 1); lia.
Qed.

Lemma get_rinfo_loop_spec s fuel : forall j k,
  0 <= cl_last_rinfo s < Z.of_nat (length (cl_rinfos s)) -> 0 <= j < k -> k <= Z.of_nat (length (cl_rinfos s)) ->
  inactive s ((cl_last_rinfo s + k) mod Z.of_nat (length (cl_rinfos s))) -> k - j <= Z.of_nat fuel ->
  exists slot, get_rinfo_loop fuel ((cl_last_rinfo s + j) mod Z.of_nat (length (cl_rinfos s))) s =
      Ok (slot, with_active true slot s <| cl_last_rinfo := slot |>) /\ inactive s slot.
Proof.
  set (n := Z.of_nat (length (cl_rinfos s))). set (last := cl_last_rinfo s).
  induction fuel as [|fuel IH]; intros j k Hl Hj Hk Hi Hf; [lia |]. cbn [get_rinfo_loop].
  rewrite (bind_eq get_cl _ _ _ _ eq_refl). fold n last. rewrite (next_rinfo n last j) by lia.
  destruct (arr_some (cl_rinfos s) ((last + (j + 1)) mod n)) as [r Hr]; [apply Z.mod_pos_bound; unfold n in *; lia |].
  rewrite Hr. rewrite (bind_eq (lift (Ok r)) _ _ _ _ eq_refl). destruct (ri_active r) eqn:Ea; cbn [negb].
  - destruct (Z.eqb_spec ((last + (j + 1)) mod n) last) as [E | E].
    + exfalso. assert (j + 1 = n) as Ej.
      { destruct (Z.lt_ge_cases (last + (j + 1)) n) as [Hlt | Hge]; [rewrite Z.mod_small in E by lia; lia |].
        assert ((last + (j + 1)) mod n = last + (j + 1) - n) by (symmetry; apply (Z.mod_unique _ _ 1); lia). lia. }
      assert (k = j + 1) as -> by lia. destruct Hi as (r' & Hr' & Ha). rewrite Hr in Hr'. congruence.
    + apply (IH (j + 1) k); try lia; try done. destruct (Z.eq_dec k (j + 1)) as [-> | ?]; [|lia].
      destruct Hi as (r' & Hr' & Ha). rewrite Hr in Hr'. congruence.
  - rewrite (arr_set_alter _ _ _ (fun r => r <| ri_active := true |>) Hr). eexists. split; [reflexivity |]. by exists r.
Qed.

Lemma get_rinfo_spec s i :
  0 <= cl_last_rinfo s < Z.of_nat (length (cl_rinfos s)) -> inactive s i ->
  exists slot, get_rinfo s = Ok (slot, with_active true slot s <| cl_last_rinfo := slot |>) /\ inactive s slot.
Proof.
  intros Hl Hi. unfold get_rinfo. rewrite (bind_eq get_cl _ _ _ _ eq_refl).
  assert (0 <= i < Z.of_nat (length (cl_rinfos s))) as Hir.
  { destruct Hi as (r & Hr & _). apply arr_Ok in Hr as [? Hr]. apply lookup_lt_Some in Hr. lia. }
  set (n := Z.of_nat (length (cl_rinfos s))) in *. set (last := cl_last_rinfo s) in *.
  assert (exists k, 0 < k <= n /\ (last + k) mod n = i) as (k & Hk & Ek).
  { destruct (Z.lt_ge_cases last i); [exists (i - last) | exists (i - last + n)]; (split; [lia |]).
    - rewrite Z.mod_small; lia.
    - symmetry. apply (Z.mod_unique _ _ 1); lia. }
  destruct (get_rinfo_loop_spec s (length (cl_rinfos s) + 1) 0 k) as (slot & Hs & Hia); try (fold n last; lia).
  { fold n last. by rewrite Ek. }
  fold n last in Hs. rewrite Z.add_0_r, Z.mod_small in Hs by lia. by exists slot.
Qed.

(** *** The invariant *)
Definition counted_of (pc : receiver_pc) : list item := match pc with RCounted it => [it] | _ => [] end.
Definition claimed_of (pc : receiver_pc) : list (item * Z) := match pc with RClaimed it rtt => [(it, rtt)] | _ => [] end.
Definition counted (y : cl_sys) : list item := concat (counted_of <$> y_rcv y).
Definition claimed (y : cl_sys) : list (item * Z) := concat (claimed_of <$> y_rcv y).

(** The requests whose slots are in use, with the times they were sent. *)
Definition timed (y : cl_sys) : list (Z * message_header) := y_net y ++ ((fun it => (it_start it, it_hdr it)) <$> counted y).
Definition pc_slots (pc : sender_pc) : list Z := match pc with SWaiting slot => [slot] | _ => [] end.

(** The responses that were received, and all responses. *)
Definition received (y : cl_sys) : list item := counted y ++ (claimed y).*1 ++ y_done y.
Definition requested (y : cl_sys) : list message_header := (y_net y).*2 ++ (it_hdr <$> received y).

(** The index of the server that a message belongs to. *)
Definition srv_index (s : client_state) (h : message_header) : Z :=
  match arr (cl_first_id s) (server (mh_cid h)) with Ok f => f + conn_server_port (mh_cid h) | Fault _ => -1 end.
Definition hdr_ok (s : client_state) (h : message_header) : Prop :=
  exists f, arr (cl_first_id s) (server (mh_cid h)) = Ok f /\ 0 <= f /\ 0 <= f + conn_server_port (mh_cid h) < Z.of_nat (length (cl_server_conns s)) /\
    0 <= server (mh_cid h) < Z.of_nat (length (cl_freeze s)).

(** How many of the messages belong to server [i]. *)
Definition count_srv (s : client_state) (i : nat) (l : list message_header) : Z :=
  Z.of_nat (length (filter (fun h => srv_index s h = Z.of_nat i) l)).
Definition sent_to (pc : sender_pc) (i : nat) : Z := match pc with SSent srv _ _ => Z.b2z (srv =? Z.of_nat i) | _ => 0 end.
Definition uncounted (pc : sender_pc) : Z := match pc with SSent _ _ _ => 1 | _ => 0 end.

Definition item_rtt (it : item) : Z := u64 (it_end it - it_start it).
Definition total (l : list Z) : Z := foldr Z.add 0 l.

(** The tables and the sizes of the arrays. *)
Record shape (cfg : client_config) (s : client_state) : Prop := {
  sh_table : table_ok (cl_first_id s) (cl_freeze s) (cl_server_conns s);
  sh_rinfos : Z.of_nat (length (cl_rinfos s)) = 2 * cc_port_max cfg + 5;
  sh_last : 0 <= cl_last_rinfo s < Z.of_nat (length (cl_rinfos s));
  sh_conns : cl_server_conns s = (tables cfg).2
}.

(** The slots: exactly those of the sender and of requests under way are active. *)
Definition slot_of (x : Z * message_header) : Z := mh_msg_id x.2.
Record slots_inv (rs : list rinfo) (own : list Z) (tm : list (Z * message_header)) : Prop := {
  sl_nodup : NoDup (own ++ (slot_of <$> tm));
  sl_range : Forall (fun i => 0 <= i < Z.of_nat (length rs)) (own ++ (slot_of <$> tm));
  sl_active : forall i r, arr rs i = Ok r -> ri_active r = true <-> i ∈ own ++ (slot_of <$> tm);
  sl_start : Forall (fun x => exists r, arr rs (slot_of x) = Ok r /\ ri_start_time r = x.1) tm
}.

(** The counters, when [req] were sent, [n] responses were received and [dn]
    recorded. *)
Record counts_inv (s : client_state) (pc : sender_pc) (req : list message_header) (n : nat) (dn : list item) : Prop := {
  ct_requests : cl_total_requests s = u64 (Z.of_nat (length req) - uncounted pc);
  ct_responses : cl_total_responses s = u64 (Z.of_nat n);
  ct_req_len : length (cl_requests s) = length (cl_server_conns s);
  ct_resp_len : length (cl_responses s) = length (cl_server_conns s);
  ct_req : forall i n, cl_requests s !! i = Some n -> n = u64 (count_srv s i req - sent_to pc i);
  ct_resp : forall i n, cl_responses s !! i = Some n -> n = u64 (count_srv s i (it_hdr <$> dn));
  ct_rtt : cl_total_rtt s = u64 (total (item_rtt <$> dn));
  ct_bytes : cl_response_bytes s = u64 (total (mh_length ∘ it_hdr <$> dn))
}.

(** The circular buffers, until they are full. *)
Record stats_inv (actual : gmap Z (Z * Z)) (rcvd dn : list item) : Prop := {
  st_slots : NoDup (it_slot <$> rcvd);
  st_range : Forall (fun it => 0 <= it_slot it < Z.of_nat (length rcvd)) rcvd;
  st_actual : Forall (fun it => actual !! it_slot it = Some (mh_length (it_hdr it), item_rtt it)) dn
}.

Record cl_inv (cfg : client_config) (y : cl_sys) : Prop := {
  ci_shape : shape cfg (y_cl y);
  ci_hdrs : Forall (hdr_ok (y_cl y)) (requested y);
  ci_slots : slots_inv (cl_rinfos (y_cl y)) (pc_slots (y_pc y)) (timed y);
  ci_counts : counts_inv (y_cl y) (y_pc y) (requested y) (length (received y)) (y_done y);
  ci_claimed : Forall (fun x => x.2 = item_rtt x.1) (claimed y);
  ci_stats : Z.of_nat (length (received y)) <= NUM_CLIENT_STATS -> stats_inv (cl_actual (y_cl y)) (received y) (y_done y);
  ci_bound : Z.of_nat (length (y_net y)) <= cc_port_max cfg;
  ci_pc : match y_pc y with SSent srv _ _ => 0 <= srv < Z.of_nat (length (cl_server_conns (y_cl y))) | _ => True end;
  ci_ids : Forall (fun h => 0 <= mh_msg_id h < 2 * cc_port_max cfg + 5) (requested y)
}.

(** An event is about an existing server. *)
Definition event_ok (cfg : client_config) (ev : cl_event) : Prop :=
  match ev with EvSend _ _ srv _ => 0 <= srv < Z.of_nat (length (tables cfg).2) | _ => True end.

(** Replacing the state of one receiver. *)
Lemma concat_fmap_insert {A B} (f : A -> list B) (l : list A) i x x' :
  l !! i = Some x -> concat (f <$> <[i := x']> l) ++ f x ≡ₚ concat (f <$> l) ++ f x'.
Proof.
  revert i. induction l as [|a l IH]; intros [|i] H; try done; cbn in *.
  - injection H as ->. rewrite <- !app_assoc, (Permutation_app_comm (concat _)), app_assoc. 
    rewrite (Permutation_app_comm (f x') (f x)), <- app_assoc. f_equiv. apply Permutation_app_comm.
  - rewrite <- !app_assoc. f_equiv. by apply IH.
Qed.

Lemma counted_insert y i pc pc' :
  y_rcv y !! i = Some pc ->
  concat (counted_of <$> <[i := pc']> (y_rcv y)) ++ counted_of pc ≡ₚ counted y ++ counted_of pc'.
Proof. apply concat_fmap_insert. Qed.

Lemma claimed_insert y i pc pc' :
  y_rcv y !! i = Some pc ->
  concat (claimed_of <$> <[i := pc']> (y_rcv y)) ++ claimed_of pc ≡ₚ claimed y ++ claimed_of pc'.
Proof. apply concat_fmap_insert. Qed.

Lemma u64_add_l a b : u64 (u64 a + b) = u64 (a + b).
Proof. unfold u64. apply Zplus_mod_idemp_l. Qed.

Lemma total_perm l k : l ≡ₚ k -> total l = total k.
Proof. unfold total. induction 1; cbn; lia. Qed.

Lemma count_srv_perm s i l k : l ≡ₚ k -> count_srv s i l = count_srv s i k.
Proof. intros H. unfold count_srv. by rewrite H. Qed.

Lemma count_srv_app s i l k : count_srv s i (l ++ k) = count_srv s i l + count_srv s i k.
Proof. unfold count_srv. rewrite filter_app, length_app. lia. Qed.

Lemma count_srv_one s i h : count_srv s i [h] = Z.b2z (srv_index s h =? Z.of_nat i).
Proof. unfold count_srv. cbn. destruct (decide _) as [E | E]; [by rewrite E, Z.eqb_refl | by destruct (Z.eqb_spec (srv_index s h) (Z.of_nat i))]. Qed.

(** Only the tables matter for what belongs to which server. *)
Lemma count_srv_tables s s' i l : cl_first_id s' = cl_first_id s -> count_srv s' i l = count_srv s i l.
Proof. intros E. unfold count_srv, srv_index. by rewrite E. Qed.

(** *** Slots *)
Definition set_active (b : bool) (i : Z) (rs : list rinfo) : list rinfo := alter (fun r => r <| ri_active := b |>) (Z.to_nat i) rs.

Definition set_request (now len i : Z) (rs : list rinfo) : list rinfo :=
  alter (fun r => r <| ri_start_time := now |> <| ri_request_length := len |>) (Z.to_nat i) rs.

Lemma set_active_length b i rs : length (set_active b i rs) = length rs.
Proof. apply length_alter. Qed.

Lemma set_request_length now len i rs : length (set_request now len i rs) = length rs.
Proof. apply length_alter. Qed.

Lemma arr_alter_eq {A} (f : A -> A) l i x : arr l i = Ok x -> arr (alter f (Z.to_nat i) l) i = Ok (f x).
Proof. rewrite !arr_Ok. intros [? H]. split; [done |]. by rewrite list_lookup_alter_eq, H. Qed.

Lemma arr_alter_ne {A} (f : A -> A) l i j x : 0 <= i -> i <> j -> arr (alter f (Z.to_nat i) l) j = Ok x <-> arr l j = Ok x.
Proof. intros. rewrite !arr_Ok. split; (intros [? H']; split; [done |]); rewrite list_lookup_alter_ne in *; done || lia. Qed.

(** What is found after a change at [i]. *)
Lemma arr_alter_inv {A} (f : A -> A) l i j x : 0 <= i -> arr (alter f (Z.to_nat i) l) j = Ok x ->
  (i = j /\ exists x0, arr l i = Ok x0 /\ x = f x0) \/ (i <> j /\ arr l j = Ok x).
Proof.
  intros Hi H. destruct (Z.eq_dec i j) as [<- | Hne].
  - left. split; [done |]. apply arr_Ok in H as [_ H]. rewrite list_lookup_alter_eq in H. apply fmap_Some in H as (x0 & H & ->).
    exists x0. split; [|done]. by apply arr_Ok.
  - right. split; [done |]. by rewrite arr_alter_ne in H.
Qed.

Lemma slots_perm rs own tm tm' : tm ≡ₚ tm' -> slots_inv rs own tm -> slots_inv rs own tm'.
Proof.
  intros E [H1 H2 H3 H4]. constructor.
  - by rewrite <- E.
  - by rewrite <- E.
  - intros i r Hr. rewrite (H3 i r Hr). by rewrite E.
  - by rewrite <- E.
Qed.

Lemma slots_free rs own tm : slots_inv rs own tm -> (length own + length tm < length rs)%nat ->
  exists i r, arr rs i = Ok r /\ ri_active r = false.
Proof.
  intros [H1 H2 H3 _] Hl. destruct (decide (Forall (fun r => ri_active r = true) rs)) as [Ha | Ha].
  - exfalso. assert (length (seqZ 0 (Z.of_nat (length rs))) <= length (own ++ (slot_of <$> tm)))%nat as Hle.
    { apply submseteq_length, NoDup_submseteq; [apply NoDup_seqZ |]. intros i Hi. apply elem_of_seqZ in Hi.
      destruct (arr_some rs i) as [r Hr]; [lia |]. apply (H3 i r Hr). rewrite Forall_lookup in Ha.
      apply arr_Ok in Hr as [_ Hr]. by apply (Ha _ _ Hr). }
    rewrite length_seqZ, length_app, length_fmap in Hle. lia.
  - apply not_Forall_Exists in Ha; [|intros r; apply _]. apply Exists_exists in Ha as (r & Hr & Hn). apply list_elem_of_lookup in Hr as [i Hi].
    exists (Z.of_nat i), r. split; [apply arr_Ok; split; [lia | by rewrite Nat2Z.id] |]. by apply not_true_is_false.
Qed.

Lemma slots_take rs tm slot r : slots_inv rs [] tm -> arr rs slot = Ok r -> ri_active r = false ->
  slots_inv (set_active true slot rs) [slot] tm.
Proof.
  intros [H1 H2 H3 H4] Hr Ha. unfold set_active. pose proof Hr as Hs. apply arr_Ok in Hs as [Hs0 Hs]. apply lookup_lt_Some in Hs.
  assert (slot ∉ slot_of <$> tm) as Hni by (intros Hin; apply (H3 _ _ Hr) in Hin; congruence).
  constructor; rewrite ?length_alter.
  - cbn. constructor; [done | apply H1].
  - constructor; [lia | done].
  - intros i r' Hr'. apply arr_alter_inv in Hr' as [(<- & r0 & _ & ->) | [Hne Hr']]; [| | done].
    + cbn. split; [intros _; by left | done].
    + rewrite (H3 i r' Hr'). cbn. rewrite elem_of_cons. split; [by right | intros [? | ?]; [congruence | done]].
  - apply Forall_forall. intros x Hx. rewrite Forall_forall in H4. destruct (H4 x Hx) as (r' & Hr' & Hst).
    exists r'. split; [|done]. rewrite arr_alter_ne; [done | done |].
    intros ->. apply Hni. by apply list_elem_of_fmap_2.
Qed.

(** The sender gives its slot back. *)
Lemma slots_drop rs tm slot : slots_inv rs [slot] tm -> slots_inv (set_active false slot rs) [] tm.
Proof.
  intros [H1 H2 H3 H4]. unfold set_active. apply NoDup_cons in H1 as [Hni H1]. apply Forall_cons in H2 as [Hs H2].
  constructor; rewrite ?length_alter; try done.
  - intros i r' Hr'. apply arr_alter_inv in Hr' as [(<- & r0 & _ & ->) | [Hne Hr']]; [| | lia].
    + cbn. split; [done | intros Hin; by destruct Hni].
    + rewrite (H3 i r' Hr'). cbn. rewrite elem_of_cons. split; [intros [? | ?]; [congruence | done] | by right].
  - apply Forall_forall. intros x Hx. rewrite Forall_forall in H4. destruct (H4 x Hx) as (r' & Hr' & Hst).
    exists r'. split; [|done]. rewrite arr_alter_ne; [done | lia |]. intros ->. apply Hni. by apply list_elem_of_fmap_2.
Qed.

(** The sender fills in its slot and sends. *)
Lemma slots_send rs tm slot now len h : slots_inv rs [slot] tm -> mh_msg_id h = slot ->
  slots_inv (set_request now len slot rs) [] ((now, h) :: tm).
Proof.
  intros [H1 H2 H3 H4] <-. unfold set_request. pose proof H1 as H1'. apply NoDup_cons in H1' as [Hni _]. pose proof H2 as H2'. apply Forall_cons in H2' as [Hs _].
  constructor; rewrite ?length_alter; try done.
  - intros i r' Hr'. apply arr_alter_inv in Hr' as [(<- & r0 & Hr0 & ->) | [Hne Hr']]; [| | lia].
    + apply (H3 _ _ Hr0).
    + apply (H3 i r' Hr').
  - constructor.
    + destruct (arr_some rs (mh_msg_id h) Hs) as [r Hr]. eexists. split; [apply (arr_alter_eq _ _ _ _ Hr) | done].
    + apply Forall_forall. intros x Hx. rewrite Forall_forall in H4. destruct (H4 x Hx) as (r' & Hr' & Hst).
      exists r'. split; [|done]. rewrite arr_alter_ne; [done | lia |]. intros E. apply Hni. unfold slot_of in E. rewrite E. by apply (list_elem_of_fmap_2 slot_of).
Qed.

(** A receiver gives the slot of a response back. *)
Lemma slots_claim rs own t h tm : slots_inv rs own ((t, h) :: tm) ->
  slots_inv (set_active false (mh_msg_id h) rs) own tm /\
  exists r, arr rs (mh_msg_id h) = Ok r /\ ri_active r = true /\ ri_start_time r = t.
Proof.
  intros [H1 H2 H3 H4]. unfold set_active. cbn in *. apply Forall_cons in H4 as [(r & Hr & Hst) H4]. unfold slot_of in Hr. cbn in Hr, Hst.
  rewrite <- Permutation_middle in H1, H2. apply NoDup_cons in H1 as [Hni H1]. apply Forall_cons in H2 as [Hs H2]. cbn in *.
  split.
  - constructor; rewrite ?length_alter; try done.
    + intros i r' Hr'. apply arr_alter_inv in Hr' as [(<- & r0 & _ & ->) | [Hne Hr']]; [| | apply Hs].
      * cbn. split; [done | intros Hin; by destruct Hni].
      * rewrite (H3 i r' Hr'). rewrite <- Permutation_middle, elem_of_cons. split; [intros [E | ?]; [exfalso; apply Hne; by rewrite E | done] | by right].
    + apply Forall_forall. intros x Hx. rewrite Forall_forall in H4. destruct (H4 x Hx) as (r' & Hr' & Hst').
      exists r'. split; [|done]. rewrite arr_alter_ne; [done | apply Hs |]. intros E. apply Hni. unfold slot_of at 1. cbn. rewrite E.
      apply elem_of_app. right. by apply list_elem_of_fmap_2.
  - exists r. split_ands; try done. apply (H3 _ _ Hr). rewrite <- Permutation_middle. by left.
Qed.

(** *** Steps *)

(** The fields that [counts_inv], [hdr_ok] and [shape] look at, [cl_rinfos] and
    [cl_last_rinfo] apart. *)
Lemma counts_rinfos s pc req n dn rs last :
  counts_inv s pc req n dn -> counts_inv (s <| cl_rinfos := rs |> <| cl_last_rinfo := last |>) pc req n dn.
Proof. intros [H1 H2 H3 H4 H5 H6 H7 H8]. by constructor. Qed.

Lemma counts_perm s pc req req' n dn : req ≡ₚ req' -> counts_inv s pc req n dn -> counts_inv s pc req' n dn.
Proof.
  intros E [H1 H2 H3 H4 H5 H6 H7 H8]. constructor; try done; [by rewrite <- E |].
  intros i k Hk. rewrite <- (count_srv_perm _ _ _ _ E). by apply H5.
Qed.

Lemma counts_pc s pc pc' req n dn : uncounted pc = 0 -> uncounted pc' = 0 -> counts_inv s pc req n dn -> counts_inv s pc' req n dn.
Proof. intros E E' [H1 H2 H3 H4 H5 H6 H7 H8]. constructor; try done; destruct pc, pc'; done. Qed.

Lemma shape_rinfos cfg s rs last :
  shape cfg s -> length rs = length (cl_rinfos s) -> 0 <= last < Z.of_nat (length rs) ->
  shape cfg (s <| cl_rinfos := rs |> <| cl_last_rinfo := last |>).
Proof. intros [H1 H2 H3 H4] E Hl. constructor; cbn; rewrite ?E in *; done. Qed.

Lemma stats_perm a r r' d : r ≡ₚ r' -> stats_inv a r d -> stats_inv a r' d.
Proof.
  intros E [H1 H2 H3]. constructor; [by rewrite <- E | | done]. eapply Forall_impl; [rewrite <- E; apply H2 |]. intros it. cbn. by rewrite E.
Qed.

Lemma step_get cfg y :
  config_ok cfg -> Z.of_nat (length (y_rcv y)) <= cc_port_max cfg + 3 -> cl_inv cfg y -> exists y', cl_step cfg EvGet y = Ok y' /\ cl_inv cfg y'.
Proof.
  intros Hc Hr [Hsh Hh Hsl Hct Hcl Hst Hb Hpc Hids]. cbn [cl_step]. destruct (y_pc y) eqn:Epc; try (exists y; split; [done |]; by constructor; rewrite ?Epc).
  pose proof (sh_rinfos _ _ Hsh) as Hn.
  assert (length (counted y) <= length (y_rcv y))%nat as Hcn.
  { unfold counted. clear. induction (y_rcv y) as [|pc l IH]; [done |]. rewrite fmap_cons. cbn [concat length]. rewrite length_app. destruct pc; cbn; lia. }
  destruct (slots_free _ _ _ Hsl) as (i & r & Hi & Ha); [unfold timed; cbn; rewrite length_app, length_fmap; lia |].
  destruct (get_rinfo_spec (y_cl y) i (sh_last _ _ Hsh)) as (slot & Hg & r' & Hi' & Ha'); [by exists r |].
  rewrite Hg. cbn [result_bind]. eexists. split; [reflexivity |].
  assert (0 <= slot < Z.of_nat (length (cl_rinfos (y_cl y)))) as Hsr by (apply arr_Ok in Hi' as [? Hi']; apply lookup_lt_Some in Hi'; lia).
  constructor; cbn; try done.
  - apply (shape_rinfos cfg (y_cl y) (set_active true slot (cl_rinfos (y_cl y))) slot Hsh); unfold set_active; by rewrite length_alter.
  - by apply (slots_take _ _ slot r').
  - apply (counts_pc _ SIdle); [done | done |]. by apply (counts_rinfos (y_cl y)).
Qed.

Lemma step_exit cfg y : cl_inv cfg y -> exists y', cl_step cfg EvExit y = Ok y' /\ cl_inv cfg y'.
Proof.
  intros [Hsh Hh Hsl Hct Hcl Hst Hb Hpc Hids]. cbn [cl_step]. destruct (y_pc y) eqn:Epc; try (exists y; split; [done |]; by constructor; rewrite ?Epc).
  pose proof (sl_range _ _ _ Hsl) as Hs. apply Forall_cons in Hs as [Hs _]. destruct (arr_some _ _ Hs) as [r Hr].
  unfold drop_slot. rewrite (bind_eq get_cl _ _ _ _ eq_refl), Hr, (bind_eq (lift (Ok r)) _ _ _ _ eq_refl).
  rewrite (arr_set_alter _ _ _ (fun r => r <| ri_active := false |>) Hr). eexists. split; [reflexivity |].
  constructor; cbn; try done.
  - apply (shape_rinfos cfg (y_cl y) (set_active false slot (cl_rinfos (y_cl y))) (cl_last_rinfo (y_cl y)) Hsh); unfold set_active; rewrite length_alter; [done | apply (sh_last _ _ Hsh)].
  - by apply slots_drop.
  - apply (counts_pc _ (SWaiting slot)); [done | done |]. by apply (counts_rinfos (y_cl y) _ _ _ _ _ (cl_last_rinfo (y_cl y))).
Qed.

Lemma response_cid h : mh_cid (response h) = mh_cid h /\ mh_msg_id (response h) = mh_msg_id h.
Proof. unfold response. by destruct (_ && _). Qed.

Lemma make_request_spec cfg s slot now srv len :
  shape cfg s -> config_ok cfg -> 0 <= slot < Z.of_nat (length (cl_rinfos s)) -> 0 <= srv < Z.of_nat (length (cl_server_conns s)) ->
  exists h l, make_request cfg slot now srv len s =
      Ok (h, s <| cl_rinfos := set_request now l slot (cl_rinfos s) |>) /\
    mh_msg_id h = slot /\ hdr_ok s h /\ srv_index s h = srv.
Proof.
  intros Hsh Hc Hs Hv. unfold make_request. rewrite (bind_eq get_cl _ _ _ _ eq_refl). cbv zeta.
  set (l := if _ <? sizeof_header then _ else _). destruct (arr_some _ _ Hs) as [r Hr]. rewrite Hr, (bind_eq (lift (Ok r)) _ _ _ _ eq_refl).
  rewrite (arr_set_alter _ _ _ (fun r => r <| ri_start_time := now |> <| ri_request_length := l |>) Hr).
  rewrite (bind_eq (lift (Ok _)) _ _ _ _ eq_refl), (bind_eq (upd_cl _) _ _ _ _ eq_refl).
  destruct (arr_some _ _ Hv) as [c Hcn]. rewrite Hcn, (bind_eq (lift (Ok c)) _ _ _ _ eq_refl).
  apply arr_Ok in Hcn as [_ Hcn]. destruct (sh_table _ _ Hsh _ _ Hcn) as (f & Hf & Hf0 & Hp & Hi & Hfr). rewrite Z2Nat.id in Hi by lia.
  cbn [server]. destruct (arr_some _ _ Hfr) as [fr Hfe]. rewrite Hfe, (bind_eq (lift (Ok fr)) _ _ _ _ eq_refl).
  pose proof (sh_rinfos _ _ Hsh) as Hn. pose proof (co_max _ Hc) as Hm.
  eexists _, l. split; [reflexivity |]. unfold hdr_ok, srv_index. cbn. rewrite Hf. split_ands; [apply u32_id; unfold is_u32; lia | | lia].
  exists f. split_ands; try done; lia.
Qed.

(** One more request. *)
Lemma counts_send s slot req n dn h srv now next_start :
  srv_index s h = srv -> counts_inv s (SWaiting slot) req n dn -> counts_inv s (SSent srv now next_start) (req ++ [h]) n dn.
Proof.
  intros Hi [H1 H2 H3 H4 H5 H6 H7 H8]. constructor; try done; cbn [uncounted sent_to] in *.
  - rewrite length_app. cbn. rewrite H1. f_equal. lia.
  - intros i k Hk. rewrite count_srv_app, count_srv_one, Hi. rewrite (H5 i k Hk). f_equal. lia.
Qed.

Lemma step_send cfg y now next_start srv len :
  config_ok cfg -> event_ok cfg (EvSend now next_start srv len) -> cl_inv cfg y ->
  exists y', cl_step cfg (EvSend now next_start srv len) y = Ok y' /\ cl_inv cfg y'.
Proof.
  intros Hc He Hinv. pose proof Hinv as [Hsh Hh Hsl Hct Hcl Hst Hb Hpc Hids]. cbn [cl_step].
  destruct (y_pc y) eqn:Epc; try (exists y; by split). destruct ((next_start <=? now) && may_send cfg (y_cl y)) eqn:Em; [|exists y; by split].
  apply andb_true_iff in Em as [_ Em]. unfold may_send in Em. apply Z.ltb_lt in Em.
  pose proof (sl_range _ _ _ Hsl) as Hs. apply Forall_cons in Hs as [Hs _]. cbn in Hs.
  cbn in He. rewrite <- (sh_conns _ _ Hsh) in He. destruct (make_request_spec cfg (y_cl y) slot now srv len Hsh Hc Hs He) as (h & l & Hmk & Hid & Hok & Hix).
  rewrite Hmk. cbn [result_bind]. eexists. split; [reflexivity |]. set (h' := response h).
  destruct (response_cid h) as [Rc Ri]. fold h' in Rc, Ri.
  assert (hdr_ok (y_cl y) h' /\ srv_index (y_cl y) h' = srv) as [Hok' Hix'] by (unfold hdr_ok, srv_index in *; by rewrite Rc).
  set (y' := y <| y_cl := _ |> <| y_pc := _ |> <| y_net ::= _ |>).
  assert (requested y' ≡ₚ requested y ++ [h']) as Er.
  { unfold requested, y'. cbn. rewrite fmap_app. cbn. rewrite <- !app_assoc. f_equiv. apply Permutation_app_comm. }
  assert (timed y' ≡ₚ (now, h') :: timed y) as Et.
  { unfold timed, y'. cbn. rewrite <- app_assoc. symmetry. apply Permutation_middle. }
  constructor; try done.
  - apply (shape_rinfos cfg (y_cl y) (set_request now l slot (cl_rinfos (y_cl y))) (cl_last_rinfo (y_cl y)) Hsh); rewrite set_request_length; [done | apply (sh_last _ _ Hsh)].
  - rewrite Er. apply Forall_app. split; [done | by constructor].
  - eapply slots_perm; [symmetry; apply Et |]. cbn. apply slots_send; [done |]. by rewrite Ri.
  - eapply counts_perm; [symmetry; apply Er |]. apply (counts_rinfos (y_cl y) _ _ _ _ _ (cl_last_rinfo (y_cl y))). by apply (counts_send _ slot).
  - rewrite (ct_requests _ _ _ _ _ Hct), (ct_responses _ _ _ _ _ Hct) in Em. cbn [uncounted] in Em.
    unfold u64 in Em. rewrite <- Zminus_mod in Em. unfold requested in Em. rewrite length_app, !length_fmap in Em.
    unfold y'. cbn. rewrite length_app. cbn. pose proof (co_max _ Hc). rewrite Z.mod_small in Em; lia.
  - rewrite Er. apply Forall_app. split; [done |]. constructor; [|done]. rewrite Ri, Hid, <- (sh_rinfos _ _ Hsh). done.
Qed.

Lemma step_count cfg y : cl_inv cfg y -> exists y', cl_step cfg EvCount y = Ok y' /\ cl_inv cfg y'.
Proof.
  intros Hinv. pose proof Hinv as [Hsh Hh Hsl Hct Hcl Hst Hb Hpc Hids]. cbn [cl_step].
  destruct (y_pc y) eqn:Epc; try (exists y; by split). destruct Hct as [H1 H2 H3 H4 H5 H6 H7 H8].
  unfold count_sent. rewrite (bind_eq get_cl _ _ _ _ eq_refl). rewrite <- H3 in Hpc. destruct (arr_some _ _ Hpc) as [n Hn].
  rewrite Hn, (bind_eq (lift (Ok n)) _ _ _ _ eq_refl). rewrite (arr_set_alter _ _ _ (fun n => u64 (n + 1)) Hn).
  rewrite (bind_eq (lift (Ok _)) _ _ _ _ eq_refl). eexists. split; [reflexivity |].
  set (y' := y <| y_cl := _ |> <| y_pc := _ |>). assert (requested y' = requested y) as Er by done.
  constructor; try done; [by destruct Hsh |]. rewrite Er. constructor; try done.
  - cbn -[requested]. rewrite H1, u64_add_l. f_equal. cbn -[requested]. lia.
  - cbn -[alter]. by rewrite length_alter.
  - intros i k Hk. cbn -[alter] in Hk. apply arr_Ok in Hn as [_ Hn]. cbn [sent_to] in H5. cbn [sent_to y_pc y'].
    change (count_srv (y_cl y') i (requested y)) with (count_srv (y_cl y) i (requested y)).
    change (sent_to (y_pc y') i) with 0. destruct (decide (i = Z.to_nat srv)) as [-> | Hne].
    + rewrite list_lookup_alter_eq, Hn in Hk. injection Hk as <-. rewrite (H5 _ _ Hn), u64_add_l, Z2Nat.id, Z.eqb_refl by lia.
      f_equal. cbn -[count_srv]. lia.
    + rewrite list_lookup_alter_ne in Hk by done. rewrite (H5 _ _ Hk). destruct (Z.eqb_spec srv (Z.of_nat i)); [lia | done].
Qed.

Lemma counts_receive s pc req n dn :
  counts_inv s pc req n dn -> counts_inv (s <| cl_total_responses ::= fun n => u64 (n + 1) |>) pc req (S n) dn.
Proof.
  intros [H1 H2 H3 H4 H5 H6 H7 H8]. constructor; try done. cbn. rewrite H2, u64_add_l. f_equal. lia.
Qed.

(** The next slot of the circular buffers is not in use. *)
Lemma stats_receive a rcvd dn it :
  it_slot it = Z.of_nat (length rcvd) -> stats_inv a rcvd dn -> stats_inv a (it :: rcvd) dn.
Proof.
  intros E [H1 H2 H3]. constructor; [|constructor | done]; cbn.
  - constructor; [|done]. intros Hin. apply list_elem_of_fmap in Hin as (it' & Heq & Hin'). rewrite Forall_forall in H2. specialize (H2 _ Hin'). lia.
  - lia.
  - eapply Forall_impl; [apply H2 |]. cbn. lia.
Qed.

Lemma step_recv cfg y i k end_time : cl_inv cfg y -> exists y', cl_step cfg (EvRecv i k end_time) y = Ok y' /\ cl_inv cfg y'.
Proof.
  intros Hinv. pose proof Hinv as [Hsh Hh Hsl Hct Hcl Hst Hb Hpc Hids]. cbn [cl_step].
  destruct (y_rcv y !! i) as [[]|] eqn:Ei; try (exists y; by split). destruct (y_net y !! k) as [[t h]|] eqn:Ek; [|exists y; by split].
  eexists. split; [reflexivity |]. set (it := Build_item t end_time h _). set (y' := y <| y_cl := _ |> <| y_net ::= _ |> <| y_rcv ::= _ |>).
  pose proof (counted_insert y i _ (RCounted it) Ei) as Ec. pose proof (claimed_insert y i _ (RCounted it) Ei) as El.
  cbn [counted_of claimed_of] in Ec, El. rewrite !app_nil_r in El. rewrite app_nil_r, <- Permutation_cons_append in Ec.
  change (counted y' ≡ₚ it :: counted y) in Ec. change (claimed y' ≡ₚ claimed y) in El.
  pose proof (delete_Permutation _ _ _ Ek) as Ed. change (delete k (y_net y)) with (y_net y') in Ed.
  assert (received y' ≡ₚ it :: received y) as Er by (unfold received; rewrite Ec, El; done).
  assert (requested y' ≡ₚ requested y) as Eq by (unfold requested; rewrite Er, Ed; cbn; by rewrite <- Permutation_middle).
  assert (timed y' ≡ₚ timed y) as Et by (unfold timed; rewrite Ec, Ed; cbn; by rewrite <- Permutation_middle).
  constructor.
  - by destruct Hsh.
  - by rewrite Eq.
  - eapply slots_perm; [symmetry; apply Et | done].
  - eapply counts_perm; [symmetry; apply Eq |]. rewrite Er. cbn [length]. by apply counts_receive.
  - by rewrite El.
  - intros Hn. rewrite Er in Hn. cbn [length] in Hn. eapply stats_perm; [symmetry; apply Er |]. apply stats_receive; [|apply Hst; lia].
    cbn. rewrite (ct_responses _ _ _ _ _ Hct), u64_id by (unfold is_u64, NUM_CLIENT_STATS in *; lia). apply Z.mod_small. unfold NUM_CLIENT_STATS in *. lia.
  - rewrite Ed in Hb. cbn [length] in Hb. lia.
  - done.
  - by rewrite Eq.
Qed.

Lemma rec_claim_spec s end_time h r :
  arr (cl_rinfos s) (mh_msg_id h) = Ok r -> ri_active r = true ->
  rec_claim end_time h s = Ok (Some (u64 (end_time - ri_start_time r)), s <| cl_rinfos := set_active false (mh_msg_id h) (cl_rinfos s) |>).
Proof.
  intros Hr Ha. unfold rec_claim. rewrite (bind_eq get_cl _ _ _ _ eq_refl). pose proof Hr as Hl. apply arr_Ok in Hl as [? Hl]. apply lookup_lt_Some in Hl.
  destruct (Z.geb_spec (mh_msg_id h) (Z.of_nat (length (cl_rinfos s)))); [lia |].
  rewrite Hr, (bind_eq (lift (Ok r)) _ _ _ _ eq_refl), Ha. cbn [negb].
  by rewrite (arr_set_alter _ _ _ (fun r => r <| ri_active := false |>) Hr).
Qed.

Lemma step_claim cfg y i : cl_inv cfg y -> exists y', cl_step cfg (EvClaim i) y = Ok y' /\ cl_inv cfg y'.
Proof.
  intros Hinv. pose proof Hinv as [Hsh Hh Hsl Hct Hcl Hst Hb Hpc Hids]. cbn [cl_step].
  destruct (y_rcv y !! i) as [[| it |]|] eqn:Ei; try (exists y; by split).
  pose proof (counted_insert y i _ (RClaimed it (item_rtt it)) Ei) as Ec. pose proof (claimed_insert y i _ (RClaimed it (item_rtt it)) Ei) as El.
  cbn [counted_of claimed_of] in Ec, El. rewrite app_nil_r, <- Permutation_cons_append in Ec, El.
  set (cnt := concat (counted_of <$> _)) in Ec. set (clm := concat (claimed_of <$> _)) in El.
  assert (timed y ≡ₚ (it_start it, it_hdr it) :: (y_net y ++ ((fun it => (it_start it, it_hdr it)) <$> cnt))) as Et
    by (unfold timed; rewrite <- Ec; cbn; by rewrite Permutation_middle).
  pose proof (slots_perm _ _ _ _ Et Hsl) as Hsl'. apply slots_claim in Hsl' as (Hsl' & r & Hr & Ha & Hstart).
  rewrite (rec_claim_spec _ _ _ r Hr Ha), Hstart. cbn [result_bind]. fold (item_rtt it). eexists. split; [reflexivity |].
  set (y' := y <| y_cl := _ |> <| y_rcv ::= _ |>).
  change cnt with (counted y') in *. change clm with (claimed y') in *.
  assert (received y' ≡ₚ received y) as Er by (unfold received; rewrite <- Ec, El; cbn; by rewrite <- Permutation_middle).
  assert (requested y' ≡ₚ requested y) as Eq by (unfold requested; by rewrite Er).
  constructor; try done.
  - apply (shape_rinfos cfg (y_cl y) (set_active false (mh_msg_id (it_hdr it)) (cl_rinfos (y_cl y))) (cl_last_rinfo (y_cl y)) Hsh); rewrite set_active_length; [done | apply (sh_last _ _ Hsh)].
  - by rewrite Eq.
  - eapply counts_perm; [symmetry; apply Eq |]. rewrite Er. by apply (counts_rinfos (y_cl y) _ _ _ _ _ (cl_last_rinfo (y_cl y))).
  - rewrite El. by constructor.
  - intros Hn. rewrite Er in Hn. eapply stats_perm; [symmetry; apply Er |]. by apply Hst.
  - by rewrite Eq.
Qed.

(** [kfreeze] and the flag of the node aside, freezing changes nothing. *)
Lemma rec_freeze_spec ioctl h rtt s :
  0 <= server (mh_cid h) < Z.of_nat (length (cl_freeze s)) ->
  exists fr fz, rec_freeze ioctl h rtt s = Ok (tt, s <| cl_freeze := fr |> <| cl_freezer := fz |>) /\ length fr = length (cl_freeze s).
Proof.
  intros Hl. unfold rec_freeze. rewrite (bind_eq get_cl _ _ _ _ eq_refl). destruct (_ && _ && _ && _).
  - destruct (arr_some _ _ Hl) as [x Hx]. rewrite (arr_set_alter _ _ _ (fun _ => 1) Hx). eexists _, _. split; [reflexivity |]. apply length_alter.
  - exists (cl_freeze s), (cl_freezer s). split; [by destruct s | done].
Qed.

Lemma rec_stats_spec ioctl h slot rtt s :
  hdr_ok s h -> length (cl_responses s) = length (cl_server_conns s) -> 0 <= mh_msg_id h < Z.of_nat (length (cl_rinfos s)) ->
  exists fr fz bytes, length fr = length (cl_freeze s) /\ rec_stats ioctl h slot rtt s =
    Ok (tt, s <| cl_freeze := fr |> <| cl_freezer := fz |>
       <| cl_responses := alter (fun n => u64 (n + 1)) (Z.to_nat (srv_index s h)) (cl_responses s) |>
       <| cl_request_bytes := bytes |> <| cl_response_bytes ::= fun n => u64 (n + mh_length h) |> <| cl_total_rtt ::= fun n => u64 (n + rtt) |>
       <| cl_actual ::= insert slot (mh_length h, rtt) |>).
Proof.
  intros (f & Hf & Hf0 & Hi & Hs) Hl Hm. destruct (rec_freeze_spec ioctl h rtt s Hs) as (fr & fz & Hfz & Hlen).
  unfold rec_stats. rewrite (bind_eq _ _ _ _ _ Hfz), (bind_eq get_cl _ _ _ _ eq_refl).
  unfold srv_index. change (cl_first_id (s <| cl_freeze := fr |> <| cl_freezer := fz |>)) with (cl_first_id s).
  rewrite Hf, (bind_eq (lift (Ok f)) _ _ _ _ eq_refl). destruct (Z.eqb_spec f (-1)) as [? | _]; [lia |].
  change (cl_responses (s <| cl_freeze := fr |> <| cl_freezer := fz |>)) with (cl_responses s).
  change (cl_rinfos (s <| cl_freeze := fr |> <| cl_freezer := fz |>)) with (cl_rinfos s).
  rewrite <- Hl in Hi. destruct (arr_some _ _ Hi) as [n Hn]. rewrite Hn, (bind_eq (lift (Ok n)) _ _ _ _ eq_refl).
  rewrite (arr_set_alter _ _ _ (fun n => u64 (n + 1)) Hn), (bind_eq (lift (Ok _)) _ _ _ _ eq_refl).
  destruct (arr_some _ _ Hm) as [r Hr]. rewrite Hr, (bind_eq (lift (Ok r)) _ _ _ _ eq_refl).
  exists fr, fz, (u64 (cl_request_bytes s + ri_request_length r)). by split.
Qed.

(** The state after the statistics of a response. *)
Definition after_record (fr : list Z) (fz : freezer) (bytes : Z) (it : item) (s : client_state) : client_state :=
  s <| cl_freeze := fr |> <| cl_freezer := fz |>
    <| cl_responses := alter (fun n => u64 (n + 1)) (Z.to_nat (srv_index s (it_hdr it))) (cl_responses s) |>
    <| cl_request_bytes := bytes |> <| cl_response_bytes ::= fun n => u64 (n + mh_length (it_hdr it)) |>
    <| cl_total_rtt ::= fun n => u64 (n + item_rtt it) |> <| cl_actual ::= insert (it_slot it) (mh_length (it_hdr it), item_rtt it) |>.

Lemma counts_recorded s pc req n dn fr fz bytes it :
  0 <= srv_index s (it_hdr it) -> counts_inv s pc req n dn -> counts_inv (after_record fr fz bytes it s) pc req n (it :: dn).
Proof.
  intros Hi [H1 H2 H3 H4 H5 H6 H7 H8]. constructor; try done.
  - unfold after_record. cbn -[alter]. by rewrite length_alter.
  - intros i k Hk. change (count_srv (after_record fr fz bytes it s) i) with (count_srv s i). rewrite fmap_cons.
    change (it_hdr it :: (it_hdr <$> dn)) with ([it_hdr it] ++ (it_hdr <$> dn)). rewrite count_srv_app, count_srv_one.
    change (cl_responses (after_record fr fz bytes it s)) with (alter (fun n => u64 (n + 1)) (Z.to_nat (srv_index s (it_hdr it))) (cl_responses s)) in Hk.
    destruct (decide (i = Z.to_nat (srv_index s (it_hdr it)))) as [-> | Hne].
    + rewrite list_lookup_alter_eq in Hk. apply fmap_Some in Hk as (k0 & Hk & ->). rewrite (H6 _ _ Hk), u64_add_l, Z2Nat.id, Z.eqb_refl by done.
      f_equal. cbn -[count_srv]. lia.
    + rewrite list_lookup_alter_ne in Hk by done. destruct (Z.eqb_spec (srv_index s (it_hdr it)) (Z.of_nat i)); [lia |]. by apply H6.
  - change (u64 (cl_total_rtt s + item_rtt it) = u64 (item_rtt it + total (item_rtt <$> dn))). rewrite H7, u64_add_l. f_equal. lia.
  - change (u64 (cl_response_bytes s + mh_length (it_hdr it)) = u64 (mh_length (it_hdr it) + total (mh_length ∘ it_hdr <$> dn))).
    rewrite H8, u64_add_l. f_equal. lia.
Qed.

Lemma stats_recorded a rcvd l dn it :
  rcvd ≡ₚ it :: l ++ dn -> stats_inv a rcvd dn -> stats_inv (<[it_slot it := (mh_length (it_hdr it), item_rtt it)]> a) rcvd (it :: dn).
Proof.
  intros E [H1 H2 H3]. constructor; [done | done |]. constructor; [apply lookup_insert_eq |].
  rewrite E, fmap_cons, fmap_app in H1. apply NoDup_cons in H1 as [Hni _]. apply Forall_forall. intros it' Hin.
  rewrite lookup_insert_ne; [by rewrite Forall_forall in H3; apply H3 |]. intros Heq. apply Hni. rewrite Heq.
  apply elem_of_app. right. by apply list_elem_of_fmap_2.
Qed.

Lemma step_stats cfg y i ioctl : cl_inv cfg y -> exists y', cl_step cfg (EvStats i ioctl) y = Ok y' /\ cl_inv cfg y'.
Proof.
  intros Hinv. pose proof Hinv as [Hsh Hh Hsl Hct Hcl Hst Hb Hpc Hids]. cbn [cl_step].
  destruct (y_rcv y !! i) as [[| | it rtt]|] eqn:Ei; try (exists y; by split).
  pose proof (counted_insert y i _ RIdle Ei) as Ec. pose proof (claimed_insert y i _ RIdle Ei) as El.
  cbn [counted_of claimed_of] in Ec, El. rewrite !app_nil_r in Ec. rewrite app_nil_r, <- Permutation_cons_append in El.
  pose proof Hcl as Hcl'. rewrite <- El in Hcl'. apply Forall_cons in Hcl' as [Ertt Hcl']. cbn in Ertt. subst rtt.
  assert (received y ≡ₚ it :: counted y ++ (concat (claimed_of <$> <[i:=RIdle]> (y_rcv y))).*1 ++ y_done y) as Er0
    by (unfold received; rewrite <- El; cbn; by rewrite <- Permutation_middle).
  assert (it_hdr it ∈ requested y) as Hin.
  { unfold requested. rewrite Er0, fmap_cons. apply elem_of_app. right. by left. }
  rewrite Forall_forall in Hids. pose proof (Hids _ Hin) as Hid. rewrite <- (sh_rinfos _ _ Hsh) in Hid.
  pose proof Hh as Hok. rewrite Forall_forall in Hok. specialize (Hok _ Hin).
  destruct (rec_stats_spec ioctl (it_hdr it) (it_slot it) (item_rtt it) (y_cl y) Hok (ct_resp_len _ _ _ _ _ Hct) Hid) as (fr & fz & bytes & Hfr & Hrun).
  fold (after_record fr fz bytes it (y_cl y)) in Hrun. rewrite Hrun. cbn [result_bind]. eexists. split; [reflexivity |].
  set (y' := y <| y_cl := _ |> <| y_rcv ::= _ |> <| y_done ::= _ |>).
  change (counted y' ≡ₚ counted y) in Ec. change (concat (claimed_of <$> _)) with (claimed y') in *.
  assert (received y' ≡ₚ received y) as Er by (rewrite Er0; unfold received; rewrite Ec; cbn; by rewrite app_assoc, <- Permutation_middle, <- app_assoc).
  assert (requested y' ≡ₚ requested y) as Eq by (unfold requested; by rewrite Er).
  assert (timed y' ≡ₚ timed y) as Et by (unfold timed; by rewrite Ec).
  assert (0 <= srv_index (y_cl y) (it_hdr it)) as Hix by (destruct Hok as (f & Hf & _ & ? & _); unfold srv_index; rewrite Hf; lia).
  constructor; try done.
  - destruct Hsh as [Ht H1 H2 H3]. constructor; try done. intros j c Hj. destruct (Ht j c Hj) as (f & ? & ? & ? & ? & ?). exists f. cbn. rewrite Hfr. done.
  - rewrite Eq. eapply Forall_impl; [apply Hh |]. intros h (f & ? & ? & ? & ?). exists f. cbn. rewrite Hfr. done.
  - eapply slots_perm; [symmetry; apply Et | done].
  - eapply counts_perm; [symmetry; apply Eq |]. rewrite Er. by apply counts_recorded.
  - intros Hn. rewrite Er in Hn. eapply stats_perm; [symmetry; apply Er |]. eapply stats_recorded; [|by apply Hst].
    rewrite Er0. f_equiv. by rewrite app_assoc.
  - rewrite Eq. by apply Forall_forall.
Qed.

Lemma cl_step_spec cfg ev y :
  config_ok cfg -> Z.of_nat (length (y_rcv y)) <= cc_port_max cfg + 3 -> event_ok cfg ev -> cl_inv cfg y ->
  exists y', cl_step cfg ev y = Ok y' /\ cl_inv cfg y'.
Proof.
  intros Hc Hr He Hi. destruct ev; [by apply step_get | by apply step_exit | by apply step_send | by apply step_count | by apply step_recv |
    by apply step_claim | by apply step_stats].
Qed.

(** The number of receiving threads does not change. *)
Lemma cl_step_rcv cfg ev y y' : cl_step cfg ev y = Ok y' -> length (y_rcv y') = length (y_rcv y).
Proof.
  destruct ev; cbn [cl_step]; intros H; repeat (case_match; try (by injection H as <-));
    apply result_bind_Ok in H as ([? ?] & _ & H); injection H as <-; cbn -[insert]; by rewrite ?length_insert.
Qed.

Lemma cl_run_spec cfg evs : forall y, config_ok cfg -> Z.of_nat (length (y_rcv y)) <= cc_port_max cfg + 3 ->
  Forall (event_ok cfg) evs -> cl_inv cfg y -> exists y', cl_run cfg evs y = Ok y' /\ cl_inv cfg y'.
Proof.
  induction evs as [|ev evs IH]; intros y Hc Hr He Hi; [by exists y |]. apply Forall_cons in He as [He Hes].
  destruct (cl_step_spec cfg ev y Hc Hr He Hi) as (y1 & Hs & Hi1). cbn [cl_run]. rewrite Hs. cbn [result_bind].
  apply IH; try done. by rewrite (cl_step_rcv _ _ _ _ Hs).
Qed.

(** Receivers that wait have nothing. *)
Lemma concat_idle {B} (g : receiver_pc -> list B) l : g RIdle = [] -> Forall (eq RIdle) l -> concat (g <$> l) = [].
Proof. intros E. induction 1 as [|? l <- _ IH]; [done |]. rewrite fmap_cons. cbn [concat]. by rewrite E, IH. Qed.

Lemma idle_lists y : Forall (eq RIdle) (y_rcv y) -> counted y = [] /\ claimed y = [].
Proof. intros H. split; by apply concat_idle. Qed.

Lemma new_sys_inv cfg y :
  shape cfg (y_cl y) -> Forall (eq RIdle) (y_rcv y) -> config_ok cfg -> y_net y = [] -> y_done y = [] -> y_pc y = SIdle ->
  Forall (fun r => ri_active r = false) (cl_rinfos (y_cl y)) -> cl_total_requests (y_cl y) = 0 -> cl_total_responses (y_cl y) = 0 ->
  cl_requests (y_cl y) = replicate (length (cl_server_conns (y_cl y))) 0 -> cl_responses (y_cl y) = replicate (length (cl_server_conns (y_cl y))) 0 ->
  cl_total_rtt (y_cl y) = 0 -> cl_response_bytes (y_cl y) = 0 -> cl_inv cfg y.
Proof.
  intros Hsh Hi Hc En Ed Ep Ha E1 E2 E3 E4 E5 E6. destruct (idle_lists y Hi) as [Ec El]. pose proof (co_max _ Hc).
  assert (received y = []) as Er by (unfold received; by rewrite Ec, El, Ed).
  assert (requested y = []) as Eq by (unfold requested; by rewrite Er, En).
  assert (timed y = []) as Et by (unfold timed; by rewrite Ec, En).
  constructor; rewrite ?Er, ?Eq, ?Et, ?El, ?Ed, ?Ep, ?En; cbn; try done; try lia; [| |by repeat constructor].
  - constructor; cbn; try constructor; [|by intros []%elem_of_nil]. intros Hr. apply arr_Ok in H0 as [_ Hl]. rewrite Forall_lookup in Ha. by rewrite (Ha _ _ Hl) in Hr.
  - constructor; try done; rewrite ?E3, ?E4, ?length_replicate; try done; intros i k Hk; by apply lookup_replicate in Hk as [-> _].
Qed.

(** A new client satisfies the invariant. *)
Lemma new_client_inv resolves cfg id f debug n :
  config_ok cfg -> Forall (fun node => node <> cc_node_id cfg -> resolves node = true) (cc_server_ids cfg) ->
  exists c, new_client resolves cfg id f debug = Ok c /\ cl_inv cfg (new_sys n c).
Proof.
  intros Hc Hres. unfold new_client. assert (forallb (fun node => (node =? cc_node_id cfg) || resolves node) (cc_server_ids cfg) = true) as ->.
  { apply forallb_forall. intros node Hin. apply list_elem_of_In in Hin. rewrite Forall_forall in Hres. specialize (Hres _ Hin). cbn in Hres.
    destruct (Z.eqb_spec node (cc_node_id cfg)); [done |]. by apply Hres. }
  pose proof (client_tables_ok cfg Hc) as Ht. destruct (tables cfg) as [[fi fr] cs] eqn:Et. cbn [negb]. eexists. split; [reflexivity |].
  pose proof (co_max _ Hc) as Hm. assert (u32 (2 * cc_port_max cfg + 5) = 2 * cc_port_max cfg + 5) as Eu by (apply u32_id; unfold is_u32; lia).
  apply new_sys_inv; try done.
  - constructor; cbn -[u32]; rewrite ?Eu, ?length_replicate, ?Et; try done; lia.
  - apply Forall_replicate. done.
  - apply Forall_replicate. done.
Qed.

(** Nothing is under way. *)
Definition quiet (y : cl_sys) : Prop := y_net y = [] /\ Forall (eq RIdle) (y_rcv y) /\ uncounted (y_pc y) = 0.

Lemma quiet_complete cfg y : cl_inv cfg y -> quiet y -> check_completion (y_cl y) = (0, []).
Proof.
  intros [_ _ _ Hct _ _ _ _ _] (En & Hi & Hu). destruct (idle_lists y Hi) as [Ec El]. destruct Hct as [H1 H2 H3 H4 H5 H6 _ _].
  assert (requested y = it_hdr <$> y_done y) as Eq by (unfold requested, received; by rewrite En, Ec, El).
  assert (received y = y_done y) as Er by (unfold received; by rewrite Ec, El).
  unfold check_completion. f_equal.
  - rewrite H1, H2, Hu, Eq, Er, length_fmap, Z.sub_0_r, Z.sub_diag. done.
  - apply elem_of_nil_inv. intros [i d] Hin. apply list_elem_of_filter in Hin as [Hd Hin]. apply elem_of_lookup_imap in Hin as (j & [a b] & [= -> ->] & Hl).
    apply lookup_zip_Some in Hl as [Ha Hb]. apply Hd. cbn. rewrite (H5 _ _ Ha), (H6 _ _ Hb), Eq.
    assert (sent_to (y_pc y) j = 0) as -> by (destruct (y_pc y); done). by rewrite Z.sub_0_r, Z.sub_diag.
Qed.

(** ** Theorems *)


Definition ex_cfg : client_config := Build_client_config [1; 2; 4] 1 2 2 false.
Definition ex_fz : freezer := Build_freezer false 0 0.

(** Two requests whose responses come back in the other order. *)
Definition ex_run : list cl_event :=
  [EvGet; EvSend 100 90 3 1000; EvRecv 0 0 150; EvCount; EvGet; EvSend 200 190 0 50; EvClaim 0; EvCount; EvRecv 1 0 230; EvClaim 1; EvStats 1 true;
   EvStats 0 true; EvGet; EvExit].


(** The number of receiving threads matters: with [client_port_max = 1] and more
    receivers than that, which have counted their responses and not given back
    the slots, the client exits although only one request is outstanding. *)
Definition ex_exit : list cl_event :=
  concat (map (fun i => [EvGet; EvSend 0 0 0 100; EvCount; EvRecv i 0 0]) (seq 0 7)) ++ [EvGet].

Theorem many_receivers_exit :
  (let! c := new_client (fun _ => true) (Build_client_config [2] 1 1 1 false) 0 ex_fz (0, 0) in
   cl_run (Build_client_config [2] 1 1 1 false) ex_exit (new_sys 7 c)) = Fault ProcessExit.
Proof. vm_compute. reflexivity. Qed.

(** Servers that are not listed in increasing order get no entry of [first_id]
    at their index: responses of node 2 are dropped by [record]. *)
Theorem first_id_unsorted :
  tables (Build_client_config [4; 2] 1 1 1 false) = ([-1; -1; -1; -1; 0; 1], [0; 0; 0; 0; 0], [Build_conn_id 0 1 0 4; Build_conn_id 0 1 0 2]).
Proof. vm_compute. reflexivity. Qed.

(** [record] reads the length of the request after it gave the slot back: the
    sender may have used it for another request.  The first request has 100
    bytes and the slot is taken for one of 5000 bytes. *)
Definition ex_race_cfg : client_config := Build_client_config [2] 1 1 2 false.
Definition ex_race : list cl_event :=
  [EvGet; EvSend 0 0 0 100; EvCount] ++
  concat (replicate 8 [EvGet; EvSend 0 0 0 12; EvCount; EvRecv 0 1 0; EvClaim 0; EvStats 0 true]) ++
  [EvRecv 0 0 0; EvClaim 0; EvGet; EvSend 0 0 0 5000; EvStats 0 true].

Theorem request_bytes_race :
  (let! c := new_client (fun _ => true) ex_race_cfg 0 ex_fz (0, 0) in
   let! y := cl_run ex_race_cfg ex_race (new_sys 1 c) in
   Ok (mh_length ∘ it_hdr <$> y_done y, cl_request_bytes (y_cl y))) = Ok (100 :: replicate 8 12, 5000 + 8 * 12).
Proof. vm_compute. reflexivity. Qed.
