(* ===== verification/CpTcpClient.v ===== *)
(** * The TCP client of the benchmark node (util/cp_node.cc)

    A [tcp_client] has one connection per server.  Its sending thread queues a
    request on a connection, and while it waits for the time of the next one it
    continues the transmission on connections that were backed up; the receiving
    threads read the responses. *)
From S2P Require Import Prelude Lists Wire Types CpConn CpServer CpClient.

(** ** class tcp_client *)
Record tcp_client := {
  tk_cl : client_state; tk_conns : list tcp_connection; tk_blocked : list nat; tk_next_blocked : nat; tk_max_pending : Z;
  tk_bytes_sent : list Z; tk_bytes_rcvd : list Z; tk_backups : Z; tk_epollet : Z
}.
#[export] Instance eta_tcp_client : Eta tcp_client := fun r =>
  Build_tcp_client (tk_cl r) (tk_conns r) (tk_blocked r) (tk_next_blocked r) (tk_max_pending r) (tk_bytes_sent r)
    (tk_bytes_rcvd r) (tk_backups r) (tk_epollet r).

Definition TKM : Type -> Type := ST tcp_client.
Definition get_tk : TKM tcp_client := fun s => Ok (s, s).
Definition upd_tk (f : tcp_client -> tcp_client) : TKM unit := fun s => Ok (tt, f s).

Definition on_client {A} (m : KM A) : TKM A := fun s =>
  match m (tk_cl s) with Ok (a, c) => Ok (a, s <| tk_cl := c |>) | Fault f => Fault f end.

(** Connection [i]. *)
Definition idx_lens (i : nat) : conn_lens tcp_client.
Proof.
  refine {| conn_get := fun s => tk_conns s !! i; conn_put := fun t s => s <| tk_conns ::= insert i t |> |}.
  - intros s t t' H. cbn -[insert]. apply list_lookup_insert_eq. by eapply lookup_lt_Some.
  - intros s t t'. cbn -[insert]. by rewrite list_insert_insert_eq.
  - intros s t H. cbn -[insert]. rewrite list_insert_id by done. by destruct s.
Defined.

(** What the host gives a connection: its descriptor and port, and the results
    of [read] and [send]. *)
Record sock_env := { so_fd : Z; so_port : Z; so_ins : list rd_result; so_sends : list Z }.

(** The constructor, once the system calls have succeeded; [socks] has one socket
    per server. *)
Definition new_tcp_client (port_receivers : Z) (c : client_state) (socks : list sock_env) : tcp_client :=
  let epollet := if port_receivers >? 1 then EPOLLET else 0 in
  Build_tcp_client c
    (imap (fun i so => (new_tcp_connection (so_fd so) (Z.of_nat i) (so_port so) 0 (so_ins so) (so_sends so))
             <| tc_epoll_events := Z.lor EPOLLIN epollet |>) socks)
    [] 0 1 (replicate (length socks) 0) (replicate (length socks) 0) 0 epollet.

(** *** The sending thread *)

(** What the waiting loop does when it may not send yet. *)
Definition retry_blocked (stack : list Z) : TKM unit :=
  let* s := get_tk in
  match tk_blocked s with
  | [] => ret tt
  | _ =>
      let next := if (length (tk_blocked s) <=? tk_next_blocked s)%nat then 0%nat else tk_next_blocked s in
      upd_tk (fun s => s <| tk_next_blocked := next |>) ;;;
      let* i := lift (get ArrayBounds (tk_blocked s !! next)) in
      let* done_ := on_conn (idx_lens i) (xmit stack) in
      if (done_ : bool) then upd_tk (fun s => s <| tk_blocked ::= delete next |>)
      else upd_tk (fun s => s <| tk_next_blocked := S next |>)
  end.

(** The request; unlike [homa_client] it cuts the length only with [tcp_trunc]. *)
Definition tcp_request (cfg : client_config) (tcp_trunc : bool) (slot now srv len : Z) : KM message_header :=
  let* s := get_cl in
  let len := bitfield30 len in
  let len := if (len >? HOMA_MAX_MESSAGE_LENGTH) && tcp_trunc then HOMA_MAX_MESSAGE_LENGTH else len in
  let* r := lift (arr (cl_rinfos s) slot) in
  let* l := lift (arr_set (cl_rinfos s) slot (r <| ri_start_time := now |> <| ri_request_length := len |>)) in
  upd_cl (fun s => s <| cl_rinfos := l |>) ;;;
  let* c := lift (arr (cl_server_conns s) srv) in
  let cid := Build_conn_id (u8 (cl_id s)) (client c) (conn_server_port c) (server c) in
  let* fr := lift (arr (cl_freeze s) (server cid)) in
  ret (Build_message_header len (fr mod 2) (Z.b2z (cc_one_way cfg)) cid (u32 slot)).

(** The rest of the iteration; [send_message] rounds the length of [header] up. *)
Definition tcp_send (stack : list Z) (header : message_header) (srv now next_start : Z) : TKM unit :=
  let i := Z.to_nat srv in
  let* t := on_conn (idx_lens i) get_conn in
  let old_pending := pending t in
  let* sent := on_conn (idx_lens i) (send_message stack header) in
  let header := rounded header in
  (if negb sent && (old_pending =? 0) then
     upd_tk (fun s => s <| tk_blocked ::= fun l => l ++ [i] |>) ;;;
     let* t := on_conn (idx_lens i) get_conn in
     upd_tk (fun s => if pending t >? tk_max_pending s then s <| tk_max_pending := pending t |> else s)
   else ret tt) ;;;
  on_client (count_sent srv now next_start) ;;;
  let* s := get_tk in
  let* sent_ := lift (arr (tk_bytes_sent s) srv) in
  let* rcvd := lift (arr (tk_bytes_rcvd s) srv) in
  let* l := lift (arr_set (tk_bytes_sent s) srv (u64 (sent_ + mh_length header))) in
  upd_tk (fun s => s <| tk_backups ::= fun n => if u64 (sent_ - rcvd) >? 100000 then u64 (n + 1) else n |> <| tk_bytes_sent := l |>).

(** One iteration after the slot is taken and the time has come. *)
Definition tcp_iteration (cfg : client_config) (tcp_trunc : bool) (stack : list Z) (slot now next_start srv len : Z) : TKM unit :=
  let* header := on_client (tcp_request cfg tcp_trunc slot now srv len) in
  tcp_send stack header srv now next_start.

(** *** The receiving threads

    [clock] gives the time when the response is read; [first_id] is not checked
    here. *)
Definition tcp_record (ioctl : bool) (clock : message_header -> Z) (header : message_header) : TKM unit :=
  on_client (record ioctl (clock header) header) ;;;
  let* s := get_tk in
  let* f := lift (arr (cl_first_id (tk_cl s)) (server (mh_cid header))) in
  let i := f + conn_server_port (mh_cid header) in
  let* n := lift (arr (tk_bytes_rcvd s) i) in
  let* l := lift (arr_set (tk_bytes_rcvd s) i (u64 (n + mh_length header))) in
  upd_tk (fun s => s <| tk_bytes_rcvd := l |>).

Definition tcp_client_read (ioctl : bool) (clock : message_header -> Z) (fuel : nat) (i : nat) : TKM unit :=
  let* s := get_tk in
  let* error := conn_read (idx_lens i) (tcp_record ioctl clock) fuel (negb (tk_epollet s =? 0)) in
  if negb (error =? 0) then raise ProcessExit else ret tt.

(** ** Lemmas *)

Lemma send_message_sends stack h t b t' : send_message stack h t = Ok (b, t') -> Forall send_ok (tc_send t) -> Forall send_ok (tc_send t').
Proof.
  unfold send_message. rewrite (bind_eq (upd_conn _) _ _ _ _ eq_refl), (bind_eq get_conn _ _ _ _ eq_refl).
  destruct (_ >? 1); [by intros [= <- <-] | intros H Hs; by eapply xmit_sends].
Qed.

(** Connection [t] has sent or queued the requests [reqs], and nothing else. *)
Definition carries (reqs : list message_header) (t : tcp_connection) : Prop :=
  Forall send_ok (tc_send t) /\
  exists done_ part, xmit_inv [] done_ part t /\ done_.*1 ++ tc_outgoing t = reqs.

(** The requests to server [i]. *)
Definition reqs_to (i : nat) (log : list (nat * message_header)) : list message_header := (filter (fun x => x.1 = i) log).*2.

Lemma reqs_to_snoc i log j h : reqs_to i (log ++ [(j, h)]) = reqs_to i log ++ (if decide (j = i) then [h] else []).
Proof. unfold reqs_to. rewrite filter_app, fmap_app. f_equal. cbn. by destruct (decide (j = i)). Qed.

(** Exactly the connections with output that waits are on the list, each once. *)
Record blocked_ok (s : tcp_client) : Prop := {
  bo_nodup : NoDup (tk_blocked s);
  bo_range : Forall (fun i => (i < length (tk_conns s))%nat) (tk_blocked s);
  bo_pending : forall i t, tk_conns s !! i = Some t -> i ∈ tk_blocked s <-> tc_outgoing t <> []
}.

Record tk_inv (cfg : client_config) (log : list (nat * message_header)) (s : tcp_client) : Prop := {
  ki_shape : shape cfg (tk_cl s);
  ki_conns : length (tk_conns s) = length (cl_server_conns (tk_cl s));
  ki_reqs : length (cl_requests (tk_cl s)) = length (cl_server_conns (tk_cl s));
  ki_sent : length (tk_bytes_sent s) = length (cl_server_conns (tk_cl s));
  ki_rcvd : length (tk_bytes_rcvd s) = length (cl_server_conns (tk_cl s));
  ki_blocked : blocked_ok s;
  ki_carries : forall i t, tk_conns s !! i = Some t -> carries (reqs_to i log) t
}.

(** A connection is replaced. *)
Lemma carries_insert (conns : list tcp_connection) i t' (log log' : list (nat * message_header)) :
  (forall j t, conns !! j = Some t -> carries (reqs_to j log) t) -> carries (reqs_to i log') t' ->
  (forall j, j <> i -> reqs_to j log' = reqs_to j log) ->
  forall j t, <[i := t']> conns !! j = Some t -> carries (reqs_to j log') t.
Proof.
  intros H Hi Hne j t Hj. destruct (decide (j = i)) as [-> | Hji].
  - pose proof (lookup_lt_Some _ _ _ Hj) as Hl. rewrite length_insert in Hl. rewrite list_lookup_insert_eq in Hj by done. by injection Hj as <-.
  - rewrite list_lookup_insert_ne in Hj by done. rewrite Hne by done. by apply H.
Qed.

Lemma blocked_insert s i t t' :
  tk_conns s !! i = Some t -> blocked_ok s -> (tc_outgoing t' = [] <-> tc_outgoing t = []) ->
  blocked_ok (s <| tk_conns ::= insert i t' |>).
Proof.
  intros Hi [H1 H2 H3] E. constructor; cbn -[insert]; [done | by rewrite length_insert |]. intros j x Hj.
  destruct (decide (j = i)) as [-> | Hne].
  - rewrite list_lookup_insert_eq in Hj by (by eapply lookup_lt_Some). injection Hj as <-. rewrite (H3 _ _ Hi). by rewrite E.
  - rewrite list_lookup_insert_ne in Hj by done. by apply H3.
Qed.

(** A connection is put on the list, or taken from it. *)
Lemma blocked_push s i t t' :
  tk_conns s !! i = Some t -> blocked_ok s -> tc_outgoing t = [] -> tc_outgoing t' <> [] ->
  blocked_ok (s <| tk_conns ::= insert i t' |> <| tk_blocked ::= fun l => l ++ [i] |>).
Proof.
  intros Hi [H1 H2 H3] E E'. pose proof (lookup_lt_Some _ _ _ Hi) as Hl. constructor; cbn -[insert]; rewrite ?length_insert.
  - apply NoDup_app. split_ands; [done | | by repeat constructor; apply not_elem_of_nil]. intros j Hj Hj'. apply list_elem_of_singleton in Hj' as ->.
    by apply (H3 _ _ Hi) in Hj.
  - apply Forall_app. split; [done | by constructor].
  - intros j x Hj. rewrite elem_of_app, list_elem_of_singleton. destruct (decide (j = i)) as [-> | Hne].
    + rewrite list_lookup_insert_eq in Hj by done. injection Hj as <-. split; [done | by right].
    + rewrite list_lookup_insert_ne in Hj by done. rewrite (H3 _ _ Hj). split; [by intros [] | by left].
Qed.

Lemma blocked_pop s k i t' :
  tk_blocked s !! k = Some i -> blocked_ok s -> tc_outgoing t' = [] ->
  blocked_ok (s <| tk_conns ::= insert i t' |> <| tk_blocked ::= delete k |>).
Proof.
  intros Hk [H1 H2 H3] E. pose proof (delete_Permutation _ _ _ Hk) as Ep. rewrite Ep in H1, H2.
  apply NoDup_cons in H1 as [Hni H1]. apply Forall_cons in H2 as [Hl H2].
  constructor; cbn -[insert delete]; rewrite ?length_insert; [done | done |].
  intros j x Hj. destruct (decide (j = i)) as [-> | Hne].
  - rewrite list_lookup_insert_eq in Hj by done. injection Hj as <-. by rewrite E.
  - rewrite list_lookup_insert_ne in Hj by done. rewrite <- (H3 _ _ Hj).
    assert (j ∈ tk_blocked s <-> j ∈ i :: delete k (tk_blocked s)) as -> by (by rewrite <- Ep). rewrite elem_of_cons. split; [by right | by intros []].
Qed.

(** *** Retrying *)
Lemma retry_blocked_spec cfg log s stack :
  stack_ok stack -> tk_inv cfg log s -> exists s', retry_blocked stack s = Ok (tt, s') /\ tk_inv cfg log s' /\ cl_rinfos (tk_cl s') = cl_rinfos (tk_cl s).
Proof.
  intros Hst Hinv. pose proof Hinv as [Hsh Hc Hr Hs Hv Hb Hca]. unfold retry_blocked. rewrite (bind_eq get_tk _ _ _ _ eq_refl).
  destruct (tk_blocked s) as [|b0 bs] eqn:Eb; [by exists s |]. rewrite <- Eb. cbv zeta.
  set (next := if (_ <=? _)%nat then _ else _). assert (exists i, tk_blocked s !! next = Some i) as [i Hi].
  { apply lookup_lt_is_Some_2. unfold next. destruct (Nat.leb_spec (length (tk_blocked s)) (tk_next_blocked s)); [rewrite Eb; cbn; lia | done]. }
  rewrite (bind_eq (upd_tk _) _ _ _ _ eq_refl), Hi. rewrite (bind_eq (lift (get ArrayBounds (Some i))) _ _ _ _ eq_refl).
  pose proof (bo_range _ Hb) as Hrg. rewrite Forall_lookup in Hrg. pose proof (Hrg _ _ Hi) as Hl. cbn in Hl.
  destruct (lookup_lt_is_Some_2 _ _ Hl) as [t Ht]. destruct (Hca i t Ht) as (Hse & d & p & Hx & Hreq).
  destruct (xmit_spec [] d p stack t Hst Hse Hx) as (b & t' & d' & p' & Hex & Hx' & Ho & _ & Hbt).
  pose proof (xmit_sends _ _ _ _ Hex Hse) as Hse'. set (s1 := s <| tk_next_blocked := next |>).
  rewrite (bind_eq _ _ _ _ _ (on_conn_eq (idx_lens i) (xmit stack) s1 t b t' Ht Hex)).
  assert (forall j x, <[i := t']> (tk_conns s) !! j = Some x -> carries (reqs_to j log) x) as Hca'.
  { apply (carries_insert _ _ _ log); [done | | done]. split; [done |]. exists (d ++ d'), p'. split; [done |].
    by rewrite fmap_app, <- app_assoc, Ho. }
  assert (tc_outgoing t <> []) as Hne by (apply (bo_pending _ Hb i t Ht); by eapply list_elem_of_lookup_2).
  destruct b.
  - eexists. split; [reflexivity |]. split; [|done]. constructor; try done; [cbn -[insert]; by rewrite length_insert |].
    apply (blocked_pop s1 next); [done | by destruct Hb | by apply Hbt].
  - eexists. split; [reflexivity |]. split; [|done]. constructor; try done; [cbn -[insert]; by rewrite length_insert |].
    assert (blocked_ok (s1 <| tk_conns ::= insert i t' |>)) as [H1 H2 H3]; [|by constructor].
    apply (blocked_insert _ _ t); [done | by destruct Hb |]. split; [intros E; by apply Hbt in E | done].
Qed.

(** *** Sending a request *)
Lemma tcp_request_spec cfg trunc s slot now srv len :
  shape cfg s -> config_ok cfg -> 0 <= slot < Z.of_nat (length (cl_rinfos s)) -> 0 <= srv < Z.of_nat (length (cl_server_conns s)) ->
  trunc = true \/ 0 <= len <= HOMA_MAX_MESSAGE_LENGTH ->
  exists h l, tcp_request cfg trunc slot now srv len s = Ok (h, s <| cl_rinfos := set_request now l slot (cl_rinfos s) |>) /\
    mh_msg_id h = slot /\ srv_index s h = srv /\ header_ok (rounded h).
Proof.
  intros Hsh Hc Hs Hv Htr. unfold tcp_request. rewrite (bind_eq get_cl _ _ _ _ eq_refl). cbv zeta.
  set (l := if _ && trunc then _ else _). destruct (arr_some _ _ Hs) as [r Hr]. rewrite Hr, (bind_eq (lift (Ok r)) _ _ _ _ eq_refl).
  rewrite (arr_set_alter _ _ _ (fun r => r <| ri_start_time := now |> <| ri_request_length := l |>) Hr).
  rewrite (bind_eq (lift (Ok _)) _ _ _ _ eq_refl), (bind_eq (upd_cl _) _ _ _ _ eq_refl).
  destruct (arr_some _ _ Hv) as [c Hcn]. rewrite Hcn, (bind_eq (lift (Ok c)) _ _ _ _ eq_refl).
  apply arr_Ok in Hcn as [_ Hcn]. destruct (sh_table _ _ Hsh _ _ Hcn) as (f & Hf & Hf0 & Hp & Hi & Hfr). rewrite Z2Nat.id in Hi by lia.
  cbn [server]. destruct (arr_some _ _ Hfr) as [fr Hfe]. rewrite Hfe, (bind_eq (lift (Ok fr)) _ _ _ _ eq_refl).
  pose proof (sh_rinfos _ _ Hsh) as Hn. pose proof (co_max _ Hc) as Hm.
  assert (l <= HOMA_MAX_MESSAGE_LENGTH) as Hl.
  { unfold l. destruct (Z.gtb_spec (bitfield30 len) HOMA_MAX_MESSAGE_LENGTH); cbn; [|lia]. destruct Htr as [-> | Hlen]; [done |].
    unfold bitfield30, HOMA_MAX_MESSAGE_LENGTH in *. rewrite Z.mod_small in * by lia. destruct (Z.geb_spec len (2 ^ 29)); lia. }
  eexists _, l. split; [reflexivity |]. unfold srv_index. cbn. rewrite Hf. split_ands; [apply u32_id; unfold is_u32; lia | lia |].
  pose proof (Z.mod_pos_bound fr 2). unfold rounded. cbn.
  destruct (Z.ltb_spec l sizeof_header); (constructor; cbn; [unfold sizeof_header, HOMA_MAX_MESSAGE_LENGTH in *; lia | lia | by destruct (cc_one_way cfg) |]);
    (pose proof (u32_is_u32 slot); unfold is_u32 in *; lia).
Qed.

Lemma count_sent_spec cfg c srv now next_start :
  shape cfg c -> 0 <= srv < Z.of_nat (length (cl_requests c)) ->
  exists c', count_sent srv now next_start c = Ok (tt, c') /\ shape cfg c' /\ cl_server_conns c' = cl_server_conns c /\
    length (cl_requests c') = length (cl_requests c) /\ cl_rinfos c' = cl_rinfos c.
Proof.
  intros Hsh Hs. unfold count_sent. rewrite (bind_eq get_cl _ _ _ _ eq_refl). destruct (arr_some _ _ Hs) as [n Hn].
  rewrite Hn, (bind_eq (lift (Ok n)) _ _ _ _ eq_refl). rewrite (arr_set_alter _ _ _ (fun n => u64 (n + 1)) Hn).
  rewrite (bind_eq (lift (Ok _)) _ _ _ _ eq_refl). eexists. split; [reflexivity |]. split_ands; try done; [by destruct Hsh |].
  cbn -[alter]. by rewrite length_alter.
Qed.

Lemma on_client_eq {A} (m : KM A) s a c : m (tk_cl s) = Ok (a, c) -> on_client m s = Ok (a, s <| tk_cl := c |>).
Proof. intros H. unfold on_client. by rewrite H. Qed.

Lemma idx_get s i t : tk_conns s !! i = Some t -> on_conn (idx_lens i) get_conn s = Ok (t, s).
Proof. apply (get_conn_eq (idx_lens i)). Qed.

(** The list of blocked connections after a message was queued. *)
Lemma tcp_send_blocked s i t b t' :
  tk_conns s !! i = Some t -> blocked_ok s -> (b = true <-> tc_outgoing t' = []) -> (tc_outgoing t <> [] -> b = false) ->
  exists s', (if negb b && (pending t =? 0) then
     upd_tk (fun s => s <| tk_blocked ::= fun l => l ++ [i] |>) ;;;
     let* t := on_conn (idx_lens i) get_conn in
     upd_tk (fun s => if pending t >? tk_max_pending s then s <| tk_max_pending := pending t |> else s)
   else ret tt) (s <| tk_conns ::= insert i t' |>) = Ok (tt, s') /\ blocked_ok s' /\ tk_conns s' = <[i := t']> (tk_conns s) /\ tk_cl s' = tk_cl s /\
   tk_bytes_sent s' = tk_bytes_sent s /\ tk_bytes_rcvd s' = tk_bytes_rcvd s.
Proof.
  intros Ht Hb Hbt Hold. pose proof (lookup_lt_Some _ _ _ Ht) as Hl. unfold pending at 1.
  destruct (decide (tc_outgoing t = [])) as [E | E]; [rewrite E; change (Z.of_nat (length (@nil message_header)) =? 0) with true |].
  - destruct b; cbn [negb andb].
    + eexists. split; [reflexivity |]. split; [|done]. apply (blocked_insert _ _ t); [done | done |]. by rewrite E, <- Hbt.
    + rewrite (bind_eq (upd_tk _) _ _ _ _ eq_refl). set (s1 := s <| tk_conns ::= _ |> <| tk_blocked ::= _ |>).
      rewrite (bind_eq _ _ _ _ _ (idx_get s1 i t' ltac:(cbn -[insert]; by apply list_lookup_insert_eq))).
      assert (blocked_ok s1) as Hb1 by (apply (blocked_push _ _ t); try done; intros E'; by apply Hbt in E').
      eexists. split; [reflexivity |]. destruct Hb1 as [H1 H2 H3]. destruct (_ >? _); (split; [by constructor | done]).
  - assert (b = false) as -> by (by apply Hold). destruct (Z.eqb_spec (Z.of_nat (length (tc_outgoing t))) 0) as [E0 | _]; [by destruct (tc_outgoing t) |].
    eexists. split; [reflexivity |]. split; [|done]. apply (blocked_insert _ _ t); [done | done |]. split; [intros E'; by apply Hbt in E' | done].
Qed.

Lemma tcp_send_spec cfg log s stack h srv now next_start :
  stack_ok stack -> header_ok (rounded h) -> 0 <= srv < Z.of_nat (length (cl_server_conns (tk_cl s))) -> tk_inv cfg log s ->
  exists s', tcp_send stack h srv now next_start s = Ok (tt, s') /\ tk_inv cfg (log ++ [(Z.to_nat srv, rounded h)]) s' /\
    cl_rinfos (tk_cl s') = cl_rinfos (tk_cl s).
Proof.
  intros Hst Hh Hv [Hsh Hc Hr Hs Hrv Hb Hca]. unfold tcp_send. set (i := Z.to_nat srv).
  destruct (lookup_lt_is_Some_2 (tk_conns s) i) as [t Ht]; [rewrite Hc; unfold i; lia |].
  rewrite (bind_eq _ _ _ _ _ (idx_get s i t Ht)). cbv zeta. destruct (Hca i t Ht) as (Hse & d & p & Hx & Hreq).
  destruct (send_message_spec [] d p stack h t Hst Hse Hh Hx) as (b & t' & d' & p' & Hex & Hx' & Ho & _ & Hbt & Hold).
  pose proof (send_message_sends _ _ _ _ _ Hex Hse) as Hse'.
  rewrite (bind_eq _ _ _ _ _ (on_conn_eq (idx_lens i) _ s t b t' Ht Hex)). change (conn_put (idx_lens i) t' s) with (s <| tk_conns ::= insert i t' |>).
  destruct (tcp_send_blocked s i t b t' Ht Hb Hbt Hold) as (s1 & Hex1 & Hb1 & Ec1 & Ek1 & Es1 & Er1). rewrite (bind_eq _ _ _ _ _ Hex1).
  destruct (count_sent_spec cfg (tk_cl s) srv now next_start Hsh) as (c' & Hcs & Hsh' & Eco & Erq & Eri); [lia |].
  rewrite <- Ek1 in Hcs. rewrite (bind_eq _ _ _ _ _ (on_client_eq _ s1 tt c' Hcs)), (bind_eq get_tk _ _ _ _ eq_refl).
  change (tk_bytes_sent (s1 <| tk_cl := c' |>)) with (tk_bytes_sent s1). change (tk_bytes_rcvd (s1 <| tk_cl := c' |>)) with (tk_bytes_rcvd s1).
  rewrite Es1, Er1. destruct (arr_some (tk_bytes_sent s) srv) as [n Hn]; [lia |]. destruct (arr_some (tk_bytes_rcvd s) srv) as [m Hm]; [lia |].
  rewrite Hn, (bind_eq (lift (Ok n)) _ _ _ _ eq_refl), Hm, (bind_eq (lift (Ok m)) _ _ _ _ eq_refl).
  rewrite (arr_set_alter _ _ _ (fun n => u64 (n + mh_length (rounded h))) Hn), (bind_eq (lift (Ok _)) _ _ _ _ eq_refl).
  eexists. split; [reflexivity |]. split; [|exact Eri].
  constructor; cbn -[insert alter]; rewrite ?Ec1, ?Er1, ?length_insert, ?length_alter, ?Eco, ?Erq; try done.
  - destruct Hb1 as [H1 H2 H3]. rewrite Ec1 in H2, H3. by constructor.
  - apply (carries_insert _ _ _ log); [done | | intros j Hj; rewrite reqs_to_snoc; destruct (decide (i = j)); [done | apply app_nil_r]].
    split; [done |]. exists (d ++ d'), p'. split; [done |]. rewrite reqs_to_snoc, decide_True by done.
    by rewrite fmap_app, <- app_assoc, Ho, app_assoc, Hreq.
Qed.

(** A program of the sending thread: iterations with a slot, and attempts to
    finish the output of blocked connections. *)
Inductive tk_op := KIter (stack : list Z) (slot now next_start srv len : Z) | KRetry (stack : list Z).
Definition tk_step (cfg : client_config) (trunc : bool) (op : tk_op) : TKM unit :=
  match op with
  | KIter stack slot now next_start srv len => tcp_iteration cfg trunc stack slot now next_start srv len
  | KRetry stack => retry_blocked stack
  end.
Definition tk_op_ok (cfg : client_config) (trunc : bool) (op : tk_op) : Prop :=
  match op with
  | KIter stack slot _ _ srv len => stack_ok stack /\ 0 <= slot < 2 * cc_port_max cfg + 5 /\ 0 <= srv < Z.of_nat (length (tables cfg).2) /\
      (trunc = true \/ 0 <= len <= HOMA_MAX_MESSAGE_LENGTH)
  | KRetry stack => stack_ok stack
  end.

(** The requests of the program, with the servers they are for. *)
Definition op_reqs (ops : list tk_op) : list (nat * Z) :=
  omap (fun op => match op with KIter _ slot _ _ srv _ => Some (Z.to_nat srv, slot) | KRetry _ => None end) ops.

Lemma tcp_iteration_spec cfg trunc log s stack slot now next_start srv len :
  config_ok cfg -> tk_op_ok cfg trunc (KIter stack slot now next_start srv len) -> tk_inv cfg log s ->
  exists s' h, tcp_iteration cfg trunc stack slot now next_start srv len s = Ok (tt, s') /\ tk_inv cfg (log ++ [(Z.to_nat srv, h)]) s' /\ mh_msg_id h = slot.
Proof.
  intros Hc (Hst & Hs & Hv & Htr) [Hsh H1 H2 H3 H4 H5 H6]. rewrite <- (sh_rinfos _ _ Hsh) in Hs. rewrite <- (sh_conns _ _ Hsh) in Hv.
  destruct (tcp_request_spec cfg trunc (tk_cl s) slot now srv len Hsh Hc Hs Hv Htr) as (h & l & Hrq & Hid & _ & Hh).
  unfold tcp_iteration. rewrite (bind_eq _ _ _ _ _ (on_client_eq _ s h _ Hrq)). set (s1 := s <| tk_cl := _ |>).
  assert (tk_inv cfg log s1) as Hinv1.
  { constructor; try done; [|by destruct H5]. apply (shape_rinfos cfg (tk_cl s) (set_request now l slot (cl_rinfos (tk_cl s))) (cl_last_rinfo (tk_cl s)) Hsh);
      rewrite set_request_length; [done | apply (sh_last _ _ Hsh)]. }
  destruct (tcp_send_spec cfg log s1 stack h srv now next_start Hst Hh Hv Hinv1) as (s' & Hex & Hinv' & _).
  exists s', (rounded h). split_ands; [done | done |]. unfold rounded. by destruct (_ <? _).
Qed.

Lemma tk_run_spec cfg trunc ops : forall log s, config_ok cfg -> Forall (tk_op_ok cfg trunc) ops -> tk_inv cfg log s ->
  exists s' log', mapM_ (tk_step cfg trunc) ops s = Ok (tt, s') /\ tk_inv cfg (log ++ log') s' /\
    (fun x => (x.1, mh_msg_id x.2)) <$> log' = op_reqs ops.
Proof.
  induction ops as [|op ops IH]; intros log s Hc Ho Hi; [exists s, []; cbn; by rewrite app_nil_r |].
  apply Forall_cons in Ho as [Ho Hos]. cbn [mapM_].
  assert (exists s1 log1, tk_step cfg trunc op s = Ok (tt, s1) /\ tk_inv cfg (log ++ log1) s1 /\ (fun x => (x.1, mh_msg_id x.2)) <$> log1 = op_reqs [op])
    as (s1 & log1 & Hex & Hi1 & El).
  { destruct op as [stack slot now next_start srv len | stack].
    - destruct (tcp_iteration_spec cfg trunc log s stack slot now next_start srv len Hc Ho Hi) as (s1 & h & Hex & Hi1 & Hid).
      exists s1, [(Z.to_nat srv, h)]. split_ands; try done. cbn. by rewrite Hid.
    - destruct (retry_blocked_spec cfg log s stack Ho Hi) as (s1 & Hex & Hi1 & _). exists s1, []. rewrite app_nil_r. by split_ands. }
  rewrite (bind_eq _ _ _ _ _ Hex). destruct (IH (log ++ log1) s1 Hc Hos Hi1) as (s' & log' & Hex' & Hi' & El').
  exists s', (log1 ++ log'). rewrite app_assoc. split_ands; try done. rewrite fmap_app, El, El'. by destruct op.
Qed.

Lemma new_tcp_client_inv cfg c n socks :
  shape cfg c -> length (cl_requests c) = length (cl_server_conns c) -> length socks = length (cl_server_conns c) ->
  Forall (fun so => Forall send_ok (so_sends so)) socks -> tk_inv cfg [] (new_tcp_client n c socks).
Proof.
  intros Hsh Hr Hl Hs. constructor; cbn; rewrite ?length_imap, ?length_replicate; try done.
  - constructor; cbn; [constructor | constructor |]. intros i t Ht. rewrite list_lookup_imap in Ht. apply fmap_Some in Ht as (so & Hso & ->).
    split; [by intros ?%elem_of_nil | done].
  - intros i t Ht. rewrite list_lookup_imap in Ht. apply fmap_Some in Ht as (so & Hso & ->). rewrite Forall_lookup in Hs. specialize (Hs _ _ Hso).
    split; [done |]. exists [], []. split; [|done]. by constructor.
Qed.

(** *** Reading responses *)

(** [record] keeps the tables and the sizes of the arrays. *)
Record same_tables (s s' : client_state) : Prop := {
  sa_conns : cl_server_conns s' = cl_server_conns s;
  sa_first : cl_first_id s' = cl_first_id s;
  sa_freeze : length (cl_freeze s') = length (cl_freeze s);
  sa_rinfos : length (cl_rinfos s') = length (cl_rinfos s);
  sa_resp : length (cl_responses s') = length (cl_responses s)
}.

#[export] Instance same_tables_preorder : PreOrder same_tables.
Proof. split; [by intros s; constructor |]. intros a b c [] []. constructor; congruence. Qed.

Lemma hdr_ok_tables s s' h : same_tables s s' -> hdr_ok s h -> hdr_ok s' h.
Proof. intros [E1 E2 E3 _ _]. unfold hdr_ok. by rewrite E1, E2, E3. Qed.

Lemma rec_claim_total t h s : 0 <= mh_msg_id h ->
  exists o s', rec_claim t h s = Ok (o, s') /\ same_tables s s' /\ (is_Some o -> mh_msg_id h < Z.of_nat (length (cl_rinfos s))).
Proof.
  intros Hm. destruct (Z.lt_ge_cases (mh_msg_id h) (Z.of_nat (length (cl_rinfos s)))) as [Hlt | Hge].
  - destruct (arr_some (cl_rinfos s) (mh_msg_id h)) as [r Hr]; [lia |]. destruct (ri_active r) eqn:Ea.
    + rewrite (rec_claim_spec _ _ _ r Hr Ea). eexists _, _. split; [reflexivity |]. split; [|done]. constructor; try done. apply set_active_length.
    + exists None, s. unfold rec_claim. rewrite (bind_eq get_cl _ _ _ _ eq_refl), Hr.
      destruct (Z.geb_spec (mh_msg_id h) (Z.of_nat (length (cl_rinfos s)))); [lia |]. rewrite (bind_eq (lift (Ok r)) _ _ _ _ eq_refl), Ea.
      split_ands; [done | reflexivity | by intros []].
  - exists None, s. unfold rec_claim. rewrite (bind_eq get_cl _ _ _ _ eq_refl).
    destruct (Z.geb_spec (mh_msg_id h) (Z.of_nat (length (cl_rinfos s)))); [|lia]. split_ands; [done | reflexivity | by intros []].
Qed.

(** [record] never leaves an array, whatever the response says about the
    request, as long as it comes from a server of this client. *)
Lemma record_total ioctl t h s :
  hdr_ok s h -> length (cl_responses s) = length (cl_server_conns s) -> 0 <= mh_msg_id h ->
  exists s', record ioctl t h s = Ok (tt, s') /\ same_tables s s'.
Proof.
  intros Hh Hl Hm. unfold record. rewrite (bind_eq rec_count _ _ _ _ eq_refl). set (s1 := s <| cl_total_responses ::= _ |>).
  assert (same_tables s s1) as Hs1 by done. destruct (rec_claim_total t h s1 Hm) as (o & s2 & Hex & Hs2 & Ho).
  rewrite (bind_eq _ _ _ _ _ Hex). assert (same_tables s s2) as Hs by (by etransitivity). destruct o as [rtt|]; [|by exists s2].
  destruct (rec_stats_spec ioctl h (cl_total_responses s mod NUM_CLIENT_STATS) rtt s2) as (fr & fz & by_ & Hfr & Hex2);
    [by apply (hdr_ok_tables s) | destruct Hs; congruence | rewrite (sa_rinfos _ _ Hs2); split; [done | by apply Ho] |].
  rewrite Hex2. eexists. split; [reflexivity |]. etransitivity; [exact Hs |]. constructor; try done. apply length_alter.
Qed.

(** What has happened when the responses [hs] were read from connection [i]. *)
Definition add_rcvd (c : client_state) (l : list Z) (h : message_header) : list Z :=
  alter (fun n => u64 (n + mh_length h)) (Z.to_nat (srv_index c h)) l.
Record has_read (ioctl : bool) (clock : message_header -> Z) (i : nat) (s0 : tcp_client) (hs : list message_header) (s : tcp_client) : Prop := {
  hr_client : mapM_ (fun h => record ioctl (clock h) h) hs (tk_cl s0) = Ok (tt, tk_cl s);
  hr_rcvd : tk_bytes_rcvd s = foldl (add_rcvd (tk_cl s0)) (tk_bytes_rcvd s0) hs;
  hr_tables : same_tables (tk_cl s0) (tk_cl s);
  hr_others : delete i (tk_conns s) = delete i (tk_conns s0);
  hr_blocked : tk_blocked s = tk_blocked s0
}.

Lemma mapM_snoc {S A} (f : A -> ST S unit) l x s s1 s2 :
  mapM_ f l s = Ok (tt, s1) -> f x s1 = Ok (tt, s2) -> mapM_ f (l ++ [x]) s = Ok (tt, s2).
Proof.
  revert s. induction l as [|a l IH]; intros s H1 H2; cbn [mapM_ app] in *.
  - injection H1 as ->. rewrite (bind_eq _ _ _ _ _ H2). done.
  - unfold bind in *. destruct (f a s) as [[[] s3]|]; [|done]. by apply IH.
Qed.

Lemma delete_insert_same {A} (l : list A) i x : delete i (<[i := x]> l) = delete i l.
Proof. revert i. induction l as [|a l IH]; intros [|i]; try done. cbn. f_equal. apply IH. Qed.

(** A response that [record] and [read] can deal with. *)
Definition resp_ok (c : client_state) (h : message_header) : Prop := hdr_ok c h /\ 0 <= mh_msg_id h.

Lemma tcp_record_spec ioctl clock i s0 hs s h :
  length (cl_responses (tk_cl s0)) = length (cl_server_conns (tk_cl s0)) -> length (tk_bytes_rcvd s0) = length (cl_server_conns (tk_cl s0)) ->
  resp_ok (tk_cl s0) h -> has_read ioctl clock i s0 hs s ->
  exists s', tcp_record ioctl clock h s = Ok (tt, s') /\ has_read ioctl clock i s0 (hs ++ [h]) s' /\ tk_conns s' = tk_conns s.
Proof.
  intros Hr Hl [Hh Hm] [Hc Hrv Ht Ho Hb]. pose proof (hdr_ok_tables _ _ _ Ht Hh) as Hh'.
  destruct (record_total ioctl (clock h) h (tk_cl s)) as (c' & Hex & Ht'); [done | destruct Ht; congruence | done |].
  unfold tcp_record. rewrite (bind_eq _ _ _ _ _ (on_client_eq _ s tt c' Hex)), (bind_eq get_tk _ _ _ _ eq_refl).
  change (cl_first_id (tk_cl (s <| tk_cl := c' |>))) with (cl_first_id c'). change (tk_bytes_rcvd (s <| tk_cl := c' |>)) with (tk_bytes_rcvd s).
  assert (srv_index c' h = srv_index (tk_cl s0) h) as Ei by (unfold srv_index; by rewrite (sa_first _ _ Ht'), (sa_first _ _ Ht)).
  pose proof (hdr_ok_tables _ _ _ Ht' Hh') as (f & Hf & Hf0 & Hi & _). unfold srv_index in Ei. rewrite Hf in *.
  rewrite (bind_eq (lift (Ok f)) _ _ _ _ eq_refl). rewrite (sa_conns _ _ Ht'), (sa_conns _ _ Ht) in Hi. set (k := f + _) in *.
  assert (length (tk_bytes_rcvd s) = length (tk_bytes_rcvd s0)) as Hlen.
  { rewrite Hrv. clear. revert s0. intros s0. generalize (tk_bytes_rcvd s0) as l. induction hs as [|h hs IH]; intros l; [done |]. cbn [foldl]. rewrite IH. apply length_alter. }
  destruct (arr_some (tk_bytes_rcvd s) k) as [n Hn]; [lia |]. rewrite Hn, (bind_eq (lift (Ok n)) _ _ _ _ eq_refl).
  rewrite (arr_set_alter _ _ _ (fun n => u64 (n + mh_length h)) Hn), (bind_eq (lift (Ok _)) _ _ _ _ eq_refl).
  eexists. split; [reflexivity |]. split; [|done]. constructor; try done.
  - by eapply mapM_snoc.
  - rewrite foldl_app. cbn [foldl]. rewrite <- Hrv. unfold add_rcvd. by rewrite Ei.
  - by etransitivity.
Qed.

Lemma has_read_put ioctl clock i s0 hs s t : has_read ioctl clock i s0 hs s -> has_read ioctl clock i s0 hs (conn_put (idx_lens i) t s).
Proof. intros [H1 H2 H3 H4 H5]. constructor; try done. cbn -[delete insert]. by rewrite delete_insert_same. Qed.

(** ** Theorems *)

(** C23: the sending thread of a TCP client.  Whatever the servers, the times and
    the lengths of its requests, and however much the kernel accepts, each
    connection carries exactly the requests for its server, in order and
    followed by the part of the next one that was sent, and the connections
    with output that waits are exactly those on the list [blocked], each once,
    so that the waiting loop comes to all of them. *)
Theorem tcp_client_sends_correct resolves cfg id f debug receivers socks trunc ops :
  config_ok cfg -> Forall (fun node => node <> cc_node_id cfg -> resolves node = true) (cc_server_ids cfg) ->
  length socks = length (tables cfg).2 -> Forall (fun so => Forall send_ok (so_sends so)) socks -> Forall (tk_op_ok cfg trunc) ops ->
  exists c s log, new_client resolves cfg id f debug = Ok c /\
    mapM_ (tk_step cfg trunc) ops (new_tcp_client receivers c socks) = Ok (tt, s) /\
    (fun x => (x.1, mh_msg_id x.2)) <$> log = op_reqs ops /\ NoDup (tk_blocked s) /\
    forall i t, tk_conns s !! i = Some t -> (i ∈ tk_blocked s <-> pending t <> 0) /\
      exists frames part, Forall (fun fr => frame_ok fr.1 fr.2) frames /\ tc_wire t = concat frames.*2 ++ part /\
        frames.*1 ++ tc_outgoing t = reqs_to i log /\ (pending t = 0 -> part = []).
Proof.
  intros Hc Hres Hl Hs Ho. destruct (new_client_inv resolves cfg id f debug 0 Hc Hres) as (c & Hnew & [Hsh _ _ Hct _ _ _ _ _]).
  cbn in Hsh. rewrite <- (sh_conns _ _ Hsh) in Hl.
  pose proof (new_tcp_client_inv cfg c receivers socks Hsh (ct_req_len _ _ _ _ _ Hct) Hl Hs) as Hi.
  destruct (tk_run_spec cfg trunc ops [] _ Hc Ho Hi) as (s & log & Hex & [_ _ _ _ _ [Hnd _ Hp] Hca] & El). exists c, s, log. split_ands; try done.
  intros i t Ht. destruct (Hca i t Ht) as (_ & d & p & Hx & Hreq). split.
  - rewrite (Hp i t Ht). unfold pending. destruct (tc_outgoing t); cbn; split; done || lia.
  - exists d, p. split_ands; [apply (xi_done _ _ _ _ Hx) | apply (xi_wire _ _ _ _ Hx) | done |]. intros E. pose proof (xi_part _ _ _ _ Hx) as Hpt.
    unfold pending in E. by destruct (tc_outgoing t).
Qed.

(** The receiving threads of a TCP client.  However the responses on a
    connection are cut into the results of [::read], [read] terminates and
    does for the client exactly what [record] does for the first responses in
    their order, each once, adds their lengths to [bytes_rcvd] of their
    servers, and leaves the other connections alone; with edge triggering and
    when all bytes have arrived it records all responses. *)
Theorem tcp_client_read_correct ioctl clock fuel i s t F :
  tk_conns s !! i = Some t -> length (tc_header t) = 12%nat -> tc_bytes_received t = 0 ->
  length (cl_responses (tk_cl s)) = length (cl_server_conns (tk_cl s)) -> length (tk_bytes_rcvd s) = length (cl_server_conns (tk_cl s)) ->
  Forall (fun fr => frame_ok fr.1 fr.2) F -> Forall (fun fr => resp_ok (tk_cl s) fr.1) F ->
  Forall rd_ok (tc_in t) -> stream_of (tc_in t) `prefix_of` concat F.*2 -> (read_fuel (tc_in t) <= fuel)%nat ->
  exists s' hs, tcp_client_read ioctl clock fuel i s = Ok (tt, s') /\ hs `prefix_of` F.*1 /\
    mapM_ (fun h => record ioctl (clock h) h) hs (tk_cl s) = Ok (tt, tk_cl s') /\
    tk_bytes_rcvd s' = foldl (add_rcvd (tk_cl s)) (tk_bytes_rcvd s) hs /\
    delete i (tk_conns s') = delete i (tk_conns s) /\ tk_blocked s' = tk_blocked s /\
    (tk_epollet s <> 0 -> stream_of (tc_in t) = concat F.*2 -> hs = F.*1).
Proof.
  intros Ht H12 Hb0 Hr Hl HF HQ Hin Hpre Hfuel.
  destruct (conn_read_spec (idx_lens i) (tcp_record ioctl clock) (has_read ioctl clock i s)) with (Q := resp_ok (tk_cl s))
    (loop := negb (tk_epollet s =? 0)) (ins := tc_in t) (fuel := fuel) (hs := @nil message_header) (F := F) (k := 0) (s := s)
    as (s' & i1 & i2 & F1 & F2 & k' & Hex & Ei & Hlp & EF & Hrd & Haft & _); try done.
  - intros hs s1 t1 t2 HP _ _. by apply has_read_put.
  - intros hs s1 t1 h HP Hs1 _ Hq. destruct (tcp_record_spec ioctl clock i s hs s1 h Hr Hl Hq HP) as (s2 & Hex & HP2 & Ec).
    exists s2, t1. split_ands; try done. cbn. by rewrite Ec.
  - constructor; [|by constructor]. exists t. split_ands; try done. unfold expects. rewrite Hb0. split_ands; try done.
    destruct F as [|[h fr] F]; [done |]. apply Forall_cons in HF as [[[? _ _ _] Hfl _] _]. unfold sizeof_header in *. cbn in *. split_ands; done || lia.
  - destruct Hrd as [(t' & _ & He & _) [Hc Hrv _ Ho Hbk]]. exists s', F1.*1. unfold tcp_client_read.
    rewrite (bind_eq get_tk _ _ _ _ eq_refl), (bind_eq _ _ _ _ _ Hex). split_ands; try done.
    + rewrite EF, fmap_app. by exists (F2.*1).
    + intros Hne Hall. destruct (Z.eqb_spec (tk_epollet s) 0); [done |]. rewrite (Hlp eq_refl), app_nil_r in Ei. subst i1.
      assert (F2 = []) as ->; [|by rewrite EF, app_nil_r]. eapply expects_empty; [exact He |]. unfold stream_after in Haft.
      rewrite Haft, Nat2Z.id, Hall. change (Z.to_nat 0) with 0%nat. rewrite drop_0. apply drop_all.
Qed.

(** ** Examples *)

(** The kernel takes 5 bytes of the first request to server 1 and then nothing;
    a second request is queued behind it, and two retries send the rest. *)
Definition ex_sock : sock_env := Build_sock_env 7 4000 [] [5; - EAGAIN; 1000; 1000; 1000].
Definition ex_tk_ops : list tk_op :=
  [KIter ex_stack 1 100 90 1 30; KIter ex_stack 2 110 100 1 40; KIter ex_stack 3 120 110 0 5; KRetry ex_stack; KRetry ex_stack].

Lemma tcp_client_sends_correct_witness :
  exists c s, new_client (fun _ => true) ex_cfg 0 ex_fz (0, 0) = Ok c /\
    mapM_ (tk_step ex_cfg true) ex_tk_ops (new_tcp_client 1 c (replicate 4 ex_sock)) = Ok (tt, s) /\
    forall i t, tk_conns s !! i = Some t -> (i ∈ tk_blocked s <-> pending t <> 0).
Proof.
  destruct (tcp_client_sends_correct (fun _ => true) ex_cfg 0 ex_fz (0, 0) 1 (replicate 4 ex_sock) true ex_tk_ops)
    as (c & s & log & Hc & Hs & _ & _ & Hall).
  - constructor; cbn; [repeat constructor | repeat constructor; lia | lia | lia].
  - by repeat constructor.
  - vm_compute. reflexivity.
  - apply Forall_replicate. repeat constructor; unfold send_ok; cbn; lia || by right.
  - repeat (apply Forall_cons; split); cbn [tk_op_ok]; rewrite ?(ltac:(vm_compute; reflexivity) : length (tables ex_cfg).2 = 4%nat);
      split_ands; try apply ex_stack_ok; cbn; try lia; try (by left).
  - exists c, s. split_ands; [done | done |]. intros i t Ht. apply (Hall i t Ht).
Defined.

(** Two responses of server 1 in three parts. *)
Definition ex_resp (id l : Z) : message_header := Build_message_header l 0 0 (Build_conn_id 0 1 1 2) id.
Definition ex_frames : list (message_header * list Z) :=
  [(ex_resp 3 20, enc_header (ex_resp 3 20) ++ replicate 8 0); (ex_resp 5 12, enc_header (ex_resp 5 12))].
Definition ex_tcp_in : list rd_result := let w := concat ex_frames.*2 in [RdData (take 7 w); RdData (take 20 (drop 7 w)); RdData (drop 27 w)].
Definition ex_tcp_client : result tcp_client :=
  let! c := new_client (fun _ => true) ex_cfg 0 ex_fz (0, 0) in Ok (new_tcp_client 2 c (replicate 4 (Build_sock_env 7 4000 ex_tcp_in []))).

Lemma tcp_client_read_correct_witness :
  exists s s', ex_tcp_client = Ok s /\ tcp_client_read true (fun _ => 50) 100 1 s = Ok (tt, s') /\ cl_total_responses (tk_cl s') = 2.
Proof.
  assert (exists s, ex_tcp_client = Ok s) as [s Hs] by (vm_compute; by eexists). pose proof Hs as Hs0. vm_compute in Hs0. injection Hs0 as Es.
  destruct (tcp_client_read_correct true (fun _ => 50) 100 1 s
    (default (fresh_conn [] []) (tk_conns s !! 1%nat)) ex_frames) as (s' & hs & Hex & _ & Hrun & _ & _ & _ & Hall); subst s.
  1-5: vm_compute; reflexivity.
  - repeat constructor; cbn; unfold sizeof_header, HOMA_MAX_MESSAGE_LENGTH; lia.
  - repeat constructor; cbn; try lia; (exists 0; split_ands; try (vm_compute; reflexivity); vm_compute; intros [=]).
  - repeat constructor; intros [=].
  - exists []. vm_compute. reflexivity.
  - vm_compute. lia.
  - eexists _, s'. split_ands; [exact Hs | exact Hex |]. rewrite Hall in Hrun; [|intros [=] | vm_compute; reflexivity].
    remember (tk_cl s') as c eqn:Ec. clear Ec Hex Hall. vm_compute in Hrun. injection Hrun as <-. reflexivity.
Defined.
