(* ===== verification/CpStats.v ===== *)
(** * Statistics of the benchmark node (util/cp_node.cc)

    Every second [log_stats] prints what the servers and clients of each
    experiment have done since the last time; the command [dump_times] writes
    the round-trip times that clients have recorded. *)
From stdpp Require Import sorting strings.
From S2P Require Import Prelude Lists Wire Types CpConn CpServer CpClient.

(** The global variables of the statistics. *)
Record stats_vars := {
  sv_time : Z; sv_experiments : list string; sv_per_server : list Z; sv_rpcs : list Z; sv_in : list Z; sv_out : list Z;
  cv_rpcs : list Z; cv_out : list Z; cv_in : list Z; cv_rtt : list Z; cv_lag : list Z; cv_backups : list Z
}.
#[export] Instance eta_stats_vars : Eta stats_vars := fun r =>
  Build_stats_vars (sv_time r) (sv_experiments r) (sv_per_server r) (sv_rpcs r) (sv_in r) (sv_out r) (cv_rpcs r) (cv_out r) (cv_in r)
    (cv_rtt r) (cv_lag r) (cv_backups r).

(** [vector::resize] with zeros. *)
Definition vresize (n : nat) (l : list Z) : list Z := take n l ++ replicate (n - length l) 0.

(** ** server_stats *)

(** The metrics of one server thread. *)
Record thread_metrics := { tm_experiment : string; tm_metrics : server_metrics }.

(** The number of characters of [%lu]. *)
Fixpoint ndigits (fuel : nat) (n : Z) : Z :=
  match fuel with O => 0 | S fuel => if n <? 10 then 1 else 1 + ndigits fuel (n / 10) end.
Definition lu_length (n : Z) : Z := ndigits 20 n.

(** [details] has the numbers printed so far and [offset].  The size passed to
    [snprintf] is a [size_t]: it wraps around when [offset] is larger than the
    array, and the text goes past its end. *)
Definition DETAILS_SIZE : Z := 10000.
Definition add_detail (n : Z) (d : list Z * Z) : result (list Z * Z) :=
  let '(details, offset) := d in
  if offset >? DETAILS_SIZE then Fault ArrayBounds else
  Ok (details ++ [n], offset + (if offset =? 0 then 0 else 1) + lu_length n).

(** The sums for one experiment: requests, bytes in and bytes out. *)
Record srv_sums := { ss_rpcs : Z; ss_in : Z; ss_out : Z; ss_details : list Z * Z; ss_per_server : list Z }.

(** The body of the inner loop, for thread [i]. *)
Definition sum_thread (exp : string) (i : nat) (m : thread_metrics) (a : srv_sums) : result srv_sums :=
  if negb (bool_decide (tm_experiment m = exp)) then Ok a else
  let m := tm_metrics m in
  let! last := arr (ss_per_server a) (Z.of_nat i) in
  let! d := add_detail (u64 (sm_requests m - last)) (ss_details a) in
  let! per := arr_set (ss_per_server a) (Z.of_nat i) (sm_requests m) in
  Ok (Build_srv_sums (u64 (ss_rpcs a + sm_requests m)) (u64 (ss_in a + sm_bytes_in m)) (u64 (ss_out a + sm_bytes_out m)) d per).

Fixpoint sum_threads (exp : string) (i : nat) (ms : list thread_metrics) (a : srv_sums) : result srv_sums :=
  match ms with
  | [] => Ok a
  | m :: ms => let! a := sum_thread exp i m a in sum_threads exp (S i) ms a
  end.

(** A line of the log: the experiment, what its servers did since the last time,
    and the requests of each thread. *)
Record srv_line := { sn_exp : string; sn_elapsed : Z; sn_rpcs : Z; sn_in : Z; sn_out : Z; sn_details : list Z }.

(** The body of the outer loop, for experiment [i]. *)
Definition server_exp (now : Z) (ms : list thread_metrics) (i : nat) (exp : string) (st : stats_vars) : result (list srv_line * stats_vars) :=
  let! a := sum_threads exp 0 ms (Build_srv_sums 0 0 0 ([], 0) (sv_per_server st)) in
  let! l_rpcs := arr (sv_rpcs st) (Z.of_nat i) in
  let! l_in := arr (sv_in st) (Z.of_nat i) in
  let! l_out := arr (sv_out st) (Z.of_nat i) in
  let line := if negb (sv_time st =? 0) && negb (ss_in a =? l_in)
    then [Build_srv_line exp (u64 (now - sv_time st)) (u64 (ss_rpcs a - l_rpcs)) (u64 (ss_in a - l_in)) (u64 (ss_out a - l_out)) (ss_details a).1] else [] in
  let! v1 := arr_set (sv_rpcs st) (Z.of_nat i) (ss_rpcs a) in
  let! v2 := arr_set (sv_in st) (Z.of_nat i) (ss_in a) in
  let! v3 := arr_set (sv_out st) (Z.of_nat i) (ss_out a) in
  Ok (line, st <| sv_per_server := ss_per_server a |> <| sv_rpcs := v1 |> <| sv_in := v2 |> <| sv_out := v3 |>).

Fixpoint server_exps (now : Z) (ms : list thread_metrics) (i : nat) (exps : list string) (st : stats_vars) : result (list srv_line * stats_vars) :=
  match exps with
  | [] => Ok ([], st)
  | exp :: exps =>
      let! (line, st) := server_exp now ms i exp st in
      let! (lines, st) := server_exps now ms (S i) exps st in
      Ok (line ++ lines, st)
  end.

Definition server_stats (now : Z) (ms : list thread_metrics) (st : stats_vars) : result (list srv_line * stats_vars) :=
  let n := length (sv_experiments st) in
  server_exps now ms 0 (sv_experiments st)
    (st <| sv_per_server ::= vresize (length ms) |> <| sv_rpcs ::= vresize n |> <| sv_in ::= vresize n |> <| sv_out ::= vresize n |>).

(** ** client_stats *)

(** A client, and the number of backups if it uses TCP. *)
Record stat_client := { sc_experiment : string; sc_client : client_state; sc_backups : option Z }.

Definition CDF_VALUES : Z := 100000.

(** The vector [num_clients] has as many elements as a [std::vector] has bytes. *)
Definition sizeof_vector : nat := 24.

Fixpoint find_exp (exps : list string) (exp : string) : nat :=
  match exps with [] => 0 | e :: exps => if bool_decide (e = exp) then 0 else S (find_exp exps exp) end.

(** The loop that counts the clients of each experiment. *)
Definition count_client (acc : list string * list Z) (c : stat_client) : result (list string * list Z) :=
  let '(exps, nums) := acc in
  let i := find_exp exps (sc_experiment c) in
  let exps := if (i =? length exps)%nat then exps ++ [sc_experiment c] else exps in
  let! n := arr nums (Z.of_nat i) in
  let! nums := arr_set nums (Z.of_nat i) (n + 1) in
  Ok (exps, nums).

Fixpoint count_clients (cs : list stat_client) (acc : list string * list Z) : result (list string * list Z) :=
  match cs with [] => Ok acc | c :: cs => let! acc := count_client acc c in count_clients cs acc end.

(** [actual_rtts[src]]. *)
Definition rtt_at (c : client_state) (src : Z) : Z := (default (0, 0) (cl_actual c !! src)).2.

(** The most recent round-trip times of a client: the rounds [i], [i + 1], ... *)
Fixpoint collect_rtts (n : nat) (c : client_state) (i : Z) (cdf : list Z) : result (list Z) :=
  match n with
  | O => Ok cdf
  | S n =>
      let src := u64 (cl_total_responses c - i) mod NUM_CLIENT_STATS in
      if rtt_at c src =? 0 then Ok cdf
      else if Z.of_nat (length cdf) <? CDF_VALUES then collect_rtts n c (i + 1) (cdf ++ [rtt_at c src]) else Fault ArrayBounds
  end.

Record cl_sums := { cu_rpcs : Z; cu_out : Z; cu_in : Z; cu_rtt : Z; cu_lag : Z; cu_outstanding : Z; cu_backups : Z; cu_cdf : list Z }.

Definition sum_client (exp : string) (times : Z) (c : stat_client) (a : cl_sums) : result cl_sums :=
  if negb (bool_decide (sc_experiment c = exp)) then Ok a else
  let s := sc_client c in
  let! cdf := collect_rtts (Z.to_nat times) s 1 (cu_cdf a) in
  Ok (Build_cl_sums (u64 (cu_rpcs a + foldr Z.add 0 (cl_responses s))) (u64 (cu_out a + cl_request_bytes s)) (u64 (cu_in a + cl_response_bytes s))
    (u64 (cu_rtt a + cl_total_rtt s)) (u64 (cu_lag a + cl_lag s)) (u64 (cu_outstanding a + (cl_total_requests s - cl_total_responses s)))
    (u64 (cu_backups a + default 0 (sc_backups c))) cdf).

Fixpoint sum_clients (exp : string) (times : Z) (cs : list stat_client) (a : cl_sums) : result cl_sums :=
  match cs with [] => Ok a | c :: cs => let! a := sum_client exp times c a in sum_clients exp times cs a end.

(** The lines about one experiment: the changes since the last time, the three
    percentiles of the round-trip times, the change of the lag, and the
    backups; and the number of outstanding requests.  [cdf_times] is not
    initialised, so that the percentiles have no value when there are no times. *)
Record cl_line := {
  cn_exp : string; cn_elapsed : Z; cn_rpcs : Z; cn_out : Z; cn_in : Z; cn_pct : option (Z * Z * Z); cn_lag : Z; cn_backups : option Z
}.

(** [std::sort] and the percentiles. *)
Definition percentiles (cdf : list Z) : option (Z * Z * Z) :=
  let s := merge_sort Z.le cdf in
  let n := Z.of_nat (length cdf) in
  p50 ← s !! Z.to_nat (n / 2);
  p99 ← s !! Z.to_nat (99 * n / 100);
  p999 ← s !! Z.to_nat (999 * n / 1000);
  Some (p50, p99, p999).

Definition client_exp (now : Z) (cs : list stat_client) (nums : list Z) (i : nat) (exp : string) (st : stats_vars) :
    result (option cl_line * option Z * stats_vars) :=
  let! num := arr nums (Z.of_nat i) in
  if num =? 0 then Ok (None, None, st) else
  let times := CDF_VALUES / num in
  let times := if times >? NUM_CLIENT_STATS then NUM_CLIENT_STATS else times in
  let! a := sum_clients exp times cs (Build_cl_sums 0 0 0 0 0 0 0 []) in
  let ix := Z.of_nat i in
  let! l_rpcs := arr (cv_rpcs st) ix in
  let! l_out := arr (cv_out st) ix in
  let! l_in := arr (cv_in st) ix in
  let! l_lag := arr (cv_lag st) ix in
  let! l_backups := arr (cv_backups st) ix in
  let line := if negb (sv_time st =? 0) && (negb (cu_out a =? l_out) || negb (cu_outstanding a =? 0))
    then Some (Build_cl_line exp (u64 (now - sv_time st)) (u64 (cu_rpcs a - l_rpcs)) (u64 (cu_out a - l_out)) (u64 (cu_in a - l_in))
           (percentiles (cu_cdf a)) (cu_lag a - l_lag) (if cu_backups a =? 0 then None else Some (u64 (cu_backups a - l_backups)))) else None in
  let outstanding := if cu_outstanding a =? 0 then None else Some (cu_outstanding a) in
  let! v1 := arr_set (cv_rpcs st) ix (cu_rpcs a) in
  let! v2 := arr_set (cv_out st) ix (cu_out a) in
  let! v3 := arr_set (cv_in st) ix (cu_in a) in
  let! v4 := arr_set (cv_rtt st) ix (cu_rtt a) in
  let! v5 := arr_set (cv_lag st) ix (cu_lag a) in
  let! v6 := arr_set (cv_backups st) ix (cu_backups a) in
  Ok (line, outstanding, st <| cv_rpcs := v1 |> <| cv_out := v2 |> <| cv_in := v3 |> <| cv_rtt := v4 |> <| cv_lag := v5 |> <| cv_backups := v6 |>).

Fixpoint client_exps (now : Z) (cs : list stat_client) (nums : list Z) (i : nat) (exps : list string) (st : stats_vars) :
    result (list (option cl_line * option Z) * stats_vars) :=
  match exps with
  | [] => Ok ([], st)
  | exp :: exps =>
      let! (line, out, st) := client_exp now cs nums i exp st in
      let! (lines, st) := client_exps now cs nums (S i) exps st in
      Ok ((line, out) :: lines, st)
  end.

Definition client_stats (now : Z) (cs : list stat_client) (st : stats_vars) : result (list (option cl_line * option Z) * stats_vars) :=
  let! (exps, nums) := count_clients cs (sv_experiments st, replicate sizeof_vector 0) in
  let n := length exps in
  client_exps now cs nums 0 exps
    (st <| sv_experiments := exps |> <| cv_rpcs ::= vresize n |> <| cv_out ::= vresize n |> <| cv_in ::= vresize n |> <| cv_rtt ::= vresize n |>
      <| cv_lag ::= vresize n |> <| cv_backups ::= vresize n |>).

(** The body of the loop of [log_stats]. *)
Definition log_stats (now : Z) (ms : list thread_metrics) (cs : list stat_client) (st : stats_vars) :
    result (list srv_line * list (option cl_line * option Z) * stats_vars) :=
  let! (l1, st) := server_stats now ms st in
  let! (l2, st) := client_stats now cs st in
  Ok (l1, l2, st <| sv_time := now |>).

(** ** dump_times

    The lines written for one client. *)
Definition dump_slot (acc : list (Z * Z) * client_state) (i : Z) : list (Z * Z) * client_state :=
  let '(out, c) := acc in
  let '(len, rtt) := default (0, 0) (cl_actual c !! i) in
  if rtt =? 0 then acc else (out ++ [(len, rtt)], c <| cl_actual ::= insert i (len, 0) |>).

(** The indices that the loop visits. *)
Definition dump_order (c : client_state) : list Z :=
  let start := cl_total_responses c mod NUM_CLIENT_STATS in seqZ start (NUM_CLIENT_STATS - start) ++ seqZ 0 start.
Definition dump_client (c : client_state) : list (Z * Z) * client_state := foldl dump_slot ([], c) (dump_order c).

(** The loop of [dump_times_cmd] over the clients; [None] means all experiments. *)
Definition dump_times (exp : option string) (cs : list stat_client) : list (Z * Z) * list stat_client :=
  foldr (fun c acc =>
    if match exp with None => true | Some e => bool_decide (sc_experiment c = e) end
    then let '(out, s) := dump_client (sc_client c) in (out ++ acc.1, Build_stat_client (sc_experiment c) s (sc_backups c) :: acc.2)
    else (acc.1, c :: acc.2)) ([], []) cs.

(** ** Lemmas *)

Lemma ndigits_bound fuel n : 0 <= ndigits fuel n <= Z.of_nat fuel.
Proof. revert n. induction fuel as [|fuel IH]; intros n; cbn [ndigits]; [lia |]. destruct (n <? 10); [lia |]. specialize (IH (n / 10)). lia. Qed.

Lemma vresize_length n l : length (vresize n l) = n.
Proof. unfold vresize. rewrite length_app, length_take, length_replicate. lia. Qed.

(** *** Servers *)
Definition of_exp (exp : string) (m : thread_metrics) : Prop := tm_experiment m = exp.
#[export] Instance of_exp_dec exp m : Decision (of_exp exp m).
Proof. unfold of_exp. apply _. Defined.

(** What the servers of an experiment have done so far. *)
Definition exp_sum (f : server_metrics -> Z) (exp : string) (ms : list thread_metrics) : Z :=
  total ((fun m => f (tm_metrics m)) <$> filter (of_exp exp) ms).

(** The requests of its threads since the last time. *)
Definition exp_details (exp : string) (ms : list thread_metrics) (last : list Z) : list Z :=
  concat (zip_with (fun m p => if decide (of_exp exp m) then [u64 (sm_requests (tm_metrics m) - p)] else []) ms last).
Definition exp_per (exp : string) (ms : list thread_metrics) (last : list Z) : list Z :=
  zip_with (fun m p => if decide (of_exp exp m) then sm_requests (tm_metrics m) else p) ms last.

Lemma exp_sum_cons f exp m ms :
  exp_sum f exp (m :: ms) = (if decide (of_exp exp m) then f (tm_metrics m) else 0) + exp_sum f exp ms.
Proof. unfold exp_sum, total. rewrite filter_cons. destruct (decide _); cbn; lia. Qed.

Lemma arr_middle {A} (pre tail : list A) x n : length pre = n -> arr (pre ++ x :: tail) (Z.of_nat n) = Ok x.
Proof. intros <-. apply arr_Ok. split; [lia |]. rewrite Nat2Z.id. by apply list_lookup_middle. Qed.

Lemma arr_set_middle {A} (pre tail : list A) x y n : length pre = n -> arr_set (pre ++ x :: tail) (Z.of_nat n) y = Ok (pre ++ y :: tail).
Proof.
  intros <-. apply arr_set_Ok. split; [rewrite length_app; cbn; lia |]. rewrite Nat2Z.id, insert_app_r_alt, Nat.sub_diag by done. done.
Qed.

Lemma sum_threads_spec exp ms : forall pre tail a x y z,
  length tail = length ms -> ss_per_server a = pre ++ tail -> 0 <= (ss_details a).2 -> (ss_details a).2 + 21 * Z.of_nat (length ms) <= DETAILS_SIZE ->
  ss_rpcs a = u64 x -> ss_in a = u64 y -> ss_out a = u64 z ->
  exists off, sum_threads exp (length pre) ms a = Ok (Build_srv_sums (u64 (x + exp_sum sm_requests exp ms)) (u64 (y + exp_sum sm_bytes_in exp ms))
    (u64 (z + exp_sum sm_bytes_out exp ms)) ((ss_details a).1 ++ exp_details exp ms tail, off) (pre ++ exp_per exp ms tail)).
Proof.
  induction ms as [|m ms IH]; intros pre tail a x y z Hl Hp H0 Hoff Hx Hy Hz; (destruct tail as [|p tail]; try done).
  - exists (ss_details a).2. destruct a as [? ? ? [d o] per]. cbn in *. subst. unfold exp_sum. cbn. by rewrite !Z.add_0_r, !app_nil_r.
  - cbn [length] in *. cbn [sum_threads]. unfold sum_thread, exp_details, exp_per. cbn [zip_with concat]. rewrite !exp_sum_cons.
    replace (S (length pre)) with (length (pre ++ [if decide (of_exp exp m) then sm_requests (tm_metrics m) else p])) by (rewrite length_app; cbn; lia).
    destruct (decide (of_exp exp m)) as [E | E].
    + rewrite bool_decide_true by done. cbn [negb]. rewrite Hp, arr_middle by done. cbn [result_bind]. unfold add_detail.
      destruct (ss_details a) as [d off0]. cbn [fst snd] in *. destruct (Z.gtb_spec off0 DETAILS_SIZE) as [Hgt | _]; [lia |]. cbn [result_bind]. rewrite arr_set_middle by done. cbn [result_bind].
      pose proof (ndigits_bound 20 (u64 (sm_requests (tm_metrics m) - p))) as Hd. unfold lu_length. set (nd := ndigits 20 _) in *. clearbody nd.
      set (a1 := Build_srv_sums _ _ _ _ _).
      destruct (IH (pre ++ [sm_requests (tm_metrics m)]) tail a1 (x + sm_requests (tm_metrics m)) (y + sm_bytes_in (tm_metrics m)) (z + sm_bytes_out (tm_metrics m)))
        as (off & Hex); cbn [a1 ss_per_server ss_details ss_rpcs ss_in ss_out fst snd]; try (rewrite ?Hx, ?Hy, ?Hz; apply u64_add_l).
      * lia.
      * by rewrite <- app_assoc.
      * destruct (off0 =? 0); lia.
      * destruct (off0 =? 0); lia.
      * exists off. rewrite Hex. cbn [a1 fst ss_details]. by rewrite <- !app_assoc, !Z.add_assoc.
    + rewrite bool_decide_false by done. cbn [negb result_bind].
      destruct (IH (pre ++ [p]) tail a x y z) as (off & Hex); try done; [lia | by rewrite <- app_assoc | lia |].
      exists off. rewrite Hex. by rewrite <- !app_assoc, !Z.add_0_l.
Qed.

(** What [server_stats] says about an experiment that had the totals [last]. *)
Definition exp_line (now time : Z) (ms : list thread_metrics) (per : list Z) (exp : string) (last : Z * Z * Z) : list srv_line :=
  let '(r, i, o) := last in
  if negb (time =? 0) && negb (u64 (exp_sum sm_bytes_in exp ms) =? i)
  then [Build_srv_line exp (u64 (now - time)) (u64 (u64 (exp_sum sm_requests exp ms) - r)) (u64 (u64 (exp_sum sm_bytes_in exp ms) - i))
          (u64 (u64 (exp_sum sm_bytes_out exp ms) - o)) (exp_details exp ms per)] else [].

Lemma exp_details_other exp exp' ms p : exp <> exp' -> exp_details exp ms (exp_per exp' ms p) = exp_details exp ms p.
Proof.
  intros Hne. unfold exp_details, exp_per. revert p. induction ms as [|m ms IH]; intros [|x p]; try done. cbn. rewrite IH. f_equal.
  unfold of_exp. destruct (decide (tm_experiment m = exp)), (decide (tm_experiment m = exp')); congruence.
Qed.

Lemma exp_per_length exp ms p : length p = length ms -> length (exp_per exp ms p) = length ms.
Proof. intros H. unfold exp_per. rewrite length_zip_with. lia. Qed.

Definition all_per (exps : list string) (ms : list thread_metrics) (p : list Z) : list Z := foldl (fun p e => exp_per e ms p) p exps.

Lemma all_per_cons exps m ms x p :
  all_per exps (m :: ms) (x :: p) = (if decide (tm_experiment m ∈ exps) then sm_requests (tm_metrics m) else x) :: all_per exps ms p.
Proof.
  unfold all_per. revert x p. induction exps as [|e exps IH]; intros x p; [done |]. cbn [foldl exp_per zip_with]. unfold exp_per at 1. cbn [zip_with].
  fold (exp_per e ms p). rewrite IH. f_equal. unfold of_exp.
  repeat case_decide; set_solver.
Qed.

Lemma all_per_eq exps ms p : length p = length ms -> Forall (fun m => tm_experiment m ∈ exps) ms ->
  all_per exps ms p = (fun m => sm_requests (tm_metrics m)) <$> ms.
Proof.
  intros Hl H. revert p Hl. induction H as [|m ms Hm _ IH]; intros [|x p] Hl; try done.
  - unfold all_per. clear. induction exps; [done |]. cbn. done.
  - rewrite all_per_cons, decide_True by done. cbn. f_equal. apply IH. by injection Hl.
Qed.

Lemma server_exps_spec now ms exps : forall st pr pi po rt it ot per,
  NoDup exps -> 21 * Z.of_nat (length ms) <= DETAILS_SIZE -> length (sv_per_server st) = length ms ->
  sv_rpcs st = pr ++ rt -> sv_in st = pi ++ it -> sv_out st = po ++ ot ->
  length pi = length pr -> length po = length pr -> length rt = length exps -> length it = length exps -> length ot = length exps ->
  (forall e, e ∈ exps -> exp_details e ms (sv_per_server st) = exp_details e ms per) ->
  server_exps now ms (length pr) exps st =
    Ok (concat (zip_with (exp_line now (sv_time st) ms per) exps (zip (zip rt it) ot)),
        st <| sv_per_server := all_per exps ms (sv_per_server st) |> <| sv_rpcs := pr ++ ((fun e => u64 (exp_sum sm_requests e ms)) <$> exps) |>
           <| sv_in := pi ++ ((fun e => u64 (exp_sum sm_bytes_in e ms)) <$> exps) |> <| sv_out := po ++ ((fun e => u64 (exp_sum sm_bytes_out e ms)) <$> exps) |>).
Proof.
  induction exps as [|e exps IH]; intros st pr pi po rt it ot per Hnd Hd Hper Er Ei Eo Lpi Lpo Lr Li Lo Hdet.
  - destruct rt, it, ot; try done. cbn. rewrite <- Er, <- Ei, <- Eo. by destruct st.
  - destruct rt as [|r rt], it as [|i it], ot as [|o ot]; try done. apply NoDup_cons in Hnd as [Hni Hnd].
    cbn [server_exps]. unfold server_exp.
    destruct (sum_threads_spec e ms [] (sv_per_server st) (Build_srv_sums 0 0 0 ([], 0) (sv_per_server st)) 0 0 0) as (off & Hs); try done.
    cbn [length] in Hs. rewrite Hs, !Z.add_0_l. cbn [result_bind ss_details ss_rpcs ss_in ss_out ss_per_server fst].
    rewrite Er, Ei, Eo. rewrite !arr_middle, !arr_set_middle by done. cbn [result_bind].
    set (st1 := st <| sv_per_server := _ |> <| sv_rpcs := _ |> <| sv_in := _ |> <| sv_out := _ |>).
    set (e1 := u64 (exp_sum sm_requests e ms)) in *. set (e2 := u64 (exp_sum sm_bytes_in e ms)) in *. set (e3 := u64 (exp_sum sm_bytes_out e ms)) in *.
    pose proof (IH st1 (pr ++ [e1]) (pi ++ [e2]) (po ++ [e3]) rt it ot per Hnd Hd) as IH1.
    replace (length (pr ++ [e1])) with (S (length pr)) in IH1 by (rewrite length_app; cbn; lia).
    rewrite IH1; clear IH1.
    + cbn [result_bind zip_with concat zip]. f_equal. f_equal.
      * f_equal. unfold exp_line. cbn. rewrite (Hdet e) by (by left). fold e2. done.
      * unfold st1. cbn. by rewrite <- !app_assoc.
    + cbn. by apply exp_per_length.
    + cbn. by rewrite <- app_assoc.
    + cbn. by rewrite <- app_assoc.
    + cbn. by rewrite <- app_assoc.
    + rewrite length_app. cbn. lia.
    + rewrite length_app. cbn. lia.
    + by injection Lr.
    + by injection Li.
    + by injection Lo.
    + intros e' He'. cbn. rewrite exp_details_other by (intros ->; done). apply Hdet. by right.
Qed.

Lemma server_stats_spec now ms st :
  NoDup (sv_experiments st) -> Forall (fun m => tm_experiment m ∈ sv_experiments st) ms -> 21 * Z.of_nat (length ms) <= DETAILS_SIZE ->
  let n := length (sv_experiments st) in
  server_stats now ms st =
    Ok (concat (zip_with (exp_line now (sv_time st) ms (vresize (length ms) (sv_per_server st))) (sv_experiments st)
          (zip (zip (vresize n (sv_rpcs st)) (vresize n (sv_in st))) (vresize n (sv_out st)))),
        st <| sv_per_server := (fun m => sm_requests (tm_metrics m)) <$> ms |>
           <| sv_rpcs := (fun e => u64 (exp_sum sm_requests e ms)) <$> sv_experiments st |>
           <| sv_in := (fun e => u64 (exp_sum sm_bytes_in e ms)) <$> sv_experiments st |>
           <| sv_out := (fun e => u64 (exp_sum sm_bytes_out e ms)) <$> sv_experiments st |>).
Proof.
  intros Hnd He Hd n. unfold server_stats. fold n. set (st1 := st <| sv_per_server ::= _ |> <| sv_rpcs ::= _ |> <| sv_in ::= _ |> <| sv_out ::= _ |>).
  pose proof (server_exps_spec now ms (sv_experiments st) st1 [] [] [] (sv_rpcs st1) (sv_in st1) (sv_out st1) (sv_per_server st1)) as H.
  cbn [length app] in H. rewrite H by (done || (cbn; apply vresize_length)). cbn. f_equal. f_equal. f_equal.
  apply all_per_eq; [apply vresize_length | done].
Qed.

(** *** Clients *)
Definition of_cexp (exp : string) (c : stat_client) : Prop := sc_experiment c = exp.
#[export] Instance of_cexp_dec exp c : Decision (of_cexp exp c).
Proof. unfold of_cexp. apply _. Defined.
Definition num_of (exp : string) (cs : list stat_client) : Z := Z.of_nat (length (filter (of_cexp exp) cs)).

(** The experiments after those of the clients were added. *)
Definition exps_after (cs : list stat_client) (exps : list string) : list string :=
  foldl (fun l c => if decide (sc_experiment c ∈ l) then l else l ++ [sc_experiment c]) exps cs.

Lemma find_exp_in exps exp : exp ∈ exps -> exists pre tail, exps = pre ++ exp :: tail /\ find_exp exps exp = length pre.
Proof.
  induction exps as [|e exps IH]; intros H; [by apply elem_of_nil in H |]. cbn [find_exp]. destruct (decide (e = exp)) as [-> | Hne].
  - rewrite bool_decide_true by done. by exists [], exps.
  - rewrite bool_decide_false by done. apply elem_of_cons in H as [H | H]; [congruence |]. destruct (IH H) as (pre & tail & -> & ->). by exists (e :: pre), tail.
Qed.

Lemma find_exp_out exps exp : exp ∉ exps -> find_exp exps exp = length exps.
Proof.
  induction exps as [|e exps IH]; intros H; [done |]. apply not_elem_of_cons in H as [Hne H]. cbn [find_exp]. rewrite bool_decide_false by congruence.
  cbn. by rewrite IH.
Qed.

Lemma num_of_app exp cs cs' : num_of exp (cs ++ cs') = num_of exp cs + num_of exp cs'.
Proof. unfold num_of. rewrite filter_app, length_app. lia. Qed.

Lemma num_of_one exp c : num_of exp [c] = if decide (sc_experiment c = exp) then 1 else 0.
Proof. unfold num_of. cbn. unfold of_cexp_dec, of_cexp. by destruct (decide (sc_experiment c = exp)). Qed.

Lemma num_of_none exp cs : Forall (fun c => sc_experiment c <> exp) cs -> num_of exp cs = 0.
Proof. induction 1 as [|c cs Hc _ IH]; [done |]. change (c :: cs) with ([c] ++ cs). rewrite num_of_app, num_of_one, IH. by rewrite decide_False. Qed.

Lemma exps_after_length cs exps : (length exps <= length (exps_after cs exps))%nat.
Proof.
  unfold exps_after. revert exps. induction cs as [|c cs IH]; intros exps; [done |]. cbn [foldl]. etransitivity; [|apply IH].
  case_decide; [done |]. rewrite length_app. lia.
Qed.

(** The counts of the experiments [exps] when the clients [cs] were counted. *)
Definition counts_of (exps : list string) (cs : list stat_client) : list Z :=
  ((fun e => num_of e cs) <$> exps) ++ replicate (sizeof_vector - length exps) 0.

Lemma count_client_spec exps done_ c :
  NoDup exps -> Forall (fun c => sc_experiment c ∈ exps) done_ -> (length (exps_after [c] exps) <= sizeof_vector)%nat ->
  count_client (exps, counts_of exps done_) c = Ok (exps_after [c] exps, counts_of (exps_after [c] exps) (done_ ++ [c])).
Proof.
  intros Hnd Hd Hl. unfold count_client, counts_of. cbn [exps_after foldl] in *. destruct (decide (sc_experiment c ∈ exps)) as [Hin | Hout].
  - destruct (find_exp_in _ _ Hin) as (pre & tail & E & Hf). rewrite Hf. destruct (Nat.eqb_spec (length pre) (length exps)) as [El | _].
    { exfalso. rewrite E, length_app in El. cbn in El. lia. }
    rewrite E in Hnd |- *. rewrite !fmap_app. cbn [fmap list_fmap]. rewrite <- !app_assoc. cbn [app].
    rewrite arr_middle by (by rewrite length_fmap). cbn [result_bind]. rewrite arr_set_middle by (by rewrite length_fmap). cbn [result_bind]. rewrite num_of_app, num_of_one, decide_True by done.
    apply NoDup_app in Hnd as (_ & Hpre & Htail). apply NoDup_cons in Htail as [Hnt _].
    assert (forall l : list string, sc_experiment c ∉ l -> (fun e => num_of e (done_ ++ [c])) <$> l = (fun e => num_of e done_) <$> l) as Hsame.
    { intros l Hl'. apply list_fmap_ext. intros i e He. rewrite num_of_app, num_of_one, decide_False, Z.add_0_r; [done |]. intros E'. apply Hl'. rewrite E'. by eapply list_elem_of_lookup_2. }
    rewrite !Hsame; [done | done |]. intros Hp. apply (Hpre _ Hp). by left.
  - rewrite find_exp_out by done. rewrite Nat.eqb_refl. rewrite length_app in Hl. cbn [length] in Hl.
    replace (sizeof_vector - length exps)%nat with (S (sizeof_vector - length (exps ++ [sc_experiment c]))) by (rewrite length_app; cbn [length]; lia).
    cbn [replicate]. rewrite arr_middle by (by rewrite length_fmap). cbn [result_bind]. rewrite arr_set_middle by (by rewrite length_fmap). cbn [result_bind]. rewrite fmap_app, <- app_assoc. cbn [fmap list_fmap app].
    rewrite num_of_app, num_of_one, decide_True by done. rewrite (num_of_none _ done_); [|eapply Forall_impl; [apply Hd |]; intros c' Hc' E'; cbn in Hc'; congruence].
    do 3 f_equal. apply list_fmap_ext. intros i e He. rewrite num_of_app, num_of_one, decide_False, Z.add_0_r; [done |]. intros E'. apply Hout. rewrite E'. by eapply list_elem_of_lookup_2.
Qed.

Lemma count_clients_spec cs : forall exps done_,
  NoDup exps -> Forall (fun c => sc_experiment c ∈ exps) done_ -> (length (exps_after cs exps) <= sizeof_vector)%nat ->
  count_clients cs (exps, counts_of exps done_) = Ok (exps_after cs exps, counts_of (exps_after cs exps) (done_ ++ cs)) /\ NoDup (exps_after cs exps).
Proof.
  induction cs as [|c cs IH]; intros exps done_ Hnd Hd Hl; [cbn; by rewrite app_nil_r |]. cbn [count_clients].
  change (exps_after (c :: cs) exps) with (exps_after cs (exps_after [c] exps)) in *.
  rewrite count_client_spec by (done || (etransitivity; [apply (exps_after_length cs) | done])). cbn [result_bind].
  destruct (IH (exps_after [c] exps) (done_ ++ [c])) as [IH1 IH2]; try done.
  - cbn. case_decide; [done |]. apply NoDup_app. split_ands; [done | | apply NoDup_singleton]. intros e He. set_solver.
  - cbn. apply Forall_app. split; [eapply Forall_impl; [apply Hd |]; intros c' Hc'; cbn in *; case_decide; set_solver | constructor; [case_decide; set_solver | done]].
  - by rewrite IH1, <- app_assoc.
Qed.

(** The most recent times of a client, newest first, up to the first slot that
    is empty. *)
Fixpoint recent_rtts (n : nat) (c : client_state) (i : Z) : list Z :=
  match n with
  | O => []
  | S n => let r := rtt_at c (u64 (cl_total_responses c - i) mod NUM_CLIENT_STATS) in if r =? 0 then [] else r :: recent_rtts n c (i + 1)
  end.

Lemma recent_rtts_length n c i : (length (recent_rtts n c i) <= n)%nat.
Proof. revert i. induction n as [|n IH]; intros i; cbn [recent_rtts]; [done |]. destruct (_ =? 0); cbn; [lia |]. specialize (IH (i + 1)). lia. Qed.

Lemma collect_rtts_spec n c : forall i cdf, Z.of_nat (length cdf) + Z.of_nat n <= CDF_VALUES -> collect_rtts n c i cdf = Ok (cdf ++ recent_rtts n c i).
Proof.
  induction n as [|n IH]; intros i cdf H; cbn [collect_rtts recent_rtts]; [by rewrite app_nil_r |].
  destruct (rtt_at c _ =? 0); [by rewrite app_nil_r |]. destruct (Z.ltb_spec (Z.of_nat (length cdf)) CDF_VALUES); [|lia].
  rewrite IH by (rewrite length_app; cbn; lia). by rewrite <- app_assoc.
Qed.

(** Sums over the clients of an experiment. *)
Definition cexp_sum (f : stat_client -> Z) (exp : string) (cs : list stat_client) : Z := total (f <$> filter (of_cexp exp) cs).
Definition cexp_rtts (times : Z) (exp : string) (cs : list stat_client) : list Z :=
  concat ((fun c => recent_rtts (Z.to_nat times) (sc_client c) 1) <$> filter (of_cexp exp) cs).
Definition f_rpcs (c : stat_client) : Z := foldr Z.add 0 (cl_responses (sc_client c)).
Definition f_outstanding (c : stat_client) : Z := cl_total_requests (sc_client c) - cl_total_responses (sc_client c).
Definition f_backups (c : stat_client) : Z := default 0 (sc_backups c).

Definition sums_of (times : Z) (exp : string) (cs : list stat_client) : cl_sums :=
  Build_cl_sums (u64 (cexp_sum f_rpcs exp cs)) (u64 (cexp_sum (cl_request_bytes ∘ sc_client) exp cs)) (u64 (cexp_sum (cl_response_bytes ∘ sc_client) exp cs))
    (u64 (cexp_sum (cl_total_rtt ∘ sc_client) exp cs)) (u64 (cexp_sum (cl_lag ∘ sc_client) exp cs)) (u64 (cexp_sum f_outstanding exp cs))
    (u64 (cexp_sum f_backups exp cs)) (cexp_rtts times exp cs).

Lemma cexp_sum_snoc f exp cs c : cexp_sum f exp (cs ++ [c]) = cexp_sum f exp cs + (if decide (of_cexp exp c) then f c else 0).
Proof.
  unfold cexp_sum, total. rewrite filter_app, fmap_app, foldr_app. cbn.
  assert (forall l z, foldr Z.add z l = foldr Z.add 0 l + z) as H by (induction l as [|a l IH]; intros z; cbn; [lia |]; rewrite IH; lia).
  rewrite H. destruct (decide (of_cexp exp c)); cbn; lia.
Qed.

Lemma cexp_rtts_snoc times exp cs c :
  cexp_rtts times exp (cs ++ [c]) = cexp_rtts times exp cs ++ (if decide (of_cexp exp c) then recent_rtts (Z.to_nat times) (sc_client c) 1 else []).
Proof.
  unfold cexp_rtts. rewrite filter_app, fmap_app, concat_app. f_equal. cbn. destruct (decide (of_cexp exp c)); cbn; [apply app_nil_r | done].
Qed.

Lemma cexp_rtts_length times exp cs : 0 <= times -> Z.of_nat (length (cexp_rtts times exp cs)) <= times * num_of exp cs.
Proof.
  intros Ht. unfold cexp_rtts, num_of. induction (filter (of_cexp exp) cs) as [|c l IH]; cbn; [lia |].
  rewrite length_app. pose proof (recent_rtts_length (Z.to_nat times) (sc_client c) 1). lia.
Qed.

Lemma sum_clients_spec times exp cs : forall done_,
  0 <= times -> times * num_of exp (done_ ++ cs) <= CDF_VALUES ->
  sum_clients exp times cs (sums_of times exp done_) = Ok (sums_of times exp (done_ ++ cs)).
Proof.
  induction cs as [|c cs IH]; intros done_ Ht Hn; [by rewrite app_nil_r |]. cbn [sum_clients].
  change (c :: cs) with ([c] ++ cs) in *. rewrite app_assoc in *. rewrite <- IH by done. unfold sum_client.
  pose proof (cexp_rtts_length times exp done_ Ht) as Hl. assert (0 <= num_of exp cs) as H0 by (unfold num_of; lia).
  rewrite !num_of_app, num_of_one in Hn.
  assert (sums_of times exp (done_ ++ [c]) = if decide (of_cexp exp c) then
    Build_cl_sums (u64 (u64 (cexp_sum f_rpcs exp done_) + f_rpcs c)) (u64 (u64 (cexp_sum (cl_request_bytes ∘ sc_client) exp done_) + cl_request_bytes (sc_client c)))
      (u64 (u64 (cexp_sum (cl_response_bytes ∘ sc_client) exp done_) + cl_response_bytes (sc_client c)))
      (u64 (u64 (cexp_sum (cl_total_rtt ∘ sc_client) exp done_) + cl_total_rtt (sc_client c))) (u64 (u64 (cexp_sum (cl_lag ∘ sc_client) exp done_) + cl_lag (sc_client c)))
      (u64 (u64 (cexp_sum f_outstanding exp done_) + f_outstanding c)) (u64 (u64 (cexp_sum f_backups exp done_) + f_backups c))
      (cexp_rtts times exp done_ ++ recent_rtts (Z.to_nat times) (sc_client c) 1) else sums_of times exp done_) as ->.
  { unfold sums_of. rewrite !cexp_sum_snoc, cexp_rtts_snoc, !u64_add_l. destruct (decide (of_cexp exp c)); [done |]. by rewrite !Z.add_0_r, app_nil_r. }
  unfold of_cexp in *. destruct (decide (sc_experiment c = exp)) as [E | E].
  - rewrite bool_decide_true by done. cbn [negb]. rewrite collect_rtts_spec; [done |]. cbn [sums_of cu_cdf]. nia.
  - rewrite bool_decide_false by done. done.
Qed.

(** How many times are taken from each of [num] clients. *)
Definition rtt_times (num : Z) : Z := if CDF_VALUES / num >? NUM_CLIENT_STATS then NUM_CLIENT_STATS else CDF_VALUES / num.
Definition exp_sums (exp : string) (cs : list stat_client) : cl_sums := sums_of (rtt_times (num_of exp cs)) exp cs.

(** What is logged about an experiment, when [st] has the values of the last time. *)
Definition cl_report (now : Z) (cs : list stat_client) (st : stats_vars) (i : nat) (exp : string) : option cl_line * option Z :=
  if num_of exp cs =? 0 then (None, None) else
  let a := exp_sums exp cs in
  (if negb (sv_time st =? 0) && (negb (cu_out a =? nth i (cv_out st) 0) || negb (cu_outstanding a =? 0))
   then Some (Build_cl_line exp (u64 (now - sv_time st)) (u64 (cu_rpcs a - nth i (cv_rpcs st) 0)) (u64 (cu_out a - nth i (cv_out st) 0))
          (u64 (cu_in a - nth i (cv_in st) 0)) (percentiles (cu_cdf a)) (cu_lag a - nth i (cv_lag st) 0)
          (if cu_backups a =? 0 then None else Some (u64 (cu_backups a - nth i (cv_backups st) 0)))) else None,
   if cu_outstanding a =? 0 then None else Some (cu_outstanding a)).

Definition cl_update (cs : list stat_client) (i : nat) (exp : string) (st : stats_vars) : stats_vars :=
  if num_of exp cs =? 0 then st else
  let a := exp_sums exp cs in
  st <| cv_rpcs ::= <[i := cu_rpcs a]> |> <| cv_out ::= <[i := cu_out a]> |> <| cv_in ::= <[i := cu_in a]> |> <| cv_rtt ::= <[i := cu_rtt a]> |>
     <| cv_lag ::= <[i := cu_lag a]> |> <| cv_backups ::= <[i := cu_backups a]> |>.

Record vecs_len (n : nat) (st : stats_vars) : Prop := {
  vl_rpcs : length (cv_rpcs st) = n; vl_out : length (cv_out st) = n; vl_in : length (cv_in st) = n;
  vl_rtt : length (cv_rtt st) = n; vl_lag : length (cv_lag st) = n; vl_backups : length (cv_backups st) = n
}.

Lemma arr_nth (l : list Z) i : (i < length l)%nat -> arr l (Z.of_nat i) = Ok (nth i l 0).
Proof.
  intros H. apply arr_Ok. split; [lia |]. rewrite Nat2Z.id. destruct (lookup_lt_is_Some_2 l i H) as [x Hx]. rewrite Hx. f_equal.
  symmetry. by apply nth_lookup_Some.
Qed.

Lemma arr_set_nat {A} (l : list A) i x : (i < length l)%nat -> arr_set l (Z.of_nat i) x = Ok (<[i := x]> l).
Proof. intros H. apply arr_set_Ok. split; [lia |]. by rewrite Nat2Z.id. Qed.

Lemma rtt_times_bound num : 0 < num -> 0 <= rtt_times num /\ rtt_times num * num <= CDF_VALUES.
Proof.
  intros H. unfold rtt_times. pose proof (Z.mul_div_le CDF_VALUES num H) as Hd. assert (0 <= CDF_VALUES / num) by (by apply Z.div_pos).
  unfold NUM_CLIENT_STATS in *. destruct (Z.gtb_spec (CDF_VALUES / num) 500000); nia.
Qed.

Lemma client_exp_spec now cs nums i exp st n :
  vecs_len n st -> (i < n)%nat -> arr nums (Z.of_nat i) = Ok (num_of exp cs) ->
  client_exp now cs nums i exp st = Ok (cl_report now cs st i exp, cl_update cs i exp st).
Proof.
  intros [L1 L2 L3 L4 L5 L6] Hi Hn. unfold client_exp, cl_report, cl_update. rewrite Hn. cbn [result_bind].
  destruct (Z.eqb_spec (num_of exp cs) 0) as [E | E]; [done |]. assert (0 < num_of exp cs) as Hpos by (unfold num_of in *; lia).
  destruct (rtt_times_bound _ Hpos) as [Ht0 Ht]. fold (rtt_times (num_of exp cs)).
  pose proof (sum_clients_spec (rtt_times (num_of exp cs)) exp cs [] Ht0 Ht) as Hs. cbn [app] in Hs.
  change (sums_of (rtt_times (num_of exp cs)) exp []) with (Build_cl_sums 0 0 0 0 0 0 0 []) in Hs. rewrite Hs. cbn [result_bind]. fold (exp_sums exp cs).
  rewrite !arr_nth by congruence. cbn [result_bind]. rewrite !arr_set_nat by congruence. reflexivity.
Qed.

Lemma cl_update_len cs i exp st n : vecs_len n st -> vecs_len n (cl_update cs i exp st).
Proof. intros [? ? ? ? ? ?]. unfold cl_update. destruct (_ =? 0); [by constructor |]. constructor; cbn -[insert]; by rewrite length_insert. Qed.

(** Updates of other experiments do not matter. *)
Lemma cl_report_update now cs i j exp exp' st : (i < j)%nat -> cl_report now cs (cl_update cs i exp st) j exp' = cl_report now cs st j exp'.
Proof.
  intros Hij. unfold cl_update. destruct (num_of exp cs =? 0); [done |]. unfold cl_report. cbn -[insert].
  assert (forall (l : list Z) x, nth j (<[i := x]> l) 0 = nth j l 0) as Hn.
  { intros l x. rewrite !nth_lookup, list_lookup_insert_ne by lia. done. }
  by rewrite !Hn.
Qed.

Fixpoint cl_updates (cs : list stat_client) (i : nat) (exps : list string) (st : stats_vars) : stats_vars :=
  match exps with [] => st | e :: exps => cl_updates cs (S i) exps (cl_update cs i e st) end.

Lemma client_exps_spec now cs nums exps : forall i st n,
  vecs_len n st -> (i + length exps <= n)%nat -> (forall k e, exps !! k = Some e -> arr nums (Z.of_nat (i + k)) = Ok (num_of e cs)) ->
  client_exps now cs nums i exps st = Ok (imap (fun k e => cl_report now cs st (i + k) e) exps, cl_updates cs i exps st).
Proof.
  induction exps as [|e exps IH]; intros i st n Hv Hi Hn; [done |]. cbn [client_exps cl_updates length imap] in *.
  rewrite (client_exp_spec now cs nums i e st n Hv) by (lia || (specialize (Hn 0%nat e eq_refl); by rewrite Nat.add_0_r in Hn)).
  cbn [result_bind]. destruct (cl_report now cs st i e) as [line out] eqn:Er.
  rewrite (IH (S i) _ n) by (by apply cl_update_len || lia || (intros k e' Hk; specialize (Hn (S k) e' Hk); by rewrite Nat.add_succ_r in Hn)).
  cbn [result_bind]. rewrite Nat.add_0_r, Er. do 3 f_equal. apply imap_ext. intros k e' Hk. cbn. rewrite cl_report_update by lia. f_equal. lia.
Qed.

(** The totals of experiment [e] are stored at its index. *)
Definition stored (cs : list stat_client) (st : stats_vars) (i : nat) (e : string) : Prop :=
  let a := exp_sums e cs in
  cv_rpcs st !! i = Some (cu_rpcs a) /\ cv_out st !! i = Some (cu_out a) /\ cv_in st !! i = Some (cu_in a) /\ cv_rtt st !! i = Some (cu_rtt a) /\
  cv_lag st !! i = Some (cu_lag a) /\ cv_backups st !! i = Some (cu_backups a).

Lemma stored_update cs st i j e exp : i <> j -> stored cs st j e -> stored cs (cl_update cs i exp st) j e.
Proof.
  intros Hne H. unfold cl_update. destruct (num_of exp cs =? 0); [done |]. unfold stored in *. cbn -[insert exp_sums].
  by rewrite !list_lookup_insert_ne by done.
Qed.

Lemma stored_updates cs exps : forall i st j e, (j < i)%nat -> stored cs st j e -> stored cs (cl_updates cs i exps st) j e.
Proof. induction exps as [|x exps IH]; intros i st j e Hj Hs; [done |]. cbn. apply IH; [lia |]. apply stored_update; [lia | done]. Qed.

Lemma cl_updates_stored cs exps : forall i st n k e,
  vecs_len n st -> (i + length exps <= n)%nat -> exps !! k = Some e -> num_of e cs <> 0 -> stored cs (cl_updates cs i exps st) (i + k) e.
Proof.
  induction exps as [|x exps IH]; intros i st n k e Hv Hi Hk Hn; [done |]. cbn [cl_updates length] in *. destruct k as [|k].
  - injection Hk as ->. rewrite Nat.add_0_r. apply stored_updates; [lia |]. unfold cl_update. destruct (Z.eqb_spec (num_of e cs) 0); [done |].
    destruct Hv as [L1 L2 L3 L4 L5 L6]. unfold stored. cbn -[insert exp_sums]. by rewrite !list_lookup_insert_eq by lia.
  - rewrite Nat.add_succ_r. apply (IH (S i) _ n); [by apply cl_update_len | lia | done | done].
Qed.

Lemma cl_updates_exps cs exps i st : sv_experiments (cl_updates cs i exps st) = sv_experiments st /\ sv_time (cl_updates cs i exps st) = sv_time st.
Proof.
  revert i st. induction exps as [|x exps IH]; intros i st; [done |]. cbn. destruct (IH (S i) (cl_update cs i x st)) as [-> ->].
  unfold cl_update. by destruct (_ =? 0).
Qed.

Definition vecs_resized (n : nat) (st : stats_vars) : stats_vars :=
  st <| cv_rpcs ::= vresize n |> <| cv_out ::= vresize n |> <| cv_in ::= vresize n |> <| cv_rtt ::= vresize n |>
     <| cv_lag ::= vresize n |> <| cv_backups ::= vresize n |>.

Lemma client_stats_spec now cs st :
  NoDup (sv_experiments st) -> (length (exps_after cs (sv_experiments st)) <= sizeof_vector)%nat ->
  let exps := exps_after cs (sv_experiments st) in
  exists st', client_stats now cs st = Ok (imap (cl_report now cs (vecs_resized (length exps) st)) exps, st') /\
    sv_experiments st' = exps /\ sv_time st' = sv_time st /\
    forall i e, exps !! i = Some e -> num_of e cs <> 0 -> stored cs st' i e.
Proof.
  intros Hnd Hl exps. unfold client_stats.
  assert (counts_of (sv_experiments st) [] = replicate sizeof_vector 0) as Ec.
  { unfold counts_of. pose proof (exps_after_length cs (sv_experiments st)).
    replace ((fun e => num_of e []) <$> sv_experiments st) with (replicate (length (sv_experiments st)) 0).
    - rewrite <- replicate_add. f_equal. lia.
    - clear. induction (sv_experiments st) as [|e l IH]; [done |]. cbn. by rewrite IH. }
  destruct (count_clients_spec cs (sv_experiments st) [] Hnd ltac:(constructor) Hl) as [Hc _]. rewrite Ec in Hc. rewrite Hc. cbn [result_bind app].
  fold exps. set (st1 := st <| sv_experiments := _ |> <| cv_rpcs ::= _ |> <| cv_out ::= _ |> <| cv_in ::= _ |> <| cv_rtt ::= _ |> <| cv_lag ::= _ |> <| cv_backups ::= _ |>).
  assert (vecs_len (length exps) st1) as Hv by (constructor; cbn; apply vresize_length).
  rewrite (client_exps_spec now cs _ exps 0 st1 (length exps) Hv); [|lia |].
  - eexists. split; [reflexivity |]. destruct (cl_updates_exps cs exps 0 st1) as [-> ->]. split_ands; [done | done |].
    intros i e Hi Hn. by apply (cl_updates_stored cs exps 0 st1 (length exps) i e Hv).
  - intros k e Hk. cbn [Nat.add]. apply arr_Ok. split; [lia |]. rewrite Nat2Z.id. unfold counts_of. rewrite lookup_app_l by (rewrite length_fmap; by eapply lookup_lt_Some).
    by rewrite list_lookup_fmap, Hk.
Qed.

(** *** Percentiles *)

(** [x] is number [k] of the values in increasing order. *)
Definition is_rank (l : list Z) (k : Z) (x : Z) : Prop :=
  x ∈ l /\ k + 1 <= Z.of_nat (length (filter (fun y => y <= x) l)) /\ Z.of_nat (length l) - k <= Z.of_nat (length (filter (fun y => x <= y) l)).

Lemma filter_whole {A} (P : A -> Prop) `{forall x, Decision (P x)} l : Forall P l -> filter P l = l.
Proof. intros Hl. apply filter_all. by rewrite <- Forall_forall. Qed.

Lemma sorted_mono (s : list Z) : StronglySorted Z.le s -> forall i j a b, (i <= j)%nat -> s !! i = Some a -> s !! j = Some b -> a <= b.
Proof.
  induction 1 as [|x s _ IH Hx]; intros i j a b Hij Ha Hb; [done |]. destruct i as [|i], j as [|j]; cbn in *; simplify_eq; try lia.
  - rewrite Forall_lookup in Hx. by eapply Hx.
  - apply (IH i j); [lia | done | done].
Qed.

Lemma sorted_rank l k x : 0 <= k -> merge_sort Z.le l !! Z.to_nat k = Some x -> is_rank l k x.
Proof.
  intros Hk Hx. pose proof (merge_sort_Permutation Z.le l) as Hp. pose proof (StronglySorted_merge_sort Z.le l) as Hs.
  set (s := merge_sort Z.le l) in *. clearbody s. unfold is_rank. rewrite <- Hp.
  pose proof (sorted_mono s Hs) as Hmono.
  split_ands.
  - by eapply list_elem_of_lookup_2.
  - pose proof (lookup_lt_Some _ _ _ Hx) as Hl. rewrite <- (take_drop (S (Z.to_nat k)) s), filter_app, length_app.
    rewrite (filter_whole _ (take _ s)); [rewrite length_take; lia |]. apply Forall_lookup. intros i a Hi. apply lookup_take_Some in Hi as [Hi Hlt].
    by apply (Hmono i (Z.to_nat k)); [lia | |].
  - pose proof (lookup_lt_Some _ _ _ Hx) as Hl. rewrite <- (take_drop (Z.to_nat k) s) at 2. rewrite filter_app, length_app.
    rewrite (filter_whole _ (drop _ s)); [rewrite length_drop; lia |]. apply Forall_lookup. intros i a Hi. rewrite lookup_drop in Hi.
    by apply (Hmono (Z.to_nat k) (Z.to_nat k + i)%nat); [lia | |].
Qed.

(** *** Dumping *)

(** The entry that is written for slot [i]. *)
Definition dump_entry (c : client_state) (i : Z) : option (Z * Z) :=
  let e := default (0, 0) (cl_actual c !! i) in if e.2 =? 0 then None else Some e.

Lemma dump_slots_spec l : forall out c, NoDup l ->
  exists c', foldl dump_slot (out, c) l = (out ++ omap (dump_entry c) l, c') /\ cl_total_responses c' = cl_total_responses c /\
    (forall i, i ∈ l -> rtt_at c' i = 0) /\ (forall i, i ∉ l -> cl_actual c' !! i = cl_actual c !! i).
Proof.
  induction l as [|i l IH]; intros out c Hnd.
  { exists c. cbn. rewrite app_nil_r. split_ands; try done. intros i Hi. by apply elem_of_nil in Hi. }
  apply NoDup_cons in Hnd as [Hni Hnd]. cbn [foldl]. unfold dump_slot at 2. unfold dump_entry at 1. cbn [omap list_omap].
  destruct (default (0, 0) (cl_actual c !! i)) as [len rtt] eqn:Ee. cbn [snd]. destruct (Z.eqb_spec rtt 0) as [-> | Hr].
  - destruct (IH out c Hnd) as (c' & Hf & Ht & Hz & Ho). exists c'. rewrite Hf. split_ands; try done.
    + intros j Hj. apply elem_of_cons in Hj as [-> | Hj]; [|by apply Hz]. unfold rtt_at. by rewrite Ho, Ee.
    + intros j Hj. apply Ho. set_solver.
  - set (c1 := c <| cl_actual ::= _ |>). destruct (IH (out ++ [(len, rtt)]) c1 Hnd) as (c' & Hf & Ht & Hz & Ho). exists c'. rewrite Hf.
    split_ands; [|done | |].
    + rewrite <- app_assoc. cbn [app]. do 3 f_equal. apply list_omap_ext. apply Forall2_same_length_lookup_2; [done |]. intros k x y Hx Hy. rewrite Hx in Hy. injection Hy as <-.
      unfold dump_entry, c1. cbn -[insert lookup]. rewrite lookup_insert_ne; [done |]. intros ->. apply Hni. by eapply list_elem_of_lookup_2.
    + intros j Hj. apply elem_of_cons in Hj as [-> | Hj]; [|by apply Hz]. unfold rtt_at. rewrite Ho by done. unfold c1. cbn -[insert lookup]. by rewrite lookup_insert_eq.
    + intros j Hj. rewrite Ho by set_solver. unfold c1. cbn -[insert lookup]. rewrite lookup_insert_ne; [done | set_solver].
Qed.

Lemma dump_order_spec c : NoDup (dump_order c) /\ forall i, i ∈ dump_order c <-> 0 <= i < NUM_CLIENT_STATS.
Proof.
  unfold dump_order. pose proof (Z.mod_pos_bound (cl_total_responses c) NUM_CLIENT_STATS ltac:(done)) as Hm. set (s := cl_total_responses c mod _) in *. split.
  - apply NoDup_app. split_ands; [apply NoDup_seqZ | | apply NoDup_seqZ]. intros i H1 H2. apply elem_of_seqZ in H1, H2. lia.
  - intros i. rewrite elem_of_app, !elem_of_seqZ. lia.
Qed.

(** A dump writes every time that was recorded once, in the order of the
    circular buffer, oldest first, and a second dump writes nothing. *)
Theorem dump_client_correct c :
  let '(out, c') := dump_client c in
  out = omap (dump_entry c) (dump_order c) /\ (forall i, 0 <= i < NUM_CLIENT_STATS -> rtt_at c' i = 0) /\ (dump_client c').1 = [].
Proof.
  unfold dump_client. destruct (dump_order_spec c) as [Hnd Hin]. destruct (dump_slots_spec (dump_order c) [] c Hnd) as (c' & Hf & Ht & Hz & _). rewrite Hf.
  split_ands; [done | intros i Hi; apply Hz; by apply Hin |].
  destruct (dump_order_spec c') as [Hnd' Hin']. destruct (dump_slots_spec (dump_order c') [] c' Hnd') as (c2 & Hf2 & _). rewrite Hf2. cbn [fst app].
  assert (forall l, Forall (fun i => rtt_at c' i = 0) l -> omap (dump_entry c') l = []) as Hnil.
  { induction 1 as [|i l Hi _ IH]; [done |]. cbn. unfold dump_entry at 1. unfold rtt_at in Hi. by rewrite Hi, IH. }
  apply Hnil, Forall_forall. intros i Hi. apply Hz, Hin. by apply Hin'.
Qed.

(** ** Theorems *)

(** The statistics of [log_stats], for at most 24 experiments and 476 server
    threads.  No array is overrun; for each experiment the differences
    printed are those to the totals of the last time, the totals stored are
    the sums over its threads and clients, and the percentiles are the values
    of those ranks among the most recent round-trip times of its clients. *)
Theorem log_stats_correct now ms cs st :
  NoDup (sv_experiments st) -> Forall (fun m => tm_experiment m ∈ sv_experiments st) ms -> 21 * Z.of_nat (length ms) <= DETAILS_SIZE ->
  (length (exps_after cs (sv_experiments st)) <= sizeof_vector)%nat ->
  let n := length (sv_experiments st) in
  let exps := exps_after cs (sv_experiments st) in
  exists st', log_stats now ms cs st =
      Ok (concat (zip_with (exp_line now (sv_time st) ms (vresize (length ms) (sv_per_server st))) (sv_experiments st)
            (zip (zip (vresize n (sv_rpcs st)) (vresize n (sv_in st))) (vresize n (sv_out st)))),
          imap (cl_report now cs (vecs_resized (length exps) st)) exps, st') /\
    sv_time st' = now /\ sv_experiments st' = exps /\
    (forall i e, exps !! i = Some e -> num_of e cs <> 0 -> stored cs st' i e) /\
    (forall e p50 p99 p999, percentiles (cu_cdf (exp_sums e cs)) = Some (p50, p99, p999) ->
      let k := Z.of_nat (length (cu_cdf (exp_sums e cs))) in
      is_rank (cu_cdf (exp_sums e cs)) (k / 2) p50 /\ is_rank (cu_cdf (exp_sums e cs)) (99 * k / 100) p99 /\
      is_rank (cu_cdf (exp_sums e cs)) (999 * k / 1000) p999).
Proof.
  intros Hnd He Hd Hl n exps. unfold log_stats. rewrite (server_stats_spec now ms st Hnd He Hd). cbn [result_bind].
  set (st1 := st <| sv_per_server := _ |> <| sv_rpcs := _ |> <| sv_in := _ |> <| sv_out := _ |>).
  destruct (client_stats_spec now cs st1 Hnd Hl) as (st2 & Hc & H1 & H2 & H3). rewrite Hc. cbn [result_bind].
  eexists. split; [reflexivity |]. split; [done |]. split; [done |]. split; [exact H3 |].
  clear -cs. intros e p50 p99 p999 Hp. unfold percentiles in Hp. set (k := Z.of_nat (length (cu_cdf (exp_sums e cs)))) in *.
  destruct (merge_sort Z.le _ !! Z.to_nat (k / 2)) as [x|] eqn:E1; [|done]. destruct (merge_sort Z.le _ !! Z.to_nat (99 * k / 100)) as [y|] eqn:E2; [|done].
  destruct (merge_sort Z.le _ !! Z.to_nat (999 * k / 1000)) as [z|] eqn:E3; [|done]. injection Hp as <- <- <-.
  split_ands; apply sorted_rank; try done; apply Z.div_pos; lia.
Qed.

Definition ex_client (rtts : list (Z * (Z * Z))) (n : Z) : client_state :=
  Build_client_state 0 [] 0 [] [] [] [] [n] (n + 1) n 300 200 0 (list_to_map rtts) 0 ex_fz (0, 0).
Definition ex_stats : stats_vars := Build_stats_vars 1000 ["homa_w1"%string] [3] [3] [300] [300] [1] [100] [100] [0] [0] [0].

Lemma log_stats_correct_witness :
  exists l1 l2 st', log_stats 2000 [Build_thread_metrics "homa_w1" (Build_server_metrics 5 500 500)]
      [Build_stat_client "homa_w1" (ex_client [(0, (10, 7)); (1, (20, 9)); (2, (30, 8))] 3) None; Build_stat_client "tcp_w2" (ex_client [] 0) (Some 2)] ex_stats =
    Ok (l1, l2, st') /\ sv_time st' = 2000.
Proof.
  edestruct (log_stats_correct 2000 [Build_thread_metrics "homa_w1" (Build_server_metrics 5 500 500)]
    [Build_stat_client "homa_w1" (ex_client [(0, (10, 7)); (1, (20, 9)); (2, (30, 8))] 3) None; Build_stat_client "tcp_w2" (ex_client [] 0) (Some 2)] ex_stats)
    as (st' & Hex & Ht & _).
  - apply NoDup_singleton.
  - repeat constructor.
  - vm_compute. intros [=].
  - vm_compute. lia.
  - eexists _, _, st'. split; [exact Hex | exact Ht].
Defined.

(** [num_clients] is too small for more experiments than a [std::vector] has
    bytes. *)
Theorem many_experiments_overrun :
  client_stats 0 (imap (fun i _ => Build_stat_client (Nat.iter i (String.append "e") "") (ex_client [] 0) None) (replicate 25 tt)) (ex_stats <| sv_experiments := [] |>) = Fault ArrayBounds.
Proof. vm_compute. reflexivity. Qed.

(** With many server threads the text of [details] goes past its end. *)
Theorem many_threads_overrun :
  server_stats 0 (replicate 502 (Build_thread_metrics "homa_w1" (Build_server_metrics (10 ^ 19) 0 0))) ex_stats = Fault ArrayBounds.
Proof. vm_compute. reflexivity. Qed.
