(* ===== verification/Workloads.v ===== *)
(** * The workloads of the Homa paper (util/dist.cc)

    The tables [w1] to [w5]: a length, and the fraction of all messages that are
    this size or smaller.  The fractions are the decimal numbers of the source,
    in units of [10 ^ -16]. *)
From S2P Require Import Prelude.

Definition w1 : list (Z * Z) := [
  (8, 3109400000000000); (9, 3193100000000000); (10, 3276800000000000); (11, 4175700000000000); (12, 4184900000000000);
  (13, 4217500000000000); (14, 4415500000000000); (15, 4700000000000000); (16, 4748218165010570); (17, 4773067349164550);
  (18, 4785984461593190); (19, 4812840920236410); (20, 4841111028392230); (21, 4855795527676520); (22, 4886302767145860);
  (23, 4902141462642390); (24, 4935029362474480); (25, 4952094870276640); (26, 4969585691553320); (27, 5005876293882710);
  (28, 5024692635373270); (29, 5043967392292290); (30, 5063708851971630); (31, 5083925285379040); (32, 5104624935432950);
  (33, 5125816004640710); (34, 5147506642043640); (35, 5169704929453570); (36, 5192418866966650); (37, 5215656357741600);
  (38, 5239425192031200); (39, 5263733030457670); (40, 5288587386524440); (41, 5313995608359340); (43, 5339964859686240);
  (44, 5366502100025490); (45, 5393614064125840); (47, 5421307240634250); (48, 5449587850013270); (50, 5478461821719410);
  (51, 5507934770660020); (53, 5538011972950660); (54, 5568698340999280); (56, 5599998397948750); (57, 5631916251514170);
  (59, 5664455567257140); (61, 5697619541344620); (63, 5731410872846220); (65, 5765831735629960); (67, 5800883749922850);
  (69, 5836567953609510); (71, 5872884773348800); (73, 5909833995595410); (75, 5947414737620580); (77, 5985625418633140);
  (79, 6024463731109510); (82, 6063926612448290); (84, 6104010217072360); (87, 6144709889108410); (89, 6186020135780490);
  (92, 6227934601661020); (95, 6270446043928540); (97, 6313546308787660); (100, 6357226309211810); (103, 6401476004173990);
  (106, 6446284379535170); (110, 6491639430762790); (113, 6537528147654750); (116, 6583936501245410); (120, 6630849433070710);
  (123, 6678250846968980); (127, 6726123603591690); (131, 6774449517795690); (135, 6823209359083530); (139, 6872382855252270);
  (143, 6921948699404070); (147, 6971884560461980); (151, 7022167097323980); (156, 7072771976775610); (161, 7123673895267240);
  (165, 7174846604646300); (170, 7226262941917010); (175, 7277894863081160); (181, 7329713481092400); (186, 7381689107934450);
  (191, 7433791300809850); (197, 7485988912400710); (203, 7538250145137090); (209, 7590542609381320); (215, 7642833385408640);
  (222, 7695089089036520); (228, 7747275940725560); (235, 7799359837946780); (242, 7851306430580930); (249, 7903081199087490);
  (257, 7954649535153640); (264, 8005976824507240); (272, 8057028531552650); (280, 8107770285465450); (289, 8158167967360540);
  (297, 8208187798129290); (306, 8257796426525270); (315, 8306961017064280); (324, 8355649337294510); (334, 8403829843985040);
  (344, 8451471767777960); (354, 8498545195849100); (365, 8545021152126380); (376, 8590871674622760); (387, 8636069889452020);
  (398, 8680590081111400); (410, 8724407758634360); (422, 8767499717239420); (435, 8809844095127930); (448, 8851420425112890);
  (461, 8892209680794120); (475, 8932194317030320); (489, 8971358304496710); (503, 9009687158156690); (518, 9047167959517640);
  (534, 9083789372583830); (549, 9119541653462680); (566, 9154416653624680); (582, 9188407816860900); (600, 9221510170024820);
  (618, 9253720307687560); (636, 9285036370875660); (655, 9315458020099370); (674, 9344986402915450); (694, 9373624116302250);
  (715, 9401375164155170); (736, 9428244910238270); (758, 9454240026951470); (780, 9479368440293090); (804, 9503639271414050);
  (827, 9527062775172560); (852, 9549650276106960); (877, 9571414102249290); (903, 9592367517203220); (930, 9612524650907540);
  (958, 9631900429500190); (986, 9650510504688660); (1015, 9668371183019920); (1046, 9685499355427850); (1077, 9701912427418300);
  (1108, 9717628250231740); (1141, 9732665053301490); (1175, 9747041378301820); (1210, 9760776015055120); (1246, 9773887939541810);
  (1283, 9786396254229370); (1321, 9798320130910700); (1360, 9809678756214330); (1401, 9820491279922670); (1442, 9830776766207790);
  (1485, 9840554147868980); (1529, 9849842183631160); (1574, 9858659418539980); (1621, 9867024147466820); (1669, 9874954381715980);
  (1719, 9882467818706910); (1770, 9889581814686290); (1822, 9896313360408490); (1876, 9902679059708480); (1932, 9908695110877890);
  (1989, 9914377290744150); (2048, 9919740941342570); (2109, 9924800959063330); (2172, 9929571786148880); (2236, 9934067404412110);
  (2303, 9938301331042150); (2371, 9942286616362180); (2441, 9946035843402560); (2514, 9949561129152810); (2588, 9952874127356570);
  (2665, 9955986032716060); (2744, 9958907586375020); (2826, 9961649082552740); (2909, 9964220376205710); (2996, 9966630891598290);
  (3085, 9968889631668590); (3176, 9971005188081310); (3270, 9972985751864730); (3367, 9974839124535330); (3467, 9976572729618770);
  (3570, 9978193624482840); (3676, 9979708512403280); (3785, 9981123754789740); (3897, 9982445383505060); (4013, 9983679113216600);
  (4132, 9984830353724090); (4255, 9985904222213870); (4381, 9986905555394600); (4511, 9987838921474280); (4645, 9988708631943600);
  (4782, 9989518753134390); (4924, 9990273117526960); (5070, 9990975334783280); (5221, 9991628802487180); (5376, 9992236716575840);
  (5535, 9992802081450000); (5699, 9993327719753420); (5868, 9993816281814320); (6043, 9994270254744510); (6222, 9994691971193450);
  (6406, 9995083617756900); (6596, 9995447243041360); (6792, 9995784765386990); (6994, 9996097980253160); (7201, 9996388567271980);
  (7415, 9996658096975950); (7635, 9996908037207150); (7861, 9997139759215590); (8094, 9997354543455550); (8334, 9997553585088600);
  (8582, 9997737999203010); (8836, 9997908825758930); (9098, 9998067034269440); (9368, 9998213528227420); (9646, 9998349149288200);
  (9932, 9998474681218280); (10227, 9998590853619880); (10530, 9998698345441440); (10843, 9998797788283650); (11164, 9998889769510740);
  (11496, 9998974835176340); (11837, 9999053492772990); (12188, 9999126213814350); (12549, 9999193436258570); (12922, 9999255566781250);
  (13305, 9999312982905990); (13700, 9999366035000360); (14106, 9999415048144600); (14524, 9999460323880380); (14955, 9999502141846240);
  (15399, 9999540761306540); (15856, 9999576422579820); (16326, 9999609348372850); (16810, 9999639745025830); (17309, 9999667803674180);
  (17822, 9999693701332060); (18351, 9999717601902450); (18896, 9999739657118370); (19456, 9999760007419600); (20033, 9999778782769010);
  (20627, 9999796103412340); (21239, 9999812080585180); (21869, 9999826817170460); (22518, 9999840408309830); (23186, 9999852941971890);
  (23874, 9999864499480210); (24582, 9999875156003770); (25311, 9999884981012450); (26062, 9999894038699780); (26835, 9999902388375410);
  (27631, 9999910084829170); (28451, 9999917178668790); (29295, 9999923716633120); (30164, 9999929741882430); (31059, 9999935294267600);
  (31980, 9999940410579510); (32929, 9999945124780050); (33905, 9999949468216210); (34911, 9999953469818190); (35947, 9999957156283000);
  (37013, 9999960552244220); (38111, 9999963680429300); (39242, 9999966561804950); (40406, 9999969215711770); (41604, 9999971659988730);
  (42838, 9999973911088260); (44109, 9999975984182740); (45418, 9999977893262890); (46765, 9999979651228790); (48152, 9999981269973910);
  (49580, 9999982760462810); (51051, 9999984132802980); (52565, 9999985396311120); (54125, 9999986559574400); (55730, 9999987630507070);
  (57383, 9999988616402660); (59086, 9999989523982280); (60838, 9999990359439100); (62643, 9999991128479520); (64501, 9999991836361100);
  (66415, 9999992487927550); (68385, 9999993087641100); (70413, 9999993639612310); (72502, 9999994147627560); (74653, 9999994615174480);
  (76867, 9999995045465310); (79147, 9999995441458540); (81495, 9999995805878810); (83912, 9999996141235290); (86401, 9999996449838610);
  (88964, 9999996733816460); (91603, 9999996995128020); (94321, 9999997235577240); (97119, 9999997456825010); (100000, 10000000000000000)].

Definition w2 : list (Z * Z) := [
  (8, 1701076279091390); (32, 1890084754545990); (34, 2027512207344260); (36, 2164939660142540); (38, 2302367112940820);
  (40, 2439794565739100); (43, 2577222018537380); (46, 2714649471335660); (49, 2852076924133940); (53, 2989504376932220);
  (58, 3126931829730500); (64, 3264359282528780); (67, 3279626527873350); (71, 3294893773217930); (75, 3310161018562510);
  (80, 3325428263907090); (85, 3340695509251660); (91, 3355962754596240); (98, 3371229999940820); (107, 3386497245285390);
  (116, 3401764490629970); (128, 3417031735974550); (135, 3539168103019490); (142, 3661304470064430); (151, 3783440837109370);
  (160, 3905577204154310); (171, 4027713571199250); (183, 4149849938244190); (197, 4271986305289130); (213, 4394122672334070);
  (233, 4516259039379010); (256, 4638395406423950); (269, 5084956485779450); (284, 5531517565134950); (301, 5978078644490450);
  (320, 6424639723845950); (341, 6871200803201450); (366, 7317761882556950); (394, 7764322961912450); (427, 8210884041267950);
  (465, 8657445120623450); (512, 9104006199978950); (539, 9151715716495210); (569, 9199425233011470); (602, 9247134749527730);
  (640, 9294844266043990); (683, 9342553782560250); (731, 9390263299076510); (788, 9437972815592760); (853, 9485682332109020);
  (931, 9533391848625280); (1024, 9581101365141540); (1078, 9604001941405150); (1138, 9626902517668760); (1205, 9649803093932380);
  (1280, 9672703670195990); (1365, 9695604246459600); (1463, 9718504822723210); (1575, 9741405398986820); (1707, 9764305975250430);
  (1862, 9787206551514040); (2048, 9810107127777660); (2156, 9824419976778380); (2276, 9838732825779110); (2409, 9853045674779840);
  (2560, 9867358523780570); (2731, 9881671372781300); (2926, 9895984221782030); (3151, 9910297070782760); (3413, 9924609919783490);
  (3724, 9938922768784220); (4096, 9953235617784950); (4312, 9956336739037870); (4551, 9959437860290800); (4819, 9962538981543720);
  (5120, 9965640102796640); (5461, 9968741224049570); (5851, 9971842345302490); (6302, 9974943466555410); (6827, 9978044587808340);
  (7447, 9981145709061260); (8192, 9984246830314190); (8623, 9984723925032790); (9102, 9985201019751390); (9638, 9985678114469990);
  (10240, 9986155209188590); (10923, 9986632303907190); (11703, 9987109398625790); (12603, 9987586493344400); (13653, 9988063588063000);
  (14895, 9988540682781600); (16384, 9989017777500200); (17246, 9989256324859500); (18204, 9989494872218800); (19275, 9989733419578100);
  (20480, 9989971966937400); (21845, 9990210514296700); (23406, 9990449061656000); (25206, 9990687609015310); (27307, 9990926156374610);
  (29789, 9991164703733910); (32768, 9991403251093210); (34493, 9991611980265180); (36409, 9991820709437150); (38551, 9992029438609120);
  (40960, 9992238167781100); (43691, 9992446896953070); (46811, 9992655626125040); (50412, 9992864355297010); (54613, 9993073084468980);
  (59578, 9993281813640960); (65536, 9993490542812930); (68985, 9994012365742860); (72818, 9994534188672790); (77101, 9995056011602720);
  (81920, 9995577834532650); (87381, 9996099657462580); (93623, 9996621480392510); (100825, 9997143303322440); (109227, 9997665126252370);
  (119156, 9998186949182300); (131072, 9998708772112230); (137971, 9998813136698210); (145636, 9998917501284200); (154202, 9999021865870190);
  (163840, 9999126230456170); (174763, 9999230595042160); (187246, 9999334959628150); (201649, 9999439324214130); (218453, 9999543688800120);
  (238313, 9999648053386100); (262144, 9999752417972090); (275941, 9999759872635210); (291271, 9999767327298340); (308405, 9999774781961460);
  (327680, 9999782236624590); (349525, 9999789691287710); (374491, 9999797145950840); (403298, 9999804600613960); (436907, 9999812055277080);
  (476625, 9999819509940210); (524288, 9999826964603330); (573085, 9999844268143000); (631896, 9999861571682660); (704160, 9999878875222330);
  (795085, 9999896178762000); (912974, 9999913482301670); (1071908, 9999930785841330); (1297841, 9999948089381000); (1644453, 9999965392920670);
  (2243665, 9999982696460330); (3529904, 10000000000000000)].

Definition w3 : list (Z * Z) := [
  (8, 648826230027598); (32, 973239345041398); (36, 1089132949118340); (40, 1205026553195280); (46, 1320920157272230);
  (53, 1436813761349170); (64, 1552707365426110); (70, 1879878042039700); (77, 2207048718653280); (85, 2534219395266870);
  (96, 2861390071880450); (110, 3188560748494040); (128, 3515731425107630); (137, 3698640951162460); (146, 3881550477217290);
  (158, 4064460003272120); (171, 4247369529326950); (186, 4430279055381780); (205, 4613188581436610); (228, 4796098107491450);
  (256, 4979007633546280); (268, 5239935348784430); (282, 5500863064022580); (296, 5761790779260730); (313, 6022718494498880);
  (331, 6283646209737030); (352, 6544573924975180); (375, 6805501640213330); (402, 7066429355451480); (433, 7327357070689630);
  (469, 7588284785927780); (512, 7849212501165930); (531, 7905125585645840); (551, 7961038670125750); (573, 8016951754605660);
  (597, 8072864839085570); (623, 8128777923565480); (652, 8184691008045390); (683, 8240604092525300); (717, 8296517177005210);
  (755, 8352430261485120); (796, 8408343345965030); (843, 8464256430444940); (896, 8520169514924850); (956, 8576082599404760);
  (1024, 8631995683884670); (1053, 8657363659283180); (1084, 8682731634681700); (1117, 8708099610080210); (1152, 8733467585478720);
  (1189, 8758835560877230); (1229, 8784203536275740); (1271, 8809571511674250); (1317, 8834939487072760); (1365, 8860307462471280);
  (1418, 8885675437869790); (1475, 8911043413268300); (1536, 8936411388666810); (1603, 8961779364065320); (1676, 8987147339463830);
  (1755, 9012515314862340); (1843, 9037883290260860); (1940, 9063251265659370); (2048, 9088619241057880); (2092, 9099491209919730);
  (2137, 9110363178781580); (2185, 9121235147643440); (2234, 9132107116505290); (2286, 9142979085367140); (2341, 9153851054229000);
  (2398, 9164723023090850); (2458, 9175594991952700); (2521, 9186466960814550); (2587, 9197338929676410); (2657, 9208210898538260);
  (2731, 9219082867400110); (2809, 9229954836261970); (2891, 9240826805123820); (2979, 9251698773985670); (3072, 9262570742847520);
  (3171, 9273442711709380); (3277, 9284314680571230); (3390, 9295186649433080); (3511, 9306058618294940); (3641, 9316930587156790);
  (3781, 9327802556018640); (3932, 9338674524880490); (4096, 9349546493742350); (4163, 9359015659918080); (4233, 9368484826093810);
  (4304, 9377953992269540); (4378, 9387423158445270); (4455, 9396892324621000); (4535, 9406361490796740); (4617, 9415830656972470);
  (4703, 9425299823148200); (4792, 9434768989323930); (4884, 9444238155499660); (4979, 9453707321675390); (5079, 9463176487851120);
  (5183, 9472645654026860); (5291, 9482114820202590); (5403, 9491583986378320); (5521, 9501053152554050); (5643, 9510522318729780);
  (5772, 9519991484905510); (5906, 9529460651081240); (6046, 9538929817256980); (6194, 9548398983432710); (6349, 9557868149608440);
  (6512, 9567337315784170); (6683, 9576806481959900); (6864, 9586275648135630); (7054, 9595744814311360); (7256, 9605213980487100);
  (7469, 9614683146662830); (7696, 9624152312838560); (7936, 9633621479014290); (8192, 9643090645190020); (8293, 9648062590701390);
  (8397, 9653034536212750); (8503, 9658006481724120); (8612, 9662978427235480); (8724, 9667950372746850); (8839, 9672922318258210);
  (8957, 9677894263769580); (9078, 9682866209280940); (9202, 9687838154792310); (9330, 9692810100303670); (9461, 9697782045815040);
  (9596, 9702753991326400); (9735, 9707725936837770); (9879, 9712697882349130); (10026, 9717669827860500); (10178, 9722641773371860);
  (10335, 9727613718883220); (10496, 9732585664394590); (10663, 9737557609905950); (10835, 9742529555417320); (11012, 9747501500928680);
  (11196, 9752473446440050); (11385, 9757445391951410); (11582, 9762417337462780); (11785, 9767389282974140); (11995, 9772361228485510);
  (12214, 9777333173996870); (12440, 9782305119508240); (12674, 9787277065019600); (12918, 9792249010530970); (13171, 9797220956042330);
  (13435, 9802192901553700); (13709, 9807164847065060); (13995, 9812136792576430); (14292, 9817108738087790); (14603, 9822080683599160);
  (14928, 9827052629110520); (15267, 9832024574621890); (15622, 9836996520133250); (15994, 9841968465644620); (16384, 9846940411155980);
  (16540, 9848017353507810); (16699, 9849094295859630); (16861, 9850171238211450); (17027, 9851248180563280); (17195, 9852325122915100);
  (17367, 9853402065266930); (17542, 9854479007618750); (17721, 9855555949970570); (17904, 9856632892322400); (18091, 9857709834674220);
  (18281, 9858786777026040); (18476, 9859863719377870); (18674, 9860940661729690); (18877, 9862017604081510); (19085, 9863094546433340);
  (19297, 9864171488785160); (19514, 9865248431136980); (19735, 9866325373488810); (19962, 9867402315840630); (20194, 9868479258192460);
  (20432, 9869556200544280); (20675, 9870633142896100); (20924, 9871710085247930); (21179, 9872787027599750); (21441, 9873863969951570);
  (21709, 9874940912303400); (21984, 9876017854655220); (22265, 9877094797007040); (22555, 9878171739358870); (22851, 9879248681710690);
  (23156, 9880325624062520); (23469, 9881402566414340); (23790, 9882479508766160); (24121, 9883556451117990); (24461, 9884633393469810);
  (24810, 9885710335821630); (25170, 9886787278173460); (25540, 9887864220525280); (25921, 9888941162877100); (26314, 9890018105228930);
  (26719, 9891095047580750); (27136, 9892171989932580); (27567, 9893248932284400); (28011, 9894325874636220); (28471, 9895402816988050);
  (28945, 9896479759339870); (29436, 9897556701691690); (29943, 9898633644043520); (30468, 9899710586395340); (31013, 9900787528747160);
  (31576, 9901864471098990); (32161, 9902941413450810); (32768, 9904018355802640); (33007, 9904431963175420); (33250, 9904845570548210);
  (33496, 9905259177920990); (33746, 9905672785293780); (34000, 9906086392666560); (34257, 9906500000039350); (34519, 9906913607412130);
  (34784, 9907327214784920); (35054, 9907740822157700); (35328, 9908154429530490); (35606, 9908568036903270); (35889, 9908981644276060);
  (36176, 9909395251648850); (36468, 9909808859021630); (36764, 9910222466394420); (37065, 9910636073767200); (37372, 9911049681139990);
  (37683, 9911463288512770); (38000, 9911876895885560); (38322, 9912290503258340); (38649, 9912704110631130); (38983, 9913117718003910);
  (39322, 9913531325376700); (39667, 9913944932749480); (40018, 9914358540122270); (40375, 9914772147495060); (40739, 9915185754867840);
  (41109, 9915599362240630); (41486, 9916012969613410); (41870, 9916426576986200); (42262, 9916840184358980); (42660, 9917253791731770);
  (43067, 9917667399104550); (43481, 9918081006477340); (43903, 9918494613850120); (44333, 9918908221222910); (44772, 9919321828595700);
  (45220, 9919735435968480); (45677, 9920149043341270); (46143, 9920562650714050); (46618, 9920976258086840); (47104, 9921389865459620);
  (47600, 9921803472832410); (48106, 9922217080205190); (48623, 9922630687577980); (49152, 9923044294950760); (49692, 9923457902323550);
  (50244, 9923871509696330); (50809, 9924285117069120); (51386, 9924698724441910); (51977, 9925112331814690); (52581, 9925525939187480);
  (53200, 9925939546560260); (53833, 9926353153933050); (54482, 9926766761305830); (55146, 9927180368678620); (55827, 9927593976051400);
  (56525, 9928007583424190); (57240, 9928421190796970); (57974, 9928834798169760); (58727, 9929248405542550); (59500, 9929662012915330);
  (60293, 9930075620288120); (61108, 9930489227660900); (61945, 9930902835033690); (62805, 9931316442406470); (63690, 9931730049779260);
  (64600, 9932143657152040); (65536, 9932557264524830); (65902, 9932987614157960); (66272, 9933417963791090); (66647, 9933848313424220);
  (67025, 9934278663057350); (67408, 9934709012690480); (67796, 9935139362323610); (68188, 9935569711956740); (68584, 9936000061589870);
  (68985, 9936430411223000); (69391, 9936860760856130); (69802, 9937291110489260); (70217, 9937721460122390); (70638, 9938151809755520);
  (71063, 9938582159388650); (71494, 9939012509021790); (71930, 9939442858654920); (72371, 9939873208288050); (72818, 9940303557921180);
  (73270, 9940733907554310); (73728, 9941164257187440); (74192, 9941594606820570); (74661, 9942024956453700); (75137, 9942455306086830);
  (75618, 9942885655719960); (76106, 9943316005353090); (76601, 9943746354986220); (77101, 9944176704619350); (77608, 9944607054252480);
  (78122, 9945037403885610); (78643, 9945467753518740); (79171, 9945898103151870); (79706, 9946328452785000); (80248, 9946758802418130);
  (80798, 9947189152051260); (81355, 9947619501684390); (81920, 9948049851317520); (82493, 9948480200950650); (83074, 9948910550583780);
  (83663, 9949340900216910); (84261, 9949771249850040); (84867, 9950201599483170); (85482, 9950631949116310); (86106, 9951062298749440);
  (86739, 9951492648382570); (87381, 9951922998015700); (88033, 9952353347648830); (88695, 9952783697281960); (89367, 9953214046915090);
  (90049, 9953644396548220); (90742, 9954074746181350); (91446, 9954505095814480); (92160, 9954935445447610); (92886, 9955365795080740);
  (93623, 9955796144713870); (94372, 9956226494347000); (95133, 9956656843980130); (95906, 9957087193613260); (96692, 9957517543246390);
  (97492, 9957947892879520); (98304, 9958378242512650); (99130, 9958808592145780); (99970, 9959238941778910); (100825, 9959669291412040);
  (101694, 9960099641045170); (102578, 9960529990678310); (103478, 9960960340311440); (104394, 9961390689944570); (105326, 9961821039577700);
  (106275, 9962251389210830); (107241, 9962681738843960); (108225, 9963112088477090); (109227, 9963542438110220); (110247, 9963972787743350);
  (111288, 9964403137376480); (112347, 9964833487009610); (113428, 9965263836642740); (114529, 9965694186275870); (115652, 9966124535909000);
  (116797, 9966554885542130); (117965, 9966985235175260); (119156, 9967415584808390); (120372, 9967845934441520); (121613, 9968276284074650);
  (122880, 9968706633707780); (124173, 9969136983340910); (125494, 9969567332974040); (126844, 9969997682607170); (128223, 9970428032240300);
  (129632, 9970858381873440); (131072, 9971288731506570); (131630, 9971400954354830); (132192, 9971513177203080); (132760, 9971625400051340);
  (133332, 9971737622899600); (133909, 9971849845747860); (134491, 9971962068596120); (135079, 9972074291444380); (135671, 9972186514292640);
  (136269, 9972298737140900); (136872, 9972410959989160); (137480, 9972523182837420); (138094, 9972635405685680); (138713, 9972747628533940);
  (139338, 9972859851382200); (139968, 9972972074230460); (140605, 9973084297078720); (141247, 9973196519926980); (141894, 9973308742775240);
  (142548, 9973420965623490); (143208, 9973533188471750); (143874, 9973645411320010); (144547, 9973757634168270); (145225, 9973869857016530);
  (145910, 9973982079864790); (146602, 9974094302713050); (147300, 9974206525561310); (148005, 9974318748409570); (148716, 9974430971257830);
  (149435, 9974543194106090); (150160, 9974655416954350); (150893, 9974767639802610); (151632, 9974879862650870); (152379, 9974992085499130);
  (153134, 9975104308347390); (153895, 9975216531195640); (154665, 9975328754043900); (155442, 9975440976892160); (156227, 9975553199740420);
  (157020, 9975665422588680); (157821, 9975777645436940); (158631, 9975889868285200); (159448, 9976002091133460); (160275, 9976114313981720);
  (161109, 9976226536829980); (161953, 9976338759678240); (162805, 9976450982526500); (163667, 9976563205374760); (164537, 9976675428223020);
  (165417, 9976787651071280); (166306, 9976899873919540); (167205, 9977012096767790); (168114, 9977124319616050); (169033, 9977236542464310);
  (169961, 9977348765312570); (170901, 9977460988160830); (171850, 9977573211009090); (172810, 9977685433857350); (173781, 9977797656705610);
  (174763, 9977909879553870); (175756, 9978022102402130); (176760, 9978134325250390); (177776, 9978246548098650); (178803, 9978358770946910);
  (179843, 9978470993795170); (180895, 9978583216643430); (181959, 9978695439491690); (183035, 9978807662339950); (184125, 9978919885188200);
  (185227, 9979032108036460); (186343, 9979144330884720); (187473, 9979256553732980); (188616, 9979368776581240); (189773, 9979480999429500);
  (190944, 9979593222277760); (192130, 9979705445126020); (193331, 9979817667974280); (194547, 9979929890822540); (195778, 9980042113670800);
  (197025, 9980154336519060); (198288, 9980266559367320); (199568, 9980378782215580); (200864, 9980491005063840); (202176, 9980603227912100);
  (203507, 9980715450760350); (204854, 9980827673608610); (206220, 9980939896456870); (207604, 9981052119305130); (209007, 9981164342153390);
  (210429, 9981276565001650); (211870, 9981388787849910); (213331, 9981501010698170); (214812, 9981613233546430); (216315, 9981725456394690);
  (217838, 9981837679242950); (219383, 9981949902091210); (220950, 9982062124939470); (222540, 9982174347787730); (224152, 9982286570635990);
  (225788, 9982398793484250); (227448, 9982511016332500); (229133, 9982623239180760); (230843, 9982735462029020); (232579, 9982847684877280);
  (234341, 9982959907725540); (236130, 9983072130573800); (237946, 9983184353422060); (239791, 9983296576270320); (241664, 9983408799118580);
  (243567, 9983521021966840); (245500, 9983633244815100); (247464, 9983745467663360); (249460, 9983857690511620); (251488, 9983969913359880);
  (253549, 9984082136208140); (255645, 9984194359056400); (257775, 9984306581904660); (259941, 9984418804752910); (262144, 9984531027601170);
  (263003, 9984599336566930); (263869, 9984667645532680); (264739, 9984735954498440); (265616, 9984804263464190); (266499, 9984872572429940);
  (267387, 9984940881395700); (268281, 9985009190361450); (269181, 9985077499327210); (270088, 9985145808292960); (271000, 9985214117258720);
  (271919, 9985282426224470); (272844, 9985350735190220); (273775, 9985419044155980); (274713, 9985487353121730); (275657, 9985555662087490);
  (276607, 9985623971053240); (277564, 9985692280018990); (278528, 9985760588984750); (279498, 9985828897950500); (280476, 9985897206916260);
  (281460, 9985965515882010); (282451, 9986033824847770); (283449, 9986102133813520); (284454, 9986170442779270); (285466, 9986238751745030);
  (286486, 9986307060710780); (287513, 9986375369676540); (288547, 9986443678642290); (289589, 9986511987608040); (290638, 9986580296573800);
  (291695, 9986648605539550); (292759, 9986716914505310); (293832, 9986785223471060); (294912, 9986853532436810); (296000, 9986921841402570);
  (297097, 9986990150368320); (298201, 9987058459334080); (299314, 9987126768299830); (300435, 9987195077265580); (301564, 9987263386231340);
  (302702, 9987331695197090); (303849, 9987400004162850); (305004, 9987468313128600); (306168, 9987536622094360); (307341, 9987604931060110);
  (308523, 9987673240025860); (309715, 9987741548991620); (310915, 9987809857957370); (312125, 9987878166923130); (313344, 9987946475888880);
  (314573, 9988014784854630); (315811, 9988083093820390); (317060, 9988151402786140); (318318, 9988219711751900); (319586, 9988288020717650);
  (320864, 9988356329683400); (322153, 9988424638649160); (323452, 9988492947614910); (324761, 9988561256580670); (326082, 9988629565546420);
  (327413, 9988697874512180); (328754, 9988766183477930); (330107, 9988834492443680); (331471, 9988902801409440); (332847, 9988971110375190);
  (334234, 9989039419340950); (335632, 9989107728306700); (337042, 9989176037272450); (338464, 9989244346238210); (339899, 9989312655203960);
  (341345, 9989380964169720); (342804, 9989449273135470); (344275, 9989517582101220); (345759, 9989585891066980); (347256, 9989654200032730);
  (348765, 9989722508998490); (350288, 9989790817964240); (351825, 9989859126930000); (353375, 9989927435895750); (354938, 9989995744861500);
  (356516, 9990064053827260); (358107, 9990132362793010); (359713, 9990200671758770); (361334, 9990268980724520); (362969, 9990337289690270);
  (364618, 9990405598656030); (366283, 9990473907621780); (367964, 9990542216587540); (369659, 9990610525553290); (371371, 9990678834519040);
  (373098, 9990747143484800); (374841, 9990815452450550); (376601, 9990883761416310); (378378, 9990952070382060); (380171, 9991020379347810);
  (381981, 9991088688313570); (383809, 9991156997279320); (385654, 9991225306245080); (387517, 9991293615210830); (389398, 9991361924176580);
  (391298, 9991430233142340); (393216, 9991498542108090); (395153, 9991566851073850); (397109, 9991635160039600); (399085, 9991703469005360);
  (401080, 9991771777971110); (403096, 9991840086936860); (405132, 9991908395902620); (407188, 9991976704868370); (409266, 9992045013834130);
  (411364, 9992113322799880); (413485, 9992181631765640); (415627, 9992249940731390); (417792, 9992318249697140); (419979, 9992386558662900);
  (422190, 9992454867628650); (424424, 9992523176594410); (426681, 9992591485560160); (428963, 9992659794525910); (431269, 9992728103491670);
  (433600, 9992796412457420); (435957, 9992864721423180); (438339, 9992933030388930); (440748, 9993001339354680); (443183, 9993069648320440);
  (445645, 9993137957286190); (448134, 9993206266251950); (450652, 9993274575217700); (453198, 9993342884183450); (455773, 9993411193149210);
  (458378, 9993479502114960); (461012, 9993547811080720); (463677, 9993616120046470); (466372, 9993684429012230); (469100, 9993752737977980);
  (471859, 9993821046943730); (474651, 9993889355909490); (477477, 9993957664875240); (480336, 9994025973841000); (483229, 9994094282806750);
  (486158, 9994162591772500); (489122, 9994230900738260); (492123, 9994299209704010); (495161, 9994367518669770); (498236, 9994435827635520);
  (501350, 9994504136601270); (504504, 9994572445567030); (507697, 9994640754532780); (510930, 9994709063498540); (514206, 9994777372464290);
  (517523, 9994845681430040); (520884, 9994913990395800); (524288, 9994982299361550); (526844, 9995007513937630); (529425, 9995032728513700);
  (532031, 9995057943089770); (534663, 9995083157665840); (537322, 9995108372241920); (540006, 9995133586817990); (542718, 9995158801394060);
  (545458, 9995184015970130); (548225, 9995209230546210); (551020, 9995234445122280); (553844, 9995259659698350); (556697, 9995284874274420);
  (559579, 9995310088850500); (562492, 9995335303426570); (565435, 9995360518002640); (568408, 9995385732578720); (571414, 9995410947154790);
  (574451, 9995436161730860); (577521, 9995461376306930); (580624, 9995486590883000); (583760, 9995511805459080); (586931, 9995537020035150);
  (590136, 9995562234611220); (593376, 9995587449187300); (596652, 9995612663763370); (599964, 9995637878339440); (603313, 9995663092915510);
  (606700, 9995688307491590); (610125, 9995713522067660); (613590, 9995738736643730); (617093, 9995763951219800); (620637, 9995789165795880);
  (624222, 9995814380371950); (627848, 9995839594948020); (631517, 9995864809524090); (635229, 9995890024100170); (638985, 9995915238676240);
  (642786, 9995940453252310); (646632, 9995965667828380); (650524, 9995990882404460); (654463, 9996016096980530); (658451, 9996041311556600);
  (662487, 9996066526132680); (666573, 9996091740708750); (670710, 9996116955284820); (674899, 9996142169860890); (679140, 9996167384436970);
  (683435, 9996192599013040); (687784, 9996217813589110); (692190, 9996243028165180); (696652, 9996268242741260); (701172, 9996293457317330);
  (705750, 9996318671893400); (710390, 9996343886469470); (715090, 9996369101045550); (719853, 9996394315621620); (724680, 9996419530197690);
  (729573, 9996444744773760); (734531, 9996469959349840); (739558, 9996495173925910); (744654, 9996520388501980); (749820, 9996545603078050);
  (755059, 9996570817654130); (760371, 9996596032230200); (765759, 9996621246806270); (771224, 9996646461382340); (776767, 9996671675958420);
  (782390, 9996696890534490); (788096, 9996722105110560); (793885, 9996747319686640); (799760, 9996772534262710); (805723, 9996797748838780);
  (811775, 9996822963414850); (817919, 9996848177990930); (824156, 9996873392567000); (830490, 9996898607143070); (836921, 9996923821719140);
  (843453, 9996949036295220); (850088, 9996974250871290); (856827, 9996999465447360); (863675, 9997024680023430); (870633, 9997049894599510);
  (877704, 9997075109175580); (884890, 9997100323751650); (892196, 9997125538327720); (899623, 9997150752903800); (907174, 9997175967479870);
  (914854, 9997201182055940); (922664, 9997226396632010); (930609, 9997251611208090); (938693, 9997276825784160); (946917, 9997302040360230);
  (955288, 9997327254936300); (963807, 9997352469512380); (972480, 9997377684088450); (981310, 9997402898664520); (990302, 9997428113240600);
  (999461, 9997453327816670); (1008790, 9997478542392740); (1018296, 9997503756968810); (1027982, 9997528971544890); (1037854, 9997554186120960);
  (1047917, 9997579400697030); (1058178, 9997604615273100); (1068642, 9997629829849180); (1079314, 9997655044425250); (1090202, 9997680259001320);
  (1101312, 9997705473577390); (1112651, 9997730688153470); (1124225, 9997755902729540); (1136043, 9997781117305610); (1148112, 9997806331881680);
  (1160440, 9997831546457760); (1173036, 9997856761033830); (1185908, 9997881975609900); (1199066, 9997907190185980); (1212519, 9997932404762050);
  (1226277, 9997957619338120); (1240351, 9997982833914190); (1254752, 9998008048490260); (1269492, 9998033263066340); (1284581, 9998058477642410);
  (1300034, 9998083692218480); (1315863, 9998108906794550); (1332082, 9998134121370630); (1348706, 9998159335946700); (1365751, 9998184550522770);
  (1383231, 9998209765098850); (1401165, 9998234979674920); (1419570, 9998260194250990); (1438465, 9998285408827060); (1457870, 9998310623403140);
  (1477805, 9998335837979210); (1498294, 9998361052555280); (1519358, 9998386267131350); (1541023, 9998411481707430); (1563315, 9998436696283500);
  (1586261, 9998461910859570); (1609891, 9998487125435640); (1634235, 9998512340011720); (1659327, 9998537554587790); (1685202, 9998562769163860);
  (1711896, 9998587983739930); (1739450, 9998613198316010); (1767905, 9998638412892080); (1797307, 9998663627468150); (1827703, 9998688842044230);
  (1859145, 9998714056620300); (1891687, 9998739271196370); (1925389, 9998764485772440); (1960314, 9998789700348510); (1996529, 9998814914924590);
  (2034108, 9998840129500660); (2073128, 9998865344076730); (2113675, 9998890558652810); (2155839, 9998915773228880); (2199720, 9998940987804950);
  (2245424, 9998966202381020); (2293067, 9998991416957100); (2342777, 9999016631533170); (2394689, 9999041846109240); (2448954, 9999067060685310);
  (2505735, 9999092275261390); (2565212, 9999117489837460); (2627581, 9999142704413530); (2693059, 9999167918989600); (2761883, 9999193133565680);
  (2834317, 9999218348141750); (2910653, 9999243562717820); (2991214, 9999268777293890); (3076362, 9999293991869970); (3166500, 9999319206446040);
  (3262080, 9999344421022110); (3363608, 9999369635598190); (3471660, 9999394850174260); (3586885, 9999420064750330); (3710020, 9999445279326400);
  (3841911, 9999470493902480); (3983524, 9999495708478550); (4135977, 9999520923054620); (4300563, 9999546137630690); (4478791, 9999571352206770);
  (4672430, 9999596566782840); (4883570, 9999621781358910); (5114695, 9999646995934980); (5368784, 9999672210511060); (5649438, 9999697425087130);
  (5961053, 9999722639663200); (6309051, 9999747854239270); (6700199, 9999773068815350); (7143054, 9999798283391420); (7648594, 9999823497967490);
  (8231141, 9999848712543560); (8909743, 9999873927119640); (9710291, 9999899141695710); (10668901, 9999924356271780); (11837511, 9999949570847850);
  (13293619, 9999974785423930); (15158197, 10000000000000000)].

Definition w4 : list (Z * Z) := [
  (53, 7400000000000); (56, 14800000000000); (60, 22200000000000); (64, 29600000000000); (68, 37000000000000);
  (72, 44400000000000); (77, 51800000000000); (81, 59200000000000); (87, 66600000000000); (92, 74000000000000);
  (100, 81500000000000); (109, 89000000000000); (119, 96500000000000); (130, 104000000000000); (141, 111500000000000);
  (154, 119000000000000); (168, 126500000000000); (183, 134000000000000); (199, 141500000000000); (217, 149000000000000);
  (222, 175000000000000); (227, 201000000000000); (232, 227000000000000); (237, 253000000000000); (243, 279000000000000);
  (248, 305000000000000); (254, 331000000000000); (259, 357000000000000); (265, 383000000000000); (271, 409000000000000);
  (274, 420100000000000); (277, 431200000000000); (279, 442300000000000); (282, 453400000000000); (285, 464500000000000);
  (288, 475600000000000); (291, 486700000000000); (294, 497800000000000); (297, 508900000000000); (300, 520000000000000);
  (303, 605500000000000); (305, 691000000000000); (308, 776500000000000); (310, 862000000000000); (313, 947500000000000);
  (315, 1033000000000000); (318, 1118500000000000); (321, 1204000000000000); (323, 1289500000000000); (326, 1375000000000000);
  (331, 1440100000000000); (335, 1505200000000000); (340, 1570300000000000); (345, 1635400000000000); (350, 1700500000000000);
  (355, 1765600000000000); (360, 1830700000000000); (365, 1895800000000000); (371, 1960900000000000); (376, 2026000000000000);
  (381, 2046400000000000); (385, 2066800000000000); (390, 2087200000000000); (395, 2107600000000000); (400, 2128000000000000);
  (405, 2148400000000000); (410, 2168800000000000); (415, 2189200000000000); (420, 2209600000000000); (425, 2230000000000000);
  (430, 2270900000000000); (435, 2311800000000000); (441, 2352700000000000); (446, 2393600000000000); (452, 2434500000000000);
  (457, 2475400000000000); (463, 2516300000000000); (468, 2557200000000000); (474, 2598100000000000); (480, 2639000000000000);
  (491, 2834200000000000); (502, 3029400000000000); (513, 3224600000000000); (525, 3419800000000000); (537, 3615000000000000);
  (549, 3810200000000000); (561, 4005400000000000); (574, 4200600000000000); (587, 4395800000000000); (600, 4591000000000000);
  (607, 4648600000000000); (615, 4706200000000000); (623, 4763800000000000); (630, 4821400000000000); (638, 4879000000000000);
  (646, 4936600000000000); (654, 4994200000000000); (662, 5051800000000000); (671, 5109400000000000); (679, 5167000000000000);
  (685, 5202300000000000); (690, 5237600000000000); (696, 5272900000000000); (702, 5308200000000000); (707, 5343500000000000);
  (713, 5378800000000000); (719, 5414100000000000); (725, 5449400000000000); (731, 5484700000000000); (737, 5520000000000000);
  (743, 5544200000000000); (749, 5568400000000000); (755, 5592600000000000); (762, 5616800000000000); (768, 5641000000000000);
  (774, 5665200000000000); (781, 5689400000000000); (787, 5713600000000000); (793, 5737800000000000); (800, 5762000000000000);
  (808, 5777000000000000); (816, 5792000000000000); (825, 5807000000000000); (833, 5822000000000000); (841, 5837000000000000);
  (850, 5852000000000000); (859, 5867000000000000); (867, 5882000000000000); (876, 5897000000000000); (885, 5912000000000000);
  (900, 5930500000000000); (914, 5949000000000000); (929, 5967500000000000); (945, 5986000000000000); (960, 6004500000000000);
  (976, 6023000000000000); (992, 6041500000000000); (1009, 6060000000000000); (1025, 6078500000000000); (1042, 6097000000000000);
  (1063, 6115500000000000); (1085, 6134000000000000); (1108, 6152500000000000); (1130, 6171000000000000); (1154, 6189500000000000);
  (1177, 6208000000000000); (1201, 6226500000000000); (1226, 6245000000000000); (1251, 6263500000000000); (1277, 6282000000000000);
  (1290, 6293200000000000); (1303, 6304400000000000); (1316, 6315600000000000); (1330, 6326800000000000); (1343, 6338000000000000);
  (1357, 6349200000000000); (1371, 6360400000000000); (1385, 6371600000000000); (1399, 6382800000000000); (1413, 6394000000000000);
  (1425, 6401400000000000); (1436, 6408800000000000); (1448, 6416200000000000); (1460, 6423600000000000); (1472, 6431000000000000);
  (1484, 6438400000000000); (1497, 6445800000000000); (1509, 6453200000000000); (1521, 6460600000000000); (1534, 6468000000000000);
  (1547, 6488500000000000); (1559, 6509000000000000); (1572, 6529500000000000); (1585, 6550000000000000); (1598, 6570500000000000);
  (1611, 6591000000000000); (1624, 6611500000000000); (1637, 6632000000000000); (1651, 6652500000000000); (1664, 6673000000000000);
  (1712, 6680400000000000); (1762, 6687800000000000); (1813, 6695200000000000); (1865, 6702600000000000); (1919, 6710000000000000);
  (1975, 6717400000000000); (2032, 6724800000000000); (2091, 6732200000000000); (2152, 6739600000000000); (2214, 6747000000000000);
  (2311, 6756300000000000); (2412, 6765600000000000); (2517, 6774900000000000); (2627, 6784200000000000); (2742, 6793500000000000);
  (2862, 6802800000000000); (2987, 6812100000000000); (3118, 6821400000000000); (3254, 6830700000000000); (3396, 6840000000000000);
  (3544, 6849300000000000); (3699, 6858600000000000); (3861, 6867900000000000); (4030, 6877200000000000); (4206, 6886500000000000);
  (4390, 6895800000000000); (4582, 6905100000000000); (4783, 6914400000000000); (4992, 6923700000000000); (5210, 6933000000000000);
  (5427, 6947900000000000); (5652, 6962800000000000); (5887, 6977700000000000); (6132, 6992600000000000); (6387, 7007500000000000);
  (6653, 7022400000000000); (6929, 7037300000000000); (7217, 7052200000000000); (7517, 7067100000000000); (7830, 7082000000000000);
  (9012, 7095000000000000); (10373, 7108000000000000); (11939, 7121000000000000); (13741, 7134000000000000); (15816, 7147000000000000);
  (18203, 7160000000000000); (20952, 7173000000000000); (24115, 7186000000000000); (27756, 7199000000000000); (31946, 7212000000000000);
  (32405, 7221300000000000); (32871, 7230600000000000); (33343, 7239900000000000); (33822, 7249200000000000); (34308, 7258500000000000);
  (34801, 7267800000000000); (35301, 7277100000000000); (35808, 7286400000000000); (36322, 7295700000000000); (36844, 7305000000000000);
  (37146, 7314300000000000); (37450, 7323600000000000); (37756, 7332900000000000); (38065, 7342200000000000); (38377, 7351500000000000);
  (38691, 7360800000000000); (39007, 7370100000000000); (39327, 7379400000000000); (39648, 7388700000000000); (39973, 7398000000000000);
  (40382, 7416600000000000); (40796, 7435200000000000); (41214, 7453800000000000); (41636, 7472400000000000); (42062, 7491000000000000);
  (42493, 7509600000000000); (42928, 7528200000000000); (43367, 7546800000000000); (43811, 7565400000000000); (44260, 7584000000000000);
  (44531, 7604400000000000); (44804, 7624800000000000); (45079, 7645200000000000); (45356, 7665600000000000); (45634, 7686000000000000);
  (45913, 7706400000000000); (46195, 7726800000000000); (46478, 7747200000000000); (46763, 7767600000000000); (47050, 7788000000000000);
  (47435, 7825200000000000); (47823, 7862400000000000); (48215, 7899600000000000); (48609, 7936800000000000); (49007, 7974000000000000);
  (49408, 8011200000000000); (49813, 8048400000000000); (50221, 8085600000000000); (50632, 8122800000000000); (51046, 8160000000000000);
  (52097, 8167400000000000); (53169, 8174800000000000); (54264, 8182200000000000); (55381, 8189600000000000); (56521, 8197000000000000);
  (57684, 8204400000000000); (58872, 8211800000000000); (60084, 8219200000000000); (61321, 8226600000000000); (62583, 8234000000000000);
  (63353, 8243300000000000); (64132, 8252600000000000); (64921, 8261900000000000); (65720, 8271200000000000); (66528, 8280500000000000);
  (67347, 8289800000000000); (68175, 8299100000000000); (69014, 8308400000000000); (69863, 8317700000000000); (70722, 8327000000000000);
  (71156, 8336300000000000); (71592, 8345600000000000); (72031, 8354900000000000); (72473, 8364200000000000); (72917, 8373500000000000);
  (73364, 8382800000000000); (73814, 8392100000000000); (74266, 8401400000000000); (74722, 8410700000000000); (75180, 8420000000000000);
  (75795, 8449700000000000); (76416, 8479400000000000); (77041, 8509100000000000); (77672, 8538800000000000); (78307, 8568500000000000);
  (78948, 8598200000000000); (79595, 8627900000000000); (80246, 8657600000000000); (80903, 8687300000000000); (81565, 8717000000000000);
  (83414, 8733800000000000); (85305, 8750600000000000); (87238, 8767400000000000); (89216, 8784200000000000); (91238, 8801000000000000);
  (93306, 8817800000000000); (95421, 8834600000000000); (97584, 8851400000000000); (99796, 8868200000000000); (102058, 8885000000000000);
  (103313, 8894300000000000); (104584, 8903600000000000); (105871, 8912900000000000); (107173, 8922200000000000); (108492, 8931500000000000);
  (109826, 8940800000000000); (111177, 8950100000000000); (112545, 8959400000000000); (113929, 8968700000000000); (115331, 8978000000000000);
  (116988, 8987200000000000); (118669, 8996400000000000); (120373, 9005600000000000); (122103, 9014800000000000); (123857, 9024000000000000);
  (125636, 9033200000000000); (127441, 9042400000000000); (129272, 9051600000000000); (131129, 9060800000000000); (133013, 9070000000000000);
  (135199, 9079400000000000); (137421, 9088800000000000); (139679, 9098200000000000); (141975, 9107600000000000); (144308, 9117000000000000);
  (146680, 9126400000000000); (149091, 9135800000000000); (151541, 9145200000000000); (154032, 9154600000000000); (156563, 9164000000000000);
  (159136, 9173300000000000); (161752, 9182600000000000); (164410, 9191900000000000); (167112, 9201200000000000); (169859, 9210500000000000);
  (172651, 9219800000000000); (175488, 9229100000000000); (178373, 9238400000000000); (181304, 9247700000000000); (184284, 9257000000000000);
  (186932, 9266200000000000); (189618, 9275400000000000); (192343, 9284600000000000); (195107, 9293800000000000); (197911, 9303000000000000);
  (200755, 9312200000000000); (203640, 9321400000000000); (206566, 9330600000000000); (209535, 9339800000000000); (212546, 9349000000000000);
  (215160, 9358300000000000); (217805, 9367600000000000); (220484, 9376900000000000); (223195, 9386200000000000); (225940, 9395500000000000);
  (228718, 9404800000000000); (231530, 9414100000000000); (234377, 9423400000000000); (237259, 9432700000000000); (240177, 9442000000000000);
  (244622, 9451300000000000); (249150, 9460600000000000); (253761, 9469900000000000); (258458, 9479200000000000); (263241, 9488500000000000);
  (268113, 9497800000000000); (273075, 9507100000000000); (278129, 9516400000000000); (283277, 9525700000000000); (288520, 9535000000000000);
  (302981, 9544300000000000); (318166, 9553600000000000); (334113, 9562900000000000); (350858, 9572200000000000); (368444, 9581500000000000);
  (386910, 9590800000000000); (406302, 9600100000000000); (426666, 9609400000000000); (448051, 9618700000000000); (470507, 9628000000000000);
  (492079, 9633600000000000); (514641, 9639200000000000); (538237, 9644800000000000); (562914, 9650400000000000); (588723, 9656000000000000);
  (615716, 9661600000000000); (643946, 9667200000000000); (673470, 9672800000000000); (704348, 9678400000000000); (736642, 9684000000000000);
  (754877, 9687700000000000); (773563, 9691400000000000); (792711, 9695100000000000); (812333, 9698800000000000); (832442, 9702500000000000);
  (853048, 9706200000000000); (874164, 9709900000000000); (895802, 9713600000000000); (917977, 9717300000000000); (940700, 9721000000000000);
  (1002039, 9730300000000000); (1067379, 9739600000000000); (1136978, 9748900000000000); (1211116, 9758200000000000); (1290088, 9767500000000000);
  (1374210, 9776800000000000); (1463817, 9786100000000000); (1559267, 9795400000000000); (1660940, 9804700000000000); (1769244, 9814000000000000);
  (1805665, 9819600000000000); (1842837, 9825200000000000); (1880773, 9830800000000000); (1919490, 9836400000000000); (1959005, 9842000000000000);
  (1999332, 9847600000000000); (2040490, 9853200000000000); (2082496, 9858800000000000); (2125366, 9864400000000000); (2169118, 9870000000000000);
  (2527289, 9883000000000000); (2944602, 9896000000000000); (3430822, 9909000000000000); (3997329, 9922000000000000); (4657379, 9935000000000000);
  (5426418, 9948000000000000); (6322443, 9961000000000000); (7366423, 9974000000000000); (8582787, 9987000000000000); (10000000, 10000000000000000)].

Definition w5 : list (Z * Z) := [
  (1430, 250000000000000); (2860, 500000000000000); (4290, 750000000000000); (5720, 1000000000000000); (7150, 1250000000000000);
  (8580, 1500000000000000); (10010, 1571430000000000); (11440, 1642860000000000); (13230, 1714290000000000); (14700, 1785710000000000);
  (16170, 1857140000000000); (17640, 1928570000000000); (19110, 2000000000000000); (20580, 2166670000000000); (22050, 2333330000000000);
  (23520, 2500000000000000); (24990, 2666670000000000); (26460, 2833330000000000); (27930, 3000000000000000); (29400, 3071430000000000);
  (30870, 3142860000000000); (32340, 3214290000000000); (33810, 3285710000000000); (35280, 3357140000000000); (36750, 3428570000000000);
  (38220, 3500000000000000); (39690, 3571430000000000); (41160, 3642860000000000); (42630, 3714290000000000); (44100, 3785710000000000);
  (45570, 3857140000000000); (47040, 3928570000000000); (48510, 4000000000000000); (49980, 4065000000000000); (51450, 4130000000000000);
  (52920, 4195000000000000); (54390, 4260000000000000); (55860, 4325000000000000); (57330, 4390000000000000); (58800, 4455000000000000);
  (60270, 4520000000000000); (61740, 4585000000000000); (63210, 4650000000000000); (64680, 4715000000000000); (66150, 4780000000000000);
  (67620, 4845000000000000); (69090, 4910000000000000); (70560, 4975000000000000); (72030, 5040000000000000); (73500, 5105000000000000);
  (74970, 5170000000000000); (76440, 5235000000000000); (77910, 5300000000000000); (79380, 5308750000000000); (80850, 5317500000000000);
  (82320, 5326250000000000); (83790, 5335000000000000); (85260, 5343750000000000); (86730, 5352500000000000); (88200, 5361250000000000);
  (89670, 5370000000000000); (91140, 5378750000000000); (92610, 5387500000000000); (94080, 5396250000000000); (95550, 5405000000000000);
  (97020, 5413750000000000); (98490, 5422500000000000); (99960, 5431250000000000); (101430, 5440000000000000); (102900, 5448750000000000);
  (104370, 5457500000000000); (105840, 5466250000000000); (107310, 5475000000000000); (108780, 5483750000000000); (110250, 5492500000000000);
  (111720, 5501250000000000); (113190, 5510000000000000); (114660, 5518750000000000); (116130, 5527500000000000); (117600, 5536250000000000);
  (119070, 5545000000000000); (120540, 5553750000000000); (122010, 5562500000000000); (123480, 5571250000000000); (124950, 5580000000000000);
  (126420, 5588750000000000); (127890, 5597500000000000); (129360, 5606250000000000); (130830, 5615000000000000); (132300, 5623750000000000);
  (133770, 5632500000000000); (135240, 5641250000000000); (136710, 5650000000000000); (138180, 5658750000000000); (139650, 5667500000000000);
  (141120, 5676250000000000); (142590, 5685000000000000); (144060, 5693750000000000); (145530, 5702500000000000); (147000, 5711250000000000);
  (148470, 5720000000000000); (149940, 5728750000000000); (151410, 5737500000000000); (152880, 5746250000000000); (154350, 5755000000000000);
  (155820, 5763750000000000); (157290, 5772500000000000); (158760, 5781250000000000); (160230, 5790000000000000); (161700, 5798750000000000);
  (163170, 5807500000000000); (164640, 5816250000000000); (166110, 5825000000000000); (167580, 5833750000000000); (169050, 5842500000000000);
  (170520, 5851250000000000); (171990, 5860000000000000); (173460, 5868750000000000); (174930, 5877500000000000); (176400, 5886250000000000);
  (177870, 5895000000000000); (179340, 5903750000000000); (180810, 5912500000000000); (182280, 5921250000000000); (183750, 5930000000000000);
  (185220, 5938750000000000); (186690, 5947500000000000); (188160, 5956250000000000); (189630, 5965000000000000); (191100, 5973750000000000);
  (192570, 5982500000000000); (194040, 5991250000000000); (195510, 6000000000000000); (196980, 6001870000000000); (198450, 6003750000000000);
  (199920, 6005620000000000); (201390, 6007490000000000); (202860, 6009360000000000); (204330, 6011240000000000); (205800, 6013110000000000);
  (207270, 6014980000000000); (208740, 6016850000000000); (210210, 6018730000000000); (211680, 6020600000000000); (213150, 6022470000000000);
  (214620, 6024340000000000); (216090, 6026220000000000); (217560, 6028090000000000); (219030, 6029960000000000); (220500, 6031840000000000);
  (221970, 6033710000000000); (223440, 6035580000000000); (224910, 6037450000000000); (226380, 6039330000000000); (227850, 6041200000000000);
  (229320, 6043070000000000); (230790, 6044940000000000); (232260, 6046820000000000); (233730, 6048690000000000); (235200, 6050560000000000);
  (236670, 6052430000000000); (238140, 6054310000000000); (239610, 6056180000000000); (241080, 6058050000000000); (242550, 6059930000000000);
  (244020, 6061800000000000); (245490, 6063670000000000); (246960, 6065540000000000); (248430, 6067420000000000); (249900, 6069290000000000);
  (251370, 6071160000000000); (252840, 6073030000000000); (254310, 6074910000000000); (255780, 6076780000000000); (257250, 6078650000000000);
  (258720, 6080520000000000); (260190, 6082400000000000); (261660, 6084270000000000); (263130, 6086140000000000); (264600, 6088010000000000);
  (266070, 6089890000000000); (267540, 6091760000000000); (269010, 6093630000000000); (270480, 6095510000000000); (271950, 6097380000000000);
  (273420, 6099250000000000); (274890, 6101120000000000); (276360, 6103000000000000); (277830, 6104870000000000); (279300, 6106740000000000);
  (280770, 6108610000000000); (282240, 6110490000000000); (283710, 6112360000000000); (285180, 6114230000000000); (286650, 6116100000000000);
  (288120, 6117980000000000); (289590, 6119850000000000); (291060, 6121720000000000); (292530, 6123600000000000); (294000, 6125470000000000);
  (295470, 6127340000000000); (296940, 6129210000000000); (298410, 6131090000000000); (299880, 6132960000000000); (301350, 6134830000000000);
  (302820, 6136700000000000); (304290, 6138580000000000); (305760, 6140450000000000); (307230, 6142320000000000); (308700, 6144190000000000);
  (310170, 6146070000000000); (311640, 6147940000000000); (313110, 6149810000000000); (314580, 6151690000000000); (316050, 6153560000000000);
  (317520, 6155430000000000); (318990, 6157300000000000); (320460, 6159180000000000); (321930, 6161050000000000); (323400, 6162920000000000);
  (324870, 6164790000000000); (326340, 6166670000000000); (327810, 6168540000000000); (329280, 6170410000000000); (330750, 6172280000000000);
  (332220, 6174160000000000); (333690, 6176030000000000); (335160, 6177900000000000); (336630, 6179780000000000); (338100, 6181650000000000);
  (339570, 6183520000000000); (341040, 6185390000000000); (342510, 6187270000000000); (343980, 6189140000000000); (345450, 6191010000000000);
  (346920, 6192880000000000); (348390, 6194760000000000); (349860, 6196630000000000); (351330, 6198500000000000); (352800, 6200370000000000);
  (354270, 6202250000000000); (355740, 6204120000000000); (357210, 6205990000000000); (358680, 6207870000000000); (360150, 6209740000000000);
  (361620, 6211610000000000); (363090, 6213480000000000); (364560, 6215360000000000); (373380, 6226590000000000); (392490, 6250940000000000);
  (411600, 6275280000000000); (432180, 6301500000000000); (451290, 6325840000000000); (470400, 6350190000000000); (490980, 6376400000000000);
  (510090, 6400750000000000); (529200, 6425090000000000); (549780, 6451310000000000); (568890, 6475660000000000); (588000, 6500000000000000);
  (608580, 6526220000000000); (627690, 6550560000000000); (648270, 6576780000000000); (667380, 6601120000000000); (686490, 6625470000000000);
  (707070, 6651690000000000); (726180, 6676030000000000); (745290, 6700370000000000); (765870, 6726590000000000); (784980, 6750940000000000);
  (804090, 6775280000000000); (824670, 6801500000000000); (843780, 6825840000000000); (862890, 6850190000000000); (883470, 6876400000000000);
  (902580, 6900750000000000); (921690, 6925090000000000); (942270, 6951310000000000); (961380, 6975660000000000); (980490, 7000000000000000);
  (1005480, 7025530000000000); (1030470, 7051050000000000); (1053990, 7075080000000000); (1078980, 7100600000000000); (1103970, 7126130000000000);
  (1127490, 7150150000000000); (1152480, 7175680000000000); (1177470, 7201200000000000); (1200990, 7225230000000000); (1225980, 7250750000000000);
  (1250970, 7276280000000000); (1274490, 7300300000000000); (1299480, 7325830000000000); (1324470, 7351350000000000); (1347990, 7375380000000000);
  (1372980, 7400900000000000); (1397970, 7426430000000000); (1421490, 7450450000000000); (1446480, 7475980000000000); (1470000, 7500000000000000);
  (1494990, 7525530000000000); (1519980, 7551050000000000); (1543500, 7575080000000000); (1568490, 7600600000000000); (1593480, 7626130000000000);
  (1617000, 7650150000000000); (1641990, 7675680000000000); (1666980, 7701200000000000); (1690500, 7725230000000000); (1715490, 7750750000000000);
  (1740480, 7776280000000000); (1764000, 7800300000000000); (1788990, 7825830000000000); (1813980, 7851350000000000); (1837500, 7875380000000000);
  (1862490, 7900900000000000); (1887480, 7926430000000000); (1911000, 7950450000000000); (1935990, 7975980000000000); (1959510, 8000000000000000);
  (2033010, 8025000000000000); (2106510, 8050000000000000); (2180010, 8075000000000000); (2253510, 8100000000000000); (2327010, 8125000000000000);
  (2400510, 8150000000000000); (2474010, 8175000000000000); (2547510, 8200000000000000); (2621010, 8225000000000000); (2694510, 8250000000000000);
  (2768010, 8275000000000000); (2841510, 8300000000000000); (2915010, 8325000000000000); (2988510, 8350000000000000); (3062010, 8375000000000000);
  (3135510, 8400000000000000); (3209010, 8425000000000000); (3282510, 8450000000000000); (3356010, 8475000000000000); (3429510, 8500000000000000);
  (3503010, 8525000000000000); (3576510, 8550000000000000); (3650010, 8575000000000000); (3723510, 8600000000000000); (3797010, 8625000000000000);
  (3870510, 8650000000000000); (3944010, 8675000000000000); (4017510, 8700000000000000); (4091010, 8725000000000000); (4164510, 8750000000000000);
  (4238010, 8775000000000000); (4311510, 8800000000000000); (4385010, 8825000000000000); (4458510, 8850000000000000); (4532010, 8875000000000000);
  (4605510, 8900000000000000); (4679010, 8925000000000000); (4752510, 8950000000000000); (4826010, 8975000000000000); (4899510, 9000000000000000);
  (10291470, 9025050000000000); (10780980, 9050030000000000); (11270490, 9075000000000000); (11761470, 9100050000000000); (12250980, 9125030000000000);
  (12740490, 9150000000000000); (13231470, 9175050000000000); (13720980, 9200030000000000); (14210490, 9225010000000000); (14701470, 9250060000000000);
  (15190980, 9275030000000000); (15680490, 9300010000000000); (16171470, 9325060000000000); (16660980, 9350030000000000); (17150490, 9375010000000000);
  (17641470, 9400060000000000); (18130980, 9425040000000000); (18620490, 9450010000000000); (19111470, 9475060000000000); (19600980, 9500040000000000);
  (20090490, 9525010000000000); (20581470, 9550060000000000); (21070980, 9575040000000000); (21560490, 9600020000000000); (22051470, 9625070000000000);
  (22540980, 9650040000000000); (23030490, 9675020000000000); (23521470, 9700070000000000); (24010980, 9725040000000000); (24500490, 9750020000000000);
  (24991470, 9775070000000000); (25480980, 9800050000000000); (25970490, 9825020000000000); (26461470, 9850070000000000); (26950980, 9875050000000000);
  (27440490, 9900020000000000); (27931470, 9925070000000000); (28420980, 9950050000000000); (28910490, 9975020000000000); (29400000, 10000000000000000)].
