(* ===== verification/Dist.v ===== *)
(** * Distributions of message lengths (util/dist.cc)

    A [dist_point_gen] generates lengths of messages at random according to a
    distribution: one of the workloads, with neighbouring points merged, or a
    fixed length.

    The code computes with IEEE double-precision numbers.  They are modelled
    by integers [m * 2 ^ e], and every operation rounds its exact result to
    the nearest number with 53 bits, ties to even; none of the values here are
    near the limits of the exponent. *)
From S2P Require Import Prelude Lists Types Workloads.

(** ** Doubles *)
Record f64 := F64 { fm : Z; fe : Z }.

(** [m / 2 ^ k] rounded to an integer, ties to even; [sticky] tells that the
    exact value is a bit larger than [m]. *)
Definition round_shift (m k : Z) (sticky : bool) : Z :=
  let q := m / 2 ^ k in
  let r := m mod 2 ^ k in
  let half := 2 ^ (k - 1) in
  if (r >? half) || ((r =? half) && (sticky || Z.odd q)) then q + 1 else q.

(** The double next to [n / d], for [0 <= n] and [0 < d]. *)
Definition round_q (n d : Z) : f64 :=
  if n <=? 0 then F64 0 0 else
  let s := Z.max 0 (Z.log2 d - Z.log2 n + 60) in
  let q := n * 2 ^ s / d in
  let sticky := negb (n * 2 ^ s mod d =? 0) in
  let k := Z.log2 q - 52 in
  F64 (round_shift q k sticky) (k - s).

Definition round_f (m e : Z) : f64 := if e >=? 0 then round_q (m * 2 ^ e) 1 else round_q m (2 ^ (- e)).

(** A decimal number of the source, and an integer. *)
Definition of_dec (n : Z) : f64 := round_q n (10 ^ 16).
Definition of_int (n : Z) : f64 := round_q n 1.

(** [a <= b]. *)
Definition f_le (a b : f64) : bool :=
  let e := Z.min (fe a) (fe b) in fm a * 2 ^ (fe a - e) <=? fm b * 2 ^ (fe b - e).
Definition f_lt (a b : f64) : bool := negb (f_le b a).

(** [a - b], for [b <= a]. *)
Definition f_sub (a b : f64) : f64 :=
  let e := Z.min (fe a) (fe b) in round_f (fm a * 2 ^ (fe a - e) - fm b * 2 ^ (fe b - e)) e.
Definition f_mul (a b : f64) : f64 := round_f (fm a * fm b) (fe a + fe b).

(** ** class dist_point_gen *)
Record cdf_point := CdfPoint { cp_length : Z; cp_fraction : f64 }.

Definition one : f64 := F64 4503599627370496 (-52).
Definition min_bucket_frac : f64 := of_dec (25 * 10 ^ 12).
Definition max_size_ratio : f64 := of_dec (12 * 10 ^ 15).

Definition points_of (w : list (Z * Z)) : list cdf_point := map (fun x => CdfPoint x.1 (of_dec x.2)) w.

(** Is a new bucket started?  [rest] are the points after [p]. *)
Definition new_bucket (back : option cdf_point) (p : cdf_point) (rest : list cdf_point) : result bool :=
  match back with
  | None => Ok true
  | Some b =>
      if f_le min_bucket_frac (f_sub (cp_fraction p) (cp_fraction b)) then Ok true else
      match rest with
      | [] => Fault ArrayBounds
      | q :: _ => Ok (f_lt (f_mul max_size_ratio (of_int (cp_length b))) (of_int (cp_length q)))
      end
  end.

(** The loop over the points of the workload. *)
Fixpoint reduce (max_length : Z) (back : option cdf_point) (points : list cdf_point) : result (list cdf_point) :=
  match points with
  | [] => Fault ArrayBounds
  | p :: rest =>
      if cp_length p >=? max_length then Ok [CdfPoint max_length one]
      else if f_le one (cp_fraction p) then Ok [CdfPoint (cp_length p) one]
      else
        let! new := new_bucket back p rest in
        if (new : bool) then let! l := reduce max_length (Some p) rest in Ok (p :: l) else reduce max_length back rest
  end.

(** The argument of the constructor: the result of [strtol] and whether it used
    the whole string, or the name of a workload. *)
Inductive workload := WNumber (n : Z) | WName (table : list (Z * Z)) | WOther.

(** The constructor; [ProcessExit] is [abort]. *)
Definition dist_point_gen (dist : workload) (max_length : Z) : result (list cdf_point) :=
  let max_length := if max_length =? 0 then 2 ^ 64 - 1 else max_length in
  match dist with
  | WNumber n => let length_ := s32 n in if negb (length_ =? 0) then Ok [CdfPoint (u64 length_) one] else Fault ProcessExit
  | WName table => reduce max_length None (points_of table)
  | WOther => Fault ProcessExit
  end.

(** [operator ()]: [f] is the number drawn from the uniform distribution. *)
Fixpoint dist_sample (points : list cdf_point) (f : f64) : result Z :=
  match points with
  | [] => Fault ProcessExit
  | p :: rest => if f_le f (cp_fraction p) then Ok (s32 (cp_length p)) else dist_sample rest f
  end.

Definition dist_values (points : list cdf_point) : list Z := map (fun p => s32 (cp_length p)) points.
Definition cdf_fractions (points : list cdf_point) : list f64 := map cp_fraction points.

(** [dist_msg_overhead], with the division of C. *)
Definition dist_msg_overhead (length_ mtu : Z) : result Z :=
  let packet_data := mtu - (20 + 48) in
  if packet_data =? 0 then Fault DivByZero else
  let packets := Z.quot (length_ + packet_data - 1) packet_data in
  let grants := if length_ <=? 70000 then 0 else Z.quot (length_ - 70000 + 10000 - 1) 10000 in
  let common := 8 + 18 + 20 + 16 in
  Ok (packets * (common + 48) + grants * (common + 33)).

(** ** Lemmas *)
#[local] Opaque one.

(** *** Comparisons *)
Lemma f_le_scale e a b : e <= fe a -> e <= fe b -> f_le a b = (fm a * 2 ^ (fe a - e) <=? fm b * 2 ^ (fe b - e)).
Proof.
  intros Ha Hb. unfold f_le. set (m := Z.min (fe a) (fe b)). assert (e <= m) as Hm by lia.
  replace (fe a - e) with ((fe a - m) + (m - e)) by lia. replace (fe b - e) with ((fe b - m) + (m - e)) by lia.
  rewrite !Z.pow_add_r by lia. rewrite !Z.mul_assoc. assert (0 < 2 ^ (m - e)) by (apply Z.pow_pos_nonneg; lia).
  destruct (Z.leb_spec (fm a * 2 ^ (fe a - m)) (fm b * 2 ^ (fe b - m))); symmetry;
    [by apply Z.leb_le, Z.mul_le_mono_pos_r | by apply Z.leb_gt, Z.mul_lt_mono_pos_r].
Qed.

Lemma f_le_trans a b c : f_le a b = true -> f_le b c = true -> f_le a c = true.
Proof.
  set (e := Z.min (fe a) (Z.min (fe b) (fe c))). rewrite (f_le_scale e a b), (f_le_scale e b c), (f_le_scale e a c) by lia. rewrite !Z.leb_le. lia.
Qed.

Lemma f_le_total a b : f_le a b = false -> f_le b a = true.
Proof. set (e := Z.min (fe a) (fe b)). rewrite (f_le_scale e a b), (f_le_scale e b a) by lia. rewrite Z.leb_gt, Z.leb_le. lia. Qed.

Lemma f_le_refl a : f_le a a = true.
Proof. rewrite (f_le_scale (fe a)) by lia. apply Z.leb_le. lia. Qed.

(** *** Distributions *)
#[local] Opaque f_le.

(** [q] comes after [p]. *)
Definition before (p q : cdf_point) : Prop := cp_length p < cp_length q /\ f_le (cp_fraction p) (cp_fraction q) = true.

(** Points in increasing order, of which the last has everything. *)
Record table_ok (l : list cdf_point) : Prop := {
  to_sorted : StronglySorted before l;
  to_last : exists p, last l = Some p /\ f_le one (cp_fraction p) = true
}.

Lemma table_ok_tail p l : table_ok (p :: l) -> l <> [] -> table_ok l.
Proof.
  intros [H1 (q & H2 & H3)] Hne. apply StronglySorted_inv in H1 as [H1 _]. constructor; [done |]. exists q. split; [|done].
  destruct l; [by destruct Hne | exact H2].
Qed.

(** Where a point of the reduced distribution comes from: it is a point of the
    table, or the last one. *)
Definition comes_from (max_length : Z) (points : list cdf_point) (q : cdf_point) : Prop :=
  (q ∈ points /\ cp_length q < max_length /\ f_le one (cp_fraction q) = false) \/
  (cp_fraction q = one /\ cp_length q <= max_length /\ exists p, p ∈ points /\ cp_length q <= cp_length p /\ (cp_length q = cp_length p \/ cp_length q = max_length)).

Lemma comes_from_cons max_length p points q : comes_from max_length points q -> comes_from max_length (p :: points) q.
Proof. intros [(H1 & H2) | (H1 & H2 & p' & H3 & H4)]; [left | right]; [split; [by right | done] | split_ands; try done; exists p'; split; [by right | done]]. Qed.

(** A point of the table is before all that come from points after it. *)
Lemma before_comes_from max_length p points q :
  Forall (before p) points -> cp_length p < max_length -> f_le one (cp_fraction p) = false -> comes_from max_length points q -> before p q.
Proof.
  intros Hb Hl Hf [(Hq & _) | (E & _ & p' & Hp' & Hle & Hor)]; rewrite Forall_forall in Hb; [by apply Hb |].
  destruct (Hb p' Hp') as [Hlt _]. split; [lia |]. rewrite E. by apply f_le_total.
Qed.

Lemma reduce_spec max_length points : forall back, table_ok points ->
  exists l, reduce max_length back points = Ok l /\ StronglySorted before l /\ Forall (comes_from max_length points) l /\
    exists q, last l = Some q /\ cp_fraction q = one.
Proof.
  induction points as [|p points IH]; intros back Ht; [by destruct Ht as [_ (? & ? & _)] |]. cbn [reduce].
  destruct (Z.geb_spec (cp_length p) max_length) as [Hge | Hlt].
  { eexists. split; [reflexivity |]. split_ands; [by repeat constructor | | by eexists]. constructor; [|done]. right. split_ands; [done | cbn; lia |].
    exists p. split_ands; [by left | cbn; lia | by right]. }
  destruct (f_le one (cp_fraction p)) eqn:Ef.
  { eexists. split; [reflexivity |]. split_ands; [by repeat constructor | | by eexists]. constructor; [|done]. right. split_ands; [done | cbn; lia |].
    exists p. split_ands; [by left | cbn; lia | by left]. }
  assert (points <> []) as Hne by (intros ->; destruct Ht as [_ (q & [= <-] & H)]; congruence).
  pose proof (table_ok_tail _ _ Ht Hne) as Ht'. destruct Ht as [Hs _]. apply StronglySorted_inv in Hs as [_ Hp].
  assert (exists b, new_bucket back p points = Ok b) as [b Hb].
  { unfold new_bucket. destruct back as [b|]; [|by eexists]. destruct (f_le min_bucket_frac _); [by eexists |]. destruct points; [done | by eexists]. }
  rewrite Hb. cbn [result_bind]. destruct b.
  - destruct (IH (Some p) Ht') as (l & -> & Hsl & Hcf & q & Hq & Eq). cbn [result_bind]. exists (p :: l). split_ands; [done | | |].
    + constructor; [done |]. eapply Forall_impl; [apply Hcf |]. intros x Hx. by eapply before_comes_from.
    + constructor; [left; split_ands; [by left | done | done] |]. eapply Forall_impl; [apply Hcf |]. intros x. apply comes_from_cons.
    + exists q. split; [|done]. by destruct l.
  - destruct (IH back Ht') as (l & -> & Hsl & Hcf & Hq). exists l. split_ands; try done. eapply Forall_impl; [apply Hcf |]. intros x. apply comes_from_cons.
Qed.

(** The sample for [f] is the first point that has at least [f]. *)
Lemma dist_sample_spec l f : StronglySorted before l -> (exists q, last l = Some q /\ f_le f (cp_fraction q) = true) ->
  exists q, q ∈ l /\ dist_sample l f = Ok (s32 (cp_length q)) /\ forall p, p ∈ l -> cp_length q <= cp_length p <-> f_le f (cp_fraction p) = true.
Proof.
  induction 1 as [|p l Hs IH Hb]; intros (q & Hq & Hf); [done |]. cbn [dist_sample]. rewrite Forall_forall in Hb. destruct (f_le f (cp_fraction p)) eqn:Ep.
  - exists p. split_ands; [by left | done |]. intros x Hx. apply elem_of_cons in Hx as [-> | Hx]; [split; [done | lia] |].
    destruct (Hb x Hx) as [Hl Hfr]. split; [intros _; by eapply f_le_trans | lia].
  - destruct l as [|p' l']; [injection Hq as <-; congruence |]. destruct IH as (r & Hr & Hex & Hall); [by exists q |].
    exists r. split_ands; [by right | done |]. intros x Hx. apply elem_of_cons in Hx as [-> | Hx]; [|by apply Hall].
    rewrite Ep. destruct (Hb r Hr) as [Hl _]. split; [lia | done].
Qed.

(** *** The workloads *)
#[export] Instance before_trans : Transitive before.
Proof. intros a b c [H1 H2] [H3 H4]. split; [lia | by eapply f_le_trans]. Qed.

Fixpoint sorted_b (l : list cdf_point) : bool :=
  match l with
  | p :: l' =>
      match l' with
      | q :: _ => (cp_length p <? cp_length q) && f_le (cp_fraction p) (cp_fraction q) && sorted_b l'
      | [] => true
      end
  | [] => true
  end.

Lemma sorted_b_ok l : sorted_b l = true -> StronglySorted before l.
Proof.
  intros H. apply Sorted_StronglySorted; [apply _ |]. induction l as [|p l IH]; [constructor |]. cbn [sorted_b] in H. destruct l as [|q l]; [by repeat constructor |].
  apply andb_true_iff in H as [H H3]. apply andb_true_iff in H as [H1 H2]. constructor; [by apply IH |]. constructor. split; [by apply Z.ltb_lt | done].
Qed.

(** The check of a table; the lengths are positive and fit in an [int]. *)
Definition table_b (w : list (Z * Z)) : bool :=
  let l := points_of w in
  sorted_b l && match last l with Some p => f_le one (cp_fraction p) | None => false end && forallb (fun x => (0 <? x.1) && (x.1 <? 2 ^ 31)) w.

Lemma table_b_ok w : table_b w = true -> table_ok (points_of w) /\ Forall (fun p => 0 < cp_length p < 2 ^ 31) (points_of w).
Proof.
  unfold table_b. intros H. apply andb_true_iff in H as [H H3]. apply andb_true_iff in H as [H1 H2]. split.
  - constructor; [by apply sorted_b_ok |]. destruct (last (points_of w)) as [p|]; [by exists p | done].
  - apply Forall_forall. intros p Hp. unfold points_of in Hp. apply list_elem_of_In, in_map_iff in Hp as (x & <- & Hx).
    rewrite forallb_forall in H3. specialize (H3 x Hx). apply andb_true_iff in H3 as [Ha Hb]. apply Z.ltb_lt in Ha, Hb. done.
Qed.

Definition workloads : list (list (Z * Z)) := [w1; w2; w3; w4; w5].

Lemma workloads_ok : forallb table_b workloads = true.
Proof. vm_compute. reflexivity. Qed.

(** ** Theorems *)

(** C24: for each of the five workloads and every maximum length the constructor
    stays within the table and gives a distribution with increasing lengths,
    all at most the maximum, whose points other than the last are points of
    the workload with their fractions.  Sampling never aborts, whatever
    random number [f] up to 1 is drawn, and follows the distribution: the
    length drawn is at most that of a point exactly if [f] is at most its
    fraction. *)
Theorem dist_correct w max_length :
  w ∈ workloads -> 0 <= max_length ->
  exists points, dist_point_gen (WName w) max_length = Ok points /\ StronglySorted before points /\
    Forall (fun q => (q ∈ points_of w \/ cp_fraction q = one) /\ (max_length <> 0 -> cp_length q <= max_length)) points /\
    forall f, f_le f one = true ->
      exists q, q ∈ points /\ dist_sample points f = Ok (cp_length q) /\
        forall p, p ∈ points -> cp_length q <= cp_length p <-> f_le f (cp_fraction p) = true.
Proof.
  intros Hw Hmax. pose proof workloads_ok as Hall. rewrite forallb_forall in Hall. apply list_elem_of_In in Hw.
  destruct (table_b_ok w (Hall w Hw)) as [Ht Hl]. clear Hall Hw. unfold dist_point_gen. set (m := if max_length =? 0 then _ else _).
  assert (0 < m /\ (max_length <> 0 -> m = max_length)) as [Hm0 Hm] by (unfold m; destruct (Z.eqb_spec max_length 0); lia).
  destruct (reduce_spec m (points_of w) None Ht) as (l & Hr & Hs & Hcf & q & Hq & Eq). exists l. split_ands; [done | done | |].
  - eapply Forall_impl; [apply Hcf |]. intros x [(H1 & H2 & _) | (H1 & H2 & _)]; (split; [by (left + right) | intros Hne; rewrite <- (Hm Hne); lia]).
  - intros f Hf. destruct (dist_sample_spec l f Hs) as (r & Hin & Hex & Hall); [exists q; by rewrite Eq |].
    exists r. split_ands; [done | | done]. rewrite Hex. f_equal. rewrite Forall_forall in Hcf, Hl. apply s32_id. unfold is_int, INT_MIN, INT_MAX.
    destruct (Hcf r Hin) as [(H1 & _) | (_ & _ & p & Hp & Hle & Hor)].
    + pose proof (Hl r H1) as Hb. cbn beta in Hb. lia.
    + pose proof (Hl p Hp) as Hb. cbn beta in Hb. lia.
Qed.

Lemma dist_correct_witness :
  exists points q, dist_point_gen (WName w1) 1000 = Ok points /\ q ∈ points /\ dist_sample points (F64 1 (-1)) = Ok (cp_length q).
Proof.
  destruct (dist_correct w1 1000) as (points & Hp & _ & _ & Hf); [apply list_elem_of_here | lia |].
  destruct (Hf (F64 1 (-1))) as (q & Hq & Hs & _); [vm_compute; reflexivity |]. exists points, q. split; [exact Hp |]. split; [exact Hq | exact Hs].
Defined.

(** The maximum has no effect on a fixed length. *)
Theorem fixed_length_not_truncated : dist_point_gen (WNumber 2000000) 1000000 = Ok [CdfPoint 2000000 one].
Proof. vm_compute. reflexivity. Qed.

(** The number of packets is the least that carries the message. *)
Theorem dist_msg_overhead_packets length_ mtu :
  68 < mtu -> 0 < length_ <= 70000 ->
  exists packets, dist_msg_overhead length_ mtu = Ok (packets * 110) /\ (packets - 1) * (mtu - 68) < length_ <= packets * (mtu - 68).
Proof.
  intros Hm Hl. unfold dist_msg_overhead. destruct (Z.eqb_spec (mtu - (20 + 48)) 0); [lia |]. destruct (Z.leb_spec length_ 70000); [|lia].
  rewrite Z.quot_div_nonneg by lia. exists ((length_ + (mtu - (20 + 48)) - 1) / (mtu - (20 + 48))). split; [f_equal; lia |].
  set (d := mtu - (20 + 48)). replace (mtu - 68) with d by lia. assert (0 < d) as Hd by lia.
  pose proof (Z.mul_div_le (length_ + d - 1) d Hd). pose proof (Z.mul_succ_div_gt (length_ + d - 1) d Hd). lia.
Qed.
