(* ===== verification/CpCmd.v ===== *)
(** * Commands of the benchmark node (util/cp_node.cc)

    A command is a line of words; [client] and [server] take options whose
    values are integers, in the notations of C, or strings.  The strings are
    those of C: sequences of characters up to the first NUL. *)
From stdpp Require Import strings.
From Stdlib Require Import Ascii.
From S2P Require Import Prelude Lists Wire Types CpConn CpServer CpClient CpStats Workloads Dist.
#[local] Open Scope string_scope.
#[local] Open Scope list_scope.
#[local] Open Scope Z_scope.

Definition code (c : ascii) : Z := Z.of_N (N_of_ascii c).

(** ** Numbers *)

(** [isspace]. *)
Definition is_space (c : ascii) : bool := (code c =? 32) || ((code c >=? 9) && (code c <=? 13)).

(** The value of a digit in base [b], if it is one. *)
Definition digit (b : Z) (c : ascii) : option Z :=
  let z := code c in
  let d := if (z >=? 48) && (z <=? 57) then z - 48
           else if (z >=? 97) && (z <=? 122) then z - 87
           else if (z >=? 65) && (z <=? 90) then z - 55 else 99 in
  if d <? b then Some d else None.

(** The digits at the start of a string: the value, and what follows. *)
Fixpoint digits (b acc : Z) (s : string) : Z * string :=
  match s with
  | String c r => match digit b c with Some d => digits b (acc * b + d) r | None => (acc, s) end
  | "" => (acc, "")
  end.

Fixpoint skip_space (s : string) : string :=
  match s with String c r => if is_space c then skip_space r else s | "" => "" end.

Definition sign (s : string) : Z * string :=
  match s with String c r => if code c =? 45 then (-1, r) else if code c =? 43 then (1, r) else (1, s) | "" => (1, "") end.

Definition starts_digit (b : Z) (s : string) : bool :=
  match s with String c _ => bool_decide (is_Some (digit b c)) | "" => false end.

(** The prefix that tells the base when it is 0: [0x] before a hexadecimal digit,
    or [0]. *)
Definition base_of (s : string) : Z * string :=
  match s with
  | String c0 (String c1 r) =>
      if (code c0 =? 48) && ((code c1 =? 120) || (code c1 =? 88)) && starts_digit 16 r then (16, r)
      else if code c0 =? 48 then (8, s) else (10, s)
  | String c0 "" => if code c0 =? 48 then (8, s) else (10, s)
  | "" => (10, s)
  end.

Definition LONG_MAX : Z := 2 ^ 63 - 1.
Definition ULONG_MAX : Z := 2 ^ 64 - 1.

(** [strtol] with base 0 on the 64-bit machine: the value, and the string at
    [*end], which is the whole string when there is no number. *)
Definition strtol (s : string) : Z * string :=
  let '(sg, s1) := sign (skip_space s) in
  let '(b, s2) := base_of s1 in
  if starts_digit b s2 then let '(v, r) := digits b 0 s2 in (Z.max (- 2 ^ 63) (Z.min LONG_MAX (sg * v)), r) else (0, s).

(** [strtol] with base 10. *)
Definition strtol10 (s : string) : Z * string :=
  let '(sg, s1) := sign (skip_space s) in
  if starts_digit 10 s1 then let '(v, r) := digits 10 0 s1 in (Z.max (- 2 ^ 63) (Z.min LONG_MAX (sg * v)), r) else (0, s).

(** [strtoul] with base 10. *)
Definition strtoul (s : string) : Z * string :=
  let '(sg, s1) := sign (skip_space s) in
  if starts_digit 10 s1 then let '(v, r) := digits 10 0 s1 in (if v >? ULONG_MAX then ULONG_MAX else u64 (sg * v), r) else (0, s).

(** Does [strtod] accept all of the string? *)
Definition lower (c : ascii) : Z := let z := code c in if (z >=? 65) && (z <=? 90) then z + 32 else z.
Fixpoint same_text (s t : string) : bool :=
  match s, t with
  | "", "" => true
  | String c s, String d t => (lower c =? lower d) && same_text s t
  | _, _ => false
  end.

Fixpoint nan_chars (s : string) : bool :=
  match s with
  | String c "" => code c =? 41
  | String c r => (bool_decide (is_Some (digit 36 c)) || (code c =? 95)) && nan_chars r
  | "" => false
  end.

(** What follows the digits of a mantissa: the end, or an exponent [e]. *)
Definition exponent_ok (e : Z) (s : string) : bool :=
  match s with
  | "" => true
  | String c r => (lower c =? e) && (let s1 := (sign r).2 in starts_digit 10 s1 && bool_decide ((digits 10 0 s1).2 = ""))
  end.

Definition mantissa_ok (b e : Z) (s : string) : bool :=
  let r := (digits b 0 s).2 in
  match r with
  | String c r' =>
      if code c =? 46 then (starts_digit b s || starts_digit b r') && exponent_ok e (digits b 0 r').2
      else starts_digit b s && exponent_ok e r
  | "" => starts_digit b s
  end.

Definition strtod_all (s : string) : bool :=
  let s1 := (sign (skip_space s)).2 in
  bool_decide (s = "") || same_text s1 "inf" || same_text s1 "infinity" || same_text s1 "nan" ||
  (same_text (String.substring 0 4 s1) "nan(" && nan_chars (String.substring 4 (String.length s1 - 4)%nat s1)) ||
  (same_text (String.substring 0 2 s1) "0x" && mantissa_ok 16 112 (String.substring 2 (String.length s1 - 2)%nat s1)) || mantissa_ok 10 101 s1.

(** ** Lists *)

(** The text before the first separator, and the rest from it. *)
Fixpoint cspan (sep : ascii -> bool) (s : string) : string * string :=
  match s with
  | "" => ("", "")
  | String c r => if sep c then ("", s) else let '(w, rest) := cspan sep r in (String c w, rest)
  end.

(** The loop of [exec_string]; each iteration consumes a character. *)
Definition is_blank (c : ascii) : bool := (code c =? 32) || (code c =? 9) || (code c =? 10).
Fixpoint split_words (fuel : nat) (p : string) : list string :=
  match fuel with
  | O => []
  | S fuel =>
      let '(w, p) := cspan is_blank p in
      let ws := if bool_decide (w = "") then [] else [w] in
      match p with "" => ws | String _ p => ws ++ split_words fuel p end
  end.
Definition words_of (cmd : string) : list string := split_words (S (String.length cmd)) cmd.

(** [split] of test_utils.cc. *)
Fixpoint split (fuel : nat) (sep : ascii -> bool) (s : string) : list string :=
  match fuel with
  | O => []
  | S fuel =>
      match s with
      | "" => []
      | String c r => if sep c then split fuel sep r else let '(w, rest) := cspan sep s in w :: split fuel sep rest
      end
  end.
Definition is_comma (c : ascii) : bool := code c =? 44.
Definition split_commas (s : string) : list string := split (S (String.length s)) is_comma s.

(** ** The global variables of the command line *)
Record params := {
  p_buf_bpages : Z; p_client_iovec : bool; p_client_max : Z; p_client_ports : Z; p_first_port : Z; p_ipv6 : bool; p_gbps : string;
  p_port_receivers : Z; p_protocol : string; p_tcp_trunc : bool; p_one_way : bool; p_unloaded : Z; p_workload : string; p_node_id : Z;
  p_server_ports : Z; p_server_ids : list Z; p_port_max : Z; p_port_threads : Z; p_server_core : Z; p_server_iovec : bool
}.
#[export] Instance eta_params : Eta params := fun r =>
  Build_params (p_buf_bpages r) (p_client_iovec r) (p_client_max r) (p_client_ports r) (p_first_port r) (p_ipv6 r) (p_gbps r) (p_port_receivers r)
    (p_protocol r) (p_tcp_trunc r) (p_one_way r) (p_unloaded r) (p_workload r) (p_node_id r) (p_server_ports r) (p_server_ids r) (p_port_max r)
    (p_port_threads r) (p_server_core r) (p_server_iovec r).

(** [parse] for an [int]: [None] is an error. *)
Definition parse_int (w : string) : option Z := let '(v, rest) := strtol w in if bool_decide (rest = "") then Some (s32 v) else None.
(** [parse] for an [int64_t]. *)
Definition parse_int64 (w : string) : option Z := let '(v, rest) := strtol w in if bool_decide (rest = "") then Some v else None.

(** *** Options

    The state while options are read: the global variables, and the local
    variables of the command. *)
Record opts := { o_p : params; o_first_server : Z; o_server_nodes : Z; o_servers : string; o_experiment : string }.
#[export] Instance eta_opts : Eta opts := fun r => Build_opts (o_p r) (o_first_server r) (o_server_nodes r) (o_servers r) (o_experiment r).

(** An option without a value, and an option with one. *)
Inductive option_kind := OFlag (f : opts -> opts) | OInt (f : Z -> opts -> opts) | OText (f : string -> opts -> opts) | ODouble (f : string -> opts -> opts).

Definition set_p (f : params -> params) (o : opts) : opts := o <| o_p ::= f |>.

(** The comparisons of [client_cmd]. *)
Definition client_option (w : string) : option option_kind :=
  if String.eqb w "--buf-bpages" then Some (OInt (fun v => set_p (fun p => p <| p_buf_bpages := v |>)))
  else if String.eqb w "--client-max" then Some (OInt (fun v => set_p (fun p => p <| p_client_max := u32 v |>)))
  else if String.eqb w "--exp" then Some (OText (fun v o => o <| o_experiment := v |>))
  else if String.eqb w "--first-port" then Some (OInt (fun v => set_p (fun p => p <| p_first_port := v |>)))
  else if String.eqb w "--first-server" then Some (OInt (fun v o => o <| o_first_server := v |>))
  else if String.eqb w "--gbps" then Some (ODouble (fun v => set_p (fun p => p <| p_gbps := v |>)))
  else if String.eqb w "--id" then Some (OInt (fun v => set_p (fun p => p <| p_node_id := v |>)))
  else if String.eqb w "--iovec" then Some (OFlag (set_p (fun p => p <| p_client_iovec := true |>)))
  else if String.eqb w "--ipv6" then Some (OFlag (set_p (fun p => p <| p_ipv6 := true |>)))
  else if String.eqb w "--no-trunc" then Some (OFlag (set_p (fun p => p <| p_tcp_trunc := false |>)))
  else if String.eqb w "--one-way" then Some (OFlag (set_p (fun p => p <| p_one_way := true |>)))
  else if String.eqb w "--ports" then Some (OInt (fun v => set_p (fun p => p <| p_client_ports := v |>)))
  else if String.eqb w "--port-receivers" then Some (OInt (fun v => set_p (fun p => p <| p_port_receivers := v |>)))
  else if String.eqb w "--protocol" then Some (OText (fun v => set_p (fun p => p <| p_protocol := v |>)))
  else if String.eqb w "--server-nodes" then Some (OInt (fun v o => o <| o_server_nodes := v |>))
  else if String.eqb w "--server-ports" then Some (OInt (fun v => set_p (fun p => p <| p_server_ports := v |>)))
  else if String.eqb w "--servers" then Some (OText (fun v o => o <| o_servers := v |>))
  else if String.eqb w "--unloaded" then Some (OInt (fun v => set_p (fun p => p <| p_unloaded := v |>)))
  else if String.eqb w "--workload" then Some (OText (fun v => set_p (fun p => p <| p_workload := v |>)))
  else None.

(** The comparisons of [server_cmd]. *)
Definition server_option (w : string) : option option_kind :=
  if String.eqb w "--buf-bpages" then Some (OInt (fun v => set_p (fun p => p <| p_buf_bpages := v |>)))
  else if String.eqb w "--exp" then Some (OText (fun v o => o <| o_experiment := v |>))
  else if String.eqb w "--first-port" then Some (OInt (fun v => set_p (fun p => p <| p_first_port := v |>)))
  else if String.eqb w "--iovec" then Some (OFlag (set_p (fun p => p <| p_server_iovec := true |>)))
  else if String.eqb w "--ipv6" then Some (OFlag (set_p (fun p => p <| p_ipv6 := true |>)))
  else if String.eqb w "--pin" then Some (OInt (fun v => set_p (fun p => p <| p_server_core := v |>)))
  else if String.eqb w "--port-threads" then Some (OInt (fun v => set_p (fun p => p <| p_port_threads := v |>)))
  else if String.eqb w "--ports" then Some (OInt (fun v => set_p (fun p => p <| p_server_ports := v |>)))
  else if String.eqb w "--protocol" then Some (OText (fun v => set_p (fun p => p <| p_protocol := v |>)))
  else None.

(** The loop over the words; [false] is the return of 0, where variables that
    were set before keep their values. *)
Fixpoint read_options (table : string -> option option_kind) (ws : list string) (o : opts) : bool * opts :=
  match ws with
  | [] => (true, o)
  | w :: ws =>
      match table w with
      | None => (false, o)
      | Some (OFlag f) => read_options table ws (f o)
      | Some (OInt f) =>
          match ws with
          | [] => (false, o)
          | v :: ws => match parse_int v with Some z => read_options table ws (f z o) | None => (false, o) end
          end
      | Some (OText f) => match ws with [] => (false, o) | v :: ws => read_options table ws (f v o) end
      | Some (ODouble f) => match ws with [] => (false, o) | v :: ws => if strtod_all v then read_options table ws (f v o) else (false, o) end
      end
  end.

(** The argument of [dist_point_gen]. *)
Definition workload_of (s : string) : workload :=
  let '(v, rest) := strtol10 s in
  if negb (s32 v =? 0) && bool_decide (rest = "") then WNumber v
  else if String.eqb s "w1" then WName w1 else if String.eqb s "w2" then WName w2 else if String.eqb s "w3" then WName w3
  else if String.eqb s "w4" then WName w4 else if String.eqb s "w5" then WName w5 else WOther.

(** ** The node *)

(** A client, with the variables it was created with, and a server. *)
Record client_obj := { co_homa : bool; co_id : Z; co_port : Z; co_experiment : string; co_params : params; co_state : client_state; co_backups : Z }.
Record server_obj := { so_id : Z; so_port : Z; so_threads : Z; so_experiment : string }.

Inductive log_level := NORMAL | VERBOSE.

(** [nd_out] has the messages of [log_cmd], [nd_files] the names of the files that
    were written, [nd_stopped] the clients whose senders were stopped.  The
    copies of [nd_freezer] and [nd_debug] in a client object are those of the
    time of its creation. *)
Record node := {
  nd_p : params; nd_clients : list client_obj; nd_homa_servers : list server_obj; nd_tcp_servers : list server_obj; nd_metrics : list thread_metrics;
  nd_stats : stats_vars; nd_debug : list Z; nd_freezer : freezer; nd_level : log_level; nd_log_file : option string; nd_out : list string;
  nd_files : list string; nd_stopped : list Z
}.
#[export] Instance eta_node : Eta node := fun r =>
  Build_node (nd_p r) (nd_clients r) (nd_homa_servers r) (nd_tcp_servers r) (nd_metrics r) (nd_stats r) (nd_debug r) (nd_freezer r) (nd_level r)
    (nd_log_file r) (nd_out r) (nd_files r) (nd_stopped r).

(** Which files can be opened for writing, which nodes have addresses, and
    whether [kfreeze] reaches the kernel. *)
Record node_env := { ne_open : string -> bool; ne_resolves : Z -> bool; ne_ioctl : bool }.

Definition NM : Type -> Type := ST node.
Definition get_nd : NM node := fun s => Ok (s, s).
Definition upd_nd (f : node -> node) : NM unit := fun s => Ok (tt, f s).

Definition add_experiment (exp : string) (st : stats_vars) : stats_vars :=
  if decide (exp ∈ sv_experiments st) then st else st <| sv_experiments ::= fun l => l ++ [exp] |>.

(** The default name of the experiment. *)
Definition experiment_name (o : opts) : string :=
  if bool_decide (o_experiment o = "") then String.append (p_protocol (o_p o)) (String.append "_" (p_workload (o_p o))) else o_experiment o.

(** The ids of [--servers] up to the first error. *)
Fixpoint server_list (ws : list string) : list Z * bool :=
  match ws with
  | [] => ([], true)
  | w :: ws =>
      let '(v, rest) := strtoul w in
      if negb (bool_decide (rest = "")) then ([], false) else let '(l, ok) := server_list ws in (s32 v :: l, ok)
  end.

Definition server_id_list (o : opts) : list Z * bool :=
  if bool_decide (o_servers o = "") then (map (fun i => s32 (o_first_server o + i)) (seqZ 0 (o_server_nodes o)), true)
  else server_list (split_commas (o_servers o)).

(** *** client_cmd *)
Definition client_defaults (p : params) : params :=
  p <| p_buf_bpages := 1000 |> <| p_client_iovec := false |> <| p_client_max := 1 |> <| p_client_ports := 1 |> <| p_first_port := -1 |>
    <| p_ipv6 := false |> <| p_gbps := "" |> <| p_port_receivers := 1 |> <| p_protocol := "homa" |> <| p_tcp_trunc := true |>
    <| p_one_way := false |> <| p_unloaded := 0 |> <| p_workload := "100" |>.

Definition is_homa (p : params) : bool := String.eqb (p_protocol p) "homa".

(** The default of [first_port]. *)
Definition pick_port (p : params) : params :=
  if p_first_port p =? -1 then p <| p_first_port := if is_homa p then 4000 else 5000 |> else p.

(** The configuration that clients see. *)
Definition config_of (p : params) : client_config :=
  Build_client_config (p_server_ids p) (p_node_id p) (p_server_ports p) (p_port_max p) (p_one_way p).

(** The body of the loop that creates clients, up to the system calls. *)
Definition create_client (env : node_env) (exp : string) (i : Z) : NM unit :=
  upd_nd (fun s => s <| nd_p ::= pick_port |>) ;;;
  let* s := get_nd in
  let* _ := lift (dist_point_gen (workload_of (p_workload (nd_p s))) HOMA_MAX_MESSAGE_LENGTH) in
  let* c := lift (new_client (ne_resolves env) (config_of (nd_p s)) i (nd_freezer s) (nth 0 (nd_debug s) 0, nth 1 (nd_debug s) 0)) in
  upd_nd (fun s => s <| nd_stats ::= add_experiment exp |> <| nd_freezer ::= fun f => f <| fz_kfreeze_count := 0 |> |>
    <| nd_clients ::= fun l => l ++ [Build_client_obj (is_homa (nd_p s)) i (p_first_port (nd_p s)) exp (nd_p s) c 0] |>).

(** The part after the options. *)
Definition create_clients (env : node_env) (exp : string) : NM bool :=
  let* s := get_nd in
  let ports := u32 (p_client_ports (nd_p s)) in
  if ports =? 0 then raise DivByZero else
  let max := p_client_max (nd_p s) / ports in
  upd_nd (fun s => s <| nd_p ::= fun p => p <| p_port_max := if max <? 1 then 1 else max |> |>) ;;;
  mapM_ (create_client env exp) (seqZ 0 (p_client_ports (nd_p s))) ;;;
  upd_nd (fun s => s <| nd_stats ::= fun st => st <| sv_time := 0 |> |>) ;;;
  ret true.

Definition client_cmd (env : node_env) (words : list string) : NM bool :=
  let* s := get_nd in
  let '(ok, o) := read_options client_option (tail words) (Build_opts (client_defaults (nd_p s)) 1 1 "" "") in
  upd_nd (fun s => s <| nd_p := o_p o |>) ;;;
  if negb ok then ret false else
  let '(ids, ok) := server_id_list o in
  upd_nd (fun s => s <| nd_p ::= fun p => p <| p_server_ids := ids |> |>) ;;;
  if negb ok then ret false else create_clients env (experiment_name o).

(** *** server_cmd *)
Definition server_defaults (p : params) : params :=
  p <| p_buf_bpages := 1000 |> <| p_first_port := -1 |> <| p_ipv6 := false |> <| p_protocol := "homa" |> <| p_port_threads := 1 |>
    <| p_server_core := -1 |> <| p_server_ports := 1 |> <| p_server_iovec := false |>.

(** The constructors of the servers, up to the system calls. *)
Definition create_server (exp : string) (i : Z) : NM unit :=
  upd_nd (fun s =>
    let p := nd_p s in
    let o := Build_server_obj i (s32 (p_first_port p + i)) (p_port_threads p) exp in
    let m := Build_thread_metrics exp new_server_metrics in
    let s := s <| nd_stats ::= add_experiment exp |> in
    if is_homa p then s <| nd_homa_servers ::= fun l => l ++ [o] |> <| nd_metrics ::= fun l => l ++ replicate (Z.to_nat (p_port_threads p)) m |>
    else s <| nd_tcp_servers ::= fun l => l ++ [o] |> <| nd_metrics ::= fun l => l ++ [m] |> <| nd_freezer ::= fun f => f <| fz_kfreeze_count := 0 |> |>).

Definition server_cmd (words : list string) : NM bool :=
  let* s := get_nd in
  let '(ok, o) := read_options server_option (tail words) (Build_opts (server_defaults (nd_p s)) 1 1 "" "") in
  upd_nd (fun s => s <| nd_p := o_p o |>) ;;;
  if negb ok then ret false else
  upd_nd (fun s => s <| nd_p ::= pick_port |>) ;;;
  mapM_ (create_server (experiment_name o)) (seqZ 0 (p_server_ports (o_p o))) ;;;
  upd_nd (fun s => s <| nd_stats ::= fun st => st <| sv_time := 0 |> |>) ;;;
  ret true.

(** *** debug_cmd

    The number of words is only reported. *)
Fixpoint set_debug (ws : list string) (i : Z) : NM bool :=
  match ws with
  | [] => ret true
  | w :: ws =>
      match parse_int64 w with
      | None => ret false
      | Some v =>
          let* s := get_nd in
          let* l := lift (arr_set (nd_debug s) (i - 1) v) in
          upd_nd (fun s => s <| nd_debug := l |>) ;;; set_debug ws (i + 1)
      end
  end.
Definition debug_cmd (words : list string) : NM bool := set_debug (tail words) 1.

(** *** dump_times_cmd *)
Definition stat_of (c : client_obj) : stat_client := Build_stat_client (co_experiment c) (co_state c) (if co_homa c then None else Some (co_backups c)).
Definition dump_times_cmd (env : node_env) (words : list string) : NM bool :=
  let run (name : string) (exp : option string) :=
    if negb (ne_open env name) then ret false else
    upd_nd (fun s => s <| nd_files ::= fun l => l ++ [name] |>
      <| nd_clients := zip_with (fun c k => Build_client_obj (co_homa c) (co_id c) (co_port c) (co_experiment c) (co_params c) (sc_client k) (co_backups c))
           (nd_clients s) (dump_times exp (map stat_of (nd_clients s))).2 |>) ;;; ret true in
  match words with
  | [_; name] => run name None
  | [_; name; exp] => run name (if bool_decide (exp = "") then None else Some exp)
  | _ => ret false
  end.

(** *** info_cmd: only the errors are modelled, the numbers are printed. *)
Definition info_cmd (words : list string) : NM bool :=
  match words with
  | [_; w; mtu] =>
      let '(v, rest) := strtol mtu in
      if negb (bool_decide (rest = "")) then ret false else
      let* points := lift (dist_point_gen (workload_of w) HOMA_MAX_MESSAGE_LENGTH) in
      let* _ := mapM_ (fun p => let* _ := lift (dist_msg_overhead (s32 (cp_length p)) (s32 v)) in ret tt) points in
      ret true
  | _ => ret false
  end.

(** *** log_cmd *)
Fixpoint join (ws : list string) : string :=
  match ws with [] => "" | [w] => w | w :: ws => String.append w (String.append " " (join ws)) end.

Definition newline : string := String (ascii_of_N 10) "".

Definition level_message (l : string) : string := String.append "Log level is now " (String.append l newline).

Fixpoint log_options (env : node_env) (ws : list string) : NM bool :=
  match ws with
  | [] => ret true
  | w :: rest =>
      if negb (String.prefix "--" w) then upd_nd (fun s => s <| nd_out ::= fun l => l ++ [String.append (join ws) newline] |>) ;;; ret true
      else if String.eqb w "--file" then
        match rest with
        | [] => ret false
        | name :: rest =>
            if String.eqb name "-" then upd_nd (fun s => s <| nd_log_file := None |>) ;;; log_options env rest
            else if negb (ne_open env name) then ret false
            else upd_nd (fun s => s <| nd_log_file := Some name |> <| nd_files ::= fun l => l ++ [name] |>) ;;; log_options env rest
        end
      else if String.eqb w "--level" then
        match rest with
        | [] => ret false
        | l :: rest =>
            let set level := upd_nd (fun s => s <| nd_level := level |> <| nd_out ::= fun o => o ++ [level_message l] |>) ;;; log_options env rest in
            if String.eqb l "normal" then set NORMAL else if String.eqb l "verbose" then set VERBOSE
            else ret false
        end
      else ret false
  end.
Definition log_cmd (env : node_env) (words : list string) : NM bool := log_options env (tail words).

(** *** stop_cmd: [stop_sender] does nothing for TCP clients. *)
Fixpoint stop_options (ws : list string) : NM bool :=
  match ws with
  | [] => ret true
  | w :: ws =>
      if String.eqb w "clients" then upd_nd (fun s => s <| nd_clients := [] |>) ;;; stop_options ws
      else if String.eqb w "senders" then
        upd_nd (fun s => s <| nd_stopped ::= fun l => l ++ omap (fun c => if co_homa c then Some (co_id c) else None) (nd_clients s) |>) ;;; stop_options ws
      else if String.eqb w "servers" then
        upd_nd (fun s => s <| nd_homa_servers := [] |> <| nd_tcp_servers := [] |> <| nd_stats ::= fun st => st <| sv_per_server := [] |> |>
          <| nd_metrics := [] |>) ;;; stop_options ws
      else ret false
  end.
Definition stop_cmd (words : list string) : NM bool := stop_options (tail words).

(** *** tt_cmd *)
Definition tt_cmd (env : node_env) (words : list string) : NM bool :=
  match words with
  | _ :: opt :: rest =>
      if String.eqb opt "freeze" then upd_nd (fun s => s <| nd_freezer ::= fun f => f <| fz_frozen := true |> |>) ;;; ret true
      else if String.eqb opt "freezeboth" then upd_nd (fun s => s <| nd_freezer ::= fun f => kfreeze (ne_ioctl env) (f <| fz_frozen := true |>) |>) ;;; ret true
      else if String.eqb opt "kfreeze" then upd_nd (fun s => s <| nd_freezer ::= kfreeze (ne_ioctl env) |>) ;;; ret true
      else if String.eqb opt "print" then
        match rest with
        | [] => ret false
        | name :: _ =>
            if ne_open env name then upd_nd (fun s => s <| nd_freezer ::= fun f => f <| fz_frozen := false |> |> <| nd_files ::= fun l => l ++ [name] |>) ;;; ret true
            else ret false
        end
      else ret false
  | _ => ret false
  end.

(** ** exec_words and exec_string; [exit] leaves the program. *)
Definition exec_words (env : node_env) (words : list string) : NM bool :=
  match words with
  | [] => ret true
  | w :: _ =>
      if String.eqb w "client" then client_cmd env words
      else if String.eqb w "debug" then debug_cmd words
      else if String.eqb w "dump_times" then dump_times_cmd env words
      else if String.eqb w "info" then info_cmd words
      else if String.eqb w "log" then log_cmd env words
      else if String.eqb w "exit" then raise ProcessExit
      else if String.eqb w "server" then server_cmd words
      else if String.eqb w "stop" then stop_cmd words
      else if String.eqb w "tt" then tt_cmd env words
      else ret false
  end.

Definition exec_string (env : node_env) (cmd : string) : NM unit := exec_words env (words_of cmd) ;;; ret tt.

(** ** Lemmas *)

(** *** Decimal numbers *)
Definition dec_char (d : Z) : ascii := ascii_of_N (Z.to_N (48 + d)).
Fixpoint dec_rec (fuel : nat) (n : Z) (s : string) : string :=
  match fuel with
  | O => s
  | S fuel => if n <? 10 then String (dec_char n) s else dec_rec fuel (n / 10) (String (dec_char (n mod 10)) s)
  end.
Definition dec (n : Z) : string := dec_rec 20 n "".

Lemma dec_char_code d : 0 <= d < 10 -> code (dec_char d) = 48 + d.
Proof. intros H. unfold code, dec_char. rewrite N_ascii_embedding by lia. lia. Qed.

Lemma digit_dec_char b d : 0 <= d < 10 -> d < b -> digit b (dec_char d) = Some d.
Proof.
  intros Hd Hb. unfold digit. rewrite (dec_char_code d Hd). destruct (Z.geb_spec (48 + d) 48), (Z.leb_spec (48 + d) 57); try lia. cbn [andb].
  replace (48 + d - 48) with d by lia. destruct (Z.ltb_spec d b); [done | lia].
Qed.

Lemma digits_dec_rec fuel : forall n s, 0 <= n < 10 ^ Z.of_nat fuel -> (0 < fuel)%nat ->
  exists k, forall a, digits 10 a (dec_rec fuel n s) = digits 10 (a * 10 ^ k + n) s.
Proof.
  induction fuel as [|fuel IH]; intros n s Hn Hf; [lia |]. cbn [dec_rec]. destruct (Z.ltb_spec n 10) as [Hlt | Hge].
  - exists 1. intros a. cbn [digits]. rewrite digit_dec_char by lia. by rewrite Z.pow_1_r.
  - assert (0 <= n / 10 < 10 ^ Z.of_nat fuel) as Hq.
    { split; [apply Z.div_pos; lia |]. apply Z.div_lt_upper_bound; [lia |]. rewrite <- Z.pow_succ_r by lia. replace (Z.succ (Z.of_nat fuel)) with (Z.of_nat (S fuel)) by lia. lia. }
    assert (0 < fuel)%nat as Hf' by (destruct fuel; [|lia]; cbn in Hq; lia).
    pose proof (Z.mod_pos_bound n 10 ltac:(lia)) as Hm.
    destruct (IH (n / 10) (String (dec_char (n mod 10)) s) Hq Hf') as [k Hk]. destruct (Z.le_gt_cases 0 k) as [Hk0 | Hk0].
    + exists (k + 1). intros a. rewrite Hk. cbn [digits]. rewrite digit_dec_char by lia. f_equal. rewrite Z.pow_add_r, Z.pow_1_r by lia.
      pose proof (Z.div_mod n 10 ltac:(lia)). lia.
    + exists k. intros a. rewrite Hk. cbn [digits]. rewrite digit_dec_char by lia. f_equal. rewrite Z.pow_neg_r by lia. pose proof (Z.div_mod n 10 ltac:(lia)). lia.
Qed.

(** The first character. *)
Lemma dec_rec_head fuel : forall n s, 0 <= n < 10 ^ Z.of_nat fuel -> (0 < fuel)%nat ->
  exists d r, dec_rec fuel n s = String (dec_char d) r /\ 0 <= d < 10 /\ (0 < n -> 0 < d) /\ (n = 0 -> r = s).
Proof.
  induction fuel as [|fuel IH]; intros n s Hn Hf; [lia |]. cbn [dec_rec]. destruct (Z.ltb_spec n 10) as [Hlt | Hge].
  - exists n, s. split_ands; done || lia.
  - assert (0 <= n / 10 < 10 ^ Z.of_nat fuel) as Hq.
    { split; [apply Z.div_pos; lia |]. apply Z.div_lt_upper_bound; [lia |]. rewrite <- Z.pow_succ_r by lia. replace (Z.succ (Z.of_nat fuel)) with (Z.of_nat (S fuel)) by lia. lia. }
    assert (0 < fuel)%nat as Hf' by (destruct fuel; [|lia]; cbn in Hq; lia).
    destruct (IH (n / 10) (String (dec_char (n mod 10)) s) Hq Hf') as (d & r & E & Hd & Hp & _).
    exists d, r. split_ands; [done | lia | lia | | lia]. intros _. apply Hp. apply Z.div_str_pos. lia.
Qed.

Lemma dec_head n : 0 <= n < 2 ^ 64 -> exists d r, dec n = String (dec_char d) r /\ 0 <= d < 10 /\ (0 < n -> 0 < d) /\ (n = 0 -> r = "").
Proof. intros H. apply dec_rec_head; [split; [lia |]; apply (Z.lt_trans _ (2 ^ 64)); [lia | vm_compute; reflexivity] | lia]. Qed.

Lemma digits_dec n : 0 <= n < 2 ^ 64 -> digits 10 0 (dec n) = (n, "").
Proof.
  intros H. destruct (digits_dec_rec 20 n "") as [k Hk]; [split; [lia |]; apply (Z.lt_trans _ (2 ^ 64)); [lia | vm_compute; reflexivity] | lia |].
  unfold dec. rewrite Hk. cbn. by rewrite Z.add_0_l.
Qed.

Lemma skip_space_dec d r : 0 <= d < 10 -> skip_space (String (dec_char d) r) = String (dec_char d) r /\ sign (String (dec_char d) r) = (1, String (dec_char d) r).
Proof.
  intros H. cbn [skip_space sign]. unfold is_space. rewrite !dec_char_code by done.
  destruct (Z.eqb_spec (48 + d) 32), (Z.geb_spec (48 + d) 9), (Z.leb_spec (48 + d) 13), (Z.eqb_spec (48 + d) 45), (Z.eqb_spec (48 + d) 43); try lia. done.
Qed.

Lemma strtol_dec n : 0 <= n < 2 ^ 31 -> strtol (dec n) = (n, "").
Proof.
  intros H. destruct (dec_head n) as (d & r & E & Hd & Hp & H0); [lia |]. pose proof (digits_dec n ltac:(lia)) as Hg. unfold strtol. rewrite E in *.
  destruct (skip_space_dec d r Hd) as [-> ->]. unfold LONG_MAX. destruct (Z.eq_dec n 0) as [-> | Hn].
  - rewrite (H0 eq_refl) in *. cbn [base_of]. rewrite dec_char_code by done.
    assert (d = 0) as -> by (cbn [digits] in Hg; rewrite digit_dec_char in Hg by lia; injection Hg as Hg; lia). done.
  - assert (0 < d) as Hd0 by (apply Hp; lia). assert (base_of (String (dec_char d) r) = (10, String (dec_char d) r)) as ->.
    { cbn [base_of]. rewrite dec_char_code by done. destruct (Z.eqb_spec (48 + d) 48); [lia |]. by destruct r. }
    unfold starts_digit. rewrite digit_dec_char by lia. rewrite bool_decide_true by done. rewrite Hg. f_equal. lia.
Qed.

Lemma parse_int_dec n : 0 <= n < 2 ^ 31 -> parse_int (dec n) = Some n.
Proof. intros H. unfold parse_int. rewrite strtol_dec by done. rewrite bool_decide_true by done. f_equal. apply s32_id. unfold is_int, INT_MIN, INT_MAX. lia. Qed.

Lemma strtoul_dec n : 0 <= n < 2 ^ 31 -> strtoul (dec n) = (n, "").
Proof.
  intros H. destruct (dec_head n) as (d & r & E & Hd & Hp & H0); [lia |]. pose proof (digits_dec n ltac:(lia)) as Hg. unfold strtoul. rewrite E in *.
  destruct (skip_space_dec d r Hd) as [-> ->]. unfold starts_digit. rewrite digit_dec_char by lia. rewrite bool_decide_true by done. rewrite Hg.
  unfold ULONG_MAX. destruct (Z.gtb_spec n (2 ^ 64 - 1)); [lia |]. f_equal. rewrite Z.mul_1_l. apply u64_id. unfold is_u64. lia.
Qed.

(** *** Words *)
Fixpoint all_chars (P : ascii -> bool) (s : string) : bool :=
  match s with "" => true | String c r => P c && all_chars P r end.

(** A word that can stand in a command or in a list. *)
Definition word_ok (sep : ascii -> bool) (w : string) : Prop := w <> "" /\ all_chars (fun c => negb (sep c)) w = true.

Lemma cspan_all sep w : all_chars (fun c => negb (sep c)) w = true -> cspan sep w = (w, "").
Proof.
  induction w as [|c w IH]; intros H; [done |]. cbn [all_chars cspan] in *. apply andb_true_iff in H as [Hc H]. apply negb_true_iff in Hc. rewrite Hc, IH; done.
Qed.

Lemma append_nil b : String.append "" b = b.
Proof. done. Qed.

Lemma append_cons c a b : String.append (String c a) b = String c (String.append a b).
Proof. done. Qed.

Lemma cspan_app sep w c rest : all_chars (fun c => negb (sep c)) w = true -> sep c = true ->
  cspan sep (String.append w (String c rest)) = (w, String c rest).
Proof.
  intros H Hs. induction w as [|a w IH]; [rewrite append_nil; cbn; by rewrite Hs |]. rewrite append_cons. cbn [all_chars cspan] in *.
  apply andb_true_iff in H as [Ha H]. apply negb_true_iff in Ha. rewrite Ha, IH; done.
Qed.

(** The words of a command that was put together from words. *)
Lemma split_words_join ws : forall fuel, Forall (word_ok is_blank) ws -> (length ws <= fuel)%nat -> (0 < length ws)%nat -> split_words fuel (join ws) = ws.
Proof.
  induction ws as [|w ws IH]; intros fuel Hw Hf H0; [cbn in H0; lia |]. apply Forall_cons in Hw as [[Hne Hb] Hws].
  destruct fuel as [|fuel]; [cbn in Hf; lia |]. destruct ws as [|w2 ws].
  - cbn [join split_words]. rewrite cspan_all by done. rewrite bool_decide_false by exact Hne. done.
  - cbn [split_words]. change (join (w :: w2 :: ws)) with (String.append w (String " " (join (w2 :: ws)))). rewrite cspan_app by done.
    rewrite bool_decide_false by exact Hne. rewrite IH; [done | done | cbn in *; lia | cbn; lia].
Qed.

Lemma string_length_app a b : String.length (String.append a b) = (String.length a + String.length b)%nat.
Proof. induction a as [|c a IH]; [done |]. rewrite append_cons. cbn. by rewrite IH. Qed.

Lemma join_length ws : Forall (word_ok is_blank) ws -> (length ws <= String.length (join ws))%nat.
Proof.
  induction 1 as [|w ws [Hne _] _ IH]; [done |]. assert (0 < String.length w)%nat as Hl by (destruct w; [done | cbn; lia]). destruct ws as [|w2 ws]; [cbn; lia |].
  change (join (w :: w2 :: ws)) with (String.append w (String " " (join (w2 :: ws)))). rewrite string_length_app. cbn [String.length length] in *. lia.
Qed.

Lemma words_of_join ws : Forall (word_ok is_blank) ws -> words_of (join ws) = ws.
Proof.
  intros H. unfold words_of. pose proof (join_length ws H). destruct ws as [|w ws]; [done |]. apply split_words_join; [done | lia | cbn; lia].
Qed.

(** *** Lists of ids *)
Fixpoint commas (ids : list Z) : string :=
  match ids with [] => "" | [i] => dec i | i :: ids => String.append (dec i) (String "," (commas ids)) end.

Lemma dec_rec_chars (P : ascii -> bool) fuel : forall n s, 0 <= n -> (forall d, 0 <= d < 10 -> P (dec_char d) = true) -> all_chars P s = true -> all_chars P (dec_rec fuel n s) = true.
Proof.
  induction fuel as [|fuel IH]; intros n s Hn HP Hs; [done |]. cbn [dec_rec]. destruct (Z.ltb_spec n 10).
  - cbn. by rewrite HP, Hs by lia.
  - apply IH; [apply Z.div_pos; lia | done |]. cbn. rewrite HP by (apply Z.mod_pos_bound; lia). done.
Qed.

Lemma dec_chars (P : ascii -> bool) n : 0 <= n -> (forall d, 0 <= d < 10 -> P (dec_char d) = true) -> all_chars P (dec n) = true.
Proof. intros Hn HP. by apply dec_rec_chars. Qed.

Lemma dec_word sep n : 0 <= n < 2 ^ 64 -> (forall d, 0 <= d < 10 -> sep (dec_char d) = false) -> word_ok sep (dec n).
Proof.
  intros Hn HP. destruct (dec_head n Hn) as (d & r & E & _). split; [by rewrite E |]. apply dec_chars; [lia |]. intros d' Hd'. by rewrite HP.
Qed.

Lemma digit_not_blank d : 0 <= d < 10 -> is_blank (dec_char d) = false.
Proof. intros H. unfold is_blank. rewrite dec_char_code by done. destruct (Z.eqb_spec (48 + d) 32), (Z.eqb_spec (48 + d) 9), (Z.eqb_spec (48 + d) 10); lia || done. Qed.

Lemma digit_not_comma d : 0 <= d < 10 -> is_comma (dec_char d) = false.
Proof. intros H. unfold is_comma. rewrite dec_char_code by done. destruct (Z.eqb_spec (48 + d) 44); lia || done. Qed.

Lemma split_commas_fuel ids : forall fuel, Forall (fun i => 0 <= i < 2 ^ 31) ids -> (2 * length ids <= S fuel)%nat -> split fuel is_comma (commas ids) = map dec ids.
Proof.
  induction ids as [|i ids IH]; intros fuel Hi Hf; [by destruct fuel |]. apply Forall_cons in Hi as [Hi His]. destruct fuel as [|fuel]; [cbn in Hf; lia |].
  destruct (dec_head i ltac:(lia)) as (d & r & E & Hd & _). destruct (dec_word is_comma i ltac:(lia) digit_not_comma) as [_ Hw]. destruct ids as [|i2 ids].
  - cbn [commas split]. rewrite E at 1. rewrite (digit_not_comma d Hd), cspan_all by done. destruct fuel; done.
  - change (commas (i :: i2 :: ids)) with (String.append (dec i) (String "," (commas (i2 :: ids)))). cbn [split]. rewrite E at 1. rewrite append_cons.
    rewrite (digit_not_comma d Hd), cspan_app by done. destruct fuel as [|fuel]; [cbn in Hf; lia |]. cbn [split map]. change (is_comma ",") with true. cbv iota.
    rewrite IH; [done | done | cbn in *; lia].
Qed.

Lemma dec_rec_length f : forall n s, (String.length s <= String.length (dec_rec f n s))%nat /\ ((0 < f)%nat -> (String.length s < String.length (dec_rec f n s))%nat).
Proof.
  induction f as [|f IH]; intros n s; [split; [done | lia] |]. cbn [dec_rec]. destruct (n <? 10); [cbn; lia |].
  destruct (IH (n / 10) (String (dec_char (n mod 10)) s)) as [H _]. cbn [String.length] in H. lia.
Qed.

Lemma commas_length ids : (2 * length ids <= S (String.length (commas ids)))%nat.
Proof.
  induction ids as [|i ids IH]; [cbn; lia |]. assert (0 < String.length (dec i))%nat as Hl by (apply (dec_rec_length 20 i ""); lia).
  destruct ids as [|i2 ids]; [cbn [commas length]; lia |]. change (commas (i :: i2 :: ids)) with (String.append (dec i) (String "," (commas (i2 :: ids)))).
  rewrite string_length_app. cbn [String.length length] in *. lia.
Qed.

Lemma server_list_commas ids : Forall (fun i => 0 <= i < 2 ^ 31) ids -> server_list (split_commas (commas ids)) = (ids, true).
Proof.
  intros H. unfold split_commas. rewrite split_commas_fuel by (done || (pose proof (commas_length ids); lia)).
  induction H as [|i ids Hi _ IH]; [done |]. cbn [map server_list]. rewrite strtoul_dec by done. rewrite bool_decide_true by done. cbn [negb]. rewrite IH.
  rewrite s32_id; [done |]. unfold is_int, INT_MIN, INT_MAX. lia.
Qed.

(** *** Options *)
Lemma read_flag table w f ws o : table w = Some (OFlag f) -> read_options table (w :: ws) o = read_options table ws (f o).
Proof. intros H. cbn [read_options]. by rewrite H. Qed.

Lemma read_int table w f n ws o : table w = Some (OInt f) -> 0 <= n < 2 ^ 31 -> read_options table (w :: dec n :: ws) o = read_options table ws (f n o).
Proof. intros H Hn. cbn [read_options]. by rewrite H, parse_int_dec. Qed.

Lemma read_text table w f v ws o : table w = Some (OText f) -> read_options table (w :: v :: ws) o = read_options table ws (f v o).
Proof. intros H. cbn [read_options]. by rewrite H. Qed.

(** What a [client] command asks for. *)
Record client_spec := {
  k_max : Z; k_experiment : string; k_id : Z; k_ports : Z; k_receivers : Z; k_protocol : string; k_server_ports : Z; k_servers : list Z;
  k_workload : string; k_one_way : bool; k_trunc : bool
}.

(** The words of the command. *)
Definition client_words (k : client_spec) : list string :=
  ["client"; "--client-max"; dec (k_max k); "--exp"; k_experiment k; "--id"; dec (k_id k); "--ports"; dec (k_ports k); "--port-receivers"; dec (k_receivers k);
   "--protocol"; k_protocol k; "--server-ports"; dec (k_server_ports k); "--servers"; commas (k_servers k); "--workload"; k_workload k] ++
  (if k_one_way k then ["--one-way"] else []) ++ (if k_trunc k then [] else ["--no-trunc"]).

(** The variables after it. *)
Definition spec_port_max (k : client_spec) : Z := let m := k_max k / k_ports k in if m <? 1 then 1 else m.
Definition spec_params (k : client_spec) (p : params) : params :=
  (client_defaults p) <| p_client_max := k_max k |> <| p_node_id := k_id k |> <| p_client_ports := k_ports k |> <| p_port_receivers := k_receivers k |>
    <| p_protocol := k_protocol k |> <| p_server_ports := k_server_ports k |> <| p_workload := k_workload k |> <| p_one_way := k_one_way k |>
    <| p_tcp_trunc := k_trunc k |> <| p_server_ids := k_servers k |> <| p_port_max := spec_port_max k |>
    <| p_first_port := if String.eqb (k_protocol k) "homa" then 4000 else 5000 |>.

Record spec_ok (env : node_env) (k : client_spec) : Prop := {
  sp_max : 0 <= k_max k < 2 ^ 30; sp_id : 0 <= k_id k < 2 ^ 31; sp_ports : 1 <= k_ports k < 2 ^ 31; sp_receivers : 0 <= k_receivers k < 2 ^ 31;
  sp_server_ports : 0 <= k_server_ports k <= 256; sp_sorted : StronglySorted Z.lt (k_servers k); sp_ids : Forall (fun i => 0 <= i < 256) (k_servers k);
  sp_nonempty : k_servers k <> []; sp_words : Forall (word_ok is_blank) [k_experiment k; k_protocol k; k_workload k];
  sp_workload : exists points, dist_point_gen (workload_of (k_workload k)) HOMA_MAX_MESSAGE_LENGTH = Ok points;
  sp_resolves : Forall (fun i => ne_resolves env i = true) (k_servers k)
}.

Lemma all_chars_app P a b : all_chars P (String.append a b) = all_chars P a && all_chars P b.
Proof. induction a as [|c a IH]; [done |]. rewrite append_cons. cbn. by rewrite IH, andb_assoc. Qed.

Lemma commas_word ids : ids <> [] -> Forall (fun i => 0 <= i < 256) ids -> word_ok is_blank (commas ids).
Proof.
  intros Hne H. destruct ids as [|i ids]; [done |]. clear Hne. revert i H. induction ids as [|i2 ids IH]; intros i H; apply Forall_cons in H as [Hi H].
  - apply dec_word; [lia | apply digit_not_blank].
  - change (commas (i :: i2 :: ids)) with (String.append (dec i) (String "," (commas (i2 :: ids)))).
    destruct (dec_word is_blank i ltac:(lia) digit_not_blank) as [Hn Hc]. destruct (IH i2 H) as [_ Hc2]. split.
    + destruct (dec i); [done |]. by rewrite append_cons.
    + rewrite all_chars_app, Hc. cbn [all_chars andb]. change (is_blank ",") with false. done.
Qed.

Lemma client_words_ok env k : spec_ok env k -> Forall (word_ok is_blank) (client_words k).
Proof.
  intros [? ? ? ? ? ? ? ? Hw ? ?]. unfold client_words. apply Forall_cons in Hw as [H1 Hw]. apply Forall_cons in Hw as [H2 Hw]. apply Forall_cons in Hw as [H3 _].
  assert (forall n, 0 <= n < 2 ^ 31 -> word_ok is_blank (dec n)) as Hd by (intros n Hn; apply dec_word; [lia | apply digit_not_blank]).
  repeat (apply Forall_cons; split); try (by split); try (apply Hd; lia); try done; [by apply commas_word |].
  apply Forall_app. split; [destruct (k_one_way k) | destruct (k_trunc k)]; repeat constructor; done.
Qed.

(** The variables when the options have been read. *)
Definition read_params (k : client_spec) (p : params) : params :=
  (client_defaults p) <| p_client_max := k_max k |> <| p_node_id := k_id k |> <| p_client_ports := k_ports k |> <| p_port_receivers := k_receivers k |>
    <| p_protocol := k_protocol k |> <| p_server_ports := k_server_ports k |> <| p_workload := k_workload k |> <| p_one_way := k_one_way k |>
    <| p_tcp_trunc := k_trunc k |>.

Lemma read_client_words env k p : spec_ok env k ->
  read_options client_option (tail (client_words k)) (Build_opts (client_defaults p) 1 1 "" "") =
    (true, Build_opts (read_params k p) 1 1 (commas (k_servers k)) (k_experiment k)).
Proof.
  intros [? ? ? ? ? ? ? ? ? ? ?]. unfold client_words. cbn [tail app].
  erewrite read_int by (reflexivity || lia). erewrite read_text by reflexivity. erewrite read_int by (reflexivity || lia). erewrite read_int by (reflexivity || lia).
  erewrite read_int by (reflexivity || lia). erewrite read_text by reflexivity. erewrite read_int by (reflexivity || lia). erewrite read_text by reflexivity.
  erewrite read_text by reflexivity.
  destruct (k_one_way k) eqn:E1, (k_trunc k) eqn:E2; cbn [app]; repeat (erewrite read_flag by reflexivity); cbn [read_options];
    do 2 f_equal; unfold read_params, set_p; cbn -[u32]; rewrite E1, E2, u32_id by (unfold is_u32; lia); reflexivity.
Qed.

(** *** Clients *)

(** A client that was created for [k] as number [i]. *)
Definition client_for (k : client_spec) (p : params) (i : Z) (c : client_obj) : Prop :=
  co_id c = i /\ co_homa c = String.eqb (k_protocol k) "homa" /\ co_experiment c = k_experiment k /\ co_params c = spec_params k p /\
  forall n, cl_inv (config_of (spec_params k p)) (new_sys n (co_state c)).

Lemma spec_config_ok env k p : spec_ok env k -> config_ok (config_of (spec_params k p)).
Proof.
  intros H. constructor; [apply (sp_sorted _ _ H) | apply (sp_ids _ _ H) | apply (sp_server_ports _ _ H) |].
  change (1 <= spec_port_max k < 2 ^ 30). unfold spec_port_max. pose proof (sp_max _ _ H). pose proof (sp_ports _ _ H).
  assert (k_max k / k_ports k <= k_max k) by (apply Z.div_le_upper_bound; nia). destruct (Z.ltb_spec (k_max k / k_ports k) 1); lia.
Qed.

Lemma create_client_spec env k p i s :
  spec_ok env k -> pick_port (nd_p s) = spec_params k p ->
  exists s' c, create_client env (k_experiment k) i s = Ok (tt, s') /\ nd_p s' = spec_params k p /\ nd_clients s' = nd_clients s ++ [c] /\ client_for k p i c /\
    k_experiment k ∈ sv_experiments (nd_stats s').
Proof.
  intros Hk Hp. unfold create_client. rewrite (bind_eq (upd_nd _) _ _ _ _ eq_refl). set (s1 := s <| nd_p ::= pick_port |>).
  assert (nd_p s1 = spec_params k p) as E1 by exact Hp. rewrite (bind_eq get_nd _ _ _ _ eq_refl). rewrite E1.
  destruct (sp_workload _ _ Hk) as [points Hd]. change (p_workload (spec_params k p)) with (k_workload k). rewrite Hd, (bind_eq (lift (Ok points)) _ _ _ _ eq_refl).
  assert (Forall (fun node => node <> cc_node_id (config_of (spec_params k p)) -> ne_resolves env node = true) (cc_server_ids (config_of (spec_params k p)))) as Hres
    by (eapply Forall_impl; [apply (sp_resolves _ _ Hk) | done]).
  set (dbg := (nth 0 (nd_debug s1) 0, nth 1 (nd_debug s1) 0)).
  destruct (new_client_inv (ne_resolves env) (config_of (spec_params k p)) i (nd_freezer s1) dbg 0 (spec_config_ok env k p Hk) Hres) as (c & Hnew & _).
  rewrite Hnew, (bind_eq (lift (Ok c)) _ _ _ _ eq_refl). eexists _, _. split; [reflexivity |]. split; [exact E1 |]. split; [reflexivity |]. split.
  - unfold client_for. cbn [co_id co_homa co_experiment co_params co_state]. rewrite E1. split_ands; try done. intros n.
    destruct (new_client_inv (ne_resolves env) (config_of (spec_params k p)) i (nd_freezer s1) dbg n (spec_config_ok env k p Hk) Hres) as (c' & Hnew' & Hinv).
    rewrite Hnew in Hnew'. injection Hnew' as <-. exact Hinv.
  - cbn. unfold add_experiment. destruct (decide _) as [Hin | Hout]; [exact Hin |]. cbn. apply elem_of_app. right. by left.
Qed.

Lemma pick_port_spec k p : pick_port (spec_params k p) = spec_params k p.
Proof. unfold pick_port. destruct (Z.eqb_spec (p_first_port (spec_params k p)) (-1)) as [E | _]; [|done]. exfalso. cbn in E. destruct (String.eqb (k_protocol k) "homa"); discriminate E. Qed.

Lemma pick_port_read k p :
  pick_port ((read_params k p) <| p_server_ids := k_servers k |> <| p_port_max := spec_port_max k |>) = spec_params k p.
Proof. unfold pick_port. cbn [Z.eqb]. unfold is_homa, read_params, spec_params, client_defaults. cbn -[String.eqb spec_port_max]. reflexivity. Qed.

Lemma create_clients_loop env k p nums : forall s,
  spec_ok env k -> pick_port (nd_p s) = spec_params k p -> nums <> [] ->
  exists s' cs, mapM_ (create_client env (k_experiment k)) nums s = Ok (tt, s') /\ nd_p s' = spec_params k p /\ nd_clients s' = nd_clients s ++ cs /\
    Forall2 (client_for k p) nums cs /\ k_experiment k ∈ sv_experiments (nd_stats s').
Proof.
  induction nums as [|i nums IH]; intros s Hk Hp Hne; [done |]. cbn [mapM_].
  destruct (create_client_spec env k p i s Hk Hp) as (s1 & c & Hex & Hp1 & Hc & Hfor & Hexp). rewrite (bind_eq _ _ _ _ _ Hex).
  destruct nums as [|i2 nums].
  - exists s1, [c]. split_ands; [done | done | done | constructor; [exact Hfor | constructor] | done].
  - destruct (IH s1 Hk) as (s' & cs & Hex' & Hp' & Hc' & Hall & Hexp'); [by rewrite Hp1, pick_port_spec | done |].
    exists s', (c :: cs). rewrite Hex'. split_ands; [done | done | | by constructor | done]. rewrite Hc', Hc, <- app_assoc. done.
Qed.

(** ** Theorems *)

(** C25: a [client] command round trip.  The command line that spells out what
    the clients shall be is taken apart again to the same words, and executing
    it sets the variables to what was asked for and creates that many clients,
    each of which has these variables and satisfies the invariant of clients
    from which they run correctly. *)
Theorem client_command_correct env k s :
  spec_ok env k ->
  words_of (join (client_words k)) = client_words k /\
  exists s' cs, exec_string env (join (client_words k)) s = Ok (tt, s') /\ nd_p s' = spec_params k (nd_p s) /\ nd_clients s' = nd_clients s ++ cs /\
    Forall2 (client_for k (nd_p s)) (seqZ 0 (k_ports k)) cs /\ sv_time (nd_stats s') = 0 /\ k_experiment k ∈ sv_experiments (nd_stats s').
Proof.
  intros Hk. pose proof (words_of_join _ (client_words_ok env k Hk)) as Hw. split; [done |]. unfold exec_string. rewrite Hw.
  assert (exec_words env (client_words k) s = client_cmd env (client_words k) s) as E by reflexivity.
  pose proof (sp_ports _ _ Hk) as Hports.
  assert (exists s' cs, client_cmd env (client_words k) s = Ok (true, s') /\ nd_p s' = spec_params k (nd_p s) /\ nd_clients s' = nd_clients s ++ cs /\
    Forall2 (client_for k (nd_p s)) (seqZ 0 (k_ports k)) cs /\ sv_time (nd_stats s') = 0 /\ k_experiment k ∈ sv_experiments (nd_stats s'))
    as (s' & cs & Hex & H); [|exists s', cs; split; [|done]; unfold bind; by rewrite E, Hex].
  unfold client_cmd. rewrite (bind_eq get_nd _ _ _ _ eq_refl). rewrite (read_client_words env) by done. rewrite (bind_eq (upd_nd _) _ _ _ _ eq_refl). cbn [negb o_p].
  unfold server_id_list. cbn [o_servers]. destruct (commas_word _ (sp_nonempty _ _ Hk) (sp_ids _ _ Hk)) as [Hne _]. rewrite bool_decide_false by exact Hne.
  rewrite server_list_commas by (eapply Forall_impl; [apply (sp_ids _ _ Hk) | cbn; lia]). rewrite (bind_eq (upd_nd _) _ _ _ _ eq_refl). cbn [negb].
  assert (experiment_name (Build_opts (read_params k (nd_p s)) 1 1 (commas (k_servers k)) (k_experiment k)) = k_experiment k) as ->.
  { unfold experiment_name. cbn. pose proof (sp_words _ _ Hk) as Hws. apply Forall_cons in Hws as [[Hn _] _]. by rewrite bool_decide_false by exact Hn. }
  set (s1 := s <| nd_p := _ |> <| nd_p ::= _ |>). unfold create_clients. rewrite (bind_eq get_nd _ _ _ _ eq_refl).
  assert (p_client_ports (nd_p s1) = k_ports k /\ p_client_max (nd_p s1) = k_max k) as [-> ->] by done.
  rewrite (u32_id (k_ports k)) by (unfold is_u32; lia). destruct (Z.eqb_spec (k_ports k) 0); [lia |].
  rewrite (bind_eq (upd_nd _) _ _ _ _ eq_refl). set (s2 := s1 <| nd_p ::= _ |>).
  pose proof (pick_port_read k (nd_p s)) as Hp. change (_ <| p_port_max := _ |>) with (nd_p s2) in Hp.
  destruct (create_clients_loop env k (nd_p s) (seqZ 0 (k_ports k)) s2 Hk Hp) as (s3 & cs & Hex & Hp3 & Hc3 & Hall & Hexp).
  { rewrite seqZ_cons by lia. done. }
  rewrite (bind_eq _ _ _ _ _ Hex), (bind_eq (upd_nd _) _ _ _ _ eq_refl). eexists _, cs. split; [reflexivity |]. split_ands; done.
Qed.

Definition ex_env : node_env := Build_node_env (fun _ => true) (fun _ => true) true.
Definition ex_params : params := Build_params 1000 false 1 0 (-1) false "" 1 "homa" true false 0 "100" (-1) 1 [] 1 1 (-1) false.
Definition ex_node : node := Build_node ex_params [] [] [] [] (ex_stats <| sv_experiments := [] |>) [0; 0; 0; 0; 0] ex_fz NORMAL None [] [] [].
Definition ex_spec : client_spec := Build_client_spec 40 "exp1" 3 2 1 "tcp" 4 [1; 2; 10] "500" true false.

Lemma client_command_correct_witness :
  exists s' cs, exec_string ex_env (join (client_words ex_spec)) ex_node = Ok (tt, s') /\ nd_clients s' = cs /\ length cs = 2%nat.
Proof.
  destruct (client_command_correct ex_env ex_spec ex_node) as (_ & s' & cs & Hex & _ & Hc & Hall & _).
  - constructor; try (cbn; lia); try (vm_compute; by repeat constructor).
    vm_compute. eexists. reflexivity.
  - exists s', cs. split_ands; [exact Hex | exact Hc |]. apply Forall2_length in Hall. rewrite length_seqZ in Hall. cbn in Hall. lia.
Defined.

(** More values than [debug] has elements are reported and then stored. *)
Theorem debug_overrun : exec_string ex_env "debug 1 2 3 4 5 6" ex_node = Fault ArrayBounds.
Proof. vm_compute. reflexivity. Qed.

(** No client ports. *)
Theorem no_ports_divides_by_zero : exec_string ex_env "client --ports 0" ex_node = Fault DivByZero.
Proof. vm_compute. reflexivity. Qed.

(** The MTU for which no data fits in a packet. *)
Theorem info_divides_by_zero : exec_string ex_env "info 500 68" ex_node = Fault DivByZero.
Proof. vm_compute. reflexivity. Qed.
